(* ===== verification/_CoqProject ===== *)
-Q . S2P
Prelude.v
Host.v
Token.v
VoteBits.v
VoteMerkle.v
VoteRegister.v
VoteContract.v
VoteSpec.v
VoteRefine.v
VoteHistory.v
VoteTheorems.v
Words.v
AmmPrice.v
AmmBitmap.v
AmmReserves.v
AmmFee.v
AmmContract.v
AmmTheorems.v
RootErrors.v
Sqrt.v
TickIndex.v
TickList.v
TickPrice.v
Positions.v
TickBook.v
TickSwap.v
PositionBook.v
TickTheorems.v
BookData.v
BookTicks.v
BookSort.v
BookInv.v
BookOps.v
BookSteps.v
BookMargin.v
BookMarket.v
BookHistory.v
BookTheorems.v
CommitReveal.v
LpFarming.v
FarmBooks.v
FarmTheorems.v
Htlc.v
LinearVesting.v
Keys.v
KeyTheorems.v
AnchorCollateral.v
AnchorTheorems.v
KeyRecovery.v
Delegation.v
Remittance.v
RemittanceTheorems.v
LpPool.v
InterestRate.v
PoolInvariant.v
SpotBreaker.v
SplitEscrow.v
SplitTheorems.v
RewardSplitter.v
Governance.v
GovernanceEntry.v
GovernanceTheorems.v
StakingPool.v
WeightGuard.v
Fees.v
FeeTheorems.v
Multihop.v
DynamicRouter.v
RouterTheorems.v
Bridge.v
BridgeEscrow.v
BridgeCap.v
BridgeTheorems.v
OracleMath.v
Oracle.v
OracleAdmin.v
OracleActions.v
OracleTheorems.v
Vault.v
