(* ===== verification/Prelude.v ===== *)
(** * StellarFlow contracts: a verified model

    The repository holds Soroban smart contracts in Rust: a root contract
    (src/src/, one crate with governance, bridge, vaults, an automated market maker
    and an order book) and some forty smaller contracts (src/contracts/). This
    library models the parts below as Rocq functions and proves what they do.

    ** How the code is modelled

    Storage is a record with one field per storage key, a finite map ([gmap]) where
    the key carries arguments. An operation takes the storage and returns
    [result E (storage * value)]: [Ok], [Err e] for a Rust [Err], [Panic] for a trap
    (overflow of an unchecked operator with overflow checks on, [unwrap] or [expect]
    of nothing, a failed [assert!], a missing authorisation). [Err] and [Panic] carry
    no storage, because the host discards the writes of a failed invocation; a
    history is therefore a sequence of calls in which a failed call changes nothing.
    Integers are [Z] with the range of their Rust type: [chk] for the [checked_]
    methods, [iop] for the plain operators, [cast] for [as], [clamp] for the
    [saturating_] methods (this file). Loops are structural recursions on the list
    or counter they run over, or carry fuel that is proved to be enough.

    Not in the repository, hence parameters: the host ([Host.v]: addresses, SHA-256,
    XDR serialisation, with a length and an injectivity law and no assumption about
    collisions) and the token contracts ([Token.v]: an opaque ledger, with the effect
    of a call that returned as law). Each has a concrete instance ([test_host],
    [map_tokens]) on which every theorem with hypotheses is applied to concrete data.
    Events and the extension of an entry's time to live change no value that a
    contract reads, and are left out everywhere.

    ** The parts

    Governance vote archive (src/contracts/governance-vote-archive/):
    - [VoteBits.v] bits.rs, the packed 1-bit and 7-bit fields of 64-bit words;
    - [VoteMerkle.v] merkle.rs, roots, proofs and their verification (fuel: the
      number of leaves, each level being shorter than the one before);
    - [VoteRegister.v] register.rs, [VoteContract.v] the entry points of lib.rs;
    - [VoteSpec.v] the specification (for each proposal, the weight each voter had
      when voting), [VoteRefine.v] and [VoteHistory.v] the simulation;
    - [VoteTheorems.v]: the contract refines the specification call by call, errors
      and traps included; nobody counts twice; an executed tally is final; what is
      archived can be proved, and what verifies was archived, up to a hash collision.

    Pool contract (src/contracts/amm/):
    - [Words.v] 128-bit words; [AmmPrice.v] and [AmmBitmap.v] tick_bitmap.rs (fuel
      of the price search: 21, the bits of the tick range); [AmmReserves.v]
      virtual_reserves.rs; [AmmFee.v] adaptive_fee_engine.rs; [AmmContract.v] lib.rs;
    - [AmmTheorems.v]: the contract holds its recorded reserves after every history;
      a swap follows its formula and never decreases the product; withdrawals stop at
      the virtual core and do not dilute shares; a drained pool is stuck for good.

    Root market maker (src/src/amm/):
    - [TickIndex.v] ticks.rs, with [TickList.v], [TickPrice.v], [TickSwap.v] and
      [TickBook.v] (the histories) proving its parts; [Positions.v] positions.rs with
      [PositionBook.v]; the simulated swap runs [tick_count + 1] rounds as in the
      code, the square root at most 129, proved to be enough;
    - [TickTheorems.v]: gross, net and active liquidity are the sums of what was
      placed; the sorted list is a sorted set; splits conserve. It also proves that no
      tick is ever indexed, no swap simulation on a reachable store returns, and no
      position opens (see the findings of the manifest).

    Root order book (src/src/orders/limit.rs; entry points in src/src/lib.rs):
    - [BookData.v] the storage, balances, fill arithmetic and [apply_partial_fill];
      [BookTicks.v] tick volumes, the insertion sort, depth and spread; [BookOps.v]
      placing, filling, settling, cancelling, withdrawing, purging and the market
      matcher, over the ledger of the tokens;
    - [BookSort.v] the sort and the tick lists, [BookInv.v]
      the invariant [book_ok], [BookSteps.v] what a fill does and what is owed,
      [BookMargin.v] one lemma per operation, [BookMarket.v] the market walk
      (composition of walks over orders, buckets and ticks), [BookHistory.v] calls
      and reachable states;
    - [BookTheorems.v]: sorted ticks, first-in-first-out buckets, price-time priority
      without skipped orders, exact settlements, cancellations that always return the
      escrow, solvency; and that [fill_order] on a buy order breaks solvency, that
      settlements leave tick volumes behind and ignore expiry, that purging an open
      order traps.

    Commit-reveal orders (src/src/orders/commit_reveal.rs):
    - [CommitReveal.v] the operations over the book and the histories that mix both: solvency with bonds, a reveal places exactly the committed
      order or exhibits a collision, a commitment is settled once, exact counters.

    Liquidity mining (src/src/vaults/lp_farming.rs):
    - [LpFarming.v] the operations, [FarmBooks.v] the invariant and the potential that
      bounds what stakers can claim, [FarmTheorems.v]: rewards stay within the emission,
      shares are backed, the pending view is what a claim pays; rewards are not reserved.

    Hash time-locked contracts (src/src/settlement/htlc.rs):
    - [Htlc.v] the operations and the pruning of settled records: the
      records account for every amount, each is settled once, and an active one can
      always be settled by one party on each side of its deadline.

    Linear vesting (src/contracts/linear-vesting/):
    - [LinearVesting.v] the entry points: the contract holds what is
      unclaimed, claims follow the curve, and trap where its product overflows.

    Keys of the root contract (src/src/admin/mod.rs, auth/mod.rs, recovery.rs,
    staging.rs, security/pausable.rs, and entry points of lib.rs):
    - [Keys.v] the operations over one storage; a value read at another type than it was
      written with traps, as in the SDK;
    - [KeyTheorems.v]: the five ways the admin can change, with their evidence; and that
      nominations survive a revocation, that registering a signer disables
      revocations, that the multi-signature check authenticates nobody.

    Anchor collateral (src/src/settlement/anchor_collateral.rs):
    - [AnchorCollateral.v] the operations (fuel of the ratio comparison: 257, one round
      more than twice the bits of a denominator), [AnchorTheorems.v]: that comparison is
      exact and terminates, the aggregates are the queues, collateral
      covers them, the pause follows the ratio.

    Governance of the root contract (src/src/governance.rs, veto.rs, nonce.rs,
    voting_delegation.rs and their entry points in lib.rs):
    - [Governance.v] quorums, proposals, rotations, fee tiers and ballots,
      [GovernanceEntry.v] vetoes, overrides and upgrades, [GovernanceTheorems.v]: the quorum
      is exact, an upgrade waits its delay, what an override rests on, that a veto changes
      nothing;
    - [Delegation.v]: every unit of stake votes once.

    Fees and routers of the root contract (src/src/fees.rs, validation/dust.rs, router/,
    security/reentrancy.rs):
    - [Fees.v] corridor pools, shares, the fee that follows the volume (floating point as
      [spec_float]) and flash-loan fees, [FeeTheorems.v]: the fee stays on its tiers in every
      history, pools are handed out to the last unit;
    - [Multihop.v] routes over corridor pools and their dry run under the reentrancy lock:
      both agree, and the entry point, which locks twice, never runs one;
    - [DynamicRouter.v] the registry of pools, the search of three nested loops and the
      execution, [RouterTheorems.v]: the search is optimal over the trade paths specified
      without its loops, and a swap settles its quote, in every history.

    Bridge of the root contract (src/src/bridge/ and entry points of lib.rs):
    - [Bridge.v] mint.rs, rate_limit.rs, relayer.rs, attestation.rs and slashing.rs over one
      storage (the signature check of the host is a parameter), [BridgeEscrow.v] escrow.rs
      and timelock.rs, [BridgeTheorems.v]: one relation with every operation as a step and a
      log of what passed; the supply is the sum of the balances, the rolling limit holds
      whatever is pruned, a message is accepted once, a slashed validator stays out; and
      one donated token stops the escrow, one message mints any asset;
    - [BridgeCap.v] cap_guard.rs: supply stays within collateral; anybody can freeze it.

    Compounding vault of the root contract (src/src/vaults/):
    - [Vault.v] autocompound.rs, pause_guard.rs and the entry points over the lock: the value
      of a share never falls; the drawdown breaker fires only on a vault that was emptied
      and reopened, and then for good; a flash loan that pays a fee freezes the vault.

    Price oracle (src/contracts/price-oracle/src/):
    - [OracleMath.v] math.rs, median.rs, the percentages and penalties: the folded median is
      the median, and stays among the prices of a majority;
    - [Oracle.v] the storage, the feeds, twap.rs, validation.rs, callbacks.rs and the reads,
      [OracleAdmin.v] administration, circuit breakers, fees, stakes and unbonding,
      [OracleActions.v] the proposals of the admins and their votes;
    - [OracleTheorems.v]: one relation with every operation as a step; a buffer never holds
      two prices, so the quorum is never met, and prices move only while an admin has
      switched the checks off; what the execution of a proposal rests on, and that none
      is executed under the voting token.

    Guards and arithmetic of the root pools (src/src/amm/):
    - [PoolInvariant.v] invariant.rs and slippage.rs on [Words.v] (the long division runs
      128 rounds, one per bit); [SpotBreaker.v] circuit_breaker.rs and deviation_guard.rs:
      which prices pass, and that a trip is rolled back.

    Contracts of their own (src/contracts/):
    - [KeyRecovery.v] key-recovery: the admin changes only by a
      proposal that stood seven days;
    - [Remittance.v], [RemittanceTheorems.v] remittance-escrow and [SplitEscrow.v],
      [SplitTheorems.v] split-remittance-escrow: what the escrows hold and who is paid;
    - [RewardSplitter.v] reward-splitter: what a distribution pays;
    - [LpPool.v] lp-pool, on the square root of [Sqrt.v] (fuel 129): the
      value of a share never falls; [InterestRate.v] interest-rate-model;
    - [StakingPool.v] staking-pool: emission follows the schedule (fuel: the ledgers left);
      [WeightGuard.v] multisig-weight-guard: weights change slowly.

    [RootErrors.v] is the error enumeration of the root crate, with its codes and the
    aliases the modelled modules use.

    ** Bounds and assumptions of the theorems

    A history starts on empty storage, that of the bridge without assets at a positive time; every call is made by users, never by the
    contract's own address ([honest]). Solvency of the order book excludes
    [fill_order] on buy orders, which the theorems show to be the one operation that
    breaks it. Typing hypotheses ([Forall call_typed], ranges of [i128]) say that an
    argument is a value of its Rust type. Reentrancy guards are modelled in the routers,
    the bridge and the vault, where one call may take the lock twice, and left out elsewhere: the host does not
    re-enter a contract. [cancel_limit_order] of src/src/lib.rs asks
    for the maker's authorisation twice; the model asks once.

    ** Not modelled

    The slippage module of the price oracle, its slash for low liquidity (without a body
    in the repository), the remaining small contracts, and the other vault modules, staking, slashing and
    zero-knowledge modules of the root crate are listed in the manifest with their reasons.
    Functions that ask definitions the repository does not contain (the adaptive fee of
    the pools, [fees::resolve_swap_fee_bps], the swap quote of amm/invariant.rs) are left
    out; [veto::is_hash_vetoed], likewise undefined, is a parameter. Left out for good:
    vendored and third-party code (src/ethnum-patched, src/third-party), generated
    snapshots, tests and scripts, Solidity and documentation, event publication,
    storage accessors and host upgrades, and the files of the root crate that are not
    declared as modules. *)

From stdpp Require Import base numbers list gmap option.
From Stdlib Require Import ZArith Lia.

Declare Scope rust_scope.
Delimit Scope rust_scope with rust.

(** ** Results: [Ok] and [Err] of Rust's [Result], and [Panic] for a trap
    (overflow of an unchecked operator, [unwrap] of [None], an index out of
    range, a host trap). [Err] and [Panic] both abort the invocation, and the
    host then discards its writes: a state-changing operation therefore returns
    the new state only with [Ok]. *)
Inductive result (E A : Type) : Type :=
| Ok (a : A)
| Err (e : E)
| Panic.
Arguments Ok {E A} _.
Arguments Err {E A} _.
Arguments Panic {E A}.

#[export] Instance result_ret (E : Type) : MRet (result E) := fun A a => Ok a.
#[export] Instance result_bind (E : Type) : MBind (result E) :=
  fun A B f r => match r with Ok a => f a | Err e => Err e | Panic => Panic end.
#[export] Instance result_fmap (E : Type) : FMap (result E) :=
  fun A B f r => match r with Ok a => Ok (f a) | Err e => Err e | Panic => Panic end.

#[export] Instance result_eq_dec (E A : Type) `{EqDecision E, EqDecision A} :
  EqDecision (result E A).
Proof. solve_decision. Defined.

(** [if b { return Err(e) }] *)
Definition fail_if {E : Type} (b : bool) (e : E) : result E unit :=
  if b then Err e else Ok tt.

(** [o.ok_or(e)?] *)
Definition ok_or {E A : Type} (o : option A) (e : E) : result E A :=
  match o with Some a => Ok a | None => Err e end.

(** [o.unwrap()] *)
Definition unwrap {E A : Type} (o : option A) : result E A :=
  match o with Some a => Ok a | None => Panic end.

(** [a.require_auth()]: the host traps when [a] did not authorise the call. *)
Definition require_auth {E A : Type} (auth : A -> bool) (a : A) : result E unit :=
  if auth a then Ok tt else Panic.

(** [r.map_err(f)] *)
Definition map_err {E F A : Type} (f : E -> F) (r : result E A) : result F A :=
  match r with Ok a => Ok a | Err e => Err (f e) | Panic => Panic end.

Definition is_ok {E A : Type} (r : result E A) : bool :=
  match r with Ok _ => true | _ => false end.

Section result_lemmas.
Context {E A B : Type}.

Lemma bind_Ok (r : result E A) (f : A -> result E B) (b : B) :
  (r ≫= f) = Ok b <-> exists a, r = Ok a /\ f a = Ok b.
Proof. destruct r; cbn; split; [eauto|naive_solver|done|naive_solver|done|naive_solver]. Qed.

Lemma bind_Err (r : result E A) (f : A -> result E B) (e : E) :
  (r ≫= f) = Err e <-> r = Err e \/ exists a, r = Ok a /\ f a = Err e.
Proof. destruct r; cbn; naive_solver. Qed.

(** Rewriting with these keeps the kernel from comparing two unrelated binds. *)
Lemma bind_ret (a : A) (f : A -> result E B) : (Ok a ≫= f) = f a.
Proof. done. Qed.

Lemma fail_if_pass (b : bool) (e : E) (f : unit -> result E B) :
  b = false -> (fail_if b e ≫= f) = f tt.
Proof. by intros ->. Qed.

Lemma fail_if_Ok (b : bool) (e : E) (u : unit) : fail_if b e = Ok u <-> b = false.
Proof. destruct b, u; cbn; naive_solver. Qed.

Lemma fail_if_Err (b : bool) (e e' : E) : fail_if b e = Err e' <-> b = true /\ e' = e.
Proof. destruct b; cbn; naive_solver. Qed.

Lemma ok_or_Ok (o : option A) (e : E) (a : A) : ok_or o e = Ok a <-> o = Some a.
Proof. destruct o; cbn; naive_solver. Qed.

Lemma unwrap_Ok (o : option A) (a : A) : @unwrap E A o = Ok a <-> o = Some a.
Proof. destruct o; cbn; naive_solver. Qed.

Lemma require_auth_Ok (auth : A -> bool) (a : A) (u : unit) :
  @require_auth E A auth a = Ok u <-> auth a = true.
Proof. unfold require_auth. destruct (auth a), u; naive_solver. Qed.

Lemma map_err_Ok {F : Type} (f : E -> F) (r : result E A) (a : A) :
  map_err f r = Ok a <-> r = Ok a.
Proof. destruct r; cbn; naive_solver. Qed.

Lemma is_ok_Ok (r : result E A) : is_ok r = true -> exists a, r = Ok a.
Proof. destruct r; [eauto|done..]. Qed.
End result_lemmas.

(** [inv_ok H]: [H] says that a monadic computation returned [Ok]; split it into
    the facts that each of its steps returned [Ok]. *)
Ltac inv_ok H :=
  lazymatch type of H with
  | (_ ≫= _) = Ok _ =>
      let a := fresh "a" in let H1 := fresh "Hr" in let H2 := fresh "Hk" in
      apply bind_Ok in H as (a & H1 & H2); cbn beta in H2; inv_ok H1; inv_ok H2
  | fail_if _ _ = Ok _ => apply fail_if_Ok in H
  | ok_or _ _ = Ok _ => apply ok_or_Ok in H
  | unwrap _ = Ok _ => apply unwrap_Ok in H
  | map_err _ _ = Ok _ => apply map_err_Ok in H; inv_ok H
  | require_auth _ _ = Ok _ => apply require_auth_Ok in H
  | Ok ?a = Ok ?b => first [is_var a | is_var b | idtac]; injection H; intros; clear H; subst
  | mret _ = Ok _ => unfold mret, result_ret in H; inv_ok H
  | Err _ = Ok _ => discriminate H
  | Panic = Ok _ => discriminate H
  | _ => idtac
  end.

(** ** Machine integers: values of [Z] with the range of their type. *)
Inductive ity := U8 | U16 | U32 | U64 | U128 | I32 | I64 | I128.

Definition imin (t : ity) : Z :=
  match t with
  | U8 | U16 | U32 | U64 | U128 => 0
  | I32 => - 2 ^ 31 | I64 => - 2 ^ 63 | I128 => - 2 ^ 127
  end%Z.

Definition imax (t : ity) : Z :=
  match t with
  | U8 => 2 ^ 8 - 1 | U16 => 2 ^ 16 - 1 | U32 => 2 ^ 32 - 1 | U64 => 2 ^ 64 - 1
  | U128 => 2 ^ 128 - 1
  | I32 => 2 ^ 31 - 1 | I64 => 2 ^ 63 - 1 | I128 => 2 ^ 127 - 1
  end%Z.

Definition bits_of (t : ity) : Z :=
  match t with
  | U8 => 8 | U16 => 16 | U32 | I32 => 32 | U64 | I64 => 64 | U128 | I128 => 128
  end%Z.

Definition fits (t : ity) (z : Z) : bool := ((imin t <=? z) && (z <=? imax t))%Z.

(** [z as t]: the two's complement value of [z] in the range of [t]. *)
Definition cast (t : ity) (z : Z) : Z :=
  ((z - imin t) mod 2 ^ bits_of t + imin t)%Z.

Definition clamp (t : ity) (z : Z) : Z := Z.max (imin t) (Z.min (imax t) z).

(** The checked, saturating and wrapping operators of Rust's integer types. *)
Definition chk (t : ity) (z : Z) : option Z := if fits t z then Some z else None.
Definition checked_add (t : ity) (a b : Z) : option Z := chk t (a + b)%Z.
Definition checked_sub (t : ity) (a b : Z) : option Z := chk t (a - b)%Z.
Definition checked_mul (t : ity) (a b : Z) : option Z := chk t (a * b)%Z.
Definition checked_div (t : ity) (a b : Z) : option Z :=
  if (b =? 0)%Z then None else chk t (Z.quot a b).
Definition checked_abs (t : ity) (a : Z) : option Z := chk t (Z.abs a).
Definition saturating_add (t : ity) (a b : Z) : Z := clamp t (a + b)%Z.
Definition saturating_sub (t : ity) (a b : Z) : Z := clamp t (a - b)%Z.
Definition saturating_mul (t : ity) (a b : Z) : Z := clamp t (a * b)%Z.
Definition wrapping_add (t : ity) (a b : Z) : Z := cast t (a + b)%Z.
Definition wrapping_sub (t : ity) (a b : Z) : Z := cast t (a - b)%Z.
Definition wrapping_mul (t : ity) (a b : Z) : Z := cast t (a * b)%Z.

Definition overflowing_add (t : ity) (a b : Z) : Z * bool :=
  (cast t (a + b)%Z, negb (fits t (a + b)%Z)).

(** The unchecked operators: the crates build with [overflow-checks = true], so
    a result out of range traps, as does a division by zero. *)
Definition iop {E : Type} (t : ity) (z : Z) : result E Z :=
  if fits t z then Ok z else Panic.
Definition iadd {E : Type} (t : ity) (a b : Z) : result E Z := iop t (a + b)%Z.
Definition isub {E : Type} (t : ity) (a b : Z) : result E Z := iop t (a - b)%Z.
Definition imul {E : Type} (t : ity) (a b : Z) : result E Z := iop t (a * b)%Z.
Definition idiv {E : Type} (t : ity) (a b : Z) : result E Z :=
  if (b =? 0)%Z then Panic else iop t (Z.quot a b).
Definition irem {E : Type} (t : ity) (a b : Z) : result E Z :=
  if (b =? 0)%Z then Panic else if fits t (Z.quot a b) then Ok (Z.rem a b) else Panic.
Definition ineg {E : Type} (t : ity) (a : Z) : result E Z := iop t (- a)%Z.

(** [a.div_euclid(b)]: the remainder is never negative. *)
Definition idiv_euclid {E : Type} (t : ity) (a b : Z) : result E Z :=
  if (b =? 0)%Z then Panic else iop t (if (0 <? b)%Z then a / b else - (a / - b))%Z.

(** [a << s] (bits shifted out are dropped) and [!a] of an unsigned type. *)
Definition shl (t : ity) (a s : Z) : Z := cast t (Z.shiftl a s).
Definition bnot (t : ity) (a : Z) : Z := Z.lxor a (imax t).

Lemma fits_spec (t : ity) (z : Z) : fits t z = true <-> (imin t <= z <= imax t)%Z.
Proof. unfold fits. rewrite andb_true_iff, !Z.leb_le. lia. Qed.

Lemma chk_Some (t : ity) (z r : Z) : chk t z = Some r <-> r = z /\ (imin t <= z <= imax t)%Z.
Proof.
  unfold chk. rewrite <- fits_spec. destruct (fits t z); naive_solver.
Qed.

Lemma iop_Ok {E : Type} (t : ity) (z r : Z) :
  @iop E t z = Ok r <-> r = z /\ (imin t <= z <= imax t)%Z.
Proof. unfold iop. rewrite <- fits_spec. destruct (fits t z); naive_solver. Qed.

Lemma iop_in {E : Type} (t : ity) (z : Z) : (imin t <= z <= imax t)%Z -> @iop E t z = Ok z.
Proof. intros H. apply iop_Ok. done. Qed.

Lemma range_width (t : ity) : (imax t - imin t + 1 = 2 ^ bits_of t)%Z.
Proof. destruct t; reflexivity. Qed.

Lemma cast_in (t : ity) (z : Z) : (imin t <= z <= imax t)%Z -> cast t z = z.
Proof.
  intros H. unfold cast. pose proof (range_width t).
  rewrite Z.mod_small; lia.
Qed.

Lemma cast_range (t : ity) (z : Z) : (imin t <= cast t z <= imax t)%Z.
Proof.
  unfold cast. pose proof (range_width t).
  assert (0 < 2 ^ bits_of t)%Z by (destruct t; reflexivity).
  pose proof (Z.mod_pos_bound (z - imin t) (2 ^ bits_of t) ltac:(done)). lia.
Qed.

Lemma clamp_in (t : ity) (z : Z) : (imin t <= z <= imax t)%Z -> clamp t z = z.
Proof. unfold clamp. lia. Qed.

Create HintDb rust.
#[export] Hint Resolve iop_in cast_in clamp_in cast_range : rust.

(** Reduce range bounds of concrete integer types, then [lia]. *)
Ltac ilia :=
  unfold imin, imax in *; change (2 ^ 31)%Z with 2147483648%Z in *;
  change (2 ^ 32)%Z with 4294967296%Z in *;
  change (2 ^ 63)%Z with 9223372036854775808%Z in *;
  change (2 ^ 64)%Z with 18446744073709551616%Z in *;
  change (2 ^ 127)%Z with 170141183460469231731687303715884105728%Z in *;
  change (2 ^ 128)%Z with 340282366920938463463374607431768211456%Z in *; lia.

(** ** Host vectors: lists whose length is a [u32]. *)
Definition len {A : Type} (l : list A) : Z := Z.of_nat (length l).

(** [v.get(i)] *)
Definition vget {A : Type} (l : list A) (i : Z) : option A :=
  if (i <? 0)%Z then None else l !! Z.to_nat i.

(** [v.set(i, x)]: the host traps out of range. *)
Definition vset {E A : Type} (l : list A) (i : Z) (x : A) : result E (list A) :=
  if ((0 <=? i) && (i <? len l))%Z then Ok (<[Z.to_nat i := x]> l) else Panic.

(** [v.push_back(x)]: the length of a host vector is a [u32]. *)
Definition vpush {E A : Type} (l : list A) (x : A) : result E (list A) :=
  if (len l <? imax U32)%Z then Ok (l ++ [x]) else Panic.

Lemma vget_Some {A : Type} (l : list A) (i : Z) (x : A) :
  vget l i = Some x <-> (0 <= i)%Z /\ l !! Z.to_nat i = Some x.
Proof. unfold vget. destruct (Z.ltb_spec i 0); naive_solver lia. Qed.

Lemma vget_nat {A : Type} (l : list A) (i : nat) : vget l (Z.of_nat i) = l !! i.
Proof.
  unfold vget. destruct (Z.ltb_spec (Z.of_nat i) 0); [lia|]. by rewrite Nat2Z.id.
Qed.

Lemma vset_Ok {E A : Type} (l : list A) (i : Z) (x : A) (l' : list A) :
  @vset E A l i x = Ok l' <-> (0 <= i < len l)%Z /\ l' = <[Z.to_nat i := x]> l.
Proof.
  unfold vset. destruct (Z.leb_spec 0 i), (Z.ltb_spec i (len l)); cbn; naive_solver lia.
Qed.

Lemma vpush_Ok {E A : Type} (l : list A) (x : A) (l' : list A) :
  @vpush E A l x = Ok l' <-> (len l < imax U32)%Z /\ l' = l ++ [x].
Proof.
  unfold vpush. destruct (Z.ltb_spec (len l) (imax U32)); naive_solver lia.
Qed.

Lemma len_app {A : Type} (l k : list A) : len (l ++ k) = (len l + len k)%Z.
Proof. unfold len. rewrite length_app. lia. Qed.

Lemma len_nonneg {A : Type} (l : list A) : (0 <= len l)%Z.
Proof. unfold len. lia. Qed.

(** ** Sums of lists of integers *)
Definition zsum (l : list Z) : Z := foldr Z.add 0%Z l.

#[export] Instance zsum_perm : Proper (Permutation ==> eq) zsum.
Proof. induction 1; cbn; unfold zsum in *; lia. Qed.

Lemma zsum_app (l k : list Z) : zsum (l ++ k) = (zsum l + zsum k)%Z.
Proof. induction l as [|x l IH]; cbn; [done|]. unfold zsum in *. rewrite IH. lia. Qed.

Lemma zsum_bound (b : Z) (l : list Z) :
  Forall (fun z => 0 <= z <= b)%Z l -> (0 <= zsum l <= b * Z.of_nat (length l))%Z.
Proof. induction 1; cbn [zsum foldr length]; [lia|]. fold (zsum l). nia. Qed.

(** ** Sums over finite maps: [msum f m] adds [f k x] over the entries of [m]. The books of the
    modelled contracts (locked collateral, balances, net liquidity) are such sums. *)
Section msum.
#[local] Open Scope Z_scope.
Context {K A : Type} `{Countable K}.
Implicit Types (f g : K -> A -> Z) (m : gmap K A).

Definition msum f m : Z := map_fold (fun k x acc => f k x + acc) 0 m.

(** The term of one key. *)
Definition term f m (k : K) : Z := match m !! k with Some x => f k x | None => 0 end.

Lemma msum_empty f : msum f ∅ = 0.
Proof. apply map_fold_empty. Qed.

Lemma msum_insert_new f m k x : m !! k = None -> msum f (<[k := x]> m) = msum f m + f k x.
Proof.
  intros Hk. unfold msum.
  rewrite (map_fold_insert_L (fun k x acc => f k x + acc)); [lia|intros; lia|done].
Qed.

Lemma msum_delete f m k : msum f (delete k m) = msum f m - term f m k.
Proof.
  unfold term. destruct (m !! k) as [x|] eqn:E.
  - rewrite <- (insert_delete_id m k x E) at 2. rewrite msum_insert_new by apply lookup_delete_eq. lia.
  - rewrite delete_id by done. lia.
Qed.

Lemma msum_insert f m k x : msum f (<[k := x]> m) = msum f m - term f m k + f k x.
Proof.
  rewrite <- insert_delete_eq, msum_insert_new by apply lookup_delete_eq. rewrite msum_delete. lia.
Qed.

Lemma msum_ext f g m : (forall k x, m !! k = Some x -> f k x = g k x) -> msum f m = msum g m.
Proof.
  induction m as [|k x m Hk IH] using map_ind; intros Hfg; [by rewrite !msum_empty|].
  rewrite !msum_insert_new by done. rewrite (Hfg k x) by apply lookup_insert_eq.
  rewrite IH; [done|]. intros k' x' Hk'. apply Hfg. rewrite lookup_insert_ne; [done|congruence].
Qed.

Lemma msum_nonneg f m : (forall k x, m !! k = Some x -> 0 <= f k x) -> 0 <= msum f m.
Proof.
  induction m as [|k x m Hk IH] using map_ind; intros Hf; [by rewrite msum_empty|].
  rewrite msum_insert_new by done. pose proof (Hf k x (lookup_insert_eq m k x)).
  assert (0 <= msum f m); [|lia].
  apply IH. intros k' x' Hk'. apply Hf. rewrite lookup_insert_ne; [done|congruence].
Qed.

Lemma msum_term_le f m k :
  (forall k x, m !! k = Some x -> 0 <= f k x) -> term f m k <= msum f m.
Proof.
  intros Hf. pose proof (msum_delete f m k). assert (0 <= msum f (delete k m)); [|lia].
  apply msum_nonneg. intros k' x' Hk'. apply Hf. by apply lookup_delete_Some in Hk' as [_ ?].
Qed.

Lemma msum_zero f m : (forall k x, m !! k = Some x -> f k x = 0) -> msum f m = 0.
Proof.
  intros Hf. rewrite (msum_ext f (fun _ _ => 0)); [|done].
  induction m as [|k x m Hk IH] using map_ind; [by rewrite msum_empty|].
  rewrite msum_insert_new, IH; [done| |done].
  intros k' x' Hk'. apply Hf. rewrite lookup_insert_ne; [done|congruence].
Qed.

Lemma msum_scale_le c f g m : (forall k x, m !! k = Some x -> c * f k x <= g k x) -> c * msum f m <= msum g m.
Proof.
  induction m as [|k x m Hk IH] using map_ind; intros Hfg; [rewrite !msum_empty; lia|].
  rewrite !msum_insert_new by done. pose proof (Hfg k x (lookup_insert_eq m k x)).
  assert (c * msum f m <= msum g m); [|lia].
  apply IH. intros k' x' Hk'. apply Hfg. rewrite lookup_insert_ne; [done|congruence].
Qed.

Lemma msum_mul c f m : msum (fun k x => c * f k x) m = c * msum f m.
Proof.
  induction m as [|k x m Hk IH] using map_ind; [rewrite !msum_empty; lia|].
  rewrite !msum_insert_new by done. lia.
Qed.
End msum.
