(* ===== verification/Host.v ===== *)
(** * The Soroban host the contracts run on

    The [soroban_sdk] is not part of the repository: what the contracts use of it
    is a parameter. [Host] is the interface: an opaque type of addresses with
    decidable equality, the XDR serialisation of an address and the SHA-256
    function. [HostLaws] are the documented facts the proofs rely on; nothing is
    assumed about collisions of the hash. [test_host] is a concrete instance, on
    which the witnesses evaluate.

    Integers are in big-endian as [to_be_bytes] of Rust's integer types. *)

From stdpp Require Import base numbers list countable.
From Stdlib Require Import ZArith Lia.
From S2P Require Import Prelude.

Open Scope Z_scope.

(** Bytes are integers in [0..255]. *)
Abbreviation bytes := (list Z).

Class Host := {
  Address : Type;
  Address_eq_dec :: EqDecision Address;
  Address_countable :: Countable Address;
  sha256 : bytes -> bytes;
  to_xdr : Address -> bytes
}.

Class HostLaws (H : Host) := {
  sha256_length : forall x, length (sha256 x) = 32%nat;
  to_xdr_inj : forall a b, to_xdr a = to_xdr b -> a = b;
  to_xdr_length : forall a, len (to_xdr a) <= imax U32
}.

(** [z.to_be_bytes()] of an unsigned type of [n] bytes. *)
Fixpoint to_be_bytes (n : nat) (z : Z) : bytes :=
  match n with
  | O => []
  | S m => (z / 256 ^ Z.of_nat m) mod 256 :: to_be_bytes m z
  end.

Lemma to_be_bytes_length (n : nat) (z : Z) : length (to_be_bytes n z) = n.
Proof. induction n; cbn; congruence. Qed.

Lemma to_be_bytes_mod (n : nat) (a b : Z) :
  to_be_bytes n a = to_be_bytes n b ->
  a mod 256 ^ Z.of_nat n = b mod 256 ^ Z.of_nat n.
Proof.
  induction n as [|n IH]; intros H; [by rewrite !Z.mod_1_r|].
  cbn [to_be_bytes] in H. injection H as Hd Hr. specialize (IH Hr).
  rewrite Nat2Z.inj_succ, Z.pow_succ_r by lia. rewrite (Z.mul_comm 256).
  rewrite !Z.rem_mul_r by lia. congruence.
Qed.

Lemma to_be_bytes_inj (n : nat) (a b : Z) :
  0 <= a < 256 ^ Z.of_nat n -> 0 <= b < 256 ^ Z.of_nat n ->
  to_be_bytes n a = to_be_bytes n b -> a = b.
Proof.
  intros Ha Hb H%to_be_bytes_mod. by rewrite !Z.mod_small in H.
Qed.

(** ** A concrete host: addresses are integers and the hash is a polynomial of the
    bytes, padded to 32 bytes. *)
Definition toy_hash (x : bytes) : bytes :=
  to_be_bytes 32 (foldl (fun acc b => (acc * 257 + b + 1) mod 2 ^ 255) 7 x).

#[local] Instance test_host : Host := {|
  Address := Z;
  sha256 := toy_hash;
  to_xdr := fun a => [a]
|}.

#[local] Instance test_host_laws : HostLaws test_host.
Proof.
  constructor.
  - intros x. apply to_be_bytes_length.
  - intros a b. cbn. congruence.
  - intros a. vm_compute. discriminate.
Qed.
