(* ===== verification/Token.v ===== *)
(** * Token contracts, as the contracts of the repository use them

    A token is another contract of the network: its code is not in the
    repository. [Tokens] is the interface the contracts call (the [TokenClient] and
    [StellarAssetClient] of the SDK): an opaque ledger of every token, the balance
    it records for an address, and the calls, which trap ([None]) when they fail.
    [TokenLaws] is the documented effect of a call that returned: the
    amount is not negative, the paying account held it, and only the accounts named
    in the call change. [map_tokens] is a
    concrete instance for the witnesses. *)

From stdpp Require Import base numbers list gmap.
From Stdlib Require Import ZArith Lia.
From S2P Require Import Prelude Host.

Open Scope Z_scope.

Class Tokens (H : Host) := {
  Ledger : Type;
  balance : Ledger -> Address -> Address -> Z;
  transfer : Ledger -> Address -> Address -> Address -> Z -> option Ledger;
  mint : Ledger -> Address -> Address -> Z -> option Ledger;
  burn : Ledger -> Address -> Address -> Z -> option Ledger
}.

(** The share of [amt] that concerns the account [(t, a)]. *)
Definition at_account {H : Host} (tok who t a : Address) (amt : Z) : Z :=
  if decide (t = tok /\ a = who) then amt else 0.

Class TokenLaws (H : Host) (T : Tokens H) := {
  transfer_spec : forall l tok from to amt l', transfer l tok from to amt = Some l' ->
    0 <= amt <= balance l tok from /\ forall t a, balance l' t a
      = balance l t a - at_account tok from t a amt + at_account tok to t a amt;
  mint_spec : forall l tok to amt l', mint l tok to amt = Some l' ->
    0 <= amt /\ forall t a, balance l' t a = balance l t a + at_account tok to t a amt;
  burn_spec : forall l tok from amt l', burn l tok from amt = Some l' ->
    0 <= amt <= balance l tok from /\ forall t a, balance l' t a = balance l t a - at_account tok from t a amt
}.

(** ** A concrete ledger: a map from (token, account) to balance. *)
Section map_tokens.
Context (H : Host).

Definition map_balance (l : gmap (Address * Address) Z) (t a : Address) : Z :=
  default 0 (l !! (t, a)).

Definition map_credit (l : gmap (Address * Address) Z) (t a : Address) (amt : Z) :
    gmap (Address * Address) Z :=
  <[(t, a) := map_balance l t a + amt]> l.

Definition map_debit (l : gmap (Address * Address) Z) (t a : Address) (amt : Z) :
    option (gmap (Address * Address) Z) :=
  if (0 <=? amt) && (amt <=? map_balance l t a) then Some (map_credit l t a (- amt)) else None.

Definition map_tokens : Tokens H := {|
  Ledger := gmap (Address * Address) Z;
  balance := map_balance;
  transfer l tok from to amt := l' ← map_debit l tok from amt; Some (map_credit l' tok to amt);
  mint l tok to amt := if 0 <=? amt then Some (map_credit l tok to amt) else None;
  burn l tok from amt := map_debit l tok from amt
|}.

Lemma map_credit_spec (l : gmap (Address * Address) Z) (tok who t a : Address) (amt : Z) :
  map_balance (map_credit l tok who amt) t a = map_balance l t a + at_account tok who t a amt.
Proof.
  unfold map_credit, at_account. unfold map_balance at 1. case_decide as Hc.
  - destruct Hc as [-> ->]. by rewrite lookup_insert_eq.
  - rewrite lookup_insert_ne by naive_solver. fold (map_balance l t a). lia.
Qed.

Lemma map_debit_spec (l l' : gmap (Address * Address) Z) (tok who : Address) (amt : Z) :
  map_debit l tok who amt = Some l' ->
  0 <= amt <= map_balance l tok who /\ forall t a, map_balance l' t a = map_balance l t a - at_account tok who t a amt.
Proof.
  unfold map_debit. destruct (Z.leb_spec 0 amt); cbn [andb]; [|done].
  destruct (Z.leb_spec amt (map_balance l tok who)); intros [= <-]. split; [done|]. intros t a.
  rewrite map_credit_spec. unfold at_account. case_decide; lia.
Qed.

Lemma map_token_laws : TokenLaws H map_tokens.
Proof.
  constructor; cbn.
  - intros l tok from to amt l'. destruct (map_debit l tok from amt) as [l1|] eqn:E; [|done].
    cbn. intros [= <-]. apply map_debit_spec in E as [Ha E]. split; [done|].
    intros t a. by rewrite map_credit_spec, E.
  - intros l tok to amt l'. destruct (Z.leb_spec 0 amt); [|done]. intros [= <-].
    split; [done|]. intros t a. apply map_credit_spec.
  - intros l tok from amt l'. apply map_debit_spec.
Qed.
End map_tokens.
