(* ===== verification/VoteBits.v ===== *)
(** * Vote bit-fields ([contracts/governance-vote-archive/src/bits.rs])

    The codecs that pack boolean vote options, one bit each, and vote weights,
    seven bits each, into 64-bit words. A [Vec<u64>] is a list of integers; its
    words are in the range of [u64] ([words_ok]), which every codec preserves.

    The first section is a small theory of a packed word: a word is an array of
    [B]-bit fields, and [field] reads one. Options are the instance [B = 1] with
    64 fields to a word, weights the instance [B = 7] with nine. *)

From stdpp Require Import base numbers list option sets.
From Stdlib Require Import ZArith Lia.
From S2P Require Import Prelude.

Open Scope Z_scope.

(** ** The contract's errors ([lib.rs]) *)
Inductive ArchiveError :=
| AlreadyInitialized | NotInitialized | NotAdmin | NotAuthorized | AlreadyVoted
| ProposalNotFound | ProposalAlreadyExists | ProposalClosed | ThresholdNotReached
| ProposalNotExecuted | AlreadyCompressed | InvalidVoteWeight | ArchiveNotFound
| UnknownVoter | InvalidPackedLength | InvalidThreshold.

#[export] Instance ArchiveError_eq_dec : EqDecision ArchiveError.
Proof. solve_decision. Defined.

(** ** Constants *)
Definition WEIGHT_BITS : Z := 7.
Definition WEIGHTS_PER_WORD : Z := 9.
Definition MIN_VOTE_WEIGHT : Z := 1.
Definition MAX_VOTE_WEIGHT : Z := 100.
Definition DEFAULT_VOTE_WEIGHT : Z := 1.
Definition WEIGHT_FIELD_MAX : Z := Z.shiftl 1 WEIGHT_BITS - 1.
Definition WORD_BITS : Z := 64.
Definition WEIGHT_MASK : Z := Z.shiftl 1 WEIGHT_BITS - 1.

(** ** The evidence gate *)
Record VoteModelEvidence := {
  weight_min : Z;
  weight_max : Z;
  weight_default : Z;
  has_fractional_weights : bool
}.

Definition OBSERVED_VOTE_MODEL : VoteModelEvidence := {|
  weight_min := MIN_VOTE_WEIGHT;
  weight_max := MAX_VOTE_WEIGHT;
  weight_default := DEFAULT_VOTE_WEIGHT;
  has_fractional_weights := false
|}.

Definition weights_are_packable (m : VoteModelEvidence) : bool :=
  negb (has_fractional_weights m)
  && (MIN_VOTE_WEIGHT <=? weight_min m)
  && (weight_max m <=? WEIGHT_FIELD_MAX).

Inductive Encoding := Packed | DetailedFallback.

Definition pack_weight (weight : Z) : result ArchiveError Z :=
  fail_if ((weight <? MIN_VOTE_WEIGHT) || (MAX_VOTE_WEIGHT <? weight)) InvalidVoteWeight ;;
  Ok (cast U64 weight).

Definition encoding_for (weight : Z) : Encoding :=
  if weights_are_packable OBSERVED_VOTE_MODEL && is_ok (pack_weight weight)
  then Packed else DetailedFallback.

(** ** Word counts. The operands are [u32] and [len - 1] is only formed when
    [len] is positive, so no intermediate value leaves the range. *)
Definition word_count (len per_word : Z) : Z :=
  if len =? 0 then 0 else (len - 1) / per_word + 1.

Definition option_word_count (len : Z) : Z := word_count len WORD_BITS.
Definition weight_word_count (len : Z) : Z := word_count len WEIGHTS_PER_WORD.

(** [0..len] *)
Definition zrange (len : Z) : list Z := Z.of_nat <$> seq 0 (Z.to_nat len).

(** [words[k] |= m] on a slice: an index out of range traps. *)
Definition or_word (words : list Z) (k m : Z) : result ArchiveError (list Z) :=
  w ← unwrap (vget words k); vset words k (Z.lor w m).

(** ** Boolean options *)
Fixpoint pack_options_loop (i : nat) (options : list bool) (words : list Z)
  : result ArchiveError (list Z) :=
  match options with
  | [] => Ok words
  | opted :: rest =>
      words' ← (if opted : bool
                then or_word words (Z.of_nat i / WORD_BITS)
                       (shl U64 1 (Z.of_nat i mod WORD_BITS))
                else Ok words);
      pack_options_loop (S i) rest words'
  end.

Definition pack_vote_options (options : list bool) : result ArchiveError (list Z) :=
  pack_options_loop 0 options
    (replicate (Z.to_nat (option_word_count (cast U32 (len options)))) 0).

Definition is_bit_set (words : list Z) (index : Z) : bool :=
  let word := index / WORD_BITS in
  let shift := index mod WORD_BITS in
  match vget words word with
  | Some w => Z.land (Z.shiftr w shift) 1 =? 1
  | None => false
  end.

Definition unpack_vote_options (words : list Z) (n : Z) : result ArchiveError (list bool) :=
  fail_if (len words <? option_word_count n) InvalidPackedLength ;;
  Ok (is_bit_set words <$> zrange n).

(** [while words.len() < needed { words.push_back(0) }]: [fuel] bounds the number
    of iterations; [ensure_words_long] shows that the bound given is enough. *)
Fixpoint ensure_words_loop (fuel : nat) (words : list Z) (needed : Z)
  : result ArchiveError (list Z) :=
  match fuel with
  | O => Ok words
  | S fuel' =>
      if len words <? needed
      then words' ← vpush words 0; ensure_words_loop fuel' words' needed
      else Ok words
  end.

Definition ensure_words (words : list Z) (needed : Z) : result ArchiveError (list Z) :=
  ensure_words_loop (Z.to_nat needed) words needed.

Definition set_packed_bit (words : list Z) (index : Z) : result ArchiveError (list Z) :=
  let word := index / WORD_BITS in
  let shift := index mod WORD_BITS in
  words' ← ensure_words words (word + 1);
  let current := default 0 (vget words' word) in
  vset words' word (Z.lor current (shl U64 1 shift)).

Definition clear_packed_bit (words : list Z) (index : Z) : result ArchiveError (list Z) :=
  let word := index / WORD_BITS in
  let shift := index mod WORD_BITS in
  match vget words word with
  | Some current => vset words word (Z.land current (bnot U64 (shl U64 1 shift)))
  | None => Ok words
  end.

Definition true_bit_count (words : list Z) (n : Z) : Z :=
  foldl (fun count i => if is_bit_set words i then count + 1 else count) 0 (zrange n).

(** ** Vote weights *)
Fixpoint pack_weights_loop (j : nat) (weights : list Z) (words : list Z)
  : result ArchiveError (list Z) :=
  match weights with
  | [] => Ok words
  | weight :: rest =>
      value ← pack_weight weight;
      let word := cast U32 (Z.of_nat j) / WEIGHTS_PER_WORD in
      let shift := (cast U32 (Z.of_nat j) mod WEIGHTS_PER_WORD) * WEIGHT_BITS in
      words' ← or_word words word (shl U64 value shift);
      pack_weights_loop (S j) rest words'
  end.

Definition pack_weights (weights : list Z) : result ArchiveError (list Z) :=
  pack_weights_loop 0 weights
    (replicate (Z.to_nat (weight_word_count (cast U32 (len weights)))) 0).

Definition packed_weight (words : list Z) (index : Z) : result ArchiveError Z :=
  let word := index / WEIGHTS_PER_WORD in
  let shift := (index mod WEIGHTS_PER_WORD) * WEIGHT_BITS in
  packed ← ok_or (vget words word) InvalidPackedLength;
  Ok (cast U32 (Z.land (Z.shiftr packed shift) WEIGHT_MASK)).

Definition unpack_weights (words : list Z) (n : Z) : result ArchiveError (list Z) :=
  fail_if (len words <? weight_word_count n) InvalidPackedLength ;;
  mapM (packed_weight words) (zrange n).

Definition set_packed_weight (words : list Z) (index weight : Z)
  : result ArchiveError (list Z) :=
  value ← pack_weight weight;
  let word := index / WEIGHTS_PER_WORD in
  let shift := (index mod WEIGHTS_PER_WORD) * WEIGHT_BITS in
  words' ← ensure_words words (word + 1);
  let current := default 0 (vget words' word) in
  let cleared := Z.land current (bnot U64 (shl U64 WEIGHT_MASK shift)) in
  vset words' word (Z.lor cleared (shl U64 value shift)).

Definition packed_weight_sum (words weights : list Z) (n : Z) : Z :=
  foldl (fun total i =>
           if is_bit_set words i
           then match packed_weight weights i with
                | Ok weight => saturating_add U64 total (cast U64 weight)
                | _ => total
                end
           else total) 0 (zrange n).

(** ** The specification's view: an array of [B]-bit fields, [P] to a word *)
Definition word_ok (w : Z) : Prop := 0 <= w < 2 ^ 64.
Definition words_ok (words : list Z) : Prop := Forall word_ok words.

(** Field [k] of [B] bits of the word [w]. *)
Definition field (B w k : Z) : Z := Z.land (Z.shiftr w (B * k)) (Z.ones B).

(** Entry [i] of a packed array, [None] past its last word. *)
Definition slot (B P : Z) (words : list Z) (i : Z) : option Z :=
  w ← words !! Z.to_nat (i / P); Some (field B w (i mod P)).

(** ** Packed words *)
Lemma word_ok_bits (w : Z) :
  word_ok w <-> 0 <= w /\ forall n, 64 <= n -> Z.testbit w n = false.
Proof.
  unfold word_ok. split.
  - intros [H0 H]. split; [done|]. intros n Hn.
    destruct (Z.eq_dec w 0) as [->|]; [apply Z.testbit_0_l|].
    apply Z.bits_above_log2; [done|]. apply Z.log2_lt_pow2 in H; lia.
  - intros [H0 H]. split; [done|].
    destruct (Z.eq_dec w 0) as [->|]; [lia|].
    destruct (Z.lt_ge_cases w (2 ^ 64)) as [|Hge]; [done|].
    apply Z.log2_le_pow2 in Hge; [|lia].
    pose proof (Z.bit_log2 w ltac:(lia)) as Hb. rewrite (H _ Hge) in Hb. done.
Qed.

Lemma word_ok_lor (a b : Z) : word_ok a -> word_ok b -> word_ok (Z.lor a b).
Proof.
  rewrite !word_ok_bits. intros [Ha Ha'] [Hb Hb']. split; [by apply Z.lor_nonneg|].
  intros n Hn. by rewrite Z.lor_spec, Ha', Hb'.
Qed.

Lemma word_ok_land (a b : Z) : word_ok a -> 0 <= b -> word_ok (Z.land a b).
Proof.
  rewrite !word_ok_bits. intros [Ha Ha'] Hb. split; [apply Z.land_nonneg; lia|].
  intros n Hn. by rewrite Z.land_spec, Ha'.
Qed.

Lemma word_ok_cast (z : Z) : word_ok (cast U64 z).
Proof. pose proof (cast_range U64 z). unfold word_ok. ilia. Qed.

Lemma bnot_bit (a n : Z) :
  0 <= n -> Z.testbit (bnot U64 a) n = xorb (Z.testbit a n) (n <? 64).
Proof.
  intros Hn. unfold bnot, imax. rewrite Z.lxor_spec. f_equal.
  change (2 ^ 64 - 1) with (Z.ones 64).
  destruct (Z.ltb_spec n 64); [apply Z.ones_spec_low|apply Z.ones_spec_high]; lia.
Qed.

Lemma bnot_nonneg (a : Z) : 0 <= a -> 0 <= bnot U64 a.
Proof. intros. unfold bnot, imax. apply Z.lxor_nonneg. lia. Qed.

Lemma field_bit (B w k n : Z) :
  0 < B -> 0 <= k -> 0 <= n ->
  Z.testbit (field B w k) n = (n <? B) && Z.testbit w (n + B * k).
Proof.
  intros HB Hk Hn. unfold field. rewrite Z.land_spec, Z.shiftr_spec by lia.
  destruct (Z.ltb_spec n B).
  - rewrite Z.ones_spec_low by lia. by rewrite andb_true_r.
  - rewrite Z.ones_spec_high by lia. by rewrite andb_false_r.
Qed.

Lemma field_range (B w k : Z) : 0 < B -> 0 <= field B w k < 2 ^ B.
Proof.
  intros HB. unfold field. rewrite Z.land_ones by lia. apply Z.mod_pos_bound. lia.
Qed.

Lemma small_bit (B v n : Z) : 0 < B -> 0 <= v < 2 ^ B -> B <= n -> Z.testbit v n = false.
Proof.
  intros HB Hv Hn. rewrite <- (Z.mod_small v (2 ^ B)) by done.
  apply Z.mod_pow2_bits_high. lia.
Qed.

Section packed_word.
Context (B k : Z) (HB : 0 < B) (Hk : 0 <= k) (Hfit : B * (k + 1) <= 64).

Lemma shl_exact (v : Z) : 0 <= v < 2 ^ B -> shl U64 v (B * k) = Z.shiftl v (B * k).
Proof.
  intros Hv. unfold shl. apply cast_in. rewrite Z.shiftl_mul_pow2 by lia.
  assert (2 ^ B * 2 ^ (B * k) <= 2 ^ 64).
  { rewrite <- Z.pow_add_r by lia. apply Z.pow_le_mono_r; lia. }
  assert (0 < 2 ^ (B * k)) by lia. unfold imin, imax. nia.
Qed.

Lemma shl_bit (v n : Z) :
  0 <= v < 2 ^ B -> 0 <= n ->
  Z.testbit (shl U64 v (B * k)) n
  = (B * k <=? n) && (n <? B * k + B) && Z.testbit v (n - B * k).
Proof.
  intros Hv Hn. rewrite shl_exact, Z.shiftl_spec by done.
  destruct (Z.leb_spec (B * k) n); cbn; [|apply Z.testbit_neg_r; lia].
  destruct (Z.ltb_spec n (B * k + B)); cbn; [done|]. apply (small_bit B); lia.
Qed.

(** Or-ing a value into field [k] changes that field only. *)
Lemma field_lor (w v j : Z) :
  0 <= v < 2 ^ B -> 0 <= j ->
  field B (Z.lor w (shl U64 v (B * k))) j
  = if decide (j = k) then Z.lor (field B w k) v else field B w j.
Proof.
  intros Hv Hj. apply Z.bits_inj'. intros n Hn.
  rewrite field_bit, Z.lor_spec, shl_bit by lia.
  destruct (Z.ltb_spec n B) as [Hlt|Hge]; cbn.
  - case_decide as Hjk.
    + subst j. rewrite Z.lor_spec, field_bit by lia.
      rewrite (proj2 (Z.ltb_lt n B)), (proj2 (Z.leb_le (B * k) (n + B * k))),
        (proj2 (Z.ltb_lt (n + B * k) (B * k + B))) by lia.
      cbn. by replace (n + B * k - B * k) with n by lia.
    + rewrite field_bit by lia. rewrite (proj2 (Z.ltb_lt n B)) by lia. cbn.
      destruct (Z.leb_spec (B * k) (n + B * j)), (Z.ltb_spec (n + B * j) (B * k + B));
        cbn; rewrite ?orb_false_r; try done. exfalso. nia.
  - case_decide; [rewrite Z.lor_spec|]; rewrite field_bit by lia;
      rewrite (proj2 (Z.ltb_ge n B)) by lia; cbn; [|done].
    by rewrite (small_bit B) by lia.
Qed.

(** Masking field [k] out clears that field only. *)
Lemma field_clear (w j : Z) :
  0 <= j -> B * (j + 1) <= 64 ->
  field B (Z.land w (bnot U64 (shl U64 (Z.ones B) (B * k)))) j
  = if decide (j = k) then 0 else field B w j.
Proof.
  intros Hj Hj'. apply Z.bits_inj'. intros n Hn.
  assert (0 <= Z.ones B < 2 ^ B) by (rewrite Z.ones_equiv; lia).
  rewrite field_bit by lia.
  destruct (Z.ltb_spec n B) as [Hlt|Hge]; cbn.
  - rewrite Z.land_spec, bnot_bit, shl_bit by lia.
    rewrite (proj2 (Z.ltb_lt (n + B * j) 64)) by nia.
    case_decide as Hjk.
    + subst j. rewrite Z.testbit_0_l.
      rewrite (proj2 (Z.leb_le (B * k) (n + B * k))),
        (proj2 (Z.ltb_lt (n + B * k) (B * k + B))) by lia.
      replace (n + B * k - B * k) with n by lia.
      rewrite Z.ones_spec_low by lia. cbn. apply andb_false_r.
    + rewrite field_bit by lia. rewrite (proj2 (Z.ltb_lt n B)) by lia. cbn.
      destruct (Z.leb_spec (B * k) (n + B * j)), (Z.ltb_spec (n + B * j) (B * k + B));
        cbn; rewrite ?andb_true_r; try done. exfalso. nia.
  - case_decide; [by rewrite Z.testbit_0_l|].
    rewrite field_bit by lia. by rewrite (proj2 (Z.ltb_ge n B)) by lia.
Qed.

(** Clearing field [k] and or-ing a value into it replaces that field only. *)
Lemma field_replace (w v j : Z) :
  0 <= v < 2 ^ B -> 0 <= j -> B * (j + 1) <= 64 ->
  field B (Z.lor (Z.land w (bnot U64 (shl U64 (Z.ones B) (B * k)))) (shl U64 v (B * k))) j
  = if decide (j = k) then v else field B w j.
Proof.
  intros Hv Hj Hj'. rewrite field_lor by done. case_decide as Hjk; subst;
    rewrite field_clear by done.
  - by rewrite decide_True by done.
  - by rewrite decide_False by done.
Qed.
End packed_word.

(** ** Packed arrays *)
Lemma or_word_Ok (words : list Z) (k m w : Z) :
  vget words k = Some w -> or_word words k m = Ok (<[Z.to_nat k := Z.lor w m]> words).
Proof.
  intros Hw. unfold or_word. rewrite Hw. cbn. apply vset_Ok.
  apply vget_Some in Hw as [Hk Hw]. apply lookup_lt_Some in Hw.
  unfold len. split; [lia|done].
Qed.

Lemma ensure_words_loop_long (fuel : nat) (words : list Z) (needed : Z) :
  needed <= imax U32 -> needed - len words <= Z.of_nat fuel ->
  ensure_words_loop fuel words needed
  = Ok (words ++ replicate (Z.to_nat (needed - len words)) 0).
Proof.
  intros Hn. revert words. induction fuel as [|fuel IH]; intros words Hf; cbn.
  - replace (Z.to_nat (needed - len words)) with 0%nat by lia. by rewrite app_nil_r.
  - destruct (Z.ltb_spec (len words) needed) as [Hlt|Hge].
    + unfold vpush. rewrite (proj2 (Z.ltb_lt (len words) (imax U32))) by lia.
      assert (Hl : len (words ++ [0]) = len words + 1) by apply len_app.
      cbn [mbind result_bind]. rewrite IH by lia. rewrite Hl, <- app_assoc. cbn.
      replace (Z.to_nat (needed - len words))
        with (S (Z.to_nat (needed - (len words + 1)))) by lia. done.
    + replace (Z.to_nat (needed - len words)) with 0%nat by lia. by rewrite app_nil_r.
Qed.

(** The loop of [ensure_words] stops because its condition fails, never because
    the fuel runs out: the result is long enough. *)
Lemma ensure_words_long (words : list Z) (needed : Z) :
  needed <= imax U32 ->
  ensure_words words needed = Ok (words ++ replicate (Z.to_nat (needed - len words)) 0).
Proof.
  intros Hn. apply ensure_words_loop_long; [done|]. pose proof (len_nonneg words). lia.
Qed.

Lemma words_ok_grow (words : list Z) (n : nat) :
  words_ok words -> words_ok (words ++ replicate n 0).
Proof.
  intros H. apply Forall_app. split; [done|]. apply Forall_replicate.
  unfold word_ok. lia.
Qed.

Lemma words_ok_insert (words : list Z) (k : nat) (w : Z) :
  words_ok words -> word_ok w -> words_ok (<[k := w]> words).
Proof. intros. by apply Forall_insert. Qed.

Section packed_array.
Context (B P : Z) (HB : 0 < B) (HP : 0 < P) (Hfit : B * P <= 64).

Lemma slot_fits (i : Z) : 0 <= i -> 0 <= i mod P /\ B * (i mod P + 1) <= 64.
Proof. intros Hi. pose proof (Z.mod_pos_bound i P HP). nia. Qed.

Lemma slot_range (words : list Z) (i x : Z) :
  slot B P words i = Some x -> 0 <= x < 2 ^ B.
Proof.
  unfold slot. destruct (words !! _); cbn; [|done]. intros [= <-]. by apply field_range.
Qed.

Lemma slot_Some (words : list Z) (i : Z) :
  0 <= i -> is_Some (slot B P words i) <-> i / P < len words.
Proof.
  intros Hi. unfold slot, len. pose proof (Z.div_pos i P Hi HP).
  destruct (words !! Z.to_nat (i / P)) eqn:E; cbn.
  - apply lookup_lt_Some in E. split; [lia|eauto].
  - apply lookup_ge_None in E. split; [by intros []|lia].
Qed.

Lemma slot_same (i j : Z) : 0 <= i -> 0 <= j -> i / P = j / P -> i mod P = j mod P -> i = j.
Proof. intros. rewrite (Z.div_mod i P), (Z.div_mod j P) by lia. congruence. Qed.

(** Rewriting the word of entry [i] so that its field holds [v]. *)
Lemma slot_write (words : list Z) (i w w' v j : Z) :
  0 <= i -> 0 <= j -> words !! Z.to_nat (i / P) = Some w ->
  (forall k, 0 <= k -> B * (k + 1) <= 64 ->
     field B w' k = if decide (k = i mod P) then v else field B w k) ->
  slot B P (<[Z.to_nat (i / P) := w']> words) j
  = if decide (j = i) then Some v else slot B P words j.
Proof.
  intros Hi Hj Hw Hf. unfold slot.
  pose proof (Z.div_pos i P Hi HP). pose proof (Z.div_pos j P Hj HP).
  destruct (decide (j / P = i / P)) as [Heq|Hne].
  - rewrite Heq, list_lookup_insert_eq by (by eapply lookup_lt_Some). rewrite Hw. cbn.
    rewrite Hf by (apply slot_fits; lia). repeat case_decide; try done.
    + exfalso. naive_solver auto using slot_same.
    + subst j. done.
  - rewrite list_lookup_insert_ne by lia. case_decide; [congruence|done].
Qed.

(** Or-ing [v] into entry [i] of a packed array. *)
Lemma or_slot (words : list Z) (i v : Z) :
  words_ok words -> 0 <= i -> i / P < len words -> 0 <= v < 2 ^ B ->
  exists words',
    or_word words (i / P) (shl U64 v (B * (i mod P))) = Ok words' /\
    words_ok words' /\ length words' = length words /\
    forall j, 0 <= j ->
      slot B P words' j
      = if decide (j = i) then (fun x => Z.lor x v) <$> slot B P words i
        else slot B P words j.
Proof.
  intros Hok Hi Hlt Hv. pose proof (Z.div_pos i P Hi HP).
  destruct (slot_fits i Hi) as [Hk Hk'].
  destruct (words !! Z.to_nat (i / P)) as [w|] eqn:Hw.
  2: { apply lookup_ge_None in Hw. unfold len in Hlt. lia. }
  eexists. split; [apply or_word_Ok, vget_Some; eauto|]. split; [|split].
  - apply words_ok_insert; [done|]. apply word_ok_lor; [|apply word_ok_cast].
    by eapply Forall_lookup_1 in Hok.
  - apply length_insert.
  - intros j Hj. unfold slot at 2. rewrite Hw. cbn.
    apply slot_write with (w := w); [done..|].
    intros k H0 H1. apply field_lor; lia.
Qed.

(** Growing a packed array appends zero entries. *)
Lemma slot_grow (words : list Z) (n : nat) (j : Z) :
  0 <= j ->
  slot B P (words ++ replicate n 0) j
  = match slot B P words j with
    | Some x => Some x
    | None => if j / P <? len words + Z.of_nat n then Some 0 else None
    end.
Proof.
  intros Hj. pose proof (Z.div_pos j P Hj HP). unfold slot, len.
  destruct (decide (Z.to_nat (j / P) < length words)%nat) as [Hlt|Hge].
  - rewrite lookup_app_l by done. apply lookup_lt_is_Some in Hlt as [w ->]. done.
  - rewrite lookup_app_r by lia. rewrite (lookup_ge_None_2 words) by lia. cbn.
    destruct (Z.ltb_spec (j / P) (Z.of_nat (length words) + Z.of_nat n)).
    + rewrite lookup_replicate_2 by lia. cbn. unfold field.
      by rewrite Z.shiftr_0_l, Z.land_0_l.
    + by rewrite (lookup_ge_None_2 (replicate n 0)) by (rewrite length_replicate; lia).
Qed.
End packed_array.

(** ** The codecs as packed arrays *)
Lemma is_bit_set_slot (words : list Z) (i : Z) :
  0 <= i -> is_bit_set words i = bool_decide (slot 1 64 words i = Some 1).
Proof.
  intros Hi. unfold is_bit_set, slot, vget, WORD_BITS.
  pose proof (Z.div_pos i 64 Hi ltac:(lia)).
  rewrite (proj2 (Z.ltb_ge (i / 64) 0)) by lia.
  destruct (words !! _) as [w|]; cbn; [|done]. unfold field.
  rewrite Z.mul_1_l. change (Z.ones 1) with 1.
  destruct (Z.eqb_spec (Z.land (Z.shiftr w (i mod 64)) 1) 1); case_bool_decide; congruence.
Qed.

Lemma packed_weight_slot (words : list Z) (i : Z) :
  0 <= i -> packed_weight words i = ok_or (slot 7 9 words i) InvalidPackedLength.
Proof.
  intros Hi. unfold packed_weight, slot, vget, WEIGHTS_PER_WORD, WEIGHT_BITS.
  pose proof (Z.div_pos i 9 Hi ltac:(lia)).
  rewrite (proj2 (Z.ltb_ge (i / 9) 0)) by lia.
  destruct (words !! _) as [w|]; cbn; [|done].
  rewrite Z.mul_comm. change WEIGHT_MASK with (Z.ones 7). fold (field 7 w (i mod 9)).
  rewrite cast_in; [done|]. pose proof (field_range 7 w (i mod 9) ltac:(lia)). ilia.
Qed.

Lemma pack_weight_spec (w : Z) :
  pack_weight w = if decide (1 <= w <= 100) then Ok w else Err InvalidVoteWeight.
Proof.
  unfold pack_weight, MIN_VOTE_WEIGHT, MAX_VOTE_WEIGHT.
  destruct (Z.ltb_spec w 1), (Z.ltb_spec 100 w); cbn; case_decide; try lia; try done.
  rewrite cast_in; [done|]. ilia.
Qed.

Lemma encoding_for_spec (w : Z) :
  encoding_for w = if decide (1 <= w <= 100) then Packed else DetailedFallback.
Proof.
  unfold encoding_for. rewrite pack_weight_spec.
  change (weights_are_packable OBSERVED_VOTE_MODEL) with true. by case_decide.
Qed.

(** ** Loops over a range *)
Lemma zrange_lookup (n : Z) (i : nat) (x : Z) :
  zrange n !! i = Some x <-> x = Z.of_nat i /\ Z.of_nat i < n.
Proof.
  unfold zrange. rewrite list_lookup_fmap, fmap_Some. setoid_rewrite lookup_seq.
  split; [intros (y & [-> ?] & ->); lia|].
  intros [-> ?]. exists i. split; [lia|done].
Qed.

Lemma zrange_length (n : Z) : length (zrange n) = Z.to_nat n.
Proof. unfold zrange. by rewrite length_fmap, length_seq. Qed.

Lemma zrange_in (n x : Z) : x ∈ zrange n <-> 0 <= x < n.
Proof.
  rewrite list_elem_of_lookup. setoid_rewrite zrange_lookup. split.
  - intros (i & -> & ?). lia.
  - intros ?. exists (Z.to_nat x). lia.
Qed.

Lemma zrange_S (n : nat) : zrange (Z.of_nat (S n)) = zrange (Z.of_nat n) ++ [Z.of_nat n].
Proof.
  unfold zrange. rewrite !Nat2Z.id, seq_S, fmap_app. by rewrite Nat.add_0_l.
Qed.

Lemma mapM_Ok {A B E : Type} (f : A -> result E B) (g : A -> B) (l : list A) :
  (forall x, x ∈ l -> f x = Ok (g x)) -> mapM f l = Ok (g <$> l).
Proof.
  induction l as [|x l IH]; intros H; cbn; [done|].
  rewrite H by set_solver. cbn. rewrite IH by set_solver. done.
Qed.

Lemma word_count_covers (n per i : Z) :
  0 < per -> 0 <= i < n -> i / per < word_count n per.
Proof.
  intros Hp Hi. unfold word_count. destruct (Z.eqb_spec n 0); [lia|].
  apply Z.lt_succ_r. apply Z.div_le_mono; lia.
Qed.

Lemma word_count_nonneg (n per : Z) : 0 < per -> 0 <= n -> 0 <= word_count n per.
Proof.
  intros. unfold word_count. destruct (Z.eqb_spec n 0); [lia|].
  pose proof (Z.div_pos (n - 1) per). lia.
Qed.

(** ** Options *)
Lemma is_bit_set_is_some (words : list Z) (i : Z) :
  0 <= i -> is_bit_set words i = true -> is_Some (slot 1 64 words i).
Proof. intros Hi. rewrite is_bit_set_slot by done. case_bool_decide; [eauto|done]. Qed.

Lemma or_bit (words : list Z) (i : Z) :
  words_ok words -> 0 <= i -> i / WORD_BITS < len words ->
  exists words',
    or_word words (i / WORD_BITS) (shl U64 1 (i mod WORD_BITS)) = Ok words' /\
    words_ok words' /\ length words' = length words /\
    forall j, 0 <= j -> is_bit_set words' j = bool_decide (j = i) || is_bit_set words j.
Proof.
  intros Hok Hi Hlt. unfold WORD_BITS in *.
  destruct (or_slot 1 64 ltac:(lia) ltac:(lia) ltac:(lia) words i 1) as (w & E & Hw & Hl & Hs);
    [done..|lia|].
  rewrite Z.mul_1_l in E. exists w. split_and!; [done..|].
  intros j Hj. rewrite !is_bit_set_slot, Hs by done. destruct (decide (j = i)) as [->|Hd];
    [|rewrite (bool_decide_false (j = i)) by done; done].
  rewrite (bool_decide_true (i = i)) by done. cbn.
  destruct (slot_Some 1 64 ltac:(lia) words i Hi) as [_ [x Hx]]; [done|].
  rewrite Hx. cbn. apply bool_decide_true. f_equal.
  apply slot_range in Hx; [|lia].
  assert (x = 0 \/ x = 1) as [-> | ->] by lia; done.
Qed.

Lemma pack_options_loop_spec (options : list bool) :
  forall (i : nat) (words : list Z),
  words_ok words ->
  (forall j, Z.of_nat i <= j < Z.of_nat (i + length options) -> j / WORD_BITS < len words) ->
  (forall j, Z.of_nat i <= j -> is_bit_set words j = false) ->
  exists words',
    pack_options_loop i options words = Ok words' /\
    words_ok words' /\ length words' = length words /\
    forall j : nat, is_bit_set words' (Z.of_nat j)
      = if decide (j < i)%nat then is_bit_set words (Z.of_nat j)
        else default false (options !! (j - i)%nat).
Proof.
  induction options as [|o options IH]; intros i words Hok Hlen Hclr.
  - exists words. split_and!; [done..|]. intros j. case_decide; [done|].
    rewrite Hclr by lia. by rewrite lookup_nil.
  - cbn [pack_options_loop]. cbn [length] in Hlen.
    assert (exists words1,
      (if o then or_word words (Z.of_nat i / WORD_BITS) (shl U64 1 (Z.of_nat i mod WORD_BITS))
       else Ok words) = Ok words1 /\ words_ok words1 /\ length words1 = length words /\
      forall j, 0 <= j -> is_bit_set words1 j
        = (bool_decide (j = Z.of_nat i) && o) || is_bit_set words j) as (w1 & E1 & Hok1 & Hl1 & Hb1).
    { destruct o.
      - destruct (or_bit words (Z.of_nat i)) as (w1 & ? & ? & ? & Hb); [done|lia|apply Hlen; lia|].
        exists w1. split_and!; [done..|]. intros j Hj. rewrite Hb by done. by rewrite andb_true_r.
      - exists words. split_and!; [done..|]. intros j Hj. by rewrite andb_false_r. }
    rewrite E1. cbn [mbind result_bind].
    destruct (IH (S i) w1 Hok1) as (w2 & E2 & Hok2 & Hl2 & Hb2).
    { intros j Hj. unfold len. rewrite Hl1. apply Hlen. lia. }
    { intros j Hj. rewrite Hb1, Hclr by lia. by rewrite bool_decide_false by lia. }
    exists w2. split_and!; [done..|congruence|]. intros j. rewrite Hb2.
    destruct (decide (j < S i)%nat) as [Hj|Hj]; [rewrite Hb1 by lia|];
      destruct (decide (j < i)%nat) as [Hj'|Hj']; try lia.
    + rewrite (bool_decide_false (_ = _)) by lia. done.
    + replace j with i by lia. rewrite (bool_decide_true (_ = _)), Hclr by lia.
      rewrite Nat.sub_diag. cbn. by rewrite orb_false_r.
    + replace (j - i)%nat with (S (j - S i)) by lia. done.
Qed.

Lemma zero_words_clear (n : nat) (j : Z) : 0 <= j -> is_bit_set (replicate n 0) j = false.
Proof.
  intros Hj. rewrite is_bit_set_slot by done. apply bool_decide_false. intros Hs.
  change (replicate n 0) with ([] ++ replicate n 0) in Hs.
  rewrite slot_grow in Hs by lia. unfold slot in Hs. rewrite lookup_nil in Hs. cbn in Hs.
  by destruct (j / 64 <? _).
Qed.

Lemma zero_words_ok (n : nat) : words_ok (replicate n 0).
Proof. apply (words_ok_grow []). constructor. Qed.

Lemma pack_vote_options_spec (options : list bool) :
  len options <= imax U32 ->
  exists words,
    pack_vote_options options = Ok words /\ words_ok words /\
    len words = option_word_count (len options) /\
    forall j : nat, is_bit_set words (Z.of_nat j) = default false (options !! j).
Proof.
  intros Hlen. unfold pack_vote_options.
  pose proof (len_nonneg options). rewrite cast_in by ilia.
  unfold option_word_count in *.
  pose proof (word_count_nonneg (len options) WORD_BITS ltac:(done) ltac:(done)) as Hnn.
  set (ws := replicate _ 0).
  assert (Hws : len ws = word_count (len options) WORD_BITS).
  { unfold ws, len at 1. rewrite length_replicate. lia. }
  destruct (pack_options_loop_spec options 0 ws) as (w & E & Hok & Hl & Hb).
  - apply zero_words_ok.
  - intros j Hj. rewrite Hws. apply word_count_covers; [done|]. unfold len. lia.
  - intros j Hj. apply zero_words_clear. lia.
  - exists w. split_and!; [done..| |].
    + unfold len in *. rewrite Hl. done.
    + intros j. rewrite Hb. case_decide; [lia|]. by rewrite Nat.sub_0_r.
Qed.

Lemma set_packed_bit_spec (words : list Z) (i : Z) :
  words_ok words -> 0 <= i <= imax U32 ->
  exists words',
    set_packed_bit words i = Ok words' /\ words_ok words' /\
    i / WORD_BITS < len words' /\
    forall j, 0 <= j -> is_bit_set words' j = bool_decide (j = i) || is_bit_set words j.
Proof.
  intros Hok Hi. assert (0 <= i / WORD_BITS <= i).
  { unfold WORD_BITS. split; [apply Z.div_pos; lia|]. apply Z.div_le_upper_bound; lia. }
  assert (i / WORD_BITS + 1 <= imax U32).
  { assert (i / WORD_BITS <= imax U32 / WORD_BITS) by (apply Z.div_le_mono; [done|lia]).
    change (imax U32 / WORD_BITS) with 67108863 in *. ilia. }
  unfold set_packed_bit. rewrite ensure_words_long by done. cbn [mbind result_bind].
  set (k := Z.to_nat _). set (grown := words ++ replicate k 0).
  assert (Hlt : i / WORD_BITS < len grown).
  { unfold grown, len, k. rewrite length_app, length_replicate. unfold len. lia. }
  destruct (or_bit grown i) as (w & E & Hw & Hl & Hb);
    [by apply words_ok_grow|lia|done|].
  unfold or_word in E. destruct (vget grown _) as [x|] eqn:Ex; [|done].
  cbn in E |- *. exists w. split_and!; [done..|unfold len in *; by rewrite Hl|].
  intros j Hj. rewrite Hb by done. f_equal.
  rewrite !is_bit_set_slot by done. unfold grown. rewrite slot_grow by lia.
  destruct (slot 1 64 words j); [done|]. by destruct (_ <? _).
Qed.

Lemma slot_bnot_bit (words : list Z) (i j w : Z) :
  0 <= i -> 0 <= j -> vget words (i / WORD_BITS) = Some w ->
  slot 1 64
    (<[Z.to_nat (i / WORD_BITS) := Z.land w (bnot U64 (shl U64 1 (i mod WORD_BITS)))]> words) j
  = if decide (j = i) then Some 0 else slot 1 64 words j.
Proof.
  unfold WORD_BITS. intros Hi Hj [Hk Hw]%vget_Some.
  apply (slot_write 1 64) with (w := w); [lia..|done|].
  intros k H0 H1. pose proof (Z.mod_pos_bound i 64 ltac:(lia)).
  rewrite <- (field_clear 1 (i mod 64)) by lia.
  by rewrite Z.mul_1_l.
Qed.

Lemma clear_packed_bit_spec (words : list Z) (i : Z) :
  words_ok words -> 0 <= i ->
  exists words',
    clear_packed_bit words i = Ok words' /\ words_ok words' /\
    forall j, 0 <= j ->
      is_bit_set words' j = negb (bool_decide (j = i)) && is_bit_set words j.
Proof.
  intros Hok Hi. unfold clear_packed_bit.
  destruct (vget words (i / WORD_BITS)) as [w|] eqn:Hw.
  - pose proof Hw as [Hk Hw']%vget_Some. eexists. split_and!.
    + apply vset_Ok. split; [|done]. apply lookup_lt_Some in Hw'. unfold len. lia.
    + apply words_ok_insert; [done|]. apply word_ok_land; [by eapply Forall_lookup_1 in Hok|].
      apply bnot_nonneg, word_ok_cast.
    + intros j Hj. rewrite !is_bit_set_slot, slot_bnot_bit by done.
      destruct (decide (j = i)) as [->|]; [by rewrite (bool_decide_true (i = i)) by done|].
      by rewrite (bool_decide_false (j = i)) by done.
  - exists words. split_and!; [done..|]. intros j Hj.
    case_bool_decide as Hji; cbn; [|done]. subst j. unfold is_bit_set. by rewrite Hw.
Qed.

(** ** Weights *)
Definition weight_ok (w : Z) : Prop := 1 <= w <= 100.

#[export] Instance weight_ok_dec (w : Z) : Decision (weight_ok w).
Proof. unfold weight_ok. apply _. Defined.

Lemma pack_weights_loop_spec (weights : list Z) :
  Forall weight_ok weights ->
  forall (i : nat) (words : list Z),
  words_ok words -> Z.of_nat (i + length weights) <= imax U32 ->
  (forall j, Z.of_nat i <= j < Z.of_nat (i + length weights) ->
     slot 7 9 words j = Some 0) ->
  exists words',
    pack_weights_loop i weights words = Ok words' /\
    words_ok words' /\ length words' = length words /\
    forall j : nat, slot 7 9 words' (Z.of_nat j)
      = if decide (i <= j < i + length weights)%nat then weights !! (j - i)%nat
        else slot 7 9 words (Z.of_nat j).
Proof.
  induction 1 as [|w weights Hw Hws IH]; intros i words Hok Hlen Hclr.
  - exists words. split_and!; [done..|]. intros j. cbn [length].
    case_decide; [lia|done].
  - cbn [pack_weights_loop]. cbn [length] in *. unfold weight_ok in Hw.
    rewrite pack_weight_spec, decide_True by done. cbn [mbind result_bind].
    rewrite cast_in by ilia. unfold WEIGHTS_PER_WORD, WEIGHT_BITS.
    rewrite (Z.mul_comm (_ mod 9) 7).
    destruct (or_slot 7 9 ltac:(lia) ltac:(lia) ltac:(lia) words (Z.of_nat i) w)
      as (w1 & E1 & Hok1 & Hl1 & Hs1); [done|lia| |lia|].
    { apply (slot_Some 7 9); [lia..|]. rewrite Hclr by lia. eauto. }
    rewrite E1. cbn [mbind result_bind].
    destruct (IH (S i) w1) as (w2 & E2 & Hok2 & Hl2 & Hs2); [done|ilia| |].
    { intros j Hj. rewrite Hs1 by lia. rewrite decide_False by lia. apply Hclr. lia. }
    exists w2. split_and!; [done..|congruence|]. intros j. rewrite Hs2.
    destruct (decide (j = i)) as [->|Hji].
    + rewrite decide_False, decide_True, Hs1, decide_True, Hclr by lia.
      by rewrite Nat.sub_diag.
    + rewrite Hs1, (decide_False (P := Z.of_nat j = _)) by lia.
      repeat case_decide; try lia; [|done].
      by replace (j - i)%nat with (S (j - S i)) by lia.
Qed.

Lemma pack_weights_loop_reject (weights : list Z) :
  forall (i : nat) (words : list Z),
  words_ok words -> ~ Forall weight_ok weights ->
  Z.of_nat (i + length weights) <= imax U32 ->
  (forall j, Z.of_nat i <= j < Z.of_nat (i + length weights) -> j / 9 < len words) ->
  pack_weights_loop i weights words = Err InvalidVoteWeight.
Proof.
  induction weights as [|w weights IH]; intros i words Hok Hbad Hlen Hcov.
  - by destruct Hbad.
  - cbn [pack_weights_loop]. cbn [length] in *. rewrite pack_weight_spec.
    case_decide as Hw; [|done]. cbn [mbind result_bind]. rewrite cast_in by ilia.
    unfold WEIGHTS_PER_WORD, WEIGHT_BITS. rewrite (Z.mul_comm (_ mod 9) 7).
    destruct (or_slot 7 9 ltac:(lia) ltac:(lia) ltac:(lia) words (Z.of_nat i) w)
      as (w1 & E1 & Hok1 & Hl1 & _); [done|lia|apply Hcov; lia|lia|].
    rewrite E1. cbn [mbind result_bind]. apply IH; [done| |ilia|].
    + intros Hf. apply Hbad. by constructor.
    + intros j Hj. unfold len. rewrite Hl1. apply Hcov. lia.
Qed.

Lemma zero_words_slot (B P : Z) (n : nat) (j : Z) :
  0 < B -> 0 < P -> 0 <= j -> j / P < Z.of_nat n -> slot B P (replicate n 0) j = Some 0.
Proof.
  intros HB HP Hj Hn. unfold slot. pose proof (Z.div_pos j P Hj HP).
  rewrite lookup_replicate_2 by lia. cbn. unfold field. by rewrite Z.shiftr_0_l, Z.land_0_l.
Qed.

Lemma weight_words_len (n : Z) :
  0 <= n -> len (replicate (Z.to_nat (weight_word_count n)) 0) = weight_word_count n.
Proof.
  intros Hn. unfold len. rewrite length_replicate. unfold weight_word_count.
  pose proof (word_count_nonneg n WEIGHTS_PER_WORD ltac:(done) Hn). lia.
Qed.

Lemma set_packed_weight_spec (words : list Z) (i w : Z) :
  words_ok words -> 0 <= i <= imax U32 -> weight_ok w ->
  exists words',
    set_packed_weight words i w = Ok words' /\ words_ok words' /\
    packed_weight words' i = Ok w /\
    forall j x, 0 <= j -> j <> i -> packed_weight words j = Ok x ->
      packed_weight words' j = Ok x.
Proof.
  intros Hok Hi Hw. assert (0 <= i / 9 <= i).
  { split; [apply Z.div_pos; lia|]. apply Z.div_le_upper_bound; lia. }
  assert (i / 9 + 1 <= imax U32).
  { assert (i / 9 <= imax U32 / 9) by (apply Z.div_le_mono; [done|lia]).
    change (imax U32 / 9) with 477218588 in *. ilia. }
  unfold set_packed_weight. rewrite pack_weight_spec, decide_True by done.
  cbn [mbind result_bind]. unfold WEIGHTS_PER_WORD, WEIGHT_BITS.
  rewrite ensure_words_long by done. cbn [mbind result_bind].
  rewrite (Z.mul_comm (_ mod 9) 7). set (k := Z.to_nat _). set (grown := words ++ replicate k 0).
  assert (Hgrow : forall j, 0 <= j -> is_Some (slot 7 9 words j) ->
                  slot 7 9 grown j = slot 7 9 words j).
  { intros j Hj [x Hx]. unfold grown. rewrite slot_grow by lia. by rewrite Hx. }
  assert (Hok' : words_ok grown) by by apply words_ok_grow.
  assert (Hlt : (Z.to_nat (i / 9) < length grown)%nat).
  { unfold grown, k. rewrite length_app, length_replicate. unfold len. lia. }
  apply lookup_lt_is_Some in Hlt as [c Hc].
  assert (Hget : vget grown (i / 9) = Some c) by (apply vget_Some; split; [lia|done]).
  rewrite Hget. cbn [default]. pose proof (Z.mod_pos_bound i 9 ltac:(lia)) as Hm.
  unfold weight_ok in Hw. eexists. split_and!.
  - apply vset_Ok. split; [|done]. apply lookup_lt_Some in Hc. unfold len. lia.
  - apply words_ok_insert; [done|]. apply word_ok_lor; [|apply word_ok_cast].
    apply word_ok_land; [by eapply Forall_lookup_1 in Hok'|]. apply bnot_nonneg, word_ok_cast.
  - rewrite packed_weight_slot by lia.
    rewrite (slot_write 7 9 ltac:(lia) ltac:(lia) ltac:(lia) grown i c _ w); [|lia|lia|done|].
    + by rewrite decide_True by done.
    + intros n Hn Hn'. change WEIGHT_MASK with (Z.ones 7). apply field_replace; lia.
  - intros j x Hj Hne Hx. rewrite packed_weight_slot in Hx |- * by lia.
    apply ok_or_Ok in Hx.
    rewrite (slot_write 7 9 ltac:(lia) ltac:(lia) ltac:(lia) grown i c _ w); [|lia|lia|done|].
    + rewrite decide_False, Hgrow, Hx by eauto. done.
    + intros n Hn Hn'. change WEIGHT_MASK with (Z.ones 7). apply field_replace; lia.
Qed.

(** ** The tally over the packed register *)
Definition vote_weight (words weights : list Z) (i : Z) : Z :=
  if is_bit_set words i
  then match packed_weight weights i with Ok w => w | _ => 0 end
  else 0.

Lemma vote_weight_range (words weights : list Z) (i : Z) :
  0 <= i -> 0 <= vote_weight words weights i <= 127.
Proof.
  intros Hi. unfold vote_weight. destruct (is_bit_set words i); [|lia].
  rewrite packed_weight_slot by done. destruct (slot 7 9 weights i) eqn:E; cbn; [|lia].
  apply slot_range in E; lia.
Qed.

Lemma zsum_weights_bound (words weights : list Z) (n : nat) :
  0 <= zsum (vote_weight words weights <$> zrange (Z.of_nat n)) <= 127 * Z.of_nat n.
Proof.
  pose proof (zsum_bound 127 (vote_weight words weights <$> zrange (Z.of_nat n))) as H.
  rewrite length_fmap, zrange_length, Nat2Z.id in H. apply H.
  apply Forall_fmap, Forall_forall. intros x Hx%zrange_in. cbn. apply vote_weight_range. lia.
Qed.

Lemma tally_step (words weights : list Z) (total i : Z) :
  0 <= i -> 0 <= total -> total + 127 <= imax U64 ->
  (if is_bit_set words i
   then match packed_weight weights i with
        | Ok weight => saturating_add U64 total (cast U64 weight)
        | _ => total
        end
   else total) = total + vote_weight words weights i.
Proof.
  intros Hi H0 Hmax. pose proof (vote_weight_range words weights i Hi) as Hr.
  unfold vote_weight in *. destruct (is_bit_set words i); [|lia].
  destruct (packed_weight weights i); [|lia..].
  unfold saturating_add. rewrite (cast_in U64) by ilia. apply clamp_in. ilia.
Qed.

(** The saturating additions of the tally never saturate: it is the exact sum. *)
Lemma packed_weight_sum_spec (words weights : list Z) (n : Z) :
  0 <= n <= imax U32 ->
  packed_weight_sum words weights n = zsum (vote_weight words weights <$> zrange n).
Proof.
  intros Hn. assert (exists k, n = Z.of_nat k) as [k ->] by (exists (Z.to_nat n); lia).
  induction k as [|k IH]; [done|].
  unfold packed_weight_sum in *. rewrite zrange_S, foldl_app, fmap_app, zsum_app.
  rewrite IH by lia. cbn [foldl]. pose proof (zsum_weights_bound words weights k).
  rewrite tally_step by ilia. cbn. lia.
Qed.

(** ** Properties *)

(** packing a ballot of boolean options and unpacking it gives the ballot back,
    for any ballot whose length is a [u32]; the packed form has exactly
    [ceil(n / 64)] words, and no index of the packing loop is out of range. *)
Theorem vote_options_roundtrip (options : list bool) :
  len options <= imax U32 ->
  exists words,
    pack_vote_options options = Ok words /\
    len words = option_word_count (len options) /\
    unpack_vote_options words (len options) = Ok options.
Proof.
  intros Hlen. destruct (pack_vote_options_spec options Hlen) as (words & E & _ & Hl & Hb).
  exists words. split_and!; [done..|]. unfold unpack_vote_options.
  rewrite Hl, Z.ltb_irrefl. cbn. f_equal. apply list_eq. intros i.
  rewrite list_lookup_fmap. destruct (decide (i < length options)%nat) as [Hi|Hi].
  - rewrite (proj2 (zrange_lookup _ i (Z.of_nat i))); [|split; [done|unfold len; lia]]. cbn.
    rewrite Hb. by apply lookup_lt_is_Some in Hi as [o ->].
  - rewrite !lookup_ge_None_2; [done|lia|]. rewrite zrange_length. unfold len. lia.
Qed.

Lemma vote_options_roundtrip_witness :
  exists words, pack_vote_options [true; false; true] = Ok words /\
    len words = 1 /\ unpack_vote_options words 3 = Ok [true; false; true].
Proof. apply (vote_options_roundtrip [true; false; true]). vm_compute. discriminate. Defined.

(** packing a batch of weights either succeeds, every weight is in [1..=100] and
    unpacking returns the very same weights, or fails with [InvalidVoteWeight], some
    weight is out of range; it never traps. *)
Theorem pack_weights_total (weights : list Z) :
  len weights <= imax U32 ->
  match pack_weights weights with
  | Ok words => Forall weight_ok weights /\
      len words = weight_word_count (len weights) /\
      unpack_weights words (len weights) = Ok weights
  | Err e => e = InvalidVoteWeight /\ ~ Forall weight_ok weights
  | Panic => False
  end.
Proof.
  intros Hlen. unfold pack_weights. pose proof (len_nonneg weights).
  rewrite cast_in by ilia. set (zero := replicate _ 0).
  assert (Hz : len zero = weight_word_count (len weights)) by by apply weight_words_len.
  assert (Hcov : forall j, 0 <= j < len weights -> j / 9 < len zero).
  { intros j Hj. rewrite Hz. by apply word_count_covers. }
  destruct (decide (Forall weight_ok weights)) as [Hok|Hbad].
  - destruct (pack_weights_loop_spec weights Hok 0 zero) as (words & -> & _ & Hl & Hs);
      [apply zero_words_ok|done| |].
    { intros j Hj. apply zero_words_slot; [done..|lia|]. unfold zero, len in *.
      rewrite length_replicate in Hcov. apply Hcov. lia. }
    split_and!; [done|unfold len in *; by rewrite Hl|].
    unfold unpack_weights. unfold len in Hz |- *. rewrite Hl, Hz, Z.ltb_irrefl. cbn.
    rewrite (mapM_Ok _ (fun j => default 0 (weights !! Z.to_nat j))).
    + f_equal. apply list_eq. intros i. rewrite list_lookup_fmap.
      destruct (decide (i < length weights)%nat) as [Hi|Hi].
      * rewrite (proj2 (zrange_lookup _ i (Z.of_nat i))) by (split; [done|lia]). cbn.
        rewrite Nat2Z.id. by apply lookup_lt_is_Some in Hi as [w ->].
      * rewrite !lookup_ge_None_2; [done|lia|]. rewrite zrange_length. lia.
    + intros j Hj%zrange_in. rewrite packed_weight_slot by lia.
      replace j with (Z.of_nat (Z.to_nat j)) by lia. rewrite Hs, decide_True by lia.
      rewrite Nat.sub_0_r, Nat2Z.id.
      assert (Z.to_nat j < length weights)%nat as [w ->]%lookup_lt_is_Some by lia. done.
  - rewrite pack_weights_loop_reject; [done|apply zero_words_ok|done|done|].
    intros j Hj. apply Hcov. unfold len. lia.
Qed.

Lemma pack_weights_total_witness :
  pack_weights [1; 2; 100] = Ok [1638657] /\ unpack_weights [1638657] 3 = Ok [1; 2; 100].
Proof.
  assert (E : pack_weights [1; 2; 100] = Ok [1638657]) by (vm_compute; reflexivity).
  pose proof (pack_weights_total [1; 2; 100] ltac:(vm_compute; discriminate)) as H.
  rewrite E in H. split; [exact E|apply H].
Defined.
