(* ===== verification/VoteMerkle.v ===== *)
(** * Merkle archive of a vote register
    ([contracts/governance-vote-archive/src/merkle.rs])

    Hashes are byte lists ([BytesN<32>]); positions and sizes of the tree are
    natural numbers (the code's [usize] and [u32], which only shrink here). The
    [while] loops run on fuel: the number of leaves is enough, since a level with
    more than one node is strictly longer than the next ([next_level_shrinks]). *)

From stdpp Require Import base numbers list countable sets.
From Stdlib Require Import ZArith Lia.
From S2P Require Import Prelude Host.

Open Scope Z_scope.

Definition LEAF_DOMAIN : Z := 0.
Definition NODE_DOMAIN : Z := 1.
Definition EMPTY_DOMAIN : Z := 2.

Section merkle.
Context {H : Host}.

Definition empty_root : bytes := sha256 [EMPTY_DOMAIN].

Definition leaf_preimage (proposal_id voter_index : Z) (option : bool) (weight : Z)
  (voter : Address) : bytes :=
  let voter_xdr := to_xdr voter in
  [LEAF_DOMAIN] ++ to_be_bytes 8 proposal_id ++ to_be_bytes 4 voter_index
  ++ [if option then 1 else 0] ++ to_be_bytes 4 weight
  ++ to_be_bytes 4 (len voter_xdr) ++ voter_xdr.

Definition leaf_hash (proposal_id voter_index : Z) (option : bool) (weight : Z)
  (voter : Address) : bytes :=
  sha256 (leaf_preimage proposal_id voter_index option weight voter).

Definition node_preimage (left right : bytes) : bytes := [NODE_DOMAIN] ++ left ++ right.

Definition node_hash (left right : bytes) : bytes := sha256 (node_preimage left right).

Fixpoint next_level (level : list bytes) : list bytes :=
  match level with
  | l :: r :: rest => node_hash l r :: next_level rest
  | [last] => [last]
  | [] => []
  end.

(** [while level.len() > 1 { level = next_level(level) }] *)
Fixpoint collapse (fuel : nat) (level : list bytes) : list bytes :=
  match fuel with
  | O => level
  | S fuel' => if (1 <? length level)%nat then collapse fuel' (next_level level) else level
  end.

Definition merkle_root (leaves : list bytes) : bytes :=
  if (length leaves =? 0)%nat then empty_root
  else default empty_root (head (collapse (length leaves) leaves)).

(** The sibling pushed at one level of [merkle_proof]. *)
Definition sibling (idx : nat) (level : list bytes) : list bytes :=
  if (idx mod 2 =? 1)%nat then option_list (level !! (idx - 1)%nat)
  else if (idx + 1 <? length level)%nat then option_list (level !! (idx + 1)%nat)
  else [].

Fixpoint proof_loop (fuel : nat) (idx : nat) (level : list bytes) : list bytes :=
  match fuel with
  | O => []
  | S fuel' =>
      if (1 <? length level)%nat
      then sibling idx level ++ proof_loop fuel' (idx / 2)%nat (next_level level)
      else []
  end.

Definition merkle_proof (leaves : list bytes) (index : nat) : list bytes :=
  if ((length leaves =? 0) || (length leaves <=? index))%nat then []
  else proof_loop (length leaves) index leaves.

(** The loop of [verify_proof]; [None] is its [return false]. *)
Fixpoint verify_loop (fuel : nat) (hash : bytes) (idx size consumed : nat)
  (proof : list bytes) : option (bytes * nat) :=
  match fuel with
  | O => Some (hash, consumed)
  | S fuel' =>
      if (1 <? size)%nat then
        let level_len := ((size - 1) / 2 + 1)%nat in
        if (idx mod 2 =? 1)%nat then
          s ← proof !! consumed;
          verify_loop fuel' (node_hash s hash) (idx / 2)%nat level_len (consumed + 1)%nat proof
        else if (idx + 1 <? size)%nat then
          s ← proof !! consumed;
          verify_loop fuel' (node_hash hash s) (idx / 2)%nat level_len (consumed + 1)%nat proof
        else verify_loop fuel' hash (idx / 2)%nat level_len consumed proof
      else Some (hash, consumed)
  end.

Definition verify_proof (root leaf : bytes) (index tree_size : nat) (proof : list bytes)
  : bool :=
  if ((tree_size =? 0) || (tree_size <=? index))%nat then bool_decide (root = empty_root)
  else match verify_loop tree_size leaf index tree_size 0 proof with
       | Some (hash, consumed) =>
           (consumed =? length proof)%nat && bool_decide (hash = root)
       | None => false
       end.

(** ** The shape of a level *)
Lemma pair_ind {A : Type} (P : list A -> Prop) :
  P [] -> (forall x, P [x]) -> (forall x y l, P l -> P (x :: y :: l)) -> forall l, P l.
Proof.
  intros H0 H1 H2 l. enough (P l /\ forall x, P (x :: l)) by tauto.
  induction l as [|y l [IH1 IH2]]; split; auto.
Qed.

Lemma next_level_length (level : list bytes) :
  length (next_level level) = ((length level + 1) / 2)%nat.
Proof.
  induction level as [|x|x y l IH] using pair_ind; [done|done|].
  cbn [next_level length]. rewrite IH.
  replace (S (S (length l)) + 1)%nat with (length l + 1 + 1 * 2)%nat by lia.
  rewrite Nat.div_add by lia. lia.
Qed.

Lemma next_level_shrinks (level : list bytes) :
  (1 < length level)%nat -> (0 < length (next_level level) < length level)%nat.
Proof.
  intros Hl. rewrite next_level_length. split.
  - apply Nat.div_str_pos. lia.
  - apply Nat.Div0.div_lt_upper_bound; lia.
Qed.

Lemma next_level_size (level : list bytes) :
  (0 < length level)%nat -> length (next_level level) = ((length level - 1) / 2 + 1)%nat.
Proof.
  intros Hl. rewrite next_level_length.
  replace (length level + 1)%nat with (length level - 1 + 1 * 2)%nat by lia.
  by rewrite Nat.div_add by lia.
Qed.

(** The parent of node [i]: a hash of it and its sibling, or the node itself when
    it is the last of an odd level. *)
Lemma next_level_parent (level : list bytes) :
  forall (i : nat) (h : bytes), level !! i = Some h ->
  next_level level !! (i / 2)%nat
  = if (i mod 2 =? 1)%nat then (fun s => node_hash s h) <$> level !! (i - 1)%nat
    else if (i + 1 <? length level)%nat
         then (fun s => node_hash h s) <$> level !! (i + 1)%nat
         else Some h.
Proof.
  induction level as [|x|x y l IH] using pair_ind; intros i h Hi; [done| |].
  - destruct i as [|i]; [by injection Hi as ->|by destruct i].
  - destruct i as [|[|i]]; [by injection Hi as ->|by injection Hi as ->|].
    cbn in Hi. specialize (IH i h Hi).
    replace (S (S i)) with (i + 1 * 2)%nat by lia.
    rewrite Nat.div_add, Nat.Div0.mod_add by lia.
    replace (i / 2 + 1)%nat with (S (i / 2)) by lia. cbn [next_level].
    change ((node_hash x y :: next_level l) !! S (i / 2)%nat) with (next_level l !! (i / 2)%nat).
    rewrite IH. cbn [length].
    destruct (Nat.eqb_spec (i mod 2) 1) as [Hm|Hm].
    + destruct i as [|i]; [done|]. replace (S i + 1 * 2 - 1)%nat with (S (S i)) by lia.
      by replace (S i - 1)%nat with i by lia.
    + replace (i + 1 * 2 + 1)%nat with (S (S (i + 1))) by lia.
      replace (S (S (i + 1)) <? S (S (length l)))%nat with (i + 1 <? length l)%nat; [done|].
      destruct (Nat.ltb_spec (i + 1) (length l)), (Nat.ltb_spec (S (S (i + 1))) (S (S (length l))));
        lia.
Qed.

(** With as much fuel as nodes the loop ends at a single node. *)
Lemma collapse_single (fuel : nat) (level : list bytes) :
  (0 < length level <= fuel)%nat -> exists r, collapse fuel level = [r].
Proof.
  revert level. induction fuel as [|fuel IH]; intros level Hl; [lia|]. cbn [collapse].
  destruct (Nat.ltb_spec 1 (length level)) as [H1|H1].
  - apply IH. pose proof (next_level_shrinks level H1). lia.
  - destruct level as [|r [|]]; cbn in *; [lia|eauto|lia].
Qed.

(** ** Completeness: the proof of a leaf leads the verifier to the root. *)
Lemma parent_exists (level : list bytes) (i : nat) :
  (i < length level)%nat -> (i / 2 < length (next_level level))%nat.
Proof.
  intros Hi. rewrite next_level_length. apply Nat.Div0.div_lt_upper_bound.
  pose proof (Nat.div_mod_eq (length level + 1) 2).
  pose proof (Nat.mod_upper_bound (length level + 1) 2). lia.
Qed.

Lemma verify_loop_complete (fuel : nat) :
  forall (idx : nat) (level pre : list bytes) (h r : bytes),
  (length level <= fuel)%nat -> level !! idx = Some h -> collapse fuel level = [r] ->
  verify_loop fuel h idx (length level) (length pre) (pre ++ proof_loop fuel idx level)
  = Some (r, length (pre ++ proof_loop fuel idx level)).
Proof.
  induction fuel as [|fuel IH]; intros idx level pre h r Hl Hh Hr.
  - cbn in *. subst level. destruct idx; [|done]. cbn in Hh. rewrite app_nil_r. naive_solver.
  - cbn [verify_loop proof_loop collapse] in *.
    destruct (Nat.ltb_spec 1 (length level)) as [H1|H1].
    2: { subst level. destruct idx; [|done]. cbn in Hh. rewrite app_nil_r. naive_solver. }
    pose proof (next_level_shrinks level H1) as Hs.
    pose proof (lookup_lt_Some _ _ _ Hh) as Hidx.
    rewrite <- next_level_size by lia. unfold sibling.
    pose proof (next_level_parent level idx h Hh) as Hp.
    destruct (Nat.eqb_spec (idx mod 2) 1) as [Hm|Hm];
      [|destruct (Nat.ltb_spec (idx + 1) (length level)) as [Hlt|Hge]].
    + destruct (level !! (idx - 1)%nat) as [s|] eqn:Es; [|apply lookup_ge_None in Es; lia].
      cbn [option_list] in *. rewrite app_assoc.
      rewrite (lookup_app_l (pre ++ [s])), lookup_app_r by (rewrite ?length_app; cbn; lia).
      rewrite Nat.sub_diag. cbn [lookup list_lookup mbind option_bind].
      replace (length pre + 1)%nat with (length (pre ++ [s])) by (rewrite length_app; cbn; lia).
      apply IH; [lia|exact Hp|done].
    + destruct (level !! (idx + 1)%nat) as [s|] eqn:Es; [|apply lookup_ge_None in Es; lia].
      cbn [option_list] in *. rewrite app_assoc.
      rewrite (lookup_app_l (pre ++ [s])), lookup_app_r by (rewrite ?length_app; cbn; lia).
      rewrite Nat.sub_diag. cbn [lookup list_lookup mbind option_bind].
      replace (length pre + 1)%nat with (length (pre ++ [s])) by (rewrite length_app; cbn; lia).
      apply IH; [lia|exact Hp|done].
    + cbn [app]. apply IH; [lia|exact Hp|done].
Qed.

Lemma merkle_root_collapse (leaves : list bytes) :
  (0 < length leaves)%nat -> collapse (length leaves) leaves = [merkle_root leaves].
Proof.
  intros Hl. unfold merkle_root. rewrite (proj2 (Nat.eqb_neq _ _)) by lia.
  destruct (collapse_single (length leaves) leaves) as [r ->]; [lia|done].
Qed.

Lemma verify_proof_complete (leaves : list bytes) (i : nat) (leaf : bytes) :
  leaves !! i = Some leaf ->
  verify_proof (merkle_root leaves) leaf i (length leaves) (merkle_proof leaves i) = true.
Proof.
  intros Hi. pose proof (lookup_lt_Some _ _ _ Hi) as Hlt.
  unfold verify_proof, merkle_proof.
  rewrite (proj2 (Nat.eqb_neq _ _)), (proj2 (Nat.leb_gt _ _)) by lia. cbn [orb].
  pose proof (verify_loop_complete (length leaves) i leaves [] leaf (merkle_root leaves)) as Hv.
  cbn [app length] in Hv. rewrite Hv; [|done|done|apply merkle_root_collapse; lia].
  rewrite Nat.eqb_refl. by apply bool_decide_true.
Qed.

(** ** Soundness: a leaf the verifier accepts is the leaf at that position, or the
    run exhibits two different preimages with the same hash. *)

(** The preimages hashed while a level is collapsed, and by the verifier. *)
Fixpoint level_preimages (level : list bytes) : list bytes :=
  match level with
  | l :: r :: rest => node_preimage l r :: level_preimages rest
  | _ => []
  end.

Fixpoint tree_preimages (fuel : nat) (level : list bytes) : list bytes :=
  match fuel with
  | O => []
  | S fuel' =>
      if (1 <? length level)%nat
      then level_preimages level ++ tree_preimages fuel' (next_level level) else []
  end.

Fixpoint path_preimages (fuel : nat) (hash : bytes) (idx size consumed : nat)
  (proof : list bytes) : list bytes :=
  match fuel with
  | O => []
  | S fuel' =>
      if (1 <? size)%nat then
        let level_len := ((size - 1) / 2 + 1)%nat in
        let s := default [] (proof !! consumed) in
        if (idx mod 2 =? 1)%nat then
          node_preimage s hash
          :: path_preimages fuel' (node_hash s hash) (idx / 2)%nat level_len (consumed + 1)%nat proof
        else if (idx + 1 <? size)%nat then
          node_preimage hash s
          :: path_preimages fuel' (node_hash hash s) (idx / 2)%nat level_len (consumed + 1)%nat proof
        else path_preimages fuel' hash (idx / 2)%nat level_len consumed proof
      else []
  end.

(** A collision of the hash between two given lists of preimages. *)
Definition collide (xs ys : list bytes) : Prop :=
  exists x y, x ∈ xs /\ y ∈ ys /\ x <> y /\ sha256 x = sha256 y.

Lemma collide_mono (xs ys xs' ys' : list bytes) :
  xs ⊆ xs' -> ys ⊆ ys' -> collide xs ys -> collide xs' ys'.
Proof. intros Hx Hy (x & y & ? & ? & ? & ?). exists x, y. split_and!; auto. Qed.

Lemma level_preimages_parent (level : list bytes) :
  forall (i : nat) (l r : bytes), (i mod 2 = 0)%nat ->
  level !! i = Some l -> level !! (i + 1)%nat = Some r ->
  node_preimage l r ∈ level_preimages level.
Proof.
  induction level as [|x|x y level IH] using pair_ind; intros i l r Hm Hl Hr; [done| |].
  - destruct i; done.
  - cbn [level_preimages]. destruct i as [|[|i]]; [|done|].
    + cbn in Hl, Hr. injection Hl as ->. injection Hr as ->. constructor.
    + constructor 2. replace (S (S i)) with (i + 1 * 2)%nat in Hm by lia.
      rewrite Nat.Div0.mod_add in Hm. by apply (IH i).
Qed.

Section soundness.
Context {L : HostLaws H}.

Definition hash_ok (h : bytes) : Prop := length h = 32%nat.

Lemma node_hash_ok (l r : bytes) : hash_ok (node_hash l r).
Proof. apply sha256_length. Qed.

Lemma next_level_ok (level : list bytes) :
  Forall hash_ok level -> Forall hash_ok (next_level level).
Proof.
  induction level as [|x|x y level IH] using pair_ind; intros Hok; [done|done|].
  cbn. constructor; [apply node_hash_ok|]. apply IH.
  by apply Forall_cons in Hok as [_ [_ ?]%Forall_cons].
Qed.

(** Equal node hashes have equal children, or their preimages collide. *)
Lemma node_hash_inj (l r l' r' : bytes) (xs ys : list bytes) :
  hash_ok l -> hash_ok l' -> node_hash l r = node_hash l' r' ->
  node_preimage l r ∈ xs -> node_preimage l' r' ∈ ys ->
  (l = l' /\ r = r') \/ collide xs ys.
Proof.
  unfold hash_ok. intros Hl Hl' He Hx Hy.
  destruct (decide (node_preimage l r = node_preimage l' r')) as [Hp|Hp].
  - left. injection Hp as Hp. apply app_inj_1 in Hp; [done|congruence].
  - right. by exists (node_preimage l r), (node_preimage l' r').
Qed.

Lemma verify_loop_sound (fuel : nat) :
  forall (idx consumed c : nat) (level proof : list bytes) (h r : bytes),
  (length level <= fuel)%nat -> (idx < length level)%nat ->
  Forall hash_ok level -> Forall hash_ok proof -> hash_ok h ->
  collapse fuel level = [r] ->
  verify_loop fuel h idx (length level) consumed proof = Some (r, c) ->
  level !! idx = Some h \/
  collide (path_preimages fuel h idx (length level) consumed proof)
    (tree_preimages fuel level).
Proof.
  induction fuel as [|fuel IH];
    intros idx consumed c level proof h r Hl Hidx Hlv Hpf Hh Hr Hv; [lia|].
  cbn [verify_loop collapse path_preimages tree_preimages] in *.
  destruct (Nat.ltb_spec 1 (length level)) as [H1|H1].
  2: { left. subst level. destruct idx; [|cbn in Hidx; lia]. naive_solver. }
  rewrite <- next_level_size in * by lia.
  pose proof (next_level_shrinks level H1) as Hs.
  pose proof (parent_exists level idx Hidx) as Hpi.
  pose proof (next_level_ok level Hlv) as Hnl.
  apply lookup_lt_is_Some in Hidx as [h0 Hh0].
  pose proof (next_level_parent level idx h0 Hh0) as Hp.
  pose proof (Forall_lookup_1 _ _ _ _ Hlv Hh0) as Hok0.
  destruct (Nat.eqb_spec (idx mod 2) 1) as [Hm|Hm];
    [|destruct (Nat.ltb_spec (idx + 1) (length level)) as [Hlt|Hge]].
  - destruct (proof !! consumed) as [s|] eqn:Es; [|done]. cbn [mbind option_bind] in Hv.
    pose proof (Forall_lookup_1 _ _ _ _ Hpf Es) as Hoks. cbn [default].
    destruct (IH _ _ _ (next_level level) _ _ _ ltac:(lia) Hpi Hnl Hpf (node_hash_ok s h) Hr Hv) as [E|E].
    2: { right. eapply collide_mono; [..|exact E]; set_solver. }
    rewrite E in Hp. destruct (level !! (idx - 1)%nat) as [s0|] eqn:Es0; [|done].
    injection Hp as Hp. pose proof (Forall_lookup_1 _ _ _ _ Hlv Es0) as Hoks0.
    destruct (node_hash_inj s h s0 h0
      (node_preimage s h :: path_preimages fuel (node_hash s h) (idx / 2)%nat
         (length (next_level level)) (consumed + 1)%nat proof)
      (level_preimages level ++ tree_preimages fuel (next_level level)))
      as [[-> ->]|?]; [done..|set_solver| |by left|by right].
    apply elem_of_app. left. apply (level_preimages_parent level (idx - 1)%nat); [|done|].
    + pose proof (Nat.div_mod_eq idx 2). replace (idx - 1)%nat with (0 + idx / 2 * 2)%nat by lia.
      by rewrite Nat.Div0.mod_add.
    + replace (idx - 1 + 1)%nat with idx; [done|]. destruct idx; [done|lia].
  - destruct (proof !! consumed) as [s|] eqn:Es; [|done]. cbn [mbind option_bind] in Hv.
    cbn [default].
    destruct (IH _ _ _ (next_level level) _ _ _ ltac:(lia) Hpi Hnl Hpf (node_hash_ok h s) Hr Hv) as [E|E].
    2: { right. eapply collide_mono; [..|exact E]; set_solver. }
    rewrite E in Hp. destruct (level !! (idx + 1)%nat) as [s0|] eqn:Es0; [|done].
    injection Hp as Hp.
    destruct (node_hash_inj h s h0 s0
      (node_preimage h s :: path_preimages fuel (node_hash h s) (idx / 2)%nat
         (length (next_level level)) (consumed + 1)%nat proof)
      (level_preimages level ++ tree_preimages fuel (next_level level)))
      as [[-> ->]|?]; [done..|set_solver| |by left|by right].
    apply elem_of_app. left. apply (level_preimages_parent level idx); [|done|done].
    pose proof (Nat.mod_upper_bound idx 2). lia.
  - destruct (IH _ _ _ (next_level level) _ _ _ ltac:(lia) Hpi Hnl Hpf Hh Hr Hv) as [E|E].
    + left. congruence.
    + right. eapply collide_mono; [..|exact E]; set_solver.
Qed.

Lemma verify_proof_sound (leaves proof : list bytes) (i : nat) (leaf : bytes) :
  (i < length leaves)%nat -> Forall hash_ok leaves -> Forall hash_ok proof -> hash_ok leaf ->
  verify_proof (merkle_root leaves) leaf i (length leaves) proof = true ->
  leaves !! i = Some leaf \/
  collide (path_preimages (length leaves) leaf i (length leaves) 0 proof)
    (tree_preimages (length leaves) leaves).
Proof.
  intros Hi Hls Hpf Hleaf. unfold verify_proof.
  rewrite (proj2 (Nat.eqb_neq _ _)), (proj2 (Nat.leb_gt _ _)) by lia. cbn [orb].
  destruct (verify_loop _ _ _ _ _ _) as [[hash consumed]|] eqn:E; [|done].
  intros [_ ->%bool_decide_eq_true_1]%andb_true_iff.
  apply (verify_loop_sound _ _ _ consumed _ _ _ (merkle_root leaves)); try done.
  apply merkle_root_collapse. lia.
Qed.

(** ** The leaf encoding is unambiguous *)
Lemma leaf_preimage_inj (pid pid' i i' w w' : Z) (o o' : bool) (v v' : Address) :
  0 <= pid <= imax U64 -> 0 <= pid' <= imax U64 ->
  0 <= i <= imax U32 -> 0 <= i' <= imax U32 ->
  0 <= w <= imax U32 -> 0 <= w' <= imax U32 ->
  leaf_preimage pid i o w v = leaf_preimage pid' i' o' w' v' ->
  pid = pid' /\ i = i' /\ o = o' /\ w = w' /\ v = v'.
Proof.
  intros Hp Hp' Hi Hi' Hw Hw' He. unfold leaf_preimage in He.
  apply app_inj_1 in He as [_ He]; [|done].
  apply app_inj_1 in He as [E1 He]; [|by rewrite !to_be_bytes_length].
  apply app_inj_1 in He as [E2 He]; [|by rewrite !to_be_bytes_length].
  apply app_inj_1 in He as [E3 He]; [|done].
  apply app_inj_1 in He as [E4 He]; [|by rewrite !to_be_bytes_length].
  apply app_inj_1 in He as [_ E5]; [|by rewrite !to_be_bytes_length].
  change (imax U64) with (256 ^ Z.of_nat 8 - 1) in *.
  change (imax U32) with (256 ^ Z.of_nat 4 - 1) in *.
  apply to_be_bytes_inj in E1, E2, E4; [|lia..].
  apply to_xdr_inj in E5. destruct o, o'; try discriminate E3; done.
Qed.
End soundness.
End merkle.
