(* ===== verification/VoteRegister.v ===== *)
(** * Governance vote register and its archive
    ([contracts/governance-vote-archive/src/register.rs], [.../src/lib.rs])

    [store] is the contract's storage: one field per storage key, a map for a key
    that carries an argument. [extend_ttl] only buys rent and changes no value, so
    it does not appear. The internal routines of [register.rs] come first, then the
    contract's entry points of [lib.rs] ([Abi]), which authenticate the caller. *)

From stdpp Require Import base numbers list gmap sets.
From Stdlib Require Import ZArith Lia.
From S2P Require Import Prelude Host VoteBits VoteMerkle.

Open Scope Z_scope.

Definition MAX_WEIGHT_THRESHOLD : Z := 100.

Record ProposalState := {
  executed : bool;
  cancelled : bool;
  vote_count : Z;
  final_tally : Z
}.

Record ArchiveRecord := {
  root : bytes;
  leaf_count : Z;
  rec_final_tally : Z
}.

Section register.
Context {H : Host}.

Record Participant := {
  p_index : Z;
  p_voter : Address;
  p_weight : Z
}.

(** One field per [DataKey] (and [ADMIN_KEY]). *)
Record store := {
  s_admin : option Address;
  s_threshold : option Z;
  s_voters : list Address;
  s_weights : gmap Address Z;
  s_proposals : gmap Z ProposalState;
  s_action_votes : gmap Z (list Address);
  s_vote_bits : gmap Z (list Z);
  s_packed_weights : gmap Z (list Z);
  s_archive : gmap Z ArchiveRecord
}.

Definition empty_store : store := {|
  s_admin := None; s_threshold := None; s_voters := []; s_weights := ∅;
  s_proposals := ∅; s_action_votes := ∅; s_vote_bits := ∅; s_packed_weights := ∅;
  s_archive := ∅ |}.

(** ** Raw register accessors *)
Definition get_vote_bits (s : store) (pid : Z) : list Z := default [] (s_vote_bits s !! pid).
Definition get_packed_weights (s : store) (pid : Z) : list Z :=
  default [] (s_packed_weights s !! pid).
Definition get_action_votes (s : store) (pid : Z) : list Address :=
  default [] (s_action_votes s !! pid).

Definition set_voters (s : store) (v : list Address) : store :=
  {| s_admin := s_admin s; s_threshold := s_threshold s; s_voters := v;
     s_weights := s_weights s; s_proposals := s_proposals s;
     s_action_votes := s_action_votes s; s_vote_bits := s_vote_bits s;
     s_packed_weights := s_packed_weights s; s_archive := s_archive s |}.

Definition set_proposal (s : store) (pid : Z) (p : ProposalState) : store :=
  {| s_admin := s_admin s; s_threshold := s_threshold s; s_voters := s_voters s;
     s_weights := s_weights s; s_proposals := <[pid := p]> (s_proposals s);
     s_action_votes := s_action_votes s; s_vote_bits := s_vote_bits s;
     s_packed_weights := s_packed_weights s; s_archive := s_archive s |}.

Definition store_vote_bits (s : store) (pid : Z) (words : list Z) : store :=
  {| s_admin := s_admin s; s_threshold := s_threshold s; s_voters := s_voters s;
     s_weights := s_weights s; s_proposals := s_proposals s;
     s_action_votes := s_action_votes s; s_vote_bits := <[pid := words]> (s_vote_bits s);
     s_packed_weights := s_packed_weights s; s_archive := s_archive s |}.

Definition store_packed_weights (s : store) (pid : Z) (words : list Z) : store :=
  {| s_admin := s_admin s; s_threshold := s_threshold s; s_voters := s_voters s;
     s_weights := s_weights s; s_proposals := s_proposals s;
     s_action_votes := s_action_votes s; s_vote_bits := s_vote_bits s;
     s_packed_weights := <[pid := words]> (s_packed_weights s); s_archive := s_archive s |}.

Definition store_action_votes (s : store) (pid : Z) (voters : list Address) : store :=
  {| s_admin := s_admin s; s_threshold := s_threshold s; s_voters := s_voters s;
     s_weights := s_weights s; s_proposals := s_proposals s;
     s_action_votes := <[pid := voters]> (s_action_votes s); s_vote_bits := s_vote_bits s;
     s_packed_weights := s_packed_weights s; s_archive := s_archive s |}.

(** ** Configuration *)
Definition initialize (s : store) (a : Address) : result ArchiveError store :=
  fail_if (bool_decide (is_Some (s_admin s))) AlreadyInitialized ;;
  Ok {| s_admin := Some a; s_threshold := s_threshold s; s_voters := s_voters s;
        s_weights := s_weights s; s_proposals := s_proposals s;
        s_action_votes := s_action_votes s; s_vote_bits := s_vote_bits s;
        s_packed_weights := s_packed_weights s; s_archive := s_archive s |}.

Definition admin (s : store) : result ArchiveError Address := ok_or (s_admin s) NotInitialized.

Definition get_voters (s : store) : list Address := s_voters s.

Definition voter_count (s : store) : Z := len (get_voters s).

(** The first position [i] of the voter list that holds [voter]. *)
Definition position_of (voters : list Address) (voter : Address) : option Z :=
  (fun p => Z.of_nat p.1) <$> list_find (fun v => v = voter) voters.

Definition voter_index (s : store) (voter : Address) : option Z :=
  position_of (get_voters s) voter.

Definition is_voter (s : store) (voter : Address) : bool :=
  bool_decide (is_Some (voter_index s voter)).

Definition add_voter (s : store) (caller voter : Address) : result ArchiveError (Z * store) :=
  current_admin ← admin s;
  fail_if (bool_decide (caller <> current_admin)) NotAdmin ;;
  match position_of (get_voters s) voter with
  | Some i => Ok (i, s)
  | None =>
      voters ← vpush (get_voters s) voter;
      Ok (len (get_voters s), set_voters s voters)
  end.

Definition set_admin_weight (s : store) (caller voter : Address) (weight : Z)
  : result ArchiveError store :=
  current_admin ← admin s;
  fail_if (bool_decide (caller <> current_admin)) NotAdmin ;;
  fail_if (negb (is_voter s voter)) UnknownVoter ;;
  _ ← pack_weight weight;
  Ok {| s_admin := s_admin s; s_threshold := s_threshold s; s_voters := s_voters s;
        s_weights := <[voter := weight]> (s_weights s); s_proposals := s_proposals s;
        s_action_votes := s_action_votes s; s_vote_bits := s_vote_bits s;
        s_packed_weights := s_packed_weights s; s_archive := s_archive s |}.

Definition admin_weight (s : store) (voter : Address) : Z := default 1 (s_weights s !! voter).

Definition set_weight_threshold (s : store) (caller : Address) (threshold : Z)
  : result ArchiveError store :=
  current_admin ← admin s;
  fail_if (bool_decide (caller <> current_admin)) NotAdmin ;;
  fail_if ((threshold <? 1) || (MAX_WEIGHT_THRESHOLD <? threshold)) InvalidThreshold ;;
  Ok {| s_admin := s_admin s; s_threshold := Some threshold; s_voters := s_voters s;
        s_weights := s_weights s; s_proposals := s_proposals s;
        s_action_votes := s_action_votes s; s_vote_bits := s_vote_bits s;
        s_packed_weights := s_packed_weights s; s_archive := s_archive s |}.

Definition get_weight_threshold (s : store) : option Z := s_threshold s.

Definition required_threshold (s : store) : Z :=
  match get_weight_threshold s with
  | Some weight_threshold => weight_threshold
  | None => if len (get_voters s) <=? 3 then 2 else 3
  end.

(** ** Lifecycle *)
Definition propose_action (s : store) (proposer : Address) (pid : Z)
  : result ArchiveError store :=
  current_admin ← admin s;
  fail_if (bool_decide (proposer <> current_admin)) NotAuthorized ;;
  fail_if (bool_decide (is_Some (s_proposals s !! pid))) ProposalAlreadyExists ;;
  Ok (set_proposal s pid
        {| executed := false; cancelled := false; vote_count := 0; final_tally := 0 |}).

Definition get_proposal (s : store) (pid : Z) : option ProposalState := s_proposals s !! pid.

Definition load_proposal (s : store) (pid : Z) : result ArchiveError ProposalState :=
  ok_or (get_proposal s pid) ProposalNotFound.

Definition cancel_action (s : store) (canceller : Address) (pid : Z)
  : result ArchiveError store :=
  current_admin ← admin s;
  fail_if (bool_decide (canceller <> current_admin)) NotAuthorized ;;
  state ← load_proposal s pid;
  fail_if (cancelled state) ProposalClosed ;;
  Ok (set_proposal s pid
        {| executed := executed state; cancelled := true;
           vote_count := vote_count state; final_tally := final_tally state |}).

Definition ensure_open (s : store) (pid : Z) (state : ProposalState)
  : result ArchiveError unit :=
  fail_if (executed state || cancelled state) ProposalClosed ;;
  fail_if (bool_decide (is_Some (s_archive s !! pid))) ProposalClosed.

Definition contains_address (voters : list Address) (target : Address) : bool :=
  existsb (fun voter => bool_decide (voter = target)) voters.

Definition has_voted (s : store) (pid index : Z) : bool :=
  if is_bit_set (get_vote_bits s pid) index then true
  else match vget (get_voters s) index with
       | Some voter => contains_address (get_action_votes s pid) voter
       | None => false
       end.

(** The state after one more vote: [state.vote_count += 1; set_proposal(...)]. *)
Definition count_vote (s : store) (pid : Z) (state : ProposalState)
  : result ArchiveError (Z * store) :=
  c ← iadd U32 (vote_count state) 1;
  Ok (c, set_proposal s pid
           {| executed := executed state; cancelled := cancelled state;
              vote_count := c; final_tally := final_tally state |}).

Definition cast_vote (s : store) (voter : Address) (pid : Z)
  : result ArchiveError (Z * store) :=
  state ← load_proposal s pid;
  ensure_open s pid state ;;
  index ← ok_or (voter_index s voter) NotAuthorized;
  fail_if (has_voted s pid index) AlreadyVoted ;;
  let weight := admin_weight s voter in
  s' ← match encoding_for weight with
       | Packed =>
           option_bits ← set_packed_bit (get_vote_bits s pid) index;
           packed_weights ← set_packed_weight (get_packed_weights s pid) index weight;
           Ok (store_packed_weights (store_vote_bits s pid option_bits) pid packed_weights)
       | DetailedFallback =>
           participants ← vpush (get_action_votes s pid) voter;
           Ok (store_action_votes s pid participants)
       end;
  count_vote s' pid state.

Definition cast_vote_detailed (s : store) (voter : Address) (pid : Z)
  : result ArchiveError (Z * store) :=
  state ← load_proposal s pid;
  ensure_open s pid state ;;
  _ ← ok_or (voter_index s voter) NotAuthorized;
  fail_if (contains_address (get_action_votes s pid) voter) AlreadyVoted ;;
  participants ← vpush (get_action_votes s pid) voter;
  count_vote (store_action_votes s pid participants) pid state.

Definition get_vote_options (s : store) (pid : Z) : result ArchiveError (list bool) :=
  Ok (has_voted s pid <$> zrange (voter_count s)).

Definition get_vote_weights (s : store) (pid : Z) : result ArchiveError (list Z) :=
  let option_bits := get_vote_bits s pid in
  let packed_weights := get_packed_weights s pid in
  let detailed := get_action_votes s pid in
  mapM (fun index =>
          if is_bit_set option_bits index then packed_weight packed_weights index
          else match vget (get_voters s) index with
               | Some voter =>
                   if contains_address detailed voter then Ok (admin_weight s voter) else Ok 0
               | None => Ok 0
               end) (zrange (voter_count s)).

(** ** Tally and finalization *)
Definition get_archive (s : store) (pid : Z) : option ArchiveRecord := s_archive s !! pid.

(** [for voter in action_votes { total = total.saturating_add(weight) }] *)
Definition add_detailed (s : store) (total : Z) (voters : list Address) : Z :=
  foldl (fun acc voter => saturating_add U64 acc (cast U64 (admin_weight s voter)))
    total voters.

Definition tally (s : store) (pid : Z) : result ArchiveError Z :=
  _ ← load_proposal s pid;
  match get_archive s pid with
  | Some record => Ok (rec_final_tally record)
  | None =>
      Ok (add_detailed s
            (packed_weight_sum (get_vote_bits s pid) (get_packed_weights s pid) (voter_count s))
            (get_action_votes s pid))
  end.

Definition tally_detailed (s : store) (pid : Z) : result ArchiveError Z :=
  _ ← load_proposal s pid;
  Ok (add_detailed s 0 (get_action_votes s pid)).

Definition finalize (s : store) (pid : Z) : result ArchiveError (ProposalState * store) :=
  state ← load_proposal s pid;
  if executed state then Ok (state, s)
  else
    fail_if (cancelled state) ProposalClosed ;;
    total ← tally s pid;
    fail_if (total <? required_threshold s) ThresholdNotReached ;;
    let state' := {| executed := true; cancelled := cancelled state;
                     vote_count := vote_count state; final_tally := total |} in
    Ok (state', set_proposal s pid state').

(** ** Compression *)
(** [list.sort_by_key(|p| p.index)], a stable sort. *)
Fixpoint insert_by_index (p : Participant) (l : list Participant) : list Participant :=
  match l with
  | [] => [p]
  | q :: r => if p_index p <=? p_index q then p :: q :: r else q :: insert_by_index p r
  end.
Definition sort_by_index (l : list Participant) : list Participant :=
  foldr insert_by_index [] l.

(** The second loop of [participants]: fallback voters not listed yet. *)
Fixpoint add_fallback (s : store) (voters : list Address) (l : list Participant)
  : result ArchiveError (list Participant) :=
  match voters with
  | [] => Ok l
  | voter :: rest =>
      index ← ok_or (voter_index s voter) UnknownVoter;
      let already_listed := existsb (fun p => p_index p =? index) l in
      add_fallback s rest
        (if already_listed then l
         else l ++ [{| p_index := index; p_voter := voter; p_weight := admin_weight s voter |}])
  end.

Definition participants (s : store) (pid : Z) : result ArchiveError (list Participant) :=
  let voters := get_voters s in
  let option_bits := get_vote_bits s pid in
  let weights := get_packed_weights s pid in
  packed ← mapM (fun index =>
                   voter ← unwrap (vget voters index);
                   weight ← packed_weight weights index;
                   Ok {| p_index := index; p_voter := voter; p_weight := weight |})
             (filter (fun index => is_bit_set option_bits index = true) (zrange (len voters)));
  all ← add_fallback s (get_action_votes s pid) packed;
  Ok (sort_by_index all).

Definition participant_leaf (pid : Z) (p : Participant) : bytes :=
  leaf_hash pid (p_index p) true (p_weight p) (p_voter p).

Definition compress_after_execution (s : store) (pid : Z)
  : result ArchiveError (ArchiveRecord * store) :=
  state ← load_proposal s pid;
  fail_if (negb (executed state)) ProposalNotExecuted ;;
  fail_if (bool_decide (is_Some (s_archive s !! pid))) AlreadyCompressed ;;
  ps ← participants s pid;
  let leaves := participant_leaf pid <$> ps in
  let record := {| root := merkle_root leaves; leaf_count := len leaves;
                   rec_final_tally := final_tally state |} in
  Ok (record,
      {| s_admin := s_admin s; s_threshold := s_threshold s; s_voters := s_voters s;
         s_weights := s_weights s; s_proposals := s_proposals s;
         s_action_votes := delete pid (s_action_votes s);
         s_vote_bits := delete pid (s_vote_bits s);
         s_packed_weights := delete pid (s_packed_weights s);
         s_archive := <[pid := record]> (s_archive s) |}).

Definition build_leaf (pid voter_index : Z) (voter : Address) (option : bool) (weight : Z)
  : bytes := leaf_hash pid voter_index option weight voter.

Definition merkle_proof_for_voter (s : store) (pid voter_index : Z)
  : result ArchiveError (list bytes) :=
  _ ← load_proposal s pid;
  fail_if (bool_decide (is_Some (s_archive s !! pid))) AlreadyCompressed ;;
  ps ← participants s pid;
  (* the last participant with that index, as the loop overwrites [position] *)
  position ← ok_or
    (foldl (fun acc (jp : nat * Participant) =>
              if p_index jp.2 =? voter_index then Some jp.1 else acc) None
       (imap (fun j p => (j, p)) ps)) UnknownVoter;
  Ok (merkle_proof (participant_leaf pid <$> ps) position).

Definition verify_archived_vote (s : store) (pid leaf_position voter_index : Z)
  (voter : Address) (option : bool) (weight : Z) (proof : list bytes)
  : result ArchiveError bool :=
  record ← ok_or (get_archive s pid) ArchiveNotFound;
  let leaf := leaf_hash pid voter_index option weight voter in
  Ok (verify_proof (root record) leaf (Z.to_nat leaf_position)
        (Z.to_nat (leaf_count record)) proof).
End register.
