(* ===== verification/VoteContract.v ===== *)
(** * The vote archive contract: its entry points
    ([contracts/governance-vote-archive/src/lib.rs])

    Each mutating entry point authenticates its caller and delegates to the register.
    [auth] says which addresses authorised the invocation. [call] lists the mutating
    entry points and [run] dispatches them, so that a history of the contract is a
    list of calls ([reachable]); a call that fails leaves the storage as it was. *)

From stdpp Require Import base numbers list gmap sets.
From Stdlib Require Import ZArith Lia.
From S2P Require Import Prelude Host VoteBits VoteMerkle VoteRegister.

Open Scope Z_scope.

Module Abi.
Section abi.
Context {H : Host} (auth : Address -> bool).

Definition require_admin (s : store) (caller : Address) : result ArchiveError unit :=
a ← VoteRegister.admin s;
fail_if (bool_decide (caller <> a)) NotAdmin.

Definition initialize (s : store) (admin : Address) : result ArchiveError store :=
require_auth auth admin ;; VoteRegister.initialize s admin.

Definition add_voter (s : store) (caller voter : Address) : result ArchiveError (Z * store) :=
require_auth auth caller ;; VoteRegister.add_voter s caller voter.

Definition set_admin_weight (s : store) (caller voter : Address) (weight : Z)
: result ArchiveError store :=
require_auth auth caller ;; VoteRegister.set_admin_weight s caller voter weight.

Definition set_weight_threshold (s : store) (caller : Address) (threshold : Z)
: result ArchiveError store :=
require_auth auth caller ;; VoteRegister.set_weight_threshold s caller threshold.

Definition propose_action (s : store) (proposer : Address) (pid : Z)
: result ArchiveError store :=
require_auth auth proposer ;; VoteRegister.propose_action s proposer pid.

Definition cancel_action (s : store) (canceller : Address) (pid : Z)
: result ArchiveError store :=
require_auth auth canceller ;; VoteRegister.cancel_action s canceller pid.

Definition cast_vote (s : store) (voter : Address) (pid : Z)
: result ArchiveError (Z * store) :=
require_auth auth voter ;; VoteRegister.cast_vote s voter pid.

Definition finalize (s : store) (caller : Address) (pid : Z)
: result ArchiveError (ProposalState * store) :=
require_auth auth caller ;;
require_admin s caller ;;
VoteRegister.finalize s pid.

Definition compress_after_execution (s : store) (caller : Address) (pid : Z)
: result ArchiveError (ArchiveRecord * store) :=
require_auth auth caller ;;
require_admin s caller ;;
VoteRegister.compress_after_execution s pid.
End abi.
End Abi.

Section calls.
Context {H : Host}.

Inductive call :=
| Initialize (admin : Address)
| AddVoter (caller voter : Address)
| SetAdminWeight (caller voter : Address) (weight : Z)
| SetWeightThreshold (caller : Address) (threshold : Z)
| ProposeAction (proposer : Address) (pid : Z)
| CancelAction (canceller : Address) (pid : Z)
| CastVote (voter : Address) (pid : Z)
| Finalize (caller : Address) (pid : Z)
| CompressAfterExecution (caller : Address) (pid : Z).

(** What a call returns. *)
Inductive reply :=
| RUnit
| RNumber (n : Z)
| RProposal (p : ProposalState)
| RArchive (r : ArchiveRecord).

Definition unit_reply {S : Type} (r : result ArchiveError S) : result ArchiveError (reply * S) :=
  s ← r; Ok (RUnit, s).
Definition reply_with {A S : Type} (f : A -> reply) (r : result ArchiveError (A * S))
  : result ArchiveError (reply * S) :=
  p ← r; Ok (f p.1, p.2).

Definition run (auth : Address -> bool) (s : store) (c : call)
  : result ArchiveError (reply * store) :=
  match c with
  | Initialize a => unit_reply (Abi.initialize auth s a)
  | AddVoter caller voter => reply_with RNumber (Abi.add_voter auth s caller voter)
  | SetAdminWeight caller voter w => unit_reply (Abi.set_admin_weight auth s caller voter w)
  | SetWeightThreshold caller t => unit_reply (Abi.set_weight_threshold auth s caller t)
  | ProposeAction proposer pid => unit_reply (Abi.propose_action auth s proposer pid)
  | CancelAction canceller pid => unit_reply (Abi.cancel_action auth s canceller pid)
  | CastVote voter pid => reply_with RNumber (Abi.cast_vote auth s voter pid)
  | Finalize caller pid => reply_with RProposal (Abi.finalize auth s caller pid)
  | CompressAfterExecution caller pid =>
      reply_with RArchive (Abi.compress_after_execution auth s caller pid)
  end.

(** The storage after a call: an [Err] or a trap rolls it back. *)
Definition after {A S : Type} (s : S) (r : result ArchiveError (A * S)) : S :=
  match r with Ok (_, s') => s' | _ => s end.

(** A history: each call comes with the addresses that authorised it. *)
Definition history := list ((Address -> bool) * call).

Definition replay (s : store) (h : history) : store :=
  foldl (fun s ac => after s (run ac.1 s ac.2)) s h.

Definition reachable (s : store) : Prop := exists h, s = replay empty_store h.
End calls.
