(* ===== verification/VoteSpec.v ===== *)
(** * What the vote archive promises: its abstract specification

    The specification keeps, for each proposal, the map from a voter's canonical
    index to the weight that voter had when voting; it knows nothing of words and
    bits. [spec_run] gives the effect of every mutating entry point on it.
    [simulates] relates a storage to a specification state, and the lemmas of this
    file show that the entry points preserve it and agree with the specification,
    on the replies and on the errors. *)

From stdpp Require Import base numbers list gmap sets.
From Stdlib Require Import ZArith Lia.
From S2P Require Import Prelude Host VoteBits VoteMerkle VoteRegister VoteContract.

Open Scope Z_scope.

Section spec.
Context {H : Host}.

Record ballot := {
  b_executed : bool;
  b_cancelled : bool;
  b_votes : gmap Z Z;
  b_tally : Z;
  b_archive : option ArchiveRecord
}.

Record registry := {
  a_admin : option Address;
  a_threshold : option Z;
  a_voters : list Address;
  a_weights : gmap Address Z;
  a_ballots : gmap Z ballot
}.

Definition empty_registry : registry := {|
  a_admin := None; a_threshold := None; a_voters := []; a_weights := ∅; a_ballots := ∅ |}.

Definition with_voters (a : registry) (v : list Address) : registry :=
  {| a_admin := a_admin a; a_threshold := a_threshold a; a_voters := v;
     a_weights := a_weights a; a_ballots := a_ballots a |}.
Definition with_ballot (a : registry) (pid : Z) (b : ballot) : registry :=
  {| a_admin := a_admin a; a_threshold := a_threshold a; a_voters := a_voters a;
     a_weights := a_weights a; a_ballots := <[pid := b]> (a_ballots a) |}.

(** The total weight recorded for the eligible voters. *)
Definition votes_total (voters : list Address) (votes : gmap Z Z) : Z :=
  zsum ((fun i => default 0 (votes !! i)) <$> zrange (len voters)).

(** The recorded votes in canonical order. *)
Definition recorded (voters : list Address) (votes : gmap Z Z) : list Participant :=
  omap (fun i => voter ← vget voters i; w ← votes !! i;
                 Some {| p_index := i; p_voter := voter; p_weight := w |})
    (zrange (len voters)).

Definition archive_record (pid : Z) (voters : list Address) (votes : gmap Z Z) (total : Z)
  : ArchiveRecord :=
  {| root := merkle_root (participant_leaf pid <$> recorded voters votes);
     leaf_count := len (recorded voters votes);
     rec_final_tally := total |}.

Definition threshold_of (a : registry) : Z :=
  match a_threshold a with
  | Some t => t
  | None => if len (a_voters a) <=? 3 then 2 else 3
  end.

Definition spec_admin (a : registry) (caller : Address) (e : ArchiveError)
  : result ArchiveError unit :=
  boss ← ok_or (a_admin a) NotInitialized; fail_if (bool_decide (caller <> boss)) e.

Definition spec_vote (a : registry) (voter : Address) (pid : Z)
  : result ArchiveError (reply * registry) :=
  b ← ok_or (a_ballots a !! pid) ProposalNotFound;
  fail_if (b_executed b || b_cancelled b) ProposalClosed ;;
  fail_if (bool_decide (is_Some (b_archive b))) ProposalClosed ;;
  i ← ok_or (position_of (a_voters a) voter) NotAuthorized;
  fail_if (bool_decide (is_Some (b_votes b !! i))) AlreadyVoted ;;
  let votes := <[i := default 1 (a_weights a !! voter)]> (b_votes b) in
  Ok (RNumber (Z.of_nat (size votes)),
      with_ballot a pid
        {| b_executed := b_executed b; b_cancelled := b_cancelled b; b_votes := votes;
           b_tally := b_tally b; b_archive := b_archive b |}).

Definition proposal_of (b : ballot) : ProposalState :=
  {| executed := b_executed b; cancelled := b_cancelled b;
     vote_count := Z.of_nat (size (b_votes b)); final_tally := b_tally b |}.

Definition spec_finalize (a : registry) (pid : Z) : result ArchiveError (reply * registry) :=
  b ← ok_or (a_ballots a !! pid) ProposalNotFound;
  if b_executed b then Ok (RProposal (proposal_of b), a)
  else
    fail_if (b_cancelled b) ProposalClosed ;;
    let total := match b_archive b with
                 | Some r => rec_final_tally r
                 | None => votes_total (a_voters a) (b_votes b)
                 end in
    fail_if (total <? threshold_of a) ThresholdNotReached ;;
    let b' := {| b_executed := true; b_cancelled := b_cancelled b; b_votes := b_votes b;
                 b_tally := total; b_archive := b_archive b |} in
    Ok (RProposal (proposal_of b'), with_ballot a pid b').

Definition spec_compress (a : registry) (pid : Z) : result ArchiveError (reply * registry) :=
  b ← ok_or (a_ballots a !! pid) ProposalNotFound;
  fail_if (negb (b_executed b)) ProposalNotExecuted ;;
  fail_if (bool_decide (is_Some (b_archive b))) AlreadyCompressed ;;
  let r := archive_record pid (a_voters a) (b_votes b) (b_tally b) in
  Ok (RArchive r,
      with_ballot a pid
        {| b_executed := b_executed b; b_cancelled := b_cancelled b; b_votes := b_votes b;
           b_tally := b_tally b; b_archive := Some r |}).

Definition spec_run (auth : Address -> bool) (a : registry) (c : call)
  : result ArchiveError (reply * registry) :=
  match c with
  | Initialize boss =>
      require_auth auth boss ;;
      fail_if (bool_decide (is_Some (a_admin a))) AlreadyInitialized ;;
      Ok (RUnit, {| a_admin := Some boss; a_threshold := a_threshold a;
                    a_voters := a_voters a; a_weights := a_weights a;
                    a_ballots := a_ballots a |})
  | AddVoter caller voter =>
      require_auth auth caller ;; spec_admin a caller NotAdmin ;;
      match position_of (a_voters a) voter with
      | Some i => Ok (RNumber i, a)
      | None => v ← vpush (a_voters a) voter;
                Ok (RNumber (len (a_voters a)), with_voters a v)
      end
  | SetAdminWeight caller voter w =>
      require_auth auth caller ;; spec_admin a caller NotAdmin ;;
      fail_if (negb (bool_decide (is_Some (position_of (a_voters a) voter)))) UnknownVoter ;;
      fail_if (negb (bool_decide (weight_ok w))) InvalidVoteWeight ;;
      Ok (RUnit, {| a_admin := a_admin a; a_threshold := a_threshold a;
                    a_voters := a_voters a; a_weights := <[voter := w]> (a_weights a);
                    a_ballots := a_ballots a |})
  | SetWeightThreshold caller t =>
      require_auth auth caller ;; spec_admin a caller NotAdmin ;;
      fail_if ((t <? 1) || (100 <? t)) InvalidThreshold ;;
      Ok (RUnit, {| a_admin := a_admin a; a_threshold := Some t; a_voters := a_voters a;
                    a_weights := a_weights a; a_ballots := a_ballots a |})
  | ProposeAction caller pid =>
      require_auth auth caller ;; spec_admin a caller NotAuthorized ;;
      fail_if (bool_decide (is_Some (a_ballots a !! pid))) ProposalAlreadyExists ;;
      Ok (RUnit, with_ballot a pid
            {| b_executed := false; b_cancelled := false; b_votes := ∅; b_tally := 0;
               b_archive := None |})
  | CancelAction caller pid =>
      require_auth auth caller ;; spec_admin a caller NotAuthorized ;;
      b ← ok_or (a_ballots a !! pid) ProposalNotFound;
      fail_if (b_cancelled b) ProposalClosed ;;
      Ok (RUnit, with_ballot a pid
            {| b_executed := b_executed b; b_cancelled := true; b_votes := b_votes b;
               b_tally := b_tally b; b_archive := b_archive b |})
  | CastVote voter pid => require_auth auth voter ;; spec_vote a voter pid
  | Finalize caller pid =>
      require_auth auth caller ;; spec_admin a caller NotAdmin ;; spec_finalize a pid
  | CompressAfterExecution caller pid =>
      require_auth auth caller ;; spec_admin a caller NotAdmin ;; spec_compress a pid
  end.

Definition spec_replay (a : registry) (h : history) : registry :=
  foldl (fun a ac => after a (spec_run ac.1 a ac.2)) a h.

(** ** The simulation relation *)
Record ballot_ok (s : store) (pid : Z) (p : ProposalState) (b : ballot) : Prop := {
  bo_state : p = proposal_of b;
  bo_range : forall i w, b_votes b !! i = Some w -> 0 <= i < len (s_voters s) /\ weight_ok w;
  bo_archive : s_archive s !! pid = b_archive b;
  bo_bits : b_archive b = None -> words_ok (get_vote_bits s pid) /\
    forall i, 0 <= i ->
      is_bit_set (get_vote_bits s pid) i = bool_decide (is_Some (b_votes b !! i));
  bo_weights : b_archive b = None -> words_ok (get_packed_weights s pid) /\
    forall i w, b_votes b !! i = Some w -> packed_weight (get_packed_weights s pid) i = Ok w
}.

Definition ballot_rel (s : store) (pid : Z) (p : option ProposalState) (b : option ballot)
  : Prop :=
  match p, b with
  | Some p, Some b => ballot_ok s pid p b
  | None, None =>
      s_vote_bits s !! pid = None /\ s_packed_weights s !! pid = None /\
      s_archive s !! pid = None
  | _, _ => False
  end.

Record simulates (s : store) (a : registry) : Prop := {
  sim_admin : s_admin s = a_admin a;
  sim_threshold : s_threshold s = a_threshold a;
  sim_voters : s_voters s = a_voters a;
  sim_weights : s_weights s = a_weights a;
  sim_nodup : NoDup (s_voters s);
  sim_len : len (s_voters s) <= imax U32;
  sim_weight_ok : forall v w, s_weights s !! v = Some w -> weight_ok w;
  sim_detailed : s_action_votes s = ∅;
  sim_ballots : forall pid, ballot_rel s pid (s_proposals s !! pid) (a_ballots a !! pid)
}.

(** Agreement of two outcomes: the same reply and related states, the same error,
    or both trap. *)
Definition agree (r : result ArchiveError (reply * store))
  (q : result ArchiveError (reply * registry)) : Prop :=
  match r, q with
  | Ok (x, s), Ok (y, a) => x = y /\ simulates s a
  | Err e, Err e' => e = e'
  | Panic, Panic => True
  | _, _ => False
  end.
End spec.
