(* ===== verification/VoteRefine.v ===== *)
(** * The vote archive refines its specification

    Each entry point run on a storage that [simulates] a specification state agrees
    with the specification; the consequences the users of the contract rely on
    follow on the specification. *)

From stdpp Require Import base numbers list gmap sets sorting.
From Stdlib Require Import ZArith Lia.
From S2P Require Import Prelude Host VoteBits VoteMerkle VoteRegister VoteContract VoteSpec.

Open Scope Z_scope.

(** ** Positions in the voter list *)
Section positions.
Context {H : Host}.
Implicit Types (l : list Address) (v : Address).

Lemma position_of_Some l v i :
  position_of l v = Some i -> 0 <= i < len l /\ vget l i = Some v.
Proof.
  unfold position_of. destruct (list_find _ l) as [[n x]|] eqn:E; [|done].
  intros [= <-]. apply list_find_Some in E as (Hn & -> & _).
  apply lookup_lt_Some in Hn as Hlt. rewrite vget_nat. unfold len. split; [lia|done].
Qed.

Lemma position_of_None l v : position_of l v = None <-> v ∉ l.
Proof.
  unfold position_of. destruct (list_find _ l) as [[n x]|] eqn:E; cbn.
  - apply list_find_Some in E as (Hn & -> & _). apply list_elem_of_lookup_2 in Hn.
    split; [done|contradiction].
  - apply list_find_None in E. rewrite Forall_forall in E.
    split; [intros _ Hv; by apply (E v)|done].
Qed.

Lemma position_of_vget l v i : NoDup l -> vget l i = Some v -> position_of l v = Some i.
Proof.
  intros Hnd Hi. destruct (position_of l v) as [j|] eqn:E.
  - apply position_of_Some in E as [_ Hj]. apply vget_Some in Hi as [? Hi], Hj as [? Hj].
    pose proof (NoDup_lookup _ _ _ _ Hnd Hi Hj). f_equal. lia.
  - apply position_of_None in E. apply vget_Some in Hi as [_ Hi].
    destruct E. by eapply list_elem_of_lookup_2.
Qed.

Lemma vget_app_l l k i : 0 <= i < len l -> vget (l ++ k) i = vget l i.
Proof.
  intros Hi. unfold vget, len in *. destruct (i <? 0); [done|]. apply lookup_app_l. lia.
Qed.

Lemma vget_lt l i : 0 <= i < len l -> is_Some (vget l i).
Proof.
  intros Hi. unfold vget, len in *. rewrite (proj2 (Z.ltb_ge _ _)) by lia.
  apply lookup_lt_is_Some. lia.
Qed.
End positions.

(** ** Votes indexed by a range *)
Lemma votes_size_le {A : Type} (m : gmap Z A) (n : Z) :
  (forall i x, m !! i = Some x -> 0 <= i < n) -> Z.of_nat (size m) <= Z.max 0 n.
Proof.
  intros Hm. rewrite <- size_dom.
  assert (dom m ⊆ (list_to_set (zrange n) : gset Z)) as Hs%subseteq_size.
  { intros i [x Hx]%elem_of_dom. apply elem_of_list_to_set, zrange_in. eauto. }
  pose proof (size_list_to_set (C := gset Z) (zrange n)) as Hz.
  assert (NoDup (zrange n)) as Hnd.
  { unfold zrange. apply NoDup_fmap_2; [apply _|]. apply NoDup_seq. }
  rewrite Hz in Hs by done. rewrite zrange_length in Hs. lia.
Qed.

Lemma votes_size_lt {A : Type} (m : gmap Z A) (n i : Z) :
  (forall j x, m !! j = Some x -> 0 <= j < n) -> 0 <= i < n -> m !! i = None ->
  Z.of_nat (size m) < n.
Proof.
  intros Hm Hi Hn. destruct (decide (Z.of_nat (size m) < n)) as [|Hge]; [done|exfalso].
  assert (exists x : A, True) as [x _].
  { destruct (map_choose m) as (j & x & _); [|by exists x].
    intros ->. rewrite map_size_empty in Hge. lia. }
  pose proof (votes_size_le (<[i := x]> m) n) as Hle.
  rewrite map_size_insert_None in Hle by done.
  assert (forall j y, <[i := x]> m !! j = Some y -> 0 <= j < n) as Hm'.
  { intros j y. rewrite lookup_insert_Some. naive_solver. }
  specialize (Hle Hm'). lia.
Qed.

(** ** Sorting a sorted list *)
Section sorting.
Context {H : Host}.

Lemma sort_by_index_sorted (l : list Participant) :
  StronglySorted (fun p q => p_index p < p_index q) l -> sort_by_index l = l.
Proof.
  induction 1 as [|p l Hl IH Hp]; [done|]. unfold sort_by_index in *. cbn. rewrite IH.
  destruct l as [|q r]; [done|]. cbn. apply Forall_cons in Hp as [Hq _].
  by rewrite (proj2 (Z.leb_le _ _)) by lia.
Qed.

Lemma zrange_sorted (n : Z) : StronglySorted Z.lt (zrange n).
Proof.
  unfold zrange. generalize 0%nat as k. induction (Z.to_nat n) as [|m IH]; intros k; cbn;
    [constructor|].
  constructor; [apply IH|]. apply Forall_fmap, Forall_forall. intros x Hx%elem_of_seq.
  cbn. lia.
Qed.

Lemma omap_sorted (f : Z -> option Participant) (l : list Z) :
  (forall i p, f i = Some p -> p_index p = i) -> StronglySorted Z.lt l ->
  StronglySorted (fun p q => p_index p < p_index q) (omap f l).
Proof.
  intros Hf. induction 1 as [|i l Hl IH Hi]; cbn; [constructor|].
  destruct (f i) as [p|] eqn:E; [|done]. constructor; [done|].
  apply Forall_forall. intros q (j & Hj & Hq)%list_elem_of_omap.
  rewrite (Hf _ _ E), (Hf _ _ Hq). by eapply Forall_forall in Hi.
Qed.

Lemma recorded_sorted (voters : list Address) (votes : gmap Z Z) :
  StronglySorted (fun p q => p_index p < p_index q) (recorded voters votes).
Proof.
  apply omap_sorted, zrange_sorted. intros i p Hp.
  destruct (vget voters i), (votes !! i); try done. by injection Hp as <-.
Qed.

Lemma mapM_filter_omap {A B E : Type} (f : A -> result E B) (P : A -> Prop)
  `{forall x, Decision (P x)} (g : A -> option B) (l : list A) :
  (forall x, x ∈ l -> if decide (P x) then exists y, f x = Ok y /\ g x = Some y
                      else g x = None) ->
  mapM f (filter P l) = Ok (omap g l).
Proof.
  induction l as [|x l IH]; intros Hl; [done|].
  rewrite filter_cons. cbn [omap list_omap]. pose proof (Hl x ltac:(set_solver)) as Hx.
  assert (mapM f (filter P l) = Ok (omap g l)) as IH' by (apply IH; set_solver).
  destruct (decide (P x)).
  - destruct Hx as (y & Hy & ->). cbn [mapM]. rewrite Hy. cbn [mbind result_bind].
    by rewrite IH'.
  - by rewrite Hx.
Qed.
End sorting.

Section simulation.
Context {H : Host}.

(** ** The register's views on a related ballot *)
Lemma ballot_size (s : store) (pid : Z) (p : ProposalState) (b : ballot) :
  ballot_ok s pid p b -> Z.of_nat (size (b_votes b)) <= len (s_voters s).
Proof.
  intros Hb. pose proof (votes_size_le (b_votes b) (len (s_voters s))) as Hs.
  pose proof (len_nonneg (s_voters s)).
  rewrite Z.max_r in Hs by lia. apply Hs. intros i w Hi. by eapply bo_range.
Qed.

Lemma ballot_total (s : store) (pid : Z) (p : ProposalState) (b : ballot) :
  ballot_ok s pid p b -> b_archive b = None -> len (s_voters s) <= imax U32 ->
  packed_weight_sum (get_vote_bits s pid) (get_packed_weights s pid) (voter_count s)
  = votes_total (s_voters s) (b_votes b).
Proof.
  intros Hb Ha Hl. unfold voter_count, get_voters, votes_total.
  pose proof (len_nonneg (s_voters s)).
  rewrite packed_weight_sum_spec by done. f_equal. apply list_fmap_ext.
  intros n i [-> Hn]%zrange_lookup. unfold vote_weight.
  destruct (bo_bits _ _ _ _ Hb Ha) as [_ ->]; [|lia].
  destruct (b_votes b !! Z.of_nat n) as [w|] eqn:E.
  - rewrite bool_decide_true by done.
    destruct (bo_weights _ _ _ _ Hb Ha) as [_ Hw]. by rewrite (Hw _ _ E).
  - rewrite bool_decide_false; [done|]. by intros [].
Qed.

Lemma ballot_participants (s : store) (a : registry) (pid : Z) (p : ProposalState) (b : ballot) :
  simulates s a -> ballot_ok s pid p b -> b_archive b = None ->
  participants s pid = Ok (recorded (s_voters s) (b_votes b)).
Proof.
  intros Hs Hb Ha. unfold participants, get_voters.
  destruct (bo_bits _ _ _ _ Hb Ha) as [_ Hbit].
  rewrite (mapM_filter_omap _ _
    (fun i => voter ← vget (s_voters s) i; w ← b_votes b !! i;
              Some {| p_index := i; p_voter := voter; p_weight := w |})).
  - cbn [mbind result_bind]. unfold get_action_votes.
    rewrite (sim_detailed _ _ Hs), lookup_empty. cbn.
    f_equal. apply sort_by_index_sorted, recorded_sorted.
  - intros i Hi%zrange_in. rewrite Hbit by lia.
    destruct (vget_lt (s_voters s) i Hi) as [v Hv].
    case_decide as Hd; rewrite bool_decide_eq_true in Hd.
    + destruct Hd as [w Hw]. rewrite Hv, Hw. cbn.
      destruct (bo_weights _ _ _ _ Hb Ha) as [_ Hpw]. rewrite (Hpw _ _ Hw). cbn. eauto.
    + apply eq_None_not_Some in Hd. by rewrite Hv, Hd.
Qed.

(** A ballot keeps its relation when the keys of its proposal are untouched and the
    voter list only grows. *)
Lemma ballot_rel_frame (s s' : store) (pid : Z) p b :
  s_vote_bits s' !! pid = s_vote_bits s !! pid ->
  s_packed_weights s' !! pid = s_packed_weights s !! pid ->
  s_archive s' !! pid = s_archive s !! pid ->
  len (s_voters s) <= len (s_voters s') ->
  ballot_rel s pid p b -> ballot_rel s' pid p b.
Proof.
  intros E1 E2 E3 Hl. destruct p as [p|], b as [b|]; cbn; [|done|done|by rewrite E1, E2, E3].
  intros [B1 B2 B3 B4 B5]. split; unfold get_vote_bits, get_packed_weights in *;
    rewrite ?E1, ?E2, ?E3 in *; try done.
  intros i w Hi. specialize (B2 i w Hi). split; [lia|apply B2].
Qed.

(** Cases of a proposal lookup in related states. *)
Lemma sim_lookup (s : store) (a : registry) (pid : Z) :
  simulates s a ->
  (s_proposals s !! pid = None /\ a_ballots a !! pid = None /\
   s_archive s !! pid = None /\ get_vote_bits s pid = [] /\ get_packed_weights s pid = [])
  \/ exists b, s_proposals s !! pid = Some (proposal_of b) /\ a_ballots a !! pid = Some b /\
       ballot_ok s pid (proposal_of b) b.
Proof.
  intros Hs. pose proof (sim_ballots _ _ Hs pid) as Hb.
  destruct (s_proposals s !! pid) as [p|], (a_ballots a !! pid) as [b|]; cbn in Hb; try done.
  - right. exists b. pose proof (bo_state _ _ _ _ Hb) as ->. done.
  - left. unfold get_vote_bits, get_packed_weights. destruct Hb as (-> & -> & ->). done.
Qed.

(** Writing one proposal in both states. *)
Lemma simulates_ballot (s s' : store) (a : registry) (pid : Z) (b : ballot) :
  simulates s a ->
  s_admin s' = s_admin s -> s_threshold s' = s_threshold s -> s_voters s' = s_voters s ->
  s_weights s' = s_weights s -> s_action_votes s' = ∅ ->
  s_proposals s' = <[pid := proposal_of b]> (s_proposals s) ->
  (forall q, q <> pid -> s_vote_bits s' !! q = s_vote_bits s !! q /\
     s_packed_weights s' !! q = s_packed_weights s !! q /\
     s_archive s' !! q = s_archive s !! q) ->
  ballot_ok s' pid (proposal_of b) b -> simulates s' (with_ballot a pid b).
Proof.
  intros [] E1 E2 E3 E4 E5 E6 Hf Hb. split; rewrite ?E1, ?E2, ?E3, ?E4, ?E5; cbn; try done.
  intros q. rewrite E6. destruct (decide (q = pid)) as [->|Hq].
  - by rewrite !lookup_insert_eq.
  - rewrite !lookup_insert_ne by done. destruct (Hf q Hq) as (F1 & F2 & F3).
    apply (ballot_rel_frame s); [done..|by rewrite E3|done].
Qed.
End simulation.

(** One authentication step, then one administrator check, on both sides. *)
Ltac agree_auth auth caller :=
  unfold require_auth; destruct (auth caller); cbn [mbind result_bind]; [|done].

(** The fields of [simulates] for a storage that changed none of the ballots' keys. *)
Ltac sim_fields Hs :=
  destruct Hs; split; cbn; try done;
  try match goal with
      | Hb : forall pid, ballot_rel ?s pid _ _ |- forall pid, ballot_rel _ pid _ _ =>
          intros ?pid; apply (ballot_rel_frame s); [done..|cbn|by apply Hb];
          rewrite ?len_app; unfold len; lia
      end.

Section operations.
Context {H : Host} (auth : Address -> bool).

Lemma agree_initialize (s : store) (a : registry) (boss : Address) :
  simulates s a -> agree (run auth s (Initialize boss)) (spec_run auth a (Initialize boss)).
Proof.
  intros Hs. cbn. unfold Abi.initialize, initialize, unit_reply. agree_auth auth boss.
  rewrite (sim_admin _ _ Hs). case_bool_decide; cbn; [done|]. split; [done|].
  sim_fields Hs.
Qed.

Lemma agree_add_voter (s : store) (a : registry) (caller voter : Address) :
  simulates s a ->
  agree (run auth s (AddVoter caller voter)) (spec_run auth a (AddVoter caller voter)).
Proof.
  intros Hs. cbn. unfold Abi.add_voter, add_voter, reply_with, admin, spec_admin, get_voters.
  agree_auth auth caller. rewrite (sim_admin _ _ Hs), (sim_voters _ _ Hs).
  destruct (a_admin a) as [boss|]; cbn; [|done].
  destruct (bool_decide (caller <> boss)); cbn; [done|].
  destruct (position_of (a_voters a) voter) as [i|] eqn:E; cbn; [done|].
  unfold vpush. destruct (Z.ltb_spec (len (a_voters a)) (imax U32)) as [Hlt|]; cbn; [|done].
  split; [done|]. apply position_of_None in E.
  pose proof (sim_voters _ _ Hs) as Hv. rewrite <- Hv in E, Hlt |- *. sim_fields Hs.
  - apply NoDup_app. split_and!; [done| |apply NoDup_singleton]. set_solver.
  - rewrite len_app. change (len [voter]) with 1. ilia.
Qed.

Lemma agree_set_admin_weight (s : store) (a : registry) (caller voter : Address) (w : Z) :
  simulates s a ->
  agree (run auth s (SetAdminWeight caller voter w))
    (spec_run auth a (SetAdminWeight caller voter w)).
Proof.
  intros Hs. cbn. unfold Abi.set_admin_weight, set_admin_weight, unit_reply, admin,
    spec_admin, is_voter, voter_index, get_voters.
  agree_auth auth caller. rewrite (sim_admin _ _ Hs), <- (sim_voters _ _ Hs).
  destruct (a_admin a) as [boss|]; cbn; [|done].
  destruct (bool_decide (caller <> boss)); cbn; [done|].
  destruct (position_of (s_voters s) voter) as [i|]; cbn; [|done].
  rewrite pack_weight_spec. fold (weight_ok w).
  destruct (decide (weight_ok w)) as [Hw|Hw];
    [rewrite (bool_decide_true (weight_ok w)) by done
    |rewrite (bool_decide_false (weight_ok w)) by done]; cbn; [|done].
  split; [done|]. sim_fields Hs.
  - by f_equal.
  - intros v w' [[-> ->]|[_ Hv]]%lookup_insert_Some; [done|eauto].
Qed.

Lemma agree_set_weight_threshold (s : store) (a : registry) (caller : Address) (t : Z) :
  simulates s a ->
  agree (run auth s (SetWeightThreshold caller t))
    (spec_run auth a (SetWeightThreshold caller t)).
Proof.
  intros Hs. cbn. unfold Abi.set_weight_threshold, set_weight_threshold, unit_reply, admin,
    spec_admin, MAX_WEIGHT_THRESHOLD.
  agree_auth auth caller. rewrite (sim_admin _ _ Hs).
  destruct (a_admin a) as [boss|]; cbn; [|done].
  destruct (bool_decide (caller <> boss)); cbn; [done|].
  destruct (_ || _); cbn; [done|]. split; [done|]. sim_fields Hs.
Qed.

Lemma agree_propose (s : store) (a : registry) (caller : Address) (pid : Z) :
  simulates s a ->
  agree (run auth s (ProposeAction caller pid)) (spec_run auth a (ProposeAction caller pid)).
Proof.
  intros Hs. cbn. unfold Abi.propose_action, propose_action, unit_reply, admin, spec_admin.
  agree_auth auth caller. rewrite (sim_admin _ _ Hs).
  destruct (a_admin a) as [boss|]; cbn; [|done].
  destruct (bool_decide (caller <> boss)); cbn; [done|].
  destruct (sim_lookup s a pid Hs) as [(Hp & Hb & Ha & Hbits & Hw)|(b & Hp & Hb & _)];
    rewrite Hp, Hb; cbn; [|done].
  split; [done|]. eapply simulates_ballot; try done; [by apply sim_detailed in Hs|].
  split; cbn; try done.
  - intros _. unfold get_vote_bits in *. cbn. rewrite Hbits. split; [constructor|].
    intros i Hi. unfold is_bit_set, vget. by destruct (_ <? _).
  - intros _. unfold get_packed_weights in *. cbn. rewrite Hw. by split; [constructor|].
Qed.

Lemma agree_cancel (s : store) (a : registry) (caller : Address) (pid : Z) :
  simulates s a ->
  agree (run auth s (CancelAction caller pid)) (spec_run auth a (CancelAction caller pid)).
Proof.
  intros Hs. cbn. unfold Abi.cancel_action, cancel_action, unit_reply, admin, spec_admin,
    load_proposal, get_proposal.
  agree_auth auth caller. rewrite (sim_admin _ _ Hs).
  destruct (a_admin a) as [boss|]; cbn; [|done].
  destruct (bool_decide (caller <> boss)); cbn; [done|].
  destruct (sim_lookup s a pid Hs) as [(Hp & Hb & _)|(b & Hp & Hb & Hok)];
    rewrite Hp, Hb; cbn; [done|].
  destruct (b_cancelled b); cbn; [done|]. split; [done|].
  apply (simulates_ballot s); try done; [by apply sim_detailed in Hs|].
  destruct Hok. by split.
Qed.

(** A vote writes one bit and one field. *)
Lemma agree_cast_vote (s : store) (a : registry) (voter : Address) (pid : Z) :
  simulates s a ->
  agree (run auth s (CastVote voter pid)) (spec_run auth a (CastVote voter pid)).
Proof.
  intros Hs. cbn. unfold Abi.cast_vote, cast_vote, reply_with, spec_vote, load_proposal,
    get_proposal, ensure_open, voter_index, get_voters.
  agree_auth auth voter.
  destruct (sim_lookup s a pid Hs) as [(Hp & Hb & _)|(b & Hp & Hb & Hok)];
    rewrite Hp, Hb; cbn; [done|].
  destruct (b_executed b || b_cancelled b); cbn; [done|].
  rewrite (bo_archive _ _ _ _ Hok). destruct (b_archive b) as [r|] eqn:Har; cbn; [done|].
  rewrite <- (sim_voters _ _ Hs).
  destruct (position_of (s_voters s) voter) as [i|] eqn:Ei; cbn; [|done].
  apply position_of_Some in Ei as [Hi Hv].
  destruct (bo_bits _ _ _ _ Hok Har) as [Hbw Hbit].
  destruct (bo_weights _ _ _ _ Hok Har) as [Hww Hwt].
  assert (has_voted s pid i = bool_decide (is_Some (b_votes b !! i))) as ->.
  { unfold has_voted, get_action_votes. rewrite Hbit by lia.
    rewrite (sim_detailed _ _ Hs), lookup_empty. cbn.
    case_bool_decide; [done|]. by destruct (vget (get_voters s) i). }
  case_bool_decide as Hvoted; cbn; [done|]. apply eq_None_not_Some in Hvoted.
  pose proof (sim_len _ _ Hs) as Hl.
  set (w := admin_weight s voter).
  assert (Hw : weight_ok w).
  { unfold w, admin_weight. destruct (s_weights s !! voter) eqn:E; cbn; [|unfold weight_ok; lia].
    by eapply sim_weight_ok. }
  rewrite encoding_for_spec, decide_True by done.
  destruct (set_packed_bit_spec (get_vote_bits s pid) i) as (bw & -> & Hbw' & _ & Hbit');
    [done|lia|].
  destruct (set_packed_weight_spec (get_packed_weights s pid) i w)
    as (pw & -> & Hpw & Hwi & Hwj); [done|lia|done|].
  cbn [mbind result_bind]. unfold count_vote. cbn [proposal_of vote_count].
  pose proof (votes_size_lt (b_votes b) (len (s_voters s)) i
    (fun j x Hj => proj1 (bo_range _ _ _ _ Hok j x Hj)) Hi Hvoted) as Hsz.
  unfold iadd. rewrite iop_in by (unfold imin; lia). cbn [mbind result_bind fst snd].
  rewrite <- (sim_weights _ _ Hs). fold (admin_weight s voter). fold w.
  assert (Hsize : Z.of_nat (size (<[i := w]> (b_votes b))) = Z.of_nat (size (b_votes b)) + 1).
  { rewrite map_size_insert_None by done. lia. }
  rewrite Hsize. split; [done|].
  apply (simulates_ballot s); try done; [by apply sim_detailed in Hs| | |].
  - cbn. f_equal. unfold proposal_of. cbn. by rewrite Hsize.
  - intros q Hq. cbn. by rewrite !lookup_insert_ne by done.
  - split; cbn; [done| |by rewrite (bo_archive _ _ _ _ Hok)| |]; [|intros _; split..].
    + intros j x [[<- <-]|[_ Hj]]%lookup_insert_Some; [done|by eapply bo_range].
    + unfold get_vote_bits. cbn. by rewrite lookup_insert_eq.
    + unfold get_vote_bits. cbn. rewrite lookup_insert_eq. cbn. intros j Hj.
      rewrite Hbit' by done. rewrite Hbit by done.
      destruct (decide (j = i)) as [->|Hji].
      * rewrite lookup_insert_eq. by rewrite !bool_decide_true by done.
      * rewrite lookup_insert_ne by done. by rewrite (bool_decide_false (j = i)) by done.
    + unfold get_packed_weights. cbn. by rewrite lookup_insert_eq.
    + unfold get_packed_weights. cbn. rewrite lookup_insert_eq. cbn.
      intros j x [[<- <-]|[Hji Hj]]%lookup_insert_Some; [done|].
      pose proof (bo_range _ _ _ _ Hok j x Hj). apply Hwj; [lia|done|by apply Hwt].
Qed.

(** The administrator check of [finalize] and [compress_after_execution]. *)
Ltac agree_admin Hs :=
  unfold Abi.require_admin, admin, spec_admin; rewrite (sim_admin _ _ Hs);
  destruct (a_admin _) as [boss|]; cbn [ok_or mbind result_bind]; [|done];
  destruct (bool_decide (_ <> boss)); cbn [fail_if mbind result_bind]; [done|].

Lemma agree_finalize (s : store) (a : registry) (caller : Address) (pid : Z) :
  simulates s a ->
  agree (run auth s (Finalize caller pid)) (spec_run auth a (Finalize caller pid)).
Proof.
  intros Hs. cbn [run spec_run]. unfold Abi.finalize, reply_with. agree_auth auth caller.
  agree_admin Hs. unfold finalize, spec_finalize, load_proposal, get_proposal.
  destruct (sim_lookup s a pid Hs) as [(Hp & Hb & _)|(b & Hp & Hb & Hok)];
    rewrite Hp, Hb; cbn; [done|].
  destruct (b_executed b) eqn:Hex; cbn; [done|].
  destruct (b_cancelled b) eqn:Hca; cbn; [done|].
  unfold tally, load_proposal, get_proposal, get_archive. rewrite Hp. cbn.
  rewrite (bo_archive _ _ _ _ Hok).
  replace (required_threshold s) with (threshold_of a).
  2: { unfold required_threshold, threshold_of, get_weight_threshold, get_voters.
       by rewrite (sim_threshold _ _ Hs), (sim_voters _ _ Hs). }
  assert (Hfin : forall total,
    agree (p ← (fail_if (total <? threshold_of a) ThresholdNotReached ;;
                Ok ({| executed := true; cancelled := b_cancelled b;
                       vote_count := Z.of_nat (size (b_votes b)); final_tally := total |},
                    set_proposal s pid
                      {| executed := true; cancelled := b_cancelled b;
                         vote_count := Z.of_nat (size (b_votes b)); final_tally := total |}));
           Ok (RProposal p.1, p.2))
      (fail_if (total <? threshold_of a) ThresholdNotReached ;;
       Ok (RProposal (proposal_of {| b_executed := true; b_cancelled := b_cancelled b;
                                     b_votes := b_votes b; b_tally := total;
                                     b_archive := b_archive b |}),
           with_ballot a pid {| b_executed := true; b_cancelled := b_cancelled b;
                                b_votes := b_votes b; b_tally := total;
                                b_archive := b_archive b |}))).
  { intros total. destruct (total <? threshold_of a); cbn; [done|]. split; [done|].
    apply (simulates_ballot s); try done; [by apply sim_detailed in Hs|].
    destruct Hok. by split. }
  rewrite <- Hca. destruct (b_archive b) as [r|] eqn:Har; cbn [mbind result_bind]; [apply Hfin|].
  unfold get_action_votes. rewrite (sim_detailed _ _ Hs), lookup_empty. cbn [default add_detailed foldl].
  rewrite (ballot_total s pid _ b Hok Har (sim_len _ _ Hs)), (sim_voters _ _ Hs). apply Hfin.
Qed.

Lemma agree_compress (s : store) (a : registry) (caller : Address) (pid : Z) :
  simulates s a ->
  agree (run auth s (CompressAfterExecution caller pid))
    (spec_run auth a (CompressAfterExecution caller pid)).
Proof.
  intros Hs. cbn [run spec_run]. unfold Abi.compress_after_execution, reply_with.
  agree_auth auth caller. agree_admin Hs.
  unfold compress_after_execution, spec_compress, load_proposal, get_proposal.
  destruct (sim_lookup s a pid Hs) as [(Hp & Hb & _)|(b & Hp & Hb & Hok)];
    rewrite Hp, Hb; cbn; [done|].
  destruct (b_executed b) eqn:Hex; cbn; [|done].
  rewrite (bo_archive _ _ _ _ Hok). destruct (b_archive b) as [r|] eqn:Har; cbn; [done|].
  rewrite (ballot_participants s a pid _ b Hs Hok Har). cbn.
  rewrite <- (sim_voters _ _ Hs). unfold archive_record.
  replace (len (participant_leaf pid <$> recorded (s_voters s) (b_votes b)))
    with (len (recorded (s_voters s) (b_votes b))) by (unfold len; by rewrite length_fmap).
  split; [done|].
  apply (simulates_ballot s); try done; cbn.
  - by rewrite (sim_detailed _ _ Hs), delete_empty.
  - rewrite insert_id; [done|]. rewrite Hp. unfold proposal_of. cbn. by rewrite Hex.
  - intros q Hq. by rewrite !lookup_delete_ne, lookup_insert_ne by done.
  - split; cbn; try done; [by apply (bo_range _ _ _ _ Hok)|by rewrite lookup_insert_eq].
Qed.
End operations.

(** ** The simulation of whole histories *)
Section histories.
Context {H : Host}.

Lemma run_agrees (auth : Address -> bool) (s : store) (a : registry) (c : call) :
  simulates s a -> agree (run auth s c) (spec_run auth a c).
Proof.
  intros Hs. destruct c; auto using agree_initialize, agree_add_voter, agree_set_admin_weight,
    agree_set_weight_threshold, agree_propose, agree_cancel, agree_cast_vote, agree_finalize,
    agree_compress.
Qed.

Lemma simulates_empty : simulates empty_store empty_registry.
Proof.
  split; cbn; try done. apply NoDup_nil_2.
Qed.

Lemma replay_simulates_from (h : history) (s : store) (a : registry) :
  simulates s a -> simulates (replay s h) (spec_replay a h).
Proof.
  revert s a. induction h as [|[auth c] h IH]; intros s a Hs; [done|]. cbn. apply IH.
  pose proof (run_agrees auth s a c Hs) as Ha. unfold after.
  destruct (run auth s c) as [[r s']|e|], (spec_run auth a c) as [[q a']|e'|]; try done.
  by destruct Ha.
Qed.

Lemma replay_simulates (h : history) :
  simulates (replay empty_store h) (spec_replay empty_registry h).
Proof. apply replay_simulates_from, simulates_empty. Qed.
End histories.
