(* ===== verification/VoteHistory.v ===== *)
(** * Histories of the vote archive

    Invariants of the specification's states and how a ballot may change over a
    history; then the properties of the contract: refinement, at most one vote per
    voter, the frozen tally, and the archive's completeness and soundness. *)

From stdpp Require Import base numbers list gmap sets sorting.
From Stdlib Require Import ZArith Lia.
From S2P Require Import Prelude Host VoteBits VoteMerkle VoteRegister VoteContract VoteSpec VoteRefine.

Open Scope Z_scope.

Section invariant.
Context {H : Host}.

Record ballot_inv (a : registry) (pid : Z) (b : ballot) : Prop := {
  bi_range : forall i w, b_votes b !! i = Some w -> 0 <= i < len (a_voters a) /\ weight_ok w;
  bi_tally : b_executed b = true ->
    b_tally b = votes_total (a_voters a) (b_votes b) /\ 1 <= b_tally b;
  bi_archive : forall r, b_archive b = Some r ->
    b_executed b = true /\ r = archive_record pid (a_voters a) (b_votes b) (b_tally b)
}.

Record registry_inv (a : registry) : Prop := {
  ri_threshold : forall t, a_threshold a = Some t -> 1 <= t;
  ri_weights : forall v w, a_weights a !! v = Some w -> weight_ok w;
  ri_ballots : forall pid b, a_ballots a !! pid = Some b -> ballot_inv a pid b
}.

(** How a ballot may change: votes are only added, never after execution, and an
    executed outcome and an archive record never change. *)
Record ballot_le (b b' : ballot) : Prop := {
  bl_votes : b_votes b ⊆ b_votes b';
  bl_executed : b_executed b = true ->
    b_executed b' = true /\ b_votes b' = b_votes b /\ b_tally b' = b_tally b;
  bl_archive : forall r, b_archive b = Some r -> b_archive b' = Some r
}.

Record evolves (a a' : registry) : Prop := {
  ev_voters : a_voters a `prefix_of` a_voters a';
  ev_ballots : forall pid b, a_ballots a !! pid = Some b ->
    exists b', a_ballots a' !! pid = Some b' /\ ballot_le b b'
}.

#[export] Instance ballot_le_preorder : PreOrder ballot_le.
Proof.
  split.
  - intros b. by split.
  - intros b c d [V1 E1 A1] [V2 E2 A2]. split; [by etrans| |by auto].
    intros He. destruct (E1 He) as (He' & Hv & Ht). destruct (E2 He') as (? & ? & ?).
    split_and!; congruence.
Qed.

#[export] Instance evolves_preorder : PreOrder evolves.
Proof.
  split.
  - intros a. split; [done|]. intros pid b Hb. by exists b.
  - intros a1 a2 a3 [V1 B1] [V2 B2]. split; [by etrans|]. intros pid b Hb.
    destruct (B1 pid b Hb) as (c & Hc & ?). destruct (B2 pid c Hc) as (d & Hd & ?).
    exists d. split; [done|by etrans].
Qed.

(** ** New voters do not disturb recorded votes *)
Lemma zrange_len_snoc {A : Type} (l : list A) (x : A) :
  zrange (len (l ++ [x])) = zrange (len l) ++ [len l].
Proof.
  unfold len. rewrite length_app, Nat.add_comm. apply (zrange_S (length l)).
Qed.

Definition votes_in (voters : list Address) (votes : gmap Z Z) : Prop :=
  forall i w, votes !! i = Some w -> 0 <= i < len voters.

Lemma votes_in_fresh (voters : list Address) (votes : gmap Z Z) :
  votes_in voters votes -> votes !! len voters = None.
Proof.
  intros Hv. destruct (votes !! len voters) eqn:E; [|done]. apply Hv in E. lia.
Qed.

Lemma votes_total_snoc (voters : list Address) (votes : gmap Z Z) (v : Address) :
  votes_in voters votes -> votes_total (voters ++ [v]) votes = votes_total voters votes.
Proof.
  intros Hv. unfold votes_total. rewrite zrange_len_snoc, fmap_app, zsum_app. cbn.
  rewrite votes_in_fresh by done. cbn. lia.
Qed.

Lemma recorded_snoc (voters : list Address) (votes : gmap Z Z) (v : Address) :
  votes_in voters votes -> recorded (voters ++ [v]) votes = recorded voters votes.
Proof.
  intros Hv. unfold recorded. rewrite zrange_len_snoc, omap_app. cbn.
  rewrite (votes_in_fresh voters votes) by done.
  replace (vget (voters ++ [v]) (len voters) ≫= _) with (@None Participant).
  2: { by destruct (vget (voters ++ [v]) (len voters)). }
  rewrite app_nil_r. apply list_omap_ext. apply Forall2_same_length_lookup_2; [done|].
  intros n i j [-> Hi]%zrange_lookup [-> _]%zrange_lookup.
  by rewrite vget_app_l by lia.
Qed.

Lemma ballot_inv_snoc (a : registry) (pid : Z) (b : ballot) (v : Address) :
  ballot_inv a pid b -> ballot_inv (with_voters a (a_voters a ++ [v])) pid b.
Proof.
  intros [R T A]. assert (votes_in (a_voters a) (b_votes b)) as Hin.
  { intros i w Hi. by apply (R i w). }
  split; cbn.
  - intros i w Hi. rewrite len_app. change (len [v]) with 1. destruct (R i w Hi). split; [lia|done].
  - intros He. rewrite votes_total_snoc by done. auto.
  - intros r Hr. unfold archive_record. rewrite recorded_snoc by done. auto.
Qed.

Lemma ballot_inv_frame (a a' : registry) (pid : Z) (b : ballot) :
  a_voters a' = a_voters a -> ballot_inv a pid b -> ballot_inv a' pid b.
Proof. intros E [R T A]. split; rewrite E; done. Qed.

(** Replacing one ballot. *)
Lemma inv_with_ballot (a : registry) (pid : Z) (b : ballot) :
  registry_inv a -> ballot_inv a pid b -> registry_inv (with_ballot a pid b).
Proof.
  intros [T W B] Hb. split; [done|done|]. cbn.
  intros q c [[<- <-]|[_ Hc]]%lookup_insert_Some; apply (ballot_inv_frame a); auto.
Qed.

Lemma evolves_with_ballot (a : registry) (pid : Z) (b b' : ballot) :
  a_ballots a !! pid = Some b -> ballot_le b b' -> evolves a (with_ballot a pid b').
Proof.
  intros Hb Hle. split; cbn; [done|]. intros q c Hc.
  destruct (decide (q = pid)) as [->|Hq].
  - exists b'. rewrite lookup_insert_eq. split; [done|]. by simplify_eq.
  - exists c. by rewrite lookup_insert_ne.
Qed.

Lemma evolves_same (a a' : registry) :
  a_voters a `prefix_of` a_voters a' -> a_ballots a' = a_ballots a -> evolves a a'.
Proof.
  intros Hv Hb. split; [done|]. intros pid b Hl. exists b. rewrite Hb. by split.
Qed.

Lemma threshold_pos (a : registry) : registry_inv a -> 1 <= threshold_of a.
Proof.
  intros Ha. unfold threshold_of. destruct (a_threshold a) eqn:E; [by eapply ri_threshold|].
  destruct (_ <=? 3); lia.
Qed.

Lemma spec_vote_step (a : registry) (voter : Address) (pid : Z) (r : reply) (a' : registry) :
  registry_inv a -> spec_vote a voter pid = Ok (r, a') -> registry_inv a' /\ evolves a a'.
Proof.
  intros Ha Hr. unfold spec_vote in Hr.
  destruct (a_ballots a !! pid) as [b|] eqn:Hb; [|done]. cbn in Hr.
  destruct (b_executed b) eqn:Hex; [done|]. destruct (b_cancelled b); [done|]. cbn in Hr.
  destruct (b_archive b) as [rec|] eqn:Har; [done|]. cbn in Hr.
  destruct (position_of (a_voters a) voter) as [i|] eqn:Hi; [|done]. cbn in Hr.
  apply position_of_Some in Hi as [Hi _].
  destruct (b_votes b !! i) eqn:Hn; [done|]. cbn in Hr. injection Hr as _ <-.
  pose proof (ri_ballots _ Ha pid b Hb) as Hbi.
  split.
  - apply inv_with_ballot; [done|]. split; cbn; [|done|done].
    intros j w [[<- <-]|[_ Hj]]%lookup_insert_Some; [|by apply (bi_range _ _ _ Hbi)].
    split; [done|]. destruct (a_weights a !! voter) eqn:E; cbn; [by eapply ri_weights|].
    unfold weight_ok; lia.
  - eapply evolves_with_ballot; [done|]. split; cbn; [|congruence|congruence].
    by apply insert_subseteq.
Qed.

Lemma spec_finalize_step (a : registry) (pid : Z) (r : reply) (a' : registry) :
  registry_inv a -> spec_finalize a pid = Ok (r, a') -> registry_inv a' /\ evolves a a'.
Proof.
  intros Ha Hr. unfold spec_finalize in Hr.
  destruct (a_ballots a !! pid) as [b|] eqn:Hb; [|done]. cbn in Hr.
  pose proof (ri_ballots _ Ha pid b Hb) as Hbi.
  destruct (b_executed b) eqn:Hex; [by injection Hr as _ <-|].
  destruct (b_cancelled b); [done|]. cbn in Hr.
  destruct (b_archive b) as [rec|] eqn:Har.
  { destruct (bi_archive _ _ _ Hbi rec Har). congruence. }
  destruct (Z.ltb_spec (votes_total (a_voters a) (b_votes b)) (threshold_of a)); [done|].
  cbn in Hr. injection Hr as _ <-. pose proof (threshold_pos a Ha).
  split.
  - apply inv_with_ballot; [done|]. split; cbn; [apply (bi_range _ _ _ Hbi)|lia|done].
  - eapply evolves_with_ballot; [done|]. split; cbn; [done|congruence|congruence].
Qed.

Lemma spec_compress_step (a : registry) (pid : Z) (r : reply) (a' : registry) :
  registry_inv a -> spec_compress a pid = Ok (r, a') -> registry_inv a' /\ evolves a a'.
Proof.
  intros Ha Hr. unfold spec_compress in Hr.
  destruct (a_ballots a !! pid) as [b|] eqn:Hb; [|done]. cbn in Hr.
  pose proof (ri_ballots _ Ha pid b Hb) as Hbi.
  destruct (b_executed b) eqn:Hex; [|done]. cbn in Hr.
  destruct (b_archive b) as [rec|] eqn:Har; [done|]. cbn in Hr. injection Hr as _ <-.
  split.
  - apply inv_with_ballot; [done|]. destruct Hbi as [R T A]. split; cbn; [done|auto|].
    by intros r' [= <-].
  - eapply evolves_with_ballot; [done|]. split; cbn; [done|done|congruence].
Qed.

Lemma spec_admin_calls (a : registry) (auth : Address -> bool) (caller : Address)
    (e : ArchiveError) (k : result ArchiveError (reply * registry)) (x : reply * registry) :
  (require_auth auth caller ;; spec_admin a caller e ;; k) = Ok x -> k = Ok x.
Proof.
  unfold require_auth, spec_admin. destruct (auth caller); cbn; [|done].
  destruct (a_admin a); cbn; [|done]. by destruct (bool_decide _).
Qed.

Lemma spec_run_step (auth : Address -> bool) (a : registry) (c : call) (r : reply)
    (a' : registry) :
  registry_inv a -> spec_run auth a c = Ok (r, a') -> registry_inv a' /\ evolves a a'.
Proof.
  intros Ha Hr. destruct c as [boss|caller voter|caller voter w|caller t|caller pid
    |caller pid|voter pid|caller pid|caller pid]; cbn in Hr.
  - unfold require_auth in Hr. destruct (auth boss); cbn in Hr; [|done].
    destruct (a_admin a); cbn in Hr; [done|]. injection Hr as _ <-.
    destruct Ha as [T W B]. split; [split; cbn; try done|by apply evolves_same].
    intros pid b Hb. apply (ballot_inv_frame a); auto.
  - apply spec_admin_calls in Hr. destruct (position_of _ _); [by injection Hr as _ <-|].
    unfold vpush in Hr. destruct (_ <? _); cbn in Hr; [|done]. injection Hr as _ <-.
    destruct Ha as [T W B]. split; [split; cbn; try done|].
    + intros pid b Hb. by apply ballot_inv_snoc, B.
    + apply evolves_same; [by apply prefix_app_r|done].
  - apply spec_admin_calls in Hr. destruct (position_of _ _); cbn in Hr; [|done].
    destruct (decide (weight_ok w)) as [Hw|Hw];
      [rewrite bool_decide_true in Hr by done
      |rewrite bool_decide_false in Hr by done; done].
    cbn in Hr. injection Hr as _ <-.
    destruct Ha as [T W B]. split; [split; cbn; try done|by apply evolves_same].
    + intros v x [[<- <-]|[_ Hv]]%lookup_insert_Some; eauto.
    + intros pid b Hb. apply (ballot_inv_frame a); auto.
  - apply spec_admin_calls in Hr. destruct (Z.ltb_spec t 1); cbn in Hr; [done|].
    destruct (100 <? t); cbn in Hr; [done|]. injection Hr as _ <-.
    destruct Ha as [T W B]. split; [split; cbn; try done|by apply evolves_same].
    + by intros t' [= <-].
    + intros pid b Hb. apply (ballot_inv_frame a); auto.
  - apply spec_admin_calls in Hr. destruct (a_ballots a !! pid) eqn:Hb; cbn in Hr; [done|].
    injection Hr as _ <-. split.
    + apply inv_with_ballot; [done|]. split; cbn; try done.
    + split; cbn; [done|]. intros q c Hc. exists c. rewrite lookup_insert_ne by congruence.
      done.
  - apply spec_admin_calls in Hr. destruct (a_ballots a !! pid) as [b|] eqn:Hb; cbn in Hr;
      [|done].
    destruct (b_cancelled b); cbn in Hr; [done|]. injection Hr as _ <-. split.
    + apply inv_with_ballot; [done|]. destruct (ri_ballots _ Ha _ _ Hb). by split.
    + eapply evolves_with_ballot; [done|]. by split.
  - unfold require_auth in Hr. destruct (auth voter); cbn in Hr; [|done].
    by eapply spec_vote_step.
  - apply spec_admin_calls in Hr. by eapply spec_finalize_step.
  - apply spec_admin_calls in Hr. by eapply spec_compress_step.
Qed.

Lemma spec_replay_inv (h : history) (a : registry) :
  registry_inv a -> registry_inv (spec_replay a h) /\ evolves a (spec_replay a h).
Proof.
  revert a. induction h as [|[auth c] h IH]; intros a Ha; cbn; [done|].
  unfold after at 2 4. destruct (spec_run auth a c) as [[r a']|e|] eqn:E; [|by apply IH..].
  destruct (spec_run_step _ _ _ _ _ Ha E) as [Ha' He].
  destruct (IH a' Ha') as [? ?]. split; [done|by etrans].
Qed.

Lemma empty_registry_inv : registry_inv empty_registry.
Proof. by split. Qed.

(** The state reached by a history, on both sides, and after a further history. *)
Lemma history_inv (h : history) :
  simulates (replay empty_store h) (spec_replay empty_registry h) /\
  registry_inv (spec_replay empty_registry h).
Proof.
  split; [apply replay_simulates|]. apply spec_replay_inv, empty_registry_inv.
Qed.
End invariant.

(** ** Views of related states *)
Section views.
Context {H : Host}.

Definition spec_tally (a : registry) (pid : Z) : result ArchiveError Z :=
  b ← ok_or (a_ballots a !! pid) ProposalNotFound;
  Ok (match b_archive b with
      | Some r => rec_final_tally r
      | None => votes_total (a_voters a) (b_votes b)
      end).

Lemma tally_spec (s : store) (a : registry) (pid : Z) :
  simulates s a -> tally s pid = spec_tally a pid.
Proof.
  intros Hs. unfold tally, spec_tally, load_proposal, get_proposal, get_archive.
  destruct (sim_lookup s a pid Hs) as [(-> & -> & _)|(b & -> & -> & Hok)]; cbn; [done|].
  rewrite (bo_archive _ _ _ _ Hok). destruct (b_archive b) eqn:Har; [done|].
  unfold get_action_votes. rewrite (sim_detailed _ _ Hs), lookup_empty. cbn.
  by rewrite (ballot_total s pid _ b Hok Har (sim_len _ _ Hs)), (sim_voters _ _ Hs).
Qed.

Lemma vote_weights_spec (s : store) (a : registry) (pid : Z) (b : ballot) :
  simulates s a -> a_ballots a !! pid = Some b -> b_archive b = None ->
  get_vote_weights s pid
  = Ok ((fun i => default 0 (b_votes b !! i)) <$> zrange (len (s_voters s))).
Proof.
  intros Hs Hb Har.
  destruct (sim_lookup s a pid Hs) as [(_ & E & _)|(b' & _ & E & Hok)];
    rewrite Hb in E; [done|]. injection E as <-.
  unfold get_vote_weights, get_action_votes, voter_count, get_voters.
  rewrite (sim_detailed _ _ Hs), lookup_empty. cbn [default].
  destruct (bo_bits _ _ _ _ Hok Har) as [_ Hbit].
  destruct (bo_weights _ _ _ _ Hok Har) as [_ Hw].
  apply mapM_Ok. intros i Hi%zrange_in. rewrite Hbit by lia.
  destruct (b_votes b !! i) as [w|] eqn:Ew.
  - rewrite bool_decide_true by done. by apply Hw.
  - rewrite bool_decide_false by (by intros []).
    by destruct (vget (s_voters s) i).
Qed.

Lemma vote_options_spec (s : store) (a : registry) (pid : Z) (b : ballot) :
  simulates s a -> a_ballots a !! pid = Some b -> b_archive b = None ->
  get_vote_options s pid
  = Ok ((fun i => bool_decide (is_Some (b_votes b !! i))) <$> zrange (len (s_voters s))).
Proof.
  intros Hs Hb Har.
  destruct (sim_lookup s a pid Hs) as [(_ & E & _)|(b' & _ & E & Hok)];
    rewrite Hb in E; [done|]. injection E as <-.
  unfold get_vote_options, voter_count, get_voters. f_equal.
  apply list_fmap_ext. intros n i [-> Hn]%zrange_lookup.
  unfold has_voted, get_action_votes. rewrite (sim_detailed _ _ Hs), lookup_empty. cbn.
  destruct (bo_bits _ _ _ _ Hok Har) as [_ ->]; [|lia].
  case_bool_decide; [done|]. by destruct (vget _ _).
Qed.

Lemma position_of_prefix (l k : list Address) (v : Address) (i : Z) :
  l `prefix_of` k -> NoDup k -> position_of l v = Some i -> position_of k v = Some i.
Proof.
  intros [m ->] Hnd [Hi Hv]%position_of_Some. apply position_of_vget; [done|].
  by rewrite vget_app_l.
Qed.

(** ** The archive *)
Lemma last_position (ps : list Participant) (i : Z) (pos : nat) :
  foldl (fun acc (jp : nat * Participant) => if p_index jp.2 =? i then Some jp.1 else acc) None
    (imap (fun j p => (j, p)) ps) = Some pos ->
  exists p, ps !! pos = Some p /\ p_index p = i.
Proof.
  induction ps as [|p ps IH] using rev_ind; [done|].
  rewrite imap_app, foldl_app. cbn. rewrite Nat.add_0_r.
  destruct (Z.eqb_spec (p_index p) i) as [Hp|Hp].
  - intros [= <-]. exists p. by rewrite lookup_app_r, Nat.sub_diag by done.
  - intros (q & Hq & ?)%IH. exists q. split; [|done]. by apply lookup_app_l_Some.
Qed.

Lemma recorded_elem (voters : list Address) (votes : gmap Z Z) (p : Participant) :
  p ∈ recorded voters votes <->
  0 <= p_index p < len voters /\ vget voters (p_index p) = Some (p_voter p) /\
  votes !! p_index p = Some (p_weight p).
Proof.
  unfold recorded. rewrite list_elem_of_omap. split.
  - intros (i & Hi%zrange_in & Hp). destruct (vget voters i) eqn:E1, (votes !! i) eqn:E2;
      try done. injection Hp as <-. done.
  - intros (Hi & Hv & Hw). exists (p_index p). split; [by apply zrange_in|].
    rewrite Hv, Hw. cbn. by destruct p.
Qed.

Lemma recorded_nil (voters : list Address) (votes : gmap Z Z) :
  recorded voters votes = [] -> votes_total voters votes = 0.
Proof.
  intros Hr. unfold votes_total.
  assert (forall i, i ∈ zrange (len voters) -> default 0 (votes !! i) = 0) as Hz.
  { intros i Hi%zrange_in. destruct (votes !! i) as [w|] eqn:Ew; [|done].
    destruct (vget_lt voters i Hi) as [v Hv].
    assert ({| p_index := i; p_voter := v; p_weight := w |} ∈ recorded voters votes) as Hin
      by by apply recorded_elem.
    rewrite Hr in Hin. by apply not_elem_of_nil in Hin. }
  induction (zrange (len voters)) as [|i l IH]; [done|]. cbn. rewrite Hz by set_solver.
  unfold zsum in IH. rewrite IH; [done|]. intros j Hj. apply Hz. set_solver.
Qed.

Definition participant_preimage (pid : Z) (p : Participant) : bytes :=
  leaf_preimage pid (p_index p) true (p_weight p) (p_voter p).

(** What a run of the verifier hashes, and what the archive of a register hashed. *)
Definition verifier_preimages (pid i : Z) (v : Address) (o : bool) (w : Z)
  (pos n : nat) (proof : list bytes) : list bytes :=
  [EMPTY_DOMAIN] :: leaf_preimage pid i o w v
  :: path_preimages n (leaf_hash pid i o w v) pos n 0 proof.

Definition archive_preimages (pid : Z) (ps : list Participant) : list bytes :=
  (participant_preimage pid <$> ps)
  ++ tree_preimages (length ps) (participant_leaf pid <$> ps).
End views.

(** ** The root of a tree with a leaf is a hash of one of the tree's preimages *)
Section root_preimage.
Context {H : Host}.

Definition hashed_from (xs : list bytes) (h : bytes) : Prop :=
  exists x, x ∈ xs /\ h = sha256 x.

Lemma hashed_next (xs level : list bytes) :
  Forall (hashed_from xs) level ->
  Forall (hashed_from (xs ++ level_preimages level)) (next_level level).
Proof.
  intros Hf. assert (forall h, hashed_from xs h ->
    forall ys, hashed_from (xs ++ ys) h) as Hmono.
  { intros h (x & Hx & ->) ys. exists x. set_solver. }
  induction level as [|x|x y l IH] using pair_ind; cbn; [done| |].
  - apply Forall_cons in Hf as [Hx _]. constructor; [by apply Hmono|done].
  - apply Forall_cons in Hf as [_ [_ Hl]%Forall_cons]. constructor.
    + exists (node_preimage x y). split; [set_solver|done].
    + eapply Forall_impl; [by apply IH|]. intros h (z & Hz & ->). exists z. set_solver.
Qed.

Lemma hashed_collapse (fuel : nat) :
  forall (xs level : list bytes), Forall (hashed_from xs) level ->
  Forall (hashed_from (xs ++ tree_preimages fuel level)) (collapse fuel level).
Proof.
  induction fuel as [|fuel IH]; intros xs level Hf; cbn [collapse tree_preimages].
  - by rewrite app_nil_r.
  - destruct (1 <? length level)%nat; [|by rewrite app_nil_r].
    rewrite app_assoc. by apply IH, hashed_next.
Qed.

Lemma tree_preimages_node (fuel : nat) (level : list bytes) (x : bytes) :
  x ∈ tree_preimages fuel level -> exists l r, x = node_preimage l r.
Proof.
  revert level. induction fuel as [|fuel IH]; intros level Hx; cbn in Hx.
  - by apply not_elem_of_nil in Hx.
  - destruct (match length level with S (S _) => true | _ => false end);
      [|by apply not_elem_of_nil in Hx].
    apply elem_of_app in Hx as [Hx|Hx]; [|eauto]. clear IH. revert Hx.
    induction level as [|y|y z l IHl] using pair_ind; cbn;
      [by intros ?%not_elem_of_nil..|]. intros [->|?]%elem_of_cons; eauto.
Qed.

Lemma root_not_empty (pid : Z) (ps : list Participant) (xs : list bytes) :
  ps <> [] -> merkle_root (participant_leaf pid <$> ps) = empty_root ->
  [EMPTY_DOMAIN] ∈ xs -> collide xs (archive_preimages pid ps).
Proof.
  intros Hps Hroot Hxs.
  assert (Forall (hashed_from (participant_preimage pid <$> ps)) (participant_leaf pid <$> ps))
    as Hleaves.
  { apply Forall_fmap, Forall_forall. intros p Hp. exists (participant_preimage pid p).
    split; [by apply list_elem_of_fmap_2|done]. }
  pose proof (hashed_collapse (length ps) _ _ Hleaves) as Hc.
  rewrite <- (length_fmap (participant_leaf pid) ps) in Hc at 2.
  rewrite merkle_root_collapse in Hc by (rewrite length_fmap; destruct ps; [done|cbn; lia]).
  apply Forall_cons in Hc as [(x & Hx & Hrx) _].
  exists [EMPTY_DOMAIN], x. split_and!; [done|exact Hx| |].
  - intros <-. apply elem_of_app in Hx as [Hx|Hx].
    + apply list_elem_of_fmap in Hx as (p & Hp & _). discriminate Hp.
    + apply tree_preimages_node in Hx as (l & r & Hn). discriminate Hn.
  - rewrite <- Hrx, Hroot. done.
Qed.
End root_preimage.
