(* ===== verification/VoteTheorems.v ===== *)
(** * The vote archive's properties

    What a user of the vote archive relies on, stated for every history of calls
    from the empty storage: whoever authorised them, in whatever order, and
    whether or not they succeeded. *)

From stdpp Require Import base numbers list gmap sets sorting.
From Stdlib Require Import ZArith Lia.
From S2P Require Import Prelude Host VoteBits VoteMerkle VoteRegister VoteContract VoteSpec VoteRefine VoteHistory.

Open Scope Z_scope.

Section theorems.
Context {H : Host}.

(** C1: after any history, every mutating entry point of the contract, on the packed
    bit-fields, replies exactly as the specification, which only records the weight
    each voter had when voting: same reply, same error, or both trap; and the
    states it leads to are again related. *)
Theorem vote_archive_refines_spec (h : history) (auth : Address -> bool) (c : call) :
  agree (run auth (replay empty_store h) c)
    (spec_run auth (spec_replay empty_registry h) c).
Proof. apply run_agrees, history_inv. Qed.

(** after any history the tally is the sum of the weights recorded for the eligible
    voters, or the archived total once compressed, and [ProposalNotFound] for an
    unknown proposal; the saturating additions never saturate and no voter counts
    twice. Before compression the decoded ballot and weights are the recorded ones. *)
Theorem vote_views_exact (h : history) (pid : Z) :
  let s := replay empty_store h in
  let a := spec_replay empty_registry h in
  tally s pid = spec_tally a pid /\
  forall b, a_ballots a !! pid = Some b -> b_archive b = None ->
    get_vote_options s pid
    = Ok ((fun i => bool_decide (is_Some (b_votes b !! i))) <$> zrange (voter_count s)) /\
    get_vote_weights s pid
    = Ok ((fun i => default 0 (b_votes b !! i)) <$> zrange (voter_count s)).
Proof.
  intros s a. destruct (history_inv h) as [Hs _]. split; [by apply tally_spec|].
  intros b Hb Ha. split; [by eapply vote_options_spec|by eapply vote_weights_spec].
Qed.

(** a voter votes at most once on a proposal: after a successful vote, no later
    vote of the same voter on that proposal succeeds, whatever happened in between. *)
Theorem one_vote_per_voter (h h' : history) (auth auth' : Address -> bool)
    (voter : Address) (pid : Z) (r : reply) (s' : store) (x : reply * store) :
  run auth (replay empty_store h) (CastVote voter pid) = Ok (r, s') ->
  run auth' (replay s' h') (CastVote voter pid) <> Ok x.
Proof.
  intros Hr Hx. destruct (history_inv h) as [Hs Hi].
  pose proof (run_agrees auth _ _ (CastVote voter pid) Hs) as Ha. rewrite Hr in Ha.
  set (a := spec_replay empty_registry h) in *.
  destruct (spec_run auth a (CastVote voter pid)) as [[q a']|e|] eqn:Hq; [|done..].
  destruct Ha as [_ Hs']. destruct (spec_run_step _ _ _ _ _ Hi Hq) as [Hi' _].
  pose proof (replay_simulates_from h' _ _ Hs') as Hs2.
  destruct (spec_replay_inv h' _ Hi') as [_ Hev].
  pose proof (run_agrees auth' _ _ (CastVote voter pid) Hs2) as Ha2. rewrite Hx in Ha2.
  set (a2 := spec_replay a' h') in *.
  destruct (spec_run auth' a2 (CastVote voter pid)) as [[q2 a3]|e|] eqn:Hq2;
    [clear Ha2|by destruct x..].
  cbn in Hq, Hq2. unfold require_auth in Hq, Hq2.
  destruct (auth voter); [|done]. destruct (auth' voter); [|done]. cbn in Hq, Hq2.
  unfold spec_vote in Hq, Hq2.
  destruct (a_ballots a !! pid) as [b|] eqn:Hb; [|done]. cbn in Hq.
  destruct (b_executed b || b_cancelled b), (bool_decide (is_Some (b_archive b))); try done.
  cbn in Hq. destruct (position_of (a_voters a) voter) as [i|] eqn:Ei; [|done]. cbn in Hq.
  destruct (bool_decide (is_Some (b_votes b !! i))); [done|]. cbn in Hq.
  injection Hq as _ <-.
  destruct (ev_ballots _ _ Hev pid) with
    (b := {| b_executed := b_executed b; b_cancelled := b_cancelled b;
             b_votes := <[i := default 1 (a_weights a !! voter)]> (b_votes b);
             b_tally := b_tally b; b_archive := b_archive b |})
    as (b2 & Hb2 & Hle); [cbn; by rewrite lookup_insert_eq|].
  rewrite Hb2 in Hq2. cbn in Hq2.
  destruct (b_executed b2 || b_cancelled b2), (bool_decide (is_Some (b_archive b2))); try done.
  cbn in Hq2. rewrite (position_of_prefix (a_voters a) (a_voters a2) voter i) in Hq2;
    [|apply (ev_voters _ _ Hev)|rewrite <- (sim_voters _ _ Hs2); by apply sim_nodup in Hs2|done].
  cbn in Hq2. pose proof (bl_votes _ _ Hle) as Hsub. cbn in Hsub.
  rewrite bool_decide_true in Hq2; [done|].
  eexists. eapply lookup_weaken; [|exact Hsub]. by rewrite lookup_insert_eq.
Qed.

(** the outcome of an executed proposal is final: whatever calls follow, including
    compression, cancellation and changes of voters or weights, it stays executed
    with the same final tally, and [tally] keeps returning that number. *)
Theorem executed_tally_frozen (h h' : history) (pid : Z) (p : ProposalState) :
  get_proposal (replay empty_store h) pid = Some p -> executed p = true ->
  exists p', get_proposal (replay (replay empty_store h) h') pid = Some p' /\
    executed p' = true /\ final_tally p' = final_tally p /\
    tally (replay (replay empty_store h) h') pid = Ok (final_tally p).
Proof.
  intros Hp Hex. destruct (history_inv h) as [Hs Hi].
  pose proof (replay_simulates_from h' _ _ Hs) as Hs'.
  destruct (spec_replay_inv h' _ Hi) as [Hi' Hev].
  destruct (sim_lookup _ _ pid Hs) as [(E & _)|(b & E & Hb & _)];
    unfold get_proposal in *; rewrite E in Hp; [done|]. injection Hp as <-.
  destruct (ev_ballots _ _ Hev pid b Hb) as (b' & Hb' & Hle).
  destruct (bl_executed _ _ Hle Hex) as (Hex' & _ & Ht).
  destruct (sim_lookup _ _ pid Hs') as [(_ & E' & _)|(c & Ec & Hc & _)];
    [by rewrite Hb' in E'|]. rewrite Hb' in Hc. injection Hc as <-.
  exists (proposal_of b'). split_and!; [done..|].
  rewrite (tally_spec _ _ pid Hs'). unfold spec_tally. rewrite Hb'. cbn.
  destruct (ri_ballots _ Hi' _ _ Hb') as [_ T A].
  destruct (b_archive b') as [r|] eqn:Har.
  - destruct (A r eq_refl) as [_ ->]. cbn. by f_equal.
  - destruct (T Hex') as [<- _]. by f_equal.
Qed.

(** C40: a proof obtained while the register is detailed still verifies after it was
    compressed, and after any later history: for the participant with that voter
    index, at its rank in the canonical leaf order, with the recorded weight. *)
Theorem archived_votes_verify (h h' : history) (auth : Address -> bool) (caller : Address)
    (pid i : Z) (proof : list bytes) (r : reply) (s' : store) :
  merkle_proof_for_voter (replay empty_store h) pid i = Ok proof ->
  run auth (replay empty_store h) (CompressAfterExecution caller pid) = Ok (r, s') ->
  exists ps pos p,
    participants (replay empty_store h) pid = Ok ps /\ ps !! pos = Some p /\
    p_index p = i /\ vget (s_voters (replay empty_store h)) i = Some (p_voter p) /\
    verify_archived_vote (replay s' h') pid (Z.of_nat pos) i (p_voter p) true (p_weight p)
      proof = Ok true.
Proof.
  intros Hpf Hr. destruct (history_inv h) as [Hs Hi].
  pose proof (run_agrees auth _ _ (CompressAfterExecution caller pid) Hs) as Ha.
  rewrite Hr in Ha. set (s := replay empty_store h) in *.
  set (a := spec_replay empty_registry h) in *.
  destruct (spec_run auth a _) as [[q a']|e|] eqn:Hq; [|done..]. destruct Ha as [_ Hs'].
  destruct (spec_run_step _ _ _ _ _ Hi Hq) as [Hi' _].
  apply spec_admin_calls in Hq. unfold spec_compress in Hq.
  destruct (sim_lookup _ _ pid Hs) as [(_ & Hb & _)|(b & Hp & Hb & Hok)];
    rewrite Hb in Hq; [done|]. cbn in Hq.
  destruct (b_executed b); [|done]. cbn in Hq.
  destruct (b_archive b) as [rec|] eqn:Har; [done|]. cbn in Hq. injection Hq as _ <-.
  pose proof (ballot_participants s a pid _ b Hs Hok Har) as Hps.
  set (ps := recorded (s_voters s) (b_votes b)) in *.
  unfold merkle_proof_for_voter, load_proposal, get_proposal in Hpf.
  rewrite Hp, (bo_archive _ _ _ _ Hok), Har, Hps in Hpf. cbn in Hpf.
  destruct (foldl _ _ _) as [pos|] eqn:Epos in Hpf; [|done]. cbn in Hpf. injection Hpf as <-.
  apply last_position in Epos as (p & Hpos & Hpi).
  assert (p ∈ ps) as Hin by by eapply list_elem_of_lookup_2.
  apply recorded_elem in Hin as (_ & Hv & _). rewrite Hpi in Hv.
  exists ps, pos, p. split_and!; [done..|].
  pose proof (replay_simulates_from h' _ _ Hs') as Hs2.
  destruct (spec_replay_inv h' _ Hi') as [_ Hev].
  edestruct (ev_ballots _ _ Hev pid) as (b2 & Hb2 & Hle);
    [cbn; by rewrite lookup_insert_eq|].
  pose proof (bl_archive _ _ Hle _ eq_refl) as Har2.
  unfold verify_archived_vote, get_archive.
  destruct (sim_lookup _ _ pid Hs2) as [(_ & E & _)|(c & _ & Hc & Hokc)];
    [by rewrite Hb2 in E|]. rewrite Hb2 in Hc. injection Hc as <-.
  rewrite (bo_archive _ _ _ _ Hokc), Har2. cbn [ok_or mbind result_bind root leaf_count archive_record].
  rewrite <- (sim_voters _ _ Hs). fold ps. f_equal. rewrite Nat2Z.id.
  unfold len. rewrite Nat2Z.id, <- (length_fmap (participant_leaf pid) ps).
  apply verify_proof_complete. rewrite list_lookup_fmap, Hpos. cbn.
  unfold participant_leaf. by rewrite Hpi.
Qed.

(** C32: the verifier of archived votes is sound: if it accepts a vote against the stored
    root, at any position and with any proof of 32-byte hashes, then that very vote
    was recorded (this voter, at this index, with this weight), or the run exhibits
    a collision of the hash: two different preimages, one hashed by the verifier
    and one hashed by the archive, with the same hash. *)
Theorem archive_verification_sound (L : HostLaws H) (h : history) (pid pos i w : Z)
    (o : bool) (v : Address) (proof : list bytes) :
  0 <= pid <= imax U64 -> 0 <= i <= imax U32 -> 0 <= w <= imax U32 ->
  Forall hash_ok proof ->
  verify_archived_vote (replay empty_store h) pid pos i v o w proof = Ok true ->
  exists b, a_ballots (spec_replay empty_registry h) !! pid = Some b /\
    let ps := recorded (s_voters (replay empty_store h)) (b_votes b) in
    (o = true /\ b_votes b !! i = Some w /\
     vget (s_voters (replay empty_store h)) i = Some v) \/
    collide (verifier_preimages pid i v o w (Z.to_nat pos) (length ps) proof)
      (archive_preimages pid ps).
Proof.
  intros Hpid Hi Hw Hpf Hv. destruct (history_inv h) as [Hs Hinv].
  set (s := replay empty_store h) in *. set (a := spec_replay empty_registry h) in *.
  unfold verify_archived_vote, get_archive in Hv.
  destruct (sim_lookup _ _ pid Hs) as [(_ & _ & E & _)|(b & _ & Hb & Hok)];
    [by rewrite E in Hv|].
  rewrite (bo_archive _ _ _ _ Hok) in Hv. exists b. split; [done|]. intros ps.
  destruct (b_archive b) as [rec|] eqn:Har; [|done]. cbn in Hv. injection Hv as Hv.
  destruct (ri_ballots _ Hinv _ _ Hb) as [R T A].
  destruct (A rec Har) as [Hex ->]. destruct (T Hex) as [Ht H1].
  cbn [archive_record root leaf_count] in Hv.
  rewrite <- (sim_voters _ _ Hs) in *. fold ps in Hv.
  replace (Z.to_nat (len ps)) with (length ps) in Hv by (unfold len; by rewrite Nat2Z.id).
  assert (ps <> []) as Hps.
  { intros Hn. apply recorded_nil in Hn. lia. }
  destruct (decide (Z.to_nat pos < length ps)%nat) as [Hlt|Hge].
  2: { right. apply root_not_empty; [done| |unfold verifier_preimages; set_solver].
       unfold verify_proof in Hv. rewrite orb_comm, (proj2 (Nat.leb_le _ _)) in Hv by lia.
       by apply bool_decide_eq_true in Hv. }
  pose proof (verify_proof_sound (participant_leaf pid <$> ps) proof (Z.to_nat pos)
    (leaf_hash pid i o w v)) as Hsound. rewrite !length_fmap in Hsound.
  destruct Hsound as [Hl|Hc]; [done| |done|apply sha256_length|done| |].
  { apply Forall_fmap, Forall_forall. intros p _. apply sha256_length. }
  - rewrite list_lookup_fmap in Hl. apply fmap_Some in Hl as (p & Hp & Heq).
    assert (p ∈ ps) as Hin by by eapply list_elem_of_lookup_2.
    pose proof Hin as (Hpi & Hpv & Hpw)%recorded_elem.
    destruct (decide (leaf_preimage pid i o w v = participant_preimage pid p)) as [Hpre|Hpre].
    + left. pose proof (sim_len _ _ Hs). destruct (R _ _ Hpw) as [_ Hwok].
      unfold weight_ok in Hwok.
      apply leaf_preimage_inj in Hpre as (_ & -> & -> & -> & ->); [done|lia|lia|lia|ilia|lia|ilia].
    + right. exists (leaf_preimage pid i o w v), (participant_preimage pid p).
      split_and!; [unfold verifier_preimages; set_solver| |done|exact Heq].
      apply elem_of_app. left. by apply list_elem_of_fmap_2.
  - right. eapply collide_mono; [| |exact Hc];
      unfold verifier_preimages, archive_preimages; set_solver.
Qed.
End theorems.

(** ** Witnesses: two voters, a proposal both vote on *)
Section witnesses.
#[local] Existing Instance test_host.
Definition boss : @Address test_host := 1.
Definition ann : @Address test_host := 5.
Definition bob : @Address test_host := 6.
Definition everyone (a : @Address test_host) : bool := true.
Definition setup : @history test_host :=
  [(everyone, @Initialize test_host boss); (everyone, @AddVoter test_host boss ann);
   (everyone, @AddVoter test_host boss bob); (everyone, @SetAdminWeight test_host boss bob 40);
   (everyone, @ProposeAction test_host boss 7)].
Definition voted : @history test_host :=
  setup ++ [(everyone, @CastVote test_host bob 7); (everyone, @CastVote test_host ann 7);
            (everyone, @Finalize test_host boss 7)].
Definition archived : @history test_host :=
  voted ++ [(everyone, @CompressAfterExecution test_host boss 7)].

Lemma one_vote_per_voter_witness :
  exists r s', run everyone (replay empty_store setup) (CastVote ann 7) = Ok (r, s') /\
    forall x, run everyone (replay s' []) (CastVote ann 7) <> Ok x.
Proof.
  destruct (is_ok_Ok (run everyone (replay empty_store setup) (CastVote ann 7)))
    as [[r s'] E]; [vm_compute; reflexivity|].
  exists r, s'. split; [exact E|]. intros x.
  exact (one_vote_per_voter setup [] everyone everyone ann 7 r s' x E).
Defined.

Lemma executed_tally_frozen_witness :
  exists p, get_proposal (replay empty_store voted) 7 = Some p /\ executed p = true /\
    final_tally p = 41 /\
    tally (replay (replay empty_store voted) [(everyone, SetAdminWeight boss bob 3)]) 7
    = Ok 41.
Proof.
  assert (E : get_proposal (replay empty_store voted) 7
    = Some {| executed := true; cancelled := false; vote_count := 2; final_tally := 41 |})
    by (vm_compute; reflexivity).
  destruct (executed_tally_frozen voted [(everyone, SetAdminWeight boss bob 3)] 7 _ E eq_refl)
    as (p' & _ & _ & _ & Hfinal).
  eexists. split; [exact E|]. split; [reflexivity|]. split; [reflexivity|exact Hfinal].
Defined.

Lemma archived_votes_verify_witness :
  exists proof r s' ps pos p,
    merkle_proof_for_voter (replay empty_store voted) 7 1 = Ok proof /\
    run everyone (replay empty_store voted) (CompressAfterExecution boss 7) = Ok (r, s') /\
    participants (replay empty_store voted) 7 = Ok ps /\ ps !! pos = Some p /\
    verify_archived_vote (replay s' []) 7 (Z.of_nat pos) 1 (p_voter p) true (p_weight p) proof
    = Ok true.
Proof.
  destruct (is_ok_Ok (merkle_proof_for_voter (replay empty_store voted) 7 1)) as [proof E1];
    [vm_compute; reflexivity|].
  destruct (is_ok_Ok (run everyone (replay empty_store voted) (CompressAfterExecution boss 7)))
    as [[r s'] E2]; [vm_compute; reflexivity|].
  destruct (archived_votes_verify voted [] everyone boss 7 1 proof r s' E1 E2)
    as (ps & pos & p & H1 & H2 & _ & _ & H5).
  exists proof, r, s', ps, pos, p. auto.
Defined.

(** The proof of Bob's vote: Ann's leaf. *)
Definition bob_proof : list bytes := [leaf_hash 7 0 true 1 ann].

Lemma archive_verification_sound_witness :
  exists b,
    verify_archived_vote (replay empty_store archived) 7 1 1 bob true 40 bob_proof = Ok true /\
    a_ballots (spec_replay empty_registry archived) !! 7 = Some b.
Proof.
  assert (Hv : verify_archived_vote (replay empty_store archived) 7 1 1 bob true 40 bob_proof
               = Ok true) by (vm_compute; reflexivity).
  assert (Hok : Forall hash_ok bob_proof).
  { constructor; [apply to_be_bytes_length|constructor]. }
  destruct (archive_verification_sound test_host_laws archived 7 1 1 40 true bob bob_proof)
    as (b & Hb & _); [vm_compute; split; discriminate..|exact Hok|exact Hv|].
  exists b. split; [exact Hv|exact Hb].
Defined.
End witnesses.
