(* ===== verification/Words.v ===== *)
(** * 128-bit words: masks, leading and trailing zeros, double-width products

    Bit-level facts shared by the AMM's tick bitmap and its wide arithmetic.
    A word is an integer in [0 .. 2^128 - 1]; [leading_zeros] and
    [trailing_zeros] are the methods of Rust's [u128]. *)

From stdpp Require Import base numbers list.
From Stdlib Require Import ZArith Lia.
From S2P Require Import Prelude.

Open Scope Z_scope.

(** ** [leading_zeros] and [trailing_zeros] *)
Definition leading_zeros (w : Z) : Z := if w =? 0 then 128 else 127 - Z.log2 w.

Fixpoint ctz_pos (p : positive) : Z :=
  match p with
  | xO q => 1 + ctz_pos q
  | _ => 0
  end.

Definition trailing_zeros (w : Z) : Z :=
  match w with
  | Zpos p => ctz_pos p
  | _ => 128
  end.

Lemma ctz_pos_nonneg (p : positive) : 0 <= ctz_pos p.
Proof. induction p; cbn [ctz_pos]; lia. Qed.

Lemma ctz_pos_spec (p : positive) :
  Z.testbit (Zpos p) (ctz_pos p) = true /\
  forall i, 0 <= i < ctz_pos p -> Z.testbit (Zpos p) i = false.
Proof.
  induction p as [p IH|p IH|]; cbn [ctz_pos]; [split; [done|lia]| |split; [done|lia]].
  pose proof (ctz_pos_nonneg p) as Hn. destruct IH as [IH1 IH2].
  change (Zpos (xO p)) with (2 * Zpos p). split.
  - replace (1 + ctz_pos p) with (Z.succ (ctz_pos p)) by lia. by rewrite Z.double_bits_succ.
  - intros i Hi. destruct (decide (i = 0)) as [->|]; [by rewrite Z.testbit_even_0|].
    replace i with (Z.succ (i - 1)) by lia. rewrite Z.double_bits_succ. apply IH2. lia.
Qed.

Lemma trailing_zeros_spec (w : Z) :
  0 < w ->
  0 <= trailing_zeros w /\ Z.testbit w (trailing_zeros w) = true /\
  forall i, 0 <= i < trailing_zeros w -> Z.testbit w i = false.
Proof.
  destruct w as [|p|p]; [lia| |lia]. intros _. split; [apply ctz_pos_nonneg|].
  apply ctz_pos_spec.
Qed.

(** [127 - leading_zeros] is the highest set bit. *)
Lemma leading_zeros_spec (w : Z) :
  0 < w -> 127 - leading_zeros w = Z.log2 w.
Proof. intros. unfold leading_zeros. destruct (Z.eqb_spec w 0); lia. Qed.

Lemma log2_top (w : Z) :
  0 < w ->
  Z.testbit w (Z.log2 w) = true /\ forall i, Z.log2 w < i -> Z.testbit w i = false.
Proof. intros Hw. split; [by apply Z.bit_log2|]. intros i Hi. apply Z.bits_above_log2; lia. Qed.

Lemma bit_lt_width (w n i : Z) :
  0 <= w < 2 ^ n -> Z.testbit w i = true -> i < n.
Proof.
  intros Hw Hi. destruct (Z.lt_ge_cases i n); [done|].
  destruct (decide (w = 0)) as [->|]; [by rewrite Z.testbit_0_l in Hi|].
  rewrite Z.bits_above_log2 in Hi; [done|lia|].
  assert (Z.log2 w < n); [|lia].
  apply Z.log2_lt_pow2; lia.
Qed.

Lemma log2_lt_width (w n : Z) : 0 < w < 2 ^ n -> 0 <= Z.log2 w < n.
Proof. intros. split; [apply Z.log2_nonneg|]. apply Z.log2_lt_pow2; lia. Qed.

Lemma zero_no_bits (w : Z) : (forall i, 0 <= i -> Z.testbit w i = false) -> w = 0.
Proof.
  intros H. apply Z.bits_inj'. intros i Hi. rewrite H by done. by rewrite Z.testbit_0_l.
Qed.

(** ** The low mask [u128::MAX >> (127 - b)] and the high mask [u128::MAX << b] *)
Lemma low_mask_bit (b i : Z) :
  0 <= b <= 127 -> 0 <= i ->
  Z.testbit (Z.shiftr (imax U128) (127 - b)) i = (i <=? b).
Proof.
  intros Hb Hi. rewrite Z.shiftr_spec by lia.
  change (imax U128) with (Z.ones 128). destruct (Z.leb_spec i b).
  - apply Z.ones_spec_low. lia.
  - apply Z.ones_spec_high. lia.
Qed.

Lemma shl_u128_bit (w b i : Z) :
  0 <= i < 128 -> 0 <= b -> Z.testbit (shl U128 w b) i = Z.testbit (Z.shiftl w b) i.
Proof.
  intros Hi Hb. unfold shl, cast. cbn [imin bits_of].
  rewrite Z.sub_0_r, Z.add_0_r, Z.mod_pow2_bits_low by lia. done.
Qed.

Lemma high_mask_bit (b i : Z) :
  0 <= b -> 0 <= i < 128 ->
  Z.testbit (shl U128 (imax U128) b) i = (b <=? i).
Proof.
  intros Hb Hi. rewrite shl_u128_bit by done. rewrite Z.shiftl_spec by lia.
  change (imax U128) with (Z.ones 128). destruct (Z.leb_spec b i).
  - apply Z.ones_spec_low. lia.
  - apply Z.testbit_neg_r. lia.
Qed.

Lemma one_bit (b i : Z) :
  0 <= b < 128 -> 0 <= i < 128 -> Z.testbit (shl U128 1 b) i = (i =? b).
Proof.
  intros Hb Hi. rewrite shl_u128_bit by lia. rewrite Z.shiftl_1_l.
  rewrite Z.pow2_bits_eqb by lia. apply Z.eqb_sym.
Qed.

Lemma shl_one (b : Z) : 0 <= b < 128 -> shl U128 1 b = 2 ^ b.
Proof.
  intros Hb. unfold shl. rewrite Z.shiftl_1_l. apply cast_in.
  cbn [imin imax]. split; [lia|]. pose proof (Z.pow_lt_mono_r 2 b 128). lia.
Qed.

Lemma lxor_lt (n a b : Z) : 0 <= n -> 0 <= a < 2 ^ n -> 0 <= b < 2 ^ n -> 0 <= Z.lxor a b < 2 ^ n.
Proof.
  intros Hn Ha Hb.
  assert (0 <= Z.lxor a b) by (apply Z.lxor_nonneg; lia). split; [done|].
  destruct (decide (Z.lxor a b = 0)) as [->|]; [lia|].
  apply Z.log2_lt_pow2; [lia|].
  pose proof (Z.log2_lxor a b ltac:(lia) ltac:(lia)).
  assert (forall x, 0 <= x < 2 ^ n -> x <> 0 -> Z.log2 x < n) as Hl.
  { intros x Hx Hne. apply Z.log2_lt_pow2; lia. }
  destruct (decide (a = 0)) as [->|Ha0], (decide (b = 0)) as [->|Hb0].
  - by rewrite Z.lxor_0_l in *.
  - rewrite Z.lxor_0_l in *. by apply Hl.
  - rewrite Z.lxor_0_r in *. by apply Hl.
  - pose proof (Hl a Ha Ha0). pose proof (Hl b Hb Hb0). lia.
Qed.

Lemma land_pow2_eqb (m k : Z) :
  0 <= k -> (Z.land m (2 ^ k) =? 0) = negb (Z.testbit m k).
Proof.
  intros Hk. destruct (Z.testbit m k) eqn:Hb; cbn [negb].
  - apply Z.eqb_neq. intros H0. pose proof (Z.land_spec m (2 ^ k) k) as Hl.
    rewrite H0, Hb, Z.pow2_bits_true, Z.testbit_0_l in Hl by done. done.
  - apply Z.eqb_eq, zero_no_bits. intros i Hi. rewrite Z.land_spec.
    destruct (decide (i = k)) as [->|]; [by rewrite Hb|].
    rewrite Z.pow2_bits_false by lia. apply andb_false_r.
Qed.

Lemma mod_pow2_succ (m k : Z) :
  0 <= k -> m mod 2 ^ (k + 1) = m mod 2 ^ k + 2 ^ k * Z.b2z (Z.testbit m k).
Proof.
  intros Hk. rewrite Z.pow_add_r, Z.pow_1_r by lia.
  rewrite Z.rem_mul_r by lia. f_equal. f_equal.
  rewrite <- Z.bit0_mod. by rewrite Z.div_pow2_bits, Z.add_0_l by lia.
Qed.

Lemma lor_pow2 (q b : Z) : 0 <= b -> Z.testbit q b = false -> Z.lor q (2 ^ b) = q + 2 ^ b.
Proof.
  intros Hb Hq. symmetry. apply Z.add_nocarry_lor. apply Z.eqb_eq.
  by rewrite land_pow2_eqb, Hq.
Qed.

Lemma testbit_multiple (q b : Z) : 0 <= b -> q mod 2 ^ (b + 1) = 0 -> Z.testbit q b = false.
Proof.
  intros Hb Hq. rewrite <- (Z.mod_pow2_bits_low q (b + 1)) by lia.
  by rewrite Hq, Z.testbit_0_l.
Qed.

(** ** Splitting a 128-bit product into 64-bit limbs *)
Definition MASK64 : Z := imax U64.

Lemma land_mask64 (a : Z) : 0 <= a -> Z.land a MASK64 = a mod 2 ^ 64.
Proof. intros. change MASK64 with (Z.ones 64). apply Z.land_ones. lia. Qed.

Lemma shiftr_64 (a : Z) : Z.shiftr a 64 = a / 2 ^ 64.
Proof. apply Z.shiftr_div_pow2. lia. Qed.

Section limbs.
Let B : Z := 2 ^ 64.

Lemma limb_product (x y : Z) : 0 <= x < B -> 0 <= y < B -> 0 <= x * y <= (B - 1) * (B - 1).
Proof. nia. Qed.

Lemma limb_mul {E : Type} (x y : Z) :
  0 <= x < B -> 0 <= y < B -> @imul E U128 x y = Ok (x * y).
Proof.
  intros Hx Hy. pose proof (limb_product x y Hx Hy) as Hp.
  apply iop_in. cbn [imin imax]. unfold B in *. lia.
Qed.

Context (a b : Z) (Ha : 0 <= a < 2 ^ 128) (Hb : 0 <= b < 2 ^ 128).
Let al := a mod B.
Let ah := a / B.
Let bl := b mod B.
Let bh := b / B.

Lemma limb_ranges :
  (0 <= al < B /\ 0 <= ah < B) /\ (0 <= bl < B /\ 0 <= bh < B).
Proof.
  unfold al, ah, bl, bh. change (2 ^ 128) with (B * B) in *.
  assert (0 < B) by done.
  repeat split; try apply Z.mod_pos_bound; try apply Z.div_pos;
    try apply Z.div_lt_upper_bound; lia.
Qed.

(** The cross product with its carry, the carry out of the low word, and the two
    words of the product. *)
Let cross := al * bh + ah * bl.
Let mid := cast U128 cross.
Let carry := Z.b2z (negb (fits U128 cross)).

Lemma cross_split : cross = carry * 2 ^ 128 + mid /\ 0 <= mid < 2 ^ 128 /\ 0 <= carry <= 1.
Proof.
  destruct limb_ranges as [[Hal Hah] [Hbl Hbh]].
  pose proof (limb_product al bh Hal Hbh) as H1. pose proof (limb_product ah bl Hah Hbl) as H2.
  unfold carry, mid, cast, fits. cbn [imin imax bits_of].
  rewrite Z.sub_0_r, Z.add_0_r.
  assert (0 <= cross < 2 * 2 ^ 128) as Hc by (unfold cross, B in *; lia).
  pose proof (Z.mod_pos_bound cross (2 ^ 128) ltac:(done)).
  destruct (Z.leb_spec 0 cross), (Z.leb_spec cross (2 ^ 128 - 1)); cbn [andb negb Z.b2z]; try lia.
  - rewrite Z.mod_small in * by lia. lia.
  - split; [|lia].
    pose proof (Z.div_mod cross (2 ^ 128) ltac:(done)).
    assert (1 = cross / 2 ^ 128) by (apply (Z.div_unique _ _ _ (cross - 2 ^ 128)); lia). lia.
Qed.

(** The limb base as a literal, so that products of limbs are the only
    non-linear atoms. *)
Ltac limb_lia :=
  unfold B in *; change (2 ^ 64) with 18446744073709551616 in *;
  change (2 ^ 128) with (18446744073709551616 * 18446744073709551616) in *; lia.

Lemma product_split :
  let sum := al * bl / B + mid mod B in
  a * b = (ah * bh + mid / B + carry * B + sum / B) * 2 ^ 128
          + (sum mod B * B + (al * bl) mod B) /\
  0 <= sum < 2 ^ 128 /\ 0 <= sum mod B * B + (al * bl) mod B < 2 ^ 128 /\
  0 <= ah * bh + mid / B + carry * B + sum / B < 2 ^ 128.
Proof.
  intros sum.
  destruct cross_split as (Hc & Hm & Hcar). destruct limb_ranges as [[Hal Hah] [Hbl Hbh]].
  assert (0 < B) as HB by done.
  pose proof (Z.div_mod a B ltac:(lia)) as Ea. pose proof (Z.div_mod b B ltac:(lia)) as Eb.
  fold al ah bl bh in Ea, Eb.
  pose proof (Z.div_mod mid B ltac:(lia)) as Em.
  pose proof (Z.div_mod (al * bl) B ltac:(lia)) as El.
  pose proof (Z.div_mod sum B ltac:(lia)) as Es.
  pose proof (Z.mod_pos_bound mid B HB). pose proof (Z.mod_pos_bound (al * bl) B HB).
  pose proof (Z.mod_pos_bound sum B HB).
  pose proof (limb_product al bl Hal Hbl) as Hll. pose proof (limb_product ah bh Hah Hbh) as Hhh.
  assert (0 <= al * bl / B < B) by (split; [apply Z.div_pos|apply Z.div_lt_upper_bound]; lia).
  assert (0 <= mid / B < B).
  { split; [apply Z.div_pos|apply Z.div_lt_upper_bound]; try lia. }
  assert (0 <= sum / B <= 1) as Hs1.
  { split; [apply Z.div_pos; unfold sum; lia|]. apply Z.lt_succ_r.
    apply Z.div_lt_upper_bound; unfold sum; lia. }
  assert (a * b = ah * bh * (B * B) + cross * B + al * bl) as Hab.
  { rewrite Ea, Eb. unfold cross. ring. }
  assert (a * b = (ah * bh + mid / B + carry * B + sum / B) * 2 ^ 128
          + (sum mod B * B + (al * bl) mod B)) as Hfin.
  { fold sum in Es. assert (al * bl / B = sum - mid mod B) by (unfold sum; lia). limb_lia. }
  split; [exact Hfin|].
  assert (a * b <= (2 ^ 128 - 1) * (2 ^ 128 - 1)) by (apply Z.mul_le_mono_nonneg; lia).
  assert (0 <= sum) by (unfold sum; lia).
  assert (sum < 2 ^ 128) by (unfold sum; limb_lia).
  repeat split; limb_lia.
Qed.
(** The words as the code computes them, with wrapping additions. *)
Lemma wide_words :
  let sum := al * bl / B + mid mod B in
  wrapping_add U128
    (wrapping_add U128 (wrapping_add U128 (ah * bh) (mid / B)) (shl U128 carry 64)) (sum / B)
    = ah * bh + mid / B + carry * B + sum / B /\
  wrapping_add U128 (al * bl) (shl U128 mid 64) = sum mod B * B + (al * bl) mod B.
Proof.
  intros sum. destruct limb_ranges as [[Hal Hah] [Hbl Hbh]].
  destruct cross_split as (_ & Hm & Hc).
  destruct product_split as (_ & Hs & Hlo & Hhi). fold sum in Hs, Hlo, Hhi.
  pose proof (limb_product ah bh Hah Hbh) as Hhh.
  assert (0 < B) as HB by done.
  assert (0 <= mid / B) by (apply Z.div_pos; lia).
  assert (0 <= sum / B) by (apply Z.div_pos; lia).
  split.
  - assert (shl U128 carry 64 = carry * B) as ->.
    { unfold shl. rewrite Z.shiftl_mul_pow2 by lia. apply cast_in. cbn [imin imax]. fold B. limb_lia. }
    unfold wrapping_add. rewrite (cast_in U128 (ah * bh + mid / B)) by (cbn [imin imax]; limb_lia).
    rewrite (cast_in U128 (_ + carry * B)) by (cbn [imin imax]; limb_lia).
    rewrite cast_in by (cbn [imin imax]; limb_lia). done.
  - unfold wrapping_add, shl, cast. cbn [imin bits_of]. rewrite !Z.sub_0_r, !Z.add_0_r.
    rewrite Z.add_mod_idemp_r by done. rewrite Z.shiftl_mul_pow2 by lia. fold B.
    pose proof (Z.div_mod mid B ltac:(lia)) as Em.
    pose proof (Z.div_mod (al * bl) B ltac:(lia)) as El.
    pose proof (Z.div_mod sum B ltac:(lia)) as Es.
    symmetry. apply (Z.mod_unique_pos _ _ (mid / B + sum / B)); [lia|].
    assert (al * bl / B = sum - mid mod B) by (unfold sum; lia). limb_lia.
Qed.
End limbs.

(** ** Long division of a 256-bit value by a 128-bit divisor

    [for bit in (0..128).rev()]: [bits] rounds remain, the current bit is [bits - 1].
    The shift drops the top bit of the remainder, so the divisor must not exceed
    [2^127] for the result to be right. *)
Fixpoint long_div {E : Type} (bits : nat) (lo divisor remainder quotient : Z) : result E (Z * Z) :=
  match bits with
  | O => mret (quotient, remainder)
  | S bit =>
      let remainder := Z.lor (shl U128 remainder 1) (Z.land (Z.shiftr lo (Z.of_nat bit)) 1) in
      if divisor <=? remainder then
        remainder' ← isub U128 remainder divisor;
        long_div bit lo divisor remainder' (Z.lor quotient (shl U128 1 (Z.of_nat bit)))
      else long_div bit lo divisor remainder quotient
  end.

Lemma next_remainder (lo d r n : Z) :
  0 < d <= 2 ^ 127 -> 0 <= r < d -> 0 <= n ->
  Z.lor (shl U128 r 1) (Z.land (Z.shiftr lo n) 1) = 2 * r + Z.b2z (Z.testbit lo n).
Proof.
  intros Hd Hr Hn.
  assert (Z.land (Z.shiftr lo n) 1 = Z.b2z (Z.testbit lo n)) as ->.
  { change 1 with (Z.ones 1). rewrite Z.land_ones by lia.
    change (2 ^ 1) with 2. rewrite <- Z.bit0_mod, Z.shiftr_spec by lia. done. }
  unfold shl. rewrite Z.shiftl_mul_pow2 by lia. change (2 ^ 1) with 2.
  rewrite cast_in by (cbn [imin imax]; lia). rewrite (Z.mul_comm r).
  destruct (Z.testbit lo n); cbn [Z.b2z]; [|by rewrite Z.lor_0_r, Z.add_0_r].
  apply (lor_pow2 (2 * r) 0); [done|apply Z.testbit_even_0].
Qed.

Lemma long_div_correct {E : Type} (bits : nat) (lo d r q : Z) :
  0 < d <= 2 ^ 127 -> 0 <= r < d -> 0 <= lo -> (bits <= 128)%nat ->
  q mod 2 ^ Z.of_nat bits = 0 ->
  let n := r * 2 ^ Z.of_nat bits + lo mod 2 ^ Z.of_nat bits in
  @long_div E bits lo d r q = Ok (q + n / d, n mod d).
Proof.
  intros Hd. revert r q. induction bits as [|b IH]; intros r q Hr Hlo Hb Hq.
  - cbn [long_div Z.of_nat]. rewrite Z.pow_0_r, Z.mul_1_r, Z.mod_1_r, Z.add_0_r.
    rewrite Z.div_small, Z.mod_small, Z.add_0_r by done. done.
  - cbn [long_div]. rewrite Nat2Z.inj_succ, <- Z.add_1_r in *.
    set (n := Z.of_nat b) in *. assert (0 <= n < 128) as Hn by lia.
    rewrite (next_remainder lo d) by lia. rewrite mod_pow2_succ by lia.
    set (bit := Z.b2z (Z.testbit lo n)).
    assert (0 <= bit <= 1) as Hbit by (unfold bit; destruct Z.testbit; cbn; lia).
    assert (0 < 2 ^ n) as Hpow by (apply Z.pow_pos_nonneg; lia).
    assert (2 ^ (n + 1) = 2 * 2 ^ n) as Hsucc by (rewrite Z.pow_add_r by lia; lia).
    assert (q mod 2 ^ n = 0 /\ Z.testbit q n = false) as [Hqn Hqb].
    { pose proof (mod_pow2_succ q n ltac:(lia)) as Hm. rewrite Hq in Hm.
      pose proof (testbit_multiple q n ltac:(lia) Hq) as Ht. rewrite Ht in Hm. cbn [Z.b2z] in Hm.
      split; [lia|done]. }
    destruct (Z.leb_spec d (2 * r + bit)) as [Hge|Hlt].
    + unfold isub. rewrite iop_in by (cbn [imin imax]; lia). cbn [mbind result_bind].
      rewrite shl_one, lor_pow2 by (done || lia).
      rewrite IH; [|lia|done|lia|].
      2: { fold n. rewrite <- Hqn. rewrite <- (Z.mul_1_l (2 ^ n)) at 1. apply Z.mod_add. lia. }
      fold n.
      replace (r * 2 ^ (n + 1) + (lo mod 2 ^ n + 2 ^ n * bit))
        with ((2 * r + bit - d) * 2 ^ n + lo mod 2 ^ n + 2 ^ n * d) by (rewrite Hsucc; ring).
      rewrite Z.div_add, Z.mod_add by lia. f_equal. f_equal. lia.
    + rewrite IH by (done || lia). fold n.
      replace (r * 2 ^ (n + 1) + (lo mod 2 ^ n + 2 ^ n * bit))
        with ((2 * r + bit) * 2 ^ n + lo mod 2 ^ n) by (rewrite Hsucc; ring). done.
Qed.
