(* ===== verification/AmmPrice.v ===== *)
(** * AMM: the tick price model

    [contracts/amm/src/tick_bitmap.rs], from "Tick <-> price" on: the Q64.64
    price of a tick by binary exponentiation over [POW_Q64], the inverse binary
    search, and the band check; with the error enumeration of the contract
    ([contracts/amm/src/lib.rs], where it is called [ContractError] and used
    under the name [AmmError]).

    The results: every tick of the range has a price ([price_total]), prices
    increase strictly over the whole range ([price_strict]), and the search
    returns the one tick whose band holds the price. *)

From stdpp Require Import base numbers list.
From Stdlib Require Import ZArith Lia.
From S2P Require Import Prelude Words.

Open Scope Z_scope.

Inductive ContractError :=
| AlreadyInitialized | NotInitialized | InvalidDepositRatio | SlippageExceeded
| ZeroDeposit | PoolEmpty | InvariantViolation | VirtualFloorBreached
| NonPositiveAmount | ArithmeticOverflow | InvalidTickSpacing | TickOutOfBounds
| TickNotAligned | PriceOutOfBounds | TickPriceMismatch.

#[export] Instance ContractError_eq_dec : EqDecision ContractError.
Proof. solve_decision. Defined.

Abbreviation AmmError := ContractError.
Abbreviation M := (result AmmError).

Definition MIN_TICK : Z := -300000.
Definition MAX_TICK : Z := 300000.
Definition Q64 : Z := 2 ^ 64.

Definition POW_Q64 : list Z := [
  0x100068db8bac710cb;
  0x1000d1b9c68abe5f7;
  0x1001a37e4a234cb08;
  0x100347278ab0e92ad;
  0x10068efb00a525480;
  0x100d20a63b4173839;
  0x101a4c11c742dd772;
  0x1034c35c31f64cfa6;
  0x106a34b78c8aaffbf;
  0x10d72a6a46ccd8bce;
  0x11b9a258e63928596;
  0x13a2e2bda04f8379f;
  0x181954be69e0da8fe;
  0x244c2655d185a0290;
  0x525816eeb9f935b1c;
  0x1a7c8d00b551684ff4;
  0x2bd893d0b2df7c97884;
  0x78278e1e19e448cf8b95d;
  0x38651b58d457501416feade319 ].

Definition check_tick (tick : Z) : M unit :=
  fail_if (negb ((MIN_TICK <=? tick) && (tick <=? MAX_TICK))) TickOutOfBounds.

(** High 128 bits of [a * b]. *)
Definition mul_high (a b : Z) : M Z :=
  let a_lo := Z.land a MASK64 in
  let a_hi := Z.shiftr a 64 in
  let b_lo := Z.land b MASK64 in
  let b_hi := Z.shiftr b 64 in
  p_ll ← imul U128 a_lo b_lo;
  p_lh ← imul U128 a_lo b_hi;
  p_hl ← imul U128 a_hi b_lo;
  p_hh ← imul U128 a_hi b_hi;
  let '(mid, carry_mid) := overflowing_add U128 p_lh p_hl in
  low ← iadd U128 (Z.shiftr p_ll 64) (Z.land mid MASK64);
  let low_carry := Z.shiftr low 64 in
  mret (wrapping_add U128
          (wrapping_add U128 (wrapping_add U128 p_hh (Z.shiftr mid 64))
             (shl U128 (Z.b2z carry_mid) 64))
          low_carry).

(** [floor(a * b / 2^64)] *)
Definition mul_q64 (a b : Z) : M Z :=
  hi ← mul_high a b;
  _ ← fail_if (negb (Z.shiftr hi 64 =? 0)) PriceOutOfBounds;
  let lo := wrapping_mul U128 a b in
  mret (Z.lor (shl U128 hi 64) (Z.shiftr lo 64)).

(** [for (k, factor) in POW_Q64.iter().enumerate()]; [1 << k] is a [u32]. *)
Fixpoint price_loop (magnitude k : Z) (factors : list Z) (price : Z) : M Z :=
  match factors with
  | [] => mret price
  | factor :: rest =>
      price' ← (if Z.land magnitude (shl U32 1 k) =? 0 then mret price
                else mul_q64 price factor);
      price_loop magnitude (k + 1) rest price'
  end.

Definition tick_to_price_q64 (tick : Z) : M Z :=
  _ ← check_tick tick;
  let magnitude := Z.abs tick in
  price ← price_loop magnitude 0 POW_Q64 Q64;
  if tick <? 0 then idiv U128 (imax U128) price else mret price.

(** [while lo < hi]: the interval holds at most 600001 ticks and halves each
    round, so after 20 rounds and a last test it is a single tick ([tick_search_ok]). *)
Fixpoint tick_search (fuel : nat) (lo hi price : Z) : M Z :=
  match fuel with
  | O => Panic
  | S fuel =>
      if lo <? hi then
        d ← isub I32 hi lo;
        d1 ← iadd I32 d 1;
        h ← idiv I32 d1 2;
        mid ← iadd I32 lo h;
        p ← tick_to_price_q64 mid;
        if p <=? price then tick_search fuel mid hi price
        else hi' ← isub I32 mid 1; tick_search fuel lo hi' price
      else mret lo
  end.

Definition price_q64_to_tick (price : Z) : M Z :=
  lower ← tick_to_price_q64 MIN_TICK;
  _ ← fail_if (price <? lower) PriceOutOfBounds;
  upper ← tick_to_price_q64 MAX_TICK;
  _ ← fail_if (upper <? price) PriceOutOfBounds;
  tick_search 21 MIN_TICK MAX_TICK price.

Definition assert_tick_price_bounds (tick price : Z) : M unit :=
  lower ← tick_to_price_q64 tick;
  let within : M bool :=
    if tick =? MAX_TICK then mret (price =? lower)
    else if lower <=? price then
      next ← iadd I32 tick 1;
      upper ← tick_to_price_q64 next;
      mret (price <? upper)
    else mret false in
  within ≫= fun b : bool => if b then mret tt else Err TickPriceMismatch.

(** ** The wide product *)
Lemma mul_high_correct (a b : Z) :
  0 <= a < 2 ^ 128 -> 0 <= b < 2 ^ 128 -> mul_high a b = Ok (a * b / 2 ^ 128).
Proof.
  intros Ha Hb. destruct (limb_ranges a b Ha Hb) as [[Hal Hah] [Hbl Hbh]].
  unfold mul_high. rewrite !land_mask64, !shiftr_64 by lia.
  rewrite (limb_mul (a mod 2 ^ 64) (b mod 2 ^ 64)), (limb_mul (a mod 2 ^ 64) (b / 2 ^ 64)),
    (limb_mul (a / 2 ^ 64) (b mod 2 ^ 64)), (limb_mul (a / 2 ^ 64) (b / 2 ^ 64)) by done.
  cbn [mbind result_bind overflowing_add].
  set (cross := a mod 2 ^ 64 * (b / 2 ^ 64) + a / 2 ^ 64 * (b mod 2 ^ 64)).
  pose proof (cross_split a b Ha Hb) as (_ & Hm & Hc). fold cross in Hm, Hc.
  pose proof (product_split a b Ha Hb) as (Hp & Hs & Hlo & Hhi). fold cross in Hp, Hs, Hlo, Hhi.
  pose proof (wide_words a b Ha Hb) as [Ehi _]. fold cross in Ehi.
  rewrite land_mask64, !shiftr_64 by lia.
  unfold iadd. rewrite iop_in by (cbn [imin imax]; lia). cbn [mbind result_bind].
  rewrite shiftr_64, Ehi. unfold mret, result_ret. f_equal.
  symmetry. rewrite Hp, Z.add_comm, Z.div_add, Z.div_small by lia. lia.
Qed.

Lemma mul_q64_correct (a b : Z) :
  0 <= a < 2 ^ 128 -> 0 <= b < 2 ^ 128 -> a * b < 2 ^ 192 -> mul_q64 a b = Ok (a * b / 2 ^ 64).
Proof.
  intros Ha Hb Hab. unfold mul_q64. rewrite mul_high_correct by done.
  cbn [mbind result_bind]. rewrite !shiftr_64.
  assert (0 <= a * b) by nia.
  set (hi := a * b / 2 ^ 128).
  assert (0 <= hi < 2 ^ 64) as Hhi.
  { unfold hi. split; [apply Z.div_pos; lia|apply Z.div_lt_upper_bound; lia]. }
  rewrite (Z.div_small hi) by done. cbn [Z.eqb negb fail_if mbind result_bind].
  unfold mret, result_ret. f_equal. unfold shl, wrapping_mul.
  rewrite Z.shiftl_mul_pow2 by lia. rewrite cast_in by (cbn [imin imax]; lia).
  unfold cast. cbn [imin bits_of]. rewrite Z.sub_0_r, Z.add_0_r.
  pose proof (Z.div_mod (a * b) (2 ^ 128) ltac:(lia)) as Hd. fold hi in Hd.
  set (lo := (a * b) mod 2 ^ 128) in *.
  assert (0 <= lo < 2 ^ 128) as Hlo by (apply Z.mod_pos_bound; lia).
  assert (0 <= lo / 2 ^ 64 < 2 ^ 64).
  { split; [apply Z.div_pos; lia|apply Z.div_lt_upper_bound; lia]. }
  assert (a * b / 2 ^ 64 = hi * 2 ^ 64 + lo / 2 ^ 64) as ->.
  { rewrite Hd. replace (2 ^ 128 * hi + lo) with (hi * 2 ^ 64 * 2 ^ 64 + lo) by lia.
    by rewrite Z.div_add_l by lia. }
  rewrite <- (Z.shiftl_mul_pow2 hi) by lia. symmetry. apply Z.add_nocarry_lor.
  apply Z.bits_inj'. intros i Hi. rewrite Z.land_spec, Z.testbit_0_l.
  destruct (Z.lt_ge_cases i 64).
  - rewrite Z.shiftl_spec_low by lia. done.
  - assert (Z.testbit (lo / 2 ^ 64) i = false) as ->; [|by rewrite andb_false_r].
    apply Z.testbit_false; [lia|]. rewrite (Z.div_small (lo / 2 ^ 64)); [done|].
    pose proof (Z.pow_le_mono_r 2 64 i). lia.
Qed.

(** ** The pure loop *)
Fixpoint pure_loop (magnitude k : Z) (factors : list Z) (price : Z) : Z :=
  match factors with
  | [] => price
  | factor :: rest =>
      pure_loop magnitude (k + 1) rest
        (if Z.testbit magnitude k then price * factor / 2 ^ 64 else price)
  end.

Lemma shl_one_u32 (k : Z) : 0 <= k < 32 -> shl U32 1 k = 2 ^ k.
Proof.
  intros Hk. unfold shl. rewrite Z.shiftl_1_l. apply cast_in. cbn [imin imax].
  pose proof (Z.pow_lt_mono_r 2 k 32). lia.
Qed.

Lemma pow64_le (x n : Z) : 0 <= n -> x ^ 64 <= 2 ^ (64 * n) -> x <= 2 ^ n.
Proof.
  intros Hn H. destruct (Z.le_gt_cases x (2 ^ n)) as [|Hlt]; [done|exfalso].
  assert ((2 ^ n) ^ 64 < x ^ 64) by (apply Z.pow_lt_mono_l; lia).
  rewrite <- Z.pow_mul_r in * by lia. rewrite Z.mul_comm in H. lia.
Qed.

(** A factor weighs [weight k] 64ths of a bit, so that the price of a magnitude up
    to 300000 stays below 2^109. *)
Definition weight (k : Z) : Z := 19 * 2 ^ k / 2000 + 1.

Lemma weight_bound (k : Z) : 0 <= k -> 0 <= weight k /\ 2000 * weight k <= 19 * 2 ^ k + 2000.
Proof.
  intros Hk. unfold weight. pose proof (Z.pow_pos_nonneg 2 k ltac:(lia) Hk).
  pose proof (Z.mul_div_le (19 * 2 ^ k) 2000 ltac:(lia)).
  assert (0 <= 19 * 2 ^ k / 2000) by (apply Z.div_pos; lia). lia.
Qed.

Definition factor_ok (k f : Z) : bool :=
  (2 ^ 64 <=? f) && (f <? 2 ^ 110) && (f ^ 64 <=? 2 ^ (4096 + weight k)).

Lemma factors_ok (i : nat) (f : Z) : POW_Q64 !! i = Some f -> factor_ok (Z.of_nat i) f = true.
Proof.
  intros H.
  assert (forallb (fun kf => factor_ok (Z.of_nat kf.1) kf.2) (imap pair POW_Q64) = true) as Ha
    by (vm_compute; reflexivity).
  rewrite forallb_forall in Ha. apply (Ha (i, f)). apply list_elem_of_In.
  apply list_elem_of_lookup. exists i. by rewrite list_lookup_imap, H.
Qed.

(** The invariant of the loop before factor [k]. *)
Definition price_inv (m k p : Z) : Prop :=
  2 ^ 64 <= p /\
  exists w, 0 <= w /\ 2000 * w <= 19 * (m mod 2 ^ k) + 2000 * k /\ p ^ 64 <= 2 ^ (4096 + w).

Lemma price_inv_bound (m k p : Z) :
  0 <= k <= 19 -> 0 <= m <= MAX_TICK -> price_inv m k p -> 2 ^ 64 <= p <= 2 ^ 109.
Proof.
  intros Hk Hm (Hp & w & Hw0 & Hw & Hpw). split; [done|].
  apply pow64_le; [lia|]. etrans; [exact Hpw|]. apply Z.pow_le_mono_r; [lia|].
  pose proof (Z.mod_le m (2 ^ k) ltac:(lia) ltac:(apply Z.pow_pos_nonneg; lia)).
  unfold MAX_TICK in *. lia.
Qed.

Lemma price_inv_step (m k p f : Z) :
  0 <= k <= 18 -> 0 <= m <= MAX_TICK -> factor_ok k f = true -> price_inv m k p ->
  price_inv m (k + 1) (if Z.testbit m k then p * f / 2 ^ 64 else p).
Proof.
  intros Hk Hm Hf (Hp & w & Hw0 & Hw & Hpw).
  unfold factor_ok in Hf. rewrite !andb_true_iff, !Z.leb_le, Z.ltb_lt in Hf.
  destruct Hf as [[Hf1 _] Hf2]. pose proof (weight_bound k ltac:(lia)) as [Hwk0 Hwk].
  pose proof (mod_pow2_succ m k ltac:(lia)) as Hmod.
  destruct (Z.testbit m k); cbn [Z.b2z] in Hmod.
  2: { split; [done|]. exists w. split_and!; [lia|lia|done]. }
  assert (2 ^ 64 <= p * f / 2 ^ 64).
  { apply Z.div_le_lower_bound; [lia|]. apply Z.mul_le_mono_nonneg; lia. }
  split; [done|]. exists (w + weight k). split_and!; [lia|lia|].
  set (q := p * f / 2 ^ 64) in *.
  assert (2 ^ 64 * q <= p * f) as Hq by (apply Z.mul_div_le; lia).
  apply (Z.mul_le_mono_pos_l _ _ (2 ^ 4096)); [by apply Z.pow_pos_nonneg|].
  change (2 ^ 4096) with ((2 ^ 64) ^ 64) at 1. rewrite <- Z.pow_mul_l, <- Z.pow_add_r by lia.
  transitivity ((p * f) ^ 64); [apply Z.pow_le_mono_l; lia|].
  rewrite Z.pow_mul_l.
  replace (4096 + (4096 + (w + weight k))) with ((4096 + w) + (4096 + weight k)) by lia.
  rewrite (Z.pow_add_r 2 (4096 + w)) by lia.
  apply Z.mul_le_mono_nonneg; [apply Z.pow_nonneg; lia|done|apply Z.pow_nonneg; lia|done].
Qed.

Lemma price_loop_pure (m : Z) (factors : list Z) (k : nat) (p : Z) :
  (k + length factors = 19)%nat -> 0 <= m <= MAX_TICK ->
  (forall i f, factors !! i = Some f -> factor_ok (Z.of_nat (k + i)) f = true) ->
  price_inv m (Z.of_nat k) p ->
  price_loop m (Z.of_nat k) factors p = Ok (pure_loop m (Z.of_nat k) factors p) /\
  price_inv m 19 (pure_loop m (Z.of_nat k) factors p).
Proof.
  revert k p. induction factors as [|f fs IH]; intros k p Hlen Hm Hf Hinv.
  { cbn in *. split; [done|]. by replace 19 with (Z.of_nat k) by lia. }
  cbn [price_loop pure_loop length] in *.
  pose proof (Hf 0%nat f eq_refl) as Hf0. rewrite Nat.add_0_r in Hf0.
  pose proof (price_inv_bound m (Z.of_nat k) p ltac:(lia) Hm Hinv) as Hb.
  pose proof (price_inv_step m (Z.of_nat k) p f ltac:(lia) Hm Hf0 Hinv) as Hs.
  pose proof (price_inv_bound m (Z.of_nat k + 1) _ ltac:(lia) Hm Hs) as Hb'.
  rewrite shl_one_u32, land_pow2_eqb by lia.
  clear Hinv. replace (Z.of_nat k + 1) with (Z.of_nat (S k)) in * by lia.
  edestruct (IH (S k)) as [E1 E2]; [lia|done| |exact Hs|].
  { intros i g Hi. replace (S k + i)%nat with (k + S i)%nat by lia. by apply Hf. }
  split; [|exact E2]. clear E2 Hs.
  destruct (Z.testbit m (Z.of_nat k)); cbn [negb]; [|exact E1].
  unfold factor_ok in Hf0. rewrite !andb_true_iff, !Z.leb_le, Z.ltb_lt in Hf0.
  destruct Hf0 as [[Hf1 Hf2] _]. rewrite mul_q64_correct; [exact E1|lia..|].
  pose proof (Z.mod_pos_bound (p * f) (2 ^ 64) ltac:(lia)).
  pose proof (Z.div_mod (p * f) (2 ^ 64) ltac:(lia)). lia.
Qed.

Definition up_price (m : Z) : Z := pure_loop m 0 POW_Q64 Q64.

(** The price of a tick. *)
Definition price (tick : Z) : Z :=
  if tick <? 0 then imax U128 / up_price (- tick) else up_price tick.

Lemma up_price_inv (m : Z) :
  0 <= m <= MAX_TICK ->
  price_loop m 0 POW_Q64 Q64 = Ok (up_price m) /\ 2 ^ 64 <= up_price m <= 2 ^ 109.
Proof.
  intros Hm. destruct (price_loop_pure m POW_Q64 0 Q64 eq_refl Hm) as [E1 E2].
  - intros i f Hi. by apply factors_ok.
  - split; [done|]. exists 0. rewrite Z.pow_0_r, Z.mod_1_r. split_and!; [lia..|].
    change (Q64 ^ 64 <= 2 ^ 4096). unfold Q64. by rewrite <- Z.pow_mul_r by lia.
  - split; [exact E1|]. by eapply (price_inv_bound m 19); [lia| |exact E2].
Qed.

Lemma price_pos (t : Z) : MIN_TICK <= t <= MAX_TICK -> 0 < price t < 2 ^ 128.
Proof.
  unfold MIN_TICK, MAX_TICK. intros Ht. unfold price. destruct (Z.ltb_spec t 0).
  - destruct (up_price_inv (- t)) as [_ Hb]; [unfold MAX_TICK; lia|]. split.
    + apply Z.div_str_pos. cbn [imax]. lia.
    + apply Z.div_lt_upper_bound; [lia|]. cbn [imax]. nia.
  - destruct (up_price_inv t) as [_ Hb]; [unfold MAX_TICK; lia|]. lia.
Qed.

Lemma check_tick_in (t : Z) : MIN_TICK <= t <= MAX_TICK -> check_tick t = Ok tt.
Proof.
  intros Ht. unfold check_tick. destruct (Z.leb_spec MIN_TICK t), (Z.leb_spec t MAX_TICK); by try lia.
Qed.

Lemma check_tick_out (t : Z) : ~ (MIN_TICK <= t <= MAX_TICK) -> check_tick t = Err TickOutOfBounds.
Proof.
  intros Ht. unfold check_tick. destruct (Z.leb_spec MIN_TICK t), (Z.leb_spec t MAX_TICK); by try lia.
Qed.

Lemma tick_to_price_in (t : Z) : MIN_TICK <= t <= MAX_TICK -> tick_to_price_q64 t = Ok (price t).
Proof.
  intros Ht. pose proof (price_pos t Ht) as Hpos. unfold tick_to_price_q64.
  rewrite check_tick_in by done. cbn [mbind result_bind].
  destruct (up_price_inv (Z.abs t)) as [-> Hb]; [unfold MIN_TICK, MAX_TICK in *; lia|].
  cbn [mbind result_bind]. unfold price in *. destruct (Z.ltb_spec t 0).
  - rewrite Z.abs_neq in * by lia. unfold idiv.
    destruct (Z.eqb_spec (up_price (- t)) 0); [lia|].
    rewrite Z.quot_div_nonneg by (cbn [imax]; lia). apply iop_in. cbn [imin imax] in *. lia.
  - by rewrite Z.abs_eq by lia.
Qed.

(** ** Strict monotonicity *)
Lemma pure_loop_app (m : Z) (l1 l2 : list Z) (k p : Z) :
  pure_loop m k (l1 ++ l2) p = pure_loop m (k + len l1) l2 (pure_loop m k l1 p).
Proof.
  revert k p. induction l1 as [|f l1 IH]; intros k p; cbn [pure_loop app].
  - unfold len. cbn. by rewrite Z.add_0_r.
  - rewrite IH. f_equal. unfold len. cbn [length]. lia.
Qed.

Lemma pure_loop_bits (m m' : Z) (l : list Z) (k p : Z) :
  (forall j, k <= j < k + len l -> Z.testbit m j = Z.testbit m' j) ->
  pure_loop m k l p = pure_loop m' k l p.
Proof.
  revert k p. induction l as [|f l IH]; intros k p H; cbn [pure_loop]; [done|].
  unfold len in *. cbn [length] in H. rewrite (H k) by lia. apply IH.
  intros j Hj. apply H. lia.
Qed.

(** Multiplying by a factor of at least one keeps a relative gap, up to the floor. *)
Lemma pure_loop_gap (m : Z) (l : list Z) (k p p' : Z) :
  Forall (fun f => 2 ^ 64 <= f) l -> 0 <= p ->
  20001 * p + 20000 * len l <= 20000 * p' ->
  20001 * pure_loop m k l p <= 20000 * pure_loop m k l p'.
Proof.
  intros Hl. revert k p p'. induction Hl as [|f l Hf Hl IH]; intros k p p' Hp Hgap;
    cbn [pure_loop]; [change (len (@nil Z)) with 0 in Hgap; lia|].
  unfold len in *. cbn [length] in Hgap. apply IH; destruct (Z.testbit m k); try lia.
  - apply Z.div_pos; nia.
  - pose proof (Z.mul_div_le (p * f) (2 ^ 64) ltac:(lia)).
    pose proof (Z.mod_pos_bound (p' * f) (2 ^ 64) ltac:(lia)).
    pose proof (Z.div_mod (p' * f) (2 ^ 64) ltac:(lia)).
    assert ((20001 * p + 20000 * Z.of_nat (S (length l))) * f <= 20000 * p' * f)
      by (apply Z.mul_le_mono_nonneg_r; lia).
    assert (20000 * Z.of_nat (S (length l)) * 2 ^ 64 <= 20000 * Z.of_nat (S (length l)) * f)
      by (apply Z.mul_le_mono_nonneg_l; lia).
    lia.
Qed.

(** The price after the [k] low bits, all set, against the factor of bit [k]. *)
Definition low_gap (k : nat) : bool :=
  20001 * pure_loop (Z.ones (Z.of_nat k)) 0 (take k POW_Q64) Q64 + 20000 * 19
    <=? 20000 * (POW_Q64 !!! k).

Lemma low_gaps (k : nat) : (k < 19)%nat -> low_gap k = true.
Proof.
  intros Hk. assert (forallb low_gap (seq 0 19) = true) as H by (vm_compute; reflexivity).
  rewrite forallb_forall in H. apply H, in_seq. lia.
Qed.

Lemma succ_odd_part (i : Z) : 0 <= i -> exists k q, 0 <= k /\ 0 <= q /\ i + 1 = 2 ^ k * (2 * q + 1).
Proof.
  intros Hi. assert (forall p, exists k q, 0 <= k /\ 0 <= q /\ Zpos p = 2 ^ k * (2 * q + 1)) as H.
  { induction p as [p _|p (k & q & Hk & Hq & IH)|].
    - exists 0, (Zpos p). lia.
    - exists (k + 1), q. rewrite Z.pow_add_r by lia. lia.
    - exists 0, 0. lia. }
  destruct (i + 1) as [|p|p] eqn:E; [lia|apply H|lia].
Qed.

Lemma testbit_low (a b k j : Z) : 0 <= j < k -> Z.testbit (2 ^ k * a + b) j = Z.testbit b j.
Proof.
  intros Hj. rewrite <- (Z.mod_pow2_bits_low _ k) by lia.
  rewrite Z.add_comm, Z.mul_comm, Z.mod_add by (apply Z.pow_nonzero; lia).
  by rewrite Z.mod_pow2_bits_low by lia.
Qed.

Lemma testbit_high (a b k j : Z) :
  0 <= k <= j -> 0 <= b < 2 ^ k -> Z.testbit (2 ^ k * a + b) j = Z.testbit a (j - k).
Proof.
  intros Hj Hb.
  replace (Z.testbit (2 ^ k * a + b) j) with (Z.testbit (2 ^ k * a + b) (j - k + k)) by (f_equal; lia).
  rewrite <- Z.div_pow2_bits by lia. f_equal.
  rewrite (Z.mul_comm (2 ^ k)), Z.div_add_l by lia. rewrite Z.div_small by done. lia.
Qed.

Lemma pure_loop_none (m : Z) (l : list Z) (k p : Z) :
  (forall j, k <= j < k + len l -> Z.testbit m j = false) -> pure_loop m k l p = p.
Proof.
  intros H. rewrite (pure_loop_bits m 0) by (intros j Hj; by rewrite H, Z.testbit_0_l).
  clear H. revert k. induction l as [|f l IH]; intros k; cbn [pure_loop]; [done|].
  by rewrite Z.testbit_0_l.
Qed.

Lemma POW_Q64_ge (f : Z) : f ∈ POW_Q64 -> 2 ^ 64 <= f.
Proof.
  intros [i Hi]%list_elem_of_lookup. apply factors_ok in Hi. unfold factor_ok in Hi.
  rewrite !andb_true_iff, Z.leb_le in Hi. tauto.
Qed.

Lemma pure_loop_nonneg (m : Z) (l : list Z) (k p : Z) :
  (forall f, f ∈ l -> 2 ^ 64 <= f) -> 0 <= p -> 0 <= pure_loop m k l p.
Proof.
  revert k p. induction l as [|f l IH]; intros k p Hl Hp; cbn [pure_loop]; [done|].
  apply IH; [intros g Hg; apply Hl; by right|].
  destruct (Z.testbit m k); [|done]. pose proof (Hl f ltac:(left)).
  apply Z.div_pos; [|lia]. apply Z.mul_nonneg_nonneg; lia.
Qed.

Lemma up_price_gap (i : Z) :
  0 <= i < MAX_TICK -> 20001 * up_price i <= 20000 * up_price (i + 1).
Proof.
  intros Hi. destruct (succ_odd_part i ltac:(lia)) as (k & q & Hk & Hq & E).
  assert (k < 19) as Hk19.
  { destruct (Z.lt_ge_cases k 19) as [|Hge]; [done|]. unfold MAX_TICK in Hi.
    pose proof (Z.pow_le_mono_r 2 19 k ltac:(lia) Hge). nia. }
  set (n := Z.to_nat k). assert (Z.of_nat n = k) as En by lia.
  assert (Z.ones k = 2 ^ k - 1) as Eones by (rewrite Z.ones_equiv; lia).
  assert (i = 2 ^ k * (2 * q) + Z.ones k) as Ei by lia.
  assert (i + 1 = 2 ^ k * (2 * q + 1) + 0) as Ei1 by lia.
  assert (0 <= Z.ones k < 2 ^ k) as Ho by (pose proof (Z.pow_pos_nonneg 2 k); lia).
  assert (0 <= 0 < 2 ^ k) as H0 by lia.
  destruct (lookup_lt_is_Some_2 POW_Q64 n) as [f Hf]; [cbn; lia|].
  pose proof (low_gaps n ltac:(lia)) as Hgap.
  unfold low_gap in Hgap. rewrite Z.leb_le, (list_lookup_total_correct _ _ _ Hf), En in Hgap.
  assert (len (take n POW_Q64) = k) as Hlen by (unfold len; rewrite length_take; cbn; lia).
  assert (2 ^ 64 <= f) as Hf64 by (apply POW_Q64_ge; by eapply list_elem_of_lookup_2).
  unfold up_price at 1 2. rewrite <- (take_drop_middle POW_Q64 n f Hf), !pure_loop_app, Hlen.
  rewrite Z.add_0_l. cbn [pure_loop].
  replace (Z.testbit i k) with false.
  2: { rewrite Ei, testbit_high by lia. rewrite Z.sub_diag. symmetry. apply Z.testbit_even_0. }
  replace (Z.testbit (i + 1) k) with true.
  2: { rewrite Ei1, testbit_high by lia. rewrite Z.sub_diag. symmetry. apply Z.testbit_odd_0. }
  rewrite (pure_loop_none (i + 1) (take n POW_Q64)).
  2: { intros j Hj. rewrite Ei1, testbit_low by lia. apply Z.testbit_0_l. }
  rewrite (pure_loop_bits i (Z.ones k) (take n POW_Q64)).
  2: { intros j Hj. by rewrite Ei, testbit_low by lia. }
  rewrite (pure_loop_bits (i + 1) i).
  2: { intros j Hj. rewrite Ei1, Ei, !testbit_high by lia.
       replace (j - k) with (Z.succ (j - k - 1)) by lia.
       by rewrite Z.testbit_odd_succ, Z.testbit_even_succ by lia. }
  change (Q64 * f) with (2 ^ 64 * f). rewrite (Z.mul_comm (2 ^ 64)), Z.div_mul by lia.
  apply pure_loop_gap.
  - apply Forall_forall. intros x Hx. apply POW_Q64_ge.
    rewrite <- (take_drop (S n) POW_Q64). apply elem_of_app. by right.
  - apply pure_loop_nonneg; [|unfold Q64; lia]. intros x Hx. apply POW_Q64_ge.
    rewrite <- (take_drop n POW_Q64). apply elem_of_app. by left.
  - assert (len (drop (S n) POW_Q64) <= 19) by (unfold len; rewrite length_drop; cbn; lia). lia.
Qed.

(** Arithmetic on ticks. *)
Ltac tlia := unfold MIN_TICK, MAX_TICK in *; lia.

Lemma price_step (t : Z) : MIN_TICK <= t < MAX_TICK -> price t < price (t + 1).
Proof.
  intros Ht. unfold price, MIN_TICK in *.
  destruct (Z.ltb_spec t 0) as [Hneg|Hpos], (Z.ltb_spec (t + 1) 0); try tlia.
  - set (i := - (t + 1)). replace (- t) with (i + 1) by tlia.
    pose proof (up_price_gap i ltac:(tlia)) as Hgap.
    destruct (up_price_inv i) as [_ Hi]; [tlia|].
    destruct (up_price_inv (i + 1)) as [_ Hi1]; [tlia|].
    apply Z.le_succ_l, Z.div_le_lower_bound; [tlia|].
    set (d := imax U128 / up_price (i + 1)).
    assert (up_price (i + 1) * d <= imax U128) by (apply Z.mul_div_le; tlia).
    assert (0 <= d) by (apply Z.div_pos; cbn [imax]; tlia).
    assert (20001 * up_price i * d <= 20000 * up_price (i + 1) * d)
      by (apply Z.mul_le_mono_nonneg_r; tlia).
    cbn [imax] in *. tlia.
  - assert (t = -1) as -> by tlia. change (-1 + 1) with 0. change (- -1) with 1.
    pose proof (up_price_gap 0 ltac:(done)) as Hgap. change (0 + 1) with 1 in Hgap.
    destruct (up_price_inv 0) as [_ Hi]; [done|].
    apply Z.div_lt_upper_bound; cbn [imax]; [tlia|]. nia.
  - pose proof (up_price_gap t ltac:(tlia)). destruct (up_price_inv t) as [_ Hi]; [tlia|]. tlia.
Qed.

Lemma price_mono (t t' : Z) :
  MIN_TICK <= t -> t' <= MAX_TICK -> t < t' -> price t < price t'.
Proof.
  intros Ht Ht' Hlt. replace t' with (t + 1 + Z.of_nat (Z.to_nat (t' - t - 1))) in * by tlia.
  generalize dependent (Z.to_nat (t' - t - 1)). clear t'. intros n. induction n as [|n IH]; intros H1 _.
  - rewrite Z.add_0_r. apply price_step. tlia.
  - etrans; [apply IH; tlia|]. replace (t + 1 + Z.of_nat (S n)) with (t + 1 + Z.of_nat n + 1) by tlia.
    apply price_step. tlia.
Qed.

Lemma price_le (t t' : Z) :
  MIN_TICK <= t -> t' <= MAX_TICK -> t <= t' -> price t <= price t'.
Proof.
  intros ? ? Hle. destruct (Z.eq_dec t t') as [->|]; [tlia|].
  apply Z.lt_le_incl, price_mono; tlia.
Qed.

(** ** The inverse search *)

(** The band owned by a tick. *)
Definition in_band (t p : Z) : Prop :=
  MIN_TICK <= t <= MAX_TICK /\ price t <= p /\
  (if decide (t = MAX_TICK) then p = price t else p < price (t + 1)).

Lemma in_band_unique (t t' p : Z) : in_band t p -> in_band t' p -> t = t'.
Proof.
  assert (forall a b, a < b -> in_band a p -> in_band b p -> False) as H.
  { intros a b Hab (Ha & Ha1 & Ha2) (Hb & Hb1 & _). destruct (decide (a = MAX_TICK)); [tlia|].
    pose proof (price_le (a + 1) b ltac:(tlia) ltac:(tlia) ltac:(tlia)). tlia. }
  intros H1 H2. destruct (Z.lt_trichotomy t t') as [Hc|[Hc|Hc]]; [|done|]; exfalso; eauto.
Qed.

Lemma in_band_top (p : Z) : in_band MAX_TICK p <-> p = price MAX_TICK.
Proof.
  unfold in_band. rewrite decide_True by done. generalize (price MAX_TICK). intros top.
  split; [tauto|]. intros ->. split_and!; [by vm_compute|done|lia|done].
Qed.

Lemma tick_search_S (fuel : nat) (lo hi p : Z) :
  tick_search (S fuel) lo hi p =
    if lo <? hi then
      d ← isub I32 hi lo;
      d1 ← iadd I32 d 1;
      h ← idiv I32 d1 2;
      mid ← iadd I32 lo h;
      pr ← tick_to_price_q64 mid;
      if pr <=? p then tick_search fuel mid hi p
      else hi' ← isub I32 mid 1; tick_search fuel lo hi' p
    else mret lo.
Proof. reflexivity. Qed.

Lemma tick_search_ok (n : nat) (lo hi p : Z) :
  MIN_TICK <= lo <= hi -> hi <= MAX_TICK -> hi - lo < 2 ^ Z.of_nat n ->
  price lo <= p -> (hi = MAX_TICK \/ p < price (hi + 1)) ->
  exists t, tick_search (S n) lo hi p = Ok t /\ lo <= t <= hi /\ price t <= p /\
    (t = MAX_TICK \/ p < price (t + 1)).
Proof.
  revert lo hi. induction n as [|n IH]; intros lo hi Hlo Hhi Hn Hp Hup.
  - assert (hi = lo) as -> by tlia. exists lo. cbn [tick_search].
    destruct (Z.ltb_spec lo lo); [tlia|]. split_and!; [done|tlia..|done].
  - rewrite tick_search_S.
    destruct (Z.ltb_spec lo hi) as [Hlt|].
    2: { exists lo. assert (hi = lo) as -> by tlia. split_and!; [done|tlia..|done]. }
    set (h := (hi - lo + 1) / 2).
    assert (2 * h <= hi - lo + 1 < 2 * h + 2) as Hh.
    { pose proof (Z.div_mod (hi - lo + 1) 2 ltac:(done)).
      pose proof (Z.mod_pos_bound (hi - lo + 1) 2 ltac:(done)). unfold h. tlia. }
    rewrite Nat2Z.inj_succ, Z.pow_succ_r in Hn by tlia.
    unfold isub, iadd. rewrite (iop_in I32 (hi - lo)) by (unfold MIN_TICK, MAX_TICK in *; ilia).
    cbn [mbind result_bind]. rewrite (iop_in I32 (hi - lo + 1)) by (unfold MIN_TICK, MAX_TICK in *; ilia).
    cbn [mbind result_bind]. unfold idiv. cbn [Z.eqb].
    rewrite Z.quot_div_nonneg by tlia. fold h.
    rewrite (iop_in I32 h) by (unfold MIN_TICK, MAX_TICK in *; ilia). cbn [mbind result_bind].
    rewrite (iop_in I32 (lo + h)) by (unfold MIN_TICK, MAX_TICK in *; ilia). cbn [mbind result_bind].
    rewrite tick_to_price_in by tlia. cbn [mbind result_bind].
    destruct (Z.leb_spec (price (lo + h)) p).
    + destruct (IH (lo + h) hi) as (t & -> & Ht & Hpt); [tlia..|done|done|].
      exists t. split_and!; [done|tlia..|tauto|tauto].
    + rewrite (iop_in I32 (lo + h - 1)) by (unfold MIN_TICK, MAX_TICK in *; ilia).
      cbn [mbind result_bind].
      destruct (IH lo (lo + h - 1)) as (t & -> & Ht & Hpt); [tlia..|done| |].
      { right. by replace (lo + h - 1 + 1) with (lo + h) by tlia. }
      exists t. split_and!; [done|tlia..|tauto|tauto].
Qed.

Lemma tick_to_price_out (t : Z) :
  ~ (MIN_TICK <= t <= MAX_TICK) -> tick_to_price_q64 t = Err TickOutOfBounds.
Proof. intros Ht. unfold tick_to_price_q64. by rewrite check_tick_out. Qed.

Lemma tick_to_price_Ok (t p : Z) :
  tick_to_price_q64 t = Ok p <-> MIN_TICK <= t <= MAX_TICK /\ p = price t.
Proof.
  destruct (decide (MIN_TICK <= t <= MAX_TICK)) as [Ht|Ht].
  - rewrite tick_to_price_in by done. naive_solver.
  - unfold tick_to_price_q64. rewrite check_tick_out by done. cbn. naive_solver.
Qed.

Lemma price_q64_to_tick_cases (p : Z) :
  (price MIN_TICK <= p <= price MAX_TICK /\
     exists t, price_q64_to_tick p = Ok t /\ in_band t p) \/
  ((p < price MIN_TICK \/ price MAX_TICK < p) /\ price_q64_to_tick p = Err PriceOutOfBounds).
Proof.
  unfold price_q64_to_tick. rewrite !tick_to_price_in by tlia. cbn [mbind result_bind].
  destruct (Z.ltb_spec p (price MIN_TICK)); cbn [fail_if mbind result_bind]; [right; auto|].
  destruct (Z.ltb_spec (price MAX_TICK) p); cbn [fail_if mbind result_bind]; [right; auto|].
  left. split; [done|].
  destruct (tick_search_ok 20 MIN_TICK MAX_TICK p) as (t & -> & Ht & Hp & Hn);
    [tlia..|done|by left|].
  exists t. split; [done|]. split_and!; [tlia..|done|].
  destruct (decide (t = MAX_TICK)) as [->|]; [lia|]. destruct Hn; [done|done].
Qed.

Lemma in_band_code (t p : Z) :
  in_band t p <->
  exists pt, tick_to_price_q64 t = Ok pt /\ pt <= p /\
    (if decide (t = MAX_TICK) then p = pt
     else exists pn, tick_to_price_q64 (t + 1) = Ok pn /\ p < pn).
Proof.
  unfold in_band. split.
  - intros (Ht & Hp & Hn). exists (price t). rewrite tick_to_price_in by done. split_and!; [done..|].
    revert Hn. case_decide; intros Hn; [done|]. exists (price (t + 1)).
    rewrite tick_to_price_in by tlia. done.
  - intros (pt & [Ht ->]%tick_to_price_Ok & Hp & Hn). split; [done|]. split; [done|].
    revert Hn. case_decide; intros Hn; [done|].
    by destruct Hn as (pn & [_ ->]%tick_to_price_Ok & Hn).
Qed.

#[local] Opaque price tick_to_price_q64 price_q64_to_tick.

Lemma in_band_exists (p : Z) :
  price MIN_TICK <= p <= price MAX_TICK <-> exists t, in_band t p.
Proof.
  split.
  - intros Hp. destruct (price_q64_to_tick_cases p) as [[_ (t & _ & Ht)]|[Hc _]]; [eauto|lia].
  - intros (t & Ht & Hp & Hn). pose proof (price_le MIN_TICK t). split; [tlia|].
    case_decide; [subst; lia|]. pose proof (price_le (t + 1) MAX_TICK). tlia.
Qed.

(** The inverse search is exact. [price_q64_to_tick] returns a tick exactly
    when the price lies in that tick's band, [P(t) <= price < P(t + 1)] (the single
    point [P(MAX_TICK)] at the top); it fails with [PriceOutOfBounds] exactly when
    the price is outside [P(MIN_TICK) .. P(MAX_TICK)], and never traps. *)
Theorem price_search_exact (p : Z) :
  (forall t, price_q64_to_tick p = Ok t <->
     exists pt, tick_to_price_q64 t = Ok pt /\ pt <= p /\
       (if decide (t = MAX_TICK) then p = pt
        else exists pn, tick_to_price_q64 (t + 1) = Ok pn /\ p < pn)) /\
  (price_q64_to_tick p = Err PriceOutOfBounds <->
     exists lower upper, tick_to_price_q64 MIN_TICK = Ok lower /\
       tick_to_price_q64 MAX_TICK = Ok upper /\ (p < lower \/ upper < p)) /\
  price_q64_to_tick p <> Panic.
Proof.
  pose proof (in_band_exists p) as Hex.
  rewrite (tick_to_price_in MIN_TICK), (tick_to_price_in MAX_TICK) by tlia.
  pose proof (price_q64_to_tick_cases p) as Hcases.
  generalize dependent (price MIN_TICK). generalize dependent (price MAX_TICK).
  intros upper lower Hex Hcases.
  destruct Hcases as [[Hin (t & -> & Hb)]|[Hout ->]]; split_and!.
  - intros t'. rewrite <- in_band_code. split; [by intros [= <-]|]. intros Hb'. f_equal. by eapply in_band_unique.
  - split; [done|]. intros (l & u & [= <-] & [= <-] & Hc). lia.
  - done.
  - intros t'. rewrite <- in_band_code. split; [done|]. intros Hb. exfalso.
    assert (exists t, in_band t p) as Hp%Hex by eauto. lia.
  - split; [|done]. intros _. eauto.
  - done.
Qed.

(** Every tick of [MIN_TICK .. MAX_TICK] has a price, a non-zero [u128]
    obtained without overflow or trap; prices increase strictly with the tick over
    the whole range, negative ticks included; and the inverse search takes the
    price of a tick back to the tick. *)
Theorem tick_prices_increase (t t' : Z) (Ht : MIN_TICK <= t) (Ht' : t' <= MAX_TICK) (Hlt : t < t') :
  exists p p', tick_to_price_q64 t = Ok p /\ tick_to_price_q64 t' = Ok p' /\
    0 < p < p' /\ p' <= imax U128 /\
    price_q64_to_tick p = Ok t /\ price_q64_to_tick p' = Ok t'.
Proof.
  exists (price t), (price t'). rewrite !tick_to_price_in by tlia.
  pose proof (price_pos t ltac:(tlia)). pose proof (price_pos t' ltac:(tlia)).
  pose proof (price_mono t t' Ht Ht' Hlt).
  assert (forall u, MIN_TICK <= u <= MAX_TICK -> price_q64_to_tick (price u) = Ok u) as Hrt.
  { intros u Hu. assert (in_band u (price u)) as Hb.
    { split_and!; [tlia..|]. case_decide; [done|]. apply price_step. tlia. }
    pose proof (proj2 (in_band_exists (price u)) (ex_intro _ u Hb)) as Hr.
    destruct (price_q64_to_tick_cases (price u)) as [[_ (v & -> & Hv)]|[Hc _]]; [|lia].
    f_equal. by eapply in_band_unique. }
  split_and!; [done..|lia|lia| |apply Hrt; tlia|apply Hrt; tlia]. cbn [imax]. lia.
Qed.

(** The hypotheses hold at the ends of the range. *)
Lemma tick_prices_increase_witness :
  exists p p', tick_to_price_q64 (-300000) = Ok p /\ tick_to_price_q64 300000 = Ok p' /\
    0 < p < p' /\ p' <= imax U128 /\
    price_q64_to_tick p = Ok (-300000) /\ price_q64_to_tick p' = Ok 300000.
Proof. apply (tick_prices_increase (-300000) 300000); vm_compute; congruence. Defined.

(** [assert_tick_price_bounds] accepts exactly the pairs the inverse search
    relates; on any other price it fails with [TickPriceMismatch], and on a tick
    out of range with [TickOutOfBounds]. *)
Theorem tick_band_check_exact (t p : Z) :
  assert_tick_price_bounds t p =
    if decide (MIN_TICK <= t <= MAX_TICK) then
      if decide (price_q64_to_tick p = Ok t) then Ok tt else Err TickPriceMismatch
    else Err TickOutOfBounds.
Proof.
  unfold assert_tick_price_bounds. case_decide as Ht.
  2: { by rewrite tick_to_price_out. }
  rewrite tick_to_price_in by done. cbn [mbind result_bind].
  assert (price_q64_to_tick p = Ok t <-> in_band t p) as Hb.
  { pose proof (in_band_exists p) as Hex. split.
    - intros E. destruct (price_q64_to_tick_cases p) as [[_ (v & E' & Hv)]|[_ E']]; congruence.
    - intros Hb. pose proof (proj2 Hex (ex_intro _ t Hb)).
      destruct (price_q64_to_tick_cases p) as [[_ (v & -> & Hv)]|[Hc _]]; [|lia].
      f_equal. by eapply in_band_unique. }
  destruct (Z.eqb_spec t MAX_TICK) as [->|Hne]; cbn [mret result_ret mbind result_bind].
  - rewrite in_band_top in Hb. generalize dependent (price MAX_TICK). intros top Hb.
    destruct (Z.eqb_spec p top), (decide (price_q64_to_tick p = Ok MAX_TICK)); tauto.
  - assert (in_band t p <-> price t <= p < price (t + 1)) as Hn.
    { unfold in_band. rewrite decide_False by done. tauto. }
    rewrite Hn in Hb. clear Hn. unfold iadd. rewrite iop_in by (unfold MIN_TICK, MAX_TICK in *; ilia).
    cbn [mbind result_bind]. rewrite tick_to_price_in by tlia.
    cbn [mbind result_bind mret result_ret].
    generalize dependent (price t). generalize dependent (price (t + 1)). intros next lower Hb.
    destruct (decide (price_q64_to_tick p = Ok t)) as [Hd|Hd]; rewrite Hb in Hd;
      destruct (Z.leb_spec lower p), (Z.ltb_spec p next); cbn [mbind result_bind]; lia || reflexivity.
Qed.
