(* ===== verification/AmmBitmap.v ===== *)
(** * AMM: the initialized-tick bitmap

    [contracts/amm/src/tick_bitmap.rs] up to "Tick <-> price": the packed bitmap
    of initialized ticks, one 128-bit word per storage key, and the search for
    the next initialized tick in the direction of a swap.

    The storage is the finite map of its present words ([TickBitmapKey::Word]);
    [initialized] reads it as a set of compressed ticks. [flip_tick] is proved to
    toggle one element of that set, and the search to return the nearest element
    within the words it may scan. *)

From stdpp Require Import base numbers list gmap.
From Stdlib Require Import ZArith Lia.
From S2P Require Import Prelude Words AmmPrice.

Open Scope Z_scope.

Definition MAX_TICK_SPACING : Z := 16384.
Definition WORD_BITS : Z := 128.

(** The words present in persistent storage, by word position. *)
Abbreviation bitmap := (gmap Z Z).

Definition load_word (st : bitmap) (word_pos : Z) : Z := default 0 (st !! word_pos).

Definition store_word (st : bitmap) (word_pos word : Z) : bitmap :=
  if word =? 0 then delete word_pos st else <[word_pos := word]> st.

Definition check_spacing (tick_spacing : Z) : M unit :=
  fail_if ((tick_spacing <=? 0) || (MAX_TICK_SPACING <? tick_spacing)) InvalidTickSpacing.

Definition min_usable_tick (tick_spacing : Z) : M Z :=
  q ← idiv I32 MIN_TICK tick_spacing; imul I32 q tick_spacing.

Definition max_usable_tick (tick_spacing : Z) : M Z :=
  q ← idiv I32 MAX_TICK tick_spacing; imul I32 q tick_spacing.

(** [(word_pos, bit_pos)] of a compressed tick. *)
Definition position (compressed : Z) : Z * Z :=
  (Z.shiftr compressed 7, cast U32 (Z.land compressed (WORD_BITS - 1))).

Definition flip_tick (st : bitmap) (tick tick_spacing : Z) : M (bitmap * bool) :=
  _ ← check_spacing tick_spacing;
  _ ← check_tick tick;
  r ← irem I32 tick tick_spacing;
  _ ← fail_if (negb (r =? 0)) TickNotAligned;
  c ← idiv I32 tick tick_spacing;
  let '(word_pos, bit_pos) := position c in
  let mask := shl U128 1 bit_pos in
  let word := Z.lxor (load_word st word_pos) mask in
  mret (store_word st word_pos word, negb (Z.land word mask =? 0)).

Definition is_initialized (st : bitmap) (tick tick_spacing : Z) : M bool :=
  _ ← check_spacing tick_spacing;
  _ ← check_tick tick;
  r ← irem I32 tick tick_spacing;
  if negb (r =? 0) then mret false else
  c ← idiv I32 tick tick_spacing;
  let '(word_pos, bit_pos) := position c in
  mret (negb (Z.land (load_word st word_pos) (shl U128 1 bit_pos) =? 0)).

Definition next_initialized_tick_within_one_word
    (st : bitmap) (tick tick_spacing : Z) (lte : bool) : M (Z * bool) :=
  _ ← check_spacing tick_spacing;
  _ ← check_tick tick;
  compressed ← idiv_euclid I32 tick tick_spacing;
  '(next, initialized) ←
    (if lte then
       let '(word_pos, bit_pos) := position compressed in
       s ← isub U32 127 bit_pos;
       let masked := Z.land (load_word st word_pos) (Z.shiftr (imax U128) s) in
       if negb (masked =? 0) then
         msb ← isub U32 127 (leading_zeros masked);
         d ← isub U32 bit_pos msb;
         c ← isub I32 compressed (cast I32 d);
         next ← imul I32 c tick_spacing;
         mret (next, true)
       else
         c ← isub I32 compressed (cast I32 bit_pos);
         next ← imul I32 c tick_spacing;
         mret (next, false)
     else
       start ← iadd I32 compressed 1;
       let '(word_pos, bit_pos) := position start in
       let masked := Z.land (load_word st word_pos) (shl U128 (imax U128) bit_pos) in
       if negb (masked =? 0) then
         let lsb := trailing_zeros masked in
         d ← isub U32 lsb bit_pos;
         c ← iadd I32 start (cast I32 d);
         next ← imul I32 c tick_spacing;
         mret (next, true)
       else
         d ← isub U32 127 bit_pos;
         c ← iadd I32 start (cast I32 d);
         next ← imul I32 c tick_spacing;
         mret (next, false));
  if (initialized : bool) then mret (next, true) else
  lower ← min_usable_tick tick_spacing;
  upper ← max_usable_tick tick_spacing;
  mret (Z.min (Z.max next lower) upper, false).

(** The [for] loop of [next_initialized_tick], over at most [n] words. *)
Fixpoint scan_words (n : nat) (st : bitmap) (cursor tick_spacing : Z) (lte : bool)
    (lower upper : Z) (result : Z * bool) : M (Z * bool) :=
  match n with
  | O => mret result
  | S n =>
      '(next, initialized) ← next_initialized_tick_within_one_word st cursor tick_spacing lte;
      if (initialized : bool) then mret (next, initialized)
      else if lte then
        if next <=? lower then mret (lower, false)
        else cursor' ← isub I32 next 1;
             scan_words n st cursor' tick_spacing lte lower upper (next, initialized)
      else
        if upper <=? next then mret (upper, false)
        else scan_words n st next tick_spacing lte lower upper (next, initialized)
  end.

Definition next_initialized_tick
    (st : bitmap) (tick tick_spacing : Z) (lte : bool) (max_words : Z) : M (Z * bool) :=
  _ ← check_spacing tick_spacing;
  lower ← min_usable_tick tick_spacing;
  upper ← max_usable_tick tick_spacing;
  scan_words (Z.to_nat (Z.max max_words 1)) st tick tick_spacing lte lower upper (tick, false).

Example flip_600 :
  (r ← flip_tick ∅ 600 60; next_initialized_tick r.1 0 60 false 10) = Ok (600, true).
Proof. vm_compute. reflexivity. Qed.
Example flip_neg :
  (r ← flip_tick ∅ (-60000) 60; next_initialized_tick r.1 299999 60 true 100) = Ok (-60000, true).
Proof. vm_compute. reflexivity. Qed.
Example flip_none :
  (r ← flip_tick ∅ (-60000) 60; next_initialized_tick r.1 299999 60 true 20) = Ok (153600, false).
Proof. vm_compute. reflexivity. Qed.

(** ** The bitmap as a set of compressed ticks *)
Definition initialized (st : bitmap) (c : Z) : bool :=
  Z.testbit (load_word st (c / 128)) (c mod 128).

(** Stored words are non-zero [u128]s: an empty word is removed. *)
Definition bitmap_wf (st : bitmap) : Prop := forall k w, st !! k = Some w -> 0 < w < 2 ^ 128.

Definition spacing_ok (s : Z) : Prop := 0 < s <= MAX_TICK_SPACING.

(** Every initialized tick is usable. *)
Definition bitmap_usable (s : Z) (st : bitmap) : Prop :=
  forall c, initialized st c = true -> MIN_TICK <= c * s <= MAX_TICK.

Ltac blia := unfold spacing_ok, MAX_TICK_SPACING, MIN_TICK, MAX_TICK in *; lia.
Ltac bilia := unfold spacing_ok, MAX_TICK_SPACING, MIN_TICK, MAX_TICK in *; ilia.

Lemma check_spacing_in (s : Z) : spacing_ok s -> check_spacing s = Ok tt.
Proof.
  intros Hs. unfold check_spacing.
  destruct (Z.leb_spec s 0), (Z.ltb_spec MAX_TICK_SPACING s); by try blia.
Qed.

Lemma check_spacing_Ok (s : Z) (u : unit) : check_spacing s = Ok u -> spacing_ok s.
Proof.
  unfold check_spacing. destruct (Z.leb_spec s 0), (Z.ltb_spec MAX_TICK_SPACING s); cbn; try done.
Qed.

Lemma position_eq (c : Z) : position c = (c / 128, c mod 128).
Proof.
  unfold position. change (WORD_BITS - 1) with (Z.ones 7). rewrite Z.land_ones by lia.
  rewrite Z.shiftr_div_pow2 by lia. change (2 ^ 7) with 128. f_equal. apply cast_in.
  pose proof (Z.mod_pos_bound c 128 ltac:(done)). ilia.
Qed.

Lemma load_word_range (st : bitmap) (k : Z) : bitmap_wf st -> 0 <= load_word st k < 2 ^ 128.
Proof.
  intros Hwf. unfold load_word. destruct (st !! k) eqn:E; cbn; [|lia]. apply Hwf in E. lia.
Qed.

Lemma load_store (st : bitmap) (k w j : Z) :
  load_word (store_word st k w) j = if decide (j = k) then w else load_word st j.
Proof.
  unfold load_word, store_word. destruct (Z.eqb_spec w 0) as [->|].
  - case_decide; [subst; by rewrite lookup_delete_eq|by rewrite lookup_delete_ne by done].
  - case_decide; [subst; by rewrite lookup_insert_eq|by rewrite lookup_insert_ne by done].
Qed.

Lemma store_wf (st : bitmap) (k w : Z) :
  bitmap_wf st -> 0 <= w < 2 ^ 128 -> bitmap_wf (store_word st k w).
Proof.
  intros Hwf Hw j v. unfold store_word. destruct (Z.eqb_spec w 0).
  - rewrite lookup_delete_Some. intros [_ ?]. by apply (Hwf j).
  - rewrite lookup_insert_Some. intros [[_ <-]|[_ ?]]; [lia|by apply (Hwf j)].
Qed.

Lemma mod128 (c : Z) : 0 <= c mod 128 < 128.
Proof. by apply Z.mod_pos_bound. Qed.

(** Members of one word. *)
Lemma same_word (k i : Z) : 0 <= i < 128 -> (128 * k + i) / 128 = k /\ (128 * k + i) mod 128 = i.
Proof.
  intros Hi. rewrite (Z.mul_comm 128), Z.add_comm, Z.div_add, Z.mod_add by lia.
  rewrite Z.div_small, Z.mod_small by lia. lia.
Qed.

Lemma initialized_word (st : bitmap) (k i : Z) :
  0 <= i < 128 -> initialized st (128 * k + i) = Z.testbit (load_word st k) i.
Proof. intros Hi. unfold initialized. by destruct (same_word k i Hi) as [-> ->]. Qed.

Lemma tick_quot (t s : Z) :
  spacing_ok s -> MIN_TICK <= t <= MAX_TICK -> MIN_TICK <= Z.quot t s <= MAX_TICK.
Proof.
  intros Hs Ht. pose proof (Z.quot_abs t s ltac:(blia)) as Ha.
  rewrite (Z.abs_eq s) in Ha by blia.
  assert (Z.abs t ÷ s <= Z.abs t); [|blia].
  apply Z.quot_le_upper_bound; [blia|]. assert (0 < s) by blia. nia.
Qed.

Lemma tick_rem (t s : Z) :
  spacing_ok s -> MIN_TICK <= t <= MAX_TICK -> @irem AmmError I32 t s = Ok (Z.rem t s).
Proof.
  intros Hs Ht. unfold irem. destruct (Z.eqb_spec s 0); [blia|].
  pose proof (tick_quot t s Hs Ht).
  destruct (fits I32 (Z.quot t s)) eqn:E; [done|].
  apply not_true_iff_false in E. exfalso. apply E, fits_spec. bilia.
Qed.

Lemma tick_div (t s : Z) :
  spacing_ok s -> MIN_TICK <= t <= MAX_TICK -> @idiv AmmError I32 t s = Ok (Z.quot t s).
Proof.
  intros Hs Ht. unfold idiv. destruct (Z.eqb_spec s 0); [blia|].
  pose proof (tick_quot t s Hs Ht). apply iop_in. bilia.
Qed.

Lemma aligned_quot (t s : Z) : spacing_ok s -> Z.rem t s = 0 -> t = Z.quot t s * s /\ Z.quot t s = t / s.
Proof.
  intros Hs Hr. pose proof (Z.quot_rem t s ltac:(blia)) as Hq. rewrite Hr in Hq.
  split; [lia|]. apply (Z.div_unique_exact); blia.
Qed.

Lemma rem_aligned (c s : Z) : spacing_ok s -> Z.rem (c * s) s = 0.
Proof. intros Hs. apply Z.rem_mul. blia. Qed.

Lemma land_one_bit (w b : Z) :
  0 <= b < 128 -> negb (Z.land w (shl U128 1 b) =? 0) = Z.testbit w b.
Proof. intros Hb. rewrite shl_one by done. rewrite land_pow2_eqb by lia. apply negb_involutive. Qed.

(** [flip_tick] toggles one element of the set. *)
Lemma flip_tick_spec (st : bitmap) (c s : Z) :
  bitmap_wf st -> spacing_ok s -> MIN_TICK <= c * s <= MAX_TICK ->
  exists st', flip_tick st (c * s) s = Ok (st', negb (initialized st c)) /\ bitmap_wf st' /\
    forall j, initialized st' j = if decide (j = c) then negb (initialized st c) else initialized st j.
Proof.
  intros Hwf Hs Hc. unfold flip_tick.
  rewrite check_spacing_in, check_tick_in by done. cbn [mbind result_bind].
  rewrite tick_rem, rem_aligned by done. cbn [mbind result_bind Z.eqb negb fail_if].
  rewrite tick_div by done. rewrite Z.quot_mul by blia. cbn [mbind result_bind].
  rewrite position_eq. pose proof (mod128 c) as Hm.
  set (k := c / 128). set (b := c mod 128) in *.
  assert (c = 128 * k + b) as Ec by (apply Z.div_mod; lia).
  pose proof (load_word_range st k Hwf) as Hw.
  assert (0 <= Z.lxor (load_word st k) (2 ^ b) < 2 ^ 128) as Hx.
  { apply lxor_lt; [lia|done|]. split; [apply Z.pow_nonneg; lia|apply Z.pow_lt_mono_r; lia]. }
  assert (Z.testbit (Z.lxor (load_word st k) (2 ^ b)) b = negb (initialized st c)) as Hb.
  { rewrite Z.lxor_spec, Z.pow2_bits_true by lia. rewrite Ec, initialized_word by done. by destruct Z.testbit. }
  rewrite land_one_bit by done. rewrite shl_one by done. rewrite Hb.
  eexists. split; [reflexivity|]. split; [by apply store_wf|].
  intros j. unfold initialized at 1. rewrite load_store. case_decide as Hj.
  - pose proof (mod128 j). pose proof (Z.div_mod j 128 ltac:(done)).
    destruct (decide (j = c)) as [->|Hne].
    + exact Hb.
    + unfold initialized. rewrite Hj.
      rewrite Z.lxor_spec, Z.pow2_bits_false by lia. apply xorb_false_r.
  - rewrite decide_False; [done|]. intros ->. done.
Qed.

Lemma is_initialized_spec (st : bitmap) (t s : Z) :
  spacing_ok s -> MIN_TICK <= t <= MAX_TICK ->
  is_initialized st t s = Ok ((Z.rem t s =? 0) && initialized st (t / s)).
Proof.
  intros Hs Ht. unfold is_initialized.
  rewrite check_spacing_in, check_tick_in by done. cbn [mbind result_bind].
  rewrite tick_rem by done. cbn [mbind result_bind].
  destruct (Z.eqb_spec (Z.rem t s) 0) as [Hr|]; cbn [negb andb]; [|done].
  rewrite tick_div by done. cbn [mbind result_bind]. rewrite position_eq.
  rewrite land_one_bit by apply mod128.
  destruct (aligned_quot t s Hs Hr) as [_ ->]. done.
Qed.

(** ** One word of the search *)

Definition usable_lo (s : Z) : Z := Z.quot MIN_TICK s.
Definition usable_hi (s : Z) : Z := Z.quot MAX_TICK s.

Lemma usable_hi_spec (s c : Z) : spacing_ok s -> (c * s <= MAX_TICK <-> c <= usable_hi s).
Proof.
  intros Hs. unfold usable_hi. rewrite Z.quot_div_nonneg by blia.
  pose proof (Z.div_mod MAX_TICK s ltac:(blia)). pose proof (Z.mod_pos_bound MAX_TICK s ltac:(blia)).
  assert (0 < s) by blia. split; intros Hc; nia.
Qed.

Lemma usable_lo_spec (s c : Z) : spacing_ok s -> (MIN_TICK <= c * s <-> usable_lo s <= c).
Proof.
  intros Hs. pose proof (usable_hi_spec s (- c) Hs) as H. unfold usable_lo, usable_hi in *.
  change MIN_TICK with (- MAX_TICK). rewrite Z.quot_opp_l by blia. lia.
Qed.

Lemma usable_bounds (s c : Z) :
  spacing_ok s -> (MIN_TICK <= c * s <= MAX_TICK <-> usable_lo s <= c <= usable_hi s).
Proof.
  intros Hs. rewrite usable_lo_spec, usable_hi_spec by done. done.
Qed.

Lemma usable_order (s : Z) : spacing_ok s -> usable_lo s <= 0 <= usable_hi s.
Proof. intros Hs. apply usable_bounds; [done|]. blia. Qed.

Lemma min_usable_eq (s : Z) : spacing_ok s -> min_usable_tick s = Ok (usable_lo s * s).
Proof.
  intros Hs. unfold min_usable_tick. rewrite tick_div by (done || blia). cbn [mbind result_bind].
  fold (usable_lo s). apply iop_in.
  pose proof (proj2 (usable_bounds s (usable_lo s) Hs)) as H. pose proof (usable_order s Hs).
  bilia.
Qed.

Lemma max_usable_eq (s : Z) : spacing_ok s -> max_usable_tick s = Ok (usable_hi s * s).
Proof.
  intros Hs. unfold max_usable_tick. rewrite tick_div by (done || blia). cbn [mbind result_bind].
  fold (usable_hi s). apply iop_in.
  pose proof (proj2 (usable_bounds s (usable_hi s) Hs)) as H. pose proof (usable_order s Hs).
  bilia.
Qed.

(** The lowest bit of a masked word above a position, and the highest below. *)
Lemma masked_down (w b : Z) :
  0 <= w < 2 ^ 128 -> 0 <= b < 128 ->
  let masked := Z.land w (Z.shiftr (imax U128) (127 - b)) in
  if masked =? 0 then forall i, 0 <= i <= b -> Z.testbit w i = false
  else 0 <= Z.log2 masked <= b /\ 0 < masked /\ Z.testbit w (Z.log2 masked) = true /\
       forall i, Z.log2 masked < i <= b -> Z.testbit w i = false.
Proof.
  intros Hw Hb masked.
  assert (forall i, 0 <= i -> Z.testbit masked i = Z.testbit w i && (i <=? b)) as Hbit.
  { intros i Hi. unfold masked. rewrite Z.land_spec, low_mask_bit by lia. done. }
  destruct (Z.eqb_spec masked 0) as [E|E].
  - intros i Hi. pose proof (Hbit i ltac:(lia)) as Hi'. rewrite E, Z.testbit_0_l in Hi'.
    destruct (Z.leb_spec i b); [|lia]. by rewrite andb_true_r in Hi'.
  - assert (0 <= masked) by (apply Z.land_nonneg; lia).
    assert (0 < masked) as Hpos by lia. destruct (log2_top masked Hpos) as [Ht Ha].
    pose proof (Z.log2_nonneg masked).
    rewrite Hbit in Ht by done. apply andb_true_iff in Ht as [Ht Hle]. apply Z.leb_le in Hle.
    split_and!; [done..|]. intros i Hi. pose proof (Ha i ltac:(lia)) as Hf.
    rewrite Hbit in Hf by lia. destruct (Z.leb_spec i b); [|lia]. by rewrite andb_true_r in Hf.
Qed.

Lemma masked_up (w b : Z) :
  0 <= w < 2 ^ 128 -> 0 <= b < 128 ->
  let masked := Z.land w (shl U128 (imax U128) b) in
  if masked =? 0 then forall i, b <= i < 128 -> Z.testbit w i = false
  else b <= trailing_zeros masked < 128 /\ Z.testbit w (trailing_zeros masked) = true /\
       forall i, b <= i < trailing_zeros masked -> Z.testbit w i = false.
Proof.
  intros Hw Hb masked.
  assert (forall i, 0 <= i < 128 -> Z.testbit masked i = Z.testbit w i && (b <=? i)) as Hbit.
  { intros i Hi. unfold masked. rewrite Z.land_spec, high_mask_bit by lia. done. }
  destruct (Z.eqb_spec masked 0) as [E|E].
  - intros i Hi. pose proof (Hbit i ltac:(lia)) as Hi'. rewrite E, Z.testbit_0_l in Hi'.
    destruct (Z.leb_spec b i); [|lia]. by rewrite andb_true_r in Hi'.
  - assert (0 <= masked) by (apply Z.land_nonneg; lia).
    destruct (trailing_zeros_spec masked ltac:(lia)) as (H0 & Ht & Hf).
    assert (trailing_zeros masked < 128) as Hlt.
    { apply (bit_lt_width w); [done|]. unfold masked in Ht at 1. rewrite Z.land_spec in Ht.
      by apply andb_true_iff in Ht as [? _]. }
    pose proof Ht as Ht'. rewrite Hbit in Ht' by lia. apply andb_true_iff in Ht' as [Ht1 Ht2].
    apply Z.leb_le in Ht2. split_and!; [done..|]. intros i Hi.
    pose proof (Hf i ltac:(lia)) as Hfi. rewrite Hbit in Hfi by lia.
    destruct (Z.leb_spec b i); [|lia]. by rewrite andb_true_r in Hfi.
Qed.

(** No initialized compressed tick between two positions. *)
Definition none_between (st : bitmap) (a b : Z) : Prop :=
  forall j, a <= j <= b -> initialized st j = false.

Lemma in_word (c j : Z) :
  c - c mod 128 <= j <= c - c mod 128 + 127 -> j = 128 * (c / 128) + (j - (c - c mod 128)).
Proof. pose proof (Z.div_mod c 128 ltac:(done)). lia. Qed.

Lemma word_bit (st : bitmap) (c j : Z) :
  c - c mod 128 <= j <= c - c mod 128 + 127 ->
  initialized st j = Z.testbit (load_word st (c / 128)) (j - (c - c mod 128)).
Proof. intros Hj. rewrite (in_word c j Hj) at 1. apply initialized_word. lia. Qed.

Section one_word.
Context (st : bitmap) (s t : Z).
Context (Hwf : bitmap_wf st) (Hs : spacing_ok s) (Ht : MIN_TICK <= t <= MAX_TICK).

Lemma compressed_eq : @idiv_euclid AmmError I32 t s = Ok (t / s) /\
  t / s * s <= t < (t / s + 1) * s /\ MIN_TICK <= t / s <= MAX_TICK.
Proof.
  pose proof (Z.div_mod t s ltac:(blia)). pose proof (Z.mod_pos_bound t s ltac:(blia)).
  assert (0 < s) by blia. assert (MIN_TICK <= t / s <= MAX_TICK) as Hc.
  { split; [apply Z.div_le_lower_bound|apply Z.div_le_upper_bound]; try done;
      unfold MIN_TICK, MAX_TICK in *; nia. }
  split; [|split; [lia|done]]. unfold idiv_euclid.
  destruct (Z.eqb_spec s 0); [lia|]. destruct (Z.ltb_spec 0 s); [|lia].
  apply iop_in. bilia.
Qed.

Lemma word_step_range (c : Z) : MIN_TICK - 128 <= c <= MAX_TICK + 129 ->
  t / s - 128 <= c <= t / s + 129 -> imin I32 <= c * s <= imax I32 /\ imin I32 <= c <= imax I32.
Proof.
  intros Hc Hr. destruct compressed_eq as (_ & Hq & Hb). assert (0 < s) by blia.
  assert (-3000000 <= c * s <= 3000000); [|bilia]. split.
  - transitivity ((t / s - 128) * s); [|apply Z.mul_le_mono_nonneg_r; lia]. blia.
  - transitivity ((t / s + 129) * s); [apply Z.mul_le_mono_nonneg_r; lia|]. blia.
Qed.

Lemma one_word_down :
  let c := t / s in let first := c - c mod 128 in
  (exists c', next_initialized_tick_within_one_word st t s true = Ok (c' * s, true) /\
     first <= c' <= c /\ initialized st c' = true /\ none_between st (c' + 1) c) \/
  (none_between st first c /\
   next_initialized_tick_within_one_word st t s true
     = Ok (Z.min (Z.max (first * s) (usable_lo s * s)) (usable_hi s * s), false)).
Proof.
  intros c first. destruct compressed_eq as (Ec & Hq & Hcb). fold c in Ec, Hq, Hcb.
  pose proof (mod128 c) as Hm. pose proof (load_word_range st (c / 128) Hwf) as Hw.
  pose proof (masked_down (load_word st (c / 128)) (c mod 128) Hw Hm) as Hmask.
  unfold next_initialized_tick_within_one_word.
  rewrite check_spacing_in, check_tick_in, Ec by done. cbn [mbind result_bind].
  rewrite position_eq. unfold isub. rewrite (iop_in U32 (127 - _)) by ilia. cbn [mbind result_bind].
  cbv zeta in Hmask. set (masked := Z.land _ _) in *.
  destruct (masked =? 0); cbn [negb].
  - right. split.
    + intros j Hj. rewrite (word_bit st c j) by (unfold first in *; lia). apply Hmask. lia.
    + rewrite (cast_in I32) by ilia.
      destruct (word_step_range first) as [H1 H2]; [unfold first; lia|unfold first; fold c; lia|].
      unfold imul. fold first. rewrite (iop_in I32 first) by done. cbn [mbind result_bind].
      rewrite iop_in by done. cbn [mbind result_bind mret result_ret].
      rewrite min_usable_eq, max_usable_eq by done. done.
  - left. destruct Hmask as (Hl & Hp & Htb & Hab).
    rewrite leading_zeros_spec by done. set (msb := Z.log2 masked) in *.
    exists (first + msb). split; [|split_and!].
    + rewrite (iop_in U32 msb) by ilia. cbn [mbind result_bind].
      rewrite (iop_in U32 (c mod 128 - msb)) by ilia. cbn [mbind result_bind].
      rewrite (cast_in I32) by ilia.
      replace (c - (c mod 128 - msb)) with (first + msb) by (unfold first; lia).
      destruct (word_step_range (first + msb)) as [H1 H2];
        [unfold first; lia|unfold first; fold c; lia|].
      unfold imul. rewrite iop_in by done. cbn [mbind result_bind]. by rewrite iop_in by done.
    + lia.
    + unfold first. lia.
    + rewrite (word_bit st c) by (unfold first; lia).
      by replace (first + msb - (c - c mod 128)) with msb by (unfold first; lia).
    + intros j Hj. rewrite (word_bit st c) by (unfold first in *; lia).
      apply Hab. unfold first in *. lia.
Qed.

Lemma one_word_up :
  let c := t / s + 1 in let last := c + 127 - c mod 128 in
  (exists c', next_initialized_tick_within_one_word st t s false = Ok (c' * s, true) /\
     c <= c' <= last /\ initialized st c' = true /\ none_between st c (c' - 1)) \/
  (none_between st c last /\
   next_initialized_tick_within_one_word st t s false
     = Ok (Z.min (Z.max (last * s) (usable_lo s * s)) (usable_hi s * s), false)).
Proof.
  intros c last. assert (c = t / s + 1) as Hc by done. destruct compressed_eq as (Ec & Hq & Hcb).
  pose proof (mod128 c) as Hm. pose proof (load_word_range st (c / 128) Hwf) as Hw.
  pose proof (masked_up (load_word st (c / 128)) (c mod 128) Hw Hm) as Hmask.
  unfold next_initialized_tick_within_one_word.
  rewrite check_spacing_in, check_tick_in, Ec by done. cbn [mbind result_bind].
  assert (@iadd AmmError I32 (t / s) 1 = Ok c) as -> by (apply iop_in; unfold c; bilia). cbn [mbind result_bind].
  rewrite position_eq. cbv zeta in Hmask. set (masked := Z.land _ _) in *.
  destruct (masked =? 0); cbn [negb].
  - right. split.
    + intros j Hj. rewrite (word_bit st c j) by (unfold last in *; lia). apply Hmask. lia.
    + unfold isub. rewrite (iop_in U32) by ilia. cbn [mbind result_bind].
      rewrite (cast_in I32) by ilia. replace (c + (127 - c mod 128)) with last by (unfold last; lia).
      destruct (word_step_range last) as [H1 H2]; [unfold last; lia|unfold last; lia|].
      unfold iadd, imul. replace (c + (127 - c mod 128)) with last by (unfold last; lia).
      rewrite (iop_in I32 last) by done. cbn [mbind result_bind].
      rewrite iop_in by done. cbn [mbind result_bind mret result_ret].
      rewrite min_usable_eq, max_usable_eq by done. done.
  - left. destruct Hmask as (Hl & Htb & Hab). set (lsb := trailing_zeros masked) in *.
    exists (c - c mod 128 + lsb). split; [|split_and!].
    + unfold isub. rewrite (iop_in U32) by ilia. cbn [mbind result_bind].
      rewrite (cast_in I32) by ilia. unfold iadd, imul.
      replace (c + (lsb - c mod 128)) with (c - c mod 128 + lsb) by lia.
      destruct (word_step_range (c - c mod 128 + lsb)) as [H1 H2]; [lia|lia|].
      rewrite iop_in by done. cbn [mbind result_bind]. by rewrite iop_in by done.
    + lia.
    + unfold last. lia.
    + rewrite (word_bit st c) by lia.
      by replace (c - c mod 128 + lsb - (c - c mod 128)) with lsb by lia.
    + intros j Hj. rewrite (word_bit st c) by lia. apply Hab. lia.
Qed.
End one_word.

(** ** The scan over several words *)
Lemma none_between_app (st : bitmap) (a b c : Z) :
  none_between st a b -> none_between st (b + 1) c -> none_between st a c.
Proof. intros H1 H2 j Hj. destruct (Z.le_gt_cases j b); [apply H1|apply H2]; lia. Qed.

Lemma none_between_sub (st : bitmap) (a b a' b' : Z) :
  none_between st a b -> a <= a' -> b' <= b -> none_between st a' b'.
Proof. intros H1 Ha Hb j Hj. apply H1. lia. Qed.

Lemma clamp_scaled (s e lo hi : Z) :
  0 < s -> lo <= hi -> Z.min (Z.max (e * s) (lo * s)) (hi * s) = Z.min (Z.max e lo) hi * s.
Proof.
  intros Hs Hlh. rewrite Z.mul_max_distr_nonneg_r, Z.mul_min_distr_nonneg_r by lia. done.
Qed.

Lemma word_start_pred (c : Z) : (c - c mod 128 - 1) - (c - c mod 128 - 1) mod 128 = c - c mod 128 - 128.
Proof.
  pose proof (Z.div_mod c 128 ltac:(done)).
  replace (c - c mod 128 - 1) with (128 * (c / 128 - 1) + 127) by lia.
  destruct (same_word (c / 128 - 1) 127 ltac:(lia)) as [_ ->]. lia.
Qed.

Lemma word_end_succ (c : Z) :
  (c + 127 - c mod 128 + 1) mod 128 = 0.
Proof.
  pose proof (Z.div_mod c 128 ltac:(done)).
  replace (c + 127 - c mod 128 + 1) with (128 * (c / 128 + 1) + 0) by lia.
  by destruct (same_word (c / 128 + 1) 0 ltac:(lia)) as [_ ->].
Qed.

Section scan.
Context (st : bitmap) (s : Z) (Hwf : bitmap_wf st) (Hs : spacing_ok s).
Let lo := usable_lo s.
Let hi := usable_hi s.

Let step_down (n : nat) (t : Z) (res : Z * bool) (c first : Z) : Prop :=
  (exists c', scan_words (S n) st t s true (lo * s) (hi * s) res = Ok (c' * s, true) /\
     c' <= c /\ initialized st c' = true /\ none_between st (c' + 1) c) \/
  (none_between st first c /\ first <= lo /\
   scan_words (S n) st t s true (lo * s) (hi * s) res = Ok (lo * s, false)) \/
  (none_between st first c /\ lo < first <= hi /\
   scan_words (S n) st t s true (lo * s) (hi * s) res
     = scan_words n st (first * s - 1) s true (lo * s) (hi * s) (first * s, false)).

Lemma scan_step_down (n : nat) (t : Z) (res : Z * bool) :
  MIN_TICK <= t <= MAX_TICK -> step_down n t res (t / s) (t / s - (t / s) mod 128).
Proof.
  intros Ht. set (c := t / s). set (first := c - c mod 128). unfold step_down.
  destruct (compressed_eq s t Hs Ht) as (_ & Hq & _). fold c in Hq.
  pose proof (usable_order s Hs) as Hlh. fold lo hi in Hlh. assert (0 < s) as Hpos by blia.
  assert (c <= hi) as Hchi by (apply usable_hi_spec; [done|lia]).
  pose proof (mod128 c) as Hm.
  cbn [scan_words].
  destruct (one_word_down st s t Hwf Hs Ht) as [(c' & -> & Hc' & Hi & Hn)|[Hn ->]].
  - left. exists c'. split; [reflexivity|]. fold c in Hc', Hn. split_and!; [lia|done|done].
  - right. fold c first in Hn |- *. fold lo hi. rewrite clamp_scaled by lia.
    cbn [mbind result_bind].
    replace (Z.min (Z.max first lo) hi) with (Z.max first lo) by (unfold first in *; lia).
    destruct (Z.leb_spec (Z.max first lo * s) (lo * s)) as [Hle|Hgt].
    + left. apply Z.mul_le_mono_pos_r in Hle; [|done]. split_and!; [done|lia|done].
    + right. apply Z.mul_lt_mono_pos_r in Hgt; [|done].
      replace (Z.max first lo) with first by lia.
      assert (lo < first <= hi) as Hf by (unfold first in *; lia).
      split_and!; [done|lia..|]. unfold isub. rewrite iop_in; [done|].
      assert (MIN_TICK <= first * s <= MAX_TICK) by (apply usable_bounds; [done|]; unfold lo, hi in *; lia).
      bilia.
Qed.

Lemma scan_down (n : nat) (t : Z) (res : Z * bool) :
  MIN_TICK <= t <= MAX_TICK ->
  exists e found, scan_words (S n) st t s true (lo * s) (hi * s) res = Ok (e * s, found) /\
    if (found : bool) then initialized st e = true /\ e <= t / s /\ none_between st (e + 1) (t / s)
    else none_between st e (t / s) /\
         (e = lo \/ lo < e <= t / s - (t / s) mod 128 - 128 * Z.of_nat n).
Proof.
  revert t res. induction n as [|n IH]; intros t res Ht;
    match goal with |- context [scan_words (S ?m)] =>
      destruct (scan_step_down m t res Ht) as [(c' & -> & Hc' & Hi & Hn)|[(Hn & Hf & ->)|(Hn & Hf & ->)]]
    end.
  1, 4: by exists c', true.
  1, 3: exists lo, false; split_and!; [done| |by left]; eapply none_between_sub; [exact Hn|lia|lia].
  - exists (t / s - (t / s) mod 128), false. cbn [scan_words]. split_and!; [done..|right; lia].
  - set (c := t / s) in *. set (first := c - c mod 128) in *.
    assert (MIN_TICK <= first * s <= MAX_TICK) by (apply usable_bounds; [done|]; unfold lo, hi in *; lia).
    assert (MIN_TICK <= lo * s <= MAX_TICK).
    { pose proof (usable_order s Hs). apply usable_bounds; [done|]. unfold lo. lia. }
    assert (0 < s) as Hpos by blia.
    assert (lo * s < first * s) by (apply Z.mul_lt_mono_pos_r; [done|lia]).
    assert ((first * s - 1) / s = first - 1) as Hdiv.
    { symmetry. apply (Z.div_unique _ _ _ (s - 1)); lia. }
    destruct (IH (first * s - 1) (first * s, false)) as (e & found & -> & He); [lia|].
    rewrite Hdiv in He.
    exists e, found. split; [done|]. destruct found.
    + destruct He as (Hi & Hle & Hnb). split_and!; [done|unfold first in *; pose proof (mod128 c); lia|].
      eapply none_between_app; [exact Hnb|]. by replace (first - 1 + 1) with first by lia.
    + destruct He as (Hnb & He). split.
      * eapply none_between_app; [exact Hnb|]. by replace (first - 1 + 1) with first by lia.
      * destruct He as [He|He]; [by left|right].
        pose proof (word_start_pred c) as Hw. fold first in Hw. rewrite Hw in He. lia.
Qed.

Let step_up (n : nat) (t : Z) (res : Z * bool) (c last : Z) : Prop :=
  (exists c', scan_words (S n) st t s false (lo * s) (hi * s) res = Ok (c' * s, true) /\
     c < c' /\ initialized st c' = true /\ none_between st (c + 1) (c' - 1)) \/
  (none_between st (c + 1) last /\ hi <= last /\
   scan_words (S n) st t s false (lo * s) (hi * s) res = Ok (hi * s, false)) \/
  (none_between st (c + 1) last /\ lo <= last < hi /\
   scan_words (S n) st t s false (lo * s) (hi * s) res
     = scan_words n st (last * s) s false (lo * s) (hi * s) (last * s, false)).

Lemma scan_step_up (n : nat) (t : Z) (res : Z * bool) :
  MIN_TICK <= t <= MAX_TICK ->
  step_up n t res (t / s) (t / s + 1 + 127 - (t / s + 1) mod 128).
Proof.
  intros Ht. set (c := t / s). set (last := c + 1 + 127 - (c + 1) mod 128). unfold step_up.
  destruct (compressed_eq s t Hs Ht) as (_ & Hq & _). fold c in Hq.
  pose proof (usable_order s Hs) as Hlh. fold lo hi in Hlh. assert (0 < s) as Hpos by blia.
  assert (lo <= c + 1) as Hclo by (apply usable_lo_spec; [done|lia]).
  pose proof (mod128 (c + 1)) as Hm.
  cbn [scan_words].
  destruct (one_word_up st s t Hwf Hs Ht) as [(c' & -> & Hc' & Hi & Hn)|[Hn ->]].
  - left. exists c'. split; [reflexivity|]. fold c in Hc', Hn. split_and!; [lia|done|done].
  - right. fold c last in Hn |- *. fold lo hi. rewrite clamp_scaled by lia.
    cbn [mbind result_bind].
    replace (Z.min (Z.max last lo) hi) with (Z.min last hi) by (unfold last in *; lia).
    destruct (Z.leb_spec (hi * s) (Z.min last hi * s)) as [Hle|Hgt].
    + left. apply Z.mul_le_mono_pos_r in Hle; [|done]. split_and!; [done|lia|done].
    + right. apply Z.mul_lt_mono_pos_r in Hgt; [|done].
      replace (Z.min last hi) with last by lia. split_and!; [done|unfold last; lia|lia|done].
Qed.

Lemma scan_up (n : nat) (t : Z) (res : Z * bool) :
  MIN_TICK <= t <= MAX_TICK ->
  exists e found, scan_words (S n) st t s false (lo * s) (hi * s) res = Ok (e * s, found) /\
    if (found : bool)
    then initialized st e = true /\ t / s < e /\ none_between st (t / s + 1) (e - 1)
    else none_between st (t / s + 1) e /\
         (e = hi \/
          t / s + 1 + 127 - (t / s + 1) mod 128 + 128 * Z.of_nat n <= e < hi).
Proof.
  revert t res. induction n as [|n IH]; intros t res Ht;
    match goal with |- context [scan_words (S ?m)] =>
      destruct (scan_step_up m t res Ht) as [(c' & -> & Hc' & Hi & Hn)|[(Hn & Hf & ->)|(Hn & Hf & ->)]]
    end.
  1, 4: by exists c', true.
  1, 3: exists hi, false; split_and!; [done| |by left]; eapply none_between_sub; [exact Hn|lia|lia].
  - eexists _, false. cbn [scan_words]. split_and!; [done..|right; lia].
  - set (c := t / s) in *. set (last := c + 1 + 127 - (c + 1) mod 128) in *.
    assert (0 < s) as Hpos by blia.
    assert (MIN_TICK <= last * s <= MAX_TICK) by (apply usable_bounds; [done|]; unfold lo, hi in *; lia).
    destruct (IH (last * s) (last * s, false)) as (e & found & -> & He); [done|].
    rewrite Z.div_mul in He by lia.
    exists e, found. split; [done|]. destruct found.
    + destruct He as (Hi & Hle & Hnb). split_and!; [done|unfold last in *; pose proof (mod128 (c + 1)); lia|].
      by eapply none_between_app.
    + destruct He as (Hnb & He). split; [by eapply none_between_app|].
      destruct He as [He|He]; [by left|right].
      pose proof (word_end_succ (c + 1)) as Hw. fold last in Hw. rewrite Hw in He. lia.
Qed.
End scan.

(** ** Histories of flips *)

(** The bitmaps of a pool of spacing [s]: from the empty storage, by successful flips. *)
Inductive flipped (s : Z) : list Z -> bitmap -> Prop :=
| flipped_nil : flipped s [] ∅
| flipped_cons l st t st' b :
    flipped s l st -> flip_tick st t s = Ok (st', b) -> flipped s (t :: l) st'.

Lemma initialized_empty (c : Z) : initialized ∅ c = false.
Proof. unfold initialized, load_word. rewrite lookup_empty. apply Z.testbit_0_l. Qed.

Lemma flip_tick_inv (st st' : bitmap) (t s : Z) (b : bool) :
  flip_tick st t s = Ok (st', b) ->
  spacing_ok s /\ MIN_TICK <= t <= MAX_TICK /\ t = t / s * s.
Proof.
  intros H. unfold flip_tick in H. inv_ok H.
  pose proof (check_spacing_Ok _ _ Hr) as Hs.
  assert (MIN_TICK <= t <= MAX_TICK) as Ht.
  { unfold check_tick in Hr0. apply fail_if_Ok in Hr0.
    destruct (Z.leb_spec MIN_TICK t), (Z.leb_spec t MAX_TICK); done. }
  rewrite tick_rem in Hr1 by done. injection Hr1 as <-.
  apply negb_false_iff, Z.eqb_eq in Hr2.
  destruct (aligned_quot t s Hs Hr2) as [E1 E2]. rewrite E2 in E1. done.
Qed.

Lemma flipped_inv (s : Z) (l : list Z) (st : bitmap) :
  spacing_ok s -> flipped s l st ->
  bitmap_wf st /\ bitmap_usable s st /\
  forall c, initialized st c = Nat.odd (count_occ Z.eq_dec l (c * s)).
Proof.
  intros Hs. induction 1 as [|l st t st' b Hl (Hwf & Hu & IH) Hf].
  { split_and!; [done| |intros; by rewrite initialized_empty].
    intros c. by rewrite initialized_empty. }
  destruct (flip_tick_inv _ _ _ _ _ Hf) as (_ & Ht & Et). rewrite Et in Hf, Ht.
  destruct (flip_tick_spec st (t / s) s Hwf Hs Ht) as (st2 & E & Hwf' & Hini).
  rewrite E in Hf. injection Hf as -> _. split_and!; [done| |].
  - intros c. rewrite Hini. case_decide as Hc; [by subst|]. apply Hu.
  - intros c. rewrite Hini. cbn [count_occ].
    destruct (Z.eq_dec t (c * s)) as [E1|E1], (decide (c = t / s)) as [E2|E2].
    + rewrite Nat.odd_succ, <- Nat.negb_odd, <- IH, E2. done.
    + destruct E2. rewrite E1. rewrite Z.div_mul by blia. done.
    + destruct E1. congruence.
    + apply IH.
Qed.

Lemma initialized_tick (s : Z) (l : list Z) (st : bitmap) (t : Z) :
  spacing_ok s -> flipped s l st -> MIN_TICK <= t <= MAX_TICK ->
  is_initialized st t s = Ok ((Z.rem t s =? 0) && initialized st (t / s)).
Proof. intros. by apply is_initialized_spec. Qed.

(** After any history of flips of a pool, a tick is initialized exactly when
    it was flipped an odd number of times; a flip is accepted exactly on the aligned
    ticks of the range and returns the tick's new flag; and storage holds no empty
    word. *)
Theorem flip_history_exact (s : Z) (l : list Z) (st : bitmap) (t : Z)
    (Hs : 0 < s <= MAX_TICK_SPACING) (Hl : flipped s l st) (Ht : MIN_TICK <= t <= MAX_TICK) :
  is_initialized st t s = Ok (Nat.odd (count_occ Z.eq_dec l t)) /\
  (if Z.rem t s =? 0
   then exists st', flip_tick st t s = Ok (st', negb (Nat.odd (count_occ Z.eq_dec l t)))
   else flip_tick st t s = Err TickNotAligned) /\
  (forall k w, st !! k = Some w -> 0 < w <= imax U128).
Proof.
  destruct (flipped_inv s l st Hs Hl) as (Hwf & Hu & Hc).
  rewrite (initialized_tick s l) by done. split_and!.
  - f_equal. destruct (Z.eqb_spec (Z.rem t s) 0) as [Hr|Hr]; cbn [andb].
    + destruct (aligned_quot t s Hs Hr) as [E1 E2]. rewrite Hc, <- E2, <- E1. done.
    + symmetry. apply not_true_iff_false. intros Ho. apply Hr. clear Hc Hu Hwf.
      induction Hl as [|l st t' st' b Hl IH Hf]; [done|]. cbn [count_occ] in Ho.
      destruct (Z.eq_dec t' t) as [->|]; [|by apply IH].
      destruct (flip_tick_inv _ _ _ _ _ Hf) as (_ & _ & ->). by apply rem_aligned.
  - destruct (Z.eqb_spec (Z.rem t s) 0) as [Hr|Hr].
    + destruct (aligned_quot t s Hs Hr) as [E1 E2]. rewrite E2 in E1.
      rewrite E1 in Ht. destruct (flip_tick_spec st (t / s) s Hwf Hs Ht) as (st' & E & _).
      rewrite <- E1, Hc, <- E1 in E. by exists st'.
    + unfold flip_tick. rewrite check_spacing_in, check_tick_in by done. cbn [mbind result_bind].
      rewrite tick_rem by done. cbn [mbind result_bind].
      destruct (Z.eqb_spec (Z.rem t s) 0); [done|reflexivity].
  - intros k w Hk. apply Hwf in Hk. cbn [imax]. lia.
Qed.

(** A spacing of 60, two flips of 600 and one of -120. *)
Definition three_flips : bitmap := {[ -1 := 2 ^ 126 ]}.

Lemma three_flips_reachable : flipped 60 [600; -120; 600] three_flips.
Proof.
  apply (flipped_cons 60 [-120; 600] {[ 0 := 2 ^ 10; -1 := 2 ^ 126 ]} 600 three_flips false);
    [|vm_compute; reflexivity].
  apply (flipped_cons 60 [600] {[ 0 := 2 ^ 10 ]} (-120) _ true); [|vm_compute; reflexivity].
  apply (flipped_cons 60 [] ∅ 600 _ true); [constructor|vm_compute; reflexivity].
Qed.

Lemma flip_history_exact_witness :
  is_initialized three_flips (-120) 60 = Ok true /\
  (exists st', flip_tick three_flips (-120) 60 = Ok (st', false)) /\
  (forall k w, three_flips !! k = Some w -> 0 < w <= imax U128).
Proof.
  destruct (flip_history_exact 60 [600; -120; 600] three_flips (-120)) as (H1 & H2 & H3);
    [vm_compute; split; congruence|exact three_flips_reachable|vm_compute; split; congruence|].
  split; [exact H1|]. split; [exact H2|exact H3].
Defined.

Lemma tick_found (s : Z) (st : bitmap) (c : Z) :
  spacing_ok s -> bitmap_usable s st -> initialized st c = true ->
  is_initialized st (c * s) s = Ok true.
Proof.
  intros Hs Hu Hc. rewrite is_initialized_spec by auto.
  rewrite rem_aligned, Z.div_mul, Hc by (done || blia). done.
Qed.

Lemma tick_clear (s : Z) (st : bitmap) (t : Z) :
  spacing_ok s -> MIN_TICK <= t <= MAX_TICK ->
  (t = t / s * s -> initialized st (t / s) = false) -> is_initialized st t s = Ok false.
Proof.
  intros Hs Ht Hc. rewrite is_initialized_spec by done. f_equal.
  destruct (Z.eqb_spec (Z.rem t s) 0) as [Hr|]; [cbn|done].
  apply Hc. destruct (aligned_quot t s Hs Hr) as [E1 E2]. by rewrite <- E2.
Qed.

(** [t] lies strictly between [tick] and [n] in the direction of the search. *)
Definition passed (lte : bool) (tick n t : Z) : Prop :=
  if lte then n < t <= tick else tick < t < n.

(** The search for the next initialized tick is exact. On every bitmap a pool
    can reach it returns, without error or trap, a tick and a flag. With the flag set
    the tick is initialized, on the right side of the start ([<=] going down, [>]
    going up), and nothing initialized was passed on the way. With the flag clear
    nothing is initialized between the start and the returned tick, included; and
    when the scan may read 4689 words or more, nothing at all is initialized in that
    direction. *)
Theorem next_tick_nearest (s : Z) (l : list Z) (st : bitmap) (tick max_words : Z) (lte : bool)
    (Hs : 0 < s <= MAX_TICK_SPACING) (Hl : flipped s l st)
    (Ht : MIN_TICK <= tick <= MAX_TICK) :
  exists n found, next_initialized_tick st tick s lte max_words = Ok (n, found) /\
    (found = true ->
       is_initialized st n s = Ok true /\ (if lte then n <= tick else tick < n)) /\
    (forall t, MIN_TICK <= t <= MAX_TICK ->
       passed lte tick n t \/ (found = false /\ t = n /\ (if lte then t <= tick else tick < t)) \/
       (found = false /\ 4689 <= max_words /\ (if lte then t <= tick else tick < t)) ->
       is_initialized st t s = Ok false).
Proof.
  destruct (flipped_inv s l st Hs Hl) as (Hwf & Hu & _). pose proof (usable_order s Hs).
  pose proof (tick_quot MIN_TICK s Hs ltac:(done)) as Hqlo. fold (usable_lo s) in Hqlo.
  pose proof (tick_quot MAX_TICK s Hs ltac:(done)) as Hqhi. fold (usable_hi s) in Hqhi.
  assert (0 < s) as Hpos by lia. destruct (compressed_eq s tick Hs Ht) as (_ & Hq & Hqb).
  unfold next_initialized_tick.
  rewrite check_spacing_in, min_usable_eq, max_usable_eq by done. cbn [mbind result_bind].
  destruct (Z.to_nat (Z.max max_words 1)) as [|m] eqn:Em; [lia|].
  destruct lte.
  - destruct (scan_down st s Hwf Hs m tick (tick, false) Ht) as (e & found & -> & He).
    exists (e * s), found. split; [done|]. split.
    + intros ->. destruct He as (Hi & Hle & _). split; [by apply tick_found|]. nia.
    + intros t Htr Hcase. apply tick_clear; [done..|]. intros Et.
      destruct found; cbn [passed] in Hcase.
      * destruct He as (_ & _ & Hn). apply Hn. destruct Hcase as [?|[?|?]]; [nia|naive_solver..].
      * destruct He as (Hn & He). destruct (Z.le_gt_cases e (t / s)); [apply Hn; nia|].
        apply not_true_iff_false. intros Hinit%Hu%usable_bounds; [|done].
        assert (t / s * s < e * s) by (apply Z.mul_lt_mono_pos_r; lia).
        assert (4689 <= max_words) by (destruct Hcase as [?|[?|?]]; lia).
        destruct He as [->|He]; [lia|]. pose proof (mod128 (tick / s)). blia.
  - destruct (scan_up st s Hwf Hs m tick (tick, false) Ht) as (e & found & -> & He).
    exists (e * s), found. split; [done|]. split.
    + intros ->. destruct He as (Hi & Hle & _). split; [by apply tick_found|]. nia.
    + intros t Htr Hcase. apply tick_clear; [done..|]. intros Et.
      destruct found; cbn [passed] in Hcase.
      * destruct He as (_ & _ & Hn). apply Hn. destruct Hcase as [?|[?|?]]; [nia|naive_solver..].
      * destruct He as (Hn & He). destruct (Z.le_gt_cases (t / s) e); [apply Hn; nia|].
        apply not_true_iff_false. intros Hinit%Hu%usable_bounds; [|done].
        assert (e * s < t / s * s) by (apply Z.mul_lt_mono_pos_r; lia).
        assert (4689 <= max_words) by (destruct Hcase as [?|[?|?]]; lia).
        destruct He as [->|He]; [lia|]. pose proof (mod128 (tick / s + 1)). blia.
Qed.

Lemma next_tick_nearest_witness :
  exists n found, next_initialized_tick three_flips 299999 60 true 4689 = Ok (n, found) /\
    (found = true -> is_initialized three_flips n 60 = Ok true /\ n <= 299999) /\
    (forall t, MIN_TICK <= t <= MAX_TICK ->
       passed true 299999 n t \/ (found = false /\ t = n /\ t <= 299999) \/
       (found = false /\ 4689 <= 4689 /\ t <= 299999) ->
       is_initialized three_flips t 60 = Ok false).
Proof.
  apply (next_tick_nearest 60 [600; -120; 600] three_flips 299999 4689 true);
    [vm_compute; split; congruence|exact three_flips_reachable|vm_compute; split; congruence].
Defined.

(** It finds the tick -120. *)
Example next_tick_found : next_initialized_tick three_flips 299999 60 true 4689 = Ok (-120, true).
Proof. vm_compute. reflexivity. Qed.
