(* ===== verification/AmmReserves.v ===== *)
(** * AMM: virtual reserve arithmetic

    [contracts/amm/src/virtual_reserves.rs]: the 256-bit product and its division,
    the effective reserves of a pair, the two swap quotes, and the guards on
    withdrawals, outputs and configuration.

    The results: the wide product and the long division are exact
    ([wide_product_correct], [div_256_correct]), a quote pays the largest amount
    that keeps the effective product ([quote_is_largest]), and trading there and
    back never gains ([swap_round_trip]). *)

From stdpp Require Import base numbers list.
From Stdlib Require Import ZArith Lia.
From S2P Require Import Prelude Words.

Open Scope Z_scope.

Record U256 := { u_hi : Z; u_lo : Z }.

#[export] Instance U256_eq_dec : EqDecision U256.
Proof. solve_decision. Defined.

(** [U256::ge] *)
Definition u256_ge (self other : U256) : bool :=
  if negb (u_hi self =? u_hi other) then u_hi other <? u_hi self
  else u_lo other <=? u_lo self.

Inductive VirtualReserveError :=
| VNegativeReserve | VNonPositiveAmount | VVirtualFloorBreached
| VSlippageExceeded | VInvariantViolation | VOverflow.

#[export] Instance VirtualReserveError_eq_dec : EqDecision VirtualReserveError.
Proof. solve_decision. Defined.

Abbreviation V := (result VirtualReserveError).

Record EffectiveReserves := {
  er_x : Z; er_x_eff : Z; er_v_x : Z;
  er_y : Z; er_y_eff : Z; er_v_y : Z
}.

#[export] Instance EffectiveReserves_eq_dec : EqDecision EffectiveReserves.
Proof. solve_decision. Defined.

Definition wide_product (a b : Z) : V U256 :=
  let a := cast U128 a in
  let b := cast U128 b in
  let a_lo := Z.land a MASK64 in
  let a_hi := Z.shiftr a 64 in
  let b_lo := Z.land b MASK64 in
  let b_hi := Z.shiftr b 64 in
  p_ll ← imul U128 a_lo b_lo;
  p_lh ← imul U128 a_lo b_hi;
  p_hl ← imul U128 a_hi b_lo;
  p_hh ← imul U128 a_hi b_hi;
  let '(mid, carry_mid) := overflowing_add U128 p_lh p_hl in
  low ← iadd U128 (Z.shiftr p_ll 64) (Z.land mid MASK64);
  let low_carry := Z.shiftr low 64 in
  mret {| u_hi := wrapping_add U128
            (wrapping_add U128 (wrapping_add U128 p_hh (Z.shiftr mid 64))
               (shl U128 (Z.b2z carry_mid) 64))
            low_carry;
          u_lo := wrapping_add U128 p_ll (shl U128 mid 64) |}.

Definition div_256_by_u128 (value : U256) (divisor : Z) : V (option Z) :=
  if (divisor =? 0) || (divisor <=? u_hi value) then mret None
  else qr ← long_div 128 (u_lo value) divisor (u_hi value) 0; mret (Some qr.1).

Definition wide_mul_div (a b d : Z) : V Z :=
  _ ← fail_if (d <=? 0) VNonPositiveAmount;
  product ← wide_product a b;
  q ← div_256_by_u128 product (cast U128 d);
  quotient ← ok_or q VOverflow;
  _ ← fail_if (imax I128 <? quotient) VOverflow;
  mret (cast I128 quotient).

(** [EffectiveReserves::new] *)
Definition er_new (x y v_x v_y : Z) : V EffectiveReserves :=
  _ ← fail_if ((x <? 0) || (y <? 0)) VNegativeReserve;
  _ ← fail_if ((v_x <=? 0) || (v_y <=? 0)) VNonPositiveAmount;
  x_eff ← ok_or (checked_add I128 x v_x) VOverflow;
  y_eff ← ok_or (checked_add I128 y v_y) VOverflow;
  mret {| er_x := x; er_x_eff := x_eff; er_v_x := v_x;
          er_y := y; er_y_eff := y_eff; er_v_y := v_y |}.

Definition k_eff (self : EffectiveReserves) : V U256 :=
  wide_product (er_x_eff self) (er_y_eff self).

(** [EffectiveReserves { x, y, ..*self }] *)
Definition er_with (self : EffectiveReserves) (x y : Z) : EffectiveReserves :=
  {| er_x := x; er_x_eff := er_x_eff self; er_v_x := er_v_x self;
     er_y := y; er_y_eff := er_y_eff self; er_v_y := er_v_y self |}.

Definition swap_a_to_b (self : EffectiveReserves) (amount_in : Z) :
    V (EffectiveReserves * Z * U256) :=
  _ ← fail_if (amount_in <=? 0) VNonPositiveAmount;
  denominator ← ok_or (checked_add I128 (er_x_eff self) amount_in) VOverflow;
  amount_out ← wide_mul_div (er_y_eff self) amount_in denominator;
  _ ← fail_if (er_y self <? amount_out) VVirtualFloorBreached;
  x ← ok_or (checked_add I128 (er_x self) amount_in) VOverflow;
  y ← ok_or (checked_sub I128 (er_y self) amount_out) VNegativeReserve;
  k ← k_eff self;
  mret (er_with self x y, amount_out, k).

Definition swap_b_to_a (self : EffectiveReserves) (amount_in : Z) :
    V (EffectiveReserves * Z * U256) :=
  _ ← fail_if (amount_in <=? 0) VNonPositiveAmount;
  denominator ← ok_or (checked_add I128 (er_y_eff self) amount_in) VOverflow;
  amount_out ← wide_mul_div (er_x_eff self) amount_in denominator;
  _ ← fail_if (er_x self <? amount_out) VVirtualFloorBreached;
  x ← ok_or (checked_sub I128 (er_x self) amount_out) VNegativeReserve;
  y ← ok_or (checked_add I128 (er_y self) amount_in) VOverflow;
  k ← k_eff self;
  mret (er_with self x y, amount_out, k).

Definition assert_k_eff_not_decreased (before after : U256) : V unit :=
  if u256_ge after before then mret tt else Err VInvariantViolation.

Definition initial_lp_shares (x_deposit y_deposit v_x v_y : Z) : V Z :=
  _ ← fail_if ((x_deposit <=? 0) || (y_deposit <=? 0)) VNonPositiveAmount;
  x ← ok_or (checked_add I128 x_deposit v_x) VOverflow;
  y ← ok_or (checked_add I128 y_deposit v_y) VOverflow;
  mret (Z.min x y).

Definition withdrawable (reserve virtual_reserve : Z) : V Z :=
  if reserve <=? virtual_reserve then mret 0 else isub I128 reserve virtual_reserve.

Definition assert_withdrawal_allowed (reserve virtual_reserve amount : Z) : V Z :=
  _ ← fail_if (amount <=? 0) VNonPositiveAmount;
  w ← withdrawable reserve virtual_reserve;
  _ ← fail_if (w <? amount) VVirtualFloorBreached;
  mret amount.

Definition assert_withdrawal_allowed_both_sides (reserves : EffectiveReserves)
    (amount_x amount_y : Z) : V unit :=
  _ ← assert_withdrawal_allowed (er_x reserves) (er_v_x reserves) amount_x;
  _ ← assert_withdrawal_allowed (er_y reserves) (er_v_y reserves) amount_y;
  mret tt.

Definition assert_min_amount_out (amount_out min_amount_out : Z) : V unit :=
  fail_if (amount_out <? min_amount_out) VSlippageExceeded.

Definition validate_virtual_reserves (x y v_x v_y : Z) : V unit :=
  _ ← fail_if ((x <? 0) || (y <? 0)) VNegativeReserve;
  fail_if ((v_x <=? 0) || (v_y <=? 0)) VNonPositiveAmount.

(** ** The wide product *)
Definition u256_value (u : U256) : Z := u_hi u * 2 ^ 128 + u_lo u.

Lemma wide_product_correct (a b : Z) :
  0 <= a <= imax I128 -> 0 <= b <= imax I128 ->
  exists u, wide_product a b = Ok u /\ u256_value u = a * b /\
    0 <= u_hi u < 2 ^ 128 /\ 0 <= u_lo u < 2 ^ 128.
Proof.
  intros Ha Hb. cbn [imax] in Ha, Hb. unfold wide_product.
  rewrite !(cast_in U128) by (cbn [imin imax]; lia).
  assert (0 <= a < 2 ^ 128) as Ha' by lia. assert (0 <= b < 2 ^ 128) as Hb' by lia.
  clear Ha Hb. rename Ha' into Ha, Hb' into Hb.
  destruct (limb_ranges a b Ha Hb) as [[Hal Hah] [Hbl Hbh]].
  rewrite !land_mask64, !shiftr_64 by lia.
  rewrite (limb_mul (a mod 2 ^ 64) (b mod 2 ^ 64)), (limb_mul (a mod 2 ^ 64) (b / 2 ^ 64)),
    (limb_mul (a / 2 ^ 64) (b mod 2 ^ 64)), (limb_mul (a / 2 ^ 64) (b / 2 ^ 64)) by done.
  cbn [mbind result_bind overflowing_add].
  set (cross := a mod 2 ^ 64 * (b / 2 ^ 64) + a / 2 ^ 64 * (b mod 2 ^ 64)).
  pose proof (cross_split a b Ha Hb) as (_ & Hm & Hc). fold cross in Hm, Hc.
  pose proof (product_split a b Ha Hb) as (Hp & Hs & Hlo & Hhi). fold cross in Hp, Hs, Hlo, Hhi.
  pose proof (wide_words a b Ha Hb) as [Ehi Elo]. fold cross in Ehi, Elo.
  rewrite land_mask64, !shiftr_64 by lia.
  unfold iadd. rewrite iop_in by (cbn [imin imax]; lia). cbn [mbind result_bind].
  rewrite shiftr_64, Ehi, Elo. eexists. split; [reflexivity|]. unfold u256_value. cbn [u_hi u_lo].
  split_and!; [|lia..]. rewrite Hp. lia.
Qed.

(** ** 256-bit multiply-divide *)
Lemma wide_mul_div_correct (a b d : Z) :
  0 <= a <= imax I128 -> 0 <= b <= imax I128 -> 0 < d <= imax I128 ->
  wide_mul_div a b d = if a * b / d <=? imax I128 then Ok (a * b / d) else Err VOverflow.
Proof.
  intros Ha Hb Hd. cbn [imax] in Hd. unfold wide_mul_div.
  destruct (Z.leb_spec d 0); [lia|]. cbn [fail_if mbind result_bind].
  destruct (wide_product_correct a b Ha Hb) as (u & -> & Hv & Hhi & Hlo). cbn [mbind result_bind].
  rewrite cast_in by (cbn [imin imax]; lia). unfold div_256_by_u128.
  destruct (Z.eqb_spec d 0); [lia|]. cbn [orb]. rewrite <- Hv. unfold u256_value.
  destruct (Z.leb_spec d (u_hi u)) as [Hge|Hlt]; cbn [mret result_ret mbind result_bind ok_or].
  - destruct (Z.leb_spec ((u_hi u * 2 ^ 128 + u_lo u) / d) (imax I128)) as [Hc|]; [exfalso|done].
    assert (2 ^ 128 <= (u_hi u * 2 ^ 128 + u_lo u) / d).
    { apply Z.div_le_lower_bound; [lia|]. nia. }
    cbn [imax] in Hc. lia.
  - rewrite (long_div_correct 128 (u_lo u) d) by (done || lia).
    change (Z.of_nat 128) with 128. rewrite (Z.mod_small (u_lo u)) by done.
    cbn [mbind result_bind mret result_ret ok_or fst]. rewrite Z.add_0_l.
    set (q := (u_hi u * 2 ^ 128 + u_lo u) / d).
    assert (0 <= q) by (apply Z.div_pos; nia).
    destruct (Z.ltb_spec (imax I128) q), (Z.leb_spec q (imax I128)); try lia; cbn [fail_if mbind result_bind].
    + done.
    + rewrite cast_in by (cbn [imin imax] in *; lia). done.
Qed.

(** ** Valid reserves and quotes *)
Definition er_valid (r : EffectiveReserves) : Prop :=
  0 <= er_x r /\ 0 <= er_y r /\ 0 < er_v_x r /\ 0 < er_v_y r /\
  er_x_eff r = er_x r + er_v_x r /\ er_y_eff r = er_y r + er_v_y r /\
  er_x_eff r <= imax I128 /\ er_y_eff r <= imax I128.

Lemma er_new_Ok (x y v_x v_y : Z) (r : EffectiveReserves) :
  er_new x y v_x v_y = Ok r ->
  er_valid r /\ er_x r = x /\ er_y r = y /\ er_v_x r = v_x /\ er_v_y r = v_y.
Proof.
  intros H. unfold er_new in H. inv_ok H.
  rewrite orb_false_iff, !Z.ltb_ge in Hr. rewrite orb_false_iff, !Z.leb_gt in Hr0.
  apply chk_Some in Hr1 as [-> ?], Hr2 as [-> ?].
  unfold er_valid. cbn [er_x er_x_eff er_v_x er_y er_y_eff er_v_y]. lia.
Qed.

Lemma er_new_cases (x y v_x v_y : Z) :
  er_new x y v_x v_y =
    if (x <? 0) || (y <? 0) then Err VNegativeReserve
    else if (v_x <=? 0) || (v_y <=? 0) then Err VNonPositiveAmount
    else if (x + v_x <=? imax I128) && (y + v_y <=? imax I128) then
      Ok {| er_x := x; er_x_eff := x + v_x; er_v_x := v_x;
            er_y := y; er_y_eff := y + v_y; er_v_y := v_y |}
    else Err VOverflow.
Proof.
  unfold er_new, checked_add, chk, fits.
  destruct (Z.ltb_spec x 0), (Z.ltb_spec y 0); cbn [orb fail_if mbind result_bind]; try done.
  destruct (Z.leb_spec v_x 0), (Z.leb_spec v_y 0); cbn [orb fail_if mbind result_bind]; try done.
  rewrite (proj2 (Z.leb_le (imin I128) (x + v_x))) by (cbn [imin]; lia).
  rewrite (proj2 (Z.leb_le (imin I128) (y + v_y))) by (cbn [imin]; lia). cbn [andb].
  destruct (x + v_x <=? imax I128); cbn [ok_or mbind result_bind andb]; [|done].
  by destruct (y + v_y <=? imax I128).
Qed.

Lemma k_eff_ok (r : EffectiveReserves) :
  er_valid r -> exists k, k_eff r = Ok k /\ u256_value k = er_x_eff r * er_y_eff r.
Proof.
  intros (? & ? & ? & ? & ? & ? & ? & ?).
  destruct (wide_product_correct (er_x_eff r) (er_y_eff r)) as (u & E & Hu & _); [lia|lia|eauto].
Qed.

(** The quote of the formula: [floor(out_eff * amount / (in_eff + amount))]. *)
Definition quote (in_eff out_eff amount : Z) : Z := out_eff * amount / (in_eff + amount).

Lemma quote_bounds (X Y a : Z) :
  0 < X -> 0 < Y -> 0 < a ->
  0 <= quote X Y a < Y /\ X * Y <= (X + a) * (Y - quote X Y a) /\
  (X + a) * (Y - quote X Y a - 1) < X * Y.
Proof.
  intros HX HY Ha. unfold quote.
  pose proof (Z.mul_div_le (Y * a) (X + a) ltac:(lia)).
  pose proof (Z.mul_succ_div_gt (Y * a) (X + a) ltac:(lia)).
  assert (0 <= Y * a / (X + a)) by (apply Z.div_pos; nia).
  assert (Y * a / (X + a) < Y) by (apply Z.div_lt_upper_bound; nia).
  set (q := Y * a / (X + a)) in *. split_and!; nia.
Qed.

Lemma checked_add_cases (a b : Z) (e : VirtualReserveError) :
  0 <= a + b ->
  ok_or (checked_add I128 a b) e = if a + b <=? imax I128 then Ok (a + b) else Err e.
Proof.
  intros H. unfold checked_add, chk, fits. rewrite (proj2 (Z.leb_le (imin I128) _)) by (cbn [imin]; lia).
  cbn [andb]. by destruct (_ <=? imax I128).
Qed.

Lemma checked_sub_in (a b : Z) (e : VirtualReserveError) :
  0 <= b <= a -> a <= imax I128 -> ok_or (checked_sub I128 a b) e = Ok (a - b).
Proof.
  intros H H'. unfold checked_sub, chk, fits.
  rewrite !(proj2 (Z.leb_le _ _)) by (cbn [imin] in *; lia). done.
Qed.

Lemma swap_a_to_b_exact (r : EffectiveReserves) (a : Z) :
  er_valid r -> 0 < a ->
  let out := quote (er_x_eff r) (er_y_eff r) a in
  if er_x_eff r + a <=? imax I128 then
    if out <=? er_y r then
      exists k, k_eff r = Ok k /\
        swap_a_to_b r a = Ok (er_with r (er_x r + a) (er_y r - out), out, k)
    else swap_a_to_b r a = Err VVirtualFloorBreached
  else swap_a_to_b r a = Err VOverflow.
Proof.
  intros Hv Ha out. destruct (k_eff_ok r Hv) as (k & Ek & _).
  destruct Hv as (? & ? & ? & ? & Ex & Ey & ? & ?).
  pose proof (quote_bounds (er_x_eff r) (er_y_eff r) a) as Hq. fold out in Hq.
  unfold swap_a_to_b. destruct (Z.leb_spec a 0); [lia|]. cbn [fail_if mbind result_bind].
  rewrite (checked_add_cases (er_x_eff r)) by lia.
  destruct (Z.leb_spec (er_x_eff r + a) (imax I128)); cbn [mbind result_bind]; [|done].
  rewrite wide_mul_div_correct by (cbn [imax] in *; lia). fold (quote (er_x_eff r) (er_y_eff r) a).
  fold out. destruct (Z.leb_spec out (imax I128)); [|lia]. cbn [mbind result_bind].
  destruct (Z.leb_spec out (er_y r)), (Z.ltb_spec (er_y r) out); try lia;
    cbn [fail_if mbind result_bind]; [|done].
  exists k. split; [done|].
  rewrite checked_add_cases, (checked_sub_in _ out) by lia.
  rewrite (proj2 (Z.leb_le _ (imax I128))) by lia. cbn [mbind result_bind]. by rewrite Ek.
Qed.

Lemma swap_b_to_a_exact (r : EffectiveReserves) (a : Z) :
  er_valid r -> 0 < a ->
  let out := quote (er_y_eff r) (er_x_eff r) a in
  if er_y_eff r + a <=? imax I128 then
    if out <=? er_x r then
      exists k, k_eff r = Ok k /\
        swap_b_to_a r a = Ok (er_with r (er_x r - out) (er_y r + a), out, k)
    else swap_b_to_a r a = Err VVirtualFloorBreached
  else swap_b_to_a r a = Err VOverflow.
Proof.
  intros Hv Ha out. destruct (k_eff_ok r Hv) as (k & Ek & _).
  destruct Hv as (? & ? & ? & ? & Ex & Ey & ? & ?).
  pose proof (quote_bounds (er_y_eff r) (er_x_eff r) a) as Hq. fold out in Hq.
  unfold swap_b_to_a. destruct (Z.leb_spec a 0); [lia|]. cbn [fail_if mbind result_bind].
  rewrite (checked_add_cases (er_y_eff r)) by lia.
  destruct (Z.leb_spec (er_y_eff r + a) (imax I128)); cbn [mbind result_bind]; [|done].
  rewrite wide_mul_div_correct by (cbn [imax] in *; lia). fold (quote (er_y_eff r) (er_x_eff r) a).
  fold out. destruct (Z.leb_spec out (imax I128)); [|lia]. cbn [mbind result_bind].
  destruct (Z.leb_spec out (er_x r)), (Z.ltb_spec (er_x r) out); try lia;
    cbn [fail_if mbind result_bind]; [|done].
  exists k. split; [done|].
  rewrite checked_add_cases, (checked_sub_in _ out) by lia.
  rewrite (proj2 (Z.leb_le _ (imax I128))) by lia. cbn [mbind result_bind]. by rewrite Ek.
Qed.

(** A quote pays the largest amount that does not decrease the effective
    product: the trade moves the reserves by exactly the amounts in and out, keeps
    [(x + v_x) * (y + v_y)], and one unit more would decrease it. It fails with
    [NonPositiveAmount] on an amount that is not positive, with [Overflow] when the
    input leg would exceed [i128::MAX], with [VirtualFloorBreached] when that amount
    is more than the real reserve; no other failure and no trap occurs. *)
Theorem quote_is_largest (x y v_x v_y amount_in : Z) (r : EffectiveReserves)
    (Hr : er_new x y v_x v_y = Ok r) :
  match swap_a_to_b r amount_in with
  | Ok (after, out, _) =>
      0 < amount_in /\ er_x after = x + amount_in /\ er_y after = y - out /\ 0 <= out <= y /\
      (x + v_x) * (y + v_y) <= (er_x after + v_x) * (er_y after + v_y) /\
      (er_x after + v_x) * (er_y after + v_y - 1) < (x + v_x) * (y + v_y)
  | Err VNonPositiveAmount => amount_in <= 0
  | Err VOverflow => 0 < amount_in /\ imax I128 < x + v_x + amount_in
  | Err VVirtualFloorBreached =>
      0 < amount_in /\ (x + v_x) * (y + v_y) <= (x + v_x + amount_in) * (v_y - 1)
  | Err _ => False
  | Panic => False
  end.
Proof.
  apply er_new_Ok in Hr as (Hv & <- & <- & <- & <-).
  destruct (Z.le_gt_cases amount_in 0) as [Hle|Hgt].
  { unfold swap_a_to_b. by destruct (Z.leb_spec amount_in 0); [|lia]. }
  pose proof (swap_a_to_b_exact r amount_in Hv Hgt) as He. cbv zeta in He.
  destruct Hv as (? & ? & ? & ? & Ex & Ey & ? & ?). rewrite <- Ex, <- Ey.
  pose proof (quote_bounds (er_x_eff r) (er_y_eff r) amount_in) as Hq.
  set (out := quote _ _ _) in *.
  destruct (Z.leb_spec (er_x_eff r + amount_in) (imax I128)); [|rewrite He; lia].
  destruct (Z.leb_spec out (er_y r)).
  - destruct He as (k & _ & ->). cbn [er_with er_x er_y].
    replace (er_x r + amount_in + er_v_x r) with (er_x_eff r + amount_in) by lia.
    replace (er_y r - out + er_v_y r) with (er_y_eff r - out) by lia. lia.
  - rewrite He. split; [lia|]. destruct Hq as (_ & Hq & _); [lia..|].
    etrans; [exact Hq|]. apply Z.mul_le_mono_nonneg_l; lia.
Qed.

Definition pair_500 : EffectiveReserves :=
  {| er_x := 500; er_x_eff := 1500; er_v_x := 1000; er_y := 500; er_y_eff := 1500; er_v_y := 1000 |}.

Lemma quote_is_largest_witness :
  er_new 500 500 1000 1000 = Ok pair_500 /\
  match swap_a_to_b pair_500 100 with
  | Ok (after, out, _) =>
      0 < 100 /\ er_x after = 500 + 100 /\ er_y after = 500 - out /\ 0 <= out <= 500 /\
      (500 + 1000) * (500 + 1000) <= (er_x after + 1000) * (er_y after + 1000) /\
      (er_x after + 1000) * (er_y after + 1000 - 1) < (500 + 1000) * (500 + 1000)
  | Err VNonPositiveAmount => 100 <= 0
  | Err VOverflow => 0 < 100 /\ imax I128 < 500 + 1000 + 100
  | Err VVirtualFloorBreached =>
      0 < 100 /\ (500 + 1000) * (500 + 1000) <= (500 + 1000 + 100) * (1000 - 1)
  | Err _ => False
  | Panic => False
  end.
Proof. split; [reflexivity|]. apply (quote_is_largest 500 500 1000 1000 100 pair_500 eq_refl). Defined.

(** Trading there and back never gains: the amount a trader gets back for the
    whole output of a first swap is at most what was paid in. *)
Theorem swap_round_trip (x y v_x v_y amount_in out back : Z)
    (r after r' after' : EffectiveReserves) (k k' : U256)
    (Hr : er_new x y v_x v_y = Ok r)
    (Hswap : swap_a_to_b r amount_in = Ok (after, out, k))
    (Hr' : er_new (er_x after) (er_y after) v_x v_y = Ok r')
    (Hback : swap_b_to_a r' out = Ok (after', back, k')) :
  back <= amount_in /\ x <= er_x after' /\ er_y after' = y.
Proof.
  apply er_new_Ok in Hr as (Hv & <- & <- & <- & <-).
  apply er_new_Ok in Hr' as (Hv' & Ex' & Ey' & Evx' & Evy').
  assert (0 < amount_in /\ 0 < out) as [Hin Hout].
  { unfold swap_a_to_b in Hswap. unfold swap_b_to_a in Hback. inv_ok Hswap. inv_ok Hback. lia. }
  pose proof (swap_a_to_b_exact r amount_in Hv Hin) as He. cbv zeta in He.
  pose proof (swap_b_to_a_exact r' out Hv' Hout) as He'. cbv zeta in He'.
  destruct Hv as (? & ? & ? & ? & Ex & Ey & ? & ?), Hv' as (? & ? & ? & ? & Fx & Fy & ? & ?).
  pose proof (quote_bounds (er_x_eff r) (er_y_eff r) amount_in ltac:(lia) ltac:(lia) Hin) as Hq.
  pose proof (quote_bounds (er_y_eff r') (er_x_eff r') out ltac:(lia) ltac:(lia) Hout) as Hq'.
  set (q := quote (er_x_eff r) _ _) in *. set (q' := quote (er_y_eff r') _ _) in *.
  destruct (_ <=? _) in He; [|congruence]. destruct (q <=? _) in He; [|congruence].
  destruct (_ <=? _) in He'; [|congruence]. destruct (q' <=? _) in He'; [|congruence].
  destruct He as (? & _ & He), He' as (? & _ & He').
  rewrite He in Hswap. injection Hswap as <- <- <-. rewrite He' in Hback. injection Hback as <- <- <-.
  cbn [er_with er_x er_y er_v_x er_v_y] in *.
  assert (q' <= amount_in); [|lia].
  destruct Hq as (_ & Hq1 & _), Hq' as (_ & Hq2 & _).
  assert (er_y_eff r' = er_y_eff r - q) as EY by lia.
  assert (er_x_eff r' = er_x_eff r + amount_in) as EX by lia.
  rewrite EX, EY in Hq2.
  apply (Z.add_le_mono_l _ _ (er_x_eff r)), (Z.mul_le_mono_pos_l _ _ (er_y_eff r)); lia.
Qed.

Lemma swap_round_trip_witness :
  99 <= 100 /\ 500 <= 501 /\ 500 = 500.
Proof.
  apply (swap_round_trip 500 500 1000 1000 100 93 99 pair_500
           {| er_x := 600; er_x_eff := 1500; er_v_x := 1000;
              er_y := 407; er_y_eff := 1500; er_v_y := 1000 |}
           {| er_x := 600; er_x_eff := 1600; er_v_x := 1000;
              er_y := 407; er_y_eff := 1407; er_v_y := 1000 |}
           {| er_x := 501; er_x_eff := 1600; er_v_x := 1000;
              er_y := 500; er_y_eff := 1407; er_v_y := 1000 |}
           {| u_hi := 0; u_lo := 2250000 |} {| u_hi := 0; u_lo := 2251200 |});
    vm_compute; reflexivity.
Defined.

Lemma u256_ge_refl (k : U256) : u256_ge k k = true.
Proof. unfold u256_ge. rewrite Z.eqb_refl. cbn [negb]. apply Z.leb_refl. Qed.

(** The invariant check of a swap compares the old product with itself. The
    record a quote returns as "post-swap effective reserves" still holds the
    effective balances from before the trade ([..*self]), so its [k_eff] is the
    pre-swap one and [assert_k_eff_not_decreased] accepts it whatever the quote paid
    out; what keeps the product is the rounding of the quote, not the check. *)
Theorem swap_k_check_is_vacuous (x y v_x v_y amount_in out : Z)
    (r after : EffectiveReserves) (k_before : U256)
    (Hr : er_new x y v_x v_y = Ok r)
    (Hswap : swap_a_to_b r amount_in = Ok (after, out, k_before)) :
  er_x_eff after <> er_x after + er_v_x after /\
  k_eff after = Ok k_before /\
  (k_after ← k_eff after; assert_k_eff_not_decreased k_before k_after) = Ok tt.
Proof.
  apply er_new_Ok in Hr as (Hv & <- & <- & <- & <-).
  unfold swap_a_to_b in Hswap. inv_ok Hswap. apply Z.leb_gt in Hr.
  apply chk_Some in Hr3 as [-> _]. unfold er_valid in Hv. cbn [er_with er_x er_x_eff er_v_x].
  change (k_eff (er_with _ _ _)) with (k_eff r). rewrite Hr5. cbn [mbind result_bind].
  unfold assert_k_eff_not_decreased. rewrite u256_ge_refl. split_and!; [lia|done|done].
Qed.

Lemma swap_k_check_is_vacuous_witness :
  1500 <> 1600 /\
  k_eff {| er_x := 600; er_x_eff := 1500; er_v_x := 1000;
           er_y := 407; er_y_eff := 1500; er_v_y := 1000 |} = Ok {| u_hi := 0; u_lo := 2250000 |} /\
  (k_after ← k_eff {| er_x := 600; er_x_eff := 1500; er_v_x := 1000;
                      er_y := 407; er_y_eff := 1500; er_v_y := 1000 |};
   assert_k_eff_not_decreased {| u_hi := 0; u_lo := 2250000 |} k_after) = Ok tt.
Proof.
  apply (swap_k_check_is_vacuous 500 500 1000 1000 100 93 pair_500
           {| er_x := 600; er_x_eff := 1500; er_v_x := 1000;
              er_y := 407; er_y_eff := 1500; er_v_y := 1000 |}
           {| u_hi := 0; u_lo := 2250000 |}); vm_compute; reflexivity.
Defined.

(** [div_256_by_u128] is 256-by-128-bit floor division for every divisor up to
    [2^127]: it returns the quotient when that fits 128 bits, which is when the
    divisor exceeds the high word, and [None] otherwise; it never traps. *)
Theorem div_256_correct (value : U256) (divisor : Z)
    (Hhi : 0 <= u_hi value < 2 ^ 128) (Hlo : 0 <= u_lo value < 2 ^ 128)
    (Hd : 0 <= divisor <= 2 ^ 127) :
  div_256_by_u128 value divisor =
    Ok (if decide (divisor <> 0 /\ u256_value value / divisor < 2 ^ 128)
        then Some (u256_value value / divisor) else None).
Proof.
  unfold div_256_by_u128, u256_value. destruct (Z.eqb_spec divisor 0) as [->|Hne]; cbn [orb].
  { by rewrite decide_False by tauto. }
  destruct (Z.leb_spec divisor (u_hi value)) as [Hge|Hlt]; cbn [mret result_ret].
  - rewrite decide_False; [done|]. intros [_ Hc].
    assert (2 ^ 128 <= (u_hi value * 2 ^ 128 + u_lo value) / divisor); [|lia].
    apply Z.div_le_lower_bound; [lia|]. nia.
  - rewrite (long_div_correct 128 (u_lo value) divisor) by (done || lia). change (Z.of_nat 128) with 128.
    rewrite (Z.mod_small (u_lo value)) by done. rewrite Z.add_0_l. cbn [mbind result_bind fst].
    rewrite decide_True; [done|]. split; [done|]. apply Z.div_lt_upper_bound; [lia|]. nia.
Qed.

Lemma div_256_correct_witness :
  div_256_by_u128 {| u_hi := 3; u_lo := 7 |} 5 =
    Ok (if decide (5 <> 0 /\ u256_value {| u_hi := 3; u_lo := 7 |} / 5 < 2 ^ 128)
        then Some (u256_value {| u_hi := 3; u_lo := 7 |} / 5) else None).
Proof. apply div_256_correct; vm_compute; split; congruence. Defined.

(** ** Withdrawals *)
Lemma assert_withdrawal_allowed_Ok (reserve v amount w : Z) :
  0 <= reserve -> 0 < v -> reserve <= imax I128 ->
  assert_withdrawal_allowed reserve v amount = Ok w ->
  w = amount /\ 0 < amount /\ v <= reserve - amount.
Proof.
  intros Hres Hv Hb H. unfold assert_withdrawal_allowed, withdrawable in H. inv_ok H.
  apply Z.leb_gt in Hr. destruct (Z.leb_spec reserve v).
  - injection Hr0 as <-. apply Z.ltb_ge in Hr1. lia.
  - unfold isub in Hr0. apply iop_Ok in Hr0 as [-> _]. apply Z.ltb_ge in Hr1. lia.
Qed.

Lemma withdrawal_both_Ok (r : EffectiveReserves) (ax ay : Z) (u : unit) :
  er_valid r -> assert_withdrawal_allowed_both_sides r ax ay = Ok u ->
  0 < ax /\ er_v_x r <= er_x r - ax /\ 0 < ay /\ er_v_y r <= er_y r - ay.
Proof.
  intros (? & ? & ? & ? & ? & ? & ? & ?) Hok. unfold assert_withdrawal_allowed_both_sides in Hok.
  inv_ok Hok.
  apply assert_withdrawal_allowed_Ok in Hr; [|lia..].
  apply assert_withdrawal_allowed_Ok in Hr0; [|lia..]. lia.
Qed.
