(* ===== verification/AmmFee.v ===== *)
(** * AMM: the adaptive swap fee

    [contracts/amm/src/adaptive_fee_engine.rs]: the dynamic fee in basis points and
    its deduction from an input amount. *)

From stdpp Require Import base numbers.
From Stdlib Require Import ZArith Lia.
From S2P Require Import Prelude AmmPrice.

Open Scope Z_scope.

Definition MAX_DYNAMIC_FEE_BPS : Z := 100.
Definition BPS_DENOMINATOR : Z := 10000.

Record AdaptiveFeeConfig := { f_base : Z; f_scalar : Z }.
Record AppliedFeeSnapshot := { f_swap : Z; fs_v_sigma : Z; ledger_sequence : Z }.

Definition compute_dynamic_fee (f_base v_sigma f_scalar : Z) : M Z :=
  _ ← fail_if (MAX_DYNAMIC_FEE_BPS <? f_base) ArithmeticOverflow;
  dynamic_component ← ok_or (checked_mul U64 v_sigma f_scalar) ArithmeticOverflow;
  total_fee ← ok_or (checked_add U64 f_base dynamic_component) ArithmeticOverflow;
  mret (cast U32 (Z.min total_fee MAX_DYNAMIC_FEE_BPS)).

Definition apply_fee_to_amount_in (amount_in f_swap_bps : Z) : M (Z * Z) :=
  _ ← fail_if (amount_in <=? 0) NonPositiveAmount;
  product ← ok_or (checked_mul I128 amount_in f_swap_bps) ArithmeticOverflow;
  fee_amount ← ok_or (checked_div I128 product BPS_DENOMINATOR) ArithmeticOverflow;
  net_amount_in ← ok_or (checked_sub I128 amount_in fee_amount) ArithmeticOverflow;
  mret (net_amount_in, fee_amount).

Definition is_u32 (z : Z) : Prop := 0 <= z <= imax U32.

(** The formula [min(f_base + v_sigma * f_scalar, 100)]: on [u32] inputs the [u64]
    arithmetic cannot overflow. *)
Lemma compute_dynamic_fee_eq (b v s : Z) :
  is_u32 b -> is_u32 v -> is_u32 s ->
  compute_dynamic_fee b v s =
    if b <=? MAX_DYNAMIC_FEE_BPS then Ok (Z.min (b + v * s) MAX_DYNAMIC_FEE_BPS)
    else Err ArithmeticOverflow.
Proof.
  unfold is_u32, MAX_DYNAMIC_FEE_BPS. intros Hb Hv Hs. unfold compute_dynamic_fee, MAX_DYNAMIC_FEE_BPS.
  destruct (Z.leb_spec b 100), (Z.ltb_spec 100 b); try lia; cbn [fail_if mbind result_bind]; [|done].
  assert (0 <= v * s <= imax U32 * imax U32) as Hvs by (cbn [imax] in *; nia).
  unfold checked_mul, checked_add, chk.
  rewrite (proj2 (fits_spec U64 (v * s))) by (cbn [imin imax] in *; lia). cbn [ok_or mbind result_bind].
  rewrite (proj2 (fits_spec U64 (b + v * s))) by (cbn [imin imax] in *; lia).
  cbn [ok_or mbind result_bind mret result_ret]. f_equal. apply cast_in. cbn [imin imax]. lia.
Qed.

Lemma apply_fee_Ok (a f net fee : Z) :
  0 <= f <= MAX_DYNAMIC_FEE_BPS -> apply_fee_to_amount_in a f = Ok (net, fee) ->
  0 < a /\ fee = a * f / BPS_DENOMINATOR /\ net = a - fee /\ 0 <= fee /\ 0 < net.
Proof.
  unfold MAX_DYNAMIC_FEE_BPS. intros Hf H. unfold apply_fee_to_amount_in in H. inv_ok H.
  apply Z.leb_gt in Hr. apply chk_Some in Hr0 as [-> ?].
  unfold checked_div in Hr1. cbn [BPS_DENOMINATOR Z.eqb] in Hr1. apply chk_Some in Hr1 as [-> ?].
  apply chk_Some in Hr2 as [-> ?].
  assert (0 <= a * f) by nia.
  rewrite Z.quot_div_nonneg by (unfold BPS_DENOMINATOR; lia). unfold BPS_DENOMINATOR.
  assert (0 <= a * f / 10000) by (apply Z.div_pos; lia).
  assert (a * f / 10000 < a) by (apply Z.div_lt_upper_bound; nia). lia.
Qed.

(** The dynamic fee is the documented formula for every [u32] configuration
    and volatility: [min(f_base + v_sigma * f_scalar, 100)] basis points with no
    overflow, so at most 1%, at least the base fee, and monotone in the volatility;
    only a base fee above the cap is refused. A fee deducted from an amount is
    rounded down and leaves a positive net amount. *)
Theorem dynamic_fee_exact (b v v' s : Z) (Hb : is_u32 b) (Hv : is_u32 v) (Hs : is_u32 s)
    (Hv' : is_u32 v') (Hle : v <= v') :
  match compute_dynamic_fee b v s with
  | Ok fee =>
      fee = Z.min (b + v * s) 100 /\ b <= fee <= 100 /\
      (exists fee', compute_dynamic_fee b v' s = Ok fee' /\ fee <= fee') /\
      (forall amount net paid, apply_fee_to_amount_in amount fee = Ok (net, paid) ->
         0 < net <= amount /\ net + paid = amount /\ paid * 10000 <= amount * fee < (paid + 1) * 10000)
  | Err e => e = ArithmeticOverflow /\ 100 < b
  | Panic => False
  end.
Proof.
  pose proof (compute_dynamic_fee_eq b v s Hb Hv Hs) as E1.
  pose proof (compute_dynamic_fee_eq b v' s Hb Hv' Hs) as E2.
  unfold MAX_DYNAMIC_FEE_BPS in *. unfold is_u32 in *.
  rewrite E1. destruct (Z.leb_spec b 100); [|done].
  assert (0 <= v * s <= v' * s) by nia. split; [done|]. split; [lia|]. split; [eexists; split; [exact E2|lia]|].
  intros amount net paid Hap. apply apply_fee_Ok in Hap as (Ha & Ep & En & Hp & Hn);
    [|unfold MAX_DYNAMIC_FEE_BPS; lia].
  pose proof (Z.mul_div_le (amount * Z.min (b + v * s) 100) 10000 ltac:(lia)).
  pose proof (Z.mul_succ_div_gt (amount * Z.min (b + v * s) 100) 10000 ltac:(lia)).
  change BPS_DENOMINATOR with 10000 in Ep. rewrite <- Ep in *. lia.
Qed.

Lemma dynamic_fee_exact_witness :
  match compute_dynamic_fee 20 10 5 with
  | Ok fee =>
      fee = Z.min (20 + 10 * 5) 100 /\ 20 <= fee <= 100 /\
      (exists fee', compute_dynamic_fee 20 25 5 = Ok fee' /\ fee <= fee') /\
      (forall amount net paid, apply_fee_to_amount_in amount fee = Ok (net, paid) ->
         0 < net <= amount /\ net + paid = amount /\ paid * 10000 <= amount * fee < (paid + 1) * 10000)
  | Err e => e = ArithmeticOverflow /\ 100 < 20
  | Panic => False
  end.
Proof. apply (dynamic_fee_exact 20 10 25 5); vm_compute; try split; congruence. Defined.
