(* ===== verification/AmmContract.v ===== *)
(** * AMM: the pool contract

    [contracts/amm/src/lib.rs]: the instance storage of a pair and its entry points,
    over the ledger of the token contracts ([Token.v]). A mutating entry point takes
    the world (the pair's storage and the ledger) and returns the new world with its
    value; on [Err] or a trap the host discards every write, so nothing is returned.

    The source imports its errors as [crate::AmmError] while the enumeration is
    declared as [ContractError]: the two names are one type here. *)

From stdpp Require Import base numbers list gmap strings.
From Stdlib Require Import ZArith Lia.
From S2P Require Import Prelude Host Token Words AmmPrice AmmBitmap AmmReserves AmmFee.

Open Scope Z_scope.

Definition DEFAULT_VIRTUAL_RESERVE : Z := 1000.

Definition map_virtual (err : VirtualReserveError) : AmmError :=
  match err with
  | VVirtualFloorBreached => VirtualFloorBreached
  | VSlippageExceeded => SlippageExceeded
  | VInvariantViolation => InvariantViolation
  | VOverflow => ArithmeticOverflow
  | VNegativeReserve | VNonPositiveAmount => NonPositiveAmount
  end.

Section contract.
Context {H : Host} {T : Tokens H}.

(** The instance storage of a pair, one field per key. *)
Record pool := {
  key_init : bool;
  token_a : option Address;
  token_b : option Address;
  lp_token : option Address;
  res_a : option Z;
  res_b : option Z;
  tot_sh : option Z;
  vres_a : option Z;
  vres_b : option Z;
  fee_cfg : option AdaptiveFeeConfig;
  oracle : option Address;
  feed_sym : option string;
  v_sigma : option Z;
  fee_snap : option AppliedFeeSnapshot
}.

Definition empty_pool : pool := {|
  key_init := false; token_a := None; token_b := None; lp_token := None;
  res_a := None; res_b := None; tot_sh := None; vres_a := None; vres_b := None;
  fee_cfg := None; oracle := None; feed_sym := None; v_sigma := None; fee_snap := None |}.

(** The invocation: who authorised it, the contract's own address, the ledger
    sequence number, and the answer of an oracle contract ([None]: it trapped). *)
Record env := {
  auth : Address -> bool;
  current_contract : Address;
  sequence : Z;
  get_asset_volatility_bps : Address -> string -> option Z
}.

Record world := { pair : pool; ledger : Ledger }.

Definition load_virtual_reserves (p : pool) : Z * Z :=
  (default DEFAULT_VIRTUAL_RESERVE (vres_a p), default DEFAULT_VIRTUAL_RESERVE (vres_b p)).

Definition get_reserves (p : pool) : Z * Z := (default 0 (res_a p), default 0 (res_b p)).
Definition get_total_shares (p : pool) : Z := default 0 (tot_sh p).
Definition get_virtual_reserves (p : pool) : Z * Z := load_virtual_reserves p.
Definition get_effective_reserves (p : pool) : M (Z * Z) :=
  let '(reserve_a, reserve_b) := get_reserves p in
  let '(virtual_a, virtual_b) := load_virtual_reserves p in
  a ← iadd I128 reserve_a virtual_a;
  b ← iadd I128 reserve_b virtual_b;
  mret (a, b).
Definition get_adaptive_fee_config (p : pool) : option AdaptiveFeeConfig := fee_cfg p.
Definition get_applied_fee_snapshot (p : pool) : option AppliedFeeSnapshot := fee_snap p.

(** ** Initialisation *)
Definition initialize_with_virtual_reserves (w : world)
    (tok_a tok_b lp : Address) (virtual_a virtual_b : Z) : M (world * unit) :=
  _ ← fail_if (key_init (pair w)) AlreadyInitialized;
  _ ← map_err map_virtual (validate_virtual_reserves 0 0 virtual_a virtual_b);
  mret ({| pair := {|
             key_init := true; token_a := Some tok_a; token_b := Some tok_b; lp_token := Some lp;
             res_a := Some 0; res_b := Some 0; tot_sh := Some 0;
             vres_a := Some virtual_a; vres_b := Some virtual_b;
             fee_cfg := fee_cfg (pair w); oracle := oracle (pair w);
             feed_sym := feed_sym (pair w); v_sigma := v_sigma (pair w);
             fee_snap := fee_snap (pair w) |};
           ledger := ledger w |}, tt).

Definition initialize (w : world) (tok_a tok_b lp : Address) : M (world * unit) :=
  initialize_with_virtual_reserves w tok_a tok_b lp DEFAULT_VIRTUAL_RESERVE DEFAULT_VIRTUAL_RESERVE.

(** ** The fee engine *)
Definition set_fees (p : pool) (cfg : option AdaptiveFeeConfig) (orc : option Address)
    (sym : option string) (vs : option Z) (snap : option AppliedFeeSnapshot) : pool := {|
  key_init := key_init p; token_a := token_a p; token_b := token_b p; lp_token := lp_token p;
  res_a := res_a p; res_b := res_b p; tot_sh := tot_sh p; vres_a := vres_a p; vres_b := vres_b p;
  fee_cfg := cfg; oracle := orc; feed_sym := sym; v_sigma := vs; fee_snap := snap |}.

Definition set_adaptive_fee_config (w : world) (base scalar : Z)
    (oracle_addr : option Address) (asset_symbol : option string) : M (world * unit) :=
  let p := pair w in
  _ ← fail_if (negb (key_init p)) NotInitialized;
  _ ← fail_if (MAX_DYNAMIC_FEE_BPS <? base) ArithmeticOverflow;
  mret ({| pair := set_fees p (Some {| f_base := base; f_scalar := scalar |})
                     (match oracle_addr with Some a => Some a | None => oracle p end)
                     (match asset_symbol with Some s => Some s | None => feed_sym p end)
                     (v_sigma p) (fee_snap p);
           ledger := ledger w |}, tt).

Definition set_volatility_scalar (w : world) (vs : Z) : M (world * unit) :=
  let p := pair w in
  mret ({| pair := set_fees p (fee_cfg p) (oracle p) (feed_sym p) (Some vs) (fee_snap p);
           ledger := ledger w |}, tt).

(** The stored scalar, else the oracle's answer when one is configured, else 0. *)
Definition current_volatility (e : env) (p : pool) : M Z :=
  match v_sigma p with
  | Some vs => mret vs
  | None =>
      match oracle p, feed_sym p with
      | Some o, Some sym => unwrap (get_asset_volatility_bps e o sym)
      | _, _ => mret 0
      end
  end.

Definition get_dynamic_swap_fee (e : env) (p : pool) : M Z :=
  match fee_cfg p with
  | Some config =>
      vs ← current_volatility e p;
      match compute_dynamic_fee (f_base config) vs (f_scalar config) with
      | Ok fee => mret fee
      | Err _ => mret (f_base config)
      | Panic => Panic
      end
  | None => mret 0
  end.

(** ** Liquidity *)
Definition set_amounts (p : pool) (a b shares : Z) : pool := {|
  key_init := key_init p; token_a := token_a p; token_b := token_b p; lp_token := lp_token p;
  res_a := Some a; res_b := Some b; tot_sh := Some shares; vres_a := vres_a p; vres_b := vres_b p;
  fee_cfg := fee_cfg p; oracle := oracle p; feed_sym := feed_sym p; v_sigma := v_sigma p;
  fee_snap := fee_snap p |}.

Definition set_reserves (p : pool) (a b : Z) : pool := {|
  key_init := key_init p; token_a := token_a p; token_b := token_b p; lp_token := lp_token p;
  res_a := Some a; res_b := Some b; tot_sh := tot_sh p; vres_a := vres_a p; vres_b := vres_b p;
  fee_cfg := fee_cfg p; oracle := oracle p; feed_sym := feed_sym p; v_sigma := v_sigma p;
  fee_snap := fee_snap p |}.

(** The amounts and shares of a deposit. *)
Definition deposit_amounts (reserve_a reserve_b total_shares virtual_a virtual_b : Z)
    (amount_a_desired amount_b_desired min_lp_mint : Z) : M (Z * Z * Z) :=
  if total_shares =? 0 then
    initial_shares ← map_err map_virtual
      (initial_lp_shares amount_a_desired amount_b_desired virtual_a virtual_b);
    _ ← fail_if (initial_shares <? min_lp_mint) SlippageExceeded;
    mret (amount_a_desired, amount_b_desired, initial_shares)
  else
    effective ← map_err map_virtual (er_new reserve_a reserve_b virtual_a virtual_b);
    pb ← imul I128 amount_a_desired (er_y_eff effective);
    required_b ← idiv I128 pb (er_x_eff effective);
    _ ← fail_if (amount_b_desired <? required_b) InvalidDepositRatio;
    pa ← imul I128 amount_b_desired (er_x_eff effective);
    optimal_a ← idiv I128 pa (er_y_eff effective);
    let '(opt_a, opt_b) := if optimal_a <=? amount_a_desired then (optimal_a, amount_b_desired)
                           else (amount_a_desired, required_b) in
    sa ← imul I128 opt_a total_shares;
    shares_a ← idiv I128 sa reserve_a;
    sb ← imul I128 opt_b total_shares;
    shares_b ← idiv I128 sb reserve_b;
    let shares := Z.min shares_a shares_b in
    _ ← fail_if (shares <? min_lp_mint) SlippageExceeded;
    mret (opt_a, opt_b, shares).

Definition deposit (e : env) (w : world) (provider : Address)
    (amount_a_desired amount_b_desired min_lp_mint : Z) : M (world * Z) :=
  let p := pair w in
  _ ← require_auth (auth e) provider;
  _ ← fail_if ((amount_a_desired <=? 0) || (amount_b_desired <=? 0)) ZeroDeposit;
  token_a_addr ← ok_or (token_a p) NotInitialized;
  token_b_addr ← ok_or (token_b p) NotInitialized;
  lp_token_addr ← ok_or (lp_token p) NotInitialized;
  let '(reserve_a, reserve_b) := get_reserves p in
  let total_shares := get_total_shares p in
  let '(virtual_a, virtual_b) := load_virtual_reserves p in
  '(deposit_a, deposit_b, minted_shares) ←
    deposit_amounts reserve_a reserve_b total_shares virtual_a virtual_b
      amount_a_desired amount_b_desired min_lp_mint;
  l1 ← unwrap (transfer (ledger w) token_a_addr provider (current_contract e) deposit_a);
  l2 ← unwrap (transfer l1 token_b_addr provider (current_contract e) deposit_b);
  l3 ← unwrap (mint l2 lp_token_addr provider minted_shares);
  reserve_a' ← iadd I128 reserve_a deposit_a;
  reserve_b' ← iadd I128 reserve_b deposit_b;
  total_shares' ← iadd I128 total_shares minted_shares;
  mret ({| pair := set_amounts p reserve_a' reserve_b' total_shares'; ledger := l3 |},
        minted_shares).

(** The fee leg of [swap]: the amount the curve sees and the pair with its snapshot. *)
Definition charge_fee (e : env) (p : pool) (amount_in : Z) : M (pool * Z) :=
  match fee_cfg p with
  | Some config =>
      vs ← current_volatility e p;
      fee ← compute_dynamic_fee (f_base config) vs (f_scalar config);
      '(net_in, _) ← apply_fee_to_amount_in amount_in fee;
      let snapshot := {| f_swap := fee; fs_v_sigma := vs; ledger_sequence := sequence e |} in
      mret (set_fees p (fee_cfg p) (oracle p) (feed_sym p) (v_sigma p) (Some snapshot), net_in)
  | None => mret (p, amount_in)
  end.

Definition swap (e : env) (w : world) (trader : Address) (amount_in min_amount_out : Z) :
    M (world * Z) :=
  let p := pair w in
  _ ← require_auth (auth e) trader;
  _ ← fail_if (amount_in <=? 0) ZeroDeposit;
  token_a_addr ← ok_or (token_a p) NotInitialized;
  token_b_addr ← ok_or (token_b p) NotInitialized;
  let '(reserve_a, reserve_b) := get_reserves p in
  _ ← fail_if ((reserve_a <=? 0) || (reserve_b <=? 0)) PoolEmpty;
  let '(virtual_a, virtual_b) := load_virtual_reserves p in
  before ← map_err map_virtual (er_new reserve_a reserve_b virtual_a virtual_b);
  '(p', effective_amount_in) ← charge_fee e p amount_in;
  '(after, amount_out, k_before) ← map_err map_virtual (swap_a_to_b before effective_amount_in);
  _ ← fail_if (amount_out <=? 0) SlippageExceeded;
  _ ← map_err map_virtual (assert_min_amount_out amount_out min_amount_out);
  k_after ← map_err map_virtual (k_eff after);
  _ ← map_err map_virtual (assert_k_eff_not_decreased k_before k_after);
  l1 ← unwrap (transfer (ledger w) token_a_addr trader (current_contract e) amount_in);
  l2 ← unwrap (transfer l1 token_b_addr (current_contract e) trader amount_out);
  mret ({| pair := set_reserves p' (er_x after) (er_y after); ledger := l2 |},
        amount_out).

Definition remove_liquidity (e : env) (w : world) (provider : Address)
    (shares min_amount_a min_amount_b : Z) : M (world * (Z * Z)) :=
  let p := pair w in
  _ ← require_auth (auth e) provider;
  _ ← fail_if (shares <=? 0) NonPositiveAmount;
  token_a_addr ← ok_or (token_a p) NotInitialized;
  token_b_addr ← ok_or (token_b p) NotInitialized;
  lp_token_addr ← ok_or (lp_token p) NotInitialized;
  let '(reserve_a, reserve_b) := get_reserves p in
  let total_shares := get_total_shares p in
  _ ← fail_if ((total_shares <=? 0) || (total_shares <? shares)) InvalidDepositRatio;
  let '(virtual_a, virtual_b) := load_virtual_reserves p in
  reserves ← map_err map_virtual (er_new reserve_a reserve_b virtual_a virtual_b);
  pa ← imul I128 shares reserve_a;
  amount_a ← idiv I128 pa total_shares;
  pb ← imul I128 shares reserve_b;
  amount_b ← idiv I128 pb total_shares;
  _ ← fail_if ((amount_a <=? 0) || (amount_b <=? 0)) NonPositiveAmount;
  _ ← map_err map_virtual (assert_withdrawal_allowed_both_sides reserves amount_a amount_b);
  _ ← fail_if ((amount_a <? min_amount_a) || (amount_b <? min_amount_b)) SlippageExceeded;
  l1 ← unwrap (burn (ledger w) lp_token_addr provider shares);
  l2 ← unwrap (transfer l1 token_a_addr (current_contract e) provider amount_a);
  l3 ← unwrap (transfer l2 token_b_addr (current_contract e) provider amount_b);
  reserve_a' ← isub I128 reserve_a amount_a;
  reserve_b' ← isub I128 reserve_b amount_b;
  total_shares' ← isub I128 total_shares shares;
  mret ({| pair := set_amounts p reserve_a' reserve_b' total_shares'; ledger := l3 |},
        (amount_a, amount_b)).

(** The tick entry points. *)
Definition tick_price (tick : Z) : M Z := tick_to_price_q64 tick.
Definition next_initialized_tick (st : bitmap) (tick tick_spacing : Z) (lte : bool)
    (max_words : Z) : M (Z * bool) :=
  AmmBitmap.next_initialized_tick st tick tick_spacing lte max_words.

(** ** Histories *)
Inductive call :=
| Initialize (tok_a tok_b lp : Address)
| InitializeWithVirtualReserves (tok_a tok_b lp : Address) (virtual_a virtual_b : Z)
| SetAdaptiveFeeConfig (base scalar : Z) (oracle_addr : option Address) (sym : option string)
| SetVolatilityScalar (vs : Z)
| Deposit (provider : Address) (amount_a_desired amount_b_desired min_lp_mint : Z)
| Swap (trader : Address) (amount_in min_amount_out : Z)
| RemoveLiquidity (provider : Address) (shares min_amount_a min_amount_b : Z).

Definition world_of {A : Type} (r : M (world * A)) : M world := fst <$> r.

Definition run (e : env) (w : world) (c : call) : M world :=
  match c with
  | Initialize a b lp => world_of (initialize w a b lp)
  | InitializeWithVirtualReserves a b lp va vb =>
      world_of (initialize_with_virtual_reserves w a b lp va vb)
  | SetAdaptiveFeeConfig base scalar o s => world_of (set_adaptive_fee_config w base scalar o s)
  | SetVolatilityScalar vs => world_of (set_volatility_scalar w vs)
  | Deposit provider a b m => world_of (deposit e w provider a b m)
  | Swap trader a m => world_of (swap e w trader a m)
  | RemoveLiquidity provider s ma mb => world_of (remove_liquidity e w provider s ma mb)
  end.

(** The world after a call; an [Err] or a trap rolls the call back. *)
Definition after_call (w : world) (r : M world) : world :=
  match r with Ok w' => w' | _ => w end.

Definition replay (w : world) (h : list (env * call)) : world :=
  foldl (fun w ec => after_call w (run ec.1 w ec.2)) w h.
End contract.
