(* ===== verification/AmmTheorems.v ===== *)
(** * AMM: the theorems of the pool contract

    What a history of calls keeps: the contract owns its recorded reserves
    ([amm_solvent]), swaps never decrease the effective product ([amm_swap_exact]),
    liquidity leaves only down to the virtual core ([amm_core_floor]), shares are not
    diluted ([amm_shares_not_diluted]); and one state no call ever leaves
    ([amm_drained_pool_stuck]). *)

From stdpp Require Import base numbers list gmap strings relations.
From Stdlib Require Import ZArith Lia.
From S2P Require Import Prelude Host Token Words AmmPrice AmmBitmap AmmReserves AmmFee AmmContract.

Open Scope Z_scope.

Abbreviation ra p := (default 0 (res_a p)).
Abbreviation rb p := (default 0 (res_b p)).
Abbreviation va p := (default DEFAULT_VIRTUAL_RESERVE (vres_a p)).
Abbreviation vb p := (default DEFAULT_VIRTUAL_RESERVE (vres_b p)).
Abbreviation ts p := (default 0 (tot_sh p)).

Section effects.
Context {H : Host} {T : Tokens H}.

(** ** What each call did, when it returned *)

(** The fields no call but [initialize] writes. *)
Definition same_pair (p p' : pool) : Prop :=
  key_init p' = key_init p /\ token_a p' = token_a p /\ token_b p' = token_b p /\
  vres_a p' = vres_a p /\ vres_b p' = vres_b p.

Definition same_amounts (p p' : pool) : Prop :=
  res_a p' = res_a p /\ res_b p' = res_b p /\ tot_sh p' = tot_sh p.

Lemma compute_fee_range (b v s f : Z) :
  compute_dynamic_fee b v s = Ok f -> 0 <= f <= MAX_DYNAMIC_FEE_BPS.
Proof.
  intros Hf. unfold compute_dynamic_fee in Hf. inv_ok Hf. apply chk_Some in Hr1 as [-> ?].
  unfold MAX_DYNAMIC_FEE_BPS. rewrite cast_in; cbn [imin imax] in *; lia.
Qed.

(** The fee charged is the one [get_dynamic_swap_fee] advertises. *)
Lemma charge_fee_Ok (e : env) (p p' : pool) (a n : Z) :
  0 < a -> charge_fee e p a = Ok (p', n) ->
  same_pair p p' /\ same_amounts p p' /\
  exists f, get_dynamic_swap_fee e p = Ok f /\ 0 <= f <= MAX_DYNAMIC_FEE_BPS /\
    n = a - a * f / BPS_DENOMINATOR /\ 0 < n <= a /\
    (fee_cfg p <> None -> exists v, current_volatility e p = Ok v /\ fee_snap p' =
       Some {| f_swap := f; fs_v_sigma := v; ledger_sequence := sequence e |}).
Proof.
  intros Ha Hc. unfold charge_fee, get_dynamic_swap_fee in *. destruct (fee_cfg p) as [cfg|] eqn:Ecfg.
  - apply bind_Ok in Hc as (v & Hv & Hc). apply bind_Ok in Hc as (f & Hf & Hc).
    apply bind_Ok in Hc as ([net paid] & Hn & Hc). injection Hc as <- <-.
    split; [done|]. split; [done|]. exists f. rewrite Hv. cbn [mbind result_bind]. rewrite Hf.
    pose proof (compute_fee_range _ _ _ _ Hf) as Hfr.
    apply apply_fee_Ok in Hn as (_ & -> & -> & ? & ?); [|done]. split_and!; [done|lia..|].
    intros _. by exists v.
  - injection Hc as <- <-. split; [done|]. split; [done|]. exists 0.
    unfold MAX_DYNAMIC_FEE_BPS. rewrite Z.mul_0_r, Z.div_0_l by done. split_and!; done || lia.
Qed.

Lemma swap_Ok (e : env) (w w' : world) (trader : Address) (a m out : Z) :
  swap e w trader a m = Ok (w', out) ->
  let p := pair w in let p' := pair w' in
  exists t_a t_b f l1, token_a p = Some t_a /\ token_b p = Some t_b /\
    auth e trader = true /\ get_dynamic_swap_fee e p = Ok f /\ 0 <= f <= MAX_DYNAMIC_FEE_BPS /\
    let n := a - a * f / BPS_DENOMINATOR in
    0 < n <= a /\ 0 < ra p /\ 0 < rb p /\ 0 < va p /\ 0 < vb p /\
    out = quote (ra p + va p) (rb p + vb p) n /\ 0 < out <= rb p /\ m <= out /\
    same_pair p p' /\ res_a p' = Some (ra p + n) /\ res_b p' = Some (rb p - out) /\
    tot_sh p' = tot_sh p /\
    (fee_cfg p <> None -> exists v, current_volatility e p = Ok v /\ fee_snap p' =
       Some {| f_swap := f; fs_v_sigma := v; ledger_sequence := sequence e |}) /\
    transfer (ledger w) t_a trader (current_contract e) a = Some l1 /\
    transfer l1 t_b (current_contract e) trader out = Some (ledger w').
Proof.
  intros Hs p p'. subst p p'. unfold swap, get_reserves, load_virtual_reserves in Hs.
  destruct w as [p l]. cbn [pair ledger] in *.
  apply bind_Ok in Hs as (? & Hauth%require_auth_Ok & Hs).
  apply bind_Ok in Hs as (? & Ha%fail_if_Ok & Hs). apply Z.leb_gt in Ha.
  apply bind_Ok in Hs as (t_a & Hta%ok_or_Ok & Hs). apply bind_Ok in Hs as (t_b & Htb%ok_or_Ok & Hs).
  apply bind_Ok in Hs as (? & Hres%fail_if_Ok & Hs). rewrite orb_false_iff, !Z.leb_gt in Hres.
  apply bind_Ok in Hs as (before & Hb%map_err_Ok & Hs).
  apply er_new_Ok in Hb as (Hv & Ex & Ey & Evx & Evy).
  apply bind_Ok in Hs as ([p1 n] & Hf & Hs).
  destruct (charge_fee_Ok _ _ _ _ _ Ha Hf) as (Hsame & (_ & _ & Hts) & f & Hadv & Hfr & En & Hn & Hsnap).
  apply bind_Ok in Hs as ([[after out'] k] & Hq%map_err_Ok & Hs).
  pose proof (swap_a_to_b_exact before n Hv ltac:(lia)) as Hex. cbv zeta in Hex.
  destruct (_ <=? imax I128) in Hex; [|congruence].
  destruct (Z.leb_spec (quote (er_x_eff before) (er_y_eff before) n) (er_y before)) in Hex; [|congruence].
  destruct Hex as (k' & _ & Hex). rewrite Hex in Hq. injection Hq as <- <- <-.
  apply bind_Ok in Hs as (? & Hpos%fail_if_Ok & Hs). apply Z.leb_gt in Hpos.
  apply bind_Ok in Hs as (? & Hmin%map_err_Ok & Hs). apply fail_if_Ok, Z.ltb_ge in Hmin.
  apply bind_Ok in Hs as (? & _ & Hs). apply bind_Ok in Hs as (? & _ & Hs).
  apply bind_Ok in Hs as (l1 & Hl1%unwrap_Ok & Hs). apply bind_Ok in Hs as (l2 & Hl2%unwrap_Ok & Hs).
  injection Hs as <- <-. cbn [pair ledger er_with er_x er_y set_reserves res_a res_b tot_sh fee_snap] in *.
  destruct Hv as (? & ? & ? & ? & Exx & Eyy & ? & ?).
  rewrite Ex, Evx in Exx. rewrite Ey, Evy in Eyy. rewrite Exx, Eyy, ?Ex, ?Ey in *.
  exists t_a, t_b, f, l1. rewrite <- En. split_and!; try done; lia.
Qed.

Lemma idiv_Ok (a b q : Z) : @idiv AmmError I128 a b = Ok q -> b <> 0 /\ q = Z.quot a b.
Proof.
  unfold idiv. destruct (Z.eqb_spec b 0); [done|]. intros [-> _]%iop_Ok. done.
Qed.

(** The amounts of a deposit: the first mints against the core, a later one takes at
    most what was offered and mints in proportion to both real reserves. *)
Lemma deposit_amounts_Ok (rsa rsb tot v_a v_b a b m da db minted : Z) :
  0 < a -> 0 < b -> 0 <= rsa -> 0 <= rsb -> 0 <= tot -> 0 < v_a -> 0 < v_b ->
  deposit_amounts rsa rsb tot v_a v_b a b m = Ok (da, db, minted) ->
  0 <= da <= a /\ 0 <= db <= b /\ m <= minted /\
  (if tot =? 0 then da = a /\ db = b /\ minted = Z.min (a + v_a) (b + v_b) /\ 0 < minted
   else 0 < rsa /\ 0 < rsb /\ minted = Z.min (da * tot / rsa) (db * tot / rsb) /\ 0 <= minted).
Proof.
  intros Ha Hb Hra Hrb Htot Hva Hvb Hd. unfold deposit_amounts in Hd.
  destruct (Z.eqb_spec tot 0) as [->|Hne].
  - apply bind_Ok in Hd as (sh & Hsh%map_err_Ok & Hd). unfold initial_lp_shares in Hsh.
    inv_ok Hsh. apply chk_Some in Hr0 as [-> _], Hr1 as [-> _].
    apply bind_Ok in Hd as (? & Hm%fail_if_Ok & Hd). apply Z.ltb_ge in Hm.
    injection Hd as <- <- <-. lia.
  - apply bind_Ok in Hd as (r & Hr%map_err_Ok & Hd). apply er_new_Ok in Hr as (Hv & Ex & Ey & Evx & Evy).
    destruct Hv as (? & ? & ? & ? & Exx & Eyy & ? & ?).
    apply bind_Ok in Hd as (pb & [-> _]%iop_Ok & Hd). apply bind_Ok in Hd as (req & [_ ->]%idiv_Ok & Hd).
    apply bind_Ok in Hd as (? & Hreq%fail_if_Ok & Hd). apply Z.ltb_ge in Hreq.
    apply bind_Ok in Hd as (pa & [-> _]%iop_Ok & Hd). apply bind_Ok in Hd as (opt & [_ ->]%idiv_Ok & Hd).
    rewrite (Z.quot_div_nonneg (a * _)) in * by nia. rewrite (Z.quot_div_nonneg (b * _)) in * by nia.
    assert (0 <= a * er_y_eff r / er_x_eff r) by (apply Z.div_pos; nia).
    assert (0 <= b * er_x_eff r / er_y_eff r) by (apply Z.div_pos; nia).
    assert (exists oa ob, (if b * er_x_eff r / er_y_eff r <=? a then (b * er_x_eff r / er_y_eff r, b)
        else (a, a * er_y_eff r / er_x_eff r)) = (oa, ob) /\ 0 <= oa <= a /\ 0 <= ob <= b) as (oa & ob & E & Hoa & Hob).
    { destruct (Z.leb_spec (b * er_x_eff r / er_y_eff r) a); eexists _, _; split_and!; done || lia. }
    rewrite E in Hd.
    apply bind_Ok in Hd as (sa & [-> _]%iop_Ok & Hd). apply bind_Ok in Hd as (sha & [Hr0 ->]%idiv_Ok & Hd).
    apply bind_Ok in Hd as (sb & [-> _]%iop_Ok & Hd). apply bind_Ok in Hd as (shb & [Hr1 ->]%idiv_Ok & Hd).
    apply bind_Ok in Hd as (? & Hm%fail_if_Ok & Hd). apply Z.ltb_ge in Hm.
    injection Hd as <- <- <-. rewrite !Z.quot_div_nonneg in * by nia.
    assert (0 <= oa * tot / rsa) by (apply Z.div_pos; nia).
    assert (0 <= ob * tot / rsb) by (apply Z.div_pos; nia). split_and!; lia.
Qed.

Lemma deposit_Ok (e : env) (w w' : world) (provider : Address) (a b m minted : Z) :
  let p := pair w in let p' := pair w' in
  0 <= ra p -> 0 <= rb p -> 0 <= ts p -> 0 < va p -> 0 < vb p ->
  deposit e w provider a b m = Ok (w', minted) ->
  exists t_a t_b lp da db l1 l2, token_a p = Some t_a /\ token_b p = Some t_b /\
    auth e provider = true /\ 0 <= da <= a /\ 0 <= db <= b /\ m <= minted /\
    (if ts p =? 0 then da = a /\ db = b /\ minted = Z.min (a + va p) (b + vb p) /\ 0 < minted
     else 0 < ra p /\ 0 < rb p /\ minted = Z.min (da * ts p / ra p) (db * ts p / rb p) /\ 0 <= minted) /\
    same_pair p p' /\ res_a p' = Some (ra p + da) /\ res_b p' = Some (rb p + db) /\
    tot_sh p' = Some (ts p + minted) /\
    transfer (ledger w) t_a provider (current_contract e) da = Some l1 /\
    transfer l1 t_b provider (current_contract e) db = Some l2 /\
    mint l2 lp provider minted = Some (ledger w').
Proof.
  intros p p' Hra Hrb Hts Hva Hvb Hd. subst p p'. destruct w as [p l].
  unfold deposit, get_reserves, get_total_shares, load_virtual_reserves in Hd. cbn [pair ledger] in *.
  apply bind_Ok in Hd as (? & Hauth%require_auth_Ok & Hd).
  apply bind_Ok in Hd as (? & Hz%fail_if_Ok & Hd). rewrite orb_false_iff, !Z.leb_gt in Hz.
  apply bind_Ok in Hd as (t_a & Hta%ok_or_Ok & Hd). apply bind_Ok in Hd as (t_b & Htb%ok_or_Ok & Hd).
  apply bind_Ok in Hd as (lp & Hlp%ok_or_Ok & Hd).
  apply bind_Ok in Hd as ([[da db] sh] & Ham & Hd).
  apply deposit_amounts_Ok in Ham as (Hda & Hdb & Hm & Hsh); [|lia..].
  apply bind_Ok in Hd as (l1 & Hl1%unwrap_Ok & Hd). apply bind_Ok in Hd as (l2 & Hl2%unwrap_Ok & Hd).
  apply bind_Ok in Hd as (l3 & Hl3%unwrap_Ok & Hd).
  apply bind_Ok in Hd as (? & [-> _]%iop_Ok & Hd). apply bind_Ok in Hd as (? & [-> _]%iop_Ok & Hd).
  apply bind_Ok in Hd as (? & [-> _]%iop_Ok & Hd). injection Hd as <- <-.
  exists t_a, t_b, lp, da, db, l1, l2. split_and!; try done; lia.
Qed.

Lemma remove_Ok (e : env) (w w' : world) (provider : Address) (shares ma mb aa ab : Z) :
  let p := pair w in let p' := pair w' in
  remove_liquidity e w provider shares ma mb = Ok (w', (aa, ab)) ->
  exists t_a t_b lp l1 l2, token_a p = Some t_a /\ token_b p = Some t_b /\
    auth e provider = true /\ 0 < shares <= ts p /\
    aa = shares * ra p / ts p /\ ab = shares * rb p / ts p /\ 0 < aa /\ 0 < ab /\
    ma <= aa /\ mb <= ab /\ 0 < va p /\ 0 < vb p /\ va p <= ra p - aa /\ vb p <= rb p - ab /\
    same_pair p p' /\ res_a p' = Some (ra p - aa) /\ res_b p' = Some (rb p - ab) /\
    tot_sh p' = Some (ts p - shares) /\
    burn (ledger w) lp provider shares = Some l1 /\
    transfer l1 t_a (current_contract e) provider aa = Some l2 /\
    transfer l2 t_b (current_contract e) provider ab = Some (ledger w').
Proof.
  intros p p' Hd. subst p p'. destruct w as [p l].
  unfold remove_liquidity, get_reserves, get_total_shares, load_virtual_reserves in Hd. cbn [pair ledger] in *.
  apply bind_Ok in Hd as (? & Hauth%require_auth_Ok & Hd).
  apply bind_Ok in Hd as (? & Hz%fail_if_Ok & Hd). apply Z.leb_gt in Hz.
  apply bind_Ok in Hd as (t_a & Hta%ok_or_Ok & Hd). apply bind_Ok in Hd as (t_b & Htb%ok_or_Ok & Hd).
  apply bind_Ok in Hd as (lp & Hlp%ok_or_Ok & Hd).
  apply bind_Ok in Hd as (? & Hs%fail_if_Ok & Hd). rewrite orb_false_iff, Z.leb_gt, Z.ltb_ge in Hs.
  apply bind_Ok in Hd as (r & Hr%map_err_Ok & Hd). apply er_new_Ok in Hr as (Hv & Ex & Ey & Evx & Evy).
  apply bind_Ok in Hd as (pa & [-> _]%iop_Ok & Hd). apply bind_Ok in Hd as (? & [_ ->]%idiv_Ok & Hd).
  apply bind_Ok in Hd as (pb & [-> _]%iop_Ok & Hd). apply bind_Ok in Hd as (? & [_ ->]%idiv_Ok & Hd).
  apply bind_Ok in Hd as (? & Hpos%fail_if_Ok & Hd). rewrite orb_false_iff, !Z.leb_gt in Hpos.
  apply bind_Ok in Hd as (? & Hw%map_err_Ok & Hd). apply withdrawal_both_Ok in Hw; [|done].
  destruct Hv as (? & ? & ? & ? & _). rewrite !Z.quot_div_nonneg in * by nia.
  apply bind_Ok in Hd as (? & Hmin%fail_if_Ok & Hd). rewrite orb_false_iff, !Z.ltb_ge in Hmin.
  apply bind_Ok in Hd as (l1 & Hl1%unwrap_Ok & Hd). apply bind_Ok in Hd as (l2 & Hl2%unwrap_Ok & Hd).
  apply bind_Ok in Hd as (l3 & Hl3%unwrap_Ok & Hd).
  apply bind_Ok in Hd as (? & [-> _]%iop_Ok & Hd). apply bind_Ok in Hd as (? & [-> _]%iop_Ok & Hd).
  apply bind_Ok in Hd as (? & [-> _]%iop_Ok & Hd). injection Hd as <- <- <-.
  exists t_a, t_b, lp, l1, l2. split_and!; try done; lia.
Qed.
End effects.

Section invariants.
Context {H : Host} {T : Tokens H} {TL : TokenLaws H T}.
Context (self : Address).

(** ** Histories seen by the contract at [self]

    A step is one of its entry points, called by somebody who is not the contract
    itself (the host refuses re-entrance), or a change of the token ledger by other
    contracts, which cannot spend from [self]. *)
Inductive step : world -> world -> Prop :=
| step_call (e : env) (c : call) (w : world) :
    current_contract e = self -> auth e self = false -> step w (after_call w (run e w c))
| step_ledger (w : world) (l' : Ledger) :
    (forall t, balance (ledger w) t self <= balance l' t self) ->
    step w {| pair := pair w; ledger := l' |}.

Definition genesis (l : Ledger) : world := {| pair := empty_pool; ledger := l |}.

Definition reachable (w : world) : Prop :=
  exists l, (forall t, 0 <= balance l t self) /\ rtc step (genesis l) w.

(** The recorded amounts. *)
Definition pool_ok (p : pool) : Prop :=
  0 <= ra p /\ 0 <= rb p /\ 0 <= ts p /\ 0 < va p /\ 0 < vb p /\
  (key_init p = false -> token_a p = None /\ ra p = 0 /\ rb p = 0 /\ ts p = 0).

Definition funded (w : world) : Prop :=
  (forall t, 0 <= balance (ledger w) t self) /\
  forall t_a t_b, token_a (pair w) = Some t_a -> token_b (pair w) = Some t_b -> t_a <> t_b ->
    ra (pair w) <= balance (ledger w) t_a self /\ rb (pair w) <= balance (ledger w) t_b self.

Definition world_ok (w : world) : Prop := pool_ok (pair w) /\ funded w.

(** The balances of [self] after a transfer to or from another account. *)
Lemma transfer_in (l l' : Ledger) (tok from t : Address) (amt : Z) :
  from <> self -> transfer l tok from self amt = Some l' ->
  0 <= amt /\ balance l' t self = balance l t self + (if decide (t = tok) then amt else 0).
Proof.
  intros Hf [Ha Hb]%transfer_spec. split; [lia|]. rewrite Hb. unfold at_account.
  repeat case_decide; naive_solver lia.
Qed.

Lemma transfer_out (l l' : Ledger) (tok to t : Address) (amt : Z) :
  to <> self -> transfer l tok self to amt = Some l' ->
  0 <= amt <= balance l tok self /\
  balance l' t self = balance l t self - (if decide (t = tok) then amt else 0).
Proof.
  intros Hf [Ha Hb]%transfer_spec. split; [lia|]. rewrite Hb. unfold at_account.
  repeat case_decide; naive_solver lia.
Qed.

Lemma mint_other (l l' : Ledger) (tok to t : Address) (amt : Z) :
  to <> self -> mint l tok to amt = Some l' -> balance l' t self = balance l t self.
Proof.
  intros Hf [Ha Hb]%mint_spec. rewrite Hb. unfold at_account. case_decide; naive_solver lia.
Qed.

Lemma burn_other (l l' : Ledger) (tok from t : Address) (amt : Z) :
  from <> self -> burn l tok from amt = Some l' -> balance l' t self = balance l t self.
Proof.
  intros Hf [Ha Hb]%burn_spec. rewrite Hb. unfold at_account. case_decide; naive_solver lia.
Qed.

Lemma init_inv (w w' : world) (a b lp : Address) (v_a v_b : Z) (u : unit) :
  initialize_with_virtual_reserves w a b lp v_a v_b = Ok (w', u) ->
  key_init (pair w) = false /\ 0 < v_a /\ 0 < v_b /\ ledger w' = ledger w /\
  key_init (pair w') = true /\ token_a (pair w') = Some a /\ token_b (pair w') = Some b /\
  ra (pair w') = 0 /\ rb (pair w') = 0 /\ ts (pair w') = 0 /\
  va (pair w') = v_a /\ vb (pair w') = v_b.
Proof.
  intros Hi. unfold initialize_with_virtual_reserves, validate_virtual_reserves in Hi.
  apply bind_Ok in Hi as (? & Hk%fail_if_Ok & Hi).
  apply bind_Ok in Hi as (? & Hv%map_err_Ok & Hi). apply bind_Ok in Hv as (? & _ & Hv).
  apply fail_if_Ok in Hv. rewrite orb_false_iff, !Z.leb_gt in Hv. injection Hi as <-.
  cbn. naive_solver.
Qed.

(** The calls that move no token. *)
Lemma quiet_ok (w w' : world) :
  world_ok w -> same_pair (pair w) (pair w') -> same_amounts (pair w) (pair w') ->
  ledger w' = ledger w -> world_ok w'.
Proof.
  intros [(? & ? & ? & ? & ? & Hi) [Hn Hf]] (E1 & E2 & E3 & E4 & E5) (A1 & A2 & A3) El.
  unfold world_ok, pool_ok, funded. rewrite E1, E2, E3, E4, E5, A1, A2, A3, El. split_and!; done.
Qed.

Lemma pool_ok_after (p p' : pool) (a b s : Z) :
  pool_ok p -> token_a p <> None -> same_pair p p' ->
  res_a p' = Some a -> res_b p' = Some b -> ts p' = s ->
  0 <= a -> 0 <= b -> 0 <= s -> pool_ok p'.
Proof.
  intros (? & ? & ? & ? & ? & Hi) Ht (E1 & E2 & E3 & E4 & E5) A1 A2 A3 ? ? ?.
  unfold pool_ok. rewrite E1, E2, E4, E5, A1, A2, A3. cbn. split_and!; try done.
  intros Hk. destruct (Hi Hk) as (Hn & _). done.
Qed.

Lemma deposit_ok (e : env) (w w' : world) (provider : Address) (a b m minted : Z) :
  current_contract e = self -> auth e self = false -> world_ok w ->
  deposit e w provider a b m = Ok (w', minted) -> world_ok w'.
Proof.
  intros Hself Hauth [Hp [Hn Hf]] Hd. pose proof Hp as (? & ? & ? & ? & ? & _).
  apply deposit_Ok in Hd; [|done..].
  destruct Hd as (t_a & t_b & lp & da & db & l1 & l2 & Ha & Hb & Hpr & Hda & Hdb & _ & Hm & Hsame & A1 & A2 & A3 & L1 & L2 & L3).
  assert (provider <> self) as Hne by (intros ->; congruence). rewrite Hself in *.
  assert (0 <= minted) by (destruct (ts (pair w) =? 0); lia).
  split; [eapply pool_ok_after; [done|by rewrite Ha|done|done|done|by rewrite A3|cbn; lia..]|].
  assert (forall t, balance (ledger w') t self = balance (ledger w) t self
            + (if decide (t = t_a) then da else 0) + (if decide (t = t_b) then db else 0)) as Hbal.
  { intros t. rewrite (mint_other _ _ _ _ t _ Hne L3).
    destruct (transfer_in _ _ _ _ t _ Hne L1) as [_ Ht1], (transfer_in _ _ _ _ t _ Hne L2) as [_ Ht2]. lia. }
  split.
  - intros t. rewrite Hbal. pose proof (Hn t). repeat case_decide; lia.
  - intros x y. destruct Hsame as (_ & -> & -> & _). rewrite Ha, Hb. intros [= <-] [= <-] Hxy.
    rewrite A1, A2, !Hbal. cbn. destruct (Hf t_a t_b Ha Hb Hxy).
    repeat case_decide; try congruence; lia.
Qed.

Lemma swap_ok (e : env) (w w' : world) (trader : Address) (a m out : Z) :
  current_contract e = self -> auth e self = false -> world_ok w ->
  swap e w trader a m = Ok (w', out) -> world_ok w'.
Proof.
  intros Hself Hauth [Hp [Hn Hf]] Hs. pose proof Hp as (? & ? & ? & ? & ? & _).
  apply swap_Ok in Hs.
  destruct Hs as (t_a & t_b & f & l1 & Ha & Hb & Hpr & _ & _ & Hnn & _ & _ & _ & _ & _ & Hout & _ & Hsame & A1 & A2 & A3 & _ & L1 & L2).
  assert (trader <> self) as Hne by (intros ->; congruence). rewrite Hself in *.
  split; [eapply pool_ok_after; [done|by rewrite Ha|done|done|done|by rewrite A3|cbn; lia..]|].
  destruct (transfer_out _ _ _ _ t_b _ Hne L2) as [Hle _].
  assert (forall t, balance (ledger w') t self = balance (ledger w) t self
            + (if decide (t = t_a) then a else 0) - (if decide (t = t_b) then out else 0)) as Hbal.
  { intros t. destruct (transfer_in _ _ _ _ t _ Hne L1) as [_ Ht1], (transfer_out _ _ _ _ t _ Hne L2) as [_ Ht2]. lia. }
  destruct (transfer_in _ _ _ _ t_b _ Hne L1) as [_ Hb1].
  split.
  - intros t. rewrite Hbal. pose proof (Hn t). pose proof (Hn t_b).
    repeat case_decide; subst; try congruence; lia.
  - intros x y. destruct Hsame as (_ & -> & -> & _). rewrite Ha, Hb. intros [= <-] [= <-] Hxy.
    rewrite A1, A2, !Hbal. cbn. destruct (Hf t_a t_b Ha Hb Hxy).
    repeat case_decide; try congruence; lia.
Qed.

Lemma remove_ok (e : env) (w w' : world) (provider : Address) (shares ma mb aa ab : Z) :
  current_contract e = self -> auth e self = false -> world_ok w ->
  remove_liquidity e w provider shares ma mb = Ok (w', (aa, ab)) -> world_ok w'.
Proof.
  intros Hself Hauth [Hp [Hn Hf]] Hr. pose proof Hp as (? & ? & ? & ? & ? & _).
  apply remove_Ok in Hr.
  destruct Hr as (t_a & t_b & lp & l1 & l2 & Ha & Hb & Hpr & Hsh & _ & _ & Haa & Hab & _ & _ & _ & _ & Hca & Hcb & Hsame & A1 & A2 & A3 & L1 & L2 & L3).
  assert (provider <> self) as Hne by (intros ->; congruence). rewrite Hself in *.
  split; [eapply pool_ok_after; [done|by rewrite Ha|done|done|done|by rewrite A3|cbn; lia..]|].
  assert (forall t, balance (ledger w') t self = balance (ledger w) t self
            - (if decide (t = t_a) then aa else 0) - (if decide (t = t_b) then ab else 0)
            /\ 0 <= balance (ledger w') t self) as Hbal.
  { intros t. pose proof (burn_other _ _ _ _ t _ Hne L1) as Hb1. pose proof (Hn t).
    destruct (transfer_out _ _ _ _ t _ Hne L2) as [Ht1 Ht2], (transfer_out _ _ _ _ t _ Hne L3) as [Ht3 Ht4].
    split; [lia|]. rewrite Ht4. case_decide; [subst; lia|]. rewrite Ht2.
    case_decide; [subst; lia|]. lia. }
  split; [intros t; apply Hbal|].
  intros x y. destruct Hsame as (_ & -> & -> & _). rewrite Ha, Hb. intros [= <-] [= <-] Hxy.
  rewrite A1, A2. destruct (Hbal t_a) as [-> _], (Hbal t_b) as [-> _]. cbn.
  destruct (Hf t_a t_b Ha Hb Hxy). repeat case_decide; try congruence; lia.
Qed.

Lemma run_ok (e : env) (w w' : world) (c : call) :
  current_contract e = self -> auth e self = false -> world_ok w ->
  run e w c = Ok w' -> world_ok w'.
Proof.
  intros Hself Hauth Hok Hr.
  assert (forall a b lp v_a v_b u, initialize_with_virtual_reserves w a b lp v_a v_b = Ok (w', u) ->
            world_ok w') as Hinit.
  { intros a b lp v_a v_b u Hi. apply init_inv in Hi as (_ & ? & ? & El & Ek & Ea & Eb & Era & Erb & Ets & Eva & Evb).
    destruct Hok as [_ [Hn _]]. split.
    - unfold pool_ok. rewrite Era, Erb, Ets, Eva, Evb, Ek. split_and!; done || lia.
    - split; [by rewrite El|]. intros t_a t_b _ _ _. rewrite El, Era, Erb. pose proof (Hn t_a). auto. }
  destruct c; cbn [run] in Hr; unfold world_of in Hr.
  - destruct (initialize _ _ _ _) as [[w1 u]| |] eqn:E; [injection Hr as <-|done..]. by eapply Hinit.
  - destruct (initialize_with_virtual_reserves _ _ _ _ _ _) as [[w1 u]| |] eqn:E; [injection Hr as <-|done..].
    by eapply Hinit.
  - destruct (set_adaptive_fee_config _ _ _ _ _) as [[w1 u]| |] eqn:E; [injection Hr as <-|done..].
    unfold set_adaptive_fee_config in E. inv_ok E. by eapply quiet_ok.
  - injection Hr as <-. by eapply quiet_ok.
  - destruct (deposit _ _ _ _ _ _) as [[w1 u]| |] eqn:E; [injection Hr as <-|done..]. by eapply deposit_ok.
  - destruct (swap _ _ _ _ _) as [[w1 u]| |] eqn:E; [injection Hr as <-|done..]. by eapply swap_ok.
  - destruct (remove_liquidity _ _ _ _ _ _) as [[w1 [aa ab]]| |] eqn:E; [injection Hr as <-|done..].
    by eapply remove_ok.
Qed.

Lemma step_ok (w w' : world) : step w w' -> world_ok w -> world_ok w'.
Proof.
  intros Hs Hok. destruct Hs as [e c w Hself Hauth|w l' Hl].
  - destruct (run e w c) as [w'| |] eqn:E; cbn [after_call]; [by eapply run_ok|done..].
  - destruct Hok as [Hp [Hn Hf]]. split; [done|]. split; cbn [pair ledger].
    + intros t. pose proof (Hn t). pose proof (Hl t). lia.
    + intros t_a t_b Ha Hb Hne. destruct (Hf t_a t_b Ha Hb Hne).
      pose proof (Hl t_a). pose proof (Hl t_b). lia.
Qed.

Lemma steps_ok (w w' : world) : rtc step w w' -> world_ok w -> world_ok w'.
Proof. induction 1; eauto using step_ok. Qed.

Lemma reachable_ok (w : world) : reachable w -> world_ok w.
Proof.
  intros (l & Hl & Hs). eapply steps_ok; [exact Hs|]. split.
  - unfold pool_ok. cbn. unfold DEFAULT_VIRTUAL_RESERVE. split_and!; done || lia.
  - split; [done|]. by intros.
Qed.

(** Once shares exist they always do. *)
Lemma step_shares (w w' : world) : step w w' -> world_ok w -> 0 < ts (pair w) -> 0 < ts (pair w').
Proof.
  intros Hs [Hp Hf] Hts. pose proof Hp as (? & ? & ? & ? & ? & Hi).
  destruct Hs as [e c w Hself Hauth|w l' Hl]; [|done].
  destruct (run e w c) as [w'| |] eqn:Hr; cbn [after_call]; [|done..].
  assert (forall a b lp v_a v_b u, initialize_with_virtual_reserves w a b lp v_a v_b = Ok (w', u) ->
            0 < ts (pair w')) as Hinit.
  { intros a b lp v_a v_b u E. apply init_inv in E as (Hk & _). destruct (Hi Hk) as (_ & _ & _ & Hz). lia. }
  destruct c; cbn [run] in Hr; unfold world_of in Hr.
  - destruct (initialize _ _ _ _) as [[w1 u]| |] eqn:E; [injection Hr as <-|done..]. by eapply Hinit.
  - destruct (initialize_with_virtual_reserves _ _ _ _ _ _) as [[w1 u]| |] eqn:E; [injection Hr as <-|done..].
    by eapply Hinit.
  - destruct (set_adaptive_fee_config _ _ _ _ _) as [[w1 u]| |] eqn:E; [injection Hr as <-|done..].
    unfold set_adaptive_fee_config in E. inv_ok E. done.
  - by injection Hr as <-.
  - destruct (deposit _ _ _ _ _ _) as [[w1 u]| |] eqn:E; [injection Hr as <-|done..].
    apply deposit_Ok in E; [|done..].
    destruct E as (? & ? & ? & ? & ? & ? & ? & _ & _ & _ & _ & _ & _ & Hm & _ & _ & _ & -> & _). cbn.
    destruct (Z.eqb_spec (ts (pair w)) 0); lia.
  - destruct (swap _ _ _ _ _) as [[w1 u]| |] eqn:E; [injection Hr as <-|done..].
    apply swap_Ok in E.
    destruct E as (? & ? & ? & ? & _ & _ & _ & _ & _ & _ & _ & _ & _ & _ & _ & _ & _ & _ & _ & _ & -> & _). done.
  - destruct (remove_liquidity _ _ _ _ _ _) as [[w1 [aa ab]]| |] eqn:E; [injection Hr as <-|done..].
    apply remove_Ok in E.
    destruct E as (? & ? & ? & ? & ? & _ & _ & _ & Hsh & Eaa & _ & _ & _ & _ & _ & Hva & _ & Hca & _ & _ & _ & _ & -> & _).
    cbn. destruct (decide (shares = ts (pair w))) as [E|]; [exfalso|lia].
    rewrite E, Z.mul_comm, Z.div_mul in Eaa by lia. lia.
Qed.

(** C7: The pool is solvent: after any history of calls and of transfers by others,
    the contract owns at least its recorded reserve of both tokens (when the two
    tokens of the pair are different contracts), and the reserves and the share
    supply are never negative. *)
Theorem amm_solvent (w : world) (t_a t_b : Address) (Hw : reachable w)
    (Ha : token_a (pair w) = Some t_a) (Hb : token_b (pair w) = Some t_b) (Hne : t_a <> t_b) :
  0 <= fst (get_reserves (pair w)) <= balance (ledger w) t_a self /\
  0 <= snd (get_reserves (pair w)) <= balance (ledger w) t_b self /\
  0 <= get_total_shares (pair w).
Proof.
  apply reachable_ok in Hw as [(? & ? & ? & _) [_ Hf]].
  destruct (Hf t_a t_b Ha Hb Hne). unfold get_reserves, get_total_shares. cbn [fst snd]. lia.
Qed.

(** What a swap does. It takes the whole input and pays the quote of the input
    less the advertised fee on the effective reserves; the reserves move by the net
    input and the output, so the effective product does not decrease, nor the share
    supply change; the snapshot records the fee; the output is positive, at least the
    caller's minimum, and at most the real reserve. *)
Theorem amm_swap_exact (e : env) (w w' : world) (trader : Address) (amount_in min_out out : Z)
    (Hs : swap e w trader amount_in min_out = Ok (w', out)) :
  let '(a, b) := get_reserves (pair w) in let '(a', b') := get_reserves (pair w') in
  let '(v_a, v_b) := get_virtual_reserves (pair w) in
  exists fee, get_dynamic_swap_fee e (pair w) = Ok fee /\ 0 <= fee <= 100 /\
    let net := amount_in - amount_in * fee / 10000 in
    out = (b + v_b) * net / (a + v_a + net) /\ a' = a + net /\ b' = b - out /\
    get_virtual_reserves (pair w') = (v_a, v_b) /\
    (a + v_a) * (b + v_b) <= (a' + v_a) * (b' + v_b) /\
    get_total_shares (pair w') = get_total_shares (pair w) /\
    0 < out <= b /\ min_out <= out /\ 0 < net <= amount_in /\
    (get_adaptive_fee_config (pair w) <> None ->
       exists snap, get_applied_fee_snapshot (pair w') = Some snap /\
         f_swap snap = fee /\ ledger_sequence snap = sequence e).
Proof.
  apply swap_Ok in Hs.
  destruct Hs as (t_a & t_b & f & l1 & _ & _ & _ & Hf & Hfr & Hn & Hra & Hrb & Hva & Hvb & Eo & Hout & Hm & Hsame & A1 & A2 & A3 & Hsnap & _).
  unfold get_reserves, get_virtual_reserves, load_virtual_reserves, get_total_shares, get_adaptive_fee_config, get_applied_fee_snapshot.
  destruct Hsame as (_ & _ & _ & -> & ->). rewrite A1, A2, A3. cbn [from_option id].
  exists f. split; [done|]. unfold MAX_DYNAMIC_FEE_BPS, BPS_DENOMINATOR in *. split; [done|].
  set (net := amount_in - amount_in * f / 10000) in *.
  pose proof (quote_bounds (ra (pair w) + va (pair w)) (rb (pair w) + vb (pair w)) net
                ltac:(lia) ltac:(lia) ltac:(lia)) as (_ & Hk & _). rewrite <- Eo in Hk.
  split_and!; try done; try lia.
  intros Hc. destruct (Hsnap Hc) as (v & _ & ->). by eexists.
Qed.

(** Liquidity leaves only down to the virtual core. A removal that returned left
    on both legs at least the virtual reserve, and some shares; so once a pool has
    shares, it keeps some after any history: the last share cannot be redeemed. *)
Theorem amm_core_floor (w w1 w2 : world) (e : env) (provider : Address)
    (shares min_a min_b amount_a amount_b : Z) (Hw : reachable w)
    (Hr : remove_liquidity e w provider shares min_a min_b = Ok (w1, (amount_a, amount_b)))
    (Hs : rtc step w w2) :
  let '(v_a, v_b) := get_virtual_reserves (pair w) in
  v_a <= fst (get_reserves (pair w1)) /\ v_b <= snd (get_reserves (pair w1)) /\
  0 < get_total_shares (pair w1) < get_total_shares (pair w) /\
  0 < get_total_shares (pair w2).
Proof.
  apply reachable_ok in Hw as Hok. apply remove_Ok in Hr.
  destruct Hr as (? & ? & ? & ? & ? & _ & _ & _ & Hsh & Eaa & _ & _ & _ & _ & _ & Hva & _ & Hca & Hcb & _ & A1 & A2 & A3 & _).
  unfold get_virtual_reserves, load_virtual_reserves, get_reserves, get_total_shares.
  rewrite A1, A2, A3. cbn [from_option id fst snd].
  assert (shares <> ts (pair w)).
  { intros E. rewrite E, Z.mul_comm, Z.div_mul in Eaa by lia. lia. }
  split_and!; try lia.
  assert (0 < ts (pair w)) as Hts by lia. clear -TL Hs Hok Hts.
  induction Hs as [|w w1 w2 Hs _ IH]; [done|]. apply IH; [by eapply step_ok|by eapply step_shares].
Qed.

(** Depositing and removing do not dilute: neither lowers the reserve of either
    token behind a share. *)
Theorem amm_shares_not_diluted (w w' : world) (e : env) (c : call) (Hw : reachable w)
    (Hc : match c with Deposit _ _ _ _ | RemoveLiquidity _ _ _ _ => True | _ => False end)
    (Hr : run e w c = Ok w') (Hts : 0 < get_total_shares (pair w)) :
  fst (get_reserves (pair w)) * get_total_shares (pair w')
    <= fst (get_reserves (pair w')) * get_total_shares (pair w) /\
  snd (get_reserves (pair w)) * get_total_shares (pair w')
    <= snd (get_reserves (pair w')) * get_total_shares (pair w).
Proof.
  apply reachable_ok in Hw as [(? & ? & ? & ? & ? & _) _].
  unfold get_reserves, get_total_shares in *. cbn [fst snd].
  assert (forall x y z, 0 < z -> x * y / z * z <= x * y) as Hdiv
    by (intros x y z Hz; rewrite Z.mul_comm; by apply Z.mul_div_le).
  destruct c; try done; cbn [run] in Hr; unfold world_of in Hr.
  - destruct (deposit _ _ _ _ _ _) as [[w1 u]| |] eqn:E; [injection Hr as <-|done..].
    apply deposit_Ok in E; [|done..].
    destruct E as (? & ? & ? & da & db & ? & ? & _ & _ & _ & _ & _ & _ & Hm & _ & -> & -> & -> & _). cbn.
    destruct (Z.eqb_spec (ts (pair w)) 0); [lia|]. destruct Hm as (Ha & Hb & -> & _).
    pose proof (Hdiv da (ts (pair w)) (ra (pair w)) Ha).
    pose proof (Hdiv db (ts (pair w)) (rb (pair w)) Hb). split; nia.
  - destruct (remove_liquidity _ _ _ _ _ _) as [[w1 [aa ab]]| |] eqn:E; [injection Hr as <-|done..].
    apply remove_Ok in E.
    destruct E as (? & ? & ? & ? & ? & _ & _ & _ & Hsh & Eaa & Eab & _ & _ & _ & _ & _ & _ & _ & _ & _ & -> & -> & -> & _).
    cbn. pose proof (Hdiv shares (ra (pair w)) (ts (pair w)) Hts).
    pose proof (Hdiv shares (rb (pair w)) (ts (pair w)) Hts). rewrite <- Eaa, <- Eab in *. split; nia.
Qed.

(** A pool whose real reserve of one token has reached zero is stuck for ever.
    The swap guard only keeps the payout within the real reserve, so it may pay all
    of it; from then on every deposit traps on a division by zero, every swap fails
    with [PoolEmpty] and every removal with [NonPositiveAmount]: no history of calls
    changes the reserves or the shares again, and the other token stays locked. *)
Theorem amm_drained_pool_stuck (w w' : world) (Hw : reachable w)
    (Hts : 0 < get_total_shares (pair w)) (Hb : snd (get_reserves (pair w)) = 0)
    (Hs : rtc step w w') :
  get_reserves (pair w') = get_reserves (pair w) /\
  get_total_shares (pair w') = get_total_shares (pair w).
Proof.
  apply reachable_ok in Hw. unfold get_reserves, get_total_shares in *. cbn [snd] in Hb.
  induction Hs as [|w w1 w2 Hs _ IH]; [done|].
  assert (ra (pair w1) = ra (pair w) /\ rb (pair w1) = rb (pair w) /\ ts (pair w1) = ts (pair w)) as (E1 & E2 & E3).
  2: { rewrite <- E1, <- E2, <- E3. apply IH; [by eapply step_ok|by rewrite E3|by rewrite E2]. }
  pose proof Hw as [(? & ? & ? & ? & ? & Hi) _].
  destruct Hs as [e c w Hself Hauth|w l' Hl]; [|done].
  destruct (run e w c) as [w1| |] eqn:Hr; cbn [after_call]; [|done..]. clear IH.
  assert (forall a b lp v_a v_b u, initialize_with_virtual_reserves w a b lp v_a v_b = Ok (w1, u) -> False) as Hinit.
  { intros a b lp v_a v_b u E. apply init_inv in E as (Hk & _). destruct (Hi Hk) as (_ & _ & _ & Hz). lia. }
  destruct c; cbn [run] in Hr; unfold world_of in Hr.
  - destruct (initialize _ _ _ _) as [[w2' u]| |] eqn:E; [injection Hr as ->|done..]. by apply Hinit in E.
  - destruct (initialize_with_virtual_reserves _ _ _ _ _ _) as [[w2' u]| |] eqn:E; [injection Hr as ->|done..].
    by apply Hinit in E.
  - destruct (set_adaptive_fee_config _ _ _ _ _) as [[w2' u]| |] eqn:E; [injection Hr as <-|done..].
    unfold set_adaptive_fee_config in E. inv_ok E. done.
  - by injection Hr as <-.
  - destruct (deposit _ _ _ _ _ _) as [[w2' u]| |] eqn:E; [injection Hr as <-|done..].
    apply deposit_Ok in E; [|done..].
    destruct E as (? & ? & ? & ? & ? & ? & ? & _ & _ & _ & _ & _ & _ & Hm & _).
    destruct (Z.eqb_spec (ts (pair w)) 0); lia.
  - destruct (swap _ _ _ _ _) as [[w2' u]| |] eqn:E; [injection Hr as <-|done..].
    apply swap_Ok in E. destruct E as (? & ? & ? & ? & _ & _ & _ & _ & _ & _ & _ & Hrb & _). lia.
  - destruct (remove_liquidity _ _ _ _ _ _) as [[w2' [aa ab]]| |] eqn:E; [injection Hr as <-|done..].
    apply remove_Ok in E.
    destruct E as (? & ? & ? & ? & ? & _ & _ & _ & _ & _ & Eab & _ & Hab & _).
    rewrite Hb, Z.mul_0_r in Eab. rewrite Z.div_0_l in Eab by lia. lia.
Qed.
End invariants.

(** ** Witnesses: tokens 1 and 2, shares 3, the contract at 9, users 5 and 6. *)
Section witnesses.
#[local] Existing Instance test_host.
#[local] Existing Instance test_host_laws.

Definition tokens : Tokens test_host := map_tokens test_host.
#[local] Existing Instance tokens.

#[local] Instance tokens_laws : TokenLaws test_host tokens := map_token_laws test_host.

(** The world of a computed result, by the value it returned. *)
Lemma ok_value {E A B : Type} `{EqDecision B} (r : result E (A * B)) (d : A) (b : B) :
  match r with Ok (_, b') => bool_decide (b' = b) | _ => false end = true ->
  r = Ok (match r with Ok (a, _) => a | _ => d end, b).
Proof. destruct r as [[a b']| |]; [|done..]. by intros ->%bool_decide_eq_true. Qed.

Definition nine : @Address test_host := 9%Z.

Definition test_env : env := {|
  auth := fun a : @Address test_host => negb (Z.eqb a 9);
  current_contract := nine;
  sequence := 500;
  get_asset_volatility_bps := fun _ _ => Some 10
|}.

Definition minted_ledger : @Ledger test_host tokens :=
  map_credit test_host (map_credit test_host (map_credit test_host ∅ (1 : @Address test_host) (5 : @Address test_host) 10000)
    (2 : @Address test_host) (5 : @Address test_host) 10000) (1 : @Address test_host) (6 : @Address test_host) 10000.

Lemma replay_steps (w : world) (cs : list call) :
  rtc (step nine) w (replay w ((fun c => (test_env, c)) <$> cs)).
Proof.
  revert w. induction cs as [|c cs IH]; intros w; [constructor|].
  cbn [fmap list_fmap]. unfold replay. cbn [foldl fst snd]. eapply rtc_l; [|apply IH].
  by apply step_call.
Qed.

Lemma minted_nonneg (t : @Address test_host) : 0 <= balance minted_ledger t nine.
Proof.
  unfold minted_ledger. cbn [balance tokens map_tokens]. rewrite !map_credit_spec.
  unfold at_account. repeat case_decide; vm_compute; congruence.
Qed.

Definition played (cs : list call) : world :=
  replay (genesis minted_ledger) ((fun c => (test_env, c)) <$> cs).

Lemma played_reachable (cs : list call) : reachable nine (played cs).
Proof. exists minted_ledger. split; [apply minted_nonneg|apply replay_steps]. Qed.

Definition opening : list call := [
  Initialize (1 : @Address test_host) (2 : @Address test_host) (3 : @Address test_host);
  SetAdaptiveFeeConfig 20 5 None None; SetVolatilityScalar 10;
  Deposit (5 : @Address test_host) 5000 4000 0 ].

Definition open_pool : world := played opening.

Lemma open_pool_reachable : reachable nine open_pool.
Proof. exact (played_reachable opening). Qed.

Lemma amm_solvent_witness :
  0 <= fst (get_reserves (pair open_pool)) <= balance (ledger open_pool) (1 : @Address test_host) nine /\
  0 <= snd (get_reserves (pair open_pool)) <= balance (ledger open_pool) (2 : @Address test_host) nine /\
  0 <= get_total_shares (pair open_pool).
Proof.
  apply (amm_solvent nine open_pool); [exact open_pool_reachable|reflexivity|reflexivity|discriminate].
Defined.

Definition swapped : M (world * Z) := swap test_env open_pool (6 : @Address test_host) 1000 1.

Definition swapped_world : world := match swapped with Ok (w, _) => w | _ => open_pool end.

Lemma amm_swap_exact_witness :
  let '(a, b) := get_reserves (pair open_pool) in
  let '(a', b') := get_reserves (pair swapped_world) in
  let '(v_a, v_b) := get_virtual_reserves (pair open_pool) in
  exists fee, get_dynamic_swap_fee test_env (pair open_pool) = Ok fee /\ 0 <= fee <= 100 /\
    let net := 1000 - 1000 * fee / 10000 in
    709 = (b + v_b) * net / (a + v_a + net) /\ a' = a + net /\ b' = b - 709 /\
    get_virtual_reserves (pair swapped_world) = (v_a, v_b) /\
    (a + v_a) * (b + v_b) <= (a' + v_a) * (b' + v_b) /\
    get_total_shares (pair swapped_world) = get_total_shares (pair open_pool) /\
    0 < 709 <= b /\ 1 <= 709 /\ 0 < net <= 1000 /\
    (get_adaptive_fee_config (pair open_pool) <> None ->
       exists snap, get_applied_fee_snapshot (pair swapped_world) = Some snap /\
         f_swap snap = fee /\ ledger_sequence snap = sequence test_env).
Proof.
  apply (amm_swap_exact test_env open_pool swapped_world (6 : @Address test_host) 1000 1 709).
  apply (ok_value swapped open_pool 709). vm_compute. reflexivity.
Defined.

Definition removed : M (world * (Z * Z)) :=
  remove_liquidity test_env open_pool (5 : @Address test_host) 1000 0 0.
Definition removed_world : world := match removed with Ok (w, _) => w | _ => open_pool end.

Lemma amm_core_floor_witness :
  let '(v_a, v_b) := get_virtual_reserves (pair open_pool) in
  v_a <= fst (get_reserves (pair removed_world)) /\ v_b <= snd (get_reserves (pair removed_world)) /\
  0 < get_total_shares (pair removed_world) < get_total_shares (pair open_pool) /\
  0 < get_total_shares (pair open_pool).
Proof.
  apply (amm_core_floor nine open_pool removed_world open_pool test_env (5 : @Address test_host) 1000 0 0 1000 800).
  - exact open_pool_reachable.
  - apply (ok_value removed open_pool (1000, 800)). vm_compute. reflexivity.
  - constructor.
Defined.

Lemma amm_shares_not_diluted_witness :
  fst (get_reserves (pair open_pool)) * get_total_shares (pair removed_world)
    <= fst (get_reserves (pair removed_world)) * get_total_shares (pair open_pool) /\
  snd (get_reserves (pair open_pool)) * get_total_shares (pair removed_world)
    <= snd (get_reserves (pair removed_world)) * get_total_shares (pair open_pool).
Proof.
  apply (amm_shares_not_diluted nine open_pool removed_world test_env
           (RemoveLiquidity (5 : @Address test_host) 1000 0 0)).
  - exact open_pool_reachable.
  - exact I.
  - cbn [run]. unfold world_of. fold removed.
    rewrite (ok_value removed open_pool (1000, 800)) by (vm_compute; reflexivity). reflexivity.
  - vm_compute. reflexivity.
Defined.

(** A pool opened with one unit of each token is drained by a swap of two units. *)
Definition draining : list call := [
  Initialize (1 : @Address test_host) (2 : @Address test_host) (3 : @Address test_host);
  Deposit (5 : @Address test_host) 1 1 0; Swap (6 : @Address test_host) 2 1 ].
Definition drained_pool : world := played draining.

Lemma drained_pool_reachable : reachable nine drained_pool.
Proof. exact (played_reachable draining). Qed.

Definition later_calls : list call := [
  Deposit (5 : @Address test_host) 100 100 0; Swap (6 : @Address test_host) 10 0;
  RemoveLiquidity (5 : @Address test_host) 1001 0 0 ].

Lemma amm_drained_pool_stuck_witness :
  get_reserves (pair drained_pool) = (3, 0) /\
  get_reserves (pair (replay drained_pool ((fun c => (test_env, c)) <$> later_calls)))
    = get_reserves (pair drained_pool) /\
  get_total_shares (pair (replay drained_pool ((fun c => (test_env, c)) <$> later_calls)))
    = get_total_shares (pair drained_pool).
Proof.
  split; [reflexivity|].
  apply (amm_drained_pool_stuck nine drained_pool).
  - exact drained_pool_reachable.
  - vm_compute. reflexivity.
  - vm_compute. reflexivity.
  - apply replay_steps.
Defined.
End witnesses.
