(* ===== verification/RootErrors.v ===== *)
(** * The error enumeration of the root crate

    [src/src/lib.rs]: [ContractError], with its contract codes, and the associated
    constants the modelled modules return under another name. *)

From stdpp Require Import base numbers.
From Stdlib Require Import ZArith Lia.
From S2P Require Import Prelude.

Inductive ContractError :=
| AlreadyInitialized | NotInitialized | NotAdmin | NoPendingUpgrade
| UpgradeTimelockNotSatisfied | InvalidHeartbeatInterval | InvalidNonce
| AlreadyRegistered | NotRegistered | InvalidStakeAmount | Overflow | Unauthorized
| TargetNotAdmin | ProposalAlreadyActive | NoActiveProposal | AlreadyVoted
| ThresholdNotReached | SignatureExpired | InvalidSaltSignature | InsufficientStakeForTier
| InvalidTierConfig | FeedAlreadyRegistered | PremiumPoolAccessDenied
| TransferAlreadyPending | NoPendingOwner | FeeCeilingExceeded | DivisionByZero
| StaleSequence | InvalidVarianceConfig | StaleTelemetryPayload
| InsufficientReserveBalance | InsufficientVolume | InsufficientLiquidityDepth
| ContractPaused | RevokedAddress | EmergencyRevocationActive
| NoActiveEmergencyRevocation | BundleAssetLimitExceeded | BundleValidationFailed
| IncompleteQuorum | EpochClosed | AdminChangePending | NoAdminChangePending
| CosignerCannotBeProposer | AdminTimelockNotSatisfied | InsufficientBondForPenalty
| SlippageExceeded | AmountTooLow | InvalidProof | ReentrancyDetected | MerkleTreeFull
| NotSecurityCouncil | ProposalNotFound | ProposalNotVetoable | ProposalAlreadyVetoed
| OracleDeviationTooHigh | InvalidOracleDeviationConfig | InvalidInput
| InvalidCircuitBreakerConfig | CircuitBreakerTripped | InvalidTickSpacing
| TickIndexAlreadyExists | TickIndexNotFound | TickNotAligned | TickOutOfBounds
| TooManyTicks | ProtectedAssetNotRescueable | RescueProposalNotFound
| RescueProposalNotPending | RescueTimelockNotExpired | EmergencyOverrideDisabled
| NotEmergencySigner | OverrideThresholdNotReached | InvalidFeeSplitConfig
| FeeDistributionMismatch | BridgeRateLimitExceeded | CapacityExceeded | CommitmentExpired
| CommitmentHashMismatch | CommitmentNotActive | CommitmentNotExpired | CommitmentNotFound
| CommitmentNotRevealWindow | CommitmentWindowTooLong | CommitmentWindowTooShort
| DeadlineNotReached | DeadlineReached | DeadlineTooFar | DeadlineTooSoon
| EmergencyRevocationAlreadyActive | EventTopicLimitExceeded | HtlcNotActive
| HtlcNotFound | InvalidArgument | InvalidBridgeRateLimit | InvalidDelegate
| InvalidMerkleProof | InvalidPreImage | InvalidPublicInputs | InvalidThreshold
| InvariantViolation | NoActiveDelegation | NoPreviousUpgrade | NoVotingWeight
| NotEmergencyAdmin | NotRecoveryKey | PayloadHashMismatch | PoolNotFound
| ProposalAlreadyCancelledOrExecuted | RecoveryKeyNotConfigured | RecoveryNotAvailableYet
| RollbackWindowExpired | RouteExecutionFailed | TimelockNotExpired
| TooManyActiveCommitments | TooManyActiveHtlcs | UpgradeHealthCheckFailed
| ZeroSwapAmount | PositionNotFound | InvalidTickRange | PositionAlreadyExists
| PositionNotOwned | PositionTransferToSelf | PositionCollateralLocked
| NotEmergencyGuardian | BridgeCapInvalidCollateral | BridgeCapInvalidConfig
| BridgeCapInvalidAmount | BridgeCapExceeded | BridgeCapInsufficientCollateral
| BridgeCapUndercollateralized | ProtocolFeeCapExceeded | AnchorAssignmentsPaused
| AnchorUndercollateralized | InvalidEscrowState | InvalidProvingKey
| InvalidZKPublicInputs.

(** The codes of the variants. *)
Definition error_code (e : ContractError) : Z :=
  match e with
  | AlreadyInitialized => 1 | NotInitialized => 2 | NotAdmin => 3 | NoPendingUpgrade => 4
  | UpgradeTimelockNotSatisfied => 5 | InvalidHeartbeatInterval => 6 | InvalidNonce => 7
  | AlreadyRegistered => 8 | NotRegistered => 9 | InvalidStakeAmount => 10 | Overflow => 11
  | Unauthorized => 12 | TargetNotAdmin => 13 | ProposalAlreadyActive => 14
  | NoActiveProposal => 15 | AlreadyVoted => 16 | ThresholdNotReached => 17
  | SignatureExpired => 18 | InvalidSaltSignature => 19 | InsufficientStakeForTier => 20
  | InvalidTierConfig => 21 | FeedAlreadyRegistered => 22 | PremiumPoolAccessDenied => 23
  | TransferAlreadyPending => 24 | NoPendingOwner => 25 | FeeCeilingExceeded => 26
  | DivisionByZero => 27 | StaleSequence => 28 | InvalidVarianceConfig => 29
  | StaleTelemetryPayload => 30 | InsufficientReserveBalance => 31
  | InsufficientVolume => 32 | InsufficientLiquidityDepth => 33 | ContractPaused => 34
  | RevokedAddress => 35 | EmergencyRevocationActive => 36
  | NoActiveEmergencyRevocation => 37 | BundleAssetLimitExceeded => 38
  | BundleValidationFailed => 39 | IncompleteQuorum => 40 | EpochClosed => 41
  | AdminChangePending => 42 | NoAdminChangePending => 43 | CosignerCannotBeProposer => 44
  | AdminTimelockNotSatisfied => 45 | InsufficientBondForPenalty => 46
  | SlippageExceeded => 47 | AmountTooLow => 48 | InvalidProof => 49
  | ReentrancyDetected => 58 | MerkleTreeFull => 59 | NotSecurityCouncil => 60
  | ProposalNotFound => 61 | ProposalNotVetoable => 62 | ProposalAlreadyVetoed => 63
  | OracleDeviationTooHigh => 64 | InvalidOracleDeviationConfig => 65 | InvalidInput => 66
  | InvalidCircuitBreakerConfig => 67 | CircuitBreakerTripped => 68
  | InvalidTickSpacing => 69 | TickIndexAlreadyExists => 70 | TickIndexNotFound => 71
  | TickNotAligned => 72 | TickOutOfBounds => 73 | TooManyTicks => 74
  | ProtectedAssetNotRescueable => 75 | RescueProposalNotFound => 76
  | RescueProposalNotPending => 77 | RescueTimelockNotExpired => 78
  | EmergencyOverrideDisabled => 79 | NotEmergencySigner => 80
  | OverrideThresholdNotReached => 81 | InvalidFeeSplitConfig => 82
  | FeeDistributionMismatch => 83 | BridgeRateLimitExceeded => 100
  | CapacityExceeded => 101 | CommitmentExpired => 102 | CommitmentHashMismatch => 103
  | CommitmentNotActive => 104 | CommitmentNotExpired => 105 | CommitmentNotFound => 106
  | CommitmentNotRevealWindow => 107 | CommitmentWindowTooLong => 108
  | CommitmentWindowTooShort => 109 | DeadlineNotReached => 110 | DeadlineReached => 111
  | DeadlineTooFar => 112 | DeadlineTooSoon => 113
  | EmergencyRevocationAlreadyActive => 114 | EventTopicLimitExceeded => 115
  | HtlcNotActive => 116 | HtlcNotFound => 117 | InvalidArgument => 118
  | InvalidBridgeRateLimit => 119 | InvalidDelegate => 120 | InvalidMerkleProof => 121
  | InvalidPreImage => 122 | InvalidPublicInputs => 123 | InvalidThreshold => 124
  | InvariantViolation => 125 | NoActiveDelegation => 126 | NoPreviousUpgrade => 127
  | NoVotingWeight => 128 | NotEmergencyAdmin => 129 | NotRecoveryKey => 130
  | PayloadHashMismatch => 131 | PoolNotFound => 132
  | ProposalAlreadyCancelledOrExecuted => 133 | RecoveryKeyNotConfigured => 134
  | RecoveryNotAvailableYet => 135 | RollbackWindowExpired => 136
  | RouteExecutionFailed => 137 | TimelockNotExpired => 138
  | TooManyActiveCommitments => 139 | TooManyActiveHtlcs => 140
  | UpgradeHealthCheckFailed => 141 | ZeroSwapAmount => 142 | PositionNotFound => 143
  | InvalidTickRange => 144 | PositionAlreadyExists => 145 | PositionNotOwned => 146
  | PositionTransferToSelf => 147 | PositionCollateralLocked => 148
  | NotEmergencyGuardian => 149 | BridgeCapInvalidCollateral => 150
  | BridgeCapInvalidConfig => 151 | BridgeCapInvalidAmount => 152
  | BridgeCapExceeded => 153 | BridgeCapInsufficientCollateral => 154
  | BridgeCapUndercollateralized => 155 | ProtocolFeeCapExceeded => 156
  | AnchorAssignmentsPaused => 157 | AnchorUndercollateralized => 158
  | InvalidEscrowState => 159 | InvalidProvingKey => 160 | InvalidZKPublicInputs => 161
  end%Z.

(** The associated constants of the enumeration are aliases of its variants. *)
Definition InvalidSplitBoundary : ContractError := InvalidVarianceConfig.
Definition MathOverflow : ContractError := Overflow.
Definition BridgeInsufficientBalance : ContractError := Overflow.
Definition BridgeAssetNotRegistered : ContractError := NotRegistered.
Definition BridgeInvalidMaxSupply : ContractError := Overflow.
Definition BridgeAssetAlreadyRegistered : ContractError := AlreadyRegistered.
Definition BridgeInvalidAmount : ContractError := AmountTooLow.
Definition BridgeNotController : ContractError := Unauthorized.
Definition BridgeSupplyCapExceeded : ContractError := Overflow.
Definition BridgeEscrowNotConfigured : ContractError := NotInitialized.
Definition OrderNotFound : ContractError := NotRegistered.
Definition OrderZeroAmount : ContractError := AmountTooLow.
Definition OrderInvalidPrice : ContractError := NotInitialized.
Definition OrderAlreadyClosed : ContractError := Unauthorized.
Definition OrderInsufficientRemaining : ContractError := Overflow.
Definition OrderNotMaker : ContractError := Unauthorized.
Definition OrderSideMismatch : ContractError := Unauthorized.
Definition OrderPairMismatch : ContractError := NotInitialized.
Definition OrderPriceNotCrossed : ContractError := SlippageExceeded.
Definition StagingNotAuthorized : ContractError := Unauthorized.
Definition EmptyRoute : ContractError := AmountTooLow.
Definition RouteTooLong : ContractError := Overflow.
Definition InconsistentRouteAssets : ContractError := NotInitialized.
Definition VaultZeroAmount : ContractError := AmountTooLow.
Definition VaultInsufficientBalance : ContractError := Overflow.
Definition VaultInsufficientShares : ContractError := Overflow.
Definition VaultAlreadyInitialized : ContractError := AlreadyInitialized.
Definition VaultNotInitialized : ContractError := NotInitialized.
Definition VaultPaused : ContractError := ContractPaused.
Definition VaultInvalidPerformanceFee : ContractError := InvalidVarianceConfig.
Definition VaultMaxDrawdownExceeded : ContractError := ContractPaused.

(** The variant of a code; the codes are distinct. *)
Definition error_of_code (c : Z) : ContractError :=
  match c with
  | 1 => AlreadyInitialized | 2 => NotInitialized | 3 => NotAdmin | 4 => NoPendingUpgrade
  | 5 => UpgradeTimelockNotSatisfied | 6 => InvalidHeartbeatInterval | 7 => InvalidNonce
  | 8 => AlreadyRegistered | 9 => NotRegistered | 10 => InvalidStakeAmount | 11 => Overflow
  | 12 => Unauthorized | 13 => TargetNotAdmin | 14 => ProposalAlreadyActive
  | 15 => NoActiveProposal | 16 => AlreadyVoted | 17 => ThresholdNotReached
  | 18 => SignatureExpired | 19 => InvalidSaltSignature | 20 => InsufficientStakeForTier
  | 21 => InvalidTierConfig | 22 => FeedAlreadyRegistered | 23 => PremiumPoolAccessDenied
  | 24 => TransferAlreadyPending | 25 => NoPendingOwner | 26 => FeeCeilingExceeded
  | 27 => DivisionByZero | 28 => StaleSequence | 29 => InvalidVarianceConfig
  | 30 => StaleTelemetryPayload | 31 => InsufficientReserveBalance
  | 32 => InsufficientVolume | 33 => InsufficientLiquidityDepth | 34 => ContractPaused
  | 35 => RevokedAddress | 36 => EmergencyRevocationActive
  | 37 => NoActiveEmergencyRevocation | 38 => BundleAssetLimitExceeded
  | 39 => BundleValidationFailed | 40 => IncompleteQuorum | 41 => EpochClosed
  | 42 => AdminChangePending | 43 => NoAdminChangePending | 44 => CosignerCannotBeProposer
  | 45 => AdminTimelockNotSatisfied | 46 => InsufficientBondForPenalty
  | 47 => SlippageExceeded | 48 => AmountTooLow | 49 => InvalidProof
  | 58 => ReentrancyDetected | 59 => MerkleTreeFull | 60 => NotSecurityCouncil
  | 61 => ProposalNotFound | 62 => ProposalNotVetoable | 63 => ProposalAlreadyVetoed
  | 64 => OracleDeviationTooHigh | 65 => InvalidOracleDeviationConfig | 66 => InvalidInput
  | 67 => InvalidCircuitBreakerConfig | 68 => CircuitBreakerTripped
  | 69 => InvalidTickSpacing | 70 => TickIndexAlreadyExists | 71 => TickIndexNotFound
  | 72 => TickNotAligned | 73 => TickOutOfBounds | 74 => TooManyTicks
  | 75 => ProtectedAssetNotRescueable | 76 => RescueProposalNotFound
  | 77 => RescueProposalNotPending | 78 => RescueTimelockNotExpired
  | 79 => EmergencyOverrideDisabled | 80 => NotEmergencySigner
  | 81 => OverrideThresholdNotReached | 82 => InvalidFeeSplitConfig
  | 83 => FeeDistributionMismatch | 100 => BridgeRateLimitExceeded
  | 101 => CapacityExceeded | 102 => CommitmentExpired | 103 => CommitmentHashMismatch
  | 104 => CommitmentNotActive | 105 => CommitmentNotExpired | 106 => CommitmentNotFound
  | 107 => CommitmentNotRevealWindow | 108 => CommitmentWindowTooLong
  | 109 => CommitmentWindowTooShort | 110 => DeadlineNotReached | 111 => DeadlineReached
  | 112 => DeadlineTooFar | 113 => DeadlineTooSoon
  | 114 => EmergencyRevocationAlreadyActive | 115 => EventTopicLimitExceeded
  | 116 => HtlcNotActive | 117 => HtlcNotFound | 118 => InvalidArgument
  | 119 => InvalidBridgeRateLimit | 120 => InvalidDelegate | 121 => InvalidMerkleProof
  | 122 => InvalidPreImage | 123 => InvalidPublicInputs | 124 => InvalidThreshold
  | 125 => InvariantViolation | 126 => NoActiveDelegation | 127 => NoPreviousUpgrade
  | 128 => NoVotingWeight | 129 => NotEmergencyAdmin | 130 => NotRecoveryKey
  | 131 => PayloadHashMismatch | 132 => PoolNotFound
  | 133 => ProposalAlreadyCancelledOrExecuted | 134 => RecoveryKeyNotConfigured
  | 135 => RecoveryNotAvailableYet | 136 => RollbackWindowExpired
  | 137 => RouteExecutionFailed | 138 => TimelockNotExpired
  | 139 => TooManyActiveCommitments | 140 => TooManyActiveHtlcs
  | 141 => UpgradeHealthCheckFailed | 142 => ZeroSwapAmount | 143 => PositionNotFound
  | 144 => InvalidTickRange | 145 => PositionAlreadyExists | 146 => PositionNotOwned
  | 147 => PositionTransferToSelf | 148 => PositionCollateralLocked
  | 149 => NotEmergencyGuardian | 150 => BridgeCapInvalidCollateral
  | 151 => BridgeCapInvalidConfig | 152 => BridgeCapInvalidAmount
  | 153 => BridgeCapExceeded | 154 => BridgeCapInsufficientCollateral
  | 155 => BridgeCapUndercollateralized | 156 => ProtocolFeeCapExceeded
  | 157 => AnchorAssignmentsPaused | 158 => AnchorUndercollateralized
  | 159 => InvalidEscrowState | 160 => InvalidProvingKey | 161 => InvalidZKPublicInputs
  | _ => AlreadyInitialized
  end%Z.

Lemma error_of_code_code (e : ContractError) : error_of_code (error_code e) = e.
Proof. destruct e; reflexivity. Qed.

#[export] Instance error_code_inj : Inj (=) (=) error_code.
Proof. intros a b H. rewrite <- (error_of_code_code a), <- (error_of_code_code b). congruence. Qed.

#[export] Instance ContractError_eq_dec : EqDecision ContractError.
Proof.
  refine (fun a b => cast_if (decide (error_code a = error_code b))); [by apply (inj error_code)|congruence].
Defined.
