(* ===== verification/Sqrt.v ===== *)
(** * Integer square roots by Newton's method

    The loop that several modules of the repository contain: from a start above the
    root it goes down to the floor of the square root, with checked arithmetic of
    [i128]. The loop ends within 129 rounds on the whole range but its maximum. *)

From stdpp Require Import base numbers list.
From Stdlib Require Import ZArith Lia.
From S2P Require Import Prelude.

Open Scope Z_scope.

(** [while y < x { x = y; y = (x + val / x) / 2 }]: the distance to the root halves, so
    129 rounds are enough. *)
Fixpoint sqrt_loop {E : Type} (fuel : nat) (val x y : Z) : result E Z :=
  match fuel with
  | O => Panic
  | S fuel =>
      if y <? x then
        q ← idiv I128 val y;
        s ← iadd I128 y q;
        y' ← idiv I128 s 2;
        sqrt_loop fuel val y y'
      else mret x
  end.

(** One step from above the root: not below the root, and half the distance. *)
Lemma sqrt_step (val x : Z) :
  0 < val -> Z.sqrt val < x -> Z.sqrt val <= (x + val / x) / 2 /\
  2 * ((x + val / x) / 2 - Z.sqrt val) <= x - Z.sqrt val.
Proof.
  intros Hv Hx. set (s := Z.sqrt val) in *.
  pose proof (Z.sqrt_spec val ltac:(lia)) as Hs. cbv zeta in Hs. fold s in Hs.
  assert (0 < s) by (apply Z.sqrt_pos; lia).
  set (q := val / x).
  pose proof (Z.mul_div_le val x ltac:(lia)) as Hq. pose proof (Z.mul_succ_div_gt val x ltac:(lia)) as Hq'.
  fold q in Hq, Hq'.
  assert (q <= s) by (unfold q; apply Z.lt_succ_r, Z.div_lt_upper_bound; nia).
  split; [|pose proof (Z.mul_div_le (x + q) 2 ltac:(done)); lia].
  apply Z.div_le_lower_bound; [done|].
  (* x + q >= 2s: otherwise (q + 1) x < s^2 *)
  destruct (Z.le_gt_cases (2 * s) (x + q)) as [|Hlt]; [done|exfalso]. nia.
Qed.

Lemma sqrt_sum_bound (val y : Z) : 1 <= y <= val -> 1 <= val / y /\ y + val / y <= val + 1.
Proof.
  intros Hy. assert (1 <= val / y) by (apply Z.div_le_lower_bound; lia).
  pose proof (Z.mul_div_le val y ltac:(lia)). split; [done|]. nia.
Qed.

Lemma sqrt_loop_ok {E : Type} (fuel : nat) (val x : Z) :
  0 < val < imax I128 -> Z.sqrt val <= x <= val -> x - Z.sqrt val < 2 ^ Z.of_nat fuel ->
  @sqrt_loop E (S fuel) val x ((x + val / x) / 2) = Ok (Z.sqrt val).
Proof.
  intros Hv. assert (0 < Z.sqrt val) as Hspos by (apply Z.sqrt_pos; lia).
  assert (forall f y, Z.sqrt val <= y -> @sqrt_loop E (S f) val (Z.sqrt val) y = Ok (Z.sqrt val)) as Hstop.
  { intros f y Hy. cbn [sqrt_loop]. destruct (Z.ltb_spec y (Z.sqrt val)); [lia|done]. }
  assert (Z.sqrt val <= (Z.sqrt val + val / Z.sqrt val) / 2) as Hroot.
  { pose proof (Z.sqrt_spec val ltac:(lia)) as Hs. cbv zeta in Hs.
    assert (Z.sqrt val <= val / Z.sqrt val) by (apply Z.div_le_lower_bound; lia).
    apply Z.div_le_lower_bound; lia. }
  revert x. induction fuel as [|fuel IH]; intros x Hx Hf.
  - assert (x = Z.sqrt val) as -> by lia. by apply Hstop.
  - destruct (Z.eq_dec x (Z.sqrt val)) as [->|Hne]; [by apply Hstop|].
    destruct (sqrt_step val x ltac:(lia) ltac:(lia)) as [Hlow Hhalf].
    rewrite Nat2Z.inj_succ, Z.pow_succ_r in Hf by lia.
    set (y := (x + val / x) / 2) in *. change (@sqrt_loop E (S (S fuel)) val x y) with
      (if y <? x then
         q ← @idiv E I128 val y; s ← @iadd E I128 y q; y' ← @idiv E I128 s 2; @sqrt_loop E (S fuel) val y y'
       else mret x).
    destruct (Z.ltb_spec y x); [|lia].
    destruct (sqrt_sum_bound val y ltac:(lia)) as [Hq1 Hq2].
    unfold idiv. destruct (Z.eqb_spec y 0); [lia|]. rewrite Z.quot_div_nonneg by lia.
    rewrite iop_in by (cbn [imin]; lia). rewrite bind_ret.
    unfold iadd. rewrite iop_in by (cbn [imin]; lia). rewrite bind_ret.
    destruct (Z.eqb_spec 2 0); [done|]. rewrite Z.quot_div_nonneg by lia.
    rewrite iop_in; [rewrite bind_ret; apply IH; lia|].
    pose proof (Z.div_pos (y + val / y) 2 ltac:(lia) ltac:(done)).
    pose proof (Z.div_le_upper_bound (y + val / y) 2 (y + val / y) ltac:(done) ltac:(lia)).
    cbn [imin]. lia.
Qed.


(** From half of the value on. *)
Lemma sqrt_from_half {E : Type} (val : Z) :
  0 < val < imax I128 -> @sqrt_loop E 129 val val ((val + 1) / 2) = Ok (Z.sqrt val).
Proof.
  intros Hv. assert (val + 1 = val + val / val) as -> by (rewrite Z.div_same; lia).
  pose proof (Z.sqrt_le_lin val ltac:(lia)). pose proof (Z.sqrt_nonneg val).
  apply (sqrt_loop_ok 128); [lia|lia|]. change (Z.of_nat 128) with 128. cbn [imax] in Hv. lia.
Qed.
