(* ===== verification/TickIndex.v ===== *)
(** * Root AMM: the sorted tick index

    [src/src/amm/ticks.rs]: the tick index of a pool, liquidity placement, fee
    growth, the sorted list of initialized ticks and its binary search, and the swap
    simulation. The persistent storage is one map per key type, indexed by asset.

    [TickData] is written with its [fee_growth_outside] field: the struct of the
    source lacks it, but [ensure_tick_initialized] builds it and
    [get_fee_growth_inside] reads it ([get_tick_data], which does not, is read as
    giving 0). *)

From stdpp Require Import base numbers list gmap sorting.
From Stdlib Require Import ZArith Lia.
From S2P Require Import Prelude Sqrt RootErrors.

Open Scope Z_scope.

Abbreviation R := (result ContractError).
Abbreviation AssetId := Z.

Definition TICK_BASE : Z := 10001.
Definition TICK_BASE_PRECISION : Z := 10000.
Definition PRICE_SCALE : Z := 10000000.
Definition MAX_TICK_INDEX : Z := 887220.
Definition MIN_TICK_INDEX : Z := -887220.
Definition MAX_TICKS_PER_POOL : Z := 256.
Definition STABLE_TICK_SPACING : Z := 1.
Definition VOLATILE_TICK_SPACING : Z := 60.
Definition FEE_TIER_1 : Z := 5.
Definition FEE_TIER_2 : Z := 30.
Definition FEE_TIER_3 : Z := 100.
Definition DEFAULT_FEE_TIER : Z := FEE_TIER_2.
Definition TREASURY_FEE_SHARE_BPS : Z := 2000.
Definition LP_FEE_SHARE_BPS : Z := 8000.
Definition FEE_GROWTH_SCALE : Z := 100000000000000.

Record TickIndexMeta := {
  tm_asset : AssetId;
  tick_spacing : Z;
  current_tick : Z;
  tm_active_liquidity : Z;
  tm_tick_count : Z;
  fee_growth_global : Z
}.

Record TickData := {
  liquidity_net : Z;
  liquidity_gross : Z;
  fee_growth_outside : Z
}.

Record SwapTickResult := {
  final_tick : Z;
  final_liquidity : Z;
  sr_amount_in : Z;
  sr_amount_out : Z;
  crossings : Z
}.

Record SwapStep := {
  start_tick : Z;
  end_tick : Z;
  ss_liquidity : Z;
  step_amount_in : Z;
  step_amount_out : Z
}.

(** Persistent storage: [TickIndexKey], [TickDataKey], [TickListKey], [FeeTierKey]. *)
Record tick_store := {
  indexes : gmap AssetId TickIndexMeta;
  datas : gmap (AssetId * Z) TickData;
  lists : gmap AssetId (list Z);
  tiers : gmap AssetId Z
}.

Definition empty_ticks : tick_store :=
  {| indexes := ∅; datas := ∅; lists := ∅; tiers := ∅ |}.

Definition set_index (s : tick_store) (a : AssetId) (m : TickIndexMeta) : tick_store :=
  {| indexes := <[a := m]> (indexes s); datas := datas s; lists := lists s; tiers := tiers s |}.

Definition set_tick_data (s : tick_store) (a : AssetId) (tick : Z) (d : TickData) : tick_store :=
  {| indexes := indexes s; datas := <[(a, tick) := d]> (datas s); lists := lists s; tiers := tiers s |}.

Definition set_tick_list (s : tick_store) (a : AssetId) (l : list Z) : tick_store :=
  {| indexes := indexes s; datas := datas s; lists := <[a := l]> (lists s); tiers := tiers s |}.

Definition set_tier (s : tick_store) (a : AssetId) (t : Z) : tick_store :=
  {| indexes := indexes s; datas := datas s; lists := lists s; tiers := <[a := t]> (tiers s) |}.

Definition get_tick_index (s : tick_store) (a : AssetId) : R TickIndexMeta :=
  ok_or (indexes s !! a) TickIndexNotFound.

Definition empty_tick : TickData :=
  {| liquidity_net := 0; liquidity_gross := 0; fee_growth_outside := 0 |}.

Definition get_tick_data (s : tick_store) (a : AssetId) (tick : Z) : TickData :=
  default empty_tick (datas s !! (a, tick)).

Definition get_tick_list (s : tick_store) (a : AssetId) : list Z := default [] (lists s !! a).

Definition initialize_tick_index (s : tick_store) (a : AssetId) (spacing : Z) :
    R (tick_store * TickIndexMeta) :=
  _ ← fail_if (spacing <=? 0) InvalidTickSpacing;
  _ ← fail_if (bool_decide (is_Some (indexes s !! a))) TickIndexAlreadyExists;
  let meta := {| tm_asset := a; tick_spacing := spacing; current_tick := 0;
                 tm_active_liquidity := 0; tm_tick_count := 0; fee_growth_global := 0 |} in
  mret (set_tick_list (set_index s a meta) a [], meta).

(** ** The sorted list *)

(** [while lo < hi]: the interval halves each round, so a list of less than [2^32]
    ticks needs at most 32 rounds and a last test. *)
Fixpoint binary_search_loop (fuel : nat) (l : list Z) (target lo hi : Z) : R Z :=
  match fuel with
  | O => Panic
  | S fuel =>
      if lo <? hi then
        d ← isub U32 hi lo;
        mid ← iadd U32 lo (d / 2);
        match vget l mid with
        | Some val =>
            if val =? target then mret mid
            else if val <? target then
              lo' ← iadd U32 mid 1; binary_search_loop fuel l target lo' hi
            else binary_search_loop fuel l target lo mid
        | None => binary_search_loop fuel l target lo mid
        end
      else mret lo
  end.

Definition binary_search_tick (l : list Z) (target : Z) : R Z :=
  binary_search_loop 33 l target 0 (len l).

(** [list.insert(pos, x)]: the host traps past the end. *)
Definition vinsert (l : list Z) (pos x : Z) : R (list Z) :=
  if (0 <=? pos) && (pos <=? len l)
  then Ok (take (Z.to_nat pos) l ++ x :: drop (Z.to_nat pos) l) else Panic.

(** [list.remove(pos)] *)
Definition vremove (l : list Z) (pos : Z) : list Z := delete (Z.to_nat pos) l.

Definition holds_at (l : list Z) (pos tick : Z) : bool :=
  (pos <? len l) && bool_decide (vget l pos = Some tick).

Definition insert_tick_sorted (l : list Z) (tick : Z) : R (list Z) :=
  _ ← fail_if (MAX_TICKS_PER_POOL <=? len l) TooManyTicks;
  pos ← binary_search_tick l tick;
  if holds_at l pos tick then mret l else vinsert l pos tick.

Definition remove_tick_sorted (l : list Z) (tick : Z) : R (list Z) :=
  pos ← binary_search_tick l tick;
  mret (if holds_at l pos tick then vremove l pos else l).

Definition find_next_initialized_tick (s : tick_store) (a : AssetId) (cur : Z)
    (direction_up : bool) : R (option Z) :=
  let l := get_tick_list s a in
  if len l =? 0 then mret None else
  idx ← binary_search_tick l cur;
  if direction_up then
    mret (if idx <? len l then
            match vget l idx with
            | Some t => if cur <=? t then Some t else None
            | None => None
            end
          else None)
  else if holds_at l idx cur then mret (Some cur)
  else if 0 <? idx then i ← isub U32 idx 1; mret (vget l i)
  else mret None.

(** ** Liquidity placement *)
Definition place_liquidity (s : tick_store) (a : AssetId) (tick liquidity_delta : Z) :
    R (tick_store * TickData) :=
  meta ← get_tick_index s a;
  r ← irem I32 tick (tick_spacing meta);
  _ ← fail_if (negb (r =? 0)) TickNotAligned;
  _ ← fail_if ((tick <? MIN_TICK_INDEX) || (MAX_TICK_INDEX <? tick)) TickOutOfBounds;
  let tick_data := get_tick_data s a tick in
  let affects := tick <=? current_tick meta in
  '(gross, active) ←
    (if 0 <? liquidity_delta then
       let delta := cast U64 liquidity_delta in
       gross ← ok_or (checked_add U64 (liquidity_gross tick_data) delta) Overflow;
       active ← (if affects then ok_or (checked_add U64 (tm_active_liquidity meta) delta) Overflow
                 else mret (tm_active_liquidity meta));
       mret (gross, active)
     else if liquidity_delta <? 0 then
       neg ← ineg I64 liquidity_delta;
       let delta := cast U64 neg in
       gross ← ok_or (checked_sub U64 (liquidity_gross tick_data) delta) Overflow;
       active ← (if affects then ok_or (checked_sub U64 (tm_active_liquidity meta) delta) Overflow
                 else mret (tm_active_liquidity meta));
       mret (gross, active)
     else mret (liquidity_gross tick_data, tm_active_liquidity meta));
  net ← ok_or (checked_add I64 (liquidity_net tick_data) liquidity_delta) Overflow;
  let was_empty := (gross =? 0) && (0 <? liquidity_delta) in
  let is_empty := (gross =? 0) && (liquidity_delta <? 0) in
  '(s1, count) ←
    (if was_empty || is_empty then
       let l := get_tick_list s a in
       if was_empty && (0 <? liquidity_delta) then
         l' ← insert_tick_sorted l tick;
         count ← ok_or (checked_add U32 (tm_tick_count meta) 1) Overflow;
         mret (set_tick_list s a l', count)
       else if is_empty && (liquidity_delta <? 0) then
         l' ← remove_tick_sorted l tick;
         mret (set_tick_list s a l', saturating_sub U32 (tm_tick_count meta) 1)
       else mret (set_tick_list s a l, tm_tick_count meta)
     else mret (s, tm_tick_count meta));
  let data := {| liquidity_net := net; liquidity_gross := gross;
                 fee_growth_outside := fee_growth_outside tick_data |} in
  let meta' := {| tm_asset := tm_asset meta; tick_spacing := tick_spacing meta;
                  current_tick := current_tick meta; tm_active_liquidity := active;
                  tm_tick_count := count; fee_growth_global := fee_growth_global meta |} in
  mret (set_index (set_tick_data s1 a tick data) a meta', data).

(** ** Fee growth *)
Definition ensure_tick_initialized (s : tick_store) (a : AssetId) (tick : Z) : R tick_store :=
  if bool_decide (is_Some (datas s !! (a, tick))) then mret s else
  meta ← get_tick_index s a;
  let outside := if tick <=? current_tick meta then fee_growth_global meta else 0 in
  mret (set_tick_data s a tick
          {| liquidity_net := 0; liquidity_gross := 0; fee_growth_outside := outside |}).

Definition accrue_fee_growth (s : tick_store) (a : AssetId) (fee_amount : Z) : R tick_store :=
  if fee_amount =? 0 then mret s else
  meta ← get_tick_index s a;
  _ ← fail_if (tm_active_liquidity meta =? 0) InsufficientLiquidityDepth;
  p ← ok_or (checked_mul U128 fee_amount FEE_GROWTH_SCALE) Overflow;
  delta ← ok_or (checked_div U128 p (tm_active_liquidity meta)) DivisionByZero;
  global ← ok_or (checked_add U128 (fee_growth_global meta) delta) Overflow;
  mret (set_index s a
          {| tm_asset := tm_asset meta; tick_spacing := tick_spacing meta;
             current_tick := current_tick meta; tm_active_liquidity := tm_active_liquidity meta;
             tm_tick_count := tm_tick_count meta; fee_growth_global := global |}).

Definition get_fee_growth_inside (s : tick_store) (a : AssetId) (tick_lower tick_upper : Z) : R Z :=
  meta ← get_tick_index s a;
  let lower := get_tick_data s a tick_lower in
  let upper := get_tick_data s a tick_upper in
  let global := fee_growth_global meta in
  let below := if tick_lower <=? current_tick meta then fee_growth_outside lower
               else wrapping_sub U128 global (fee_growth_outside lower) in
  let above := if current_tick meta <? tick_upper then fee_growth_outside upper
               else wrapping_sub U128 global (fee_growth_outside upper) in
  mret (wrapping_sub U128 (wrapping_sub U128 global below) above).

(** ** Fee tiers *)
Definition get_pool_fee_tier (s : tick_store) (a : AssetId) : Z :=
  cast U16 (default DEFAULT_FEE_TIER (tiers s !! a)).

Definition set_pool_fee_tier (s : tick_store) (a : AssetId) (fee_tier : Z) : R (tick_store * Z) :=
  _ ← fail_if (negb (fee_tier =? FEE_TIER_1) && negb (fee_tier =? FEE_TIER_2)
               && negb (fee_tier =? FEE_TIER_3)) Overflow;
  mret (set_tier s a fee_tier, fee_tier).

Definition split_fee (amount : Z) : R (Z * Z) :=
  p ← imul U128 amount LP_FEE_SHARE_BPS;
  let lp_share := cast U64 (p / 10000) in
  treasury_share ← isub U64 amount lp_share;
  mret (lp_share, treasury_share).

(** ** Prices *)

(** [for _ in 0..abs_tick] *)
Fixpoint price_steps (up : bool) (n : nat) (price : Z) : R Z :=
  match n with
  | O => mret price
  | S n =>
      p ← ok_or (checked_mul I128 price (if up then TICK_BASE else TICK_BASE_PRECISION)) Overflow;
      price' ← ok_or (checked_div I128 p (if up then TICK_BASE_PRECISION else TICK_BASE)) DivisionByZero;
      price_steps up n price'
  end.

Definition tick_to_price (tick : Z) : R Z :=
  price_steps (0 <? tick) (Z.to_nat (Z.abs tick)) PRICE_SCALE.

Definition integer_sqrt (val : Z) : R Z :=
  _ ← fail_if (val <? 0) Overflow;
  if val =? 0 then mret 0 else
  s ← iadd I128 val 1;
  y ← idiv I128 s 2;
  sqrt_loop 129 val val y.

Definition sqrt_difference (sqrt_a sqrt_b : Z) : R Z :=
  if sqrt_a <? sqrt_b then ok_or (checked_sub I128 sqrt_b sqrt_a) Overflow
  else ok_or (checked_sub I128 sqrt_a sqrt_b) Overflow.

Definition compute_step_input (price_a price_b liquidity : Z) : R Z :=
  sqrt_a ← integer_sqrt price_a;
  sqrt_b ← integer_sqrt price_b;
  sqrt_diff ← sqrt_difference sqrt_a sqrt_b;
  p ← ok_or (checked_mul I128 liquidity sqrt_diff) Overflow;
  input ← ok_or (checked_div I128 p PRICE_SCALE) DivisionByZero;
  mret (cast U64 input).

Definition compute_step_output (price_a price_b liquidity : Z) : R Z :=
  sqrt_a ← integer_sqrt price_a;
  sqrt_b ← integer_sqrt price_b;
  sqrt_diff ← sqrt_difference sqrt_a sqrt_b;
  sqrt_product ← ok_or (checked_mul I128 sqrt_a sqrt_b) Overflow;
  _ ← fail_if (sqrt_product =? 0) DivisionByZero;
  p ← ok_or (checked_mul I128 liquidity PRICE_SCALE) Overflow;
  p' ← ok_or (checked_mul I128 p sqrt_diff) Overflow;
  output ← ok_or (checked_div I128 p' sqrt_product) DivisionByZero;
  mret (cast U64 output).

(** ** Swap simulation *)

(** The variables of the loop. *)
Record swap_state := {
  remaining_in : Z;
  total_out : Z;
  sim_crossings : Z;
  sim_tick : Z;
  sim_liquidity : Z;
  sim_steps : list SwapStep
}.

(** The liquidity after crossing [next_tick]. *)
Definition cross_tick (s : tick_store) (a : AssetId) (next_tick : Z) (direction_up : bool)
    (liquidity : Z) : R Z :=
  let tick_data := get_tick_data s a next_tick in
  if direction_up then
    ok_or (checked_add U64 liquidity (cast U64 (liquidity_net tick_data))) Overflow
  else
    neg ← ineg I64 (liquidity_net tick_data);
    mret (saturating_sub U64 liquidity (cast U64 neg)).

Definition is_boundary (tick : Z) : bool := (tick =? MAX_TICK_INDEX) || (tick =? MIN_TICK_INDEX).

(** One round: the new variables, and whether to [break]. *)
Definition swap_round (s : tick_store) (a : AssetId) (direction_up : bool) (fee_bps : Z)
    (v : swap_state) : R (swap_state * bool) :=
  next ← find_next_initialized_tick s a (sim_tick v) direction_up;
  let next_tick := default (if direction_up then MAX_TICK_INDEX else MIN_TICK_INDEX) next in
  price_start ← tick_to_price (sim_tick v);
  price_end ← tick_to_price next_tick;
  step_in ← compute_step_input price_start price_end (sim_liquidity v);
  pf ← ok_or (checked_mul U128 step_in fee_bps) Overflow;
  fee ← ok_or (checked_div U128 pf 10000) DivisionByZero;
  net ← ok_or (checked_sub U128 step_in fee) Overflow;
  let net_in := cast U64 net in
  step_out ← compute_step_output price_start price_end (sim_liquidity v);
  let consumed := if net_in <=? remaining_in v then net_in else remaining_in v in
  actual_out ←
    (if 0 <? net_in then
       po ← ok_or (checked_mul U128 step_out consumed) Overflow;
       o ← ok_or (checked_div U128 po net_in) DivisionByZero;
       mret (cast U64 o)
     else mret 0);
  steps ← vpush (sim_steps v)
    {| start_tick := sim_tick v; end_tick := next_tick; ss_liquidity := sim_liquidity v;
       step_amount_in := consumed; step_amount_out := actual_out |};
  out ← ok_or (checked_add U64 (total_out v) actual_out) Overflow;
  let remaining := saturating_sub U64 (remaining_in v) consumed in
  '(liquidity, crossed) ←
    (if negb (is_boundary next_tick) then
       liquidity ← cross_tick s a next_tick direction_up (sim_liquidity v);
       crossed ← iadd U32 (sim_crossings v) 1;
       mret (liquidity, crossed)
     else mret (sim_liquidity v, sim_crossings v));
  mret ({| remaining_in := remaining; total_out := out; sim_crossings := crossed;
           sim_tick := next_tick; sim_liquidity := liquidity; sim_steps := steps |},
        is_boundary next_tick).

(** [while remaining_in > 0 && iterations < max_iterations]; [n] iterations remain. *)
Fixpoint swap_loop (n : nat) (s : tick_store) (a : AssetId) (direction_up : bool) (fee_bps : Z)
    (v : swap_state) : R swap_state :=
  match n with
  | O => mret v
  | S n =>
      if 0 <? remaining_in v then
        '(v', stop) ← swap_round s a direction_up fee_bps v;
        if (stop : bool) then mret v' else swap_loop n s a direction_up fee_bps v'
      else mret v
  end.

Definition simulate_swap_across_ticks (s : tick_store) (a : AssetId) (start : Z)
    (start_liquidity amount_in : Z) (direction_up : bool) (fee_bps : Z) :
    R (SwapTickResult * list SwapStep) :=
  _ ← fail_if (amount_in =? 0) ZeroSwapAmount;
  _ ← fail_if (start_liquidity =? 0) InsufficientLiquidityDepth;
  meta ← get_tick_index s a;
  max_iterations ← iadd U32 (tm_tick_count meta) 1;
  v ← swap_loop (Z.to_nat max_iterations) s a direction_up fee_bps
        {| remaining_in := amount_in; total_out := 0; sim_crossings := 0; sim_tick := start;
           sim_liquidity := start_liquidity; sim_steps := [] |};
  consumed ← isub U64 amount_in (remaining_in v);
  mret ({| final_tick := sim_tick v; final_liquidity := sim_liquidity v;
           sr_amount_in := consumed; sr_amount_out := total_out v;
           crossings := sim_crossings v |}, sim_steps v).

(** ** Queries *)
Definition tick_count (s : tick_store) (a : AssetId) : R Z :=
  meta ← get_tick_index s a; mret (tm_tick_count meta).

Definition active_liquidity (s : tick_store) (a : AssetId) : R Z :=
  meta ← get_tick_index s a; mret (tm_active_liquidity meta).

Definition get_all_initialized_ticks (s : tick_store) (a : AssetId) : list Z := get_tick_list s a.

Definition range_efficiency_bps (lower_tick upper_tick : Z) : R Z :=
  price_lower ← tick_to_price lower_tick;
  price_upper ← tick_to_price upper_tick;
  _ ← fail_if (price_lower =? 0) DivisionByZero;
  diff ← ok_or (checked_sub I128 price_upper price_lower) Overflow;
  p ← ok_or (checked_mul I128 diff 10000) Overflow;
  ok_or (checked_div I128 p price_lower) DivisionByZero.
