(* ===== verification/TickList.v ===== *)
(** * Root AMM: the sorted tick list

    The binary search, insertion and removal of [src/src/amm/ticks.rs] and the
    search for the next initialized tick, against the set of the list. *)

From stdpp Require Import base numbers list gmap sorting.
From Stdlib Require Import ZArith Lia.
From S2P Require Import Prelude RootErrors TickIndex.

Open Scope Z_scope.

Abbreviation sorted := (StronglySorted Z.lt).

Lemma sorted_lookup (l : list Z) (i j : nat) (x y : Z) :
  sorted l -> l !! i = Some x -> l !! j = Some y -> (i < j)%nat -> x < y.
Proof.
  intros Hs Hi Hj Hij. rewrite <- (take_drop j l) in Hs.
  apply (StronglySorted_app_1_elem_of _ (take j l) (drop j l)); [done| |].
  - apply list_elem_of_lookup. exists i. by rewrite lookup_take_lt.
  - apply list_elem_of_lookup. exists 0%nat. by rewrite lookup_drop, Nat.add_0_r.
Qed.

Lemma binary_search_loop_ok (fuel : nat) (l : list Z) (t lo hi : Z) :
  sorted l -> len l <= imax U32 -> 0 <= lo <= hi -> hi <= len l -> hi - lo < 2 ^ Z.of_nat fuel ->
  (forall i x, l !! i = Some x -> Z.of_nat i < lo -> x < t) ->
  (forall i x, l !! i = Some x -> hi <= Z.of_nat i -> t <= x) ->
  exists idx, binary_search_loop (S fuel) l t lo hi = Ok idx /\ 0 <= idx <= len l /\
    (forall i x, l !! i = Some x -> Z.of_nat i < idx -> x < t) /\
    (forall i x, l !! i = Some x -> idx <= Z.of_nat i -> t <= x).
Proof.
  intros Hs Hlen. revert lo hi. induction fuel as [|fuel IH]; intros lo hi Hlo Hhi Hf Hl Hr.
  - assert (hi = lo) as -> by lia. cbn [binary_search_loop].
    destruct (Z.ltb_spec lo lo); [lia|]. exists lo. split_and!; [done|lia..|done|done].
  - rewrite Nat2Z.inj_succ, Z.pow_succ_r in Hf by lia.
    cbn [binary_search_loop]. destruct (Z.ltb_spec lo hi) as [Hlt|].
    2: { assert (hi = lo) as -> by lia. exists lo. split_and!; [done|lia..|done|done]. }
    unfold isub, iadd. rewrite (iop_in U32 (hi - lo)) by ilia. cbn [mbind result_bind].
    pose proof (Z.div_mod (hi - lo) 2 ltac:(done)). pose proof (Z.mod_pos_bound (hi - lo) 2 ltac:(done)).
    set (mid := lo + (hi - lo) / 2) in *. assert (lo <= mid < hi) as Hmid by lia.
    rewrite iop_in by ilia. cbn [mbind result_bind].
    destruct (lookup_lt_is_Some_2 l (Z.to_nat mid)) as [v Hv]; [unfold len in *; lia|].
    assert (vget l mid = Some v) as -> by (apply vget_Some; split; [lia|done]).
    assert (forall i x, l !! i = Some x -> Z.of_nat i < mid -> x < v) as Hbelow.
    { intros i x Hi Him. eapply sorted_lookup; [exact Hs|exact Hi|exact Hv|lia]. }
    assert (forall i x, l !! i = Some x -> mid < Z.of_nat i -> v < x) as Habove.
    { intros i x Hi Him. eapply sorted_lookup; [exact Hs|exact Hv|exact Hi|lia]. }
    assert (forall i x, l !! i = Some x -> Z.of_nat i = mid -> x = v) as Hat.
    { intros i x Hi Him. replace i with (Z.to_nat mid) in Hi by lia. congruence. }
    destruct (Z.eqb_spec v t) as [->|Hne].
    + exists mid. split_and!; [done|lia..|done|].
      intros i x Hi Him. destruct (Z.eq_dec (Z.of_nat i) mid) as [E|E]; [apply Hat in Hi; lia|].
      apply Habove in Hi; lia.
    + destruct (Z.ltb_spec v t).
      * rewrite iop_in by ilia. cbn [mbind result_bind].
        apply (IH (mid + 1) hi); [lia..| |done]. intros i x Hi Him.
        destruct (Z.eq_dec (Z.of_nat i) mid) as [E|E]; [apply Hat in Hi; lia|].
        etrans; [eapply Hbelow; [exact Hi|lia]|done].
      * apply (IH lo mid); [lia..|done|]. intros i x Hi Him.
        destruct (Z.eq_dec (Z.of_nat i) mid) as [E|E]; [apply Hat in Hi; lia|].
        apply Habove in Hi; lia.
Qed.

(** The search cuts the list at the target. *)
Lemma binary_search_cut (l : list Z) (t : Z) :
  sorted l -> len l <= imax U32 ->
  exists l1 l2, l = l1 ++ l2 /\ binary_search_tick l t = Ok (len l1) /\
    (forall x, x ∈ l1 -> x < t) /\ (forall x, x ∈ l2 -> t <= x).
Proof.
  intros Hs Hlen. unfold binary_search_tick.
  destruct (binary_search_loop_ok 32 l t 0 (len l)) as (idx & -> & Hidx & Hl & Hr);
    [done|done|pose proof (len_nonneg l); lia|lia|cbn [imax] in Hlen; change (Z.of_nat 32) with 32; lia| | |].
  - intros i x _ Hi. lia.
  - intros i x Hi%lookup_lt_Some Hge. unfold len in Hge. lia.
  - exists (take (Z.to_nat idx) l), (drop (Z.to_nat idx) l). split_and!.
    + by rewrite take_drop.
    + f_equal. unfold len in *. rewrite length_take. lia.
    + intros x [i Hi]%list_elem_of_lookup. apply lookup_take_Some in Hi as [Hi Hlt].
      eapply Hl; [exact Hi|lia].
    + intros x [i Hi]%list_elem_of_lookup. rewrite lookup_drop in Hi. eapply Hr; [exact Hi|lia].
Qed.

(** The element at the cut is the least one not below the target. *)
Lemma holds_at_cut (l1 l2 : list Z) (t : Z) :
  holds_at (l1 ++ l2) (len l1) t = match l2 with x :: _ => x =? t | [] => false end.
Proof.
  unfold holds_at. rewrite len_app. unfold len. rewrite vget_nat, lookup_app_r, Nat.sub_diag by lia.
  destruct l2 as [|x l2]; cbn [length lookup list_lookup].
  - destruct (Z.ltb_spec (Z.of_nat (length l1)) (Z.of_nat (length l1) + Z.of_nat 0)); [lia|done].
  - destruct (Z.ltb_spec (Z.of_nat (length l1)) (Z.of_nat (length l1) + Z.of_nat (S (length l2)))); [cbn|lia].
    destruct (Z.eqb_spec x t) as [->|Hne]; [by rewrite bool_decide_eq_true|].
    rewrite bool_decide_eq_false. congruence.
Qed.

Lemma sorted_cut (l1 l2 : list Z) (t : Z) :
  sorted (l1 ++ l2) -> (forall x, x ∈ l2 -> t <= x) ->
  match l2 with x :: _ => x =? t | [] => false end = bool_decide (t ∈ l2).
Proof.
  intros Hs Hge. symmetry. destruct l2 as [|x l2]; [apply bool_decide_eq_false, not_elem_of_nil|].
  apply StronglySorted_app in Hs as (_ & _ & Hs). apply StronglySorted_cons in Hs as [Hx _].
  destruct (Z.eqb_spec x t) as [->|Hne]; [apply bool_decide_eq_true; left|].
  apply bool_decide_eq_false. intros [->|Hin]%elem_of_cons; [done|].
  rewrite Forall_forall in Hx. apply Hx in Hin. pose proof (Hge x ltac:(left)). lia.
Qed.

Lemma insert_tick_spec (l : list Z) (t : Z) :
  sorted l -> len l < MAX_TICKS_PER_POOL ->
  exists l', insert_tick_sorted l t = Ok l' /\ sorted l' /\ (forall x, x ∈ l' <-> x = t \/ x ∈ l) /\
    len l <= len l' <= len l + 1.
Proof.
  intros Hs Hlen. unfold insert_tick_sorted, MAX_TICKS_PER_POOL in *.
  rewrite fail_if_pass by (apply Z.leb_gt; lia).
  destruct (binary_search_cut l t Hs ltac:(ilia)) as (l1 & l2 & -> & -> & H1 & H2).
  rewrite bind_ret, holds_at_cut, (sorted_cut l1) by done.
  case_bool_decide as Hin.
  - exists (l1 ++ l2). split_and!; [done|done| |lia..]. intros x. rewrite elem_of_app. naive_solver.
  - exists (l1 ++ t :: l2). unfold vinsert. rewrite len_app in *.
    rewrite (proj2 (Z.leb_le 0 _)) by apply len_nonneg.
    rewrite (proj2 (Z.leb_le _ (_ + _))) by (pose proof (len_nonneg l2); lia). cbn [andb].
    unfold len at 1 2. rewrite Nat2Z.id, take_app_length, drop_app_length. split; [done|]. split; [|split].
    + apply StronglySorted_app in Hs as (Hs & Hs1 & Hs2). apply StronglySorted_app.
      split_and!; [|done|].
      * intros x y Hx [->|Hy]%elem_of_cons; [by apply H1|by apply Hs].
      * apply StronglySorted_cons. split; [|done]. apply Forall_forall. intros x Hx.
        pose proof (H2 x Hx). destruct (Z.eq_dec x t) as [->|]; [done|lia].
    + intros x. rewrite !elem_of_app, elem_of_cons. naive_solver.
    + rewrite len_app. unfold len. cbn [length]. lia.
Qed.

Lemma remove_tick_spec (l : list Z) (t : Z) :
  sorted l -> len l <= imax U32 ->
  exists l', remove_tick_sorted l t = Ok l' /\ sorted l' /\ (forall x, x ∈ l' <-> x ∈ l /\ x <> t).
Proof.
  intros Hs Hlen. unfold remove_tick_sorted.
  destruct (binary_search_cut l t Hs Hlen) as (l1 & l2 & -> & -> & H1 & H2).
  cbn [mbind result_bind]. rewrite holds_at_cut.
  destruct l2 as [|y l2]; [|destruct (Z.eqb_spec y t) as [->|Hne]].
  - eexists. split_and!; [done|done|]. intros x. rewrite app_nil_r in *. split; [|naive_solver].
    intros Hx. split; [done|]. intros ->. pose proof (H1 t Hx). lia.
  - exists (l1 ++ l2). unfold vremove, len. rewrite Nat2Z.id, delete_middle.
    apply StronglySorted_app in Hs as (Hs & Hs1 & Hs2). apply StronglySorted_cons in Hs2 as [Hy Hs2].
    rewrite Forall_forall in Hy. split_and!; [done| |].
    + apply StronglySorted_app. split_and!; [|done|done]. intros x z Hx Hz. apply Hs; [done|by right].
    + intros x. rewrite !elem_of_app, elem_of_cons. split; [|naive_solver].
      intros [Hx|Hx]; [pose proof (H1 x Hx)|pose proof (Hy x Hx)]; naive_solver lia.
  - eexists. split_and!; [done|done|]. intros x. split; [|naive_solver]. intros Hx. split; [done|].
    intros ->. apply elem_of_app in Hx as [Hx|Hx]; [pose proof (H1 t Hx); lia|].
    pose proof (sorted_cut l1 (y :: l2) t Hs H2) as Hc. rewrite bool_decide_true in Hc by done.
    by apply Z.eqb_eq in Hc.
Qed.

(** The answers of [find_next_initialized_tick]. *)
Lemma find_next_up (s : tick_store) (a cur : Z) :
  sorted (get_tick_list s a) -> len (get_tick_list s a) <= imax U32 ->
  exists r, find_next_initialized_tick s a cur true = Ok r /\
    match r with
    | Some t => t ∈ get_tick_list s a /\ cur <= t /\ forall x, x ∈ get_tick_list s a -> cur <= x -> t <= x
    | None => forall x, x ∈ get_tick_list s a -> x < cur
    end.
Proof.
  unfold find_next_initialized_tick. set (l := get_tick_list s a). clearbody l. intros Hs Hlen.
  destruct (Z.eqb_spec (len l) 0) as [E|_].
  { exists None. split; [done|]. destruct l; [|unfold len in E; cbn [length] in E; lia]. by intros x ?%not_elem_of_nil. }
  destruct (binary_search_cut l cur Hs Hlen) as (l1 & l2 & -> & -> & H1 & H2). cbn [mbind result_bind].
  rewrite len_app. unfold len. rewrite vget_nat, lookup_app_r, Nat.sub_diag by lia.
  destruct l2 as [|y l2]; cbn [length lookup list_lookup].
  - destruct (Z.ltb_spec (Z.of_nat (length l1)) (Z.of_nat (length l1) + Z.of_nat 0)); [lia|].
    exists None. split; [done|]. intros x. rewrite app_nil_r. apply H1.
  - destruct (Z.ltb_spec (Z.of_nat (length l1)) (Z.of_nat (length l1) + Z.of_nat (S (length l2)))); [|lia].
    pose proof (H2 y ltac:(left)). destruct (Z.leb_spec cur y); [|lia].
    exists (Some y). split; [done|]. split_and!; [apply elem_of_app; right; left|done|].
    intros x [Hx|Hx]%elem_of_app Hc; [pose proof (H1 x Hx); lia|].
    apply elem_of_cons in Hx as [->|Hx]; [lia|].
    apply StronglySorted_app in Hs as (_ & _ & Hs). apply StronglySorted_cons in Hs as [Hy _].
    rewrite Forall_forall in Hy. apply Hy in Hx. lia.
Qed.

Lemma find_next_down (s : tick_store) (a cur : Z) :
  sorted (get_tick_list s a) -> len (get_tick_list s a) <= imax U32 ->
  exists r, find_next_initialized_tick s a cur false = Ok r /\
    match r with
    | Some t => t ∈ get_tick_list s a /\ t <= cur /\ forall x, x ∈ get_tick_list s a -> x <= cur -> x <= t
    | None => forall x, x ∈ get_tick_list s a -> cur < x
    end.
Proof.
  unfold find_next_initialized_tick. set (l := get_tick_list s a). clearbody l. intros Hs Hlen.
  destruct (Z.eqb_spec (len l) 0) as [E|_].
  { exists None. split; [done|]. destruct l; [|unfold len in E; cbn [length] in E; lia]. by intros x ?%not_elem_of_nil. }
  destruct (binary_search_cut l cur Hs Hlen) as (l1 & l2 & -> & -> & H1 & H2). cbn [mbind result_bind].
  rewrite holds_at_cut, (sorted_cut l1) by done. case_bool_decide as Hin.
  { exists (Some cur). split; [done|]. split_and!; [apply elem_of_app; by right|lia|]. by intros. }
  assert (forall x, x ∈ l2 -> cur < x) as H2'.
  { intros x Hx. pose proof (H2 x Hx). destruct (Z.eq_dec x cur) as [->|]; [done|lia]. }
  destruct (Z.ltb_spec 0 (len l1)) as [Hpos|Hpos].
  - unfold isub. rewrite len_app in Hlen. pose proof (len_nonneg l2).
    rewrite iop_in by ilia. cbn [mbind result_bind].
    destruct l1 as [|t l1' _] using rev_ind; [done|].
    assert (vget ((l1' ++ [t]) ++ l2) (len (l1' ++ [t]) - 1) = Some t) as ->.
    { apply vget_Some. split; [lia|]. rewrite len_app. unfold len. cbn [length].
      rewrite <- app_assoc. replace (Z.to_nat _) with (length l1') by lia. by apply list_lookup_middle. }
    exists (Some t). split; [done|]. split_and!; [set_solver|apply Z.lt_le_incl, H1; set_solver|].
    intros x [[Hx|Hx]%elem_of_app|Hx]%elem_of_app Hc; [|apply list_elem_of_singleton in Hx; lia|pose proof (H2' x Hx); lia].
    apply StronglySorted_app in Hs as (_ & Hs & _). apply StronglySorted_app in Hs as (Hs & _ & _).
    apply Z.lt_le_incl, Hs; [done|set_solver].
  - exists None. split; [done|]. destruct l1; [|unfold len in Hpos; cbn in Hpos; lia]. done.
Qed.
