(* ===== verification/TickPrice.v ===== *)
(** * Root AMM: square roots and tick prices

    [integer_sqrt] and [tick_to_price] of [src/src/amm/ticks.rs]. The iterated
    price reaches 0 well before [MIN_TICK_INDEX] and exceeds [i128] well before
    [MAX_TICK_INDEX]: the two boundaries of the range have no usable price. *)

From stdpp Require Import base numbers list.
From Stdlib Require Import ZArith Lia.
From S2P Require Import Prelude Sqrt RootErrors TickIndex.

Open Scope Z_scope.

(** ** The square root *)

Lemma integer_sqrt_eq (val : Z) :
  0 <= val < imax I128 -> integer_sqrt val = Ok (Z.sqrt val).
Proof.
  intros Hv. unfold integer_sqrt. rewrite fail_if_pass by (apply Z.ltb_ge; lia).
  destruct (Z.eqb_spec val 0) as [->|Hne]; [done|].
  unfold iadd. rewrite iop_in by (cbn [imin]; lia). rewrite bind_ret.
  unfold idiv. destruct (Z.eqb_spec 2 0); [done|]. rewrite Z.quot_div_nonneg by lia.
  rewrite iop_in.
  2: { pose proof (Z.div_pos (val + 1) 2 ltac:(lia) ltac:(done)).
       pose proof (Z.div_le_upper_bound (val + 1) 2 (val + 1) ltac:(done) ltac:(lia)). cbn [imin]. lia. }
  rewrite bind_ret. apply sqrt_from_half. lia.
Qed.

(** ** The two ends of the tick range *)

(** A price going down loses at least one unit for each started 10001. *)
Lemma price_down_step (p : Z) :
  0 <= p -> 0 <= p * 10000 / 10001 <= p /\ 10001 * (p * 10000 / 10001) <= 10000 * p.
Proof.
  intros Hp. pose proof (Z.mul_div_le (p * 10000) 10001 ltac:(done)).
  assert (0 <= p * 10000 / 10001) by (apply Z.div_pos; lia). lia.
Qed.

Definition down (p : Z) : Z := p * 10000 / 10001.
Definition up (p : Z) : Z := p * 10001 / 10000.

Lemma price_steps_down (n : nat) (p : Z) :
  0 <= p <= PRICE_SCALE ->
  price_steps false n p = Ok (Nat.iter n down p) /\ 0 <= Nat.iter n down p <= p.
Proof.
  revert p. induction n as [|n IH]; intros p Hp; [split; [done|cbn [Nat.iter nat_rect]; lia]|].
  rewrite Nat.iter_succ_r. destruct (price_down_step p ltac:(lia)) as [Hd _]. fold (down p) in Hd.
  destruct (IH (down p) ltac:(lia)) as [E1 E2]. split; [|lia]. rewrite <- E1.
  change (price_steps false (S n) p) with
    (m ← ok_or (checked_mul I128 p TICK_BASE_PRECISION) Overflow;
     price' ← ok_or (checked_div I128 m TICK_BASE) DivisionByZero;
     price_steps false n price').
  unfold checked_mul, checked_div, chk, PRICE_SCALE, TICK_BASE, TICK_BASE_PRECISION in *.
  rewrite (proj2 (fits_spec I128 (p * 10000))) by ilia. cbn [ok_or]. rewrite bind_ret.
  cbn [Z.eqb]. rewrite Z.quot_div_nonneg by lia. fold (down p).
  rewrite (proj2 (fits_spec I128 (down p))) by ilia. cbn [ok_or]. by rewrite bind_ret.
Qed.

(** 10001 steps halve a price. *)
Definition half_life : nat := Z.to_nat 10001.

Lemma half_life_Z : Z.of_nat half_life = 10001.
Proof. unfold half_life. lia. Qed.

Lemma down_linear (n : nat) (b p : Z) :
  0 < b -> 0 <= p <= 2 * b ->
  10001 * Nat.iter n down p <= Z.max (10001 * b) (20002 * b - Z.of_nat n * b) /\ 0 <= Nat.iter n down p.
Proof.
  intros Hb Hp. induction n as [|n [IH1 IH2]]; [cbn [Nat.iter nat_rect]; lia|].
  rewrite Nat.iter_succ. set (q := Nat.iter n down p) in *.
  destruct (price_down_step q IH2) as [H1 H2]. fold (down q) in H1, H2. split; [|lia].
  destruct (Z.le_gt_cases q b); lia.
Qed.

Lemma down_halves (k : nat) (b p : Z) :
  0 < b -> 0 <= p <= b * 2 ^ Z.of_nat k -> 0 <= Nat.iter (k * half_life) down p <= b.
Proof.
  intros Hb. revert p. induction k as [|k IH]; intros p Hp.
  - cbn [Nat.mul Nat.iter nat_rect]. lia.
  - rewrite Nat2Z.inj_succ, Z.pow_succ_r in Hp by lia.
    replace (S k * half_life)%nat with (k * half_life + half_life)%nat by lia. rewrite Nat.iter_add. apply IH.
    pose proof (down_linear half_life (b * 2 ^ Z.of_nat k) p) as Hd.
    assert (0 < b * 2 ^ Z.of_nat k) by (apply Z.mul_pos_pos; [done|apply Z.pow_pos_nonneg; lia]).
    rewrite half_life_Z in Hd. lia.
Qed.

Lemma down_zero (n : nat) : Nat.iter n down 0 = 0.
Proof. induction n as [|n IH]; [done|]. rewrite Nat.iter_succ, IH. done. Qed.

(** From one unit, one more step reaches zero. *)
Lemma down_to_zero (n : nat) : (24 * half_life + 1 <= n)%nat -> Nat.iter n down PRICE_SCALE = 0.
Proof.
  intros Hn. replace n with ((n - (24 * half_life + 1)) + (1 + 24 * half_life))%nat by lia.
  rewrite !Nat.iter_add. destruct (down_halves 24 1 PRICE_SCALE) as [H1 H2]; [done|by vm_compute|].
  set (q := Nat.iter (24 * half_life) down PRICE_SCALE) in *. clearbody q.
  assert (Nat.iter 1 down q = 0) as ->; [|apply down_zero].
  assert (q = 0 \/ q = 1) as [-> | ->] by lia; reflexivity.
Qed.

(** ** Growth *)

(** Above 10000 the excess grows by one part in 10000, floor included. *)
Lemma up_step (p : Z) : 10000 <= p -> 10001 * (p - 10000) <= 10000 * (up p - 10000).
Proof.
  intros Hp. unfold up. pose proof (Z.mul_succ_div_gt (p * 10001) 10000 ltac:(done)). lia.
Qed.

Definition grows (f : Z -> Z) (a b : Z) : Prop :=
  forall p, 10000 <= p -> a * (p - 10000) <= b * (f p - 10000).

Lemma grows_above (f : Z -> Z) (a b p : Z) : 0 < b -> 0 <= a -> grows f a b -> 10000 <= p -> 10000 <= f p.
Proof.
  intros Hb Ha Hf Hp. pose proof (Hf p Hp). destruct (Z.le_gt_cases 10000 (f p)); [done|].
  exfalso. assert (b * (f p - 10000) < 0) by (apply Z.mul_pos_neg; lia).
  assert (0 <= a * (p - 10000)) by (apply Z.mul_nonneg_nonneg; lia). lia.
Qed.

Lemma grows_iter (f : Z -> Z) (a b : Z) (n : nat) :
  0 < b -> 0 <= a -> grows f a b -> grows (Nat.iter n f) (a ^ Z.of_nat n) (b ^ Z.of_nat n).
Proof.
  intros Hb Ha Hf. induction n as [|n IH]; intros p Hp.
  - cbn [Nat.iter nat_rect]. rewrite !Z.pow_0_r. lia.
  - rewrite Nat2Z.inj_succ, !Z.pow_succ_r, Nat.iter_succ by lia.
    assert (10000 <= Nat.iter n f p) as Hq.
    { eapply grows_above; [|..|exact IH|done]; [apply Z.pow_pos_nonneg; lia|apply Z.pow_nonneg; lia]. }
    pose proof (Hf _ Hq) as H1. pose proof (IH p Hp) as H2.
    assert (0 < b ^ Z.of_nat n) by (apply Z.pow_pos_nonneg; lia).
    transitivity (a * (b ^ Z.of_nat n * (Nat.iter n f p - 10000))).
    + rewrite <- Z.mul_assoc. apply Z.mul_le_mono_nonneg_l; lia.
    + replace (a * (b ^ Z.of_nat n * (Nat.iter n f p - 10000)))
        with (b ^ Z.of_nat n * (a * (Nat.iter n f p - 10000))) by ring.
      replace (b * b ^ Z.of_nat n * (f (Nat.iter n f p) - 10000))
        with (b ^ Z.of_nat n * (b * (f (Nat.iter n f p) - 10000))) by ring.
      apply Z.mul_le_mono_nonneg_l; lia.
Qed.

Lemma grows_weaken (f : Z -> Z) (a b c d : Z) :
  0 < b -> 0 < d -> c * b <= a * d -> grows f a b -> grows f c d.
Proof.
  intros Hb Hd Hr Hf p Hp. pose proof (Hf p Hp) as H1.
  apply (Z.mul_le_mono_pos_l _ _ b); [done|].
  transitivity (d * (a * (p - 10000))).
  - replace (b * (c * (p - 10000))) with (c * b * (p - 10000)) by ring.
    replace (d * (a * (p - 10000))) with (a * d * (p - 10000)) by ring.
    apply Z.mul_le_mono_nonneg_r; lia.
  - replace (b * (d * (f p - 10000))) with (d * (b * (f p - 10000))) by ring.
    apply Z.mul_le_mono_nonneg_l; lia.
Qed.

Lemma iter_iter (f : Z -> Z) (n m : nat) (p : Z) : Nat.iter n (Nat.iter m f) p = Nat.iter (n * m) f p.
Proof.
  induction n as [|n IH]; [done|]. rewrite Nat.iter_succ, IH.
  replace (S n * m)%nat with (m + n * m)%nat by lia. by rewrite Nat.iter_add.
Qed.

(** 10000 steps multiply the excess by at least 2.7. *)
Lemma up_10000 : grows (Nat.iter (100 * 100) up) 27 10.
Proof.
  assert (grows (Nat.iter 100 up) 101004 100000) as H1.
  { eapply (grows_weaken _ (10001 ^ 100) (10000 ^ 100)); [by apply Z.pow_pos_nonneg|done|by vm_compute|].
    apply (grows_iter up 10001 10000 100); [done|done|exact up_step]. }
  assert (grows (Nat.iter 100 (Nat.iter 100 up)) 27 10) as H2.
  { eapply (grows_weaken _ (101004 ^ 100) (100000 ^ 100)); [by apply Z.pow_pos_nonneg|done|by vm_compute|].
    by apply (grows_iter (Nat.iter 100 up) 101004 100000 100). }
  intros p Hp. rewrite <- iter_iter. by apply H2.
Qed.

(** 660000 steps from 1.0 leave the range of [i128] at the next multiplication. *)
Lemma up_overflows : imax I128 < Nat.iter (66 * (100 * 100)) up PRICE_SCALE * TICK_BASE.
Proof.
  pose proof (grows_iter (Nat.iter (100 * 100) up) 27 10 66 ltac:(done) ltac:(done) up_10000) as H.
  pose proof (H PRICE_SCALE ltac:(done)) as H1. rewrite iter_iter in H1.
  set (q := Nat.iter _ up PRICE_SCALE) in *. clearbody q.
  change (27 ^ Z.of_nat 66) with (27 ^ 66) in H1. change (10 ^ Z.of_nat 66) with (10 ^ 66) in H1.
  cbn [imax]. unfold PRICE_SCALE, TICK_BASE in *. lia.
Qed.

Lemma price_steps_up (n : nat) (p : Z) :
  10000 <= p ->
  (price_steps true n p = Ok (Nat.iter n up p) /\
   forall j, (j < n)%nat -> Nat.iter j up p * TICK_BASE <= imax I128) \/
  price_steps true n p = Err Overflow.
Proof.
  revert p. induction n as [|n IH]; intros p Hp; [left; split; [done|lia]|].
  assert (10000 <= up p) as Hup by (apply (grows_above up 10001 10000); [done|done|exact up_step|done]).
  change (price_steps true (S n) p) with
    (m ← ok_or (checked_mul I128 p TICK_BASE) Overflow;
     price' ← ok_or (checked_div I128 m TICK_BASE_PRECISION) DivisionByZero;
     price_steps true n price').
  unfold checked_mul, checked_div, chk. destruct (fits I128 (p * TICK_BASE)) eqn:E; [|by right].
  apply fits_spec in E. cbn [ok_or]. rewrite bind_ret. unfold TICK_BASE_PRECISION. cbn [Z.eqb].
  unfold TICK_BASE in *. rewrite Z.quot_div_nonneg by lia. fold (up p).
  rewrite (proj2 (fits_spec I128 (up p))).
  2: { unfold up in *. pose proof (Z.mul_div_le (p * 10001) 10000 ltac:(done)). cbn [imin] in *. lia. }
  cbn [ok_or]. rewrite bind_ret. destruct (IH (up p) Hup) as [[E1 E2]|E1]; [left|by right].
  rewrite Nat.iter_succ_r. split; [done|]. intros [|j] Hj; [cbn [Nat.iter nat_rect]; lia|].
  rewrite Nat.iter_succ_r. apply E2. lia.
Qed.

Lemma tick_to_price_top : tick_to_price MAX_TICK_INDEX = Err Overflow.
Proof.
  unfold tick_to_price.
  destruct (price_steps_up (Z.to_nat (Z.abs MAX_TICK_INDEX)) PRICE_SCALE ltac:(done)) as [[_ H]|H]; [|exact H].
  pose proof (H (66 * (100 * 100))%nat) as Hj. pose proof up_overflows as Ho.
  exfalso. apply (Z.lt_irrefl (imax I128)). eapply Z.lt_le_trans; [exact Ho|]. apply Hj.
  unfold MAX_TICK_INDEX. lia.
Qed.

Lemma tick_to_price_bottom (t : Z) : t <= -240025 -> tick_to_price t = Ok 0.
Proof.
  intros Ht. unfold tick_to_price. destruct (Z.ltb_spec 0 t); [lia|].
  destruct (price_steps_down (Z.to_nat (Z.abs t)) PRICE_SCALE) as [-> _]; [done|].
  rewrite down_to_zero; [done|]. pose proof half_life_Z. lia.
Qed.
