(* ===== verification/Positions.v ===== *)
(** * Root AMM: concentrated-liquidity positions

    [src/src/amm/positions.rs]: opening a position and splitting its range, over
    the tick store of [TickIndex]. Events carry no state and are left out. *)

From stdpp Require Import base numbers list gmap sorting.
From Stdlib Require Import ZArith Lia.
From S2P Require Import Prelude Host RootErrors TickIndex.

Open Scope Z_scope.

Section positions.
Context {H : Host}.

Record Position := {
  ps_id : Z;
  owner : Address;
  ps_asset : AssetId;
  tick_lower : Z;
  tick_upper : Z;
  ps_liquidity : Z;
  fee_growth_inside_last : Z;
  tokens_owed : Z
}.

Record SplitPositionResult := { sp_lower : Position; sp_upper : Position }.

(** The tick store, the records by [PositionKey], and [POSITION_COUNTER_KEY]. *)
Record pos_store := {
  ticks : tick_store;
  records : gmap Z Position;
  counter : option Z
}.

Definition with_ticks (s : pos_store) (t : tick_store) : pos_store :=
  {| ticks := t; records := records s; counter := counter s |}.

Definition get_position_record (s : pos_store) (id : Z) : R Position :=
  ok_or (records s !! id) PositionNotFound.

Definition set_position_record (s : pos_store) (p : Position) : pos_store :=
  {| ticks := ticks s; records := <[ps_id p := p]> (records s); counter := counter s |}.

Definition remove_position_record (s : pos_store) (id : Z) : pos_store :=
  {| ticks := ticks s; records := delete id (records s); counter := counter s |}.

Definition mint_position_id (s : pos_store) : R (pos_store * Z) :=
  id ← ok_or (checked_add U64 (default 0 (counter s)) 1) Overflow;
  mret ({| ticks := ticks s; records := records s; counter := Some id |}, id).

Definition get_position (s : pos_store) (id : Z) : R Position := get_position_record s id.

(** [t::try_from(z).map_err(|_| Overflow)] *)
Definition try_from (t : ity) (z : Z) : R Z := ok_or (chk t z) Overflow.

Definition open_position (auth : Address -> bool) (s : pos_store) (own : Address) (a : AssetId)
    (lower upper liquidity : Z) : R (pos_store * Position) :=
  _ ← require_auth auth own;
  _ ← fail_if (upper <=? lower) InvalidSplitBoundary;
  _ ← fail_if (liquidity =? 0) AmountTooLow;
  liquidity_i64 ← try_from I64 liquidity;
  t1 ← ensure_tick_initialized (ticks s) a lower;
  t2 ← ensure_tick_initialized t1 a upper;
  '(t3, _) ← place_liquidity t2 a lower liquidity_i64;
  neg ← ineg I64 liquidity_i64;
  '(t4, _) ← place_liquidity t3 a upper neg;
  inside ← get_fee_growth_inside t4 a lower upper;
  '(s1, id) ← mint_position_id (with_ticks s t4);
  let position := {| ps_id := id; owner := own; ps_asset := a; tick_lower := lower;
                     tick_upper := upper; ps_liquidity := liquidity;
                     fee_growth_inside_last := inside; tokens_owed := 0 |} in
  mret (set_position_record s1 position, position).

(** The shares of the lower and upper sub-range, in proportion to their widths. *)
Definition split_by_width (amount width_lower width_total : Z) : R (Z * Z) :=
  p ← ok_or (checked_mul U128 amount width_lower) Overflow;
  q ← idiv U128 p width_total;
  let lower := cast U64 q in
  upper ← ok_or (checked_sub U64 amount lower) Overflow;
  mret (lower, upper).

Definition split_position (auth : Address -> bool) (s : pos_store) (caller : Address) (id : Z)
    (tick_mid : Z) : R (pos_store * SplitPositionResult) :=
  _ ← require_auth auth caller;
  position ← get_position_record s id;
  _ ← fail_if (bool_decide (owner position <> caller)) Unauthorized;
  _ ← fail_if ((tick_mid <=? tick_lower position) || (tick_upper position <=? tick_mid))
        InvalidSplitBoundary;
  let a := ps_asset position in
  meta ← get_tick_index (ticks s) a;
  r ← irem I32 tick_mid (tick_spacing meta);
  _ ← fail_if (negb (r =? 0)) TickNotAligned;
  now ← get_fee_growth_inside (ticks s) a (tick_lower position) (tick_upper position);
  let fee_growth_delta := wrapping_sub U128 now (fee_growth_inside_last position) in
  pf ← ok_or (checked_mul U128 fee_growth_delta (ps_liquidity position)) Overflow;
  accrued ← idiv U128 pf FEE_GROWTH_SCALE;
  owed ← ok_or (checked_add U128 (tokens_owed position) accrued) Overflow;
  total_owed ← try_from U64 owed;
  wt ← isub I32 (tick_upper position) (tick_lower position);
  wl ← isub I32 tick_mid (tick_lower position);
  let width_total := cast U128 wt in
  let width_lower := cast U128 wl in
  '(liquidity_lower, liquidity_upper) ← split_by_width (ps_liquidity position) width_lower width_total;
  _ ← fail_if ((liquidity_lower =? 0) || (liquidity_upper =? 0)) AmountTooLow;
  '(owed_lower, owed_upper) ← split_by_width total_owed width_lower width_total;
  lower_i64 ← try_from I64 liquidity_lower;
  upper_i64 ← try_from I64 liquidity_upper;
  t1 ← ensure_tick_initialized (ticks s) a tick_mid;
  neg ← ineg I64 upper_i64;
  '(t2, _) ← place_liquidity t1 a (tick_lower position) neg;
  d ← isub I64 upper_i64 lower_i64;
  '(t3, _) ← place_liquidity t2 a tick_mid d;
  '(t4, _) ← place_liquidity t3 a (tick_upper position) lower_i64;
  inside_lower ← get_fee_growth_inside t4 a (tick_lower position) tick_mid;
  inside_upper ← get_fee_growth_inside t4 a tick_mid (tick_upper position);
  let s1 := remove_position_record (with_ticks s t4) id in
  '(s2, lower_id) ← mint_position_id s1;
  let lower := {| ps_id := lower_id; owner := owner position; ps_asset := a;
                  tick_lower := tick_lower position; tick_upper := tick_mid;
                  ps_liquidity := liquidity_lower; fee_growth_inside_last := inside_lower;
                  tokens_owed := owed_lower |} in
  let s3 := set_position_record s2 lower in
  '(s4, upper_id) ← mint_position_id s3;
  let upper := {| ps_id := upper_id; owner := owner position; ps_asset := a;
                  tick_lower := tick_mid; tick_upper := tick_upper position;
                  ps_liquidity := liquidity_upper; fee_growth_inside_last := inside_upper;
                  tokens_owed := owed_upper |} in
  mret (set_position_record s4 upper, {| sp_lower := lower; sp_upper := upper |}).
End positions.
