(* ===== verification/TickBook.v ===== *)
(** * Root AMM: the books of a tick store

    The accounting invariant of liquidity placement and the histories it is kept
    over: [run_ticks] runs a sequence of calls of the module's operations, each on
    the store the last one left, and [placed] and [placed_below] read off the calls
    what the store must hold after them. *)

From stdpp Require Import base numbers list gmap sorting.
From Stdlib Require Import ZArith Lia.
From S2P Require Import Prelude RootErrors TickIndex TickList.

Open Scope Z_scope.

(** ** Sums over the ticks of a pool *)

(** The net liquidity of a tick, when it belongs to pool [a] at or below [cur]. *)
Definition net_at (a cur : Z) (k : Z * Z) (d : TickData) : Z :=
  if bool_decide (k.1 = a /\ k.2 <= cur) then liquidity_net d else 0.

Definition net_below (m : gmap (Z * Z) TickData) (a cur : Z) : Z :=
  map_fold (fun k d acc => net_at a cur k d + acc) 0 m.

Lemma net_below_insert_new (m : gmap (Z * Z) TickData) (a cur : Z) (k : Z * Z) (d : TickData) :
  m !! k = None -> net_below (<[k := d]> m) a cur = net_at a cur k d + net_below m a cur.
Proof.
  intros Hk. unfold net_below.
  rewrite (map_fold_insert_L (fun k d acc => net_at a cur k d + acc)); [done|intros; lia|done].
Qed.

Lemma net_below_insert (m : gmap (Z * Z) TickData) (a cur : Z) (k : Z * Z) (d : TickData) :
  net_below (<[k := d]> m) a cur
    = net_below m a cur - (match m !! k with Some d0 => net_at a cur k d0 | None => 0 end)
      + net_at a cur k d.
Proof.
  destruct (m !! k) as [d0|] eqn:Ek; [|rewrite net_below_insert_new by done; lia].
  assert (net_below m a cur = net_at a cur k d0 + net_below (delete k m) a cur) as ->.
  { apply (map_fold_delete_L (fun k d acc => net_at a cur k d + acc) 0 k d0 m); [intros; lia|done]. }
  rewrite <- insert_delete_eq, net_below_insert_new by apply lookup_delete_eq. lia.
Qed.

Lemma net_below_none (m : gmap (Z * Z) TickData) (a cur : Z) :
  (forall t d, m !! (a, t) = Some d -> False) -> net_below m a cur = 0.
Proof.
  induction m as [|[b t] d m Hk IH] using map_ind; intros Hn.
  - apply map_fold_empty.
  - rewrite net_below_insert_new by done. rewrite IH.
    + unfold net_at. cbn [fst snd]. rewrite bool_decide_eq_false_2; [done|]. intros [-> _].
      apply (Hn t d), lookup_insert_eq.
    + intros u e Hu. apply (Hn u e). rewrite lookup_insert_ne; [done|]. congruence.
Qed.

(** ** One placement *)

(** The accounting of a store: every tick has a net liquidity equal to its gross one,
    both [u64]s; the active liquidity is the net liquidity at or below the current
    tick; no tick is in the list. *)
Definition ticks_ok (s : tick_store) : Prop :=
  (forall a t d, datas s !! (a, t) = Some d ->
     is_Some (indexes s !! a) /\ liquidity_net d = liquidity_gross d /\
     0 <= liquidity_gross d <= imax U64) /\
  (forall a m, indexes s !! a = Some m ->
     tm_active_liquidity m = net_below (datas s) a (current_tick m) /\
     current_tick m = 0 /\ tm_tick_count m = 0 /\ get_tick_list s a = []).

Lemma get_tick_ok (s : tick_store) (a t : Z) :
  ticks_ok s -> liquidity_net (get_tick_data s a t) = liquidity_gross (get_tick_data s a t) /\
    0 <= liquidity_gross (get_tick_data s a t) <= imax U64.
Proof.
  intros [Hd _]. unfold get_tick_data. destruct (datas s !! (a, t)) as [d|] eqn:E; cbn [from_option id].
  - by apply Hd in E as (_ & ? & ?).
  - cbn [empty_tick liquidity_net liquidity_gross imax]. lia.
Qed.

Definition is_i64 (z : Z) : Prop := imin I64 <= z <= imax I64.

Lemma get_set_tick_list (s : tick_store) (a b : Z) (l : list Z) :
  get_tick_list (set_tick_list s a l) b = if decide (a = b) then l else get_tick_list s b.
Proof.
  unfold get_tick_list, set_tick_list. cbn [lists]. destruct (decide (a = b)) as [<-|].
  - by rewrite lookup_insert_eq.
  - by rewrite lookup_insert_ne.
Qed.

Lemma remove_from_nil (t : Z) : remove_tick_sorted [] t = Ok [].
Proof. reflexivity. Qed.

(** The gross and active liquidity of a placement. *)
Lemma place_amounts (gross0 active0 delta : Z) (affects : bool) (r : Z * Z) :
  is_i64 delta ->
  (if 0 <? delta then
     gross ← ok_or (checked_add U64 gross0 (cast U64 delta)) Overflow;
     active ← (if affects then ok_or (checked_add U64 active0 (cast U64 delta)) Overflow
               else mret active0);
     mret (gross, active)
   else if delta <? 0 then
     neg ← ineg I64 delta;
     gross ← ok_or (checked_sub U64 gross0 (cast U64 neg)) Overflow;
     active ← (if affects then ok_or (checked_sub U64 active0 (cast U64 neg)) Overflow
               else mret active0);
     mret (gross, active)
   else mret (gross0, active0) : R (Z * Z)) = Ok r ->
  r = (gross0 + delta, active0 + if affects then delta else 0) /\
  (delta <> 0 -> 0 <= gross0 + delta <= imax U64).
Proof.
  intros Hd Hg. unfold is_i64 in Hd. destruct (Z.ltb_spec 0 delta); [|destruct (Z.ltb_spec delta 0)].
  - rewrite (cast_in U64) in Hg by ilia.
    apply bind_Ok in Hg as (g & Hg1%ok_or_Ok & Hg). apply chk_Some in Hg1 as [-> ?].
    apply bind_Ok in Hg as (ac & Ha & Hg). injection Hg as <-. split; [|done]. f_equal.
    destruct affects; [apply ok_or_Ok, chk_Some in Ha as [-> _]; done|]. injection Ha as <-. lia.
  - apply bind_Ok in Hg as (neg & Hneg & Hg). apply iop_Ok in Hneg as [-> Hneg].
    rewrite (cast_in U64) in Hg by ilia.
    apply bind_Ok in Hg as (g & Hg1%ok_or_Ok & Hg). apply chk_Some in Hg1 as [-> ?].
    apply bind_Ok in Hg as (ac & Ha & Hg). injection Hg as <-. split; [|intros _; cbn [imin imax] in *; lia].
    f_equal; [lia|].
    destruct affects; [apply ok_or_Ok, chk_Some in Ha as [-> _]; lia|]. injection Ha as <-. lia.
  - injection Hg as <-. split; [|lia]. assert (delta = 0) as -> by lia. f_equal; destruct affects; lia.
Qed.

(** The list step of a placement on a pool without ticks: both tests are on the new
    gross liquidity, and a positive delta makes it positive. *)
Lemma place_list (s : tick_store) (a t gross delta count : Z) (r : tick_store * Z) :
  get_tick_list s a = [] -> count = 0 -> (0 < delta -> gross <> 0) ->
  (if ((gross =? 0) && (0 <? delta)) || ((gross =? 0) && (delta <? 0)) then
     if (gross =? 0) && (0 <? delta) && (0 <? delta) then
       l' ← insert_tick_sorted (get_tick_list s a) t;
       count' ← ok_or (checked_add U32 count 1) Overflow;
       mret (set_tick_list s a l', count')
     else if (gross =? 0) && (delta <? 0) && (delta <? 0) then
       l' ← remove_tick_sorted (get_tick_list s a) t;
       mret (set_tick_list s a l', saturating_sub U32 count 1)
     else mret (set_tick_list s a (get_tick_list s a), count)
   else mret (s, count) : R (tick_store * Z)) = Ok r ->
  r.2 = 0 /\ indexes r.1 = indexes s /\ datas r.1 = datas s /\
  forall b, get_tick_list r.1 b = get_tick_list s b.
Proof.
  intros Hl -> Hg Hs.
  assert (forall b, get_tick_list (set_tick_list s a []) b = get_tick_list s b) as Hsame.
  { intros b. rewrite get_set_tick_list. by destruct (decide (a = b)) as [<-|]. }
  assert ((gross =? 0) && (0 <? delta) = false) as E by lia. rewrite E in Hs.
  rewrite andb_false_l in Hs. rewrite orb_false_l in Hs.
  destruct ((gross =? 0) && (delta <? 0)) eqn:Ee; [|injection Hs as <-; done].
  apply andb_true_iff in Ee as [_ Ed]. rewrite Ed in Hs. rewrite andb_true_l in Hs.
  rewrite Hl, remove_from_nil in Hs. rewrite bind_ret in Hs. injection Hs as <-. cbn [fst snd].
  split; [done|]. split; [done|]. split; [done|]. exact Hsame.
Qed.

(** A placement on a good store: gross and net move by the delta, and so does the
    active liquidity when the tick is at or below the current one. The list does not
    change: the code tests for an empty tick after it added to it. *)
Lemma place_Ok (s s' : tick_store) (a t delta : Z) (d : TickData) :
  ticks_ok s -> is_i64 delta -> place_liquidity s a t delta = Ok (s', d) ->
  exists m, indexes s !! a = Some m /\
    let old := get_tick_data s a t in
    let active := tm_active_liquidity m + (if t <=? current_tick m then delta else 0) in
    0 <= liquidity_gross old + delta <= imax U64 /\
    d = {| liquidity_net := liquidity_net old + delta; liquidity_gross := liquidity_gross old + delta;
           fee_growth_outside := fee_growth_outside old |} /\
    indexes s' = <[a := {| tm_asset := tm_asset m; tick_spacing := tick_spacing m;
                           current_tick := current_tick m; tm_active_liquidity := active;
                           tm_tick_count := 0; fee_growth_global := fee_growth_global m |}]> (indexes s) /\
    datas s' = <[(a, t) := d]> (datas s) /\
    forall b, get_tick_list s' b = get_tick_list s b.
Proof.
  intros Hok Hdelta Hp.
  destruct (get_tick_ok s a t Hok) as [Hnet Hgross]. unfold place_liquidity in Hp.
  apply bind_Ok in Hp as (m & Hm%ok_or_Ok & Hp).
  destruct Hok as [_ Hi]. destruct (Hi a m Hm) as (_ & _ & Hcount & Hlist).
  apply bind_Ok in Hp as (? & _ & Hp). apply bind_Ok in Hp as (? & _ & Hp).
  apply bind_Ok in Hp as (? & _ & Hp). cbv zeta in Hp.
  set (old := get_tick_data s a t) in *.
  apply bind_Ok in Hp as ([gross active] & Hg & Hp).
  apply place_amounts in Hg as [[= -> ->] Hr]; [|done].
  apply bind_Ok in Hp as (net & Hn%ok_or_Ok & Hp). apply chk_Some in Hn as [-> _].
  apply bind_Ok in Hp as ([s1 count] & Hs1 & Hp). injection Hp as <- <-.
  assert (0 <= liquidity_gross old + delta <= imax U64) as Hr'.
  { destruct (Z.eq_dec delta 0) as [->|]; [lia|by apply Hr]. }
  apply place_list in Hs1 as (E0 & E1 & E2 & E3); [|done|done|lia].
  cbn [fst snd] in *. subst count.
  exists m. split; [done|]. cbv zeta. split; [done|]. split; [done|].
  cbn [set_index set_tick_data indexes datas]. rewrite E1, E2. done.
Qed.

Lemma net_at_same (a cur t : Z) (d : TickData) :
  net_at a cur (a, t) d = if t <=? cur then liquidity_net d else 0.
Proof.
  unfold net_at. cbn [fst snd]. case_bool_decide; destruct (Z.leb_spec t cur); done || lia.
Qed.

Lemma net_at_other (a b cur t : Z) (d : TickData) : b <> a -> net_at a cur (b, t) d = 0.
Proof. intros Hne. unfold net_at. cbn [fst]. case_bool_decide; tauto. Qed.

(** Writing a tick moves the sums of its own pool only. *)
Lemma net_below_tick (s : tick_store) (a b cur t : Z) (d : TickData) :
  net_below (<[(b, t) := d]> (datas s)) a cur
    = net_below (datas s) a cur
      + (if (b =? a) && (t <=? cur)
         then liquidity_net d - liquidity_net (get_tick_data s a t) else 0).
Proof.
  rewrite net_below_insert. unfold get_tick_data. destruct (Z.eqb_spec b a) as [->|Hne]; cbn [andb].
  - destruct (datas s !! (a, t)) as [d0|]; cbn [from_option id]; rewrite ?net_at_same;
      destruct (t <=? cur); cbn [empty_tick liquidity_net]; lia.
  - destruct (datas s !! (b, t)) as [d0|]; rewrite ?net_at_other by done; lia.
Qed.

Lemma place_ok (s s' : tick_store) (a t delta : Z) (d : TickData) :
  ticks_ok s -> is_i64 delta -> place_liquidity s a t delta = Ok (s', d) -> ticks_ok s'.
Proof.
  intros Hok Hdelta Hp. destruct (get_tick_ok s a t Hok) as [Hnet _].
  apply place_Ok in Hp as (m & Hm & Hr & Ed & Ei & Edd & El); [|done..].
  destruct Hok as [Hd Hi]. split.
  - intros b u e. rewrite Edd, Ei. rewrite lookup_insert_Some. intros [[[= <- <-] <-]|[Hne Hu]].
    + rewrite lookup_insert_eq. rewrite Ed. cbn [liquidity_net liquidity_gross]. split; [by eexists|].
      rewrite Hnet. done.
    + apply Hd in Hu as (Hs & Hu1 & Hu2). split; [|done].
      destruct (decide (a = b)) as [<-|]; [rewrite lookup_insert_eq; by eexists|by rewrite lookup_insert_ne].
  - intros b m' Hm'. rewrite El, Edd. rewrite Ei in Hm'. rewrite lookup_insert_Some in Hm'.
    destruct Hm' as [[<- <-]|[Hne Hm']].
    + destruct (Hi a m Hm) as (Ha & Hc & _ & Hl). cbn [tm_active_liquidity current_tick tm_tick_count].
      rewrite net_below_tick, Z.eqb_refl, <- Ha, Ed. cbn [andb liquidity_net].
      split_and!; [|done..]. destruct (t <=? current_tick m); lia.
    + destruct (Hi b m' Hm') as (Ha & Hc & Hk & Hl). rewrite net_below_tick.
      destruct (Z.eqb_spec a b); [done|]. cbn [andb]. split_and!; [lia|done..].
Qed.

Lemma ensure_ok (s s' : tick_store) (a t : Z) :
  ticks_ok s -> ensure_tick_initialized s a t = Ok s' ->
  ticks_ok s' /\ (forall b u, liquidity_gross (get_tick_data s' b u) = liquidity_gross (get_tick_data s b u)).
Proof.
  intros [Hd Hi] He. unfold ensure_tick_initialized in He.
  case_bool_decide as Hs; [injection He as <-; done|]. apply bind_Ok in He as (m & Hm%ok_or_Ok & He).
  injection He as <-. apply eq_None_not_Some in Hs. split; [split|].
  - cbn [set_tick_data indexes datas]. intros b u e. rewrite lookup_insert_Some.
    intros [[[= <- <-] <-]|[_ Hu]]; [|exact (Hd b u e Hu)]. cbn [liquidity_net liquidity_gross imax].
    split; [by eexists|lia].
  - cbn [set_tick_data indexes datas]. intros b m' Hm'. destruct (Hi b m' Hm') as (Ha & Hc & Hk & Hl).
    rewrite net_below_tick. unfold get_tick_data. cbn [liquidity_net]. split_and!; [|done..].
    destruct (Z.eqb_spec a b) as [->|]; cbn [andb]; [|lia]. rewrite Hs. cbn [from_option id empty_tick liquidity_net].
    destruct (t <=? current_tick m'); lia.
  - intros b u. unfold get_tick_data. cbn [set_tick_data datas].
    destruct (decide ((a, t) = (b, u))) as [[= <- <-]|Hne].
    + rewrite lookup_insert_eq, Hs. done.
    + by rewrite lookup_insert_ne.
Qed.

Lemma init_ticks_ok (s s' : tick_store) (a spacing : Z) (m : TickIndexMeta) :
  ticks_ok s -> initialize_tick_index s a spacing = Ok (s', m) -> ticks_ok s' /\ datas s' = datas s.
Proof.
  intros [Hd Hi] He. unfold initialize_tick_index in He.
  apply bind_Ok in He as (? & _ & He). apply bind_Ok in He as (? & Hn%fail_if_Ok & He).
  apply bool_decide_eq_false, eq_None_not_Some in Hn. injection He as <- <-. split; [split|done].
  - cbn [set_tick_list set_index indexes datas]. intros b u e Hu. destruct (Hd b u e Hu) as (Hs & Hr).
    split; [|done]. rewrite lookup_insert_ne; [done|]. intros <-. rewrite Hn in Hs. by destruct Hs.
  - cbn [set_tick_list set_index indexes datas]. intros b m'. rewrite lookup_insert_Some.
    intros [[<- <-]|[Hne Hm']]; rewrite get_set_tick_list.
    + rewrite decide_True by done. split_and!; [|done..]. rewrite net_below_none; [done|].
      intros t d Ht. apply Hd in Ht as [Hs _]. rewrite Hn in Hs. by destruct Hs.
    + rewrite decide_False by done. by apply (Hi b m').
Qed.

Lemma accrue_ok (s s' : tick_store) (a fee : Z) :
  ticks_ok s -> accrue_fee_growth s a fee = Ok s' -> ticks_ok s' /\ datas s' = datas s.
Proof.
  intros Hok He. pose proof Hok as [Hd Hi]. unfold accrue_fee_growth in He.
  destruct (fee =? 0); [injection He as <-; done|].
  apply bind_Ok in He as (m & Hm%ok_or_Ok & He).
  do 4 (apply bind_Ok in He as (? & _ & He)). injection He as <-. split; [split|done].
  - cbn [set_index indexes datas]. intros b u e Hu. destruct (Hd b u e Hu) as (Hs & Hr). split; [|done].
    destruct (decide (a = b)) as [<-|]; [rewrite lookup_insert_eq; by eexists|by rewrite lookup_insert_ne].
  - cbn [set_index indexes datas]. intros b m'. rewrite lookup_insert_Some. intros [[<- <-]|[_ Hm']].
    + cbn [tm_active_liquidity current_tick tm_tick_count]. by apply (Hi a m).
    + by apply Hi.
Qed.

Lemma tier_ok (s s' : tick_store) (a tier r : Z) :
  ticks_ok s -> set_pool_fee_tier s a tier = Ok (s', r) -> ticks_ok s' /\ datas s' = datas s.
Proof.
  intros Hok He. unfold set_pool_fee_tier in He. apply bind_Ok in He as (? & _ & He).
  injection He as <- <-. split; [exact Hok|done].
Qed.

(** ** Histories of the module's operations *)
Inductive tick_call :=
| CallInit (a spacing : Z)
| CallPlace (a t delta : Z)
| CallEnsure (a t : Z)
| CallAccrue (a fee : Z)
| CallTier (a tier : Z).

(** The delta of a placement is an [i64]. *)
Definition call_typed (c : tick_call) : Prop :=
  match c with CallPlace _ _ delta => is_i64 delta | _ => True end.

Definition tick_call_step (s : tick_store) (c : tick_call) : R tick_store :=
  match c with
  | CallInit a spacing => '(s', _) ← initialize_tick_index s a spacing; mret s'
  | CallPlace a t delta => '(s', _) ← place_liquidity s a t delta; mret s'
  | CallEnsure a t => ensure_tick_initialized s a t
  | CallAccrue a fee => accrue_fee_growth s a fee
  | CallTier a tier => '(s', _) ← set_pool_fee_tier s a tier; mret s'
  end.

Fixpoint run_ticks (s : tick_store) (cs : list tick_call) : R tick_store :=
  match cs with
  | [] => mret s
  | c :: cs => s' ← tick_call_step s c; run_ticks s' cs
  end.

(** What the calls placed at one tick, and in a pool at or below tick 0. *)
Definition placed_by (a t : Z) (c : tick_call) : Z :=
  match c with
  | CallPlace b u delta => if (b =? a) && (u =? t) then delta else 0
  | _ => 0
  end.
Definition placed (a t : Z) (cs : list tick_call) : Z := zsum (map (placed_by a t) cs).

Definition placed_below_by (a : Z) (c : tick_call) : Z :=
  match c with
  | CallPlace b u delta => if (b =? a) && (u <=? 0) then delta else 0
  | _ => 0
  end.
Definition placed_below (a : Z) (cs : list tick_call) : Z := zsum (map (placed_below_by a) cs).

(** One call moves a tick by what it placed there and keeps the invariant. *)
Lemma tick_call_ok (s s' : tick_store) (c : tick_call) :
  ticks_ok s -> call_typed c -> tick_call_step s c = Ok s' ->
  ticks_ok s' /\
  forall a t, liquidity_gross (get_tick_data s' a t)
    = liquidity_gross (get_tick_data s a t) + placed_by a t c.
Proof.
  intros Hok Hc Hs. destruct c as [a0 sp|a0 t0 delta|a0 t0|a0 fee|a0 tier]; cbn [tick_call_step placed_by] in *.
  - apply bind_Ok in Hs as ([s1 m] & Hs & Hs1). injection Hs1 as <-.
    apply init_ticks_ok in Hs as [Hok' Hd]; [|done]. split; [done|]. intros a t. unfold get_tick_data.
    rewrite Hd. lia.
  - apply bind_Ok in Hs as ([s1 d] & Hs & Hs1). injection Hs1 as <-. split; [by eapply place_ok|].
    apply place_Ok in Hs as (m & _ & _ & Ed & _ & Edd & _); [|done..]. intros a t.
    unfold get_tick_data at 1. rewrite Edd. destruct (decide ((a0, t0) = (a, t))) as [[= <- <-]|Hne].
    + rewrite lookup_insert_eq, !Z.eqb_refl, Ed. done.
    + rewrite lookup_insert_ne by done. fold (get_tick_data s a t).
      destruct (Z.eqb_spec a0 a), (Z.eqb_spec t0 t); cbn [andb]; try lia. congruence.
  - apply ensure_ok in Hs as [Hok' Hg]; [|done]. split; [done|]. intros a t. rewrite Hg. lia.
  - apply accrue_ok in Hs as [Hok' Hd]; [|done]. split; [done|]. intros a t. unfold get_tick_data.
    rewrite Hd. lia.
  - apply bind_Ok in Hs as ([s1 r] & Hs & Hs1). injection Hs1 as <-.
    apply tier_ok in Hs as [Hok' Hd]; [|done]. split; [done|]. intros a t. unfold get_tick_data.
    rewrite Hd. lia.
Qed.

(** The active liquidity of a pool moves by what was placed at or below tick 0. *)
Definition active_of (s : tick_store) (a : Z) : Z :=
  match indexes s !! a with Some m => tm_active_liquidity m | None => 0 end.

Lemma tick_call_active (s s' : tick_store) (c : tick_call) :
  ticks_ok s -> call_typed c -> tick_call_step s c = Ok s' ->
  forall a, active_of s' a = active_of s a + placed_below_by a c.
Proof.
  intros Hok Hc Hs a. destruct c as [a0 sp|a0 t0 delta|a0 t0|a0 fee|a0 tier];
    cbn [tick_call_step placed_below_by] in *.
  - apply bind_Ok in Hs as ([s1 m] & Hs & Hs1). injection Hs1 as <-. unfold initialize_tick_index in Hs.
    apply bind_Ok in Hs as (? & _ & Hs). apply bind_Ok in Hs as (? & Hn%fail_if_Ok & Hs).
    apply bool_decide_eq_false, eq_None_not_Some in Hn. injection Hs as <- <-. unfold active_of.
    cbn [set_tick_list set_index indexes]. destruct (decide (a0 = a)) as [<-|].
    + rewrite lookup_insert_eq, Hn. done.
    + rewrite lookup_insert_ne by done. lia.
  - apply bind_Ok in Hs as ([s1 d] & Hs & Hs1). injection Hs1 as <-.
    apply place_Ok in Hs as (m & Hm & _ & _ & Ei & _ & _); [|done..]. unfold active_of. rewrite Ei.
    destruct Hok as [_ Hi]. destruct (Hi a0 m Hm) as (_ & Hcur & _ & _). rewrite Hcur.
    destruct (decide (a0 = a)) as [<-|Hne].
    + rewrite lookup_insert_eq, Hm, Z.eqb_refl. done.
    + rewrite lookup_insert_ne by done. destruct (Z.eqb_spec a0 a); [done|]. cbn [andb]. lia.
  - unfold ensure_tick_initialized in Hs. case_bool_decide; [injection Hs as <-; lia|].
    apply bind_Ok in Hs as (m & _ & Hs). injection Hs as <-. unfold active_of. cbn [set_tick_data indexes]. lia.
  - unfold accrue_fee_growth in Hs. destruct (fee =? 0); [injection Hs as <-; lia|].
    apply bind_Ok in Hs as (m & Hm%ok_or_Ok & Hs). do 4 (apply bind_Ok in Hs as (? & _ & Hs)).
    injection Hs as <-. unfold active_of. cbn [set_index indexes]. destruct (decide (a0 = a)) as [<-|Hne].
    + rewrite lookup_insert_eq, Hm. cbn [tm_active_liquidity]. lia.
    + rewrite lookup_insert_ne by done. lia.
  - unfold set_pool_fee_tier in Hs. rewrite bind_Ok in Hs. destruct Hs as ([s1 r] & Hs & Hs1).
    injection Hs1 as <-. apply bind_Ok in Hs as (? & _ & Hs). injection Hs as <- <-. unfold active_of.
    cbn [set_tier indexes]. lia.
Qed.

Lemma empty_ticks_ok : ticks_ok empty_ticks.
Proof. split; intros; cbn [empty_ticks datas indexes] in *; rewrite lookup_empty in *; discriminate. Qed.

Lemma run_ticks_ok (s s' : tick_store) (cs : list tick_call) :
  ticks_ok s -> Forall call_typed cs -> run_ticks s cs = Ok s' ->
  ticks_ok s' /\
  (forall a t, liquidity_gross (get_tick_data s' a t)
     = liquidity_gross (get_tick_data s a t) + placed a t cs) /\
  (forall a, active_of s' a = active_of s a + placed_below a cs).
Proof.
  revert s. induction cs as [|c cs IH]; intros s Hok Hc Hr; cbn [run_ticks] in Hr.
  - injection Hr as <-. unfold placed, placed_below. cbn. split_and!; [done|intros; lia..].
  - apply bind_Ok in Hr as (s1 & H1 & Hr). apply Forall_cons in Hc as [Hc Hcs].
    pose proof (tick_call_active _ _ _ Hok Hc H1) as Ha. apply tick_call_ok in H1 as [Hok1 Hg]; [|done..].
    destruct (IH s1 Hok1 Hcs Hr) as (Hok' & Hg' & Ha'). split_and!; [done|..].
    + intros a t. rewrite Hg', Hg. unfold placed. cbn [map zsum foldr]. unfold zsum. lia.
    + intros a. rewrite Ha', Ha. unfold placed_below. cbn [map zsum foldr]. unfold zsum. lia.
Qed.
