(* ===== verification/TickSwap.v ===== *)
(** * Root AMM: the rounds of the swap simulation

    A round never ends at a boundary of the tick range, because the price there
    overflows or is zero, and a round that starts on an initialized tick ends on it
    and moves nothing. *)

From stdpp Require Import base numbers list gmap sorting.
From Stdlib Require Import ZArith Lia.
From S2P Require Import Prelude RootErrors TickIndex TickList TickPrice.

Open Scope Z_scope.

Lemma output_from_zero (price l r : Z) : compute_step_output price 0 l = Ok r -> False.
Proof.
  intros H. unfold compute_step_output in H. apply bind_Ok in H as (x & _ & H).
  apply bind_Ok in H as (y & Hy & H). rewrite integer_sqrt_eq in Hy by (cbn [imax]; lia).
  injection Hy as <-. apply bind_Ok in H as (? & _ & H). apply bind_Ok in H as (p & Hp%ok_or_Ok & H).
  apply chk_Some in Hp as [-> _]. apply bind_Ok in H as (? & Hf%fail_if_Ok & _).
  change (Z.sqrt 0) with 0 in Hf. rewrite Z.mul_0_r in Hf. discriminate.
Qed.

Lemma input_at_rest (price l r : Z) : compute_step_input price price l = Ok r -> r = 0.
Proof.
  intros H. unfold compute_step_input in H. apply bind_Ok in H as (x & Hx & H).
  apply bind_Ok in H as (y & Hy & H). assert (y = x) as -> by congruence.
  apply bind_Ok in H as (d & Hd & H). unfold sqrt_difference in Hd. rewrite Z.ltb_irrefl in Hd.
  apply ok_or_Ok, chk_Some in Hd as [-> _]. rewrite Z.sub_diag in H.
  apply bind_Ok in H as (p & Hp%ok_or_Ok & H). apply chk_Some in Hp as [-> _].
  rewrite Z.mul_0_r in H. apply bind_Ok in H as (q & Hq & H). change (checked_div I128 0 PRICE_SCALE) with (Some 0) in Hq.
  injection Hq as <-. injection H as <-. reflexivity.
Qed.

Definition next_of (up : bool) (r : option Z) : Z :=
  default (if up then MAX_TICK_INDEX else MIN_TICK_INDEX) r.

(** What a round that returns did, apart from its amounts. *)
Lemma swap_round_Ok (s : tick_store) (a fee : Z) (up : bool) (v v' : swap_state) (stop : bool) :
  swap_round s a up fee v = Ok (v', stop) ->
  exists r p q step_in,
    find_next_initialized_tick s a (sim_tick v) up = Ok r /\ sim_tick v' = next_of up r /\
    is_boundary (next_of up r) = false /\ stop = false /\
    tick_to_price (sim_tick v) = Ok p /\ tick_to_price (next_of up r) = Ok q /\
    compute_step_input p q (sim_liquidity v) = Ok step_in /\
    sim_crossings v' = sim_crossings v + 1 /\
    exists st, sim_steps v' = sim_steps v ++ [st] /\ start_tick st = sim_tick v /\
      end_tick st = next_of up r /\ ss_liquidity st = sim_liquidity v /\
      step_amount_in st <= remaining_in v /\ step_amount_in st <= Z.max 0 (remaining_in v) /\
      (0 <= remaining_in v <= imax U64 -> 0 <= step_amount_in st) /\
      remaining_in v' = saturating_sub U64 (remaining_in v) (step_amount_in st) /\
      total_out v' = total_out v + step_amount_out st /\
      (step_in = 0 -> 0 <= remaining_in v -> step_amount_in st = 0 /\ step_amount_out st = 0).
Proof.
  intros H. unfold swap_round in H.
  apply bind_Ok in H as (r & Hr & H). cbv zeta in H. fold (next_of up r) in H.
  apply bind_Ok in H as (p & Hp & H). apply bind_Ok in H as (q & Hq & H).
  apply bind_Ok in H as (step_in & Hin & H). apply bind_Ok in H as (pf & Hpf%ok_or_Ok & H).
  apply bind_Ok in H as (f & Hfee%ok_or_Ok & H). apply bind_Ok in H as (net & Hnet%ok_or_Ok & H).
  apply bind_Ok in H as (out & Hout & H). apply bind_Ok in H as (actual & Hact & H).
  apply bind_Ok in H as (steps & Hsteps%vpush_Ok & H). apply bind_Ok in H as (total & Htot%ok_or_Ok & H).
  apply chk_Some in Htot as [-> _]. destruct Hsteps as [_ ->].
  assert (is_boundary (next_of up r) = false) as Hb.
  { unfold is_boundary. destruct (Z.eqb_spec (next_of up r) MAX_TICK_INDEX) as [E|_].
    { rewrite E, tick_to_price_top in Hq. discriminate. }
    destruct (Z.eqb_spec (next_of up r) MIN_TICK_INDEX) as [E|_]; [|done].
    rewrite E, tick_to_price_bottom in Hq by (unfold MIN_TICK_INDEX; lia). injection Hq as <-.
    by apply output_from_zero in Hout. }
  rewrite Hb in H. cbn [negb] in H. apply bind_Ok in H as ([l c] & Hlc & H).
  apply bind_Ok in Hlc as (l1 & _ & Hlc). apply bind_Ok in Hlc as (c1 & Hc1 & Hlc).
  apply iop_Ok in Hc1 as [-> _]. injection Hlc as <- <-. injection H as <- <-.
  exists r, p, q, step_in. cbn [sim_tick sim_crossings remaining_in total_out sim_steps].
  do 8 (split; [done|]). eexists. split; [reflexivity|].
  cbn [start_tick end_tick ss_liquidity step_amount_in step_amount_out].
  pose proof (cast_range U64 net) as Hcr. cbn [imin] in Hcr.
  do 3 (split; [done|]). split; [destruct (Z.leb_spec (cast U64 net) (remaining_in v)); lia|].
  split; [destruct (Z.leb_spec (cast U64 net) (remaining_in v)); lia|].
  split; [destruct (Z.leb_spec (cast U64 net) (remaining_in v)); lia|].
  do 2 (split; [done|]). intros -> Hrem.
  apply chk_Some in Hpf as [-> _]. rewrite Z.mul_0_l in Hfee.
  change (checked_div U128 0 10000) with (Some 0) in Hfee. injection Hfee as <-.
  change (checked_sub U128 0 0) with (Some 0) in Hnet. injection Hnet as <-.
  change (cast U64 0) with 0 in *. rewrite Z.ltb_irrefl in Hact. injection Hact as <-.
  split; [|done]. destruct (Z.leb_spec 0 (remaining_in v)); lia.
Qed.

(** A round from a tick that is its own next tick. *)
Lemma swap_round_at_rest (s : tick_store) (a fee : Z) (up : bool) (v v' : swap_state) (stop : bool) :
  find_next_initialized_tick s a (sim_tick v) up = Ok (Some (sim_tick v)) ->
  0 <= remaining_in v <= imax U64 ->
  swap_round s a up fee v = Ok (v', stop) ->
  stop = false /\ sim_tick v' = sim_tick v /\ remaining_in v' = remaining_in v /\
  total_out v' = total_out v /\ sim_crossings v' = sim_crossings v + 1 /\
  exists st, sim_steps v' = sim_steps v ++ [st] /\ start_tick st = sim_tick v /\
    end_tick st = sim_tick v /\ step_amount_in st = 0 /\ step_amount_out st = 0.
Proof.
  intros Hn Hrem H. apply swap_round_Ok in H as (r & p & q & step_in & Hr & Ht & _ & -> & Hp & Hq & Hin & Hc & st & Hst & E1 & E2 & _ & _ & _ & _ & Erem & Eout & Hz).
  assert (r = Some (sim_tick v)) as -> by congruence. cbn [next_of default from_option id] in *.
  assert (q = p) as -> by congruence. apply input_at_rest in Hin as ->.
  destruct (Hz eq_refl ltac:(lia)) as [Z1 Z2]. rewrite Z1 in Erem. rewrite Z2 in Eout.
  split_and!; try done; [|lia|by exists st].
  rewrite Erem. unfold saturating_sub. rewrite Z.sub_0_r. apply clamp_in. done.
Qed.

(** The rest of a simulation from such a tick: it runs all its rounds. *)
Definition idle_step (t : Z) (st : SwapStep) : Prop :=
  start_tick st = t /\ end_tick st = t /\ step_amount_in st = 0 /\ step_amount_out st = 0.

Lemma swap_loop_at_rest (n : nat) (s : tick_store) (a fee : Z) (up : bool) (v v' : swap_state) :
  find_next_initialized_tick s a (sim_tick v) up = Ok (Some (sim_tick v)) ->
  0 <= remaining_in v <= imax U64 ->
  swap_loop n s a up fee v = Ok v' ->
  sim_tick v' = sim_tick v /\ remaining_in v' = remaining_in v /\ total_out v' = total_out v /\
  exists rest, sim_steps v' = sim_steps v ++ rest /\ Forall (idle_step (sim_tick v)) rest /\
    sim_crossings v' = sim_crossings v + len rest /\
    len rest = if 0 <? remaining_in v then Z.of_nat n else 0.
Proof.
  revert v. induction n as [|n IH]; intros v Hn Hrem H; cbn [swap_loop] in H.
  - injection H as <-. split_and!; try done. exists []. rewrite app_nil_r.
    change (len []) with 0. rewrite Z.add_0_r.
    split_and!; [done|done|done|by destruct (0 <? remaining_in v)].
  - destruct (Z.ltb_spec 0 (remaining_in v)) as [Hpos|Hpos].
    + apply bind_Ok in H as ([v1 stop] & H1 & H).
      apply swap_round_at_rest in H1 as (-> & Et & Er & Eo & Ec & st & Es & S1 & S2 & S3 & S4); [|done..].
      destruct (IH v1) as (Et' & Er' & Eo' & rest & Es' & Hf & Hc & Hl); [by rewrite Et|by rewrite Er|done|].
      rewrite Et, Er in *. split_and!; [done|done|lia|]. exists (st :: rest).
      rewrite Es', Es, <- app_assoc. destruct (Z.ltb_spec 0 (remaining_in v)); [|lia].
      unfold len in *. cbn [length app]. split_and!; [done| |lia|lia]. constructor; [|done]. done.
    + injection H as <-. split_and!; try done. exists []. rewrite app_nil_r.
      change (len []) with 0. rewrite Z.add_0_r. by split_and!.
Qed.

(** The next initialized tick of an initialized tick is itself. *)
Lemma find_next_self (s : tick_store) (a t : Z) (up : bool) :
  sorted (get_tick_list s a) -> len (get_tick_list s a) <= imax U32 ->
  t ∈ get_tick_list s a -> find_next_initialized_tick s a t up = Ok (Some t).
Proof.
  intros Hs Hl Ht. destruct up.
  - destruct (find_next_up s a t Hs Hl) as ([u|] & -> & H).
    + destruct H as (_ & H1 & H2). pose proof (H2 t Ht ltac:(lia)). repeat f_equal. lia.
    + pose proof (H t Ht). lia.
  - destruct (find_next_down s a t Hs Hl) as ([u|] & -> & H).
    + destruct H as (_ & H1 & H2). pose proof (H2 t Ht ltac:(lia)). repeat f_equal. lia.
    + pose proof (H t Ht). lia.
Qed.

Lemma find_next_in (s : tick_store) (a cur t : Z) (up : bool) :
  sorted (get_tick_list s a) -> len (get_tick_list s a) <= imax U32 ->
  find_next_initialized_tick s a cur up = Ok (Some t) -> t ∈ get_tick_list s a.
Proof.
  intros Hs Hl. destruct up.
  - destruct (find_next_up s a cur Hs Hl) as ([u|] & -> & H); [|done]. intros [= <-]. by destruct H.
  - destruct (find_next_down s a cur Hs Hl) as ([u|] & -> & H); [|done]. intros [= <-]. by destruct H.
Qed.

(** With no initialized tick ahead the first round does not return. *)
Lemma swap_round_none (s : tick_store) (a fee : Z) (up : bool) (v v' : swap_state) (stop : bool) :
  find_next_initialized_tick s a (sim_tick v) up = Ok None ->
  swap_round s a up fee v = Ok (v', stop) -> False.
Proof.
  intros Hn H. apply swap_round_Ok in H as (r & p & q & step_in & Hr & _ & Hb & _).
  assert (r = None) as -> by congruence. destruct up; discriminate.
Qed.
