(* ===== verification/PositionBook.v ===== *)
(** * Root AMM: what positions do to the tick store

    The effect of one placement and of fee growth on any store, the histories of the
    position operations, and what a split writes. *)

From stdpp Require Import base numbers list gmap sorting.
From Stdlib Require Import ZArith Lia.
From S2P Require Import Prelude Host RootErrors TickIndex TickList TickBook Positions.

Open Scope Z_scope.

(** ** One placement on any store *)
Definition same_pool (m m' : TickIndexMeta) : Prop :=
  current_tick m' = current_tick m /\ fee_growth_global m' = fee_growth_global m /\
  tick_spacing m' = tick_spacing m.

Lemma place_list_frame (s : tick_store) (a t count : Z) (was_empty is_empty up down : bool)
    (r : tick_store * Z) :
  (if was_empty || is_empty then
     let l := get_tick_list s a in
     if was_empty && up then
       l' ← insert_tick_sorted l t;
       count' ← ok_or (checked_add U32 count 1) Overflow;
       mret (set_tick_list s a l', count')
     else if is_empty && down then
       l' ← remove_tick_sorted l t;
       mret (set_tick_list s a l', saturating_sub U32 count 1)
     else mret (set_tick_list s a l, count)
   else mret (s, count) : R (tick_store * Z)) = Ok r ->
  indexes r.1 = indexes s /\ datas r.1 = datas s.
Proof.
  intros Hs. cbv zeta in Hs. destruct (was_empty || is_empty); [|injection Hs as <-; done].
  destruct (was_empty && up); [|destruct (is_empty && down)].
  - apply bind_Ok in Hs as (? & _ & Hs). apply bind_Ok in Hs as (? & _ & Hs). injection Hs as <-. done.
  - apply bind_Ok in Hs as (? & _ & Hs). injection Hs as <-. done.
  - injection Hs as <-. done.
Qed.

Lemma place_frame (s s' : tick_store) (a t delta : Z) (d : TickData) :
  place_liquidity s a t delta = Ok (s', d) ->
  datas s' = <[(a, t) := d]> (datas s) /\
  liquidity_net d = liquidity_net (get_tick_data s a t) + delta /\
  fee_growth_outside d = fee_growth_outside (get_tick_data s a t) /\
  (exists m m', indexes s !! a = Some m /\ indexes s' = <[a := m']> (indexes s) /\ same_pool m m') /\
  (exists m, indexes s !! a = Some m /\ Z.rem t (tick_spacing m) = 0).
Proof.
  intros Hp. unfold place_liquidity in Hp. apply bind_Ok in Hp as (m & Hm%ok_or_Ok & Hp).
  apply bind_Ok in Hp as (r & Hr & Hp). apply bind_Ok in Hp as (? & Hr0%fail_if_Ok & Hp).
  apply bind_Ok in Hp as (? & _ & Hp). cbv zeta in Hp.
  apply bind_Ok in Hp as ([gross active] & _ & Hp).
  apply bind_Ok in Hp as (net & Hn%ok_or_Ok & Hp). apply chk_Some in Hn as [-> _].
  apply bind_Ok in Hp as ([s1 count] & Hs1 & Hp). injection Hp as <- <-.
  apply place_list_frame in Hs1 as [E1 E2]. cbn [fst] in *.
  cbn [set_index set_tick_data indexes datas liquidity_net fee_growth_outside]. rewrite E1, E2.
  do 3 (split; [done|]). split; [eexists m, _; split; [done|]; split; [done|]; done|].
  exists m. split; [done|]. unfold irem in Hr. destruct (tick_spacing m =? 0); [done|].
  destruct (fits I32 (Z.quot t (tick_spacing m))); [|done]. injection Hr as <-. lia.
Qed.

(** The net liquidity at a tick, and how the operations move it. *)
Definition net_of (s : tick_store) (a t : Z) : Z := liquidity_net (get_tick_data s a t).

Lemma place_net (s s' : tick_store) (a t delta : Z) (d : TickData) :
  place_liquidity s a t delta = Ok (s', d) ->
  forall b u, net_of s' b u = net_of s b u + if bool_decide ((a, t) = (b, u)) then delta else 0.
Proof.
  intros (Ed & En & _)%place_frame b u. unfold net_of, get_tick_data. rewrite Ed.
  case_bool_decide as E.
  - injection E as <- <-. rewrite lookup_insert_eq. exact En.
  - rewrite lookup_insert_ne by done. lia.
Qed.

Lemma ensure_net (s s' : tick_store) (a t : Z) :
  ensure_tick_initialized s a t = Ok s' -> forall b u, net_of s' b u = net_of s b u.
Proof.
  intros He b u. unfold ensure_tick_initialized in He. case_bool_decide as Hs; [injection He as <-; done|].
  apply bind_Ok in He as (m & _ & He). injection He as <-. apply eq_None_not_Some in Hs.
  unfold net_of, get_tick_data. cbn [set_tick_data datas].
  destruct (decide ((a, t) = (b, u))) as [[= <- <-]|].
  - rewrite lookup_insert_eq, Hs. done.
  - by rewrite lookup_insert_ne.
Qed.

(** ** Fee growth *)
Lemma cast_u128 (z : Z) : cast U128 z = z mod 2 ^ 128.
Proof. unfold cast. cbn [imin bits_of]. by rewrite Z.sub_0_r, Z.add_0_r. Qed.

(** Equality of sums wrapped to [u128]: [lia] on the quotients of every [mod]. *)
Ltac wrap_solve :=
  unfold wrapping_add, wrapping_sub; rewrite ?cast_u128;
  change (2 ^ 128) with 340282366920938463463374607431768211456;
  repeat match goal with |- context [if ?b then ?x else ?y] => generalize (if b then x else y); intros ? end;
  Z.to_euclidean_division_equations; lia.

Lemma fee_inside_eq (s : tick_store) (a l u : Z) (m : TickIndexMeta) :
  indexes s !! a = Some m ->
  get_fee_growth_inside s a l u = Ok (wrapping_sub U128 (wrapping_sub U128 (fee_growth_global m)
    (if l <=? current_tick m then fee_growth_outside (get_tick_data s a l)
     else wrapping_sub U128 (fee_growth_global m) (fee_growth_outside (get_tick_data s a l))))
    (if current_tick m <? u then fee_growth_outside (get_tick_data s a u)
     else wrapping_sub U128 (fee_growth_global m) (fee_growth_outside (get_tick_data s a u)))).
Proof. intros Hm. unfold get_fee_growth_inside, get_tick_index. rewrite Hm. reflexivity. Qed.

Lemma accrue_Ok (s s' : tick_store) (a fee : Z) (m : TickIndexMeta) :
  indexes s !! a = Some m -> fee <> 0 -> accrue_fee_growth s a fee = Ok s' ->
  tm_active_liquidity m <> 0 /\ datas s' = datas s /\
  exists m', indexes s' = <[a := m']> (indexes s) /\ current_tick m' = current_tick m /\
    fee_growth_global m' = fee_growth_global m + Z.quot (fee * FEE_GROWTH_SCALE) (tm_active_liquidity m).
Proof.
  intros Hm Hfee He. unfold accrue_fee_growth in He. destruct (Z.eqb_spec fee 0); [done|].
  apply bind_Ok in He as (m1 & Hm1%ok_or_Ok & He). assert (m1 = m) as -> by congruence.
  apply bind_Ok in He as (? & Hl%fail_if_Ok & He). apply bind_Ok in He as (p & Hp%ok_or_Ok & He).
  apply chk_Some in Hp as [-> _]. apply bind_Ok in He as (d & Hd%ok_or_Ok & He).
  apply bind_Ok in He as (g & Hg%ok_or_Ok & He). apply chk_Some in Hg as [-> _]. injection He as <-.
  unfold checked_div in Hd. rewrite Hl in Hd. apply chk_Some in Hd as [-> _].
  split; [lia|]. split; [done|]. eexists. split; [done|]. done.
Qed.

(** ** Histories of the position operations *)
Section history.
Context {H : Host}.

Inductive pos_call :=
| PosInit (a spacing : Z)
| PosEnsure (a t : Z)
| PosAccrue (a fee : Z)
| PosTier (a tier : Z)
| PosOpen (auth : Address -> bool) (own : Address) (a lower upper liquidity : Z)
| PosSplit (auth : Address -> bool) (caller : Address) (id mid : Z).

(** The liquidity argument is a [u64]. *)
Definition pos_typed (c : pos_call) : Prop :=
  match c with PosOpen _ _ _ _ _ l => 0 <= l <= imax U64 | _ => True end.

Definition pos_step (s : pos_store) (c : pos_call) : R pos_store :=
  match c with
  | PosInit a spacing => '(t, _) ← initialize_tick_index (ticks s) a spacing; mret (with_ticks s t)
  | PosEnsure a t => t' ← ensure_tick_initialized (ticks s) a t; mret (with_ticks s t')
  | PosAccrue a fee => t ← accrue_fee_growth (ticks s) a fee; mret (with_ticks s t)
  | PosTier a tier => '(t, _) ← set_pool_fee_tier (ticks s) a tier; mret (with_ticks s t)
  | PosOpen auth own a l u liq => '(s', _) ← open_position auth s own a l u liq; mret s'
  | PosSplit auth caller id mid => '(s', _) ← split_position auth s caller id mid; mret s'
  end.

Fixpoint run_pos (s : pos_store) (cs : list pos_call) : R pos_store :=
  match cs with
  | [] => mret s
  | c :: cs => s' ← pos_step s c; run_pos s' cs
  end.

Definition empty_pos : pos_store := {| ticks := empty_ticks; records := ∅; counter := None |}.

(** Nothing was placed and no position exists. *)
Definition vacant (s : pos_store) : Prop :=
  ticks_ok (ticks s) /\ (forall a t, liquidity_gross (get_tick_data (ticks s) a t) = 0) /\
  records s = ∅.

Lemma try_from_Ok (t : ity) (z r : Z) : try_from t z = Ok r <-> r = z /\ imin t <= z <= imax t.
Proof. unfold try_from. rewrite ok_or_Ok. apply chk_Some. Qed.

(** The second placement of [open_position] takes from the gross liquidity of the upper
    tick what nobody put there. *)
Lemma open_vacant (auth : Address -> bool) (s s' : pos_store) (own : Address) (a l u liq : Z)
    (p : Position) :
  vacant s -> 0 <= liq -> open_position auth s own a l u liq = Ok (s', p) -> False.
Proof.
  intros (Hok & Hg & _) Hliq Ho. unfold open_position in Ho.
  apply bind_Ok in Ho as (? & _ & Ho). apply bind_Ok in Ho as (? & Hlu%fail_if_Ok & Ho).
  apply bind_Ok in Ho as (? & Hz%fail_if_Ok & Ho).
  apply bind_Ok in Ho as (liq' & Hl%try_from_Ok & Ho). destruct Hl as [-> Hl].
  apply bind_Ok in Ho as (t1 & H1 & Ho). apply bind_Ok in Ho as (t2 & H2 & Ho).
  apply ensure_ok in H1 as [Hok1 Hg1]; [|done]. apply ensure_ok in H2 as [Hok2 Hg2]; [|done].
  apply bind_Ok in Ho as ([t3 d] & H3 & Ho). apply bind_Ok in Ho as (neg & Hneg & Ho).
  apply iop_Ok in Hneg as [-> Hneg]. apply bind_Ok in Ho as ([t4 d'] & H4 & _).
  pose proof (place_ok _ _ _ _ _ _ Hok2 Hl H3) as Hok3.
  apply place_Ok in H3 as (m & _ & _ & _ & _ & Ed & _); [|done..].
  apply place_Ok in H4 as (m' & _ & Hr & _); [|done..].
  revert Hr. unfold get_tick_data. rewrite Ed, lookup_insert_ne by (intros [=]; lia).
  fold (get_tick_data t2 a u). rewrite Hg2, Hg1, Hg. lia.
Qed.

Lemma pos_step_vacant (s s' : pos_store) (c : pos_call) :
  vacant s -> pos_typed c -> pos_step s c = Ok s' -> vacant s'.
Proof.
  intros Hv Hc Hs. pose proof Hv as (Hok & Hg & Hr).
  assert (forall t, ticks_ok t /\ (datas t = datas (ticks s) \/
            (forall b u, liquidity_gross (get_tick_data t b u) = liquidity_gross (get_tick_data (ticks s) b u))) ->
          vacant (with_ticks s t)) as Hw.
  { intros t [Ht Hd]. split; [done|]. split; [|done]. intros b u. destruct Hd as [Hd|Hd].
    - cbn [with_ticks ticks]. unfold get_tick_data. rewrite Hd. apply Hg.
    - cbn [with_ticks ticks]. rewrite Hd. apply Hg. }
  destruct c; cbn [pos_step pos_typed] in *.
  - apply bind_Ok in Hs as ([t m] & Hs & E). injection E as <-. apply init_ticks_ok in Hs as [? ?]; auto.
  - apply bind_Ok in Hs as (t' & Hs & E). injection E as <-. apply ensure_ok in Hs as [? ?]; auto.
  - apply bind_Ok in Hs as (t' & Hs & E). injection E as <-. apply accrue_ok in Hs as [? ?]; auto.
  - apply bind_Ok in Hs as ([t r] & Hs & E). injection E as <-. apply tier_ok in Hs as [? ?]; auto.
  - apply bind_Ok in Hs as ([t p] & Hs & _). exfalso. exact (open_vacant _ _ _ _ _ _ _ _ _ Hv (proj1 Hc) Hs).
  - apply bind_Ok in Hs as ([t p] & Hs & _). unfold split_position in Hs.
    apply bind_Ok in Hs as (? & _ & Hs). apply bind_Ok in Hs as (q & Hq%ok_or_Ok & _).
    rewrite Hr in Hq. discriminate.
Qed.

Lemma run_pos_vacant (s s' : pos_store) (cs : list pos_call) :
  vacant s -> Forall pos_typed cs -> run_pos s cs = Ok s' -> vacant s'.
Proof.
  revert s. induction cs as [|c cs IH]; intros s Hv Hc Hr; cbn [run_pos] in Hr; [by injection Hr as <-|].
  apply bind_Ok in Hr as (s1 & H1 & Hr). apply Forall_cons in Hc as [Hc Hcs].
  apply (IH s1); [|done..]. by eapply pos_step_vacant.
Qed.

Lemma empty_vacant : vacant empty_pos.
Proof. split; [exact empty_ticks_ok|]. split; [|done]. intros a t. reflexivity. Qed.
End history.

(** ** Splitting a position *)
Lemma split_by_width_Ok (amount wl wt lo up : Z) :
  0 <= amount <= imax U64 -> 0 < wl < wt -> split_by_width amount wl wt = Ok (lo, up) ->
  lo = amount * wl / wt /\ lo + up = amount /\ 0 <= lo <= amount.
Proof.
  intros Ha Hw Hs. unfold split_by_width in Hs. apply bind_Ok in Hs as (p & Hp%ok_or_Ok & Hs).
  apply chk_Some in Hp as [-> _]. apply bind_Ok in Hs as (q & Hq & Hs). unfold idiv in Hq.
  destruct (Z.eqb_spec wt 0); [done|]. apply iop_Ok in Hq as [-> _]. rewrite Z.quot_div_nonneg in Hs by nia.
  cbv zeta in Hs. assert (0 <= amount * wl / wt <= amount) as Hr.
  { split; [apply Z.div_pos; nia|]. apply Z.div_le_upper_bound; nia. }
  rewrite cast_in in Hs by (cbn [imin]; lia). apply bind_Ok in Hs as (u & Hu%ok_or_Ok & Hs).
  apply chk_Some in Hu as [-> _]. injection Hs as <- <-. lia.
Qed.

(** The three placements of a split move the contribution of the position, [+L] at
    the lower and [-L] at the upper tick, to that of its two parts. *)
Lemma split_places (t0 t1 t2 t3 t4 : tick_store) (a l m u lo up : Z) (d2 d3 d4 : TickData) :
  l < m < u -> ensure_tick_initialized t0 a m = Ok t1 ->
  place_liquidity t1 a l (- up) = Ok (t2, d2) -> place_liquidity t2 a m (up - lo) = Ok (t3, d3) ->
  place_liquidity t3 a u lo = Ok (t4, d4) ->
  forall b t, net_of t4 b t = net_of t0 b t +
    (if bool_decide (b = a /\ t = l) then lo - (lo + up) else 0) +
    (if bool_decide (b = a /\ t = m) then up - lo else 0) +
    (if bool_decide (b = a /\ t = u) then - up - - (lo + up) else 0).
Proof.
  intros Hm H1 H2 H3 H4 b t. rewrite (place_net _ _ _ _ _ _ H4), (place_net _ _ _ _ _ _ H3),
    (place_net _ _ _ _ _ _ H2), (ensure_net _ _ _ _ H1).
  repeat case_bool_decide; intuition (simplify_eq; try lia).
Qed.

Lemma widths (l m u wt wl : Z) :
  l < m < u -> isub I32 u l = @Ok ContractError Z wt -> isub I32 m l = @Ok ContractError Z wl ->
  cast U128 wt = u - l /\ cast U128 wl = m - l.
Proof.
  intros Hm [-> Ht]%iop_Ok [-> Hl]%iop_Ok. rewrite !cast_in by ilia. done.
Qed.

Section split.
Context {H : Host}.

Lemma mint_Ok (s s' : pos_store) (n : Z) :
  mint_position_id s = Ok (s', n) ->
  s' = {| ticks := ticks s; records := records s; counter := Some n |} /\
  n = default 0 (counter s) + 1.
Proof.
  intros Hm. unfold mint_position_id in Hm. apply bind_Ok in Hm as (n1 & Hn1%ok_or_Ok & Hm).
  apply chk_Some in Hn1 as [-> _]. injection Hm as <- <-. done.
Qed.

(** What a split that returns wrote. *)
Lemma split_Ok (auth : Address -> bool) (s s' : pos_store) (caller : Address) (id mid : Z)
    (p : Position) (res : SplitPositionResult) :
  records s !! id = Some p ->
  0 <= ps_liquidity p <= imax U64 ->
  0 <= tokens_owed p ->
  split_position auth s caller id mid = Ok (s', res) ->
  let lo := sp_lower res in let up := sp_upper res in
  auth caller = true /\ owner p = caller /\ owner lo = caller /\ owner up = caller /\
  (tick_lower p < mid < tick_upper p /\ tick_lower lo = tick_lower p /\ tick_upper lo = mid /\
   tick_lower up = mid /\ tick_upper up = tick_upper p) /\
  (ps_liquidity lo + ps_liquidity up = ps_liquidity p /\ 0 < ps_liquidity lo /\ 0 < ps_liquidity up /\
   ps_liquidity lo = ps_liquidity p * (mid - tick_lower p) / (tick_upper p - tick_lower p)) /\
  (exists inside, get_fee_growth_inside (ticks s) (ps_asset p) (tick_lower p) (tick_upper p) = Ok inside /\
     tokens_owed lo + tokens_owed up = tokens_owed p
       + wrapping_sub U128 inside (fee_growth_inside_last p) * ps_liquidity p / FEE_GROWTH_SCALE) /\
  (records s' = <[ps_id up := up]> (<[ps_id lo := lo]> (delete id (records s))) /\
   ps_id lo = default 0 (counter s) + 1 /\ ps_id up = ps_id lo + 1 /\ counter s' = Some (ps_id up)) /\
  forall b t, net_of (ticks s') b t = net_of (ticks s) b t
    + (if bool_decide (b = ps_asset p /\ t = tick_lower p) then ps_liquidity lo - ps_liquidity p else 0)
    + (if bool_decide (b = ps_asset p /\ t = mid) then ps_liquidity up - ps_liquidity lo else 0)
    + (if bool_decide (b = ps_asset p /\ t = tick_upper p) then - ps_liquidity up - - ps_liquidity p else 0).
Proof.
  intros Hp Hliq Howed Hs. unfold split_position in Hs.
  apply bind_Ok in Hs as (? & Hauth%require_auth_Ok & Hs). unfold get_position_record in Hs.
  apply bind_Ok in Hs as (p' & Hp'%ok_or_Ok & Hs). assert (p' = p) as -> by congruence. clear Hp'.
  apply bind_Ok in Hs as (? & Hown%fail_if_Ok & Hs).
  apply bool_decide_eq_false in Hown. apply dec_stable in Hown.
  apply bind_Ok in Hs as (? & Hmid%fail_if_Ok & Hs). assert (tick_lower p < mid < tick_upper p) as Hm by lia.
  cbv zeta in Hs. apply bind_Ok in Hs as (meta & _ & Hs). do 2 (apply bind_Ok in Hs as (? & _ & Hs)).
  apply bind_Ok in Hs as (now & Hnow & Hs). apply bind_Ok in Hs as (pf & Hpf%ok_or_Ok & Hs).
  apply chk_Some in Hpf as [-> _]. apply bind_Ok in Hs as (acc & Hacc & Hs).
  apply bind_Ok in Hs as (owed & Hod%ok_or_Ok & Hs). apply chk_Some in Hod as [-> _].
  apply bind_Ok in Hs as (total & Htot%try_from_Ok & Hs). destruct Htot as [-> Htot].
  apply bind_Ok in Hs as (wt & Hwt & Hs). apply bind_Ok in Hs as (wl & Hwl & Hs).
  destruct (widths _ _ _ _ _ Hm Hwt Hwl) as [Ewt Ewl]. rewrite Ewt, Ewl in Hs.
  apply bind_Ok in Hs as ([llo lup] & Hl & Hs). apply bind_Ok in Hs as (? & Hz%fail_if_Ok & Hs).
  apply bind_Ok in Hs as ([olo oup] & Ho & Hs).
  apply split_by_width_Ok in Hl as (El & Esum & Hlr); [|done|lia].
  apply split_by_width_Ok in Ho as (_ & Eo & _); [|exact Htot|lia].
  apply bind_Ok in Hs as (? & Hi1%try_from_Ok & Hs). destruct Hi1 as [-> _].
  apply bind_Ok in Hs as (? & Hi2%try_from_Ok & Hs). destruct Hi2 as [-> _].
  apply bind_Ok in Hs as (t1 & H1 & Hs). apply bind_Ok in Hs as (neg & Hneg%iop_Ok & Hs).
  destruct Hneg as [-> _]. apply bind_Ok in Hs as ([t2 d2] & H2 & Hs).
  apply bind_Ok in Hs as (dd & Hdd%iop_Ok & Hs). destruct Hdd as [-> _].
  apply bind_Ok in Hs as ([t3 d3] & H3 & Hs). apply bind_Ok in Hs as ([t4 d4] & H4 & Hs).
  apply bind_Ok in Hs as (il & _ & Hs). apply bind_Ok in Hs as (iu & _ & Hs).
  apply bind_Ok in Hs as ([s2 lid] & [-> ->]%mint_Ok & Hs).
  apply bind_Ok in Hs as ([s4 uid] & [-> ->]%mint_Ok & Hs).
  injection Hs as <- <-. cbv zeta. pose proof (split_places _ _ _ _ _ _ _ _ _ _ _ _ _ _ Hm H1 H2 H3 H4) as Hnet.
  unfold idiv in Hacc. change (FEE_GROWTH_SCALE =? 0) with false in Hacc. cbv iota in Hacc.
  apply iop_Ok in Hacc as [-> _].
  cbn [sp_lower sp_upper owner tick_lower tick_upper ps_liquidity tokens_owed ps_id records counter
       set_position_record remove_position_record with_ticks ticks].
  do 4 (split; [congruence|]). split; [done|]. split; [split_and!; lia|].
  split; [exists now; split; [done|]|split; [done|]].
  - rewrite Eo. f_equal. apply Z.quot_div_nonneg; [|done].
    pose proof (cast_range U128 (now - fee_growth_inside_last p)) as Hc. unfold wrapping_sub. cbn [imin] in Hc. nia.
  - intros b t. rewrite Hnet. replace (llo + lup) with (ps_liquidity p) by lia. done.
Qed.
End split.
