(* ===== verification/TickTheorems.v ===== *)
(** * Root AMM: the theorems of ticks and positions

    The books of a tick store over every history, the sorted list, fee growth, the
    square root and the ends of the price range, and what follows for the users of
    the module: which swap simulations return, that no position opens, and what a
    split conserves. *)

From stdpp Require Import base numbers list gmap sorting.
From Stdlib Require Import ZArith Lia.
From S2P Require Import Prelude Host RootErrors TickIndex TickList TickPrice TickBook TickSwap Positions PositionBook.

Open Scope Z_scope.

(** ** The books *)

(** C36: After any history of successful calls from an empty store, the gross and the
    net liquidity of every tick are both the sum of what was placed there, a [u64]; the
    active liquidity of every pool is the sum of what was placed in it at or below tick
    0, which is also the net liquidity of its ticks at or below its current tick; and
    the current tick is still 0. *)
Theorem tick_accounting_exact (cs : list tick_call) (s : tick_store) :
  Forall call_typed cs -> run_ticks empty_ticks cs = Ok s ->
  (forall a t, let d := get_tick_data s a t in
     liquidity_gross d = placed a t cs /\ liquidity_net d = placed a t cs /\
     0 <= placed a t cs <= imax U64) /\
  (forall a m, get_tick_index s a = Ok m ->
     current_tick m = 0 /\ tm_active_liquidity m = placed_below a cs /\
     tm_active_liquidity m = net_below (datas s) a (current_tick m)).
Proof.
  intros Hc Hr. destruct (run_ticks_ok _ _ _ empty_ticks_ok Hc Hr) as (Hok & Hg & Ha). split.
  - intros a t d. destruct (get_tick_ok s a t Hok) as [Hn Hr']. unfold d. pose proof (Hg a t) as E.
    change (liquidity_gross (get_tick_data empty_ticks a t)) with 0 in E. lia.
  - intros a m Hm%ok_or_Ok. pose proof (Ha a) as E. destruct Hok as [_ Hi].
    destruct (Hi a m Hm) as (Hn & Hcur & _). unfold active_of in E. rewrite Hm in E.
    change (indexes empty_ticks !! a) with (@None TickIndexMeta) in E. cbv iota in E.
    split_and!; [done|lia|done].
Qed.

Definition sample_calls : list tick_call :=
  [CallInit 1 60; CallPlace 1 60 500; CallPlace 1 (-120) 1000; CallPlace 1 (-120) (-400); CallAccrue 1 7].

Definition ok_ticks (r : R tick_store) : tick_store := match r with Ok s => s | _ => empty_ticks end.

Lemma sample_calls_run : run_ticks empty_ticks sample_calls = Ok (ok_ticks (run_ticks empty_ticks sample_calls)).
Proof. vm_compute. reflexivity. Qed.

Lemma sample_calls_typed : Forall call_typed sample_calls.
Proof. repeat (constructor; [cbn; unfold is_i64; cbn [imin imax]; lia|]). constructor. Qed.

Lemma tick_accounting_exact_witness :
  liquidity_gross (get_tick_data (ok_ticks (run_ticks empty_ticks sample_calls)) 1 (-120)) = 600 /\
  placed_below 1 sample_calls = 600.
Proof.
  destruct (tick_accounting_exact sample_calls _ sample_calls_typed sample_calls_run) as [H _].
  split; [exact (proj1 (H 1 (-120)))|reflexivity].
Defined.

(** On every store a history of successful calls leads to, no pool has a tick in
    its list or counts one, whatever was placed ([place_liquidity] tests for an empty
    tick after it added to it), and no simulation of a swap on it returns a result:
    without an initialized tick the first round goes to a boundary of the tick range,
    where the price overflows (up) or is zero (down). *)
Theorem no_tick_indexed_no_swap (cs : list tick_call) (s : tick_store) :
  Forall call_typed cs -> run_ticks empty_ticks cs = Ok s ->
  forall a c, tick_count s a = Ok c ->
  c = 0 /\ get_all_initialized_ticks s a = [] /\
  forall start liquidity amount up fee r, 0 <= amount ->
    simulate_swap_across_ticks s a start liquidity amount up fee <> Ok r.
Proof.
  intros Hc Hr a c Hcount. destruct (run_ticks_ok _ _ _ empty_ticks_ok Hc Hr) as ([_ Hi] & _).
  apply bind_Ok in Hcount as (m & Hm%ok_or_Ok & [= <-]). destruct (Hi a m Hm) as (_ & _ & Hk & Hl).
  split; [done|]. split; [done|]. intros start liq amount up fee [r steps] Ham Hs.
  unfold simulate_swap_across_ticks in Hs. apply bind_Ok in Hs as (? & Hz%fail_if_Ok & Hs).
  apply bind_Ok in Hs as (? & _ & Hs). apply bind_Ok in Hs as (m' & Hm'%ok_or_Ok & Hs).
  assert (m' = m) as -> by congruence. rewrite Hk in Hs. apply bind_Ok in Hs as (n & Hn & Hs).
  injection Hn as <-. apply bind_Ok in Hs as (v & Hv & _). change (Z.to_nat (0 + 1)) with 1%nat in Hv.
  cbn [swap_loop remaining_in] in Hv. assert ((0 <? amount) = true) as Hpos by lia. rewrite Hpos in Hv.
  apply bind_Ok in Hv as ([v' stop] & Hv & _). apply swap_round_none in Hv; [done|].
  cbn [sim_tick]. unfold find_next_initialized_tick. rewrite Hl. reflexivity.
Qed.

Lemma no_tick_indexed_no_swap_witness :
  get_all_initialized_ticks (ok_ticks (run_ticks empty_ticks sample_calls)) 1 = [] /\
  simulate_swap_across_ticks (ok_ticks (run_ticks empty_ticks sample_calls)) 1 0 600 10 false 30
    <> Ok ({| final_tick := 0; final_liquidity := 0; sr_amount_in := 0; sr_amount_out := 0; crossings := 0 |}, []).
Proof.
  destruct (no_tick_indexed_no_swap sample_calls _ sample_calls_typed sample_calls_run 1 0) as (_ & H1 & H2);
    [vm_compute; reflexivity|]. split; [exact H1|]. apply H2. lia.
Defined.

(** On a store whose list of ticks is sorted, a simulation that returns ended at
    the first initialized tick from the start, never at a boundary. Its first step
    makes all of the trade; every later round, up to the bound of one more than the
    tick count, crosses that same tick again and moves nothing. *)
Theorem simulate_ends_at_first_tick (s : tick_store) (a start liquidity amount fee : Z) (up : bool)
    (m : TickIndexMeta) (r : SwapTickResult) (steps : list SwapStep) :
  sorted (get_tick_list s a) -> len (get_tick_list s a) <= MAX_TICKS_PER_POOL ->
  get_tick_index s a = Ok m -> 0 <= tm_tick_count m -> 0 <= amount <= imax U64 ->
  simulate_swap_across_ticks s a start liquidity amount up fee = Ok (r, steps) ->
  exists t st rest, find_next_initialized_tick s a start up = Ok (Some t) /\
    t ∈ get_tick_list s a /\ is_boundary t = false /\ final_tick r = t /\
    steps = st :: rest /\ start_tick st = start /\ end_tick st = t /\
    sr_amount_in r = step_amount_in st /\ sr_amount_out r = step_amount_out st /\
    0 <= step_amount_in st <= amount /\ Forall (idle_step t) rest /\ crossings r = len steps /\
    len rest = if step_amount_in st <? amount then tm_tick_count m else 0.
Proof.
  intros Hs Hl Hm%ok_or_Ok Hk Ham H. assert (len (get_tick_list s a) <= imax U32) as Hl'.
  { unfold MAX_TICKS_PER_POOL in Hl. cbn [imax]. lia. }
  unfold simulate_swap_across_ticks in H. apply bind_Ok in H as (? & Hz%fail_if_Ok & H).
  apply bind_Ok in H as (? & _ & H). apply bind_Ok in H as (m' & Hm'%ok_or_Ok & H).
  assert (m' = m) as -> by congruence. apply bind_Ok in H as (n & Hn%iop_Ok & H). destruct Hn as [-> _].
  apply bind_Ok in H as (v & Hv & H). apply bind_Ok in H as (used & Hu%iop_Ok & H). destruct Hu as [-> _].
  injection H as <- <-. replace (Z.to_nat (tm_tick_count m + 1)) with (S (Z.to_nat (tm_tick_count m))) in Hv by lia.
  cbn [swap_loop remaining_in] in Hv. assert ((0 <? amount) = true) as Hpos by lia. rewrite Hpos in Hv.
  apply bind_Ok in Hv as ([v1 stop] & H1 & Hv).
  apply swap_round_Ok in H1 as (nx & p & q & i & Hnx & Et & Hb & -> & _ & _ & _ & Ec & st & Es & S1 & S2 & _ & S3 & _ & S4 & Er & Eo & _).
  cbn [sim_tick remaining_in total_out sim_crossings sim_steps app] in *. specialize (S4 Ham).
  destruct nx as [t|]; [|destruct up; discriminate]. cbn [next_of default from_option id] in *.
  pose proof (find_next_in _ _ _ _ _ Hs Hl' Hnx) as Hin. subst t.
  assert (remaining_in v1 = amount - step_amount_in st) as Er'.
  { rewrite Er. apply clamp_in. cbn [imin]. lia. }
  apply swap_loop_at_rest in Hv as (Et' & Er2 & Eo' & rest & Es' & Hf & Hc & Hlen);
    [|by apply find_next_self|lia].
  exists (sim_tick v1), st, rest. cbn [final_tick sr_amount_in sr_amount_out crossings].
  rewrite Es', Es. split_and!; try done; try lia.
  - rewrite Hc, Ec. unfold len. cbn [app length]. lia.
  - rewrite Hlen, Er'. repeat case_match; lia.
Qed.

(** A store with two ticks in its list (built directly). *)
Definition two_ticks : tick_store :=
  set_tick_list (set_index (set_tick_data empty_ticks 1 60
    {| liquidity_net := 5; liquidity_gross := 5; fee_growth_outside := 0 |}) 1
    {| tm_asset := 1; tick_spacing := 60; current_tick := 0; tm_active_liquidity := 0;
       tm_tick_count := 2; fee_growth_global := 0 |}) 1 [60; 120].

Definition sim_value (r : R (SwapTickResult * list SwapStep)) : SwapTickResult * list SwapStep :=
  match r with
  | Ok x => x
  | _ => ({| final_tick := 0; final_liquidity := 0; sr_amount_in := 0; sr_amount_out := 0; crossings := 0 |}, [])
  end.

Lemma simulate_ends_at_first_tick_witness :
  exists t, final_tick (sim_value (simulate_swap_across_ticks two_ticks 1 0 100000000000 1000000 true 30)).1 = t /\
    t ∈ get_tick_list two_ticks 1 /\
    len (sim_value (simulate_swap_across_ticks two_ticks 1 0 100000000000 1000000 true 30)).2 = 3.
Proof.
  destruct (simulate_ends_at_first_tick two_ticks 1 0 100000000000 1000000 30 true
    {| tm_asset := 1; tick_spacing := 60; current_tick := 0; tm_active_liquidity := 0;
       tm_tick_count := 2; fee_growth_global := 0 |}
    (sim_value (simulate_swap_across_ticks two_ticks 1 0 100000000000 1000000 true 30)).1
    (sim_value (simulate_swap_across_ticks two_ticks 1 0 100000000000 1000000 true 30)).2)
    as (t & st & rest & H1 & H2 & H3 & H4 & _).
  - change (get_tick_list two_ticks 1) with [60; 120]. repeat constructor; lia.
  - vm_compute. discriminate.
  - reflexivity.
  - vm_compute. discriminate.
  - split; vm_compute; discriminate.
  - vm_compute. reflexivity.
  - exists t. split; [exact H4|]. split; [exact H2|]. vm_compute. reflexivity.
Defined.

(** On a sorted list within the bound, inserting and removing a tick are those of a
    sorted set, an insertion at the bound being refused, and the two directions of
    [find_next_initialized_tick] give the nearest tick at or after and at or before the
    current one. *)
Theorem tick_list_exact (s : tick_store) (a t : Z) :
  let l := get_tick_list s a in
  sorted l -> len l <= MAX_TICKS_PER_POOL ->
  (if len l <? MAX_TICKS_PER_POOL
   then exists l', insert_tick_sorted l t = Ok l' /\ sorted l' /\ (forall x, x ∈ l' <-> x = t \/ x ∈ l) /\
          len l <= len l' <= MAX_TICKS_PER_POOL
   else insert_tick_sorted l t = Err TooManyTicks) /\
  (exists l', remove_tick_sorted l t = Ok l' /\ sorted l' /\ (forall x, x ∈ l' <-> x ∈ l /\ x <> t)) /\
  (exists r, find_next_initialized_tick s a t true = Ok r /\
     match r with
     | Some u => u ∈ l /\ t <= u /\ forall x, x ∈ l -> t <= x -> u <= x
     | None => forall x, x ∈ l -> x < t
     end) /\
  (exists r, find_next_initialized_tick s a t false = Ok r /\
     match r with
     | Some u => u ∈ l /\ u <= t /\ forall x, x ∈ l -> x <= t -> x <= u
     | None => forall x, x ∈ l -> t < x
     end).
Proof.
  intros l Hs Hl. assert (len l <= imax U32) as Hl' by (unfold MAX_TICKS_PER_POOL in Hl; cbn [imax]; lia).
  split_and!; [|by apply remove_tick_spec|by apply find_next_up|by apply find_next_down].
  destruct (Z.ltb_spec (len l) MAX_TICKS_PER_POOL) as [Hlt|Hge].
  - destruct (insert_tick_spec l t Hs Hlt) as (l' & E & Hs' & Hin & Hlen). exists l'. split_and!; try done; lia.
  - unfold insert_tick_sorted, fail_if. apply Z.leb_le in Hge. by rewrite Hge.
Qed.

Lemma tick_list_exact_witness :
  exists r, find_next_initialized_tick two_ticks 1 61 true = Ok r /\
    match r with
    | Some u => u ∈ [60; 120] /\ 61 <= u /\ forall x, x ∈ [60; 120] -> 61 <= x -> u <= x
    | None => forall x, x ∈ [60; 120] -> x < 61
    end.
Proof.
  apply (tick_list_exact two_ticks 1 61).
  - change (get_tick_list two_ticks 1) with [60; 120]. repeat constructor; lia.
  - vm_compute. discriminate.
Defined.

(** ** Fee growth *)

(** Fee growth inside ranges. Two adjacent ranges add up to their union, in
    wrapping [u128] arithmetic; and an accrual adds its growth, the fee at the scale of
    the accumulator over the active liquidity, to the ranges that hold the current tick
    and nothing to the others. *)
Theorem fee_growth_by_range (s s' : tick_store) (a l m u fee : Z) (meta : TickIndexMeta) :
  get_tick_index s a = Ok meta ->
  (exists x y z, get_fee_growth_inside s a l m = Ok x /\ get_fee_growth_inside s a m u = Ok y /\
     get_fee_growth_inside s a l u = Ok z /\ wrapping_add U128 x y = z) /\
  (l < u -> fee <> 0 -> accrue_fee_growth s a fee = Ok s' ->
   exists x x', get_fee_growth_inside s a l u = Ok x /\ get_fee_growth_inside s' a l u = Ok x' /\
     x' = if (l <=? current_tick meta) && (current_tick meta <? u)
          then wrapping_add U128 x (Z.quot (fee * FEE_GROWTH_SCALE) (tm_active_liquidity meta)) else x).
Proof.
  intros Hm%ok_or_Ok. split.
  - rewrite !(fee_inside_eq s a _ _ meta Hm). do 3 eexists. do 3 (split; [reflexivity|]).
    destruct (Z.leb_spec m (current_tick meta)), (Z.ltb_spec (current_tick meta) m); try lia; wrap_solve.
  - intros Hlu Hfee Hacc. destruct (accrue_Ok _ _ _ _ _ Hm Hfee Hacc) as (_ & Ed & m' & Ei & Ec & Eg).
    assert (indexes s' !! a = Some m') as Hm' by (rewrite Ei; apply lookup_insert_eq).
    rewrite (fee_inside_eq s a _ _ meta Hm), (fee_inside_eq s' a _ _ m' Hm'). do 2 eexists.
    do 2 (split; [reflexivity|]). unfold get_tick_data. rewrite Ed, Ec, Eg.
    destruct (Z.leb_spec l (current_tick meta)), (Z.ltb_spec (current_tick meta) u); try lia;
      cbn [andb]; wrap_solve.
Qed.

Lemma fee_growth_by_range_witness :
  exists x y z, get_fee_growth_inside two_ticks 1 0 60 = Ok x /\
    get_fee_growth_inside two_ticks 1 60 120 = Ok y /\
    get_fee_growth_inside two_ticks 1 0 120 = Ok z /\ wrapping_add U128 x y = z.
Proof.
  apply (fee_growth_by_range two_ticks two_ticks 1 0 60 120 0
    {| tm_asset := 1; tick_spacing := 60; current_tick := 0; tm_active_liquidity := 0;
       tm_tick_count := 2; fee_growth_global := 0 |}). reflexivity.
Defined.

(** [split_fee] never fails on a [u64]: the liquidity providers get 80 percent
    rounded down and the treasury the rest, so nothing is lost and the treasury's
    share is at least 20 percent, by less than one unit more. *)
Theorem split_fee_exact (amount : Z) :
  0 <= amount <= imax U64 ->
  exists lp treasury, split_fee amount = Ok (lp, treasury) /\ lp = amount * 8000 / 10000 /\
    lp + treasury = amount /\ 0 <= lp /\ 2000 * amount <= 10000 * treasury < 2000 * amount + 10000.
Proof.
  intros Ha. unfold split_fee, LP_FEE_SHARE_BPS. unfold imul. rewrite iop_in by ilia. rewrite bind_ret.
  pose proof (Z.mod_pos_bound (amount * 8000) 10000 ltac:(lia)) as Hr.
  pose proof (Z.div_mod (amount * 8000) 10000 ltac:(lia)) as Hd.
  rewrite (cast_in U64) by (cbn [imin]; lia). cbv zeta. unfold isub.
  rewrite iop_in by (cbn [imin]; lia). rewrite bind_ret. do 2 eexists. split; [reflexivity|]. lia.
Qed.

Lemma split_fee_exact_witness : exists lp treasury, split_fee 1001 = Ok (lp, treasury) /\ lp = 800 /\ treasury = 201.
Proof.
  destruct (split_fee_exact 1001 ltac:(split; [lia|vm_compute; discriminate])) as (lp & tr & E & El & Es & _).
  exists lp, tr. split; [exact E|]. change (1001 * 8000 / 10000) with 800 in El. lia.
Defined.

(** ** Square root and the ends of the price range *)

(** [integer_sqrt] is the integer square root on the [i128] range up to its maximum,
    where [val + 1] traps, and refuses negative values. At the two ends of the tick range
    there is no price: the top overflows and the bottom, like every tick from -240025
    down, is 0. *)
Theorem sqrt_exact_and_price_ends (val : Z) :
  imin I128 <= val <= imax I128 ->
  integer_sqrt val = (if val <? 0 then Err Overflow
                      else if val =? imax I128 then Panic else Ok (Z.sqrt val)) /\
  tick_to_price MAX_TICK_INDEX = Err Overflow /\
  tick_to_price MIN_TICK_INDEX = Ok 0 /\
  (imin I32 <= val <= -240025 -> tick_to_price val = Ok 0).
Proof.
  intros Hv. split; [|split; [exact tick_to_price_top|split]].
  - destruct (Z.ltb_spec val 0) as [Hn|Hn].
    + unfold integer_sqrt, fail_if. apply Z.ltb_lt in Hn. rewrite Hn. reflexivity.
    + destruct (Z.eqb_spec val (imax I128)) as [->|Hne]; [vm_compute; reflexivity|].
      apply integer_sqrt_eq. lia.
  - apply tick_to_price_bottom. unfold MIN_TICK_INDEX. lia.
  - intros [_ Hb]. by apply tick_to_price_bottom.
Qed.

Lemma sqrt_exact_and_price_ends_witness :
  integer_sqrt 99999999 = Ok 9999 /\ tick_to_price MAX_TICK_INDEX = Err Overflow.
Proof.
  destruct (sqrt_exact_and_price_ends 99999999) as (H1 & H2 & _); [split; vm_compute; discriminate|].
  split; [exact H1|exact H2].
Defined.

(** ** Positions *)
Section positions_claims.
Context {H : Host}.

(** In any history of the operations of positions and of the pool set-up (no
    placement of liquidity but the ones [open_position] and [split_position] make), no
    position is ever opened: [open_position] fails for every argument, and there is no
    record of a position. Its placement of the negative delta at the upper tick takes
    from a gross liquidity that is still 0. *)
Theorem no_position_opens (cs : list pos_call) (s : pos_store) :
  Forall pos_typed cs -> run_pos empty_pos cs = Ok s ->
  (forall id, get_position s id = Err PositionNotFound) /\
  forall auth own a lower upper liquidity r,
    0 <= liquidity <= imax U64 -> open_position auth s own a lower upper liquidity <> Ok r.
Proof.
  intros Hc Hr. pose proof (run_pos_vacant _ _ _ empty_vacant Hc Hr) as Hv. split.
  - intros id. unfold get_position, get_position_record. destruct Hv as (_ & _ & ->). by rewrite lookup_empty.
  - intros auth own a l u liq [s' p] Hl Ho. eapply open_vacant; [exact Hv| |exact Ho]. lia.
Qed.

(** A split that returns was authorised by the owner of the position. It gives the
    owner two positions on the two parts of the range, whose liquidity adds up to the
    position's, in proportion to the widths with the lower rounded down, neither zero;
    the fees owed on them add up to those owed and accrued on it. The old record is
    deleted and the two new ones, under the next two identifiers, are added, and the
    net liquidity of the ticks moves from the contribution of the position to that of
    its parts: nothing outside the three ticks changes. *)
Theorem split_conserves (auth : Address -> bool) (s s' : pos_store) (caller : Address) (id mid : Z)
    (p : Position) (res : SplitPositionResult) :
  get_position s id = Ok p -> 0 <= ps_liquidity p <= imax U64 -> 0 <= tokens_owed p ->
  split_position auth s caller id mid = Ok (s', res) ->
  let lo := sp_lower res in let up := sp_upper res in
  auth caller = true /\ owner p = caller /\ owner lo = caller /\ owner up = caller /\
  (tick_lower p < mid < tick_upper p /\ tick_lower lo = tick_lower p /\ tick_upper lo = mid /\
   tick_lower up = mid /\ tick_upper up = tick_upper p) /\
  (ps_liquidity lo + ps_liquidity up = ps_liquidity p /\ 0 < ps_liquidity lo /\ 0 < ps_liquidity up /\
   ps_liquidity lo = ps_liquidity p * (mid - tick_lower p) / (tick_upper p - tick_lower p)) /\
  (exists inside, get_fee_growth_inside (ticks s) (ps_asset p) (tick_lower p) (tick_upper p) = Ok inside /\
     tokens_owed lo + tokens_owed up = tokens_owed p
       + wrapping_sub U128 inside (fee_growth_inside_last p) * ps_liquidity p / FEE_GROWTH_SCALE) /\
  (records s' = <[ps_id up := up]> (<[ps_id lo := lo]> (delete id (records s))) /\
   ps_id lo = default 0 (counter s) + 1 /\ ps_id up = ps_id lo + 1 /\ counter s' = Some (ps_id up)) /\
  forall b t, net_of (ticks s') b t = net_of (ticks s) b t
    + (if bool_decide (b = ps_asset p /\ t = tick_lower p) then ps_liquidity lo - ps_liquidity p else 0)
    + (if bool_decide (b = ps_asset p /\ t = mid) then ps_liquidity up - ps_liquidity lo else 0)
    + (if bool_decide (b = ps_asset p /\ t = tick_upper p) then - ps_liquidity up - - ps_liquidity p else 0).
Proof. intros Hp%ok_or_Ok Hliq Howed Hs. by eapply split_Ok. Qed.
End positions_claims.

#[local] Existing Instance test_host.

Definition sample_pos_calls : list pos_call := [PosInit 1 1; PosEnsure 1 0; PosTier 1 5].

Definition ok_pos (r : R pos_store) : pos_store := match r with Ok s => s | _ => empty_pos end.

Lemma ok_pos_eq (r : R pos_store) : is_ok r = true -> r = Ok (ok_pos r).
Proof. by destruct r. Qed.

Definition error_of {A : Type} (r : R A) : option ContractError :=
  match r with Err e => Some e | _ => None end.

Lemma no_position_opens_witness :
  get_position (ok_pos (run_pos empty_pos sample_pos_calls)) 1 = Err PositionNotFound /\
  error_of (open_position (fun _ => true) (ok_pos (run_pos empty_pos sample_pos_calls)) 7 1 (-100) 100 1000)
    = Some Overflow /\
  forall r, open_position (fun _ => true) (ok_pos (run_pos empty_pos sample_pos_calls)) 7 1 (-100) 100 1000 <> Ok r.
Proof.
  destruct (no_position_opens sample_pos_calls (ok_pos (run_pos empty_pos sample_pos_calls))) as [H1 H2].
  - repeat (constructor; [exact I|]). constructor.
  - apply ok_pos_eq. vm_compute. reflexivity.
  - split; [apply H1|]. split; [vm_compute; reflexivity|]. intros r. apply H2. split; vm_compute; discriminate.
Defined.

(** A pool on which the upper tick was funded directly, so that a position opens. *)
Definition funded : pos_store :=
  with_ticks empty_pos (ok_ticks (run_ticks empty_ticks [CallInit 1 1; CallPlace 1 100 1000])).

Definition no_position : Position :=
  {| ps_id := 0; owner := (0 : @Address test_host); ps_asset := 0; tick_lower := 0; tick_upper := 0;
     ps_liquidity := 0; fee_growth_inside_last := 0; tokens_owed := 0 |}.

Definition ok_open (r : R (pos_store * Position)) : pos_store * Position :=
  match r with Ok x => x | _ => (empty_pos, no_position) end.
Definition ok_split (r : R (pos_store * SplitPositionResult)) : pos_store * SplitPositionResult :=
  match r with Ok x => x | _ => (empty_pos, {| sp_lower := no_position; sp_upper := no_position |}) end.

Lemma ok_split_eq (r : R (pos_store * SplitPositionResult)) :
  is_ok r = true -> r = Ok ((ok_split r).1, (ok_split r).2).
Proof. by destruct r as [[? ?]| |]. Qed.

Definition ok_position (r : R Position) : Position := match r with Ok p => p | _ => no_position end.

Lemma ok_position_eq (r : R Position) : is_ok r = true -> r = Ok (ok_position r).
Proof. by destruct r. Qed.

Definition opened : pos_store * Position :=
  ok_open (open_position (fun _ => true) funded (7 : @Address test_host) 1 (-200) 100 1000).

Definition opened_split : R (pos_store * SplitPositionResult) :=
  split_position (fun _ => true) opened.1 (7 : @Address test_host) 1 (-100).

Lemma split_conserves_witness :
  ps_liquidity (sp_lower (ok_split opened_split).2) = 333 /\
  ps_liquidity (sp_lower (ok_split opened_split).2) + ps_liquidity (sp_upper (ok_split opened_split).2) = 1000.
Proof.
  destruct (split_conserves (fun _ => true) opened.1 (ok_split opened_split).1 (7 : @Address test_host) 1 (-100)
    (ok_position (get_position opened.1 1)) (ok_split opened_split).2) as (_ & _ & _ & _ & _ & Hs & _).
  - apply ok_position_eq. vm_compute. reflexivity.
  - split; vm_compute; discriminate.
  - vm_compute. discriminate.
  - apply ok_split_eq. vm_compute. reflexivity.
  - destruct Hs as (E & _). split; [vm_compute; reflexivity|].
    etransitivity; [exact E|]. vm_compute. reflexivity.
Defined.
