(* ===== verification/BookData.v ===== *)
(** * Limit order book: data, storage and fills

    [src/src/orders/limit.rs], first half: orders and their storage, internal
    balances, fee and quote arithmetic, the fill invariants, and
    [apply_partial_fill]. The storage is one map per variant of [OrderStorageKey]
    and [LiquidityStorageKey]; extending the time to live of an entry changes no
    value and is left out, as are events. *)

From stdpp Require Import base numbers list gmap.
From Stdlib Require Import ZArith Lia.
From S2P Require Import Prelude Host Token RootErrors.

Open Scope Z_scope.

Abbreviation R := (result ContractError).

Definition PRICE_SCALE : Z := 10000000.
Definition PROTOCOL_FEE_BPS : Z := 30.
Definition BPS_SCALE : Z := 10000.
Definition ORDER_DUST_BPS : Z := 100.

Inductive OrderSide := Sell | Buy.

#[export] Instance OrderSide_eq_dec : EqDecision OrderSide.
Proof. solve_decision. Defined.

Section data.
Context {H : Host} {T : Tokens H}.

Record AssetPair := { pr_sell : Address; pr_buy : Address }.

#[export] Instance AssetPair_eq_dec : EqDecision AssetPair.
Proof. solve_decision. Defined.

#[export] Instance AssetPair_countable : Countable AssetPair.
Proof.
  refine (inj_countable' (fun p => (pr_sell p, pr_buy p))
                         (fun '(a, b) => {| pr_sell := a; pr_buy := b |}) _).
  by intros [].
Defined.

Record LimitOrder := {
  o_id : Z;
  maker : Address;
  o_pair : AssetPair;
  o_sell_asset : Address;
  o_buy_asset : Address;
  side : OrderSide;
  price_tick : Z;
  o_amount : Z;
  original_amount : Z;
  remaining_amount : Z;
  filled_amount : Z;
  created_at_ledger : Z;
  expiry : Z;
  active : bool
}.

Record FillResult := {
  fr_order_id : Z;
  fr_filled : Z;
  fr_paid : Z;
  fr_remaining : Z;
  fr_closed : bool
}.

Record FillUpdateOutcome := {
  closed : bool;
  purged : bool;
  dust_remaining_base : Z;
  dust_refund : Z
}.

Record SettlementResult := {
  seller_order_id : Z;
  buyer_order_id : Z;
  sr_filled : Z;
  sr_quote : Z;
  seller_net_amount : Z;
  buyer_net_amount : Z;
  quote_fee_amount : Z;
  base_fee_amount : Z;
  seller_order_closed : bool;
  buyer_order_closed : bool
}.

Record BatchCancelResult := { cancelled_count : Z; recovered_total : Z }.

(** [OrderStorageKey] and [LiquidityStorageKey]: one field per variant. *)
Record book := {
  next_id : option Z;
  order_index : gmap Z (AssetPair * Z);
  orders : gmap (AssetPair * Z * Z) LimitOrder;
  buckets : gmap (AssetPair * Z) (list Z);
  balances : gmap (Address * Address) Z;
  active_ticks : gmap (AssetPair * bool) (list Z);
  tick_volumes : gmap (AssetPair * Z * bool) Z
}.

Definition empty_book : book :=
  {| next_id := None; order_index := ∅; orders := ∅; buckets := ∅; balances := ∅;
     active_ticks := ∅; tick_volumes := ∅ |}.

Definition set_next_id (b : book) (n : Z) : book :=
  {| next_id := Some n; order_index := order_index b; orders := orders b; buckets := buckets b;
     balances := balances b; active_ticks := active_ticks b; tick_volumes := tick_volumes b |}.

Definition set_orders (b : book) (i : gmap Z (AssetPair * Z)) (o : gmap (AssetPair * Z * Z) LimitOrder) : book :=
  {| next_id := next_id b; order_index := i; orders := o; buckets := buckets b;
     balances := balances b; active_ticks := active_ticks b; tick_volumes := tick_volumes b |}.

Definition set_buckets (b : book) (k : gmap (AssetPair * Z) (list Z)) : book :=
  {| next_id := next_id b; order_index := order_index b; orders := orders b; buckets := k;
     balances := balances b; active_ticks := active_ticks b; tick_volumes := tick_volumes b |}.

Definition set_balances (b : book) (l : gmap (Address * Address) Z) : book :=
  {| next_id := next_id b; order_index := order_index b; orders := orders b; buckets := buckets b;
     balances := l; active_ticks := active_ticks b; tick_volumes := tick_volumes b |}.

Definition set_liquidity (b : book) (t : gmap (AssetPair * bool) (list Z))
    (v : gmap (AssetPair * Z * bool) Z) : book :=
  {| next_id := next_id b; order_index := order_index b; orders := orders b; buckets := buckets b;
     balances := balances b; active_ticks := t; tick_volumes := v |}.

(** ** Identifiers and balances *)

(** [id + 1] is unchecked: it traps at the maximum of [u64]. *)
Definition next_order_id (b : book) : R (book * Z) :=
  let id := default 0 (next_id b) in
  next ← iadd U64 id 1;
  mret (set_next_id b next, id).

Definition get_balance (b : book) (own asset : Address) : Z := default 0 (balances b !! (own, asset)).

Definition credit_balance (b : book) (own asset : Address) (amount : Z) : R book :=
  if amount =? 0 then mret b else
  updated ← ok_or (checked_add I128 (get_balance b own asset) amount) MathOverflow;
  mret (set_balances b (<[(own, asset) := updated]> (balances b))).

Definition debit_balance (b : book) (own asset : Address) (amount : Z) : R book :=
  let current := get_balance b own asset in
  _ ← fail_if (current <? amount) BridgeInsufficientBalance;
  updated ← ok_or (checked_sub I128 current amount) MathOverflow;
  mret (set_balances b (if updated =? 0 then delete (own, asset) (balances b)
                        else <[(own, asset) := updated]> (balances b))).

Definition quote_amount (base_amount price : Z) : R Z :=
  p ← ok_or (checked_mul I128 base_amount price) MathOverflow;
  ok_or (checked_div I128 p PRICE_SCALE) DivisionByZero.

Definition protocol_fee (amount : Z) : R Z :=
  p ← ok_or (checked_mul I128 amount PROTOCOL_FEE_BPS) MathOverflow;
  ok_or (checked_div I128 p BPS_SCALE) DivisionByZero.

(** ** Order records and buckets *)
Definition load_order (b : book) (id : Z) : R LimitOrder :=
  index ← ok_or (order_index b !! id) OrderNotFound;
  ok_or (orders b !! (index.1, index.2, id)) OrderNotFound.

Definition save_order (b : book) (o : LimitOrder) : book :=
  set_orders b (<[o_id o := (o_pair o, price_tick o)]> (order_index b))
               (<[(o_pair o, price_tick o, o_id o) := o]> (orders b)).

Definition remove_order (b : book) (o : LimitOrder) : book :=
  set_orders b (delete (o_id o) (order_index b)) (delete (o_pair o, price_tick o, o_id o) (orders b)).

Definition get_orders_at_tick (b : book) (p : AssetPair) (tick : Z) : list Z :=
  default [] (buckets b !! (p, tick)).

Definition bucket_push (b : book) (p : AssetPair) (tick id : Z) : R book :=
  bucket ← vpush (get_orders_at_tick b p tick) id;
  mret (set_buckets b (<[(p, tick) := bucket]> (buckets b))).

(** The loop keeps every identifier but [id]; an empty bucket is removed. *)
Definition bucket_remove (b : book) (p : AssetPair) (tick id : Z) : book :=
  match buckets b !! (p, tick) with
  | Some bucket =>
      let updated := filter (fun existing => existing <> id) bucket in
      set_buckets b (if bool_decide (updated = []) then delete (p, tick) (buckets b)
                     else <[(p, tick) := updated]> (buckets b))
  | None => b
  end.

(** ** The fill invariants: a violated [assert!] or [expect] traps *)
Definition assert_ {E : Type} (c : bool) : result E unit := if c then Ok tt else Panic.

Definition assert_fill_ratio_invariant (price base_amount quote : Z) : R unit :=
  scaled_base ← unwrap (checked_mul I128 base_amount price);
  scaled_quote ← unwrap (checked_mul I128 quote PRICE_SCALE);
  _ ← assert_ (scaled_quote <=? scaled_base);
  d ← isub I128 scaled_base scaled_quote;
  assert_ (d <? PRICE_SCALE).

Definition assert_volume_invariant (o : LimitOrder) : R unit :=
  expected ← unwrap (checked_sub I128 (original_amount o) (filled_amount o));
  assert_ (remaining_amount o =? expected).

Definition is_dust_remainder (remaining original : Z) : R bool :=
  a ← unwrap (checked_mul I128 remaining BPS_SCALE);
  c ← unwrap (checked_mul I128 original ORDER_DUST_BPS);
  mret (a <? c).

(** ** Applying a fill *)
Definition with_amounts (o : LimitOrder) (remaining filled : Z) (act : bool) : LimitOrder :=
  {| o_id := o_id o; maker := maker o; o_pair := o_pair o; o_sell_asset := o_sell_asset o;
     o_buy_asset := o_buy_asset o; side := side o; price_tick := price_tick o;
     o_amount := remaining; original_amount := original_amount o; remaining_amount := remaining;
     filled_amount := filled; created_at_ledger := created_at_ledger o; expiry := expiry o;
     active := act |}.

Definition apply_partial_fill (b : book) (order : LimitOrder) (fill_amount : Z) :
    R (book * LimitOrder * FillUpdateOutcome) :=
  new_remaining ← ok_or (checked_sub I128 (remaining_amount order) fill_amount) MathOverflow;
  new_filled ← ok_or (checked_add I128 (filled_amount order) fill_amount) MathOverflow;
  let o := with_amounts order new_remaining new_filled (active order) in
  _ ← assert_volume_invariant o;
  if new_remaining =? 0 then
    let o' := with_amounts o 0 new_filled false in
    mret (save_order (bucket_remove b (o_pair o) (price_tick o) (o_id o)) o', o',
          {| closed := true; purged := false; dust_remaining_base := 0; dust_refund := 0 |})
  else
    dust ← is_dust_remainder new_remaining (original_amount o);
    if (dust : bool) then
      refund ← (if bool_decide (side o = Buy) then quote_amount new_remaining (price_tick o)
                else mret new_remaining);
      let o' := with_amounts o 0 new_filled false in
      mret (remove_order (bucket_remove b (o_pair o) (price_tick o) (o_id o)) o', o',
            {| closed := true; purged := true; dust_remaining_base := new_remaining;
               dust_refund := refund |})
    else
      mret (save_order b o, o,
            {| closed := false; purged := false; dust_remaining_base := 0; dust_refund := 0 |}).
End data.
