(* ===== verification/BookTicks.v ===== *)
(** * Limit order book: tick volumes, depth and spread

    [src/src/orders/limit.rs]: the resting volume of each price tick, the list of
    active ticks with its insertion sort, the depth view, and the spread monitor. *)

From stdpp Require Import base numbers list gmap.
From Stdlib Require Import ZArith Lia.
From S2P Require Import Prelude Host Token RootErrors BookData.

Open Scope Z_scope.

Definition SPREAD_ALERT_THRESHOLD : Z := PRICE_SCALE / 20.
Definition MIN_TOP_OF_BOOK_DEPTH : Z := 1000.
Definition FALLBACK_REPRICE_BPS : Z := 200.

(** ** The insertion sort of [add_tick_liquidity] *)

(** Bids come in descending order, asks in ascending order: [a] goes before [b]. *)
Definition before (is_bid : bool) (a b : Z) : bool := if is_bid then b <? a else a <? b.

(** [while j > 0 && get(j - 1) is after key { set(j, get(j - 1)); j -= 1 }], then
    [set(j, key)]. *)
Fixpoint shift_loop {E : Type} (is_bid : bool) (key : Z) (v : list Z) (j : nat) : result E (list Z) :=
  match j with
  | O => vset v 0 key
  | S k =>
      x ← unwrap (vget v (Z.of_nat k));
      if before is_bid key x then
        v' ← vset v (Z.of_nat j) x;
        shift_loop is_bid key v' k
      else vset v (Z.of_nat j) key
  end.

(** [for i in i..i + n] *)
Fixpoint sort_loop {E : Type} (is_bid : bool) (v : list Z) (i n : nat) : result E (list Z) :=
  match n with
  | O => mret v
  | S n =>
      key ← unwrap (vget v (Z.of_nat i));
      v' ← shift_loop is_bid key v i;
      sort_loop is_bid v' (S i) n
  end.

Definition sort_ticks {E : Type} (is_bid : bool) (v : list Z) : result E (list Z) :=
  sort_loop is_bid v 1 (length v - 1).

Section ticks.
Context {H : Host} {T : Tokens H}.

Record LiquidityLevel := { lv_tick : Z; lv_volume : Z }.

Record SpreadImbalance := {
  sp_pair : AssetPair;
  best_bid : Z;
  best_ask : Z;
  spread_ratio : Z;
  has_liquidity : bool
}.

Definition get_ticks (b : book) (p : AssetPair) (is_bid : bool) : list Z :=
  default [] (active_ticks b !! (p, is_bid)).

Definition get_tick_volume (b : book) (p : AssetPair) (tick : Z) (is_bid : bool) : Z :=
  default 0 (tick_volumes b !! (p, tick, is_bid)).

Definition add_tick_liquidity (b : book) (p : AssetPair) (tick amount : Z) (is_bid : bool) : R book :=
  if amount <=? 0 then mret b else
  let current_vol := get_tick_volume b p tick is_bid in
  new_vol ← iadd I128 current_vol amount;
  let volumes := <[(p, tick, is_bid) := new_vol]> (tick_volumes b) in
  if current_vol =? 0 then
    ticks ← vpush (get_ticks b p is_bid) tick;
    sorted_ticks ← sort_ticks is_bid ticks;
    mret (set_liquidity b (<[(p, is_bid) := sorted_ticks]> (active_ticks b)) volumes)
  else mret (set_liquidity b (active_ticks b) volumes).

Definition remove_tick_liquidity (b : book) (p : AssetPair) (tick amount : Z) (is_bid : bool) : book :=
  if amount <=? 0 then b else
  let current_vol := get_tick_volume b p tick is_bid in
  let new_vol := if current_vol <=? amount then 0 else current_vol - amount in
  if new_vol =? 0 then
    let volumes := delete (p, tick, is_bid) (tick_volumes b) in
    match active_ticks b !! (p, is_bid) with
    | Some ticks =>
        let updated := filter (fun t => t <> tick) ticks in
        set_liquidity b (if bool_decide (updated = []) then delete (p, is_bid) (active_ticks b)
                         else <[(p, is_bid) := updated]> (active_ticks b)) volumes
    | None => set_liquidity b (active_ticks b) volumes
    end
  else set_liquidity b (active_ticks b) (<[(p, tick, is_bid) := new_vol]> (tick_volumes b)).

(** The first 20 ticks. *)
Definition get_liquidity_depth (b : book) (p : AssetPair) (is_bid : bool) : list LiquidityLevel :=
  omap (fun t => (fun v => {| lv_tick := t; lv_volume := v |}) <$> tick_volumes b !! (p, t, is_bid))
       (take 20 (get_ticks b p is_bid)).

(** ** The spread monitor *)
Definition calculate_spread_ratio (bid ask : Z) : R Z :=
  _ ← fail_if (bid <=? 0) DivisionByZero;
  spread ← ok_or (checked_sub I128 ask bid) MathOverflow;
  p ← ok_or (checked_mul I128 spread PRICE_SCALE) MathOverflow;
  ok_or (checked_div I128 p bid) DivisionByZero.

Definition get_best_bid_ask (b : book) (p : AssetPair) : option Z * option Z :=
  (head (get_ticks b p true), head (get_ticks b p false)).

Definition is_liquidity_thin (b : book) (p : AssetPair) : bool :=
  match get_best_bid_ask b p with
  | (Some bid, Some ask) =>
      (get_tick_volume b p bid true <? MIN_TOP_OF_BOOK_DEPTH)
      || (get_tick_volume b p ask false <? MIN_TOP_OF_BOOK_DEPTH)
  | _ => true
  end.

(** The alert of a spread above the threshold is an event: no state changes. *)
Definition check_spread_imbalance (b : book) (p : AssetPair) : R SpreadImbalance :=
  match get_best_bid_ask b p with
  | (Some bid, Some ask) =>
      r ← calculate_spread_ratio bid ask;
      mret {| sp_pair := p; best_bid := bid; best_ask := ask; spread_ratio := r; has_liquidity := true |}
  | _ => mret {| sp_pair := p; best_bid := 0; best_ask := 0; spread_ratio := 0; has_liquidity := false |}
  end.

Definition enforce_fallback_pricing (b : book) (p : AssetPair) (base_price : Z) : R Z :=
  if negb (is_liquidity_thin b p) || (base_price <=? 0) then mret base_price else
  markup ← ok_or (checked_mul I128 base_price FALLBACK_REPRICE_BPS) MathOverflow;
  m ← idiv I128 markup BPS_SCALE;
  ok_or (checked_add I128 base_price m) MathOverflow.
End ticks.
