(* ===== verification/BookSort.v ===== *)
(** * Limit order book: the sorted tick lists

    The insertion sort of [add_tick_liquidity] never fails and sorts by price
    priority; the tick lists stay strictly sorted and hold exactly the ticks with a
    resting volume. *)

From stdpp Require Import base numbers list gmap sorting.
From Stdlib Require Import ZArith Lia.
From S2P Require Import Prelude Host Token RootErrors BookData BookTicks.

Open Scope Z_scope.

(** Not worse, and strictly better, in price priority. *)
Definition prio (is_bid : bool) (a b : Z) : Prop := if is_bid then b <= a else a <= b.
Definition better (is_bid : bool) (a b : Z) : Prop := if is_bid then b < a else a < b.

Lemma before_better (d : bool) (a b : Z) : before d a b = true <-> better d a b.
Proof. destruct d; cbn; lia. Qed.

Lemma not_before_prio (d : bool) (a b : Z) : before d a b = false <-> prio d b a.
Proof. destruct d; cbn; lia. Qed.

#[export] Instance prio_trans (d : bool) : Transitive (prio d).
Proof. intros a b c. destruct d; cbn; lia. Qed.

#[export] Instance better_trans (d : bool) : Transitive (better d).
Proof. intros a b c. destruct d; cbn; lia. Qed.

Lemma better_prio (d : bool) (a b : Z) : better d a b -> prio d a b.
Proof. destruct d; cbn; lia. Qed.

Lemma prio_better (d : bool) (a b : Z) : prio d a b -> a <> b -> better d a b.
Proof. destruct d; cbn; lia. Qed.

(** ** The insertion sort *)
Lemma vget_mid {A : Type} (l1 l2 : list A) (x : A) : vget (l1 ++ x :: l2) (Z.of_nat (length l1)) = Some x.
Proof. rewrite vget_nat. by apply list_lookup_middle. Qed.

Lemma vset_mid {E A : Type} (l1 l2 : list A) (x y : A) :
  @vset E A (l1 ++ x :: l2) (Z.of_nat (length l1)) y = Ok (l1 ++ y :: l2).
Proof.
  apply vset_Ok. unfold len. rewrite length_app. cbn [length]. split; [lia|].
  rewrite Nat2Z.id. symmetry. rewrite insert_app_r_alt, Nat.sub_diag by lia. reflexivity.
Qed.

(** The key moves left past the elements it goes before. *)
Lemma shift_loop_spec {E : Type} (d : bool) (key x : Z) (l1 l2 : list Z) :
  exists a c, l1 = a ++ c /\
    @shift_loop E d key (l1 ++ x :: l2) (length l1) = Ok (a ++ key :: c ++ l2) /\
    Forall (better d key) c /\ (forall y, last a = Some y -> prio d y key).
Proof.
  revert x l2. induction l1 as [|y l IH] using rev_ind; intros x l2.
  - exists [], []. cbn [shift_loop length app]. split_and!; [done| |done|done].
    exact (vset_mid [] l2 x key).
  - rewrite length_app. cbn [length]. rewrite Nat.add_1_r. cbn [shift_loop].
    rewrite <- app_assoc. cbn [app]. rewrite vget_mid. cbn [unwrap]. rewrite bind_ret.
    assert (forall z, @vset E Z (l ++ y :: x :: l2) (Z.of_nat (S (length l))) z = Ok (l ++ y :: z :: l2)) as Hset.
    { intros z. pose proof (@vset_mid E Z (l ++ [y]) l2 x z) as Hv. rewrite length_app, Nat.add_1_r in Hv.
      rewrite <- !app_assoc in Hv. exact Hv. }
    destruct (before d key y) eqn:Eb.
    + rewrite Hset, bind_ret. destruct (IH y (y :: l2)) as (a & c & -> & -> & Hc & Ha).
      exists a, (c ++ [y]). rewrite <- !app_assoc. cbn [app]. split_and!; [done|done| |done].
      apply Forall_app. split; [done|]. apply Forall_singleton. by apply before_better.
    + rewrite Hset. exists (l ++ [y]), []. rewrite app_nil_r. cbn [app].
      split_and!; [done|by rewrite <- app_assoc|done|]. intros z Hz. rewrite last_snoc in Hz. injection Hz as <-. by apply not_before_prio.
Qed.

Lemma sorted_last (d : bool) (a : list Z) (key : Z) :
  StronglySorted (prio d) a -> (forall y, last a = Some y -> prio d y key) -> Forall (fun y => prio d y key) a.
Proof.
  induction a as [|y l _] using rev_ind; intros Hs Hl; [done|].
  specialize (Hl y ltac:(apply last_snoc)). apply Forall_app. split; [|by apply Forall_singleton].
  apply StronglySorted_app in Hs as (Hs & _ & _). apply Forall_forall. intros z Hz.
  etransitivity; [|exact Hl]. apply Hs; [done|by left].
Qed.

Lemma sort_loop_spec {E : Type} (d : bool) (l2 l1 : list Z) :
  StronglySorted (prio d) l1 ->
  exists l, @sort_loop E d (l1 ++ l2) (length l1) (length l2) = Ok l /\ l ≡ₚ l1 ++ l2 /\
    StronglySorted (prio d) l.
Proof.
  revert l1. induction l2 as [|x l2 IH]; intros l1 Hs; cbn [length sort_loop].
  - exists l1. rewrite app_nil_r. done.
  - rewrite vget_mid. cbn [unwrap]. rewrite bind_ret.
    destruct (@shift_loop_spec E d x x l1 l2) as (a & c & -> & -> & Hc & Ha). rewrite bind_ret.
    apply StronglySorted_app in Hs as (Hac & Hsa & Hsc).
    pose proof (sorted_last d a x Hsa Ha) as Hax.
    destruct (IH (a ++ x :: c)) as (l & El & Hp & Hl).
    + apply StronglySorted_app. split; [|split; [done|]].
      * intros y Hy z [->|Hz]%elem_of_cons; [|by apply Hac].
        rewrite Forall_forall in Hax. by apply Hax.
      * constructor; [done|]. eapply Forall_impl; [exact Hc|]. apply better_prio.
    + exists l. split_and!; [|rewrite Hp; solve_Permutation|done]. rewrite <- El.
      rewrite <- app_assoc. cbn [app]. f_equal. rewrite !length_app. cbn [length]. lia.
Qed.

(** The sort is total: a sorted permutation. *)
Lemma sort_ticks_spec {E : Type} (d : bool) (v : list Z) :
  exists l, @sort_ticks E d v = Ok l /\ l ≡ₚ v /\ StronglySorted (prio d) l.
Proof.
  unfold sort_ticks. destruct v as [|x v]; [exists []; split_and!; [done|done|constructor]|].
  replace (length (x :: v) - 1)%nat with (length v) by (cbn; lia).
  destruct (@sort_loop_spec E d v [x]) as (l & El & Hp & Hs); [repeat constructor|]. exists l. done.
Qed.

Lemma strictly_sorted (d : bool) (l : list Z) :
  StronglySorted (better d) l <-> StronglySorted (prio d) l /\ NoDup l.
Proof.
  induction l as [|x l IH]; [split; [intros _; split; constructor|constructor]|].
  rewrite !StronglySorted_cons, NoDup_cons, IH, !Forall_forall. split.
  - intros (Hx & Hs & Hn). split_and!; try done.
    + intros y Hy. by apply better_prio, Hx.
    + intros Hin. specialize (Hx x Hin). destruct d; cbn in Hx; lia.
  - intros ((Hx & Hs) & Hnin & Hn). split_and!; try done.
    intros y Hy. apply prio_better; [by apply Hx|]. intros ->. done.
Qed.

(** ** The tick lists *)
Lemma sorted_filter {A : Type} (Rel : relation A) (P : A -> Prop) `{forall x, Decision (P x)} (l : list A) :
  StronglySorted Rel l -> StronglySorted Rel (filter P l).
Proof.
  induction 1 as [|x l Hs IH Hx]; [constructor|]. rewrite filter_cons. destruct (decide (P x)); [|done].
  constructor; [done|]. rewrite Forall_forall in *. intros y [_ Hy]%list_elem_of_filter. by apply Hx.
Qed.

Section ticks.
Context {H : Host} {T : Tokens H}.

(** Every pair has, on each side, a strictly sorted list of exactly the ticks with a
    positive volume. *)
Definition ticks_inv (b : book) : Prop :=
  (forall k v, tick_volumes b !! k = Some v -> 0 < v) /\
  forall p d, StronglySorted (better d) (get_ticks b p d) /\
    forall t, t ∈ get_ticks b p d <-> 0 < get_tick_volume b p t d.

Lemma volume_nonneg (b : book) (p : AssetPair) (t : Z) (d : bool) :
  ticks_inv b -> 0 <= get_tick_volume b p t d.
Proof.
  intros [Hv _]. unfold get_tick_volume. destruct (tick_volumes b !! (p, t, d)) eqn:E; cbn; [|lia].
  apply Hv in E. lia.
Qed.

(** The part of a volume change that concerns one tick. *)
Definition tick_part (p : AssetPair) (t : Z) (d : bool) (p' : AssetPair) (t' : Z) (d' : bool) (x : Z) : Z :=
  if decide ((p, t, d) = (p', t', d')) then x else 0.

Lemma get_ticks_set (b : book) (ts : gmap (AssetPair * bool) (list Z)) (vs : gmap (AssetPair * Z * bool) Z)
    (p : AssetPair) (d : bool) :
  get_ticks (set_liquidity b ts vs) p d = default [] (ts !! (p, d)).
Proof. done. Qed.

Lemma get_volume_insert (b : book) (ts : gmap (AssetPair * bool) (list Z)) (p p' : AssetPair)
    (t t' x : Z) (d d' : bool) :
  get_tick_volume (set_liquidity b ts (<[(p, t, d) := x]> (tick_volumes b))) p' t' d'
    = if decide ((p, t, d) = (p', t', d')) then x else get_tick_volume b p' t' d'.
Proof.
  unfold get_tick_volume, set_liquidity. cbn [tick_volumes]. destruct (decide _) as [E|Hne].
  - rewrite E, lookup_insert_eq. done.
  - by rewrite lookup_insert_ne.
Qed.

Lemma get_volume_delete (b : book) (ts : gmap (AssetPair * bool) (list Z)) (p p' : AssetPair)
    (t t' : Z) (d d' : bool) :
  get_tick_volume (set_liquidity b ts (delete (p, t, d) (tick_volumes b))) p' t' d'
    = if decide ((p, t, d) = (p', t', d')) then 0 else get_tick_volume b p' t' d'.
Proof.
  unfold get_tick_volume, set_liquidity. cbn [tick_volumes]. destruct (decide _) as [E|Hne].
  - rewrite E, lookup_delete_eq. done.
  - by rewrite lookup_delete_ne.
Qed.

(** The fields a change of tick liquidity leaves alone. *)
Definition same_orders (b b' : book) : Prop :=
  next_id b' = next_id b /\ order_index b' = order_index b /\ orders b' = orders b /\
  buckets b' = buckets b /\ balances b' = balances b.

Lemma add_tick_ok (b b' : book) (p : AssetPair) (t x : Z) (d : bool) :
  ticks_inv b -> 0 < x -> add_tick_liquidity b p t x d = Ok b' ->
  ticks_inv b' /\ same_orders b b' /\
  forall p' t' d', get_tick_volume b' p' t' d' = get_tick_volume b p' t' d' + tick_part p t d p' t' d' x.
Proof.
  intros Hinv Hx Ha. pose proof (volume_nonneg b p t d Hinv) as Hnn. destruct Hinv as [Hv Hl].
  unfold add_tick_liquidity in Ha. destruct (Z.leb_spec x 0); [lia|]. cbv zeta in Ha.
  apply bind_Ok in Ha as (nv & [-> _]%iop_Ok & Ha).
  assert (forall ts, (forall q e, StronglySorted (better e) (default [] (ts !! (q, e))) /\
            forall u, u ∈ default [] (ts !! (q, e)) <-> (q, u, e) = (p, t, d) \/ u ∈ get_ticks b q e) ->
          let b1 := set_liquidity b ts (<[(p, t, d) := get_tick_volume b p t d + x]> (tick_volumes b)) in
          ticks_inv b1 /\ same_orders b b1 /\
          forall p' t' d', get_tick_volume b1 p' t' d' = get_tick_volume b p' t' d' + tick_part p t d p' t' d' x) as Hgen.
  { intros ts Hts b1. split_and!; [split| |].
    - intros k v Hk. cbn [b1 set_liquidity tick_volumes] in Hk. apply lookup_insert_Some in Hk as [[<- <-]|[_ Hk]]; [lia|].
      by apply (Hv k).
    - intros q e. unfold b1. rewrite get_ticks_set. split; [apply Hts|]. intros u.
      rewrite get_volume_insert. destruct (Hts q e) as [_ ->]. destruct (Hl q e) as [_ ->].
      destruct (decide ((p, t, d) = (q, u, e))) as [[= <- <- <-]|Hne]; [split; [lia|by left]|].
      split; [intros [?|?]; [congruence|done]|by right].
    - done.
    - intros p' t' d'. unfold b1, tick_part. rewrite get_volume_insert.
      destruct (decide _) as [[= <- <- <-]|]; lia. }
  destruct (Z.eqb_spec (get_tick_volume b p t d) 0) as [Ez|Hnz].
  - apply bind_Ok in Ha as (tks & [_ ->]%vpush_Ok & Ha).
    destruct (@sort_ticks_spec ContractError d (get_ticks b p d ++ [t])) as (srt & Es & Hp & Hs).
    rewrite Es, bind_ret in Ha. injection Ha as <-. apply Hgen. intros q e.
    destruct (decide ((p, d) = (q, e))) as [[= <- <-]|Hne].
    + rewrite lookup_insert_eq. cbn [default from_option id]. destruct (Hl p d) as [Hsd Hmem]. split.
      * apply strictly_sorted. split; [done|]. rewrite Hp. apply NoDup_app. split_and!.
        -- exact (proj2 (proj1 (strictly_sorted _ _) Hsd)).
        -- intros u Hu Hu1. apply list_elem_of_singleton in Hu1 as ->. apply Hmem in Hu. lia.
        -- apply NoDup_singleton.
      * intros u. rewrite Hp, elem_of_app, list_elem_of_singleton. split; [intros [?| ->]; auto|].
        intros [[= ->]|?]; auto.
    + rewrite lookup_insert_ne by done. fold (get_ticks b q e). split; [apply Hl|].
      intros u. split; [by right|]. intros [[= -> -> ->]|?]; [congruence|done].
  - injection Ha as <-. apply Hgen. intros q e. fold (get_ticks b q e). split; [apply Hl|].
    intros u. split; [by right|]. intros [[= -> -> ->]|?]; [|done]. destruct (Hl p d) as [_ Hm]. apply Hm. lia.
Qed.

Lemma remove_tick_ok (b : book) (p : AssetPair) (t x : Z) (d : bool) :
  ticks_inv b -> 0 <= x <= get_tick_volume b p t d ->
  let b' := remove_tick_liquidity b p t x d in
  ticks_inv b' /\ same_orders b b' /\
  forall p' t' d', get_tick_volume b' p' t' d' = get_tick_volume b p' t' d' - tick_part p t d p' t' d' x.
Proof.
  intros Hinv Hx. unfold remove_tick_liquidity. destruct (Z.leb_spec x 0) as [Hx0|Hx0].
  { cbv zeta. split; [done|]. split; [done|]. intros. unfold tick_part. destruct (decide _); lia. }
  destruct Hinv as [Hv Hl]. cbv zeta. destruct (Z.leb_spec (get_tick_volume b p t d) x) as [Hle|Hgt].
  - assert (get_tick_volume b p t d = x) as Ex by lia. cbn [Z.eqb].
    assert (forall ts, (forall q e, StronglySorted (better e) (default [] (ts !! (q, e))) /\
              forall u, u ∈ default [] (ts !! (q, e)) <-> (q, u, e) <> (p, t, d) /\ u ∈ get_ticks b q e) ->
            let b1 := set_liquidity b ts (delete (p, t, d) (tick_volumes b)) in
            ticks_inv b1 /\ same_orders b b1 /\
            forall p' t' d', get_tick_volume b1 p' t' d' = get_tick_volume b p' t' d' - tick_part p t d p' t' d' x) as Hgen.
    { intros ts Hts b1. split_and!; [split| |].
      - intros k v Hk. cbn [b1 set_liquidity tick_volumes] in Hk. apply lookup_delete_Some in Hk as [_ Hk].
        by apply (Hv k).
      - intros q e. unfold b1. rewrite get_ticks_set. split; [apply Hts|]. intros u.
        rewrite get_volume_delete. destruct (Hts q e) as [_ ->]. destruct (Hl q e) as [_ ->].
        destruct (decide ((p, t, d) = (q, u, e))) as [[= <- <- <-]|Hne]; [split; [tauto|lia]|].
        split; [tauto|]. intros ?. split; [congruence|done].
      - done.
      - intros p' t' d'. unfold b1, tick_part. rewrite get_volume_delete.
        destruct (decide _) as [[= <- <- <-]|]; lia. }
    assert (forall q e u, (q, e) <> (p, d) -> u ∈ get_ticks b q e <-> (q, u, e) <> (p, t, d) /\ u ∈ get_ticks b q e) as Hother.
    { intros q e u Hne. split; [intros ?; split; [congruence|done]|tauto]. }
    destruct (active_ticks b !! (p, d)) as [tks|] eqn:Et.
    + assert (get_ticks b p d = tks) as Eg by (unfold get_ticks; by rewrite Et). apply Hgen. intros q e.
      destruct (decide ((q, e) = (p, d))) as [[= -> ->]|Hne].
      * assert (default [] ((if bool_decide (filter (fun u => u <> t) tks = []) then delete (p, d) (active_ticks b)
                  else <[(p, d) := filter (fun u => u <> t) tks]> (active_ticks b)) !! (p, d))
                = filter (fun u => u <> t) tks) as ->.
        { case_bool_decide as E; [by rewrite lookup_delete_eq, E|by rewrite lookup_insert_eq]. }
        rewrite <- Eg. split; [apply sorted_filter, Hl|]. intros u. rewrite list_elem_of_filter.
        split; intros [? ?]; (split; [congruence|done]).
      * assert (default [] ((if bool_decide (filter (fun u => u <> t) tks = []) then delete (p, d) (active_ticks b)
                  else <[(p, d) := filter (fun u => u <> t) tks]> (active_ticks b)) !! (q, e)) = get_ticks b q e) as ->.
        { case_bool_decide; [by rewrite lookup_delete_ne|by rewrite lookup_insert_ne]. }
        split; [apply Hl|]. intros u. by apply Hother.
    + apply Hgen. intros q e. fold (get_ticks b q e). split; [apply Hl|]. intros u.
      destruct (decide ((q, e) = (p, d))) as [[= -> ->]|Hne]; [|by apply Hother].
      unfold get_ticks. rewrite Et. cbn. split; [by intros ?%elem_of_nil|by intros [_ ?]].
  - destruct (Z.eqb_spec (get_tick_volume b p t d - x) 0); [lia|]. split_and!; [split| |].
    + intros k v Hk. cbn [set_liquidity tick_volumes] in Hk. apply lookup_insert_Some in Hk as [[<- <-]|[_ Hk]]; [lia|].
      by apply (Hv k).
    + intros q e. rewrite get_ticks_set. fold (get_ticks b q e). split; [apply Hl|]. intros u.
      rewrite get_volume_insert. destruct (Hl q e) as [_ ->].
      destruct (decide _) as [[= <- <- <-]|]; [lia|done].
    + done.
    + intros p' t' d'. rewrite get_volume_insert. unfold tick_part. destruct (decide _) as [[= <- <- <-]|]; lia.
Qed.
End ticks.
