(* ===== verification/BookInv.v ===== *)
(** * Limit order book: the invariant of the book

    [book_ok]: records, index and buckets agree, amounts are consistent, the tick
    lists are sorted and every resting order is covered by the volume of its tick.
    [shrunk] is what a fill or a cancellation does to one order; it keeps the
    invariant. *)

From stdpp Require Import base numbers list gmap sorting.
From Stdlib Require Import ZArith Lia.
From S2P Require Import Prelude Host Token RootErrors BookData BookTicks BookSort.

Open Scope Z_scope.

Section inv.
Context {H : Host} {T : Tokens H}.

(** The address of the contract, the same for every call. *)
Variable self : Address.

Definition okey (o : LimitOrder) : AssetPair * Z * Z := (o_pair o, price_tick o, o_id o).
Definition nid (b : book) : Z := default 0 (next_id b).
Definition side_of (is_bid : bool) : OrderSide := if is_bid then Buy else Sell.
Definition is_bid_order (o : LimitOrder) : bool := bool_decide (side o = Buy).

Definition order_wf (o : LimitOrder) : Prop :=
  0 < price_tick o /\ 0 <= filled_amount o /\ maker o <> self /\
  if active o then 0 < remaining_amount o /\ remaining_amount o + filled_amount o = original_amount o
  else remaining_amount o = 0.

Definition rests_at (p : AssetPair) (t : Z) (d : bool) (k : AssetPair * Z * Z) (o : LimitOrder) : Z :=
  if decide ((k.1.1, k.1.2, is_bid_order o) = (p, t, d)) then remaining_amount o else 0.

(** The base volume resting at a tick, on one side. *)
Definition resting (b : book) (p : AssetPair) (t : Z) (d : bool) : Z := msum (rests_at p t d) (orders b).

Record orders_ok (b : book) : Prop := {
  ok_order : forall p t id o, orders b !! (p, t, id) = Some o ->
    okey o = (p, t, id) /\ order_wf o /\ order_index b !! id = Some (p, t) /\ id < nid b;
  ok_index : forall id p t, order_index b !! id = Some (p, t) -> is_Some (orders b !! (p, t, id));
  ok_bucket : forall p t id, id ∈ get_orders_at_tick b p t <->
    exists o, orders b !! (p, t, id) = Some o /\ active o = true;
  ok_fifo : forall p t, StronglySorted Z.lt (get_orders_at_tick b p t);
  ok_balances : forall k x, balances b !! k = Some x -> 0 <= x;
  ok_quote : forall k o, orders b !! k = Some o -> side o = Buy -> original_amount o * price_tick o <= imax I128
}.

Record book_ok (b : book) : Prop := {
  ok_orders :> orders_ok b;
  ok_ticks : ticks_inv b;
  ok_cover : forall p t d, resting b p t d <= get_tick_volume b p t d
}.

Lemma load_order_Ok (b : book) (id : Z) (o : LimitOrder) :
  orders_ok b -> load_order b id = Ok o ->
  orders b !! okey o = Some o /\ o_id o = id /\ order_wf o.
Proof.
  intros Hok Hl. unfold load_order in Hl. apply bind_Ok in Hl as ([p t] & _ & Ho%ok_or_Ok).
  cbn [fst snd] in Ho. destruct (ok_order b Hok _ _ _ _ Ho) as (Hk & Hwf & _). rewrite Hk.
  split; [done|]. split; [|done]. unfold okey in Hk. congruence.
Qed.

Lemma load_order_err (b : book) (id : Z) : is_ok (load_order b id) = false ->
  load_order b id = Err OrderNotFound.
Proof.
  unfold load_order. destruct (order_index b !! id) as [[p t]|]; cbn; [|done].
  destruct (orders b !! (p, t, id)); done.
Qed.

Lemma order_remaining_nonneg (b : book) (p : AssetPair) (t id : Z) (o : LimitOrder) :
  orders_ok b -> orders b !! (p, t, id) = Some o -> 0 <= remaining_amount o.
Proof.
  intros Hok Ho. destruct (ok_order b Hok _ _ _ _ Ho) as (_ & (_ & _ & _ & Hr) & _).
  destruct (active o); lia.
Qed.

Lemma rests_at_nonneg (b : book) (p : AssetPair) (t : Z) (d : bool) (k : AssetPair * Z * Z) (o : LimitOrder) :
  orders_ok b -> orders b !! k = Some o -> 0 <= rests_at p t d k o.
Proof.
  intros Hok Ho. destruct k as [[q u] id]. unfold rests_at. destruct (decide _); [|done].
  by eapply order_remaining_nonneg.
Qed.

Lemma buckets_remove (b : book) (p q : AssetPair) (t u id : Z) :
  get_orders_at_tick (bucket_remove b p t id) q u
    = if decide ((p, t) = (q, u)) then filter (fun x => x <> id) (get_orders_at_tick b q u)
      else get_orders_at_tick b q u.
Proof.
  unfold bucket_remove, get_orders_at_tick. destruct (buckets b !! (p, t)) as [l|] eqn:E.
  - cbn [set_buckets buckets]. case_bool_decide as Ee; destruct (decide _) as [[= <- <-]|Hne].
    + rewrite lookup_delete_eq, E. symmetry. exact Ee.
    + by rewrite lookup_delete_ne.
    + by rewrite lookup_insert_eq, E.
    + by rewrite lookup_insert_ne.
  - destruct (decide _) as [[= <- <-]|Hne]; [by rewrite E|done].
Qed.

Lemma bucket_remove_frame (b : book) (p : AssetPair) (t id : Z) :
  let b' := bucket_remove b p t id in
  next_id b' = next_id b /\ order_index b' = order_index b /\ orders b' = orders b /\
  balances b' = balances b /\ active_ticks b' = active_ticks b /\ tick_volumes b' = tick_volumes b.
Proof. unfold bucket_remove. destruct (buckets b !! (p, t)); done. Qed.

(** ** One order loses volume *)
Record shrunk (b b' : book) (o o' : LimitOrder) : Prop := {
  sh_order : o' = with_amounts o (remaining_amount o') (filled_amount o') (active o');
  sh_rem : 0 <= remaining_amount o' <= remaining_amount o;
  sh_wf : if active o' then 0 < remaining_amount o' /\
            remaining_amount o' + filled_amount o' = original_amount o else remaining_amount o' = 0;
  sh_filled : 0 <= filled_amount o';
  sh_frame : next_id b' = next_id b /\ balances b' = balances b /\
    active_ticks b' = active_ticks b /\ tick_volumes b' = tick_volumes b;
  sh_other : forall k, k <> okey o -> orders b' !! k = orders b !! k;
  sh_index : forall id, id <> o_id o -> order_index b' !! id = order_index b !! id;
  sh_self : (orders b' !! okey o = Some o' /\ order_index b' !! o_id o = Some (o_pair o, price_tick o)) \/
            (orders b' !! okey o = None /\ order_index b' !! o_id o = None /\ active o' = false);
  sh_bucket : forall p t, get_orders_at_tick b' p t =
    if decide ((o_pair o, price_tick o) = (p, t) /\ active o' = false)
    then filter (fun x => x <> o_id o) (get_orders_at_tick b p t) else get_orders_at_tick b p t
}.

(** An order is closed with its record kept (a full fill, a cancellation) or purged,
    or stays open with less volume. *)
Lemma closed_shrunk (b : book) (o : LimitOrder) (f : Z) :
  0 <= remaining_amount o -> 0 <= f ->
  let o' := with_amounts o 0 f false in
  shrunk b (save_order (bucket_remove b (o_pair o) (price_tick o) (o_id o)) o') o o' /\
  shrunk b (remove_order (bucket_remove b (o_pair o) (price_tick o) (o_id o)) o') o o'.
Proof.
  intros Hr Hf o'.
  destruct (bucket_remove_frame b (o_pair o) (price_tick o) (o_id o)) as (F1 & F2 & F3 & F4 & F5 & F6).
  assert (forall b1 p t, buckets b1 = buckets (bucket_remove b (o_pair o) (price_tick o) (o_id o)) ->
    get_orders_at_tick b1 p t = if decide ((o_pair o, price_tick o) = (p, t) /\ active o' = false)
      then filter (fun x => x <> o_id o) (get_orders_at_tick b p t) else get_orders_at_tick b p t) as Hb.
  { intros b1 p t Eb. unfold get_orders_at_tick at 1. rewrite Eb.
    fold (get_orders_at_tick (bucket_remove b (o_pair o) (price_tick o) (o_id o)) p t).
    rewrite buckets_remove. repeat case_decide; tauto. }
  split; constructor; try (intros; by apply Hb);
    cbn [o' with_amounts remaining_amount filled_amount active o_pair price_tick o_id save_order remove_order
         set_orders next_id balances active_ticks tick_volumes orders order_index];
    rewrite ?F1, ?F2, ?F3, ?F4, ?F5, ?F6; try done; try lia.
  - intros k Hk. rewrite lookup_insert_ne; [done|]. unfold okey in Hk. congruence.
  - intros id Hid. by rewrite lookup_insert_ne.
  - left. unfold okey. by rewrite !lookup_insert_eq.
  - intros k Hk. rewrite lookup_delete_ne; [done|]. unfold okey in Hk. congruence.
  - intros id Hid. by rewrite lookup_delete_ne.
  - right. unfold okey. by rewrite !lookup_delete_eq.
Qed.

Lemma open_shrunk (b : book) (o : LimitOrder) (r f : Z) :
  0 < r <= remaining_amount o -> 0 <= f -> r + f = original_amount o ->
  let o' := with_amounts o r f true in shrunk b (save_order b o') o o'.
Proof.
  intros Hr Hf Hv o'.
  constructor; cbn [o' with_amounts remaining_amount filled_amount active o_pair price_tick o_id save_order
    set_orders next_id balances active_ticks tick_volumes orders order_index]; try done; try lia.
  - intros k Hk. rewrite lookup_insert_ne; [done|]. unfold okey in Hk. congruence.
  - intros id Hid. by rewrite lookup_insert_ne.
  - left. unfold okey. by rewrite !lookup_insert_eq.
  - intros p t. destruct (decide _) as [[_ ?]|]; done.
Qed.

Lemma shrunk_key (b b' : book) (o o' : LimitOrder) : shrunk b b' o o' -> okey o' = okey o.
Proof. intros Hs. rewrite (sh_order _ _ _ _ Hs). done. Qed.

(** A sum over the orders that ignores empty ones moves by the change of the order. *)
Lemma shrunk_sum (b b' : book) (o o' : LimitOrder) (f : AssetPair * Z * Z -> LimitOrder -> Z) :
  orders b !! okey o = Some o -> shrunk b b' o o' ->
  (forall k x, remaining_amount x = 0 -> f k x = 0) ->
  msum f (orders b') = msum f (orders b) - f (okey o) o + f (okey o) o'.
Proof.
  intros Ho Hs Hf.
  assert (delete (okey o) (orders b') = delete (okey o) (orders b)) as Ed.
  { apply map_eq. intros k. destruct (decide (okey o = k)) as [<-|Hne]; [by rewrite !lookup_delete_eq|].
    rewrite !lookup_delete_ne by done. by apply (sh_other _ _ _ _ Hs). }
  pose proof (msum_delete f (orders b') (okey o)) as E1. pose proof (msum_delete f (orders b) (okey o)) as E2.
  rewrite Ed in E1. unfold term in E1, E2. rewrite Ho in E2.
  destruct (sh_self _ _ _ _ Hs) as [[Es _]|(Es & _ & Ha)]; rewrite Es in E1; [lia|].
  pose proof (sh_wf _ _ _ _ Hs) as Hw. rewrite Ha in Hw. rewrite (Hf (okey o) o' Hw). lia.
Qed.

Lemma shrunk_resting (b b' : book) (o o' : LimitOrder) (p : AssetPair) (t : Z) (d : bool) :
  orders b !! okey o = Some o -> shrunk b b' o o' ->
  resting b' p t d = resting b p t d
    - tick_part (o_pair o) (price_tick o) (is_bid_order o) p t d (remaining_amount o - remaining_amount o').
Proof.
  intros Ho Hs. unfold resting. rewrite (shrunk_sum b b' o o'); [|done|done|].
  - unfold rests_at, tick_part, is_bid_order. cbn [okey fst snd].
    assert (side o' = side o) as -> by (rewrite (sh_order _ _ _ _ Hs); done). destruct (decide _); lia.
  - intros k x Hx. unfold rests_at. destruct (decide _); [done|done].
Qed.

Lemma shrunk_orders_ok (b b' : book) (o o' : LimitOrder) :
  orders_ok b -> orders b !! okey o = Some o -> active o = true -> shrunk b b' o o' -> orders_ok b'.
Proof.
  intros Hok Ho Ha Hs. destruct (ok_order b Hok _ _ _ _ Ho) as (_ & Hwf & Hidx & Hid).
  destruct (sh_frame _ _ _ _ Hs) as (En & Eb & _). pose proof (shrunk_key _ _ _ _ Hs) as Ek.
  assert (nid b' = nid b) as Enid by (unfold nid; by rewrite En).
  assert (order_wf o') as Hwf'.
  { destruct Hwf as (Hp & _ & Hm & _). rewrite (sh_order _ _ _ _ Hs). unfold order_wf.
    cbn [price_tick filled_amount maker active with_amounts remaining_amount original_amount].
    split_and!; [done|by apply (sh_filled _ _ _ _ Hs)|done|exact (sh_wf _ _ _ _ Hs)]. }
  constructor.
  - intros p t id x Hx. rewrite Enid. destruct (decide ((p, t, id) = okey o)) as [E|Hne].
    + rewrite E in Hx. destruct (sh_self _ _ _ _ Hs) as [[Es Ei]|(Es & _)]; [|congruence].
      assert (x = o') as -> by congruence. rewrite Ek. injection E as -> -> ->. split_and!; try done.
    + rewrite (sh_other _ _ _ _ Hs) in Hx by done. destruct (ok_order b Hok _ _ _ _ Hx) as (? & ? & Hi & ?).
      split_and!; try done. rewrite (sh_index _ _ _ _ Hs); [done|]. intros ->. apply Hne. unfold okey. congruence.
  - intros id p t Hi. destruct (decide (id = o_id o)) as [->|Hne].
    + destruct (sh_self _ _ _ _ Hs) as [[Es Ei]|(_ & Ei & _)]; [|congruence].
      rewrite Ei in Hi. injection Hi as <- <-. fold (okey o). by rewrite Es.
    + rewrite (sh_index _ _ _ _ Hs) in Hi by done. apply (ok_index b Hok) in Hi.
      rewrite (sh_other _ _ _ _ Hs); [done|]. unfold okey. congruence.
  - intros p t id. rewrite (sh_bucket _ _ _ _ Hs). destruct (decide ((p, t, id) = okey o)) as [E|Hne].
    + injection E as -> -> ->. fold (okey o). destruct (decide _) as [[_ Hc]|Hnc].
      * rewrite list_elem_of_filter. split; [tauto|]. intros (x & Hx & Hax).
        destruct (sh_self _ _ _ _ Hs) as [[Es _]|(Es & _)]; congruence.
      * rewrite (ok_bucket b Hok). fold (okey o). destruct (active o') eqn:Ea'; [|exfalso; by apply Hnc].
        destruct (sh_self _ _ _ _ Hs) as [[Es _]|(_ & _ & ?)]; [|congruence].
        split; intros _; [by exists o'|by exists o].
    + rewrite (sh_other _ _ _ _ Hs) by done. rewrite <- (ok_bucket b Hok).
      destruct (decide _) as [[[= <- <-] _]|]; [|done]. rewrite list_elem_of_filter.
      split; [tauto|]. intros ?. split; [|done]. intros ->. by apply Hne.
  - intros p t. rewrite (sh_bucket _ _ _ _ Hs). destruct (decide _); [apply sorted_filter|]; apply (ok_fifo b Hok).
  - rewrite Eb. apply (ok_balances b Hok).
  - intros k x Hx. destruct (decide (k = okey o)) as [->|Hne].
    + destruct (sh_self _ _ _ _ Hs) as [[Es _]|(Es & _)]; [|congruence]. assert (x = o') as -> by congruence.
      rewrite (sh_order _ _ _ _ Hs). exact (ok_quote b Hok _ _ Ho).
    + rewrite (sh_other _ _ _ _ Hs) in Hx by done. exact (ok_quote b Hok _ _ Hx).
Qed.

(** The invariant without touching the tick volumes, and after removing the volume. *)
Lemma shrunk_book_ok (b b' : book) (o o' : LimitOrder) :
  book_ok b -> orders b !! okey o = Some o -> active o = true -> shrunk b b' o o' -> book_ok b'.
Proof.
  intros Hok Ho Ha Hs. destruct (sh_frame _ _ _ _ Hs) as (_ & _ & Et & Ev).
  constructor; [by eapply shrunk_orders_ok; [apply Hok|..]| |].
  - destruct (ok_ticks b Hok) as [Hv Hl]. split; [by rewrite Ev|]. intros p d.
    unfold get_ticks, get_tick_volume. rewrite Et, Ev. apply Hl.
  - intros p t d. rewrite (shrunk_resting b b' o o') by done. unfold get_tick_volume. rewrite Ev.
    pose proof (ok_cover b Hok p t d). unfold get_tick_volume in *. pose proof (sh_rem _ _ _ _ Hs).
    unfold tick_part. destruct (decide _); lia.
Qed.

Lemma same_orders_ok (b b' : book) : same_orders b b' -> orders_ok b -> orders_ok b'.
Proof.
  intros (E1 & E2 & E3 & E4 & E5) Hok. destruct Hok as [H1 H2 H3 H4 H5 H6].
  constructor; unfold nid, get_orders_at_tick; rewrite ?E1, ?E2, ?E3, ?E4, ?E5; done.
Qed.

Lemma shrunk_removed_ok (b b' : book) (o o' : LimitOrder) :
  book_ok b -> orders b !! okey o = Some o -> active o = true -> shrunk b b' o o' ->
  let b2 := remove_tick_liquidity b' (o_pair o) (price_tick o)
              (remaining_amount o - remaining_amount o') (is_bid_order o) in
  book_ok b2 /\ same_orders b' b2 /\
  forall p t d, get_tick_volume b2 p t d = get_tick_volume b p t d
    - tick_part (o_pair o) (price_tick o) (is_bid_order o) p t d (remaining_amount o - remaining_amount o').
Proof.
  intros Hok Ho Ha Hs. pose proof (shrunk_book_ok b b' o o' Hok Ho Ha Hs) as Hok'.
  destruct (sh_frame _ _ _ _ Hs) as (_ & _ & _ & Ev).
  assert (forall p t d, get_tick_volume b' p t d = get_tick_volume b p t d) as Evol.
  { intros. unfold get_tick_volume. by rewrite Ev. }
  pose proof (sh_rem _ _ _ _ Hs) as Hrem.
  assert (0 <= remaining_amount o - remaining_amount o' <=
            get_tick_volume b' (o_pair o) (price_tick o) (is_bid_order o)) as Hx.
  { rewrite Evol. pose proof (ok_cover b Hok (o_pair o) (price_tick o) (is_bid_order o)) as Hc.
    pose proof (msum_term_le (rests_at (o_pair o) (price_tick o) (is_bid_order o)) (orders b) (okey o)) as Ht.
    unfold term in Ht. rewrite Ho in Ht. unfold rests_at at 2 in Ht. cbn [okey fst snd] in Ht.
    rewrite decide_True in Ht by done. unfold resting in Hc.
    enough (remaining_amount o <= msum (rests_at (o_pair o) (price_tick o) (is_bid_order o)) (orders b)) by lia.
    apply Ht. intros k x Hk. by eapply rests_at_nonneg; [apply Hok|]. }
  destruct (remove_tick_ok b' _ _ _ _ (ok_ticks b' Hok') Hx) as (Ht & Hsame & Hvol).
  split; [|split; [done|intros; by rewrite Hvol, Evol]]. constructor; [|done|].
  - eapply same_orders_ok; [exact Hsame|apply Hok'].
  - intros p t d. rewrite Hvol, Evol. unfold resting. destruct Hsame as (_ & _ & -> & _).
    fold (resting b' p t d). rewrite (shrunk_resting b b' o o') by done. pose proof (ok_cover b Hok p t d). lia.
Qed.
End inv.
