(* ===== verification/BookOps.v ===== *)
(** * Limit order book: the operations

    [src/src/orders/limit.rs]: placing, filling, matching, cancelling and purging
    orders, internal balances, and the market matcher, over the book and the ledger
    of the token contracts ([Token.v]). An operation returns the new state with
    its value; on [Err] or a trap the host discards every write. The entry points of
    [src/src/lib.rs] wrap these functions in a reentrancy lock, which no call
    observes: the host does not let a contract be re-entered. *)

From stdpp Require Import base numbers list gmap.
From Stdlib Require Import ZArith Lia.
From S2P Require Import Prelude Host Token RootErrors BookData BookTicks.

Open Scope Z_scope.

Section ops.
Context {H : Host} {T : Tokens H}.

Record venue := { bk : book; ledger : Ledger }.

(** The invocation: who authorised it, the address of the contract, the ledger
    sequence number, and the treasury configured in the instance storage. *)
Record invocation := {
  auth : Address -> bool;
  current_contract : Address;
  sequence : Z;
  treasury : option Address
}.

(** [token::Client::new(env, tok).transfer(from, to, amt)] *)
Definition pay (l : Ledger) (tok from to : Address) (amt : Z) : R Ledger :=
  unwrap (transfer l tok from to amt).

Definition with_bk (v : venue) (b : book) : venue := {| bk := b; ledger := ledger v |}.

(** ** Placing orders *)
Definition new_order (id : Z) (mk : Address) (p : AssetPair) (sd : OrderSide) (tick amount seq expry : Z) :
    LimitOrder :=
  {| o_id := id; maker := mk; o_pair := p; o_sell_asset := pr_sell p; o_buy_asset := pr_buy p;
     side := sd; price_tick := tick; o_amount := amount; original_amount := amount;
     remaining_amount := amount; filled_amount := 0; created_at_ledger := seq; expiry := expry;
     active := true |}.

Definition place_order_with_expiry (i : invocation) (v : venue) (mk : Address) (p : AssetPair)
    (tick sell_amount expry : Z) : R (venue * LimitOrder) :=
  _ ← fail_if (sell_amount <=? 0) OrderZeroAmount;
  _ ← fail_if (tick <=? 0) OrderInvalidPrice;
  _ ← require_auth (auth i) mk;
  l ← pay (ledger v) (pr_sell p) mk (current_contract i) sell_amount;
  '(b, id) ← next_order_id (bk v);
  let order := new_order id mk p Sell tick sell_amount (sequence i) expry in
  b' ← bucket_push (save_order b order) p tick id;
  b'' ← add_tick_liquidity b' p tick sell_amount false;
  mret ({| bk := b''; ledger := l |}, order).

Definition place_order (i : invocation) (v : venue) (mk : Address) (p : AssetPair)
    (tick sell_amount : Z) : R (venue * LimitOrder) :=
  place_order_with_expiry i v mk p tick sell_amount 0.

Definition place_buy_order (i : invocation) (v : venue) (mk : Address) (p : AssetPair)
    (tick buy_amount : Z) : R (venue * LimitOrder) :=
  _ ← fail_if (buy_amount <=? 0) OrderZeroAmount;
  _ ← fail_if (tick <=? 0) OrderInvalidPrice;
  _ ← require_auth (auth i) mk;
  locked_quote ← quote_amount buy_amount tick;
  l ← pay (ledger v) (pr_buy p) mk (current_contract i) locked_quote;
  '(b, id) ← next_order_id (bk v);
  let order := new_order id mk p Buy tick buy_amount (sequence i) 0 in
  b' ← bucket_push (save_order b order) p tick id;
  b'' ← add_tick_liquidity b' p tick buy_amount true;
  mret ({| bk := b''; ledger := l |}, order).

(** ** Filling an order *)
Definition expired (i : invocation) (o : LimitOrder) : bool :=
  negb (expiry o =? 0) && (expiry o <? sequence i).

(** The asset an order locks. *)
Definition locked_asset (o : LimitOrder) : Address :=
  if bool_decide (side o = Buy) then pr_buy (o_pair o) else pr_sell (o_pair o).

Definition refund_dust (i : invocation) (l : Ledger) (o : LimitOrder) (out : FillUpdateOutcome) : R Ledger :=
  if 0 <? dust_refund out
  then pay l (locked_asset o) (current_contract i) (maker o) (dust_refund out) else mret l.

Definition fill_order (i : invocation) (v : venue) (filler : Address) (order_id fill_amount : Z) :
    R (venue * FillResult) :=
  _ ← fail_if (fill_amount <=? 0) OrderZeroAmount;
  _ ← require_auth (auth i) filler;
  order ← load_order (bk v) order_id;
  _ ← fail_if (negb (active order)) OrderAlreadyClosed;
  _ ← fail_if (expired i order) OrderAlreadyClosed;
  _ ← fail_if (remaining_amount order <? fill_amount) OrderInsufficientRemaining;
  p ← ok_or (checked_mul I128 fill_amount (price_tick order)) MathOverflow;
  paid_amount ← ok_or (checked_div I128 p PRICE_SCALE) DivisionByZero;
  _ ← assert_fill_ratio_invariant (price_tick order) fill_amount paid_amount;
  l1 ← pay (ledger v) (pr_buy (o_pair order)) filler (maker order) paid_amount;
  l2 ← pay l1 (pr_sell (o_pair order)) (current_contract i) filler fill_amount;
  '(b, o, outcome) ← apply_partial_fill (bk v) order fill_amount;
  l3 ← refund_dust i l2 o outcome;
  tick_delta ← iadd I128 fill_amount (dust_remaining_base outcome);
  let b' := remove_tick_liquidity b (o_pair o) (price_tick o) tick_delta (bool_decide (side order = Buy)) in
  mret ({| bk := b'; ledger := l3 |},
        {| fr_order_id := o_id o; fr_filled := fill_amount; fr_paid := paid_amount;
           fr_remaining := remaining_amount o; fr_closed := closed outcome |}).

Definition execute_partial_fill (i : invocation) (v : venue) (filler : Address) (order_id fill_amount : Z) :
    R (venue * FillResult) := fill_order i v filler order_id fill_amount.

(** ** Settling a sell order against a buy order *)
Definition credit_dust (b : book) (o : LimitOrder) (asset : Address) (out : FillUpdateOutcome) : R book :=
  if 0 <? dust_refund out then credit_balance b (maker o) asset (dust_refund out) else mret b.

Definition match_orders (i : invocation) (v : venue) (seller_id buyer_id fill_amount : Z) :
    R (venue * SettlementResult) :=
  _ ← fail_if (fill_amount <=? 0) OrderZeroAmount;
  seller ← load_order (bk v) seller_id;
  buyer ← load_order (bk v) buyer_id;
  _ ← fail_if (negb (active seller) || negb (active buyer)) OrderAlreadyClosed;
  _ ← fail_if (bool_decide (side seller <> Sell) || bool_decide (side buyer <> Buy)) OrderSideMismatch;
  _ ← fail_if (bool_decide (o_pair seller <> o_pair buyer)) OrderPairMismatch;
  _ ← fail_if (price_tick buyer <? price_tick seller) OrderPriceNotCrossed;
  _ ← fail_if ((remaining_amount seller <? fill_amount) || (remaining_amount buyer <? fill_amount))
        OrderInsufficientRemaining;
  quote_paid ← quote_amount fill_amount (price_tick seller);
  buyer_locked_quote ← quote_amount fill_amount (price_tick buyer);
  price_improvement ← ok_or (checked_sub I128 buyer_locked_quote quote_paid) MathOverflow;
  _ ← assert_fill_ratio_invariant (price_tick seller) fill_amount quote_paid;
  quote_fee ← protocol_fee quote_paid;
  base_fee ← protocol_fee fill_amount;
  seller_net ← ok_or (checked_sub I128 quote_paid quote_fee) MathOverflow;
  buyer_net ← ok_or (checked_sub I128 fill_amount base_fee) MathOverflow;
  '(b1, so, seller_out) ← apply_partial_fill (bk v) seller fill_amount;
  '(b2, bo, buyer_out) ← apply_partial_fill b1 buyer fill_amount;
  b3 ← credit_balance b2 (maker so) (pr_buy (o_pair so)) seller_net;
  b4 ← credit_balance b3 (maker bo) (pr_sell (o_pair bo)) buyer_net;
  b5 ← credit_balance b4 (maker bo) (pr_buy (o_pair bo)) price_improvement;
  b6 ← credit_dust b5 so (pr_sell (o_pair so)) seller_out;
  b7 ← credit_dust b6 bo (pr_buy (o_pair bo)) buyer_out;
  b8 ← (match treasury i with
        | Some t =>
            b8 ← credit_balance b7 t (pr_buy (o_pair so)) quote_fee;
            credit_balance b8 t (pr_sell (o_pair so)) base_fee
        | None => mret b7
        end);
  mret (with_bk v b8,
        {| seller_order_id := o_id so; buyer_order_id := o_id bo; sr_filled := fill_amount;
           sr_quote := quote_paid; seller_net_amount := seller_net; buyer_net_amount := buyer_net;
           quote_fee_amount := quote_fee; base_fee_amount := base_fee;
           seller_order_closed := closed seller_out; buyer_order_closed := closed buyer_out |}).

(** ** Cancelling *)
Definition cancel_order_inner (i : invocation) (v : venue) (mk : Address) (order_id : Z) : R (venue * Z) :=
  order ← load_order (bk v) order_id;
  _ ← fail_if (bool_decide (maker order <> mk)) OrderNotMaker;
  _ ← fail_if (negb (active order)) OrderAlreadyClosed;
  let remaining_base := remaining_amount order in
  recovered ← (if bool_decide (side order = Buy) then quote_amount remaining_base (price_tick order)
               else mret remaining_base);
  let o := with_amounts order 0 (filled_amount order) false in
  let b1 := save_order (bucket_remove (bk v) (o_pair o) (price_tick o) (o_id o)) o in
  let b2 := remove_tick_liquidity b1 (o_pair o) (price_tick o) remaining_base (bool_decide (side o = Buy)) in
  l ← (if 0 <? recovered then pay (ledger v) (locked_asset o) (current_contract i) mk recovered
       else mret (ledger v));
  mret ({| bk := b2; ledger := l |}, recovered).

Definition cancel_order (i : invocation) (v : venue) (mk : Address) (order_id : Z) : R (venue * Z) :=
  _ ← require_auth (auth i) mk;
  cancel_order_inner i v mk order_id.

(** [for order_id in order_ids.iter()] *)
Fixpoint cancel_loop (i : invocation) (v : venue) (mk : Address) (ids : list Z) (r : BatchCancelResult) :
    R (venue * BatchCancelResult) :=
  match ids with
  | [] => mret (v, r)
  | id :: ids =>
      '(v', recovered) ← cancel_order_inner i v mk id;
      total ← ok_or (checked_add I128 (recovered_total r) recovered) MathOverflow;
      count ← ok_or (checked_add U32 (cancelled_count r) 1) Overflow;
      cancel_loop i v' mk ids {| cancelled_count := count; recovered_total := total |}
  end.

Definition cancel_orders_batch (i : invocation) (v : venue) (mk : Address) (ids : list Z) :
    R (venue * BatchCancelResult) :=
  _ ← require_auth (auth i) mk;
  cancel_loop i v mk ids {| cancelled_count := 0; recovered_total := 0 |}.

Definition withdraw_balance (i : invocation) (v : venue) (own asset : Address) (amount : Z) : R (venue * Z) :=
  _ ← fail_if (amount <=? 0) OrderZeroAmount;
  _ ← require_auth (auth i) own;
  b ← debit_balance (bk v) own asset amount;
  l ← pay (ledger v) asset (current_contract i) own amount;
  mret ({| bk := b; ledger := l |}, amount).

Definition get_order (b : book) (id : Z) : option LimitOrder :=
  match load_order b id with Ok o => Some o | _ => None end.

(** One identifier of [purge_closed_orders]. The second lookup reads the entry of
    [OrderIndex(id)] as an order: where one is left it is a pair, and the
    conversion traps. *)
Definition purge_one (b : book) (id : Z) : R (book * bool) :=
  let '(b', was_purged) :=
    match order_index b !! id with
    | Some index =>
        match orders b !! (index.1, index.2, id) with
        | Some o =>
            if negb (active o) || (remaining_amount o =? 0) then
              let b1 := bucket_remove b index.1 index.2 id in
              (set_orders b1 (delete id (order_index b1)) (delete (index.1, index.2, id) (orders b1)), true)
            else (b, false)
        | None => (set_orders b (delete id (order_index b)) (orders b), true)
        end
    | None => (b, false)
    end in
  if bool_decide (is_Some (order_index b' !! id)) then Panic else mret (b', was_purged).

Fixpoint purge_loop (b : book) (ids : list Z) (purged : Z) : R (book * Z) :=
  match ids with
  | [] => mret (b, purged)
  | id :: ids =>
      '(b', was_purged) ← purge_one b id;
      n ← (if (was_purged : bool) then iadd U32 purged 1 else mret purged);
      purge_loop b' ids n
  end.

Definition purge_closed_orders (b : book) (ids : list Z) : R (book * Z) := purge_loop b ids 0.

(** ** The market matcher *)
Record TickMatchFill := {
  tf_order_id : Z;
  tf_maker : Address;
  tf_tick : Z;
  tf_filled : Z;
  tf_paid : Z;
  tick_volume_after : Z
}.

Record TickMatchResult := {
  tm_filled : Z;
  tm_total_paid : Z;
  tm_fills : list TickMatchFill;
  fully_filled : bool
}.

(** The variables of the two loops. *)
Record sweep := { sw_venue : venue; sw_remaining : Z; sw_paid : Z; sw_fills : list TickMatchFill }.

(** The transfers of one fill. *)
Definition settle_fill (i : invocation) (l : Ledger) (taker : Address) (o : LimitOrder)
    (fill_qty paid : Z) (is_buy : bool) : R Ledger :=
  if is_buy then
    l1 ← pay l (pr_buy (o_pair o)) taker (maker o) paid;
    pay l1 (pr_sell (o_pair o)) (current_contract i) taker fill_qty
  else
    l1 ← pay l (pr_sell (o_pair o)) taker (maker o) fill_qty;
    pay l1 (pr_buy (o_pair o)) (current_contract i) taker paid.

(** Whether the loop passes over an order ([continue]). *)
Definition skipped (i : invocation) (o : LimitOrder) (book_is_bid : bool) : bool :=
  negb (active o) || (remaining_amount o <=? 0) || expired i o
  || (if book_is_bid then bool_decide (side o <> Buy) else bool_decide (side o <> Sell)).

(** The body of the inner loop for one order. *)
Definition market_order (i : invocation) (taker : Address) (p : AssetPair) (tick : Z) (is_buy : bool)
    (s : sweep) (order_id : Z) : R sweep :=
  let b := bk (sw_venue s) in
  match load_order b order_id with
  | Ok order =>
      if skipped i order (negb is_buy) then mret s else
      let fill_qty := if sw_remaining s <? remaining_amount order then sw_remaining s
                      else remaining_amount order in
      paid ← quote_amount fill_qty (price_tick order);
      _ ← assert_fill_ratio_invariant (price_tick order) fill_qty paid;
      l1 ← settle_fill i (ledger (sw_venue s)) taker order fill_qty paid is_buy;
      '(b1, o, outcome) ← apply_partial_fill b order fill_qty;
      l2 ← refund_dust i l1 o outcome;
      tick_delta ← iadd I128 fill_qty (dust_remaining_base outcome);
      let b2 := remove_tick_liquidity b1 p tick tick_delta (negb is_buy) in
      fills ← vpush (sw_fills s)
        {| tf_order_id := o_id o; tf_maker := maker o; tf_tick := tick; tf_filled := fill_qty;
           tf_paid := paid; tick_volume_after := get_tick_volume b2 p tick (negb is_buy) |};
      remaining ← ok_or (checked_sub I128 (sw_remaining s) fill_qty) MathOverflow;
      total_paid ← ok_or (checked_add I128 (sw_paid s) paid) MathOverflow;
      mret {| sw_venue := {| bk := b2; ledger := l2 |}; sw_remaining := remaining;
              sw_paid := total_paid; sw_fills := fills |}
  | _ => mret s
  end.

Fixpoint market_bucket (i : invocation) (taker : Address) (p : AssetPair) (tick : Z) (is_buy : bool)
    (s : sweep) (ids : list Z) : R sweep :=
  match ids with
  | [] => mret s
  | id :: ids =>
      if sw_remaining s =? 0 then mret s else
      s' ← market_order i taker p tick is_buy s id;
      market_bucket i taker p tick is_buy s' ids
  end.

Fixpoint market_ticks (i : invocation) (taker : Address) (p : AssetPair) (is_buy : bool)
    (s : sweep) (ticks : list Z) : R sweep :=
  match ticks with
  | [] => mret s
  | tick :: ticks =>
      if sw_remaining s =? 0 then mret s else
      s' ← market_bucket i taker p tick is_buy s (get_orders_at_tick (bk (sw_venue s)) p tick);
      market_ticks i taker p is_buy s' ticks
  end.

Definition match_market_order (i : invocation) (v : venue) (taker : Address) (p : AssetPair)
    (amount : Z) (is_buy : bool) : R (venue * TickMatchResult) :=
  _ ← fail_if (amount <=? 0) OrderZeroAmount;
  _ ← require_auth (auth i) taker;
  s ← market_ticks i taker p is_buy
        {| sw_venue := v; sw_remaining := amount; sw_paid := 0; sw_fills := [] |}
        (get_ticks (bk v) p (negb is_buy));
  _ ← fail_if (bool_decide (sw_fills s = [])) InsufficientLiquidityDepth;
  filled ← ok_or (checked_sub I128 amount (sw_remaining s)) MathOverflow;
  mret (sw_venue s, {| tm_filled := filled; tm_total_paid := sw_paid s; tm_fills := sw_fills s;
                       fully_filled := sw_remaining s =? 0 |}).
End ops.
