(* ===== verification/BookSteps.v ===== *)
(** * Limit order book: what each operation does

    Fills and cancellations shrink one order; [margin] is what the contract holds of
    an asset beyond what it owes, and no operation but the filling of a buy order by
    [fill_order] lowers it. *)

From stdpp Require Import base numbers list gmap sorting.
From Stdlib Require Import ZArith Lia.
From S2P Require Import Prelude Host Token RootErrors BookData BookTicks BookSort BookInv BookOps.

Open Scope Z_scope.

Lemma checked_div_Some (a b q : Z) : checked_div I128 a b = Some q -> b <> 0 /\ q = Z.quot a b.
Proof.
  unfold checked_div. destruct (Z.eqb_spec b 0); [done|]. intros [-> _]%chk_Some. done.
Qed.

Lemma quote_amount_Ok (a p q : Z) :
  0 <= a -> 0 < p -> quote_amount a p = Ok q -> q = a * p / PRICE_SCALE /\ 0 <= q.
Proof.
  intros Ha Hp Hq. unfold quote_amount in Hq. apply bind_Ok in Hq as (m & [-> _]%ok_or_Ok%chk_Some & Hq).
  apply ok_or_Ok, checked_div_Some in Hq as [_ ->].
  rewrite Z.quot_div_nonneg by (unfold PRICE_SCALE; nia). split; [done|].
  apply Z.div_pos; unfold PRICE_SCALE; nia.
Qed.

Lemma quote_amount_fits (a p q : Z) : quote_amount a p = Ok q -> a * p <= imax I128.
Proof.
  unfold quote_amount. intros Hq. apply bind_Ok in Hq as (m & [_ Hm]%ok_or_Ok%chk_Some & _). lia.
Qed.

Lemma quote_amount_total (a p : Z) : 0 <= a -> 0 < p -> a * p <= imax I128 ->
  quote_amount a p = Ok (a * p / PRICE_SCALE).
Proof.
  intros Ha Hp Hm. unfold quote_amount, checked_mul, chk. rewrite (proj2 (fits_spec I128 (a * p))) by (cbn in *; nia).
  unfold ok_or at 2. rewrite bind_ret. unfold checked_div. rewrite Z.quot_div_nonneg by (unfold PRICE_SCALE; nia).
  cbn [Z.eqb PRICE_SCALE]. unfold chk. rewrite (proj2 (fits_spec I128 _)); [done|].
  pose proof (Z.div_pos (a * p) PRICE_SCALE ltac:(nia) ltac:(done)).
  assert (a * p / PRICE_SCALE <= a * p) by (apply Z.div_le_upper_bound; unfold PRICE_SCALE; nia). cbn in *. lia.
Qed.

Lemma protocol_fee_Ok (a f : Z) :
  0 <= a -> protocol_fee a = Ok f -> f = a * PROTOCOL_FEE_BPS / BPS_SCALE /\ 0 <= f <= a.
Proof.
  intros Ha Hf. unfold protocol_fee in Hf. apply bind_Ok in Hf as (m & [-> _]%ok_or_Ok%chk_Some & Hf).
  apply ok_or_Ok, checked_div_Some in Hf as [_ ->]. unfold PROTOCOL_FEE_BPS, BPS_SCALE in *.
  rewrite Z.quot_div_nonneg by lia. split; [done|]. split; [apply Z.div_pos; lia|].
  apply Z.div_le_upper_bound; lia.
Qed.

(** Rounding down quotes of parts never exceeds the quote of the whole. *)
Lemma floor_parts (a b p : Z) :
  0 <= a -> 0 <= b -> 0 < p -> a * p / PRICE_SCALE + b * p / PRICE_SCALE <= (a + b) * p / PRICE_SCALE.
Proof.
  intros Ha Hb Hp. apply Z.div_le_lower_bound; [done|].
  pose proof (Z.mul_div_le (a * p) PRICE_SCALE ltac:(done)). pose proof (Z.mul_div_le (b * p) PRICE_SCALE ltac:(done)).
  lia.
Qed.

Section steps.
Context {H : Host} {T : Tokens H} {TL : TokenLaws H T}.
Variable self : Address.

(** ** Applying a fill *)
Lemma apply_fill_shrunk (b b' : book) (o o' : LimitOrder) (fill : Z) (out : FillUpdateOutcome) :
  order_wf self o -> active o = true -> 0 < fill <= remaining_amount o ->
  apply_partial_fill b o fill = Ok (b', o', out) ->
  shrunk b b' o o' /\ filled_amount o' = filled_amount o + fill /\
  remaining_amount o - remaining_amount o' = fill + dust_remaining_base out /\
  0 <= dust_remaining_base out /\ closed out = negb (active o') /\
  (active o' = true -> dust_remaining_base out = 0) /\
  dust_refund out = if is_bid_order o then dust_remaining_base out * price_tick o / PRICE_SCALE
                    else dust_remaining_base out.
Proof.
  intros (Hp & Hf & _ & Hwf) Ha Hfill Hap. rewrite Ha in Hwf. unfold apply_partial_fill in Hap.
  apply bind_Ok in Hap as (nr & [-> _]%ok_or_Ok%chk_Some & Hap).
  apply bind_Ok in Hap as (nf & [-> _]%ok_or_Ok%chk_Some & Hap). cbv zeta in Hap.
  apply bind_Ok in Hap as (? & _ & Hap). rewrite Ha in Hap.
  destruct (closed_shrunk b o (filled_amount o + fill)) as [Hkeep Hpurge]; [lia..|].
  destruct (Z.eqb_spec (remaining_amount o - fill) 0) as [E0|Hne].
  - injection Hap as <- <- <-. split; [exact Hkeep|]. cbn. rewrite Z.mul_0_l, Z.div_0_l by done.
    split_and!; try done; try lia. by destruct (is_bid_order o).
  - apply bind_Ok in Hap as (dust & _ & Hap). destruct dust.
    + apply bind_Ok in Hap as (refund & Href & Hap). injection Hap as <- <- <-. split; [exact Hpurge|].
      cbn [with_amounts remaining_amount filled_amount active dust_remaining_base closed dust_refund price_tick side] in *.
      split_and!; try done; try lia. unfold is_bid_order. destruct (bool_decide (side o = Buy)).
      * apply quote_amount_Ok in Href as [-> _]; [done|lia|done].
      * injection Href as <-. done.
    + injection Hap as <- <- <-. split; [apply open_shrunk; lia|]. cbn. rewrite Z.mul_0_l, Z.div_0_l by done.
      split_and!; try done; try lia. by destruct (is_bid_order o).
Qed.

(** ** What the contract owes *)

(** The part of [x] that is in [asset]. *)
Definition in_asset (a asset : Address) (x : Z) : Z := if decide (a = asset) then x else 0.

Definition locked (asset : Address) (o : LimitOrder) : Z :=
  if is_bid_order o then in_asset (pr_buy (o_pair o)) asset (remaining_amount o * price_tick o / PRICE_SCALE)
  else in_asset (pr_sell (o_pair o)) asset (remaining_amount o).

Definition owed (b : book) (asset : Address) : Z := msum (fun k x => in_asset k.2 asset x) (balances b).

Definition liabilities (b : book) (asset : Address) : Z :=
  msum (fun _ => locked asset) (orders b) + owed b asset.

Definition margin (v : venue) (asset : Address) : Z :=
  balance (ledger v) asset self - liabilities (bk v) asset.

Lemma locked_empty (asset : Address) (o : LimitOrder) : remaining_amount o = 0 -> locked asset o = 0.
Proof.
  intros E. unfold locked, in_asset. rewrite E, Z.mul_0_l, Z.div_0_l by done.
  destruct (is_bid_order o); by destruct (decide _).
Qed.

Lemma locked_with (asset : Address) (o : LimitOrder) (r f : Z) (a : bool) :
  locked asset (with_amounts o r f a)
    = if is_bid_order o then in_asset (pr_buy (o_pair o)) asset (r * price_tick o / PRICE_SCALE)
      else in_asset (pr_sell (o_pair o)) asset r.
Proof. done. Qed.

Lemma shrunk_liabilities (b b' : book) (o o' : LimitOrder) (asset : Address) :
  orders b !! okey o = Some o -> shrunk b b' o o' ->
  liabilities b' asset = liabilities b asset - locked asset o + locked asset o'.
Proof.
  intros Ho Hs. unfold liabilities. destruct (sh_frame _ _ _ _ Hs) as (_ & Eb & _).
  rewrite (shrunk_sum b b' o o' (fun _ => locked asset)); [|done|done|intros k x; apply locked_empty].
  unfold owed. rewrite Eb. lia.
Qed.

Lemma same_liabilities (b b' : book) (asset : Address) :
  same_orders b b' -> liabilities b' asset = liabilities b asset.
Proof. intros (_ & _ & Eo & _ & Eb). unfold liabilities, owed. by rewrite Eo, Eb. Qed.

Lemma pay_Ok (l l' : Ledger) (tok from to : Address) (amt : Z) :
  pay l tok from to amt = Ok l' ->
  0 <= amt /\ forall asset, balance l' asset self = balance l asset self
    - (if decide (from = self) then in_asset tok asset amt else 0)
    + (if decide (to = self) then in_asset tok asset amt else 0).
Proof.
  intros [Ha Hb]%unwrap_Ok%transfer_spec. split; [lia|]. intros asset. rewrite Hb.
  unfold at_account, in_asset. repeat case_decide; try lia; exfalso; naive_solver.
Qed.

(** ** Balances of the users *)
Lemma set_balances_ok (b : book) (m : gmap (Address * Address) Z) :
  book_ok self b -> (forall k x, m !! k = Some x -> 0 <= x) -> book_ok self (set_balances b m).
Proof.
  intros [[H1 H2 H3 H4 H5 H6] Ht Hc] Hm. constructor; [constructor|..]; done.
Qed.

Lemma credit_Ok (b b' : book) (own asset : Address) (amt : Z) :
  book_ok self b -> 0 <= amt -> credit_balance b own asset amt = Ok b' ->
  book_ok self b' /\ orders b' = orders b /\
  (forall x a, get_balance b' a x = get_balance b a x + at_account asset own x a amt) /\
  forall a, owed b' a = owed b a + in_asset asset a amt.
Proof.
  intros Hok Ha Hc. unfold credit_balance in Hc. destruct (Z.eqb_spec amt 0) as [->|Hne].
  { injection Hc as <-. unfold in_asset, at_account. split_and!; try done; intros; destruct (decide _); lia. }
  apply bind_Ok in Hc as (u & [-> _]%ok_or_Ok%chk_Some & Hc). injection Hc as <-.
  pose proof (ok_balances self b (ok_orders self b Hok)) as Hb.
  assert (0 <= get_balance b own asset) as Hg.
  { unfold get_balance. destruct (balances b !! (own, asset)) eqn:E; cbn; [|lia]. by eapply Hb. }
  split_and!; [|done| |].
  - apply set_balances_ok; [done|]. intros k x [[_ <-]|[_ Hk]]%lookup_insert_Some; [lia|by eapply Hb].
  - intros x a. unfold at_account. unfold get_balance at 1. cbn [set_balances balances]. destruct (decide _) as [[-> ->]|Hne2].
    + by rewrite lookup_insert_eq.
    + rewrite lookup_insert_ne by (intros [= -> ->]; by apply Hne2). rewrite Z.add_0_r. done.
  - intros a. unfold owed. cbn [set_balances balances]. rewrite msum_insert. unfold term, get_balance, in_asset.
    cbn [snd]. destruct (balances b !! (own, asset)) eqn:E; cbn; destruct (decide _); lia.
Qed.

Lemma debit_Ok (b b' : book) (own asset : Address) (amt : Z) :
  book_ok self b -> 0 < amt -> debit_balance b own asset amt = Ok b' ->
  amt <= get_balance b own asset /\ book_ok self b' /\ orders b' = orders b /\
  forall a, owed b' a = owed b a - in_asset asset a amt.
Proof.
  intros Hok Ha Hd. unfold debit_balance in Hd.
  apply bind_Ok in Hd as (? & Hle%fail_if_Ok%Z.ltb_ge & Hd).
  apply bind_Ok in Hd as (u & [-> _]%ok_or_Ok%chk_Some & Hd). injection Hd as <-.
  pose proof (ok_balances self b (ok_orders self b Hok)) as Hb.
  split; [done|]. unfold get_balance in *. destruct (balances b !! (own, asset)) as [held|] eqn:E; cbn in *; [|lia].
  split_and!; [|done|].
  - apply set_balances_ok; [done|]. intros k y. destruct (Z.eqb_spec (held - amt) 0).
    + intros [_ Hk]%lookup_delete_Some. by eapply Hb.
    + intros [[_ <-]|[_ Hk]]%lookup_insert_Some; [lia|by eapply Hb].
  - intros a. unfold owed. cbn [set_balances balances]. destruct (Z.eqb_spec (held - amt) 0).
    + rewrite msum_delete. unfold term, in_asset. rewrite E. cbn [snd]. destruct (decide _); lia.
    + rewrite msum_insert. unfold term, in_asset. rewrite E. cbn [snd]. destruct (decide _); lia.
Qed.
End steps.
