(* ===== verification/BookMargin.v ===== *)
(** * Limit order book: every operation keeps the books

    One lemma per operation: the invariant is kept and the margin of the contract
    does not fall. The exception, [fill_order] on a buy order, is in
    [BookTheorems]. *)

From stdpp Require Import base numbers list gmap sorting.
From Stdlib Require Import ZArith Lia.
From S2P Require Import Prelude Host Token RootErrors BookData BookTicks BookSort BookInv BookOps BookSteps.

Open Scope Z_scope.

Section margin.
Context {H : Host} {T : Tokens H} {TL : TokenLaws H T}.
Variable self : Address.

(** The contract runs at [self] and never authorises a call as a user. *)
Definition honest (i : invocation) : Prop := current_contract i = self /\ auth i self = false.

Definition step_ok (v v' : venue) : Prop :=
  book_ok self (bk v') /\ forall asset, margin self v asset <= margin self v' asset.

Lemma step_ok_refl (v : venue) : book_ok self (bk v) -> step_ok v v.
Proof. intros Hok. split; [done|]. intros. lia. Qed.

Lemma step_ok_trans (v1 v2 v3 : venue) : step_ok v1 v2 -> step_ok v2 v3 -> step_ok v1 v3.
Proof. intros [_ H12] [Hok H23]. split; [done|]. intros a. specialize (H12 a). specialize (H23 a). lia. Qed.

Lemma auth_not_self (i : invocation) (a : Address) : honest i -> auth i a = true -> a <> self.
Proof. intros [_ Hs] Ha ->. congruence. Qed.

(** ** A new order *)
Lemma new_order_ok (b b1 b2 : book) (o : LimitOrder) :
  book_ok self b -> order_wf self o -> active o = true -> o_id o = nid b ->
  (side o = Buy -> original_amount o * price_tick o <= imax I128) ->
  bucket_push (save_order (set_next_id b (nid b + 1)) o) (o_pair o) (price_tick o) (o_id o) = Ok b1 ->
  add_tick_liquidity b1 (o_pair o) (price_tick o) (remaining_amount o) (is_bid_order o) = Ok b2 ->
  book_ok self b2 /\ orders b2 = <[okey o := o]> (orders b) /\
  forall asset, liabilities b2 asset = liabilities b asset + locked asset o.
Proof.
  intros Hok Hwf Ha Hid Hquote Hpush Hadd. pose proof (ok_orders self b Hok) as Ho.
  assert (orders b !! okey o = None) as Hnew.
  { destruct (orders b !! okey o) eqn:E; [|done]. apply (ok_order self b Ho) in E as (_ & _ & _ & ?). lia. }
  assert (order_index b !! o_id o = None) as Hnewi.
  { destruct (order_index b !! o_id o) as [[p t]|] eqn:E; [|done].
    apply (ok_index self b Ho) in E as [x Hx]. apply (ok_order self b Ho) in Hx as (_ & _ & _ & ?). lia. }
  unfold bucket_push in Hpush. apply bind_Ok in Hpush as (l & [_ ->]%vpush_Ok & Hpush). injection Hpush as <-.
  assert (get_orders_at_tick (save_order (set_next_id b (nid b + 1)) o) (o_pair o) (price_tick o)
          = get_orders_at_tick b (o_pair o) (price_tick o)) as Eg by done. rewrite Eg in Hadd. clear Eg.
  set (b1 := set_buckets _ _) in Hadd.
  assert (forall p t, get_orders_at_tick b1 p t = if decide ((o_pair o, price_tick o) = (p, t))
            then get_orders_at_tick b p t ++ [o_id o] else get_orders_at_tick b p t) as Hbk.
  { intros p t. unfold b1, get_orders_at_tick at 1. cbn [set_buckets buckets]. destruct (decide _) as [[= <- <-]|].
    - by rewrite lookup_insert_eq.
    - by rewrite lookup_insert_ne. }
  assert (ticks_inv b1) as Ht by exact (ok_ticks self b Hok).
  assert (0 < remaining_amount o) as Hpos by (destruct Hwf as (_ & _ & _ & Hw); rewrite Ha in Hw; lia).
  destruct (add_tick_ok b1 b2 _ _ _ _ Ht Hpos Hadd) as (Ht2 & Hsame & Hvol).
  assert (orders b1 = <[okey o := o]> (orders b)) as Eo by done.
  assert (orders_ok self b1) as Ho1.
  { constructor.
    - intros p t id x. rewrite Eo. change (nid b1) with (nid b + 1). intros [[Ek <-]|[Hne Hx]]%lookup_insert_Some.
      + injection Ek as <- <- <-. split; [done|]. split; [done|]. split; [apply lookup_insert_eq|lia].
      + destruct (ok_order self b Ho _ _ _ _ Hx) as (? & ? & ? & ?). split_and!; try done; [|lia].
        unfold b1. cbn [set_buckets order_index save_order set_orders set_next_id]. rewrite lookup_insert_ne; [done|lia].
    - intros id p t. unfold b1. cbn [set_buckets order_index save_order set_orders set_next_id orders].
      intros [[<- [= <- <-]]|[Hne Hi]]%lookup_insert_Some; [rewrite lookup_insert_eq; by eexists|].
      rewrite lookup_insert_ne by congruence. by apply (ok_index self b Ho).
    - intros p t id. rewrite Hbk, Eo. destruct (decide ((p, t, id) = okey o)) as [E|Hne].
      + injection E as -> -> ->. fold (okey o). rewrite lookup_insert_eq, decide_True by done.
        rewrite elem_of_app, list_elem_of_singleton. split; [by exists o|]. intros _. by right.
      + rewrite lookup_insert_ne by done. rewrite <- (ok_bucket self b Ho).
        destruct (decide _) as [[= <- <-]|]; [|done]. rewrite elem_of_app, list_elem_of_singleton.
        split; [intros [?| ->]; [done|by destruct Hne]|by left].
    - intros p t. rewrite Hbk. destruct (decide _); [|apply (ok_fifo self b Ho)].
      apply StronglySorted_app. split; [|split; [apply (ok_fifo self b Ho)|repeat constructor]].
      intros x y Hx Hy%list_elem_of_singleton. subst y. apply (ok_bucket self b Ho) in Hx as (z & Hz & _).
      apply (ok_order self b Ho) in Hz as (_ & _ & _ & ?). lia.
    - exact (ok_balances self b Ho).
    - intros k x. rewrite Eo. intros [[_ <-]|[_ Hx]]%lookup_insert_Some; [done|exact (ok_quote self b Ho _ _ Hx)]. }
  split; [constructor|split].
  - by eapply same_orders_ok.
  - done.
  - intros p t d. rewrite Hvol. unfold resting. destruct Hsame as (_ & _ & -> & _). rewrite Eo, msum_insert_new by done.
    change (get_tick_volume b1 p t d) with (get_tick_volume b p t d). pose proof (ok_cover self b Hok p t d) as Hc.
    unfold resting in Hc. unfold rests_at at 2, tick_part. cbn [okey fst snd]. destruct (decide _); lia.
  - destruct Hsame as (_ & _ & -> & _). done.
  - intros asset. rewrite (same_liabilities b1 b2) by done. unfold liabilities. rewrite Eo, msum_insert_new by done.
    change (owed b1 asset) with (owed b asset). lia.
Qed.

Lemma place_order_ok (i : invocation) (v v' : venue) (mk : Address) (p : AssetPair) (tick amt expry : Z)
    (o : LimitOrder) :
  honest i -> book_ok self (bk v) -> place_order_with_expiry i v mk p tick amt expry = Ok (v', o) ->
  step_ok v v' /\ 0 < amt /\ 0 < tick /\ auth i mk = true /\
  o = new_order (nid (bk v)) mk p Sell tick amt (sequence i) expry /\
  orders (bk v') = <[okey o := o]> (orders (bk v)).
Proof.
  intros Hi Hok Hp. unfold place_order_with_expiry in Hp. pose proof Hi as [Ec _].
  apply bind_Ok in Hp as (? & Ha%fail_if_Ok%Z.leb_gt & Hp). apply bind_Ok in Hp as (? & Ht%fail_if_Ok%Z.leb_gt & Hp).
  apply bind_Ok in Hp as (? & Hau%require_auth_Ok & Hp). pose proof (auth_not_self i mk Hi Hau) as Hmk.
  apply bind_Ok in Hp as (l & [_ Hl]%(pay_Ok self) & Hp). apply bind_Ok in Hp as ([b id] & Hn & Hp).
  unfold next_order_id in Hn. apply bind_Ok in Hn as (n & [-> _]%iop_Ok & Hn). injection Hn as <- <-.
  apply bind_Ok in Hp as (b1 & Hb1 & Hp). apply bind_Ok in Hp as (b2 & Hb2 & Hp). injection Hp as <- <-.
  destruct (new_order_ok (bk v) b1 b2 (new_order (nid (bk v)) mk p Sell tick amt (sequence i) expry))
    as (Hok2 & Eo & El); [done| |done|done|done|exact Hb1|exact Hb2|].
  { split_and!; cbn; try done; lia. }
  split; [split; [done|]|by split_and!]. intros asset. unfold margin. cbn [bk ledger]. rewrite El, Hl.
  rewrite (decide_False (P := mk = self)) by done. rewrite decide_True by done. unfold locked. change (is_bid_order _) with false. cbn. lia.
Qed.

Lemma place_buy_order_ok (i : invocation) (v v' : venue) (mk : Address) (p : AssetPair) (tick amt : Z)
    (o : LimitOrder) :
  honest i -> book_ok self (bk v) -> place_buy_order i v mk p tick amt = Ok (v', o) ->
  step_ok v v' /\ 0 < amt /\ 0 < tick /\ auth i mk = true /\
  o = new_order (nid (bk v)) mk p Buy tick amt (sequence i) 0 /\
  orders (bk v') = <[okey o := o]> (orders (bk v)).
Proof.
  intros Hi Hok Hp. unfold place_buy_order in Hp. pose proof Hi as [Ec _].
  apply bind_Ok in Hp as (? & Ha%fail_if_Ok%Z.leb_gt & Hp). apply bind_Ok in Hp as (? & Ht%fail_if_Ok%Z.leb_gt & Hp).
  apply bind_Ok in Hp as (? & Hau%require_auth_Ok & Hp). pose proof (auth_not_self i mk Hi Hau) as Hmk.
  apply bind_Ok in Hp as (q & Hq & Hp). pose proof (quote_amount_fits _ _ _ Hq) as Hfit.
  apply quote_amount_Ok in Hq as [-> _]; [|lia|done].
  apply bind_Ok in Hp as (l & [_ Hl]%(pay_Ok self) & Hp). apply bind_Ok in Hp as ([b id] & Hn & Hp).
  unfold next_order_id in Hn. apply bind_Ok in Hn as (n & [-> _]%iop_Ok & Hn). injection Hn as <- <-.
  apply bind_Ok in Hp as (b1 & Hb1 & Hp). apply bind_Ok in Hp as (b2 & Hb2 & Hp). injection Hp as <- <-.
  destruct (new_order_ok (bk v) b1 b2 (new_order (nid (bk v)) mk p Buy tick amt (sequence i) 0))
    as (Hok2 & Eo & El); [done| |done|done|intros _; exact Hfit|exact Hb1|exact Hb2|].
  { split_and!; cbn; try done; lia. }
  split; [split; [done|]|by split_and!]. intros asset. unfold margin. cbn [bk ledger]. rewrite El, Hl.
  rewrite (decide_False (P := mk = self)) by done. rewrite decide_True by done. unfold locked. change (is_bid_order _) with true. cbn. lia.
Qed.

(** ** Fills *)

(** A fill with the volume it takes from the tick. *)
Lemma consume_ok (b b' : book) (o o' : LimitOrder) (fill td : Z) (out : FillUpdateOutcome) :
  book_ok self b -> orders b !! okey o = Some o -> active o = true -> 0 < fill <= remaining_amount o ->
  apply_partial_fill b o fill = Ok (b', o', out) -> iadd I128 fill (dust_remaining_base out) = @Ok ContractError Z td ->
  let b2 := remove_tick_liquidity b' (o_pair o) (price_tick o) td (is_bid_order o) in
  shrunk b b' o o' /\ book_ok self b2 /\ orders b2 = orders b' /\
  forall asset, liabilities b2 asset = liabilities b asset - locked asset o + locked asset o'.
Proof.
  intros Hok Ho Ha Hfill Hap [-> _]%iop_Ok b2.
  pose proof (ok_order self b (ok_orders self b Hok)) as Hord.
  destruct (Hord _ _ _ _ Ho) as (_ & Hwf & _).
  destruct (apply_fill_shrunk self b b' o o' fill out Hwf Ha Hfill Hap) as (Hs & _ & Er & _).
  unfold b2. rewrite <- Er. destruct (shrunk_removed_ok self b b' o o' Hok Ho Ha Hs) as (Hok2 & Hsame & _).
  split; [done|]. split; [done|]. split; [apply Hsame|]. intros asset.
  rewrite (same_liabilities b' _) by done. by apply shrunk_liabilities.
Qed.

Lemma refund_Ok (i : invocation) (l l' : Ledger) (o : LimitOrder) (out : FillUpdateOutcome) :
  honest i -> maker o <> self -> 0 <= dust_refund out -> refund_dust i l o out = Ok l' ->
  forall asset, balance l' asset self = balance l asset self - in_asset (locked_asset o) asset (dust_refund out).
Proof.
  intros [Ec _] Hm Hd Hr asset. unfold refund_dust in Hr. destruct (Z.ltb_spec 0 (dust_refund out)).
  - apply (pay_Ok self) in Hr as [_ ->]. rewrite Ec, decide_True, decide_False by done. lia.
  - injection Hr as <-. assert (dust_refund out = 0) as -> by lia. unfold in_asset. destruct (decide _); lia.
Qed.

Lemma in_asset_add (a asset : Address) (x y : Z) : in_asset a asset (x + y) = in_asset a asset x + in_asset a asset y.
Proof. unfold in_asset. destruct (decide _); lia. Qed.

Lemma in_asset_le (a asset : Address) (x y : Z) : x <= y -> in_asset a asset x <= in_asset a asset y.
Proof. unfold in_asset. destruct (decide _); lia. Qed.

(** What a fill releases: at least what it pays out and refunds. *)
Lemma released (o o' : LimitOrder) (fill : Z) (out : FillUpdateOutcome) (asset : Address) :
  0 < price_tick o -> 0 <= remaining_amount o' -> 0 <= fill -> 0 <= dust_remaining_base out ->
  o' = with_amounts o (remaining_amount o') (filled_amount o') (active o') ->
  remaining_amount o - remaining_amount o' = fill + dust_remaining_base out ->
  dust_refund out = (if is_bid_order o then dust_remaining_base out * price_tick o / PRICE_SCALE
                     else dust_remaining_base out) ->
  in_asset (locked_asset o) asset ((if is_bid_order o then fill * price_tick o / PRICE_SCALE else fill) + dust_refund out)
    <= locked asset o - locked asset o'.
Proof.
  intros Hp Hr Hf Hd Eo Er Eref. rewrite Eo, locked_with. unfold locked, locked_asset. rewrite Eref.
  fold (is_bid_order o). assert (remaining_amount o = remaining_amount o' + (fill + dust_remaining_base out)) as E by lia.
  destruct (is_bid_order o).
  - assert (remaining_amount o * price_tick o / PRICE_SCALE >= remaining_amount o' * price_tick o / PRICE_SCALE
      + (fill * price_tick o / PRICE_SCALE + dust_remaining_base out * price_tick o / PRICE_SCALE)).
    { rewrite E. pose proof (floor_parts fill (dust_remaining_base out) (price_tick o) Hf Hd Hp).
      pose proof (floor_parts (remaining_amount o') (fill + dust_remaining_base out) (price_tick o) Hr ltac:(lia) Hp). lia. }
    unfold in_asset. destruct (decide _); lia.
  - unfold in_asset. destruct (decide _); lia.
Qed.
Lemma dust_refund_nonneg (o : LimitOrder) (out : FillUpdateOutcome) :
  0 < price_tick o -> 0 <= dust_remaining_base out ->
  dust_refund out = (if is_bid_order o then dust_remaining_base out * price_tick o / PRICE_SCALE
                     else dust_remaining_base out) -> 0 <= dust_refund out.
Proof.
  intros Hp Hd ->. destruct (is_bid_order o); [|done]. apply Z.div_pos; [nia|done].
Qed.

(** What [fill_order] did, on either side. *)
Lemma fill_order_Ok (i : invocation) (v v' : venue) (filler : Address) (id fill : Z) (r : FillResult) :
  honest i -> book_ok self (bk v) -> fill_order i v filler id fill = Ok (v', r) ->
  exists o b' o' out, load_order (bk v) id = Ok o /\ orders (bk v) !! okey o = Some o /\ order_wf self o /\
    auth i filler = true /\ active o = true /\ expired i o = false /\ 0 < fill <= remaining_amount o /\
    apply_partial_fill (bk v) o fill = Ok (b', o', out) /\ shrunk (bk v) b' o o' /\
    orders (bk v') = orders b' /\ book_ok self (bk v') /\
    (forall asset, liabilities (bk v') asset = liabilities (bk v) asset - locked asset o + locked asset o') /\
    (forall asset, balance (ledger v') asset self = balance (ledger v) asset self
       - in_asset (pr_sell (o_pair o)) asset fill - in_asset (locked_asset o) asset (dust_refund out)) /\
    fr_paid r = fill * price_tick o / PRICE_SCALE /\ fr_remaining r = remaining_amount o'.
Proof.
  intros Hi Hok Hf. unfold fill_order in Hf. pose proof Hi as [Ec _].
  apply bind_Ok in Hf as (? & Hpos%fail_if_Ok%Z.leb_gt & Hf). apply bind_Ok in Hf as (? & Hau%require_auth_Ok & Hf).
  apply bind_Ok in Hf as (o & Hload & Hf). apply bind_Ok in Hf as (? & Hact%fail_if_Ok%negb_false_iff & Hf).
  apply bind_Ok in Hf as (? & Hexp%fail_if_Ok & Hf). apply bind_Ok in Hf as (? & Hrem%fail_if_Ok%Z.ltb_ge & Hf).
  destruct (load_order_Ok self (bk v) id o (ok_orders self _ Hok) Hload) as (Ho & _ & Hwf).
  pose proof (auth_not_self i filler Hi Hau) as Hfl. destruct Hwf as (Hp & Hfd & Hm & Hw).
  apply bind_Ok in Hf as (m & [-> _]%ok_or_Ok%chk_Some & Hf).
  apply bind_Ok in Hf as (paid & [_ ->]%ok_or_Ok%checked_div_Some & Hf). apply bind_Ok in Hf as (? & _ & Hf).
  apply bind_Ok in Hf as (l1 & [_ Hl1]%(pay_Ok self) & Hf). apply bind_Ok in Hf as (l2 & [_ Hl2]%(pay_Ok self) & Hf).
  apply bind_Ok in Hf as ([[b' o'] out] & Hap & Hf). apply bind_Ok in Hf as (l3 & Hl3 & Hf).
  apply bind_Ok in Hf as (td & Htd & Hf). injection Hf as <- <-.
  destruct (consume_ok (bk v) b' o o' fill td out Hok Ho Hact ltac:(lia) Hap Htd) as (Hs & Hok2 & Eo2 & Hliab).
  destruct (apply_fill_shrunk self (bk v) b' o o' fill out) as (_ & _ & _ & Hd & _ & _ & Href); [by split_and!|done|lia|done|].
  assert (o_pair o' = o_pair o /\ price_tick o' = price_tick o /\ maker o' = maker o /\ locked_asset o' = locked_asset o) as (E1 & E2 & E3 & E4).
  { rewrite (sh_order _ _ _ _ Hs). done. }
  exists o, b', o', out. cbn [bk ledger fr_paid fr_remaining]. rewrite E1, E2 in *. fold (is_bid_order o).
  do 2 (split; [done|]). split; [by split_and!|]. do 3 (split; [done|]). split; [lia|]. do 5 (split; [done|]).
  split; [|split; [apply Z.quot_div_nonneg; [nia|done]|done]]. intros asset.
  rewrite (refund_Ok i l2 l3 o' out Hi), E4; [|by rewrite E3|by eapply dust_refund_nonneg|done].
  rewrite Hl2, Hl1, Ec. rewrite (decide_True (P := self = self)) by done.
  rewrite !(decide_False (P := filler = self)) by done. rewrite !(decide_False (P := maker o = self)) by done. lia.
Qed.

Lemma fill_sell_ok (i : invocation) (v v' : venue) (filler : Address) (id fill : Z) (r : FillResult) (o : LimitOrder) :
  honest i -> book_ok self (bk v) -> load_order (bk v) id = Ok o -> side o = Sell ->
  fill_order i v filler id fill = Ok (v', r) -> step_ok v v'.
Proof.
  intros Hi Hok Hload Hside Hf.
  destruct (fill_order_Ok i v v' filler id fill r Hi Hok Hf) as (o1 & b' & o' & out & Hl & Ho & Hwf & _ & Ha & _ & Hfill & Hap & Hs & _ & Hok' & Hliab & Hbal & _).
  assert (o1 = o) as -> by congruence. destruct (apply_fill_shrunk self (bk v) b' o o' fill out Hwf Ha Hfill Hap) as (_ & _ & Er & Hd & _ & _ & Href).
  destruct Hwf as (Hp & _). split; [done|]. intros asset. unfold margin. rewrite Hliab, Hbal.
  pose proof (released o o' fill out asset Hp (proj1 (sh_rem _ _ _ _ Hs)) ltac:(lia) Hd (sh_order _ _ _ _ Hs) Er Href) as Hrel.
  assert (is_bid_order o = false) as Hb by (unfold is_bid_order; by rewrite Hside).
  assert (locked_asset o = pr_sell (o_pair o)) as El by (unfold locked_asset; by rewrite Hside).
  rewrite Hb, El in *. rewrite in_asset_add in Hrel. lia.
Qed.

(** ** Settlement of two orders *)
Lemma credit_dust_Ok (b b' : book) (o : LimitOrder) (asset : Address) (out : FillUpdateOutcome) :
  book_ok self b -> 0 <= dust_refund out -> credit_dust b o asset out = Ok b' ->
  book_ok self b' /\ orders b' = orders b /\
  (forall x a, get_balance b' a x = get_balance b a x + at_account asset (maker o) x a (dust_refund out)) /\
  forall a, owed b' a = owed b a + in_asset asset a (dust_refund out).
Proof.
  intros Hok Hd Hc. unfold credit_dust in Hc. destruct (Z.ltb_spec 0 (dust_refund out)).
  - by apply (credit_Ok self) in Hc.
  - injection Hc as <-. assert (dust_refund out = 0) as -> by lia. unfold in_asset, at_account.
    split_and!; try done; intros; destruct (decide _); lia.
Qed.
(** The credits of a settlement, with the fees when there is a treasury. *)
Definition fees_kept (i : invocation) (quote_asset base_asset : Address) (qf bf : Z) (a : Address) : Z :=
  match treasury i with
  | Some _ => 0
  | None => in_asset quote_asset a qf + in_asset base_asset a bf
  end.

Definition fee_credit (i : invocation) (quote_asset base_asset : Address) (qf bf : Z) (x a : Address) : Z :=
  match treasury i with
  | Some t => at_account quote_asset t x a qf + at_account base_asset t x a bf
  | None => 0
  end.

Lemma fees_Ok (i : invocation) (b b' : book) (quote_asset base_asset : Address) (qf bf : Z) :
  book_ok self b -> 0 <= qf -> 0 <= bf ->
  match treasury i with
  | Some t => b1 ← credit_balance b t quote_asset qf; credit_balance b1 t base_asset bf
  | None => mret b
  end = Ok b' ->
  book_ok self b' /\ orders b' = orders b /\
  (forall x a, get_balance b' a x = get_balance b a x + fee_credit i quote_asset base_asset qf bf x a) /\
  (forall a, owed b' a = owed b a + in_asset quote_asset a qf + in_asset base_asset a bf
    - fees_kept i quote_asset base_asset qf bf a) /\
  (forall a, 0 <= fees_kept i quote_asset base_asset qf bf a).
Proof.
  intros Hok Hq Hb Hc. unfold fees_kept, fee_credit. destruct (treasury i) as [t|].
  - apply bind_Ok in Hc as (b1 & (Hok1 & Eo1 & G1 & Ow1)%(credit_Ok self) & Hc); [|done..].
    apply (credit_Ok self) in Hc as (Hok2 & Eo2 & G2 & Ow2); [|done..].
    split; [done|]. split; [congruence|]. split; [intros x a; rewrite G2, G1; lia|].
    split; intros a; [rewrite Ow2, Ow1|]; lia.
  - injection Hc as <-. split; [done|]. split; [done|]. split; [intros; lia|].
    split; intros a; unfold in_asset; repeat destruct (decide _); lia.
Qed.

Lemma liabilities_split (b : book) (asset : Address) :
  liabilities b asset = msum (fun _ => locked asset) (orders b) + owed b asset.
Proof. done. Qed.

(** The two orders of a settlement and the amounts, when it returned. *)
Lemma match_orders_Ok (i : invocation) (v v' : venue) (sid bid fill : Z) (r : SettlementResult) :
  book_ok self (bk v) -> match_orders i v sid bid fill = Ok (v', r) ->
  exists so bo b1 b2 so' bo' sout bout,
    load_order (bk v) sid = Ok so /\ load_order (bk v) bid = Ok bo /\
    order_wf self so /\ order_wf self bo /\ active so = true /\ active bo = true /\
    side so = Sell /\ side bo = Buy /\ o_pair so = o_pair bo /\ price_tick so <= price_tick bo /\
    0 < fill /\ fill <= remaining_amount so /\ fill <= remaining_amount bo /\
    apply_partial_fill (bk v) so fill = Ok (b1, so', sout) /\
    apply_partial_fill b1 bo fill = Ok (b2, bo', bout) /\
    shrunk (bk v) b1 so so' /\ shrunk b1 b2 bo bo' /\
    orders (bk v) !! okey so = Some so /\ orders (bk v) !! okey bo = Some bo /\
    orders b1 !! okey bo = Some bo /\ okey bo <> okey so /\
    ledger v' = ledger v /\ orders (bk v') = orders b2 /\ book_ok self (bk v') /\
    sr_filled r = fill /\ sr_quote r = fill * price_tick so / PRICE_SCALE /\
    quote_fee_amount r = sr_quote r * PROTOCOL_FEE_BPS / BPS_SCALE /\
    base_fee_amount r = fill * PROTOCOL_FEE_BPS / BPS_SCALE /\
    seller_net_amount r = sr_quote r - quote_fee_amount r /\ buyer_net_amount r = fill - base_fee_amount r /\
    (forall x a, get_balance (bk v') a x = get_balance (bk v) a x
       + at_account (pr_buy (o_pair so)) (maker so) x a (seller_net_amount r)
       + at_account (pr_sell (o_pair so)) (maker bo) x a (buyer_net_amount r)
       + at_account (pr_buy (o_pair so)) (maker bo) x a (fill * price_tick bo / PRICE_SCALE - sr_quote r)
       + at_account (pr_sell (o_pair so)) (maker so) x a (dust_refund sout)
       + at_account (pr_buy (o_pair so)) (maker bo) x a (dust_refund bout)
       + fee_credit i (pr_buy (o_pair so)) (pr_sell (o_pair so)) (quote_fee_amount r) (base_fee_amount r) x a) /\
    (forall a, 0 <= fees_kept i (pr_buy (o_pair so)) (pr_sell (o_pair so)) (quote_fee_amount r) (base_fee_amount r) a) /\
    (forall a, owed (bk v') a = owed (bk v) a
       + in_asset (pr_buy (o_pair so)) a (fill * price_tick bo / PRICE_SCALE + dust_refund bout)
       + in_asset (pr_sell (o_pair so)) a (fill + dust_refund sout)
       - fees_kept i (pr_buy (o_pair so)) (pr_sell (o_pair so)) (quote_fee_amount r) (base_fee_amount r) a).
Proof.
  intros Hok Hm. unfold match_orders in Hm.
  apply bind_Ok in Hm as (? & Hpos%fail_if_Ok%Z.leb_gt & Hm). apply bind_Ok in Hm as (so & Hso & Hm).
  apply bind_Ok in Hm as (bo & Hbo & Hm). apply bind_Ok in Hm as (? & Hact%fail_if_Ok & Hm).
  apply bind_Ok in Hm as (? & Hside%fail_if_Ok & Hm). apply bind_Ok in Hm as (? & Hpair%fail_if_Ok & Hm).
  apply bind_Ok in Hm as (? & Hcross%fail_if_Ok%Z.ltb_ge & Hm). apply bind_Ok in Hm as (? & Hrem%fail_if_Ok & Hm).
  apply orb_false_iff in Hact as [Has%negb_false_iff Hab%negb_false_iff].
  apply orb_false_iff in Hside as [Hss%bool_decide_eq_false%dec_stable Hsb%bool_decide_eq_false%dec_stable].
  apply bool_decide_eq_false, dec_stable in Hpair. apply orb_false_iff in Hrem as [Hrs%Z.ltb_ge Hrb%Z.ltb_ge].
  destruct (load_order_Ok self (bk v) sid so (ok_orders self _ Hok) Hso) as (Hos & _ & Hws).
  destruct (load_order_Ok self (bk v) bid bo (ok_orders self _ Hok) Hbo) as (Hob & _ & Hwb).
  pose proof (proj1 Hws) as Hps. pose proof (proj1 Hwb) as Hpb.
  assert (okey bo <> okey so) as Hkey by (intros E; congruence).
  apply bind_Ok in Hm as (qp & [-> Hq0]%quote_amount_Ok & Hm); [|lia|done].
  apply bind_Ok in Hm as (bl & [-> _]%quote_amount_Ok & Hm); [|lia|done].
  apply bind_Ok in Hm as (im & [-> _]%ok_or_Ok%chk_Some & Hm). apply bind_Ok in Hm as (? & _ & Hm).
  apply bind_Ok in Hm as (qf & [Eqf Hqf]%protocol_fee_Ok & Hm); [|done].
  apply bind_Ok in Hm as (bf & [Ebf Hbf]%protocol_fee_Ok & Hm); [|lia].
  apply bind_Ok in Hm as (sn & [-> _]%ok_or_Ok%chk_Some & Hm). apply bind_Ok in Hm as (bn & [-> _]%ok_or_Ok%chk_Some & Hm).
  apply bind_Ok in Hm as ([[b1 so'] sout] & Hap1 & Hm). apply bind_Ok in Hm as ([[b2 bo'] bout] & Hap2 & Hm).
  destruct (apply_fill_shrunk self (bk v) b1 so so' fill sout Hws Has ltac:(lia) Hap1) as (Hs1 & _ & _ & Hd1 & _ & _ & Hr1).
  destruct (apply_fill_shrunk self b1 b2 bo bo' fill bout Hwb Hab ltac:(lia) Hap2) as (Hs2 & _ & _ & Hd2 & _ & _ & Hr2).
  pose proof (dust_refund_nonneg so sout Hps Hd1 Hr1) as Hn1. pose proof (dust_refund_nonneg bo bout Hpb Hd2 Hr2) as Hn2.
  pose proof (shrunk_book_ok self (bk v) b1 so so' Hok Hos Has Hs1) as Hok1.
  assert (orders b1 !! okey bo = Some bo) as Hob1 by (rewrite (sh_other _ _ _ _ Hs1); done).
  pose proof (shrunk_book_ok self b1 b2 bo bo' Hok1 Hob1 Hab Hs2) as Hok2.
  assert (o_pair so' = o_pair so /\ maker so' = maker so) as [Ep1 Em1] by (rewrite (sh_order _ _ _ _ Hs1); done).
  assert (o_pair bo' = o_pair bo /\ maker bo' = maker bo) as [Ep2 Em2] by (rewrite (sh_order _ _ _ _ Hs2); done).
  rewrite Ep1, Ep2, <- Hpair in Hm.
  assert (fill * price_tick so / PRICE_SCALE <= fill * price_tick bo / PRICE_SCALE) as Himp.
  { apply Z.div_le_mono; [done|nia]. }
  apply bind_Ok in Hm as (b3 & (Hok3 & Eo3 & G3 & Ow3)%(credit_Ok self) & Hm); [|done|lia].
  apply bind_Ok in Hm as (b4 & (Hok4 & Eo4 & G4 & Ow4)%(credit_Ok self) & Hm); [|done|lia].
  apply bind_Ok in Hm as (b5 & (Hok5 & Eo5 & G5 & Ow5)%(credit_Ok self) & Hm); [|done|lia].
  apply bind_Ok in Hm as (b6 & (Hok6 & Eo6 & G6 & Ow6)%credit_dust_Ok & Hm); [|done|done].
  apply bind_Ok in Hm as (b7 & (Hok7 & Eo7 & G7 & Ow7)%credit_dust_Ok & Hm); [|done|done].
  apply bind_Ok in Hm as (b8 & (Hok8 & Eo8 & G8 & Ow8 & Hkept)%fees_Ok & Hm); [|done|lia|lia]. injection Hm as <- <-.
  exists so, bo, b1, b2, so', bo', sout, bout. cbn [with_bk bk ledger sr_filled sr_quote quote_fee_amount base_fee_amount
    seller_net_amount buyer_net_amount]. split_and!; try done; try congruence.
  { intros w a. rewrite G8, G7, G6, G5, G4, G3, Em1, Em2.
    assert (get_balance b2 a w = get_balance (bk v) a w) as ->; [|lia]. unfold get_balance.
    destruct (sh_frame _ _ _ _ Hs2) as (_ & -> & _). destruct (sh_frame _ _ _ _ Hs1) as (_ & -> & _). done. }
  intros a. specialize (Ow8 a). rewrite Ow7, Ow6, Ow5, Ow4, Ow3 in Ow8.
  assert (owed b2 a = owed (bk v) a) as Ow2.
  { unfold owed. destruct (sh_frame _ _ _ _ Hs2) as (_ & -> & _). destruct (sh_frame _ _ _ _ Hs1) as (_ & -> & _). done. }
  rewrite Ow2 in Ow8. rewrite Hpair in *. rewrite Ow8. unfold in_asset. repeat destruct (decide _); lia.
Qed.
Lemma match_orders_ok (i : invocation) (v v' : venue) (sid bid fill : Z) (r : SettlementResult) :
  book_ok self (bk v) -> match_orders i v sid bid fill = Ok (v', r) -> step_ok v v'.
Proof.
  intros Hok Hm. destruct (match_orders_Ok i v v' sid bid fill r Hok Hm) as (so & bo & b1 & b2 & so' & bo' & sout & bout
    & _ & _ & Hws & Hwb & Has & Hab & Hss & Hsb & Hpair & _ & Hpos & Hrs & Hrb & Hap1 & Hap2 & Hs1 & Hs2 & Hos & _ & Hob1
    & _ & El & Eo & Hok' & _ & _ & _ & _ & _ & _ & _ & Hkept & Ow).
  split; [done|]. intros asset. unfold margin. rewrite El, !liabilities_split, Eo. specialize (Ow asset). specialize (Hkept asset).
  pose proof (shrunk_liabilities (bk v) b1 so so' asset Hos Hs1) as L1.
  pose proof (shrunk_liabilities b1 b2 bo bo' asset Hob1 Hs2) as L2.
  destruct (apply_fill_shrunk self (bk v) b1 so so' fill sout Hws Has ltac:(lia) Hap1) as (_ & _ & Er1 & Hd1 & _ & _ & Hr1).
  destruct (apply_fill_shrunk self b1 b2 bo bo' fill bout Hwb Hab ltac:(lia) Hap2) as (_ & _ & Er2 & Hd2 & _ & _ & Hr2).
  pose proof (released so so' fill sout asset (proj1 Hws) (proj1 (sh_rem _ _ _ _ Hs1)) ltac:(lia) Hd1 (sh_order _ _ _ _ Hs1) Er1 Hr1) as R1.
  pose proof (released bo bo' fill bout asset (proj1 Hwb) (proj1 (sh_rem _ _ _ _ Hs2)) ltac:(lia) Hd2 (sh_order _ _ _ _ Hs2) Er2 Hr2) as R2.
  unfold is_bid_order, locked_asset in R1, R2. rewrite Hss in R1. rewrite Hsb in R2.
  rewrite (bool_decide_eq_false_2 (Sell = Buy)) in R1 by done. rewrite (bool_decide_eq_true_2 (Buy = Buy)) in R2 by done.
  rewrite <- Hpair in R2. unfold liabilities in L1, L2.
  assert (owed b2 asset = owed (bk v) asset) as Ow2.
  { unfold owed. destruct (sh_frame _ _ _ _ Hs2) as (_ & -> & _). destruct (sh_frame _ _ _ _ Hs1) as (_ & -> & _). done. }
  assert (owed b1 asset = owed (bk v) asset) as Ow1.
  { unfold owed. destruct (sh_frame _ _ _ _ Hs1) as (_ & -> & _). done. }
  lia.
Qed.

(** ** Cancelling *)
Lemma cancel_inner_Ok (i : invocation) (v v' : venue) (mk : Address) (id x : Z) :
  honest i -> mk <> self -> book_ok self (bk v) -> cancel_order_inner i v mk id = Ok (v', x) ->
  exists o, load_order (bk v) id = Ok o /\ orders (bk v) !! okey o = Some o /\ maker o = mk /\ active o = true /\
    x = (if is_bid_order o then remaining_amount o * price_tick o / PRICE_SCALE else remaining_amount o) /\
    orders (bk v') = <[okey o := with_amounts o 0 (filled_amount o) false]> (orders (bk v)) /\
    (if 0 <? x then transfer (ledger v) (locked_asset o) self mk x = Some (ledger v') else ledger v' = ledger v) /\
    step_ok v v'.
Proof.
  intros Hi Hmk Hok Hc. unfold cancel_order_inner in Hc. pose proof Hi as [Ec _].
  apply bind_Ok in Hc as (o & Hload & Hc). apply bind_Ok in Hc as (? & Hm%fail_if_Ok%bool_decide_eq_false%dec_stable & Hc).
  apply bind_Ok in Hc as (? & Ha%fail_if_Ok%negb_false_iff & Hc). cbv zeta in Hc.
  destruct (load_order_Ok self (bk v) id o (ok_orders self _ Hok) Hload) as (Ho & _ & Hwf).
  pose proof Hwf as (Hp & Hf & _ & Hw). rewrite Ha in Hw. fold (is_bid_order o) in Hc.
  set (o' := with_amounts o 0 (filled_amount o) false) in *.
  apply bind_Ok in Hc as (rec & Hrec & Hc). apply bind_Ok in Hc as (l & Hl & Hc). injection Hc as <- <-.
  assert (rec = if is_bid_order o then remaining_amount o * price_tick o / PRICE_SCALE else remaining_amount o) as Erec.
  { destruct (is_bid_order o); [|injection Hrec as <-; done]. apply quote_amount_Ok in Hrec as [-> _]; [done|lia|done]. }
  destruct (closed_shrunk (bk v) o (filled_amount o)) as [Hs _]; [lia|done|]. fold o' in Hs.
  change (o_pair o') with (o_pair o) in *. change (price_tick o') with (price_tick o) in *.
  change (o_id o') with (o_id o) in *. change (side o') with (side o) in *. fold (is_bid_order o) in *.
  destruct (shrunk_removed_ok self (bk v) _ o o' Hok Ho Ha Hs) as (Hok2 & Hsame & _).
  change (remaining_amount o') with 0 in *. rewrite Z.sub_0_r in *.
  exists o. cbn [bk ledger]. split_and!; try done.
  - destruct Hsame as (_ & _ & -> & _). cbn [save_order set_orders orders].
    destruct (bucket_remove_frame (bk v) (o_pair o) (price_tick o) (o_id o)) as (_ & _ & -> & _). done.
  - destruct (0 <? rec); [|injection Hl as <-; done]. unfold pay in Hl. apply unwrap_Ok in Hl. by rewrite Ec in Hl.
  - split; [exact Hok2|]. intros asset. unfold margin. cbn [bk ledger]. rewrite (same_liabilities _ _ asset Hsame).
    rewrite (shrunk_liabilities (bk v) _ o o' asset Ho Hs), (locked_empty asset o') by done.
    assert (balance l asset self = balance (ledger v) asset self - in_asset (locked_asset o) asset rec) as ->.
    { destruct (Z.ltb_spec 0 rec) as [Hr|Hr].
      - apply (pay_Ok self) in Hl as [_ ->]. rewrite Ec, decide_True, decide_False by done.
        change (locked_asset o') with (locked_asset o). lia.
      - injection Hl as <-. assert (rec = 0) as ->; [|unfold in_asset; destruct (decide _); lia].
        enough (0 <= rec) by lia. rewrite Erec. destruct (is_bid_order o); [apply Z.div_pos; [nia|done]|lia]. }
    rewrite Erec. unfold locked, locked_asset. fold (is_bid_order o). destruct (is_bid_order o); lia.
Qed.

Lemma cancel_loop_ok (i : invocation) (mk : Address) (ids : list Z) (v v' : venue) (r r' : BatchCancelResult) :
  honest i -> mk <> self -> book_ok self (bk v) -> cancel_loop i v mk ids r = Ok (v', r') -> step_ok v v'.
Proof.
  intros Hi Hmk. revert v r. induction ids as [|id ids IH]; intros v r Hok Hc; cbn [cancel_loop] in Hc.
  - injection Hc as <- <-. by apply step_ok_refl.
  - apply bind_Ok in Hc as ([v1 x] & H1 & Hc). apply bind_Ok in Hc as (? & _ & Hc). apply bind_Ok in Hc as (? & _ & Hc).
    apply cancel_inner_Ok in H1 as (_ & _ & _ & _ & _ & _ & _ & _ & Hstep); [|done..].
    eapply step_ok_trans; [exact Hstep|]. eapply IH; [apply Hstep|exact Hc].
Qed.

(** ** Withdrawing *)
Lemma withdraw_ok (i : invocation) (v v' : venue) (own asset : Address) (amt x : Z) :
  honest i -> book_ok self (bk v) -> withdraw_balance i v own asset amt = Ok (v', x) ->
  step_ok v v' /\ x = amt /\ 0 < amt <= get_balance (bk v) own asset.
Proof.
  intros Hi Hok Hw. unfold withdraw_balance in Hw. pose proof Hi as [Ec _].
  apply bind_Ok in Hw as (? & Ha%fail_if_Ok%Z.leb_gt & Hw). apply bind_Ok in Hw as (? & Hau%require_auth_Ok & Hw).
  pose proof (auth_not_self i own Hi Hau) as Hown.
  apply bind_Ok in Hw as (b & (Hle & Hok' & Eo & Ow)%(debit_Ok self) & Hw); [|done|lia].
  apply bind_Ok in Hw as (l & [_ Hl]%(pay_Ok self) & Hw). injection Hw as <- <-.
  split; [|lia]. split; [done|]. intros a. unfold margin. cbn [bk ledger]. rewrite !liabilities_split, Eo, Ow, Hl, Ec.
  rewrite decide_True, decide_False by done. lia.
Qed.

(** ** Purging closed orders *)
Lemma filter_absent (l : list Z) (id : Z) : id ∉ l -> filter (fun x => x <> id) l = l.
Proof.
  induction l as [|x l IH]; intros Hin; [done|]. apply not_elem_of_cons in Hin as [Hne Hin].
  rewrite filter_cons, decide_True by congruence. by rewrite IH.
Qed.

Lemma purge_one_ok (b b' : book) (id : Z) (w : bool) :
  book_ok self b -> purge_one b id = Ok (b', w) ->
  book_ok self b' /\ (forall a, liabilities b' a = liabilities b a) /\
  (w = true -> exists o, load_order b id = Ok o /\ active o = false) /\ load_order b' id = Err OrderNotFound.
Proof.
  intros Hok Hp. pose proof (ok_orders self b Hok) as Ho. unfold purge_one in Hp.
  destruct (order_index b !! id) as [[p t]|] eqn:Ei; cbn [fst snd] in Hp.
  - destruct (orders b !! (p, t, id)) as [o|] eqn:Eo.
    + destruct (ok_order self b Ho _ _ _ _ Eo) as (Hk & Hwf & _ & _). pose proof Hwf as (_ & Hf & _ & Hw).
      destruct (negb (active o) || (remaining_amount o =? 0)) eqn:Ec.
      * assert (active o = false) as Ha.
        { destruct (active o); [|done]. cbn [negb orb] in Ec. lia. }
        rewrite Ha in Hw. injection Hk as Hkp Hkt Hkid.
        destruct (bucket_remove_frame b p t id) as (F1 & F2 & F3 & F4 & F5 & F6).
        cbv zeta in Hp. rewrite bool_decide_eq_false_2 in Hp by
          (cbn [set_orders order_index]; rewrite lookup_delete_eq; by intros [? ?]).
        injection Hp as <- <-.
        set (b1 := set_orders _ _ _).
        assert (orders b1 = delete (p, t, id) (orders b)) as Eo1 by (unfold b1; cbn; by rewrite F3).
        assert (order_index b1 = delete id (order_index b)) as Ei1 by (unfold b1; cbn; by rewrite F2).
        assert (forall q u, get_orders_at_tick b1 q u = get_orders_at_tick b q u) as Eb1.
        { intros q u. change (get_orders_at_tick b1 q u) with (get_orders_at_tick (bucket_remove b p t id) q u).
          rewrite buckets_remove. destruct (decide _) as [[= <- <-]|]; [|done]. apply filter_absent.
          intros (x & Hx & Hax)%(ok_bucket self b Ho). congruence. }
        split_and!.
        -- constructor; [constructor| |].
           ++ intros q u n x. rewrite Eo1, Ei1. intros [Hne Hx]%lookup_delete_Some.
              destruct (ok_order self b Ho _ _ _ _ Hx) as (? & ? & Hi' & ?). split_and!; try done.
              ** rewrite lookup_delete_ne; [done|]. intros ->. apply Hne. congruence.
              ** unfold nid, b1. cbn. by rewrite F1.
           ++ intros n q u. rewrite Ei1, Eo1. intros [Hne Hi']%lookup_delete_Some.
              rewrite lookup_delete_ne by congruence. by apply (ok_index self b Ho).
           ++ intros q u n. rewrite Eb1, Eo1, (ok_bucket self b Ho). split; intros (x & Hx & Hax).
              ** exists x. split; [|done]. rewrite lookup_delete_ne; [done|]. intros E. rewrite <- E, Eo in Hx. congruence.
              ** apply lookup_delete_Some in Hx as [_ Hx]. by exists x.
           ++ intros q u. rewrite Eb1. apply (ok_fifo self b Ho).
           ++ unfold b1. cbn [set_orders balances]. rewrite F4. apply (ok_balances self b Ho).
           ++ intros k x. rewrite Eo1. intros [_ Hx]%lookup_delete_Some. exact (ok_quote self b Ho _ _ Hx).
           ++ destruct (ok_ticks self b Hok) as [Hv Hl]. unfold b1. split; cbn [set_orders tick_volumes].
              ** by rewrite F6.
              ** intros q d. unfold get_ticks, get_tick_volume. cbn. rewrite F5, F6. apply Hl.
           ++ intros q u d. unfold resting. rewrite Eo1, msum_delete.
              assert (get_tick_volume b1 q u d = get_tick_volume b q u d) as -> by (unfold get_tick_volume, b1; cbn; by rewrite F6).
              pose proof (ok_cover self b Hok q u d) as Hc. unfold resting in Hc. unfold term. rewrite Eo.
              pose proof (rests_at_nonneg self b q u d _ o Ho Eo). lia.
        -- intros a. unfold liabilities, owed. rewrite Eo1, msum_delete. unfold term. rewrite Eo, locked_empty by done.
           unfold b1. cbn [set_orders balances]. rewrite F4. lia.
        -- intros _. exists o. split; [|done]. unfold load_order. rewrite Ei. cbn. by rewrite Eo.
        -- unfold load_order. by rewrite Ei1, lookup_delete_eq.
      * rewrite Ei in Hp. by rewrite bool_decide_eq_true_2 in Hp by by eexists.
    + destruct (ok_index self b Ho _ _ _ Ei) as [x Hx]. congruence.
  - rewrite Ei, bool_decide_eq_false_2 in Hp by by intros [? ?]. injection Hp as <- <-.
    split_and!; try done. unfold load_order. by rewrite Ei.
Qed.

Lemma purge_loop_ok (ids : list Z) (b b' : book) (n n' : Z) :
  book_ok self b -> purge_loop b ids n = Ok (b', n') ->
  book_ok self b' /\ forall a, liabilities b' a = liabilities b a.
Proof.
  revert b n. induction ids as [|id ids IH]; intros b n Hok Hp; cbn [purge_loop] in Hp.
  - injection Hp as <- <-. done.
  - apply bind_Ok in Hp as ([b1 w] & H1 & Hp). apply bind_Ok in Hp as (? & _ & Hp).
    apply purge_one_ok in H1 as (Hok1 & Hl1 & _); [|done]. destruct (IH b1 _ Hok1 Hp) as [Hok' Hl'].
    split; [done|]. intros a. by rewrite Hl', Hl1.
Qed.
End margin.
