(* ===== verification/BookMarket.v ===== *)
(** * Limit order book: the market matcher

    One fill, one price tick, and the whole sweep of [match_market_order]: what is
    filled, in which order, and what is left in the book. *)

From stdpp Require Import base numbers list gmap sorting.
From Stdlib Require Import ZArith Lia.
From S2P Require Import Prelude Host Token RootErrors BookData BookTicks BookSort BookInv BookOps BookSteps BookMargin.

Open Scope Z_scope.

Section market.
Context {H : Host} {T : Tokens H} {TL : TokenLaws H T}.
Variable self : Address.
Variable i : invocation.
Hypothesis Hi : honest self i.
Variable taker : Address.
Hypothesis Htaker : taker <> self.
Variable p : AssetPair.
Variable is_buy : bool.

(** The side of the book that is walked: bids for a market sell. *)
Let d : bool := negb is_buy.

(** The order at tick [t] with identifier [id] can be matched. *)
Definition eligible (b : book) (t id : Z) : Prop :=
  exists o, orders b !! (p, t, id) = Some o /\ active o = true /\ expired i o = false /\ is_bid_order o = d.

(** Orders only lose volume. *)
Definition later (b b' : book) : Prop :=
  forall k o', orders b' !! k = Some o' -> exists o, orders b !! k = Some o /\
    side o' = side o /\ expiry o' = expiry o /\ (active o' = true -> active o = true).

Lemma later_refl (b : book) : later b b.
Proof. intros k o Ho. by exists o. Qed.

Lemma later_trans (b1 b2 b3 : book) : later b1 b2 -> later b2 b3 -> later b1 b3.
Proof.
  intros H12 H23 k o3 H3. destruct (H23 k o3 H3) as (o2 & H2 & E1 & E2 & Ha).
  destruct (H12 k o2 H2) as (o1 & H1 & E3 & E4 & Hb). exists o1. split_and!; try congruence. auto.
Qed.

Lemma later_eligible (b b' : book) (t id : Z) : later b b' -> eligible b' t id -> eligible b t id.
Proof.
  intros Hl (o' & Ho' & Ha & He & Hs). destruct (Hl _ _ Ho') as (o & Ho & E1 & E2 & Hact).
  exists o. unfold expired, is_bid_order in *. rewrite <- E1, <- E2. split_and!; auto.
Qed.

Lemma shrunk_later (b b' : book) (o o' : LimitOrder) :
  orders b !! okey o = Some o -> active o = true -> shrunk b b' o o' -> later b b'.
Proof.
  intros Ho Ha Hs k x Hx. destruct (decide (k = okey o)) as [->|Hne].
  - destruct (sh_self _ _ _ _ Hs) as [[Es _]|(Es & _)]; [|congruence]. assert (x = o') as -> by congruence.
    exists o. rewrite (sh_order _ _ _ _ Hs). done.
  - rewrite (sh_other _ _ _ _ Hs) in Hx by done. by exists x.
Qed.

(** What a fill of [x] leaves of an order: an entry with [x] more filled, or none
    when the remainder was dust. *)
Definition left_of (b : book) (o : LimitOrder) (x : Z) : Prop :=
  match orders b !! okey o with
  | Some o' => filled_amount o' = filled_amount o + x /\
      (active o' = true -> remaining_amount o' = remaining_amount o - x)
  | None => x < remaining_amount o
  end.

(** One fill of the sweep. *)
Record fill_made (s s' : sweep) (t id : Z) (f : TickMatchFill) : Prop := {
  fm_eligible : eligible (bk (sw_venue s)) t id;
  fm_order : exists o, orders (bk (sw_venue s)) !! (p, t, id) = Some o /\ maker o = tf_maker f /\
    0 < tf_filled f <= remaining_amount o /\ left_of (bk (sw_venue s')) o (tf_filled f);
  fm_id : tf_order_id f = id;
  fm_tick : tf_tick f = t;
  fm_paid : tf_paid f = tf_filled f * t / PRICE_SCALE;
  fm_fills : sw_fills s' = sw_fills s ++ [f];
  fm_remaining : sw_remaining s' = sw_remaining s - tf_filled f;
  fm_bound : tf_filled f <= sw_remaining s;
  fm_total : sw_paid s' = sw_paid s + tf_paid f;
  fm_left : eligible (bk (sw_venue s')) t id -> sw_remaining s' = 0;
  fm_other : forall k, k <> (p, t, id) -> orders (bk (sw_venue s')) !! k = orders (bk (sw_venue s)) !! k;
  fm_later : later (bk (sw_venue s)) (bk (sw_venue s'));
  fm_step : step_ok self (sw_venue s) (sw_venue s')
}.

(** What of a fill goes back to the maker: the remainder, when it was dust. *)
Definition dust_back (b : book) (o : LimitOrder) (x : Z) : Z :=
  match orders b !! okey o with
  | Some _ => 0
  | None => if is_bid_order o then (remaining_amount o - x) * price_tick o / PRICE_SCALE else remaining_amount o - x
  end.

Lemma apply_fill_kept (b b' : book) (o o' : LimitOrder) (x : Z) (out : FillUpdateOutcome) :
  apply_partial_fill b o x = Ok (b', o', out) ->
  (orders b' !! okey o = Some o' /\ dust_remaining_base out = 0 /\ dust_refund out = 0) \/
  (orders b' !! okey o = None /\ remaining_amount o <> x /\ dust_remaining_base out = remaining_amount o - x).
Proof.
  unfold apply_partial_fill. intros Hap. apply bind_Ok in Hap as (nr & [-> _]%ok_or_Ok%chk_Some & Hap).
  apply bind_Ok in Hap as (nf & _ & Hap). apply bind_Ok in Hap as (? & _ & Hap).
  destruct (Z.eqb_spec (remaining_amount o - x) 0) as [E|Hne].
  - injection Hap as <- <- <-. left. split; [apply lookup_insert_eq|done].
  - apply bind_Ok in Hap as (dust & _ & Hap). destruct dust.
    + apply bind_Ok in Hap as (refund & _ & Hap). injection Hap as <- <- <-. right.
      split; [apply lookup_delete_eq|]. cbn. lia.
    + injection Hap as <- <- <-. left. split; [apply lookup_insert_eq|done].
Qed.

(** The entry of the order and its refund after a fill, in any later book that has the
    same entry. *)
Lemma apply_fill_left (b b' b2 : book) (o o' : LimitOrder) (x : Z) (out : FillUpdateOutcome) :
  order_wf self o -> active o = true -> 0 < x <= remaining_amount o ->
  apply_partial_fill b o x = Ok (b', o', out) -> orders b2 !! okey o = orders b' !! okey o ->
  left_of b2 o x /\ dust_refund out = dust_back b2 o x.
Proof.
  intros Hwf Ha Hx Hap E2. destruct (apply_fill_shrunk self b b' o o' x out Hwf Ha Hx Hap) as (_ & Efd & Er & _ & _ & Hd & Href).
  unfold left_of, dust_back. rewrite E2. destruct (apply_fill_kept _ _ _ _ _ _ Hap) as [(-> & Ed & ->)|(-> & Hne & Ed)].
  - split; [|done]. split; [done|]. lia.
  - rewrite Href, Ed. split; [lia|done].
Qed.

Lemma market_order_Ok (s s' : sweep) (t id : Z) (o : LimitOrder) :
  book_ok self (bk (sw_venue s)) -> orders (bk (sw_venue s)) !! (p, t, id) = Some o -> active o = true ->
  0 < sw_remaining s -> market_order i taker p t is_buy s id = Ok s' ->
  (s' = s /\ ~ eligible (bk (sw_venue s)) t id) \/ exists f, fill_made s s' t id f.
Proof.
  intros Hok Ho Ha Hrem Hm. destruct (ok_order self _ (ok_orders self _ Hok) _ _ _ _ Ho) as (Hk & Hwf & Hidx & _).
  unfold market_order in Hm. assert (load_order (bk (sw_venue s)) id = Ok o) as Hload.
  { unfold load_order. rewrite Hidx. cbn. by rewrite Ho. }
  rewrite Hload in Hm. pose proof Hwf as (Hp & Hf & Hmk & Hw). rewrite Ha in Hw. pose proof Hi as [Ec _].
  assert (skipped i o (negb is_buy) = negb (negb (expired i o) && eqb (is_bid_order o) d)) as Hsk.
  { unfold skipped. rewrite Ha. destruct (Z.leb_spec (remaining_amount o) 0); [lia|]. cbn [negb orb]. unfold d.
    unfold is_bid_order. destruct (expired i o), (negb is_buy), (side o); reflexivity. }
  rewrite Hsk in Hm. destruct (negb (expired i o) && eqb (is_bid_order o) d) eqn:Eel; cbn [negb] in Hm.
  2:{ left. injection Hm as <-. split; [done|]. intros (x & Hx & _ & Hex & Hsd). assert (x = o) as -> by congruence.
      rewrite Hex, Hsd, eqb_reflx in Eel. discriminate. }
  apply andb_true_iff in Eel as [Hex%negb_true_iff Hsd%eqb_prop]. right. injection Hk as Ekp Ekt Ekid.
  set (fill := if sw_remaining s <? remaining_amount o then sw_remaining s else remaining_amount o) in *.
  assert (0 < fill <= remaining_amount o /\ fill <= sw_remaining s /\ (fill = remaining_amount o \/ fill = sw_remaining s)) as (Hfill & Hle & Hor).
  { unfold fill. destruct (Z.ltb_spec (sw_remaining s) (remaining_amount o)); lia. }
  apply bind_Ok in Hm as (paid & [Epaid _]%quote_amount_Ok & Hm); [|lia|done].
  apply bind_Ok in Hm as (? & _ & Hm). apply bind_Ok in Hm as (l1 & Hl1 & Hm).
  apply bind_Ok in Hm as ([[b' o'] out] & Hap & Hm). apply bind_Ok in Hm as (l2 & Hl2 & Hm).
  apply bind_Ok in Hm as (td & Htd & Hm). apply bind_Ok in Hm as (fs & [_ ->]%vpush_Ok & Hm).
  apply bind_Ok in Hm as (rem & [-> _]%ok_or_Ok%chk_Some & Hm).
  apply bind_Ok in Hm as (tot & [-> _]%ok_or_Ok%chk_Some & Hm). injection Hm as <-.
  assert (orders (bk (sw_venue s)) !! okey o = Some o) as Hok' by (unfold okey; by rewrite Ekp, Ekt, Ekid).
  destruct (consume_ok self (bk (sw_venue s)) b' o o' fill td out Hok Hok' Ha Hfill Hap Htd) as (Hs & Hok2 & Eo2 & Hliab).
  destruct (apply_fill_shrunk self _ b' o o' fill out Hwf Ha Hfill Hap) as (_ & _ & Er & Hd & _ & Hdust & Href).
  rewrite Ekp, Ekt, Hsd in Hok2, Eo2, Hliab. unfold d in Hok2, Eo2, Hliab.
  pose proof (sh_order _ _ _ _ Hs) as Eo'.
  assert (maker o' = maker o /\ o_id o' = id /\ locked_asset o' = locked_asset o) as (E1 & E2 & E3) by (rewrite Eo'; done).
  pose proof (dust_refund_nonneg o out Hp Hd Href) as Hdr.
  assert (balance_after : forall asset, balance l2 asset self = balance (ledger (sw_venue s)) asset self
    - in_asset (locked_asset o) asset ((if is_bid_order o then fill * price_tick o / PRICE_SCALE else fill) + dust_refund out)).
  { intros asset. rewrite (refund_Ok self i l1 l2 o' out Hi); [|by rewrite E1|done|done]. rewrite E3, in_asset_add.
    unfold settle_fill, locked_asset in *. fold (is_bid_order o) in *. rewrite Hsd in *. unfold d in *.
    destruct is_buy; cbn [negb] in *; apply bind_Ok in Hl1 as (l0 & [_ Hp1]%(pay_Ok self) & [_ Hp2]%(pay_Ok self));
      rewrite Hp2, Hp1, Ec, Ekp; rewrite (decide_True (P := self = self)) by done;
      rewrite !(decide_False (P := taker = self)), !(decide_False (P := maker o = self)) by done;
      rewrite ?Epaid, ?Ekt; lia. }
  exists {| tf_order_id := o_id o'; tf_maker := maker o'; tf_tick := t; tf_filled := fill; tf_paid := paid;
    tick_volume_after := get_tick_volume (remove_tick_liquidity b' p t td (negb is_buy)) p t (negb is_buy) |}.
  constructor; cbn [sw_venue sw_remaining sw_paid sw_fills bk ledger tf_order_id tf_tick tf_filled tf_paid tf_maker].
  - by exists o.
  - exists o. rewrite E1. do 3 (split; [done|]).
    apply (apply_fill_left _ b' _ o o' fill out Hwf Ha Hfill Hap). by rewrite Eo2.
  - done.
  - done.
  - by rewrite Epaid, Ekt.
  - done.
  - done.
  - done.
  - done.
  - intros (y & Hx & Hax & _). rewrite Eo2 in Hx. rewrite <- Ekp, <- Ekt, <- Ekid in Hx. fold (okey o) in Hx.
    destruct (sh_self _ _ _ _ Hs) as [[Es _]|(Es & _)]; [|congruence]. assert (y = o') as -> by congruence.
    pose proof (sh_wf _ _ _ _ Hs) as Hw'. rewrite Hax in Hw'. specialize (Hdust Hax). lia.
  - intros k Hk. rewrite Eo2. apply (sh_other _ _ _ _ Hs). unfold okey. by rewrite Ekp, Ekt, Ekid.
  - intros k y. rewrite Eo2. by apply (shrunk_later _ b' o o').
  - split; [done|]. intros asset. unfold margin. cbn [bk ledger]. rewrite Hliab, balance_after.
    pose proof (released o o' fill out asset Hp (proj1 (sh_rem _ _ _ _ Hs)) ltac:(lia) Hd Eo' Er Href). lia.
Qed.

(** ** One price tick *)
Definition filled_sum (fs : list TickMatchFill) : Z := zsum (map tf_filled fs).
Definition paid_sum (fs : list TickMatchFill) : Z := zsum (map tf_paid fs).

(** A fill comes before an order in price-time priority, or is of that order. *)
Definition fill_before (f : TickMatchFill) (t id : Z) : Prop :=
  better d (tf_tick f) t \/ tf_tick f = t /\ tf_order_id f <= id.

(** The fills of a walk come in strict price-time priority. *)
Definition fills_in_order (fs : list TickMatchFill) : Prop :=
  StronglySorted (fun f g => better d (tf_tick f) (tf_tick g) \/
    tf_tick f = tf_tick g /\ tf_order_id f < tf_order_id g) fs.

(** A walk from [s] to [s'] over the orders [visited] made the fills [fs]. *)
Record walk (s s' : sweep) (visited : Z -> Z -> Prop) (fs : list TickMatchFill) : Prop := {
  wk_fills : sw_fills s' = sw_fills s ++ fs;
  wk_remaining : sw_remaining s' = sw_remaining s - filled_sum fs;
  wk_bound : 0 <= sw_remaining s';
  wk_paid : sw_paid s' = sw_paid s + paid_sum fs;
  wk_order : fills_in_order fs;
  wk_each : Forall (fun f => visited (tf_tick f) (tf_order_id f) /\
    eligible (bk (sw_venue s)) (tf_tick f) (tf_order_id f) /\
    tf_paid f = tf_filled f * tf_tick f / PRICE_SCALE /\
    exists o, orders (bk (sw_venue s)) !! (p, tf_tick f, tf_order_id f) = Some o /\ maker o = tf_maker f /\
      0 < tf_filled f <= remaining_amount o /\ left_of (bk (sw_venue s')) o (tf_filled f)) fs;
  wk_left : forall t id, visited t id -> eligible (bk (sw_venue s')) t id ->
    sw_remaining s' = 0 /\ Forall (fun f => fill_before f t id) fs;
  wk_other : forall k, Forall (fun f => k <> (p, tf_tick f, tf_order_id f)) fs ->
    orders (bk (sw_venue s')) !! k = orders (bk (sw_venue s)) !! k;
  wk_later : later (bk (sw_venue s)) (bk (sw_venue s'));
  wk_step : step_ok self (sw_venue s) (sw_venue s')
}.

Lemma walk_nil (s : sweep) (visited : Z -> Z -> Prop) :
  book_ok self (bk (sw_venue s)) -> 0 <= sw_remaining s ->
  (forall t id, visited t id -> eligible (bk (sw_venue s)) t id -> sw_remaining s = 0) -> walk s s visited [].
Proof.
  intros Hok Hrem Hv. constructor; try done.
  - by rewrite app_nil_r.
  - unfold filled_sum. cbn. lia.
  - unfold paid_sum. cbn. lia.
  - constructor.
  - intros t id Hvis He. split; [by eapply Hv|done].
  - apply later_refl.
Qed.

Lemma wk_unvisited (s s' : sweep) (visited : Z -> Z -> Prop) (fs : list TickMatchFill) (k : AssetPair * Z * Z) :
  walk s s' visited fs -> (forall t id, visited t id -> k <> (p, t, id)) ->
  orders (bk (sw_venue s')) !! k = orders (bk (sw_venue s)) !! k.
Proof.
  intros W Hk. apply (wk_other _ _ _ _ W). eapply Forall_impl; [apply W|]. cbn. intros f (Hf & _). by apply Hk.
Qed.

(** Two walks over disjoint parts, the first before the second. *)
Lemma walk_app (s1 s2 s3 : sweep) (v1 v2 v : Z -> Z -> Prop) (fs1 fs2 : list TickMatchFill) :
  book_ok self (bk (sw_venue s1)) -> walk s1 s2 v1 fs1 -> walk s2 s3 v2 fs2 ->
  (forall t id, v t id <-> v1 t id \/ v2 t id) ->
  (forall t id u n, v1 t id -> v2 u n -> better d t u \/ t = u /\ id < n) ->
  (sw_remaining s2 = 0 -> fs2 = []) ->
  walk s1 s3 v (fs1 ++ fs2).
Proof.
  intros Hok W1 W2 Hv Hsep Hstop. pose proof (ok_order self _ (ok_orders self _ Hok)) as Hkey.
  assert (forall t id, v1 t id -> v2 t id -> False) as Hdisj.
  { intros t id Ha Hb. destruct (Hsep t id t id Ha Hb) as [Hc|[_ Hc]]; [destruct d; cbn in Hc; lia|lia]. }
  assert (forall t id, v2 t id -> orders (bk (sw_venue s2)) !! (p, t, id) = orders (bk (sw_venue s1)) !! (p, t, id)) as Hsame.
  { intros t id Ht. apply (wk_unvisited _ _ _ _ _ W1). intros u n Hu [= -> ->]. by eapply Hdisj. }
  constructor.
  - by rewrite (wk_fills _ _ _ _ W2), (wk_fills _ _ _ _ W1), app_assoc.
  - rewrite (wk_remaining _ _ _ _ W2), (wk_remaining _ _ _ _ W1). unfold filled_sum. rewrite map_app, zsum_app. lia.
  - apply W2.
  - rewrite (wk_paid _ _ _ _ W2), (wk_paid _ _ _ _ W1). unfold paid_sum. rewrite map_app, zsum_app. lia.
  - apply StronglySorted_app. split; [|split; [apply W1|apply W2]]. intros f g Hf Hg.
    pose proof (wk_each _ _ _ _ W1) as E1. pose proof (wk_each _ _ _ _ W2) as E2. rewrite Forall_forall in E1, E2.
    apply Hsep; [by apply E1|by apply E2].
  - apply Forall_app. split.
    + eapply Forall_impl; [apply W1|]. cbn. intros f (Hf & He & Hpd & o & Ho & Hm & Hx & Hl).
      split; [apply Hv; by left|]. do 2 (split; [done|]). exists o. do 3 (split; [done|]).
      destruct (Hkey _ _ _ _ Ho) as [Ek _]. unfold left_of in *. rewrite Ek in *.
      rewrite (wk_unvisited _ _ _ _ _ W2); [done|]. intros u n Hu [= <- <-]. by eapply Hdisj.
    + eapply Forall_impl; [apply W2|]. cbn. intros f (Hf & He & Hpd & o & Ho & ?). rewrite Hsame in Ho by done.
      split; [apply Hv; by right|]. split; [by eapply later_eligible; [apply W1|]|]. split; [done|]. by exists o.
  - intros t id [Ht|Ht]%Hv He.
    + pose proof (later_eligible _ _ _ _ (wk_later _ _ _ _ W2) He) as He2.
      destruct (wk_left _ _ _ _ W1 t id Ht He2) as [Hz Hf]. rewrite (Hstop Hz) in *. rewrite app_nil_r.
      split; [|done]. rewrite (wk_remaining _ _ _ _ W2), Hz. unfold filled_sum. cbn. lia.
    + destruct (wk_left _ _ _ _ W2 t id Ht He) as [Hz Hf]. split; [done|]. apply Forall_app. split; [|done].
      eapply Forall_impl; [apply W1|]. cbn. intros f (Hf1 & _). destruct (Hsep _ _ _ _ Hf1 Ht) as [?|[? ?]]; [by left|].
      right. split; [done|lia].
  - intros k [Hk1 Hk2]%Forall_app. by rewrite (wk_other _ _ _ _ W2), (wk_other _ _ _ _ W1).
  - eapply later_trans; [apply W1|apply W2].
  - eapply step_ok_trans; [apply W1|apply W2].
Qed.

(** One order of the bucket. *)
Lemma walk_one (s s' : sweep) (t id : Z) (o : LimitOrder) :
  book_ok self (bk (sw_venue s)) -> orders (bk (sw_venue s)) !! (p, t, id) = Some o -> active o = true ->
  0 < sw_remaining s -> market_order i taker p t is_buy s id = Ok s' ->
  exists fs, walk s s' (fun u n => u = t /\ n = id) fs.
Proof.
  intros Hok Ho Ha Hrem Hm. destruct (market_order_Ok s s' t id o Hok Ho Ha Hrem Hm) as [[-> Hne]|[f Hf]].
  - exists []. apply walk_nil; [done|lia|]. by intros ? ? [-> ->] ?.
  - exists [f]. destruct Hf. constructor; try done.
    + unfold filled_sum. cbn. lia.
    + lia.
    + unfold paid_sum. cbn. lia.
    + repeat constructor.
    + apply Forall_singleton. rewrite fm_id0, fm_tick0. split_and!; try done.
    + intros u n [-> ->] He. split; [by apply fm_left0|]. apply Forall_singleton. right. lia.
    + intros k Hk. apply fm_other0. rewrite Forall_singleton, fm_id0, fm_tick0 in Hk. done.
Qed.

Lemma walk_bucket (t : Z) (ids : list Z) (s s' : sweep) :
  book_ok self (bk (sw_venue s)) -> 0 <= sw_remaining s -> StronglySorted Z.lt ids ->
  Forall (fun id => exists o, orders (bk (sw_venue s)) !! (p, t, id) = Some o /\ active o = true) ids ->
  market_bucket i taker p t is_buy s ids = Ok s' ->
  exists fs, walk s s' (fun u n => u = t /\ n ∈ ids) fs /\ (sw_remaining s = 0 -> fs = []).
Proof.
  revert s. induction ids as [|id ids IH]; intros s Hok Hrem Hsort Hall Hm; cbn [market_bucket] in Hm.
  { injection Hm as <-. exists []. split; [|done]. apply walk_nil; [done|done|]. by intros ? ? [_ ?%elem_of_nil]. }
  destruct (Z.eqb_spec (sw_remaining s) 0) as [Ez|Hnz].
  { injection Hm as <-. exists []. split; [|done]. by apply walk_nil. }
  apply bind_Ok in Hm as (s1 & H1 & Hm). apply Forall_cons in Hall as [(o & Ho & Ha) Hall].
  apply StronglySorted_cons in Hsort as [Hlt Hsort].
  destruct (walk_one s s1 t id o Hok Ho Ha ltac:(lia) H1) as [fs1 W1].
  destruct (IH s1) as (fs2 & W2 & Hz); [apply W1|apply W1|done| |done|].
  - rewrite Forall_forall in *. intros n Hn. destruct (Hall n Hn) as (x & Hx & Hax). exists x. split; [|done].
    rewrite (wk_unvisited _ _ _ _ _ W1); [done|]. intros u m [-> ->] [= ->]. specialize (Hlt id Hn). lia.
  - exists (fs1 ++ fs2). split; [|by intros ?]. eapply walk_app; [exact Hok|exact W1|exact W2| | |exact Hz].
    + intros u n. rewrite elem_of_cons. naive_solver.
    + intros u n u' n' [-> ->] [-> Hn']. right. split; [done|]. rewrite Forall_forall in Hlt. by apply Hlt.
Qed.

(** ** The whole walk *)
Lemma walk_ticks (ticks : list Z) (s s' : sweep) :
  book_ok self (bk (sw_venue s)) -> 0 <= sw_remaining s -> StronglySorted (better d) ticks ->
  market_ticks i taker p is_buy s ticks = Ok s' ->
  exists fs, walk s s' (fun t id => t ∈ ticks /\ id ∈ get_orders_at_tick (bk (sw_venue s)) p t) fs /\
    (sw_remaining s = 0 -> fs = []).
Proof.
  revert s. induction ticks as [|t ticks IH]; intros s Hok Hrem Hsort Hm; cbn [market_ticks] in Hm.
  { injection Hm as <-. exists []. split; [|done]. apply walk_nil; [done|done|]. by intros ? ? [?%elem_of_nil _]. }
  destruct (Z.eqb_spec (sw_remaining s) 0) as [Ez|Hnz].
  { injection Hm as <-. exists []. split; [|done]. by apply walk_nil. }
  apply bind_Ok in Hm as (s1 & H1 & Hm). apply StronglySorted_cons in Hsort as [Hlt Hsort].
  pose proof (ok_orders self _ Hok) as Ho.
  destruct (walk_bucket t (get_orders_at_tick (bk (sw_venue s)) p t) s s1 Hok Hrem) as (fs1 & W1 & _);
    [apply (ok_fifo self _ Ho)| |done|].
  { apply Forall_forall. intros id Hid. by apply (ok_bucket self _ Ho). }
  destruct (IH s1) as (fs2 & W2 & Hz); [apply W1|apply W1|done|done|].
  exists (fs1 ++ fs2). split; [|by intros ?].
  assert (forall u n, u ∈ ticks -> n ∈ get_orders_at_tick (bk (sw_venue s1)) p u <->
            n ∈ get_orders_at_tick (bk (sw_venue s)) p u) as Hbk.
  { intros u n Hu. pose proof (ok_orders self _ (proj1 (wk_step _ _ _ _ W1))) as Ho1.
    rewrite (ok_bucket self _ Ho1), (ok_bucket self _ Ho). rewrite (wk_unvisited _ _ _ _ _ W1); [done|].
    intros w m [-> _] [= -> _]. rewrite Forall_forall in Hlt. specialize (Hlt t Hu). destruct d; cbn in Hlt; lia. }
  eapply walk_app; [exact Hok|exact W1|exact W2| | |exact Hz].
  - intros u n. rewrite elem_of_cons. cbn. split.
    + intros [[->|Hu] Hn]; [by left|]. right. split; [done|]. by apply Hbk.
    + intros [[-> Hn]|[Hu Hn]]; [tauto|]. split; [by right|]. by apply Hbk.
  - intros u n u' n' [-> _] [Hu' _]. left. rewrite Forall_forall in Hlt. by apply Hlt.
Qed.
End market.
