(* ===== verification/BookHistory.v ===== *)
(** * Limit order book: histories of calls

    The calls of the order book as data, the states a history of calls reaches, and
    the invariants of those states by induction on the history. A call that fails
    changes nothing. *)

From stdpp Require Import base numbers list gmap sorting.
From Stdlib Require Import ZArith Lia.
From S2P Require Import Prelude Host Token RootErrors BookData BookTicks BookSort BookInv BookOps BookSteps BookMargin BookMarket.

Open Scope Z_scope.

Section history.
Context {H : Host} {T : Tokens H}.

(** One constructor per entry point that writes. *)
Inductive call :=
  | Place (mk : Address) (p : AssetPair) (tick amount expry : Z)
  | PlaceBuy (mk : Address) (p : AssetPair) (tick amount : Z)
  | Fill (filler : Address) (id amount : Z)
  | Match_ (sid bid amount : Z)
  | Cancel (mk : Address) (id : Z)
  | CancelBatch (mk : Address) (ids : list Z)
  | Withdraw (own asset : Address) (amount : Z)
  | Purge (ids : list Z)
  | Market (taker : Address) (p : AssetPair) (amount : Z) (is_buy : bool).

Definition run_call (i : invocation) (v : venue) (c : call) : R venue :=
  match c with
  | Place mk p tick amount expry => r ← place_order_with_expiry i v mk p tick amount expry; mret r.1
  | PlaceBuy mk p tick amount => r ← place_buy_order i v mk p tick amount; mret r.1
  | Fill filler id amount => r ← fill_order i v filler id amount; mret r.1
  | Match_ sid bid amount => r ← match_orders i v sid bid amount; mret r.1
  | Cancel mk id => r ← cancel_order i v mk id; mret r.1
  | CancelBatch mk ids => r ← cancel_orders_batch i v mk ids; mret r.1
  | Withdraw own asset amount => r ← withdraw_balance i v own asset amount; mret r.1
  | Purge ids => r ← purge_closed_orders (bk v) ids; mret (with_bk v r.1)
  | Market taker p amount is_buy => r ← match_market_order i v taker p amount is_buy; mret r.1
  end.

(** The call does not fill a buy order with [fill_order]. *)
Definition fills_no_buy (v : venue) (c : call) : bool :=
  match c with
  | Fill _ id _ => match load_order (bk v) id with Ok o => negb (is_bid_order o) | _ => true end
  | _ => true
  end.

Variable self : Address.

(** The states of the contract deployed at [self]: the guarded histories contain no
    [fill_order] on a buy order. *)
Inductive reaches (guarded : bool) : venue -> Prop :=
  | reaches_new l : (forall a, 0 <= balance l a self) -> reaches guarded {| bk := empty_book; ledger := l |}
  | reaches_call v i c v' : reaches guarded v -> honest self i -> (guarded = true -> fills_no_buy v c = true) ->
      run_call i v c = Ok v' -> reaches guarded v'.

Lemma empty_book_ok : book_ok self empty_book.
Proof.
  constructor; [constructor| |]; try done.
  - intros p t id. cbn. split; [by intros ?%elem_of_nil|by intros (? & ? & _)].
  - intros p t. constructor.
  - split; [done|]. intros p d. split; [constructor|]. intros t. split; [by intros ?%elem_of_nil|]. intros E. by apply Z.lt_irrefl in E.
Qed.

Context {TL : TokenLaws H T}.

(** The book after a market order, with the walk it made. *)
Lemma match_market_Ok (i : invocation) (v v' : venue) (taker : Address) (p : AssetPair) (amount : Z)
    (is_buy : bool) (r : TickMatchResult) :
  honest self i -> book_ok self (bk v) -> match_market_order i v taker p amount is_buy = Ok (v', r) ->
  0 < amount /\ auth i taker = true /\ exists s fs,
    walk self i p is_buy {| sw_venue := v; sw_remaining := amount; sw_paid := 0; sw_fills := [] |} s
      (fun t id => t ∈ get_ticks (bk v) p (negb is_buy) /\ id ∈ get_orders_at_tick (bk v) p t) fs /\
    v' = sw_venue s /\ tm_fills r = fs /\ fs <> [] /\ tm_filled r = amount - sw_remaining s /\
    tm_total_paid r = sw_paid s /\ fully_filled r = (sw_remaining s =? 0).
Proof.
  intros Hi Hok Hm. unfold match_market_order in Hm.
  apply bind_Ok in Hm as (? & Ha%fail_if_Ok%Z.leb_gt & Hm). apply bind_Ok in Hm as (? & Hau%require_auth_Ok & Hm).
  pose proof (auth_not_self self i taker Hi Hau) as Ht. apply bind_Ok in Hm as (s & Hw & Hm).
  apply bind_Ok in Hm as (? & Hne%fail_if_Ok%bool_decide_eq_false & Hm).
  apply bind_Ok in Hm as (f & [-> _]%ok_or_Ok%chk_Some & Hm). injection Hm as <- <-.
  split; [done|]. split; [done|].
  eapply walk_ticks in Hw as (fs & W & _); [|exact Hi|exact Ht|exact Hok|cbn; lia|apply (ok_ticks self _ Hok)].
  exists s, fs. cbn [sw_venue sw_fills] in *. split; [exact W|].
  pose proof (wk_fills _ _ _ _ _ _ _ _ W) as E. cbn in E. rewrite <- E. done.
Qed.

(** Every call keeps the invariant, and the guarded ones the margin. *)
Lemma run_call_ok (i : invocation) (v v' : venue) (c : call) :
  honest self i -> book_ok self (bk v) -> run_call i v c = Ok v' ->
  book_ok self (bk v') /\ (fills_no_buy v c = true -> step_ok self v v').
Proof.
  intros Hi Hok Hr.
  assert (step_ok self v v' -> book_ok self (bk v') /\ (fills_no_buy v c = true -> step_ok self v v')) as Hstep.
  { intros Hs. split; [apply Hs|done]. }
  destruct c; cbn [run_call] in Hr; apply bind_Ok in Hr as ([x y] & Hx & Hr); injection Hr as <-; cbn [fst] in *.
  - apply Hstep. by eapply place_order_ok in Hx as (? & _).
  - apply Hstep. by eapply place_buy_order_ok in Hx as (? & _).
  - pose proof (fill_order_Ok self i v x filler id amount y Hi Hok Hx)
      as (o & _ & _ & _ & Hl & _ & _ & _ & _ & _ & _ & _ & _ & _ & Hok' & _).
    split; [done|]. intros Hb. cbn in Hb. rewrite Hl in Hb. apply negb_true_iff, bool_decide_eq_false in Hb.
    eapply fill_sell_ok; [exact Hi|exact Hok|exact Hl| |exact Hx]. by destruct (side o).
  - apply Hstep. by eapply match_orders_ok.
  - apply Hstep. unfold cancel_order in Hx. apply bind_Ok in Hx as (? & Hau%require_auth_Ok & Hx).
    apply (cancel_inner_Ok self) in Hx as (? & _ & _ & _ & _ & _ & _ & _ & ?); [done|done| |done].
    by eapply auth_not_self.
  - apply Hstep. unfold cancel_orders_batch in Hx. apply bind_Ok in Hx as (? & Hau%require_auth_Ok & Hx).
    eapply cancel_loop_ok; [exact Hi| |exact Hok|exact Hx]. by eapply auth_not_self.
  - apply Hstep. by eapply withdraw_ok in Hx as (? & _).
  - apply Hstep. unfold purge_closed_orders in Hx. apply (purge_loop_ok self) in Hx as [Hok' Hl]; [|done].
    split; [done|]. intros a. unfold margin. cbn [with_bk bk ledger]. rewrite Hl. lia.
  - apply Hstep. apply match_market_Ok in Hx as (_ & _ & s & fs & W & -> & _); [|done..]. apply W.
Qed.

Lemma reaches_ok (g : bool) (v : venue) : reaches g v -> book_ok self (bk v).
Proof.
  induction 1 as [l _|v i c v' _ IH Hi _ Hr]; [apply empty_book_ok|]. exact (proj1 (run_call_ok i v v' c Hi IH Hr)).
Qed.

Lemma reaches_margin (v : venue) (asset : Address) : reaches true v -> 0 <= margin self v asset.
Proof.
  induction 1 as [l Hl|v i c v' Hv IH Hi Hg Hr].
  - unfold margin, liabilities, owed. cbn. rewrite !msum_empty. specialize (Hl asset). lia.
  - destruct (run_call_ok i v v' c Hi (reaches_ok _ _ Hv) Hr) as [_ Hs]. destruct (Hs (Hg eq_refl)) as [_ Hm].
    specialize (Hm asset). lia.
Qed.

(** ** Consequences of the invariant *)
Lemma locked_nonneg (b : book) (k : AssetPair * Z * Z) (o : LimitOrder) (asset : Address) :
  book_ok self b -> orders b !! k = Some o -> 0 <= locked asset o.
Proof.
  intros Hok Ho. destruct k as [[p t] id]. pose proof (order_remaining_nonneg self b p t id o (ok_orders self _ Hok) Ho) as Hr.
  destruct (ok_order self _ (ok_orders self _ Hok) _ _ _ _ Ho) as (_ & (Hp & _) & _).
  unfold locked, in_asset. destruct (is_bid_order o), (decide _); try done. apply Z.div_pos; [nia|done].
Qed.

Lemma book_locked_le (b : book) (o : LimitOrder) (asset : Address) :
  book_ok self b -> orders b !! okey o = Some o -> locked asset o <= msum (fun _ => locked asset) (orders b).
Proof.
  intros Hok Ho. pose proof (msum_term_le (fun _ => locked asset) (orders b) (okey o)) as Ht.
  unfold term in Ht. rewrite Ho in Ht. apply Ht. intros k x Hx. by eapply locked_nonneg.
Qed.

Lemma owed_nonneg (b : book) (asset : Address) : book_ok self b -> 0 <= owed b asset.
Proof.
  intros Hok. apply msum_nonneg. intros k x Hx. pose proof (ok_balances self _ (ok_orders self _ Hok) _ _ Hx).
  unfold in_asset. destruct (decide _); lia.
Qed.


(** The tick of an order that can be filled is listed on its side. *)
Lemma active_tick_listed (b : book) (p : AssetPair) (t id : Z) (o : LimitOrder) :
  book_ok self b -> orders b !! (p, t, id) = Some o -> active o = true ->
  t ∈ get_ticks b p (is_bid_order o) /\ id ∈ get_orders_at_tick b p t.
Proof.
  intros Hok Ho Ha. pose proof (ok_orders self b Hok) as Hoo.
  split; [|apply (ok_bucket self b Hoo); by exists o].
  destruct (ok_ticks self b Hok) as [_ Hl]. apply (Hl p (is_bid_order o)).
  destruct (ok_order self b Hoo _ _ _ _ Ho) as (Hk & (_ & _ & _ & Hw) & _). rewrite Ha in Hw.
  pose proof (ok_cover self b Hok p t (is_bid_order o)) as Hc.
  pose proof (msum_term_le (rests_at p t (is_bid_order o)) (orders b) (p, t, id)) as Ht.
  unfold term in Ht. rewrite Ho in Ht. unfold rests_at at 2 in Ht. cbn [fst snd] in Ht. rewrite decide_True in Ht by done.
  unfold resting in Hc. enough (remaining_amount o <= msum (rests_at p t (is_bid_order o)) (orders b)) by lia.
  apply Ht. intros k x Hx. by eapply rests_at_nonneg.
Qed.

Lemma sorted_head (d : bool) (l : list Z) (t : Z) :
  StronglySorted (better d) l -> t ∈ l -> exists x, head l = Some x /\ prio d x t.
Proof.
  intros Hs Ht. destruct l as [|x l]; [by apply elem_of_nil in Ht|]. exists x. split; [done|].
  apply StronglySorted_cons in Hs as [Hx _]. apply elem_of_cons in Ht as [->|Ht].
  - destruct d; apply Z.le_refl.
  - rewrite Forall_forall in Hx. by apply better_prio, Hx.
Qed.
End history.
