(* ===== verification/BookTheorems.v ===== *)
(** * Limit order book: the properties

    What holds after every history of calls, what a market order, a settlement and a
    cancellation do exactly, and the two ways the book loses track of what it
    holds: [fill_order] on a buy order and the ticks of settled orders. *)

From stdpp Require Import base numbers list gmap sorting.
From Stdlib Require Import ZArith Lia.
From S2P Require Import Prelude Host Token RootErrors BookData BookTicks BookSort BookInv BookOps BookSteps BookMargin BookMarket BookHistory.

Open Scope Z_scope.

(** ** A concrete venue for the witnesses: the contract is account 1, the base token
    100, the quote token 200; accounts 2 to 5 are traders and 9 is the treasury. *)
Section sample.
#[local] Existing Instance test_host.
Definition tks : Tokens test_host := map_tokens test_host.
#[local] Existing Instance tks.

Lemma tks_laws : TokenLaws test_host tks.
Proof. exact (map_token_laws test_host). Qed.

Definition deal : @AssetPair test_host := @Build_AssetPair test_host 100 200.

Definition by_ (who : Z) : @invocation test_host :=
  @Build_invocation test_host (fun a => Z.eqb a who) 1 10 (Some 9).

Definition sample_ledger : @Ledger test_host tks :=
  list_to_map [((100, 2), 1000000); ((100, 4), 1000000); ((200, 3), 50000000); ((200, 5), 50000000)].

Definition sample_venue : @venue test_host tks := {| bk := empty_book; ledger := sample_ledger |}.

Fixpoint run_calls (v : @venue test_host tks) (cs : list (Z * @call test_host)) : R (@venue test_host tks) :=
  match cs with
  | [] => mret v
  | (who, c) :: cs => v' ← run_call (by_ who) v c; run_calls v' cs
  end.

Definition venue_of (r : R (@venue test_host tks)) : @venue test_host tks :=
  match r with Ok v => v | _ => sample_venue end.

(** Every caller is a user, and no buy order is filled by [fill_order]. *)
Fixpoint all_guarded (v : @venue test_host tks) (cs : list (Z * @call test_host)) : bool :=
  match cs with
  | [] => true
  | (who, c) :: cs => fills_no_buy v c && all_guarded (venue_of (run_call (by_ who) v c)) cs
  end.

Lemma by_honest (who : Z) : Z.eqb 1 who = false -> @honest test_host 1 (by_ who).
Proof. done. Qed.

Lemma run_calls_reach (g : bool) (cs : list (Z * @call test_host)) (v : @venue test_host tks) :
  @reaches test_host tks 1 g v -> forallb (fun x => negb (Z.eqb 1 x.1)) cs = true ->
  (g = true -> all_guarded v cs = true) -> is_ok (run_calls v cs) = true ->
  @reaches test_host tks 1 g (venue_of (run_calls v cs)).
Proof.
  revert v. induction cs as [|[who c] cs IH]; intros v Hv Hu Hg Hr; [done|].
  cbn [forallb fst] in Hu. apply andb_true_iff in Hu as [Hw Hu]. apply negb_true_iff in Hw.
  cbn [run_calls] in *. destruct (run_call (by_ who) v c) as [v'|e|] eqn:E; [|done|done].
  rewrite bind_ret in *. apply IH; [|done| |done].
  - eapply reaches_call; [exact Hv|exact (by_honest who Hw)| |exact E].
    intros Hg'. specialize (Hg Hg'). cbn [all_guarded] in Hg. by apply andb_true_iff in Hg as [? _].
  - intros Hg'. specialize (Hg Hg'). cbn [all_guarded] in Hg. apply andb_true_iff in Hg as [_ Hg].
    by rewrite E in Hg.
Qed.

Lemma sample_reach (g : bool) : @reaches test_host tks 1 g sample_venue.
Proof.
  constructor. intros a. cbn. unfold map_balance, sample_ledger. cbn [list_to_map foldr fst snd uncurry].
  repeat (rewrite lookup_insert_ne by (intros [=])). done.
Qed.

(** Two asks, a bid, a market buy, a cancellation. *)
Definition sample_calls : list (Z * @call test_host) :=
  [(2, Place 2 deal 20000000 1000 0); (4, Place 4 deal 10000000 500 0); (4, Place 4 deal 10000000 700 0);
   (3, PlaceBuy 3 deal 5000000 400); (5, Market 5 deal 900 true); (3, Cancel 3 3)].

Definition traded : @venue test_host tks := venue_of (run_calls sample_venue sample_calls).

Lemma traded_reach (g : bool) : @reaches test_host tks 1 g traded.
Proof.
  apply run_calls_reach; [apply sample_reach|vm_compute; reflexivity| |vm_compute; reflexivity].
  intros _. vm_compute. reflexivity.
Qed.
End sample.

Section claims.
Context {H : Host} {T : Tokens H} {TL : TokenLaws H T}.
Variable self : Address.

(** After every history of calls (failed calls change nothing), each side of every
    pair has its active ticks strictly sorted by price priority and holds exactly the
    ticks with a positive volume; the volume of a tick is at least what its orders have
    left; and the first tick listed is at least as good as that of every open order. *)
Theorem book_ticks_sorted (g : bool) (v : venue) (p : AssetPair) (d : bool) :
  reaches self g v ->
  StronglySorted (better d) (get_ticks (bk v) p d) /\
  (forall t, t ∈ get_ticks (bk v) p d <-> 0 < get_tick_volume (bk v) p t d) /\
  (forall t, 0 <= resting (bk v) p t d <= get_tick_volume (bk v) p t d) /\
  (forall t id o, orders (bk v) !! (p, t, id) = Some o -> active o = true -> is_bid_order o = d ->
     exists best, head (get_ticks (bk v) p d) = Some best /\ prio d best t).
Proof.
  intros Hv. pose proof (reaches_ok self g v Hv) as Hok. destruct (ok_ticks self _ Hok) as [_ Hl].
  split; [apply Hl|]. split; [apply Hl|]. split.
  - intros t. split; [|apply (ok_cover self _ Hok)]. apply msum_nonneg. intros k o Ho.
    by eapply rests_at_nonneg; [apply Hok|].
  - intros t id o Ho Ha Hd. destruct (active_tick_listed self _ p t id o Hok Ho Ha) as [Ht _].
    rewrite Hd in Ht. apply sorted_head; [apply Hl|done].
Qed.

(** C39: After every history of calls, the bucket of a price tick lists exactly the open
    orders of that pair and price, oldest first; every stored order is found by
    [load_order] under its own identifier, which is below the next one; an open order
    has something left, and what is left and what was filled add up to the original
    amount; a closed one has nothing left. *)
Theorem book_orders_fifo (g : bool) (v : venue) :
  reaches self g v ->
  (forall p t id, id ∈ get_orders_at_tick (bk v) p t <->
     exists o, orders (bk v) !! (p, t, id) = Some o /\ active o = true) /\
  (forall p t, StronglySorted Z.lt (get_orders_at_tick (bk v) p t)) /\
  (forall p t id o, orders (bk v) !! (p, t, id) = Some o ->
     load_order (bk v) id = Ok o /\ o_id o = id /\ o_pair o = p /\ price_tick o = t /\ 0 < t /\
     id < default 0 (next_id (bk v)) /\ 0 <= filled_amount o /\ maker o <> self /\
     if active o then 0 < remaining_amount o /\ remaining_amount o + filled_amount o = original_amount o
     else remaining_amount o = 0).
Proof.
  intros Hv. pose proof (ok_orders self _ (reaches_ok self g v Hv)) as Ho.
  split; [apply (ok_bucket self _ Ho)|]. split; [apply (ok_fifo self _ Ho)|]. intros p t id o Hx.
  destruct (ok_order self _ Ho _ _ _ _ Hx) as (Hk & (Hp & Hf & Hm & Hw) & Hi & Hn). injection Hk as <- <- <-.
  split; [|split_and!; done]. unfold load_order. rewrite Hi. cbn. by rewrite Hx.
Qed.

(** After every history in which no buy order was filled through [fill_order] (calls
    signed by users, never by the contract itself), the contract holds of every asset
    at least what it owes: the escrow of all open orders, at the price of each, and
    the internal balances of all users. *)
Theorem book_solvent (v : venue) (asset : Address) :
  reaches self true v ->
  msum (fun _ o => if is_bid_order o
          then in_asset (pr_buy (o_pair o)) asset (remaining_amount o * price_tick o / PRICE_SCALE)
          else in_asset (pr_sell (o_pair o)) asset (remaining_amount o)) (orders (bk v))
    + msum (fun k x => in_asset k.2 asset x) (balances (bk v))
    <= balance (ledger v) asset self.
Proof.
  intros Hv. pose proof (reaches_margin self v asset Hv) as Hm. unfold margin, liabilities, owed, locked in Hm. lia.
Qed.

(** [fill_order] on a buy order pays the wrong asset: whoever fills [fill] of it
    receives [fill] of the base asset out of the escrow of others, and pays the quote
    to the maker of the buy order, whose escrow stays in the contract. What the
    contract holds of the base asset beyond its debts falls by exactly [fill]. *)
Theorem buy_fill_drains_escrow (g : bool) (i : invocation) (v v' : venue) (filler : Address) (id fill : Z)
    (r : FillResult) (o : LimitOrder) :
  reaches self g v -> honest self i -> load_order (bk v) id = Ok o -> side o = Buy ->
  pr_sell (o_pair o) <> pr_buy (o_pair o) -> fill_order i v filler id fill = Ok (v', r) ->
  liabilities (bk v') (pr_sell (o_pair o)) = liabilities (bk v) (pr_sell (o_pair o)) /\
  balance (ledger v') (pr_sell (o_pair o)) self = balance (ledger v) (pr_sell (o_pair o)) self - fill /\
  margin self v' (pr_sell (o_pair o)) = margin self v (pr_sell (o_pair o)) - fill.
Proof.
  intros Hv Hi Hl Hb Hne Hf.
  destruct (fill_order_Ok self i v v' filler id fill r Hi (reaches_ok self g v Hv) Hf)
    as (o1 & b' & o' & out & Hl1 & _ & _ & _ & _ & _ & _ & _ & Hs & _ & _ & Hliab & Hbal & _).
  assert (o1 = o) as -> by congruence.
  assert (is_bid_order o = true /\ locked_asset o = pr_buy (o_pair o)) as [Eb El].
  { unfold is_bid_order, locked_asset. by rewrite Hb. }
  assert (locked (pr_sell (o_pair o)) o = 0 /\ locked (pr_sell (o_pair o)) o' = 0) as [E1 E2].
  { rewrite (sh_order _ _ _ _ Hs), locked_with. unfold locked, in_asset. rewrite Eb.
    by rewrite !decide_False by congruence. }
  specialize (Hliab (pr_sell (o_pair o))). specialize (Hbal (pr_sell (o_pair o))). rewrite El in Hbal.
  unfold in_asset in Hbal. rewrite decide_True, decide_False in Hbal by congruence.
  unfold margin. split_and!; lia.
Qed.

(** C2: A market order that returned filled [tm_filled] in all, no more than was asked,
    for [tm_total_paid] in all. Its fills come in price-time priority: better prices
    first, and at one price the older order first. Each is of an order that was open,
    not expired and on the other side, for at most what it had left, at its own price
    rounded down, and is recorded in the order. An order of the pair that could have
    been filled and still can is one the amount did not reach: everything was filled,
    and every fill comes before it. *)
Theorem market_order_exact (g : bool) (i : invocation) (v v' : venue) (taker : Address) (p : AssetPair)
    (amount : Z) (is_buy : bool) (r : TickMatchResult) :
  reaches self g v -> honest self i -> match_market_order i v taker p amount is_buy = Ok (v', r) ->
  auth i taker = true /\ 0 < tm_filled r <= amount /\
  tm_filled r = zsum (map tf_filled (tm_fills r)) /\ tm_total_paid r = zsum (map tf_paid (tm_fills r)) /\
  fully_filled r = (tm_filled r =? amount) /\
  StronglySorted (fun f h => better (negb is_buy) (tf_tick f) (tf_tick h) \/
    tf_tick f = tf_tick h /\ tf_order_id f < tf_order_id h) (tm_fills r) /\
  Forall (fun f => exists o, orders (bk v) !! (p, tf_tick f, tf_order_id f) = Some o /\ active o = true /\
    expired i o = false /\ is_bid_order o = negb is_buy /\ maker o = tf_maker f /\
    0 < tf_filled f <= remaining_amount o /\ tf_paid f = tf_filled f * tf_tick f / PRICE_SCALE /\
    left_of (bk v') o (tf_filled f)) (tm_fills r) /\
  (forall k, Forall (fun f => k <> (p, tf_tick f, tf_order_id f)) (tm_fills r) ->
     orders (bk v') !! k = orders (bk v) !! k) /\
  (forall t id o, orders (bk v') !! (p, t, id) = Some o -> active o = true -> expired i o = false ->
     is_bid_order o = negb is_buy -> fully_filled r = true /\
     Forall (fun f => better (negb is_buy) (tf_tick f) t \/ tf_tick f = t /\ tf_order_id f <= id) (tm_fills r)).
Proof.
  intros Hv Hi Hm. pose proof (reaches_ok self g v Hv) as Hok.
  destruct (match_market_Ok self i v v' taker p amount is_buy r Hi Hok Hm)
    as (Ha & Hau & s & fs & W & -> & -> & Hne & Ef & Ep & Eff).
  destruct W as [_ Er Hb Epd Hsort Heach Hleft Hother Hlater _]. cbn [sw_venue sw_remaining sw_paid bk] in *.
  assert (0 < filled_sum fs) as Hpos.
  { destruct fs as [|f fs]; [done|]. apply Forall_cons in Heach as [(_ & _ & _ & o & _ & _ & ? & _) Hrest].
    unfold filled_sum. cbn [map zsum foldr]. fold (zsum (map tf_filled fs)).
    enough (0 <= zsum (map tf_filled fs)) by lia. clear -Hrest. induction Hrest as [|h l Hh _ IH]; [done|].
    destruct Hh as (_ & _ & _ & oh & _ & _ & ? & _). cbn. fold (zsum (map tf_filled l)). lia. }
  unfold filled_sum, paid_sum in *. split; [done|]. split; [lia|]. split; [lia|]. split; [lia|].
  split; [rewrite Eff; destruct (Z.eqb_spec (sw_remaining s) 0); destruct (Z.eqb_spec (tm_filled r) amount); lia|].
  split; [exact Hsort|]. split; [|split; [exact Hother|]].
  - eapply Forall_impl; [exact Heach|]. cbn. intros f (_ & (o & Ho & Hact & Hex & Hsd) & Hpd & o' & Ho' & Hmk & Hx & Hl).
    assert (o' = o) as -> by congruence. by exists o.
  - intros t id o Ho Hact Hex Hsd.
    assert (eligible i p is_buy (bk (sw_venue s)) t id) as He by by exists o.
    pose proof (later_eligible i p is_buy _ _ _ _ Hlater He) as (x & Hx & Hax & _ & Hsx).
    destruct (active_tick_listed self _ p t id x Hok Hx Hax) as [Ht Hin]. rewrite Hsx in Ht.
    destruct (Hleft t id (conj Ht Hin) He) as [Hz Hf]. rewrite Eff, Hz. done.
Qed.

(** A settlement that returned was of an open sell and an open buy order of one pair
    that cross; it moves no token: both orders are filled by the same amount, and the
    internal balances change by exactly the quote at the seller's price and the base
    amount, each less its fee, the price improvement to the buyer, a dust remainder
    back to its maker, and the two fees to the treasury when one is configured. *)
Theorem settlement_exact (g : bool) (i : invocation) (v v' : venue) (sid bid fill : Z) (r : SettlementResult) :
  reaches self g v -> match_orders i v sid bid fill = Ok (v', r) ->
  exists so bo, load_order (bk v) sid = Ok so /\ load_order (bk v) bid = Ok bo /\
    active so = true /\ active bo = true /\ side so = Sell /\ side bo = Buy /\ o_pair so = o_pair bo /\
    price_tick so <= price_tick bo /\ 0 < fill <= remaining_amount so /\ fill <= remaining_amount bo /\
    sr_quote r = fill * price_tick so / PRICE_SCALE /\
    quote_fee_amount r = sr_quote r * PROTOCOL_FEE_BPS / BPS_SCALE /\
    base_fee_amount r = fill * PROTOCOL_FEE_BPS / BPS_SCALE /\
    ledger v' = ledger v /\ left_of (bk v') so fill /\ left_of (bk v') bo fill /\
    (forall k, k <> okey so -> k <> okey bo -> orders (bk v') !! k = orders (bk v) !! k) /\
    let base := pr_sell (o_pair so) in let quote := pr_buy (o_pair so) in
    forall asset a, get_balance (bk v') a asset = get_balance (bk v) a asset
      + at_account quote (maker so) asset a (sr_quote r - quote_fee_amount r)
      + at_account base (maker bo) asset a (fill - base_fee_amount r)
      + at_account quote (maker bo) asset a (fill * price_tick bo / PRICE_SCALE - sr_quote r)
      + at_account base (maker so) asset a (dust_back (bk v') so fill)
      + at_account quote (maker bo) asset a (dust_back (bk v') bo fill)
      + match treasury i with
        | Some t => at_account quote t asset a (quote_fee_amount r) + at_account base t asset a (base_fee_amount r)
        | None => 0
        end.
Proof.
  intros Hv Hm. destruct (match_orders_Ok self i v v' sid bid fill r (reaches_ok self g v Hv) Hm)
    as (so & bo & b1 & b2 & so' & bo' & sout & bout & Hls & Hlb & Hws & Hwb & Has & Hab & Hss & Hsb & Hpair & Hx & Hpos
    & Hrs & Hrb & Hap1 & Hap2 & Hs1 & Hs2 & Hos & _ & Hob1 & Hne & El & Eo & _ & _ & Eq & Eqf & Ebf & Esn & Ebn & Hbal & _).
  destruct (apply_fill_left self (bk v) b1 (bk v') so so' fill sout Hws Has ltac:(lia) Hap1) as [L1 D1].
  { rewrite Eo. apply (sh_other _ _ _ _ Hs2). done. }
  destruct (apply_fill_left self b1 b2 (bk v') bo bo' fill bout Hwb Hab ltac:(lia) Hap2) as [L2 D2]; [by rewrite Eo|].
  exists so, bo. split_and!; try done.
  - intros k Hk1 Hk2. rewrite Eo, (sh_other _ _ _ _ Hs2), (sh_other _ _ _ _ Hs1); done.
  - intros base quote asset a. by rewrite Hbal, Esn, Ebn, D1, D2.
Qed.


(** An open order in the list makes [purge_closed_orders] trap: its second lookup reads
    the index entry, a pair, as an order. *)
Theorem purge_open_order_traps (g : bool) (v : venue) (id : Z) (ids : list Z) (o : LimitOrder) :
  reaches self g v -> load_order (bk v) id = Ok o -> active o = true ->
  purge_closed_orders (bk v) (id :: ids) = Panic.
Proof.
  intros Hv Hl Ha. pose proof (ok_orders self _ (reaches_ok self g v Hv)) as Hok.
  destruct (load_order_Ok self (bk v) id o Hok Hl) as (Ho & Eid & _ & _ & _ & Hw). rewrite Ha in Hw.
  destruct (ok_order self _ Hok _ _ _ _ Ho) as (_ & _ & Hi & _). unfold purge_closed_orders. cbn [purge_loop].
  unfold purge_one. rewrite <- Eid, Hi. cbn [fst snd]. unfold okey in Ho. rewrite Ho, Ha.
  destruct (Z.eqb_spec (remaining_amount o) 0); [lia|]. cbn [negb orb]. rewrite bool_decide_eq_true_2; [done|].
  by rewrite Hi.
Qed.

(** The active ticks and volumes, which only [add_tick_liquidity] and
    [remove_tick_liquidity] write. *)
Definition ticks_of (b : book) : gmap (AssetPair * bool) (list Z) * gmap (AssetPair * Z * bool) Z :=
  (active_ticks b, tick_volumes b).

Lemma credit_ticks (b b' : book) (own asset : Address) (amt : Z) :
  credit_balance b own asset amt = Ok b' -> ticks_of b' = ticks_of b.
Proof.
  unfold credit_balance. destruct (amt =? 0); [by intros [= <-]|]. intros Hc.
  apply bind_Ok in Hc as (? & _ & Hc). by injection Hc as <-.
Qed.

Lemma credit_dust_ticks (b b' : book) (o : LimitOrder) (asset : Address) (out : FillUpdateOutcome) :
  credit_dust b o asset out = Ok b' -> ticks_of b' = ticks_of b.
Proof. unfold credit_dust. destruct (0 <? dust_refund out); [apply credit_ticks|by intros [= <-]]. Qed.

Lemma apply_fill_ticks (b b' : book) (o o' : LimitOrder) (x : Z) (out : FillUpdateOutcome) :
  apply_partial_fill b o x = Ok (b', o', out) -> ticks_of b' = ticks_of b.
Proof.
  unfold apply_partial_fill. intros Hap. do 3 apply bind_Ok in Hap as (? & _ & Hap).
  assert (forall q t id, ticks_of (bucket_remove b q t id) = ticks_of b) as Hb.
  { intros q t id. destruct (bucket_remove_frame b q t id) as (_ & _ & _ & _ & E1 & E2). unfold ticks_of. by rewrite E1, E2. }
  destruct (_ =? 0) in Hap; [injection Hap as <- _ _; apply Hb|].
  apply bind_Ok in Hap as ([] & _ & Hap); [apply bind_Ok in Hap as (? & _ & Hap)|]; injection Hap as <- _ _; [apply Hb|done].
Qed.

(** A settlement leaves every tick volume and every list of active ticks as it was,
    also when it closes the last order of a tick: the tick stays listed. *)
Theorem settled_ticks_stay (i : invocation) (v v' : venue) (sid bid fill : Z) (r : SettlementResult) :
  match_orders i v sid bid fill = Ok (v', r) -> ticks_of (bk v') = ticks_of (bk v).
Proof.
  unfold match_orders. intros Hm. do 16 apply bind_Ok in Hm as (? & _ & Hm).
  apply bind_Ok in Hm as ([[b1 so'] sout] & H1%apply_fill_ticks & Hm).
  apply bind_Ok in Hm as ([[b2 bo'] bout] & H2%apply_fill_ticks & Hm).
  do 3 (apply bind_Ok in Hm as (? & ?%credit_ticks & Hm)). do 2 (apply bind_Ok in Hm as (? & ?%credit_dust_ticks & Hm)).
  apply bind_Ok in Hm as (b8 & Hf & Hm). injection Hm as <- _. cbn [with_bk bk].
  destruct (treasury i); [|injection Hf as <-; congruence].
  apply bind_Ok in Hf as (? & ?%credit_ticks & Hf%credit_ticks). congruence.
Qed.
End claims.

(** The insertion sort of the active ticks returns on every list, with a sorted
    permutation of it: bids descending, asks ascending. *)
Theorem sort_ticks_total (d : bool) (v : list Z) :
  exists sorted, @sort_ticks ContractError d v = Ok sorted /\ v ≡ₚ sorted /\ StronglySorted (prio d) sorted.
Proof.
  destruct (@sort_ticks_spec ContractError d v) as (l & E & Hp & Hs). exists l. split_and!; [done|by symmetry|done].
Qed.

(** ** The claims on the concrete venue *)
Section witnesses.
#[local] Existing Instance test_host.
#[local] Existing Instance tks.
#[local] Existing Instance tks_laws.

Lemma book_ticks_sorted_witness :
  get_ticks (bk traded) deal false = [10000000; 20000000] /\
  get_tick_volume (bk traded) deal 10000000 false = 300 /\
  StronglySorted (better false) (get_ticks (bk traded) deal false).
Proof.
  split; [vm_compute; reflexivity|]. split; [vm_compute; reflexivity|].
  exact (proj1 (book_ticks_sorted 1 true traded deal false (traded_reach true))).
Defined.

Lemma book_orders_fifo_witness :
  get_orders_at_tick (bk traded) deal 10000000 = [2] /\
  StronglySorted Z.lt (get_orders_at_tick (bk traded) deal 10000000).
Proof.
  split; [vm_compute; reflexivity|].
  exact (proj1 (proj2 (book_orders_fifo 1 true traded (traded_reach true))) deal 10000000).
Defined.

Lemma book_solvent_witness :
  balance (ledger traded) 100 1 = 1300 /\ balance (ledger traded) 200 1 = 0 /\
  liabilities (bk traded) 100 <= balance (ledger traded) 100 1.
Proof.
  split; [vm_compute; reflexivity|]. split; [vm_compute; reflexivity|].
  exact (book_solvent 1 traded 100 (traded_reach true)).
Defined.

(** Account 2 sells 1000 of the base token; account 3 posts a buy order at price 1, for
    which nothing is locked, and fills it itself. *)
Definition trap_set : venue :=
  venue_of (run_calls sample_venue [(2, Place 2 deal 20000000 1000 0); (3, PlaceBuy 3 deal 1 900)]).

Definition order_at (v : venue) (id : Z) : LimitOrder :=
  match load_order (bk v) id with Ok o => o | _ => new_order 0 0 deal Sell 0 0 0 0 end.

Lemma order_at_ok (v : venue) (id : Z) :
  is_ok (load_order (bk v) id) = true -> load_order (bk v) id = Ok (order_at v id).
Proof. unfold order_at. by destruct (load_order (bk v) id). Qed.

Lemma buy_fill_drains_escrow_witness :
  exists v' r, fill_order (by_ 3) trap_set 3 1 900 = Ok (v', r) /\
    margin 1 v' 100 = margin 1 trap_set 100 - 900 /\
    is_ok (cancel_order (by_ 2) trap_set 2 0) = true /\
    is_ok (fill_order (by_ 3) trap_set 3 1 900 ≫= fun x => cancel_order (by_ 2) x.1 2 0) = false.
Proof.
  destruct (is_ok_Ok (fill_order (by_ 3) trap_set 3 1 900)) as [[v' r] E]; [vm_compute; reflexivity|].
  exists v', r. split; [exact E|]. split; [|split; vm_compute; reflexivity].
  refine (proj2 (proj2 (buy_fill_drains_escrow 1 true (by_ 3) trap_set v' 3 1 900 r (order_at trap_set 1) _ _ _ _ _ E))).
  - apply run_calls_reach; [apply sample_reach|vm_compute; reflexivity| |vm_compute; reflexivity].
    intros _. vm_compute. reflexivity.
  - exact (by_honest 3 eq_refl).
  - apply order_at_ok. vm_compute. reflexivity.
  - vm_compute. reflexivity.
  - vm_compute. discriminate.
Defined.

(** The three asks of [sample_calls]. *)
Definition three_asks : venue := venue_of (run_calls sample_venue (take 3 sample_calls)).

Lemma three_asks_reach (g : bool) : reaches 1 g three_asks.
Proof.
  apply run_calls_reach; [apply sample_reach|vm_compute; reflexivity| |vm_compute; reflexivity].
  intros _. vm_compute. reflexivity.
Qed.

(** A settlement does not look at the expiry of its orders: a sell order that expired is
    closed for [fill_order] and settles all the same. *)
Definition expired_ask : venue :=
  venue_of (run_calls sample_venue [(2, Place 2 deal 10000000 1000 5); (3, PlaceBuy 3 deal 10000000 1000)]).

Example expired_order_settles :
  expired (by_ 7) (order_at expired_ask 0) = true /\
  is_ok (fill_order (by_ 5) expired_ask 5 0 1000) = false /\ is_ok (match_orders (by_ 7) expired_ask 0 1 1000) = true.
Proof. split; [vm_compute; reflexivity|]. split; vm_compute; reflexivity. Qed.

Lemma market_order_exact_witness :
  exists v' r, match_market_order (by_ 5) three_asks 5 deal 900 true = Ok (v', r) /\
    tm_filled r = zsum (map tf_filled (tm_fills r)) /\
    StronglySorted (fun f h => better false (tf_tick f) (tf_tick h) \/
      tf_tick f = tf_tick h /\ tf_order_id f < tf_order_id h) (tm_fills r) /\
    match match_market_order (by_ 5) three_asks 5 deal 900 true with
    | Ok (_, r) => map (fun f => (tf_order_id f, tf_filled f)) (tm_fills r)
    | _ => []
    end = [(1, 500); (2, 400)].
Proof.
  destruct (is_ok_Ok (match_market_order (by_ 5) three_asks 5 deal 900 true)) as [[v' r] E]; [vm_compute; reflexivity|].
  destruct (market_order_exact (H := test_host) 1 true (by_ 5) three_asks v' 5 deal 900 true r (three_asks_reach true) (by_honest 5 eq_refl) E)
    as (_ & _ & Hf & _ & _ & Hs & _).
  exists v', r. split; [exact E|]. split; [exact Hf|]. split; [exact Hs|vm_compute; reflexivity].
Defined.

Definition crossing : venue :=
  venue_of (run_calls sample_venue [(2, Place 2 deal 10000000 10000 0); (3, PlaceBuy 3 deal 15000000 6000)]).

Lemma settlement_exact_witness :
  exists v' r, match_orders (by_ 7) crossing 0 1 6000 = Ok (v', r) /\ ledger v' = ledger crossing /\
    match match_orders (by_ 7) crossing 0 1 6000 with
    | Ok (v', _) => map (fun '(a, t) => get_balance (bk v') a t) [(2, 200); (3, 100); (3, 200); (9, 200); (9, 100)]
    | _ => []
    end = [5982; 5982; 3000; 18; 18].
Proof.
  destruct (is_ok_Ok (match_orders (by_ 7) crossing 0 1 6000)) as [[v' r] E]; [vm_compute; reflexivity|].
  assert (reaches 1 true crossing) as Hr.
  { apply run_calls_reach; [apply sample_reach|vm_compute; reflexivity| |vm_compute; reflexivity].
    intros _. vm_compute. reflexivity. }
  destruct (settlement_exact (H := test_host) 1 true (by_ 7) crossing v' 0 1 6000 r Hr E)
    as (so & bo & _ & _ & _ & _ & _ & _ & _ & _ & _ & _ & _ & _ & _ & Hl & _).
  exists v', r. split; [exact E|]. split; [exact Hl|vm_compute; reflexivity].
Defined.


End witnesses.
