(* ===== verification/CommitReveal.v ===== *)
(** * Commit-reveal orders

    [src/src/orders/commit_reveal.rs] over the order book of [BookOps.v]: a trader
    locks a bond behind the hash of the terms of an order, and gets it back when it
    reveals the terms in a later ledger, which places the order; after the deadline
    anyone forfeits the bond to the treasury. The treasury is read from the
    invocation, as in [BookOps.v]; events and time-to-live extensions are left out.

    Histories that mix the calls of the order book with [commit], [reveal] and
    [forfeit]: bonds are held on top of what the book owes, counters are exact, and
    a commitment is settled once, with the terms it was made for. *)

From stdpp Require Import base numbers list gmap.
From Stdlib Require Import ZArith Lia.
From S2P Require Import Prelude Host Token RootErrors BookData BookTicks BookOps BookSort BookInv BookSteps BookMargin BookMarket BookHistory BookTheorems.

Open Scope Z_scope.

Definition MAX_ACTIVE_COMMITMENTS : Z := 64.
Definition MIN_EXPIRATION_OFFSET : Z := 10.
Definition MAX_EXPIRATION_OFFSET : Z := 3110400.

(** The variants are prefixed: [Active] and [Revealed] are states, not errors. *)
Inductive CommitmentState := CsActive | CsRevealed | CsForfeited.

#[export] Instance CommitmentState_eq_dec : EqDecision CommitmentState.
Proof. solve_decision. Defined.

Section commit.
Context {H : Host} {T : Tokens H}.

Record Commitment := {
  c_id : Z;
  c_trader : Address;
  commitment_hash : bytes;
  collateral_asset : Address;
  collateral_amount : Z;
  expiration_sequence : Z;
  committed_at_sequence : Z;
  c_state : CommitmentState
}.

Record RevealResult := {
  rr_commitment_id : Z;
  rr_order_id : Z;
  rr_trader : Address;
  bond_returned : Z
}.

(** The order book with the entries of this module: [COMMIT_NONCE_KEY], [CommitKey]
    and [CommitCounterKey]. *)
Record desk := {
  d_venue : venue;
  commit_nonce : option Z;
  commitments : gmap Z Commitment;
  commit_counters : gmap Address Z
}.

Definition set_venue (s : desk) (v : venue) : desk :=
  {| d_venue := v; commit_nonce := commit_nonce s; commitments := commitments s;
     commit_counters := commit_counters s |}.

Definition set_counters (s : desk) (m : gmap Address Z) : desk :=
  {| d_venue := d_venue s; commit_nonce := commit_nonce s; commitments := commitments s; commit_counters := m |}.

(** ** Helpers *)
Definition next_commitment_id (s : desk) : R (desk * Z) :=
  id ← ok_or (checked_add U64 (default 0 (commit_nonce s)) 1) Overflow;
  mret ({| d_venue := d_venue s; commit_nonce := Some id; commitments := commitments s;
           commit_counters := commit_counters s |}, id).

Definition load_commitment (s : desk) (id : Z) : R Commitment := ok_or (commitments s !! id) CommitmentNotFound.

Definition save_commitment (s : desk) (c : Commitment) : desk :=
  {| d_venue := d_venue s; commit_nonce := commit_nonce s; commitments := <[c_id c := c]> (commitments s);
     commit_counters := commit_counters s |}.

Definition active_commitment_count (s : desk) (trader : Address) : Z := default 0 (commit_counters s !! trader).

Definition increment_counter (s : desk) (trader : Address) : R desk :=
  let count := active_commitment_count s trader in
  _ ← fail_if (MAX_ACTIVE_COMMITMENTS <=? count) TooManyActiveCommitments;
  n ← iadd U32 count 1;
  mret (set_counters s (<[trader := n]> (commit_counters s))).

Definition decrement_counter (s : desk) (trader : Address) : desk :=
  let count := active_commitment_count s trader in
  if 0 <? count then set_counters s (<[trader := count - 1]> (commit_counters s)) else s.

(** [sha256(secret ‖ trade_details)] *)
Definition commitment_preimage (secret : bytes) (p : AssetPair) (price_tick amount : Z) (is_buy : bool) : bytes :=
  secret ++ to_xdr (pr_sell p) ++ to_xdr (pr_buy p) ++ to_be_bytes 16 price_tick ++ to_be_bytes 16 amount
    ++ to_be_bytes 1 (if is_buy then 1 else 0).

Definition compute_commitment (secret : bytes) (p : AssetPair) (price_tick amount : Z) (is_buy : bool) : bytes :=
  sha256 (commitment_preimage secret p price_tick amount is_buy).

Definition with_state (c : Commitment) (st : CommitmentState) : Commitment :=
  {| c_id := c_id c; c_trader := c_trader c; commitment_hash := commitment_hash c;
     collateral_asset := collateral_asset c; collateral_amount := collateral_amount c;
     expiration_sequence := expiration_sequence c; committed_at_sequence := committed_at_sequence c;
     c_state := st |}.

(** ** Phase 1 *)
Definition commit (i : invocation) (s : desk) (trader : Address) (hash : bytes) (asset : Address)
    (amount expiration : Z) : R (desk * Commitment) :=
  _ ← fail_if (amount <=? 0) OrderZeroAmount;
  _ ← require_auth (auth i) trader;
  let current_seq := sequence i in
  lo ← iadd U32 current_seq MIN_EXPIRATION_OFFSET;
  _ ← fail_if (expiration <=? lo) CommitmentWindowTooShort;
  hi ← iadd U32 current_seq MAX_EXPIRATION_OFFSET;
  _ ← fail_if (hi <? expiration) CommitmentWindowTooLong;
  l ← pay (ledger (d_venue s)) asset trader (current_contract i) amount;
  '(s1, id) ← next_commitment_id (set_venue s {| bk := bk (d_venue s); ledger := l |});
  s2 ← increment_counter s1 trader;
  let c := {| c_id := id; c_trader := trader; commitment_hash := hash; collateral_asset := asset;
              collateral_amount := amount; expiration_sequence := expiration;
              committed_at_sequence := current_seq; c_state := CsActive |} in
  mret (save_commitment s2 c, c).

(** ** Phase 2 *)
Definition reveal (i : invocation) (s : desk) (commitment_id : Z) (trader : Address) (secret : bytes)
    (p : AssetPair) (price_tick amount : Z) (is_buy : bool) : R (desk * RevealResult) :=
  c ← load_commitment s commitment_id;
  _ ← fail_if (bool_decide (c_trader c <> trader)) Unauthorized;
  _ ← fail_if (bool_decide (c_state c <> CsActive)) CommitmentNotActive;
  let current_seq := sequence i in
  _ ← fail_if (expiration_sequence c <? current_seq) CommitmentExpired;
  _ ← fail_if (current_seq =? committed_at_sequence c) CommitmentNotRevealWindow;
  _ ← fail_if (amount <=? 0) OrderZeroAmount;
  _ ← fail_if (price_tick <=? 0) OrderInvalidPrice;
  let computed := compute_commitment secret p price_tick amount is_buy in
  _ ← fail_if (bool_decide (computed <> commitment_hash c)) CommitmentHashMismatch;
  '(v, order) ← (if is_buy then place_buy_order i (d_venue s) trader p price_tick amount
                 else place_order i (d_venue s) trader p price_tick amount);
  let bond := collateral_amount c in
  l ← (if 0 <? bond then pay (ledger v) (collateral_asset c) (current_contract i) trader bond
       else mret (ledger v));
  let s1 := save_commitment (set_venue s {| bk := bk v; ledger := l |}) (with_state c CsRevealed) in
  mret (decrement_counter s1 trader,
        {| rr_commitment_id := commitment_id; rr_order_id := o_id order; rr_trader := trader;
           bond_returned := bond |}).

(** ** Forfeit *)

(** The amount is returned as [u64]: [amount as u64] keeps the low 64 bits. *)
Definition forfeit (i : invocation) (s : desk) (commitment_id : Z) : R (desk * Z) :=
  c ← load_commitment s commitment_id;
  _ ← fail_if (bool_decide (c_state c <> CsActive)) CommitmentNotActive;
  _ ← fail_if (sequence i <=? expiration_sequence c) CommitmentNotExpired;
  let amount := collateral_amount c in
  l ← (match treasury i with
       | Some t => pay (ledger (d_venue s)) (collateral_asset c) (current_contract i) t amount
       | None => mret (ledger (d_venue s))
       end);
  let s1 := save_commitment (set_venue s {| bk := bk (d_venue s); ledger := l |}) (with_state c CsForfeited) in
  mret (decrement_counter s1 (c_trader c), cast U64 amount).

(** ** Queries *)
Definition get_commitment (s : desk) (id : Z) : R Commitment := load_commitment s id.

Definition is_revealable (i : invocation) (c : Commitment) : bool :=
  bool_decide (c_state c = CsActive) && (committed_at_sequence c <? sequence i)
  && (sequence i <=? expiration_sequence c).

Definition is_forfeitable (i : invocation) (c : Commitment) : bool :=
  bool_decide (c_state c = CsActive) && (expiration_sequence c <? sequence i).
End commit.

(** ** Commit-reveal orders: the properties *)

Section desk.
Context {H : Host} {T : Tokens H}.

Inductive desk_call :=
  | OnBook (c : call)
  | Commit (trader : Address) (hash : bytes) (asset : Address) (amount expiration : Z)
  | Reveal (id : Z) (trader : Address) (secret : bytes) (p : AssetPair) (price_tick amount : Z) (is_buy : bool)
  | Forfeit (id : Z).

Definition run_desk (i : invocation) (s : desk) (c : desk_call) : R desk :=
  match c with
  | OnBook c => v ← run_call i (d_venue s) c; mret (set_venue s v)
  | Commit trader hash asset amount expiration => r ← commit i s trader hash asset amount expiration; mret r.1
  | Reveal id trader secret p price_tick amount is_buy =>
      r ← reveal i s id trader secret p price_tick amount is_buy; mret r.1
  | Forfeit id => r ← forfeit i s id; mret r.1
  end.

Definition desk_guard (s : desk) (c : desk_call) : bool :=
  match c with OnBook c => fills_no_buy (d_venue s) c | _ => true end.

Definition new_desk (l : Ledger) : desk :=
  {| d_venue := {| bk := empty_book; ledger := l |}; commit_nonce := None; commitments := ∅; commit_counters := ∅ |}.

Variable self : Address.

(** A history from [s] to [s']; no buy order is filled by [fill_order]. *)
Inductive desk_steps : desk -> desk -> Prop :=
  | desk_stop s : desk_steps s s
  | desk_step s i c s1 s' : honest self i -> desk_guard s c = true -> run_desk i s c = Ok s1 ->
      desk_steps s1 s' -> desk_steps s s'.

(** The bond a commitment still holds, and whether it counts for a trader. *)
Definition bond_of (asset : Address) (c : Commitment) : Z :=
  if decide (c_state c = CsActive) then in_asset (collateral_asset c) asset (collateral_amount c) else 0.

Definition counts_for (a : Address) (c : Commitment) : Z :=
  if decide (c_state c = CsActive /\ c_trader c = a) then 1 else 0.

Definition bonds (s : desk) (asset : Address) : Z := msum (fun _ => bond_of asset) (commitments s).

Definition desk_margin (s : desk) (asset : Address) : Z := margin self (d_venue s) asset - bonds s asset.

Record desk_ok (s : desk) : Prop := {
  dk_book : book_ok self (bk (d_venue s));
  dk_commit : forall id c, commitments s !! id = Some c ->
    c_id c = id /\ c_trader c <> self /\ 0 < collateral_amount c /\ id <= default 0 (commit_nonce s) /\
    committed_at_sequence c + MIN_EXPIRATION_OFFSET < expiration_sequence c
      <= committed_at_sequence c + MAX_EXPIRATION_OFFSET;
  dk_count : forall a, active_commitment_count s a = msum (fun _ => counts_for a) (commitments s);
  dk_max : forall a, active_commitment_count s a <= MAX_ACTIVE_COMMITMENTS
}.

(** What a step does to the commitments: settled ones stay as they are. *)
Definition keeps_settled (s s' : desk) : Prop :=
  forall id c, commitments s !! id = Some c -> exists c', commitments s' !! id = Some c' /\
    c' = with_state c (c_state c') /\ (c_state c <> CsActive -> c_state c' = c_state c).

Definition desk_step_ok (s s' : desk) : Prop :=
  desk_ok s' /\ keeps_settled s s' /\ forall asset, desk_margin s asset <= desk_margin s' asset.

Lemma counts_nonneg (a : Address) (c : Commitment) : 0 <= counts_for a c.
Proof. unfold counts_for. by destruct (decide _). Qed.

Lemma count_set (s : desk) (m : gmap Address Z) (a : Address) :
  active_commitment_count (set_counters s m) a = default 0 (m !! a).
Proof. done. Qed.

Lemma keeps_settled_refl (s s' : desk) : commitments s' = commitments s -> keeps_settled s s'.
Proof. intros E id c Hc. exists c. rewrite E. by destruct c. Qed.

(** An active commitment is settled: its bond is no longer held. *)
Lemma settle_ok (s : desk) (v : venue) (id : Z) (c : Commitment) (st : CommitmentState) :
  desk_ok s -> book_ok self (bk v) -> commitments s !! id = Some c -> c_state c = CsActive -> st <> CsActive ->
  let s' := decrement_counter (save_commitment (set_venue s v) (with_state c st)) (c_trader c) in
  desk_ok s' /\ keeps_settled s s' /\ d_venue s' = v /\ commitments s' = <[id := with_state c st]> (commitments s) /\
  forall asset, bonds s' asset = bonds s asset - in_asset (collateral_asset c) asset (collateral_amount c).
Proof.
  intros Hok Hb Hc Ha Hst s'. destruct (dk_commit s Hok id c Hc) as (Hid & Hc').
  assert (forall a, msum (fun _ => counts_for a) (<[id := with_state c st]> (commitments s))
            = active_commitment_count s a - (if decide (c_trader c = a) then 1 else 0)) as Hsum.
  { intros a. rewrite msum_insert, (dk_count s Hok a). unfold term. rewrite Hc. unfold counts_for at 2 3.
    rewrite (decide_False (P := c_state (with_state c st) = _ /\ _)) by (cbn; tauto). rewrite Ha.
    destruct (decide (c_trader c = a)); [rewrite decide_True by done|rewrite decide_False by tauto]; lia. }
  assert (1 <= active_commitment_count s (c_trader c)) as H1.
  { rewrite (dk_count s Hok). pose proof (msum_term_le (fun _ => counts_for (c_trader c)) (commitments s) id) as Ht.
    unfold term in Ht. rewrite Hc in Ht. unfold counts_for at 2 in Ht. rewrite decide_True in Ht by done.
    apply Ht. intros. apply counts_nonneg. }
  assert (commitments s' = <[id := with_state c st]> (commitments s) /\ d_venue s' = v /\ commit_nonce s' = commit_nonce s /\
    forall a, active_commitment_count s' a = active_commitment_count s a - (if decide (c_trader c = a) then 1 else 0))
    as (Ec & Ev & En & Ecnt).
  { unfold s', decrement_counter. change (active_commitment_count (save_commitment _ _) (c_trader c))
      with (active_commitment_count s (c_trader c)). rewrite (proj2 (Z.ltb_lt _ _)) by lia.
    split; [cbn; by rewrite Hid|]. do 2 (split; [done|]). intros a. rewrite count_set. cbn [commit_counters save_commitment set_venue].
    destruct (decide (c_trader c = a)) as [->|Hne]; [by rewrite lookup_insert_eq|].
    rewrite lookup_insert_ne by done. unfold active_commitment_count. lia. }
  split; [|split; [|split; [done|split; [done|]]]].
  - constructor.
    + by rewrite Ev.
    + intros n x. rewrite Ec, En. intros [[<- <-]|[_ Hx]]%lookup_insert_Some; [by cbn; split|by apply (dk_commit s Hok)].
    + intros a. by rewrite Ecnt, Ec, Hsum.
    + intros a. rewrite Ecnt. pose proof (dk_max s Hok a). destruct (decide _); lia.
  - intros n x Hx. rewrite Ec. destruct (decide (n = id)) as [->|Hne].
    + rewrite lookup_insert_eq. exists (with_state c st). assert (x = c) as -> by congruence. done.
    + rewrite lookup_insert_ne by done. exists x. by destruct x.
  - intros asset. unfold bonds. rewrite Ec, msum_insert. unfold term. rewrite Hc. unfold bond_of at 2 3.
    rewrite decide_True, decide_False by done. lia.
Qed.

Context {TL : TokenLaws H T}.

(** ** The operations *)
Lemma commit_ok (i : invocation) (s s' : desk) (trader : Address) (hash : bytes) (asset : Address)
    (amount expiration : Z) (c : Commitment) :
  honest self i -> desk_ok s -> commit i s trader hash asset amount expiration = Ok (s', c) ->
  desk_step_ok s s' /\ auth i trader = true /\ commitments s !! c_id c = None /\
  commitments s' = <[c_id c := c]> (commitments s) /\ c_state c = CsActive /\ bk (d_venue s') = bk (d_venue s).
Proof.
  intros Hi Hok Hc. unfold commit in Hc. pose proof Hi as [Ec _].
  apply bind_Ok in Hc as (? & Ha%fail_if_Ok%Z.leb_gt & Hc). apply bind_Ok in Hc as (? & Hau%require_auth_Ok & Hc).
  apply bind_Ok in Hc as (lo & [-> _]%iop_Ok & Hc). apply bind_Ok in Hc as (? & Hlo%fail_if_Ok%Z.leb_gt & Hc).
  apply bind_Ok in Hc as (hi & [-> _]%iop_Ok & Hc). apply bind_Ok in Hc as (? & Hhi%fail_if_Ok%Z.ltb_ge & Hc).
  apply bind_Ok in Hc as (l & [_ Hl]%(pay_Ok self) & Hc). apply bind_Ok in Hc as ([s1 id] & Hn & Hc).
  unfold next_commitment_id in Hn. cbn [commit_nonce set_venue] in Hn.
  apply bind_Ok in Hn as (n & [-> _]%ok_or_Ok%chk_Some & Hn). injection Hn as <- <-.
  apply bind_Ok in Hc as (s2 & Hinc & Hc). unfold increment_counter in Hinc.
  apply bind_Ok in Hinc as (? & Hmax%fail_if_Ok%Z.leb_gt & Hinc). apply bind_Ok in Hinc as (n & [-> _]%iop_Ok & Hinc).
  injection Hinc as <-. injection Hc as <- <-.
  set (id := default 0 (commit_nonce s) + 1) in *. set (c := {| c_id := id |}).
  pose proof (auth_not_self self i trader Hi Hau) as Htr.
  assert (commitments s !! id = None) as Hnew.
  { destruct (commitments s !! id) as [y|] eqn:E; [|done]. apply (dk_commit s Hok) in E as (_ & _ & _ & ? & _). lia. }
  split; [|done]. split; [|split].
  - constructor; cbn [set_counters save_commitment set_venue d_venue commitments commit_nonce bk].
    + apply Hok.
    + intros m y [[<- <-]|[_ Hx]]%lookup_insert_Some; [cbn; split_and!; try done; lia|].
      destruct (dk_commit s Hok m y Hx) as (? & ? & ? & ? & ?). split_and!; try done; try lia. cbn. lia.
    + intros a. rewrite msum_insert_new by done. rewrite <- (dk_count s Hok a). unfold counts_for. cbn [c c_state c_trader].
      unfold active_commitment_count at 1. cbn [commit_counters save_commitment set_counters].
      change (active_commitment_count _ trader) with (active_commitment_count s trader).
      change (commit_counters _) with (commit_counters s). destruct (decide (trader = a)) as [<-|Hne].
      * rewrite lookup_insert_eq, decide_True by done. cbn. lia.
      * rewrite lookup_insert_ne by done. rewrite decide_False by tauto. unfold active_commitment_count. lia.
    + intros a. unfold active_commitment_count. cbn [commit_counters save_commitment set_counters].
      change (active_commitment_count _ trader) with (active_commitment_count s trader) in *.
      change (commit_counters _) with (commit_counters s). destruct (decide (trader = a)) as [<-|Hne].
      * rewrite lookup_insert_eq. cbn [default from_option id]. fold (active_commitment_count s trader). unfold Datatypes.id. lia.
      * rewrite lookup_insert_ne by done. apply (dk_max s Hok).
  - intros m y Hx. exists y. cbn. rewrite lookup_insert_ne by congruence. by destruct y.
  - intros a. unfold desk_margin, bonds, margin. cbn [set_counters save_commitment set_venue d_venue commitments bk ledger].
    rewrite msum_insert_new by done. rewrite Hl, Ec. rewrite (decide_False (P := trader = self)) by done.
    rewrite (decide_True (P := self = self)) by done.
    assert (bond_of a c = in_asset asset a amount) as -> by (unfold bond_of; by rewrite decide_True). lia.
Qed.

(** A successful reveal: the commitment, the order it placed, and the invariants. *)
Lemma reveal_Ok (i : invocation) (s s' : desk) (id : Z) (trader : Address) (secret : bytes) (p : AssetPair)
    (tick amount : Z) (is_buy : bool) (r : RevealResult) :
  honest self i -> desk_ok s -> reveal i s id trader secret p tick amount is_buy = Ok (s', r) ->
  exists c o, commitments s !! id = Some c /\ c_trader c = trader /\ c_state c = CsActive /\
    sequence i <= expiration_sequence c /\ sequence i <> committed_at_sequence c /\
    commitment_hash c = compute_commitment secret p tick amount is_buy /\ auth i trader = true /\
    0 < tick /\ 0 < amount /\
    o = new_order (default 0 (next_id (bk (d_venue s)))) trader p (if is_buy then Buy else Sell) tick amount (sequence i) 0 /\
    orders (bk (d_venue s')) = <[okey o := o]> (orders (bk (d_venue s))) /\
    commitments s' = <[id := with_state c CsRevealed]> (commitments s) /\
    rr_order_id r = o_id o /\ bond_returned r = collateral_amount c /\
    (exists v, (if is_buy then place_buy_order i (d_venue s) trader p tick amount
                else place_order i (d_venue s) trader p tick amount) = Ok (v, o) /\
      transfer (ledger v) (collateral_asset c) self trader (collateral_amount c) = Some (ledger (d_venue s'))) /\
    desk_step_ok s s'.
Proof.
  intros Hi Hok Hr. unfold reveal in Hr. pose proof Hi as [Ec _].
  apply bind_Ok in Hr as (c & Hc%ok_or_Ok & Hr).
  apply bind_Ok in Hr as (? & Htr%fail_if_Ok%bool_decide_eq_false%dec_stable & Hr).
  apply bind_Ok in Hr as (? & Hst%fail_if_Ok%bool_decide_eq_false%dec_stable & Hr).
  apply bind_Ok in Hr as (? & Hex%fail_if_Ok%Z.ltb_ge & Hr). apply bind_Ok in Hr as (? & Hne%fail_if_Ok%Z.eqb_neq & Hr).
  apply bind_Ok in Hr as (? & Ha%fail_if_Ok%Z.leb_gt & Hr). apply bind_Ok in Hr as (? & Ht%fail_if_Ok%Z.leb_gt & Hr).
  apply bind_Ok in Hr as (? & Hh%fail_if_Ok%bool_decide_eq_false%dec_stable & Hr).
  apply bind_Ok in Hr as ([v o] & Hplace & Hr).
  assert (step_ok self (d_venue s) v /\ auth i trader = true /\
    o = new_order (default 0 (next_id (bk (d_venue s)))) trader p (if is_buy then Buy else Sell) tick amount (sequence i) 0 /\
    orders (bk v) = <[okey o := o]> (orders (bk (d_venue s)))) as (Hstep & Hau & Eo & Eord).
  { destruct is_buy.
    - apply (place_buy_order_ok self) in Hplace as (? & _ & _ & ? & ? & ?); [done|done|apply Hok].
    - apply (place_order_ok self) in Hplace as (? & _ & _ & ? & ? & ?); [done|done|apply Hok]. }
  destruct (dk_commit s Hok id c Hc) as (Hid & Hcs & Hpos & _).
  apply bind_Ok in Hr as (l & Hl & Hr). injection Hr as <- <-. rewrite (proj2 (Z.ltb_lt _ _) Hpos) in Hl. rewrite Ec in Hl.
  destruct (settle_ok s {| bk := bk v; ledger := l |} id c CsRevealed Hok (proj1 Hstep) Hc Hst ltac:(done))
    as (Hok' & Hkeep & Ev & Ecm & Eb). rewrite Htr in Hok', Hkeep, Ev, Ecm, Eb.
  exists c, o. rewrite Ev. cbn [rr_order_id bond_returned bk ledger]. split_and!; try done.
  - exists v. split; [done|]. unfold pay in Hl. by apply unwrap_Ok in Hl.
  - split; [done|]. split; [done|]. intros asset. unfold desk_margin. rewrite Eb, Ev.
    apply (pay_Ok self) in Hl as [_ Hl]. destruct Hstep as [_ Hm]. specialize (Hm asset). unfold margin in *. cbn [bk ledger].
    rewrite Hl, (decide_True (P := self = self)), (decide_False (P := trader = self)) by congruence. lia.
Qed.

Lemma forfeit_Ok (i : invocation) (s s' : desk) (id x : Z) :
  honest self i -> desk_ok s -> forfeit i s id = Ok (s', x) ->
  exists c, commitments s !! id = Some c /\ c_state c = CsActive /\ expiration_sequence c < sequence i /\
    commitments s' = <[id := with_state c CsForfeited]> (commitments s) /\
    bk (d_venue s') = bk (d_venue s) /\ x = cast U64 (collateral_amount c) /\
    match treasury i with
    | Some t => transfer (ledger (d_venue s)) (collateral_asset c) self t (collateral_amount c) = Some (ledger (d_venue s'))
    | None => ledger (d_venue s') = ledger (d_venue s)
    end /\ desk_step_ok s s'.
Proof.
  intros Hi Hok Hf. unfold forfeit in Hf. pose proof Hi as [Ec _].
  apply bind_Ok in Hf as (c & Hc%ok_or_Ok & Hf).
  apply bind_Ok in Hf as (? & Hst%fail_if_Ok%bool_decide_eq_false%dec_stable & Hf).
  apply bind_Ok in Hf as (? & Hex%fail_if_Ok%Z.leb_gt & Hf).
  apply bind_Ok in Hf as (l & Hl & Hf). injection Hf as <- <-. rewrite Ec in Hl.
  destruct (settle_ok s {| bk := bk (d_venue s); ledger := l |} id c CsForfeited Hok (dk_book s Hok) Hc Hst ltac:(done))
    as (Hok' & Hkeep & Ev & Ecm & Eb).
  exists c. rewrite Ev. cbn [bk ledger]. split_and!; try done.
  - destruct (treasury i); [|by injection Hl as <-]. unfold pay in Hl. by apply unwrap_Ok in Hl.
  - split; [done|]. split; [done|]. intros asset. unfold desk_margin, margin. rewrite Eb, Ev. cbn [bk ledger].
    destruct (dk_commit s Hok id c Hc) as (_ & _ & Hpos & _).
    destruct (treasury i).
    + apply (pay_Ok self) in Hl as [_ Hl]. rewrite Hl, (decide_True (P := self = self)) by done.
      unfold in_asset. repeat destruct (decide _); lia.
    + injection Hl as <-. unfold in_asset. destruct (decide _); lia.
Qed.

Lemma run_desk_ok (i : invocation) (s s' : desk) (c : desk_call) :
  honest self i -> desk_ok s -> desk_guard s c = true -> run_desk i s c = Ok s' -> desk_step_ok s s'.
Proof.
  intros Hi Hok Hg Hr. destruct c; cbn [run_desk desk_guard] in *; apply bind_Ok in Hr as (r & Hx & Hr); injection Hr as <-.
  - destruct (run_call_ok self i (d_venue s) r c Hi (dk_book s Hok) Hx) as [_ Hs]. destruct (Hs Hg) as [Hb Hm].
    split; [|split].
    + destruct Hok. by constructor.
    + by apply keeps_settled_refl.
    + intros asset. specialize (Hm asset). unfold desk_margin. cbn. change (bonds (set_venue s r) asset) with (bonds s asset). lia.
  - destruct r as [s1 c]. by apply commit_ok in Hx as (? & _).
  - destruct r as [s1 r]. by apply reveal_Ok in Hx as (? & ? & _ & _ & _ & _ & _ & _ & _ & _ & _ & _ & _ & _ & _ & _ & _ & ?).
  - destruct r as [s1 r]. by apply forfeit_Ok in Hx as (? & _ & _ & _ & _ & _ & _ & _ & ?).
Qed.

Lemma new_desk_ok (l : Ledger) : desk_ok (new_desk l).
Proof.
  constructor; try done.
  - apply empty_book_ok.
Qed.

Lemma desk_steps_ok (s s' : desk) : desk_steps s s' -> desk_ok s -> desk_step_ok s s'.
Proof.
  induction 1 as [s|s i c s1 s' Hi Hg Hr Hs IH]; intros Hok.
  - split; [done|]. split; [by apply keeps_settled_refl|]. intros. lia.
  - destruct (run_desk_ok i s s1 c Hi Hok Hg Hr) as (Hok1 & Hk1 & Hm1). destruct (IH Hok1) as (Hok' & Hk & Hm).
    split; [done|]. split; [|intros a; specialize (Hm1 a); specialize (Hm a); lia].
    intros id x Hx. destruct (Hk1 id x Hx) as (x1 & Hx1 & E1 & F1). destruct (Hk id x1 Hx1) as (x2 & Hx2 & E2 & F2).
    exists x2. split; [done|]. split; [rewrite E2 at 1; by rewrite E1|]. intros Hn. rewrite F2; [by apply F1|].
    rewrite F1; done.
Qed.


(** ** The claims *)

(** C6: After every history that mixes guarded calls of the order book with commitments,
    reveals and forfeits, started on an empty desk, the contract holds of every asset at
    least the escrow of the open orders, the internal balances of the users and the
    bonds of the commitments that are neither revealed nor forfeited. *)
Theorem desk_solvent (l : Ledger) (s : desk) (asset : Address) :
  0 <= balance l asset self -> desk_steps (new_desk l) s ->
  liabilities (bk (d_venue s)) asset
    + msum (fun _ c => if decide (c_state c = CsActive) then in_asset (collateral_asset c) asset (collateral_amount c)
                       else 0) (commitments s)
    <= balance (ledger (d_venue s)) asset self.
Proof.
  intros Hl Hs. destruct (desk_steps_ok (new_desk l) s Hs (new_desk_ok l)) as (_ & _ & Hm). specialize (Hm asset).
  unfold desk_margin, bonds, margin, liabilities, owed in *. cbn in Hm. rewrite !msum_empty in Hm.
  unfold bond_of in Hm. lia.
Qed.

(** On every reachable desk, a reveal that returned was authorised by the trader of
    an active commitment, in another ledger than the commitment and not after its
    deadline, with terms that hash to what was committed; it placed one order with
    exactly these terms, added nothing else to the order records, moved the bond to the trader
    after the order's escrow, and settled this commitment only. *)
Theorem reveal_exact (l : Ledger) (i : invocation) (s s' : desk) (id : Z) (trader : Address) (secret : bytes)
    (p : AssetPair) (tick amount : Z) (is_buy : bool) (r : RevealResult) :
  desk_steps (new_desk l) s -> honest self i ->
  reveal i s id trader secret p tick amount is_buy = Ok (s', r) ->
  exists c o v, commitments s !! id = Some c /\ c_trader c = trader /\ c_state c = CsActive /\
    sequence i <= expiration_sequence c /\ sequence i <> committed_at_sequence c /\
    commitment_hash c = sha256 (commitment_preimage secret p tick amount is_buy) /\ auth i trader = true /\
    o = new_order (default 0 (next_id (bk (d_venue s)))) trader p (if is_buy then Buy else Sell) tick amount (sequence i) 0 /\
    orders (bk (d_venue s')) = <[(p, tick, o_id o) := o]> (orders (bk (d_venue s))) /\
    load_order (bk (d_venue s')) (rr_order_id r) = Ok o /\
    (if is_buy then place_buy_order i (d_venue s) trader p tick amount
     else place_order i (d_venue s) trader p tick amount) = Ok (v, o) /\
    transfer (ledger v) (collateral_asset c) self trader (collateral_amount c) = Some (ledger (d_venue s')) /\
    bond_returned r = collateral_amount c /\
    commitments s' = <[id := with_state c CsRevealed]> (commitments s).
Proof.
  intros Hs Hi Hr. destruct (desk_steps_ok (new_desk l) s Hs (new_desk_ok l)) as (Hok & _).
  destruct (reveal_Ok i s s' id trader secret p tick amount is_buy r Hi Hok Hr)
    as (c & o & Hc & Ht & Hst & He & Hne & Hh & Hau & _ & _ & Eo & Eord & Ecm & Eid & Ebond & (v & Hp & Htr) & (Hok' & _)).
  assert (orders (bk (d_venue s')) !! okey o = Some o) as Hlook by (rewrite Eord; apply lookup_insert_eq).
  exists c, o, v. split_and!; try done.
  - rewrite Eord. unfold okey. by rewrite Eo.
  - pose proof (ok_order self _ (ok_orders self _ (dk_book s' Hok')) _ _ _ _ Hlook) as (_ & _ & Hix & _).
    unfold load_order. rewrite Eid, Hix. cbn [ok_or]. rewrite bind_ret. cbn [fst snd]. fold (okey o). by rewrite Hlook.
Qed.

Lemma be16_inj (a b : Z) : imin I128 <= a <= imax I128 -> imin I128 <= b <= imax I128 ->
  to_be_bytes 16 a = to_be_bytes 16 b -> a = b.
Proof.
  intros Ha Hb E%to_be_bytes_mod. change (256 ^ Z.of_nat 16) with (2 ^ 128) in E. cbn [imin imax] in *.
  assert (a - b = 2 ^ 128 * ((a - b) / 2 ^ 128)) as Hd.
  { apply Z.div_exact; [done|]. rewrite Zminus_mod, E, Z.sub_diag. done. }
  nia.
Qed.

(** A reveal binds to what was committed: if the trader committed to the hash of some
    terms, a reveal of other terms that returns exhibits two different byte strings
    with one SHA-256 hash. Otherwise price, amount and side are the committed ones;
    so is the bought asset if its serialisation has the same length, and then also the
    sold asset and the secret. *)
Theorem reveal_binding (HL : HostLaws H) (i : invocation) (s s' : desk) (id : Z) (c : Commitment) (trader : Address)
    (secret secret0 : bytes) (p p0 : AssetPair) (tick tick0 amount amount0 : Z) (is_buy is_buy0 : bool) (r : RevealResult) :
  Forall (fun x => imin I128 <= x <= imax I128) [tick; tick0; amount; amount0] ->
  commitments s !! id = Some c -> commitment_hash c = compute_commitment secret0 p0 tick0 amount0 is_buy0 ->
  reveal i s id trader secret p tick amount is_buy = Ok (s', r) ->
  (tick = tick0 /\ amount = amount0 /\ is_buy = is_buy0 /\
   (length (to_xdr (pr_buy p)) = length (to_xdr (pr_buy p0)) -> pr_buy p = pr_buy p0 /\
    (length (to_xdr (pr_sell p)) = length (to_xdr (pr_sell p0)) -> pr_sell p = pr_sell p0 /\ secret = secret0))) \/
  (exists x y, x <> y /\ sha256 x = sha256 y).
Proof.
  intros Hty Hc Hh Hr. unfold reveal in Hr. unfold load_commitment in Hr. rewrite Hc in Hr. cbn [ok_or] in Hr.
  rewrite bind_ret in Hr. do 6 apply bind_Ok in Hr as (? & _ & Hr).
  apply bind_Ok in Hr as (? & Heq%fail_if_Ok%bool_decide_eq_false%dec_stable & _).
  rewrite Hh in Heq. unfold compute_commitment in Heq.
  destruct (decide (commitment_preimage secret p tick amount is_buy = commitment_preimage secret0 p0 tick0 amount0 is_buy0))
    as [E|Hne]; [left|right; by do 2 eexists].
  unfold commitment_preimage in E. repeat rewrite app_assoc in E.
  apply app_inj_2 in E as [E E1]; [|done]. apply app_inj_2 in E as [E E2]; [|by rewrite !to_be_bytes_length].
  apply app_inj_2 in E as [E E3]; [|by rewrite !to_be_bytes_length].
  repeat (apply Forall_cons in Hty as [? Hty]).
  split; [by apply be16_inj|]. split; [by apply be16_inj|].
  split; [destruct is_buy, is_buy0; done|]. intros Hlen. apply app_inj_2 in E as [E E4]; [|done].
  split; [by apply to_xdr_inj|]. intros Hlen2. apply app_inj_2 in E as [E E5]; [|done].
  split; [by apply to_xdr_inj|done].
Qed.

(** A commitment is settled once: over any history its terms never change, and once it
    is revealed or forfeited it keeps that state, every further [forfeit] fails with
    [CommitmentNotActive] and no [reveal] returns. The counter of each trader is at
    all times the number of its active commitments, at most 64. *)
Theorem commitment_settled_once (l : Ledger) (s s' : desk) :
  desk_steps (new_desk l) s -> desk_steps s s' ->
  (forall id c, commitments s !! id = Some c -> exists c', commitments s' !! id = Some c' /\
     c' = with_state c (c_state c') /\
     (c_state c <> CsActive -> c' = c /\ (forall i, forfeit i s' id = Err CommitmentNotActive) /\
        forall i trader secret p tick amount is_buy, is_ok (reveal i s' id trader secret p tick amount is_buy) = false)) /\
  forall a, active_commitment_count s' a
      = msum (fun _ c => if decide (c_state c = CsActive /\ c_trader c = a) then 1 else 0) (commitments s') /\
    active_commitment_count s' a <= MAX_ACTIVE_COMMITMENTS.
Proof.
  intros H1 H2. destruct (desk_steps_ok (new_desk l) s H1 (new_desk_ok l)) as (Hok & _).
  destruct (desk_steps_ok s s' H2 Hok) as (Hok' & Hk & _).
  split; [|intros a; split; [apply (dk_count s' Hok')|apply (dk_max s' Hok')]].
  intros id c Hc. destruct (Hk id c Hc) as (c' & Hc' & E & Hst). exists c'. split; [done|]. split; [done|]. intros Hn.
  specialize (Hst Hn). split; [rewrite E, Hst; by destruct c|].
  assert (bool_decide (c_state c' <> CsActive) = true) as Eb by (apply bool_decide_eq_true; congruence). split.
  - intros i. unfold forfeit, load_commitment. rewrite Hc'. cbn [ok_or]. rewrite bind_ret, Eb. done.
  - intros i trader secret p tick amount is_buy. unfold reveal, load_commitment. rewrite Hc'. cbn [ok_or].
    rewrite bind_ret, Eb. by destruct (bool_decide (c_trader c' <> trader)).
Qed.
End desk.

(** ** A concrete desk: account 2 commits to two sell orders, reveals one of them in a
    later ledger; after the deadline the other bond goes to the treasury. *)
Section witnesses.
#[local] Existing Instance test_host.
#[local] Existing Instance tks.
#[local] Existing Instance tks_laws.

Definition at_ (who seq : Z) : invocation := @Build_invocation test_host (fun a => Z.eqb a who) 1 seq (Some 9).

Fixpoint run_desks (s : desk) (cs : list (Z * Z * desk_call)) : R desk :=
  match cs with
  | [] => mret s
  | (who, seq, c) :: cs => s' ← run_desk (at_ who seq) s c; run_desks s' cs
  end.

Definition desk_of (r : R desk) : desk := match r with Ok s => s | _ => new_desk sample_ledger end.

Fixpoint desks_guarded (s : desk) (cs : list (Z * Z * desk_call)) : bool :=
  match cs with
  | [] => true
  | (who, seq, c) :: cs => negb (Z.eqb 1 who) && desk_guard s c && desks_guarded (desk_of (run_desk (at_ who seq) s c)) cs
  end.

Lemma run_desks_steps (cs : list (Z * Z * desk_call)) (s : desk) :
  desks_guarded s cs = true -> is_ok (run_desks s cs) = true -> desk_steps 1 s (desk_of (run_desks s cs)).
Proof.
  revert s. induction cs as [|[[who seq] c] cs IH]; intros s Hg Hr; [constructor|]. cbn [run_desks desks_guarded] in *.
  apply andb_true_iff in Hg as [[Hw%negb_true_iff Hc]%andb_true_iff Hg].
  destruct (run_desk (at_ who seq) s c) as [s1|e|] eqn:E; [|done|done]. rewrite bind_ret in *.
  eapply desk_step; [|exact Hc|exact E|by apply IH]. split; [reflexivity|exact Hw].
Qed.

Definition secret_terms : bytes := compute_commitment [1; 2; 3] deal 20000000 1000 false.
Definition start : desk := new_desk sample_ledger.
Definition committed_calls : list (Z * Z * desk_call) :=
  [(2, 10, Commit 2 secret_terms 100 500 200); (2, 10, Commit 2 secret_terms 100 70 300)].
Definition committed : desk := desk_of (run_desks start committed_calls).
Definition settled_calls : list (Z * Z * desk_call) :=
  [(2, 20, Reveal 1 2 [1; 2; 3] deal 20000000 1000 false); (5, 301, Forfeit 2)].
Definition settled : desk := desk_of (run_desks committed settled_calls).

Lemma committed_steps : desk_steps 1 start committed.
Proof. apply run_desks_steps; vm_compute; reflexivity. Qed.

Lemma settled_steps : desk_steps 1 committed settled.
Proof. apply run_desks_steps; vm_compute; reflexivity. Qed.

Definition commitment_at (s : desk) (id : Z) : Commitment :=
  match load_commitment s id with
  | Ok c => c
  | _ => {| c_id := 0; c_trader := 0; commitment_hash := []; collateral_asset := 0; collateral_amount := 0;
            expiration_sequence := 0; committed_at_sequence := 0; c_state := CsActive |}
  end.

Lemma commitment_at_ok (s : desk) (id : Z) :
  is_ok (load_commitment s id) = true -> commitments s !! id = Some (commitment_at s id).
Proof. unfold commitment_at, load_commitment. by destruct (commitments s !! id). Qed.

Lemma desk_solvent_witness :
  balance (ledger (d_venue committed)) 100 1 = 570 /\
  liabilities (bk (d_venue committed)) 100 + bonds committed 100 <= balance (ledger (d_venue committed)) 100 1.
Proof.
  split; [vm_compute; reflexivity|].
  apply (desk_solvent (H := test_host) 1 sample_ledger committed 100); [vm_compute; discriminate|exact committed_steps].
Defined.

Lemma reveal_exact_witness :
  exists s' r, reveal (at_ 2 20) committed 1 2 [1; 2; 3] deal 20000000 1000 false = Ok (s', r) /\ bond_returned r = 500.
Proof.
  destruct (is_ok_Ok (reveal (at_ 2 20) committed 1 2 [1; 2; 3] deal 20000000 1000 false)) as [[s' r] E];
    [vm_compute; reflexivity|].
  destruct (reveal_exact (H := test_host) 1 sample_ledger (at_ 2 20) committed s' 1 2 [1; 2; 3] deal 20000000 1000 false r
    committed_steps (conj eq_refl eq_refl) E) as (c & o & v & Hc & _ & _ & _ & _ & _ & _ & _ & _ & _ & _ & _ & Hb & _).
  exists s', r. split; [exact E|]. rewrite Hb, (commitment_at_ok committed 1) in *; [|vm_compute; reflexivity..].
  injection Hc as <-. vm_compute. reflexivity.
Defined.

Lemma reveal_binding_witness :
  exists s' r, reveal (at_ 2 20) committed 1 2 [1; 2; 3] deal 20000000 1000 false = Ok (s', r) /\
    ((20000000 = 20000000 /\ 1000 = 1000 /\ false = false /\
      (length (to_xdr (pr_buy deal)) = length (to_xdr (pr_buy deal)) -> pr_buy deal = pr_buy deal /\
       (length (to_xdr (pr_sell deal)) = length (to_xdr (pr_sell deal)) -> pr_sell deal = pr_sell deal /\ [1; 2; 3] = [1; 2; 3])))
     \/ exists x y, x <> y /\ sha256 x = sha256 y).
Proof.
  destruct (is_ok_Ok (reveal (at_ 2 20) committed 1 2 [1; 2; 3] deal 20000000 1000 false)) as [[s' r] E];
    [vm_compute; reflexivity|].
  exists s', r. split; [exact E|].
  refine (reveal_binding test_host_laws (at_ 2 20) committed s' 1 (commitment_at committed 1) 2 [1; 2; 3] [1; 2; 3]
    deal deal 20000000 20000000 1000 1000 false false r _ _ _ E).
  - repeat constructor; cbn; lia.
  - apply commitment_at_ok. vm_compute. reflexivity.
  - vm_compute. reflexivity.
Defined.

Lemma commitment_settled_once_witness :
  c_state (commitment_at settled 1) = CsRevealed /\ c_state (commitment_at settled 2) = CsForfeited /\
  active_commitment_count settled 2 = 0 /\ active_commitment_count settled 2 <= MAX_ACTIVE_COMMITMENTS.
Proof.
  split; [vm_compute; reflexivity|]. split; [vm_compute; reflexivity|]. split; [vm_compute; reflexivity|].
  exact (proj2 (proj2 (commitment_settled_once (H := test_host) 1 sample_ledger committed settled committed_steps settled_steps) 2)).
Defined.
End witnesses.
