(* ===== verification/LpFarming.v ===== *)
(** * Liquidity mining

    [src/src/vaults/lp_farming.rs]: stakers of an LP token share an emission per
    ledger in proportion to their shares, by an accumulator of the reward per share.
    The module runs inside the root contract, on the ledger of the token contracts
    that the order book uses too; [pay] and [invocation] are those of [BookOps.v]. *)

From stdpp Require Import base numbers list gmap.
From Stdlib Require Import ZArith Lia.
From S2P Require Import Prelude Host Token RootErrors BookData BookTicks BookOps.

Open Scope Z_scope.

Definition REWARD_PRECISION : Z := 10 ^ 18.
Definition DEFAULT_EMISSION_MULTIPLIER : Z := 10000.
Definition MAX_EMISSION_MULTIPLIER : Z := 100000.

Section farm.
Context {H : Host} {T : Tokens H}.

Record FarmingConfig := {
  fc_admin : Address;
  lp_token : Address;
  reward_token : Address;
  emission_per_ledger : Z;
  emission_multiplier : Z
}.

(** [FarmingStorageKey], one field per variant. *)
Record farm := {
  f_config : option FarmingConfig;
  f_total_shares : option Z;
  f_acc_reward : option Z;
  f_last_ledger : option Z;
  f_shares : gmap Address Z;
  f_debts : gmap Address Z;
  f_accrued : gmap Address Z
}.

Definition empty_farm : farm :=
  {| f_config := None; f_total_shares := None; f_acc_reward := None; f_last_ledger := None;
     f_shares := ∅; f_debts := ∅; f_accrued := ∅ |}.

(** The farm and the ledger of the tokens. *)
Record house := { h_farm : farm; h_ledger : Ledger }.

Definition set_pool (s : farm) (acc last : option Z) : farm :=
  {| f_config := f_config s; f_total_shares := f_total_shares s; f_acc_reward := acc; f_last_ledger := last;
     f_shares := f_shares s; f_debts := f_debts s; f_accrued := f_accrued s |}.

Definition set_config (s : farm) (c : FarmingConfig) : farm :=
  {| f_config := Some c; f_total_shares := f_total_shares s; f_acc_reward := f_acc_reward s;
     f_last_ledger := f_last_ledger s; f_shares := f_shares s; f_debts := f_debts s; f_accrued := f_accrued s |}.

Definition set_total (s : farm) (n : Z) : farm :=
  {| f_config := f_config s; f_total_shares := Some n; f_acc_reward := f_acc_reward s;
     f_last_ledger := f_last_ledger s; f_shares := f_shares s; f_debts := f_debts s; f_accrued := f_accrued s |}.

Definition set_users (s : farm) (shares debts accrued : gmap Address Z) : farm :=
  {| f_config := f_config s; f_total_shares := f_total_shares s; f_acc_reward := f_acc_reward s;
     f_last_ledger := f_last_ledger s; f_shares := shares; f_debts := debts; f_accrued := accrued |}.

(** ** Storage helpers *)
Definition load_config (s : farm) : R FarmingConfig := ok_or (f_config s) NotInitialized.

Definition read_i128 (m : gmap Address Z) (user : Address) : Z := default 0 (m !! user).

Definition write_i128 (m : gmap Address Z) (user : Address) (value : Z) : gmap Address Z :=
  if value =? 0 then delete user m else <[user := value]> m.

Definition total_shares (s : farm) : Z := default 0 (f_total_shares s).
Definition accumulated_reward_per_share (s : farm) : Z := default 0 (f_acc_reward s).

(** ** The accumulator *)
Definition update_pool (i : invocation) (s : farm) (config : FarmingConfig) : R (farm * Z) :=
  let current_ledger := sequence i in
  let last_ledger := default current_ledger (f_last_ledger s) in
  if current_ledger <=? last_ledger then mret (s, accumulated_reward_per_share s) else
  let shares := total_shares s in
  if 0 <? shares then
    elapsed ← isub U32 current_ledger last_ledger;
    e1 ← ok_or (checked_mul I128 (emission_per_ledger config) elapsed) MathOverflow;
    e2 ← ok_or (checked_mul I128 e1 (emission_multiplier config)) MathOverflow;
    emitted ← ok_or (checked_div I128 e2 DEFAULT_EMISSION_MULTIPLIER) DivisionByZero;
    r ← ok_or (checked_mul I128 emitted REWARD_PRECISION) MathOverflow;
    reward_per_share ← ok_or (checked_div I128 r shares) DivisionByZero;
    acc ← ok_or (checked_add I128 (accumulated_reward_per_share s) reward_per_share) MathOverflow;
    mret (set_pool s (Some acc) (Some current_ledger), acc)
  else mret (set_pool s (f_acc_reward s) (Some current_ledger), accumulated_reward_per_share s).

(** [shares * acc_reward_per_share / REWARD_PRECISION] *)
Definition reward_of (shares acc : Z) : R Z :=
  m ← ok_or (checked_mul I128 shares acc) MathOverflow;
  ok_or (checked_div I128 m REWARD_PRECISION) DivisionByZero.

Definition settle_user (s : farm) (user : Address) (acc_reward_per_share : Z) : R farm :=
  let shares := read_i128 (f_shares s) user in
  let reward_debt := read_i128 (f_debts s) user in
  accrued ← reward_of shares acc_reward_per_share;
  pending ← ok_or (checked_sub I128 accrued reward_debt) MathOverflow;
  rewards ← (if 0 <? pending then
               n ← ok_or (checked_add I128 (read_i128 (f_accrued s) user) pending) MathOverflow;
               mret (write_i128 (f_accrued s) user n)
             else mret (f_accrued s));
  mret (set_users s (f_shares s) (write_i128 (f_debts s) user accrued) rewards).

(** ** Entry points *)
Definition initialize (i : invocation) (h : house) (admin lp reward : Address) (emission : Z) :
    R (house * FarmingConfig) :=
  _ ← fail_if (bool_decide (is_Some (f_config (h_farm h)))) AlreadyInitialized;
  _ ← fail_if (emission <? 0) InvalidStakeAmount;
  _ ← require_auth (auth i) admin;
  let config := {| fc_admin := admin; lp_token := lp; reward_token := reward; emission_per_ledger := emission;
                   emission_multiplier := DEFAULT_EMISSION_MULTIPLIER |} in
  let s := set_config (h_farm h) config in
  mret ({| h_farm := set_pool s (f_acc_reward s) (Some (sequence i)); h_ledger := h_ledger h |}, config).

Definition fund_rewards (i : invocation) (h : house) (funder : Address) (amount : Z) : R house :=
  _ ← fail_if (amount <=? 0) InvalidStakeAmount;
  config ← load_config (h_farm h);
  _ ← require_auth (auth i) funder;
  l ← pay (h_ledger h) (reward_token config) funder (current_contract i) amount;
  mret {| h_farm := h_farm h; h_ledger := l |}.

Definition stake_preauthorized (i : invocation) (h : house) (user : Address) (amount : Z) : R (house * Z) :=
  _ ← fail_if (amount <=? 0) InvalidStakeAmount;
  config ← load_config (h_farm h);
  '(s1, acc) ← update_pool i (h_farm h) config;
  s2 ← settle_user s1 user acc;
  l ← pay (h_ledger h) (lp_token config) user (current_contract i) amount;
  new_shares ← ok_or (checked_add I128 (read_i128 (f_shares s2) user) amount) MathOverflow;
  debt ← reward_of new_shares acc;
  total ← ok_or (checked_add I128 (total_shares s2) amount) MathOverflow;
  let s3 := set_users s2 (write_i128 (f_shares s2) user new_shares) (write_i128 (f_debts s2) user debt)
              (f_accrued s2) in
  mret ({| h_farm := set_total s3 total; h_ledger := l |}, amount).

Definition stake (i : invocation) (h : house) (user : Address) (amount : Z) : R (house * Z) :=
  _ ← fail_if (amount <=? 0) InvalidStakeAmount;
  _ ← load_config (h_farm h);
  _ ← require_auth (auth i) user;
  stake_preauthorized i h user amount.

(** The payment of a reward, in [claim_rewards] and [exit]. *)
Definition pay_reward (i : invocation) (s : farm) (l : Ledger) (config : FarmingConfig) (user : Address)
    (amount : Z) : R (farm * Ledger) :=
  if 0 <? amount then
    l' ← pay l (reward_token config) (current_contract i) user amount;
    mret (set_users s (f_shares s) (f_debts s) (write_i128 (f_accrued s) user 0), l')
  else mret (s, l).

Definition claim_rewards (i : invocation) (h : house) (user : Address) : R (house * Z) :=
  config ← load_config (h_farm h);
  _ ← require_auth (auth i) user;
  '(s1, acc) ← update_pool i (h_farm h) config;
  s2 ← settle_user s1 user acc;
  let amount := read_i128 (f_accrued s2) user in
  '(s3, l) ← pay_reward i s2 (h_ledger h) config user amount;
  mret ({| h_farm := s3; h_ledger := l |}, amount).

Definition exit (i : invocation) (h : house) (user : Address) : R (house * (Z * Z)) :=
  config ← load_config (h_farm h);
  _ ← require_auth (auth i) user;
  '(s1, acc) ← update_pool i (h_farm h) config;
  s2 ← settle_user s1 user acc;
  let reward := read_i128 (f_accrued s2) user in
  let shares := read_i128 (f_shares s2) user in
  '(s3, l1) ← pay_reward i s2 (h_ledger h) config user reward;
  if 0 <? shares then
    total ← ok_or (checked_sub I128 (total_shares s3) shares) MathOverflow;
    l2 ← pay l1 (lp_token config) (current_contract i) user shares;
    let s4 := set_users s3 (write_i128 (f_shares s3) user 0) (write_i128 (f_debts s3) user 0) (f_accrued s3) in
    mret ({| h_farm := set_total s4 total; h_ledger := l2 |}, (shares, reward))
  else mret ({| h_farm := s3; h_ledger := l1 |}, (shares, reward)).

Definition set_emission_multiplier (i : invocation) (h : house) (governance : Address) (multiplier : Z) :
    R (house * FarmingConfig) :=
  config ← load_config (h_farm h);
  _ ← fail_if (bool_decide (fc_admin config <> governance)) NotAdmin;
  _ ← require_auth (auth i) governance;
  _ ← fail_if (MAX_EMISSION_MULTIPLIER <? multiplier) FeeCeilingExceeded;
  '(s1, _) ← update_pool i (h_farm h) config;
  let config' := {| fc_admin := fc_admin config; lp_token := lp_token config; reward_token := reward_token config;
                    emission_per_ledger := emission_per_ledger config; emission_multiplier := multiplier |} in
  mret ({| h_farm := set_config s1 config'; h_ledger := h_ledger h |}, config').

(** ** Views; [pending_rewards] also updates the pool. *)
Definition get_share_balance (s : farm) (user : Address) : Z := read_i128 (f_shares s) user.

Definition pending_rewards (i : invocation) (s : farm) (user : Address) : R (farm * Z) :=
  config ← load_config s;
  '(s1, acc) ← update_pool i s config;
  accrued ← reward_of (read_i128 (f_shares s1) user) acc;
  d ← ok_or (checked_sub I128 accrued (read_i128 (f_debts s1) user)) MathOverflow;
  n ← ok_or (checked_add I128 (read_i128 (f_accrued s1) user) d) MathOverflow;
  mret (s1, n).
End farm.
