(* ===== verification/FarmBooks.v ===== *)
(** * Liquidity mining: the books of the farm

    The invariant of the farm, and its potential: what the accumulator credits to all
    stakers, in units of [1 / REWARD_PRECISION] of a reward token. An accrual raises
    the potential by at most the emission, settling a user leaves it alone, and a
    stake rounds it up by less than one token. *)

From stdpp Require Import base numbers list gmap.
From Stdlib Require Import ZArith Lia.
From S2P Require Import Prelude Host Token RootErrors BookData BookTicks BookOps BookSteps BookMargin LpFarming.

Open Scope Z_scope.

Section books.
Context {H : Host} {T : Tokens H}.

Definition msum_of (m : gmap Address Z) : Z := msum (fun _ x => x) m.

Lemma read_write (m : gmap Address Z) (u w : Address) (x : Z) :
  read_i128 (write_i128 m u x) w = if decide (u = w) then x else read_i128 m w.
Proof.
  unfold read_i128, write_i128. destruct (Z.eqb_spec x 0) as [->|Hx], (decide (u = w)) as [->|Hne].
  - by rewrite lookup_delete_eq.
  - by rewrite lookup_delete_ne.
  - by rewrite lookup_insert_eq.
  - by rewrite lookup_insert_ne.
Qed.

Lemma sum_write (m : gmap Address Z) (u : Address) (x : Z) :
  msum_of (write_i128 m u x) = msum_of m - read_i128 m u + x.
Proof.
  unfold msum_of, write_i128, read_i128. destruct (Z.eqb_spec x 0) as [->|Hx].
  - rewrite msum_delete. unfold term. destruct (m !! u); cbn; lia.
  - rewrite msum_insert. unfold term. destruct (m !! u); cbn; lia.
Qed.

Lemma write_nonneg (m : gmap Address Z) (u : Address) (x : Z) :
  (forall w, 0 <= read_i128 m w) -> 0 <= x -> forall w, 0 <= read_i128 (write_i128 m u x) w.
Proof. intros Hm Hx w. rewrite read_write. destruct (decide _); [done|apply Hm]. Qed.

Lemma sum_nonneg (m : gmap Address Z) : (forall w, 0 <= read_i128 m w) -> 0 <= msum_of m.
Proof. intros Hm. apply msum_nonneg. intros k x Hk. specialize (Hm k). unfold read_i128 in Hm. by rewrite Hk in Hm. Qed.

Record farm_ok (s : farm) : Prop := {
  fk_total : total_shares s = msum_of (f_shares s);
  fk_acc : 0 <= accumulated_reward_per_share s;
  fk_shares : forall u, 0 <= read_i128 (f_shares s) u;
  fk_accrued : forall u, 0 <= read_i128 (f_accrued s) u;
  fk_debt : forall u, 0 <= read_i128 (f_debts s) u /\
    REWARD_PRECISION * read_i128 (f_debts s) u <= read_i128 (f_shares s) u * accumulated_reward_per_share s;
  fk_config : forall c, f_config s = Some c -> 0 <= emission_per_ledger c /\ 0 <= emission_multiplier c
}.

Definition potential (s : farm) : Z :=
  REWARD_PRECISION * msum_of (f_accrued s) + accumulated_reward_per_share s * msum_of (f_shares s)
    - REWARD_PRECISION * msum_of (f_debts s).

(** What a user can claim now: accrued, and since the last settlement. *)
Definition pending_of (s : farm) (acc : Z) (user : Address) : Z :=
  read_i128 (f_accrued s) user + read_i128 (f_shares s) user * acc / REWARD_PRECISION - read_i128 (f_debts s) user.

(** The emission an update of the pool credits. *)
Definition emission_due (i : invocation) (s : farm) : Z :=
  match f_config s, f_last_ledger s with
  | Some c, Some last =>
      if (last <? sequence i) && (0 <? total_shares s)
      then emission_per_ledger c * (sequence i - last) * emission_multiplier c / DEFAULT_EMISSION_MULTIPLIER
      else 0
  | _, _ => 0
  end.

Lemma reward_of_Ok (x acc r : Z) :
  0 <= x -> 0 <= acc -> reward_of x acc = Ok r -> r = x * acc / REWARD_PRECISION /\ 0 <= r.
Proof.
  intros Hx Ha Hr. unfold reward_of in Hr. apply bind_Ok in Hr as (m & [-> _]%ok_or_Ok%chk_Some & Hr).
  apply ok_or_Ok, checked_div_Some in Hr as [_ ->].
  rewrite Z.quot_div_nonneg by (try done; nia). split; [done|]. apply Z.div_pos; [nia|done].
Qed.

(** Fields an update or a settlement leaves alone. *)
Definition same_users (s s' : farm) : Prop :=
  f_config s' = f_config s /\ f_total_shares s' = f_total_shares s /\ f_shares s' = f_shares s /\
  f_debts s' = f_debts s /\ f_accrued s' = f_accrued s.

Lemma update_pool_Ok (i : invocation) (s s' : farm) (c : FarmingConfig) (acc : Z) :
  farm_ok s -> f_config s = Some c -> update_pool i s c = Ok (s', acc) ->
  same_users s s' /\ acc = accumulated_reward_per_share s' /\ farm_ok s' /\ 0 <= emission_due i s /\
  potential s' <= potential s + REWARD_PRECISION * emission_due i s.
Proof.
  intros Hok Hc Hu. destruct (fk_config s Hok c Hc) as [He Hm].
  assert (forall s1, same_users s s1 -> accumulated_reward_per_share s <= accumulated_reward_per_share s1 -> farm_ok s1) as Hgen.
  { intros s1 (E1 & E2 & E3 & E4 & E5) Hacc. destruct Hok as [K1 K2 K3 K4 K5 K6]. unfold total_shares in K1.
    constructor; unfold total_shares; rewrite ?E1, ?E2, ?E3, ?E4, ?E5; try done; [lia|].
    intros u. specialize (K5 u). specialize (K3 u). split; [apply K5|]. nia. }
  unfold update_pool in Hu.
  assert (0 < REWARD_PRECISION) as HP by done.
  destruct (Z.leb_spec (sequence i) (default (sequence i) (f_last_ledger s))) as [Hle|Hlt].
  { injection Hu as <- <-. assert (emission_due i s = 0) as ->.
    { unfold emission_due. rewrite Hc. destruct (f_last_ledger s) as [last|]; [|done]. cbn in Hle.
      by rewrite (proj2 (Z.ltb_ge _ _)). }
    split_and!; try done. lia. }
  destruct (f_last_ledger s) as [last|] eqn:El; cbn [default from_option id] in *; [|lia]. unfold Datatypes.id in *.
  unfold emission_due. rewrite Hc, El, (proj2 (Z.ltb_lt last (sequence i)) Hlt). cbn [andb].
  destruct (Z.ltb_spec 0 (total_shares s)) as [Hts|Hts].
  - apply bind_Ok in Hu as (el & [-> _]%iop_Ok & Hu). apply bind_Ok in Hu as (e1 & [-> _]%ok_or_Ok%chk_Some & Hu).
    apply bind_Ok in Hu as (e2 & [-> _]%ok_or_Ok%chk_Some & Hu).
    apply bind_Ok in Hu as (em & [_ ->]%ok_or_Ok%checked_div_Some & Hu).
    apply bind_Ok in Hu as (r & [-> _]%ok_or_Ok%chk_Some & Hu).
    apply bind_Ok in Hu as (rps & [_ ->]%ok_or_Ok%checked_div_Some & Hu).
    apply bind_Ok in Hu as (a & [-> _]%ok_or_Ok%chk_Some & Hu). injection Hu as <- <-.
    assert (0 <= emission_per_ledger c * (sequence i - last) * emission_multiplier c) as Hn by (apply Z.mul_nonneg_nonneg; [apply Z.mul_nonneg_nonneg|]; lia).
    rewrite (Z.quot_div_nonneg _ DEFAULT_EMISSION_MULTIPLIER) by done.
    set (em := _ / DEFAULT_EMISSION_MULTIPLIER). assert (0 <= em) as Hem by (apply Z.div_pos; done).
    rewrite (Z.quot_div_nonneg (em * _)) by (try done; nia).
    set (rps := em * REWARD_PRECISION / total_shares s).
    assert (0 <= rps /\ total_shares s * rps <= em * REWARD_PRECISION) as [Hr0 Hr1].
    { split; [apply Z.div_pos; nia|by apply Z.mul_div_le]. }
    split; [done|]. split; [done|]. split; [apply Hgen; [done|]; cbn; lia|]. split; [done|].
    unfold potential. cbn [set_pool f_accrued f_shares f_debts]. change (accumulated_reward_per_share (set_pool _ _ _))
      with (accumulated_reward_per_share s + rps). rewrite <- (fk_total s Hok). lia.
  - injection Hu as <- <-. split; [done|]. split; [done|]. split; [apply Hgen; [done|apply Z.le_refl]|]. split; [done|].
    change (potential (set_pool _ _ _)) with (potential s). lia.
Qed.

Lemma settle_user_Ok (s s' : farm) (u : Address) :
  farm_ok s -> settle_user s u (accumulated_reward_per_share s) = Ok s' ->
  let acc := accumulated_reward_per_share s in
  f_config s' = f_config s /\ f_total_shares s' = f_total_shares s /\ f_acc_reward s' = f_acc_reward s /\
  f_last_ledger s' = f_last_ledger s /\ f_shares s' = f_shares s /\
  read_i128 (f_debts s') u = read_i128 (f_shares s) u * acc / REWARD_PRECISION /\
  read_i128 (f_accrued s') u = pending_of s acc u /\
  (forall w, w <> u -> read_i128 (f_debts s') w = read_i128 (f_debts s) w /\
     read_i128 (f_accrued s') w = read_i128 (f_accrued s) w) /\
  farm_ok s' /\ potential s' = potential s.
Proof.
  intros Hok Hs acc. unfold settle_user in Hs. pose proof (fk_shares s Hok u) as Hsh. pose proof (fk_acc s Hok) as Hacc.
  apply bind_Ok in Hs as (r & [-> Hr]%reward_of_Ok & Hs); [|done..]. fold acc in Hs, Hr, Hacc.
  apply bind_Ok in Hs as (pd & [-> _]%ok_or_Ok%chk_Some & Hs). apply bind_Ok in Hs as (rw & Hrw & Hs). injection Hs as <-.
  destruct (fk_debt s Hok u) as [Hd0 Hd]. fold acc in Hd.
  set (fl := read_i128 (f_shares s) u * acc / REWARD_PRECISION) in *.
  assert (read_i128 (f_debts s) u <= fl) as Hdf by (apply Z.div_le_lower_bound; [done|lia]).
  assert (read_i128 rw u = pending_of s acc u /\ (forall w, w <> u -> read_i128 rw w = read_i128 (f_accrued s) w) /\
    msum_of rw = msum_of (f_accrued s) + (fl - read_i128 (f_debts s) u)) as (E1 & E2 & E3).
  { unfold pending_of. fold fl. destruct (Z.ltb_spec 0 (fl - read_i128 (f_debts s) u)).
    - apply bind_Ok in Hrw as (n & [-> _]%ok_or_Ok%chk_Some & Hrw). injection Hrw as <-. rewrite sum_write.
      split; [rewrite read_write, decide_True by done; lia|]. split; [|lia].
      intros w Hw. by rewrite read_write, decide_False.
    - injection Hrw as <-. split; [lia|]. split; [done|lia]. }
  cbn [set_users f_config f_total_shares f_acc_reward f_last_ledger f_shares f_debts f_accrued].
  assert (forall w, w <> u -> read_i128 (write_i128 (f_debts s) u fl) w = read_i128 (f_debts s) w) as E4.
  { intros w Hw. by rewrite read_write, decide_False. }
  split_and!; try done.
  - by rewrite read_write, decide_True.
  - intros w Hw. split; [by apply E4|by apply E2].
  - destruct Hok as [K1 K2 K3 K4 K5 K6]. constructor; try done.
    + intros w. cbn [set_users f_accrued]. destruct (decide (w = u)) as [->|Hw]; [rewrite E1; unfold pending_of; fold fl; specialize (K4 u); lia|].
      by rewrite E2.
    + intros w. cbn [set_users f_debts f_shares]. change (accumulated_reward_per_share _) with acc. destruct (decide (w = u)) as [->|Hw].
      * rewrite read_write, decide_True by done. split; [done|]. by apply Z.mul_div_le.
      * rewrite E4 by done. apply K5.
  - unfold potential. cbn [set_users f_accrued f_shares f_debts].
    change (accumulated_reward_per_share (set_users _ _ _ _)) with acc. fold acc. rewrite E3, sum_write. lia.
Qed.
End books.
