(* ===== verification/FarmTheorems.v ===== *)
(** * Liquidity mining: the properties

    Histories of the farm: its shares are backed by LP tokens, the rewards never
    exceed the emission but for the rounding of stakes, a stake earns nothing for the
    past, and a claim pays what the view announced; and what happens to rewards nobody
    funded. *)

From stdpp Require Import base numbers list gmap.
From Stdlib Require Import ZArith Lia.
From S2P Require Import Prelude Host Token RootErrors BookData BookTicks BookSort BookInv BookOps BookSteps BookMargin BookMarket BookHistory BookTheorems LpFarming FarmBooks.

Open Scope Z_scope.

Section claims.
Context {H : Host} {T : Tokens H}.

Inductive farm_call :=
  | FInit (admin lp reward : Address) (emission : Z)
  | FFund (funder : Address) (amount : Z)
  | FStake (user : Address) (amount : Z)
  | FClaim (user : Address)
  | FExit (user : Address)
  | FSetMultiplier (governance : Address) (multiplier : Z)
  | FPending (user : Address).

(** The new state with the reward that was paid. *)
Definition run_farm (i : invocation) (h : house) (c : farm_call) : R (house * Z) :=
  match c with
  | FInit admin lp reward emission => r ← initialize i h admin lp reward emission; mret (r.1, 0)
  | FFund funder amount => h' ← fund_rewards i h funder amount; mret (h', 0)
  | FStake user amount => r ← stake i h user amount; mret (r.1, 0)
  | FClaim user => claim_rewards i h user
  | FExit user => r ← exit i h user; mret (r.1, r.2.2)
  | FSetMultiplier governance multiplier => r ← set_emission_multiplier i h governance multiplier; mret (r.1, 0)
  | FPending user => r ← pending_rewards i (h_farm h) user; mret ({| h_farm := r.1; h_ledger := h_ledger h |}, 0)
  end.

(** Whether the call updates the pool, and whether it is a stake. *)
Definition accrues (c : farm_call) : bool := match c with FInit _ _ _ _ | FFund _ _ => false | _ => true end.
Definition is_stake (c : farm_call) : bool := match c with FStake _ _ => true | _ => false end.
Definition multiplier_typed (c : farm_call) : bool := match c with FSetMultiplier _ m => 0 <=? m | _ => true end.

Variable self : Address.

(** Histories from an empty farm, with what was emitted to the stakers, what was paid
    out as reward, and the number of stakes. *)
Inductive farm_history (l0 : Ledger) : house -> Z -> Z -> Z -> Prop :=
  | farm_start : farm_history l0 {| h_farm := empty_farm; h_ledger := l0 |} 0 0 0
  | farm_next h emitted paid stakes i c h' x :
      farm_history l0 h emitted paid stakes -> honest self i -> multiplier_typed c = true ->
      run_farm i h c = Ok (h', x) ->
      farm_history l0 h' (emitted + if accrues c then emission_due i (h_farm h) else 0) (paid + x)
        (stakes + if is_stake c then 1 else 0).

Context {TL : TokenLaws H T}.

(** The shares are backed by LP tokens, unless rewards are paid in the same token. *)
Definition backed (h : house) : Prop :=
  (forall a, 0 <= balance (h_ledger h) a self) /\
  forall c, f_config (h_farm h) = Some c -> lp_token c <> reward_token c ->
    total_shares (h_farm h) <= balance (h_ledger h) (lp_token c) self.

Lemma pay_nonneg (l l' : Ledger) (tok from to : Address) (amt : Z) :
  (forall a, 0 <= balance l a self) -> pay l tok from to amt = Ok l' -> forall a, 0 <= balance l' a self.
Proof.
  intros Hl Hp a. apply unwrap_Ok, transfer_spec in Hp as [Ha ->]. specialize (Hl a). unfold at_account.
  repeat case_decide; try lia. destruct_and!. subst. lia.
Qed.

(** Updating the pool and settling a user, the first half of every operation. *)
Lemma settled_Ok (i : invocation) (s s1 s2 : farm) (c : FarmingConfig) (acc : Z) (user : Address) :
  farm_ok s -> f_config s = Some c -> update_pool i s c = Ok (s1, acc) -> settle_user s1 user acc = Ok s2 ->
  farm_ok s2 /\ potential s2 <= potential s + REWARD_PRECISION * emission_due i s /\ 0 <= emission_due i s /\
  f_config s2 = Some c /\ total_shares s2 = total_shares s /\ f_shares s2 = f_shares s /\
  f_last_ledger s2 = f_last_ledger s1 /\ acc = accumulated_reward_per_share s2 /\
  read_i128 (f_debts s2) user = read_i128 (f_shares s) user * acc / REWARD_PRECISION /\
  read_i128 (f_accrued s2) user = pending_of s acc user /\
  (forall w, w <> user -> pending_of s2 acc w = pending_of s acc w).
Proof.
  intros Hok Hc Hu Hs. destruct (update_pool_Ok i s s1 c acc Hok Hc Hu) as ((E1 & E2 & E3 & E4 & E5) & -> & Hok1 & Hd & Hp).
  destruct (settle_user_Ok s1 s2 user Hok1 Hs) as (F1 & F2 & F3 & F4 & F5 & F6 & F7 & F8 & Hok2 & Hp2).
  split_and!; try done.
  - lia.
  - by rewrite F1, E1.
  - unfold total_shares. by rewrite F2, E2.
  - by rewrite F5, E3.
  - unfold accumulated_reward_per_share. by rewrite F3.
  - by rewrite F6, E3.
  - rewrite F7. unfold pending_of. by rewrite E3, E4, E5.
  - intros w Hw. destruct (F8 w Hw) as [G1 G2]. unfold pending_of. by rewrite G1, G2, F5, E3, E4, E5.
Qed.

Lemma stake_Ok (i : invocation) (h h' : house) (user : Address) (amount x : Z) :
  honest self i -> farm_ok (h_farm h) -> stake i h user amount = Ok (h', x) ->
  exists c acc, f_config (h_farm h) = Some c /\ 0 < amount /\ auth i user = true /\ f_config (h_farm h') = Some c /\
    farm_ok (h_farm h') /\ total_shares (h_farm h') = total_shares (h_farm h) + amount /\
    potential (h_farm h') <= potential (h_farm h) + REWARD_PRECISION * emission_due i (h_farm h) + REWARD_PRECISION /\
    pay (h_ledger h) (lp_token c) user self amount = Ok (h_ledger h') /\
    (exists s1, update_pool i (h_farm h) c = Ok (s1, acc) /\ f_last_ledger (h_farm h') = f_last_ledger s1) /\
    acc = accumulated_reward_per_share (h_farm h') /\
    read_i128 (f_shares (h_farm h')) user = read_i128 (f_shares (h_farm h)) user + amount /\
    (forall w, w <> user -> read_i128 (f_shares (h_farm h')) w = read_i128 (f_shares (h_farm h)) w) /\
    forall w, pending_of (h_farm h') acc w = pending_of (h_farm h) acc w.
Proof.
  intros Hi Hok Hs. unfold stake in Hs. apply bind_Ok in Hs as (? & Ha%fail_if_Ok%Z.leb_gt & Hs).
  apply bind_Ok in Hs as (? & _ & Hs). apply bind_Ok in Hs as (? & Hau%require_auth_Ok & Hs).
  unfold stake_preauthorized in Hs. apply bind_Ok in Hs as (? & _ & Hs).
  apply bind_Ok in Hs as (c & Hc%ok_or_Ok & Hs). apply bind_Ok in Hs as ([s1 acc] & Hu & Hs).
  apply bind_Ok in Hs as (s2 & Hst & Hs). apply bind_Ok in Hs as (l & Hl & Hs). rewrite (proj1 Hi) in Hl.
  destruct (settled_Ok i _ s1 s2 c acc user Hok Hc Hu Hst) as (Hok2 & Hp2 & _ & Ec & Et & Esh & Elast & Eacc & Ed & Eac & Eo).
  apply bind_Ok in Hs as (ns & [-> _]%ok_or_Ok%chk_Some & Hs).
  pose proof (fk_shares _ Hok2 user) as Hsh. pose proof (fk_acc _ Hok2) as Hacc. rewrite <- Eacc in Hacc.
  apply bind_Ok in Hs as (db & [-> Hdb]%reward_of_Ok & Hs); [|lia|done].
  apply bind_Ok in Hs as (tot & [-> _]%ok_or_Ok%chk_Some & Hs). injection Hs as <- <-. cbn [h_farm h_ledger].
  rewrite Esh in *. set (sh := read_i128 (f_shares (h_farm h)) user) in *.
  set (db := (sh + amount) * acc / REWARD_PRECISION) in *.
  assert (REWARD_PRECISION * db <= (sh + amount) * acc < REWARD_PRECISION * db + REWARD_PRECISION) as Hdbp.
  { pose proof (Z.mul_div_le ((sh + amount) * acc) REWARD_PRECISION ltac:(done)).
    pose proof (Z.mul_succ_div_gt ((sh + amount) * acc) REWARD_PRECISION ltac:(done)). lia. }
  pose proof (Z.mul_div_le (sh * acc) REWARD_PRECISION ltac:(done)) as Hold.
  set (s4 := set_total _ _). exists c, acc.
  assert (accumulated_reward_per_share s4 = acc) as Eacc4 by (rewrite Eacc; done).
  assert (f_shares s4 = write_i128 (f_shares (h_farm h)) user (sh + amount) /\ f_debts s4 = write_i128 (f_debts s2) user db /\
    f_accrued s4 = f_accrued s2) as (F1 & F2 & F3) by done.
  split_and!; try done.
  - destruct Hok2 as [K1 K2 K3 K4 K5 K6]. rewrite Esh in K1, K3. constructor; rewrite ?F1, ?F2, ?F3, ?Eacc4; try done; try lia.
    + rewrite sum_write. fold sh. change (total_shares s4) with (total_shares s2 + amount). lia.
    + apply write_nonneg; [done|lia].
    + intros w. rewrite !read_write. destruct (decide (user = w)) as [<-|Hw]; [lia|]. specialize (K5 w). by rewrite Esh, <- Eacc in K5.
  - change (total_shares s4) with (total_shares s2 + amount). by rewrite Et.
  - unfold potential in *. rewrite F1, F2, F3, Eacc4, !sum_write, Ed. rewrite Esh, <- Eacc in Hp2. fold sh. lia.
  - by exists s1.
  - by rewrite F1, read_write, decide_True.
  - intros w Hw. by rewrite F1, read_write, decide_False.
  - intros w. unfold pending_of at 1. rewrite F1, F2, F3, !read_write. destruct (decide (user = w)) as [<-|Hw].
    + rewrite Eac. fold db. lia.
    + rewrite <- (Eo w) by done. unfold pending_of. by rewrite Esh.
Qed.

Lemma clear_accrued (s : farm) (user : Address) :
  farm_ok s -> let s' := set_users s (f_shares s) (f_debts s) (write_i128 (f_accrued s) user 0) in
  farm_ok s' /\ potential s' = potential s - REWARD_PRECISION * read_i128 (f_accrued s) user /\
  forall w, read_i128 (f_accrued s') w = if decide (user = w) then 0 else read_i128 (f_accrued s) w.
Proof.
  intros [K1 K2 K3 K4 K5 K6] s'. split; [|split].
  - constructor; try done. by apply write_nonneg.
  - unfold potential. cbn [s' set_users f_accrued f_shares f_debts]. rewrite sum_write.
    change (accumulated_reward_per_share s') with (accumulated_reward_per_share s). lia.
  - intros w. cbn [s' set_users f_accrued]. apply read_write.
Qed.

(** Settling and paying the reward, the common part of [claim_rewards] and [exit]. *)
Lemma rewarded_Ok (i : invocation) (h : house) (s1 s2 s3 : farm) (l : Ledger) (c : FarmingConfig) (acc : Z) (user : Address) :
  honest self i -> farm_ok (h_farm h) -> f_config (h_farm h) = Some c ->
  update_pool i (h_farm h) c = Ok (s1, acc) -> settle_user s1 user acc = Ok s2 ->
  pay_reward i s2 (h_ledger h) c user (read_i128 (f_accrued s2) user) = Ok (s3, l) ->
  let x := pending_of (h_farm h) acc user in
  read_i128 (f_accrued s2) user = x /\ 0 <= x /\ farm_ok s3 /\ f_config s3 = Some c /\
  total_shares s3 = total_shares (h_farm h) /\ f_shares s3 = f_shares (h_farm h) /\ f_shares s2 = f_shares (h_farm h) /\
  potential s3 <= potential (h_farm h) + REWARD_PRECISION * emission_due i (h_farm h) - REWARD_PRECISION * x /\
  f_last_ledger s3 = f_last_ledger s1 /\ acc = accumulated_reward_per_share s3 /\
  read_i128 (f_debts s3) user = read_i128 (f_shares (h_farm h)) user * acc / REWARD_PRECISION /\
  (forall w, pending_of s3 acc w = if decide (user = w) then 0 else pending_of (h_farm h) acc w) /\
  (if 0 <? x then pay (h_ledger h) (reward_token c) self user x = Ok l else l = h_ledger h).
Proof.
  intros Hi Hok Hc Hu Hst Hpay x.
  destruct (settled_Ok i _ s1 s2 c acc user Hok Hc Hu Hst) as (Hok2 & Hp2 & _ & Ec & Et & Esh & Elast & Eacc & Ed & Eac & Eo).
  fold x in Eac. pose proof (fk_accrued _ Hok2 user) as Hx. rewrite Eac in Hx.
  assert (forall w, pending_of s2 acc w = if decide (user = w) then x else pending_of (h_farm h) acc w) as Epd.
  { intros w. destruct (decide (user = w)) as [<-|Hw]; [|by apply Eo]. unfold pending_of at 1. rewrite Eac, Ed, Esh. lia. }
  unfold pay_reward in Hpay. rewrite Eac in Hpay. rewrite (proj1 Hi) in Hpay. destruct (Z.ltb_spec 0 x) as [Hpos|Hz].
  - apply bind_Ok in Hpay as (l' & Hl & Hpay). injection Hpay as <- <-.
    destruct (clear_accrued s2 user Hok2) as (Hok3 & Hp3 & Hac3). rewrite Eac in Hp3.
    set (s3 := set_users _ _ _ _) in *. split_and!; try done; try lia.
    intros w. specialize (Epd w). unfold pending_of in *. rewrite Hac3.
    change (f_shares s3) with (f_shares s2). change (f_debts s3) with (f_debts s2).
    destruct (decide (user = w)) as [<-|Hw]; lia.
  - injection Hpay as <- <-. assert (x = 0) as Ex by lia. split_and!; try done; try lia.
    intros w. rewrite Epd. destruct (decide _); [lia|done].
Qed.

Lemma claim_Ok (i : invocation) (h h' : house) (user : Address) (x : Z) :
  honest self i -> farm_ok (h_farm h) -> claim_rewards i h user = Ok (h', x) ->
  exists c acc, f_config (h_farm h) = Some c /\ f_config (h_farm h') = Some c /\ auth i user = true /\
    (exists s1, update_pool i (h_farm h) c = Ok (s1, acc) /\ f_last_ledger (h_farm h') = f_last_ledger s1) /\
    farm_ok (h_farm h') /\ total_shares (h_farm h') = total_shares (h_farm h) /\
    f_shares (h_farm h') = f_shares (h_farm h) /\ x = pending_of (h_farm h) acc user /\ 0 <= x /\
    potential (h_farm h') <= potential (h_farm h) + REWARD_PRECISION * emission_due i (h_farm h) - REWARD_PRECISION * x /\
    acc = accumulated_reward_per_share (h_farm h') /\
    (forall w, pending_of (h_farm h') acc w = if decide (user = w) then 0 else pending_of (h_farm h) acc w) /\
    (if 0 <? x then pay (h_ledger h) (reward_token c) self user x = Ok (h_ledger h') else h_ledger h' = h_ledger h).
Proof.
  intros Hi Hok Hs. unfold claim_rewards in Hs. apply bind_Ok in Hs as (c & Hc%ok_or_Ok & Hs).
  apply bind_Ok in Hs as (? & Hau%require_auth_Ok & Hs). apply bind_Ok in Hs as ([s1 acc] & Hu & Hs).
  apply bind_Ok in Hs as (s2 & Hst & Hs). cbv zeta in Hs. apply bind_Ok in Hs as ([s3 l] & Hp & Hs). injection Hs as <- <-.
  destruct (rewarded_Ok i h s1 s2 s3 l c acc user Hi Hok Hc Hu Hst Hp)
    as (Ex & Hx & Hok3 & Ec & Et & Esh & _ & Hpot & Elast & Eacc & _ & Epd & Hl).
  exists c, acc. cbn [h_farm h_ledger]. rewrite Ex. split_and!; try done. by exists s1.
Qed.

Lemma exit_Ok (i : invocation) (h h' : house) (user : Address) (shares x : Z) :
  honest self i -> farm_ok (h_farm h) -> exit i h user = Ok (h', (shares, x)) ->
  exists c acc l1, f_config (h_farm h) = Some c /\ f_config (h_farm h') = Some c /\ auth i user = true /\
    (exists s1, update_pool i (h_farm h) c = Ok (s1, acc)) /\
    farm_ok (h_farm h') /\ shares = read_i128 (f_shares (h_farm h)) user /\
    total_shares (h_farm h') = total_shares (h_farm h) - shares /\
    (forall w, read_i128 (f_shares (h_farm h')) w = if decide (user = w) then 0 else read_i128 (f_shares (h_farm h)) w) /\
    x = pending_of (h_farm h) acc user /\ 0 <= x /\
    potential (h_farm h') <= potential (h_farm h) + REWARD_PRECISION * emission_due i (h_farm h) - REWARD_PRECISION * x /\
    (if 0 <? x then pay (h_ledger h) (reward_token c) self user x = Ok l1 else l1 = h_ledger h) /\
    (if 0 <? shares then pay l1 (lp_token c) self user shares = Ok (h_ledger h') else h_ledger h' = l1).
Proof.
  intros Hi Hok Hs. unfold exit in Hs. apply bind_Ok in Hs as (c & Hc%ok_or_Ok & Hs).
  apply bind_Ok in Hs as (? & Hau%require_auth_Ok & Hs). apply bind_Ok in Hs as ([s1 acc] & Hu & Hs).
  apply bind_Ok in Hs as (s2 & Hst & Hs). cbv zeta in Hs. apply bind_Ok in Hs as ([s3 l] & Hp & Hs).
  destruct (rewarded_Ok i h s1 s2 s3 l c acc user Hi Hok Hc Hu Hst Hp)
    as (Ex & Hx & Hok3 & Ec & Et & Esh & Esh2 & Hpot & _ & Eacc & Ed & Epd & Hl).
  rewrite Ex, Esh2 in Hs. rewrite (proj1 Hi) in Hs. set (sh := read_i128 (f_shares (h_farm h)) user) in *.
  pose proof (fk_shares _ Hok user) as Hsh. fold sh in Hsh. exists c, acc, l.
  destruct (Z.ltb_spec 0 sh) as [Hpos|Hz].
  - apply bind_Ok in Hs as (tot & [-> _]%ok_or_Ok%chk_Some & Hs). apply bind_Ok in Hs as (l2 & Hl2 & Hs).
    injection Hs as <- <- <-. cbn [h_farm h_ledger]. rewrite (proj2 (Z.ltb_lt _ _) Hpos). set (s4 := set_total _ _).
    assert (f_shares s4 = write_i128 (f_shares s3) user 0 /\ f_debts s4 = write_i128 (f_debts s3) user 0 /\
      f_accrued s4 = f_accrued s3 /\ accumulated_reward_per_share s4 = acc /\ total_shares s4 = total_shares s3 - sh)
      as (F1 & F2 & F3 & F4 & F5) by (rewrite Eacc; done).
    split_and!; try done; try lia.
    + by exists s1.
    + destruct Hok3 as [K1 K2 K3 K4 K5 K6]. constructor; rewrite ?F1, ?F2, ?F3, ?F4, ?F5; try done.
      * rewrite sum_write, Esh. fold sh. rewrite Esh in K1. lia.
      * lia.
      * by apply write_nonneg.
      * intros w. rewrite !read_write. destruct (decide (user = w)) as [<-|Hw]; [lia|]. specialize (K5 w). by rewrite <- Eacc in K5.
    + intros w. by rewrite F1, read_write, Esh.
    + unfold potential in *. rewrite F1, F2, F3, F4, !sum_write, Ed, Esh. rewrite Esh, <- Eacc in Hpot. fold sh.
      pose proof (Z.mul_div_le (sh * acc) REWARD_PRECISION ltac:(done)). lia.
  - injection Hs as <- <- <-. assert (sh = 0) as E0 by lia. cbn [h_farm h_ledger].
    rewrite (proj2 (Z.ltb_ge 0 sh)) by lia. split_and!; try done; try lia.
    + by exists s1.
    + intros w. rewrite Esh. destruct (decide (user = w)) as [<-|]; [exact E0|done].
Qed.

(** What a pool update leaves when nobody is settled. *)
Lemma updated_ok (i : invocation) (s s1 : farm) (c : FarmingConfig) (acc : Z) :
  farm_ok s -> f_config s = Some c -> update_pool i s c = Ok (s1, acc) ->
  farm_ok s1 /\ f_config s1 = Some c /\ total_shares s1 = total_shares s /\
  potential s1 <= potential s + REWARD_PRECISION * emission_due i s.
Proof.
  intros Hok Hc Hu. destruct (update_pool_Ok i s s1 c acc Hok Hc Hu) as ((E1 & E2 & _) & _ & Hok1 & _ & Hp).
  split_and!; [done|congruence| |done]. unfold total_shares. by rewrite E2.
Qed.

(** The state of a history. *)
Record history_ok (h : house) (emitted paid stakes : Z) : Prop := {
  ho_farm : farm_ok (h_farm h);
  ho_backed : backed h;
  ho_fresh : f_config (h_farm h) = None -> total_shares (h_farm h) = 0;
  ho_paid : 0 <= paid;
  ho_bound : potential (h_farm h) + REWARD_PRECISION * paid <= REWARD_PRECISION * emitted + REWARD_PRECISION * stakes
}.

Lemma backed_pay (h : house) (l' : Ledger) (tok from to : Address) (amt : Z) (s' : farm) :
  backed h -> pay (h_ledger h) tok from to amt = Ok l' -> f_config s' = f_config (h_farm h) ->
  (forall c, f_config s' = Some c -> lp_token c <> reward_token c ->
     total_shares s' - total_shares (h_farm h) <= (if decide (to = self) then in_asset tok (lp_token c) amt else 0)
       - (if decide (from = self) then in_asset tok (lp_token c) amt else 0)) ->
  backed {| h_farm := s'; h_ledger := l' |}.
Proof.
  intros [Hn Hb] Hp Ec Ht. split; cbn [h_farm h_ledger]; [by eapply pay_nonneg|]. intros c Hc Hne.
  specialize (Ht c Hc Hne). rewrite Ec in Hc. specialize (Hb c Hc Hne). apply (pay_Ok self) in Hp as [_ ->]. lia.
Qed.

Lemma in_asset_self (a : Address) (x : Z) : in_asset a a x = x.
Proof. unfold in_asset. by rewrite decide_True. Qed.

Lemma in_asset_other (a b : Address) (x : Z) : a <> b -> in_asset a b x = 0.
Proof. intros Hne. unfold in_asset. by rewrite decide_False. Qed.

Lemma backed_same (h : house) (s' : farm) :
  backed h -> f_config s' = f_config (h_farm h) -> total_shares s' = total_shares (h_farm h) ->
  backed {| h_farm := s'; h_ledger := h_ledger h |}.
Proof. intros [Hn Hb] Ec Et. split; cbn [h_farm h_ledger]; [done|]. rewrite Ec, Et. exact Hb. Qed.

(** The payment of a reward never touches the LP tokens. *)
Lemma backed_reward (h : house) (l : Ledger) (c : FarmingConfig) (user : Address) (x : Z) (s' : farm) :
  backed h -> f_config (h_farm h) = Some c -> f_config s' = Some c -> total_shares s' = total_shares (h_farm h) ->
  user <> self -> (if 0 <? x then pay (h_ledger h) (reward_token c) self user x = Ok l else l = h_ledger h) ->
  backed {| h_farm := s'; h_ledger := l |}.
Proof.
  intros Hb Hc Hc' Et Hu Hl. destruct (0 <? x).
  - eapply backed_pay; [exact Hb|exact Hl|congruence|]. intros c1 Hc1 Hne. assert (c1 = c) as -> by congruence.
    rewrite decide_False, decide_True, in_asset_other by congruence. lia.
  - subst l. apply backed_same; [done|congruence|done].
Qed.

Lemma farm_step_ok (i : invocation) (h h' : house) (c : farm_call) (e p n x : Z) :
  honest self i -> multiplier_typed c = true -> history_ok h e p n -> run_farm i h c = Ok (h', x) ->
  history_ok h' (e + if accrues c then emission_due i (h_farm h) else 0) (p + x) (n + if is_stake c then 1 else 0).
Proof.
  intros Hi Hty [Hok Hb Hf Hp Hpot] Hr.
  destruct c; cbn [run_farm accrues is_stake multiplier_typed] in *.
  - apply bind_Ok in Hr as ([h1 cfg] & Hx & Hr). injection Hr as <- <-. unfold initialize in Hx.
    apply bind_Ok in Hx as (? & Hn%fail_if_Ok%bool_decide_eq_false%eq_None_not_Some & Hx).
    apply bind_Ok in Hx as (? & He%fail_if_Ok%Z.ltb_ge & Hx). apply bind_Ok in Hx as (? & _ & Hx). injection Hx as <- <-.
    specialize (Hf Hn). cbn [fst h_farm h_ledger]. constructor; cbn [h_farm]; try done; try lia.
    + destruct Hok as [K1 K2 K3 K4 K5 K6]. constructor; try done. intros c [= <-]. done.
    + split; [apply Hb|]. intros c Hc Hne. cbn [h_farm h_ledger]. change (total_shares _) with (total_shares (h_farm h)).
      rewrite Hf. apply Hb.
    + change (potential _) with (potential (h_farm h)). lia.
  - apply bind_Ok in Hr as (h1 & Hx & Hr). injection Hr as <- <-. unfold fund_rewards in Hx.
    apply bind_Ok in Hx as (? & Ha%fail_if_Ok%Z.leb_gt & Hx). apply bind_Ok in Hx as (c & Hc%ok_or_Ok & Hx).
    apply bind_Ok in Hx as (? & Hau%require_auth_Ok & Hx). apply bind_Ok in Hx as (l & Hl & Hx). injection Hx as <-.
    constructor; cbn [h_farm]; try done; try lia. eapply backed_pay; [exact Hb|exact Hl|done|]. intros c1 _ _.
    pose proof (auth_not_self self i funder Hi Hau). rewrite (decide_False (P := funder = self)) by done.
    unfold in_asset. repeat destruct (decide _); lia.
  - apply bind_Ok in Hr as ([h1 y] & Hx & Hr). injection Hr as <- <-. cbn [fst].
    destruct (stake_Ok i h h1 user amount y Hi Hok Hx)
      as (c & acc & Hc & Ha & Hau & Hc1 & Hok1 & Et & Hpt & Hl & _).
    constructor; try done; try lia; [|congruence]. destruct h1 as [s1 l1]. cbn [h_farm h_ledger] in *.
    eapply backed_pay; [exact Hb|exact Hl|congruence|]. intros c1 Hcc Hne. assert (c1 = c) as -> by congruence.
    rewrite decide_True, decide_False, in_asset_self by (try done; by eapply auth_not_self). lia.
  - destruct (claim_Ok i h h' user x Hi Hok Hr) as (c & acc & Hc & Hc1 & Hau & _ & Hok1 & Et & _ & _ & Hx & Hpt & _ & _ & Hl).
    constructor; try done; try lia; [|congruence]. destruct h' as [s1 l1]. cbn [h_farm h_ledger] in *.
    eapply backed_reward; [exact Hb|exact Hc|exact Hc1|exact Et|by eapply auth_not_self|exact Hl].
  - apply bind_Ok in Hr as ([h1 [sh y]] & Hx & Hr). injection Hr as <- <-. cbn [fst snd].
    destruct (exit_Ok i h h1 user sh y Hi Hok Hx) as (c & acc & l1 & Hc & Hc1 & Hau & _ & Hok1 & Esh & Et & _ & _ & Hy & Hpt & Hl1 & Hl2).
    pose proof (fk_shares _ Hok user) as Hsh. rewrite <- Esh in Hsh.
    constructor; try done; try lia; [|congruence]. destruct h1 as [s1 l2]. cbn [h_farm h_ledger] in *.
    assert (backed {| h_farm := h_farm h; h_ledger := l1 |}) as Hb1.
    { eapply backed_reward; [exact Hb|exact Hc|exact Hc|done|by eapply auth_not_self|exact Hl1]. }
    destruct (0 <? sh) eqn:E0.
    + eapply (backed_pay {| h_farm := h_farm h; h_ledger := l1 |}); [exact Hb1|exact Hl2|cbn; congruence|].
      intros c1 Hcc Hne. assert (c1 = c) as -> by congruence. cbn [h_farm].
      rewrite decide_False, decide_True, in_asset_self by (try done; by eapply auth_not_self). lia.
    + subst l2. apply (backed_same {| h_farm := h_farm h; h_ledger := l1 |}); [exact Hb1|cbn; congruence|cbn [h_farm]; lia].
  - apply bind_Ok in Hr as ([h1 y] & Hx & Hr). injection Hr as <- <-. cbn [fst]. unfold set_emission_multiplier in Hx.
    apply bind_Ok in Hx as (c & Hc%ok_or_Ok & Hx). do 3 apply bind_Ok in Hx as (? & _ & Hx).
    apply bind_Ok in Hx as ([s1 acc] & Hu & Hx). injection Hx as <- <-.
    destruct (updated_ok i (h_farm h) s1 c acc Hok Hc Hu) as (Hok1 & Hc1 & Et & Hpt). pose proof (fk_config _ Hok c Hc) as Hcf.
    constructor; cbn [h_farm]; try done; try lia.
    + destruct Hok1 as [K1 K2 K3 K4 K5 K6]. constructor; try done. intros c2 [= <-]. cbn. lia.
    + split; [apply Hb|]. intros c2 [= <-] Hne. cbn [h_farm h_ledger lp_token reward_token] in *.
      change (total_shares (set_config s1 _)) with (total_shares s1). rewrite Et. apply Hb; done.
    + change (potential (set_config s1 _)) with (potential s1). lia.
  - apply bind_Ok in Hr as ([s1 y] & Hx & Hr). injection Hr as <- <-. cbn [fst]. unfold pending_rewards in Hx.
    apply bind_Ok in Hx as (c & Hc%ok_or_Ok & Hx). apply bind_Ok in Hx as ([s2 acc] & Hu & Hx).
    do 3 apply bind_Ok in Hx as (? & _ & Hx). injection Hx as <- _.
    destruct (updated_ok i (h_farm h) s2 c acc Hok Hc Hu) as (Hok1 & Hc1 & Et & Hpt).
    constructor; cbn [h_farm]; try done; try lia; [|congruence]. apply backed_same; [done|congruence|done].
Qed.

Lemma farm_history_ok (l0 : Ledger) (h : house) (e p n : Z) :
  (forall a, 0 <= balance l0 a self) -> farm_history l0 h e p n -> history_ok h e p n.
Proof.
  intros Hl. induction 1 as [|h e p n i c h' x _ IH Hi Hty Hr].
  - assert (farm_ok empty_farm) as Hok by (by constructor).
    constructor; cbn [h_farm]; try done.
  - eapply farm_step_ok; [exact Hi|exact Hty|exact IH|exact Hr].
Qed.

(** ** The claims *)

(** Over every history of the farm, what was paid out as reward, plus everything the
    stakers could still claim, is at most what the pool emitted while there were shares,
    plus one token unit per stake (the rounding of the reward debt). The total is the
    sum of the shares, and unless rewards are paid in the LP token itself, the contract
    holds at least that many LP tokens. *)
Theorem rewards_within_emission (l0 : Ledger) (h : house) (emitted paid stakes : Z) :
  (forall a, 0 <= balance l0 a self) -> farm_history l0 h emitted paid stakes ->
  let s := h_farm h in let acc := accumulated_reward_per_share s in
  paid + (msum_of (f_accrued s) + msum (fun _ x => x * acc / REWARD_PRECISION) (f_shares s) - msum_of (f_debts s))
    <= emitted + stakes /\
  (forall user, 0 <= pending_of s acc user) /\
  total_shares s = msum_of (f_shares s) /\
  (forall c, f_config s = Some c -> lp_token c <> reward_token c ->
     total_shares s <= balance (h_ledger h) (lp_token c) self).
Proof.
  intros Hl Hh s acc. destruct (farm_history_ok l0 h emitted paid stakes Hl Hh) as [Hok Hb _ _ Hpot].
  fold s in Hok, Hpot. split; [|split; [|split; [apply (fk_total s Hok)|apply Hb]]].
  - assert (REWARD_PRECISION * msum (fun _ x => x * acc / REWARD_PRECISION) (f_shares s) <= acc * msum_of (f_shares s)) as Hfl.
    { unfold msum_of. transitivity (msum (fun _ x => acc * x) (f_shares s)).
      - apply msum_scale_le. intros k x _. rewrite (Z.mul_comm acc x). by apply Z.mul_div_le.
      - by rewrite (msum_mul acc (fun _ x => x)). }
    unfold potential in Hpot. fold acc in Hpot. apply (Z.mul_le_mono_pos_l _ _ REWARD_PRECISION); [done|]. lia.
  - intros user. unfold pending_of. destruct (fk_debt s Hok user) as [_ Hd]. fold acc in Hd.
    pose proof (fk_accrued s Hok user).
    assert (read_i128 (f_debts s) user <= read_i128 (f_shares s) user * acc / REWARD_PRECISION); [|lia].
    apply Z.div_le_lower_bound; [done|lia].
Qed.

Lemma update_again (i : invocation) (s s1 s' : farm) (c : FarmingConfig) (acc : Z) :
  update_pool i s c = Ok (s1, acc) -> f_last_ledger s' = f_last_ledger s1 ->
  accumulated_reward_per_share s' = acc -> update_pool i s' c = Ok (s', acc).
Proof.
  intros Hu El Ea. unfold update_pool at 1.
  assert (sequence i <= default (sequence i) (f_last_ledger s1)) as Hle.
  { unfold update_pool in Hu. destruct (Z.leb_spec (sequence i) (default (sequence i) (f_last_ledger s))); [by injection Hu as <- _|].
    destruct (0 <? total_shares s); [do 7 apply bind_Ok in Hu as (? & _ & Hu)|]; injection Hu as <- _; cbn; unfold Datatypes.id; lia. }
  rewrite El, (proj2 (Z.leb_le _ _) Hle), Ea. done.
Qed.

Lemma pending_Ok (i : invocation) (s s' : farm) (user : Address) (y : Z) :
  farm_ok s -> pending_rewards i s user = Ok (s', y) ->
  exists c acc, f_config s = Some c /\ update_pool i s c = Ok (s', acc) /\ y = pending_of s acc user.
Proof.
  intros Hok Hx. unfold pending_rewards in Hx. apply bind_Ok in Hx as (c & Hc%ok_or_Ok & Hx).
  apply bind_Ok in Hx as ([s1 acc] & Hu & Hx).
  destruct (update_pool_Ok i s s1 c acc Hok Hc Hu) as ((_ & _ & E3 & E4 & E5) & Eacc & Hok1 & _).
  rewrite E3, E4, E5 in Hx. apply bind_Ok in Hx as (r & [-> _]%reward_of_Ok & Hx);
    [|apply (fk_shares s Hok)|rewrite Eacc; apply (fk_acc s1 Hok1)].
  apply bind_Ok in Hx as (dd & [-> _]%ok_or_Ok%chk_Some & Hx). apply bind_Ok in Hx as (n & [-> _]%ok_or_Ok%chk_Some & Hx).
  injection Hx as <- <-. exists c, acc. split_and!; [done|done|]. unfold pending_of. lia.
Qed.

(** On every farm a history leads to, in one ledger: [claim_rewards] pays exactly what
    [pending_rewards] announced, and then nothing is pending; a stake changes what is
    pending for nobody, the staker included: new shares earn nothing for the past. *)
Theorem pending_is_paid (l0 : Ledger) (h h' : house) (emitted paid stakes : Z) (i : invocation) (user w : Address)
    (s1 : farm) (y : Z) :
  (forall a, 0 <= balance l0 a self) -> farm_history l0 h emitted paid stakes -> honest self i ->
  pending_rewards i (h_farm h) w = Ok (s1, y) ->
  (forall x, claim_rewards i h user = Ok (h', x) ->
     (w = user -> x = y) /\
     forall s2 y', pending_rewards i (h_farm h') w = Ok (s2, y') -> y' = if decide (user = w) then 0 else y) /\
  (forall amount x, stake i h user amount = Ok (h', x) ->
     forall s2 y', pending_rewards i (h_farm h') w = Ok (s2, y') -> y' = y).
Proof.
  intros Hl Hh Hi Hy. pose proof (ho_farm _ _ _ _ (farm_history_ok l0 h emitted paid stakes Hl Hh)) as Hok.
  destruct (pending_Ok i _ s1 w y Hok Hy) as (c & acc & Hc & Hu & ->). split.
  - intros x Hx. destruct (claim_Ok i h h' user x Hi Hok Hx)
      as (c1 & acc1 & Hc1 & Hc2 & _ & (s3 & Hu1 & El) & Hok' & _ & _ & Ex & _ & _ & Eacc & Epd & _).
    assert (c1 = c) as -> by congruence. assert (s3 = s1 /\ acc1 = acc) as [-> ->] by (split; congruence).
    split; [by intros ->|]. intros s2 y' Hy'. destruct (pending_Ok i _ s2 w y' Hok' Hy') as (c3 & acc3 & Hc3 & Hu3 & ->).
    assert (c3 = c) as -> by congruence. rewrite (update_again i _ s1 _ c acc Hu El (eq_sym Eacc)) in Hu3.
    injection Hu3 as _ <-. apply Epd.
  - intros amount x Hx s2 y' Hy'. destruct (stake_Ok i h h' user amount x Hi Hok Hx)
      as (c1 & acc1 & Hc1 & _ & _ & Hc2 & Hok' & _ & _ & _ & (s3 & Hu1 & El) & Eacc & _ & _ & Epd).
    assert (c1 = c) as -> by congruence. assert (s3 = s1 /\ acc1 = acc) as [-> ->] by (split; congruence).
    destruct (pending_Ok i _ s2 w y' Hok' Hy') as (c3 & acc3 & Hc3 & Hu3 & ->). assert (c3 = c) as -> by congruence.
    rewrite (update_again i _ s1 _ c acc Hu El (eq_sym Eacc)) in Hu3. injection Hu3 as _ <-. apply Epd.
Qed.

(** Rewards are not reserved. A claim that pays takes the tokens from whatever the
    contract holds: next to an order book of the same contract, its margin in the reward
    token falls by the claim, funded or not. And when the contract holds less than what
    a staker has pending, neither [claim_rewards] nor [exit] returns: the stake can not
    be withdrawn until somebody funds the rewards. *)
Theorem rewards_not_reserved (l0 : Ledger) (h : house) (emitted paid stakes : Z) (i : invocation) (user : Address)
    (c : FarmingConfig) (s1 : farm) (acc : Z) :
  (forall a, 0 <= balance l0 a self) -> farm_history l0 h emitted paid stakes -> honest self i ->
  f_config (h_farm h) = Some c -> update_pool i (h_farm h) c = Ok (s1, acc) ->
  (forall h' x (b : book), claim_rewards i h user = Ok (h', x) ->
     x = pending_of (h_farm h) acc user /\
     margin self {| bk := b; ledger := h_ledger h' |} (reward_token c)
       = margin self {| bk := b; ledger := h_ledger h |} (reward_token c) - x) /\
  (balance (h_ledger h) (reward_token c) self < pending_of (h_farm h) acc user ->
     is_ok (claim_rewards i h user) = false /\ is_ok (exit i h user) = false).
Proof.
  intros Hl Hh Hi Hc Hu. pose proof (farm_history_ok l0 h emitted paid stakes Hl Hh) as [Hok [Hnn _] _ _ _]. split.
  - intros h' x b Hx. destruct (claim_Ok i h h' user x Hi Hok Hx)
      as (c1 & acc1 & Hc1 & _ & Hau & (s2 & Hu1 & _) & _ & _ & _ & Ex & Hx0 & _ & _ & _ & Hp).
    assert (c1 = c) as -> by congruence. assert (acc1 = acc) as -> by congruence. split; [done|].
    unfold margin. cbn [bk ledger]. destruct (Z.ltb_spec 0 x); [|rewrite Hp; lia].
    apply (pay_Ok self) in Hp as [_ ->]. rewrite decide_True, decide_False, in_asset_self by (try done; by eapply auth_not_self). lia.
  - intros Hlt. specialize (Hnn (reward_token c)).
    assert (forall l x, x = pending_of (h_farm h) acc user ->
      (if 0 <? x then pay (h_ledger h) (reward_token c) self user x = Ok l else l = h_ledger h) -> False) as Hno.
    { intros l x -> Hp. rewrite (proj2 (Z.ltb_lt _ _)) in Hp by lia. apply unwrap_Ok, transfer_spec in Hp as [? _]. lia. }
    split.
    + destruct (claim_rewards i h user) as [[h' x]|e|] eqn:Hx; [|done|done]. exfalso.
      destruct (claim_Ok i h h' user x Hi Hok Hx) as (c1 & acc1 & Hc1 & _ & _ & (s2 & Hu1 & _) & _ & _ & _ & Ex & _ & _ & _ & _ & Hp).
      assert (c1 = c) as -> by congruence. assert (acc1 = acc) as -> by congruence. by eapply Hno.
    + destruct (exit i h user) as [[h' [sh x]]|e|] eqn:Hx; [|done|done]. exfalso.
      destruct (exit_Ok i h h' user sh x Hi Hok Hx) as (c1 & acc1 & l1 & Hc1 & _ & _ & (s2 & Hu1) & _ & _ & _ & _ & Ex & _ & _ & Hp & _).
      assert (c1 = c) as -> by congruence. assert (acc1 = acc) as -> by congruence. by eapply Hno.
Qed.
End claims.

(** ** A concrete farm: shares are token 200, rewards token 100, ten per ledger. *)
Section witnesses.
#[local] Existing Instance test_host.
#[local] Existing Instance tks.
#[local] Existing Instance tks_laws.

Definition inv (who seq : Z) : invocation := @Build_invocation test_host (fun a => Z.eqb a who) 1 seq (Some 9).

Record books := { b_house : house; b_emitted : Z; b_paid : Z; b_stakes : Z }.

Fixpoint run_farms (b : books) (cs : list (Z * Z * farm_call)) : R books :=
  match cs with
  | [] => mret b
  | (who, seq, c) :: cs =>
      r ← run_farm (inv who seq) (b_house b) c;
      run_farms {| b_house := r.1;
                   b_emitted := b_emitted b + (if accrues c then emission_due (inv who seq) (h_farm (b_house b)) else 0);
                   b_paid := b_paid b + r.2; b_stakes := b_stakes b + (if is_stake c then 1 else 0) |} cs
  end.

Definition farm_start_books : books :=
  {| b_house := {| h_farm := empty_farm; h_ledger := sample_ledger |}; b_emitted := 0; b_paid := 0; b_stakes := 0 |}.

Definition books_of (r : R books) : books := match r with Ok b => b | _ => farm_start_books end.

Definition history_of (b : books) : Prop :=
  farm_history 1 sample_ledger (b_house b) (b_emitted b) (b_paid b) (b_stakes b).

Lemma run_farms_history (cs : list (Z * Z * farm_call)) (b : books) :
  history_of b -> forallb (fun x => negb (Z.eqb 1 x.1.1) && multiplier_typed x.2) cs = true ->
  is_ok (run_farms b cs) = true -> history_of (books_of (run_farms b cs)).
Proof.
  revert b. induction cs as [|[[who seq] c] cs IH]; intros b Hb Hg Hr; [exact Hb|]. cbn [run_farms forallb fst snd] in *.
  apply andb_true_iff in Hg as [[Hw%negb_true_iff Hc]%andb_true_iff Hg].
  destruct (run_farm (inv who seq) (b_house b) c) as [[h' x]|e|] eqn:E; [|done|done]. rewrite bind_ret in *. cbn [fst snd] in *.
  apply IH; [|done|done]. unfold history_of. cbn [b_house b_emitted b_paid b_stakes].
  eapply (farm_next (H := test_host) 1 sample_ledger); [exact Hb|split; [reflexivity|exact Hw]|exact Hc|exact E].
Qed.

Definition farm_calls : list (Z * Z * farm_call) :=
  [(9, 10, FInit 9 200 100 10); (3, 10, FStake 3 1000); (2, 20, FFund 2 500); (5, 20, FStake 5 3000);
   (3, 30, FClaim 3)].

Definition farmed : books := books_of (run_farms farm_start_books farm_calls).

(** The same farm with the rewards never funded, before the claim. *)
Definition unfunded : books :=
  books_of (run_farms farm_start_books [(9, 10, FInit 9 200 100 10); (3, 10, FStake 3 1000)]).

Lemma farmed_history : history_of farmed.
Proof. apply run_farms_history; [constructor|vm_compute; reflexivity|vm_compute; reflexivity]. Qed.

Lemma unfunded_history : history_of unfunded.
Proof. apply run_farms_history; [constructor|vm_compute; reflexivity|vm_compute; reflexivity]. Qed.

Lemma sample_nonneg (a : Address) : 0 <= balance sample_ledger a 1.
Proof.
  cbn. unfold map_balance, sample_ledger. cbn [list_to_map foldr fst snd uncurry].
  repeat (rewrite lookup_insert_ne by (intros [=])). done.
Qed.

Lemma rewards_within_emission_witness :
  b_emitted farmed = 200 /\ b_paid farmed = 125 /\ total_shares (h_farm (b_house farmed)) = 4000 /\
  (forall user, 0 <= pending_of (h_farm (b_house farmed)) (accumulated_reward_per_share (h_farm (b_house farmed))) user).
Proof.
  split; [vm_compute; reflexivity|]. split; [vm_compute; reflexivity|]. split; [vm_compute; reflexivity|].
  exact (proj1 (proj2 (rewards_within_emission (H := test_host) 1 sample_ledger (b_house farmed) _ _ _ sample_nonneg farmed_history))).
Defined.

Lemma pending_is_paid_witness :
  exists h' s1, claim_rewards (inv 5 40) (b_house farmed) 5 = Ok (h', 150) /\
    pending_rewards (inv 5 40) (h_farm (b_house farmed)) 5 = Ok (s1, 150).
Proof.
  destruct (is_ok_Ok (pending_rewards (inv 5 40) (h_farm (b_house farmed)) 5)) as [[s1 y] E]; [vm_compute; reflexivity|].
  destruct (is_ok_Ok (claim_rewards (inv 5 40) (b_house farmed) 5)) as [[h' x] E']; [vm_compute; reflexivity|].
  destruct (pending_is_paid (H := test_host) 1 sample_ledger (b_house farmed) h' _ _ _ (inv 5 40) 5 5 s1 y
    sample_nonneg farmed_history (conj eq_refl eq_refl) E) as [Hc _].
  destruct (Hc x E') as [Hxy _]. specialize (Hxy eq_refl).
  assert (y = 150) as Hy.
  { change y with (match @Ok ContractError _ (s1, y) with Ok (_, z) => z | _ => 0 end). rewrite <- E. vm_compute. reflexivity. }
  exists h', s1. split; [rewrite E', Hxy, Hy; reflexivity|rewrite E, Hy; reflexivity].
Defined.

Definition acc_of (b : books) (i : invocation) (c : FarmingConfig) : Z :=
  match update_pool i (h_farm (b_house b)) c with Ok (_, a) => a | _ => 0 end.

Definition config_of (b : books) : FarmingConfig :=
  default {| fc_admin := 0; lp_token := 0; reward_token := 0; emission_per_ledger := 0; emission_multiplier := 0 |}
    (f_config (h_farm (b_house b))).

Lemma config_of_ok (b : books) :
  bool_decide (is_Some (f_config (h_farm (b_house b)))) = true -> f_config (h_farm (b_house b)) = Some (config_of b).
Proof. unfold config_of. intros [c ->]%bool_decide_eq_true. done. Qed.

(** With the escrow of a sell order of 1000 in the same contract, the unfunded claim is
    paid from it and the maker can no longer cancel; on its own, [exit] fails. *)
Lemma rewards_not_reserved_witness :
  is_ok (exit (inv 3 20) (b_house unfunded) 3) = false /\
  (let v := venue_of (run_calls {| bk := empty_book; ledger := h_ledger (b_house unfunded) |} [(2, Place 2 deal 20000000 1000 0)]) in
   let h := {| h_farm := h_farm (b_house unfunded); h_ledger := ledger v |} in
   is_ok (cancel_order (by_ 2) v 2 0) = true /\
   is_ok (claim_rewards (inv 3 20) h 3 ≫= fun r => cancel_order (by_ 2) {| bk := bk v; ledger := h_ledger r.1 |} 2 0) = false /\
   is_ok (claim_rewards (inv 3 20) h 3) = true).
Proof.
  split; [|split; [vm_compute; reflexivity|split; vm_compute; reflexivity]].
  destruct (is_ok_Ok (update_pool (inv 3 20) (h_farm (b_house unfunded)) (config_of unfunded))) as [[s1 acc] E]; [vm_compute; reflexivity|].
  assert (acc = acc_of unfunded (inv 3 20) (config_of unfunded)) as Eacc by (unfold acc_of; by rewrite E).
  refine (proj2 (proj2 (rewards_not_reserved (H := test_host) 1 sample_ledger (b_house unfunded) _ _ _ (inv 3 20) 3
    (config_of unfunded) s1 acc sample_nonneg unfunded_history (conj eq_refl eq_refl) _ E) _)).
  - apply config_of_ok. vm_compute. reflexivity.
  - rewrite Eacc. vm_compute. reflexivity.
Defined.
End witnesses.
