(* ===== verification/Htlc.v ===== *)
(** * Hash time-locked contracts

    [src/src/settlement/htlc.rs], and the branch of [prune_expired_keys]
    (src/src/admin/prune.rs) that evicts a settled contract: a depositor locks an
    amount behind a hash and a deadline; before the deadline the beneficiary claims
    with the pre-image, or settles as the anchor without one; from the deadline on
    the depositor refunds. The module keeps records and counters only: it calls no
    token contract. Events are left out.

    Histories of the locker: every amount created is released once, a settled
    contract stays settled, the counters are exact; and who can settle an active
    contract on which side of its deadline. *)

From stdpp Require Import base numbers list gmap.
From Stdlib Require Import ZArith Lia.
From S2P Require Import Prelude Host Token RootErrors BookData BookOps BookMargin.

Open Scope Z_scope.

Definition MAX_ACTIVE_HTLCS : Z := 64.
Definition MIN_DEADLINE_OFFSET : Z := 10.
Definition MAX_DEADLINE_OFFSET : Z := 6307200.
Definition PAYOUT_TIMEOUT_LEDGERS : Z := 17280.

(** The variants are prefixed: [Active] and others name states of other modules. *)
Inductive HtlcState := HsActive | HsClaimed | HsRefunded | HsPending | HsLocked | HsDispatched | HsSettled.

#[export] Instance HtlcState_eq_dec : EqDecision HtlcState.
Proof. solve_decision. Defined.

Section htlc.
Context {H : Host}.

Record Htlc := {
  h_id : Z;
  h_depositor : Address;
  h_beneficiary : Address;
  hash_lock : bytes;
  deadline_sequence : Z;
  h_asset : Z;
  h_amount : Z;
  h_state : HtlcState
}.

Record ClaimResult := { cr_htlc_id : Z; cr_amount : Z; cr_beneficiary : Address }.
Record RefundResult := { rf_htlc_id : Z; rf_amount : Z; rf_depositor : Address }.

(** The storage: [HTLC_NONCE_KEY], [HtlcKey] and [HtlcCounterKey]. *)
Record locker := {
  htlc_nonce : option Z;
  htlcs : gmap Z Htlc;
  htlc_counters : gmap Address Z
}.

Definition set_htlcs (s : locker) (m : gmap Z Htlc) : locker :=
  {| htlc_nonce := htlc_nonce s; htlcs := m; htlc_counters := htlc_counters s |}.

Definition set_htlc_counters (s : locker) (m : gmap Address Z) : locker :=
  {| htlc_nonce := htlc_nonce s; htlcs := htlcs s; htlc_counters := m |}.

Definition with_htlc_state (x : Htlc) (st : HtlcState) : Htlc :=
  {| h_id := h_id x; h_depositor := h_depositor x; h_beneficiary := h_beneficiary x; hash_lock := hash_lock x;
     deadline_sequence := deadline_sequence x; h_asset := h_asset x; h_amount := h_amount x; h_state := st |}.

(** ** Queries *)
Definition get_htlc (s : locker) (id : Z) : R Htlc := ok_or (htlcs s !! id) HtlcNotFound.

Definition active_htlc_count (s : locker) (depositor : Address) : Z := default 0 (htlc_counters s !! depositor).

Definition next_htlc_id (s : locker) : Z := default 0 (htlc_nonce s).

Definition is_expired (i : invocation) (x : Htlc) : bool :=
  bool_decide (h_state x = HsActive) && (deadline_sequence x <=? sequence i).

Definition is_claimable (i : invocation) (x : Htlc) : bool :=
  bool_decide (h_state x = HsActive) && (sequence i <? deadline_sequence x).

(** ** Creation *)
Definition create_htlc (i : invocation) (s : locker) (depositor beneficiary : Address) (lock : bytes)
    (deadline asset amount : Z) : R (locker * Htlc) :=
  _ ← require_auth (auth i) depositor;
  _ ← fail_if (amount =? 0) ZeroSwapAmount;
  let current_seq := sequence i in
  lo ← iadd U32 current_seq MIN_DEADLINE_OFFSET;
  _ ← fail_if (deadline <=? lo) DeadlineTooSoon;
  hi ← iadd U32 current_seq MAX_DEADLINE_OFFSET;
  _ ← fail_if (hi <? deadline) DeadlineTooFar;
  htlc_id ← ok_or (checked_add U64 (default 0 (htlc_nonce s)) 1) Overflow;
  let x := {| h_id := htlc_id; h_depositor := depositor; h_beneficiary := beneficiary; hash_lock := lock;
              deadline_sequence := deadline; h_asset := asset; h_amount := amount; h_state := HsActive |} in
  let s1 := {| htlc_nonce := Some htlc_id; htlcs := <[htlc_id := x]> (htlcs s); htlc_counters := htlc_counters s |} in
  let count := active_htlc_count s1 depositor in
  _ ← fail_if (MAX_ACTIVE_HTLCS <=? count) TooManyActiveHtlcs;
  n ← iadd U32 count 1;
  mret (set_htlc_counters s1 (<[depositor := n]> (htlc_counters s1)), x).

(** ** Settlement *)

(** The tail of [claim], [anchor_settle] and [refund]: the record is stored in its
    new state and the depositor's counter, 1 when it was never written, goes down. *)
Definition close_htlc (s : locker) (id : Z) (x : Htlc) (st : HtlcState) : locker :=
  let s1 := set_htlcs s (<[id := with_htlc_state x st]> (htlcs s)) in
  let count := default 1 (htlc_counters s1 !! h_depositor x) in
  if 0 <? count then set_htlc_counters s1 (<[h_depositor x := count - 1]> (htlc_counters s1)) else s1.

Definition claim (i : invocation) (s : locker) (htlc_id : Z) (pre_image : bytes) (caller : Address) :
    R (locker * ClaimResult) :=
  _ ← require_auth (auth i) caller;
  x ← ok_or (htlcs s !! htlc_id) HtlcNotFound;
  _ ← fail_if (bool_decide (h_beneficiary x <> caller)) Unauthorized;
  _ ← fail_if (bool_decide (h_state x <> HsActive)) HtlcNotActive;
  let current_seq := sequence i in
  _ ← fail_if (deadline_sequence x <=? current_seq) DeadlineReached;
  let computed_hash := sha256 pre_image in
  _ ← fail_if (bool_decide (computed_hash <> hash_lock x)) InvalidPreImage;
  mret (close_htlc s htlc_id x HsClaimed,
        {| cr_htlc_id := htlc_id; cr_amount := h_amount x; cr_beneficiary := h_beneficiary x |}).

Definition anchor_settle (i : invocation) (s : locker) (htlc_id : Z) (caller : Address) : R (locker * ClaimResult) :=
  _ ← require_auth (auth i) caller;
  x ← ok_or (htlcs s !! htlc_id) HtlcNotFound;
  _ ← fail_if (bool_decide (h_beneficiary x <> caller)) Unauthorized;
  _ ← fail_if (bool_decide (h_state x <> HsActive) && bool_decide (h_state x <> HsLocked)) HtlcNotActive;
  let current_seq := sequence i in
  _ ← fail_if (deadline_sequence x <=? current_seq) DeadlineReached;
  mret (close_htlc s htlc_id x HsSettled,
        {| cr_htlc_id := htlc_id; cr_amount := h_amount x; cr_beneficiary := h_beneficiary x |}).

Definition refund (i : invocation) (s : locker) (htlc_id : Z) (caller : Address) : R (locker * RefundResult) :=
  _ ← require_auth (auth i) caller;
  x ← ok_or (htlcs s !! htlc_id) HtlcNotFound;
  _ ← fail_if (bool_decide (h_depositor x <> caller)) Unauthorized;
  _ ← fail_if (bool_decide (h_state x <> HsActive)) HtlcNotActive;
  let current_seq := sequence i in
  _ ← fail_if (current_seq <? deadline_sequence x) DeadlineNotReached;
  mret (close_htlc s htlc_id x HsRefunded,
        {| rf_htlc_id := htlc_id; rf_amount := h_amount x; rf_depositor := h_depositor x |}).

(** ** Pruning: the branch [PruneTarget::Htlc], and whether an entry was evicted. *)
Definition prune_htlc (s : locker) (htlc_id : Z) : locker * bool :=
  match htlcs s !! htlc_id with
  | Some x =>
      if bool_decide (h_state x = HsClaimed) || bool_decide (h_state x = HsRefunded)
      then (set_htlcs s (delete htlc_id (htlcs s)), true) else (s, false)
  | None => (s, false)
  end.
End htlc.

(** ** Hash time-locked contracts: the properties *)

Section claims.
Context {H : Host}.

Inductive htlc_call :=
  | HCreate (depositor beneficiary : Address) (lock : bytes) (deadline asset amount : Z)
  | HClaim (id : Z) (pre_image : bytes) (caller : Address)
  | HSettle (id : Z) (caller : Address)
  | HRefund (id : Z) (caller : Address)
  | HPrune (id : Z).

(** The new state, with the amount the call takes in and the amount it releases, each
    with the asset of the record. *)
Definition run_htlc (i : invocation) (s : locker) (c : htlc_call) : R (locker * (Z * Z) * (Z * Z)) :=
  let asset_of id := from_option h_asset 0 (htlcs s !! id) in
  match c with
  | HCreate depositor beneficiary lock deadline asset amount =>
      r ← create_htlc i s depositor beneficiary lock deadline asset amount;
      mret (r.1, (h_asset r.2, h_amount r.2), (0, 0))
  | HClaim id pre_image caller => r ← claim i s id pre_image caller; mret (r.1, (0, 0), (asset_of id, cr_amount r.2))
  | HSettle id caller => r ← anchor_settle i s id caller; mret (r.1, (0, 0), (asset_of id, cr_amount r.2))
  | HRefund id caller => r ← refund i s id caller; mret (r.1, (0, 0), (asset_of id, rf_amount r.2))
  | HPrune id => mret ((prune_htlc s id).1, (0, 0), (0, 0))
  end.

Definition empty_locker : locker := {| htlc_nonce := None; htlcs := ∅; htlc_counters := ∅ |}.

Definition of_asset (asset : Z) (flow : Z * Z) : Z := if decide (flow.1 = asset) then flow.2 else 0.

(** Histories, with what was taken in and what was released of one asset. *)
Inductive htlc_history (asset : Z) (s0 : locker) : locker -> Z -> Z -> Prop :=
  | htlc_start : htlc_history asset s0 s0 0 0
  | htlc_next s created released i c s' x y :
      htlc_history asset s0 s created released -> run_htlc i s c = Ok (s', x, y) ->
      htlc_history asset s0 s' (created + of_asset asset x) (released + of_asset asset y).

Definition active_amount (asset : Z) (x : Htlc) : Z :=
  if decide (h_state x = HsActive) then of_asset asset (h_asset x, h_amount x) else 0.

Definition active_for (a : Address) (x : Htlc) : Z :=
  if decide (h_state x = HsActive /\ h_depositor x = a) then 1 else 0.

Record locker_ok (s : locker) : Prop := {
  lk_id : forall id x, htlcs s !! id = Some x -> h_id x = id /\ id <= next_htlc_id s;
  lk_state : forall id x, htlcs s !! id = Some x -> h_state x <> HsLocked;
  lk_count : forall a, active_htlc_count s a = msum (fun _ => active_for a) (htlcs s);
  lk_max : forall a, active_htlc_count s a <= MAX_ACTIVE_HTLCS
}.

(** Records keep their terms, settled ones also their state; the records that leave
    are claimed or refunded, and their identifiers are not used again. *)
Record htlc_keeps (s s' : locker) : Prop := {
  kp_nonce : next_htlc_id s <= next_htlc_id s';
  kp_gone : forall id, id <= next_htlc_id s -> htlcs s !! id = None -> htlcs s' !! id = None;
  kp_terms : forall id x x', htlcs s !! id = Some x -> htlcs s' !! id = Some x' ->
    x' = with_htlc_state x (h_state x') /\ (h_state x <> HsActive -> x' = x);
  kp_stays : forall id x, htlcs s !! id = Some x -> h_state x = HsSettled -> htlcs s' !! id = Some x
}.

#[export] Instance htlc_keeps_refl : Reflexive htlc_keeps.
Proof. intros s. constructor; [lia|done| |done]. intros id x x' Hx Hx'. assert (x' = x) as -> by congruence. by destruct x. Qed.

Lemma htlc_keeps_trans (s s1 s2 : locker) : locker_ok s -> htlc_keeps s s1 -> htlc_keeps s1 s2 -> htlc_keeps s s2.
Proof.
  intros Hok K1 K2. pose proof (kp_nonce s s1 K1) as Hn1. pose proof (kp_nonce s1 s2 K2). constructor; [lia| | |].
  - intros id Hid Hx. apply (kp_gone s1 s2 K2); [lia|]. by apply (kp_gone s s1 K1).
  - intros id x x' Hx Hx'. destruct (lk_id s Hok id x Hx) as [_ Hid]. destruct (htlcs s1 !! id) as [y|] eqn:Hy.
    + destruct (kp_terms s s1 K1 id x y Hx Hy) as [E1 S1], (kp_terms s1 s2 K2 id y x' Hy Hx') as [E2 S2]. split.
      * rewrite E2 at 1. by rewrite E1.
      * intros Hst. pose proof (S1 Hst) as ->. by apply S2.
    + apply (kp_gone s1 s2 K2) in Hy; [congruence|lia].
  - intros id x Hx Hst. by apply (kp_stays s1 s2 K2); [apply (kp_stays s s1 K1)|].
Qed.

Definition active_total (asset : Z) (s : locker) : Z := msum (fun _ => active_amount asset) (htlcs s).

Lemma active_for_nonneg (a : Address) (x : Htlc) : 0 <= active_for a x.
Proof. unfold active_for. by destruct (decide _). Qed.

(** An active contract is closed. *)
Lemma close_ok (s : locker) (id : Z) (x : Htlc) (st : HtlcState) :
  locker_ok s -> htlcs s !! id = Some x -> h_state x = HsActive -> st <> HsActive -> st <> HsLocked ->
  let s' := close_htlc s id x st in
  locker_ok s' /\ htlc_keeps s s' /\ htlcs s' = <[id := with_htlc_state x st]> (htlcs s) /\
  forall asset, active_total asset s = active_total asset s' + of_asset asset (h_asset x, h_amount x).
Proof.
  intros Hok Hx Ha Hst Hlk s'. pose proof (lk_count s Hok (h_depositor x)) as Hc.
  assert (1 <= active_htlc_count s (h_depositor x)) as H1.
  { rewrite Hc. pose proof (msum_term_le (fun _ => active_for (h_depositor x)) (htlcs s) id) as Ht.
    unfold term in Ht. rewrite Hx in Ht. unfold active_for at 2 in Ht. rewrite decide_True in Ht by done.
    apply Ht. intros. apply active_for_nonneg. }
  assert (htlcs s' = <[id := with_htlc_state x st]> (htlcs s) /\ next_htlc_id s' = next_htlc_id s /\
    forall a, active_htlc_count s' a = active_htlc_count s a - (if decide (h_depositor x = a) then 1 else 0))
    as (Em & En & Ec).
  { unfold active_htlc_count in H1. unfold s', close_htlc. cbn [htlc_counters set_htlcs].
    destruct (htlc_counters s !! h_depositor x) as [n|] eqn:E; cbn [default from_option] in *; unfold Datatypes.id in *; [|lia].
    rewrite (proj2 (Z.ltb_lt _ _)) by lia. split; [done|]. split; [done|]. intros a. unfold active_htlc_count.
    cbn [htlc_counters set_htlc_counters]. destruct (decide (h_depositor x = a)) as [<-|Hne].
    - rewrite lookup_insert_eq, E. done.
    - rewrite lookup_insert_ne by done. lia. }
  split; [constructor|split; [constructor|split; [done|]]].
  - intros n y. rewrite Em, En. intros [[<- <-]|[_ Hy]]%lookup_insert_Some; [exact (lk_id s Hok _ _ Hx)|exact (lk_id s Hok _ _ Hy)].
  - intros n y. rewrite Em. intros [[<- <-]|[_ Hy]]%lookup_insert_Some; [done|by apply (lk_state s Hok n)].
  - intros a. rewrite Ec, Em, msum_insert, (lk_count s Hok a). unfold term. rewrite Hx. unfold active_for at 3 4.
    rewrite (decide_False (P := h_state (with_htlc_state x st) = _ /\ _)) by (cbn; tauto). rewrite Ha.
    destruct (decide (h_depositor x = a)); [rewrite decide_True by done|rewrite decide_False by tauto]; lia.
  - intros a. rewrite Ec. pose proof (lk_max s Hok a). destruct (decide _); lia.
  - rewrite En. lia.
  - intros n _ Hn. rewrite Em. rewrite lookup_insert_ne; [done|congruence].
  - intros n y y' Hy. rewrite Em. intros [[<- <-]|[_ Hy']]%lookup_insert_Some.
    + assert (y = x) as -> by congruence. done.
    + assert (y' = y) as -> by congruence. by destruct y.
  - intros n y Hy Hs. rewrite Em, lookup_insert_ne; [done|]. intros <-. congruence.
  - intros asset. unfold active_total. rewrite Em, msum_insert. unfold term. rewrite Hx. unfold active_amount at 3 4.
    rewrite decide_True by done. rewrite decide_False by done. lia.
Qed.

Lemma create_ok (i : invocation) (s s' : locker) (depositor beneficiary : Address) (lock : bytes)
    (deadline asset amount : Z) (x : Htlc) :
  locker_ok s -> create_htlc i s depositor beneficiary lock deadline asset amount = Ok (s', x) ->
  locker_ok s' /\ htlc_keeps s s' /\
  forall a, active_total a s' = active_total a s + of_asset a (h_asset x, h_amount x).
Proof.
  intros Hok Hc. unfold create_htlc in Hc.
  apply bind_Ok in Hc as (? & _ & Hc). apply bind_Ok in Hc as (? & _ & Hc). apply bind_Ok in Hc as (lo & _ & Hc).
  apply bind_Ok in Hc as (? & _ & Hc). apply bind_Ok in Hc as (hi & _ & Hc). apply bind_Ok in Hc as (? & _ & Hc).
  apply bind_Ok in Hc as (n & [-> _]%ok_or_Ok%chk_Some & Hc). fold (next_htlc_id s) in Hc.
  apply bind_Ok in Hc as (? & Hmax%fail_if_Ok%Z.leb_gt & Hc). apply bind_Ok in Hc as (n & [-> _]%iop_Ok & Hc).
  injection Hc as <- <-. set (x := {| h_id := next_htlc_id s + 1 |}).
  change (active_htlc_count _ depositor) with (active_htlc_count s depositor) in *.
  assert (htlcs s !! (next_htlc_id s + 1) = None) as Hnew.
  { destruct (htlcs s !! (next_htlc_id s + 1)) as [y|] eqn:E; [|done]. apply (lk_id s Hok) in E. lia. }
  set (s' := set_htlc_counters _ _).
  assert (forall a, active_htlc_count s' a = active_htlc_count s a + (if decide (depositor = a) then 1 else 0)) as Ecnt.
  { intros a. unfold s', active_htlc_count at 1. cbn [htlc_counters set_htlc_counters].
    destruct (decide (depositor = a)) as [<-|Hne]; [by rewrite lookup_insert_eq|].
    rewrite lookup_insert_ne by done. unfold active_htlc_count. lia. }
  split; [constructor|split; [constructor|]].
  - intros id y. change (next_htlc_id s') with (next_htlc_id s + 1). cbn [s' htlcs set_htlc_counters].
    intros [[<- <-]|[_ Hy]]%lookup_insert_Some; [split; [done|lia]|]. destruct (lk_id s Hok id y Hy). split; [done|lia].
  - intros id y. cbn [s' htlcs set_htlc_counters].
    intros [[<- <-]|[_ Hy]]%lookup_insert_Some; [done|by apply (lk_state s Hok id)].
  - intros a. rewrite Ecnt, (lk_count s Hok a). cbn [s' htlcs set_htlc_counters]. rewrite msum_insert_new by done.
    unfold active_for at 3. cbn [x h_state h_depositor].
    destruct (decide (depositor = a)); [rewrite decide_True by done|rewrite decide_False by tauto]; lia.
  - intros a. rewrite Ecnt. pose proof (lk_max s Hok a). destruct (decide _) as [<-|_]; lia.
  - change (next_htlc_id s') with (next_htlc_id s + 1). lia.
  - intros id Hid Hn. cbn [s' htlcs set_htlc_counters]. rewrite lookup_insert_ne; [done|lia].
  - intros id y y' Hy. cbn [s' htlcs set_htlc_counters]. rewrite lookup_insert_ne by congruence. intros Hy'.
    assert (y' = y) as -> by congruence. by destruct y.
  - intros id y Hy _. cbn [s' htlcs set_htlc_counters]. rewrite lookup_insert_ne by congruence. done.
  - intros a. unfold active_total. cbn [s' htlcs set_htlc_counters]. rewrite msum_insert_new by done. unfold active_amount at 2.
    rewrite decide_True by done. done.
Qed.

Lemma prune_ok (s : locker) (id : Z) :
  locker_ok s -> let s' := (prune_htlc s id).1 in
  locker_ok s' /\ htlc_keeps s s' /\ forall a, active_total a s' = active_total a s.
Proof.
  intros Hok s'. destruct (htlcs s !! id) as [x|] eqn:Hx;
    [|assert (s' = s) as -> by (unfold s', prune_htlc; by rewrite Hx); done].
  destruct (bool_decide (h_state x = HsClaimed) || bool_decide (h_state x = HsRefunded)) eqn:Hp;
    [|assert (s' = s) as -> by (unfold s', prune_htlc; by rewrite Hx, Hp); done].
  assert (s' = set_htlcs s (delete id (htlcs s))) as -> by (unfold s', prune_htlc; by rewrite Hx, Hp).
  assert (h_state x <> HsActive /\ h_state x <> HsSettled) as [Ha Hs].
  { apply orb_true_iff in Hp as [Hp%bool_decide_eq_true|Hp%bool_decide_eq_true]; by rewrite Hp. }
  assert (forall f : Htlc -> Z, f x = 0 -> msum (fun _ => f) (delete id (htlcs s)) = msum (fun _ => f) (htlcs s)) as Hsum.
  { intros f Hf. rewrite msum_delete. unfold term. rewrite Hx. lia. }
  split; [constructor|split; [constructor|]]; cbn [htlcs set_htlcs].
  - intros n y [_ Hy]%lookup_delete_Some. by apply (lk_id s Hok).
  - intros n y [_ Hy]%lookup_delete_Some. by apply (lk_state s Hok n).
  - intros a. rewrite Hsum; [apply (lk_count s Hok)|]. unfold active_for. rewrite decide_False; [done|tauto].
  - apply (lk_max s Hok).
  - done.
  - intros n _ Hn. apply lookup_delete_None. by right.
  - intros n y y' Hy [_ Hy']%lookup_delete_Some. assert (y' = y) as -> by congruence. by destruct y.
  - intros n y Hy Hst. rewrite lookup_delete_ne; [done|]. intros <-. congruence.
  - intros a. unfold active_total. apply Hsum. unfold active_amount. by rewrite decide_False.
Qed.

(** What a settlement that returned has checked. *)
Lemma htlc_claim_Ok (i : invocation) (s s' : locker) (id : Z) (pre : bytes) (caller : Address) (r : ClaimResult) :
  claim i s id pre caller = Ok (s', r) -> exists x, htlcs s !! id = Some x /\ h_state x = HsActive /\
    auth i caller = true /\ h_beneficiary x = caller /\ sequence i < deadline_sequence x /\ sha256 pre = hash_lock x /\
    s' = close_htlc s id x HsClaimed /\ cr_amount r = h_amount x.
Proof.
  intros Hc. unfold claim in Hc. apply bind_Ok in Hc as ([] & Hau%require_auth_Ok & Hc).
  apply bind_Ok in Hc as (x & Hx%ok_or_Ok & Hc).
  apply bind_Ok in Hc as (? & Hb%fail_if_Ok%bool_decide_eq_false%dec_stable & Hc).
  apply bind_Ok in Hc as (? & Hst%fail_if_Ok%bool_decide_eq_false%dec_stable & Hc).
  apply bind_Ok in Hc as (? & Hd%fail_if_Ok%Z.leb_gt & Hc).
  apply bind_Ok in Hc as (? & Hh%fail_if_Ok%bool_decide_eq_false%dec_stable & Hc). injection Hc as <- <-. by exists x.
Qed.

Lemma htlc_settle_Ok (i : invocation) (s s' : locker) (id : Z) (caller : Address) (r : ClaimResult) :
  anchor_settle i s id caller = Ok (s', r) -> exists x, htlcs s !! id = Some x /\
    (h_state x = HsActive \/ h_state x = HsLocked) /\
    auth i caller = true /\ h_beneficiary x = caller /\ sequence i < deadline_sequence x /\
    s' = close_htlc s id x HsSettled /\ cr_amount r = h_amount x.
Proof.
  intros Hc. unfold anchor_settle in Hc. apply bind_Ok in Hc as ([] & Hau%require_auth_Ok & Hc).
  apply bind_Ok in Hc as (x & Hx%ok_or_Ok & Hc).
  apply bind_Ok in Hc as (? & Hb%fail_if_Ok%bool_decide_eq_false%dec_stable & Hc).
  apply bind_Ok in Hc as (? & Hst%fail_if_Ok%andb_false_iff & Hc).
  apply bind_Ok in Hc as (? & Hd%fail_if_Ok%Z.leb_gt & Hc). injection Hc as <- <-. exists x. split_and!; try done.
  destruct Hst as [Hst|Hst]; apply bool_decide_eq_false, dec_stable in Hst; auto.
Qed.

Lemma htlc_refund_Ok (i : invocation) (s s' : locker) (id : Z) (caller : Address) (r : RefundResult) :
  refund i s id caller = Ok (s', r) -> exists x, htlcs s !! id = Some x /\ h_state x = HsActive /\
    auth i caller = true /\ h_depositor x = caller /\ deadline_sequence x <= sequence i /\
    s' = close_htlc s id x HsRefunded /\ rf_amount r = h_amount x.
Proof.
  intros Hc. unfold refund in Hc. apply bind_Ok in Hc as ([] & Hau%require_auth_Ok & Hc).
  apply bind_Ok in Hc as (x & Hx%ok_or_Ok & Hc).
  apply bind_Ok in Hc as (? & Hb%fail_if_Ok%bool_decide_eq_false%dec_stable & Hc).
  apply bind_Ok in Hc as (? & Hst%fail_if_Ok%bool_decide_eq_false%dec_stable & Hc).
  apply bind_Ok in Hc as (? & Hd%fail_if_Ok%Z.ltb_ge & Hc). injection Hc as <- <-. by exists x.
Qed.

Lemma of_asset_0 (a : Z) : of_asset a (0, 0) = 0.
Proof. unfold of_asset. by destruct (decide _). Qed.

Lemma htlc_step_ok (i : invocation) (s s' : locker) (c : htlc_call) (x y : Z * Z) :
  locker_ok s -> run_htlc i s c = Ok (s', x, y) ->
  locker_ok s' /\ htlc_keeps s s' /\
  forall a, active_total a s' = active_total a s + of_asset a x - of_asset a y.
Proof.
  intros Hok Hr. destruct c; cbn [run_htlc] in Hr.
  - apply bind_Ok in Hr as ([s1 z] & Hc & Hr). injection Hr as <- <- <-.
    destruct (create_ok _ _ _ _ _ _ _ _ _ _ Hok Hc) as (? & ? & Ht). split_and!; [done|done|].
    intros a. rewrite of_asset_0. cbn [fst snd]. rewrite Ht. lia.
  - apply bind_Ok in Hr as ([s1 z] & Hc & Hr). injection Hr as <- <- <-.
    destruct (htlc_claim_Ok _ _ _ _ _ _ _ Hc) as (w & Hw & Ha & _ & _ & _ & _ & -> & Ez).
    destruct (close_ok s id w HsClaimed Hok Hw Ha) as (? & ? & _ & Ht); [done..|]. split_and!; [done|done|].
    intros a. rewrite of_asset_0, Hw. cbn [fst snd from_option]. rewrite Ez. specialize (Ht a). cbn [fst] in *. lia.
  - apply bind_Ok in Hr as ([s1 z] & Hc & Hr). injection Hr as <- <- <-.
    destruct (htlc_settle_Ok _ _ _ _ _ _ Hc) as (w & Hw & [Ha|Hl] & _ & _ & _ & -> & Ez); [|by apply (lk_state s Hok) in Hw].
    destruct (close_ok s id w HsSettled Hok Hw Ha) as (? & ? & _ & Ht); [done..|]. split_and!; [done|done|].
    intros a. rewrite of_asset_0, Hw. cbn [fst snd from_option]. rewrite Ez. specialize (Ht a). cbn [fst] in *. lia.
  - apply bind_Ok in Hr as ([s1 z] & Hc & Hr). injection Hr as <- <- <-.
    destruct (htlc_refund_Ok _ _ _ _ _ _ Hc) as (w & Hw & Ha & _ & _ & _ & -> & Ez).
    destruct (close_ok s id w HsRefunded Hok Hw Ha) as (? & ? & _ & Ht); [done..|]. split_and!; [done|done|].
    intros a. rewrite of_asset_0, Hw. cbn [fst snd from_option]. rewrite Ez. specialize (Ht a). cbn [fst] in *. lia.
  - injection Hr as <- <- <-. destruct (prune_ok s id Hok) as (? & ? & Ht). split_and!; [done|done|].
    intros a. rewrite !of_asset_0, Ht. lia.
Qed.

Lemma empty_locker_ok : locker_ok empty_locker.
Proof. constructor; [done|done|intros a; cbn [htlcs empty_locker]; by rewrite msum_empty|done]. Qed.

Lemma htlc_history_ok (asset : Z) (s0 s : locker) (created released : Z) :
  locker_ok s0 -> htlc_history asset s0 s created released ->
  locker_ok s /\ htlc_keeps s0 s /\ active_total asset s = active_total asset s0 + created - released.
Proof.
  intros Hok. induction 1 as [|s created released i c s' x y _ (Hok1 & K & E) Hr]; [split_and!; [done|done|lia]|].
  destruct (htlc_step_ok i s s' c x y Hok1 Hr) as (? & K' & E'). split_and!; [done| |rewrite E'; lia].
  by eapply htlc_keeps_trans.
Qed.

(** The records account for every amount: over any history, what was taken in of an
    asset is what the returned claims, settlements and refunds released, each of them
    once, and what the contracts still active hold. The counter of a depositor is the number of its active
    contracts, at most 64. *)
Theorem htlc_amounts_conserved (asset : Z) (s : locker) (created released : Z) :
  htlc_history asset empty_locker s created released ->
  created = released
    + msum (fun _ x => if decide (h_state x = HsActive /\ h_asset x = asset) then h_amount x else 0) (htlcs s) /\
  forall a, active_htlc_count s a
      = msum (fun _ x => if decide (h_state x = HsActive /\ h_depositor x = a) then 1 else 0) (htlcs s) /\
    active_htlc_count s a <= MAX_ACTIVE_HTLCS.
Proof.
  intros Hh. destruct (htlc_history_ok asset empty_locker s created released empty_locker_ok Hh) as (Hok & _ & E).
  split; [|intros a; split; [apply (lk_count s Hok)|apply (lk_max s Hok)]].
  unfold active_total in E at 2. cbn [htlcs empty_locker] in E. rewrite msum_empty in E.
  rewrite <- (msum_ext (fun _ => active_amount asset)); [unfold active_total in E; lia|].
  intros k x _. unfold active_amount, of_asset. cbn [fst snd].
  destruct (decide (h_state x = HsActive)), (decide (h_asset x = asset)); destruct (decide (_ /\ _)); tauto.
Qed.

(** A contract is settled once: over any history its terms never change; once it is
    claimed, settled or refunded no operation on it returns again, its record stays as
    it is or is pruned, and its identifier is never given to another
    contract. A contract the anchor settled is never pruned. *)
Theorem htlc_settled_once (a : Z) (s s' : locker) (c1 r1 c2 r2 : Z) (id : Z) (x : Htlc) :
  htlc_history a empty_locker s c1 r1 -> htlc_history a s s' c2 r2 -> htlcs s !! id = Some x ->
  (forall x', htlcs s' !! id = Some x' -> x' = with_htlc_state x (h_state x')) /\
  (h_state x <> HsActive ->
     (htlcs s' !! id = Some x \/ htlcs s' !! id = None /\ h_state x <> HsSettled) /\
     forall i caller pre, is_ok (claim i s' id pre caller) = false /\ is_ok (anchor_settle i s' id caller) = false /\
       is_ok (refund i s' id caller) = false).
Proof.
  intros H1 H2 Hx. destruct (htlc_history_ok a empty_locker s c1 r1 empty_locker_ok H1) as (Hok & _ & _).
  destruct (htlc_history_ok a s s' c2 r2 Hok H2) as (Hok' & K & _). split.
  - intros x' Hx'. exact (proj1 (kp_terms s s' K id x x' Hx Hx')).
  - intros Hst. assert (htlcs s' !! id = Some x \/ htlcs s' !! id = None) as Hc.
    { destruct (htlcs s' !! id) as [x'|] eqn:Hx'; [|by right]. left. f_equal. exact (proj2 (kp_terms s s' K id x x' Hx Hx') Hst). }
    split; [destruct Hc as [?|Hn]; [by left|right; split; [done|]]|].
    + intros Hs. rewrite (kp_stays s s' K id x Hx Hs) in Hn. done.
    + intros i caller pre. pose proof (lk_state s Hok id x Hx) as Hl.
      split_and!; apply not_true_is_false; intros [[s1 r] E]%is_ok_Ok.
      * destruct (htlc_claim_Ok _ _ _ _ _ _ _ E) as (y & Hy & Ha & _). destruct Hc; congruence.
      * destruct (htlc_settle_Ok _ _ _ _ _ _ E) as (y & Hy & [Ha|Ha] & _); destruct Hc; congruence.
      * destruct (htlc_refund_Ok _ _ _ _ _ _ E) as (y & Hy & Ha & _). destruct Hc; congruence.
Qed.

(** An active contract can always be settled, by one party on each side of the
    deadline. Before it the beneficiary claims with any pre-image of the lock, and
    settles as the anchor without one, and nobody refunds; from the deadline on the
    depositor refunds and nobody else gets anything. *)
Theorem htlc_outcomes (i : invocation) (s : locker) (id : Z) (x : Htlc) :
  htlcs s !! id = Some x -> h_state x = HsActive ->
  if sequence i <? deadline_sequence x then
    (forall pre caller, is_ok (claim i s id pre caller) = true <->
       auth i caller = true /\ caller = h_beneficiary x /\ sha256 pre = hash_lock x) /\
    (forall caller, is_ok (anchor_settle i s id caller) = true <-> auth i caller = true /\ caller = h_beneficiary x) /\
    (forall caller, is_ok (refund i s id caller) = false)
  else
    (forall pre caller, is_ok (claim i s id pre caller) = false) /\
    (forall caller, is_ok (anchor_settle i s id caller) = false) /\
    (forall caller, is_ok (refund i s id caller) = true <-> auth i caller = true /\ caller = h_depositor x).
Proof.
  intros Hx Ha. assert (forall (y : Htlc), htlcs s !! id = Some y -> y = x) as Hu by (intros; congruence).
  destruct (Z.ltb_spec (sequence i) (deadline_sequence x)) as [Hd|Hd]; split_and!.
  - intros pre caller. split.
    + intros [[s1 r] E]%is_ok_Ok. destruct (htlc_claim_Ok _ _ _ _ _ _ _ E) as (y & ->%Hu & _ & ? & ? & _ & ? & _). by split_and!.
    + intros (Hau & -> & Hh). unfold claim, require_auth. rewrite Hau, Hx. cbn [ok_or]. rewrite !bind_ret, Ha, Hh.
      rewrite !bool_decide_eq_false_2 by tauto. by rewrite (proj2 (Z.leb_gt _ _)).
  - intros caller. split.
    + intros [[s1 r] E]%is_ok_Ok. destruct (htlc_settle_Ok _ _ _ _ _ _ E) as (y & ->%Hu & _ & ? & ? & _). by split_and!.
    + intros (Hau & ->). unfold anchor_settle, require_auth. rewrite Hau, Hx. cbn [ok_or]. rewrite !bind_ret, Ha.
      rewrite (bool_decide_eq_false_2 (h_beneficiary x <> _)) by tauto.
      rewrite (bool_decide_eq_false_2 (HsActive <> HsActive)) by tauto. cbn [andb]. by rewrite (proj2 (Z.leb_gt _ _)).
  - intros caller. apply not_true_is_false. intros [[s1 r] E]%is_ok_Ok.
    destruct (htlc_refund_Ok _ _ _ _ _ _ E) as (y & ->%Hu & _ & _ & _ & ? & _). lia.
  - intros pre caller. apply not_true_is_false. intros [[s1 r] E]%is_ok_Ok.
    destruct (htlc_claim_Ok _ _ _ _ _ _ _ E) as (y & ->%Hu & _ & _ & _ & ? & _). lia.
  - intros caller. apply not_true_is_false. intros [[s1 r] E]%is_ok_Ok.
    destruct (htlc_settle_Ok _ _ _ _ _ _ E) as (y & ->%Hu & _ & _ & _ & ? & _). lia.
  - intros caller. split.
    + intros [[s1 r] E]%is_ok_Ok. destruct (htlc_refund_Ok _ _ _ _ _ _ E) as (y & ->%Hu & _ & ? & ? & _). by split_and!.
    + intros (Hau & ->). unfold refund, require_auth. rewrite Hau, Hx. cbn [ok_or]. rewrite !bind_ret, Ha.
      rewrite !(bool_decide_eq_false_2 (_ <> _)) by tauto. by rewrite (proj2 (Z.ltb_ge _ _)).
Qed.
End claims.

(** ** A concrete locker: account 2 locks three amounts for account 3; the first is
    claimed and pruned, the second settled by the anchor, the third stays active. *)
Section witnesses.
#[local] Existing Instance test_host.

Definition htlc_at (who seq : Z) : invocation := @Build_invocation test_host (fun a => Z.eqb a who) 1 seq None.

Definition flows (asset : Z) (r : R (locker * (Z * Z) * (Z * Z))) : locker * Z * Z :=
  match r with Ok (s, x, y) => (s, of_asset asset x, of_asset asset y) | _ => (empty_locker, 0, 0) end.

(** The state after a list of calls, with what was taken in and released. *)
Fixpoint run_htlcs (asset : Z) (s : locker) (cs : list (Z * Z * htlc_call)) : locker * Z * Z :=
  match cs with
  | [] => (s, 0, 0)
  | (who, seq, c) :: cs =>
      let '(s0, created, released) := run_htlcs asset s cs in
      let '(s1, x, y) := flows asset (run_htlc (htlc_at who seq) s0 c) in
      (s1, created + x, released + y)
  end.

Fixpoint htlcs_run_ok (asset : Z) (s : locker) (cs : list (Z * Z * htlc_call)) : bool :=
  match cs with
  | [] => true
  | (who, seq, c) :: cs => htlcs_run_ok asset s cs && is_ok (run_htlc (htlc_at who seq) (run_htlcs asset s cs).1.1 c)
  end.

Lemma run_htlcs_history (asset : Z) (s : locker) (cs : list (Z * Z * htlc_call)) :
  htlcs_run_ok asset s cs = true ->
  htlc_history asset s (run_htlcs asset s cs).1.1 (run_htlcs asset s cs).1.2 (run_htlcs asset s cs).2.
Proof.
  induction cs as [|[[who seq] c] cs IH]; intros Hr; [constructor|]. cbn [run_htlcs htlcs_run_ok] in *.
  apply andb_true_iff in Hr as [Hcs Hr]. specialize (IH Hcs).
  destruct (run_htlcs asset s cs) as [[s0 created] released]. cbn [fst snd] in *.
  destruct (run_htlc (htlc_at who seq) s0 c) as [[[s1 x] y]|e|] eqn:E; [|done|done].
  by apply htlc_next with s0 (htlc_at who seq) c.
Qed.

(** The last call first. *)
Definition opened_calls : list (Z * Z * htlc_call) :=
  [(3, 20, HSettle 2 3); (3, 20, HClaim 1 [9; 9] 3); (2, 12, HCreate 2 3 (toy_hash [7]) 300 5 40);
   (2, 11, HCreate 2 3 (toy_hash [8]) 200 5 70); (2, 10, HCreate 2 3 (toy_hash [9; 9]) 100 5 500)].
Definition opened : locker := (run_htlcs 5 empty_locker opened_calls).1.1.
Definition pruned : locker := (run_htlcs 5 opened [(8, 400, HPrune 2); (8, 400, HPrune 1)]).1.1.

Lemma opened_history : htlc_history 5 empty_locker opened 610 570.
Proof. apply (run_htlcs_history 5 empty_locker opened_calls). vm_compute. reflexivity. Qed.

Lemma pruned_history : htlc_history 5 opened pruned 0 0.
Proof. apply (run_htlcs_history 5 opened [(8, 400, HPrune 2); (8, 400, HPrune 1)]). vm_compute. reflexivity. Qed.

Definition htlc_of (s : locker) (id : Z) : Htlc :=
  match get_htlc s id with
  | Ok x => x
  | _ => {| h_id := 0; h_depositor := 0; h_beneficiary := 0; hash_lock := []; deadline_sequence := 0; h_asset := 0;
            h_amount := 0; h_state := HsActive |}
  end.

Lemma htlc_of_ok (s : locker) (id : Z) : is_ok (get_htlc s id) = true -> htlcs s !! id = Some (htlc_of s id).
Proof. unfold htlc_of, get_htlc. by destruct (htlcs s !! id). Qed.

Lemma htlc_amounts_conserved_witness :
  active_htlc_count opened 2 = 1 /\
  610 = 570 + msum (fun _ x => if decide (h_state x = HsActive /\ h_asset x = 5) then h_amount x else 0) (htlcs opened).
Proof.
  split; [vm_compute; reflexivity|].
  exact (proj1 (htlc_amounts_conserved (H := test_host) 5 opened 610 570 opened_history)).
Defined.

Lemma htlc_settled_once_witness :
  h_state (htlc_of opened 1) = HsClaimed /\ is_ok (get_htlc pruned 1) = false /\ is_ok (get_htlc pruned 2) = true /\
  is_ok (claim (htlc_at 3 21) pruned 1 [9; 9] 3) = false.
Proof.
  do 3 (split; [vm_compute; reflexivity|]).
  assert (htlcs opened !! 1 = Some (htlc_of opened 1)) as Hx by (apply htlc_of_ok; vm_compute; reflexivity).
  assert (h_state (htlc_of opened 1) <> HsActive) as Hst by (vm_compute; discriminate).
  exact (proj1 (proj2 (proj2 (htlc_settled_once (H := test_host) 5 opened pruned 610 570 0 0 1 (htlc_of opened 1)
    opened_history pruned_history Hx) Hst) (htlc_at 3 21) 3 [9; 9])).
Defined.

Lemma htlc_outcomes_witness :
  is_ok (claim (htlc_at 3 299) opened 3 [7] 3) = true /\ is_ok (refund (htlc_at 2 300) opened 3 2) = true /\
  is_ok (refund (htlc_at 2 299) opened 3 2) = false.
Proof.
  assert (htlcs opened !! 3 = Some (htlc_of opened 3)) as Hx by (apply htlc_of_ok; vm_compute; reflexivity).
  assert (h_state (htlc_of opened 3) = HsActive) as Hst by (vm_compute; reflexivity).
  pose proof (htlc_outcomes (H := test_host) (htlc_at 3 299) opened 3 _ Hx Hst) as H1.
  pose proof (htlc_outcomes (H := test_host) (htlc_at 2 300) opened 3 _ Hx Hst) as H2.
  pose proof (htlc_outcomes (H := test_host) (htlc_at 2 299) opened 3 _ Hx Hst) as H3.
  assert (deadline_sequence (htlc_of opened 3) = 300) as Hd by (vm_compute; reflexivity).
  rewrite Hd in H1, H2, H3. cbn in H1, H2, H3. destruct H1 as [H1 _], H2 as (_ & _ & H2), H3 as (_ & _ & H3).
  split; [apply H1; split; [|split]; vm_compute; reflexivity|]. split; [apply H2; split; vm_compute; reflexivity|apply H3].
Defined.
End witnesses.
