(* ===== verification/LinearVesting.v ===== *)
(** * Linear vesting

    [src/contracts/linear-vesting/src/lib.rs]: the admin locks tokens for a
    beneficiary under an identifier; after a cliff they vest linearly, and the
    beneficiary claims what has vested. [env.invoker()] is a field of the
    environment; events are left out.

    Histories of the contract over rising ledger sequence numbers: it holds exactly
    what is not yet claimed, nobody claims above the vesting curve, and a claim pays
    the curve to the unit, or traps where the multiplication overflows. *)

From stdpp Require Import base numbers list gmap strings.
From Stdlib Require Import ZArith Lia.
From S2P Require Import Prelude Host Token.

Open Scope Z_scope.

Inductive ContractError :=
  | AlreadyInitialized
  | NotInitialized
  | NotAdmin
  | VestingNotFound
  | CliffNotReached
  | NothingToClaim
  | InvalidAmount
  | InvalidDuration
  | VestingAlreadyExists.

#[export] Instance ContractError_eq_dec : EqDecision ContractError.
Proof. solve_decision. Defined.

Definition error_code (e : ContractError) : Z :=
  match e with
  | AlreadyInitialized => 1 | NotInitialized => 2 | NotAdmin => 3 | VestingNotFound => 4 | CliffNotReached => 5
  | NothingToClaim => 6 | InvalidAmount => 7 | InvalidDuration => 8 | VestingAlreadyExists => 9
  end.

Abbreviation V := (result ContractError).

Section vesting.
Context {H : Host} {T : Tokens H}.

Record VestingSchedule := {
  beneficiary : Address;
  total_amount : Z;
  claimed_amount : Z;
  start_ledger : Z;
  cliff_duration : Z;
  vesting_duration : Z
}.

(** The instance storage: one field per variant of [DataKey]. *)
Record DataKey := {
  Admin : option Address;
  Token : option Address;
  Schedule : gmap string VestingSchedule
}.

Definition empty_storage : DataKey := {| Admin := None; Token := None; Schedule := ∅ |}.

Definition set_schedule (s : DataKey) (identifier : string) (x : VestingSchedule) : DataKey :=
  {| Admin := Admin s; Token := Token s; Schedule := <[identifier := x]> (Schedule s) |}.

Record env := {
  auth : Address -> bool;
  current_contract : Address;
  sequence : Z;
  invoker : Address
}.

Record trust := { store : DataKey; ledger : Ledger }.

Definition initialize (i : env) (w : trust) (admin token : Address) : V trust :=
  _ ← fail_if (bool_decide (is_Some (Admin (store w)))) AlreadyInitialized;
  _ ← require_auth (auth i) admin;
  mret {| store := {| Admin := Some admin; Token := Some token; Schedule := Schedule (store w) |};
          ledger := ledger w |}.

Definition create_vesting (i : env) (w : trust) (admin : Address) (identifier : string) (to : Address)
    (total cliff vesting : Z) : V trust :=
  let s := store w in
  stored_admin ← ok_or (Admin s) NotInitialized;
  _ ← fail_if (bool_decide (admin <> stored_admin)) NotAdmin;
  _ ← require_auth (auth i) admin;
  _ ← fail_if (total <=? 0) InvalidAmount;
  _ ← fail_if (vesting <=? cliff) InvalidDuration;
  _ ← fail_if (bool_decide (is_Some (Schedule s !! identifier))) VestingAlreadyExists;
  let schedule := {| beneficiary := to; total_amount := total; claimed_amount := 0;
                     start_ledger := sequence i; cliff_duration := cliff; vesting_duration := vesting |} in
  token_addr ← ok_or (Token s) NotInitialized;
  l ← unwrap (transfer (ledger w) token_addr admin (current_contract i) total);
  mret {| store := set_schedule s identifier schedule; ledger := l |}.

Definition elapsed (i : env) (x : VestingSchedule) : Z := saturating_sub U32 (sequence i) (start_ledger x).

Definition get_claimable (i : env) (s : DataKey) (identifier : string) : V Z :=
  match Schedule s !! identifier with
  | None => mret 0
  | Some x =>
      if elapsed i x <? cliff_duration x then mret 0
      else
        vested_amount ← (if vesting_duration x <=? elapsed i x then mret (total_amount x)
                         else
                           vesting_range ← isub U32 (vesting_duration x) (cliff_duration x);
                           post_cliff_elapsed ← isub U32 (elapsed i x) (cliff_duration x);
                           product ← imul I128 (total_amount x) post_cliff_elapsed;
                           idiv I128 product vesting_range);
        claimable ← isub I128 vested_amount (claimed_amount x);
        mret (if claimable <=? 0 then 0 else claimable)
  end.

Definition claim_vested (i : env) (w : trust) (identifier : string) : V (trust * Z) :=
  let s := store w in
  let caller := invoker i in
  _ ← require_auth (auth i) caller;
  x ← ok_or (Schedule s !! identifier) VestingNotFound;
  _ ← fail_if (bool_decide (caller <> beneficiary x)) NotAdmin;
  _ ← fail_if (elapsed i x <? cliff_duration x) CliffNotReached;
  claimable ← get_claimable i s identifier;
  _ ← fail_if (claimable <=? 0) NothingToClaim;
  claimed ← iadd I128 (claimed_amount x) claimable;
  let x' := {| beneficiary := beneficiary x; total_amount := total_amount x; claimed_amount := claimed;
               start_ledger := start_ledger x; cliff_duration := cliff_duration x;
               vesting_duration := vesting_duration x |} in
  token_addr ← ok_or (Token s) NotInitialized;
  l ← unwrap (transfer (ledger w) token_addr (current_contract i) (beneficiary x') claimable);
  mret ({| store := set_schedule s identifier x'; ledger := l |}, claimable).

Definition get_schedule (s : DataKey) (identifier : string) : option VestingSchedule := Schedule s !! identifier.

Definition get_admin (s : DataKey) : option Address := Admin s.
End vesting.

(** ** Linear vesting: the properties *)

Section claims.
Context {H : Host} {T : Tokens H}.

Inductive vesting_call :=
  | VInitialize (admin token : Address)
  | VCreate (admin : Address) (identifier : string) (to : Address) (total cliff vesting : Z)
  | VClaim (identifier : string).

Definition run_vesting (i : env) (w : trust) (c : vesting_call) : V trust :=
  match c with
  | VInitialize admin token => initialize i w admin token
  | VCreate admin identifier to total cliff vesting => create_vesting i w admin identifier to total cliff vesting
  | VClaim identifier => r ← claim_vested i w identifier; mret r.1
  end.

(** The arguments are values of their types. *)
Definition vesting_typed (c : vesting_call) : bool :=
  match c with
  | VCreate _ _ _ total cliff vesting => fits I128 total && fits U32 cliff && fits U32 vesting
  | _ => true
  end.

(** The vesting curve, [e] ledgers after the start. *)
Definition vested (x : VestingSchedule) (e : Z) : Z :=
  if e <? cliff_duration x then 0
  else if vesting_duration x <=? e then total_amount x
  else total_amount x * (e - cliff_duration x) / (vesting_duration x - cliff_duration x).

(** What is still locked. *)
Definition locked (s : DataKey) : Z := msum (fun _ x => total_amount x - claimed_amount x) (Schedule s).

Definition with_claimed (x : VestingSchedule) (claimed : Z) : VestingSchedule :=
  {| beneficiary := beneficiary x; total_amount := total_amount x; claimed_amount := claimed;
     start_ledger := start_ledger x; cliff_duration := cliff_duration x; vesting_duration := vesting_duration x |}.

Variable self : Address.

(** A call by a user, at a sequence number not before [now]. *)
Definition called (now : Z) (i : env) : Prop :=
  current_contract i = self /\ auth i self = false /\ now <= sequence i <= imax U32.

Inductive vesting_history (l0 : Ledger) : trust -> Z -> Prop :=
  | vesting_start : vesting_history l0 {| store := empty_storage; ledger := l0 |} 0
  | vesting_next w now i c w' :
      vesting_history l0 w now -> called now i -> vesting_typed c = true -> run_vesting i w c = Ok w' ->
      vesting_history l0 w' (sequence i).

Record schedule_ok (now : Z) (x : VestingSchedule) : Prop := {
  sk_total : 0 < total_amount x <= imax I128;
  sk_start : 0 <= start_ledger x <= now;
  sk_cliff : 0 <= cliff_duration x < vesting_duration x;
  sk_vesting : vesting_duration x <= imax U32;
  sk_claimed : 0 <= claimed_amount x <= vested x (now - start_ledger x)
}.

Record trust_ok (l0 : Ledger) (w : trust) (now : Z) : Prop := {
  tk_now : 0 <= now;
  tk_token : is_Some (Admin (store w)) <-> is_Some (Token (store w));
  tk_empty : Token (store w) = None -> Schedule (store w) = ∅;
  tk_schedules : forall identifier x, Schedule (store w) !! identifier = Some x -> schedule_ok now x;
  tk_balance : forall t, balance (ledger w) t self
    = balance l0 t self + if decide (Token (store w) = Some t) then locked (store w) else 0
}.

(** ** The curve *)
Lemma vested_range (now : Z) (x : VestingSchedule) (e : Z) : schedule_ok now x -> 0 <= vested x e <= total_amount x.
Proof.
  intros Hx. pose proof (sk_total now x Hx). pose proof (sk_cliff now x Hx). unfold vested.
  destruct (Z.ltb_spec e (cliff_duration x)); [lia|]. destruct (Z.leb_spec (vesting_duration x) e); [lia|].
  split; [apply Z.div_pos; nia|apply Z.div_le_upper_bound; nia].
Qed.

Lemma vested_mono (now : Z) (x : VestingSchedule) (e e' : Z) : schedule_ok now x -> e <= e' -> vested x e <= vested x e'.
Proof.
  intros Hx He. pose proof (vested_range now x e Hx) as R1. pose proof (vested_range now x e' Hx) as R2.
  pose proof (sk_total now x Hx). pose proof (sk_cliff now x Hx). unfold vested in *.
  destruct (Z.ltb_spec e (cliff_duration x)); [lia|]. rewrite (proj2 (Z.ltb_ge e' _)) in * by lia.
  destruct (Z.leb_spec (vesting_duration x) e'); [lia|]. rewrite (proj2 (Z.leb_gt _ e)) by lia.
  apply Z.div_le_mono; nia.
Qed.

Lemma schedule_later (now now' : Z) (x : VestingSchedule) : now <= now' -> schedule_ok now x -> schedule_ok now' x.
Proof.
  intros Hn Hx. pose proof (sk_start now x Hx). pose proof (sk_claimed now x Hx).
  pose proof (vested_mono now x (now - start_ledger x) (now' - start_ledger x) Hx).
  constructor; [apply Hx|lia|apply Hx|apply Hx|lia].
Qed.

Definition overflows (x : VestingSchedule) (e : Z) : bool :=
  (e <? vesting_duration x) && (imax I128 <? total_amount x * (e - cliff_duration x)).

Lemma elapsed_eq (now : Z) (i : env) (x : VestingSchedule) :
  schedule_ok now x -> now <= sequence i <= imax U32 -> elapsed i x = sequence i - start_ledger x.
Proof.
  intros Hx Hi. pose proof (sk_start now x Hx). unfold elapsed, saturating_sub. apply clamp_in. cbn [imin]. lia.
Qed.

(** [get_claimable] follows the curve. *)
Lemma claimable_eq (now : Z) (i : env) (s : DataKey) (identifier : string) (x : VestingSchedule) :
  schedule_ok now x -> now <= sequence i <= imax U32 -> Schedule s !! identifier = Some x ->
  let e := sequence i - start_ledger x in
  get_claimable i s identifier =
    if (cliff_duration x <=? e) && overflows x e then Panic else Ok (vested x e - claimed_amount x).
Proof.
  intros Hx Hi Hs e. pose proof (schedule_later now (sequence i) x (proj1 Hi) Hx) as Hx'.
  pose proof (sk_claimed _ x Hx') as Hcl. fold e in Hcl. pose proof (vested_range now x e Hx) as Hr.
  pose proof (sk_total now x Hx). pose proof (sk_cliff now x Hx). pose proof (sk_vesting now x Hx). pose proof (sk_start now x Hx).
  assert (isub (E := ContractError) I128 (vested x e) (claimed_amount x) = Ok (vested x e - claimed_amount x)) as Hsub.
  { apply iop_in. cbn [imin]. lia. }
  assert ((if vested x e - claimed_amount x <=? 0 then 0 else vested x e - claimed_amount x)
    = vested x e - claimed_amount x) as Hpos by (destruct (Z.leb_spec (vested x e - claimed_amount x) 0); lia).
  unfold get_claimable. rewrite Hs, (elapsed_eq now i x Hx Hi). fold e. unfold vested in *. unfold overflows.
  destruct (Z.ltb_spec e (cliff_duration x)) as [Hc|Hc].
  - rewrite (proj2 (Z.leb_gt (cliff_duration x) e)) by lia. cbn [andb]. rewrite <- Hpos. by rewrite (proj2 (Z.leb_le _ 0)) by lia.
  - rewrite (proj2 (Z.leb_le (cliff_duration x) e)) by lia. cbn [andb]. destruct (Z.leb_spec (vesting_duration x) e) as [Hv|Hv].
    + rewrite (proj2 (Z.ltb_ge _ _)) by lia. cbn [andb mbind result_bind mret result_ret]. rewrite Hsub. cbn. by rewrite Hpos.
    + rewrite (proj2 (Z.ltb_lt _ _)) by lia. cbn [andb].
      assert (forall u v, 0 <= u - v <= imax U32 -> isub (E := ContractError) U32 u v = Ok (u - v)) as Hu by (intros; by apply iop_in).
      rewrite !Hu by lia. rewrite !bind_ret. unfold imul at 1.
      destruct (Z.ltb_spec (imax I128) (total_amount x * (e - cliff_duration x))) as [Ho|Ho].
      * unfold iop. assert (fits I128 (total_amount x * (e - cliff_duration x)) = false) as ->; [|done].
        apply not_true_is_false. rewrite fits_spec. lia.
      * rewrite iop_in by (cbn [imin]; nia). rewrite bind_ret. unfold idiv. rewrite (proj2 (Z.eqb_neq _ _)) by lia.
        rewrite Z.quot_div_nonneg by nia. rewrite iop_in by (cbn [imin]; lia). rewrite bind_ret, Hsub, bind_ret, Hpos. done.
Qed.

Context {TL : TokenLaws H T}.

(** A claim, as a function of the curve. *)
Lemma claim_eq (l0 : Ledger) (now : Z) (i : env) (w : trust) (identifier : string) (x : VestingSchedule) (t : Address) :
  trust_ok l0 w now -> called now i -> Schedule (store w) !! identifier = Some x -> Token (store w) = Some t ->
  auth i (invoker i) = true -> invoker i = beneficiary x ->
  let e := sequence i - start_ledger x in
  claim_vested i w identifier =
    if e <? cliff_duration x then Err CliffNotReached
    else if overflows x e then Panic
    else if vested x e =? claimed_amount x then Err NothingToClaim
    else match transfer (ledger w) t self (beneficiary x) (vested x e - claimed_amount x) with
         | None => Panic
         | Some l => Ok ({| store := set_schedule (store w) identifier (with_claimed x (vested x e)); ledger := l |},
                         vested x e - claimed_amount x)
         end.
Proof.
  intros Hok (Ec & Hau & Hi) Hs Ht Ha Hb e. pose proof (tk_schedules _ _ _ Hok _ _ Hs) as Hx.
  pose proof (schedule_later now (sequence i) x (proj1 Hi) Hx) as Hx'.
  pose proof (sk_claimed _ x Hx') as Hcl. fold e in Hcl. pose proof (vested_range now x e Hx) as Hr.
  pose proof (sk_total now x Hx) as Htot. pose proof (claimable_eq now i (store w) identifier x Hx Hi Hs) as Hg. cbv zeta in Hg. fold e in Hg.
  unfold claim_vested, require_auth. rewrite Ha, bind_ret, Hs, Ht. cbn [ok_or]. rewrite bind_ret.
  rewrite bool_decide_eq_false_2 by tauto. cbn [fail_if]. rewrite bind_ret, (elapsed_eq now i x Hx Hi). fold e. rewrite Hg.
  destruct (Z.ltb_spec e (cliff_duration x)) as [Hc|Hc]; [done|]. cbn [fail_if]. rewrite bind_ret.
  rewrite (proj2 (Z.leb_le _ _)) by lia. cbn [andb]. destruct (overflows x e); [done|]. rewrite bind_ret.
  destruct (Z.eqb_spec (vested x e) (claimed_amount x)) as [Eq|Hne].
  - rewrite (proj2 (Z.leb_le _ 0)) by lia. done.
  - rewrite (proj2 (Z.leb_gt _ 0)) by lia. cbn [fail_if]. rewrite bind_ret. unfold iadd. rewrite iop_in by (cbn [imin]; lia).
    rewrite !bind_ret, Ec. cbn [beneficiary].
    replace (claimed_amount x + (vested x e - claimed_amount x)) with (vested x e) by lia.
    destruct (transfer _ _ _ _ _); done.
Qed.

(** ** The operations keep the invariant *)
Lemma claim_caller (i : env) (w w' : trust) (identifier : string) (y : Z) :
  claim_vested i w identifier = Ok (w', y) ->
  exists x t, Schedule (store w) !! identifier = Some x /\ Token (store w) = Some t /\ auth i (invoker i) = true /\
    invoker i = beneficiary x.
Proof.
  intros Hc. unfold claim_vested in Hc. apply bind_Ok in Hc as ([] & Hau%require_auth_Ok & Hc).
  apply bind_Ok in Hc as (x & Hx%ok_or_Ok & Hc).
  apply bind_Ok in Hc as ([] & Hb%fail_if_Ok%bool_decide_eq_false%dec_stable & Hc).
  do 4 apply bind_Ok in Hc as (? & _ & Hc). apply bind_Ok in Hc as (t & Ht%ok_or_Ok & _). by exists x, t.
Qed.

Lemma locked_set (s : DataKey) (identifier : string) (x : VestingSchedule) :
  locked (set_schedule s identifier x)
    = locked s - term (fun _ x => total_amount x - claimed_amount x) (Schedule s) identifier
      + (total_amount x - claimed_amount x).
Proof. unfold locked. cbn [Schedule set_schedule]. by rewrite msum_insert. Qed.

Lemma claim_keeps (l0 : Ledger) (w w' : trust) (now : Z) (i : env) (identifier : string) (y : Z) :
  trust_ok l0 w now -> called now i -> claim_vested i w identifier = Ok (w', y) -> trust_ok l0 w' (sequence i).
Proof.
  intros Hok Hi Hc. destruct (claim_caller i w w' identifier y Hc) as (x & t & Hs & Ht & Ha & Hb).
  rewrite (claim_eq l0 now i w identifier x t Hok Hi Hs Ht Ha Hb) in Hc. pose proof Hi as (Ec & Hns & Hq).
  pose proof (tk_schedules _ _ _ Hok _ _ Hs) as Hx. set (e := sequence i - start_ledger x) in *.
  destruct (e <? cliff_duration x); [done|]. destruct (overflows x e); [done|].
  destruct (vested x e =? claimed_amount x); [done|]. destruct (transfer _ _ _ _ _) as [l|] eqn:Htr; [|done].
  injection Hc as <- <-. pose proof (tk_now _ _ _ Hok). pose proof (vested_range now x e Hx).
  constructor; cbn [store ledger Admin Token Schedule set_schedule].
  - lia.
  - apply (tk_token _ _ _ Hok).
  - congruence.
  - intros k z. intros [[<- <-]|[_ Hz]]%lookup_insert_Some.
    + apply (schedule_later now (sequence i)) in Hx; [|lia]. constructor; cbn; try apply Hx. split; [lia|]. unfold e. done.
    + apply (schedule_later now); [lia|]. by apply (tk_schedules _ _ _ Hok k).
  - intros t'. apply transfer_spec in Htr as [_ Hbal]. rewrite Hbal, (tk_balance _ _ _ Hok), Ht. unfold at_account.
    assert (self <> beneficiary x) as Hne by congruence. rewrite (decide_False (P := t' = t /\ self = beneficiary x)) by tauto.
    destruct (decide (t' = t)) as [->|Hd].
    + rewrite !decide_True by done. rewrite locked_set. unfold term. rewrite Hs. cbn. lia.
    + rewrite (decide_False (P := t' = t /\ _)) by tauto. rewrite !decide_False by congruence. lia.
Qed.

Lemma create_keeps (l0 : Ledger) (w w' : trust) (now : Z) (i : env) (admin : Address) (identifier : string)
    (to : Address) (total cliff vesting : Z) :
  trust_ok l0 w now -> called now i -> vesting_typed (VCreate admin identifier to total cliff vesting) = true ->
  create_vesting i w admin identifier to total cliff vesting = Ok w' -> trust_ok l0 w' (sequence i).
Proof.
  intros Hok (Ec & Hns & Hq) Hty Hc. pose proof (tk_now _ _ _ Hok). unfold create_vesting in Hc.
  cbn [vesting_typed] in Hty. apply andb_true_iff in Hty as [[Hty%fits_spec Htc%fits_spec]%andb_true_iff Htv%fits_spec].
  apply bind_Ok in Hc as (a & Ha%ok_or_Ok & Hc).
  apply bind_Ok in Hc as ([] & Hadm%fail_if_Ok%bool_decide_eq_false%dec_stable & Hc).
  apply bind_Ok in Hc as ([] & Hau%require_auth_Ok & Hc). apply bind_Ok in Hc as ([] & Hp%fail_if_Ok%Z.leb_gt & Hc).
  apply bind_Ok in Hc as ([] & Hd%fail_if_Ok%Z.leb_gt & Hc).
  apply bind_Ok in Hc as ([] & Hn%fail_if_Ok%bool_decide_eq_false & Hc). apply eq_None_not_Some in Hn.
  apply bind_Ok in Hc as (t & Ht%ok_or_Ok & Hc). apply bind_Ok in Hc as (l & Hl%unwrap_Ok & Hc). injection Hc as <-.
  cbn [imin] in *. constructor; cbn [store ledger Admin Token Schedule set_schedule].
  - lia.
  - apply (tk_token _ _ _ Hok).
  - congruence.
  - intros k z. intros [[<- <-]|[_ Hz]]%lookup_insert_Some.
    + constructor; cbn [total_amount claimed_amount start_ledger cliff_duration vesting_duration]; try lia. unfold vested.
      cbn [total_amount claimed_amount start_ledger cliff_duration vesting_duration]. rewrite Z.sub_diag.
      destruct (Z.ltb_spec 0 cliff); [lia|]. rewrite (proj2 (Z.leb_gt _ 0)) by lia. split; [lia|]. apply Z.div_pos; nia.
    + apply (schedule_later now); [lia|]. by apply (tk_schedules _ _ _ Hok k).
  - intros t'. apply transfer_spec in Hl as [_ Hbal]. rewrite Hbal, (tk_balance _ _ _ Hok), Ht, Ec. unfold at_account.
    assert (self <> admin) as Hne by congruence. rewrite (decide_False (P := t' = t /\ self = admin)) by tauto.
    destruct (decide (t' = t)) as [->|Hdt].
    + rewrite !decide_True by done. rewrite locked_set. unfold term. rewrite Hn. cbn. lia.
    + rewrite (decide_False (P := t' = t /\ _)) by tauto. rewrite !decide_False by congruence. lia.
Qed.

Lemma initialize_keeps (l0 : Ledger) (w w' : trust) (now : Z) (i : env) (admin token : Address) :
  trust_ok l0 w now -> called now i -> initialize i w admin token = Ok w' -> trust_ok l0 w' (sequence i).
Proof.
  intros Hok (_ & _ & Hq) Hc. unfold initialize in Hc. apply bind_Ok in Hc as ([] & Hn%fail_if_Ok%bool_decide_eq_false & Hc).
  apply bind_Ok in Hc as ([] & _ & Hc). injection Hc as <-. pose proof (tk_now _ _ _ Hok).
  assert (Token (store w) = None) as Ht by (apply eq_None_not_Some; by rewrite <- (tk_token _ _ _ Hok)).
  pose proof (tk_empty _ _ _ Hok Ht) as He. constructor; cbn [store ledger Admin Token Schedule].
  - lia.
  - split; intros _; by eexists.
  - done.
  - rewrite He. by intros.
  - intros t. rewrite (tk_balance _ _ _ Hok), Ht, (decide_False (P := None = _)) by done.
    unfold locked. cbn [Schedule]. rewrite He, msum_empty. by destruct (decide _).
Qed.

Lemma vesting_history_ok (l0 : Ledger) (w : trust) (now : Z) : vesting_history l0 w now -> trust_ok l0 w now.
Proof.
  induction 1 as [|w now i c w' _ Hok Hi Hty Hr].
  - constructor; cbn; try done. intros t. rewrite decide_False by done. lia.
  - destruct c; cbn [run_vesting] in Hr.
    + by eapply initialize_keeps.
    + by eapply create_keeps.
    + apply bind_Ok in Hr as ([w1 y] & Hc & Hr). injection Hr as <-. by eapply claim_keeps.
Qed.

(** The contract holds, to the unit, what its schedules have not paid out: over any
    history its balance of the vesting token is the initial one plus the amounts not
    yet claimed, and its other balances do not change. Nobody claims above the
    curve: at any time the claimed amount of a schedule is at most what has vested
    at that ledger, nothing before the cliff, never more than the total. *)
Theorem vesting_holds_unclaimed (l0 : Ledger) (w : trust) (now : Z) :
  vesting_history l0 w now ->
  (forall t, balance (ledger w) t self = balance l0 t self +
     if decide (Token (store w) = Some t)
     then msum (fun _ x => total_amount x - claimed_amount x) (Schedule (store w)) else 0) /\
  forall identifier x, get_schedule (store w) identifier = Some x ->
    0 <= claimed_amount x <= vested x (now - start_ledger x) /\ vested x (now - start_ledger x) <= total_amount x /\
    (now - start_ledger x < cliff_duration x -> claimed_amount x = 0).
Proof.
  intros Hh. apply vesting_history_ok in Hh as Hok. split; [exact (tk_balance _ _ _ Hok)|]. intros identifier x Hx.
  pose proof (tk_schedules _ _ _ Hok _ _ Hx) as Hs. pose proof (sk_claimed _ _ Hs) as Hc.
  pose proof (vested_range now x (now - start_ledger x) Hs). split; [done|]. split; [lia|]. intros Hlt.
  unfold vested in Hc. rewrite (proj2 (Z.ltb_lt _ _)) in Hc by done. lia.
Qed.

(** A claim pays the curve. For the beneficiary of a schedule of a reachable contract
    [get_claimable] is what has vested minus what was claimed, and a claim pays exactly
    that and records it; before the cliff and when nothing is new it fails with its
    error. Between cliff and end both trap when total amount times elapsed ledgers
    exceeds [i128], though the quotient would fit; from the end on the whole rest is paid. *)
Theorem claim_pays_the_curve (l0 : Ledger) (w : trust) (now : Z) (i : env) (identifier : string) (x : VestingSchedule) :
  vesting_history l0 w now -> called now i -> get_schedule (store w) identifier = Some x ->
  auth i (invoker i) = true -> invoker i = beneficiary x ->
  let e := sequence i - start_ledger x in
  let traps := (cliff_duration x <=? e) && (e <? vesting_duration x)
                 && (imax I128 <? total_amount x * (e - cliff_duration x)) in
  get_claimable i (store w) identifier = (if traps then Panic else Ok (vested x e - claimed_amount x)) /\
  exists t, Token (store w) = Some t /\
    claim_vested i w identifier =
      if e <? cliff_duration x then Err CliffNotReached
      else if traps then Panic
      else if vested x e =? claimed_amount x then Err NothingToClaim
      else match transfer (ledger w) t self (beneficiary x) (vested x e - claimed_amount x) with
           | None => Panic
           | Some l => Ok ({| store := set_schedule (store w) identifier (with_claimed x (vested x e)); ledger := l |},
                           vested x e - claimed_amount x)
           end.
Proof.
  intros Hh Hi Hx Ha Hb e traps. apply vesting_history_ok in Hh as Hok. pose proof (tk_schedules _ _ _ Hok _ _ Hx) as Hs.
  split.
  - pose proof (claimable_eq now i (store w) identifier x Hs (proj2 (proj2 Hi)) Hx) as E. cbv zeta in E. fold e in E.
    rewrite E. unfold traps, overflows. by rewrite andb_assoc.
  - destruct (Token (store w)) as [t|] eqn:Ht.
    + exists t. split; [done|]. pose proof (claim_eq l0 now i w identifier x t Hok Hi Hx Ht Ha Hb) as E.
      cbv zeta in E. fold e in E. rewrite E. unfold traps, overflows. destruct (Z.ltb_spec e (cliff_duration x)) as [?|Hc]; [done|].
      by rewrite (proj2 (Z.leb_le _ _) Hc).
    + apply (tk_empty _ _ _ Hok) in Ht. unfold get_schedule in Hx. rewrite Ht in Hx. done.
Qed.
End claims.

(** ** A concrete contract: 900 units for account 3 over 1000 ledgers with a cliff of 100,
    half of them claimed in the middle; and a second schedule too large to multiply. *)
Section witnesses.
#[local] Existing Instance test_host.

#[local] Instance vest_tokens : Tokens test_host := map_tokens test_host.
#[local] Instance vest_token_laws : TokenLaws test_host vest_tokens := map_token_laws test_host.

Definition vest_at (who seq : Z) : env := @Build_env test_host (fun a => Z.eqb a who) 1 seq who.

Definition vest_ledger : Ledger := {[ (100, 2) := 2 ^ 126 + 1000 ]}.

Fixpoint run_vestings (w : trust) (cs : list (Z * Z * vesting_call)) : V trust :=
  match cs with
  | [] => mret w
  | (who, seq, c) :: cs => w' ← run_vesting (vest_at who seq) w c; run_vestings w' cs
  end.

(** The calls are by users, in order, of typed arguments. *)
Fixpoint calls_in_order (now : Z) (cs : list (Z * Z * vesting_call)) : bool :=
  match cs with
  | [] => true
  | (who, seq, c) :: cs =>
      negb (Z.eqb 1 who) && (now <=? seq) && (seq <=? imax U32) && vesting_typed c && calls_in_order seq cs
  end.

Definition last_call (now : Z) (cs : list (Z * Z * vesting_call)) : Z :=
  foldl (fun _ c => c.1.2) now cs.

Lemma run_vestings_history (l0 : Ledger) (cs : list (Z * Z * vesting_call)) (w w' : trust) (now : Z) :
  vesting_history 1 l0 w now -> calls_in_order now cs = true -> run_vestings w cs = Ok w' ->
  vesting_history 1 l0 w' (last_call now cs).
Proof.
  revert w now. induction cs as [|[[who seq] c] cs IH]; intros w now Hw Hc Hr; [by injection Hr as <-|].
  cbn [calls_in_order run_vestings] in *. repeat (apply andb_true_iff in Hc as [Hc ?]).
  apply bind_Ok in Hr as (w1 & Hw1 & Hr). apply IH with w1; [|done|done].
  change seq with (sequence (vest_at who seq)). apply vesting_next with w now c; [done| |done|done].
  split; [done|]. split; [by apply negb_true_iff|]. cbn [sequence vest_at]. lia.
Qed.

Definition vest_calls : list (Z * Z * vesting_call) :=
  [(2, 10, VInitialize 2 100); (2, 50, VCreate 2 "team" 3 900 100 1000); (2, 60, VCreate 2 "large" 4 (2 ^ 126) 0 1000);
   (3, 600, VClaim "team")].

Definition vest_start : trust := {| store := empty_storage; ledger := vest_ledger |}.
Definition vest_state : trust := match run_vestings vest_start vest_calls with Ok w => w | _ => vest_start end.

Lemma vest_state_history : vesting_history 1 vest_ledger vest_state 600.
Proof.
  apply (run_vestings_history vest_ledger vest_calls vest_start vest_state 0); [constructor|vm_compute; reflexivity|].
  unfold vest_state. destruct (is_ok_Ok (run_vestings vest_start vest_calls)) as [w ->]; [vm_compute; reflexivity|done].
Qed.

Definition schedule_of (identifier : string) : VestingSchedule :=
  match get_schedule (store vest_state) identifier with
  | Some x => x
  | None => {| beneficiary := 0; total_amount := 0; claimed_amount := 0; start_ledger := 0; cliff_duration := 0; vesting_duration := 0 |}
  end.

Lemma schedule_of_ok (identifier : string) :
  bool_decide (is_Some (get_schedule (store vest_state) identifier)) = true ->
  get_schedule (store vest_state) identifier = Some (schedule_of identifier).
Proof. unfold schedule_of. by intros [x ->]%bool_decide_eq_true. Qed.

Lemma vesting_holds_unclaimed_witness :
  balance (ledger vest_state) 100 1 = 2 ^ 126 + 450 /\ claimed_amount (schedule_of "team") = 450 /\
  0 <= claimed_amount (schedule_of "team") <= vested (schedule_of "team") (600 - start_ledger (schedule_of "team")).
Proof.
  split; [vm_compute; reflexivity|]. split; [vm_compute; reflexivity|].
  refine (proj1 (proj2 (vesting_holds_unclaimed (H := test_host) 1 vest_ledger vest_state 600 vest_state_history) "team" _ _)).
  apply schedule_of_ok. vm_compute. reflexivity.
Defined.

Lemma claim_pays_the_curve_witness :
  is_ok (claim_vested (vest_at 3 1050) vest_state "team") = true /\
  get_claimable (vest_at 3 1050) (store vest_state) "team" = Ok 450 /\
  get_claimable (vest_at 4 600) (store vest_state) "large" = Panic.
Proof.
  split; [vm_compute; reflexivity|].
  assert (called 1 600 (vest_at 3 1050) /\ called 1 600 (vest_at 4 600)) as [H1 H2] by (vm_compute; intuition discriminate).
  assert (get_schedule (store vest_state) "team" = Some (schedule_of "team")) as Ht
    by (apply schedule_of_ok; vm_compute; reflexivity).
  assert (get_schedule (store vest_state) "large" = Some (schedule_of "large")) as Hl
    by (apply schedule_of_ok; vm_compute; reflexivity).
  rewrite (proj1 (claim_pays_the_curve (H := test_host) 1 vest_ledger vest_state 600 (vest_at 3 1050) "team" _
    vest_state_history H1 Ht eq_refl ltac:(vm_compute; reflexivity))).
  rewrite (proj1 (claim_pays_the_curve (H := test_host) 1 vest_ledger vest_state 600 (vest_at 4 600) "large" _
    vest_state_history H2 Hl eq_refl ltac:(vm_compute; reflexivity))).
  split; vm_compute; reflexivity.
Defined.
End witnesses.
