(* ===== verification/Keys.v ===== *)
(** * Keys of the root contract

    Who administers the root contract: src/src/admin/mod.rs (ownership transfer,
    admin change, emergency revocation, pause), src/src/auth/mod.rs (multi-signature
    check and key rotation), src/src/recovery.rs, src/src/staging.rs,
    src/src/security/pausable.rs, and the entry points of src/src/lib.rs that
    initialise the contract and register signers. All of them work on one instance
    storage; the revocation proposal is in temporary storage, which the host may
    evict ([temp_expired]). Events and time-to-live extensions are left out. *)

From stdpp Require Import base numbers list gmap.
From Stdlib Require Import ZArith Lia.
From S2P Require Import Prelude Host RootErrors BookData.

Open Scope Z_scope.

Definition ADMIN_CHANGE_TIMELOCK_SECONDS : Z := 24 * 60 * 60.
Definition PROPOSAL_EXPIRY_SECONDS : Z := 7 * 24 * 60 * 60.
Definition RECOVERY_INACTIVITY_THRESHOLD_SECONDS : Z := 180 * 24 * 60 * 60.
Definition MAX_TESTERS : Z := 50.
(** [1 << 1] *)
Definition ACTIVE : Z := 2.

Section keys.
Context {H : Host}.

Record ContractData := { admin : Address; value : Z; max_fee_ceiling : Z }.

(** What is stored under [SIGNERS_KEY]: lib.rs writes and reads a map from addresses,
    admin/mod.rs reads a [u32]. Reading an entry at another type than it was written
    with traps. *)
Inductive SignersVal := SvCount (n : Z) | SvMap (m : gset Address).

Record EmergencyRevocationProposal := {
  target : Address;
  replacement : Address;
  rv_proposer : Address;
  rv_proposed_at : Z;
  votes : list Address
}.

Record PendingOwner := { nominee : Address; proposed_by : Address }.

Record AdminChangeProposal := { new_admin : Address; ac_proposer : Address; ac_proposed_at : Z }.

Inductive ProposalState := PsActive | PsExpired.

#[export] Instance ProposalState_eq_dec : EqDecision ProposalState.
Proof. solve_decision. Defined.

Record StagingConfig := { sc_active : bool; testers : list Address }.

(** The storage: one field per key; [SignerByAddress] and [RevokedByAddress] are only
    tested for presence. *)
Record keyring := {
  data : option ContractData;
  signers_entry : option SignersVal;
  signer_keys : gset Address;
  revoked : gset Address;
  pending_owner : option PendingOwner;
  pending_admin : option AdminChangeProposal;
  revocation : option EmergencyRevocationProposal;
  paused : option bool;
  recovery_key : option Address;
  last_activity : option Z;
  staging : option StagingConfig;
  emergency_admin : option Address;
  admin_signers : option (list Address);
  admin_threshold : option Z;
  validator_states : gmap Address Z
}.

Definition empty_keyring : keyring := {|
  data := None; signers_entry := None; signer_keys := ∅; revoked := ∅; pending_owner := None; pending_admin := None;
  revocation := None; paused := None; recovery_key := None; last_activity := None; staging := None;
  emergency_admin := None; admin_signers := None; admin_threshold := None; validator_states := ∅ |}.

(** ** Writes of one key *)
Definition set_data (s : keyring) (x : ContractData) : keyring := {|
  data := Some x; signers_entry := signers_entry s; signer_keys := signer_keys s; revoked := revoked s;
  pending_owner := pending_owner s; pending_admin := pending_admin s; revocation := revocation s; paused := paused s;
  recovery_key := recovery_key s; last_activity := last_activity s; staging := staging s;
  emergency_admin := emergency_admin s; admin_signers := admin_signers s; admin_threshold := admin_threshold s;
  validator_states := validator_states s |}.

(** [data.admin = a], stored. *)
Definition set_admin (s : keyring) (d : ContractData) (a : Address) : keyring :=
  set_data s {| admin := a; value := value d; max_fee_ceiling := max_fee_ceiling d |}.

Definition set_signers (s : keyring) (m : gset Address) : keyring := {|
  data := data s; signers_entry := Some (SvMap m); signer_keys := signer_keys s; revoked := revoked s;
  pending_owner := pending_owner s; pending_admin := pending_admin s; revocation := revocation s; paused := paused s;
  recovery_key := recovery_key s; last_activity := last_activity s; staging := staging s;
  emergency_admin := emergency_admin s; admin_signers := admin_signers s; admin_threshold := admin_threshold s;
  validator_states := validator_states s |}.

Definition set_keys (s : keyring) (keys stamped : gset Address) : keyring := {|
  data := data s; signers_entry := signers_entry s; signer_keys := keys; revoked := stamped;
  pending_owner := pending_owner s; pending_admin := pending_admin s; revocation := revocation s; paused := paused s;
  recovery_key := recovery_key s; last_activity := last_activity s; staging := staging s;
  emergency_admin := emergency_admin s; admin_signers := admin_signers s; admin_threshold := admin_threshold s;
  validator_states := validator_states s |}.

Definition set_pending (s : keyring) (o : option PendingOwner) (c : option AdminChangeProposal) : keyring := {|
  data := data s; signers_entry := signers_entry s; signer_keys := signer_keys s; revoked := revoked s;
  pending_owner := o; pending_admin := c; revocation := revocation s; paused := paused s;
  recovery_key := recovery_key s; last_activity := last_activity s; staging := staging s;
  emergency_admin := emergency_admin s; admin_signers := admin_signers s; admin_threshold := admin_threshold s;
  validator_states := validator_states s |}.

(** [store_temp_proposal] and [remove_temp_proposal] at [EMERGENCY_REVOCATION_TEMP_KEY]. *)
Definition set_revocation (s : keyring) (p : option EmergencyRevocationProposal) : keyring := {|
  data := data s; signers_entry := signers_entry s; signer_keys := signer_keys s; revoked := revoked s;
  pending_owner := pending_owner s; pending_admin := pending_admin s; revocation := p; paused := paused s;
  recovery_key := recovery_key s; last_activity := last_activity s; staging := staging s;
  emergency_admin := emergency_admin s; admin_signers := admin_signers s; admin_threshold := admin_threshold s;
  validator_states := validator_states s |}.

Definition set_switches (s : keyring) (p : option bool) (r : option Address) (t : option Z) (c : option StagingConfig)
    (e : option Address) : keyring := {|
  data := data s; signers_entry := signers_entry s; signer_keys := signer_keys s; revoked := revoked s;
  pending_owner := pending_owner s; pending_admin := pending_admin s; revocation := revocation s; paused := p;
  recovery_key := r; last_activity := t; staging := c; emergency_admin := e; admin_signers := admin_signers s;
  admin_threshold := admin_threshold s; validator_states := validator_states s |}.

Definition set_admin_signers (s : keyring) (signers : list Address) (threshold : Z) : keyring := {|
  data := data s; signers_entry := signers_entry s; signer_keys := signer_keys s; revoked := revoked s;
  pending_owner := pending_owner s; pending_admin := pending_admin s; revocation := revocation s; paused := paused s;
  recovery_key := recovery_key s; last_activity := last_activity s; staging := staging s;
  emergency_admin := emergency_admin s; admin_signers := Some signers; admin_threshold := Some threshold;
  validator_states := validator_states s |}.

(** The invocation: who authorised it, and the ledger's timestamp. *)
Record call_env := { auth : Address -> bool; timestamp : Z }.

Definition load_data (s : keyring) : R ContractData := ok_or (data s) NotInitialized.

(** [let data = ...; if data.admin != caller { NotAdmin }; caller.require_auth()] *)
Definition require_admin (i : call_env) (s : keyring) (caller : Address) : R ContractData :=
  d ← load_data s;
  _ ← fail_if (bool_decide (admin d <> caller)) NotAdmin;
  _ ← require_auth (auth i) caller;
  mret d.
End keys.

(** ** src/src/staging.rs *)
Section staging.
Context {H : Host}.

Definition load (s : keyring) : StagingConfig := default {| sc_active := false; testers := [] |} (staging s).

Definition save (s : keyring) (cfg : StagingConfig) : keyring :=
  set_switches s (paused s) (recovery_key s) (last_activity s) (Some cfg) (emergency_admin s).

Definition set_staging_mode (i : call_env) (s : keyring) (caller : Address) (enable : bool) : R keyring :=
  _ ← require_admin i s caller;
  let cfg := load s in
  mret (save s {| sc_active := enable; testers := testers cfg |}).

Definition add_tester (i : call_env) (s : keyring) (caller tester : Address) : R keyring :=
  _ ← require_admin i s caller;
  let cfg := load s in
  if bool_decide (tester ∈ testers cfg) then mret s
  else
    _ ← fail_if (MAX_TESTERS <=? len (testers cfg)) Overflow;
    mret (save s {| sc_active := sc_active cfg; testers := testers cfg ++ [tester] |}).

Definition remove_tester (i : call_env) (s : keyring) (caller tester : Address) : R keyring :=
  _ ← require_admin i s caller;
  let cfg := load s in
  mret (save s {| sc_active := sc_active cfg; testers := filter (fun entry => entry <> tester) (testers cfg) |}).

Definition is_staging_active (s : keyring) : bool := sc_active (load s).

Definition get_staging_config (s : keyring) : StagingConfig := load s.

Definition check_staging_access (s : keyring) (caller : Address) : R unit :=
  let cfg := load s in
  if negb (sc_active cfg) then mret tt
  else
    d ← load_data s;
    if bool_decide (admin d = caller) || bool_decide (caller ∈ testers cfg) then mret tt else Err StagingNotAuthorized.
End staging.

(** ** src/src/recovery.rs *)
Section recovery.
Context {H : Host}.

Definition set_recovery_key (i : call_env) (s : keyring) (caller key : Address) : R keyring :=
  _ ← require_admin i s caller;
  mret (set_switches s (paused s) (Some key) (last_activity s) (staging s) (emergency_admin s)).

Definition get_recovery_key (s : keyring) : option Address := recovery_key s.

Definition update_admin_activity (i : call_env) (s : keyring) : keyring :=
  set_switches s (paused s) (recovery_key s) (Some (timestamp i)) (staging s) (emergency_admin s).

Definition get_last_admin_activity (s : keyring) : Z := default 0 (last_activity s).

Definition is_recovery_available (i : call_env) (s : keyring) : bool :=
  RECOVERY_INACTIVITY_THRESHOLD_SECONDS <=? saturating_sub U64 (timestamp i) (get_last_admin_activity s).

Definition recover_admin (i : call_env) (s : keyring) (key : Address) : R keyring :=
  stored_key ← ok_or (recovery_key s) RecoveryKeyNotConfigured;
  _ ← fail_if (bool_decide (key <> stored_key)) NotRecoveryKey;
  _ ← require_auth (auth i) key;
  _ ← fail_if (negb (is_recovery_available i s)) RecoveryNotAvailableYet;
  d ← load_data s;
  mret (update_admin_activity i (set_admin s d key)).
End recovery.

(** ** src/src/auth/mod.rs *)
Section auth.
Context {H : Host}.

Definition get_admin_signers (s : keyring) : list Address := default [] (admin_signers s).

Definition get_admin_threshold (s : keyring) : Z := default 1 (admin_threshold s).

Definition get_validator_state (s : keyring) (addr : Address) : Z := default 0 (validator_states s !! addr).

(** Whether [require_multisig] counts an address: admin, listed or with a signer
    key, and its validator state empty or with the active bit. *)
Definition counts_as_signer (s : keyring) (d : ContractData) (signer : Address) : bool :=
  (bool_decide (signer = admin d) || bool_decide (signer ∈ signer_keys s)
   || bool_decide (signer ∈ get_admin_signers s))
  && (let state := get_validator_state s signer in (state =? 0) || negb (Z.land state ACTIVE =? 0)).

(** The loop of [require_multisig]; [break] ends it. *)
Fixpoint count_valid (s : keyring) (d : ContractData) (threshold : Z) (signers seen : list Address) (valid_count : Z) : R Z :=
  match signers with
  | [] => mret valid_count
  | signer :: rest =>
      if bool_decide (signer ∈ seen) then count_valid s d threshold rest seen valid_count
      else if negb (counts_as_signer s d signer) then count_valid s d threshold rest (signer :: seen) valid_count
      else if threshold <=? valid_count then mret valid_count
      else
        n ← iadd U32 valid_count 1;
        count_valid s d threshold rest (signer :: seen) n
  end.

Definition require_multisig (s : keyring) (signers : list Address) : R unit :=
  d ← load_data s;
  let threshold := get_admin_threshold s in
  valid_count ← count_valid s d threshold signers [] 0;
  fail_if (valid_count <? threshold) ThresholdNotReached.

(** The first occurrences of a list, in order. *)
Fixpoint unique (signers seen : list Address) : list Address :=
  match signers with
  | [] => []
  | signer :: rest =>
      if bool_decide (signer ∈ seen) then unique rest seen else signer :: unique rest (signer :: seen)
  end.

Definition rotate_admin_keys (s : keyring) (approvers new_signers : list Address) (new_threshold : Z) : R keyring :=
  _ ← require_multisig s approvers;
  let unique_signers := unique new_signers [] in
  let total_signers := len unique_signers in
  _ ← fail_if ((new_threshold =? 0) || (total_signers <? new_threshold)) ThresholdNotReached;
  let old_signers := get_admin_signers s in
  let kept := foldl (fun keys old => if bool_decide (old ∈ unique_signers) then keys else keys ∖ {[old]})
                (signer_keys s) old_signers in
  let registered := foldl (fun keys signer => {[signer]} ∪ keys) kept unique_signers in
  mret (set_admin_signers (set_keys s registered (revoked s)) unique_signers new_threshold).
End auth.

(** ** src/src/admin/mod.rs *)
Section admin.
Context {H : Host}.

Definition _is_signer (s : keyring) (addr : Address) : bool := bool_decide (addr ∈ signer_keys s).

(** [get(&SIGNERS_KEY).unwrap_or(0u32)] *)
Definition read_signer_count (s : keyring) : R Z :=
  match signers_entry s with None => mret 0 | Some (SvCount n) => mret n | Some (SvMap _) => Panic end.

Definition _revocation_threshold (s : keyring) : R Z :=
  signer_count ← read_signer_count s;
  mret (if signer_count =? 0 then 1 else signer_count / 2 + 1).

Definition proposal_state (i : call_env) (proposed_at : Z) : ProposalState :=
  if PROPOSAL_EXPIRY_SECONDS <=? saturating_sub U64 (timestamp i) proposed_at then PsExpired else PsActive.

Definition execute_emergency_revocation (s : keyring) (d : ContractData) (p : EmergencyRevocationProposal) : keyring :=
  let keys := signer_keys s ∖ {[target p]} in
  let keys' := if bool_decide (replacement p <> target p) then {[replacement p]} ∪ keys else keys in
  let s1 := set_keys s keys' ({[target p]} ∪ revoked s) in
  let s2 := if bool_decide (admin d = target p) then set_admin s1 d (replacement p) else s1 in
  set_revocation s2 None.

Definition propose_emergency_revocation (i : call_env) (s : keyring) (proposer tgt repl : Address) : R keyring :=
  _ ← check_staging_access s proposer;
  d ← load_data s;
  _ ← fail_if (bool_decide (proposer = tgt)) Unauthorized;
  _ ← fail_if (bool_decide (admin d <> proposer) && negb (_is_signer s proposer)) Unauthorized;
  _ ← require_auth (auth i) proposer;
  let s1 := match revocation s with
            | Some p => if decide (proposal_state i (rv_proposed_at p) = PsExpired) then set_revocation s None else s
            | None => s
            end in
  _ ← fail_if (bool_decide (is_Some (revocation s1))) EmergencyRevocationAlreadyActive;
  _ ← fail_if (bool_decide (admin d <> tgt) && negb (_is_signer s1 tgt)) TargetNotAdmin;
  let p := {| target := tgt; replacement := repl; rv_proposer := proposer; rv_proposed_at := timestamp i;
              votes := [proposer] |} in
  threshold ← _revocation_threshold s1;
  mret (if threshold <=? len (votes p) then execute_emergency_revocation s1 d p else set_revocation s1 (Some p)).

Definition vote_emergency_revocation (i : call_env) (s : keyring) (voter : Address) (sig_expires_at : Z) : R keyring :=
  _ ← fail_if (sig_expires_at <? timestamp i) SignatureExpired;
  _ ← require_auth (auth i) voter;
  d ← load_data s;
  _ ← fail_if (bool_decide (admin d <> voter) && negb (_is_signer s voter)) Unauthorized;
  p ← ok_or (revocation s) NoActiveEmergencyRevocation;
  _ ← fail_if (bool_decide (proposal_state i (rv_proposed_at p) = PsExpired)) NoActiveEmergencyRevocation;
  _ ← fail_if (bool_decide (voter ∈ votes p)) AlreadyVoted;
  _ ← fail_if (bool_decide (voter = target p)) Unauthorized;
  votes' ← vpush (votes p) voter;
  let p' := {| target := target p; replacement := replacement p; rv_proposer := rv_proposer p;
               rv_proposed_at := rv_proposed_at p; votes := votes' |} in
  threshold ← _revocation_threshold s;
  mret (if threshold <=? len (votes p') then execute_emergency_revocation s d p' else set_revocation s (Some p')).

Definition get_emergency_revocation_proposal (i : call_env) (s : keyring) : option EmergencyRevocationProposal :=
  p ← revocation s;
  if decide (proposal_state i (rv_proposed_at p) = PsExpired) then None else Some p.

Definition is_revoked (s : keyring) (addr : Address) : bool := bool_decide (addr ∈ revoked s).

Definition assert_not_revoked (s : keyring) (addr : Address) : R unit :=
  if is_revoked s addr then Err RevokedAddress else mret tt.

Definition purge_emergency_revocation_proposal (s : keyring) : R keyring :=
  _ ← load_data s;
  mret (if bool_decide (is_Some (revocation s)) then set_revocation s None else s).

Definition has_active_emergency_revocation (i : call_env) (s : keyring) : bool :=
  match revocation s with Some p => bool_decide (proposal_state i (rv_proposed_at p) = PsActive) | None => false end.

(** *** Ownership transfer *)
Definition propose_ownership_transfer (i : call_env) (s : keyring) (current_admin nominee : Address) : R keyring :=
  _ ← require_admin i s current_admin;
  _ ← fail_if (bool_decide (is_Some (pending_owner s))) TransferAlreadyPending;
  mret (set_pending s (Some {| nominee := nominee; proposed_by := current_admin |}) (pending_admin s)).

Definition claim_ownership (i : call_env) (s : keyring) (claimer : Address) : R keyring :=
  p ← ok_or (pending_owner s) NoPendingOwner;
  _ ← fail_if (bool_decide (nominee p <> claimer)) NotAdmin;
  _ ← require_auth (auth i) claimer;
  d ← load_data s;
  mret (set_pending (set_admin s d claimer) None (pending_admin s)).

(** *** Admin change *)
Definition propose_admin_change (i : call_env) (s : keyring) (current_admin next : Address) : R keyring :=
  _ ← check_staging_access s current_admin;
  d ← load_data s;
  _ ← fail_if (bool_decide (admin d <> current_admin)) NotAdmin;
  _ ← fail_if (bool_decide (is_Some (pending_admin s))) AdminChangePending;
  _ ← require_auth (auth i) current_admin;
  mret (set_pending s (pending_owner s)
          (Some {| new_admin := next; ac_proposer := current_admin; ac_proposed_at := timestamp i |})).

Definition countersign_admin_change (i : call_env) (s : keyring) (cosigner : Address) : R keyring :=
  p ← ok_or (pending_admin s) NoAdminChangePending;
  _ ← fail_if (bool_decide (ac_proposer p = cosigner)) CosignerCannotBeProposer;
  d ← load_data s;
  _ ← fail_if (negb (_is_signer s cosigner || bool_decide (admin d = cosigner))) Unauthorized;
  _ ← require_auth (auth i) cosigner;
  mret (set_pending (set_admin s d (new_admin p)) (pending_owner s) None).

Definition execute_admin_change_by_timelock (i : call_env) (s : keyring) (executor : Address) : R keyring :=
  p ← ok_or (pending_admin s) NoAdminChangePending;
  let elapsed := saturating_sub U64 (timestamp i) (ac_proposed_at p) in
  _ ← fail_if (elapsed <? ADMIN_CHANGE_TIMELOCK_SECONDS) AdminTimelockNotSatisfied;
  d ← load_data s;
  _ ← fail_if (bool_decide (executor <> ac_proposer p) && bool_decide (executor <> admin d)) Unauthorized;
  _ ← require_auth (auth i) executor;
  mret (update_admin_activity i (set_pending (set_admin s d (new_admin p)) (pending_owner s) None)).

Definition cancel_admin_change (i : call_env) (s : keyring) (canceller : Address) : R keyring :=
  _ ← ok_or (pending_admin s) NoAdminChangePending;
  _ ← require_admin i s canceller;
  mret (update_admin_activity i (set_pending s (pending_owner s) None)).

Definition get_pending_admin_change (s : keyring) : option AdminChangeProposal := pending_admin s.

(** *** Pause *)
Definition set_paused (i : call_env) (s : keyring) (caller : Address) (flag : bool) : R keyring :=
  _ ← require_admin i s caller;
  mret (set_switches s (Some flag) (recovery_key s) (last_activity s) (staging s) (emergency_admin s)).

Definition is_paused (s : keyring) : bool := default false (paused s).
End admin.

(** ** src/src/security/pausable.rs *)
Section pausable.
Context {H : Host}.

Definition set_emergency_admin (i : call_env) (s : keyring) (caller emergency : Address) : R keyring :=
  _ ← require_admin i s caller;
  mret (set_switches s (paused s) (recovery_key s) (last_activity s) (staging s) (Some emergency)).

Definition get_emergency_admin (s : keyring) : option Address := emergency_admin s.

Definition is_emergency_admin (s : keyring) (addr : Address) : bool :=
  default false ((fun a => bool_decide (a = addr)) <$> get_emergency_admin s).

Definition emergency_pause (i : call_env) (s : keyring) (caller : Address) : R keyring :=
  _ ← load_data s;
  _ ← fail_if (negb (is_emergency_admin s caller)) NotEmergencyAdmin;
  _ ← require_auth (auth i) caller;
  mret (set_switches s (Some true) (recovery_key s) (last_activity s) (staging s) (emergency_admin s)).

Definition emergency_unpause (i : call_env) (s : keyring) (caller : Address) (signers : list Address) : R keyring :=
  _ ← load_data s;
  _ ← require_auth (auth i) caller;
  _ ← require_multisig s signers;
  mret (set_switches s (Some false) (recovery_key s) (last_activity s) (staging s) (emergency_admin s)).
End pausable.

(** ** Entry points of src/src/lib.rs *)
Section entry.
Context {H : Host}.

(** The treasury, stored under a key of its own, plays no part here. *)
Definition initialize (i : call_env) (s : keyring) (a : Address) : R keyring :=
  _ ← fail_if (bool_decide (is_Some (data s))) AlreadyInitialized;
  _ ← require_auth (auth i) a;
  mret (set_data s {| admin := a; value := 0; max_fee_ceiling := 10000 |}).

Definition _get_signers (s : keyring) : R (gset Address) :=
  match signers_entry s with None => mret ∅ | Some (SvMap m) => mret m | Some (SvCount _) => Panic end.

Definition register_signer (i : call_env) (s : keyring) (signer caller : Address) : R keyring :=
  _ ← assert_not_revoked s caller;
  _ ← require_admin i s caller;
  signers ← _get_signers s;
  mret (if bool_decide (signer ∈ signers) then s else set_signers s ({[signer]} ∪ signers)).

Definition assert_contract_is_active (s : keyring) : R unit :=
  _ ← fail_if (negb (bool_decide (is_Some (data s)))) NotInitialized;
  fail_if (is_paused s) ContractPaused.

Definition remove_signer (i : call_env) (s : keyring) (signer caller : Address) : R keyring :=
  _ ← assert_contract_is_active s;
  _ ← require_admin i s caller;
  signers ← _get_signers s;
  mret (set_signers s (signers ∖ {[signer]})).

(** The entry point guards the module's function. *)
Definition entry_propose_emergency_revocation (i : call_env) (s : keyring) (proposer tgt repl : Address) : R keyring :=
  _ ← assert_not_revoked s proposer;
  propose_emergency_revocation i s proposer tgt repl.
End entry.
