(* ===== verification/KeyTheorems.v ===== *)
(** * Keys of the root contract: the properties

    Histories of all the operations on the keys: how the administrator can change,
    what an emergency revocation needs and what it leaves behind, and what the
    multi-signature check counts. *)

From stdpp Require Import base numbers list gmap.
From Stdlib Require Import ZArith Lia.
From S2P Require Import Prelude Host RootErrors BookData Keys.

Open Scope Z_scope.

Section claims.
Context {H : Host}.

Inductive key_call :=
  | KInit (a : Address)
  | KRegister (signer caller : Address)
  | KRemove (signer caller : Address)
  | KNominate (caller nominee : Address)
  | KClaim (claimer : Address)
  | KPropose (caller next : Address)
  | KCountersign (cosigner : Address)
  | KTimelock (executor : Address)
  | KCancel (caller : Address)
  | KRevoke (proposer tgt repl : Address)
  | KVote (voter : Address) (sig_expires_at : Z)
  | KPurge
  | KExpire
  | KSetRecovery (caller key : Address)
  | KRecover (key : Address)
  | KPause (caller : Address) (flag : bool)
  | KEmergencyAdmin (caller emergency : Address)
  | KEmergencyPause (caller : Address)
  | KEmergencyUnpause (caller : Address) (signers : list Address)
  | KStaging (caller : Address) (enable : bool)
  | KAddTester (caller tester : Address)
  | KRemoveTester (caller tester : Address)
  | KRotate (approvers signers : list Address) (threshold : Z).

(** [KExpire] is the host evicting the temporary entry. *)
Definition run_keys (i : call_env) (s : keyring) (c : key_call) : R keyring :=
  match c with
  | KInit a => initialize i s a
  | KRegister signer caller => register_signer i s signer caller
  | KRemove signer caller => remove_signer i s signer caller
  | KNominate caller n => propose_ownership_transfer i s caller n
  | KClaim claimer => claim_ownership i s claimer
  | KPropose caller next => propose_admin_change i s caller next
  | KCountersign cosigner => countersign_admin_change i s cosigner
  | KTimelock executor => execute_admin_change_by_timelock i s executor
  | KCancel caller => cancel_admin_change i s caller
  | KRevoke proposer tgt repl => propose_emergency_revocation i s proposer tgt repl
  | KVote voter expires => vote_emergency_revocation i s voter expires
  | KPurge => purge_emergency_revocation_proposal s
  | KExpire => mret (set_revocation s None)
  | KSetRecovery caller key => set_recovery_key i s caller key
  | KRecover key => recover_admin i s key
  | KPause caller flag => set_paused i s caller flag
  | KEmergencyAdmin caller e => set_emergency_admin i s caller e
  | KEmergencyPause caller => emergency_pause i s caller
  | KEmergencyUnpause caller signers => emergency_unpause i s caller signers
  | KStaging caller enable => set_staging_mode i s caller enable
  | KAddTester caller tester => add_tester i s caller tester
  | KRemoveTester caller tester => remove_tester i s caller tester
  | KRotate approvers signers threshold => rotate_admin_keys s approvers signers threshold
  end.





(** The keys that matter for the admin are as before. *)
Definition same_keys (s s' : keyring) : Prop :=
  data s' = data s /\ pending_owner s' = pending_owner s /\ pending_admin s' = pending_admin s /\
  revocation s' = revocation s /\ revoked s' = revoked s /\
  (signers_entry s' = signers_entry s \/ exists m, signers_entry s' = Some (SvMap m)).


(** ** What the operations check *)
Lemma load_data_Ok (s : keyring) (d : ContractData) : load_data s = Ok d <-> data s = Some d.
Proof. apply ok_or_Ok. Qed.



Lemma saturating_le (t p x : Z) : 0 < x <= imax U64 -> x <= t - p -> x <= saturating_sub U64 t p.
Proof. unfold saturating_sub, clamp. cbn [imin]. lia. Qed.

Lemma claim_owner_Ok (i : call_env) (s s' : keyring) (claimer : Address) :
  claim_ownership i s claimer = Ok s' <-> exists p d, pending_owner s = Some p /\ nominee p = claimer /\
    auth i claimer = true /\ data s = Some d /\ s' = set_pending (set_admin s d claimer) None (pending_admin s).
Proof.
  unfold claim_ownership, load_data, require_auth. split.
  - intros Hc. apply bind_Ok in Hc as (p & Hp%ok_or_Ok & Hc).
    apply bind_Ok in Hc as ([] & Hn%fail_if_Ok%bool_decide_eq_false%dec_stable & Hc).
    apply bind_Ok in Hc as ([] & Hau%require_auth_Ok & Hc). apply bind_Ok in Hc as (d & Hd%ok_or_Ok & Hc).
    injection Hc as <-. by exists p, d.
  - intros (p & d & -> & Hn & -> & -> & ->). cbn [ok_or]. rewrite bind_ret, Hn, bool_decide_eq_false_2 by tauto. done.
Qed.

Lemma timelock_Ok (i : call_env) (s s' : keyring) (executor : Address) :
  execute_admin_change_by_timelock i s executor = Ok s' <-> exists p d, pending_admin s = Some p /\
    ADMIN_CHANGE_TIMELOCK_SECONDS <= saturating_sub U64 (timestamp i) (ac_proposed_at p) /\ data s = Some d /\
    (executor = ac_proposer p \/ executor = admin d) /\ auth i executor = true /\
    s' = update_admin_activity i (set_pending (set_admin s d (new_admin p)) (pending_owner s) None).
Proof.
  unfold execute_admin_change_by_timelock, load_data, require_auth. split.
  - intros Hc. apply bind_Ok in Hc as (p & Hp%ok_or_Ok & Hc). apply bind_Ok in Hc as ([] & Ht%fail_if_Ok%Z.ltb_ge & Hc).
    apply bind_Ok in Hc as (d & Hd%ok_or_Ok & Hc). apply bind_Ok in Hc as ([] & Hu%fail_if_Ok%andb_false_iff & Hc).
    apply bind_Ok in Hc as ([] & Hau%require_auth_Ok & Hc). injection Hc as <-. exists p, d. split_and!; try done.
    destruct Hu as [Hu|Hu]; apply bool_decide_eq_false, dec_stable in Hu; auto.
  - intros (p & d & -> & Ht & -> & Hu & -> & ->). cbn [ok_or]. rewrite !bind_ret.
    rewrite (proj2 (Z.ltb_ge _ _)) by done. cbn [fail_if]. rewrite !bind_ret.
    assert (bool_decide (executor <> ac_proposer p) && bool_decide (executor <> admin d) = false) as ->; [|done].
    apply andb_false_iff. destruct Hu; [left|right]; apply bool_decide_eq_false_2; tauto.
Qed.

Lemma countersign_Ok (i : call_env) (s s' : keyring) (cosigner : Address) :
  countersign_admin_change i s cosigner = Ok s' -> exists p d, pending_admin s = Some p /\ ac_proposer p <> cosigner /\
    data s = Some d /\ (cosigner = admin d \/ cosigner ∈ signer_keys s) /\ auth i cosigner = true /\
    s' = set_pending (set_admin s d (new_admin p)) (pending_owner s) None.
Proof.
  intros Hc. unfold countersign_admin_change in Hc. apply bind_Ok in Hc as (p & Hp%ok_or_Ok & Hc).
  apply bind_Ok in Hc as ([] & Hn%fail_if_Ok%bool_decide_eq_false & Hc). apply bind_Ok in Hc as (d & Hd%load_data_Ok & Hc).
  apply bind_Ok in Hc as ([] & Hu%fail_if_Ok%negb_false_iff%orb_true_iff & Hc).
  apply bind_Ok in Hc as ([] & Hau%require_auth_Ok & Hc). injection Hc as <-. exists p, d. split_and!; try done.
  destruct Hu as [Hu%bool_decide_eq_true|Hu%bool_decide_eq_true]; auto.
Qed.

Lemma recover_Ok (i : call_env) (s s' : keyring) (key : Address) :
  recover_admin i s key = Ok s' -> exists d, recovery_key s = Some key /\ auth i key = true /\ data s = Some d /\
    RECOVERY_INACTIVITY_THRESHOLD_SECONDS <= saturating_sub U64 (timestamp i) (get_last_admin_activity s) /\
    s' = update_admin_activity i (set_admin s d key).
Proof.
  intros Hc. unfold recover_admin in Hc. apply bind_Ok in Hc as (k & Hk%ok_or_Ok & Hc).
  apply bind_Ok in Hc as ([] & Hn%fail_if_Ok%bool_decide_eq_false%dec_stable & Hc). subst k.
  apply bind_Ok in Hc as ([] & Hau%require_auth_Ok & Hc).
  apply bind_Ok in Hc as ([] & Ha%fail_if_Ok%negb_false_iff%Z.leb_le & Hc).
  apply bind_Ok in Hc as (d & Hd%load_data_Ok & Hc). injection Hc as <-. by exists d.
Qed.

(** An emergency revocation: opened, voted on, executed. *)
Lemma execute_keeps (s : keyring) (d : ContractData) (p : EmergencyRevocationProposal) :
  data s = Some d -> let s' := execute_emergency_revocation s d p in
  pending_owner s' = pending_owner s /\ pending_admin s' = pending_admin s /\ revocation s' = None /\
  revoked s' = {[target p]} ∪ revoked s /\
  exists d', data s' = Some d' /\ admin d' = if decide (admin d = target p) then replacement p else admin d.
Proof.
  intros Hd s'. unfold s', execute_emergency_revocation. split_and!; try by destruct (bool_decide (admin d = target p)).
  destruct (decide (admin d = target p)) as [E|E].
  - rewrite (bool_decide_eq_true_2 (admin d = _)) by done. by eexists.
  - rewrite (bool_decide_eq_false_2 (admin d = _)) by done. exists d. done.
Qed.

Lemma revoke_Ok (i : call_env) (s s' : keyring) (proposer tgt repl : Address) :
  propose_emergency_revocation i s proposer tgt repl = Ok s' -> exists d n s1, data s = Some d /\ proposer <> tgt /\
    (proposer = admin d \/ proposer ∈ signer_keys s) /\ auth i proposer = true /\ _revocation_threshold s = Ok n /\
    (s1 = s \/ s1 = set_revocation s None) /\
    let p := {| target := tgt; replacement := repl; rv_proposer := proposer; rv_proposed_at := timestamp i;
                votes := [proposer] |} in
    s' = if n <=? 1 then execute_emergency_revocation s1 d p else set_revocation s1 (Some p).
Proof.
  intros Hc. unfold propose_emergency_revocation in Hc. apply bind_Ok in Hc as ([] & _ & Hc).
  apply bind_Ok in Hc as (d & Hd%load_data_Ok & Hc). apply bind_Ok in Hc as ([] & Hne%fail_if_Ok%bool_decide_eq_false & Hc).
  apply bind_Ok in Hc as ([] & Hs%fail_if_Ok%andb_false_iff & Hc). apply bind_Ok in Hc as ([] & Hau%require_auth_Ok & Hc).
  set (s1 := match revocation s with Some p => _ | None => s end) in Hc.
  assert (s1 = s \/ s1 = set_revocation s None) as Hs1.
  { unfold s1. destruct (revocation s); [destruct (decide _)|]; auto. }
  apply bind_Ok in Hc as ([] & _ & Hc). apply bind_Ok in Hc as ([] & _ & Hc). apply bind_Ok in Hc as (n & Hn & Hc).
  injection Hc as <-. exists d, n, s1. split_and!; try done.
  - destruct Hs as [Hs%bool_decide_eq_false%dec_stable|Hs%negb_false_iff%bool_decide_eq_true]; auto.
  - destruct Hs1 as [->| ->]; done.
Qed.

Lemma vote_Ok (i : call_env) (s s' : keyring) (voter : Address) (expires : Z) :
  vote_emergency_revocation i s voter expires = Ok s' -> exists d p n, data s = Some d /\ revocation s = Some p /\
    auth i voter = true /\ (voter = admin d \/ voter ∈ signer_keys s) /\ (voter ∉ votes p) /\ voter <> target p /\
    _revocation_threshold s = Ok n /\
    let p' := {| target := target p; replacement := replacement p; rv_proposer := rv_proposer p;
                 rv_proposed_at := rv_proposed_at p; votes := votes p ++ [voter] |} in
    s' = if n <=? len (votes p) + 1 then execute_emergency_revocation s d p' else set_revocation s (Some p').
Proof.
  intros Hc. unfold vote_emergency_revocation in Hc. apply bind_Ok in Hc as ([] & _ & Hc).
  apply bind_Ok in Hc as ([] & Hau%require_auth_Ok & Hc). apply bind_Ok in Hc as (d & Hd%load_data_Ok & Hc).
  apply bind_Ok in Hc as ([] & Hs%fail_if_Ok%andb_false_iff & Hc). apply bind_Ok in Hc as (p & Hp%ok_or_Ok & Hc).
  apply bind_Ok in Hc as ([] & _ & Hc). apply bind_Ok in Hc as ([] & Hv%fail_if_Ok%bool_decide_eq_false & Hc).
  apply bind_Ok in Hc as ([] & Ht%fail_if_Ok%bool_decide_eq_false & Hc).
  apply bind_Ok in Hc as (vs & [_ ->]%vpush_Ok & Hc). apply bind_Ok in Hc as (n & Hn & Hc).
  cbn [votes] in Hc. rewrite len_app in Hc. injection Hc as <-. exists d, p, n. split_and!; try done.
  destruct Hs as [Hs%bool_decide_eq_false%dec_stable|Hs%negb_false_iff%bool_decide_eq_true]; auto.
Qed.

(** The operations that touch neither the admin nor what can change it. *)
Definition quiet (c : key_call) : bool :=
  match c with
  | KRegister _ _ | KRemove _ _ | KSetRecovery _ _ | KPause _ _ | KEmergencyAdmin _ _ | KEmergencyPause _
  | KEmergencyUnpause _ _ | KStaging _ _ | KAddTester _ _ | KRemoveTester _ _ | KRotate _ _ _ => true
  | _ => false
  end.

Ltac unbind H := repeat (apply bind_Ok in H as (? & _ & H)).

Lemma quiet_keys_ok (i : call_env) (s s' : keyring) (c : key_call) :
  quiet c = true -> run_keys i s c = Ok s' -> same_keys s s'.
Proof.
  intros Hq Hr. destruct c; try discriminate Hq; cbn [run_keys] in Hr.
  - unfold register_signer in Hr. unbind Hr. injection Hr as <-.
    destruct (bool_decide _); split_and!; try done; [by left|right; by eexists].
  - unfold remove_signer in Hr. unbind Hr. injection Hr as <-. split_and!; try done. right. by eexists.
  - unfold set_recovery_key in Hr. unbind Hr. injection Hr as <-. split_and!; auto.
  - unfold set_paused in Hr. unbind Hr. injection Hr as <-. split_and!; auto.
  - unfold set_emergency_admin in Hr. unbind Hr. injection Hr as <-. split_and!; auto.
  - unfold emergency_pause in Hr. unbind Hr. injection Hr as <-. split_and!; auto.
  - unfold emergency_unpause in Hr. unbind Hr. injection Hr as <-. split_and!; auto.
  - unfold set_staging_mode in Hr. unbind Hr. injection Hr as <-. split_and!; auto.
  - unfold add_tester in Hr. unbind Hr. destruct (bool_decide _); [|unbind Hr]; injection Hr as <-; split_and!; auto.
  - unfold remove_tester in Hr. unbind Hr. injection Hr as <-. split_and!; auto.
  - unfold rotate_admin_keys in Hr. unbind Hr. injection Hr as <-. split_and!; auto.
Qed.







(** A call writes no revocation, or it is a proposal or vote that executed one. *)
Lemma revoked_step (i : call_env) (s s' : keyring) (c : key_call) :
  run_keys i s c = Ok s' -> revoked s' = revoked s \/
  (exists n, _revocation_threshold s = Ok n) /\ pending_owner s' = pending_owner s /\ pending_admin s' = pending_admin s /\
  exists t d', revoked s' = {[t]} ∪ revoked s /\ data s' = Some d'.
Proof.
  intros Hr. destruct (quiet c) eqn:Hq; [left; by apply (quiet_keys_ok i s s' c)|].
  destruct c; try discriminate Hq; cbn [run_keys] in Hr.
  - unfold initialize in Hr. unbind Hr. injection Hr as <-. by left.
  - unfold propose_ownership_transfer in Hr. unbind Hr. injection Hr as <-. by left.
  - apply claim_owner_Ok in Hr as (p & d & _ & _ & _ & _ & ->). by left.
  - unfold propose_admin_change in Hr. unbind Hr. injection Hr as <-. by left.
  - apply countersign_Ok in Hr as (p & d & _ & _ & _ & _ & _ & ->). by left.
  - apply timelock_Ok in Hr as (p & d & _ & _ & _ & _ & _ & ->). by left.
  - unfold cancel_admin_change in Hr. unbind Hr. injection Hr as <-. by left.
  - apply revoke_Ok in Hr as (d & n & s1 & Hd & _ & _ & _ & Hn & Hs1 & ->).
    assert (data s1 = data s /\ pending_owner s1 = pending_owner s /\ pending_admin s1 = pending_admin s /\ revoked s1 = revoked s)
      as (E1 & E2 & E3 & E4) by (destruct Hs1 as [->| ->]; done).
    destruct (n <=? 1); [right|by left]. set (p := {| target := tgt |}).
    destruct (execute_keeps s1 d p) as (Eo & Ea & _ & Erv & d' & Hd' & _); [congruence|].
    rewrite Eo, Ea, Erv, E2, E3, E4. split_and!; [by eexists|done|done|by exists tgt, d'].
  - apply vote_Ok in Hr as (d & p & n & Hd & _ & _ & _ & _ & _ & Hn & ->).
    destruct (n <=? len (votes p) + 1); [right|by left].
    set (p' := {| target := target p; votes := votes p ++ [voter] |}).
    destruct (execute_keeps s d p' Hd) as (Eo & Ea & _ & Erv & d' & Hd' & _).
    split_and!; [by eexists|done|done|by exists (target p), d'].
  - unfold purge_emergency_revocation_proposal in Hr. unbind Hr. injection Hr as <-. left. by destruct (bool_decide _).
  - injection Hr as <-. by left.
  - apply recover_Ok in Hr as (d & _ & _ & _ & _ & ->). by left.
Qed.


(** What a compromised admin nominated survives its revocation. When a call executes
    the revocation of some address, pending nominations stay, and later the nominee of an ownership
    transfer, were it the revoked address itself, becomes admin by one call of its own;
    so does whoever was proposed in an admin change, once its proposer, revoked or not, executes it
    after the 24 hours. *)
Theorem nominations_survive_revocation (i : call_env) (s s' : keyring) (c : key_call) (t : Address) :
  run_keys i s c = Ok s' -> is_revoked s t = false -> is_revoked s' t = true ->
  pending_owner s' = pending_owner s /\ pending_admin s' = pending_admin s /\
  (forall p i', pending_owner s = Some p -> auth i' (nominee p) = true ->
     exists s2 d, claim_ownership i' s' (nominee p) = Ok s2 /\ data s2 = Some d /\ admin d = nominee p) /\
  (forall p i', pending_admin s = Some p -> auth i' (ac_proposer p) = true ->
     ADMIN_CHANGE_TIMELOCK_SECONDS <= timestamp i' - ac_proposed_at p ->
     exists s2 d, execute_admin_change_by_timelock i' s' (ac_proposer p) = Ok s2 /\ data s2 = Some d /\ admin d = new_admin p).
Proof.
  intros Hr H0 H1. unfold is_revoked in *. apply bool_decide_eq_false in H0. apply bool_decide_eq_true in H1.
  destruct (revoked_step i s s' c Hr) as [E|(_ & Eo & Ea & _ & d & _ & Hd)]; [congruence|].
  split; [done|]. split; [done|]. split.
  - intros p i' Hp Hau. do 2 eexists.
    split; [apply claim_owner_Ok; exists p, d; rewrite Eo; by split_and!|]. split; reflexivity.
  - intros p i' Hp Hau Ht. do 2 eexists. split.
    + apply timelock_Ok. exists p, d. rewrite Ea. split_and!; try done; [by apply saturating_le|by left].
    + split; reflexivity.
Qed.

(** [register_signer] has stored the map of signers. *)
Definition registered (s : keyring) : Prop := exists m, signers_entry s = Some (SvMap m).

Lemma registered_no_threshold (s : keyring) (n : Z) : registered s -> _revocation_threshold s <> Ok n.
Proof. intros [m Hm]. unfold _revocation_threshold, read_signer_count. by rewrite Hm. Qed.

(** Only the two entry points write the entry, and they write the map. *)
Lemma entry_step (i : call_env) (s s' : keyring) (c : key_call) :
  run_keys i s c = Ok s' -> signers_entry s' = signers_entry s \/ registered s'.
Proof.
  intros Hr. destruct (quiet c) eqn:Hq; [by apply (quiet_keys_ok i s s' c Hq) in Hr as (_ & _ & _ & _ & _ & ?)|]. left.
  destruct c; try discriminate Hq; cbn [run_keys] in Hr.
  - unfold initialize in Hr. unbind Hr. by injection Hr as <-.
  - unfold propose_ownership_transfer in Hr. unbind Hr. by injection Hr as <-.
  - by apply claim_owner_Ok in Hr as (p & d & _ & _ & _ & _ & ->).
  - unfold propose_admin_change in Hr. unbind Hr. by injection Hr as <-.
  - by apply countersign_Ok in Hr as (p & d & _ & _ & _ & _ & _ & ->).
  - by apply timelock_Ok in Hr as (p & d & _ & _ & _ & _ & _ & ->).
  - unfold cancel_admin_change in Hr. unbind Hr. by injection Hr as <-.
  - apply revoke_Ok in Hr as (d & n & s1 & _ & _ & _ & _ & _ & Hs1 & ->). unfold execute_emergency_revocation.
    cbn [target]. destruct Hs1 as [->| ->], (n <=? 1), (bool_decide (admin d = tgt)); done.
  - apply vote_Ok in Hr as (d & p & n & _ & _ & _ & _ & _ & _ & _ & ->). unfold execute_emergency_revocation.
    cbn [target]. destruct (n <=? len (votes p) + 1), (bool_decide (admin d = target p)); done.
  - unfold purge_emergency_revocation_proposal in Hr. unbind Hr. injection Hr as <-. by destruct (bool_decide _).
  - by injection Hr as <-.
  - by apply recover_Ok in Hr as (d & _ & _ & _ & _ & ->).
Qed.

(** Emergency revocation is disabled by registering a signer, and stopped by anyone.
    [register_signer] stores a map where the threshold reads a count: from then on, through
    every further call, no proposal and no vote returns and nobody is ever revoked. And on any
    initialised contract anyone may purge the running proposal, without authorisation and
    without it being expired, after which no vote returns. *)
Theorem revocation_disabled (i : call_env) (s : keyring) :
  (forall signer caller s', register_signer i s signer caller = Ok s' -> registered s') /\
  (registered s ->
     (forall c s', run_keys i s c = Ok s' -> registered s' /\ revoked s' = revoked s) /\
     (forall proposer tgt repl, is_ok (propose_emergency_revocation i s proposer tgt repl) = false) /\
     (forall voter expires, is_ok (vote_emergency_revocation i s voter expires) = false)) /\
  (is_Some (data s) -> exists s', purge_emergency_revocation_proposal s = Ok s' /\ revocation s' = None /\ data s' = data s /\
     forall j voter expires, is_ok (vote_emergency_revocation j s' voter expires) = false).
Proof.
  split; [|split].
  - intros signer caller s' Hr. unfold register_signer in Hr. do 2 apply bind_Ok in Hr as (? & _ & Hr).
    apply bind_Ok in Hr as (m & Hm & Hr).
    injection Hr as <-. unfold _get_signers in Hm. destruct (signers_entry s) as [[n|m']|] eqn:E; [done|..].
    + destruct (bool_decide _); [by exists m'|by eexists].
    + injection Hm as <-. rewrite bool_decide_eq_false_2 by set_solver. by eexists.
  - intros Hreg. split; [|split].
    + intros c s' Hr. split.
      * destruct (entry_step i s s' c Hr) as [E|?]; [|done]. unfold registered. by rewrite E.
      * destruct (revoked_step i s s' c Hr) as [?|([n Hn] & _)]; [done|]. by apply registered_no_threshold in Hn.
    + intros proposer tgt repl. apply not_true_is_false. intros [s' E]%is_ok_Ok.
      apply revoke_Ok in E as (d & n & s1 & _ & _ & _ & _ & Hn & _). by apply registered_no_threshold in Hn.
    + intros voter expires. apply not_true_is_false. intros [s' E]%is_ok_Ok.
      apply vote_Ok in E as (d & p & n & _ & _ & _ & _ & _ & _ & Hn & _). by apply registered_no_threshold in Hn.
  - intros [d Hd]. unfold purge_emergency_revocation_proposal, load_data. rewrite Hd. cbn [ok_or].
    eexists. split; [by rewrite bind_ret|]. destruct (revocation s) as [p|] eqn:Ep.
    + rewrite bool_decide_eq_true_2 by done. split; [done|]. split; [done|]. intros j voter expires.
      apply not_true_is_false. intros [s' E]%is_ok_Ok. by apply vote_Ok in E as (? & ? & ? & _ & ? & _).
    + rewrite bool_decide_eq_false_2 by (by intros [? ?]). split; [done|]. split; [done|]. intros j voter expires.
      apply not_true_is_false. intros [s' E]%is_ok_Ok. apply vote_Ok in E as (? & ? & ? & _ & ? & _). congruence.
Qed.

(** ** The multi-signature check *)
Lemma unique_spec (signers seen : list Address) :
  NoDup (unique signers seen) /\ forall x, x ∈ unique signers seen <-> x ∈ signers /\ x ∉ seen.
Proof.
  revert seen. induction signers as [|y signers IH]; intros seen; cbn [unique]; [split; [constructor|set_solver]|].
  destruct (bool_decide (y ∈ seen)) eqn:Hy.
  - apply bool_decide_eq_true in Hy. destruct (IH seen) as [? E]. split; [done|]. intros x. rewrite E. set_solver.
  - apply bool_decide_eq_false in Hy. destruct (IH (y :: seen)) as [? E]. split.
    + constructor; [rewrite E; set_solver|done].
    + intros x. rewrite elem_of_cons, E. destruct (decide (x = y)); set_solver.
Qed.

(** The loop counts the distinct accepted addresses and stops at the threshold. *)
Lemma count_valid_eq (s : keyring) (d : ContractData) (threshold : Z) (signers seen : list Address) (count : Z) :
  0 <= count <= threshold -> threshold <= imax U32 ->
  count_valid s d threshold signers seen count
    = Ok (Z.min threshold (count + len (filter (fun x => counts_as_signer s d x = true) (unique signers seen)))).
Proof.
  intros Hc Ht. revert seen count Hc. induction signers as [|y signers IH]; intros seen count Hc; cbn [count_valid unique].
  { change (filter _ []) with (@nil Address). unfold len. cbn [length]. change (mret count) with (@Ok ContractError Z count).
    f_equal. lia. }
  destruct (bool_decide (y ∈ seen)); [by apply IH|]. rewrite filter_cons.
  destruct (counts_as_signer s d y) eqn:Hy; cbn [negb].
  - rewrite decide_True by done. destruct (Z.leb_spec threshold count) as [Hle|Hlt].
    + f_equal. unfold len. cbn [length]. lia.
    + unfold iadd. rewrite iop_in by (cbn [imin]; lia). rewrite bind_ret, IH by lia. f_equal. unfold len. cbn [length]. lia.
  - rewrite decide_False by congruence. by apply IH.
Qed.

Lemma multisig_eq (s : keyring) (d : ContractData) (signers : list Address) :
  data s = Some d -> 0 <= get_admin_threshold s <= imax U32 ->
  require_multisig s signers
    = if get_admin_threshold s <=? len (filter (fun x => counts_as_signer s d x = true) (unique signers []))
      then Ok tt else Err ThresholdNotReached.
Proof.
  intros Hd Ht. unfold require_multisig, load_data. rewrite Hd. cbn [ok_or]. rewrite bind_ret.
  rewrite count_valid_eq by lia. rewrite bind_ret. pose proof (len_nonneg (filter (fun x => counts_as_signer s d x = true) (unique signers []))).
  destruct (Z.leb_spec (get_admin_threshold s) (len (filter (fun x => counts_as_signer s d x = true) (unique signers [])))).
  - by rewrite (proj2 (Z.ltb_ge _ _)) by lia.
  - by rewrite (proj2 (Z.ltb_lt _ _)) by lia.
Qed.

Lemma remove_keys (unique_signers old : list Address) (keys : gset Address) (a : Address) :
  a ∈ foldl (fun keys old => if bool_decide (old ∈ unique_signers) then keys else keys ∖ {[old]}) keys old
    <-> a ∈ keys /\ (a ∉ old \/ a ∈ unique_signers).
Proof.
  revert keys. induction old as [|y old IH]; intros keys; cbn [foldl]; [set_solver|]. rewrite IH.
  case_bool_decide; destruct (decide (a = y)); set_solver.
Qed.

Lemma add_keys (signers : list Address) (keys : gset Address) (a : Address) :
  a ∈ foldl (fun keys signer => {[signer]} ∪ keys) keys signers <-> a ∈ keys \/ a ∈ signers.
Proof. revert keys. induction signers as [|y signers IH]; intros keys; cbn [foldl]; [set_solver|]. rewrite IH. set_solver. Qed.

Lemma rotate_Ok (s s' : keyring) (approvers new_signers : list Address) (threshold : Z) :
  rotate_admin_keys s approvers new_signers threshold = Ok s' <->
  require_multisig s approvers = Ok tt /\ threshold <> 0 /\ threshold <= len (unique new_signers []) /\
  s' = set_admin_signers (set_keys s
         (foldl (fun keys signer => {[signer]} ∪ keys)
            (foldl (fun keys old => if bool_decide (old ∈ unique new_signers []) then keys else keys ∖ {[old]})
               (signer_keys s) (get_admin_signers s)) (unique new_signers [])) (revoked s)) (unique new_signers []) threshold.
Proof.
  unfold rotate_admin_keys. split.
  - intros Hr. apply bind_Ok in Hr as ([] & Hm & Hr). apply bind_Ok in Hr as ([] & Ht%fail_if_Ok%orb_false_iff & Hr).
    injection Hr as <-. destruct Ht as [?%Z.eqb_neq ?%Z.ltb_ge]. done.
  - intros (Hm & H1 & H2 & ->). rewrite Hm, bind_ret. rewrite (proj2 (Z.eqb_neq _ _)), (proj2 (Z.ltb_ge _ _)) by done. done.
Qed.

(** With one approver required, listing the admin rotates the keys to anyone. *)
Lemma rotate_by_naming (s : keyring) (d : ContractData) (x : Address) :
  data s = Some d -> admin_threshold s = None -> get_validator_state s (admin d) = 0 ->
  exists s1, rotate_admin_keys s [admin d] [x] 1 = Ok s1 /\ data s1 = data s /\ signers_entry s1 = signers_entry s /\
    revocation s1 = revocation s /\ staging s1 = staging s /\ revoked s1 = revoked s /\ x ∈ signer_keys s1.
Proof.
  intros Hd Ht Hv. assert (get_admin_threshold s = 1) as E by (unfold get_admin_threshold; by rewrite Ht).
  eexists. split.
  - apply rotate_Ok. split; [|done]. rewrite (multisig_eq s d) by (done || (rewrite E; done)). rewrite E.
    cbn [unique]. rewrite bool_decide_eq_false_2 by set_solver. rewrite filter_cons, decide_True; [done|].
    unfold counts_as_signer. rewrite Hv, bool_decide_eq_true_2 by done. done.
  - split_and!; try done. cbn [signer_keys set_admin_signers set_keys]. apply add_keys. right. by left.
Qed.

(** One signer key suffices to revoke the admin while no count of signers is stored. *)
Lemma revoke_alone (i : call_env) (s : keyring) (d : ContractData) (x y : Address) :
  data s = Some d -> signers_entry s = None -> revocation s = None -> is_staging_active s = false ->
  is_revoked s x = false -> x ∈ signer_keys s -> x <> admin d -> auth i x = true ->
  exists s2 d2, entry_propose_emergency_revocation i s x (admin d) y = Ok s2 /\ data s2 = Some d2 /\ admin d2 = y.
Proof.
  intros Hd Hn Hr Hs Hrv Hx Hne Hau. unfold entry_propose_emergency_revocation, assert_not_revoked. rewrite Hrv.
  cbn [mbind result_bind mret result_ret]. unfold propose_emergency_revocation, check_staging_access, load_data, require_auth.
  unfold is_staging_active in Hs. rewrite Hs, Hd, Hau, Hr. cbn [negb mbind result_bind mret result_ret ok_or].
  rewrite (bool_decide_eq_false_2 (x = admin d)) by done. cbn [fail_if mbind result_bind].
  assert (_is_signer s x = true) as -> by (by apply bool_decide_eq_true_2). cbn [negb]. rewrite andb_false_r. cbn [fail_if mbind result_bind].
  rewrite (bool_decide_eq_false_2 (is_Some (revocation s))) by (rewrite Hr; by intros [? ?]). cbn [fail_if mbind result_bind].
  rewrite (bool_decide_eq_false_2 (admin d <> admin d)) by tauto. cbn [andb fail_if mbind result_bind].
  unfold _revocation_threshold, read_signer_count. rewrite Hn. cbn [mbind result_bind mret result_ret].
  set (p := {| target := admin d |}). destruct (execute_keeps s d p Hd) as (_ & _ & _ & _ & d' & Hd' & Ha).
  cbn [p target replacement] in Ha. rewrite decide_True in Ha by done. exists (execute_emergency_revocation s d p), d'. done.
Qed.

(** The multi-signature check counts addresses and asks none of them: it returns when
    the list names as many distinct accepted addresses as the threshold, whoever authorised
    the call. A rotation stores exactly the new signers and gives each a signer key, those of the old
    list losing theirs. So while the defaults hold anyone who names the admin as the approver
    rotates the keys to an address of its own, which then, alone, makes itself admin by an
    emergency revocation. *)
Theorem multisig_asks_nobody (s : keyring) (d : ContractData) :
  data s = Some d -> 0 <= get_admin_threshold s <= imax U32 ->
  (forall signers, is_ok (require_multisig s signers) = true <->
     exists l, NoDup l /\ (forall x, x ∈ l -> x ∈ signers /\ counts_as_signer s d x = true) /\ get_admin_threshold s <= len l) /\
  (forall approvers new_signers threshold s', rotate_admin_keys s approvers new_signers threshold = Ok s' ->
     get_admin_threshold s' = threshold /\ NoDup (get_admin_signers s') /\ data s' = data s /\
     forall a, (a ∈ get_admin_signers s' <-> a ∈ new_signers) /\
       (a ∈ signer_keys s' <-> a ∈ new_signers \/ a ∈ signer_keys s /\ (a ∉ get_admin_signers s))) /\
  (forall x i, admin_threshold s = None -> signers_entry s = None -> revocation s = None ->
     is_staging_active s = false -> get_validator_state s (admin d) = 0 -> is_revoked s x = false -> x <> admin d ->
     auth i x = true ->
     exists s1 s2 d2, rotate_admin_keys s [admin d] [x] 1 = Ok s1 /\
       entry_propose_emergency_revocation i s1 x (admin d) x = Ok s2 /\ data s2 = Some d2 /\ admin d2 = x).
Proof.
  intros Hd Ht. split; [|split].
  - intros signers. rewrite (multisig_eq s d signers Hd Ht). destruct (unique_spec signers []) as [Hnd Hin].
    set (l0 := filter _ (unique signers [])). destruct (Z.leb_spec (get_admin_threshold s) (len l0)) as [Hle|Hgt];
      (split; [intros Hok|intros (l & Hl & Hall & Hlen)]); try done.
    + exists l0. split; [by apply NoDup_filter|]. split; [|done]. intros x [Hx Hu]%list_elem_of_filter.
      split; [by apply Hin in Hu as [? _]|done].
    + exfalso. assert (l ⊆+ l0) as Hsub%submseteq_length.
      { apply NoDup_submseteq; [done|]. intros x Hx. apply Hall in Hx as [Hs Hc]. apply list_elem_of_filter.
        split; [done|]. apply Hin. split; [done|set_solver]. }
      unfold len in *. lia.
  - intros approvers new_signers threshold s' (_ & _ & _ & ->)%rotate_Ok. destruct (unique_spec new_signers []) as [Hnd Hin].
    split; [done|]. split; [done|]. split; [done|]. intros a. cbn [signer_keys set_admin_signers set_keys].
    assert (a ∈ unique new_signers [] <-> a ∈ new_signers) as Hu by (rewrite Hin; set_solver).
    split; [exact Hu|]. rewrite add_keys, remove_keys, Hu. destruct (decide (a ∈ new_signers)); tauto.
  - intros x i H1 H2 H3 H4 H5 H6 H7 H8. destruct (rotate_by_naming s d x Hd H1 H5) as (s1 & Hs1 & E1 & E2 & E3 & E4 & E5 & Hx).
    destruct (revoke_alone i s1 d x x) as (s2 & d2 & Hs2 & Hd2 & Ha); try congruence.
    + unfold is_staging_active, load in *. by rewrite E4.
    + unfold is_revoked in *. by rewrite E5.
    + by exists s1, s2, d2.
Qed.
End claims.

(** ** Concrete keys: admin 1 names signers 7 and 8, nominates itself as owner, and is
    revoked by signer 7 in favour of account 2; then it claims the contract back. *)
Section witnesses.
#[local] Existing Instance test_host.

Definition key_at (who now : Z) : call_env := @Build_call_env test_host (fun a => Z.eqb a who) now.

Fixpoint run_all (s : keyring) (cs : list (Z * Z * key_call)) : R keyring :=
  match cs with
  | [] => mret s
  | (who, now, c) :: cs => s' ← run_keys (key_at who now) s c; run_all s' cs
  end.

Definition keys_after (s : keyring) (cs : list (Z * Z * key_call)) : keyring :=
  match run_all s cs with Ok s' => s' | _ => empty_keyring end.


Definition founded : keyring := keys_after empty_keyring
  [(1, 10, KInit (H := test_host) 1); (4, 11, KRotate (H := test_host) [1] [7; 8; 7] 1); (1, 12, KNominate (H := test_host) 1 1); (1, 13, KPropose (H := test_host) 1 5)].
Definition revoked_state : keyring := keys_after founded [(7, 20, KRevoke (H := test_host) 7 1 2)].


Lemma revoked_step_ok : run_keys (key_at 7 20) founded (KRevoke (H := test_host) 7 1 2) = Ok revoked_state.
Proof.
  unfold revoked_state, keys_after. cbn [run_all].
  destruct (is_ok_Ok (run_keys (key_at 7 20) founded (KRevoke (H := test_host) 7 1 2))) as [s ->]; [vm_compute; reflexivity|done].
Qed.

Definition admin_of (s : keyring) : Z := default 0 (admin <$> data s).

Lemma admin_of_Some (s : keyring) : bool_decide (is_Some (data s)) = true -> exists d, data s = Some d /\ admin d = admin_of s.
Proof. unfold admin_of. intros [d ->]%bool_decide_eq_true. by exists d. Qed.

Definition nominee_of (s : keyring) : Z := default 0 (nominee <$> pending_owner s).

Lemma nominee_of_Some (s : keyring) :
  bool_decide (is_Some (pending_owner s)) = true -> exists p, pending_owner s = Some p /\ nominee p = nominee_of s.
Proof. unfold nominee_of. intros [p ->]%bool_decide_eq_true. by exists p. Qed.


Lemma nominations_survive_revocation_witness :
  is_revoked revoked_state 1 = true /\
  exists s2 d, claim_ownership (key_at 1 21) revoked_state 1 = Ok s2 /\ data s2 = Some d /\ admin d = 1.
Proof.
  split; [vm_compute; reflexivity|].
  destruct (nominations_survive_revocation (H := test_host) (key_at 7 20) founded revoked_state (KRevoke (H := test_host) 7 1 2) 1 revoked_step_ok)
    as (_ & _ & Hc & _); [vm_compute; reflexivity..|].
  destruct (nominee_of_Some founded) as (p & Hp & Hn); [vm_compute; reflexivity|].
  specialize (Hc p (key_at 1 21) Hp). assert (nominee p = 1) as E by (rewrite Hn; vm_compute; reflexivity).
  rewrite E in Hc. apply Hc. reflexivity.
Defined.

Definition with_signer : keyring := keys_after founded [(1, 30, KRegister (H := test_host) 3 1)].

Lemma with_signer_ok : register_signer (key_at 1 30) founded 3 1 = Ok with_signer.
Proof.
  unfold with_signer, keys_after. cbn [run_all run_keys].
  destruct (is_ok_Ok (register_signer (key_at 1 30) founded 3 1)) as [s ->]; [vm_compute; reflexivity|done].
Qed.

Lemma revocation_disabled_witness :
  is_ok (propose_emergency_revocation (key_at 7 40) founded 7 1 2) = true /\
  is_ok (propose_emergency_revocation (key_at 7 40) with_signer 7 1 2) = false.
Proof.
  split; [vm_compute; reflexivity|].
  pose proof (proj1 (revocation_disabled (H := test_host) (key_at 1 30) founded) 3 1 with_signer with_signer_ok) as Hreg.
  exact (proj1 (proj2 (proj1 (proj2 (revocation_disabled (H := test_host) (key_at 7 40) with_signer)) Hreg)) 7 1 2).
Defined.

Definition is_none {A : Type} (o : option A) : bool := match o with None => true | _ => false end.

Lemma is_none_eq {A : Type} (o : option A) : is_none o = true -> o = None.
Proof. by destruct o. Qed.

Definition just_initialized : keyring := keys_after empty_keyring [(1, 10, KInit (H := test_host) 1)].

Lemma multisig_asks_nobody_witness :
  is_ok (require_multisig just_initialized [1; 1]) = true /\
  exists s1 s2 d2, rotate_admin_keys just_initialized [1] [6] 1 = Ok s1 /\
    entry_propose_emergency_revocation (key_at 6 50) s1 6 1 6 = Ok s2 /\ data s2 = Some d2 /\ admin d2 = 6.
Proof.
  split; [vm_compute; reflexivity|].
  destruct (admin_of_Some just_initialized) as (d & Hd & Ha); [vm_compute; reflexivity|].
  assert (admin d = 1) as E by (rewrite Ha; vm_compute; reflexivity).
  destruct (multisig_asks_nobody (H := test_host) just_initialized d Hd) as (_ & _ & Ht); [vm_compute; intuition discriminate|].
  rewrite E in Ht. apply Ht; [by apply is_none_eq; vm_compute..|vm_compute; reflexivity|vm_compute; reflexivity
    |vm_compute; reflexivity|vm_compute; discriminate|reflexivity].
Defined.
End witnesses.
