(* ===== verification/AnchorCollateral.v ===== *)
(** * Anchor collateral

    [src/src/settlement/anchor_collateral.rs]: for each anchor and corridor the
    collateral posted, the queue of payouts assigned and not yet settled, and a flag
    that pauses new assignments when the collateral no longer backs the queue at the
    minimum ratio of the corridor. Ratios are compared by running the Euclidean
    algorithm on both of them ([ratio_loop]; fuel 257, one round more than twice the
    bits of a denominator). The module calls no token contract. The minimum ratio is
    set by the admin of the root contract ([Keys.require_admin] on its storage).
    Events are left out. *)

From stdpp Require Import base numbers list gmap.
From Stdlib Require Import ZArith Lia.
From S2P Require Import Prelude Host RootErrors BookData Keys.

Open Scope Z_scope.

Definition BPS_DENOMINATOR : Z := 10000.
Definition DEFAULT_MIN_COLLATERAL_RATIO_BPS : Z := 12000.
Definition MIN_ALLOWED_COLLATERAL_RATIO_BPS : Z := BPS_DENOMINATOR.
Definition MAX_ALLOWED_COLLATERAL_RATIO_BPS : Z := 100000.

(** ** Ratios *)

(** The loop of [ratio_ge]: whether [a / b >= c / d], or [<=] when [direction_ge] is
    false. *)
Fixpoint ratio_loop (fuel : nat) (direction_ge : bool) (a b c d : Z) : R bool :=
  match fuel with
  | O => Panic
  | S fuel =>
      qa ← idiv U128 a b;
      qc ← idiv U128 c d;
      if negb (qa =? qc) then mret (if direction_ge then qc <? qa else qa <? qc)
      else
        ra ← irem U128 a b;
        rc ← irem U128 c d;
        if (ra =? 0) && (rc =? 0) then mret true
        else if ra =? 0 then mret (negb direction_ge)
        else if rc =? 0 then mret direction_ge
        else ratio_loop fuel (negb direction_ge) b ra d rc
  end.

Definition ratio_ge (a b c d : Z) : R bool := ratio_loop 257 true a b c d.

Definition backing_ratio_bps (collateral_locked volume_unsettled : Z) : R Z :=
  if volume_unsettled =? 0 then mret 0
  else
    whole ← idiv U128 collateral_locked volume_unsettled;
    if imax U32 / BPS_DENOMINATOR <? whole then mret (imax U32)
    else
      whole_bps ← imul U128 whole BPS_DENOMINATOR;
      rem ← irem U128 collateral_locked volume_unsettled;
      frac_bps ← (if rem =? 0 then mret 0
                  else
                    n ← idiv U128 volume_unsettled (imax U32);
                    shrink ← iadd U128 n 1;
                    scaled ← idiv U128 rem shrink;
                    product ← imul U128 scaled BPS_DENOMINATOR;
                    volume ← idiv U128 volume_unsettled shrink;
                    idiv U128 product volume);
      sum ← iadd U128 whole_bps frac_bps;
      mret (cast U32 sum).

Definition is_collateral_sufficient (collateral_locked volume_unsettled min_ratio_bps : Z) : R bool :=
  if volume_unsettled =? 0 then mret true
  else ratio_ge collateral_locked volume_unsettled min_ratio_bps BPS_DENOMINATOR.

Section anchors.
Context {H : Host}.

Record FiatPayoutEntry := { pay_id : Z; amount : Z; opened_at : Z }.

Record AnchorCollateralState := {
  anchor : Address;
  corridor : Z;
  collateral_locked : Z;
  volume_unsettled : Z;
  assignments_paused : bool;
  paused_at : Z;
  last_paused_at : Z;
  last_ratio_bps : Z
}.

Record AnchorCollateralStatus := {
  as_anchor : Address;
  as_corridor : Z;
  as_collateral_locked : Z;
  as_volume_unsettled : Z;
  ratio_bps : Z;
  min_ratio_bps : Z;
  healthy : bool;
  as_assignments_paused : bool;
  queue_len : Z
}.

(** The storage: one map per variant of the key. *)
Record AnchorCollateralKey := {
  State : gmap (Address * Z) AnchorCollateralState;
  PayoutQueue : gmap (Address * Z) (list FiatPayoutEntry);
  NextPayoutId : gmap (Address * Z) Z;
  CorridorMinRatio : gmap Z Z
}.

(** ** State accessors *)
Definition get_anchor_state (s : AnchorCollateralKey) (a : Address) (c : Z) : AnchorCollateralState :=
  default {| anchor := a; corridor := c; collateral_locked := 0; volume_unsettled := 0; assignments_paused := false;
             paused_at := 0; last_paused_at := 0; last_ratio_bps := 0 |} (State s !! (a, c)).

Definition store_anchor_state (s : AnchorCollateralKey) (x : AnchorCollateralState) : AnchorCollateralKey :=
  {| State := <[(anchor x, corridor x) := x]> (State s); PayoutQueue := PayoutQueue s;
     NextPayoutId := NextPayoutId s; CorridorMinRatio := CorridorMinRatio s |}.

Definition store_payout_queue (s : AnchorCollateralKey) (a : Address) (c : Z) (q : list FiatPayoutEntry) :
    AnchorCollateralKey :=
  {| State := State s; PayoutQueue := <[(a, c) := q]> (PayoutQueue s);
     NextPayoutId := NextPayoutId s; CorridorMinRatio := CorridorMinRatio s |}.

Definition store_next_id (s : AnchorCollateralKey) (a : Address) (c id : Z) : AnchorCollateralKey :=
  {| State := State s; PayoutQueue := PayoutQueue s;
     NextPayoutId := <[(a, c) := id]> (NextPayoutId s); CorridorMinRatio := CorridorMinRatio s |}.

(** The record of an anchor with its two balances replaced. *)
Definition with_balances (x : AnchorCollateralState) (collateral volume : Z) : AnchorCollateralState :=
  {| anchor := anchor x; corridor := corridor x; collateral_locked := collateral; volume_unsettled := volume;
     assignments_paused := assignments_paused x; paused_at := paused_at x; last_paused_at := last_paused_at x;
     last_ratio_bps := last_ratio_bps x |}.

Definition read_payout_queue (s : AnchorCollateralKey) (a : Address) (c : Z) : list FiatPayoutEntry :=
  default [] (PayoutQueue s !! (a, c)).

Definition payout_queue_len (s : AnchorCollateralKey) (a : Address) (c : Z) : Z := len (read_payout_queue s a c).

Definition queued_volume (s : AnchorCollateralKey) (a : Address) (c : Z) : Z :=
  foldl (fun total entry => saturating_add U128 total (amount entry)) 0 (read_payout_queue s a c).

Definition locked_collateral (s : AnchorCollateralKey) (a : Address) (c : Z) : Z :=
  collateral_locked (get_anchor_state s a c).

Definition unsettled_volume (s : AnchorCollateralKey) (a : Address) (c : Z) : Z :=
  volume_unsettled (get_anchor_state s a c).

Definition is_anchor_paused (s : AnchorCollateralKey) (a : Address) (c : Z) : bool :=
  assignments_paused (get_anchor_state s a c).

Definition corridor_min_ratio_bps (s : AnchorCollateralKey) (c : Z) : Z :=
  default DEFAULT_MIN_COLLATERAL_RATIO_BPS (CorridorMinRatio s !! c).

Definition get_anchor_status (s : AnchorCollateralKey) (a : Address) (c : Z) : R AnchorCollateralStatus :=
  let x := get_anchor_state s a c in
  let min := corridor_min_ratio_bps s c in
  ratio ← backing_ratio_bps (collateral_locked x) (volume_unsettled x);
  ok ← is_collateral_sufficient (collateral_locked x) (volume_unsettled x) min;
  mret {| as_anchor := anchor x; as_corridor := corridor x; as_collateral_locked := collateral_locked x;
          as_volume_unsettled := volume_unsettled x; ratio_bps := ratio; min_ratio_bps := min; healthy := ok;
          as_assignments_paused := assignments_paused x; queue_len := payout_queue_len s a c |}.

Definition require_anchor_assignable (s : AnchorCollateralKey) (a : Address) (c : Z) : R unit :=
  fail_if (is_anchor_paused s a c) AnchorAssignmentsPaused.

(** ** Ratio evaluation *)
Definition sync_ratio_status (i : call_env) (s : AnchorCollateralKey) (x : AnchorCollateralState) :
    R (AnchorCollateralState * bool) :=
  let min := corridor_min_ratio_bps s (corridor x) in
  ok ← is_collateral_sufficient (collateral_locked x) (volume_unsettled x) min;
  ratio ← backing_ratio_bps (collateral_locked x) (volume_unsettled x);
  let flags (paused : bool) (since last : Z) : AnchorCollateralState :=
    {| anchor := anchor x; corridor := corridor x; collateral_locked := collateral_locked x;
       volume_unsettled := volume_unsettled x; assignments_paused := paused; paused_at := since;
       last_paused_at := last; last_ratio_bps := ratio |} in
  mret (if (ok : bool) then
          if negb (assignments_paused x) then (flags false (paused_at x) (last_paused_at x), false)
          else (flags false 0 (last_paused_at x), true)
        else if assignments_paused x then (flags true (paused_at x) (last_paused_at x), false)
        else (flags true (timestamp i) (timestamp i), true)).

(** [sync_ratio_status(env, &mut state); store_anchor_state(env, &state)] *)
Definition sync_and_store (i : call_env) (s : AnchorCollateralKey) (x : AnchorCollateralState) :
    R (AnchorCollateralKey * AnchorCollateralState) :=
  r ← sync_ratio_status i s x;
  mret (store_anchor_state s r.1, r.1).

(** ** Administration *)
Definition set_min_collateral_ratio_bps (i : call_env) (k : keyring) (s : AnchorCollateralKey) (admin : Address)
    (c min : Z) : R (AnchorCollateralKey * Z) :=
  _ ← require_admin i k admin;
  _ ← fail_if (negb ((MIN_ALLOWED_COLLATERAL_RATIO_BPS <=? min) && (min <=? MAX_ALLOWED_COLLATERAL_RATIO_BPS)))
        InvalidArgument;
  mret ({| State := State s; PayoutQueue := PayoutQueue s; NextPayoutId := NextPayoutId s;
           CorridorMinRatio := <[c := min]> (CorridorMinRatio s) |}, min).

(** ** Collateral *)
Definition deposit_collateral (i : call_env) (s : AnchorCollateralKey) (caller a : Address) (c amt : Z) :
    R (AnchorCollateralKey * AnchorCollateralState) :=
  _ ← require_auth (auth i) caller;
  _ ← fail_if (amt =? 0) AmountTooLow;
  let x := get_anchor_state s a c in
  locked ← ok_or (checked_add U128 (collateral_locked x) amt) Overflow;
  sync_and_store i s (with_balances x locked (volume_unsettled x)).

Definition withdraw_collateral (i : call_env) (s : AnchorCollateralKey) (caller a : Address) (c amt : Z) :
    R (AnchorCollateralKey * AnchorCollateralState) :=
  _ ← require_auth (auth i) caller;
  _ ← fail_if (amt =? 0) AmountTooLow;
  let x := get_anchor_state s a c in
  _ ← fail_if (assignments_paused x) AnchorUndercollateralized;
  _ ← fail_if (collateral_locked x <? amt) InsufficientReserveBalance;
  remaining_collateral ← isub U128 (collateral_locked x) amt;
  ok ← is_collateral_sufficient remaining_collateral (volume_unsettled x) (corridor_min_ratio_bps s c);
  _ ← fail_if (negb ok) AnchorUndercollateralized;
  sync_and_store i s (with_balances x remaining_collateral (volume_unsettled x)).

(** ** The payout queue *)
Definition assign_fiat_payout (i : call_env) (s : AnchorCollateralKey) (caller a : Address) (c amt : Z) :
    R (AnchorCollateralKey * FiatPayoutEntry) :=
  _ ← require_auth (auth i) caller;
  _ ← fail_if (amt =? 0) AmountTooLow;
  _ ← require_anchor_assignable s a c;
  let x := get_anchor_state s a c in
  let min := corridor_min_ratio_bps s c in
  next_volume ← ok_or (checked_add U128 (volume_unsettled x) amt) Overflow;
  ok ← is_collateral_sufficient (collateral_locked x) next_volume min;
  _ ← fail_if (negb ok) AnchorUndercollateralized;
  id ← ok_or (checked_add U64 (default 0 (NextPayoutId s !! (a, c))) 1) Overflow;
  let s1 := store_next_id s a c id in
  let entry := {| pay_id := id; amount := amt; opened_at := timestamp i |} in
  queue ← vpush (read_payout_queue s1 a c) entry;
  let s2 := store_payout_queue s1 a c queue in
  r ← sync_and_store i s2 (with_balances x (collateral_locked x) next_volume);
  mret (r.1, entry).

(** The first position whose entry has the identifier. *)
Fixpoint payout_position (queue : list FiatPayoutEntry) (id : Z) : option nat :=
  match queue with
  | [] => None
  | entry :: rest => if pay_id entry =? id then Some O else S <$> payout_position rest id
  end.

Definition settle_fiat_payout (i : call_env) (s : AnchorCollateralKey) (caller a : Address) (c payout_id amt : Z) :
    R (AnchorCollateralKey * AnchorCollateralState) :=
  _ ← require_auth (auth i) caller;
  _ ← fail_if (amt =? 0) AmountTooLow;
  let queue := read_payout_queue s a c in
  position ← ok_or (payout_position queue payout_id) InvalidEscrowState;
  queued ← ok_or (queue !! position) InvalidEscrowState;
  _ ← fail_if (negb (amount queued =? amt)) InvalidArgument;
  let x := get_anchor_state s a c in
  _ ← fail_if (volume_unsettled x <? amt) InvalidEscrowState;
  _ ← fail_if (collateral_locked x <? amt) InsufficientReserveBalance;
  let s1 := store_payout_queue s a c (delete position queue) in
  volume ← isub U128 (volume_unsettled x) amt;
  locked ← isub U128 (collateral_locked x) amt;
  sync_and_store i s1 (with_balances x locked volume).

Definition sync_anchor_ratio (i : call_env) (s : AnchorCollateralKey) (a : Address) (c : Z) :
    R (AnchorCollateralKey * AnchorCollateralStatus) :=
  r ← sync_and_store i s (get_anchor_state s a c);
  status ← get_anchor_status r.1 a c;
  mret (r.1, status).
End anchors.
