(* ===== verification/AnchorTheorems.v ===== *)
(** * Anchor collateral: the ratios

    [ratio_loop] compares two fractions by their continued fractions: it ends within
    its fuel and decides [a / b >= c / d] exactly, without a product that could
    overflow. [backing_ratio_bps] never traps, is exact for small volumes, and wraps
    just below its cap.

    Histories of the module: the aggregates equal the queues, the collateral of every
    anchor covers its queue, the pause flag of a pair is what the ratio says whenever
    the pair is touched, every queued payout can be settled; and none of it depends on
    who calls. *)

From stdpp Require Import base numbers list gmap sorting.
From Stdlib Require Import ZArith Lia.
From S2P Require Import Prelude Host RootErrors BookData Keys AnchorCollateral.

Open Scope Z_scope.

(** ** Division and remainder of unsigned integers *)
Section unsigned.
Context {E : Type} (a b : Z) (Ha : 0 <= a <= imax U128) (Hb : 0 < b).

Lemma idiv_unsigned : @idiv E U128 a b = Ok (a / b).
Proof.
  unfold idiv. rewrite (proj2 (Z.eqb_neq b 0)) by lia. rewrite Z.quot_div_nonneg by lia. apply iop_in. cbn [imin].
  pose proof (Z.div_pos a b ltac:(lia) Hb). pose proof (Z.div_le_upper_bound a b a Hb ltac:(nia)). lia.
Qed.

Lemma irem_unsigned : @irem E U128 a b = Ok (a mod b).
Proof.
  unfold irem. rewrite (proj2 (Z.eqb_neq b 0)) by lia. rewrite Z.quot_div_nonneg by lia.
  rewrite (proj2 (fits_spec U128 (a / b))).
  - by rewrite Z.rem_mod_nonneg by lia.
  - cbn [imin]. pose proof (Z.div_pos a b ltac:(lia) Hb). pose proof (Z.div_le_upper_bound a b a Hb ltac:(nia)). lia.
Qed.
End unsigned.

(** ** Comparing fractions *)

(** What the current tuple asks. *)
Definition ratio_answer (direction_ge : bool) (a b c d : Z) : bool :=
  if direction_ge then c * b <=? a * d else a * d <=? c * b.

Definition u128_pair (a b : Z) : Prop := 0 <= a <= imax U128 /\ 0 < b <= imax U128.

(** Fractions with different integer parts, and fractions with the same one. *)
Lemma answer_by_parts (ge : bool) (a b c d : Z) :
  0 < b -> 0 < d -> a / b <> c / d -> (if ge then c / d <? a / b else a / b <? c / d) = ratio_answer ge a b c d.
Proof.
  intros Hb Hd Hne. unfold ratio_answer.
  pose proof (Z.div_mod a b ltac:(lia)) as Ea. pose proof (Z.div_mod c d ltac:(lia)) as Ec.
  pose proof (Z.mod_pos_bound a b Hb). pose proof (Z.mod_pos_bound c d Hd).
  assert (c / d < a / b -> c * b < a * d) as H1.
  { intros Hlt. apply Z.lt_le_trans with ((c / d + 1) * d * b); [nia|]. rewrite (Z.mul_comm a d). nia. }
  assert (a / b < c / d -> a * d < c * b) as H2.
  { intros Hlt. apply Z.lt_le_trans with ((a / b + 1) * b * d); [nia|]. rewrite (Z.mul_comm c b). nia. }
  destruct ge; apply eq_bool_prop_intro; split; rewrite ?Is_true_true, ?Z.ltb_lt, ?Z.leb_le; lia.
Qed.

Lemma cross_rests (a b c d : Z) :
  0 < b -> 0 < d -> a / b = c / d -> a * d - c * b = (a mod b) * d - (c mod d) * b.
Proof.
  intros Hb Hd Heq. rewrite (Z.div_mod a b) at 1 by lia. rewrite (Z.div_mod c d) at 1 by lia. rewrite Heq. ring.
Qed.

(** One round. *)
Lemma ratio_round (fuel : nat) (ge : bool) (a b c d : Z) :
  u128_pair a b -> u128_pair c d ->
  ratio_loop (S fuel) ge a b c d = Ok (ratio_answer ge a b c d) \/
  ratio_loop (S fuel) ge a b c d = ratio_loop fuel (negb ge) b (a mod b) d (c mod d) /\
  0 < a mod b /\ 0 < c mod d /\ ratio_answer (negb ge) b (a mod b) d (c mod d) = ratio_answer ge a b c d.
Proof.
  intros [Ha Hb] [Hc Hd]. cbn [ratio_loop]. rewrite !idiv_unsigned, !irem_unsigned, !bind_ret by lia.
  destruct (Z.eqb_spec (a / b) (c / d)) as [Heq|Hne]; cbn [negb];
    [|left; unfold mret, result_ret; f_equal; apply answer_by_parts; lia].
  pose proof (cross_rests a b c d ltac:(lia) ltac:(lia) Heq) as Hx.
  pose proof (Z.mod_pos_bound a b ltac:(lia)). pose proof (Z.mod_pos_bound c d ltac:(lia)).
  destruct (Z.eqb_spec (a mod b) 0) as [Ea|Ea], (Z.eqb_spec (c mod d) 0) as [Ec|Ec]; cbn [andb].
  4: { right. split; [done|]. split; [lia|]. split; [lia|]. unfold ratio_answer.
       destruct ge; cbn [negb]; apply eq_bool_prop_intro; rewrite !Is_true_true, !Z.leb_le; lia. }
  all: left; unfold mret, result_ret, ratio_answer; f_equal; symmetry; destruct ge; cbn [negb];
    rewrite ?Z.leb_le, ?Z.leb_gt; nia.
Qed.

(** After the first round [b <= a]; each round halves the product [a * b]. *)
Lemma ratio_loop_exact (n : nat) (ge : bool) (a b c d : Z) :
  u128_pair a b -> u128_pair c d -> b <= a -> a * b < 2 ^ Z.of_nat n ->
  ratio_loop n ge a b c d = Ok (ratio_answer ge a b c d).
Proof.
  revert ge a b c d. induction n as [|n IH]; intros ge a b c d Hab Hcd Hle Hp; pose proof Hab as [Ha Hb].
  { change (2 ^ Z.of_nat 0) with 1 in Hp. nia. }
  destruct (ratio_round n ge a b c d Hab Hcd) as [E|(-> & Hra & Hrc & <-)]; [done|].
  pose proof (Z.mod_pos_bound a b ltac:(lia)). pose proof (Z.mod_pos_bound c d ltac:(destruct Hcd; lia)).
  apply IH; [unfold u128_pair in *; lia..|lia|].
  rewrite Nat2Z.inj_succ, Z.pow_succ_r in Hp by lia.
  pose proof (Z.div_mod a b ltac:(lia)). assert (1 <= a / b) by (apply Z.div_le_lower_bound; lia). nia.
Qed.

Lemma ratio_ge_exact (a b c d : Z) :
  u128_pair a b -> u128_pair c d -> ratio_ge a b c d = Ok (c * b <=? a * d).
Proof.
  intros Hab Hcd. unfold ratio_ge. pose proof Hab as [Ha Hb].
  destruct (ratio_round 256 true a b c d Hab Hcd) as [E|(-> & Hra & Hrc & E)]; [done|].
  pose proof (Z.mod_pos_bound a b ltac:(lia)). pose proof (Z.mod_pos_bound c d ltac:(destruct Hcd; lia)).
  change (c * b <=? a * d) with (ratio_answer true a b c d). rewrite <- E.
  apply ratio_loop_exact; [unfold u128_pair in *; lia..|lia|].
  change (2 ^ Z.of_nat 256) with (2 ^ 128 * 2 ^ 128). cbn [imax] in *. nia.
Qed.

(** ** Sufficiency *)
Definition sufficient (collateral volume min : Z) : bool :=
  (volume =? 0) || (min * volume <=? collateral * BPS_DENOMINATOR).

Lemma is_collateral_sufficient_eq (collateral volume min : Z) :
  0 <= collateral <= imax U128 -> 0 <= volume <= imax U128 -> 0 <= min <= imax U128 ->
  is_collateral_sufficient collateral volume min = Ok (sufficient collateral volume min).
Proof.
  intros Hc Hv Hm. unfold is_collateral_sufficient, sufficient. destruct (Z.eqb_spec volume 0) as [|Hne]; cbn [orb]; [done|].
  apply ratio_ge_exact; unfold u128_pair, BPS_DENOMINATOR; cbn [imax] in *; lia.
Qed.

(** ** The view in basis points *)

(** The factor by which remainder and volume are divided. *)
Definition shrink (volume : Z) : Z := volume / imax U32 + 1.

Definition ratio_view (collateral volume : Z) : Z :=
  if volume =? 0 then 0
  else if 429496 <? collateral / volume then imax U32
  else cast U32 (collateral / volume * 10000
                 + (collateral mod volume / shrink volume) * 10000 / (volume / shrink volume)).

Lemma shrunk_volume (volume : Z) :
  0 < volume -> 0 < shrink volume /\ 1 <= volume / shrink volume <= imax U32.
Proof.
  intros Hv. unfold shrink. pose proof (Z.div_mod volume (imax U32) ltac:(done)) as E.
  pose proof (Z.mod_pos_bound volume (imax U32) ltac:(done)). pose proof (Z.div_pos volume (imax U32) ltac:(lia) ltac:(done)).
  set (q := volume / imax U32) in *. cbn [imax] in *. change (2 ^ 32) with 4294967296 in *. split; [lia|]. split.
  - apply Z.div_le_lower_bound; lia.
  - apply Z.lt_succ_r, Z.div_lt_upper_bound; lia.
Qed.

Lemma backing_ratio_bps_eq (collateral volume : Z) :
  0 <= collateral <= imax U128 -> 0 <= volume <= imax U128 ->
  backing_ratio_bps collateral volume = Ok (ratio_view collateral volume).
Proof.
  intros Hc Hv. unfold backing_ratio_bps, ratio_view. destruct (Z.eqb_spec volume 0) as [|Hne]; [done|].
  rewrite (idiv_unsigned collateral volume), bind_ret by lia. change (imax U32 / BPS_DENOMINATOR) with 429496.
  destruct (Z.ltb_spec 429496 (collateral / volume)) as [|Hw]; [done|].
  pose proof (Z.div_pos collateral volume ltac:(lia) ltac:(lia)). pose proof (Z.mod_pos_bound collateral volume ltac:(lia)) as Hr.
  destruct (shrunk_volume volume ltac:(lia)) as [Hs Hsv].
  assert (0 <= collateral mod volume / shrink volume <= volume / shrink volume) as Hrs.
  { split; [apply Z.div_pos; lia|]. apply Z.div_le_mono; lia. }
  unfold imul. rewrite iop_in by (unfold BPS_DENOMINATOR; ilia). rewrite bind_ret, irem_unsigned, bind_ret by lia.
  set (r := collateral mod volume) in *. set (v := volume / shrink volume) in *.
  assert (0 <= r / shrink volume * 10000 / v <= 10000) as Hf.
  { split; [apply Z.div_pos; lia|]. apply Z.div_le_upper_bound; lia. }
  match goal with |- (?x ≫= _) = _ => assert (x = Ok (r / shrink volume * 10000 / v)) as -> end.
  - destruct (Z.eqb_spec r 0) as [->|]; [by rewrite Z.div_0_l by lia|].
    assert (0 <= volume / imax U32 <= 2 ^ 127) as Hn.
    { split; [apply Z.div_pos; cbn [imax]; lia|]. apply Z.div_le_upper_bound; cbn [imax] in *; lia. }
    rewrite (idiv_unsigned volume (imax U32)), bind_ret by (cbn [imax] in *; lia). unfold iadd at 1. fold (shrink volume).
    rewrite iop_in by (unfold shrink in *; cbn [imin]; cbn [imax] in *; lia).
    rewrite bind_ret, (idiv_unsigned r), bind_ret by (cbn [imax] in *; lia). unfold BPS_DENOMINATOR.
    rewrite iop_in by ilia. rewrite bind_ret, (idiv_unsigned volume), bind_ret by lia. fold v.
    rewrite idiv_unsigned by ilia. done.
  - rewrite bind_ret. unfold iadd, BPS_DENOMINATOR. rewrite iop_in by ilia. by rewrite bind_ret.
Qed.

(** C37: The ratio comparison always ends and is exact. For all 128-bit fractions with
    positive denominators [ratio_ge] returns, and returns whether [a / b >= c / d] as
    real numbers; hence an anchor counts as sufficiently backed exactly when its queue
    is empty or collateral times 10000 is at least the minimum times the volume, with
    no overflow in the whole range. *)
Theorem ratio_ge_decides (a b c d min : Z) :
  u128_pair a b -> u128_pair c d -> 0 <= min <= imax U128 ->
  ratio_ge a b c d = Ok (c * b <=? a * d) /\
  is_collateral_sufficient a b min = Ok ((b =? 0) || (min * b <=? a * BPS_DENOMINATOR)) /\
  is_collateral_sufficient a 0 min = Ok true.
Proof.
  intros Hab Hcd Hm. split; [by apply ratio_ge_exact|]. destruct Hab as [Ha Hb].
  split; [|done]. apply is_collateral_sufficient_eq; lia.
Qed.

Lemma ratio_ge_decides_witness :
  ratio_ge (imax U128) (imax U128 - 1) (imax U128 - 1) (imax U128 - 2) = Ok false /\
  is_collateral_sufficient (imax U128) (imax U128 - 1) 12000 = Ok false.
Proof.
  assert (u128_pair (imax U128) (imax U128 - 1)) as Hab by (split; vm_compute; split; discriminate || reflexivity).
  assert (u128_pair (imax U128 - 1) (imax U128 - 2)) as Hcd by (split; vm_compute; split; discriminate || reflexivity).
  destruct (ratio_ge_decides _ _ _ _ 12000 Hab Hcd ltac:(vm_compute; split; discriminate)) as (-> & -> & _).
  split; vm_compute; reflexivity.
Defined.

(** The view in basis points never traps. For a volume below [u32::MAX] it is the
    exact quotient [collateral * 10000 / volume] when that fits a [u32], and
    [u32::MAX] when the integer part of the ratio exceeds 429496; in the window
    between, where the integer part is 429496 and the quotient exceeds [u32::MAX], the
    final cast wraps around and the view reports less than 2704 basis points. *)
Theorem ratio_view_wraps (collateral volume : Z) :
  0 <= collateral <= imax U128 -> 0 < volume < imax U32 ->
  let q := collateral * 10000 / volume in
  backing_ratio_bps collateral volume =
    Ok (if q <=? imax U32 then q else if collateral / volume <=? 429496 then q - 2 ^ 32 else imax U32) /\
  (imax U32 < q -> collateral / volume <= 429496 -> 0 <= q - 2 ^ 32 < 2704).
Proof.
  intros Hc Hv q. rewrite backing_ratio_bps_eq by (cbn [imax] in *; lia). unfold ratio_view, shrink.
  rewrite (proj2 (Z.eqb_neq volume 0)) by lia. rewrite (Z.div_small volume (imax U32)) by lia. rewrite !Z.div_1_r.
  pose proof (Z.div_mod collateral volume ltac:(lia)) as E. pose proof (Z.mod_pos_bound collateral volume ltac:(lia)) as Hr.
  set (w := collateral / volume) in *. set (r := collateral mod volume) in *.
  assert (q = w * 10000 + r * 10000 / volume) as Hq.
  { unfold q. rewrite E. replace ((volume * w + r) * 10000) with (w * 10000 * volume + r * 10000) by ring.
    apply Z.div_add_l. lia. }
  assert (0 <= r * 10000 / volume < 10000) as Hf by (split; [apply Z.div_pos|apply Z.div_lt_upper_bound]; lia).
  assert (0 <= w) by (apply Z.div_pos; lia). rewrite <- Hq.
  assert (w <= 429496 -> 0 <= q < 4294970000) as Hwrap by lia. cbn [imax]. change (2 ^ 32) with 4294967296.
  split; [f_equal|lia]. unfold cast. cbn [imin bits_of]. rewrite Z.sub_0_r, Z.add_0_r. change (2 ^ 32) with 4294967296.
  destruct (Z.ltb_spec 429496 w), (Z.leb_spec q (4294967296 - 1)), (Z.leb_spec w 429496); try lia.
  - apply Z.mod_small. lia.
  - symmetry. apply Z.mod_unique_pos with 1; lia.
Qed.

Lemma ratio_view_wraps_witness :
  backing_ratio_bps 1250 1000 = Ok 12500 /\ backing_ratio_bps (429496 * 1000 + 800) 1000 = Ok 704.
Proof.
  rewrite (proj1 (ratio_view_wraps 1250 1000 ltac:(vm_compute; split; discriminate) ltac:(vm_compute; split; reflexivity))).
  rewrite (proj1 (ratio_view_wraps (429496 * 1000 + 800) 1000 ltac:(vm_compute; split; discriminate) ltac:(vm_compute; split; reflexivity))).
  split; vm_compute; reflexivity.
Defined.

(** ** Anchor collateral: the properties *)

Section claims.
Context {H : Host}.

Inductive anchor_call :=
  | ASetMin (k : keyring) (admin : Address) (c min : Z)
  | ADeposit (caller a : Address) (c amt : Z)
  | AWithdraw (caller a : Address) (c amt : Z)
  | AAssign (caller a : Address) (c amt : Z)
  | ASettle (caller a : Address) (c id amt : Z)
  | ASync (a : Address) (c : Z).

Definition run_anchor (i : call_env) (s : AnchorCollateralKey) (x : anchor_call) : R AnchorCollateralKey :=
  match x with
  | ASetMin k admin c min => r ← set_min_collateral_ratio_bps i k s admin c min; mret r.1
  | ADeposit caller a c amt => r ← deposit_collateral i s caller a c amt; mret r.1
  | AWithdraw caller a c amt => r ← withdraw_collateral i s caller a c amt; mret r.1
  | AAssign caller a c amt => r ← assign_fiat_payout i s caller a c amt; mret r.1
  | ASettle caller a c id amt => r ← settle_fiat_payout i s caller a c id amt; mret r.1
  | ASync a c => r ← sync_anchor_ratio i s a c; mret r.1
  end.

(** Amounts are values of [u128]. *)
Definition anchor_typed (x : anchor_call) : bool :=
  match x with
  | ADeposit _ _ _ amt | AWithdraw _ _ _ amt | AAssign _ _ _ amt | ASettle _ _ _ _ amt => fits U128 amt
  | _ => true
  end.

(** The pair whose balances a call evaluates. *)
Definition touched (x : anchor_call) : option (Address * Z) :=
  match x with
  | ASetMin _ _ _ _ => None
  | ADeposit _ a c _ | AWithdraw _ a c _ | AAssign _ a c _ | ASettle _ a c _ _ | ASync a c => Some (a, c)
  end.

Definition empty_anchors : AnchorCollateralKey :=
  {| State := ∅; PayoutQueue := ∅; NextPayoutId := ∅; CorridorMinRatio := ∅ |}.

Inductive anchor_history : AnchorCollateralKey -> Prop :=
  | anchor_start : anchor_history empty_anchors
  | anchor_next s i x s' :
      anchor_history s -> anchor_typed x = true -> run_anchor i s x = Ok s' -> anchor_history s'.

(** ** The invariant of one pair *)
Definition next_payout_id (s : AnchorCollateralKey) (a : Address) (c : Z) : Z := default 0 (NextPayoutId s !! (a, c)).

Record pair_ok (x : AnchorCollateralState) (queue : list FiatPayoutEntry) (next : Z) : Prop := {
  pk_volume : volume_unsettled x = zsum (amount <$> queue);
  pk_covered : 0 <= volume_unsettled x <= collateral_locked x /\ collateral_locked x <= imax U128;
  pk_sorted : StronglySorted Z.lt (pay_id <$> queue);
  pk_ids : Forall (fun e => pay_id e <= next) queue;
  pk_amounts : Forall (fun e => 0 < amount e) queue
}.

Record anchors_ok (s : AnchorCollateralKey) : Prop := {
  ak_key : forall a c, anchor (get_anchor_state s a c) = a /\ corridor (get_anchor_state s a c) = c;
  ak_pair : forall a c, pair_ok (get_anchor_state s a c) (read_payout_queue s a c) (next_payout_id s a c);
  ak_min : forall c, MIN_ALLOWED_COLLATERAL_RATIO_BPS <= corridor_min_ratio_bps s c <= MAX_ALLOWED_COLLATERAL_RATIO_BPS
}.

Lemma sufficient_covered (collateral volume min : Z) :
  MIN_ALLOWED_COLLATERAL_RATIO_BPS <= min -> 0 <= collateral -> 0 <= volume ->
  sufficient collateral volume min = true -> volume <= collateral.
Proof.
  unfold sufficient, MIN_ALLOWED_COLLATERAL_RATIO_BPS, BPS_DENOMINATOR. intros Hm Hc Hv.
  intros [E%Z.eqb_eq|E%Z.leb_le]%orb_true_iff; nia.
Qed.

(** More collateral, or both balances lowered by the same amount, keep sufficiency. *)
Lemma sufficient_settle (collateral volume amt min : Z) :
  MIN_ALLOWED_COLLATERAL_RATIO_BPS <= min -> 0 <= amt <= volume ->
  sufficient collateral volume min = true -> sufficient (collateral - amt) (volume - amt) min = true.
Proof.
  unfold sufficient, MIN_ALLOWED_COLLATERAL_RATIO_BPS, BPS_DENOMINATOR. intros Hm Ha.
  intros [E%Z.eqb_eq|E%Z.leb_le]%orb_true_iff; apply orb_true_iff; [left; apply Z.eqb_eq; lia|right; apply Z.leb_le; nia].
Qed.

Lemma sufficient_deposit (collateral volume amt min : Z) :
  0 <= amt -> sufficient collateral volume min = true -> sufficient (collateral + amt) volume min = true.
Proof.
  unfold sufficient, BPS_DENOMINATOR. intros Ha.
  intros [E%Z.eqb_eq|E%Z.leb_le]%orb_true_iff; apply orb_true_iff; [left; by apply Z.eqb_eq|right; apply Z.leb_le; lia].
Qed.

(** Sorted lists of identifiers: appending a larger one, removing any. *)
Lemma sorted_snoc (l : list Z) (z : Z) :
  StronglySorted Z.lt l -> (forall y, y ∈ l -> y < z) -> StronglySorted Z.lt (l ++ [z]).
Proof.
  intros Hl Hz. apply StronglySorted_app. split; [|split; [done|repeat constructor]].
  intros y1 y2 Hy1 ->%list_elem_of_singleton. by apply Hz.
Qed.

Lemma sorted_drop (l1 l2 : list Z) (z : Z) :
  StronglySorted Z.lt (l1 ++ z :: l2) -> StronglySorted Z.lt (l1 ++ l2).
Proof.
  rewrite !StronglySorted_app. intros (Hx & H1 & [H2 _]%StronglySorted_inv). split; [|done].
  intros y1 y2 Hy1 Hy2. apply Hx; [done|]. by apply list_elem_of_further.
Qed.

(** ** What is stored after an evaluation *)

Definition evaluated (i : call_env) (min : Z) (x : AnchorCollateralState) : AnchorCollateralState :=
  let ok := sufficient (collateral_locked x) (volume_unsettled x) min in
  let newly := negb ok && negb (assignments_paused x) in
  {| anchor := anchor x; corridor := corridor x; collateral_locked := collateral_locked x;
     volume_unsettled := volume_unsettled x; assignments_paused := negb ok;
     paused_at := if newly then timestamp i else if ok && assignments_paused x then 0 else paused_at x;
     last_paused_at := if newly then timestamp i else last_paused_at x;
     last_ratio_bps := ratio_view (collateral_locked x) (volume_unsettled x) |}.

Lemma sync_and_store_eq (i : call_env) (s : AnchorCollateralKey) (x : AnchorCollateralState) :
  0 <= collateral_locked x <= imax U128 -> 0 <= volume_unsettled x <= imax U128 ->
  0 <= corridor_min_ratio_bps s (corridor x) <= imax U128 ->
  let x' := evaluated i (corridor_min_ratio_bps s (corridor x)) x in
  sync_and_store i s x = Ok (store_anchor_state s x', x').
Proof.
  intros Hc Hv Hm x'. unfold sync_and_store, sync_ratio_status.
  rewrite is_collateral_sufficient_eq, backing_ratio_bps_eq, !bind_ret by done.
  unfold x', evaluated. destruct (sufficient _ _ _), (assignments_paused x) eqn:E; done.
Qed.

Lemma get_store_same (s : AnchorCollateralKey) (x : AnchorCollateralState) :
  get_anchor_state (store_anchor_state s x) (anchor x) (corridor x) = x.
Proof. unfold get_anchor_state. cbn [State store_anchor_state]. by rewrite lookup_insert_eq. Qed.

Lemma get_store_other (s : AnchorCollateralKey) (x : AnchorCollateralState) (a : Address) (c : Z) :
  (a, c) <> (anchor x, corridor x) -> get_anchor_state (store_anchor_state s x) a c = get_anchor_state s a c.
Proof. intros Hne. unfold get_anchor_state. cbn [State store_anchor_state]. by rewrite lookup_insert_ne. Qed.

(** A change of one pair: its new balances, queue and last identifier; the rest stays. *)
Record changes (s s' : AnchorCollateralKey) (a : Address) (c : Z) (x : AnchorCollateralState)
    (queue : list FiatPayoutEntry) (next : Z) : Prop := {
  ch_state : get_anchor_state s' a c = x;
  ch_queue : read_payout_queue s' a c = queue;
  ch_next : next_payout_id s' a c = next;
  ch_min : CorridorMinRatio s' = CorridorMinRatio s;
  ch_rest : forall a' c', (a', c') <> (a, c) -> get_anchor_state s' a' c' = get_anchor_state s a' c' /\
    read_payout_queue s' a' c' = read_payout_queue s a' c' /\ next_payout_id s' a' c' = next_payout_id s a' c'
}.

Lemma changes_ok (s s' : AnchorCollateralKey) (a : Address) (c : Z) (x : AnchorCollateralState)
    (queue : list FiatPayoutEntry) (next : Z) :
  anchors_ok s -> changes s s' a c x queue next -> anchor x = a -> corridor x = c -> pair_ok x queue next ->
  anchors_ok s'.
Proof.
  intros Hok Hch Ha Hc Hx. constructor.
  - intros a' c'. destruct (decide ((a', c') = (a, c))) as [[= -> ->]|Hne]; [by rewrite (ch_state _ _ _ _ _ _ _ Hch)|].
    destruct (ch_rest _ _ _ _ _ _ _ Hch a' c' Hne) as (-> & _). apply (ak_key s Hok).
  - intros a' c'. destruct (decide ((a', c') = (a, c))) as [[= -> ->]|Hne].
    + by rewrite (ch_state _ _ _ _ _ _ _ Hch), (ch_queue _ _ _ _ _ _ _ Hch), (ch_next _ _ _ _ _ _ _ Hch).
    + destruct (ch_rest _ _ _ _ _ _ _ Hch a' c' Hne) as (-> & -> & ->). apply (ak_pair s Hok).
  - intros c'. unfold corridor_min_ratio_bps. rewrite (ch_min _ _ _ _ _ _ _ Hch). apply (ak_min s Hok).
Qed.

Section pair.
Context (s : AnchorCollateralKey) (Hok : anchors_ok s) (a : Address) (c : Z).
Let x := get_anchor_state s a c.
Let min := corridor_min_ratio_bps s c.

Lemma pair_facts :
  anchor x = a /\ corridor x = c /\ (0 <= volume_unsettled x <= collateral_locked x) /\
  collateral_locked x <= imax U128 /\ BPS_DENOMINATOR <= min <= 100000.
Proof.
  destruct (ak_key s Hok a c). pose proof (pk_covered _ _ _ (ak_pair s Hok a c)). pose proof (ak_min s Hok c).
  unfold MIN_ALLOWED_COLLATERAL_RATIO_BPS, MAX_ALLOWED_COLLATERAL_RATIO_BPS in *. tauto.
Qed.

Let queue := read_payout_queue s a c.
Let next := next_payout_id s a c.

Lemma changes_refl : changes s s a c x queue next.
Proof. by constructor. Qed.

Lemma changes_queue (s1 : AnchorCollateralKey) (q q' : list FiatPayoutEntry) (n : Z) :
  changes s s1 a c x q n -> changes s (store_payout_queue s1 a c q') a c x q' n.
Proof.
  intros Hch. constructor; try apply Hch.
  - unfold read_payout_queue. cbn. by rewrite lookup_insert_eq.
  - intros a' c' Hne. destruct (ch_rest _ _ _ _ _ _ _ Hch a' c' Hne) as (E1 & E2 & E3). split; [exact E1|]. split; [|exact E3].
    rewrite <- E2. unfold read_payout_queue. cbn. by rewrite lookup_insert_ne by (intros E; by apply Hne).
Qed.

Lemma changes_next (s1 : AnchorCollateralKey) (q : list FiatPayoutEntry) (n n' : Z) :
  changes s s1 a c x q n -> changes s (store_next_id s1 a c n') a c x q n'.
Proof.
  intros Hch. constructor; try apply Hch.
  - unfold next_payout_id. cbn. by rewrite lookup_insert_eq.
  - intros a' c' Hne. destruct (ch_rest _ _ _ _ _ _ _ Hch a' c' Hne) as (E1 & E2 & E3). split; [exact E1|]. split; [exact E2|].
    rewrite <- E3. unfold next_payout_id. cbn. by rewrite lookup_insert_ne by (intros E; by apply Hne).
Qed.

(** The evaluation that ends an operation, when the new balances are in range. *)
Lemma finish (i : call_env) (s1 : AnchorCollateralKey) (q : list FiatPayoutEntry) (n collateral volume : Z) :
  changes s s1 a c x q n -> 0 <= collateral <= imax U128 -> 0 <= volume <= imax U128 ->
  let x' := evaluated i min (with_balances x collateral volume) in
  let s' := store_anchor_state s1 x' in
  sync_and_store i s1 (with_balances x collateral volume) = Ok (s', x') /\ changes s s' a c x' q n.
Proof.
  intros Hch Hc Hv x' s'. destruct pair_facts as (Ea & Ec & _ & _ & Hm).
  assert (corridor_min_ratio_bps s1 (corridor (with_balances x collateral volume)) = min) as Em.
  { cbn [corridor with_balances]. unfold min, corridor_min_ratio_bps. by rewrite Ec, (ch_min _ _ _ _ _ _ _ Hch). }
  split.
  - rewrite sync_and_store_eq; [by rewrite Em|done|done|]. rewrite Em. unfold BPS_DENOMINATOR in Hm. cbn [imax]. lia.
  - assert (anchor x' = a /\ corridor x' = c) as [E1 E2] by done. constructor; try apply Hch.
    + rewrite <- E1, <- E2 at 1. apply get_store_same.
    + intros a' c' Hne. destruct (ch_rest _ _ _ _ _ _ _ Hch a' c' Hne) as (<- & <- & <-). split; [|done].
      apply get_store_other. by rewrite E1, E2.
Qed.

(** ** The operations on the pair *)
Lemma deposit_changes (i : call_env) (caller : Address) (amt : Z) (s' : AnchorCollateralKey) (x' : AnchorCollateralState) :
  0 <= amt -> deposit_collateral i s caller a c amt = Ok (s', x') ->
  changes s s' a c x' queue next /\ collateral_locked x + amt <= imax U128 /\
  x' = evaluated i min (with_balances x (collateral_locked x + amt) (volume_unsettled x)).
Proof.
  intros Ha Hr. unfold deposit_collateral in Hr. destruct pair_facts as (_ & _ & Hv & Hc & _).
  apply bind_Ok in Hr as (? & _ & Hr). apply bind_Ok in Hr as (? & _ & Hr).
  apply bind_Ok in Hr as (locked & [-> Hl]%ok_or_Ok%chk_Some & Hr). cbn [imin] in Hl. fold x in Hl, Hr.
  destruct (finish i s queue next (collateral_locked x + amt) (volume_unsettled x) changes_refl ltac:(lia) ltac:(lia)) as [E Hch].
  rewrite E in Hr. injection Hr as <- <-. split; [exact Hch|]. by split; [lia|].
Qed.

Lemma withdraw_eq (i : call_env) (caller : Address) (amt : Z) :
  auth i caller = true -> 0 < amt -> assignments_paused x = false -> amt <= collateral_locked x ->
  let x' := evaluated i min (with_balances x (collateral_locked x - amt) (volume_unsettled x)) in
  withdraw_collateral i s caller a c amt =
    if sufficient (collateral_locked x - amt) (volume_unsettled x) min then Ok (store_anchor_state s x', x')
    else Err AnchorUndercollateralized.
Proof.
  intros Hau Ha Hp Hle x'. destruct pair_facts as (_ & _ & Hv & Hc & Hm).
  unfold withdraw_collateral, require_auth. rewrite Hau, bind_ret, (proj2 (Z.eqb_neq amt 0)) by lia. cbn [fail_if].
  rewrite bind_ret. fold x. rewrite Hp. cbn [fail_if]. rewrite bind_ret, (proj2 (Z.ltb_ge _ _)) by lia. cbn [fail_if].
  unfold isub. rewrite bind_ret, iop_in by (cbn [imin]; lia). rewrite bind_ret. fold min.
  rewrite is_collateral_sufficient_eq, bind_ret by (unfold BPS_DENOMINATOR in Hm; cbn [imax] in *; lia).
  destruct (sufficient _ _ _); cbn [negb fail_if]; [|done]. rewrite bind_ret.
  apply (finish i s queue next); [exact changes_refl|lia|lia].
Qed.

Lemma withdraw_changes (i : call_env) (caller : Address) (amt : Z) (s' : AnchorCollateralKey) (x' : AnchorCollateralState) :
  0 <= amt -> withdraw_collateral i s caller a c amt = Ok (s', x') ->
  changes s s' a c x' queue next /\ assignments_paused x = false /\ amt <= collateral_locked x /\
  sufficient (collateral_locked x - amt) (volume_unsettled x) min = true /\
  x' = evaluated i min (with_balances x (collateral_locked x - amt) (volume_unsettled x)).
Proof.
  intros Ha Hr. pose proof Hr as Hr0. destruct pair_facts as (_ & _ & Hv & Hc & _). unfold withdraw_collateral in Hr0.
  apply bind_Ok in Hr0 as ([] & Hau%require_auth_Ok & Hr0). apply bind_Ok in Hr0 as ([] & Hz%fail_if_Ok%Z.eqb_neq & Hr0).
  apply bind_Ok in Hr0 as ([] & Hp%fail_if_Ok & Hr0). apply bind_Ok in Hr0 as ([] & Hle%fail_if_Ok%Z.ltb_ge & _).
  fold x in Hp, Hle. rewrite (withdraw_eq i caller amt Hau ltac:(lia) Hp Hle) in Hr.
  destruct (sufficient _ _ _) eqn:Es; [|done]. injection Hr as <- <-.
  split; [apply (finish i s queue next); [exact changes_refl|lia|lia]|done].
Qed.

Lemma assign_changes (i : call_env) (caller : Address) (amt : Z) (s' : AnchorCollateralKey) (e : FiatPayoutEntry) :
  0 <= amt -> assign_fiat_payout i s caller a c amt = Ok (s', e) ->
  exists x', changes s s' a c x' (queue ++ [e]) (next + 1) /\ assignments_paused x = false /\ 0 < amt /\
  e = {| pay_id := next + 1; amount := amt; opened_at := timestamp i |} /\
  sufficient (collateral_locked x) (volume_unsettled x + amt) min = true /\
  x' = evaluated i min (with_balances x (collateral_locked x) (volume_unsettled x + amt)).
Proof.
  intros Ha Hr. destruct pair_facts as (_ & _ & Hv & Hc & Hm). unfold assign_fiat_payout in Hr.
  apply bind_Ok in Hr as ([] & _ & Hr). apply bind_Ok in Hr as ([] & Hz%fail_if_Ok%Z.eqb_neq & Hr).
  apply bind_Ok in Hr as ([] & Hp%fail_if_Ok & Hr). unfold is_anchor_paused in Hp. fold x in Hp, Hr.
  apply bind_Ok in Hr as (v & [-> Hl]%ok_or_Ok%chk_Some & Hr). cbn [imin] in Hl. fold min in Hr.
  rewrite is_collateral_sufficient_eq, bind_ret in Hr by (unfold BPS_DENOMINATOR in Hm; cbn [imax] in *; lia).
  apply bind_Ok in Hr as ([] & Hs%fail_if_Ok%negb_false_iff & Hr).
  apply bind_Ok in Hr as (id & [-> _]%ok_or_Ok%chk_Some & Hr). fold (next_payout_id s a c) next in Hr.
  pose proof (changes_next s queue next (next + 1) changes_refl) as Hch1.
  rewrite (ch_queue _ _ _ _ _ _ _ Hch1) in Hr. set (e0 := {| pay_id := next + 1 |}) in *.
  apply bind_Ok in Hr as (q & [_ ->]%vpush_Ok & Hr). apply changes_queue with (q' := queue ++ [e0]) in Hch1.
  destruct (finish i _ _ _ (collateral_locked x) (volume_unsettled x + amt) Hch1 ltac:(lia) ltac:(lia)) as [E Hch].
  rewrite E, bind_ret in Hr. injection Hr as <- <-. eexists. split; [exact Hch|]. repeat split; auto; lia.
Qed.

Lemma payout_position_lookup (q : list FiatPayoutEntry) (id : Z) (n : nat) :
  payout_position q id = Some n -> exists q1 e q2, q = q1 ++ e :: q2 /\ length q1 = n /\ pay_id e = id.
Proof.
  revert n. induction q as [|e q IH]; intros n; cbn [payout_position]; [done|].
  destruct (Z.eqb_spec (pay_id e) id) as [He|]; [intros [= <-]; by exists [], e, q|].
  destruct (payout_position q id) as [m|]; [|done]. intros [= <-]. destruct (IH m eq_refl) as (q1 & e' & q2 & -> & <- & He').
  by exists (e :: q1), e', q2.
Qed.

Lemma payout_position_app (q1 q2 : list FiatPayoutEntry) (e : FiatPayoutEntry) :
  StronglySorted Z.lt (pay_id <$> q1 ++ e :: q2) -> payout_position (q1 ++ e :: q2) (pay_id e) = Some (length q1).
Proof.
  induction q1 as [|e' q1 IH]; cbn [payout_position app fmap list_fmap length]; intros Hs; [by rewrite Z.eqb_refl|].
  apply StronglySorted_inv in Hs as [Hs Hf]. rewrite Forall_forall in Hf.
  assert (pay_id e' < pay_id e) by (apply Hf, list_elem_of_fmap; exists e; split; [done|set_solver]).
  rewrite (proj2 (Z.eqb_neq _ _)) by lia. by rewrite (IH Hs).
Qed.

Lemma settle_eq (i : call_env) (caller : Address) (q1 q2 : list FiatPayoutEntry) (e : FiatPayoutEntry) :
  auth i caller = true -> queue = q1 ++ e :: q2 -> 
  let x' := evaluated i min (with_balances x (collateral_locked x - amount e) (volume_unsettled x - amount e)) in
  let s' := store_anchor_state (store_payout_queue s a c (q1 ++ q2)) x' in
  settle_fiat_payout i s caller a c (pay_id e) (amount e) = Ok (s', x') /\ changes s s' a c x' (q1 ++ q2) next /\
  0 < amount e <= volume_unsettled x.
Proof.
  intros Hau Hq x' s'. destruct pair_facts as (_ & _ & Hv & Hc & Hm). pose proof (ak_pair s Hok a c) as Hp.
  pose proof (pk_volume _ _ _ Hp) as Ev. pose proof (pk_sorted _ _ _ Hp) as Hs. pose proof (pk_amounts _ _ _ Hp) as Hpos.
  fold x queue next in Ev, Hs, Hpos. rewrite Hq in Hs, Ev, Hpos.
  apply Forall_app in Hpos as [Hpos1 [He Hpos2]%Forall_cons]. rewrite fmap_app, fmap_cons, zsum_app in Ev. cbn [zsum foldr] in Ev.
  fold (zsum (amount <$> q2)) in Ev.
  assert (forall q : list FiatPayoutEntry, Forall (fun e => 0 < amount e) q -> 0 <= zsum (amount <$> q)) as Hnn.
  { induction 1 as [|? ? ? ? IH]; cbn; [done|]. unfold zsum in IH. lia. }
  apply Hnn in Hpos1, Hpos2. assert (amount e <= volume_unsettled x) as Hle by lia.
  assert (changes s (store_payout_queue s a c (q1 ++ q2)) a c x (q1 ++ q2) next) as Hch1
    by (apply changes_queue with queue; exact changes_refl).
  destruct (finish i _ _ _ (collateral_locked x - amount e) (volume_unsettled x - amount e) Hch1 ltac:(lia) ltac:(lia)) as [E Hch].
  split; [|split; [exact Hch|lia]].
  unfold settle_fiat_payout, require_auth. rewrite Hau, bind_ret, (proj2 (Z.eqb_neq (amount e) 0)) by lia.
  cbn [fail_if]. rewrite bind_ret. fold queue x. rewrite Hq, payout_position_app by done. cbn [ok_or]. rewrite bind_ret.
  rewrite list_lookup_middle by done. cbn [ok_or]. rewrite bind_ret, Z.eqb_refl. cbn [negb fail_if].
  rewrite bind_ret, (proj2 (Z.ltb_ge _ _)) by lia. cbn [fail_if]. rewrite bind_ret, (proj2 (Z.ltb_ge _ _)) by lia. cbn [fail_if].
  unfold isub. rewrite bind_ret, (iop_in U128 (volume_unsettled x - amount e)) by (cbn [imin]; lia).
  rewrite bind_ret, iop_in by (cbn [imin]; lia).
  rewrite bind_ret, delete_middle. exact E.
Qed.

Lemma settle_changes (i : call_env) (caller : Address) (id amt : Z) (s' : AnchorCollateralKey) (x' : AnchorCollateralState) :
  settle_fiat_payout i s caller a c id amt = Ok (s', x') ->
  exists q1 e q2, queue = q1 ++ e :: q2 /\ pay_id e = id /\ amount e = amt /\ changes s s' a c x' (q1 ++ q2) next /\
  0 < amt <= volume_unsettled x /\
  x' = evaluated i min (with_balances x (collateral_locked x - amt) (volume_unsettled x - amt)).
Proof.
  intros Hr. pose proof Hr as Hr0. unfold settle_fiat_payout in Hr0.
  apply bind_Ok in Hr0 as ([] & Hau%require_auth_Ok & Hr0). apply bind_Ok in Hr0 as ([] & _ & Hr0).
  apply bind_Ok in Hr0 as (n & Hn%ok_or_Ok & Hr0). apply payout_position_lookup in Hn as (q1 & e & q2 & Hq & <- & He).
  fold queue in Hq, Hr0. rewrite Hq in Hr0. apply bind_Ok in Hr0 as (e' & He'%ok_or_Ok & Hr0).
  rewrite list_lookup_middle in He' by done. injection He' as <-.
  apply bind_Ok in Hr0 as ([] & Ha%fail_if_Ok%negb_false_iff%Z.eqb_eq & _). exists q1, e, q2. subst id amt.
  destruct (settle_eq i caller q1 q2 e Hau Hq) as (E & Hch & Hle). rewrite E in Hr. injection Hr as <- <-. split_and!; auto; lia.
Qed.

Lemma sync_changes (i : call_env) (s' : AnchorCollateralKey) (y : AnchorCollateralStatus) :
  sync_anchor_ratio i s a c = Ok (s', y) ->
  changes s s' a c (evaluated i min x) queue next.
Proof.
  intros Hr. destruct pair_facts as (_ & _ & Hv & Hc & _). unfold sync_anchor_ratio in Hr. fold x in Hr.
  destruct (finish i s queue next (collateral_locked x) (volume_unsettled x) changes_refl ltac:(lia) ltac:(lia)) as [E Hch].
  assert (with_balances x (collateral_locked x) (volume_unsettled x) = x) as Ex by (by destruct x).
  rewrite Ex in E, Hch. rewrite E, bind_ret in Hr. apply bind_Ok in Hr as (y' & _ & Hr). by injection Hr as <- <-.
Qed.

(** What a call does to the balances, the queue and the identifiers of its pair. *)
Definition pair_effect (i : call_env) (call : anchor_call) (collateral volume : Z) (q : list FiatPayoutEntry) (n : Z) : Prop :=
  match call with
  | ASetMin _ _ _ _ => False
  | ADeposit _ _ _ amt => collateral = collateral_locked x + amt /\ volume = volume_unsettled x /\ q = queue /\ n = next
  | AWithdraw _ _ _ amt =>
      assignments_paused x = false /\ collateral = collateral_locked x - amt /\ volume = volume_unsettled x /\
      q = queue /\ n = next /\ 0 <= collateral /\ sufficient collateral volume min = true
  | AAssign _ _ _ amt =>
      assignments_paused x = false /\ collateral = collateral_locked x /\ volume = volume_unsettled x + amt /\ 0 < amt /\
      q = queue ++ [{| pay_id := next + 1; amount := amt; opened_at := timestamp i |}] /\ n = next + 1 /\
      sufficient collateral volume min = true
  | ASettle _ _ _ id amt =>
      collateral = collateral_locked x - amt /\ volume = volume_unsettled x - amt /\ n = next /\ 0 < amt <= volume_unsettled x /\
      exists q1 e q2, queue = q1 ++ e :: q2 /\ q = q1 ++ q2 /\ pay_id e = id /\ amount e = amt
  | ASync _ _ => collateral = collateral_locked x /\ volume = volume_unsettled x /\ q = queue /\ n = next
  end.

Lemma pair_step (i : call_env) (call : anchor_call) (s' : AnchorCollateralKey) :
  anchor_typed call = true -> touched call = Some (a, c) -> run_anchor i s call = Ok s' ->
  exists collateral volume q n, pair_effect i call collateral volume q n /\
    changes s s' a c (evaluated i min (with_balances x collateral volume)) q n /\ collateral <= imax U128.
Proof.
  intros Hty Ht Hr. destruct pair_facts as (_ & _ & Hv & Hc & _).
  assert (with_balances x (collateral_locked x) (volume_unsettled x) = x) as Ex by (by destruct x).
  destruct call as [| ? ? ? amt | ? ? ? amt | ? ? ? amt | ? ? ? id amt |]; cbn [touched run_anchor anchor_typed] in *; [done|..];
    injection Ht as -> ->; apply bind_Ok in Hr as ([s1 y] & Hr & Hs); injection Hs as <-;
    try apply fits_spec in Hty; cbn [imin] in Hty.
  - apply deposit_changes in Hr as (Hch & Hl & ->); [|lia]. eexists _, _, _, _. split; [cbn; eauto|]. by split; [exact Hch|].
  - apply withdraw_changes in Hr as (Hch & Hp & Hl & Hs & ->); [|lia]. eexists _, _, _, _.
    split; [|split; [exact Hch|lia]]. cbn. split_and!; auto; lia.
  - apply assign_changes in Hr as (x' & Hch & Hp & Hl & -> & Hs & ->); [|lia]. eexists _, _, _, _.
    split; [|split; [exact Hch|lia]]. cbn. split_and!; auto; lia.
  - apply settle_changes in Hr as (q1 & e & q2 & Hq & Hid & Ham & Hch & Hl & ->). eexists _, _, _, _.
    split; [|split; [exact Hch|lia]]. cbn. split_and!; [done|done|done|lia|lia|]. by exists q1, e, q2.
  - apply sync_changes in Hr. eexists _, _, _, _. split; [cbn; eauto|]. split; [rewrite Ex; exact Hr|done].
Qed.

Lemma effect_ok (i : call_env) (call : anchor_call) (collateral volume n : Z) (q : list FiatPayoutEntry) :
  anchor_typed call = true -> pair_effect i call collateral volume q n -> collateral <= imax U128 ->
  pair_ok (evaluated i min (with_balances x collateral volume)) q n.
Proof.
  intros Hty He Hmax. destruct pair_facts as (_ & _ & Hv & Hc & Hm). destruct (ak_pair s Hok a c) as [P1 P2 P3 P4 P5].
  fold x queue next in P1, P2, P3, P4, P5.
  destruct call as [| ? ? ? amt | ? ? ? amt | ? ? ? amt | ? ? ? id amt |]; cbn [pair_effect anchor_typed] in *; [done|..];
    try apply fits_spec in Hty; cbn [imin] in Hty.
  - destruct He as (-> & -> & -> & ->). constructor; cbn [volume_unsettled collateral_locked evaluated with_balances]; auto; lia.
  - destruct He as (_ & -> & -> & -> & -> & Hn & Hs).
    assert (volume_unsettled x <= collateral_locked x - amt) by (apply sufficient_covered with min; [apply Hm|lia|lia|done]).
    constructor; cbn [volume_unsettled collateral_locked evaluated with_balances]; auto; lia.
  - destruct He as (_ & -> & -> & Ha & -> & -> & Hs).
    assert (volume_unsettled x + amt <= collateral_locked x) by (apply sufficient_covered with min; [apply Hm|lia|lia|done]).
    constructor; cbn [volume_unsettled collateral_locked evaluated with_balances].
    + rewrite fmap_app, zsum_app, <- P1. cbn. lia.
    + lia.
    + rewrite fmap_app. cbn. apply sorted_snoc; [done|]. intros z (e & -> & Hin)%list_elem_of_fmap.
      rewrite Forall_forall in P4. specialize (P4 e Hin). lia.
    + apply Forall_app. split; [eapply Forall_impl; [exact P4|cbn; lia]|]. by constructor; [cbn; lia|].
    + apply Forall_app. split; [done|]. by constructor; [cbn; lia|].
  - destruct He as (-> & -> & -> & Ha & q1 & e & q2 & Hq & -> & <- & <-). rewrite Hq in P1, P3, P4, P5.
    rewrite fmap_app, fmap_cons, zsum_app in P1. cbn [zsum foldr] in P1. fold (zsum (amount <$> q2)) in P1.
    constructor; cbn [volume_unsettled collateral_locked evaluated with_balances].
    + rewrite fmap_app, zsum_app. lia.
    + lia.
    + rewrite fmap_app. rewrite fmap_app, fmap_cons in P3. by apply sorted_drop in P3.
    + apply Forall_app in P4 as [P4 [_ P4']%Forall_cons]. by apply Forall_app.
    + apply Forall_app in P5 as [P5 [_ P5']%Forall_cons]. by apply Forall_app.
  - destruct He as (-> & -> & -> & ->). constructor; cbn [volume_unsettled collateral_locked evaluated with_balances]; auto; lia.
Qed.
End pair.

(** ** Histories *)
Lemma set_min_Ok (i : call_env) (s s' : AnchorCollateralKey) (k : keyring) (admin : Address) (c min : Z) :
  run_anchor i s (ASetMin k admin c min) = Ok s' ->
  BPS_DENOMINATOR <= min <= MAX_ALLOWED_COLLATERAL_RATIO_BPS /\
  (State s' = State s /\ PayoutQueue s' = PayoutQueue s /\ NextPayoutId s' = NextPayoutId s) /\
  CorridorMinRatio s' = <[c := min]> (CorridorMinRatio s).
Proof.
  intros Hr. apply bind_Ok in Hr as ([s1 y] & Hr & Hs). injection Hs as <-. unfold set_min_collateral_ratio_bps in Hr.
  apply bind_Ok in Hr as (? & _ & Hr).
  apply bind_Ok in Hr as ([] & Hm%fail_if_Ok%negb_false_iff%andb_true_iff & Hr). injection Hr as <- _.
  destruct Hm as [H1%Z.leb_le H2%Z.leb_le]. done.
Qed.

Lemma anchor_history_ok (s : AnchorCollateralKey) : anchor_history s -> anchors_ok s.
Proof.
  induction 1 as [|s i x s' _ Hok Hty Hr].
  - constructor; [done| |done]. intros a c. constructor; cbn; try done; constructor.
  - destruct (touched x) as [[a c]|] eqn:Ht.
    + destruct (pair_step s Hok a c i x s' Hty Ht Hr) as (C & V & q & n & He & Hch & Hmax).
      apply (changes_ok _ _ _ _ _ _ _ Hok Hch); [apply (ak_key s Hok)..|]. by eapply effect_ok.
    + destruct x as [k admin c min| | | | |]; [|done..]. apply set_min_Ok in Hr as (Hm & (Es & Eq & En) & Ec). constructor.
      * intros a c'. unfold get_anchor_state. rewrite Es. apply (ak_key s Hok).
      * intros a c'. unfold get_anchor_state, read_payout_queue, next_payout_id. rewrite Es, Eq, En. apply (ak_pair s Hok).
      * intros c'. unfold corridor_min_ratio_bps. rewrite Ec. destruct (decide (c' = c)) as [->|Hne].
        -- by rewrite lookup_insert_eq.
        -- rewrite lookup_insert_ne by done. apply (ak_min s Hok).
Qed.

Lemma queued_volume_sum (q : list FiatPayoutEntry) (start : Z) :
  0 <= start -> Forall (fun e => 0 < amount e) q -> start + zsum (amount <$> q) <= imax U128 ->
  foldl (fun total entry => saturating_add U128 total (amount entry)) start q = start + zsum (amount <$> q).
Proof.
  revert start. induction q as [|e q IH]; intros start Hs Hq Hm; cbn [foldl fmap list_fmap zsum foldr]; [lia|].
  apply Forall_cons in Hq as [He Hq]. cbn [fmap list_fmap zsum foldr] in Hm. fold (zsum (amount <$> q)) in *.
  assert (0 <= zsum (amount <$> q)).
  { clear -Hq. induction Hq as [|? ? ? ? IH]; cbn; [done|]. unfold zsum in IH. lia. }
  unfold saturating_add. rewrite clamp_in by (cbn [imin]; lia). rewrite IH; [lia|lia|done|lia].
Qed.

(** C12: The books of every anchor agree, and its collateral always covers its queue. Over
    any history, for every pair of anchor and corridor: the recorded volume is the sum
    of the queued payouts, which is also what the independent recomputation
    [queued_volume] returns; the collateral is at least the volume, whatever minimum
    ratio was set meanwhile; the identifiers in the queue increase, up to the last one
    given out; and the minimum ratio in force is between 100% and 1000%. *)
Theorem anchor_queue_backed (s : AnchorCollateralKey) (a : Address) (c : Z) :
  anchor_history s ->
  unsettled_volume s a c = zsum (amount <$> read_payout_queue s a c) /\
  queued_volume s a c = unsettled_volume s a c /\
  0 <= unsettled_volume s a c <= locked_collateral s a c /\
  StronglySorted Z.lt (pay_id <$> read_payout_queue s a c) /\
  Forall (fun e => pay_id e <= next_payout_id s a c /\ 0 < amount e) (read_payout_queue s a c) /\
  MIN_ALLOWED_COLLATERAL_RATIO_BPS <= corridor_min_ratio_bps s c <= MAX_ALLOWED_COLLATERAL_RATIO_BPS.
Proof.
  intros Hok%anchor_history_ok. destruct (ak_pair s Hok a c) as [P1 P2 P3 P4 P5]. split; [exact P1|]. split.
  - unfold queued_volume, unsettled_volume. rewrite queued_volume_sum, P1; [lia|lia|done|lia].
  - split; [tauto|]. split; [done|]. split; [|apply (ak_min s Hok)]. by apply Forall_and.
Qed.

(** The pause flag follows the ratio. A successful call on a reachable store leaves the
    pair it concerns with the flag that the exact ratio and the minimum in force then
    require, and every other pair as it was; setting a minimum moves no flag. An
    assignment or a withdrawal only succeeds on a pair that is not paused and never
    pauses it; a deposit or a settlement never pauses a pair that was sufficiently
    backed. *)
Theorem pause_follows_ratio (s s' : AnchorCollateralKey) (i : call_env) (call : anchor_call) :
  anchor_history s -> anchor_typed call = true -> run_anchor i s call = Ok s' ->
  let healthy t a c := sufficient (locked_collateral t a c) (unsettled_volume t a c) (corridor_min_ratio_bps t c) in
  (forall a c, touched call = Some (a, c) -> is_anchor_paused s' a c = negb (healthy s' a c)) /\
  (forall a c, touched call <> Some (a, c) -> get_anchor_state s' a c = get_anchor_state s a c /\
     read_payout_queue s' a c = read_payout_queue s a c) /\
  match call with
  | AWithdraw _ a c _ | AAssign _ a c _ => is_anchor_paused s a c = false /\ is_anchor_paused s' a c = false
  | ADeposit _ a c _ | ASettle _ a c _ _ => healthy s a c = true -> is_anchor_paused s' a c = false
  | _ => True
  end.
Proof.
  intros Hok%anchor_history_ok Hty Hr healthy. destruct (touched call) as [[a c]|] eqn:Ht.
  - destruct (pair_step s Hok a c i call s' Hty Ht Hr) as (C & V & q & n & He & Hch & Hmax).
    assert (corridor_min_ratio_bps s' c = corridor_min_ratio_bps s c) as Em
      by (unfold corridor_min_ratio_bps; by rewrite (ch_min _ _ _ _ _ _ _ Hch)).
    assert (is_anchor_paused s' a c = negb (sufficient C V (corridor_min_ratio_bps s c))) as Ep
      by (unfold is_anchor_paused; by rewrite (ch_state _ _ _ _ _ _ _ Hch)).
    split; [|split].
    + intros a' c' [= <- <-]. rewrite Ep. unfold healthy, locked_collateral, unsettled_volume.
      by rewrite (ch_state _ _ _ _ _ _ _ Hch), Em.
    + intros a' c' Hne. destruct (ch_rest _ _ _ _ _ _ _ Hch a' c') as (E1 & E2 & _); [congruence|done].
    + pose proof (pair_facts s Hok a c) as (_ & _ & _ & _ & Hm).
      destruct call; cbn [touched pair_effect anchor_typed] in *; try injection Ht as -> ->; try done.
      * destruct He as (-> & -> & _). intros Hh. rewrite Ep, sufficient_deposit; [done| |exact Hh].
        apply fits_spec in Hty. cbn [imin] in Hty. lia.
      * destruct He as (Hp & _ & _ & _ & _ & _ & Hs). by rewrite Ep, Hs.
      * destruct He as (Hp & _ & _ & _ & _ & _ & Hs). by rewrite Ep, Hs.
      * destruct He as (-> & -> & _ & Ha & _). intros Hh.
        rewrite Ep, sufficient_settle; [done|apply Hm|lia|exact Hh].
  - destruct call as [k admin c min| | | | |]; [|done..]. apply set_min_Ok in Hr as (_ & (Es & Eq & _) & _).
    split; [done|]. split; [|done]. intros a' c' _. unfold get_anchor_state, read_payout_queue. by rewrite Es, Eq.
Qed.

(** Every queued payout can be settled, and nobody is asked who they are. On a reachable
    store, whatever the ratio and the flag, any address that authorises its own call
    settles any queued payout by naming its exact amount: it leaves the queue, and
    collateral and volume fall by it. On a pair that is not paused any such address also
    withdraws any part of the collateral that leaves the queue backed at the minimum:
    neither call compares the caller with the anchor. *)
Theorem anchor_open_to_all (s : AnchorCollateralKey) (i : call_env) (caller a : Address) (c : Z) :
  anchor_history s -> auth i caller = true ->
  (forall q1 e q2, read_payout_queue s a c = q1 ++ e :: q2 ->
     exists s' x', settle_fiat_payout i s caller a c (pay_id e) (amount e) = Ok (s', x') /\
       read_payout_queue s' a c = q1 ++ q2 /\
       locked_collateral s' a c = locked_collateral s a c - amount e /\
       unsettled_volume s' a c = unsettled_volume s a c - amount e) /\
  (forall amt, is_anchor_paused s a c = false -> 0 < amt <= locked_collateral s a c ->
     sufficient (locked_collateral s a c - amt) (unsettled_volume s a c) (corridor_min_ratio_bps s c) = true ->
     exists s' x', withdraw_collateral i s caller a c amt = Ok (s', x') /\
       locked_collateral s' a c = locked_collateral s a c - amt /\
       unsettled_volume s' a c = unsettled_volume s a c).
Proof.
  intros Hok%anchor_history_ok Hau. split.
  - intros q1 e q2 Hq. destruct (settle_eq s Hok a c i caller q1 q2 e Hau Hq) as (E & Hch & _). eexists _, _.
    split; [exact E|]. split; [apply (ch_queue _ _ _ _ _ _ _ Hch)|].
    unfold locked_collateral, unsettled_volume. by rewrite (ch_state _ _ _ _ _ _ _ Hch).
  - intros amt Hp Ha Hs. pose proof (withdraw_eq s Hok a c i caller amt Hau ltac:(lia) Hp ltac:(apply Ha)) as E.
    cbv zeta in E. unfold locked_collateral, unsettled_volume in Hs. rewrite Hs in E.
    destruct (withdraw_collateral i s caller a c amt) as [[s' x']| |] eqn:Ew; [clear E|done..]. exists s', x'. split; [done|].
    apply withdraw_changes in Ew as (Hch & _ & _ & _ & ->); [|done|lia].
    unfold locked_collateral, unsettled_volume. by rewrite (ch_state _ _ _ _ _ _ _ Hch).
Qed.
End claims.

(** ** A concrete store: anchor 3 holds 1300 for two payouts of 400 and 600 in corridor
    7, then the minimum is raised to 200% and the pair is paused. *)
Section witnesses.
#[local] Existing Instance test_host.

Definition anchor_at (who now : Z) : call_env := @Build_call_env test_host (fun a => Z.eqb a who) now.

Definition anchor_keys : keyring := set_data empty_keyring {| admin := 2; value := 0; max_fee_ceiling := 0 |}.

Fixpoint run_anchors (s : AnchorCollateralKey) (cs : list (Z * Z * anchor_call)) : R AnchorCollateralKey :=
  match cs with
  | [] => mret s
  | (who, now, x) :: cs => s' ← run_anchor (anchor_at who now) s x; run_anchors s' cs
  end.

Lemma run_anchors_history (cs : list (Z * Z * anchor_call)) (s s' : AnchorCollateralKey) :
  anchor_history s -> forallb (fun c => anchor_typed c.2) cs = true -> run_anchors s cs = Ok s' -> anchor_history s'.
Proof.
  revert s. induction cs as [|[[who now] x] cs IH]; intros s Hs Hc Hr; [by injection Hr as <-|].
  cbn [forallb run_anchors] in *. apply andb_true_iff in Hc as [Hx Hc]. apply bind_Ok in Hr as (s1 & Hs1 & Hr).
  apply IH with s1; [|done|done]. by apply anchor_next with s (anchor_at who now) x.
Qed.

Definition anchor_calls : list (Z * Z * anchor_call) :=
  [(3, 10, ADeposit 3 3 7 1300); (5, 20, AAssign 5 3 7 400); (5, 30, AAssign 5 3 7 600);
   (2, 40, ASetMin anchor_keys 2 7 20000); (9, 50, ASync 3 7)].

Definition anchor_store : AnchorCollateralKey :=
  match run_anchors empty_anchors anchor_calls with Ok s => s | _ => empty_anchors end.

Lemma anchor_store_history : anchor_history anchor_store.
Proof.
  apply (run_anchors_history anchor_calls empty_anchors); [constructor|vm_compute; reflexivity|].
  unfold anchor_store. destruct (is_ok_Ok (run_anchors empty_anchors anchor_calls)) as [s ->]; [vm_compute; reflexivity|done].
Qed.

Lemma anchor_queue_backed_witness :
  unsettled_volume anchor_store 3 7 = 1000 /\ locked_collateral anchor_store 3 7 = 1300 /\
  queued_volume anchor_store 3 7 = unsettled_volume anchor_store 3 7.
Proof.
  split; [vm_compute; reflexivity|]. split; [vm_compute; reflexivity|].
  exact (proj1 (proj2 (anchor_queue_backed (H := test_host) anchor_store 3 7 anchor_store_history))).
Defined.

(** Settling the second payout, then the first, lifts the pause. *)
Definition anchor_after (s : AnchorCollateralKey) (x : anchor_call) : AnchorCollateralKey :=
  match run_anchor (anchor_at 9 60) s x with Ok s' => s' | _ => s end.

Definition settle_second : anchor_call := ASettle 9 3 7 2 600.

Lemma pause_follows_ratio_witness :
  is_anchor_paused anchor_store 3 7 = true /\
  is_anchor_paused (anchor_after anchor_store settle_second) 3 7 =
    negb (sufficient (locked_collateral (anchor_after anchor_store settle_second) 3 7) 400 20000) /\
  is_anchor_paused (anchor_after (anchor_after anchor_store settle_second) (ASettle 9 3 7 1 400)) 3 7 = false.
Proof.
  assert (run_anchor (anchor_at 9 60) anchor_store settle_second = Ok (anchor_after anchor_store settle_second)) as Hr.
  { unfold anchor_after. destruct (is_ok_Ok (run_anchor (anchor_at 9 60) anchor_store settle_second)) as [s ->];
      [vm_compute; reflexivity|done]. }
  split; [vm_compute; reflexivity|]. split; [|vm_compute; reflexivity].
  rewrite (proj1 (pause_follows_ratio (H := test_host) _ _ _ _ anchor_store_history (eq_refl : anchor_typed settle_second = true) Hr)
    3 7 eq_refl).
  vm_compute. reflexivity.
Defined.

Definition queue_at (n : nat) : FiatPayoutEntry :=
  nth n (read_payout_queue anchor_store 3 7) {| pay_id := 0; amount := 0; opened_at := 0 |}.

Lemma anchor_queue_split : read_payout_queue anchor_store 3 7 = [queue_at 0] ++ queue_at 1 :: [].
Proof. vm_compute. reflexivity. Qed.

Lemma anchor_open_to_all_witness :
  exists s' x', settle_fiat_payout (anchor_at 9 60) anchor_store 9 3 7 (pay_id (queue_at 1)) (amount (queue_at 1)) = Ok (s', x') /\
    locked_collateral s' 3 7 = locked_collateral anchor_store 3 7 - amount (queue_at 1).
Proof.
  destruct (proj1 (anchor_open_to_all (H := test_host) anchor_store (anchor_at 9 60) 9 3 7 anchor_store_history eq_refl)
    _ _ _ anchor_queue_split) as (s' & x' & E & _ & El & _).
  exists s', x'. split; [exact E|exact El].
Defined.
End witnesses.
