(* ===== verification/KeyRecovery.v ===== *)
(** * Key recovery contract

    [src/contracts/key-recovery/src/lib.rs]: anybody files a proposal for a new admin
    key; after seven days anybody finalises it, unless a guardian cancelled it.
    Events are left out.

    Histories with their log: the admin is replaced only by a proposal that stood a
    full week; who can stop or finish one, and when; and when the guardians run out. *)

From stdpp Require Import base numbers list.
From Stdlib Require Import ZArith Lia.
From S2P Require Import Prelude Host.

Open Scope Z_scope.

Definition RECOVERY_DELAY_SECONDS : Z := 7 * 24 * 60 * 60.

Inductive RecoveryError :=
  | AlreadyInitialized | NotInitialized | NotAdmin | NotGuardian | RecoveryAlreadyPending | NoActiveProposal
  | DelayNotElapsed | EmptyGuardianSet | AlreadyGuardian | UnknownGuardian | UnchangedKey.

Definition error_code (e : RecoveryError) : Z :=
  match e with
  | AlreadyInitialized => 1 | NotInitialized => 2 | NotAdmin => 3 | NotGuardian => 4 | RecoveryAlreadyPending => 5
  | NoActiveProposal => 6 | DelayNotElapsed => 7 | EmptyGuardianSet => 8 | AlreadyGuardian => 9
  | UnknownGuardian => 10 | UnchangedKey => 11
  end.

Abbreviation V := (result RecoveryError).

Section recovery.
Context {H : Host}.

Record RecoveryProposal := {
  current_admin : Address;
  proposed_admin : Address;
  requested_by : Address;
  requested_at : Z;
  executable_at : Z
}.

(** The instance storage: one field per key. *)
Record DataKey := {
  Admin : option Address;
  Guardians : option (list Address);
  Proposal : option RecoveryProposal
}.

Definition empty_storage : DataKey := {| Admin := None; Guardians := None; Proposal := None |}.

(** The invocation: who authorised it, and the ledger's timestamp. *)
Record env := { auth : Address -> bool; timestamp : Z }.

Definition set_proposal (s : DataKey) (p : option RecoveryProposal) : DataKey :=
  {| Admin := Admin s; Guardians := Guardians s; Proposal := p |}.

Definition set_guardians (s : DataKey) (guardians : list Address) : DataKey :=
  {| Admin := Admin s; Guardians := Some guardians; Proposal := Proposal s |}.

Definition load_admin (s : DataKey) : V Address := ok_or (Admin s) NotInitialized.

Definition require_admin (i : env) (s : DataKey) (caller : Address) : V unit :=
  admin ← load_admin s;
  _ ← fail_if (bool_decide (caller <> admin)) NotAdmin;
  require_auth (auth i) caller.

Definition load_guardians (s : DataKey) : list Address := default [] (Guardians s).

Definition is_guardian (s : DataKey) (who : Address) : bool := bool_decide (who ∈ load_guardians s).

Definition initialize (i : env) (s : DataKey) (admin : Address) (guardians : list Address) : V DataKey :=
  _ ← fail_if (bool_decide (is_Some (Admin s))) AlreadyInitialized;
  _ ← fail_if (bool_decide (guardians = [])) EmptyGuardianSet;
  _ ← require_auth (auth i) admin;
  mret {| Admin := Some admin; Guardians := Some guardians; Proposal := Proposal s |}.

Definition request_recovery (i : env) (s : DataKey) (requester proposed : Address) : V (DataKey * Z) :=
  admin ← load_admin s;
  _ ← require_auth (auth i) requester;
  _ ← fail_if (bool_decide (is_Some (Proposal s))) RecoveryAlreadyPending;
  _ ← fail_if (bool_decide (proposed = admin)) UnchangedKey;
  let now := timestamp i in
  at_ ← ok_or (checked_add U64 now RECOVERY_DELAY_SECONDS) DelayNotElapsed;
  mret (set_proposal s (Some {| current_admin := admin; proposed_admin := proposed; requested_by := requester;
                                requested_at := now; executable_at := at_ |}), at_).

Definition cancel_recovery (i : env) (s : DataKey) (guardian : Address) : V DataKey :=
  _ ← load_admin s;
  _ ← fail_if (negb (is_guardian s guardian)) NotGuardian;
  _ ← require_auth (auth i) guardian;
  _ ← ok_or (Proposal s) NoActiveProposal;
  mret (set_proposal s None).

Definition finalize_recovery (i : env) (s : DataKey) : V (DataKey * Address) :=
  p ← ok_or (Proposal s) NoActiveProposal;
  _ ← fail_if (timestamp i <? executable_at p) DelayNotElapsed;
  mret ({| Admin := Some (proposed_admin p); Guardians := Guardians s; Proposal := None |}, proposed_admin p).

Definition add_guardian (i : env) (s : DataKey) (caller guardian : Address) : V DataKey :=
  _ ← require_admin i s caller;
  let guardians := load_guardians s in
  _ ← fail_if (bool_decide (guardian ∈ guardians)) AlreadyGuardian;
  guardians' ← vpush guardians guardian;
  mret (set_guardians s guardians').

Definition remove_guardian (i : env) (s : DataKey) (caller guardian : Address) : V DataKey :=
  _ ← require_admin i s caller;
  let guardians := load_guardians s in
  _ ← fail_if (negb (bool_decide (guardian ∈ guardians))) UnknownGuardian;
  _ ← fail_if (len guardians =? 1) EmptyGuardianSet;
  mret (set_guardians s (filter (fun g => g <> guardian) guardians)).

Definition get_admin (s : DataKey) : V Address := load_admin s.

Definition get_guardians (s : DataKey) : list Address := load_guardians s.

Definition get_proposal (s : DataKey) : option RecoveryProposal := Proposal s.

Definition dispute_remaining (i : env) (s : DataKey) : Z :=
  match Proposal s with
  | Some p => saturating_sub U64 RECOVERY_DELAY_SECONDS (saturating_sub U64 (timestamp i) (requested_at p))
  | None => 0
  end.
End recovery.

(** ** Key recovery contract: the properties *)

Section claims.
Context {H : Host}.

Inductive recovery_call :=
  | KInitialize (admin : Address) (guardians : list Address)
  | KRequest (requester proposed : Address)
  | KCancel (guardian : Address)
  | KFinalize
  | KAdd (caller guardian : Address)
  | KRemove (caller guardian : Address).

Definition run_recovery (i : env) (s : DataKey) (x : recovery_call) : V DataKey :=
  match x with
  | KInitialize admin guardians => initialize i s admin guardians
  | KRequest requester proposed => r ← request_recovery i s requester proposed; mret r.1
  | KCancel guardian => cancel_recovery i s guardian
  | KFinalize => r ← finalize_recovery i s; mret r.1
  | KAdd caller guardian => add_guardian i s caller guardian
  | KRemove caller guardian => remove_guardian i s caller guardian
  end.

(** Histories, with the successful calls and their times, the latest first. *)
Inductive recovery_history : DataKey -> list (Z * recovery_call) -> Prop :=
  | recovery_start : recovery_history empty_storage []
  | recovery_next s log i x s' :
      recovery_history s log -> Forall (fun e => e.1 <= timestamp i) log -> run_recovery i s x = Ok s' ->
      recovery_history s' ((timestamp i, x) :: log).

(** The calls that change the guardians only. *)
Definition guardian_change (x : recovery_call) : bool :=
  match x with KAdd _ _ | KRemove _ _ => true | _ => false end.

(** ** What each call does to the storage *)
Definition call_effect (i : env) (s s' : DataKey) (x : recovery_call) : Prop :=
  match x with
  | KInitialize admin guardians =>
      Admin s = None /\ guardians <> [] /\ s' = {| Admin := Some admin; Guardians := Some guardians; Proposal := Proposal s |}
  | KRequest requester proposed => exists admin,
      Admin s = Some admin /\ Proposal s = None /\ proposed <> admin /\
      s' = set_proposal s (Some {| current_admin := admin; proposed_admin := proposed; requested_by := requester;
                                   requested_at := timestamp i; executable_at := timestamp i + RECOVERY_DELAY_SECONDS |})
  | KCancel guardian => guardian ∈ get_guardians s /\ is_Some (Admin s) /\ s' = set_proposal s None
  | KFinalize => exists p, Proposal s = Some p /\ executable_at p <= timestamp i /\
      s' = {| Admin := Some (proposed_admin p); Guardians := Guardians s; Proposal := None |}
  | KAdd caller guardian =>
      Admin s = Some caller /\ (guardian ∉ get_guardians s) /\ s' = set_guardians s (get_guardians s ++ [guardian])
  | KRemove caller guardian =>
      Admin s = Some caller /\ guardian ∈ get_guardians s /\ len (get_guardians s) <> 1 /\
      s' = set_guardians s (filter (fun g => g <> guardian) (get_guardians s))
  end.

Lemma recovery_admin_Ok (i : env) (s : DataKey) (caller : Address) (u : unit) :
  require_admin i s caller = Ok u -> Admin s = Some caller /\ auth i caller = true.
Proof.
  intros Hr. apply bind_Ok in Hr as (a & Ha%ok_or_Ok & Hr).
  apply bind_Ok in Hr as ([] & ->%fail_if_Ok%bool_decide_eq_false%dec_stable & Hr%require_auth_Ok). done.
Qed.

Lemma run_effect (i : env) (s s' : DataKey) (x : recovery_call) :
  run_recovery i s x = Ok s' -> call_effect i s s' x.
Proof.
  intros Hr. destruct x as [admin guardians|requester proposed|guardian| |caller guardian|caller guardian];
    cbn [run_recovery call_effect] in *.
  - apply bind_Ok in Hr as ([] & Ha%fail_if_Ok%bool_decide_eq_false & Hr).
    apply bind_Ok in Hr as ([] & Hg%fail_if_Ok%bool_decide_eq_false & Hr). apply bind_Ok in Hr as (? & _ & Hr).
    injection Hr as <-. by apply eq_None_not_Some in Ha.
  - apply bind_Ok in Hr as ([s1 t] & Hr & Hs). injection Hs as <-. apply bind_Ok in Hr as (admin & Ha%ok_or_Ok & Hr).
    apply bind_Ok in Hr as (? & _ & Hr). apply bind_Ok in Hr as ([] & Hp%fail_if_Ok%bool_decide_eq_false & Hr).
    apply bind_Ok in Hr as ([] & Hne%fail_if_Ok%bool_decide_eq_false & Hr).
    apply bind_Ok in Hr as (z & [-> _]%ok_or_Ok%chk_Some & Hr). injection Hr as <- _. exists admin.
    by apply eq_None_not_Some in Hp.
  - apply bind_Ok in Hr as (admin & Ha%ok_or_Ok & Hr).
    apply bind_Ok in Hr as ([] & Hg%fail_if_Ok%negb_false_iff%bool_decide_eq_true & Hr).
    apply bind_Ok in Hr as (? & _ & Hr). apply bind_Ok in Hr as (? & _ & Hr). injection Hr as <-. rewrite Ha. by eauto.
  - apply bind_Ok in Hr as ([s1 t] & Hr & Hs). injection Hs as <-. apply bind_Ok in Hr as (p & Hp%ok_or_Ok & Hr).
    apply bind_Ok in Hr as ([] & Ht%fail_if_Ok%Z.ltb_ge & Hr). injection Hr as <- _. by exists p.
  - apply bind_Ok in Hr as ([] & [Ha _]%recovery_admin_Ok & Hr).
    apply bind_Ok in Hr as ([] & Hg%fail_if_Ok%bool_decide_eq_false & Hr).
    apply bind_Ok in Hr as (l & [_ ->]%vpush_Ok & Hr). by injection Hr as <-.
  - apply bind_Ok in Hr as ([] & [Ha _]%recovery_admin_Ok & Hr).
    apply bind_Ok in Hr as ([] & Hg%fail_if_Ok%negb_false_iff%bool_decide_eq_true & Hr).
    apply bind_Ok in Hr as ([] & Hl%fail_if_Ok%Z.eqb_neq & Hr). by injection Hr as <-.
Qed.

(** A pending proposal: filed by the request in the log, with only guardian changes
    since, for the admin that is still in place. *)
Definition pending_ok (s : DataKey) (log : list (Z * recovery_call)) : Prop :=
  forall p, Proposal s = Some p ->
    Admin s = Some (current_admin p) /\ proposed_admin p <> current_admin p /\
    executable_at p = requested_at p + RECOVERY_DELAY_SECONDS /\
    exists since before,
      log = since ++ (requested_at p, KRequest (requested_by p) (proposed_admin p)) :: before /\
      Forall (fun e => guardian_change e.2 = true /\ requested_at p <= e.1) since.

Lemma recovery_history_ok (s : DataKey) (log : list (Z * recovery_call)) :
  recovery_history s log -> pending_ok s log /\ (Admin s = None -> Proposal s = None).
Proof.
  induction 1 as [|s log i x s' _ [IH IHn] Ht Hr]; [done|]. apply run_effect in Hr.
  destruct x as [admin guardians|requester proposed|guardian| |caller guardian|caller guardian]; cbn [call_effect] in Hr.
  - destruct Hr as (Ha & _ & ->). split; [|done]. intros p Hp. cbn in Hp. by rewrite IHn in Hp.
  - destruct Hr as (admin & Ha & _ & Hne & ->). split; [|cbn; congruence]. intros p [= <-]. cbn. split; [done|].
    split; [done|]. split; [done|]. by exists [], log.
  - destruct Hr as (_ & _ & ->). split; [by intros p|done].
  - destruct Hr as (p & _ & _ & ->). split; [by intros q|done].
  - destruct Hr as (Ha & _ & ->). split; [|cbn; congruence]. intros p Hp. destruct (IH p Hp) as (E1 & E2 & E3 & since & before & -> & Hs).
    split_and!; [done..|]. exists ((timestamp i, KAdd caller guardian) :: since), before. split; [done|].
    constructor; [|done]. split; [done|]. apply Forall_app in Ht as [_ [Ht _]%Forall_cons]. exact Ht.
  - destruct Hr as (Ha & _ & _ & ->). split; [|cbn; congruence]. intros p Hp. destruct (IH p Hp) as (E1 & E2 & E3 & since & before & -> & Hs).
    split_and!; [done..|]. exists ((timestamp i, KRemove caller guardian) :: since), before. split; [done|].
    constructor; [|done]. split; [done|]. apply Forall_app in Ht as [_ [Ht _]%Forall_cons]. exact Ht.
Qed.

(** The admin key is replaced only by a proposal that stood for a full week. In every
    history a call that changes the admin is either the initialisation, or a
    finalisation of a proposal whose request is in the log at least seven days earlier
    and since which nothing happened but changes of the guardians; it installs
    exactly the key that request named, different from the key it replaces. *)
Theorem admin_recovery_justified (s s' : DataKey) (log : list (Z * recovery_call)) (i : env) (x : recovery_call) :
  recovery_history s log -> Forall (fun e => e.1 <= timestamp i) log -> run_recovery i s x = Ok s' ->
  Admin s' <> Admin s ->
  (Admin s = None /\ exists admin guardians, x = KInitialize admin guardians /\ Admin s' = Some admin /\ guardians <> []) \/
  exists p since before,
    x = KFinalize /\ get_proposal s = Some p /\ Admin s = Some (current_admin p) /\ Admin s' = Some (proposed_admin p) /\
    proposed_admin p <> current_admin p /\ requested_at p + RECOVERY_DELAY_SECONDS <= timestamp i /\
    log = since ++ (requested_at p, KRequest (requested_by p) (proposed_admin p)) :: before /\
    Forall (fun e => guardian_change e.2 = true /\ requested_at p <= e.1) since /\ get_proposal s' = None.
Proof.
  intros [Hp _]%recovery_history_ok _ Hr Hne. apply run_effect in Hr.
  destruct x as [admin guardians|requester proposed|guardian| |caller guardian|caller guardian]; cbn [call_effect] in Hr.
  - left. destruct Hr as (Ha & Hg & ->). split; [done|]. by exists admin, guardians.
  - destruct Hr as (? & _ & _ & _ & ->). done.
  - destruct Hr as (_ & _ & ->). done.
  - right. destruct Hr as (p & Hs & Ht & ->). destruct (Hp p Hs) as (E1 & E2 & E3 & since & before & -> & Hl).
    exists p, since, before. split_and!; try done. lia.
  - destruct Hr as (_ & _ & ->). done.
  - destruct Hr as (_ & _ & _ & ->). done.
Qed.

(** Until it is finalised a proposal is in the hands of any one guardian, and of nobody
    else. On a reachable contract with a pending proposal: each current guardian can
    cancel it at any time, also after the week is over; whoever is not a guardian,
    the admin included, cannot; before the week is over finalising fails with
    [DelayNotElapsed] and exactly then the view reports time remaining; afterwards
    anyone finalises, without authorisation; and no second proposal can be filed. *)
Theorem proposal_outcomes (s : DataKey) (log : list (Z * recovery_call)) (i : env) (p : RecoveryProposal) :
  recovery_history s log -> get_proposal s = Some p -> requested_at p <= timestamp i <= imax U64 -> 0 <= requested_at p ->
  (forall g, auth i g = true ->
     cancel_recovery i s g = if bool_decide (g ∈ get_guardians s) then Ok (set_proposal s None) else Err NotGuardian) /\
  finalize_recovery i s =
    (if timestamp i <? requested_at p + RECOVERY_DELAY_SECONDS then Err DelayNotElapsed
     else Ok ({| Admin := Some (proposed_admin p); Guardians := Guardians s; Proposal := None |}, proposed_admin p)) /\
  (0 < dispute_remaining i s <-> timestamp i < requested_at p + RECOVERY_DELAY_SECONDS) /\
  (forall requester proposed, auth i requester = true -> request_recovery i s requester proposed = Err RecoveryAlreadyPending).
Proof.
  intros [Hok _]%recovery_history_ok Hp Ht H0. destruct (Hok p Hp) as (Ha & _ & Ee & _). unfold get_proposal in Hp. split_and!.
  - intros g Hg. unfold cancel_recovery, load_admin, is_guardian, require_auth. rewrite Ha, Hp, Hg. cbn [ok_or]. rewrite bind_ret.
    fold (get_guardians s). by destruct (bool_decide _).
  - unfold finalize_recovery. rewrite Hp, <- Ee. cbn [ok_or]. rewrite bind_ret. by destruct (_ <? _).
  - unfold dispute_remaining. rewrite Hp. unfold saturating_sub. rewrite (clamp_in U64 (timestamp i - _)) by (cbn [imin imax] in *; lia).
    unfold clamp, RECOVERY_DELAY_SECONDS in *. cbn [imin imax] in *. lia.
  - intros requester proposed Hr. unfold request_recovery, load_admin, require_auth. by rewrite Ha, Hr, Hp.
Qed.

(** ** The guardian set *)
Definition distinct_start (e : Z * recovery_call) : Prop :=
  match e.2 with KInitialize _ guardians => NoDup guardians | _ => True end.

Lemma guardians_ok (s : DataKey) (log : list (Z * recovery_call)) :
  recovery_history s log -> Forall distinct_start log ->
  NoDup (get_guardians s) /\ (is_Some (Admin s) -> get_guardians s <> []).
Proof.
  induction 1 as [|s log i x s' Hh IH Ht Hr]; intros Hd.
  { split; [constructor|]. by intros [? ?]. }
  apply Forall_cons in Hd as [Hx Hd]. destruct (IH Hd) as [Hn He].
  pose proof (recovery_history_ok s log Hh) as [Hok _]. apply run_effect in Hr.
  destruct x as [admin guardians|requester proposed|guardian| |caller guardian|caller guardian]; cbn [call_effect distinct_start snd] in *.
  - destruct Hr as (_ & Hg & ->). done.
  - destruct Hr as (admin & Ha & _ & _ & ->). done.
  - destruct Hr as (_ & _ & ->). done.
  - destruct Hr as (p & Hp & _ & ->). split; [done|]. intros _. apply He. destruct (Hok p Hp) as (-> & _). by eexists.
  - destruct Hr as (_ & Hg & ->). change (get_guardians (set_guardians s ?l)) with l. split; [|by destruct (get_guardians s)].
    apply NoDup_app. split; [done|]. split; [|apply NoDup_singleton]. by intros g Hin ->%list_elem_of_singleton.
  - destruct Hr as (Ha & Hg & Hl & ->). change (get_guardians (set_guardians s ?l)) with l. split; [by apply NoDup_filter|].
    intros _ Hf. destruct (get_guardians s) as [|g1 [|g2 l]] eqn:E; [by apply elem_of_nil in Hg|by apply Hl|].
    apply NoDup_cons in Hn as [Hn1 _]. destruct (decide (g1 = guardian)) as [->|Hd1].
    + assert (g2 <> guardian) as Hd2 by (intros ->; apply Hn1; left).
      rewrite filter_cons_False, filter_cons_True in Hf by auto. done.
    + by rewrite filter_cons_True in Hf.
Qed.

(** A recovery module keeps somebody to object, if it starts with distinct guardians. In
    every history whose initialisation lists no guardian twice, the guardians of an
    initialised contract stay distinct and at least one remains. The initialisation
    does not ask for distinct guardians, and a removal takes out every copy: a
    contract initialised with one guardian listed twice is left without any by one
    removal, and from then on nobody can cancel a proposal. *)
Theorem guardians_never_run_out (s : DataKey) (log : list (Z * recovery_call)) :
  recovery_history s log ->
  (Forall distinct_start log -> NoDup (get_guardians s) /\ (is_Some (Admin s) -> get_guardians s <> [])) /\
  (forall i admin g, auth i admin = true ->
     exists s1 s2, initialize i empty_storage admin [g; g] = Ok s1 /\ remove_guardian i s1 admin g = Ok s2 /\
       get_guardians s2 = [] /\ forall j w, auth j w = true -> cancel_recovery j s2 w = Err NotGuardian).
Proof.
  intros Hh. split; [by apply guardians_ok|]. intros i admin g Ha.
  exists {| Admin := Some admin; Guardians := Some [g; g]; Proposal := None |}, {| Admin := Some admin; Guardians := Some []; Proposal := None |}.
  split; [unfold initialize, require_auth; by rewrite Ha|]. split; [|done].
  unfold remove_guardian, require_admin, require_auth, load_admin. cbn [Admin ok_or]. rewrite !bind_ret.
  rewrite (bool_decide_eq_false_2 (admin <> admin)) by tauto. rewrite Ha. cbn [fail_if]. rewrite !bind_ret.
  change (load_guardians _) with [g; g]. rewrite bool_decide_eq_true_2 by left. cbn [negb fail_if]. rewrite bind_ret.
  unfold set_guardians. cbn [Admin Proposal]. rewrite !filter_cons_False, filter_nil by tauto. done.
Qed.
End claims.

(** ** A concrete contract: admin 2, guardians 3 and 4; address 5 asks for key 6 at time
    100, and the admin adds guardian 7 the day after. *)
Section witnesses.
#[local] Existing Instance test_host.

Definition recovery_at (who now : Z) : env := @Build_env test_host (fun a => Z.eqb a who) now.

Fixpoint run_recoveries (s : DataKey) (cs : list (Z * Z * recovery_call)) : V DataKey :=
  match cs with
  | [] => mret s
  | (who, now, x) :: cs => s' ← run_recovery (recovery_at who now) s x; run_recoveries s' cs
  end.

Fixpoint times_in_order (now : Z) (cs : list (Z * Z * recovery_call)) : bool :=
  match cs with
  | [] => true
  | (_, t, _) :: cs => (now <=? t) && times_in_order t cs
  end.

Definition recovery_log (cs : list (Z * Z * recovery_call)) (log : list (Z * recovery_call)) : list (Z * recovery_call) :=
  foldl (fun log c => (c.1.2, c.2) :: log) log cs.

Lemma run_recoveries_history (cs : list (Z * Z * recovery_call)) (s s' : DataKey) (log : list (Z * recovery_call)) (now : Z) :
  recovery_history s log -> Forall (fun e => e.1 <= now) log -> times_in_order now cs = true ->
  run_recoveries s cs = Ok s' -> recovery_history s' (recovery_log cs log).
Proof.
  revert s log now. induction cs as [|[[who t] x] cs IH]; intros s log now Hs Hl Hc Hr; [by injection Hr as <-|].
  cbn [times_in_order run_recoveries] in *. apply andb_true_iff in Hc as [Hx%Z.leb_le Hc]. apply bind_Ok in Hr as (s1 & Hs1 & Hr).
  assert (Forall (fun e => e.1 <= t) log) as Hlt by (eapply Forall_impl; [exact Hl|]; cbn; intros; lia).
  apply IH with s1 t; [|constructor; [cbn; lia|done]|done|done].
  change t with (timestamp (recovery_at who t)). by apply recovery_next with s.
Qed.

Definition recovery_calls : list (Z * Z * recovery_call) :=
  [(2, 50, KInitialize 2 [3; 4]); (5, 100, KRequest 5 6); (2, 86500, KAdd 2 7)].

Definition recovery_state : DataKey := match run_recoveries empty_storage recovery_calls with Ok s => s | _ => empty_storage end.

Lemma recovery_state_history : recovery_history recovery_state (recovery_log recovery_calls []).
Proof.
  apply (run_recoveries_history recovery_calls empty_storage _ [] 0); [constructor|constructor|vm_compute; reflexivity|].
  unfold recovery_state. destruct (is_ok_Ok (run_recoveries empty_storage recovery_calls)) as [s ->]; [vm_compute; reflexivity|done].
Qed.

Definition week_later : Z := 100 + RECOVERY_DELAY_SECONDS.

Definition recovered : DataKey :=
  match run_recovery (recovery_at 9 week_later) recovery_state KFinalize with Ok s => s | _ => recovery_state end.

Definition admin_number (s : DataKey) : Z := match Admin s with Some a => a | None => 0 end.

Lemma admin_recovery_justified_witness :
  admin_number recovery_state = 2 /\ admin_number recovered = 6 /\
  ((Admin recovery_state = None /\ exists admin guardians, KFinalize = KInitialize admin guardians /\
      Admin recovered = Some admin /\ guardians <> []) \/
   exists p since before, KFinalize = KFinalize /\ get_proposal recovery_state = Some p /\
     Admin recovery_state = Some (current_admin p) /\ Admin recovered = Some (proposed_admin p) /\
     proposed_admin p <> current_admin p /\ requested_at p + RECOVERY_DELAY_SECONDS <= week_later /\
     recovery_log recovery_calls [] = since ++ (requested_at p, KRequest (requested_by p) (proposed_admin p)) :: before /\
     Forall (fun e => guardian_change e.2 = true /\ requested_at p <= e.1) since /\ get_proposal recovered = None).
Proof.
  split; [vm_compute; reflexivity|]. split; [vm_compute; reflexivity|].
  apply (admin_recovery_justified (H := test_host) recovery_state recovered (recovery_log recovery_calls [])
    (recovery_at 9 week_later) KFinalize recovery_state_history).
  - repeat constructor; vm_compute; discriminate.
  - unfold recovered. destruct (is_ok_Ok (run_recovery (recovery_at 9 week_later) recovery_state KFinalize)) as [s ->];
      [vm_compute; reflexivity|done].
  - intros E. assert (admin_number recovered = admin_number recovery_state) as E' by (unfold admin_number; by rewrite E).
    vm_compute in E'. discriminate.
Defined.

Definition pending_proposal : RecoveryProposal :=
  match get_proposal recovery_state with
  | Some p => p
  | None => {| current_admin := 0; proposed_admin := 0; requested_by := 0; requested_at := 0; executable_at := 0 |}
  end.

Definition is_pending (s : DataKey) : bool := match get_proposal s with Some _ => true | None => false end.

Lemma pending_proposal_ok : is_pending recovery_state = true -> get_proposal recovery_state = Some pending_proposal.
Proof. unfold is_pending, pending_proposal. by destruct (get_proposal recovery_state). Qed.

Lemma proposal_outcomes_witness :
  requested_at pending_proposal = 100 /\
  is_ok (finalize_recovery (recovery_at 9 week_later) recovery_state) = true /\
  is_ok (cancel_recovery (recovery_at 3 week_later) recovery_state 3) = true.
Proof.
  split; [vm_compute; reflexivity|].
  assert (get_proposal recovery_state = Some pending_proposal) as Hp
    by (apply pending_proposal_ok; vm_compute; reflexivity).
  assert (requested_at pending_proposal <= week_later <= imax U64) as Ht by (vm_compute; split; discriminate).
  assert (0 <= requested_at pending_proposal) as H0 by (vm_compute; discriminate).
  destruct (proposal_outcomes (H := test_host) recovery_state _ (recovery_at 9 week_later) _ recovery_state_history Hp Ht H0) as (_ & -> & _).
  rewrite (proj1 (proposal_outcomes (H := test_host) recovery_state _ (recovery_at 3 week_later) _ recovery_state_history Hp Ht H0) 3 eq_refl).
  split; vm_compute; reflexivity.
Defined.

Lemma guardians_never_run_out_witness :
  get_guardians recovery_state = [3; 4; 7] /\ NoDup (get_guardians recovery_state).
Proof.
  split; [vm_compute; reflexivity|].
  refine (proj1 (proj1 (guardians_never_run_out (H := test_host) recovery_state _ recovery_state_history) _)).
  apply Forall_cons. split; [exact I|]. apply Forall_cons. split; [exact I|]. apply Forall_cons.
  split; [|apply Forall_nil; exact I]. apply (bool_decide_eq_true_1 (NoDup [3; 4])). vm_compute. reflexivity.
Defined.
End witnesses.
