(* ===== verification/Delegation.v ===== *)
(** * Governance weight and its delegation

    [src/src/voting_delegation.rs] and its entry points in src/src/lib.rs: an address
    records a governance stake, which gives it voting weight at a configured rate,
    and may delegate its whole weight to another address. Four maps are kept: stakes,
    direct weights, delegations and the total delegated to each address. The module
    calls no token contract. The entry points look at the revocation list and the
    admin of the root contract ([Keys]). Events and time-to-live extensions are left
    out.

    Under the default configuration every unit of stake votes exactly once, directly
    or through one delegate, in every history without a [sync_voting_weight] by an
    address that delegates; what such a call does; and what can give weight at all. *)

From stdpp Require Import base numbers list gmap.
From Stdlib Require Import ZArith Lia.
From S2P Require Import Prelude Host RootErrors BookData Keys.

Open Scope Z_scope.

(** The scale of [weight_per_token]. *)
Definition WEIGHT_SCALE : Z := 1000000.

Record GovWeightConfig := { enabled : bool; weight_per_token : Z; min_stake_threshold : Z }.

Definition default_config : GovWeightConfig :=
  {| enabled := true; weight_per_token := WEIGHT_SCALE; min_stake_threshold := 0 |}.

Section delegation.
Context {H : Host}.

(** A delegation: to whom ([delegate] in the source) and how much. *)
Record Delegation := { dg_to : Address; dg_amount : Z }.

Record UndelegateEvent := {
  ue_staker : Address;
  former_delegate : Address;
  restored_weight : Z;
  delegate_remaining_power : Z
}.

(** The storage: one field per key. *)
Record ballots := {
  delegations : gmap Address Delegation;
  delegated_totals : gmap Address Z;
  voting_weights : gmap Address Z;
  governance_stakes : gmap Address Z;
  weight_config : option GovWeightConfig
}.

Definition empty_ballots : ballots := {|
  delegations := ∅; delegated_totals := ∅; voting_weights := ∅; governance_stakes := ∅; weight_config := None |}.

Definition save_delegations (s : ballots) (m : gmap Address Delegation) : ballots := {|
  delegations := m; delegated_totals := delegated_totals s; voting_weights := voting_weights s;
  governance_stakes := governance_stakes s; weight_config := weight_config s |}.

Definition save_delegated_totals (s : ballots) (m : gmap Address Z) : ballots := {|
  delegations := delegations s; delegated_totals := m; voting_weights := voting_weights s;
  governance_stakes := governance_stakes s; weight_config := weight_config s |}.

Definition save_voting_weights (s : ballots) (m : gmap Address Z) : ballots := {|
  delegations := delegations s; delegated_totals := delegated_totals s; voting_weights := m;
  governance_stakes := governance_stakes s; weight_config := weight_config s |}.

Definition save_governance_stakes (s : ballots) (m : gmap Address Z) : ballots := {|
  delegations := delegations s; delegated_totals := delegated_totals s; voting_weights := voting_weights s;
  governance_stakes := m; weight_config := weight_config s |}.

Definition save_gov_weight_config (s : ballots) (c : GovWeightConfig) : ballots := {|
  delegations := delegations s; delegated_totals := delegated_totals s; voting_weights := voting_weights s;
  governance_stakes := governance_stakes s; weight_config := Some c |}.

Definition load_gov_weight_config (s : ballots) : GovWeightConfig := default default_config (weight_config s).

(** [map.get(k).unwrap_or(0)] *)
Definition amount_of (m : gmap Address Z) (k : Address) : Z := default 0 (m !! k).

(** [if v == 0 { map.remove(k) } else { map.set(k, v) }] *)
Definition set_or_remove (m : gmap Address Z) (k : Address) (v : Z) : gmap Address Z :=
  if v =? 0 then delete k m else <[k := v]> m.

(** ** Queries *)
Definition get_voting_weight (s : ballots) (staker : Address) : Z := amount_of (voting_weights s) staker.
Definition get_delegation (s : ballots) (staker : Address) : option Delegation := delegations s !! staker.
Definition get_delegated_total (s : ballots) (who : Address) : Z := amount_of (delegated_totals s) who.
Definition get_governance_stake (s : ballots) (staker : Address) : Z := amount_of (governance_stakes s) staker.
Definition get_gov_weight_config (s : ballots) : GovWeightConfig := load_gov_weight_config s.

(** ** Staking *)

(** [amount * weight_per_token / 1_000_000], checked. *)
Definition derived_weight (c : GovWeightConfig) (amount : Z) : R Z :=
  product ← ok_or (checked_mul U128 amount (weight_per_token c)) Overflow;
  ok_or (checked_div U128 product WEIGHT_SCALE) DivisionByZero.

(** [stakes.set(staker, current + amount)] *)
Definition record_stake (s : ballots) (staker : Address) (amount : Z) : R ballots :=
  new_stake ← ok_or (checked_add U128 (get_governance_stake s staker) amount) Overflow;
  mret (save_governance_stakes s (<[staker := new_stake]> (governance_stakes s))).

(** Weight gained goes to the delegate of the staker, or to its direct weight. *)
Definition add_weight (s : ballots) (staker : Address) (weight : Z) : R ballots :=
  match get_delegation s staker with
  | Some d =>
      new_total ← ok_or (checked_add U128 (get_delegated_total s (dg_to d)) weight) Overflow;
      let s1 := save_delegated_totals s (<[dg_to d := new_total]> (delegated_totals s)) in
      amount ← ok_or (checked_add U128 (dg_amount d) weight) Overflow;
      mret (save_delegations s1 (<[staker := {| dg_to := dg_to d; dg_amount := amount |}]> (delegations s1)))
  | None =>
      new_total ← ok_or (checked_add U128 (get_voting_weight s staker) weight) Overflow;
      mret (save_voting_weights s (<[staker := new_total]> (voting_weights s)))
  end.

(** Weight lost is taken from the delegate of the staker, or from its direct weight. *)
Definition remove_weight (s : ballots) (staker : Address) (weight : Z) : ballots :=
  match get_delegation s staker with
  | Some d =>
      let remaining := saturating_sub U128 (get_delegated_total s (dg_to d)) weight in
      let s1 := save_delegated_totals s (set_or_remove (delegated_totals s) (dg_to d) remaining) in
      let new_delegated_amount := saturating_sub U128 (dg_amount d) weight in
      save_delegations s1
        (if new_delegated_amount =? 0 then delete staker (delegations s1)
         else <[staker := {| dg_to := dg_to d; dg_amount := new_delegated_amount |}]> (delegations s1))
  | None =>
      let remaining := saturating_sub U128 (get_voting_weight s staker) weight in
      save_voting_weights s (set_or_remove (voting_weights s) staker remaining)
  end.

Definition stake_governance (s : ballots) (staker : Address) (amount : Z) : R (ballots * Z) :=
  _ ← fail_if (amount =? 0) VaultZeroAmount;
  let config := load_gov_weight_config s in
  if negb (enabled config) then s' ← record_stake s staker amount; mret (s', 0)
  else
    weight ← derived_weight config amount;
    if weight <? min_stake_threshold config then s' ← record_stake s staker amount; mret (s', 0)
    else
      s1 ← record_stake s staker amount;
      s2 ← add_weight s1 staker weight;
      mret (s2, weight).

Definition unstake_governance (s : ballots) (staker : Address) (amount : Z) : R (ballots * Z) :=
  _ ← fail_if (amount =? 0) VaultZeroAmount;
  let config := load_gov_weight_config s in
  let current_stake := get_governance_stake s staker in
  _ ← fail_if (current_stake <? amount) VaultInsufficientBalance;
  weight ← (if enabled config then derived_weight config amount else mret 0);
  let new_stake := saturating_sub U128 current_stake amount in
  let s1 := save_governance_stakes s (set_or_remove (governance_stakes s) staker new_stake) in
  mret (if 0 <? weight then remove_weight s1 staker weight else s1, weight).

Definition sync_voting_weight (s : ballots) (staker : Address) : R (ballots * Z) :=
  let config := load_gov_weight_config s in
  if negb (enabled config) then mret (s, 0)
  else
    target_weight ← derived_weight config (get_governance_stake s staker);
    if target_weight <? min_stake_threshold config then mret (s, 0)
    else
      let current_weight := match get_delegation s staker with
                            | Some d => get_delegated_total s (dg_to d)
                            | None => get_voting_weight s staker
                            end in
      if current_weight =? target_weight then mret (s, target_weight)
      else if current_weight <? target_weight then
        diff ← isub U128 target_weight current_weight;
        s' ← add_weight s staker diff;
        mret (s', target_weight)
      else
        diff ← isub U128 current_weight target_weight;
        mret (remove_weight s staker diff, target_weight).

Definition validate_gov_weight_config (c : GovWeightConfig) : R unit :=
  fail_if (weight_per_token c =? 0) InvalidCircuitBreakerConfig.

Definition set_gov_weight_config (s : ballots) (c : GovWeightConfig) : R ballots :=
  _ ← validate_gov_weight_config c;
  mret (save_gov_weight_config s c).

(** ** Delegation *)
Definition delegate (s : ballots) (staker who : Address) : R ballots :=
  _ ← fail_if (bool_decide (staker = who)) InvalidDelegate;
  r ← (match get_delegation s staker with
       | Some existing =>
           let prev := get_delegated_total s (dg_to existing) in
           mret (save_delegated_totals s (<[dg_to existing := saturating_sub U128 prev (dg_amount existing)]> (delegated_totals s)),
                 dg_amount existing)
       | None =>
           let direct := get_voting_weight s staker in
           _ ← fail_if (direct =? 0) NoVotingWeight;
           mret (s, direct)
       end);
  let '(s1, amount) := r in
  let s2 := save_voting_weights s1 (<[staker := 0]> (voting_weights s1)) in
  let s3 := save_delegations s2 (<[staker := {| dg_to := who; dg_amount := amount |}]> (delegations s2)) in
  new_total ← ok_or (checked_add U128 (get_delegated_total s3 who) amount) Overflow;
  mret (save_delegated_totals s3 (<[who := new_total]> (delegated_totals s3))).

Definition undelegate (s : ballots) (staker : Address) : R (ballots * UndelegateEvent) :=
  delegation ← ok_or (get_delegation s staker) NoActiveDelegation;
  let former := dg_to delegation in
  let amount := dg_amount delegation in
  let s1 := save_delegations s (delete staker (delegations s)) in
  let remaining := saturating_sub U128 (get_delegated_total s1 former) amount in
  let s2 := save_delegated_totals s1 (set_or_remove (delegated_totals s1) former remaining) in
  restored ← ok_or (checked_add U128 (get_voting_weight s2 staker) amount) Overflow;
  mret (save_voting_weights s2 (<[staker := restored]> (voting_weights s2)),
        {| ue_staker := staker; former_delegate := former; restored_weight := amount; delegate_remaining_power := remaining |}).

(** ** The entry points of lib.rs *)
Definition entry_stake_governance (i : call_env) (k : keyring) (s : ballots) (staker : Address) (amount : Z) : R (ballots * Z) :=
  _ ← require_auth (auth i) staker;
  _ ← assert_not_revoked k staker;
  stake_governance s staker amount.

Definition entry_unstake_governance (i : call_env) (k : keyring) (s : ballots) (staker : Address) (amount : Z) : R (ballots * Z) :=
  _ ← require_auth (auth i) staker;
  _ ← assert_not_revoked k staker;
  unstake_governance s staker amount.

Definition entry_sync_voting_weight (i : call_env) (s : ballots) (staker : Address) : R (ballots * Z) :=
  _ ← require_auth (auth i) staker;
  sync_voting_weight s staker.

Definition entry_set_gov_weight_config (i : call_env) (k : keyring) (s : ballots) (admin : Address) (c : GovWeightConfig) : R ballots :=
  _ ← require_admin i k admin;
  set_gov_weight_config s c.

Definition entry_delegate (i : call_env) (k : keyring) (s : ballots) (staker who : Address) : R ballots :=
  _ ← require_auth (auth i) staker;
  _ ← assert_not_revoked k staker;
  delegate s staker who.

Definition entry_undelegate (i : call_env) (k : keyring) (s : ballots) (staker : Address) : R ballots :=
  _ ← require_auth (auth i) staker;
  _ ← assert_not_revoked k staker;
  r ← undelegate s staker;
  mret r.1.
End delegation.

(** ** Governance weight: the properties *)

Section claims.
Context {H : Host}.

Inductive ballot_call :=
  | DStake (staker : Address) (amount : Z)
  | DUnstake (staker : Address) (amount : Z)
  | DSync (staker : Address)
  | DConfig (admin : Address) (c : GovWeightConfig)
  | DDelegate (staker who : Address)
  | DUndelegate (staker : Address).

Definition run_ballot (i : call_env) (k : keyring) (s : ballots) (x : ballot_call) : R ballots :=
  match x with
  | DStake staker amount => r ← entry_stake_governance i k s staker amount; mret r.1
  | DUnstake staker amount => r ← entry_unstake_governance i k s staker amount; mret r.1
  | DSync staker => r ← entry_sync_voting_weight i s staker; mret r.1
  | DConfig admin c => entry_set_gov_weight_config i k s admin c
  | DDelegate staker who => entry_delegate i k s staker who
  | DUndelegate staker => entry_undelegate i k s staker
  end.

(** The calls that keep the books: typed amounts, the default configuration, and no
    synchronisation by an address that delegates. *)
Definition plain_call (s : ballots) (x : ballot_call) : bool :=
  match x with
  | DStake _ amount | DUnstake _ amount => fits U128 amount
  | DSync staker => bool_decide (get_delegation s staker = None)
  | DConfig _ _ => false
  | DDelegate _ _ | DUndelegate _ => true
  end.

#[export] Instance Delegation_eq_dec : EqDecision Delegation.
Proof. solve_decision. Defined.

Inductive ballot_history : ballots -> Prop :=
  | ballot_start : ballot_history empty_ballots
  | ballot_next s i k x s' :
      ballot_history s -> plain_call s x = true -> run_ballot i k s x = Ok s' -> ballot_history s'.

(** ** The books *)

(** What a delegation adds to the total of [d]. *)
Definition part (d : Address) (x : Delegation) : Z := if decide (dg_to x = d) then dg_amount x else 0.

Definition delegated_to (m : gmap Address Delegation) (d : Address) : Z := msum (fun _ => part d) m.

(** The whole stake of an address is either delegated or direct weight. *)
Definition placed (o : option Delegation) (weight stake : Z) : Prop :=
  match o with
  | Some x => 0 < dg_amount x /\ weight = 0 /\ stake = dg_amount x
  | None => weight = stake
  end.

Record books (m : gmap Address Delegation) (total weight stake : Address -> Z) : Prop := {
  bk_total : forall d, total d = delegated_to m d;
  bk_max : forall d, total d <= imax U128;
  bk_placed : forall a, placed (m !! a) (weight a) (stake a);
  bk_stake : forall a, 0 <= stake a <= imax U128
}.

Definition ballots_ok (s : ballots) : Prop :=
  weight_config s = None /\
  books (delegations s) (get_delegated_total s) (get_voting_weight s) (get_governance_stake s).

Lemma amount_of_insert (m : gmap Address Z) (k a : Address) (v : Z) :
  amount_of (<[k := v]> m) a = if decide (a = k) then v else amount_of m a.
Proof.
  unfold amount_of. destruct (decide (a = k)) as [->|]; [by rewrite lookup_insert_eq|by rewrite lookup_insert_ne].
Qed.

Lemma amount_of_set_or_remove (m : gmap Address Z) (k a : Address) (v : Z) :
  amount_of (set_or_remove m k v) a = if decide (a = k) then v else amount_of m a.
Proof.
  unfold set_or_remove. destruct (Z.eqb_spec v 0) as [->|]; [|apply amount_of_insert].
  unfold amount_of. destruct (decide (a = k)) as [->|]; [by rewrite lookup_delete_eq|by rewrite lookup_delete_ne].
Qed.

(** A delegation is written or erased. *)
Definition put (m : gmap Address Delegation) (a : Address) (o : option Delegation) : gmap Address Delegation :=
  match o with Some x => <[a := x]> m | None => delete a m end.

Definition part_of (d : Address) (o : option Delegation) : Z := from_option (part d) 0 o.

Lemma delegated_put (m : gmap Address Delegation) (a d : Address) (o : option Delegation) :
  delegated_to (put m a o) d = delegated_to m d - part_of d (m !! a) + part_of d o.
Proof.
  unfold delegated_to, part_of. destruct o as [x|]; cbn [put from_option].
  - rewrite msum_insert. unfold term. by destruct (m !! a).
  - rewrite msum_delete. unfold term. destruct (m !! a); cbn; lia.
Qed.

Lemma lookup_put (m : gmap Address Delegation) (a b : Address) (o : option Delegation) :
  put m a o !! b = if decide (b = a) then o else m !! b.
Proof.
  destruct o as [x|]; cbn [put]; destruct (decide (b = a)) as [->|].
  - by rewrite lookup_insert_eq.
  - by rewrite lookup_insert_ne.
  - by rewrite lookup_delete_eq.
  - by rewrite lookup_delete_ne.
Qed.

(** Changing what one address has: its delegation, direct weight and stake. *)
Lemma books_put (m : gmap Address Delegation) (total weight stake total' weight' stake' : Address -> Z)
    (a : Address) (o : option Delegation) :
  books m total weight stake ->
  (forall d, total' d = total d - part_of d (m !! a) + part_of d o) -> (forall d, total' d <= imax U128) ->
  (forall b, b <> a -> weight' b = weight b /\ stake' b = stake b) ->
  placed o (weight' a) (stake' a) -> 0 <= stake' a <= imax U128 ->
  books (put m a o) total' weight' stake'.
Proof.
  intros [B1 B2 B3 B4] Ht Hm Hb Hp Hs. constructor.
  - intros d. by rewrite Ht, delegated_put, B1.
  - done.
  - intros b. rewrite lookup_put. destruct (decide (b = a)) as [->|Hne]; [done|]. destruct (Hb b Hne) as [-> ->]. apply B3.
  - intros b. destruct (decide (b = a)) as [->|Hne]; [done|]. destruct (Hb b Hne) as [_ ->]. apply B4.
Qed.

Lemma part_nonneg (m : gmap Address Delegation) (weight stake : Address -> Z) (d a : Address) (x : Delegation) :
  (forall a, placed (m !! a) (weight a) (stake a)) -> m !! a = Some x -> 0 <= part d x.
Proof. intros Hp Hx. pose proof (Hp a) as P. rewrite Hx in P. unfold part. destruct (decide _); destruct P; lia. Qed.

(** A delegation is part of the total of its delegate. *)
Lemma part_le_total (m : gmap Address Delegation) (total weight stake : Address -> Z) (a : Address) (x : Delegation) :
  books m total weight stake -> m !! a = Some x -> dg_amount x <= total (dg_to x).
Proof.
  intros [B1 _ B3 _] Hx. rewrite B1. pose proof (msum_term_le (fun _ => part (dg_to x)) m a) as Ht.
  unfold term in Ht. rewrite Hx in Ht. unfold part at 2 in Ht. rewrite decide_True in Ht by done. apply Ht.
  intros k y Hy. by apply (part_nonneg m weight stake _ k).
Qed.

Lemma derived_default (amount w : Z) :
  0 <= amount -> derived_weight default_config amount = Ok w -> w = amount /\ amount <= imax U128.
Proof.
  intros Ha Hd. apply bind_Ok in Hd as (p & [-> Hp]%ok_or_Ok%chk_Some & Hd). apply ok_or_Ok in Hd.
  unfold checked_div in Hd. cbn [weight_per_token default_config] in *. unfold WEIGHT_SCALE in *. change (1000000 =? 0) with false in Hd.
  apply chk_Some in Hd as [-> _]. rewrite Z.quot_mul by done. split; [done|]. lia.
Qed.

(** ** The operations keep the books *)
Section step.
Context (s : ballots) (Hok : ballots_ok s) (a : Address).

Lemma stake_split :
  match get_delegation s a with
  | Some x => get_governance_stake s a = dg_amount x /\ get_voting_weight s a = 0 /\ 0 < dg_amount x <= get_delegated_total s (dg_to x)
  | None => get_governance_stake s a = get_voting_weight s a
  end.
Proof.
  destruct Hok as [_ Hb]. pose proof (bk_placed _ _ _ _ Hb a) as P. unfold get_delegation.
  destruct (delegations s !! a) as [x|] eqn:Ex; [|by rewrite P]. destruct P as (P1 & P2 & P3).
  pose proof (part_le_total _ _ _ _ a x Hb Ex). lia.
Qed.

(** The stake of [a] changes by [w], and its weight follows. *)
Lemma add_ok (m : gmap Address Z) (w : Z) (s' : ballots) :
  0 <= w -> get_governance_stake s a + w <= imax U128 ->
  (forall b, amount_of m b = if decide (b = a) then get_governance_stake s a + w else get_governance_stake s b) ->
  add_weight (save_governance_stakes s m) a w = Ok s' -> ballots_ok s'.
Proof.
  intros Hw Hmax Hm Hr. pose proof stake_split as Hp. destruct Hok as [Hc Hb]. pose proof (bk_stake _ _ _ _ Hb a) as Hs.
  unfold add_weight in Hr. change (get_delegation (save_governance_stakes s m) a) with (get_delegation s a) in Hr.
  unfold get_delegation in *. destruct (delegations s !! a) as [x|] eqn:Ex.
  - apply bind_Ok in Hr as (t & [-> Ht]%ok_or_Ok%chk_Some & Hr). apply bind_Ok in Hr as (n & [-> _]%ok_or_Ok%chk_Some & Hr).
    injection Hr as <-. destruct Hp as (E1 & E2 & E3). split; [exact Hc|]. cbn [delegations save_delegations save_delegated_totals save_governance_stakes].
    apply (books_put _ _ _ _ _ _ _ a (Some {| dg_to := dg_to x; dg_amount := dg_amount x + w |}) Hb).
    + intros d. unfold get_delegated_total. cbn [delegated_totals save_delegations save_delegated_totals save_governance_stakes].
      rewrite amount_of_insert, Ex. unfold part_of, part. cbn. destruct (decide (d = dg_to x)) as [->|].
      * rewrite !decide_True by done. lia.
      * rewrite !decide_False by congruence. lia.
    + intros d. unfold get_delegated_total. cbn [delegated_totals save_delegations save_delegated_totals save_governance_stakes].
      rewrite amount_of_insert. destruct (decide _); [apply Ht|]. apply (bk_max _ _ _ _ Hb).
    + intros b Hne. split; [done|]. unfold get_governance_stake. cbn. by rewrite Hm, decide_False.
    + unfold get_governance_stake. cbn. rewrite Hm, decide_True by done. split; [lia|]. split; [exact E2|]. lia.
    + unfold get_governance_stake. cbn. rewrite Hm, decide_True by done. cbn [imin imax] in *. lia.
  - apply bind_Ok in Hr as (t & [-> Ht]%ok_or_Ok%chk_Some & Hr). injection Hr as <-. split; [exact Hc|].
    cbn [delegations save_voting_weights save_governance_stakes]. rewrite <- (delete_id (delegations s) a) by done.
    apply (books_put _ _ _ _ _ _ _ a None Hb).
    + intros d. rewrite Ex. cbn. unfold get_delegated_total. cbn. lia.
    + apply (bk_max _ _ _ _ Hb).
    + intros b Hne. unfold get_governance_stake, get_voting_weight. cbn. by rewrite Hm, amount_of_insert, !decide_False.
    + unfold get_governance_stake, get_voting_weight. cbn. rewrite Hm, amount_of_insert, !decide_True by done.
      unfold get_voting_weight in Hp |- *. cbn. lia.
    + unfold get_governance_stake. cbn. rewrite Hm, decide_True by done. cbn [imin imax] in *. lia.
Qed.

Lemma weight_remove_ok (m : gmap Address Z) (w : Z) :
  0 <= w <= get_governance_stake s a ->
  (forall b, amount_of m b = if decide (b = a) then get_governance_stake s a - w else get_governance_stake s b) ->
  ballots_ok (remove_weight (save_governance_stakes s m) a w).
Proof.
  intros Hw Hm. pose proof stake_split as Hp. destruct Hok as [Hc Hb]. pose proof (bk_stake _ _ _ _ Hb a) as Hs.
  unfold remove_weight. change (get_delegation (save_governance_stakes s m) a) with (get_delegation s a).
  unfold get_delegation in *. destruct (delegations s !! a) as [x|] eqn:Ex.
  - destruct Hp as (E1 & E2 & E3 & E4). pose proof (bk_max _ _ _ _ Hb (dg_to x)) as Hx. split; [exact Hc|].
    change (get_delegated_total (save_governance_stakes s m) (dg_to x)) with (get_delegated_total s (dg_to x)).
    unfold saturating_sub. rewrite (clamp_in U128 (dg_amount x - w)), (clamp_in U128 (get_delegated_total s (dg_to x) - w))
      by (cbn [imin]; lia).
    set (o := if dg_amount x - w =? 0 then None else Some {| dg_to := dg_to x; dg_amount := dg_amount x - w |}).
    cbn [delegations delegated_totals save_delegations save_delegated_totals save_governance_stakes].
    assert ((if dg_amount x - w =? 0 then delete a (delegations s)
             else <[a := {| dg_to := dg_to x; dg_amount := dg_amount x - w |}]> (delegations s)) = put (delegations s) a o) as ->
      by (unfold o; by destruct (_ =? 0)).
    assert (forall d, part_of d o = if decide (dg_to x = d) then dg_amount x - w else 0) as Ho.
    { intros d. unfold o. destruct (Z.eqb_spec (dg_amount x - w) 0) as [->|]; cbn; [by destruct (decide _)|done]. }
    apply (books_put _ _ _ _ _ _ _ a o Hb).
    + intros d. unfold get_delegated_total. cbn [delegated_totals save_delegations save_delegated_totals save_governance_stakes].
      rewrite amount_of_set_or_remove, Ex, Ho. unfold part_of, part. cbn. unfold get_delegated_total.
      destruct (decide (d = dg_to x)) as [->|]; [rewrite !decide_True by done|rewrite !decide_False by congruence]; lia.
    + intros d. unfold get_delegated_total. cbn [delegated_totals save_delegations save_delegated_totals save_governance_stakes].
      rewrite amount_of_set_or_remove. destruct (decide _); [unfold get_delegated_total in *; lia|]. apply (bk_max _ _ _ _ Hb).
    + intros b Hne. split; [done|]. unfold get_governance_stake. cbn. by rewrite Hm, decide_False.
    + unfold get_governance_stake at 1. cbn. rewrite Hm, decide_True by done. change (get_voting_weight _ a) with (get_voting_weight s a).
      unfold o. destruct (Z.eqb_spec (dg_amount x - w) 0); cbn; lia.
    + unfold get_governance_stake at 1 2. cbn -[imax]. rewrite Hm, decide_True by done. lia.
  - change (get_voting_weight (save_governance_stakes s m) a) with (get_voting_weight s a). unfold saturating_sub.
    rewrite clamp_in by (cbn [imin]; lia). split; [exact Hc|].
    cbn [delegations save_voting_weights save_governance_stakes]. rewrite <- (delete_id (delegations s) a) by done.
    apply (books_put _ _ _ _ _ _ _ a None Hb).
    + intros d. rewrite Ex. cbn. unfold get_delegated_total. cbn. lia.
    + apply (bk_max _ _ _ _ Hb).
    + intros b Hne. unfold get_governance_stake, get_voting_weight. cbn. by rewrite Hm, amount_of_set_or_remove, !decide_False.
    + unfold get_governance_stake at 1, get_voting_weight at 1. cbn. rewrite Hm, amount_of_set_or_remove, !decide_True by done. lia.
    + unfold get_governance_stake at 1 2. cbn -[imax]. rewrite Hm, decide_True by done. lia.
Qed.

Lemma delegate_ok (who : Address) (s' : ballots) : delegate s a who = Ok s' -> ballots_ok s'.
Proof.
  intros Hr. pose proof stake_split as Hp. destruct Hok as [Hc Hb]. pose proof (bk_stake _ _ _ _ Hb a) as Hs. unfold delegate in Hr.
  apply bind_Ok in Hr as ([] & _ & Hr). apply bind_Ok in Hr as ([s1 amt] & Hr1 & Hr).
  apply bind_Ok in Hr as (t & [-> Ht]%ok_or_Ok%chk_Some & Hr). injection Hr as <-.
  assert (delegations s1 = delegations s /\ voting_weights s1 = voting_weights s /\ governance_stakes s1 = governance_stakes s /\
    weight_config s1 = weight_config s /\ amt = get_governance_stake s a /\ 0 < amt /\
    forall d, get_delegated_total s1 d = get_delegated_total s d - part_of d (get_delegation s a)) as (Ed & Ew & Es & Ec & Ea & Hpos & Et).
  { unfold get_delegation in *. destruct (delegations s !! a) as [x|] eqn:Ex.
    - injection Hr1 as <- <-. destruct Hp as (E1 & E2 & E3 & E4). pose proof (bk_max _ _ _ _ Hb (dg_to x)) as Hx.
      split_and!; try done. intros d. unfold saturating_sub. rewrite clamp_in by (cbn [imin]; lia).
      unfold get_delegated_total at 1. cbn. rewrite amount_of_insert. unfold part.
      destruct (decide (d = dg_to x)) as [->|]; [rewrite decide_True by done|rewrite decide_False by congruence]; unfold get_delegated_total; lia.
    - apply bind_Ok in Hr1 as ([] & Hz%fail_if_Ok%Z.eqb_neq & Hr1). injection Hr1 as <- <-. split_and!; try done; [lia|].
      intros d. cbn. lia. }
  split; [cbn; congruence|]. cbn [delegations save_delegated_totals save_delegations save_voting_weights]. rewrite Ed.
  apply (books_put _ _ _ _ _ _ _ a (Some {| dg_to := who; dg_amount := amt |}) Hb).
  - intros d. unfold get_delegated_total at 1. cbn [delegated_totals save_delegated_totals save_delegations save_voting_weights].
    rewrite amount_of_insert. change (get_delegated_total _ who) with (get_delegated_total s1 who).
    change (amount_of (delegated_totals s1) d) with (get_delegated_total s1 d). rewrite !Et. unfold get_delegation.
    change (part_of d (Some _)) with (part d {| dg_to := who; dg_amount := amt |}). unfold part. cbn.
    destruct (decide (d = who)) as [->|]; [rewrite decide_True by done|rewrite decide_False by congruence]; lia.
  - intros d. unfold get_delegated_total at 1. cbn [delegated_totals save_delegated_totals save_delegations save_voting_weights].
    rewrite amount_of_insert. destruct (decide _); [apply Ht|]. change (amount_of _ d) with (get_delegated_total s1 d). rewrite Et.
    pose proof (bk_max _ _ _ _ Hb d). unfold get_delegation. destruct (delegations s !! a) as [x|] eqn:Ex; cbn [part_of from_option]; [|lia].
    pose proof (part_nonneg _ _ _ d a x (bk_placed _ _ _ _ Hb) Ex). lia.
  - intros b Hne. unfold get_voting_weight, get_governance_stake. cbn. by rewrite amount_of_insert, decide_False, Ew, Es.
  - unfold get_voting_weight, get_governance_stake. cbn. rewrite amount_of_insert, decide_True, Es by done. done.
  - unfold get_governance_stake. cbn -[imax]. by rewrite Es.
Qed.

Lemma undelegate_ok (s' : ballots) (e : UndelegateEvent) : undelegate s a = Ok (s', e) -> ballots_ok s'.
Proof.
  intros Hr. pose proof stake_split as Hp. destruct Hok as [Hc Hb]. pose proof (bk_stake _ _ _ _ Hb a) as Hs. unfold undelegate in Hr.
  apply bind_Ok in Hr as (x & Hx%ok_or_Ok & Hr). apply bind_Ok in Hr as (t & [-> Ht]%ok_or_Ok%chk_Some & Hr). injection Hr as <- <-.
  rewrite Hx in Hp. unfold get_delegation in Hx. destruct Hp as (E1 & E2 & E3 & E4). pose proof (bk_max _ _ _ _ Hb (dg_to x)) as Hm.
  split; [exact Hc|]. cbn [delegations save_delegated_totals save_delegations save_voting_weights].
  change (get_delegated_total (save_delegations s _) (dg_to x)) with (get_delegated_total s (dg_to x)).
  unfold saturating_sub. rewrite clamp_in by (cbn [imin]; lia).
  apply (books_put _ _ _ _ _ _ _ a None Hb).
  - intros d. unfold get_delegated_total at 1. cbn [delegated_totals save_delegated_totals save_delegations save_voting_weights].
    rewrite amount_of_set_or_remove, Hx. cbn [part_of from_option]. unfold part.
    destruct (decide (d = dg_to x)) as [->|]; [rewrite decide_True by done|rewrite decide_False by congruence]; unfold get_delegated_total; lia.
  - intros d. unfold get_delegated_total at 1. cbn [delegated_totals save_delegated_totals save_delegations save_voting_weights].
    rewrite amount_of_set_or_remove. destruct (decide _); [lia|]. apply (bk_max _ _ _ _ Hb).
  - intros b Hne. unfold get_voting_weight. cbn. by rewrite amount_of_insert, decide_False.
  - unfold get_voting_weight at 1. cbn. rewrite amount_of_insert, decide_True by done.
    change (get_voting_weight _ a) with (get_voting_weight s a). change (get_governance_stake _ a) with (get_governance_stake s a). lia.
  - exact Hs.
Qed.
End step.

Lemma stake_ok (s s' : ballots) (a : Address) (amt w : Z) :
  ballots_ok s -> 0 <= amt -> stake_governance s a amt = Ok (s', w) -> ballots_ok s'.
Proof.
  intros Hok Ha Hr. unfold stake_governance in Hr. apply bind_Ok in Hr as ([] & Hz%fail_if_Ok%Z.eqb_neq & Hr).
  assert (load_gov_weight_config s = default_config) as Ec by (unfold load_gov_weight_config; by rewrite (proj1 Hok)).
  rewrite Ec in Hr. cbn [enabled default_config negb min_stake_threshold] in Hr. apply bind_Ok in Hr as (v & Hv & Hr).
  apply derived_default in Hv as [-> _]; [|done]. rewrite (proj2 (Z.ltb_ge amt 0)) in Hr by done.
  apply bind_Ok in Hr as (s1 & Hs1 & Hr). apply bind_Ok in Hr as (s2 & Hs2 & Hr). injection Hr as <- _.
  apply bind_Ok in Hs1 as (n & [-> Hn]%ok_or_Ok%chk_Some & Hs1). injection Hs1 as <-.
  refine (add_ok s Hok a _ amt s2 Ha _ _ Hs2); [lia|]. intros b. by rewrite amount_of_insert.
Qed.

Lemma unstake_ok (s s' : ballots) (a : Address) (amt w : Z) :
  ballots_ok s -> 0 <= amt -> unstake_governance s a amt = Ok (s', w) -> ballots_ok s'.
Proof.
  intros Hok Ha Hr. unfold unstake_governance in Hr. apply bind_Ok in Hr as ([] & Hz%fail_if_Ok%Z.eqb_neq & Hr).
  apply bind_Ok in Hr as ([] & Hle%fail_if_Ok%Z.ltb_ge & Hr).
  assert (load_gov_weight_config s = default_config) as Ec by (unfold load_gov_weight_config; by rewrite (proj1 Hok)).
  rewrite Ec in Hr. cbn [enabled default_config] in Hr. apply bind_Ok in Hr as (v & Hv & Hr).
  apply derived_default in Hv as [-> _]; [|done]. rewrite (proj2 (Z.ltb_lt 0 amt)) in Hr by lia. injection Hr as <- _.
  pose proof (bk_stake _ _ _ _ (proj2 Hok) a). apply weight_remove_ok; [done|lia|].
  intros b. rewrite amount_of_set_or_remove. unfold saturating_sub. rewrite clamp_in by (cbn [imin]; lia). done.
Qed.

(** A synchronisation of an address that does not delegate changes nothing. *)
Lemma sync_direct (s s' : ballots) (a : Address) (w : Z) :
  ballots_ok s -> get_delegation s a = None -> sync_voting_weight s a = Ok (s', w) -> s' = s /\ w = get_governance_stake s a.
Proof.
  intros Hok Hd Hr. pose proof (stake_split s Hok a) as Hp. rewrite Hd in Hp. unfold sync_voting_weight in Hr.
  assert (load_gov_weight_config s = default_config) as Ec by (unfold load_gov_weight_config; by rewrite (proj1 Hok)).
  rewrite Ec in Hr. cbn [enabled default_config negb min_stake_threshold] in Hr. apply bind_Ok in Hr as (v & Hv & Hr).
  pose proof (bk_stake _ _ _ _ (proj2 Hok) a). apply derived_default in Hv as [-> _]; [|lia].
  rewrite (proj2 (Z.ltb_ge _ 0)), Hd, Hp, Z.eqb_refl in Hr by lia. by injection Hr as <- <-.
Qed.

Lemma ballot_history_ok (s : ballots) : ballot_history s -> ballots_ok s.
Proof.
  induction 1 as [|s i k x s' _ Hok Hp Hr].
  - split; [done|]. constructor; try done.
  - destruct x as [a amt|a amt|a|admin c|a who|a]; cbn [plain_call run_ballot] in *; [| | |done| |].
    + apply bind_Ok in Hr as ([s1 w] & Hr & Hs). injection Hs as <-. do 2 apply bind_Ok in Hr as ([] & _ & Hr).
      apply fits_spec in Hp. cbn [imin] in Hp. by eapply stake_ok; [|apply Hp|].
    + apply bind_Ok in Hr as ([s1 w] & Hr & Hs). injection Hs as <-. do 2 apply bind_Ok in Hr as ([] & _ & Hr).
      apply fits_spec in Hp. cbn [imin] in Hp. by eapply unstake_ok; [|apply Hp|].
    + apply bind_Ok in Hr as ([s1 w] & Hr & Hs). injection Hs as <-. apply bind_Ok in Hr as ([] & _ & Hr).
      apply bool_decide_eq_true in Hp. by apply sync_direct in Hr as [-> _].
    + do 2 apply bind_Ok in Hr as ([] & _ & Hr). by eapply delegate_ok.
    + do 2 apply bind_Ok in Hr as ([] & _ & Hr). apply bind_Ok in Hr as ([s1 e] & Hr & Hs). injection Hs as <-.
      by eapply undelegate_ok.
Qed.

(** ** Synchronising while delegating *)
Lemma derived_default_eq (amount : Z) :
  0 <= amount -> amount * WEIGHT_SCALE <= imax U128 -> derived_weight default_config amount = Ok amount.
Proof.
  intros Ha Hm. unfold derived_weight, checked_mul, checked_div. cbn [weight_per_token default_config].
  unfold WEIGHT_SCALE in *. rewrite (proj2 (chk_Some U128 (amount * 1000000) _)) by (cbn [imin]; split; [done|lia]).
  cbn [ok_or]. rewrite bind_ret. change (1000000 =? 0) with false. rewrite Z.quot_mul by done.
  by rewrite (proj2 (chk_Some U128 amount _)) by (cbn [imin]; split; [done|lia]).
Qed.

Lemma sync_down (s : ballots) (a : Address) (x : Delegation) :
  weight_config s = None -> get_delegation s a = Some x -> 0 <= get_governance_stake s a ->
  get_governance_stake s a * WEIGHT_SCALE <= imax U128 ->
  get_governance_stake s a < get_delegated_total s (dg_to x) <= imax U128 ->
  sync_voting_weight s a =
    Ok (remove_weight s a (get_delegated_total s (dg_to x) - get_governance_stake s a), get_governance_stake s a).
Proof.
  intros Hc Hx H0 Hs Ht. unfold sync_voting_weight, load_gov_weight_config. rewrite Hc. cbn [default from_option Datatypes.id enabled default_config negb min_stake_threshold].
  rewrite derived_default_eq, bind_ret, (proj2 (Z.ltb_ge _ 0)), Hx by done. rewrite (proj2 (Z.eqb_neq _ _)), (proj2 (Z.ltb_ge _ _)) by lia.
  unfold isub. rewrite iop_in by (cbn [imin]; lia). by rewrite bind_ret.
Qed.

Lemma sync_up (s : ballots) (a : Address) (x : Delegation) :
  weight_config s = None -> get_delegation s a = Some x -> 0 <= get_delegated_total s (dg_to x) ->
  get_governance_stake s a * WEIGHT_SCALE <= imax U128 ->
  get_delegated_total s (dg_to x) < get_governance_stake s a ->
  sync_voting_weight s a =
    (s' ← add_weight s a (get_governance_stake s a - get_delegated_total s (dg_to x)); mret (s', get_governance_stake s a)).
Proof.
  intros Hc Hx H0 Hs Ht. unfold sync_voting_weight, load_gov_weight_config. rewrite Hc. cbn [default from_option Datatypes.id enabled default_config negb min_stake_threshold].
  rewrite derived_default_eq, bind_ret, (proj2 (Z.ltb_ge _ 0)), Hx by lia. rewrite (proj2 (Z.eqb_neq _ _)), (proj2 (Z.ltb_lt _ _)) by lia.
  unfold isub. rewrite iop_in by (unfold WEIGHT_SCALE in Hs; cbn [imin]; lia). by rewrite bind_ret.
Qed.

(** C31: Every unit of governance stake votes exactly once. Under the default configuration,
    in every history of stakes, unstakes, delegations and revocations (and
    synchronisations by addresses that do not delegate), the total recorded for each
    delegate is the sum of the delegations to it; a delegating address has no direct
    weight and has delegated exactly its stake; any other address has exactly its stake
    as direct weight. *)
Theorem stake_votes_once (s : ballots) :
  ballot_history s ->
  (forall d, get_delegated_total s d = msum (fun _ x => if decide (dg_to x = d) then dg_amount x else 0) (delegations s)) /\
  forall a, match get_delegation s a with
            | Some x => get_voting_weight s a = 0 /\ dg_amount x = get_governance_stake s a /\ 0 < dg_amount x
            | None => get_voting_weight s a = get_governance_stake s a
            end.
Proof.
  intros Hok%ballot_history_ok. split; [apply (bk_total _ _ _ _ (proj2 Hok))|]. intros a.
  pose proof (stake_split s Hok a) as Hp. destruct (get_delegation s a); lia.
Qed.

(** Revoking a delegation undoes it. On the same histories an address with direct weight
    that delegates and then revokes ends with every query of the module as before:
    the revocation cannot fail and reports the weight and the rest of the delegate. *)
Theorem undelegate_restores (s s1 : ballots) (a d : Address) :
  ballot_history s -> get_delegation s a = None -> delegate s a d = Ok s1 ->
  exists s2, undelegate s1 a = Ok (s2, {| ue_staker := a; former_delegate := d; restored_weight := get_voting_weight s a;
                                          delegate_remaining_power := get_delegated_total s d |}) /\
    (forall b, get_voting_weight s2 b = get_voting_weight s b /\ get_delegation s2 b = get_delegation s b /\
       get_delegated_total s2 b = get_delegated_total s b /\ get_governance_stake s2 b = get_governance_stake s b).
Proof.
  intros Hok%ballot_history_ok Hn Hd. pose proof (stake_split s Hok a) as Hp. rewrite Hn in Hp.
  destruct Hok as [_ Hb]. pose proof (bk_stake _ _ _ _ Hb a) as Hs. pose proof (bk_max _ _ _ _ Hb d) as Hm.
  assert (0 <= get_delegated_total s d) as H0.
  { rewrite (bk_total _ _ _ _ Hb). apply msum_nonneg. intros b x Hx. by apply (part_nonneg _ _ _ d b x (bk_placed _ _ _ _ Hb)). }
  unfold delegate in Hd. rewrite Hn in Hd. apply bind_Ok in Hd as ([] & _ & Hd).
  apply bind_Ok in Hd as ([s0 amt] & Hr & Hd). apply bind_Ok in Hr as ([] & _ & Hr). injection Hr as <- <-.
  apply bind_Ok in Hd as (t & [-> Ht]%ok_or_Ok%chk_Some & Hd). injection Hd as <-.
  change (get_delegated_total _ d) with (get_delegated_total s d) in *.
  set (x := {| dg_to := d; dg_amount := get_voting_weight s a |}).
  set (s1 := save_delegated_totals _ _).
  assert (get_delegation s1 a = Some x /\ get_delegated_total s1 d = get_delegated_total s d + get_voting_weight s a) as (D1 & T1).
  { unfold get_delegation, get_delegated_total. cbn. by rewrite lookup_insert_eq, amount_of_insert, decide_True. }
  assert (forall b, get_voting_weight s1 b = if decide (b = a) then 0 else get_voting_weight s b) as W1
    by (intros b; unfold get_voting_weight; cbn; apply amount_of_insert).
  unfold undelegate. rewrite D1. cbn [ok_or]. rewrite bind_ret. cbn [dg_to dg_amount x].
  change (get_delegated_total (save_delegations s1 _) d) with (get_delegated_total s1 d).
  change (get_voting_weight (save_delegated_totals (save_delegations s1 _) _) a) with (get_voting_weight s1 a).
  rewrite T1, W1, decide_True by done. unfold saturating_sub, checked_add.
  replace (get_delegated_total s d + get_voting_weight s a - get_voting_weight s a) with (get_delegated_total s d) by lia.
  rewrite clamp_in by (cbn [imin]; lia).
  rewrite (proj2 (chk_Some U128 (0 + _) (get_voting_weight s a))) by (cbn [imin]; lia).
  cbn [ok_or]. rewrite bind_ret. eexists. split; [reflexivity|]. intros b.
  unfold get_delegation, get_voting_weight, get_delegated_total, get_governance_stake.
  cbn [delegated_totals delegations voting_weights governance_stakes save_delegated_totals save_delegations save_voting_weights s1].
  unfold get_delegation in Hn. rewrite !amount_of_insert, amount_of_set_or_remove, amount_of_insert, delete_insert_eq, delete_id by done.
  split_and!; [by destruct (decide (b = a)) as [->|]|done|by destruct (decide (b = d)) as [->|]|done].
Qed.

(** A synchronisation by a delegating address compares its stake with the whole total of
    its delegate. If others delegated to the same address, the call takes their sum
    away from the delegate and from the caller's own delegation. When a bigger staker is
    among them, its delegation stays while the total no longer holds it; its own
    synchronisation then raises its delegation above its stake, and a revocation turns
    that into direct weight: from stakes [sa < sb] the second address ends with weight
    [2 sb - sa]. *)
Theorem sync_counts_whole_delegate (s : ballots) (a b : Address) (x y : Delegation) :
  ballot_history s -> get_delegation s a = Some x -> get_delegation s b = Some y -> dg_to y = dg_to x ->
  let sa := get_governance_stake s a in let sb := get_governance_stake s b in
  sa < sb -> 2 * sb * WEIGHT_SCALE <= imax U128 ->
  exists s1 s2 s3 e,
    sync_voting_weight s a = Ok (s1, sa) /\ get_delegated_total s1 (dg_to x) = sa /\
    get_delegation s1 a = None /\ get_voting_weight s1 a = 0 /\ get_delegation s1 b = Some y /\
    sync_voting_weight s1 b = Ok (s2, sb) /\ undelegate s2 b = Ok (s3, e) /\
    get_governance_stake s3 b = sb /\ get_voting_weight s3 b = 2 * sb - sa.
Proof.
  intros Hok%ballot_history_ok Hx Hy Hto sa sb Hlt Hmax. assert (a <> b) as Hne by (intros ->; unfold sa, sb in Hlt; lia).
  pose proof (stake_split s Hok a) as Pa. pose proof (stake_split s Hok b) as Pb. rewrite Hx in Pa. rewrite Hy in Pb.
  destruct Pa as (A1 & A2 & A3), Pb as (B1 & B2 & B3). rewrite Hto in B3. fold sa in A1. fold sb in B1.
  destruct Hok as [Hc Hb]. pose proof (bk_max _ _ _ _ Hb (dg_to x)) as Hm. set (T := get_delegated_total s (dg_to x)) in *.
  assert (sa + sb <= T) as Hsum.
  { unfold T. rewrite (bk_total _ _ _ _ Hb). unfold delegated_to.
    pose proof (msum_delete (fun _ => part (dg_to x)) (delegations s) b) as E.
    unfold term in E. unfold get_delegation in Hy, Hx. rewrite Hy in E. unfold part at 3 in E. rewrite decide_True in E by done.
    pose proof (msum_term_le (fun _ => part (dg_to x)) (delete b (delegations s)) a) as Hle. unfold term in Hle.
    rewrite lookup_delete_ne, Hx in Hle by done. unfold part at 2 in Hle. rewrite decide_True in Hle by done.
    assert (dg_amount x <= msum (fun _ => part (dg_to x)) (delete b (delegations s))); [|lia]. apply Hle.
    intros k z [_ Hz]%lookup_delete_Some. by apply (part_nonneg _ _ _ _ k z (bk_placed _ _ _ _ Hb)). }
  pose proof (sync_down s a x Hc Hx ltac:(fold sa; lia) ltac:(fold sa; unfold WEIGHT_SCALE in *; lia) ltac:(fold sa T; lia)) as E1.
  fold sa T in E1. set (s1 := remove_weight s a (T - sa)) in *.
  assert (s1 = save_delegations (save_delegated_totals s (<[dg_to x := sa]> (delegated_totals s))) (delete a (delegations s))) as Es1.
  { unfold s1, remove_weight. rewrite Hx. fold T. unfold saturating_sub. replace (T - (T - sa)) with sa by lia.
    rewrite (clamp_in U128 sa) by (cbn [imin]; lia). unfold set_or_remove. rewrite (proj2 (Z.eqb_neq sa 0)) by lia.
    unfold clamp. cbn [imin imax]. rewrite (proj2 (Z.eqb_eq _ 0)) by lia. done. }
  assert (get_delegated_total s1 (dg_to x) = sa /\ get_delegation s1 b = Some y /\ get_governance_stake s1 b = sb /\
    get_voting_weight s1 b = 0 /\ get_voting_weight s1 a = 0 /\ get_delegation s1 a = None) as (T1 & D1 & S1 & W1 & W1a & D1a).
  { rewrite Es1. unfold get_delegated_total, get_delegation. cbn [delegated_totals delegations save_delegations save_delegated_totals].
    rewrite amount_of_insert, decide_True, lookup_delete_ne, lookup_delete_eq by done. done. }
  assert (weight_config s1 = None) as Hc1 by (by rewrite Es1).
  pose proof (sync_up s1 b y Hc1 D1) as E2. rewrite Hto, T1, S1 in E2. specialize (E2 ltac:(lia) ltac:(unfold WEIGHT_SCALE in *; lia) Hlt).
  set (y2 := {| dg_to := dg_to x; dg_amount := 2 * sb - sa |}).
  set (s2 := save_delegations (save_delegated_totals s1 (<[dg_to x := sb]> (delegated_totals s1))) (<[b := y2]> (delegations s1))).
  assert (add_weight s1 b (sb - sa) = Ok s2) as E2'.
  { unfold add_weight. rewrite D1, Hto, T1. unfold checked_add. replace (sa + (sb - sa)) with sb by lia.
    replace (dg_amount y + (sb - sa)) with (2 * sb - sa) by lia. unfold WEIGHT_SCALE in *.
    rewrite (proj2 (chk_Some U128 sb sb)) by (cbn [imin]; lia). cbn [ok_or]. rewrite bind_ret.
    rewrite (proj2 (chk_Some U128 (2 * sb - sa) (2 * sb - sa))) by (cbn [imin]; lia). cbn [ok_or]. by rewrite bind_ret. }
  rewrite E2', bind_ret in E2. exists s1, s2.
  assert (get_delegation s2 b = Some y2) as D2 by (unfold get_delegation; cbn; by rewrite lookup_insert_eq).
  unfold undelegate. rewrite D2. cbn [ok_or]. rewrite bind_ret. change (get_voting_weight (save_delegated_totals (save_delegations s2 _) _) b) with (get_voting_weight s1 b).
  rewrite W1. unfold checked_add. cbn [dg_amount y2]. unfold WEIGHT_SCALE in *.
  rewrite (proj2 (chk_Some U128 (0 + (2 * sb - sa)) (2 * sb - sa))) by (cbn [imin]; lia). cbn [ok_or]. rewrite bind_ret.
  eexists _, _. split; [exact E1|]. split_and!; try done.
  unfold get_voting_weight. cbn [voting_weights save_voting_weights]. by rewrite amount_of_insert, decide_True.
Qed.
End claims.

(** ** A concrete store: 3 and 4 stake 100 and 300 and delegate to 5; 6 stakes 50. *)
Section witnesses.
#[local] Existing Instance test_host.

Definition ballot_at (who : Z) : call_env := @Build_call_env test_host (fun a => Z.eqb a who) 0.

Fixpoint run_ballots (s : ballots) (cs : list (Z * ballot_call)) : R ballots :=
  match cs with
  | [] => mret s
  | (who, x) :: cs => s' ← run_ballot (ballot_at who) empty_keyring s x; run_ballots s' cs
  end.

Fixpoint plain_calls (s : ballots) (cs : list (Z * ballot_call)) : bool :=
  match cs with
  | [] => true
  | (who, x) :: cs =>
      plain_call s x && match run_ballot (ballot_at who) empty_keyring s x with Ok s' => plain_calls s' cs | _ => true end
  end.

Lemma run_ballots_history (cs : list (Z * ballot_call)) (s s' : ballots) :
  ballot_history s -> plain_calls s cs = true -> run_ballots s cs = Ok s' -> ballot_history s'.
Proof.
  revert s. induction cs as [|[who x] cs IH]; intros s Hs Hc Hr; [by injection Hr as <-|].
  cbn [plain_calls run_ballots] in *. apply andb_true_iff in Hc as [Hx Hc]. apply bind_Ok in Hr as (s1 & Hs1 & Hr).
  rewrite Hs1 in Hc. apply IH with s1; [|done|done]. by apply ballot_next with s (ballot_at who) empty_keyring x.
Qed.

Definition ballot_calls : list (Z * ballot_call) :=
  [(3, DStake 3 100); (4, DStake 4 400); (6, DStake 6 50); (3, DDelegate 3 5); (4, DUnstake 4 100); (4, DDelegate 4 5); (6, DSync 6)].

Definition ballot_store : ballots := match run_ballots empty_ballots ballot_calls with Ok s => s | _ => empty_ballots end.

Lemma ballot_store_history : ballot_history ballot_store.
Proof.
  apply (run_ballots_history ballot_calls empty_ballots); [constructor|vm_compute; reflexivity|].
  unfold ballot_store. destruct (is_ok_Ok (run_ballots empty_ballots ballot_calls)) as [s ->]; [vm_compute; reflexivity|done].
Qed.

Lemma stake_votes_once_witness :
  get_delegated_total ballot_store 5 = 400 /\ get_voting_weight ballot_store 6 = 50 /\
  get_delegated_total ballot_store 5 = msum (fun _ x => if decide (dg_to x = 5) then dg_amount x else 0) (delegations ballot_store).
Proof.
  split; [vm_compute; reflexivity|]. split; [vm_compute; reflexivity|].
  exact (proj1 (stake_votes_once (H := test_host) ballot_store ballot_store_history) 5).
Defined.

Definition delegated_6 : ballots := match delegate ballot_store 6 5 with Ok s => s | _ => ballot_store end.

Definition no_delegation (s : ballots) (a : Z) : bool := match get_delegation s a with None => true | Some _ => false end.

Lemma no_delegation_ok (s : ballots) (a : Z) : no_delegation s a = true -> get_delegation s a = None.
Proof. unfold no_delegation. by destruct (get_delegation s a). Qed.

Lemma undelegate_restores_witness :
  get_delegated_total delegated_6 5 = 450 /\
  exists s2 e, undelegate delegated_6 6 = Ok (s2, e) /\ get_voting_weight s2 6 = get_voting_weight ballot_store 6.
Proof.
  split; [vm_compute; reflexivity|].
  assert (get_delegation ballot_store 6 = None) as Hn by (apply no_delegation_ok; vm_compute; reflexivity).
  assert (delegate ballot_store 6 5 = Ok delegated_6) as Hd.
  { unfold delegated_6. destruct (is_ok_Ok (delegate ballot_store 6 5)) as [s ->]; [vm_compute; reflexivity|done]. }
  destruct (undelegate_restores (H := test_host) ballot_store delegated_6 6 5 ballot_store_history Hn Hd) as (s2 & E & Hq).
  exists s2. eexists. split; [exact E|]. exact (proj1 (Hq 6)).
Defined.

Definition delegation_of (a : Z) : Delegation := default {| dg_to := 0; dg_amount := 0 |} (get_delegation ballot_store a).

Lemma delegation_of_ok (a : Z) : no_delegation ballot_store a = false -> get_delegation ballot_store a = Some (delegation_of a).
Proof. unfold no_delegation, delegation_of. by destruct (get_delegation ballot_store a). Qed.

Lemma sync_counts_whole_delegate_witness :
  exists s1 s2 s3 e,
    sync_voting_weight ballot_store 3 = Ok (s1, 100) /\ sync_voting_weight s1 4 = Ok (s2, 300) /\ undelegate s2 4 = Ok (s3, e) /\
    get_governance_stake s3 4 = 300 /\ get_voting_weight s3 4 = 500.
Proof.
  assert (get_delegation ballot_store 3 = Some (delegation_of 3)) as H3 by (apply delegation_of_ok; vm_compute; reflexivity).
  assert (get_delegation ballot_store 4 = Some (delegation_of 4)) as H4 by (apply delegation_of_ok; vm_compute; reflexivity).
  destruct (sync_counts_whole_delegate (H := test_host) ballot_store 3 4 _ _ ballot_store_history H3 H4
    ltac:(vm_compute; reflexivity) ltac:(vm_compute; reflexivity) ltac:(vm_compute; discriminate))
    as (s1 & s2 & s3 & e & E1 & _ & _ & _ & _ & E2 & E3 & E4 & E5).
  exists s1, s2, s3, e. split; [exact E1|]. split; [exact E2|]. split; [exact E3|]. split; [exact E4|exact E5].
Defined.
End witnesses.
