(* ===== verification/Remittance.v ===== *)
(** * Remittance escrow contract

    [src/contracts/remittance-escrow/src/] (lib.rs, types.rs): senders escrow a
    remittance for an anchor, which posts a bond; the anchor proves its payout, or the
    sender disputes it a day after the deadline and is refunded, while the bond is
    slashed and seized. The source names its error type both [ContractError] and
    [Error]: the model has one. Events, with the sequence numbers the source draws for
    them from a function it does not define, are left out. *)

From stdpp Require Import base numbers list gmap.
From Stdlib Require Import ZArith Lia.
From S2P Require Import Prelude Host Token.

Open Scope Z_scope.

Definition DISPUTE_WINDOW_SECS : Z := 86400.
Definition BOND_MIN : Z := 20000.
Definition BOND_SLASH_PERCENT : Z := 20.

Inductive ContractError :=
  | NotInitialized | AlreadyInitialized | Unauthorized | ZeroAmount | RemittanceNotFound | AlreadyResolved
  | TooEarlyToDispute | ArithmeticOverflow | InsufficientBond | TreasuryNotSet.

Definition error_code (e : ContractError) : Z :=
  match e with
  | NotInitialized => 1 | AlreadyInitialized => 2 | Unauthorized => 3 | ZeroAmount => 4 | RemittanceNotFound => 5
  | AlreadyResolved => 6 | TooEarlyToDispute => 7 | ArithmeticOverflow => 8 | InsufficientBond => 9 | TreasuryNotSet => 10
  end.

Abbreviation V := (result ContractError).

Inductive RemittanceStatus := Pending | Completed | Refunded.

#[export] Instance RemittanceStatus_eq_dec : EqDecision RemittanceStatus.
Proof. solve_decision. Defined.

Section escrow.
Context {H : Host} {T : Tokens H}.

Record Remittance := {
  id : Z;
  sender : Address;
  anchor : Address;
  amount : Z;
  deadline : Z;
  status : RemittanceStatus;
  proof : bytes
}.

(** The storage: one field per key, [Initialized] being set or not. *)
Record DataKey := {
  Admin : option Address;
  Token : option Address;
  Initialized : bool;
  NextRemittanceId : option Z;
  Remittances : gmap Z Remittance;
  Collateral : gmap Address Z;
  Treasury : option Address;
  BondLocked : gmap Address bool;
  PendingRemittances : gmap Address Z
}.

Definition empty_storage : DataKey := {|
  Admin := None; Token := None; Initialized := false; NextRemittanceId := None; Remittances := ∅; Collateral := ∅;
  Treasury := None; BondLocked := ∅; PendingRemittances := ∅ |}.

(** The invocation, and the world it runs in. *)
Record env := { auth : Address -> bool; current_contract : Address; timestamp : Z }.
Record world := { store : DataKey; ledger : Ledger }.

Definition set_remittance (s : DataKey) (x : Remittance) : DataKey := {|
  Admin := Admin s; Token := Token s; Initialized := Initialized s; NextRemittanceId := NextRemittanceId s;
  Remittances := <[id x := x]> (Remittances s); Collateral := Collateral s; Treasury := Treasury s;
  BondLocked := BondLocked s; PendingRemittances := PendingRemittances s |}.

Definition set_collateral_balance (s : DataKey) (a : Address) (balance : Z) : DataKey := {|
  Admin := Admin s; Token := Token s; Initialized := Initialized s; NextRemittanceId := NextRemittanceId s;
  Remittances := Remittances s; Collateral := <[a := balance]> (Collateral s); Treasury := Treasury s;
  BondLocked := BondLocked s; PendingRemittances := PendingRemittances s |}.

Definition set_next_id (s : DataKey) (n : Z) : DataKey := {|
  Admin := Admin s; Token := Token s; Initialized := Initialized s; NextRemittanceId := Some n;
  Remittances := Remittances s; Collateral := Collateral s; Treasury := Treasury s;
  BondLocked := BondLocked s; PendingRemittances := PendingRemittances s |}.

Definition set_pending_remittances (s : DataKey) (a : Address) (count : Z) : DataKey := {|
  Admin := Admin s; Token := Token s; Initialized := Initialized s; NextRemittanceId := NextRemittanceId s;
  Remittances := Remittances s; Collateral := Collateral s; Treasury := Treasury s;
  BondLocked := BondLocked s; PendingRemittances := <[a := count]> (PendingRemittances s) |}.

Definition set_bond_locked (s : DataKey) (a : Address) (locked : bool) : DataKey := {|
  Admin := Admin s; Token := Token s; Initialized := Initialized s; NextRemittanceId := NextRemittanceId s;
  Remittances := Remittances s; Collateral := Collateral s; Treasury := Treasury s;
  BondLocked := <[a := locked]> (BondLocked s); PendingRemittances := PendingRemittances s |}.

Definition require_initialized (s : DataKey) : V unit := fail_if (negb (Initialized s)) NotInitialized.

Definition get_token (s : DataKey) : V Address := ok_or (Token s) NotInitialized.

Definition get_remittance (s : DataKey) (n : Z) : V Remittance := ok_or (Remittances s !! n) RemittanceNotFound.

Definition get_collateral_balance (s : DataKey) (a : Address) : Z := default 0 (Collateral s !! a).

Definition get_pending_remittances (s : DataKey) (a : Address) : Z := default 0 (PendingRemittances s !! a).

Definition is_bond_locked (s : DataKey) (a : Address) : bool := default false (BondLocked s !! a).

Definition get_treasury (s : DataKey) : V Address := ok_or (Treasury s) TreasuryNotSet.

Definition decrement_pending_and_unlock (s : DataKey) (a : Address) : DataKey :=
  let pending := get_pending_remittances s a in
  let next := if 0 <? pending then pending - 1 else 0 in
  let s1 := set_pending_remittances s a next in
  if (next =? 0) && is_bond_locked s1 a then set_bond_locked s1 a false else s1.

(** [token_client.transfer(from, to, amount)]: the host traps when it fails. *)
Definition pay (w : world) (token from to : Address) (amt : Z) : V world :=
  l ← unwrap (transfer (ledger w) token from to amt);
  mret {| store := store w; ledger := l |}.

Definition with_store (w : world) (s : DataKey) : world := {| store := s; ledger := ledger w |}.

(** ** Entry points *)
Definition initialize (w : world) (admin token : Address) : V world :=
  let s := store w in
  _ ← fail_if (Initialized s) AlreadyInitialized;
  mret (with_store w {|
    Admin := Some admin; Token := Some token; Initialized := true; NextRemittanceId := Some 0;
    Remittances := Remittances s; Collateral := Collateral s; Treasury := Treasury s;
    BondLocked := BondLocked s; PendingRemittances := PendingRemittances s |}).

Definition set_treasury (i : env) (w : world) (admin treasury : Address) : V world :=
  let s := store w in
  _ ← require_initialized s;
  _ ← require_auth (auth i) admin;
  configured_admin ← ok_or (Admin s) NotInitialized;
  _ ← fail_if (bool_decide (configured_admin <> admin)) Unauthorized;
  mret (with_store w {|
    Admin := Admin s; Token := Token s; Initialized := Initialized s; NextRemittanceId := NextRemittanceId s;
    Remittances := Remittances s; Collateral := Collateral s; Treasury := Some treasury;
    BondLocked := BondLocked s; PendingRemittances := PendingRemittances s |}).

Definition create_remittance (i : env) (w : world) (from to : Address) (amt deadline_secs : Z) : V (world * Z) :=
  _ ← require_initialized (store w);
  _ ← require_auth (auth i) from;
  _ ← fail_if (amt <=? 0) ZeroAmount;
  _ ← fail_if (get_collateral_balance (store w) to <? BOND_MIN) InsufficientBond;
  due ← ok_or (checked_add U64 (timestamp i) deadline_secs) ArithmeticOverflow;
  token ← get_token (store w);
  w1 ← pay w token from (current_contract i) amt;
  let s1 := store w1 in
  let n := default 0 (NextRemittanceId s1) in
  next_id ← ok_or (checked_add U64 n 1) ArithmeticOverflow;
  let s2 := set_next_id s1 next_id in
  let s3 := set_remittance s2 {| id := n; sender := from; anchor := to; amount := amt; deadline := due;
                                 status := Pending; proof := [] |} in
  next_pending ← ok_or (checked_add U32 (get_pending_remittances s3 to) 1) ArithmeticOverflow;
  let s4 := set_pending_remittances s3 to next_pending in
  let s5 := if next_pending =? 1 then set_bond_locked s4 to true else s4 in
  mret (with_store w1 s5, n).

Definition resolve (x : Remittance) (st : RemittanceStatus) (p : bytes) : Remittance :=
  {| id := id x; sender := sender x; anchor := anchor x; amount := amount x; deadline := deadline x;
     status := st; proof := p |}.

Definition submit_payout_proof (i : env) (w : world) (by_ : Address) (n : Z) (p : bytes) : V world :=
  _ ← require_initialized (store w);
  _ ← require_auth (auth i) by_;
  x ← get_remittance (store w) n;
  _ ← fail_if (bool_decide (anchor x <> by_)) Unauthorized;
  _ ← fail_if (bool_decide (status x <> Pending)) AlreadyResolved;
  let s1 := set_remittance (store w) (resolve x Completed p) in
  mret (with_store w (decrement_pending_and_unlock s1 (anchor x))).

Definition deposit_collateral (i : env) (w : world) (a : Address) (amt : Z) : V world :=
  _ ← require_initialized (store w);
  _ ← require_auth (auth i) a;
  _ ← fail_if (amt <=? 0) ZeroAmount;
  token ← get_token (store w);
  w1 ← pay w token a (current_contract i) amt;
  total ← ok_or (checked_add I128 (get_collateral_balance (store w1) a) amt) ArithmeticOverflow;
  mret (with_store w1 (set_collateral_balance (store w1) a total)).

Definition deposit_bond (i : env) (w : world) (a : Address) (amt : Z) : V world := deposit_collateral i w a amt.

(** The slash of a dispute: a fifth of the bond goes to the treasury. *)
Definition slash_bond (i : env) (w : world) (a treasury : Address) : V world :=
  let current_bond := get_collateral_balance (store w) a in
  if 0 <? current_bond then
    product ← imul I128 current_bond BOND_SLASH_PERCENT;
    slash ← idiv I128 product 100;
    if 0 <? slash then
      token ← get_token (store w);
      w1 ← pay w token (current_contract i) treasury slash;
      remaining ← ok_or (checked_sub I128 current_bond slash) ArithmeticOverflow;
      mret (with_store w1 (set_collateral_balance (store w1) a remaining))
    else mret w
  else mret w.

(** The seizure of a dispute: up to the amount of the remittance. *)
Definition lock_collateral (w : world) (a : Address) (amt : Z) : V (world * Z) :=
  let available := get_collateral_balance (store w) a in
  let locked := if available <? amt then available else amt in
  if 0 <? locked then
    remaining ← ok_or (checked_sub I128 available locked) ArithmeticOverflow;
    mret (with_store w (set_collateral_balance (store w) a remaining), locked)
  else mret (w, locked).

Definition open_dispute (i : env) (w : world) (by_ : Address) (n : Z) : V (world * Z) :=
  _ ← require_initialized (store w);
  _ ← require_auth (auth i) by_;
  x ← get_remittance (store w) n;
  _ ← fail_if (bool_decide (sender x <> by_)) Unauthorized;
  _ ← fail_if (bool_decide (status x <> Pending)) AlreadyResolved;
  dispute_open_at ← ok_or (checked_add U64 (deadline x) DISPUTE_WINDOW_SECS) ArithmeticOverflow;
  _ ← fail_if (timestamp i <? dispute_open_at) TooEarlyToDispute;
  treasury ← get_treasury (store w);
  w1 ← slash_bond i w (anchor x) treasury;
  r ← lock_collateral w1 (anchor x) (amount x);
  token ← get_token (store r.1);
  w3 ← pay r.1 token (current_contract i) by_ (amount x);
  let s4 := set_remittance (store w3) (resolve x Refunded (proof x)) in
  mret (with_store w3 (decrement_pending_and_unlock s4 (anchor x)), r.2).

Definition get_collateral (s : DataKey) (a : Address) : Z := get_collateral_balance s a.

Definition get_pending_remittance_count (s : DataKey) (a : Address) : Z := get_pending_remittances s a.

Definition get_admin (s : DataKey) : V Address := unwrap (Admin s).

Definition get_treasury_address (s : DataKey) : option Address := Treasury s.
End escrow.
