(* ===== verification/RemittanceTheorems.v ===== *)
(** * Remittance escrow contract: the properties

    Histories with the total seized from bonds: what the contract holds, that each
    remittance is resolved once, the counters and locks of the anchors, what a dispute
    does exactly, and who can be paid at all. *)

From stdpp Require Import base numbers list gmap.
From Stdlib Require Import ZArith Lia.
From S2P Require Import Prelude Host Token Remittance.

Open Scope Z_scope.

Section claims.
Context {H : Host} {T : Tokens H} {TL : TokenLaws H T}.
Context (self : Address).

Inductive escrow_call :=
  | EInitialize (admin token : Address)
  | ETreasury (admin treasury : Address)
  | ECreate (from to : Address) (amt deadline_secs : Z)
  | EProof (by_ : Address) (n : Z) (p : bytes)
  | EDeposit (a : Address) (amt : Z)
  | EDispute (by_ : Address) (n : Z).

(** The new world, and what the call seized from a bond. *)
Definition run_escrow (i : env) (w : world) (x : escrow_call) : V (world * Z) :=
  match x with
  | EInitialize admin token => w' ← initialize w admin token; mret (w', 0)
  | ETreasury admin treasury => w' ← set_treasury i w admin treasury; mret (w', 0)
  | ECreate from to amt deadline_secs => r ← create_remittance i w from to amt deadline_secs; mret (r.1, 0)
  | EProof by_ n p => w' ← submit_payout_proof i w by_ n p; mret (w', 0)
  | EDeposit a amt => w' ← deposit_collateral i w a amt; mret (w', 0)
  | EDispute by_ n => open_dispute i w by_ n
  end.

(** Calls to this contract by users: it neither calls itself nor is its own treasury. *)
Definition user_call (i : env) (x : escrow_call) : Prop :=
  current_contract i = self /\ auth i self = false /\
  match x with ETreasury _ treasury => treasury <> self | _ => True end.

Inductive escrow_history (l0 : Ledger) : world -> Z -> Prop :=
  | escrow_start : escrow_history l0 {| store := empty_storage; ledger := l0 |} 0
  | escrow_next w seized i x w' y :
      escrow_history l0 w seized -> user_call i x -> run_escrow i w x = Ok (w', y) -> escrow_history l0 w' (seized + y).

(** ** The invariant *)

(** The amounts of the remittances that were not refunded, and the bonds. *)
Definition kept (x : Remittance) : Z := if decide (status x = Refunded) then 0 else amount x.
Definition owed (s : DataKey) : Z := msum (fun _ => kept) (Remittances s).
Definition bonds (s : DataKey) : Z := msum (fun _ v => v) (Collateral s).

Definition pends_for (a : Address) (x : Remittance) : Z := if decide (status x = Pending /\ anchor x = a) then 1 else 0.

Record books_ok (s : DataKey) : Prop := {
  bo_ids : forall n x, Remittances s !! n = Some x -> id x = n /\ n < default 0 (NextRemittanceId s) /\ 0 < amount x;
  bo_count : forall a, get_pending_remittances s a = msum (fun _ => pends_for a) (Remittances s);
  bo_lock : forall a, is_bond_locked s a = (0 <? get_pending_remittances s a);
  bo_bond : forall a v, Collateral s !! a = Some v -> 0 <= v
}.

Record escrow_ok (l0 : Ledger) (w : world) (seized : Z) : Prop := {
  eo_books : books_ok (store w);
  eo_balance : forall t, balance (ledger w) t self = balance l0 t self +
    if decide (Token (store w) = Some t) then owed (store w) + bonds (store w) + seized else 0;
  eo_treasury : Treasury (store w) <> Some self;
  eo_empty : Initialized (store w) = false ->
    Remittances (store w) = ∅ /\ Collateral (store w) = ∅ /\ Token (store w) = None /\ seized = 0;
  eo_token : Initialized (store w) = true -> is_Some (Token (store w))
}.

Lemma pends_nonneg (a : Address) (x : Remittance) : 0 <= pends_for a x.
Proof. unfold pends_for. by destruct (decide _). Qed.

Lemma count_nonneg (s : DataKey) (a : Address) : books_ok s -> 0 <= get_pending_remittances s a.
Proof. intros Hb. rewrite (bo_count s Hb). apply msum_nonneg. intros. apply pends_nonneg. Qed.

Lemma bond_nonneg (s : DataKey) (a : Address) : books_ok s -> 0 <= get_collateral_balance s a.
Proof. intros Hb. unfold get_collateral_balance. destruct (Collateral s !! a) eqn:E; [by apply (bo_bond s Hb a)|done]. Qed.

(** ** Payments *)
Lemma remit_pay_Ok (w w' : world) (token from to : Address) (amt : Z) :
  pay w token from to amt = Ok w' ->
  store w' = store w /\ 0 <= amt <= balance (ledger w) token from /\
  forall t a, balance (ledger w') t a = balance (ledger w) t a - at_account token from t a amt + at_account token to t a amt.
Proof.
  intros Hr. apply bind_Ok in Hr as (l & Hl%unwrap_Ok & Hr). injection Hr as <-. split; [done|].
  by apply transfer_spec in Hl.
Qed.

Lemma pay_eq (w : world) (token from to : Address) (amt : Z) (l : Ledger) :
  transfer (ledger w) token from to amt = Some l -> pay w token from to amt = Ok {| store := store w; ledger := l |}.
Proof. intros E. unfold pay. by rewrite E. Qed.

(** What a payment does to the balances of the contract. *)
Lemma pay_in (w w' : world) (token from : Address) (amt : Z) :
  from <> self -> pay w token from self amt = Ok w' ->
  forall t, balance (ledger w') t self = balance (ledger w) t self + if decide (t = token) then amt else 0.
Proof.
  intros Hne (_ & _ & Hb)%remit_pay_Ok t. rewrite Hb. unfold at_account. rewrite (decide_False (P := t = token /\ self = from)) by naive_solver.
  destruct (decide (t = token)); [rewrite decide_True by done|rewrite decide_False by tauto]; lia.
Qed.

Lemma pay_out (w w' : world) (token to : Address) (amt : Z) :
  to <> self -> pay w token self to amt = Ok w' ->
  forall t, balance (ledger w') t self = balance (ledger w) t self - if decide (t = token) then amt else 0.
Proof.
  intros Hne (_ & _ & Hb)%remit_pay_Ok t. rewrite Hb. unfold at_account. rewrite (decide_False (P := t = token /\ self = to)) by naive_solver.
  destruct (decide (t = token)); [rewrite decide_True by done|rewrite decide_False by tauto]; lia.
Qed.

(** The keys that only the administration writes. *)
Definition frame (s s' : DataKey) : Prop :=
  Admin s' = Admin s /\ Token s' = Token s /\ Initialized s' = Initialized s /\ Treasury s' = Treasury s.

(** ** Bonds *)
Lemma set_bond_ok (s : DataKey) (a : Address) (v : Z) :
  books_ok s -> 0 <= v ->
  let s' := set_collateral_balance s a v in
  books_ok s' /\ frame s s' /\ owed s' = owed s /\ bonds s' = bonds s - get_collateral_balance s a + v /\
  Remittances s' = Remittances s.
Proof.
  intros [B1 B2 B3 B4] Hv s'. split; [constructor; try done|].
  - intros b z. cbn. intros [[<- <-]|[_ Hz]]%lookup_insert_Some; [done|by apply (B4 b)].
  - split; [done|]. split; [done|]. split; [|done]. unfold bonds. cbn [Collateral s' set_collateral_balance]. rewrite msum_insert.
    unfold term, get_collateral_balance. by destruct (Collateral s !! a).
Qed.

(** ** Resolution of a pending remittance *)
Lemma decrement_frame (s : DataKey) (a : Address) :
  let s' := decrement_pending_and_unlock s a in
  frame s s' /\ NextRemittanceId s' = NextRemittanceId s /\ Remittances s' = Remittances s /\ Collateral s' = Collateral s.
Proof. unfold decrement_pending_and_unlock. by destruct ((_ =? 0) && _). Qed.

Lemma decrement_counts (s : DataKey) (a : Address) :
  let s' := decrement_pending_and_unlock s a in
  1 <= get_pending_remittances s a -> is_bond_locked s a = true ->
  forall b, get_pending_remittances s' b = get_pending_remittances s b - (if decide (b = a) then 1 else 0) /\
    is_bond_locked s' b = if decide (b = a) then 0 <? get_pending_remittances s a - 1 else is_bond_locked s b.
Proof.
  intros s' H1 Hl b. unfold s', decrement_pending_and_unlock. rewrite (proj2 (Z.ltb_lt 0 _)) by lia.
  change (is_bond_locked (set_pending_remittances s a _) a) with (is_bond_locked s a). rewrite Hl, andb_true_r.
  set (n := get_pending_remittances s a - 1).
  assert (forall s2, PendingRemittances s2 = <[a := n]> (PendingRemittances s) ->
    get_pending_remittances s2 b = get_pending_remittances s b - (if decide (b = a) then 1 else 0)) as Hc.
  { intros s2 E. unfold get_pending_remittances at 1. rewrite E. destruct (decide (b = a)) as [->|].
    - rewrite lookup_insert_eq. done.
    - rewrite lookup_insert_ne by done. unfold get_pending_remittances. lia. }
  destruct (Z.eqb_spec n 0) as [Hn|Hn]; (split; [by apply Hc|]); unfold is_bond_locked; cbn [BondLocked set_bond_locked set_pending_remittances].
  - rewrite Hn. destruct (decide (b = a)) as [->|]; [by rewrite lookup_insert_eq|by rewrite lookup_insert_ne].
  - destruct (decide (b = a)) as [->|]; [|done]. rewrite (proj2 (Z.ltb_lt 0 n)) by lia. exact Hl.
Qed.

Lemma resolve_ok (s : DataKey) (n : Z) (x : Remittance) (st : RemittanceStatus) (p : bytes) :
  books_ok s -> Remittances s !! n = Some x -> status x = Pending -> st <> Pending ->
  let s' := decrement_pending_and_unlock (set_remittance s (resolve x st p)) (anchor x) in
  books_ok s' /\ frame s s' /\ bonds s' = bonds s /\
  owed s' = owed s - (if decide (st = Refunded) then amount x else 0) /\
  Remittances s' = <[n := resolve x st p]> (Remittances s).
Proof.
  intros Hb Hx Hp Hst s'. pose proof Hb as [B1 B2 B3 B4]. destruct (B1 n x Hx) as (Hid & Hn & Ham).
  set (s1 := set_remittance s (resolve x st p)) in *. set (a := anchor x) in *.
  destruct (decrement_frame s1 a) as (Hf & En & Er & Ec). fold s' in Hf, En, Er, Ec.
  assert (Remittances s' = <[n := resolve x st p]> (Remittances s)) as Em by (rewrite Er; cbn; by rewrite Hid).
  assert (1 <= get_pending_remittances s a) as H1.
  { rewrite B2. pose proof (msum_term_le (fun _ => pends_for a) (Remittances s) n) as Ht. unfold term in Ht. rewrite Hx in Ht.
    unfold pends_for at 2 in Ht. rewrite decide_True in Ht by done. apply Ht. intros. apply pends_nonneg. }
  assert (is_bond_locked s a = true) as Hl by (rewrite B3; apply Z.ltb_lt; lia).
  pose proof (decrement_counts s1 a H1 Hl) as Hcnt. fold s' in Hcnt.
  split; [|split; [exact Hf|split; [|split; [|exact Em]]]].
  - constructor.
    + intros m y. rewrite Em, En. intros [[<- <-]|[_ Hy]]%lookup_insert_Some; [done|by apply B1].
    + intros b. rewrite (proj1 (Hcnt b)), Em, msum_insert. change (get_pending_remittances s1 b) with (get_pending_remittances s b).
      rewrite B2. unfold term. rewrite Hx. unfold pends_for at 3 4.
      rewrite (decide_False (P := status (resolve x st p) = Pending /\ _)) by (cbn; tauto). fold a. rewrite Hp.
      destruct (decide (b = a)) as [->|]; [rewrite decide_True by done|rewrite decide_False by naive_solver]; lia.
    + intros b. destruct (Hcnt b) as [-> ->]. change (get_pending_remittances s1 ?b) with (get_pending_remittances s b).
      destruct (decide (b = a)) as [->|]; [done|]. change (is_bond_locked s1 b) with (is_bond_locked s b). rewrite B3. f_equal. lia.
    + rewrite Ec. exact B4.
  - unfold bonds. by rewrite Ec.
  - unfold owed. rewrite Em, msum_insert. unfold term. rewrite Hx. unfold kept at 2 3. rewrite Hp.
    rewrite (decide_False (P := Pending = Refunded)) by done. cbn [status resolve amount]. destruct (decide _); lia.
Qed.

(** ** The calls keep the invariant *)

(** How a call changes the remittances. *)
Definition records_step (s s' : DataKey) : Prop :=
  Remittances s' = Remittances s \/
  (exists n x, Remittances s !! n = None /\ status x = Pending /\ Remittances s' = <[n := x]> (Remittances s)) \/
  (exists n x st p, Remittances s !! n = Some x /\ status x = Pending /\ st <> Pending /\
     Remittances s' = <[n := resolve x st p]> (Remittances s)).

(** Nobody but the contract and [payee] gains. *)
Definition only_pays (w w' : world) (payee : Address -> Prop) : Prop :=
  forall t b, b <> self -> balance (ledger w) t b < balance (ledger w') t b -> payee b.

Lemma pay_in_pays (w w' : world) (token from : Address) (amt : Z) (P : Address -> Prop) :
  pay w token from self amt = Ok w' -> only_pays w w' P.
Proof.
  intros (_ & Ha & Hb)%remit_pay_Ok t b Hne. rewrite Hb. unfold at_account.
  rewrite (decide_False (P := t = token /\ b = self)) by tauto. destruct (decide _); lia.
Qed.

Lemma pay_out_pays (w w' : world) (token from to : Address) (amt : Z) :
  pay w token from to amt = Ok w' -> only_pays w w' (fun b => b = to).
Proof.
  intros (_ & Ha & Hb)%remit_pay_Ok t b Hne. rewrite Hb. unfold at_account.
  destruct (decide (b = to)) as [|Hd]; [done|]. rewrite (decide_False (P := t = token /\ b = to)) by tauto.
  destruct (decide _); lia.
Qed.

Lemma only_pays_trans (w w1 w2 : world) (P : Address -> Prop) :
  only_pays w w1 P -> only_pays w1 w2 P -> only_pays w w2 P.
Proof.
  intros H1 H2 t b Hne Hlt. destruct (Z.lt_ge_cases (balance (ledger w) t b) (balance (ledger w1) t b)).
  - by apply (H1 t).
  - apply (H2 t); [done|lia].
Qed.

Lemma only_pays_refl (w w' : world) (P : Address -> Prop) : ledger w' = ledger w -> only_pays w w' P.
Proof. intros E t b _. rewrite E. lia. Qed.

Lemma only_pays_mono (w w' : world) (P Q : Address -> Prop) : (forall b, P b -> Q b) -> only_pays w w' P -> only_pays w w' Q.
Proof. intros Hi HP t b Hne Hlt. by apply Hi, (HP t). Qed.

Section step.
Context (l0 : Ledger) (w : world) (seized : Z) (Hok : escrow_ok l0 w seized) (i : env).

Lemma token_of (token : Address) : get_token (store w) = Ok token -> Token (store w) = Some token.
Proof. by intros ?%ok_or_Ok. Qed.

Lemma initialize_step (w' : world) (admin token : Address) :
  initialize w admin token = Ok w' ->
  escrow_ok l0 w' seized /\ records_step (store w) (store w') /\ ledger w' = ledger w.
Proof.
  intros Hr. apply bind_Ok in Hr as ([] & Hi%fail_if_Ok & Hr). injection Hr as <-.
  destruct (eo_empty _ _ _ Hok Hi) as (Er & Ec & Et & Es). pose proof (eo_books _ _ _ Hok) as [B1 B2 B3 B4].
  split; [|split; [by left|done]]. constructor.
  - constructor; cbn; try done. rewrite Er. by intros.
  - intros t. cbn [ledger store with_store Token]. rewrite (eo_balance _ _ _ Hok t), Et, (decide_False (P := None = _)) by done.
    unfold owed, bonds. cbn [Remittances Collateral]. rewrite Er, Ec, !msum_empty, Es. by destruct (decide _).
  - apply (eo_treasury _ _ _ Hok).
  - done.
  - intros _. by eexists.
Qed.

Lemma treasury_step (w' : world) (admin treasury : Address) :
  treasury <> self -> set_treasury i w admin treasury = Ok w' ->
  escrow_ok l0 w' seized /\ records_step (store w) (store w') /\ ledger w' = ledger w.
Proof.
  intros Hne Hr. apply bind_Ok in Hr as ([] & Hi%fail_if_Ok%negb_false_iff & Hr). apply bind_Ok in Hr as ([] & _ & Hr).
  apply bind_Ok in Hr as (a & _ & Hr). apply bind_Ok in Hr as ([] & _ & Hr). injection Hr as <-.
  destruct Hok as [[B1 B2 B3 B4] E2 E3 E4 E5]. split; [|split; [by left|done]]. constructor; try done.
  cbn. congruence.
Qed.

Lemma deposit_step (w' : world) (a : Address) (amt : Z) :
  current_contract i = self -> auth i self = false -> deposit_collateral i w a amt = Ok w' ->
  escrow_ok l0 w' seized /\ records_step (store w) (store w') /\ forall P, only_pays w w' P.
Proof.
  intros Ec Hns Hr. unfold deposit_collateral in Hr. apply bind_Ok in Hr as ([] & Hi%fail_if_Ok%negb_false_iff & Hr).
  apply bind_Ok in Hr as ([] & Hau%require_auth_Ok & Hr). apply bind_Ok in Hr as ([] & Ha%fail_if_Ok%Z.leb_gt & Hr).
  apply bind_Ok in Hr as (token & Ht%token_of & Hr). apply bind_Ok in Hr as (w1 & Hw1 & Hr). rewrite Ec in Hw1.
  apply bind_Ok in Hr as (v & [-> _]%ok_or_Ok%chk_Some & Hr). injection Hr as <-.
  pose proof (proj1 (remit_pay_Ok _ _ _ _ _ _ Hw1)) as Es. rewrite Es in *.
  pose proof (bond_nonneg (store w) a (eo_books _ _ _ Hok)) as Hn.
  destruct (set_bond_ok (store w) a (get_collateral_balance (store w) a + amt) (eo_books _ _ _ Hok) ltac:(lia)) as (Hb & (F1 & F2 & F3 & F4) & Eo & Ebd & Er).
  split; [constructor|split].
  - exact Hb.
  - intros t. cbn [ledger store with_store]. rewrite (pay_in w w1 token a amt) by (congruence || done).
    rewrite (eo_balance _ _ _ Hok t), F2, Eo, Ebd, Ht. destruct (decide (t = token)) as [->|]; [rewrite !decide_True by done|rewrite !decide_False by congruence]; lia.
  - apply (eo_treasury _ _ _ Hok).
  - cbn. congruence.
  - apply (eo_token _ _ _ Hok).
  - by left.
  - intros P. exact (pay_in_pays w w1 token a amt P Hw1).
Qed.

Lemma create_step (w' : world) (from to : Address) (amt deadline_secs y : Z) :
  current_contract i = self -> auth i self = false -> create_remittance i w from to amt deadline_secs = Ok (w', y) ->
  escrow_ok l0 w' seized /\ records_step (store w) (store w') /\ forall P, only_pays w w' P.
Proof.
  intros Ec Hns Hr. unfold create_remittance in Hr. apply bind_Ok in Hr as ([] & Hi%fail_if_Ok%negb_false_iff & Hr).
  apply bind_Ok in Hr as ([] & Hau%require_auth_Ok & Hr). apply bind_Ok in Hr as ([] & Ha%fail_if_Ok%Z.leb_gt & Hr).
  apply bind_Ok in Hr as ([] & _ & Hr). apply bind_Ok in Hr as (due & _ & Hr).
  apply bind_Ok in Hr as (token & Ht%token_of & Hr). apply bind_Ok in Hr as (w1 & Hw1 & Hr). rewrite Ec in Hw1.
  pose proof (proj1 (remit_pay_Ok _ _ _ _ _ _ Hw1)) as Es. rewrite Es in *. apply bind_Ok in Hr as (v & [-> _]%ok_or_Ok%chk_Some & Hr).
  set (n := default 0 (NextRemittanceId (store w))) in *. set (x := {| id := n |}) in *.
  apply bind_Ok in Hr as (k & [-> _]%ok_or_Ok%chk_Some & Hr). injection Hr as <- _.
  change (get_pending_remittances _ to) with (get_pending_remittances (store w) to).
  pose proof (eo_books _ _ _ Hok) as Hb. pose proof Hb as [B1 B2 B3 B4]. pose proof (count_nonneg _ to Hb) as Hc.
  assert (Remittances (store w) !! n = None) as Hnew.
  { destruct (Remittances (store w) !! n) as [z|] eqn:E; [|done]. destruct (B1 n z E) as (_ & Hn & _). fold n in Hn. lia. }
  set (s4 := set_pending_remittances _ to _).
  set (s5 := if _ =? 1 then set_bond_locked s4 to true else s4).
  assert (Remittances s5 = <[n := x]> (Remittances (store w)) /\ Collateral s5 = Collateral (store w) /\ frame (store w) s5 /\
    NextRemittanceId s5 = Some (n + 1) /\ (forall b, get_pending_remittances s5 b = get_pending_remittances (store w) b + if decide (b = to) then 1 else 0) /\
    forall b, is_bond_locked s5 b = if decide (b = to) then true else is_bond_locked (store w) b) as (Er & Ecl & Hf & En & Ep & El).
  { assert (forall b, get_pending_remittances s4 b = get_pending_remittances (store w) b + if decide (b = to) then 1 else 0) as E4.
    { intros b. unfold get_pending_remittances at 1, s4. cbn [PendingRemittances set_pending_remittances].
      destruct (decide (b = to)) as [->|]; [by rewrite lookup_insert_eq|]. rewrite lookup_insert_ne by done.
      unfold get_pending_remittances. cbn. lia. }
    unfold s5. destruct (Z.eqb_spec (get_pending_remittances (store w) to + 1) 1) as [E1|E1]; split_and!; try done.
    - intros b. unfold is_bond_locked. cbn. destruct (decide (b = to)) as [->|]; [by rewrite lookup_insert_eq|by rewrite lookup_insert_ne].
    - intros b. change (is_bond_locked s4 b) with (is_bond_locked (store w) b). destruct (decide (b = to)) as [->|]; [|done].
      rewrite B3. apply Z.ltb_lt. lia. }
  destruct Hf as (F1 & F2 & F3 & F4). cbn [store with_store].
  split; [constructor; cbn [store ledger with_store]|split].
  - constructor.
    + intros m z. rewrite Er, En. cbn [default from_option Datatypes.id]. intros [[<- <-]|[_ Hz]]%lookup_insert_Some; [cbn; lia|].
      destruct (B1 m z Hz) as (? & ? & ?). fold n in H1. split; [done|]. unfold Datatypes.id. lia.
    + intros b. rewrite Ep, Er, msum_insert_new by done. rewrite B2. unfold pends_for at 3. cbn [x status anchor].
      destruct (decide (b = to)) as [->|]; [rewrite decide_True by done|rewrite decide_False by naive_solver]; lia.
    + intros b. rewrite El, Ep. destruct (decide (b = to)) as [->|].
      * symmetry. apply Z.ltb_lt. lia.
      * rewrite B3. f_equal. lia.
    + rewrite Ecl. exact B4.
  - intros t. rewrite (pay_in w w1 token from amt) by (congruence || done). rewrite (eo_balance _ _ _ Hok t), F2, Ht.
    unfold owed, bonds. rewrite Er, Ecl, msum_insert_new by done. unfold kept at 3. cbn [x status amount].
    rewrite (decide_False (P := Pending = Refunded)) by done.
    destruct (decide (t = token)) as [->|]; [rewrite !decide_True by done|rewrite !decide_False by congruence]; lia.
  - rewrite F4. apply (eo_treasury _ _ _ Hok).
  - rewrite F3. congruence.
  - rewrite F2, F3. apply (eo_token _ _ _ Hok).
  - right. left. by exists n, x.
  - intros P. exact (pay_in_pays w w1 token from amt P Hw1).
Qed.

Lemma proof_step (w' : world) (by_ : Address) (n : Z) (p : bytes) :
  submit_payout_proof i w by_ n p = Ok w' ->
  escrow_ok l0 w' seized /\ records_step (store w) (store w') /\ ledger w' = ledger w.
Proof.
  intros Hr. unfold submit_payout_proof in Hr. apply bind_Ok in Hr as ([] & Hi%fail_if_Ok%negb_false_iff & Hr).
  apply bind_Ok in Hr as ([] & _ & Hr). apply bind_Ok in Hr as (x & Hx%ok_or_Ok & Hr).
  apply bind_Ok in Hr as ([] & _ & Hr). apply bind_Ok in Hr as ([] & Hp%fail_if_Ok%bool_decide_eq_false%dec_stable & Hr).
  injection Hr as <-.
  destruct (resolve_ok (store w) n x Completed p (eo_books _ _ _ Hok) Hx Hp ltac:(done)) as (Hb & (F1 & F2 & F3 & F4) & Ebd & Eo & Er).
  cbn [store with_store]. split; [constructor; cbn [store ledger with_store]|split; [|done]].
  - exact Hb.
  - intros t. rewrite F2, Eo, Ebd. rewrite (decide_False (P := Completed = Refunded)) by done. rewrite (eo_balance _ _ _ Hok t).
    rewrite Z.sub_0_r. done.
  - rewrite F4. apply (eo_treasury _ _ _ Hok).
  - rewrite F3. congruence.
  - rewrite F2, F3. apply (eo_token _ _ _ Hok).
  - right. right. by exists n, x, Completed, p.
Qed.

(** The balances after a bond was lowered and [out] left the contract. *)
Lemma lower_bond (w1 : world) (a token : Address) (v out y : Z) :
  Token (store w) = Some token -> 0 <= v -> get_collateral_balance (store w) a - v = out + y ->
  (forall t, balance (ledger w1) t self = balance (ledger w) t self - if decide (t = token) then out else 0) ->
  Initialized (store w) = true ->
  escrow_ok l0 (with_store w1 (set_collateral_balance (store w) a v)) (seized + y).
Proof.
  intros Ht Hv Hy Hbal Hi. destruct (set_bond_ok (store w) a v (eo_books _ _ _ Hok) Hv) as (Hb & (F1 & F2 & F3 & F4) & Eo & Ebd & _).
  constructor; cbn [store ledger with_store].
  - exact Hb.
  - intros t. rewrite Hbal, (eo_balance _ _ _ Hok t), F2, Eo, Ebd, Ht.
    destruct (decide (t = token)) as [->|]; [rewrite !decide_True by done|rewrite !decide_False by congruence]; lia.
  - apply (eo_treasury _ _ _ Hok).
  - rewrite F3. congruence.
  - apply (eo_token _ _ _ Hok).
Qed.

Lemma slash_step (w1 : world) (a treasury : Address) :
  current_contract i = self -> Treasury (store w) = Some treasury -> Initialized (store w) = true ->
  slash_bond i w a treasury = Ok w1 ->
  escrow_ok l0 w1 seized /\ frame (store w) (store w1) /\ Remittances (store w1) = Remittances (store w) /\
  only_pays w w1 (fun b => b = treasury).
Proof.
  intros Ec Htr Hi Hr. unfold slash_bond in Hr. destruct (Z.ltb_spec 0 (get_collateral_balance (store w) a)) as [Hc|].
  2: { injection Hr as <-. split; [done|]. split; [done|]. split; [done|]. by apply only_pays_refl. }
  apply bind_Ok in Hr as (p & [-> Hp]%iop_Ok & Hr). apply bind_Ok in Hr as (sl & Hsl & Hr).
  unfold idiv in Hsl. change (100 =? 0) with false in Hsl. apply iop_Ok in Hsl as [-> _]. unfold BOND_SLASH_PERCENT in Hr.
  rewrite Z.quot_div_nonneg in Hr by lia. set (slash := _ * 20 / 100) in *.
  assert (0 <= slash <= get_collateral_balance (store w) a) as Hs
    by (split; [apply Z.div_pos; lia|apply Z.div_le_upper_bound; lia]).
  destruct (Z.ltb_spec 0 slash) as [Hp0|].
  2: { injection Hr as <-. split; [done|]. split; [done|]. split; [done|]. by apply only_pays_refl. }
  apply bind_Ok in Hr as (token & Ht%token_of & Hr). apply bind_Ok in Hr as (w0 & Hw0 & Hr). rewrite Ec in Hw0.
  apply bind_Ok in Hr as (v & [-> _]%ok_or_Ok%chk_Some & Hr). injection Hr as <-.
  pose proof (proj1 (remit_pay_Ok _ _ _ _ _ _ Hw0)) as Es. rewrite Es. split; [|split; [done|split; [done|]]].
  - replace seized with (seized + 0) by lia. apply lower_bond with token slash; [done|lia|lia| |done].
    apply pay_out with treasury; [|done]. intros ->. by apply (eo_treasury _ _ _ Hok).
  - exact (pay_out_pays w w0 token self treasury slash Hw0).
Qed.

Lemma lock_step (w1 : world) (a : Address) (amt y : Z) :
  0 < amt -> Initialized (store w) = true -> lock_collateral w a amt = Ok (w1, y) ->
  escrow_ok l0 w1 (seized + y) /\ frame (store w) (store w1) /\ Remittances (store w1) = Remittances (store w) /\
  ledger w1 = ledger w.
Proof.
  intros Ha Hi Hr. pose proof (bond_nonneg (store w) a (eo_books _ _ _ Hok)) as Hn. unfold lock_collateral in Hr.
  set (locked := if get_collateral_balance (store w) a <? amt then get_collateral_balance (store w) a else amt) in *.
  assert (0 <= locked <= get_collateral_balance (store w) a) as Hl by (unfold locked; destruct (Z.ltb_spec (get_collateral_balance (store w) a) amt); lia).
  destruct (Z.ltb_spec 0 locked).
  - apply bind_Ok in Hr as (v & [-> _]%ok_or_Ok%chk_Some & Hr). injection Hr as <- <-.
    destruct (eo_token _ _ _ Hok Hi) as [token Ht]. split; [|done].
    apply lower_bond with token 0; [done|lia|lia| |done]. intros t. destruct (decide _); lia.
  - injection Hr as <- <-. assert (locked = 0) as -> by lia. rewrite Z.add_0_r. done.
Qed.

Lemma refund_step (w1 w' : world) (x : Remittance) (n : Z) (token : Address) :
  Remittances (store w) !! n = Some x -> status x = Pending -> sender x <> self -> Token (store w) = Some token ->
  Initialized (store w) = true -> pay w token self (sender x) (amount x) = Ok w1 ->
  w' = with_store w1 (decrement_pending_and_unlock (set_remittance (store w1) (resolve x Refunded (proof x))) (anchor x)) ->
  escrow_ok l0 w' seized /\ Remittances (store w') = <[n := resolve x Refunded (proof x)]> (Remittances (store w)).
Proof.
  intros Hx Hp Hns Ht Hi Hw1 ->. pose proof (proj1 (remit_pay_Ok _ _ _ _ _ _ Hw1)) as Es. rewrite Es.
  destruct (resolve_ok (store w) n x Refunded (proof x) (eo_books _ _ _ Hok) Hx Hp ltac:(done)) as (Hb & (F1 & F2 & F3 & F4) & Ebd & Eo & Er).
  split; [constructor; cbn [store ledger with_store]|exact Er].
  - exact Hb.
  - intros t. rewrite (pay_out w w1 token (sender x) (amount x)) by done. rewrite F2, Eo, Ebd, (decide_True (P := Refunded = Refunded)), (eo_balance _ _ _ Hok t), Ht by done.
    destruct (decide (t = token)) as [->|]; [rewrite !decide_True by done|rewrite !decide_False by congruence]; lia.
  - rewrite F4. apply (eo_treasury _ _ _ Hok).
  - rewrite F3. congruence.
  - rewrite F2, F3. apply (eo_token _ _ _ Hok).
Qed.
End step.

Lemma dispute_step (l0 : Ledger) (w w' : world) (seized : Z) (i : env) (by_ : Address) (n y : Z) :
  escrow_ok l0 w seized -> current_contract i = self -> auth i self = false -> open_dispute i w by_ n = Ok (w', y) ->
  escrow_ok l0 w' (seized + y) /\ records_step (store w) (store w') /\
  exists x, Remittances (store w) !! n = Some x /\ only_pays w w' (fun b => b = sender x \/ Treasury (store w) = Some b).
Proof.
  intros Hok Ec Hns Hr. unfold open_dispute in Hr. apply bind_Ok in Hr as ([] & Hi%fail_if_Ok%negb_false_iff & Hr).
  apply bind_Ok in Hr as ([] & Hau%require_auth_Ok & Hr). apply bind_Ok in Hr as (x & Hx%ok_or_Ok & Hr).
  apply bind_Ok in Hr as ([] & Hsn%fail_if_Ok%bool_decide_eq_false%dec_stable & Hr).
  apply bind_Ok in Hr as ([] & Hp%fail_if_Ok%bool_decide_eq_false%dec_stable & Hr).
  apply bind_Ok in Hr as (due & _ & Hr). apply bind_Ok in Hr as ([] & _ & Hr).
  apply bind_Ok in Hr as (treasury & Htr%ok_or_Ok & Hr). apply bind_Ok in Hr as (w1 & Hw1 & Hr).
  destruct (slash_step l0 w seized Hok i w1 (anchor x) treasury Ec Htr Hi Hw1) as (Hok1 & (F1 & F2 & F3 & F4) & Er1 & Hp1).
  apply bind_Ok in Hr as ([w2 y2] & Hw2 & Hr). pose proof (proj2 (proj2 (bo_ids _ (eo_books _ _ _ Hok) n x Hx))) as Ham.
  destruct (lock_step l0 w1 seized Hok1 w2 (anchor x) (amount x) y2 Ham ltac:(congruence) Hw2) as (Hok2 & (G1 & G2 & G3 & G4) & Er2 & El2).
  cbn [fst snd] in Hr. apply bind_Ok in Hr as (token & Ht%ok_or_Ok & Hr). apply bind_Ok in Hr as (w3 & Hw3 & Hr). rewrite Ec in Hw3.
  rewrite <- Hsn in Hw3. injection Hr as <- <-.
  destruct (refund_step l0 w2 (seized + y2) Hok2 w3 _ x n token ltac:(congruence) Hp ltac:(congruence) Ht ltac:(congruence) Hw3 eq_refl) as (Hok3 & Er3).
  split; [exact Hok3|]. split.
  - right. right. exists n, x, Refunded, (proof x). split_and!; try done. rewrite Er3. congruence.
  - exists x. split; [done|]. apply only_pays_trans with w1.
    + apply only_pays_mono with (2 := Hp1). intros b ->. by right.
    + apply only_pays_trans with w2; [by apply only_pays_refl|]. intros t b Hne Hlt. left.
      exact (pay_out_pays w2 w3 token self (sender x) (amount x) Hw3 t b Hne Hlt).
Qed.

Lemma escrow_step (l0 : Ledger) (w w' : world) (seized : Z) (i : env) (x : escrow_call) (y : Z) :
  escrow_ok l0 w seized -> user_call i x -> run_escrow i w x = Ok (w', y) ->
  escrow_ok l0 w' (seized + y) /\ records_step (store w) (store w') /\
  only_pays w w' (fun b => match x with
    | EDispute _ n => Treasury (store w) = Some b \/ exists r, Remittances (store w) !! n = Some r /\ b = sender r
    | _ => False end).
Proof.
  intros Hok (Ec & Hns & Htr) Hr. destruct x as [admin token|admin treasury|from to amt secs|by_ n p|a amt|by_ n]; cbn [run_escrow] in Hr.
  - apply bind_Ok in Hr as (w1 & Hr & Hs). injection Hs as <- <-. apply (initialize_step l0 w seized Hok) in Hr as (H1 & H2 & H3).
    rewrite Z.add_0_r. split; [done|]. split; [done|]. by apply only_pays_refl.
  - apply bind_Ok in Hr as (w1 & Hr & Hs). injection Hs as <- <-. apply (treasury_step l0 w seized Hok) in Hr as (H1 & H2 & H3); [|done].
    rewrite Z.add_0_r. split; [done|]. split; [done|]. by apply only_pays_refl.
  - apply bind_Ok in Hr as ([w1 m] & Hr & Hs). injection Hs as <- <-. apply (create_step l0 w seized Hok) in Hr as (H1 & H2 & H3); [|done..].
    rewrite Z.add_0_r. by split; [|split].
  - apply bind_Ok in Hr as (w1 & Hr & Hs). injection Hs as <- <-. apply (proof_step l0 w seized Hok) in Hr as (H1 & H2 & H3).
    rewrite Z.add_0_r. split; [done|]. split; [done|]. by apply only_pays_refl.
  - apply bind_Ok in Hr as (w1 & Hr & Hs). injection Hs as <- <-. apply (deposit_step l0 w seized Hok) in Hr as (H1 & H2 & H3); [|done..].
    rewrite Z.add_0_r. by split; [|split].
  - apply (dispute_step l0 w w' seized) in Hr as (H1 & H2 & r & Hx & H3); [|done..]. split; [done|]. split; [done|].
    apply only_pays_mono with (2 := H3). intros b [->|Hb]; [right; by exists r|by left].
Qed.

Lemma escrow_history_ok (l0 : Ledger) (w : world) (seized : Z) : escrow_history l0 w seized -> escrow_ok l0 w seized.
Proof.
  induction 1 as [|w seized i x w' y _ Hok Hu Hr].
  - constructor; cbn; try done. intros t. rewrite decide_False by done. lia.
  - by eapply escrow_step.
Qed.

(** ** What a dispute does *)
Definition slash_of (bond : Z) : Z := bond * BOND_SLASH_PERCENT / 100.

Lemma slash_eq (w : world) (i : env) (a treasury token : Address) (l1 : Ledger) :
  let bond := get_collateral (store w) a in
  0 <= bond -> bond * BOND_SLASH_PERCENT <= imax I128 -> Token (store w) = Some token ->
  (if 0 <? slash_of bond then transfer (ledger w) token (current_contract i) treasury (slash_of bond) else Some (ledger w)) = Some l1 ->
  exists s1, slash_bond i w a treasury = Ok {| store := s1; ledger := l1 |} /\
    frame (store w) s1 /\ Remittances s1 = Remittances (store w) /\ PendingRemittances s1 = PendingRemittances (store w) /\
    forall b, get_collateral s1 b = if decide (b = a) then bond - slash_of bond else get_collateral (store w) b.
Proof.
  intros bond Hb Hm Ht Hl. unfold slash_bond. fold (get_collateral (store w) a) bond. unfold BOND_SLASH_PERCENT in *.
  assert (0 <= slash_of bond <= bond) as Hs.
  { unfold slash_of, BOND_SLASH_PERCENT. split; [apply Z.div_pos; lia|apply Z.div_le_upper_bound; lia]. }
  assert (forall s1 v, slash_of bond = bond - v -> Collateral s1 = <[a := v]> (Collateral (store w)) \/ v = bond /\ s1 = store w ->
    forall b, get_collateral s1 b = if decide (b = a) then bond - slash_of bond else get_collateral (store w) b) as Hobs.
  { intros s1 v Ev [Ec|[-> ->]] b.
    - unfold get_collateral at 1, get_collateral_balance. rewrite Ec. destruct (decide (b = a)) as [->|].
      + rewrite lookup_insert_eq. cbn. unfold Datatypes.id. lia.
      + by rewrite lookup_insert_ne.
    - destruct (decide (b = a)) as [->|]; [|done]. fold bond. lia. }
  destruct (Z.ltb_spec 0 bond) as [Hp|Hp].
  2: { assert (bond = 0) as E by lia. assert (slash_of bond = 0) as E0 by (by rewrite E). rewrite E0 in Hl. injection Hl as <-.
       exists (store w). split; [by destruct w|]. split; [done|]. split; [done|]. split; [done|].
       apply (Hobs (store w) bond); [lia|by right]. }
  unfold imul, idiv. rewrite iop_in by (cbn [imin imax] in *; lia). rewrite bind_ret. change (100 =? 0) with false.
  rewrite Z.quot_div_nonneg by lia. change (bond * 20 / 100) with (slash_of bond). rewrite iop_in by (cbn [imin imax] in *; lia). rewrite bind_ret.
  destruct (Z.ltb_spec 0 (slash_of bond)) as [Hp0|Hp0].
  - unfold get_token. rewrite Ht. cbn [ok_or]. rewrite bind_ret, (pay_eq _ _ _ _ _ _ Hl), bind_ret. unfold checked_sub.
    rewrite (proj2 (chk_Some I128 (bond - slash_of bond) (bond - slash_of bond))) by (cbn [imin imax] in *; lia).
    cbn [ok_or]. rewrite bind_ret. cbn [store ledger]. eexists. split; [reflexivity|]. split; [done|]. split; [done|]. split; [done|].
    apply (Hobs _ (bond - slash_of bond)); [lia|by left].
  - injection Hl as <-. exists (store w). split; [by destruct w|]. split; [done|]. split; [done|]. split; [done|].
    apply (Hobs (store w) bond); [lia|by right].
Qed.

Lemma lock_eq (w : world) (a : Address) (amt : Z) :
  let left := get_collateral (store w) a in
  let locked := Z.min left amt in
  0 <= left <= imax I128 -> 0 < amt ->
  exists s1, lock_collateral w a amt = Ok ({| store := s1; ledger := ledger w |}, locked) /\
    frame (store w) s1 /\ Remittances s1 = Remittances (store w) /\ PendingRemittances s1 = PendingRemittances (store w) /\
    forall b, get_collateral s1 b = if decide (b = a) then left - locked else get_collateral (store w) b.
Proof.
  intros left locked Hl Ha. unfold lock_collateral. fold (get_collateral (store w) a) left.
  assert ((if left <? amt then left else amt) = locked) as -> by (unfold locked; destruct (Z.ltb_spec left amt); lia).
  destruct (Z.ltb_spec 0 locked) as [Hp|Hp].
  - unfold checked_sub. rewrite (proj2 (chk_Some I128 (left - locked) (left - locked))) by (unfold locked; cbn [imin imax] in *; lia).
    cbn [ok_or]. rewrite bind_ret. eexists. split; [reflexivity|]. split; [done|]. split; [done|]. split; [done|]. intros b.
    unfold get_collateral at 1, get_collateral_balance. cbn. destruct (decide (b = a)) as [->|]; [by rewrite lookup_insert_eq|by rewrite lookup_insert_ne].
  - exists (store w). split; [by destruct w|]. split; [done|]. split; [done|]. split; [done|]. intros b.
    destruct (decide (b = a)) as [->|]; [|done]. fold left. lia.
Qed.

(** C5: The escrow holds everything it ever took in and did not refund or slash. Over any
    history of user calls its balance of the token is the initial one plus the amounts
    of all remittances that are pending or completed, plus all bonds, plus everything
    disputes seized from bonds; its other balances do not change. The counter of an
    anchor is the number of its pending remittances, and its bond is locked exactly
    while there is one. *)
Theorem escrow_holds (l0 : Ledger) (w : world) (seized : Z) :
  escrow_history l0 w seized ->
  (forall t, balance (ledger w) t self = balance l0 t self +
     if decide (Token (store w) = Some t)
     then msum (fun _ x => if decide (status x = Refunded) then 0 else amount x) (Remittances (store w))
          + msum (fun _ v => v) (Collateral (store w)) + seized
     else 0) /\
  (forall a, get_pending_remittance_count (store w) a =
     msum (fun _ x => if decide (status x = Pending /\ anchor x = a) then 1 else 0) (Remittances (store w)) /\
     is_bond_locked (store w) a = (0 <? get_pending_remittance_count (store w) a) /\ 0 <= get_collateral (store w) a).
Proof.
  intros Hok%escrow_history_ok. split; [exact (eo_balance _ _ _ Hok)|]. intros a. pose proof (eo_books _ _ _ Hok) as Hb.
  split; [apply (bo_count _ Hb)|]. split; [apply (bo_lock _ Hb)|by apply bond_nonneg].
Qed.

(** A remittance keeps its terms and is resolved once. A call on a reachable contract
    leaves every recorded remittance as it is, or resolves one that was pending, as
    completed or refunded, without touching its parties, amount and deadline; every
    new record is pending under an identifier that was not used. *)
Theorem remittance_resolved_once (l0 : Ledger) (w w' : world) (seized y : Z) (i : env) (call : escrow_call) :
  escrow_history l0 w seized -> user_call i call -> run_escrow i w call = Ok (w', y) ->
  (forall n x, Remittances (store w) !! n = Some x -> exists x', Remittances (store w') !! n = Some x' /\
     (x' = x \/ status x = Pending /\ status x' <> Pending /\ x' = resolve x (status x') (proof x'))) /\
  (forall n x', Remittances (store w) !! n = None -> Remittances (store w') !! n = Some x' ->
     status x' = Pending /\ id x' = n /\ 0 < amount x').
Proof.
  intros Hok%escrow_history_ok Hu Hr. destruct (escrow_step l0 w w' seized i call y Hok Hu Hr) as (Hok' & Hs & _).
  pose proof (eo_books _ _ _ Hok') as [B1 _ _ _].
  destruct Hs as [->|[(m & z & Hm & Hz & E)|(m & z & st & p & Hm & Hz & Hst & E)]].
  - split; [|congruence]. intros n x Hx. exists x. by split; [|left].
  - rewrite E in *. split.
    + intros n x Hx. exists x. rewrite lookup_insert_ne by congruence. by split; [|left].
    + intros n x' Hn Hx'. destruct (B1 n x' Hx') as (Hid & _ & Ha). split; [|done].
      apply lookup_insert_Some in Hx' as [[<- <-]|[_ Hx']]; [done|congruence].
  - rewrite E in *. split.
    + intros n x Hx. destruct (decide (n = m)) as [->|Hne].
      * rewrite lookup_insert_eq. assert (z = x) as -> by congruence. exists (resolve x st p). split; [done|]. right.
        split; [done|]. by split.
      * rewrite lookup_insert_ne by done. exists x. by split; [|left].
    + intros n x' Hn Hx'. apply lookup_insert_Some in Hx' as [[<- <-]|[_ Hx']]; congruence.
Qed.

(** The contract pays nobody but a refunded sender and the treasury. In every call on a
    reachable contract an account other than the contract's own gains tokens only when
    the call is a dispute, and then it is the sender of the disputed remittance or the
    configured treasury. In particular a completed remittance is never paid out to its
    anchor, and no bond, locked or not, is ever returned: what [escrow_holds] counts as
    completed and seized stays in the contract for good. *)
Theorem only_refunds_leave (l0 : Ledger) (w w' : world) (seized y : Z) (i : env) (call : escrow_call) (t b : Address) :
  escrow_history l0 w seized -> user_call i call -> run_escrow i w call = Ok (w', y) -> b <> self ->
  balance (ledger w) t b < balance (ledger w') t b ->
  exists by_ n, call = EDispute by_ n /\
    (get_treasury_address (store w) = Some b \/ exists x, get_remittance (store w) n = Ok x /\ b = sender x).
Proof.
  intros Hok%escrow_history_ok Hu Hr Hne Hlt. destruct (escrow_step l0 w w' seized i call y Hok Hu Hr) as (_ & _ & Hp).
  specialize (Hp t b Hne Hlt). destruct call as [| | | | |by_ n]; try done. exists by_, n. split; [done|].
  destruct Hp as [Hp|(x & Hx & ->)]; [by left|right]. exists x. unfold get_remittance. by rewrite Hx.
Qed.

(** A dispute does what it says, once a treasury is set. For a pending remittance of a
    reachable contract, disputed by its sender: a day after the deadline, if the two
    transfers succeed, a fifth of the anchor's bond goes to the treasury, then up to the
    amount of the remittance is taken off the rest of the bond and stays in the
    contract, and the sender gets the whole amount back even if the bond is empty.
    Before that the call fails with [TooEarlyToDispute]. As long as no treasury is
    configured it fails with [TreasuryNotSet], and with a bond above a twentieth of the
    [i128] range it traps: the refund is then blocked. *)
Theorem dispute_exact (l0 : Ledger) (w : world) (seized : Z) (i : env) (n : Z) (x : Remittance) (token : Address) :
  escrow_history l0 w seized -> current_contract i = self -> get_remittance (store w) n = Ok x -> status x = Pending ->
  auth i (sender x) = true -> Initialized (store w) = true -> Token (store w) = Some token ->
  timestamp i <= imax U64 -> 0 <= deadline x -> get_collateral (store w) (anchor x) <= imax I128 ->
  let due := deadline x + DISPUTE_WINDOW_SECS in
  let bond := get_collateral (store w) (anchor x) in
  let left := bond - bond * BOND_SLASH_PERCENT / 100 in
  (timestamp i < due <= imax U64 -> open_dispute i w (sender x) n = Err TooEarlyToDispute) /\
  (due <= timestamp i -> get_treasury_address (store w) = None -> open_dispute i w (sender x) n = Err TreasuryNotSet) /\
  (forall treasury, due <= timestamp i -> get_treasury_address (store w) = Some treasury ->
     (imax I128 < bond * BOND_SLASH_PERCENT -> open_dispute i w (sender x) n = Panic) /\
     (bond * BOND_SLASH_PERCENT <= imax I128 -> forall l1 l2,
        (if 0 <? bond - left then transfer (ledger w) token self treasury (bond - left) else Some (ledger w)) = Some l1 ->
        transfer l1 token self (sender x) (amount x) = Some l2 ->
        exists s', open_dispute i w (sender x) n = Ok ({| store := s'; ledger := l2 |}, Z.min left (amount x)) /\
          Remittances s' = <[n := resolve x Refunded (proof x)]> (Remittances (store w)) /\
          forall a, get_collateral s' a = if decide (a = anchor x) then left - Z.min left (amount x) else get_collateral (store w) a)).
Proof.
  intros Hok%escrow_history_ok Ec Hx Hp Hau Hi Htok Hts Hd Hmax due bond left. apply ok_or_Ok in Hx.
  pose proof (eo_books _ _ _ Hok) as Hb. destruct (bo_ids _ Hb n x Hx) as (Hid & _ & Ham).
  pose proof (bond_nonneg _ (anchor x) Hb) as Hn. fold (get_collateral (store w) (anchor x)) bond in Hn. fold bond in Hmax.
  assert (due <= imax U64 -> open_dispute i w (sender x) n =
    (_ ← fail_if (timestamp i <? due) TooEarlyToDispute; treasury ← get_treasury (store w);
     w1 ← slash_bond i w (anchor x) treasury; r ← lock_collateral w1 (anchor x) (amount x); token ← get_token (store r.1);
     w3 ← pay r.1 token self (sender x) (amount x);
     let s4 := set_remittance (store w3) (resolve x Refunded (proof x)) in
     mret (with_store w3 (decrement_pending_and_unlock s4 (anchor x)), r.2))) as E.
  { intros Hdue. unfold open_dispute, require_initialized, require_auth, get_remittance. rewrite Hi, Hau, Hx. cbn [negb fail_if ok_or].
    rewrite !bind_ret, (bool_decide_eq_false_2 (sender x <> sender x)), (bool_decide_eq_false_2 (status x <> Pending)) by (rewrite ?Hp; tauto).
    cbn [fail_if]. rewrite !bind_ret. unfold checked_add. fold due.
    rewrite (proj2 (chk_Some U64 due due)) by (unfold due, DISPUTE_WINDOW_SECS in *; cbn [imin]; lia). cbn [ok_or]. by rewrite bind_ret, Ec. }
  split_and!.
  - intros [Hlt Hdue]. rewrite E, (proj2 (Z.ltb_lt _ _)) by lia. done.
  - intros Hge Htr. unfold get_treasury_address in Htr. unfold get_treasury in E. rewrite Htr in E.
    rewrite E, (proj2 (Z.ltb_ge _ _)) by lia. done.
  - intros treasury Hge Htr. unfold get_treasury_address in Htr. unfold get_treasury in E. rewrite Htr in E.
    rewrite (proj2 (Z.ltb_ge _ _)) in E by lia. cbn [fail_if ok_or] in E. rewrite !bind_ret in E. specialize (E ltac:(lia)). rewrite E. split.
    + intros Hbig. unfold slash_bond. fold (get_collateral (store w) (anchor x)) bond.
      rewrite (proj2 (Z.ltb_lt 0 bond)) by (unfold BOND_SLASH_PERCENT in Hbig; cbn [imax] in Hbig; lia).
      unfold imul, iop, fits. rewrite (proj2 (Z.leb_gt (bond * BOND_SLASH_PERCENT) _)) by lia. by rewrite andb_false_r.
    + intros Hsm l1 l2 Hl1 Hl2. replace (bond - left) with (slash_of bond) in Hl1 by (unfold slash_of, left; lia). rewrite <- Ec in Hl1.
      destruct (slash_eq w i (anchor x) treasury token l1 Hn Hsm Htok Hl1) as (s1 & E1 & (F1 & F2 & F3 & F4) & R1 & P1 & C1).
      rewrite E1, bind_ret. fold bond in C1. change (bond - slash_of bond) with left in C1.
      assert (0 <= left <= bond) as Hleft.
      { unfold left, BOND_SLASH_PERCENT in *. pose proof (Z.div_pos (bond * 20) 100 ltac:(lia) ltac:(done)).
        pose proof (Z.div_le_upper_bound (bond * 20) 100 bond ltac:(done) ltac:(lia)). lia. }
      assert (get_collateral s1 (anchor x) = left) as Eleft by (by rewrite C1, decide_True).
      pose proof (lock_eq {| store := s1; ledger := l1 |} (anchor x) (amount x)) as Hlock. cbn [store ledger] in Hlock. rewrite Eleft in Hlock.
      destruct (Hlock ltac:(lia) Ham) as (s2 & E2 & (G1 & G2 & G3 & G4) & R2 & P2 & C2). rewrite E2, bind_ret. cbn [fst snd store].
      unfold get_token. rewrite G2, F2, Htok. cbn [ok_or]. rewrite bind_ret.
      rewrite (pay_eq {| store := s2; ledger := l1 |} _ _ _ _ _ Hl2), bind_ret. cbn [store]. eexists. split; [reflexivity|].
      destruct (decrement_frame (set_remittance s2 (resolve x Refunded (proof x))) (anchor x)) as (_ & _ & -> & Ecl).
      split; [cbn; by rewrite Hid, R2, R1|]. intros a. unfold get_collateral at 1, get_collateral_balance. rewrite Ecl. cbn [Collateral set_remittance].
      fold (get_collateral_balance s2 a) (get_collateral s2 a). rewrite C2. destruct (decide _); [done|]. by rewrite C1, decide_False.
Qed.
End claims.

(** ** A concrete escrow: contract 1, token 100, treasury 8; anchor 3 posts 30000 and gets
    two remittances of sender 4, the first of which it completes. *)
Section witnesses.
#[local] Existing Instance test_host.

#[local] Instance escrow_tokens : Tokens test_host := map_tokens test_host.
#[local] Instance escrow_token_laws : TokenLaws test_host escrow_tokens := map_token_laws test_host.

Definition escrow_at (who now : Z) : env := @Build_env test_host (fun a => Z.eqb a who) 1 now.

Definition escrow_ledger : Ledger := {[ (100, 3) := 50000; (100, 4) := 40000 ]}.

Fixpoint run_escrows (w : world) (seized : Z) (cs : list (Z * Z * escrow_call)) : V (world * Z) :=
  match cs with
  | [] => mret (w, seized)
  | (who, now, x) :: cs => r ← run_escrow (escrow_at who now) w x; run_escrows r.1 (seized + r.2) cs
  end.

Definition by_user (c : Z * Z * escrow_call) : bool :=
  negb (Z.eqb 1 c.1.1) && match c.2 with ETreasury _ treasury => negb (Z.eqb treasury 1) | _ => true end.

Lemma by_user_call (who now : Z) (x : escrow_call) : by_user (who, now, x) = true -> user_call 1 (escrow_at who now) x.
Proof.
  intros [Hw%negb_true_iff Hx]%andb_true_iff. split; [done|]. split; [exact Hw|].
  destruct x; try done. by apply negb_true_iff, Z.eqb_neq in Hx.
Qed.

Lemma run_escrows_history (l0 : Ledger) (cs : list (Z * Z * escrow_call)) (w w' : world) (seized total : Z) :
  escrow_history 1 l0 w seized -> forallb by_user cs = true -> run_escrows w seized cs = Ok (w', total) -> escrow_history 1 l0 w' total.
Proof.
  revert w seized. induction cs as [|[[who now] x] cs IH]; intros w seized Hw Hc Hr; [by injection Hr as <- <-|].
  cbn [forallb run_escrows] in *. apply andb_true_iff in Hc as [Hx Hc]. apply bind_Ok in Hr as ([w1 y] & Hw1 & Hr).
  apply IH with w1 (seized + y); [|done|done]. apply escrow_next with w (escrow_at who now) x; [done| |done].
  by apply by_user_call.
Qed.

Definition escrow_calls : list (Z * Z * escrow_call) :=
  [(2, 10, EInitialize 2 100); (2, 20, ETreasury 2 8); (3, 30, EDeposit 3 30000); (4, 50, ECreate 4 3 5000 100);
   (4, 60, ECreate 4 3 7000 100); (3, 90, EProof 3 0 [1; 2])].

Definition escrow_start_world : world := {| store := empty_storage; ledger := escrow_ledger |}.

Definition escrow_state : world :=
  match run_escrows escrow_start_world 0 escrow_calls with Ok r => r.1 | _ => escrow_start_world end.
Definition escrow_seized : Z := match run_escrows escrow_start_world 0 escrow_calls with Ok r => r.2 | _ => 0 end.

Lemma escrow_state_history : escrow_history 1 escrow_ledger escrow_state escrow_seized.
Proof.
  apply (run_escrows_history escrow_ledger escrow_calls escrow_start_world escrow_state 0); [constructor|vm_compute; reflexivity|].
  unfold escrow_state, escrow_seized.
  destruct (is_ok_Ok (run_escrows escrow_start_world 0 escrow_calls)) as [[w z] ->]; [vm_compute; reflexivity|done].
Qed.

Lemma escrow_holds_witness :
  balance (ledger escrow_state) 100 1 = 42000 /\ get_pending_remittance_count (store escrow_state) 3 = 1 /\
  is_bond_locked (store escrow_state) 3 = (0 <? get_pending_remittance_count (store escrow_state) 3).
Proof.
  split; [vm_compute; reflexivity|]. split; [vm_compute; reflexivity|].
  exact (proj1 (proj2 (proj2 (escrow_holds (H := test_host) 1 escrow_ledger escrow_state escrow_seized escrow_state_history) 3))).
Defined.

Definition dispute_call : escrow_call := EDispute 4 1.
Definition dispute_env : env := escrow_at 4 (160 + DISPUTE_WINDOW_SECS).

Definition disputed : world * Z :=
  match run_escrow dispute_env escrow_state dispute_call with Ok r => r | _ => (escrow_state, 0) end.

Lemma disputed_ok : run_escrow dispute_env escrow_state dispute_call = Ok (disputed.1, disputed.2).
Proof.
  unfold disputed. destruct (is_ok_Ok (run_escrow dispute_env escrow_state dispute_call)) as [[w z] ->]; [vm_compute; reflexivity|done].
Qed.

Definition remittance_of (w : world) (n : Z) : Remittance :=
  default {| id := 0; sender := 0; anchor := 0; amount := 0; deadline := 0; status := Pending; proof := [] |}
    (Remittances (store w) !! n).

Definition recorded (w : world) (n : Z) : bool := match Remittances (store w) !! n with Some _ => true | None => false end.

Lemma remittance_of_ok (w : world) (n : Z) : recorded w n = true -> Remittances (store w) !! n = Some (remittance_of w n).
Proof. unfold recorded, remittance_of. by destruct (Remittances (store w) !! n). Qed.

Lemma remittance_resolved_once_witness :
  status (remittance_of disputed.1 0) = Completed /\ status (remittance_of disputed.1 1) = Refunded /\
  exists x', Remittances (store disputed.1) !! 1 = Some x' /\
    (x' = remittance_of escrow_state 1 \/ status (remittance_of escrow_state 1) = Pending /\ status x' <> Pending /\
       x' = resolve (remittance_of escrow_state 1) (status x') (proof x')).
Proof.
  split; [vm_compute; reflexivity|]. split; [vm_compute; reflexivity|].
  exact (proj1 (remittance_resolved_once (H := test_host) 1 escrow_ledger escrow_state disputed.1 escrow_seized disputed.2
    dispute_env dispute_call escrow_state_history (by_user_call 4 _ dispute_call eq_refl) disputed_ok)
    1 _ (remittance_of_ok escrow_state 1 ltac:(vm_compute; reflexivity))).
Defined.

Lemma only_refunds_leave_witness :
  balance (ledger escrow_state) 100 4 = 28000 /\ balance (ledger disputed.1) 100 4 = 35000 /\
  exists by_ n, dispute_call = EDispute by_ n /\
    (get_treasury_address (store escrow_state) = Some 4 \/ exists x, get_remittance (store escrow_state) n = Ok x /\ 4 = sender x).
Proof.
  split; [vm_compute; reflexivity|]. split; [vm_compute; reflexivity|].
  exact (only_refunds_leave (H := test_host) 1 escrow_ledger escrow_state disputed.1 escrow_seized disputed.2
    dispute_env dispute_call 100 4 escrow_state_history (by_user_call 4 _ dispute_call eq_refl) disputed_ok
    ltac:(vm_compute; discriminate) ltac:(vm_compute; reflexivity)).
Defined.

Lemma token_is_100 : Token (store escrow_state) = Some 100.
Proof.
  assert (match Token (store escrow_state) with Some t => Z.eqb t 100 | None => false end = true) as E by (vm_compute; reflexivity).
  destruct (Token (store escrow_state)) as [t|]; [|done]. apply Z.eqb_eq in E. by rewrite E.
Qed.

Lemma dispute_exact_witness :
  open_dispute (escrow_at 4 200) escrow_state 4 1 = Err TooEarlyToDispute.
Proof.
  refine (proj1 (dispute_exact (H := test_host) 1 escrow_ledger escrow_state escrow_seized (escrow_at 4 200) 1
    (remittance_of escrow_state 1) 100 escrow_state_history eq_refl _ _ _ _ token_is_100 _ _ _) _).
  - unfold get_remittance. rewrite (remittance_of_ok escrow_state 1); [done|vm_compute; reflexivity].
  - vm_compute. reflexivity.
  - vm_compute. reflexivity.
  - vm_compute. reflexivity.
  - vm_compute. discriminate.
  - vm_compute. discriminate.
  - vm_compute. discriminate.
  - vm_compute. split; [reflexivity|discriminate].
Defined.
End witnesses.
