(* ===== verification/LpPool.v ===== *)
(** * Liquidity pool contract

    [src/contracts/lp-pool/src/] (lib.rs, types.rs): a constant-product pool of two
    assets with internal accounting and no fee. Time-to-live extensions (ttl.rs) are
    left out. [withdraw] of the source names its error type [Error]; it is
    [ContractError] here.

    The integer square root; histories of the pool: shares add up, a pool with shares
    has both reserves, the product of the reserves per squared share never falls; a
    swap follows its formula, and nobody gains by going there and back. *)

From stdpp Require Import base numbers list gmap.
From Stdlib Require Import ZArith Lia.
From S2P Require Import Prelude Host Sqrt.

Open Scope Z_scope.

Inductive ContractError :=
  | NotInitialized | AlreadyInitialized | ZeroAmount | InsufficientShares | InsufficientLiquidity | InvalidToken
  | SlippageExceeded | Overflow.

Definition error_code (e : ContractError) : Z :=
  match e with
  | NotInitialized => 1 | AlreadyInitialized => 2 | ZeroAmount => 3 | InsufficientShares => 4
  | InsufficientLiquidity => 5 | InvalidToken => 6 | SlippageExceeded => 7 | Overflow => 8
  end.

Abbreviation V := (result ContractError).

Record PoolReserves := { reserve_a : Z; reserve_b : Z; total_shares : Z }.

(** [isqrt]: Newton's method from half of the value. *)
Definition isqrt (value : Z) : V Z :=
  if value <? 2 then mret (Z.max value 0)
  else
    s ← iadd I128 value 1;
    y ← idiv I128 s 2;
    sqrt_loop 129 value value y.

Section pool.
Context {H : Host}.

(** The storage: one field per key, [Initialized] being set or not. *)
Record DataKey := {
  Initialized : bool;
  TokenA : option Address;
  TokenB : option Address;
  Reserves : option PoolReserves;
  UserShares : gmap Address Z
}.

Definition empty_storage : DataKey := {|
  Initialized := false; TokenA := None; TokenB := None; Reserves := None; UserShares := ∅ |}.

Definition require_initialized (s : DataKey) : V unit := fail_if (negb (Initialized s)) NotInitialized.

Definition read_reserves (s : DataKey) : V PoolReserves := unwrap (Reserves s).

Definition write_reserves (s : DataKey) (r : PoolReserves) : DataKey := {|
  Initialized := Initialized s; TokenA := TokenA s; TokenB := TokenB s; Reserves := Some r; UserShares := UserShares s |}.

Definition read_user_shares (s : DataKey) (user : Address) : Z := default 0 (UserShares s !! user).

Definition write_user_shares (s : DataKey) (user : Address) (shares : Z) : DataKey := {|
  Initialized := Initialized s; TokenA := TokenA s; TokenB := TokenB s; Reserves := Reserves s;
  UserShares := <[user := shares]> (UserShares s) |}.

Definition initialize (s : DataKey) (token_a token_b : Address) : V DataKey :=
  _ ← fail_if (Initialized s) AlreadyInitialized;
  mret {| Initialized := true; TokenA := Some token_a; TokenB := Some token_b;
          Reserves := Some {| reserve_a := 0; reserve_b := 0; total_shares := 0 |}; UserShares := UserShares s |}.

(** [amount * total_shares / reserve], checked. *)
Definition shares_from (amount total reserve : Z) : V Z :=
  product ← ok_or (checked_mul I128 amount total) Overflow;
  ok_or (checked_div I128 product reserve) Overflow.

Definition deposit (auth : Address -> bool) (s : DataKey) (user : Address) (amount_a amount_b : Z) : V (DataKey * Z) :=
  _ ← require_auth auth user;
  _ ← fail_if ((amount_a <=? 0) || (amount_b <=? 0)) ZeroAmount;
  _ ← require_initialized s;
  reserves ← read_reserves s;
  minted_shares ← (if total_shares reserves =? 0 then
                     product ← ok_or (checked_mul I128 amount_a amount_b) Overflow;
                     isqrt product
                   else
                     shares_from_a ← shares_from amount_a (total_shares reserves) (reserve_a reserves);
                     shares_from_b ← shares_from amount_b (total_shares reserves) (reserve_b reserves);
                     mret (Z.min shares_from_a shares_from_b));
  _ ← fail_if (minted_shares <=? 0) ZeroAmount;
  ra ← ok_or (checked_add I128 (reserve_a reserves) amount_a) Overflow;
  rb ← ok_or (checked_add I128 (reserve_b reserves) amount_b) Overflow;
  ts ← ok_or (checked_add I128 (total_shares reserves) minted_shares) Overflow;
  let s1 := write_reserves s {| reserve_a := ra; reserve_b := rb; total_shares := ts |} in
  new_shares ← ok_or (checked_add I128 (read_user_shares s1 user) minted_shares) Overflow;
  mret (write_user_shares s1 user new_shares, minted_shares).

Definition withdraw (auth : Address -> bool) (s : DataKey) (user : Address) (shares : Z) : V (DataKey * (Z * Z)) :=
  _ ← require_auth auth user;
  _ ← fail_if (shares <=? 0) ZeroAmount;
  _ ← require_initialized s;
  reserves ← read_reserves s;
  let user_shares := read_user_shares s user in
  _ ← fail_if (user_shares <? shares) InsufficientShares;
  amount_a ← shares_from (reserve_a reserves) shares (total_shares reserves);
  amount_b ← shares_from (reserve_b reserves) shares (total_shares reserves);
  _ ← fail_if ((amount_a <=? 0) || (amount_b <=? 0)) ZeroAmount;
  _ ← fail_if ((reserve_a reserves <? amount_a) || (reserve_b reserves <? amount_b)) InsufficientLiquidity;
  ra ← ok_or (checked_sub I128 (reserve_a reserves) amount_a) Overflow;
  rb ← ok_or (checked_sub I128 (reserve_b reserves) amount_b) Overflow;
  ts ← ok_or (checked_sub I128 (total_shares reserves) shares) Overflow;
  let s1 := write_reserves s {| reserve_a := ra; reserve_b := rb; total_shares := ts |} in
  remaining_shares ← ok_or (checked_sub I128 user_shares shares) Overflow;
  mret (write_user_shares s1 user remaining_shares, (amount_a, amount_b)).

Definition swap (auth : Address -> bool) (s : DataKey) (user token_in : Address) (amount_in min_amount_out : Z) : V (DataKey * Z) :=
  _ ← require_auth auth user;
  _ ← fail_if (amount_in <=? 0) ZeroAmount;
  _ ← require_initialized s;
  reserves ← read_reserves s;
  token_a ← unwrap (TokenA s);
  token_b ← unwrap (TokenB s);
  d ← (if bool_decide (token_in = token_a) then mret (reserve_a reserves, reserve_b reserves, true)
       else if bool_decide (token_in = token_b) then mret (reserve_b reserves, reserve_a reserves, false)
       else Err InvalidToken);
  let '(reserve_in, reserve_out, a_in) := d in
  _ ← fail_if ((reserve_in <=? 0) || (reserve_out <=? 0)) InsufficientLiquidity;
  new_reserve_in ← ok_or (checked_add I128 reserve_in amount_in) Overflow;
  numerator ← ok_or (checked_mul I128 reserve_out amount_in) Overflow;
  amount_out ← ok_or (checked_div I128 numerator new_reserve_in) Overflow;
  _ ← fail_if (amount_out <=? 0) ZeroAmount;
  _ ← fail_if (min_amount_out <=? 0) SlippageExceeded;
  _ ← fail_if (amount_out <? min_amount_out) SlippageExceeded;
  _ ← fail_if (reserve_out <? amount_out) InsufficientLiquidity;
  r ← (if (a_in : bool) then
         rb ← ok_or (checked_sub I128 (reserve_b reserves) amount_out) Overflow;
         mret {| reserve_a := new_reserve_in; reserve_b := rb; total_shares := total_shares reserves |}
       else
         ra ← ok_or (checked_sub I128 (reserve_a reserves) amount_out) Overflow;
         mret {| reserve_a := ra; reserve_b := new_reserve_in; total_shares := total_shares reserves |});
  mret (write_reserves s r, amount_out).

Definition get_reserves (s : DataKey) : V (Z * Z) :=
  r ← read_reserves s; mret (reserve_a r, reserve_b r).

Definition get_total_shares (s : DataKey) : V Z :=
  r ← read_reserves s; mret (total_shares r).

Definition get_shares (s : DataKey) (user : Address) : Z := read_user_shares s user.

Definition get_tokens (s : DataKey) : V (Address * Address) :=
  token_a ← unwrap (TokenA s); token_b ← unwrap (TokenB s); mret (token_a, token_b).
End pool.

(** ** Liquidity pool contract: the properties *)

(** ** The square root *)
Lemma isqrt_eq (value : Z) : value < imax I128 -> isqrt value = Ok (Z.sqrt value).
Proof.
  intros Hm. unfold isqrt. destruct (Z.ltb_spec value 2) as [Hs|Hs].
  - destruct (Z.le_gt_cases value 0) as [Hn|Hp].
    + rewrite Z.max_r by done. destruct (Z.eq_dec value 0) as [->|]; [done|]. by rewrite Z.sqrt_neg by lia.
    + assert (value = 1) as -> by lia. done.
  - unfold iadd. rewrite iop_in by (cbn [imin]; lia). rewrite bind_ret. unfold idiv. change (2 =? 0) with false.
    rewrite Z.quot_div_nonneg by lia. rewrite iop_in.
    + rewrite bind_ret. apply sqrt_from_half. lia.
    + pose proof (Z.div_pos (value + 1) 2 ltac:(lia) ltac:(done)).
      pose proof (Z.div_le_upper_bound (value + 1) 2 (value + 1) ltac:(done) ltac:(lia)). cbn [imin]. lia.
Qed.

(** [isqrt] of the liquidity pool always ends with the floor of the square root, for
    every value of [i128] but the largest: there its first addition overflows and the
    call traps. Negative values give 0. *)
Theorem isqrt_exact (value : Z) :
  imin I128 <= value <= imax I128 ->
  isqrt value = (if value =? imax I128 then Panic else Ok (Z.sqrt value)) /\
  (0 <= value -> Z.sqrt value * Z.sqrt value <= value < (Z.sqrt value + 1) * (Z.sqrt value + 1)) /\
  (value < 0 -> Z.sqrt value = 0).
Proof.
  intros Hv. split_and!.
  - destruct (Z.eqb_spec value (imax I128)) as [->|]; [by vm_compute|]. apply isqrt_eq. lia.
  - intros H0. pose proof (Z.sqrt_spec value H0) as Hs. cbv zeta in Hs. unfold Z.succ in Hs. done.
  - intros Hn. by apply Z.sqrt_neg.
Qed.

Lemma isqrt_exact_witness : isqrt 99999999 = Ok 9999 /\ isqrt (imax I128) = Panic /\ isqrt (-5) = Ok 0.
Proof.
  rewrite (proj1 (isqrt_exact 99999999 ltac:(vm_compute; split; discriminate))).
  rewrite (proj1 (isqrt_exact (imax I128) ltac:(vm_compute; split; discriminate))).
  rewrite (proj1 (isqrt_exact (-5) ltac:(vm_compute; split; discriminate))).
  split; [vm_compute; reflexivity|]. split; vm_compute; reflexivity.
Defined.

Section claims.
Context {H : Host}.

Inductive lp_call :=
  | PInitialize (token_a token_b : Address)
  | PDeposit (user : Address) (amount_a amount_b : Z)
  | PWithdraw (user : Address) (shares : Z)
  | PSwap (user token_in : Address) (amount_in min_amount_out : Z).

Definition run_lp (auth : Address -> bool) (s : DataKey) (x : lp_call) : V DataKey :=
  match x with
  | PInitialize token_a token_b => initialize s token_a token_b
  | PDeposit user a b => r ← deposit auth s user a b; mret r.1
  | PWithdraw user shares => r ← withdraw auth s user shares; mret r.1
  | PSwap user token_in amt min => r ← swap auth s user token_in amt min; mret r.1
  end.

Inductive lp_history : DataKey -> Prop :=
  | lp_start : lp_history empty_storage
  | lp_next s auth x s' : lp_history s -> run_lp auth s x = Ok s' -> lp_history s'.

(** ** What the operations do *)
Lemma shares_from_Ok (amount total reserve q : Z) :
  0 <= amount -> 0 <= total -> 0 <= reserve -> shares_from amount total reserve = Ok q ->
  0 < reserve /\ q = amount * total / reserve /\ 0 <= q /\ q * reserve <= amount * total.
Proof.
  intros Ha Ht Hr Hq. apply bind_Ok in Hq as (p & [-> _]%ok_or_Ok%chk_Some & Hq%ok_or_Ok). unfold checked_div in Hq.
  destruct (Z.eqb_spec reserve 0) as [|Hne]; [done|]. apply chk_Some in Hq as [-> _]. rewrite Z.quot_div_nonneg by nia.
  pose proof (Z.mul_div_le (amount * total) reserve ltac:(lia)). pose proof (Z.div_pos (amount * total) reserve ltac:(nia) ltac:(lia)). lia.
Qed.

Definition in_reserves (r : PoolReserves) : Prop :=
  (total_shares r = 0 -> reserve_a r = 0 /\ reserve_b r = 0) /\ 0 <= total_shares r /\
  (0 < total_shares r -> 0 < reserve_a r /\ 0 < reserve_b r) /\ total_shares r <= imax I128.

(** The change of the reserves of each operation. *)
Definition deposits (r r' : PoolReserves) (a b minted : Z) : Prop :=
  0 < a /\ 0 < b /\ 0 < minted /\
  r' = {| reserve_a := reserve_a r + a; reserve_b := reserve_b r + b; total_shares := total_shares r + minted |} /\
  total_shares r + minted <= imax I128 /\
  (if total_shares r =? 0 then a * b < imax I128 /\ minted = Z.sqrt (a * b)
   else minted = Z.min (a * total_shares r / reserve_a r) (b * total_shares r / reserve_b r)).

Definition withdraws (r r' : PoolReserves) (shares a b : Z) : Prop :=
  0 < shares /\ 0 < a <= reserve_a r /\ 0 < b <= reserve_b r /\
  a = reserve_a r * shares / total_shares r /\ b = reserve_b r * shares / total_shares r /\
  r' = {| reserve_a := reserve_a r - a; reserve_b := reserve_b r - b; total_shares := total_shares r - shares |}.

Definition swaps (r r' : PoolReserves) (a_in : bool) (amount_in amount_out : Z) : Prop :=
  let '(x, y) := if a_in then (reserve_a r, reserve_b r) else (reserve_b r, reserve_a r) in
  0 < amount_in /\ 0 < amount_out /\ 0 < x /\ 0 < y /\ amount_out = y * amount_in / (x + amount_in) /\
  r' = (if a_in then {| reserve_a := reserve_a r + amount_in; reserve_b := reserve_b r - amount_out; total_shares := total_shares r |}
        else {| reserve_a := reserve_a r - amount_out; reserve_b := reserve_b r + amount_in; total_shares := total_shares r |}).

(** Every operation needs recorded reserves. *)
Lemma deposit_needs (auth : Address -> bool) (s s' : DataKey) (user : Address) (a b m : Z) :
  deposit auth s user a b = Ok (s', m) -> exists r, Reserves s = Some r.
Proof. intros Hd. unfold deposit in Hd. do 3 apply bind_Ok in Hd as (? & _ & Hd). apply bind_Ok in Hd as (r & E%unwrap_Ok & _). by exists r. Qed.

Lemma withdraw_needs (auth : Address -> bool) (s s' : DataKey) (user : Address) (shares : Z) (m : Z * Z) :
  withdraw auth s user shares = Ok (s', m) -> exists r, Reserves s = Some r.
Proof. intros Hd. unfold withdraw in Hd. do 3 apply bind_Ok in Hd as (? & _ & Hd). apply bind_Ok in Hd as (r & E%unwrap_Ok & _). by exists r. Qed.

Lemma swap_needs (auth : Address -> bool) (s s' : DataKey) (user token_in : Address) (amt min out : Z) :
  swap auth s user token_in amt min = Ok (s', out) -> exists r, Reserves s = Some r.
Proof. intros Hd. unfold swap in Hd. do 3 apply bind_Ok in Hd as (? & _ & Hd). apply bind_Ok in Hd as (r & E%unwrap_Ok & _). by exists r. Qed.

Lemma lp_deposit_Ok (auth : Address -> bool) (s s' : DataKey) (user : Address) (a b m : Z) (r : PoolReserves) :
  Reserves s = Some r -> in_reserves r -> deposit auth s user a b = Ok (s', m) ->
  exists r', deposits r r' a b m /\ s' = write_user_shares (write_reserves s r') user (read_user_shares s user + m).
Proof.
  intros Hr (R1 & R2 & R3 & R4) Hd. unfold deposit in Hd. apply bind_Ok in Hd as ([] & _ & Hd).
  apply bind_Ok in Hd as ([] & [Ha%Z.leb_gt Hb%Z.leb_gt]%fail_if_Ok%orb_false_iff & Hd). apply bind_Ok in Hd as ([] & _ & Hd).
  apply bind_Ok in Hd as (r0 & Hr0%unwrap_Ok & Hd). assert (r0 = r) as -> by congruence.
  apply bind_Ok in Hd as (m0 & Hm & Hd). apply bind_Ok in Hd as ([] & Hpos%fail_if_Ok%Z.leb_gt & Hd).
  apply bind_Ok in Hd as (ra & [-> _]%ok_or_Ok%chk_Some & Hd). apply bind_Ok in Hd as (rb & [-> _]%ok_or_Ok%chk_Some & Hd).
  apply bind_Ok in Hd as (ts & [-> Hts]%ok_or_Ok%chk_Some & Hd). apply bind_Ok in Hd as (n & [-> _]%ok_or_Ok%chk_Some & Hd).
  injection Hd as <- <-. eexists. split; [|reflexivity]. split_and!; [done|done|done|reflexivity|lia|].
  destruct (Z.eqb_spec (total_shares r) 0) as [E|E].
  - apply bind_Ok in Hm as (p & [-> Hp]%ok_or_Ok%chk_Some & Hm). destruct (Z.eq_dec (a * b) (imax I128)) as [Em|].
    + rewrite Em in Hm. vm_compute in Hm. done.
    + rewrite isqrt_eq in Hm by lia. injection Hm as <-. split; [lia|done].
  - apply bind_Ok in Hm as (qa & Hqa & Hm). apply bind_Ok in Hm as (qb & Hqb & Hm). injection Hm as <-.
    destruct (R3 ltac:(lia)) as [? ?].
    apply shares_from_Ok in Hqa as (_ & -> & _); [|lia..]. by apply shares_from_Ok in Hqb as (_ & -> & _); [|lia..].
Qed.

Lemma withdraw_Ok (auth : Address -> bool) (s s' : DataKey) (user : Address) (shares a b : Z) (r : PoolReserves) :
  Reserves s = Some r -> in_reserves r -> withdraw auth s user shares = Ok (s', (a, b)) ->
  exists r', withdraws r r' shares a b /\ shares <= read_user_shares s user /\
    s' = write_user_shares (write_reserves s r') user (read_user_shares s user - shares).
Proof.
  intros Hr (R1 & R2 & R3 & R4) Hd. unfold withdraw in Hd. apply bind_Ok in Hd as ([] & _ & Hd).
  apply bind_Ok in Hd as ([] & Hs%fail_if_Ok%Z.leb_gt & Hd). apply bind_Ok in Hd as ([] & _ & Hd).
  apply bind_Ok in Hd as (r0 & Hr0%unwrap_Ok & Hd). assert (r0 = r) as -> by congruence.
  apply bind_Ok in Hd as ([] & Hle%fail_if_Ok%Z.ltb_ge & Hd).
  apply bind_Ok in Hd as (qa & Hqa & Hd). apply bind_Ok in Hd as (qb & Hqb & Hd).
  apply bind_Ok in Hd as ([] & [Ha%Z.leb_gt Hb%Z.leb_gt]%fail_if_Ok%orb_false_iff & Hd).
  apply bind_Ok in Hd as ([] & [Hla%Z.ltb_ge Hlb%Z.ltb_ge]%fail_if_Ok%orb_false_iff & Hd).
  apply bind_Ok in Hd as (ra & [-> _]%ok_or_Ok%chk_Some & Hd). apply bind_Ok in Hd as (rb & [-> _]%ok_or_Ok%chk_Some & Hd).
  apply bind_Ok in Hd as (ts & [-> _]%ok_or_Ok%chk_Some & Hd). apply bind_Ok in Hd as (n & [-> _]%ok_or_Ok%chk_Some & Hd).
  injection Hd as <- <- <-.
  apply shares_from_Ok in Hqa as (_ & -> & _); [|lia..]. apply shares_from_Ok in Hqb as (_ & -> & _); [|lia..].
  eexists. split; [|split; [done|reflexivity]]. split_and!; try done.
Qed.

Lemma lp_swap_Ok (auth : Address -> bool) (s s' : DataKey) (user token_in : Address) (amt min out : Z) (r : PoolReserves) :
  Reserves s = Some r -> swap auth s user token_in amt min = Ok (s', out) ->
  exists r' (a_in : bool), swaps r r' a_in amt out /\ s' = write_reserves s r' /\ 0 < min <= out /\
    (if a_in then TokenA s = Some token_in else TokenB s = Some token_in /\ TokenA s <> Some token_in).
Proof.
  intros Hr Hd. unfold swap in Hd. apply bind_Ok in Hd as ([] & _ & Hd).
  apply bind_Ok in Hd as ([] & Ha%fail_if_Ok%Z.leb_gt & Hd). apply bind_Ok in Hd as ([] & _ & Hd).
  apply bind_Ok in Hd as (r0 & Hr0%unwrap_Ok & Hd). assert (r0 = r) as -> by congruence.
  apply bind_Ok in Hd as (ta & Hta%unwrap_Ok & Hd). apply bind_Ok in Hd as (tb & Htb%unwrap_Ok & Hd).
  apply bind_Ok in Hd as ([[x y] a_in] & Hx & Hd).
  assert ((x, y) = (if a_in then (reserve_a r, reserve_b r) else (reserve_b r, reserve_a r)) /\
    (if a_in then TokenA s = Some token_in else TokenB s = Some token_in /\ TokenA s <> Some token_in)) as [Exy Htok].
  { destruct (bool_decide_reflect (token_in = ta)) as [->|Hne]; [by injection Hx as <- <- <-|].
    destruct (bool_decide_reflect (token_in = tb)) as [->|]; [|done]. injection Hx as <- <- <-. split; [done|]. split; [done|congruence]. }
  apply bind_Ok in Hd as ([] & [Hxp%Z.leb_gt Hyp%Z.leb_gt]%fail_if_Ok%orb_false_iff & Hd).
  apply bind_Ok in Hd as (n & [-> _]%ok_or_Ok%chk_Some & Hd). apply bind_Ok in Hd as (p & [-> _]%ok_or_Ok%chk_Some & Hd).
  apply bind_Ok in Hd as (q & Hq%ok_or_Ok & Hd). unfold checked_div in Hq. rewrite (proj2 (Z.eqb_neq _ 0)) in Hq by lia.
  apply chk_Some in Hq as [-> _]. rewrite Z.quot_div_nonneg in Hd by nia.
  apply bind_Ok in Hd as ([] & Hp%fail_if_Ok%Z.leb_gt & Hd). apply bind_Ok in Hd as ([] & Hmin%fail_if_Ok%Z.leb_gt & Hd).
  apply bind_Ok in Hd as ([] & Hslip%fail_if_Ok%Z.ltb_ge & Hd). apply bind_Ok in Hd as ([] & _ & Hd).
  apply bind_Ok in Hd as (r' & Hr' & Hd). injection Hd as <- <-. exists r', a_in.
  split; [|split; [done|split; [lia|done]]]. unfold swaps. destruct a_in; injection Exy as -> ->;
    apply bind_Ok in Hr' as (z & [-> _]%ok_or_Ok%chk_Some & Hr'); injection Hr' as <-; done.
Qed.

(** ** The invariant *)
Record lp_ok (s : DataKey) : Prop := {
  lo_none : Reserves s = None -> Initialized s = false /\ UserShares s = ∅;
  lo_some : forall r, Reserves s = Some r ->
    Initialized s = true /\ in_reserves r /\ total_shares r = msum (fun _ v => v) (UserShares s);
  lo_user : forall u v, UserShares s !! u = Some v -> 0 <= v
}.

Lemma deposits_reserves (r r' : PoolReserves) (a b m : Z) : in_reserves r -> deposits r r' a b m -> in_reserves r'.
Proof.
  intros (R1 & R2 & R3 & R4) (Ha & Hb & Hm & -> & Hmax & _). unfold in_reserves. cbn [reserve_a reserve_b total_shares].
  destruct (Z.eq_dec (total_shares r) 0) as [E|E]; [destruct (R1 E)|destruct (R3 ltac:(lia))]; lia.
Qed.

Lemma withdraws_reserves (r r' : PoolReserves) (sh a b : Z) :
  in_reserves r -> sh <= total_shares r -> withdraws r r' sh a b -> in_reserves r'.
Proof.
  intros (R1 & R2 & R3 & R4) Hle (Hs & Ha & Hb & Ea & Eb & ->). unfold in_reserves. cbn [reserve_a reserve_b total_shares].
  destruct (R3 ltac:(lia)) as [Pa Pb]. split; [|split; [lia|split; [|lia]]].
  - intros E. assert (sh = total_shares r) as -> by lia. rewrite Z.div_mul in Ea, Eb by lia. lia.
  - intros Hp. assert (a < reserve_a r) by (rewrite Ea; apply Z.div_lt_upper_bound; nia).
    assert (b < reserve_b r) by (rewrite Eb; apply Z.div_lt_upper_bound; nia). lia.
Qed.

Lemma swap_out_less (x y amt : Z) : 0 < x -> 0 < y -> 0 < amt ->
  y * amt / (x + amt) < y /\ y * amt / (x + amt) * (x + amt) <= y * amt.
Proof.
  intros Hx Hy Ha. split; [apply Z.div_lt_upper_bound; nia|]. pose proof (Z.mul_div_le (y * amt) (x + amt) ltac:(lia)). lia.
Qed.

Lemma swaps_reserves (r r' : PoolReserves) (a_in : bool) (amt out : Z) :
  in_reserves r -> swaps r r' a_in amt out -> in_reserves r'.
Proof.
  intros (R1 & R2 & R3 & R4). unfold swaps, in_reserves. destruct a_in; intros (Ha & Ho & Hx & Hy & Eo & ->); cbn [reserve_a reserve_b total_shares];
    destruct (swap_out_less _ _ amt Hx Hy Ha); split_and!; lia.
Qed.

Lemma write_shares_ok (s : DataKey) (r r' : PoolReserves) (user : Address) (d : Z) :
  lp_ok s -> Reserves s = Some r -> in_reserves r' -> total_shares r' = total_shares r + d -> 0 <= read_user_shares s user + d ->
  lp_ok (write_user_shares (write_reserves s r') user (read_user_shares s user + d)).
Proof.
  intros Hok Hr Hr' Ht Hd. destruct (lo_some s Hok r Hr) as (Hi & _ & Hsum). constructor; cbn; [done| |].
  - intros r0 [= <-]. split; [done|]. split; [done|]. rewrite Ht, Hsum, msum_insert. unfold term, read_user_shares.
    destruct (UserShares s !! user); cbn; unfold Datatypes.id; lia.
  - intros u v. intros [[<- <-]|[_ Hv]]%lookup_insert_Some; [done|by apply (lo_user s Hok u)].
Qed.

Lemma share_le_total (s : DataKey) (r : PoolReserves) (u : Address) :
  lp_ok s -> Reserves s = Some r -> 0 <= read_user_shares s u <= total_shares r.
Proof.
  intros Hok Hr. destruct (lo_some s Hok r Hr) as (_ & _ & ->). pose proof (msum_term_le (fun _ v => v) (UserShares s) u) as Ht.
  unfold term in Ht. unfold read_user_shares. specialize (Ht (lo_user s Hok)).
  destruct (UserShares s !! u) eqn:E; cbn; unfold Datatypes.id; [pose proof (lo_user s Hok u _ E)|]; lia.
Qed.

(** One successful call: what happened to the reserves. *)
Definition reserves_step (r r' : PoolReserves) : Prop :=
  (exists a b m, deposits r r' a b m) \/ (exists sh a b, withdraws r r' sh a b /\ sh <= total_shares r) \/
  exists a_in amt out, swaps r r' a_in amt out.

Lemma lp_step (auth : Address -> bool) (s s' : DataKey) (x : lp_call) :
  lp_ok s -> run_lp auth s x = Ok s' ->
  lp_ok s' /\ forall r, Reserves s = Some r -> exists r', Reserves s' = Some r' /\ in_reserves r /\ reserves_step r r'.
Proof.
  intros Hok Hr. destruct x as [ta tb|user a b|user sh|user t amt min]; cbn [run_lp] in Hr.
  - apply bind_Ok in Hr as ([] & Hi%fail_if_Ok & Hr). injection Hr as <-.
    assert (Reserves s = None) as En.
    { destruct (Reserves s) as [r|] eqn:E; [|done]. destruct (lo_some s Hok r E). congruence. }
    destruct (lo_none s Hok En) as [_ Eu]. split; [|congruence]. constructor; cbn; [done| |apply (lo_user s Hok)].
    intros r [= <-]. unfold in_reserves. cbn. rewrite Eu, msum_empty. split; [done|]. split; [|done]. split_and!; try done; lia.
  - apply bind_Ok in Hr as ([s1 m] & Hr & Hs). injection Hs as <-. pose proof Hr as Hr0.
    destruct (deposit_needs _ _ _ _ _ _ _ Hr0) as [r E].
    destruct (lo_some s Hok r E) as (_ & Hin & _). apply (lp_deposit_Ok _ _ _ _ _ _ _ r E Hin) in Hr as (r' & Hd & ->).
    pose proof (share_le_total s r user Hok E). split.
    + pose proof Hd as (_ & _ & Hm & Er & _). apply write_shares_ok with r; [done|done| |by rewrite Er|lia]. by apply (deposits_reserves r r' a b m).
    + intros r0 Hr0'. assert (r0 = r) as -> by congruence. exists r'. split; [done|]. split; [done|]. left. by exists a, b, m.
  - apply bind_Ok in Hr as ([s1 [a b]] & Hr & Hs). injection Hs as <-. pose proof Hr as Hr0.
    destruct (withdraw_needs _ _ _ _ _ _ Hr0) as [r E].
    destruct (lo_some s Hok r E) as (_ & Hin & _). apply (withdraw_Ok _ _ _ _ _ _ _ r E Hin) in Hr as (r' & Hd & Hle & ->).
    pose proof (share_le_total s r user Hok E). split.
    + pose proof Hd as (Hm & _ & _ & _ & _ & Er).
      replace (read_user_shares s user - sh) with (read_user_shares s user + - sh) by lia.
      apply write_shares_ok with r; [done|done| |rewrite Er; cbn; lia|lia]. apply (withdraws_reserves r r' sh a b); [done|lia|done].
    + intros r0 Hr0'. assert (r0 = r) as -> by congruence. exists r'. split; [done|]. split; [done|]. right. left. exists sh, a, b. split; [done|lia].
  - apply bind_Ok in Hr as ([s1 out] & Hr & Hs). injection Hs as <-. pose proof Hr as Hr0.
    destruct (swap_needs _ _ _ _ _ _ _ _ Hr0) as [r E].
    destruct (lo_some s Hok r E) as (Hi & Hin & Hsum). apply (lp_swap_Ok _ _ _ _ _ _ _ _ r E) in Hr as (r' & a_in & Hd & -> & _).
    pose proof (swaps_reserves r r' a_in amt out Hin Hd) as Hin'. split.
    + constructor; cbn; [done| |apply (lo_user s Hok)]. intros r0 [= <-]. split; [done|]. split; [done|]. rewrite <- Hsum.
      unfold swaps in Hd. destruct a_in; destruct Hd as (_ & _ & _ & _ & _ & ->); done.
    + intros r0 Hr0'. assert (r0 = r) as -> by congruence. exists r'. split; [done|]. split; [done|]. right. right. by exists a_in, amt, out.
Qed.

Lemma lp_history_ok (s : DataKey) : lp_history s -> lp_ok s.
Proof. induction 1 as [|s auth x s' _ Hok Hr]; [by constructor|]. by apply (lp_step auth s s' x). Qed.

(** The shares of the pool add up and are backed. Over any history the total is the sum
    of the shares of all users, none of which is negative; there are shares exactly
    while both reserves are positive, and without shares both reserves are empty: the
    last withdrawal takes everything, and a pool is never left with one asset. *)
Theorem lp_shares_backed (s : DataKey) (r : PoolReserves) :
  lp_history s -> read_reserves s = Ok r ->
  get_total_shares s = Ok (msum (fun _ v => v) (UserShares s)) /\
  (forall u, 0 <= get_shares s u <= total_shares r) /\
  (if total_shares r =? 0 then get_reserves s = Ok (0, 0) else 0 < reserve_a r /\ 0 < reserve_b r).
Proof.
  intros Hok%lp_history_ok Hr. pose proof Hr as E%unwrap_Ok. destruct (lo_some s Hok r E) as (_ & (R1 & R2 & R3 & _) & Hsum).
  split_and!.
  - unfold get_total_shares. by rewrite Hr, bind_ret, Hsum.
  - intros u. by apply share_le_total.
  - unfold get_reserves. rewrite Hr, bind_ret. destruct (Z.eqb_spec (total_shares r) 0) as [Et|Et].
    + by destruct (R1 Et) as [-> ->].
    + apply R3. lia.
Qed.

Lemma product_of_ratios (x y x' y' t u : Z) :
  0 <= x * u -> 0 <= y * u -> x * u <= x' * t -> y * u <= y' * t -> x * y * (u * u) <= x' * y' * (t * t).
Proof.
  intros Hx Hy Ix Iy. replace (x * y * (u * u)) with (x * u * (y * u)) by ring.
  replace (x' * y' * (t * t)) with (x' * t * (y' * t)) by ring. by apply Z.mul_le_mono_nonneg.
Qed.

Lemma product_step (r r' : PoolReserves) :
  in_reserves r -> reserves_step r r' ->
  reserve_a r * reserve_b r * (total_shares r' * total_shares r') <= reserve_a r' * reserve_b r' * (total_shares r * total_shares r).
Proof.
  intros (R1 & R2 & R3 & R4) [(a & b & m & Ha & Hb & Hm & -> & _ & Hmint)|[(sh & a & b & (Hs & Ha & Hb & Ea & Eb & ->) & Hle)|(a_in & amt & out & Hsw)]].
  - cbn [reserve_a reserve_b total_shares]. destruct (Z.eqb_spec (total_shares r) 0) as [E|E].
    + destruct (R1 E) as [-> ->]. rewrite E. lia.
    + destruct (R3 ltac:(lia)) as [Pa Pb].
      assert (m * reserve_a r <= a * total_shares r /\ m * reserve_b r <= b * total_shares r) as [Ma Mb].
      { pose proof (Z.mul_div_le (a * total_shares r) (reserve_a r) Pa). pose proof (Z.mul_div_le (b * total_shares r) (reserve_b r) Pb). nia. }
      assert (reserve_a r * (total_shares r + m) <= (reserve_a r + a) * total_shares r) as Ia by lia.
      assert (reserve_b r * (total_shares r + m) <= (reserve_b r + b) * total_shares r) as Ib by lia.
      apply product_of_ratios; [nia|nia|exact Ia|exact Ib].
  - cbn [reserve_a reserve_b total_shares]. destruct (R3 ltac:(lia)) as [Pa Pb].
    pose proof (Z.mul_div_le (reserve_a r * sh) (total_shares r) ltac:(lia)) as Ma. pose proof (Z.mul_div_le (reserve_b r * sh) (total_shares r) ltac:(lia)) as Mb.
    rewrite <- Ea in Ma. rewrite <- Eb in Mb.
    assert (reserve_a r * (total_shares r - sh) <= (reserve_a r - a) * total_shares r) as Ia by lia.
    assert (reserve_b r * (total_shares r - sh) <= (reserve_b r - b) * total_shares r) as Ib by lia.
    apply product_of_ratios; [nia|nia|exact Ia|exact Ib].
  - unfold swaps in Hsw. destruct a_in; destruct Hsw as (Ha & Ho & Hx & Hy & Eo & ->); cbn [reserve_a reserve_b total_shares];
      destruct (swap_out_less _ _ amt Hx Hy Ha) as [_ Hm]; rewrite <- Eo in Hm; apply Z.mul_le_mono_nonneg_r; nia.
Qed.

(** C8: No call takes value from the remaining shares. Whatever a caller does on a pool in
    any reachable state (deposit at any ratio, withdraw any part, swap any amount), the
    product of the reserves divided by the square of the number of shares does not
    fall: rounding is always against the caller. *)
Theorem share_value_never_falls (s s' : DataKey) (auth : Address -> bool) (x : lp_call) (r r' : PoolReserves) :
  lp_history s -> run_lp auth s x = Ok s' -> read_reserves s = Ok r -> read_reserves s' = Ok r' ->
  reserve_a r * reserve_b r * (total_shares r' * total_shares r') <= reserve_a r' * reserve_b r' * (total_shares r * total_shares r).
Proof.
  intros Hok%lp_history_ok Hr E%unwrap_Ok E'%unwrap_Ok. destruct (lp_step auth s s' x Hok Hr) as [_ Hs].
  destruct (Hs r E) as (r0 & E0 & Hin & Hst). assert (r0 = r') as -> by congruence. by apply product_step.
Qed.

(** Going there and back never pays. On any reachable pool of two different assets,
    swapping an amount of one asset and swapping what came out back returns at most the
    amount; depositing and withdrawing the minted shares at once returns at most what
    was deposited of each asset. *)
Theorem no_free_round_trip (s : DataKey) (auth : Address -> bool) (user ta tb : Address) :
  lp_history s -> get_tokens s = Ok (ta, tb) -> ta <> tb ->
  (forall amt min1 s1 out min2 s2 back,
     swap auth s user ta amt min1 = Ok (s1, out) -> swap auth s1 user tb out min2 = Ok (s2, back) -> back <= amt) /\
  (forall amt min1 s1 out min2 s2 back,
     swap auth s user tb amt min1 = Ok (s1, out) -> swap auth s1 user ta out min2 = Ok (s2, back) -> back <= amt) /\
  (forall a b s1 minted s2 a' b',
     deposit auth s user a b = Ok (s1, minted) -> withdraw auth s1 user minted = Ok (s2, (a', b')) -> a' <= a /\ b' <= b).
Proof.
  intros Hok%lp_history_ok Htok Hne.
  apply bind_Ok in Htok as (ta0 & Hta%unwrap_Ok & Htok). apply bind_Ok in Htok as (tb0 & Htb%unwrap_Ok & Htok). injection Htok as -> ->.
  assert (forall amt out, 0 < amt -> forall x y, 0 < x -> 0 < y -> out = y * amt / (x + amt) -> (x + amt) * out / (y - out + out) <= amt) as Hback.
  { intros amt out Ha x y Hx Hy ->. destruct (swap_out_less x y amt Hx Hy Ha). apply Z.div_le_upper_bound; lia. }
  split; [|split].
  - intros amt min1 s1 out min2 s2 back H1 H2.
    destruct (swap_needs _ _ _ _ _ _ _ _ H1) as [r E].
    apply (lp_swap_Ok _ _ _ _ _ _ _ _ r E) in H1 as (r1 & [] & Hs1 & -> & _ & Ht1); [|destruct Ht1; congruence].
    apply (lp_swap_Ok _ _ _ _ _ _ _ _ r1 (eq_refl : Reserves (write_reserves s r1) = Some r1)) in H2 as (r2 & [] & Hs2 & _ & _ & Ht2); [cbn in Ht2; congruence|].
    unfold swaps in Hs1, Hs2. destruct Hs1 as (Ha & Ho & Hx & Hy & Eo & ->). destruct Hs2 as (_ & _ & _ & _ & -> & _).
    cbn [reserve_a reserve_b]. by apply Hback.
  - intros amt min1 s1 out min2 s2 back H1 H2.
    destruct (swap_needs _ _ _ _ _ _ _ _ H1) as [r E].
    apply (lp_swap_Ok _ _ _ _ _ _ _ _ r E) in H1 as (r1 & [] & Hs1 & -> & _ & Ht1); [congruence|].
    apply (lp_swap_Ok _ _ _ _ _ _ _ _ r1 (eq_refl : Reserves (write_reserves s r1) = Some r1)) in H2 as (r2 & [] & Hs2 & _ & _ & Ht2); [|cbn in Ht2; destruct Ht2; congruence].
    unfold swaps in Hs1, Hs2. destruct Hs1 as (Ha & Ho & Hx & Hy & Eo & ->). destruct Hs2 as (_ & _ & _ & _ & -> & _).
    cbn [reserve_a reserve_b]. by apply Hback.
  - intros a b s1 m s2 a' b' H1 H2.
    destruct (deposit_needs _ _ _ _ _ _ _ H1) as [r E].
    destruct (lo_some s Hok r E) as (_ & Hin & _). apply (lp_deposit_Ok _ _ _ _ _ _ _ r E Hin) in H1 as (r1 & Hd & ->).
    pose proof (deposits_reserves r r1 a b m Hin Hd) as Hin1.
    apply (withdraw_Ok _ (write_user_shares (write_reserves s r1) user _) _ _ _ _ _ r1 eq_refl Hin1) in H2 as (r2 & Hw & _).
    destruct Hw as (_ & _ & _ & -> & -> & _). destruct Hd as (Ha & Hb & Hm & -> & _ & Hmint). destruct Hin as (R1 & R2 & R3 & R4).
    cbn [reserve_a reserve_b total_shares]. destruct (Z.eqb_spec (total_shares r) 0) as [Et|Et].
    + destruct (R1 Et) as [-> ->]. rewrite Et. split; apply Z.div_le_upper_bound; lia.
    + destruct (R3 ltac:(lia)) as [Pa Pb]. pose proof (Z.mul_div_le (a * total_shares r) (reserve_a r) Pa).
      pose proof (Z.mul_div_le (b * total_shares r) (reserve_b r) Pb).
      assert (m * reserve_a r <= a * total_shares r /\ m * reserve_b r <= b * total_shares r) as [Ma Mb] by nia.
      split; apply Z.div_le_upper_bound; lia.
Qed.
End claims.

(** ** A concrete pool of tokens 100 and 200: users 3 and 4 deposit, 4 swaps. *)
Section witnesses.
#[local] Existing Instance test_host.

Definition lp_calls : list lp_call :=
  [PInitialize 100 200; PDeposit 3 1000 4000; PDeposit 4 500 2100; PSwap 4 100 77 1; PWithdraw 3 333].

Fixpoint run_lps (s : DataKey) (cs : list lp_call) : V DataKey :=
  match cs with [] => mret s | x :: cs => s' ← run_lp (fun _ => true) s x; run_lps s' cs end.

Lemma run_lps_history (cs : list lp_call) (s s' : DataKey) : lp_history s -> run_lps s cs = Ok s' -> lp_history s'.
Proof.
  revert s. induction cs as [|x cs IH]; intros s Hs Hr; [by injection Hr as <-|].
  apply bind_Ok in Hr as (s1 & Hs1 & Hr). apply IH with s1; [|done]. by apply lp_next with s (fun _ => true) x.
Qed.

Definition lp_state : DataKey := match run_lps empty_storage lp_calls with Ok s => s | _ => empty_storage end.

Lemma lp_state_history : lp_history lp_state.
Proof.
  apply (run_lps_history lp_calls empty_storage); [constructor|]. unfold lp_state.
  destruct (is_ok_Ok (run_lps empty_storage lp_calls)) as [s ->]; [vm_compute; reflexivity|done].
Qed.

Definition lp_reserves (s : DataKey) : PoolReserves :=
  match read_reserves s with Ok r => r | _ => {| reserve_a := 0; reserve_b := 0; total_shares := 0 |} end.

Lemma lp_reserves_ok (s : DataKey) : is_ok (read_reserves s) = true -> read_reserves s = Ok (lp_reserves s).
Proof. intros [r E]%is_ok_Ok. unfold lp_reserves. by rewrite E. Qed.

Lemma lp_state_reserves : read_reserves lp_state = Ok (lp_reserves lp_state).
Proof. apply lp_reserves_ok. vm_compute. reflexivity. Qed.

Lemma lp_shares_backed_witness :
  get_total_shares lp_state = Ok 2667 /\ 0 <= get_shares lp_state 3 <= total_shares (lp_reserves lp_state).
Proof.
  split; [vm_compute; reflexivity|].
  pose proof (lp_shares_backed (H := test_host) lp_state (lp_reserves lp_state) lp_state_history lp_state_reserves) as (_ & Hs & _).
  exact (Hs 3).
Defined.

Definition lp_after : DataKey := match run_lp (fun _ => true) lp_state (PSwap (H := test_host) 3 200 500 1) with Ok s => s | _ => lp_state end.

Lemma share_value_never_falls_witness :
  reserve_b (lp_reserves lp_after) = reserve_b (lp_reserves lp_state) + 500 /\
  reserve_a (lp_reserves lp_state) * reserve_b (lp_reserves lp_state) * (2667 * 2667)
    <= reserve_a (lp_reserves lp_after) * reserve_b (lp_reserves lp_after) * (2667 * 2667).
Proof.
  split; [vm_compute; reflexivity|].
  assert (run_lp (fun _ => true) lp_state (PSwap (H := test_host) 3 200 500 1) = Ok lp_after) as Hr.
  { unfold lp_after. destruct (is_ok_Ok (run_lp (fun _ => true) lp_state (PSwap (H := test_host) 3 200 500 1))) as [s ->]; [vm_compute; reflexivity|done]. }
  exact (share_value_never_falls (H := test_host) lp_state lp_after _ _ _ _ lp_state_history Hr
    lp_state_reserves (lp_reserves_ok lp_after ltac:(vm_compute; reflexivity))).
Defined.

Definition swap_there : DataKey * Z := match swap (H := test_host) (fun _ => true) lp_state 3 100 50 1 with Ok r => r | _ => (lp_state, 0) end.
Definition swap_back : DataKey * Z := match swap (H := test_host) (fun _ => true) swap_there.1 3 200 swap_there.2 1 with Ok r => r | _ => (lp_state, 0) end.

Definition is_addr (o : option Z) (n : Z) : bool := match o with Some t => Z.eqb t n | None => false end.

Lemma is_addr_Some (o : option Z) (n : Z) : is_addr o n = true -> o = Some n.
Proof. destruct o as [t|]; [|done]. intros E. apply Z.eqb_eq in E. by subst. Qed.

Lemma token_a_100 : TokenA lp_state = Some 100.
Proof. apply is_addr_Some. vm_compute. reflexivity. Qed.

Lemma token_b_200 : TokenB lp_state = Some 200.
Proof. apply is_addr_Some. vm_compute. reflexivity. Qed.

Lemma lp_tokens : get_tokens lp_state = Ok (100, 200).
Proof. unfold get_tokens. rewrite token_a_100, token_b_200. done. Qed.

Lemma no_free_round_trip_witness : swap_there.2 = 177 /\ swap_back.2 = 49 /\ swap_back.2 <= 50.
Proof.
  split; [vm_compute; reflexivity|]. split; [vm_compute; reflexivity|].
  assert (swap (H := test_host) (fun _ => true) lp_state 3 100 50 1 = Ok (swap_there.1, swap_there.2)) as H1.
  { unfold swap_there. destruct (is_ok_Ok (swap (H := test_host) (fun _ => true) lp_state 3 100 50 1)) as [[s z] ->]; [vm_compute; reflexivity|done]. }
  assert (swap (H := test_host) (fun _ => true) swap_there.1 3 200 swap_there.2 1 = Ok (swap_back.1, swap_back.2)) as H2.
  { unfold swap_back. destruct (is_ok_Ok (swap (H := test_host) (fun _ => true) swap_there.1 3 200 swap_there.2 1)) as [[s z] ->]; [vm_compute; reflexivity|done]. }
  assert (100 <> 200) as Hne by lia.
  exact (proj1 (no_free_round_trip (H := test_host) lp_state (fun _ => true) 3 100 200 lp_state_history lp_tokens Hne) _ _ _ _ _ _ _ H1 H2).
Defined.
End witnesses.
