(* ===== verification/InterestRate.v ===== *)
(** * Interest rate model contract

    [src/contracts/interest-rate-model/src/lib.rs]: the borrow rate of a pool as a
    function of its utilisation, with a kink at the optimal utilisation; the parameters
    are kept in the instance storage and set by the admin. Events are left out. The
    theorems give the curve exactly and show that it is monotone and without a jump. *)

From stdpp Require Import base numbers list.
From Stdlib Require Import ZArith Lia.
From S2P Require Import Prelude Host.

Open Scope Z_scope.

Definition BPS : Z := 10000.

Inductive ModelError :=
  | AlreadyInitialized | NotInitialized | NotAdmin | InvalidOptimalUtilization | NegativeAmount | Overflow.

Definition error_code (e : ModelError) : Z :=
  match e with
  | AlreadyInitialized => 1 | NotInitialized => 2 | NotAdmin => 3 | InvalidOptimalUtilization => 4
  | NegativeAmount => 5 | Overflow => 6
  end.

Abbreviation V := (result ModelError).

Record RateModel := {
  base_rate_bps : Z;
  optimal_utilization_bps : Z;
  slope1_bps : Z;
  slope2_bps : Z
}.

(** [u32::try_from(z).map_err(|_| Overflow)] *)
Definition to_u32 (z : Z) : V Z := ok_or (chk U32 z) Overflow.

(** [a.checked_mul(b)?.checked_div(c)?] in [u128]. *)
Definition mul_div (a b c : Z) : V Z :=
  p ← ok_or (checked_mul U128 a b) Overflow;
  ok_or (checked_div U128 p c) Overflow.

Definition utilization_rate (total_debt total_collateral : Z) : V Z :=
  _ ← fail_if ((total_debt <? 0) || (total_collateral <? 0)) NegativeAmount;
  if total_collateral =? 0 then mret (if total_debt =? 0 then 0 else BPS)
  else
    utilization ← mul_div (cast U128 total_debt) BPS (cast U128 total_collateral);
    to_u32 utilization.

Definition validate_model (m : RateModel) : V unit :=
  fail_if ((optimal_utilization_bps m =? 0) || (BPS <=? optimal_utilization_bps m)) InvalidOptimalUtilization.

Definition borrow_rate (utilization_bps : Z) (m : RateModel) : V Z :=
  _ ← validate_model m;
  let base := base_rate_bps m in
  rate ← (if utilization_bps <=? optimal_utilization_bps m then
            scaled ← mul_div utilization_bps (slope1_bps m) (optimal_utilization_bps m);
            ok_or (checked_add U128 base scaled) Overflow
          else
            excess ← isub U32 utilization_bps (optimal_utilization_bps m);
            rest ← isub U32 BPS (optimal_utilization_bps m);
            steep ← mul_div excess (slope2_bps m) rest;
            low ← ok_or (checked_add U128 base (slope1_bps m)) Overflow;
            ok_or (checked_add U128 low steep) Overflow);
  to_u32 rate.

Section rates.
Context {H : Host}.

Record DataKey := { Admin : option Address; Model : option RateModel }.

Definition empty_storage : DataKey := {| Admin := None; Model := None |}.

Definition load_admin (s : DataKey) : V Address := ok_or (Admin s) NotInitialized.

Definition load_model (s : DataKey) : V RateModel := ok_or (Model s) NotInitialized.

Definition initialize (auth : Address -> bool) (s : DataKey) (admin : Address) (base optimal slope1 slope2 : Z) : V DataKey :=
  _ ← fail_if (bool_decide (is_Some (Admin s))) AlreadyInitialized;
  let m := {| base_rate_bps := base; optimal_utilization_bps := optimal; slope1_bps := slope1; slope2_bps := slope2 |} in
  _ ← validate_model m;
  _ ← require_auth auth admin;
  mret {| Admin := Some admin; Model := Some m |}.

Definition set_model (auth : Address -> bool) (s : DataKey) (caller : Address) (base optimal slope1 slope2 : Z) : V (DataKey * RateModel) :=
  admin ← load_admin s;
  _ ← fail_if (bool_decide (caller <> admin)) NotAdmin;
  _ ← require_auth auth caller;
  let m := {| base_rate_bps := base; optimal_utilization_bps := optimal; slope1_bps := slope1; slope2_bps := slope2 |} in
  _ ← validate_model m;
  mret ({| Admin := Admin s; Model := Some m |}, m).

Definition utilization (total_debt total_collateral : Z) : V Z := utilization_rate total_debt total_collateral.

Definition rate_for_utilization (s : DataKey) (utilization_bps : Z) : V Z :=
  m ← load_model s;
  borrow_rate utilization_bps m.

Definition borrow_rate_for_pool (s : DataKey) (total_debt total_collateral : Z) : V Z :=
  m ← load_model s;
  u ← utilization_rate total_debt total_collateral;
  borrow_rate u m.

Definition get_model (s : DataKey) : V RateModel := load_model s.
End rates.

(** ** The exact curve *)
Definition model_typed (m : RateModel) : Prop :=
  0 <= base_rate_bps m <= imax U32 /\ 0 <= slope1_bps m <= imax U32 /\ 0 <= slope2_bps m <= imax U32 /\
  0 < optimal_utilization_bps m < BPS.

Definition curve (m : RateModel) (u : Z) : Z :=
  if u <=? optimal_utilization_bps m then base_rate_bps m + u * slope1_bps m / optimal_utilization_bps m
  else base_rate_bps m + slope1_bps m + (u - optimal_utilization_bps m) * slope2_bps m / (BPS - optimal_utilization_bps m).

Lemma mul_div_eq (a b c : Z) :
  0 <= a -> 0 <= b -> 0 < c -> a * b <= imax U128 -> mul_div a b c = Ok (a * b / c).
Proof.
  intros Ha Hb Hc Hm. unfold mul_div, checked_mul, checked_div. rewrite (proj2 (chk_Some U128 (a * b) _)) by (cbn [imin]; split; [done|nia]).
  cbn [ok_or]. rewrite bind_ret, (proj2 (Z.eqb_neq c 0)) by lia. rewrite Z.quot_div_nonneg by nia.
  pose proof (Z.div_pos (a * b) c ltac:(nia) Hc). pose proof (Z.div_le_upper_bound (a * b) c (a * b) Hc ltac:(nia)).
  by rewrite (proj2 (chk_Some U128 (a * b / c) _)) by (cbn [imin]; split; [done|lia]).
Qed.

Lemma to_u32_eq (z : Z) : 0 <= z -> to_u32 z = if z <=? imax U32 then Ok z else Err Overflow.
Proof.
  intros Hz. unfold to_u32, chk, fits. cbn [imin]. rewrite (proj2 (Z.leb_le 0 z) Hz). by destruct (z <=? imax U32).
Qed.

Lemma product_range (a b : Z) : 0 <= a <= imax U32 -> 0 <= b <= imax U32 -> 0 <= a * b <= 2 ^ 64.
Proof. cbn [imax]. nia. Qed.

Lemma div_below (n d : Z) : 0 <= n -> 0 < d -> 0 <= n / d <= n.
Proof. intros Hn Hd. split; [by apply Z.div_pos|]. apply Z.div_le_upper_bound; nia. Qed.

Lemma borrow_rate_eq (m : RateModel) (u : Z) :
  model_typed m -> 0 <= u <= imax U32 ->
  borrow_rate u m = if curve m u <=? imax U32 then Ok (curve m u) else Err Overflow.
Proof.
  intros (Hb & H1 & H2 & Ho) Hu. unfold borrow_rate, validate_model, curve.
  assert (BPS < imax U32) as HB by done.
  rewrite (proj2 (Z.eqb_neq _ 0)), (proj2 (Z.leb_gt BPS _)) by lia. cbn [orb fail_if]. rewrite bind_ret.
  destruct (Z.leb_spec u (optimal_utilization_bps m)).
  - pose proof (product_range u (slope1_bps m) Hu H1). pose proof (div_below (u * slope1_bps m) (optimal_utilization_bps m) ltac:(lia) ltac:(lia)).
    rewrite mul_div_eq, bind_ret by (cbn [imax] in *; lia). unfold checked_add.
    rewrite (proj2 (chk_Some U128 _ _)) by (split; [reflexivity|cbn [imin imax] in *; lia]). cbn [ok_or]. rewrite bind_ret. apply to_u32_eq. lia.
  - pose proof (product_range (u - optimal_utilization_bps m) (slope2_bps m) ltac:(lia) H2).
    pose proof (div_below ((u - optimal_utilization_bps m) * slope2_bps m) (BPS - optimal_utilization_bps m) ltac:(lia) ltac:(lia)).
    unfold isub. rewrite (iop_in U32 (u - optimal_utilization_bps m)) by (cbn [imin]; lia).
    rewrite bind_ret, (iop_in U32 (BPS - optimal_utilization_bps m)) by (cbn [imin]; lia).
    rewrite bind_ret, mul_div_eq, bind_ret by (cbn [imax] in *; lia). unfold checked_add.
    rewrite (proj2 (chk_Some U128 (base_rate_bps m + _) _)) by (split; [reflexivity|cbn [imin imax] in *; lia]). cbn [ok_or]. rewrite bind_ret.
    rewrite (proj2 (chk_Some U128 _ _)) by (split; [reflexivity|cbn [imin imax] in *; lia]). cbn [ok_or]. rewrite bind_ret. apply to_u32_eq. lia.
Qed.

Lemma curve_mono (m : RateModel) (u v : Z) : model_typed m -> 0 <= u <= v -> base_rate_bps m <= curve m u <= curve m v.
Proof.
  intros (Hb & H1 & H2 & Ho) Huv. unfold curve. set (o := optimal_utilization_bps m) in *.
  assert (forall w, 0 <= w -> 0 <= w * slope1_bps m / o) as Hlow by (intros; apply Z.div_pos; nia).
  assert (forall w, o < w -> 0 <= (w - o) * slope2_bps m / (BPS - o)) as Hhigh by (intros; apply Z.div_pos; nia).
  destruct (Z.leb_spec u o), (Z.leb_spec v o); try lia.
  - pose proof (Z.div_le_mono (u * slope1_bps m) (v * slope1_bps m) o ltac:(lia) ltac:(nia)). pose proof (Hlow u). lia.
  - pose proof (Z.div_le_upper_bound (u * slope1_bps m) o (slope1_bps m) ltac:(lia) ltac:(nia)). pose proof (Hlow u). pose proof (Hhigh v). lia.
  - pose proof (Z.div_le_mono ((u - o) * slope2_bps m) ((v - o) * slope2_bps m) (BPS - o) ltac:(lia) ltac:(nia)). pose proof (Hhigh u). lia.
Qed.

(** ** Utilisation *)
Definition utilization_of (debt collateral : Z) : Z :=
  if collateral =? 0 then (if debt =? 0 then 0 else BPS) else debt * BPS / collateral.

Lemma utilization_rate_eq (debt collateral : Z) :
  0 <= debt <= imax I128 -> 0 <= collateral <= imax I128 ->
  utilization_rate debt collateral =
    if (debt * BPS <=? imax U128) || (collateral =? 0)
    then if utilization_of debt collateral <=? imax U32 then Ok (utilization_of debt collateral) else Err Overflow
    else Err Overflow.
Proof.
  intros Hd Hc. unfold utilization_rate, utilization_of. rewrite (proj2 (Z.ltb_ge debt 0)), (proj2 (Z.ltb_ge collateral 0)) by lia.
  cbn [orb fail_if]. rewrite bind_ret. destruct (Z.eqb_spec collateral 0) as [->|Hne].
  { rewrite orb_true_r. by destruct (debt =? 0). }
  rewrite orb_false_r. rewrite !cast_in by (cbn [imin imax] in *; lia).
  destruct (Z.leb_spec (debt * BPS) (imax U128)) as [Hm|Hm].
  - unfold BPS in *. rewrite mul_div_eq, bind_ret by lia. apply to_u32_eq. apply Z.div_pos; lia.
  - unfold mul_div, checked_mul, chk, fits. rewrite (proj2 (Z.leb_gt _ (imax U128)) Hm), andb_false_r. done.
Qed.

Section claims.
Context {H : Host}.

Inductive rate_call :=
  | RInitialize (admin : Address) (base optimal slope1 slope2 : Z)
  | RSetModel (caller : Address) (base optimal slope1 slope2 : Z).

Definition run_rate (auth : Address -> bool) (s : DataKey) (x : rate_call) : V DataKey :=
  match x with
  | RInitialize admin base optimal slope1 slope2 => initialize auth s admin base optimal slope1 slope2
  | RSetModel caller base optimal slope1 slope2 => r ← set_model auth s caller base optimal slope1 slope2; mret r.1
  end.

(** Parameters are values of [u32]. *)
Definition rate_typed (x : rate_call) : bool :=
  match x with
  | RInitialize _ base optimal slope1 slope2 | RSetModel _ base optimal slope1 slope2 =>
      fits U32 base && fits U32 optimal && fits U32 slope1 && fits U32 slope2
  end.

Inductive rate_history : DataKey -> Prop :=
  | rate_start : rate_history empty_storage
  | rate_next s auth x s' : rate_history s -> rate_typed x = true -> run_rate auth s x = Ok s' -> rate_history s'.

Lemma validated_typed (base optimal slope1 slope2 : Z) (u : unit) :
  fits U32 base && fits U32 optimal && fits U32 slope1 && fits U32 slope2 = true ->
  let m := {| base_rate_bps := base; optimal_utilization_bps := optimal; slope1_bps := slope1; slope2_bps := slope2 |} in
  validate_model m = Ok u -> model_typed m.
Proof.
  intros Hf m Hv. apply fail_if_Ok, orb_false_iff in Hv as [H0%Z.eqb_neq H1%Z.leb_gt].
  apply andb_true_iff in Hf as [[[Hb%fits_spec Ho%fits_spec]%andb_true_iff Hs1%fits_spec]%andb_true_iff Hs2%fits_spec].
  unfold model_typed. cbn [m base_rate_bps optimal_utilization_bps slope1_bps slope2_bps imin] in *. lia.
Qed.

Lemma rate_history_typed (s : DataKey) (m : RateModel) : rate_history s -> Model s = Some m -> model_typed m.
Proof.
  intros Hh. revert m. induction Hh as [|s auth x s' _ IH Hty Hr]; intros m Hm; [done|].
  destruct x as [admin base optimal slope1 slope2|caller base optimal slope1 slope2]; cbn [run_rate rate_typed] in *.
  - apply bind_Ok in Hr as ([] & _ & Hr). apply bind_Ok in Hr as (u & Hv & Hr). apply bind_Ok in Hr as ([] & _ & Hr).
    injection Hr as <-. injection Hm as <-. by eapply validated_typed.
  - apply bind_Ok in Hr as ([s1 m1] & Hr & Hs). injection Hs as <-. unfold set_model in Hr.
    apply bind_Ok in Hr as (? & _ & Hr). apply bind_Ok in Hr as ([] & _ & Hr). apply bind_Ok in Hr as ([] & _ & Hr).
    apply bind_Ok in Hr as (u & Hv & Hr). injection Hr as <- _. injection Hm as <-. by eapply validated_typed.
Qed.

(** The borrow rate is the kinked curve, exactly. On every reachable contract with a
    model and for every utilisation in [u32], the rate is base plus the share of the
    first slope up to the optimum, and base plus first slope plus the share of the
    second slope beyond it, both rounded down; it fails (with [Overflow]) exactly when
    that value exceeds [u32]. The curve passes through base plus first slope at the
    optimum, does not jump there, and never decreases. *)
Theorem borrow_rate_exact (s : DataKey) (m : RateModel) (u : Z) :
  rate_history s -> get_model s = Ok m -> 0 <= u <= imax U32 ->
  let o := optimal_utilization_bps m in
  rate_for_utilization s u =
    (let r := if u <=? o then base_rate_bps m + u * slope1_bps m / o
              else base_rate_bps m + slope1_bps m + (u - o) * slope2_bps m / (BPS - o) in
     if r <=? imax U32 then Ok r else Err Overflow) /\
  curve m o = base_rate_bps m + slope1_bps m /\
  curve m (o + 1) - curve m o = slope2_bps m / (BPS - o) /\
  (forall v r r', u <= v <= imax U32 -> rate_for_utilization s u = Ok r -> rate_for_utilization s v = Ok r' ->
     base_rate_bps m <= r <= r').
Proof.
  intros Hh Hm Hu o. apply ok_or_Ok in Hm. pose proof (rate_history_typed s m Hh Hm) as Ht.
  assert (forall w, 0 <= w <= imax U32 -> rate_for_utilization s w = if curve m w <=? imax U32 then Ok (curve m w) else Err Overflow) as E.
  { intros w Hw. unfold rate_for_utilization, load_model. rewrite Hm. cbn [ok_or]. rewrite bind_ret. by apply borrow_rate_eq. }
  pose proof Ht as (Hb & H1 & H2 & Ho). split; [by rewrite (E u Hu)|]. split_and!.
  - unfold curve. rewrite Z.leb_refl. fold o. rewrite Z.mul_comm, Z.div_mul by (unfold o; lia). done.
  - unfold curve. fold o. rewrite Z.leb_refl, (proj2 (Z.leb_gt (o + 1) o)) by lia.
    rewrite (Z.mul_comm o), Z.div_mul by (unfold o; lia). replace (o + 1 - o) with 1 by lia. rewrite Z.mul_1_l. lia.
  - intros v r r' Hv Hr Hr'. rewrite E in Hr, Hr' by lia. pose proof (curve_mono m u v Ht ltac:(lia)).
    destruct (curve m u <=? imax U32); [|done]. destruct (curve m v <=? imax U32); [|done]. injection Hr as <-. by injection Hr' as <-.
Qed.

(** The rate of a pool follows debt and collateral. On a reachable contract, for amounts
    in [i128], a pool with more debt or less (but some) collateral never gets a lower
    rate; an empty pool gets the base rate; debt without any collateral gets base plus
    both slopes, or [Overflow]; and negative amounts are refused. *)
Theorem pool_rate_monotone (s : DataKey) (m : RateModel) (d d' c c' r r' : Z) :
  rate_history s -> get_model s = Ok m -> 0 <= d <= d' -> d' <= imax I128 -> 0 < c' <= c -> c <= imax I128 ->
  borrow_rate_for_pool s d c = Ok r -> borrow_rate_for_pool s d' c' = Ok r' ->
  r <= r' /\ borrow_rate_for_pool s 0 0 = Ok (base_rate_bps m) /\
  (forall x, 0 < x <= imax I128 ->
     borrow_rate_for_pool s x 0 = let t := base_rate_bps m + slope1_bps m + slope2_bps m in
                                  if t <=? imax U32 then Ok t else Err Overflow) /\
  (forall x y, x < 0 \/ y < 0 -> borrow_rate_for_pool s x y = Err NegativeAmount).
Proof.
  intros Hh Hm Hd Hd' Hc Hc' Hr Hr'. apply ok_or_Ok in Hm. pose proof (rate_history_typed s m Hh Hm) as Ht.
  pose proof Ht as (Hb & H1 & H2 & Ho).
  assert (forall x y, borrow_rate_for_pool s x y = (u ← utilization_rate x y; borrow_rate u m)) as E.
  { intros x y. unfold borrow_rate_for_pool, load_model. rewrite Hm. cbn [ok_or]. by rewrite bind_ret. }
  assert (forall x y q, 0 <= x <= imax I128 -> 0 < y <= imax I128 -> borrow_rate_for_pool s x y = Ok q ->
    q = curve m (x * BPS / y) /\ 0 <= x * BPS / y) as Hq.
  { intros x y q Hx Hy Hxy. rewrite E in Hxy. apply bind_Ok in Hxy as (u & Hu & Hxy). rewrite utilization_rate_eq in Hu by lia.
    unfold utilization_of in Hu. rewrite (proj2 (Z.eqb_neq y 0)) in Hu by lia. rewrite orb_false_r in Hu.
    pose proof (Z.div_pos (x * BPS) y ltac:(unfold BPS; lia) ltac:(lia)) as Hpos.
    destruct (_ <=? imax U128); [|done]. destruct (Z.leb_spec (x * BPS / y) (imax U32)); [|done]. injection Hu as <-.
    rewrite borrow_rate_eq in Hxy by (lia || done). destruct (_ <=? imax U32); [|done]. by injection Hxy as <-. }
  split_and!.
  - apply Hq in Hr as [-> Hp]; [|lia..]. apply Hq in Hr' as [-> _]; [|lia..]. apply curve_mono; [done|]. split; [done|].
    transitivity (d' * BPS / c).
    + apply Z.div_le_mono; [lia|]. unfold BPS. lia.
    + apply Z.div_le_compat_l; [unfold BPS; lia|lia].
  - rewrite E. cbn [utilization_rate]. change (utilization_rate 0 0) with (@Ok ModelError Z 0). rewrite bind_ret, borrow_rate_eq by (done || (cbn [imax]; lia)).
    unfold curve. rewrite (proj2 (Z.leb_le 0 _)) by lia. rewrite Z.mul_0_l, Z.div_0_l, Z.add_0_r by lia. by rewrite (proj2 (Z.leb_le _ _)) by lia.
  - intros x Hx. rewrite E, utilization_rate_eq by (cbn [imax] in *; lia). cbn [Z.eqb]. rewrite orb_true_r. unfold utilization_of. cbn [Z.eqb].
    rewrite (proj2 (Z.eqb_neq x 0)) by lia. change (BPS <=? imax U32) with true. cbv iota. rewrite bind_ret, borrow_rate_eq by (done || (unfold BPS; cbn [imax]; lia)).
    unfold curve. rewrite (proj2 (Z.leb_gt BPS _)) by lia. rewrite Z.mul_comm, Z.div_mul by lia. done.
  - intros x y Hxy. rewrite E. unfold utilization_rate.
    assert ((x <? 0) || (y <? 0) = true) as -> by (apply orb_true_iff; rewrite !Z.ltb_lt; lia). done.
Qed.
End claims.

(** ** A concrete model: base 2%, optimum 80%, slopes 4% and 75%. *)
Section witnesses.
#[local] Existing Instance test_host.

Definition rate_store : DataKey :=
  match initialize (H := test_host) (fun _ => true) empty_storage 2 200 8000 400 7500 with Ok s => s | _ => empty_storage end.

Lemma rate_store_history : rate_history rate_store.
Proof.
  apply rate_next with empty_storage (fun _ => true) (RInitialize (H := test_host) 2 200 8000 400 7500); [constructor|reflexivity|].
  cbn [run_rate]. unfold rate_store.
  destruct (is_ok_Ok (initialize (H := test_host) (fun _ => true) empty_storage 2 200 8000 400 7500)) as [s ->]; [vm_compute; reflexivity|done].
Qed.

Definition the_model : RateModel :=
  {| base_rate_bps := 200; optimal_utilization_bps := 8000; slope1_bps := 400; slope2_bps := 7500 |}.

Lemma the_model_ok : get_model rate_store = Ok the_model.
Proof. vm_compute. reflexivity. Qed.

Lemma borrow_rate_exact_witness :
  rate_for_utilization rate_store 9000 = Ok 4350 /\ curve the_model 8000 = 600.
Proof.
  destruct (borrow_rate_exact (H := test_host) rate_store the_model 9000 rate_store_history the_model_ok ltac:(vm_compute; split; discriminate))
    as (-> & -> & _).
  split; vm_compute; reflexivity.
Defined.

Lemma pool_rate_monotone_witness :
  borrow_rate_for_pool rate_store 50 100 = Ok 450 /\ borrow_rate_for_pool rate_store 60 75 = Ok 600 /\ 450 <= 600.
Proof.
  split; [vm_compute; reflexivity|]. split; [vm_compute; reflexivity|].
  refine (proj1 (pool_rate_monotone (H := test_host) rate_store the_model 50 60 100 75 450 600 rate_store_history the_model_ok _ _ _ _ _ _));
    vm_compute; (split; discriminate) || (split; [reflexivity|discriminate]) || discriminate || reflexivity.
Defined.
End witnesses.
