(* ===== verification/PoolInvariant.v ===== *)
(** * Pool arithmetic of the root crate

    [src/src/amm/invariant.rs] and [src/src/amm/slippage.rs]: multiplication and
    division through 256 bits, the fee tiers, liquidity shares, the constant-product
    and slippage checks. The swap quote is left out: the fee it
    resolves asks a configuration that the repository does not define. *)

From stdpp Require Import base numbers list.
From Stdlib Require Import ZArith Lia.
From S2P Require Import Prelude Words RootErrors.

Open Scope Z_scope.

Abbreviation R := (result ContractError).

(** [U256(lo, hi)] *)
Record U256 := { word_lo : Z; word_hi : Z }.

(** [U256::mul] *)
Definition mul (a b : Z) : R U256 :=
  let a_lo := cast U64 a in
  let a_hi := cast U64 (Z.shiftr a 64) in
  let b_lo := cast U64 b in
  let b_hi := cast U64 (Z.shiftr b 64) in
  p_lo_lo ← imul U128 a_lo b_lo;
  cross1 ← imul U128 a_hi b_lo;
  cross2 ← imul U128 a_lo b_hi;
  p_hi_hi ← imul U128 a_hi b_hi;
  let '(mid, carry_mid) := overflowing_add U128 cross1 cross2 in
  let mid_lo := shl U128 mid 64 in
  let mid_hi := wrapping_add U128 (Z.shiftr mid 64) (shl U128 (Z.b2z carry_mid) 64) in
  let '(result_lo, carry_lo) := overflowing_add U128 p_lo_lo mid_lo in
  let result_hi := wrapping_add U128 (wrapping_add U128 p_hi_hi mid_hi) (Z.b2z carry_lo) in
  mret {| word_lo := result_lo; word_hi := result_hi |}.

(** [U256::div_mod] *)
Definition div_mod (v : U256) (divisor : Z) : R (option (Z * Z)) :=
  if divisor =? 0 then mret None
  else if divisor <=? word_hi v then mret None
  else qr ← long_div 128 (word_lo v) divisor (word_hi v) 0; mret (Some qr).

Definition mul_div (numerator denominator divisor : Z) : R Z :=
  _ ← fail_if (divisor =? 0) DivisionByZero;
  product ← mul numerator denominator;
  qr ← div_mod product divisor;
  r ← ok_or qr Overflow;
  mret r.1.

(** ** Fee tiers *)
Definition FEE_TIER_0_05_BPS : Z := 5.
Definition FEE_TIER_0_30_BPS : Z := 30.
Definition FEE_TIER_1_00_BPS : Z := 100.
Definition MIN_FEE_TIER_BPS : Z := FEE_TIER_0_05_BPS.
Definition MAX_FEE_TIER_BPS : Z := FEE_TIER_1_00_BPS.

Definition validate_fee_tier (fee_bps : Z) : R unit :=
  fail_if (negb ((fee_bps =? FEE_TIER_0_05_BPS) || (fee_bps =? FEE_TIER_0_30_BPS) || (fee_bps =? FEE_TIER_1_00_BPS))) InvalidInput.

Definition apply_governance_fee_tier (voted_fee_bps : Z) : R Z :=
  _ ← validate_fee_tier voted_fee_bps; mret voted_fee_bps.

Record FeeTierController := { current_fee_bps : Z }.

(** [FeeTierController::new] *)
Definition new_controller (fee_bps : Z) : R FeeTierController :=
  _ ← validate_fee_tier fee_bps; mret {| current_fee_bps := fee_bps |}.

Definition governance_adjust (c : FeeTierController) (voted_fee_bps : Z) : R (FeeTierController * Z) :=
  new_fee_bps ← apply_governance_fee_tier voted_fee_bps;
  mret ({| current_fee_bps := new_fee_bps |}, new_fee_bps).

Definition split_pool_fee (fee_amount : Z) : R (Z * Z) :=
  treasury_share ← idiv U128 fee_amount 5;
  lp_share ← isub U128 fee_amount treasury_share;
  mret (lp_share, treasury_share).

(** ** Liquidity shares and checks *)
Definition compute_lp_shares (amount_a amount_b reserve_a reserve_b total_shares : Z) : R Z :=
  _ ← fail_if ((amount_a =? 0) || (amount_b =? 0) || (total_shares =? 0)) InvalidInput;
  _ ← fail_if ((reserve_a =? 0) || (reserve_b =? 0)) InvalidInput;
  shares_a ← mul_div amount_a total_shares reserve_a;
  shares_b ← mul_div amount_b total_shares reserve_b;
  mret (Z.min shares_a shares_b).

Definition compute_remove_liquidity (shares total_shares reserve_a reserve_b : Z) : R (Z * Z) :=
  _ ← fail_if ((shares =? 0) || (total_shares =? 0)) InvalidInput;
  _ ← fail_if (total_shares <? shares) InvalidInput;
  amount_a ← mul_div shares reserve_a total_shares;
  amount_b ← mul_div shares reserve_b total_shares;
  mret (amount_a, amount_b).

Definition assert_invariant_stable (reserve_in_before reserve_out_before amount_in amount_out : Z) : R unit :=
  k_before ← mul reserve_in_before reserve_out_before;
  reserve_in_after ← ok_or (checked_add U128 reserve_in_before amount_in) Overflow;
  reserve_out_after ← ok_or (checked_sub U128 reserve_out_before amount_out) Overflow;
  k_after ← mul reserve_in_after reserve_out_after;
  fail_if ((word_hi k_after <? word_hi k_before) ||
           ((word_hi k_after =? word_hi k_before) && (word_lo k_after <? word_lo k_before))) InvariantViolation.

Definition assert_min_amount_out (amount_out min_amount_out : Z) : R unit :=
  fail_if (amount_out <? min_amount_out) SlippageExceeded.

Definition enforce_slippage (amount_out min_amount_out : Z) : R Z :=
  _ ← fail_if (amount_out <? min_amount_out) SlippageExceeded; mret amount_out.

(** ** The 256-bit product and quotient *)
Definition wide (u : U256) : Z := word_hi u * 2 ^ 128 + word_lo u.

Definition word (z : Z) : Prop := 0 <= z < 2 ^ 128.

Lemma cast_u64 (a : Z) : cast U64 a = a mod 2 ^ 64.
Proof. unfold cast. cbn [imin bits_of]. by rewrite Z.sub_0_r, Z.add_0_r. Qed.

Lemma overflowing_add_split (a b : Z) :
  word a -> word b ->
  let '(s, c) := overflowing_add U128 a b in
  a + b = Z.b2z c * 2 ^ 128 + s /\ word s /\ 0 <= Z.b2z c <= 1.
Proof.
  unfold word, overflowing_add, fits. intros Ha Hb. unfold cast. cbn [imin imax bits_of]. rewrite Z.sub_0_r, Z.add_0_r.
  rewrite (proj2 (Z.leb_le 0 (a + b))) by lia. cbn [andb].
  destruct (Z.leb_spec (a + b) (2 ^ 128 - 1)); cbn [negb Z.b2z].
  - rewrite Z.mod_small by lia. lia.
  - replace (a + b) with ((a + b - 2 ^ 128) + 1 * 2 ^ 128) at 2 3 4 by lia.
    rewrite Z.mod_add, Z.mod_small by lia. lia.
Qed.

Lemma mul_correct (a b : Z) :
  word a -> word b -> exists u, mul a b = Ok u /\ wide u = a * b /\ word (word_lo u) /\ word (word_hi u).
Proof.
  intros Ha Hb. unfold mul. rewrite !cast_u64, !shiftr_64.
  destruct (limb_ranges a b Ha Hb) as [[Hal Hah] [Hbl Hbh]].
  rewrite (Z.mod_small (a / 2 ^ 64)), (Z.mod_small (b / 2 ^ 64)) by done.
  pose proof (Z.div_mod a (2 ^ 64) ltac:(lia)) as Ea. pose proof (Z.div_mod b (2 ^ 64) ltac:(lia)) as Eb.
  assert (0 <= a * b < 2 ^ 256) as Hab by (unfold word in *; nia).
  set (ah := a / 2 ^ 64) in *. set (al := a mod 2 ^ 64) in *. set (bh := b / 2 ^ 64) in *. set (bl := b mod 2 ^ 64) in *.
  pose proof (limb_product al bl Hal Hbl). pose proof (limb_product ah bl Hah Hbl).
  pose proof (limb_product al bh Hal Hbh). pose proof (limb_product ah bh Hah Hbh).
  rewrite (limb_mul al bl), (limb_mul ah bl), (limb_mul al bh), (limb_mul ah bh) by done. cbn [mbind result_bind].
  pose proof (overflowing_add_split (ah * bl) (al * bh) ltac:(unfold word; lia) ltac:(unfold word; lia)) as Hm.
  destruct (overflowing_add U128 (ah * bl) (al * bh)) as [mid c]. destruct Hm as (Em & Hm & Hc).
  pose proof (Z.div_mod mid (2 ^ 64) ltac:(lia)) as Ed. pose proof (Z.mod_pos_bound mid (2 ^ 64) ltac:(lia)) as Hml.
  assert (0 <= mid / 2 ^ 64 < 2 ^ 64) as Hmh by (unfold word in Hm; lia).
  set (mh := mid / 2 ^ 64) in *. set (ml := mid mod 2 ^ 64) in *.
  assert (shl U128 mid 64 = ml * 2 ^ 64) as ->.
  { unfold shl, cast. cbn [imin bits_of]. rewrite Z.sub_0_r, Z.add_0_r, Z.shiftl_mul_pow2 by lia.
    replace (mid * 2 ^ 64) with (ml * 2 ^ 64 + mh * 2 ^ 128) by lia. rewrite Z.mod_add, Z.mod_small by lia. done. }
  assert (shl U128 (Z.b2z c) 64 = Z.b2z c * 2 ^ 64) as -> by (destruct c; reflexivity).
  pose proof (overflowing_add_split (al * bl) (ml * 2 ^ 64) ltac:(unfold word; lia) ltac:(unfold word; lia)) as Hl.
  destruct (overflowing_add U128 (al * bl) (ml * 2 ^ 64)) as [lo c2]. destruct Hl as (El & Hl & Hc2).
  assert (a * b = (ah * bh + mh + Z.b2z c * 2 ^ 64 + Z.b2z c2) * 2 ^ 128 + lo) as E by nia.
  assert (0 <= ah * bh + mh + Z.b2z c * 2 ^ 64 + Z.b2z c2 < 2 ^ 128) as Hhi by (unfold word in Hl; lia).
  unfold wrapping_add. rewrite (shiftr_64 mid). fold mh. rewrite (cast_in U128 (mh + _)) by (cbn [imin imax]; lia).
  rewrite (cast_in U128 (ah * bh + _)) by (cbn [imin imax]; lia). rewrite cast_in by (cbn [imin imax]; lia).
  eexists. split; [reflexivity|]. unfold wide, word. cbn [word_lo word_hi]. split_and!; [lia|apply Hl|apply Hl|lia|lia].
Qed.

Lemma div_mod_correct (u : U256) (d : Z) :
  word (word_lo u) -> word (word_hi u) -> 0 < d <= 2 ^ 127 ->
  div_mod u d = Ok (if wide u / d <? 2 ^ 128 then Some (wide u / d, wide u mod d) else None).
Proof.
  unfold word, div_mod, wide. intros Hlo Hhi Hd. rewrite (proj2 (Z.eqb_neq d 0)) by lia.
  destruct (Z.leb_spec d (word_hi u)) as [Hge|Hlt].
  - rewrite (proj2 (Z.ltb_ge _ _)); [done|]. apply Z.div_le_lower_bound; [lia|]. nia.
  - rewrite (long_div_correct 128 (word_lo u) d) by (done || lia). change (Z.of_nat 128) with 128.
    rewrite (Z.mod_small (word_lo u)) by lia. rewrite Z.add_0_l. cbn [mbind result_bind].
    rewrite (proj2 (Z.ltb_lt _ _)); [done|]. apply Z.div_lt_upper_bound; [lia|]. nia.
Qed.

Lemma pool_mul_div_eq (a b d : Z) :
  word a -> word b -> 0 < d <= 2 ^ 127 ->
  mul_div a b d = if a * b / d <? 2 ^ 128 then Ok (a * b / d) else Err Overflow.
Proof.
  intros Ha Hb Hd. unfold mul_div. rewrite (proj2 (Z.eqb_neq d 0)) by lia. cbn [fail_if]. rewrite bind_ret.
  destruct (mul_correct a b Ha Hb) as (u & -> & Eu & Hlo & Hhi). rewrite bind_ret, div_mod_correct, Eu by done.
  rewrite bind_ret. by destruct (a * b / d <? 2 ^ 128).
Qed.

Lemma mul_div_Ok (a b d q : Z) :
  word a -> word b -> 0 <= d <= 2 ^ 127 -> mul_div a b d = Ok q -> 0 < d /\ q = a * b / d /\ word q.
Proof.
  intros Ha Hb Hd Hq. assert (d <> 0) as Hne.
  { intros ->. unfold mul_div in Hq. done. }
  rewrite pool_mul_div_eq in Hq by (done || lia). destruct (Z.ltb_spec (a * b / d) (2 ^ 128)); [|done]. injection Hq as <-.
  assert (0 <= a * b / d) by (apply Z.div_pos; unfold word in *; nia). unfold word. lia.
Qed.

Lemma wide_compare (x y : U256) :
  word (word_lo x) -> word (word_lo y) ->
  ((word_hi x <? word_hi y) || ((word_hi x =? word_hi y) && (word_lo x <? word_lo y))) = (wide x <? wide y).
Proof.
  unfold word, wide. intros Hx Hy. destruct (Z.ltb_spec (word_hi x) (word_hi y)), (Z.eqb_spec (word_hi x) (word_hi y)),
    (Z.ltb_spec (word_lo x) (word_lo y)), (Z.ltb_spec (word_hi x * 2 ^ 128 + word_lo x) (word_hi y * 2 ^ 128 + word_lo y));
    cbn [orb andb]; lia || reflexivity.
Qed.

(** ** The theorems *)
Section claims.

(** C38: Multiplication and division through 256 bits are exact up to half of the range of
    the divisor. For all 128-bit factors and every divisor up to 2^127 the result is the
    rounded-down quotient of the full product when that fits 128 bits, [Overflow] when it
    does not, and [DivisionByZero] for the divisor 0; it never traps. Beyond 2^127 the
    shift of the long division drops a bit of the remainder and the quotient can be
    wrong: 2^127 times 3 divided by 2^128 - 1 is reported as 0 instead of 1. *)
Theorem mul_div_exact (a b d : Z) :
  word a -> word b -> 0 <= d <= 2 ^ 127 ->
  mul_div a b d = (if d =? 0 then Err DivisionByZero
                   else if a * b / d <? 2 ^ 128 then Ok (a * b / d) else Err Overflow) /\
  mul_div (2 ^ 127) 3 (2 ^ 128 - 1) = Ok 0.
Proof.
  intros Ha Hb Hd. split; [|vm_compute; reflexivity]. destruct (Z.eqb_spec d 0) as [->|]; [done|]. apply pool_mul_div_eq; [done..|lia].
Qed.

(** The constant-product check decides exactly. For 128-bit reserves and amounts it
    passes when the product of the reserves after the trade is at least the one before,
    fails with [InvariantViolation] when it is smaller, and with [Overflow] when a
    reserve would leave its range; and the quote the pool computes for an amount,
    rounded down, always passes and leaves a positive reserve. *)
Theorem invariant_check_exact (x y a o : Z) :
  word x -> word y -> word a -> word o ->
  assert_invariant_stable x y a o =
    (if (2 ^ 128 <=? x + a) || (y <? o) then Err Overflow
     else if (x + a) * (y - o) <? x * y then Err InvariantViolation else Ok tt) /\
  (forall q, 0 < x -> 0 < y -> 0 < a -> x + a <= 2 ^ 127 -> mul_div y a (x + a) = Ok q ->
     assert_invariant_stable x y a q = Ok tt /\ q < y).
Proof.
  intros Hx Hy Ha Ho.
  assert (forall o, word o -> assert_invariant_stable x y a o =
    (if (2 ^ 128 <=? x + a) || (y <? o) then Err Overflow
     else if (x + a) * (y - o) <? x * y then Err InvariantViolation else Ok tt)) as E.
  { clear o Ho. intros o Ho. unfold assert_invariant_stable. destruct (mul_correct x y Hx Hy) as (u & -> & Eu & Hul & _). rewrite bind_ret.
    unfold checked_add, checked_sub, chk, fits, word in *. cbn [imin imax].
    rewrite (proj2 (Z.leb_le 0 (x + a))) by lia. rewrite (proj2 (Z.leb_le (y - o) (2 ^ 128 - 1))), andb_true_r by lia. cbn [andb].
    destruct (Z.leb_spec (x + a) (2 ^ 128 - 1)), (Z.leb_spec (2 ^ 128) (x + a)); try lia; cbn [ok_or orb]; [|done]. rewrite bind_ret.
    destruct (Z.leb_spec 0 (y - o)), (Z.ltb_spec y o); try lia; cbn [ok_or]; [|done]. rewrite bind_ret.
    destruct (mul_correct (x + a) (y - o)) as (v & -> & Ev & Hvl & _); [unfold word; lia..|]. rewrite bind_ret, wide_compare by done.
    rewrite Eu, Ev. by destruct (_ <? _). }
  split; [by apply E|]. intros q Hx0 Hy0 Ha0 Hs Hq. apply mul_div_Ok in Hq as (_ & -> & Hw); [|done|done|unfold word in *; lia].
  pose proof (Z.mul_div_le (y * a) (x + a) ltac:(lia)) as Hle.
  assert (y * a / (x + a) < y) by (apply Z.div_lt_upper_bound; nia).
  split; [|done]. rewrite E by done. unfold word in *.
  rewrite (proj2 (Z.leb_gt _ _)), (proj2 (Z.ltb_ge _ _)), (proj2 (Z.ltb_ge _ _)) by nia. done.
Qed.

Lemma lp_shares_Ok (a b ra rb t s : Z) :
  word a -> word b -> 0 <= ra <= 2 ^ 127 -> 0 <= rb <= 2 ^ 127 -> word t -> compute_lp_shares a b ra rb t = Ok s ->
  0 < ra /\ 0 < rb /\ 0 < t /\ s = Z.min (a * t / ra) (b * t / rb).
Proof.
  intros Ha Hb Hra Hrb Ht Hs. unfold compute_lp_shares in Hs.
  apply bind_Ok in Hs as ([] & H1%fail_if_Ok & Hs). apply bind_Ok in Hs as ([] & H2%fail_if_Ok & Hs).
  apply bind_Ok in Hs as (x & Hx & Hs). apply bind_Ok in Hs as (z & Hz & Hs). injection Hs as <-.
  apply orb_false_iff in H1 as [_ H1%Z.eqb_neq]. apply mul_div_Ok in Hx as (? & -> & _); [|done..]. apply mul_div_Ok in Hz as (? & -> & _); [|done..].
  unfold word in Ht. split_and!; [lia..|done].
Qed.

Lemma remove_Ok_amounts (s t ra rb a b : Z) :
  word s -> 0 <= t <= 2 ^ 127 -> word ra -> word rb -> compute_remove_liquidity s t ra rb = Ok (a, b) ->
  0 < s <= t /\ a = s * ra / t /\ b = s * rb / t.
Proof.
  intros Hs Ht Hra Hrb Hr. unfold compute_remove_liquidity in Hr.
  apply bind_Ok in Hr as ([] & H1%fail_if_Ok & Hr). apply bind_Ok in Hr as ([] & H2%fail_if_Ok%Z.ltb_ge & Hr).
  apply bind_Ok in Hr as (x & Hx & Hr). apply bind_Ok in Hr as (z & Hz & Hr). injection Hr as <- <-.
  apply orb_false_iff in H1 as [H1%Z.eqb_neq _]. apply mul_div_Ok in Hx as (? & -> & _); [|done..]. apply mul_div_Ok in Hz as (? & -> & _); [|done..].
  unfold word in Hs. split_and!; [lia..|done|done].
Qed.

Lemma share_round_trip (a t r s : Z) : 0 < r -> 0 < t -> 0 <= a -> 0 < s -> s <= a * t / r -> s * (r + a) / (t + s) <= a.
Proof.
  intros Hr Ht Ha Hs Hle. pose proof (Z.mul_div_le (a * t) r Hr). apply Z.div_le_upper_bound; [lia|]. nia.
Qed.

(** Adding liquidity and removing it again never returns more than was added. When a
    deposit of two amounts is worth a number of shares of the pool, burning these shares
    out of the enlarged total and the enlarged reserves pays at most the two amounts, for
    all reserves and totals up to 2^127. *)
Theorem add_remove_no_gain (a b ra rb t s a' b' : Z) :
  0 <= a -> 0 <= b -> 0 <= ra -> 0 <= rb -> 0 <= t <= 2 ^ 127 ->
  ra + a <= 2 ^ 127 -> rb + b <= 2 ^ 127 -> t + s <= 2 ^ 127 ->
  compute_lp_shares a b ra rb t = Ok s ->
  compute_remove_liquidity s (t + s) (ra + a) (rb + b) = Ok (a', b') ->
  a' <= a /\ b' <= b.
Proof.
  intros Ha Hb Hra Hrb Ht HA HB HT Hs Hr.
  apply lp_shares_Ok in Hs as (Ra & Rb & T & Es); [|unfold word; lia..].
  assert (0 <= s) as Hs0 by (subst s; apply Z.min_glb; apply Z.div_pos; nia).
  apply remove_Ok_amounts in Hr as (Hs & -> & ->); [|unfold word; lia..].
  split; apply share_round_trip; lia.
Qed.
End claims.

(** ** Concrete inputs *)
Section witnesses.
Lemma word_small (z : Z) : (0 <=? z) && (z <? 2 ^ 128) = true -> word z.
Proof. unfold word. intros [?%Z.leb_le ?%Z.ltb_lt]%andb_true_iff. done. Qed.

Lemma mul_div_exact_witness :
  mul_div (2 ^ 100) (2 ^ 100 + 1) (2 ^ 90) = Ok (2 ^ 110 + 2 ^ 10) /\ mul_div (2 ^ 127) 3 (2 ^ 128 - 1) = Ok 0.
Proof.
  destruct (mul_div_exact (2 ^ 100) (2 ^ 100 + 1) (2 ^ 90)) as [E1 E2]; [by apply word_small..|split; discriminate|].
  split; [|exact E2]. rewrite E1. vm_compute. reflexivity.
Defined.

Lemma invariant_check_exact_witness :
  assert_invariant_stable 1000 2000 10 20 = Err InvariantViolation /\ assert_invariant_stable 1000 2000 10 19 = Ok tt.
Proof.
  destruct (invariant_check_exact 1000 2000 10 20) as [E _]; [by apply word_small..|].
  destruct (invariant_check_exact 1000 2000 10 19) as [_ E2]; [by apply word_small..|].
  split; [by rewrite E|]. refine (proj1 (E2 19 _ _ _ _ _)); vm_compute; reflexivity || discriminate.
Defined.

Lemma add_remove_no_gain_witness :
  compute_lp_shares 10 31 1000 3000 500 = Ok 5 /\ compute_remove_liquidity 5 505 1010 3031 = Ok (10, 30) /\ 10 <= 10 /\ 30 <= 31.
Proof.
  split; [vm_compute; reflexivity|]. split; [vm_compute; reflexivity|].
  refine (add_remove_no_gain 10 31 1000 3000 500 5 10 30 _ _ _ _ _ _ _ _ _ _); vm_compute; first [reflexivity | discriminate | split; discriminate].
Defined.
End witnesses.
