(* ===== verification/SpotBreaker.v ===== *)
(** * Price guards of the root AMM

    [src/src/amm/circuit_breaker.rs]: the spot price breaker, which compares the price
    of a pool with the last one recorded; [src/src/amm/deviation_guard.rs]: the guard
    that compares the price implied by the reserves with an oracle's. The storage keeps
    one configuration of each, and a tick and a breaker state per pool; who is admin or
    emergency admin is read from the [keyring] of [Keys.v]. Events and time-to-live
    extensions are left out.

    Histories of invocations of the breaker of [SpotBreaker.v]: what is recorded, which
    prices pass, and that a trip is rolled back together with the call that caused it.
    The keyring may differ from call to call. *)

From stdpp Require Import base numbers list gmap.
From Stdlib Require Import ZArith Lia.
From S2P Require Import Prelude Host RootErrors Keys.

Open Scope Z_scope.

Abbreviation R := (result ContractError).

Definition BPS_SCALE : Z := 10000.
Definition DEFAULT_MAX_SPOT_DEVIATION_BPS : Z := 1500.
Definition DEFAULT_COOLDOWN_LEDGERS : Z := 100.
Definition MAX_DEVIATION_BPS_CEILING : Z := 5000.
Definition MIN_DEVIATION_BPS : Z := 1.
Definition PRICE_SCALE : Z := 10000000.
Definition DEFAULT_MAX_ORACLE_DEVIATION_BPS : Z := 500.
Definition MAX_ORACLE_DEVIATION_BPS : Z := 5000.
Definition MIN_ORACLE_DEVIATION_BPS : Z := 1.

Abbreviation AssetId := Z.

Record SpotCircuitBreakerConfig := { max_deviation_bps : Z; cooldown_ledgers : Z; enabled : bool }.

(** [SpotCircuitBreakerConfig::default()] *)
Definition default_breaker_config : SpotCircuitBreakerConfig :=
  {| max_deviation_bps := DEFAULT_MAX_SPOT_DEVIATION_BPS; cooldown_ledgers := DEFAULT_COOLDOWN_LEDGERS; enabled := true |}.

Record OracleDeviationConfig := { od_max_deviation_bps : Z; od_enabled : bool }.

Definition default_oracle_config : OracleDeviationConfig :=
  {| od_max_deviation_bps := DEFAULT_MAX_ORACLE_DEVIATION_BPS; od_enabled := true |}.

Record SpotPriceTick := { pool_id : AssetId; last_price : Z; ledger_sequence : Z; tick_timestamp : Z }.

Definition validate_circuit_breaker_config (cfg : SpotCircuitBreakerConfig) : R unit :=
  _ ← fail_if ((max_deviation_bps cfg <? MIN_DEVIATION_BPS) || (MAX_DEVIATION_BPS_CEILING <? max_deviation_bps cfg))
        InvalidCircuitBreakerConfig;
  fail_if (cooldown_ledgers cfg =? 0) InvalidCircuitBreakerConfig.

Definition validate_oracle_deviation_config (cfg : OracleDeviationConfig) : R unit :=
  fail_if ((od_max_deviation_bps cfg <? MIN_ORACLE_DEVIATION_BPS) || (MAX_ORACLE_DEVIATION_BPS <? od_max_deviation_bps cfg))
    InvalidOracleDeviationConfig.

Definition calculate_price_deviation_bps (baseline_price new_price : Z) : R Z :=
  _ ← fail_if ((baseline_price <=? 0) || (new_price <=? 0)) DivisionByZero;
  delta ← (if baseline_price <=? new_price then isub I128 new_price baseline_price else isub I128 baseline_price new_price);
  scaled ← ok_or (checked_mul U128 (cast U128 delta) BPS_SCALE) Overflow;
  dev_bps ← idiv U128 scaled (cast U128 baseline_price);
  _ ← fail_if (imax U32 <? dev_bps) Overflow;
  mret (cast U32 dev_bps).

Definition compute_spot_price_from_reserves (reserve_a reserve_b : Z) : R Z :=
  _ ← fail_if ((reserve_a =? 0) || (reserve_b =? 0)) DivisionByZero;
  numerator ← ok_or (checked_mul U128 reserve_b PRICE_SCALE) Overflow;
  price ← idiv U128 numerator reserve_a;
  _ ← fail_if (imax I128 <? price) Overflow;
  mret (cast I128 price).

Section guards.
Context {H : Host}.

Record PoolCircuitBreakerState := {
  is_frozen : bool;
  frozen_at_ledger : Z;
  frozen_at_timestamp : Z;
  breach_deviation_bps : Z;
  baseline_price : Z;
  breach_price : Z;
  frozen_by : option Address
}.

Definition default_breaker_state : PoolCircuitBreakerState :=
  {| is_frozen := false; frozen_at_ledger := 0; frozen_at_timestamp := 0; breach_deviation_bps := 0;
     baseline_price := 0; breach_price := 0; frozen_by := None |}.

(** The storage: [CircuitBreakerStorageKey] and [ORACLE_DEVIATION_CONFIG_KEY]. *)
Record breaker := {
  Config : option SpotCircuitBreakerConfig;
  OracleConfig : option OracleDeviationConfig;
  LastSpotTick : gmap AssetId SpotPriceTick;
  PoolState : gmap AssetId PoolCircuitBreakerState
}.

Definition empty_breaker : breaker := {| Config := None; OracleConfig := None; LastSpotTick := ∅; PoolState := ∅ |}.

(** The invocation: who authorised it and the ledger. *)
Record ledger_env := { authorised : Address -> bool; sequence : Z; now : Z }.

Definition get_circuit_breaker_config (s : breaker) : SpotCircuitBreakerConfig := default default_breaker_config (Config s).
Definition get_oracle_deviation_config (s : breaker) : OracleDeviationConfig := default default_oracle_config (OracleConfig s).
Definition get_last_spot_price_tick (s : breaker) (p : AssetId) : option SpotPriceTick := LastSpotTick s !! p.
Definition get_pool_circuit_breaker_state (s : breaker) (p : AssetId) : PoolCircuitBreakerState :=
  default default_breaker_state (PoolState s !! p).

Definition save_spot_price_tick (s : breaker) (p : AssetId) (t : SpotPriceTick) : breaker :=
  {| Config := Config s; OracleConfig := OracleConfig s; LastSpotTick := <[p := t]> (LastSpotTick s); PoolState := PoolState s |}.

Definition save_pool_circuit_breaker_state (s : breaker) (p : AssetId) (x : PoolCircuitBreakerState) : breaker :=
  {| Config := Config s; OracleConfig := OracleConfig s; LastSpotTick := LastSpotTick s; PoolState := <[p := x]> (PoolState s) |}.

(** [if data.admin != *caller { NotAdmin }; caller.require_auth()] *)
Definition admin_only (i : ledger_env) (k : keyring) (caller : Address) : R unit :=
  d ← load_data k;
  _ ← fail_if (bool_decide (admin d <> caller)) NotAdmin;
  require_auth (authorised i) caller.

Definition set_circuit_breaker_config (i : ledger_env) (k : keyring) (s : breaker) (caller : Address) (cfg : SpotCircuitBreakerConfig) : R breaker :=
  _ ← admin_only i k caller;
  _ ← validate_circuit_breaker_config cfg;
  mret {| Config := Some cfg; OracleConfig := OracleConfig s; LastSpotTick := LastSpotTick s; PoolState := PoolState s |}.

Definition set_oracle_deviation_config (i : ledger_env) (k : keyring) (s : breaker) (caller : Address) (cfg : OracleDeviationConfig) : R breaker :=
  _ ← admin_only i k caller;
  _ ← validate_oracle_deviation_config cfg;
  mret {| Config := Config s; OracleConfig := Some cfg; LastSpotTick := LastSpotTick s; PoolState := PoolState s |}.

Definition is_pool_trading_allowed (i : ledger_env) (s : breaker) (p : AssetId) : bool :=
  let state := get_pool_circuit_breaker_state s p in
  if negb (is_frozen state) then true
  else saturating_add U32 (frozen_at_ledger state) (cooldown_ledgers (get_circuit_breaker_config s)) <=? sequence i.

(** [state.is_frozen = false; state.frozen_by = None] *)
Definition thawed (x : PoolCircuitBreakerState) : PoolCircuitBreakerState :=
  {| is_frozen := false; frozen_at_ledger := frozen_at_ledger x; frozen_at_timestamp := frozen_at_timestamp x;
     breach_deviation_bps := breach_deviation_bps x; baseline_price := baseline_price x; breach_price := breach_price x;
     frozen_by := None |}.

Definition tick_of (i : ledger_env) (p : AssetId) (price : Z) : SpotPriceTick :=
  {| pool_id := p; last_price := price; ledger_sequence := sequence i; tick_timestamp := now i |}.

(** The body writes before it returns an error, so it yields the storage it leaves with
    its result; [invoke] below is what the host makes of both. *)
Definition check_and_update_spot_price (i : ledger_env) (s : breaker) (p : AssetId) (current_spot_price : Z) : breaker * R unit :=
  if current_spot_price <=? 0 then (s, Err DivisionByZero)
  else
    let cfg := get_circuit_breaker_config s in
    let state := get_pool_circuit_breaker_state s p in
    let recorded (s : breaker) := save_spot_price_tick s p (tick_of i p current_spot_price) in
    if is_frozen state then
      if saturating_add U32 (frozen_at_ledger state) (cooldown_ledgers cfg) <=? sequence i
      then (recorded (save_pool_circuit_breaker_state s p (thawed state)), Ok tt)
      else (s, Err CircuitBreakerTripped)
    else if negb (enabled cfg) then (recorded s, Ok tt)
    else match get_last_spot_price_tick s p with
         | None => (recorded s, Ok tt)
         | Some prev_tick =>
             match calculate_price_deviation_bps (last_price prev_tick) current_spot_price with
             | Ok dev_bps =>
                 if max_deviation_bps cfg <? dev_bps then
                   (save_pool_circuit_breaker_state s p
                      {| is_frozen := true; frozen_at_ledger := sequence i; frozen_at_timestamp := now i;
                         breach_deviation_bps := dev_bps; baseline_price := last_price prev_tick;
                         breach_price := current_spot_price; frozen_by := None |},
                    Err CircuitBreakerTripped)
                 else (recorded s, Ok tt)
             | Err e => (s, Err e)
             | Panic => (s, Panic)
             end
         end.

(** An invocation that does not return [Ok] is rolled back. *)
Definition invoke {A : Type} (r : breaker * R A) : R (breaker * A) :=
  match r with (s, Ok a) => Ok (s, a) | (_, Err e) => Err e | (_, Panic) => Panic end.

Definition may_freeze (i : ledger_env) (k : keyring) (caller : Address) : R unit :=
  d ← load_data k;
  _ ← fail_if (negb (bool_decide (admin d = caller)) && negb (is_emergency_admin k caller)) NotAdmin;
  require_auth (authorised i) caller.

Definition manual_freeze_pool (i : ledger_env) (k : keyring) (s : breaker) (caller : Address) (p : AssetId) : R breaker :=
  _ ← may_freeze i k caller;
  let price := default 0 (last_price <$> get_last_spot_price_tick s p) in
  mret (save_pool_circuit_breaker_state s p
    {| is_frozen := true; frozen_at_ledger := sequence i; frozen_at_timestamp := now i; breach_deviation_bps := 0;
       baseline_price := price; breach_price := price; frozen_by := Some caller |}).

Definition manual_unfreeze_pool (i : ledger_env) (k : keyring) (s : breaker) (caller : Address) (p : AssetId) : R breaker :=
  _ ← may_freeze i k caller;
  mret (save_pool_circuit_breaker_state s p (thawed (get_pool_circuit_breaker_state s p))).

(** ** The oracle guard *)
Definition enforce_oracle_deviation_guard (s : breaker) (p : AssetId) (spot_price : Z) (twap_price : option Z) : R unit :=
  let cfg := get_oracle_deviation_config s in
  if negb (od_enabled cfg) then mret tt
  else match twap_price with
       | None => mret tt
       | Some twap =>
           if twap <=? 0 then mret tt
           else
             _ ← fail_if (spot_price <=? 0) DivisionByZero;
             dev_bps ← calculate_price_deviation_bps twap spot_price;
             fail_if (od_max_deviation_bps cfg <? dev_bps) OracleDeviationTooHigh
       end.

Definition enforce_swap_oracle_guard (s : breaker) (p : AssetId) (reserve_in reserve_out : Z) (twap_price : option Z) : R Z :=
  spot_price ← compute_spot_price_from_reserves reserve_in reserve_out;
  _ ← enforce_oracle_deviation_guard s p spot_price twap_price;
  mret spot_price.
End guards.

(** ** Theorems on the price guards of the root AMM *)

(** ** Deviations *)
Definition deviation (p q : Z) : Z := Z.abs (q - p) * BPS_SCALE / p.

Lemma deviation_eq (p q : Z) :
  0 < p <= imax I128 -> 0 < q <= imax I128 ->
  calculate_price_deviation_bps p q =
    if (Z.abs (q - p) * BPS_SCALE <=? imax U128) && (deviation p q <=? imax U32) then Ok (deviation p q) else Err Overflow.
Proof.
  intros Hp Hq. unfold calculate_price_deviation_bps, deviation.
  rewrite (proj2 (Z.leb_gt p 0)), (proj2 (Z.leb_gt q 0)) by lia. cbn [orb fail_if]. rewrite bind_ret.
  assert ((if p <=? q then isub I128 q p else isub I128 p q) = @Ok ContractError Z (Z.abs (q - p))) as ->.
  { unfold isub. destruct (Z.leb_spec p q); [rewrite (iop_in I128 (q - p))|rewrite (iop_in I128 (p - q))];
      try (cbn [imin imax] in *; lia); f_equal; lia. }
  rewrite bind_ret, (cast_in U128 (Z.abs _)), (cast_in U128 p) by (cbn [imin imax] in *; lia).
  set (n := Z.abs (q - p) * BPS_SCALE). assert (0 <= n) as Hn by (unfold n, BPS_SCALE; lia).
  unfold checked_mul, chk, fits. fold n. rewrite (proj2 (Z.leb_le (imin U128) n)) by (cbn [imin]; lia). cbn [andb].
  destruct (Z.leb_spec n (imax U128)) as [Hle|]; cbn [ok_or andb]; [|done]. rewrite bind_ret.
  pose proof (Z.div_pos n p Hn ltac:(lia)). assert (n / p <= n) by (apply Z.div_le_upper_bound; nia).
  unfold idiv. rewrite (proj2 (Z.eqb_neq p 0)) by lia. rewrite Z.quot_div_nonneg, (iop_in U128 (n / p)) by (cbn [imin]; lia).
  rewrite bind_ret. destruct (Z.leb_spec (n / p) (imax U32)), (Z.ltb_spec (imax U32) (n / p)); try lia; cbn [fail_if]; [|done].
  rewrite bind_ret, (cast_in U32 (n / p)) by (cbn [imin]; lia). done.
Qed.

(** A limit in basis points on the rounded-down deviation is a bound on the prices. *)
Lemma within_limit (p q m : Z) :
  0 < p <= imax I128 -> 0 < q <= imax I128 -> 0 <= m <= imax U32 ->
  (exists d, calculate_price_deviation_bps p q = Ok d /\ d <= m) <->
  Z.abs (q - p) * BPS_SCALE < Z.min ((m + 1) * p) (2 ^ 128).
Proof.
  intros Hp Hq Hm. rewrite deviation_eq by done. unfold deviation. set (n := Z.abs (q - p) * BPS_SCALE).
  rewrite Z.min_glb_lt_iff. split.
  - intros (d & Hd & Hle). destruct (Z.leb_spec n (imax U128)) as [H1|]; [|done]. destruct (Z.leb_spec (n / p) (imax U32)); [|done].
    injection Hd as <-. cbn [imax] in H1. pose proof (Z.mul_succ_div_gt n p ltac:(lia)). nia.
  - intros [H1 H2]. assert (n / p < m + 1) by (apply Z.div_lt_upper_bound; lia).
    exists (n / p). rewrite (proj2 (Z.leb_le n _)), (proj2 (Z.leb_le (n / p) _)) by (cbn [imax] in *; lia). split; [done|lia].
Qed.

Section claims.
Context {H : Host}.

(** ** Invocations *)
Inductive breaker_call :=
  | BCheck (p : AssetId) (price : Z)
  | BFreeze (caller : Address) (p : AssetId)
  | BUnfreeze (caller : Address) (p : AssetId)
  | BConfig (caller : Address) (cfg : SpotCircuitBreakerConfig)
  | BOracleConfig (caller : Address) (cfg : OracleDeviationConfig).

Definition run_breaker (i : ledger_env) (k : keyring) (s : breaker) (x : breaker_call) : R breaker :=
  match x with
  | BCheck p price => r ← invoke (check_and_update_spot_price i s p price); mret r.1
  | BFreeze caller p => manual_freeze_pool i k s caller p
  | BUnfreeze caller p => manual_unfreeze_pool i k s caller p
  | BConfig caller cfg => set_circuit_breaker_config i k s caller cfg
  | BOracleConfig caller cfg => set_oracle_deviation_config i k s caller cfg
  end.

(** Prices are values of [i128], limits of [u32]. *)
Definition breaker_typed (x : breaker_call) : bool :=
  match x with
  | BCheck _ price => fits I128 price
  | BFreeze _ _ | BUnfreeze _ _ => true
  | BConfig _ cfg => fits U32 (max_deviation_bps cfg) && fits U32 (cooldown_ledgers cfg)
  | BOracleConfig _ cfg => fits U32 (od_max_deviation_bps cfg)
  end.

Inductive breaker_history : breaker -> Prop :=
  | breaker_start : breaker_history empty_breaker
  | breaker_next s i k x s' :
      breaker_history s -> breaker_typed x = true -> run_breaker i k s x = Ok s' -> breaker_history s'.

Record breaker_ok (s : breaker) : Prop := {
  bo_config : MIN_DEVIATION_BPS <= max_deviation_bps (get_circuit_breaker_config s) <= MAX_DEVIATION_BPS_CEILING /\
              1 <= cooldown_ledgers (get_circuit_breaker_config s);
  bo_oracle : MIN_ORACLE_DEVIATION_BPS <= od_max_deviation_bps (get_oracle_deviation_config s) <= MAX_ORACLE_DEVIATION_BPS;
  bo_tick : forall p t, get_last_spot_price_tick s p = Some t -> 0 < last_price t <= imax I128;
  bo_frozen : forall p, is_frozen (get_pool_circuit_breaker_state s p) = true ->
    is_Some (frozen_by (get_pool_circuit_breaker_state s p))
}.

Lemma state_saved (s : breaker) (p q : AssetId) (x : PoolCircuitBreakerState) :
  get_pool_circuit_breaker_state (save_pool_circuit_breaker_state s p x) q =
    if decide (p = q) then x else get_pool_circuit_breaker_state s q.
Proof. unfold get_pool_circuit_breaker_state. cbn [PoolState save_pool_circuit_breaker_state]. destruct (decide (p = q)) as [->|]; [by rewrite lookup_insert_eq|by rewrite lookup_insert_ne]. Qed.

Lemma empty_breaker_ok : breaker_ok empty_breaker.
Proof. split; [vm_compute; split_and!; discriminate|vm_compute; split; discriminate|done|done]. Qed.

Lemma save_state_ok (s : breaker) (p : AssetId) (x : PoolCircuitBreakerState) :
  breaker_ok s -> (is_frozen x = true -> is_Some (frozen_by x)) -> breaker_ok (save_pool_circuit_breaker_state s p x).
Proof. intros [H1 H2 H3 H4] Hx. split; [done..|]. intros q. rewrite state_saved. destruct (decide (p = q)); [done|apply H4]. Qed.

Lemma save_tick_ok (s : breaker) (p : AssetId) (t : SpotPriceTick) :
  breaker_ok s -> 0 < last_price t <= imax I128 -> breaker_ok (save_spot_price_tick s p t).
Proof.
  intros [H1 H2 H3 H4] Ht. split; [done..| |done]. intros q t'. unfold get_last_spot_price_tick. cbn [LastSpotTick save_spot_price_tick].
  intros [[<- <-]|[_ Hq]]%lookup_insert_Some; [done|by apply (H3 q)].
Qed.

Lemma check_ok (i : ledger_env) (s : breaker) (p : AssetId) (price : Z) (s' : breaker) (u : unit) :
  breaker_ok s -> fits I128 price = true -> check_and_update_spot_price i s p price = (s', Ok u) -> breaker_ok s'.
Proof.
  intros Hok Hf%fits_spec. unfold check_and_update_spot_price. destruct (Z.leb_spec price 0); [done|].
  assert (forall s, breaker_ok s -> breaker_ok (save_spot_price_tick s p (tick_of i p price))) as Hr by (intros; apply save_tick_ok; [done|cbn [last_price tick_of]; lia]).
  destruct (is_frozen _).
  { destruct (_ <=? sequence i); [|done]. intros [= <- _]. by apply Hr, save_state_ok. }
  destruct (negb _); [intros [= <- _]; by apply Hr|].
  destruct (get_last_spot_price_tick s p); [|intros [= <- _]; by apply Hr].
  destruct (calculate_price_deviation_bps _ _); [|done..]. destruct (_ <? _); [done|]. intros [= <- _]. by apply Hr.
Qed.

Lemma breaker_history_ok (s : breaker) : breaker_history s -> breaker_ok s.
Proof.
  induction 1 as [|s i k x s' _ Hok Hty Hr]; [apply empty_breaker_ok|].
  destruct x as [p price|caller p|caller p|caller cfg|caller cfg]; cbn [run_breaker breaker_typed] in *.
  - apply bind_Ok in Hr as ([s1 u] & Hr & [= <-]). destruct (check_and_update_spot_price i s p price) as [s2 [[]| |]] eqn:E; try done.
    injection Hr as <- _. by apply (check_ok i s p price s2 tt).
  - apply bind_Ok in Hr as (u & _ & [= <-]). apply save_state_ok; [done|]. by eexists.
  - apply bind_Ok in Hr as (u & _ & [= <-]). by apply save_state_ok.
  - apply bind_Ok in Hr as (u & _ & Hr). apply bind_Ok in Hr as (v & Hv & [= <-]).
    apply andb_true_iff in Hty as [_ Hc%fits_spec].
    apply bind_Ok in Hv as ([] & [H1%Z.ltb_ge H2%Z.ltb_ge]%fail_if_Ok%orb_false_iff & H3%fail_if_Ok%Z.eqb_neq).
    destruct Hok as [_ Ho Ht Hf]. split; [|done..]. cbn in Hc |- *. lia.
  - apply bind_Ok in Hr as (u & _ & Hr). apply bind_Ok in Hr as (v & Hv & [= <-]).
    apply fail_if_Ok, orb_false_iff in Hv as [H1%Z.ltb_ge H2%Z.ltb_ge]. destruct Hok as [Hc _ Ht Hf]. split; [done| |done..]. cbn. lia.
Qed.

Lemma check_eq (i : ledger_env) (s : breaker) (p : AssetId) (prev : SpotPriceTick) (price : Z) :
  is_frozen (get_pool_circuit_breaker_state s p) = false -> enabled (get_circuit_breaker_config s) = true ->
  get_last_spot_price_tick s p = Some prev -> 0 < price ->
  invoke (check_and_update_spot_price i s p price) =
    match calculate_price_deviation_bps (last_price prev) price with
    | Ok d => if max_deviation_bps (get_circuit_breaker_config s) <? d then Err CircuitBreakerTripped
              else Ok (save_spot_price_tick s p (tick_of i p price), tt)
    | Err e => Err e
    | Panic => Panic
    end.
Proof.
  intros Hf He Hp Hq. unfold check_and_update_spot_price. rewrite (proj2 (Z.leb_gt price 0)) by done. rewrite Hf, He, Hp. cbn [negb].
  destruct (calculate_price_deviation_bps _ _); [|done..]. by destruct (_ <? _).
Qed.


(** Which prices the breaker accepts. On every reachable storage: an enabled breaker
    of a pool that is not frozen and has a recorded price accepts a price exactly when it
    differs from the recorded one by less than one basis point more than the limit (and
    the scaled difference fits 128 bits), and then records it and changes nothing else;
    the first price of a pool is accepted whatever it is. A frozen pool accepts no price
    before its cooldown has passed and any positive price from then on, which ends the
    freeze. *)
Theorem accepted_prices_exact (s : breaker) (i : ledger_env) (p : AssetId) (price : Z) :
  breaker_history s -> 0 < price <= imax I128 ->
  let cfg := get_circuit_breaker_config s in
  let st := get_pool_circuit_breaker_state s p in
  let recorded := save_spot_price_tick s p (tick_of i p price) in
  (forall prev s', is_frozen st = false -> enabled cfg = true -> get_last_spot_price_tick s p = Some prev ->
     invoke (check_and_update_spot_price i s p price) = Ok (s', tt) <->
     Z.abs (price - last_price prev) * BPS_SCALE < Z.min ((max_deviation_bps cfg + 1) * last_price prev) (2 ^ 128) /\ s' = recorded) /\
  (is_frozen st = false -> get_last_spot_price_tick s p = None ->
     invoke (check_and_update_spot_price i s p price) = Ok (recorded, tt)) /\
  (is_frozen st = true ->
     let over := saturating_add U32 (frozen_at_ledger st) (cooldown_ledgers cfg) <=? sequence i in
     is_pool_trading_allowed i s p = over /\
     match invoke (check_and_update_spot_price i s p price) with
     | Ok (s', _) => over = true /\ is_frozen (get_pool_circuit_breaker_state s' p) = false /\
                     last_price <$> get_last_spot_price_tick s' p = Some price
     | r => over = false /\ r = Err CircuitBreakerTripped
     end).
Proof.
  intros Hok%breaker_history_ok Hq cfg st recorded. pose proof (bo_config s Hok) as [Hm _]. fold cfg in Hm.
  unfold MIN_DEVIATION_BPS, MAX_DEVIATION_BPS_CEILING in Hm. split_and!.
  - intros prev s' Hf He Hp. rewrite (check_eq i s p prev price) by (done || lia). fold cfg.
    pose proof (bo_tick s Hok p prev Hp) as Hprev.
    pose proof (within_limit (last_price prev) price (max_deviation_bps cfg) Hprev Hq ltac:(cbn [imax]; lia)) as W.
    destruct (calculate_price_deviation_bps (last_price prev) price) as [d|e|].
    + destruct (Z.ltb_spec (max_deviation_bps cfg) d) as [Hlt|Hge].
      * split; [done|]. intros [(d' & [= <-] & Hd')%W _]. lia.
      * split; [intros [= <-]; split; [apply W; by exists d|done]|by intros [_ ->]].
    + split; [done|]. intros [(d' & ? & _)%W _]. done.
    + split; [done|]. intros [(d' & ? & _)%W _]. done.
  - intros Hf Hn. unfold check_and_update_spot_price. rewrite (proj2 (Z.leb_gt price 0)) by lia.
    fold st. rewrite Hf, Hn. by destruct (negb _).
  - intros Hf over. split; [unfold is_pool_trading_allowed; fold st; by rewrite Hf|].
    unfold check_and_update_spot_price. rewrite (proj2 (Z.leb_gt price 0)) by lia. fold st cfg. rewrite Hf. fold over.
    destruct over; cbn [invoke]; [|done]. split_and!; [done| |].
    + unfold save_spot_price_tick, get_pool_circuit_breaker_state. cbn [PoolState save_pool_circuit_breaker_state]. by rewrite lookup_insert_eq.
    + unfold get_last_spot_price_tick. cbn [LastSpotTick save_spot_price_tick]. by rewrite lookup_insert_eq.
Qed.

Lemma spot_price_eq (x y : Z) :
  0 < x <= imax U128 -> 0 < y -> y * PRICE_SCALE <= imax U128 -> y * PRICE_SCALE / x <= imax I128 ->
  compute_spot_price_from_reserves x y = Ok (y * PRICE_SCALE / x).
Proof.
  intros Hx Hy Hn Hp. unfold compute_spot_price_from_reserves. rewrite (proj2 (Z.eqb_neq x 0)), (proj2 (Z.eqb_neq y 0)) by lia.
  cbn [orb fail_if]. rewrite bind_ret. unfold checked_mul, chk, fits. set (n := y * PRICE_SCALE) in *.
  assert (0 <= n) by (unfold n, PRICE_SCALE; lia). rewrite (proj2 (Z.leb_le (imin U128) n)), (proj2 (Z.leb_le n _) Hn) by (cbn [imin]; lia).
  cbn [andb ok_or]. rewrite bind_ret. pose proof (Z.div_pos n x ltac:(done) ltac:(lia)). assert (n / x <= n) by (apply Z.div_le_upper_bound; nia).
  unfold idiv. rewrite (proj2 (Z.eqb_neq x 0)) by lia. rewrite Z.quot_div_nonneg, (iop_in U128 (n / x)), bind_ret by (cbn [imin]; lia).
  rewrite (proj2 (Z.ltb_ge _ _) Hp). cbn [fail_if]. rewrite bind_ret, (cast_in I128 (n / x)) by (cbn [imin]; lia). done.
Qed.

(** The oracle guard of a swap decides exactly on the prices. On every reachable
    storage, for reserves whose price is in range: with the guard enabled and a positive
    average the swap passes, with the price of the reserves rounded down, exactly when
    that price is positive and differs from the average by less than one basis point
    more than the limit; with the guard disabled, without an average, or with a
    non-positive one it always passes. *)
Theorem oracle_guard_exact (s : breaker) (p : AssetId) (x y twap : Z) :
  breaker_history s -> 0 < x <= imax U128 -> 0 < y -> y * PRICE_SCALE <= imax U128 -> y * PRICE_SCALE / x <= imax I128 ->
  0 < twap <= imax I128 ->
  let cfg := get_oracle_deviation_config s in
  let spot := y * PRICE_SCALE / x in
  (forall z, enforce_swap_oracle_guard s p x y (Some twap) = Ok z <->
     z = spot /\ (od_enabled cfg = true ->
       0 < spot /\ Z.abs (spot - twap) * BPS_SCALE < Z.min ((od_max_deviation_bps cfg + 1) * twap) (2 ^ 128))) /\
  enforce_swap_oracle_guard s p x y None = Ok spot /\
  (forall t, t <= 0 -> enforce_swap_oracle_guard s p x y (Some t) = Ok spot).
Proof.
  intros Hok%breaker_history_ok Hx Hy Hn Hp Ht cfg spot. pose proof (bo_oracle s Hok) as Hm. fold cfg in Hm.
  unfold MIN_ORACLE_DEVIATION_BPS, MAX_ORACLE_DEVIATION_BPS in Hm.
  unfold enforce_swap_oracle_guard. rewrite spot_price_eq by done. fold spot.
  unfold enforce_oracle_deviation_guard. fold cfg. split_and!.
  - intros z. destruct (od_enabled cfg); cbn [negb].
    2: { split; [intros [= <-]; done|by intros [-> _]]. }
    rewrite bind_ret, (proj2 (Z.leb_gt twap 0)) by lia.
    destruct (Z.leb_spec spot 0) as [Hs|Hs]; cbn [fail_if].
    { split; [done|]. intros [_ Hc]. destruct (Hc eq_refl). lia. }
    cbn [mbind result_bind]. pose proof (within_limit twap spot (od_max_deviation_bps cfg) Ht ltac:(unfold spot in *; lia) ltac:(cbn [imax]; lia)) as W.
    destruct (calculate_price_deviation_bps twap spot) as [d|e|].
    + rewrite bind_ret. destruct (Z.ltb_spec (od_max_deviation_bps cfg) d) as [Hlt|Hge]; cbn [fail_if].
      * split; [done|]. intros [_ Hc]. destruct (Hc eq_refl) as [_ (d' & [= <-] & ?)%W]. lia.
      * cbn [mbind result_bind]. split; [intros [= <-]|by intros [-> _]]. split; [done|]. intros _. split; [done|]. apply W. by exists d.
    + split; [done|]. intros [_ Hc]. destruct (Hc eq_refl) as [_ (d' & ? & _)%W]. done.
    + split; [done|]. intros [_ Hc]. destruct (Hc eq_refl) as [_ (d' & ? & _)%W]. done.
  - rewrite bind_ret. by destruct (negb _).
  - intros t Hle. rewrite bind_ret. destruct (negb _); [done|]. by rewrite (proj2 (Z.leb_le t 0) Hle).
Qed.
End claims.

(** ** A concrete pool 7 with a recorded price of 100, at the default 15%. *)
Section witnesses.
#[local] Existing Instance test_host.

Definition env_at (n : Z) : ledger_env := {| authorised := fun _ => true; sequence := n; now := 5 * n |}.

Definition priced : breaker :=
  match run_breaker (env_at 10) empty_keyring empty_breaker (BCheck 7 100) with Ok s => s | _ => empty_breaker end.

Lemma priced_history : breaker_history priced.
Proof.
  apply breaker_next with empty_breaker (env_at 10) empty_keyring (BCheck 7 100); [constructor|reflexivity|].
  unfold priced. destruct (is_ok_Ok (run_breaker (env_at 10) empty_keyring empty_breaker (BCheck 7 100))) as [s ->]; [vm_compute; reflexivity|done].
Qed.

Definition first_tick : SpotPriceTick := tick_of (env_at 10) 7 100.


Lemma accepted_prices_exact_witness :
  invoke (check_and_update_spot_price (env_at 11) priced 7 115) = Ok (save_spot_price_tick priced 7 (tick_of (env_at 11) 7 115), tt).
Proof.
  destruct (accepted_prices_exact (H := test_host) priced (env_at 11) 7 115 priced_history) as (Hp & _); [vm_compute; split; [reflexivity|discriminate]|].
  refine (proj2 (Hp first_tick _ _ _ _) (conj _ eq_refl)); vm_compute; reflexivity.
Defined.

Lemma oracle_guard_exact_witness :
  enforce_swap_oracle_guard priced 7 1000 2000 (Some 19500000) = Ok 20000000 /\ enforce_swap_oracle_guard priced 7 1000 2000 None = Ok 20000000.
Proof.
  destruct (oracle_guard_exact (H := test_host) priced 7 1000 2000 19500000 priced_history) as (Hp & Hn & _);
    [vm_compute; split; [reflexivity|discriminate]|reflexivity|vm_compute; discriminate|vm_compute; discriminate|vm_compute; split; [reflexivity|discriminate]|].
  split; [apply Hp; split; [reflexivity|intros _; vm_compute; split; reflexivity]|exact Hn].
Defined.
End witnesses.
