(* ===== verification/SplitEscrow.v ===== *)
(** * Split remittance escrow contract

    [src/contracts/split-remittance-escrow/src/] (lib.rs, types.rs): a sender escrows a
    total that is split over several anchors by basis points; each anchor settles its
    leg, and after twelve hours the sender takes back what is still locked. The source
    names its error type both [ContractError] and [Error]: the model has one. Events are
    left out. *)

From stdpp Require Import base numbers list gmap.
From Stdlib Require Import ZArith Lia.
From S2P Require Import Prelude Host Token.

Open Scope Z_scope.

Definition SETTLE_WINDOW_SECS : Z := 43200.
Definition BPS_DENOM : Z := 10000.

Inductive ContractError :=
  | NotInitialized | AlreadyInitialized | Unauthorized | ZeroAmount | OrderNotFound | AlreadyResolved | TooEarlyToRefund
  | ArithmeticOverflow | InvalidProportions | NoDestinations | LegNotFound | LegAlreadySettled | NothingToRefund.

Definition error_code (e : ContractError) : Z :=
  match e with
  | NotInitialized => 1 | AlreadyInitialized => 2 | Unauthorized => 3 | ZeroAmount => 4 | OrderNotFound => 5
  | AlreadyResolved => 6 | TooEarlyToRefund => 7 | ArithmeticOverflow => 8 | InvalidProportions => 9
  | NoDestinations => 10 | LegNotFound => 11 | LegAlreadySettled => 12 | NothingToRefund => 13
  end.

Abbreviation V := (result ContractError).

Inductive LegStatus := LegPending | LegSettled | LegRefunded.

#[export] Instance LegStatus_eq_dec : EqDecision LegStatus.
Proof. solve_decision. Defined.

Inductive OrderStatus := Open | Completed | Refunded.

#[export] Instance OrderStatus_eq_dec : EqDecision OrderStatus.
Proof. solve_decision. Defined.

(** [checked_mul_div] *)
Definition checked_mul_div (amount bps : Z) : V Z :=
  numer ← ok_or (checked_mul I128 amount bps) ArithmeticOverflow;
  idiv I128 numer BPS_DENOM.

Section escrow.
Context {H : Host} {T : Tokens H}.

Record DestinationLeg := { anchor : Address; proportion_bps : Z; amount : Z; leg_status : LegStatus }.

Record SplitOrder := {
  id : Z;
  sender : Address;
  total_amount : Z;
  created_at : Z;
  deadline : Z;
  status : OrderStatus;
  legs : list DestinationLeg
}.

(** The storage: one field per key, [Initialized] being set or not. *)
Record DataKey := {
  Admin : option Address;
  Token : option Address;
  Initialized : bool;
  NextOrderId : option Z;
  Order : gmap Z SplitOrder;
  PartialReleased : gmap Z Z;
  RemainingLocked : gmap Z Z
}.

Definition empty_storage : DataKey := {|
  Admin := None; Token := None; Initialized := false; NextOrderId := None; Order := ∅; PartialReleased := ∅; RemainingLocked := ∅ |}.

Record env := { auth : Address -> bool; current_contract : Address; timestamp : Z }.
Record world := { store : DataKey; ledger : Ledger }.

Definition with_store (w : world) (s : DataKey) : world := {| store := s; ledger := ledger w |}.

Definition require_initialized (s : DataKey) : V unit := fail_if (negb (Initialized s)) NotInitialized.

Definition get_token (s : DataKey) : V Address := ok_or (Token s) NotInitialized.

Definition get_order (s : DataKey) (n : Z) : V SplitOrder := ok_or (Order s !! n) OrderNotFound.

Definition set_order (s : DataKey) (o : SplitOrder) : DataKey := {|
  Admin := Admin s; Token := Token s; Initialized := Initialized s; NextOrderId := NextOrderId s;
  Order := <[id o := o]> (Order s); PartialReleased := PartialReleased s; RemainingLocked := RemainingLocked s |}.

Definition set_next_id (s : DataKey) (n : Z) : DataKey := {|
  Admin := Admin s; Token := Token s; Initialized := Initialized s; NextOrderId := Some n;
  Order := Order s; PartialReleased := PartialReleased s; RemainingLocked := RemainingLocked s |}.

Definition set_instance_balances (s : DataKey) (n partial_released remaining_locked : Z) : DataKey := {|
  Admin := Admin s; Token := Token s; Initialized := Initialized s; NextOrderId := NextOrderId s; Order := Order s;
  PartialReleased := <[n := partial_released]> (PartialReleased s);
  RemainingLocked := <[n := remaining_locked]> (RemainingLocked s) |}.

Definition partial_released (s : DataKey) (n : Z) : Z := default 0 (PartialReleased s !! n).
Definition remaining_locked (s : DataKey) (n : Z) : Z := default 0 (RemainingLocked s !! n).

(** [token_client.transfer(from, to, amount)]: the host traps when it fails. *)
Definition pay (w : world) (token from to : Address) (amt : Z) : V world :=
  l ← unwrap (transfer (ledger w) token from to amt);
  mret {| store := store w; ledger := l |}.

(** The loop of [build_legs] from destination [i] on. *)
Fixpoint legs_loop (i n total sum_bps allocated : Z) (destinations : list (Address * Z)) (built : list DestinationLeg) :
    V (Z * list DestinationLeg) :=
  match destinations with
  | [] => mret (sum_bps, built)
  | (a, bps) :: rest =>
      _ ← fail_if ((bps =? 0) || (BPS_DENOM <? bps)) InvalidProportions;
      sum_bps ← ok_or (checked_add U32 sum_bps bps) ArithmeticOverflow;
      r ← (if i =? n - 1 then
             last ← ok_or (checked_sub I128 total allocated) ArithmeticOverflow; mret (last, allocated)
           else
             partial ← checked_mul_div total bps;
             allocated ← ok_or (checked_add I128 allocated partial) ArithmeticOverflow;
             mret (partial, allocated));
      let '(amt, allocated) := r in
      _ ← fail_if (amt <=? 0) ZeroAmount;
      built ← vpush built {| anchor := a; proportion_bps := bps; amount := amt; leg_status := LegPending |};
      legs_loop (i + 1) n total sum_bps allocated rest built
  end.

Definition build_legs (total : Z) (destinations : list (Address * Z)) : V (list DestinationLeg) :=
  let n := len destinations in
  _ ← fail_if (n =? 0) NoDestinations;
  r ← legs_loop 0 n total 0 0 destinations [];
  let '(sum_bps, built) := r in
  _ ← fail_if (negb (sum_bps =? BPS_DENOM)) InvalidProportions;
  mret built.

Definition initialize (w : world) (admin token : Address) : V world :=
  _ ← fail_if (Initialized (store w)) AlreadyInitialized;
  let s := store w in
  mret (with_store w {|
    Admin := Some admin; Token := Some token; Initialized := true; NextOrderId := Some 0; Order := Order s;
    PartialReleased := PartialReleased s; RemainingLocked := RemainingLocked s |}).

Definition create_split_order (i : env) (w : world) (from : Address) (total : Z) (destinations : list (Address * Z)) : V (world * Z) :=
  _ ← require_initialized (store w);
  _ ← require_auth (auth i) from;
  _ ← fail_if (total <=? 0) ZeroAmount;
  built ← build_legs total destinations;
  due ← ok_or (checked_add U64 (timestamp i) SETTLE_WINDOW_SECS) ArithmeticOverflow;
  token ← get_token (store w);
  w1 ← pay w token from (current_contract i) total;
  let n := default 0 (NextOrderId (store w1)) in
  next_id ← ok_or (checked_add U64 n 1) ArithmeticOverflow;
  let s2 := set_next_id (store w1) next_id in
  let s3 := set_order s2 {| id := n; sender := from; total_amount := total; created_at := timestamp i; deadline := due;
                            status := Open; legs := built |} in
  mret (with_store w1 (set_instance_balances s3 n 0 total), n).

(** [leg.status = st] *)
Definition with_status (x : DestinationLeg) (st : LegStatus) : DestinationLeg :=
  {| anchor := anchor x; proportion_bps := proportion_bps x; amount := amount x; leg_status := st |}.

(** The loop of [settle_leg] over the legs. *)
Fixpoint settle_loop (a : Address) (xs : list DestinationLeg) (found : bool) (release_amount : Z) (updated : list DestinationLeg) :
    V (bool * Z * list DestinationLeg) :=
  match xs with
  | [] => mret (found, release_amount, updated)
  | x :: rest =>
      if bool_decide (anchor x = a) then
        _ ← fail_if (bool_decide (leg_status x <> LegPending)) LegAlreadySettled;
        updated ← vpush updated (with_status x LegSettled);
        settle_loop a rest true (amount x) updated
      else
        updated ← vpush updated x;
        settle_loop a rest found release_amount updated
  end.

(** [order.legs = xs; order.status = st] *)
Definition with_legs (o : SplitOrder) (xs : list DestinationLeg) (st : OrderStatus) : SplitOrder :=
  {| id := id o; sender := sender o; total_amount := total_amount o; created_at := created_at o; deadline := deadline o;
     status := st; legs := xs |}.

Definition all_settled (xs : list DestinationLeg) : bool := forallb (fun x => bool_decide (leg_status x = LegSettled)) xs.

Definition settle_leg (i : env) (w : world) (a : Address) (order_id : Z) : V world :=
  _ ← require_initialized (store w);
  _ ← require_auth (auth i) a;
  o ← get_order (store w) order_id;
  _ ← fail_if (bool_decide (status o <> Open)) AlreadyResolved;
  r ← settle_loop a (legs o) false 0 [];
  let '(found, release_amount, updated) := r in
  _ ← fail_if (negb found) LegNotFound;
  token ← get_token (store w);
  w1 ← pay w token (current_contract i) a release_amount;
  partial ← ok_or (checked_add I128 (partial_released (store w1) order_id) release_amount) ArithmeticOverflow;
  remaining ← ok_or (checked_sub I128 (remaining_locked (store w1) order_id) release_amount) ArithmeticOverflow;
  let s2 := set_instance_balances (store w1) order_id partial remaining in
  mret (with_store w1 (set_order s2 (with_legs o updated (if all_settled updated then Completed else status o)))).

(** The loop of [refund_unsettled]. *)
Definition refund_legs (xs : list DestinationLeg) : list DestinationLeg :=
  (fun x => if bool_decide (leg_status x = LegPending) then with_status x LegRefunded else x) <$> xs.

Definition refund_unsettled (i : env) (w : world) (from : Address) (order_id : Z) : V world :=
  _ ← require_initialized (store w);
  _ ← require_auth (auth i) from;
  o ← get_order (store w) order_id;
  _ ← fail_if (bool_decide (sender o <> from)) Unauthorized;
  _ ← fail_if (bool_decide (status o <> Open)) AlreadyResolved;
  _ ← fail_if (timestamp i <? deadline o) TooEarlyToRefund;
  let remaining := remaining_locked (store w) order_id in
  _ ← fail_if (remaining <=? 0) NothingToRefund;
  let s1 := set_order (store w) (with_legs o (refund_legs (legs o)) Refunded) in
  let s2 := set_instance_balances s1 order_id (partial_released s1 order_id) 0 in
  token ← get_token s2;
  pay (with_store w s2) token (current_contract i) from remaining.

Definition get_admin (s : DataKey) : V Address :=
  _ ← require_initialized s; ok_or (Admin s) NotInitialized.

Definition get_partial_released (s : DataKey) (n : Z) : V Z :=
  _ ← require_initialized s;
  _ ← fail_if (negb (bool_decide (is_Some (Order s !! n)))) OrderNotFound;
  mret (partial_released s n).

Definition get_remaining_locked (s : DataKey) (n : Z) : V Z :=
  _ ← require_initialized s;
  _ ← fail_if (negb (bool_decide (is_Some (Order s !! n)))) OrderNotFound;
  mret (remaining_locked s n).
End escrow.
