(* ===== verification/SplitTheorems.v ===== *)
(** * Split remittance escrow contract: the properties

    The shares of a split, and histories of calls: what the contract holds for each
    order, that the sender of an open order recovers the rest after the deadline, and
    that an anchor named twice leaves money behind. *)

From stdpp Require Import base numbers list gmap.
From Stdlib Require Import ZArith Lia.
From S2P Require Import Prelude Host Token SplitEscrow.

Open Scope Z_scope.

(** ** Shares *)
Section shares.
Context {H : Host}.

(** The share of [bps] of a total, rounded down. *)
Definition share (total bps : Z) : Z := total * bps / BPS_DENOM.

(** What is left for the last destination after the shares of the others. *)
Fixpoint split_amounts (total allocated : Z) (bpss : list Z) : list Z :=
  match bpss with
  | [] => []
  | [_] => [total - allocated]
  | b :: rest => share total b :: split_amounts total (allocated + share total b) rest
  end.

Lemma split_amounts_sum (total allocated : Z) (bpss : list Z) :
  bpss <> [] -> zsum (split_amounts total allocated bpss) = total - allocated.
Proof.
  revert allocated. induction bpss as [|b [|b' rest] IH]; intros allocated Hne; [done|cbn; lia|].
  change (share total b + zsum (split_amounts total (allocated + share total b) (b' :: rest)) = total - allocated).
  rewrite IH by done. lia.
Qed.

Lemma mul_div_share (total bps q : Z) :
  0 <= total -> 0 <= bps -> checked_mul_div total bps = Ok q -> q = share total bps.
Proof.
  intros Ht Hb Hq. apply bind_Ok in Hq as (p & [-> _]%ok_or_Ok%chk_Some & Hq). unfold idiv in Hq. cbn [Z.eqb BPS_DENOM] in Hq.
  apply iop_Ok in Hq as [-> _]. rewrite Z.quot_div_nonneg by (unfold BPS_DENOM; nia). done.
Qed.

Lemma legs_loop_Ok (n total : Z) (ds : list (Address * Z)) (i sum_bps allocated s : Z) (built xs : list DestinationLeg) :
  0 <= total -> Forall (fun d => 0 <= d.2) ds -> i + len ds = n ->
  legs_loop i n total sum_bps allocated ds built = Ok (s, xs) ->
  s = sum_bps + zsum (snd <$> ds) /\
  exists ys, xs = built ++ ys /\ anchor <$> ys = fst <$> ds /\ proportion_bps <$> ys = snd <$> ds /\
    amount <$> ys = split_amounts total allocated (snd <$> ds) /\ Forall (fun y => 0 < amount y /\ leg_status y = LegPending) ys.
Proof.
  intros Ht Hds. revert i sum_bps allocated built. induction ds as [|[a b] ds IH]; intros i sum_bps allocated built Hn Hr.
  - injection Hr as <- <-. split; [cbn; lia|]. exists []. split_and!; [by rewrite app_nil_r|done..].
  - apply Forall_cons in Hds as [Hb Hds]. cbn [legs_loop] in Hr. apply bind_Ok in Hr as ([] & _ & Hr).
    apply bind_Ok in Hr as (s1 & [-> _]%ok_or_Ok%chk_Some & Hr). apply bind_Ok in Hr as ([amt al] & Ha & Hr).
    apply bind_Ok in Hr as ([] & Hpos%fail_if_Ok%Z.leb_gt & Hr). apply bind_Ok in Hr as (b1 & [_ ->]%vpush_Ok & Hr).
    assert (len ((a, b) :: ds) = 1 + len ds) as El by (unfold len; cbn [length]; lia).
    apply IH in Hr as (-> & ys & -> & Ea & Ep & Em & Hf); [|done|lia].
    split; [cbn [fmap list_fmap zsum foldr snd]; change (foldr Z.add 0 (snd <$> ds)) with (zsum (snd <$> ds)); lia|].
    eexists (_ :: ys). split_and!; [by rewrite <- app_assoc|cbn; by rewrite Ea|cbn; by rewrite Ep| |by constructor].
    cbn [fmap list_fmap amount snd]. rewrite Em. cbn [fmap list_fmap snd] in *. destruct (Z.eqb_spec i (n - 1)) as [E|E].
    + apply bind_Ok in Ha as (z & [-> _]%ok_or_Ok%chk_Some & [= <- <-]). destruct ds; [done|]. exfalso. unfold len in *. cbn [length] in *. lia.
    + apply bind_Ok in Ha as (z & Hz & Ha). apply mul_div_share in Hz as ->; [|done..].
      apply bind_Ok in Ha as (z & [-> _]%ok_or_Ok%chk_Some & [= <- <-]).
      destruct ds as [|d ds]; [exfalso; unfold len in *; cbn [length] in *; lia|done].
Qed.

Lemma build_legs_Ok (total : Z) (ds : list (Address * Z)) (xs : list DestinationLeg) :
  0 <= total -> Forall (fun d => 0 <= d.2) ds -> build_legs total ds = Ok xs ->
  ds <> [] /\ anchor <$> xs = fst <$> ds /\ proportion_bps <$> xs = snd <$> ds /\ zsum (snd <$> ds) = BPS_DENOM /\
  amount <$> xs = split_amounts total 0 (snd <$> ds) /\ Forall (fun y => 0 < amount y /\ leg_status y = LegPending) xs.
Proof.
  intros Ht Hds Hr. unfold build_legs in Hr. apply bind_Ok in Hr as ([] & Hn%fail_if_Ok%Z.eqb_neq & Hr).
  apply bind_Ok in Hr as ([s ys] & Hl & Hr). apply bind_Ok in Hr as ([] & Hs%fail_if_Ok%negb_false_iff%Z.eqb_eq & [= ->]).
  apply legs_loop_Ok in Hl as (-> & zs & -> & Ea & Ep & Em & Hf); [|done..]. cbn [app] in *.
  split_and!; try done. by intros ->.
Qed.
End shares.

Lemma share_bounds (total b : Z) : share total b * BPS_DENOM <= total * b < share total b * BPS_DENOM + BPS_DENOM.
Proof.
  unfold share, BPS_DENOM. pose proof (Z.mul_div_le (total * b) 10000 ltac:(lia)). pose proof (Z.mul_succ_div_gt (total * b) 10000 ltac:(lia)). lia.
Qed.

Lemma split_amounts_at (total allocated : Z) (bpss : list Z) (k : nat) (b : Z) :
  bpss !! k = Some b -> (S k < length bpss)%nat -> split_amounts total allocated bpss !! k = Some (share total b).
Proof.
  revert allocated k. induction bpss as [|c [|c' rest] IH]; intros allocated k Hk Hl; [done|cbn [length] in Hl; lia|].
  destruct k as [|k]; [by injection Hk as ->|]. apply (IH (allocated + share total c) k Hk). cbn [length] in *. lia.
Qed.

Lemma split_amounts_last (total allocated : Z) (bpss : list Z) (b : Z) :
  bpss !! pred (length bpss) = Some b ->
  exists x, split_amounts total allocated bpss !! pred (length bpss) = Some x /\
    let d := total * zsum bpss - (total - allocated) * BPS_DENOM in
    total * b - d <= x * BPS_DENOM <= total * b - d + BPS_DENOM * (len bpss - 1).
Proof.
  revert allocated. induction bpss as [|c [|c' rest] IH]; intros allocated Hb; [done| |].
  - injection Hb as ->. exists (total - allocated). split; [done|]. unfold len. cbn [length zsum foldr]. lia.
  - destruct (IH (allocated + share total c)) as (x & Hx & Hr); [exact Hb|]. exists x. split; [exact Hx|].
    pose proof (share_bounds total c). change (zsum (c :: c' :: rest)) with (c + zsum (c' :: rest)).
    assert (len (c :: c' :: rest) = len (c' :: rest) + 1) as -> by (unfold len; cbn [length]; lia).
    cbv zeta in Hr |- *. lia.
Qed.

Section claims.
Context {H : Host} {T : Tokens H} {TL : TokenLaws H T}.

(** How a total is split. When the legs of an order are built, there is one leg per
    destination, in order, with its anchor; the proportions are 10000 in all and the
    amounts are the total in all, so nothing is lost to rounding. Every leg but the last
    is its proportion of the total, rounded down; the last gets the rest, which is at
    least its proportion and exceeds it by less than the number of destinations. *)
Theorem split_shares_exact (total : Z) (ds : list (Address * Z)) (xs : list DestinationLeg) :
  0 <= total -> Forall (fun d => 0 <= d.2) ds -> build_legs total ds = Ok xs ->
  anchor <$> xs = fst <$> ds /\ zsum (snd <$> ds) = BPS_DENOM /\ zsum (amount <$> xs) = total /\
  forall k d x, ds !! k = Some d -> xs !! k = Some x ->
    0 < amount x /\ leg_status x = LegPending /\
    if (S k <? length ds)%nat then amount x = total * d.2 / BPS_DENOM
    else total * d.2 <= amount x * BPS_DENOM < total * d.2 + BPS_DENOM * len ds.
Proof.
  intros Ht Hds (Hne & Ea & Ep & Es & Em & Hf)%build_legs_Ok; [|done..].
  assert (snd <$> ds <> []) as Hne' by (by intros E%fmap_nil_inv). split_and!; [done..| |].
  { rewrite Em, split_amounts_sum by done. lia. }
  intros k d x Hk Hx. destruct (Forall_lookup_1 _ _ _ _ Hf Hx) as [Hpos Hst]. split; [done|]. split; [done|].
  assert ((amount <$> xs) !! k = Some (amount x)) as Hax by (rewrite list_lookup_fmap, Hx; done). rewrite Em in Hax.
  assert ((snd <$> ds) !! k = Some d.2) as Hb by (rewrite list_lookup_fmap, Hk; done).
  destruct (Nat.ltb_spec (S k) (length ds)) as [Hlt|Hge].
  - rewrite (split_amounts_at total 0 _ k d.2) in Hax by (done || by rewrite length_fmap). by injection Hax as <-.
  - apply lookup_lt_Some in Hk as Hkl. assert (k = pred (length (snd <$> ds))) as Ek by (rewrite length_fmap; lia).
    rewrite Ek in Hb, Hax. destruct (split_amounts_last total 0 (snd <$> ds) d.2 Hb) as (y & Hy & Hr). rewrite Hax in Hy. injection Hy as <-.
    cbv zeta in Hr. rewrite Es in Hr. assert (len (snd <$> ds) = len ds) as El by (unfold len; by rewrite length_fmap). rewrite El in Hr.
    unfold BPS_DENOM in *. lia.
Qed.
End claims.

(** ** Settling *)
Section settle.
Context {H : Host}.

Definition pending_amount (x : DestinationLeg) : Z := if bool_decide (leg_status x = LegPending) then amount x else 0.
Definition pending_sum (xs : list DestinationLeg) : Z := zsum (pending_amount <$> xs).
Definition settle_mine (a : Address) (x : DestinationLeg) : DestinationLeg :=
  if bool_decide (anchor x = a) then with_status x LegSettled else x.
Definition amounts_of (a : Address) (xs : list DestinationLeg) : list Z :=
  amount <$> filter (fun x => anchor x = a) xs.

Lemma last_cons_default (z r : Z) (zs : list Z) : List.last (z :: zs) r = List.last zs z.
Proof. revert z r. induction zs as [|y zs IH]; intros z r; [done|]. change (List.last (y :: zs) r = List.last (y :: zs) z). by rewrite !IH. Qed.

Lemma settle_loop_Ok (a : Address) (xs : list DestinationLeg) (found found' : bool) (r r' : Z) (built upd : list DestinationLeg) :
  settle_loop a xs found r built = Ok (found', r', upd) ->
  upd = built ++ (settle_mine a <$> xs) /\ found' = (found || bool_decide (amounts_of a xs <> [])) /\
  r' = List.last (amounts_of a xs) r /\ Forall (fun x => anchor x = a -> leg_status x = LegPending) xs.
Proof.
  revert found r built. induction xs as [|x xs IH]; intros found r built Hr.
  - injection Hr as <- <- <-. split_and!; [by rewrite app_nil_r| |done|done]. rewrite bool_decide_eq_false_2 by (by intros E). by rewrite orb_false_r.
  - cbn [settle_loop] in Hr. unfold amounts_of. rewrite filter_cons. cbn [fmap list_fmap]. unfold settle_mine at 1. case_bool_decide as Ha.
    + apply bind_Ok in Hr as ([] & Hp%fail_if_Ok%bool_decide_eq_false%dec_stable & Hr). apply bind_Ok in Hr as (b1 & [_ ->]%vpush_Ok & Hr).
      apply IH in Hr as (-> & -> & -> & Hf). rewrite decide_True by done. cbn [fmap list_fmap]. split_and!.
      * by rewrite <- app_assoc.
      * rewrite (bool_decide_eq_true_2 (_ :: _ <> [])) by done. by rewrite orb_true_r.
      * fold (amounts_of a xs). by rewrite last_cons_default.
      * by constructor.
    + apply bind_Ok in Hr as (b1 & [_ ->]%vpush_Ok & Hr). apply IH in Hr as (-> & -> & -> & Hf). rewrite decide_False by done.
      split_and!; [by rewrite <- app_assoc|done|done|by constructor].
Qed.

Lemma settle_mine_keeps (a : Address) (xs : list DestinationLeg) :
  amount <$> (settle_mine a <$> xs) = amount <$> xs /\ anchor <$> (settle_mine a <$> xs) = anchor <$> xs.
Proof. induction xs as [|x xs [E1 E2]]; [done|]. cbn. rewrite E1, E2. unfold settle_mine. by case_bool_decide. Qed.

Lemma pending_after_settle (a : Address) (xs : list DestinationLeg) :
  Forall (fun x => anchor x = a -> leg_status x = LegPending) xs ->
  pending_sum (settle_mine a <$> xs) = pending_sum xs - zsum (amounts_of a xs).
Proof.
  induction 1 as [|x xs Hx _ IH]; [done|]. unfold amounts_of. rewrite filter_cons.
  change (pending_amount (settle_mine a x) + pending_sum (settle_mine a <$> xs) = pending_amount x + pending_sum xs - zsum (amount <$> if decide (anchor x = a) then x :: filter (fun x => anchor x = a) xs else filter (fun x => anchor x = a) xs)).
  unfold settle_mine at 1. case_bool_decide as Ha.
  - rewrite decide_True by done. unfold pending_amount at 1 2. cbn [with_status leg_status amount]. rewrite (Hx Ha).
    rewrite bool_decide_eq_false_2, bool_decide_eq_true_2 by done. cbn [fmap list_fmap]. fold (amounts_of a xs).
    change (zsum (amount x :: ?l)) with (amount x + zsum l). lia.
  - rewrite decide_False by done. fold (amounts_of a xs). lia.
Qed.

Lemma amounts_of_all (a : Address) (xs : list DestinationLeg) : Forall (fun x => anchor x = a) xs -> amounts_of a xs = amount <$> xs.
Proof.
  unfold amounts_of. induction 1 as [|x xs Hx _ IH]; [done|]. rewrite filter_cons, decide_True by done. cbn [fmap list_fmap]. by rewrite IH.
Qed.

Lemma amounts_pos (xs : list DestinationLeg) : Forall (fun x => 0 < amount x) xs <-> Forall (fun z => 0 < z) (amount <$> xs).
Proof. by rewrite Forall_fmap. Qed.

Lemma last_le_sum (r : Z) (zs : list Z) : zs <> [] -> Forall (fun z => 0 < z) zs -> 0 < List.last zs r <= zsum zs /\ (length zs = 1%nat -> List.last zs r = zsum zs).
Proof.
  intros Hne Hf. induction Hf as [|z zs Hz Hf IH]; [done|]. destruct zs as [|z' zs]; [cbn; lia|].
  destruct (IH ltac:(done)) as [Hb _]. change (List.last (z :: z' :: zs) r) with (List.last (z' :: zs) r).
  change (zsum (z :: z' :: zs)) with (z + zsum (z' :: zs)). split; [lia|done].
Qed.

Lemma amounts_of_pos (a : Address) (xs : list DestinationLeg) : Forall (fun x => 0 < amount x) xs -> Forall (fun z => 0 < z) (amounts_of a xs).
Proof.
  intros Hf. unfold amounts_of. apply Forall_fmap, Forall_forall. intros x [_ Hx]%list_elem_of_filter.
  by apply (proj1 (Forall_forall _ _) Hf).
Qed.

Lemma amounts_of_once (a : Address) (xs : list DestinationLeg) :
  NoDup (anchor <$> xs) -> amounts_of a xs <> [] -> length (amounts_of a xs) = 1%nat.
Proof.
  unfold amounts_of. rewrite length_fmap. induction xs as [|x xs IH]; [done|]. cbn [fmap list_fmap]. intros [Hn Hnd]%NoDup_cons.
  rewrite filter_cons. destruct (decide (anchor x = a)) as [Ha|]; [|by apply IH]. intros _. cbn [length]. f_equal.
  destruct (filter (fun x => anchor x = a) xs) as [|y ys] eqn:E; [done|]. exfalso. apply Hn.
  assert (y ∈ filter (fun x => anchor x = a) xs) as [Hy Hin]%list_elem_of_filter by (rewrite E; left).
  rewrite Ha, <- Hy. by apply list_elem_of_fmap_2.
Qed.

Lemma pending_sum_nonneg (xs : list DestinationLeg) : Forall (fun x => 0 < amount x) xs -> 0 <= pending_sum xs.
Proof.
  induction 1 as [|x xs Hx _ IH]; [done|]. change (0 <= pending_amount x + pending_sum xs). unfold pending_amount. case_bool_decide; lia.
Qed.

Lemma pending_sum_pos (xs : list DestinationLeg) :
  Forall (fun x => 0 < amount x) xs -> Exists (fun x => leg_status x = LegPending) xs -> 0 < pending_sum xs.
Proof.
  intros Hf He. induction He as [x xs Hx|x xs He IH]; apply Forall_cons in Hf as [Hp Hf].
  - pose proof (pending_sum_nonneg xs Hf). change (0 < pending_amount x + pending_sum xs). unfold pending_amount. rewrite bool_decide_eq_true_2 by done. lia.
  - specialize (IH Hf). change (0 < pending_amount x + pending_sum xs). unfold pending_amount. case_bool_decide; lia.
Qed.

Lemma pending_all (xs : list DestinationLeg) : Forall (fun y => 0 < amount y /\ leg_status y = LegPending) xs -> pending_sum xs = zsum (amount <$> xs).
Proof.
  induction 1 as [|x xs [_ Hx] _ IH]; [done|]. change (pending_amount x + pending_sum xs = amount x + zsum (amount <$> xs)).
  unfold pending_amount. rewrite bool_decide_eq_true_2 by done. lia.
Qed.

Lemma all_settled_none (xs : list DestinationLeg) : all_settled xs = true -> pending_sum xs = 0.
Proof.
  intros Hs. induction xs as [|x xs IH]; [done|]. cbn in Hs. apply andb_true_iff in Hs as [Hx%bool_decide_eq_true Hs].
  change (pending_amount x + pending_sum xs = 0). unfold pending_amount. rewrite bool_decide_eq_false_2 by congruence. rewrite IH; done.
Qed.

Lemma not_all_settled (xs : list DestinationLeg) :
  Forall (fun x => leg_status x <> LegRefunded) xs -> all_settled xs = false -> Exists (fun x => leg_status x = LegPending) xs.
Proof.
  intros Hf Hs. induction Hf as [|x xs Hx _ IH]; [done|]. cbn in Hs. apply andb_false_iff in Hs as [Hs%bool_decide_eq_false|Hs].
  - left. by destruct (leg_status x).
  - right. by apply IH.
Qed.
End settle.

(** ** Histories *)
Section history.
Context {H : Host} {T : Tokens H} {TL : TokenLaws H T}.
Context (self : Address).

Inductive split_call :=
  | SInitialize (admin token : Address)
  | SCreate (from : Address) (total : Z) (destinations : list (Address * Z))
  | SSettle (a : Address) (n : Z)
  | SRefund (from : Address) (n : Z).

Definition run_split (i : env) (w : world) (x : split_call) : V world :=
  match x with
  | SInitialize admin token => initialize w admin token
  | SCreate from total ds => r ← create_split_order i w from total ds; mret r.1
  | SSettle a n => settle_leg i w a n
  | SRefund from n => refund_unsettled i w from n
  end.

(** Calls to this contract by users, with proportions that are values of [u32]. *)
Definition split_user_call (i : env) (x : split_call) : Prop :=
  current_contract i = self /\ auth i self = false /\
  match x with SCreate _ _ ds => Forall (fun d => 0 <= d.2) ds | _ => True end.

(** What users' calls reach from a world. *)
Inductive later (w : world) : world -> Prop :=
  | later_now : later w w
  | later_next w1 i x w2 : later w w1 -> split_user_call i x -> run_split i w1 x = Ok w2 -> later w w2.

Definition split_history (l0 : Ledger) : world -> Prop := later {| store := empty_storage; ledger := l0 |}.

(** ** The invariant *)
Definition locked (s : DataKey) : Z := msum (fun _ v => v) (RemainingLocked s).

Record order_ok (s : DataKey) (n : Z) (o : SplitOrder) : Prop := {
  oo_id : id o = n;
  oo_next : n < default 0 (NextOrderId s);
  oo_pos : Forall (fun x => 0 < amount x) (legs o);
  oo_sum : zsum (amount <$> legs o) = total_amount o;
  oo_partial : 0 <= partial_released s n;
  oo_money :
    match status o with
    | Open => partial_released s n + remaining_locked s n = total_amount o /\ pending_sum (legs o) <= remaining_locked s n /\
              (NoDup (anchor <$> legs o) -> remaining_locked s n = pending_sum (legs o)) /\
              Exists (fun x => leg_status x = LegPending) (legs o) /\ Forall (fun x => leg_status x <> LegRefunded) (legs o)
    | Completed => partial_released s n + remaining_locked s n = total_amount o /\ 0 <= remaining_locked s n /\
                   (NoDup (anchor <$> legs o) -> remaining_locked s n = 0)
    | Refunded => remaining_locked s n = 0
    end
}.

Record split_ok (l0 : Ledger) (w : world) : Prop := {
  so_orders : forall n o, Order (store w) !! n = Some o -> order_ok (store w) n o;
  so_none : forall n, Order (store w) !! n = None -> RemainingLocked (store w) !! n = None;
  so_balance : forall t, balance (ledger w) t self = balance l0 t self +
    if decide (Token (store w) = Some t) then locked (store w) else 0;
  so_empty : Initialized (store w) = false ->
    Order (store w) = ∅ /\ RemainingLocked (store w) = ∅ /\ Token (store w) = None;
  so_token : Initialized (store w) = true -> is_Some (Token (store w))
}.

Lemma split_remaining_nonneg (s : DataKey) (n : Z) (o : SplitOrder) : order_ok s n o -> 0 <= remaining_locked s n.
Proof.
  intros [_ _ Hp _ _ Hm]. destruct (status o); [|lia|lia]. pose proof (pending_sum_nonneg (legs o) Hp). lia.
Qed.

(** One order is written with its two balances. *)
Definition writes (s s' : DataKey) (n : Z) (o : SplitOrder) (p r : Z) : Prop :=
  Order s' = <[n := o]> (Order s) /\ PartialReleased s' = <[n := p]> (PartialReleased s) /\
  RemainingLocked s' = <[n := r]> (RemainingLocked s) /\ default 0 (NextOrderId s) <= default 0 (NextOrderId s') /\
  Admin s' = Admin s /\ Token s' = Token s /\ Initialized s' = Initialized s.

Lemma writes_balances (s s' : DataKey) (n : Z) (o : SplitOrder) (p r : Z) :
  writes s s' n o p r ->
  partial_released s' n = p /\ remaining_locked s' n = r /\ locked s' = locked s - remaining_locked s n + r /\
  forall m, m <> n -> partial_released s' m = partial_released s m /\ remaining_locked s' m = remaining_locked s m.
Proof.
  intros (_ & Ep & Er & _). unfold partial_released, remaining_locked, locked. rewrite Ep, Er, !lookup_insert_eq, msum_insert.
  split_and!; [done|done| |].
  - unfold term. by destruct (RemainingLocked s !! n).
  - intros m Hm. by rewrite !lookup_insert_ne.
Qed.

Lemma writes_ok (l0 : Ledger) (w w' : world) (n : Z) (o : SplitOrder) (p r : Z) :
  split_ok l0 w -> writes (store w) (store w') n o p r -> Initialized (store w) = true -> order_ok (store w') n o ->
  (forall t, balance (ledger w') t self = balance (ledger w) t self +
     if decide (Token (store w) = Some t) then r - remaining_locked (store w) n else 0) ->
  split_ok l0 w'.
Proof.
  intros [So Sn Sb Se St] Hw Hi Ho Hb. pose proof (writes_balances _ _ _ _ _ _ Hw) as (_ & _ & El & Hoth).
  destruct Hw as (Eo & Ep & Er & En & Ea & Et & Ei). split.
  - intros m x. rewrite Eo. intros [[<- <-]|[Hne Hx]]%lookup_insert_Some; [done|]. destruct (So m x Hx) as [H1 H2 H3 H4 H5 H6].
    destruct (Hoth m ltac:(congruence)) as [E1 E2]. split; [done|lia|done|done|by rewrite E1|by rewrite E1, E2].
  - intros m. rewrite Eo, Er. intros [Hm Hne]%lookup_insert_None. rewrite lookup_insert_ne by done. by apply Sn.
  - intros t. rewrite Hb, Sb, Et, El. destruct (decide _); lia.
  - congruence.
  - rewrite Et, Ei. exact St.
Qed.

(** What a payment does to the balances of the contract. *)
Lemma split_pay_Ok (w w' : world) (token from to : Address) (amt : Z) :
  pay w token from to amt = Ok w' ->
  store w' = store w /\ 0 <= amt <= balance (ledger w) token from /\
  forall t a, balance (ledger w') t a = balance (ledger w) t a - at_account token from t a amt + at_account token to t a amt.
Proof.
  intros Hr. apply bind_Ok in Hr as (l & Hl%unwrap_Ok & Hr). injection Hr as <-. split; [done|].
  by apply transfer_spec in Hl.
Qed.

Lemma split_pay_self (w w' : world) (token from to : Address) (amt : Z) :
  pay w token from to amt = Ok w' ->
  forall t, balance (ledger w') t self = balance (ledger w) t self +
    if decide (t = token) then (if decide (to = self) then amt else 0) - (if decide (from = self) then amt else 0) else 0.
Proof.
  intros (_ & _ & Hb)%split_pay_Ok t. rewrite Hb. unfold at_account.
  destruct (decide (t = token)), (decide (to = self)), (decide (from = self)); repeat case_decide; naive_solver lia.
Qed.

Section step.
Context (l0 : Ledger) (w : world) (Hok : split_ok l0 w) (i : env).
Context (Ec : current_contract i = self) (Hns : auth i self = false).

Lemma split_initialize_keeps (w' : world) (admin token : Address) : initialize w admin token = Ok w' -> split_ok l0 w'.
Proof.
  intros Hr. apply bind_Ok in Hr as ([] & Hi%fail_if_Ok & [= <-]). destruct (so_empty _ _ Hok Hi) as (Eo & Er & Et).
  split; cbn [store ledger with_store Order RemainingLocked Token Initialized NextOrderId].
  - intros n o. by rewrite Eo.
  - intros n _. by rewrite Er.
  - intros t. rewrite (so_balance _ _ Hok t), Et, (decide_False (P := None = _)) by done. unfold locked. cbn [RemainingLocked].
    rewrite Er, msum_empty. by destruct (decide _).
  - done.
  - intros _. by eexists.
Qed.

Lemma create_writes (w' : world) (from : Address) (total n : Z) (ds : list (Address * Z)) :
  create_split_order i w from total ds = Ok (w', n) ->
  exists xs o token, build_legs total ds = Ok xs /\ 0 < total /\ Token (store w) = Some token /\ Initialized (store w) = true /\
    n = default 0 (NextOrderId (store w)) /\ NextOrderId (store w') = Some (n + 1) /\ from <> self /\
    o = {| id := n; sender := from; total_amount := total; created_at := timestamp i; deadline := timestamp i + SETTLE_WINDOW_SECS;
           status := Open; legs := xs |} /\
    writes (store w) (store w') n o 0 total /\
    forall t, balance (ledger w') t self = balance (ledger w) t self + if decide (t = token) then total else 0.
Proof.
  intros Hr. unfold create_split_order in Hr. apply bind_Ok in Hr as ([] & Hi%fail_if_Ok%negb_false_iff & Hr).
  apply bind_Ok in Hr as ([] & Hau%require_auth_Ok & Hr). apply bind_Ok in Hr as ([] & Ht%fail_if_Ok%Z.leb_gt & Hr).
  apply bind_Ok in Hr as (xs & Hxs & Hr). apply bind_Ok in Hr as (due & [-> _]%ok_or_Ok%chk_Some & Hr).
  apply bind_Ok in Hr as (token & Htk%ok_or_Ok & Hr). apply bind_Ok in Hr as (w1 & Hw1 & Hr). rewrite Ec in Hw1.
  pose proof (proj1 (split_pay_Ok _ _ _ _ _ _ Hw1)) as Es. rewrite Es in Hr. apply bind_Ok in Hr as (nx & [-> _]%ok_or_Ok%chk_Some & [= <- <-]).
  assert (from <> self) as Hne by congruence. eexists xs, _, token. split_and!; try done.
  - unfold writes. split_and!; try done. cbn. unfold Datatypes.id. lia.
  - intros t. cbn [ledger with_store]. rewrite (split_pay_self _ _ _ _ _ _ Hw1 t). destruct (decide (t = token)); [|done].
    rewrite decide_True, (decide_False (P := from = self)) by done. lia.
Qed.

Lemma split_create_keeps (w' : world) (from : Address) (total n : Z) (ds : list (Address * Z)) :
  Forall (fun d => 0 <= d.2) ds -> create_split_order i w from total ds = Ok (w', n) -> split_ok l0 w'.
Proof.
  intros Hds (xs & o & token & Hxs & Ht & Htk & Hi & En & En' & _ & Eo & Hw & Hb)%create_writes.
  destruct (build_legs_Ok total ds xs ltac:(lia) Hds Hxs) as (Hne & Ea & Ep & Es & Em & Hf).
  pose proof (writes_balances _ _ _ _ _ _ Hw) as (Ebp & Ebr & _ & _).
  assert (remaining_locked (store w) n = 0) as Ez.
  { unfold remaining_locked. destruct (Order (store w) !! n) as [x|] eqn:E.
    - pose proof (oo_next _ _ _ (so_orders _ _ Hok n x E)). lia.
    - by rewrite (so_none _ _ Hok n E). }
  assert (zsum (amount <$> xs) = total) as Hs.
  { rewrite Em, split_amounts_sum; [lia|]. intros E%fmap_nil_inv. done. }
  apply (writes_ok l0 w w' n o 0 total Hok Hw Hi).
  - subst o. split; cbn [SplitEscrow.id status legs total_amount]; [done|rewrite En'; cbn; unfold Datatypes.id; lia| |done|lia|].
    + eapply Forall_impl; [exact Hf|]. cbn. tauto.
    + rewrite Ebp, Ebr, (pending_all xs Hf), Hs. split_and!; [lia|lia|done| |].
      * destruct xs as [|x xs]; [cbn in Hs; lia|]. apply Forall_cons in Hf as [[_ Hx] _]. by left.
      * eapply Forall_impl; [exact Hf|]. cbn. intros x [_ ->]. done.
  - intros t. rewrite Hb, Htk, Ez. destruct (decide (t = token)), (decide (Some token = Some t)); try congruence; lia.
Qed.

Lemma settle_writes (w' : world) (a : Address) (n : Z) :
  settle_leg i w a n = Ok w' ->
  exists o token, let zs := amounts_of a (legs o) in let r := List.last zs 0 in
    Order (store w) !! n = Some o /\ status o = Open /\ Token (store w) = Some token /\ Initialized (store w) = true /\ a <> self /\
    zs <> [] /\ Forall (fun x => anchor x = a -> leg_status x = LegPending) (legs o) /\
    (let xs := settle_mine a <$> legs o in
     writes (store w) (store w') n (with_legs o xs (if all_settled xs then Completed else Open))
       (partial_released (store w) n + r) (remaining_locked (store w) n - r)) /\
    NextOrderId (store w') = NextOrderId (store w) /\ pay w token self a r = Ok {| store := store w; ledger := ledger w' |}.
Proof.
  intros Hr. unfold settle_leg in Hr. apply bind_Ok in Hr as ([] & Hi%fail_if_Ok%negb_false_iff & Hr).
  apply bind_Ok in Hr as ([] & Hau%require_auth_Ok & Hr). apply bind_Ok in Hr as (o & Ho%ok_or_Ok & Hr).
  apply bind_Ok in Hr as ([] & Hst%fail_if_Ok%bool_decide_eq_false%dec_stable & Hr).
  apply bind_Ok in Hr as ([[f r] upd] & Hl & Hr). apply settle_loop_Ok in Hl as (-> & -> & -> & Hf). cbn [app orb] in Hr.
  apply bind_Ok in Hr as ([] & Hfd%fail_if_Ok%negb_false_iff%bool_decide_eq_true & Hr).
  apply bind_Ok in Hr as (token & Htk%ok_or_Ok & Hr). apply bind_Ok in Hr as (w1 & Hw1 & Hr). rewrite Ec in Hw1.
  pose proof (proj1 (split_pay_Ok _ _ _ _ _ _ Hw1)) as Es. rewrite Es in Hr.
  apply bind_Ok in Hr as (p & [-> _]%ok_or_Ok%chk_Some & Hr). apply bind_Ok in Hr as (q & [-> _]%ok_or_Ok%chk_Some & [= <-]).
  assert (a <> self) as Hne by congruence. pose proof (oo_id _ _ _ (so_orders _ _ Hok n o Ho)) as Hid.
  exists o, token. cbv zeta. rewrite Hst. split_and!; try done.
  - unfold writes. split_and!; try done. cbn. by rewrite Hid.
  - rewrite Hw1. destruct w1 as [s1 l1]. cbn in Es |- *. by rewrite Es.
Qed.

Lemma settle_keeps (w' : world) (a : Address) (n : Z) : settle_leg i w a n = Ok w' -> split_ok l0 w'.
Proof.
  intros (o & token & Ho & Hst & Htk & Hi & Hne & Hzs & Hf & Hw & En & Hp)%settle_writes. cbv zeta in Hw.
  set (r := List.last (amounts_of a (legs o)) 0) in *. set (xs := settle_mine a <$> legs o) in *.
  destruct (so_orders _ _ Hok n o Ho) as [H1 H2 H3 H4 H5 H6]. rewrite Hst in H6. destruct H6 as (M1 & M2 & M3 & _ & M5).
  pose proof (writes_balances _ _ _ _ _ _ Hw) as (Ebp & Ebr & _ & _).
  destruct (last_le_sum 0 (amounts_of a (legs o)) Hzs (amounts_of_pos a _ H3)) as [Hr1 Hr2]. fold r in Hr1, Hr2.
  pose proof (pending_after_settle a (legs o) Hf) as Hps. fold xs in Hps. destruct (settle_mine_keeps a (legs o)) as [Eam Ean]. fold xs in Eam, Ean.
  assert (Forall (fun x => 0 < amount x) xs) as Hpos.
  { apply amounts_pos. rewrite Eam. by apply amounts_pos. }
  assert (NoDup (anchor <$> xs) -> remaining_locked (store w) n - r = pending_sum xs) as Hnd.
  { rewrite Ean. intros Hnd. rewrite (M3 Hnd), Hps, Hr2; [lia|]. by apply amounts_of_once. }
  apply (writes_ok l0 w w' n _ _ _ Hok Hw Hi).
  - split; cbn [with_legs SplitEscrow.id legs total_amount status]; [done|by rewrite En|done|by rewrite Eam|lia|].
    rewrite Ebp, Ebr. destruct (all_settled xs) eqn:Eall.
    + pose proof (all_settled_none xs Eall) as E0. split_and!; [lia|lia|]. intros ->%Hnd. done.
    + split_and!; [lia|lia|done| |].
      * apply not_all_settled; [|done]. unfold xs. apply Forall_fmap. eapply Forall_impl; [exact M5|].
        intros x Hx. cbn. unfold settle_mine. by case_bool_decide.
      * unfold xs. apply Forall_fmap. eapply Forall_impl; [exact M5|]. intros x Hx. cbn. unfold settle_mine. by case_bool_decide.
  - intros t. rewrite (split_pay_self _ _ _ _ _ _ Hp t : balance (ledger w') t self = _), Htk. rewrite (decide_False (P := a = self)), (decide_True (P := self = self)) by done.
    destruct (decide (t = token)), (decide (Some token = Some t)); try congruence; lia.
Qed.

Lemma refund_writes (w' : world) (from : Address) (n : Z) :
  refund_unsettled i w from n = Ok w' ->
  exists o token, Order (store w) !! n = Some o /\ status o = Open /\ Token (store w) = Some token /\ Initialized (store w) = true /\
    from <> self /\ sender o = from /\ deadline o <= timestamp i /\ 0 < remaining_locked (store w) n /\
    writes (store w) (store w') n (with_legs o (refund_legs (legs o)) Refunded) (partial_released (store w) n) 0 /\
    NextOrderId (store w') = NextOrderId (store w) /\
    pay (with_store w (store w')) token self from (remaining_locked (store w) n) = Ok w'.
Proof.
  intros Hr. unfold refund_unsettled in Hr. apply bind_Ok in Hr as ([] & Hi%fail_if_Ok%negb_false_iff & Hr).
  apply bind_Ok in Hr as ([] & Hau%require_auth_Ok & Hr). apply bind_Ok in Hr as (o & Ho%ok_or_Ok & Hr).
  apply bind_Ok in Hr as ([] & Hsd%fail_if_Ok%bool_decide_eq_false%dec_stable & Hr).
  apply bind_Ok in Hr as ([] & Hst%fail_if_Ok%bool_decide_eq_false%dec_stable & Hr).
  apply bind_Ok in Hr as ([] & Hdl%fail_if_Ok%Z.ltb_ge & Hr). apply bind_Ok in Hr as ([] & Hrem%fail_if_Ok%Z.leb_gt & Hr).
  apply bind_Ok in Hr as (token & Htk%ok_or_Ok & Hp). rewrite Ec in Hp. pose proof (proj1 (split_pay_Ok _ _ _ _ _ _ Hp)) as Es.
  assert (from <> self) as Hne by congruence. pose proof (oo_id _ _ _ (so_orders _ _ Hok n o Ho)) as Hid.
  exists o, token. rewrite Es. split_and!; try done.
  unfold writes. split_and!; try done. cbn. by rewrite Hid.
Qed.

Lemma refund_keeps (w' : world) (from : Address) (n : Z) : refund_unsettled i w from n = Ok w' -> split_ok l0 w'.
Proof.
  intros (o & token & Ho & Hst & Htk & Hi & Hne & _ & _ & Hrem & Hw & En & Hp)%refund_writes.
  destruct (so_orders _ _ Hok n o Ho) as [H1 H2 H3 H4 H5 H6].
  pose proof (writes_balances _ _ _ _ _ _ Hw) as (Ebp & Ebr & _ & _).
  assert (amount <$> refund_legs (legs o) = amount <$> legs o) as Eam.
  { unfold refund_legs. rewrite <- list_fmap_compose. apply list_fmap_ext. intros k x _. cbn. by case_bool_decide. }
  apply (writes_ok l0 w w' n _ _ _ Hok Hw Hi).
  - split; cbn [with_legs SplitEscrow.id legs total_amount status]; [done|by rewrite En| |by rewrite Eam|by rewrite Ebp|done].
    apply amounts_pos. rewrite Eam. by apply amounts_pos.
  - intros t. rewrite (split_pay_self _ _ _ _ _ _ Hp t), Htk. cbn [ledger with_store].
    rewrite (decide_False (P := from = self)), (decide_True (P := self = self)) by done.
    destruct (decide (t = token)), (decide (Some token = Some t)); try congruence; lia.
Qed.

Lemma split_step (w' : world) (x : split_call) : split_user_call i x -> run_split i w x = Ok w' -> split_ok l0 w'.
Proof.
  intros (_ & _ & Hty) Hr. destruct x as [admin token|from total ds|a n|from n]; cbn [run_split] in Hr.
  - by apply (split_initialize_keeps w' admin token).
  - apply bind_Ok in Hr as ([w1 n] & Hr & [= <-]). by apply (split_create_keeps w1 from total n ds).
  - by apply (settle_keeps w' a n).
  - by apply (refund_keeps w' from n).
Qed.
End step.

Lemma later_ok (l0 : Ledger) (w w' : world) : split_ok l0 w -> later w w' -> split_ok l0 w'.
Proof.
  intros Hok. induction 1 as [|w1 i x w2 _ IH Hu Hr]; [done|]. apply (split_step l0 w1 IH i) with x; [apply Hu|apply Hu|done|done].
Qed.

Lemma split_history_ok (l0 : Ledger) (w : world) : split_history l0 w -> split_ok l0 w.
Proof.
  apply later_ok. split; cbn [store ledger empty_storage Order RemainingLocked Token Initialized]; try done.
  intros t. rewrite (decide_False (P := None = _)) by done. lia.
Qed.

(** A resolved order stays as it is. *)
Lemma writes_other (s s' : DataKey) (n m : Z) (o x : SplitOrder) (p r : Z) :
  writes s s' n o p r -> m <> n -> Order s !! m = Some x ->
  Order s' !! m = Some x /\ partial_released s' m = partial_released s m /\ remaining_locked s' m = remaining_locked s m.
Proof.
  intros Hw Hne Hx. pose proof (writes_balances _ _ _ _ _ _ Hw) as (_ & _ & _ & Ho). destruct (Ho m Hne) as [-> ->].
  destruct Hw as (-> & _). by rewrite lookup_insert_ne.
Qed.

Lemma resolved_step (l0 : Ledger) (w w' : world) (i : env) (x : split_call) (n : Z) (o : SplitOrder) :
  split_ok l0 w -> split_user_call i x -> run_split i w x = Ok w' -> Order (store w) !! n = Some o -> status o <> Open ->
  Order (store w') !! n = Some o /\ partial_released (store w') n = partial_released (store w) n /\
  remaining_locked (store w') n = remaining_locked (store w) n.
Proof.
  intros Hok (Ec & Hns & _) Hr Ho Hst. destruct x as [admin token|from total ds|a m|from m]; cbn [run_split] in Hr.
  - by apply bind_Ok in Hr as ([] & _ & [= <-]).
  - apply bind_Ok in Hr as ([w1 m] & Hr & [= <-]).
    apply (create_writes w i Ec Hns) in Hr as (xs & y & token & _ & _ & _ & _ & Em & _ & _ & _ & Hw & _).
    apply (writes_other _ _ _ n _ o _ _ Hw); [|done]. pose proof (oo_next _ _ _ (so_orders _ _ Hok n o Ho)). lia.
  - apply (settle_writes l0 w Hok i Ec Hns) in Hr as (y & token & Hy & Hs & _ & _ & _ & _ & _ & Hw & _).
    apply (writes_other _ _ _ n _ o _ _ Hw); [|done]. intros ->. congruence.
  - apply (refund_writes l0 w Hok i Ec Hns) in Hr as (y & token & Hy & Hs & _ & _ & _ & _ & _ & _ & Hw & _).
    apply (writes_other _ _ _ n _ o _ _ Hw); [|done]. intros ->. congruence.
Qed.

Lemma resolved_later (l0 : Ledger) (w w' : world) (n : Z) (o : SplitOrder) :
  split_ok l0 w -> later w w' -> Order (store w) !! n = Some o -> status o <> Open ->
  Order (store w') !! n = Some o /\ partial_released (store w') n = partial_released (store w) n /\
  remaining_locked (store w') n = remaining_locked (store w) n.
Proof.
  intros Hok Hl Ho Hst. induction Hl as [|w1 i x w2 Hl IH Hu Hr]; [done|]. destruct IH as (IH1 & IH2 & IH3).
  destruct (resolved_step l0 w1 w2 i x n o (later_ok l0 w w1 Hok Hl) Hu Hr IH1 Hst) as (E1 & E2 & E3). by rewrite E2, E3.
Qed.


(** An anchor named twice loses money for everybody. When all legs of an open order,
    two or more, name one anchor and it settles, every leg is marked settled but only the
    last one is paid: the order is completed, and in every later world the amounts of the
    other legs are still locked, more than nothing, while no call on the order succeeds
    any more. *)
Theorem repeated_anchor_locks_money (l0 : Ledger) (w w1 w2 : world) (i : env) (a : Address) (n : Z) (o : SplitOrder) :
  split_history l0 w -> split_user_call i (SSettle a n) -> get_order (store w) n = Ok o ->
  Forall (fun x => anchor x = a) (legs o) -> (2 <= length (legs o))%nat ->
  settle_leg i w a n = Ok w1 -> later w1 w2 ->
  exists x, last (legs o) = Some x /\ 0 < total_amount o - amount x /\
    partial_released (store w2) n = amount x /\ remaining_locked (store w2) n = total_amount o - amount x /\
    forall j w3, split_user_call j (SSettle a n) ->
      (forall b, settle_leg j w2 b n <> Ok w3) /\ (forall from, refund_unsettled j w2 from n <> Ok w3).
Proof.
  intros Hh Hu Ho%ok_or_Ok Hall Hlen Hr Hl. pose proof (split_history_ok l0 w Hh) as Hok. destruct Hu as (Ec & Hns & _).
  pose proof (settle_keeps l0 w Hok i Ec Hns w1 a n Hr) as Hok1.
  apply (settle_writes l0 w Hok i Ec Hns) in Hr as (y & token & Hy & Hst & _ & _ & _ & Hzs & Hf & Hw & _). assert (y = o) as -> by congruence.
  destruct (so_orders _ _ Hok n o Ho) as [_ _ H3 H4 H5 H6]. rewrite Hst in H6. destruct H6 as (M1 & M2 & _).
  assert (amounts_of a (legs o) = amount <$> legs o) as Eam.
  { by apply amounts_of_all. }
  assert (Forall (fun y => 0 < amount y /\ leg_status y = LegPending) (legs o)) as Hp.
  { apply Forall_forall. intros x Hx. split; [by apply (proj1 (Forall_forall _ _) H3)|].
    apply (proj1 (Forall_forall _ _) Hf); [done|]. by apply (proj1 (Forall_forall _ _) Hall). }
  rewrite (pending_all _ Hp), H4 in M2.
  destruct (last (legs o)) as [x|] eqn:Elast; [|apply last_None in Elast; rewrite Elast in Hlen; cbn in Hlen; lia].
  apply last_Some in Elast as [ys Eys]. exists x. split; [done|].
  assert (List.last (amount <$> legs o) 0 = amount x) as El by (rewrite Eys, fmap_app; cbn; apply List.last_last).
  assert (0 < total_amount o - amount x) as Hpos.
  { rewrite <- H4, Eys, fmap_app, zsum_app. cbn [fmap list_fmap zsum foldr]. rewrite Eys in H3, Hlen. apply Forall_app in H3 as [H3 _].
    rewrite length_app in Hlen. cbn [length] in Hlen. destruct ys as [|z ys]; [cbn in Hlen; lia|].
    destruct (last_le_sum 0 (amount z :: (amount <$> ys)) ltac:(discriminate)) as [Hs _]; [exact (proj1 (amounts_pos (z :: ys)) H3)|].
    change (amount <$> z :: ys) with (amount z :: (amount <$> ys)). lia. }
  split; [done|]. cbv zeta in Hw. rewrite Eam, El in Hw.
  assert (all_settled (settle_mine a <$> legs o) = true) as Eall.
  { apply forallb_forall. intros z (z' & -> & Hz')%list_elem_of_In%list_elem_of_fmap. unfold settle_mine.
    rewrite (bool_decide_eq_true_2 (anchor z' = a)) by (by apply (proj1 (Forall_forall _ _) Hall)). by apply bool_decide_eq_true_2. }
  rewrite Eall in Hw. pose proof (writes_balances _ _ _ _ _ _ Hw) as (Ebp & Ebr & _). destruct Hw as (Eo & _).
  set (o1 := with_legs o _ Completed) in *.
  destruct (resolved_later l0 w1 w2 n o1 Hok1 Hl) as (Eo2 & Ep2 & Er2); [by rewrite Eo, lookup_insert_eq|done|].
  rewrite Ep2, Er2, Ebp, Ebr. split; [lia|]. split; [lia|].
  pose proof (later_ok l0 w1 w2 Hok1 Hl) as Hok2. intros j w3 (Ej & Hj & _). split.
  - intros b Hb. apply (settle_writes l0 w2 Hok2 j Ej Hj) in Hb as (z & tok & Hz & Hs & _). assert (z = o1) as -> by congruence. done.
  - intros from Hb. apply (refund_writes l0 w2 Hok2 j Ej Hj) in Hb as (z & tok & Hz & Hs & _). assert (z = o1) as -> by congruence. done.
Qed.

(** After the deadline the sender of an open order always gets back everything it still
    locks. On every reachable world, when the sender authorises the call and the token
    transfers what the contract holds, the refund succeeds, pays the remaining amount,
    which is positive, and closes the order; what was released before stays released, and
    no other order changes. *)
Theorem refund_recovers_rest (l0 : Ledger) (w : world) (i : env) (n : Z) (o : SplitOrder) :
  split_history l0 w -> current_contract i = self -> auth i self = false ->
  get_order (store w) n = Ok o -> status o = Open -> deadline o <= timestamp i -> auth i (sender o) = true ->
  (forall t, 0 <= balance l0 t self) ->
  (forall l t from to amt, 0 <= amt <= balance l t from -> is_Some (transfer l t from to amt)) ->
  let r := remaining_locked (store w) n in
  exists w' token, refund_unsettled i w (sender o) n = Ok w' /\ 0 < r /\ get_token (store w) = Ok token /\
    balance (ledger w') token (sender o) = balance (ledger w) token (sender o) + r /\
    remaining_locked (store w') n = 0 /\ partial_released (store w') n = partial_released (store w) n /\
    forall m x, m <> n -> Order (store w) !! m = Some x ->
      Order (store w') !! m = Some x /\ remaining_locked (store w') m = remaining_locked (store w) m.
Proof.
  intros Hh Ec Hns Ho%ok_or_Ok Hst Hdl Hau Hl0 Htr r. pose proof (split_history_ok l0 w Hh) as Hok.
  destruct (so_orders _ _ Hok n o Ho) as [_ _ H3 _ _ H6]. rewrite Hst in H6. destruct H6 as (_ & M2 & _ & M4 & _).
  pose proof (pending_sum_pos _ H3 M4) as Hpp. assert (0 < r) as Hr by (unfold r; lia).
  destruct (Initialized (store w)) eqn:Ei; [|exfalso; destruct (so_empty _ _ Hok Ei) as (E & _); by rewrite E in Ho].
  destruct (so_token _ _ Hok Ei) as [token Htk].
  assert (r <= locked (store w)) as Hle.
  { pose proof (msum_term_le (fun _ v : Z => v) (RemainingLocked (store w)) n) as Ht.
    assert (term (fun _ v => v) (RemainingLocked (store w)) n = r) as <- by (unfold term, r, remaining_locked; by destruct (RemainingLocked (store w) !! n)).
    apply Ht. intros k x Hk. destruct (Order (store w) !! k) as [y|] eqn:Ey; [|by rewrite (so_none _ _ Hok k Ey) in Hk].
    pose proof (split_remaining_nonneg _ _ _ (so_orders _ _ Hok k y Ey)) as Hn. unfold remaining_locked in Hn. by rewrite Hk in Hn. }
  pose proof (so_balance _ _ Hok token) as Hb. rewrite decide_True in Hb by done.
  destruct (Htr (ledger w) token self (sender o) r) as [l Hl]; [pose proof (Hl0 token); lia|].
  assert (exists w', refund_unsettled i w (sender o) n = Ok w') as [w' Hw'].
  { unfold refund_unsettled, require_initialized, get_order, get_token. rewrite Ei. cbn [negb fail_if]. rewrite bind_ret.
    unfold require_auth at 1. rewrite Hau, bind_ret, Ho. cbn [ok_or]. rewrite bind_ret, bool_decide_eq_false_2 by tauto. cbn [fail_if].
    rewrite bind_ret, bool_decide_eq_false_2 by tauto. cbn [fail_if]. rewrite bind_ret, (proj2 (Z.ltb_ge _ _) Hdl). cbn [fail_if].
    rewrite bind_ret. fold r. rewrite (proj2 (Z.leb_gt r 0) Hr). cbn [fail_if Token set_instance_balances set_order]. rewrite bind_ret, Htk. cbn [ok_or].
    rewrite bind_ret, Ec. unfold pay. cbn [ledger with_store]. rewrite Hl. by eexists. }
  exists w', token. split; [done|]. split; [done|]. split; [unfold get_token; by rewrite Htk|].
  apply (refund_writes l0 w Hok i Ec Hns) in Hw' as (y & tok & Hy & _ & Htk' & _ & Hne & _ & _ & _ & Hw & _ & Hp). assert (tok = token) as -> by congruence.
  pose proof (writes_balances _ _ _ _ _ _ Hw) as (Ebp & Ebr & _). split_and!; [|done|done|].
  - apply split_pay_Ok in Hp as (_ & _ & Hbal). rewrite Hbal. unfold at_account. rewrite (decide_False (P := token = token /\ _ = self)) by tauto.
    rewrite decide_True by done. cbn [ledger with_store]. fold r. lia.
  - intros m x Hm Hx. by destruct (writes_other _ _ _ m _ x _ _ Hw Hm Hx) as (? & _ & ?).
Qed.
End history.

(** ** A concrete escrow: contract 1, token 100; sender 4 splits 100 over anchors 5 and 6,
    of which 5 settles, and 50 over anchor 7 twice. *)
Section witnesses.
#[local] Existing Instance test_host.

#[local] Instance split_tokens : Tokens test_host := map_tokens test_host.
#[local] Instance split_token_laws : TokenLaws test_host split_tokens := map_token_laws test_host.

Definition split_at (who now : Z) : env := @Build_env test_host (fun a => Z.eqb a who) 1 now.

Definition split_ledger : gmap (Address * Address) Z := {[ (100, 4) := 1000 ]}.

Fixpoint run_splits (w : world) (cs : list (Z * Z * split_call)) : V world :=
  match cs with
  | [] => mret w
  | (who, now, x) :: cs => w' ← run_split (split_at who now) w x; run_splits w' cs
  end.

Definition split_by_user (c : Z * Z * split_call) : bool :=
  negb (Z.eqb 1 c.1.1) && match c.2 with SCreate _ _ ds => forallb (fun d => 0 <=? d.2) ds | _ => true end.

Lemma split_by_user_call (who now : Z) (x : split_call) : split_by_user (who, now, x) = true -> split_user_call 1 (split_at who now) x.
Proof.
  intros [Hw%negb_true_iff Hx]%andb_true_iff. split; [done|]. split; [exact Hw|].
  destruct x as [| from total ds| |]; try done. apply Forall_forall. intros d Hd%list_elem_of_In. apply Z.leb_le.
  exact (proj1 (forallb_forall (fun d => 0 <=? d.2) ds) Hx d Hd).
Qed.

Lemma run_splits_later (cs : list (Z * Z * split_call)) (w0 w w' : world) :
  later 1 w0 w -> forallb split_by_user cs = true -> run_splits w cs = Ok w' -> later 1 w0 w'.
Proof.
  revert w. induction cs as [|[[who now] x] cs IH]; intros w Hw Hc Hr; [by injection Hr as <-|].
  cbn [forallb run_splits] in *. apply andb_true_iff in Hc as [Hx Hc]. apply bind_Ok in Hr as (w1 & Hw1 & Hr).
  apply IH with w1; [|done|done]. apply later_next with w (split_at who now) x; [done| |done]. by apply split_by_user_call.
Qed.

Definition split_calls : list (Z * Z * split_call) :=
  [(2, 10, SInitialize 2 100); (4, 20, SCreate 4 100 [(5, 3333); (6, 6667)]); (5, 30, SSettle 5 0);
   (4, 40, SCreate 4 50 [(7, 5000); (7, 5000)])].

Definition split_start : world := {| store := empty_storage; ledger := split_ledger |}.
Definition split_state : world := match run_splits split_start split_calls with Ok w => w | _ => split_start end.

Lemma split_state_history : split_history 1 split_ledger split_state.
Proof.
  apply (run_splits_later split_calls split_start split_start); [constructor|vm_compute; reflexivity|]. unfold split_state.
  destruct (is_ok_Ok (run_splits split_start split_calls)) as [w ->]; [vm_compute; reflexivity|done].
Qed.

Definition order_of (w : world) (n : Z) : SplitOrder :=
  default {| id := 0; sender := 0; total_amount := 0; created_at := 0; deadline := 0; status := Open; legs := [] |} (Order (store w) !! n).

Definition has_order (w : world) (n : Z) : bool := match Order (store w) !! n with Some _ => true | None => false end.

Lemma order_of_ok (w : world) (n : Z) : has_order w n = true -> get_order (store w) n = Ok (order_of w n).
Proof. unfold has_order, order_of, get_order. by destruct (Order (store w) !! n). Qed.

Lemma split_shares_exact_witness :
  exists xs, build_legs (H := test_host) 100 [(5, 3333); (6, 6667)] = Ok xs /\ zsum (amount <$> xs) = 100.
Proof.
  destruct (is_ok_Ok (build_legs (H := test_host) 100 [(5, 3333); (6, 6667)])) as [xs E]; [vm_compute; reflexivity|].
  exists xs. split; [exact E|].
  exact (proj1 (proj2 (proj2 (split_shares_exact (H := test_host) 100 [(5, 3333); (6, 6667)] xs ltac:(discriminate) ltac:(repeat constructor; discriminate) E)))).
Defined.


Definition settled_twice : world := match settle_leg (split_at 7 50) split_state 7 1 with Ok w => w | _ => split_state end.

Lemma settled_twice_ok : settle_leg (split_at 7 50) split_state 7 1 = Ok settled_twice.
Proof. unfold settled_twice. destruct (is_ok_Ok (settle_leg (split_at 7 50) split_state 7 1)) as [w ->]; [vm_compute; reflexivity|done]. Qed.

Lemma legs_to_seven : Forall (fun x => anchor x = 7) (legs (order_of split_state 1)).
Proof.
  apply Forall_forall. intros x Hx%list_elem_of_In. assert (forallb (fun x => Z.eqb (anchor x) 7) (legs (order_of split_state 1)) = true) as E by (vm_compute; reflexivity).
  apply Z.eqb_eq. by apply (proj1 (forallb_forall _ _) E).
Qed.

Lemma repeated_anchor_locks_money_witness :
  remaining_locked (store settled_twice) 1 = 25 /\
  exists x, last (legs (order_of split_state 1)) = Some x /\ 0 < total_amount (order_of split_state 1) - amount x.
Proof.
  split; [vm_compute; reflexivity|].
  destruct (repeated_anchor_locks_money (H := test_host) (T := split_tokens) 1 split_ledger split_state settled_twice settled_twice (split_at 7 50) 7 1
    (order_of split_state 1) split_state_history (split_by_user_call 7 50 (SSettle (H := test_host) 7 1) eq_refl)
    (order_of_ok split_state 1 ltac:(vm_compute; reflexivity)) legs_to_seven ltac:(vm_compute; repeat constructor) settled_twice_ok
    (later_now (H := test_host) 1 settled_twice)) as (x & Hl & Hp & _).
  exists x. split; [exact Hl|exact Hp].
Defined.

Lemma split_transfer_total (l : Ledger) (tok from to : Address) (amt : Z) : 0 <= amt <= balance l tok from -> is_Some (transfer l tok from to amt).
Proof.
  intros Ha. cbn in *. unfold map_debit. rewrite (proj2 (andb_true_iff _ _)); [by eexists|]. split; apply Z.leb_le; lia.
Qed.

Lemma split_ledger_empty (t : Address) : 0 <= balance split_ledger t 1.
Proof.
  change (0 <= default 0 (split_ledger !! (t, 1))). destruct (_ !! _) as [z|] eqn:E; [|done].
  unfold split_ledger in E. apply lookup_singleton_Some in E as [E _]. injection E as _ E. discriminate E.
Qed.

Lemma refund_recovers_rest_witness :
  remaining_locked (store split_state) 0 = 67 /\
  exists w', refund_unsettled (split_at 4 43220) split_state (sender (order_of split_state 0)) 0 = Ok w' /\ remaining_locked (store w') 0 = 0.
Proof.
  split; [vm_compute; reflexivity|].
  destruct (refund_recovers_rest (H := test_host) (T := split_tokens) 1 split_ledger split_state (split_at 4 43220) 0 (order_of split_state 0) split_state_history
    eq_refl eq_refl (order_of_ok split_state 0 ltac:(vm_compute; reflexivity)) ltac:(vm_compute; reflexivity) ltac:(vm_compute; discriminate)
    ltac:(vm_compute; reflexivity) split_ledger_empty split_transfer_total) as (w' & token & Hr & _ & _ & _ & Hz & _).
  exists w'. split; [exact Hr|exact Hz].
Defined.
End witnesses.
