(* ===== verification/RewardSplitter.v ===== *)
(** * Reward splitter contract

    [src/contracts/reward-splitter/src/lib.rs]: an admin keeps a list of recipients with
    shares in basis points, anyone distributes an amount of the contract's token over
    them, and governance actions pass through a gateway of three cooldowns. A call that
    ends in [panic_with_error!] is rolled back with that error. [Address::from_string]
    is a function of the host: the model takes it as the parameter [parse].

    Histories of calls at growing times, under a condition on the calls: the shares of
    distinct recipients, what a distribution pays, what happens to a recipient listed
    twice, and how long an action of the gateway waits. *)

From stdpp Require Import base numbers list gmap.
From Stdlib Require Import ZArith Lia.
From S2P Require Import Prelude Host Token.

Open Scope Z_scope.

Definition STAGE_1_COOLDOWN : Z := 3600.
Definition STAGE_2_COOLDOWN : Z := 28800.
Definition STAGE_3_COOLDOWN : Z := 86400.

Inductive ContractError :=
  | AlreadyInitialized | Unauthorized | InvalidShare | TotalSharesExceeded | NoRecipients | InsufficientBalance | ZeroAmount
  | TokenNotSet | CooldownNotExpired | ActionNotFound | ActionAlreadyExecuted | ActionAlreadyCancelled | InvalidStage
  | InvalidActionType.

Definition error_code (e : ContractError) : Z :=
  match e with
  | AlreadyInitialized => 1 | Unauthorized => 2 | InvalidShare => 3 | TotalSharesExceeded => 4 | NoRecipients => 5
  | InsufficientBalance => 6 | ZeroAmount => 7 | TokenNotSet => 8 | CooldownNotExpired => 9 | ActionNotFound => 10
  | ActionAlreadyExecuted => 11 | ActionAlreadyCancelled => 12 | InvalidStage => 13 | InvalidActionType => 14
  end.

Abbreviation V := (result ContractError).

Inductive CooldownActionType := UpdateToken | ResetParameters | EmergencyStop.

Record CooldownStage := { stage_number : Z; cooldown_seconds : Z; description : bytes }.

Section splitter.
Context {H : Host} {T : Tokens H}.
Context (parse : bytes -> option Address).

Record Recipient := { address : Address; share : Z }.

Record CooldownAction := {
  action_id : Z;
  action_type : CooldownActionType;
  proposed_by : Address;
  current_stage : Z;
  proposed_at : Z;
  action_data : bytes;
  executed : bool;
  cancelled : bool
}.

(** The storage: one field per key, [Initialized] being set or not. *)
Record DataKey := {
  Admin : option Address;
  Token : option Address;
  Recipients : option (list Recipient);
  Initialized : bool;
  TotalShares : option Z;
  DefaultAdmin : option Address;
  DefaultToken : option Address;
  Stages : gmap Z CooldownStage;
  Actions : gmap Z CooldownAction
}.

Definition empty_storage : DataKey := {|
  Admin := None; Token := None; Recipients := None; Initialized := false; TotalShares := None; DefaultAdmin := None;
  DefaultToken := None; Stages := ∅; Actions := ∅ |}.

Record env := { auth : Address -> bool; current_contract : Address; timestamp : Z }.

Definition set_recipients (s : DataKey) (rs : list Recipient) (total : Z) : DataKey := {|
  Admin := Admin s; Token := Token s; Recipients := Some rs; Initialized := Initialized s; TotalShares := Some total;
  DefaultAdmin := DefaultAdmin s; DefaultToken := DefaultToken s; Stages := Stages s; Actions := Actions s |}.

Definition set_keys (s : DataKey) (admin token : option Address) : DataKey := {|
  Admin := admin; Token := token; Recipients := Recipients s; Initialized := Initialized s; TotalShares := TotalShares s;
  DefaultAdmin := DefaultAdmin s; DefaultToken := DefaultToken s; Stages := Stages s; Actions := Actions s |}.

Definition set_stage (s : DataKey) (n : Z) (st : CooldownStage) : DataKey := {|
  Admin := Admin s; Token := Token s; Recipients := Recipients s; Initialized := Initialized s; TotalShares := TotalShares s;
  DefaultAdmin := DefaultAdmin s; DefaultToken := DefaultToken s; Stages := <[n := st]> (Stages s); Actions := Actions s |}.

Definition set_action (s : DataKey) (n : Z) (a : CooldownAction) : DataKey := {|
  Admin := Admin s; Token := Token s; Recipients := Recipients s; Initialized := Initialized s; TotalShares := TotalShares s;
  DefaultAdmin := DefaultAdmin s; DefaultToken := DefaultToken s; Stages := Stages s; Actions := <[n := a]> (Actions s) |}.

(** The descriptions are the symbols INIT, REVIEW and APPROVE. *)
Definition initialize_default_cooldown_stages (s : DataKey) : DataKey :=
  let s1 := set_stage s 1 {| stage_number := 1; cooldown_seconds := STAGE_1_COOLDOWN; description := [73; 78; 73; 84] |} in
  let s2 := set_stage s1 2 {| stage_number := 2; cooldown_seconds := STAGE_2_COOLDOWN; description := [82; 69; 86; 73; 69; 87] |} in
  set_stage s2 3 {| stage_number := 3; cooldown_seconds := STAGE_3_COOLDOWN; description := [65; 80; 80; 82; 79; 86; 69] |}.

Definition initialize (s : DataKey) (admin token : Address) : V DataKey :=
  _ ← fail_if (Initialized s) AlreadyInitialized;
  mret (initialize_default_cooldown_stages {|
    Admin := Some admin; Token := Some token; Recipients := Some []; Initialized := true; TotalShares := Some 0;
    DefaultAdmin := Some admin; DefaultToken := Some token; Stages := Stages s; Actions := Actions s |}).

Definition require_admin (i : env) (s : DataKey) (admin : Address) : V unit :=
  _ ← require_auth (auth i) admin;
  stored_admin ← unwrap (Admin s);
  fail_if (bool_decide (stored_admin <> admin)) Unauthorized.

Definition get_recipients (s : DataKey) : list Recipient := default [] (Recipients s).
Definition get_total_shares (s : DataKey) : Z := default 0 (TotalShares s).

Definition add_recipient (i : env) (s : DataKey) (admin recipient : Address) (sh : Z) : V DataKey :=
  _ ← require_admin i s admin;
  _ ← fail_if ((sh =? 0) || (10000 <? sh)) InvalidShare;
  let recipients := get_recipients s in
  let total_shares := get_total_shares s in
  sum ← iadd U32 total_shares sh;
  _ ← fail_if (10000 <? sum) TotalSharesExceeded;
  recipients ← vpush recipients {| address := recipient; share := sh |};
  total_shares ← iadd U32 total_shares sh;
  mret (set_recipients s recipients total_shares).

(** The loop of [remove_recipient]. *)
Fixpoint remove_loop (recipient : Address) (rs : list Recipient) (total : Z) (found : bool) (kept : list Recipient) :
    V (Z * bool * list Recipient) :=
  match rs with
  | [] => mret (total, found, kept)
  | r :: rest =>
      if bool_decide (address r = recipient) then
        total ← isub U32 total (share r);
        remove_loop recipient rest total true kept
      else
        kept ← vpush kept r;
        remove_loop recipient rest total found kept
  end.

Definition remove_recipient (i : env) (s : DataKey) (admin recipient : Address) : V DataKey :=
  _ ← require_admin i s admin;
  x ← remove_loop recipient (get_recipients s) (get_total_shares s) false [];
  let '(total_shares, found, new_recipients) := x in
  if (found : bool) then mret (set_recipients s new_recipients total_shares) else mret s.

(** The first loop of [update_recipient_share]: the share of the first match. *)
Fixpoint old_share (recipient : Address) (rs : list Recipient) : option Z :=
  match rs with
  | [] => None
  | r :: rest => if bool_decide (address r = recipient) then Some (share r) else old_share recipient rest
  end.

(** Its second loop. *)
Definition with_share (recipient : Address) (new_share : Z) (rs : list Recipient) : list Recipient :=
  (fun r => if bool_decide (address r = recipient) then {| address := recipient; share := new_share |} else r) <$> rs.

Definition update_recipient_share (i : env) (s : DataKey) (admin recipient : Address) (new_share : Z) : V DataKey :=
  _ ← require_admin i s admin;
  _ ← fail_if ((new_share =? 0) || (10000 <? new_share)) InvalidShare;
  let recipients := get_recipients s in
  let total_shares := get_total_shares s in
  match old_share recipient recipients with
  | None => mret s
  | Some old =>
      rest ← isub U32 total_shares old;
      new_total ← iadd U32 rest new_share;
      _ ← fail_if (10000 <? new_total) TotalSharesExceeded;
      mret (set_recipients s (with_share recipient new_share recipients) new_total)
  end.

(** The loop of [distribute]. *)
Fixpoint pay_loop (l : Ledger) (token self : Address) (amount total : Z) (rs : list Recipient) : V Ledger :=
  match rs with
  | [] => mret l
  | r :: rest =>
      product ← imul I128 amount (share r);
      share_amount ← idiv I128 product total;
      l ← (if 0 <? share_amount then unwrap (transfer l token self (address r) share_amount) else mret l);
      pay_loop l token self amount total rest
  end.

Definition distribute (i : env) (s : DataKey) (l : Ledger) (amount : Z) : V Ledger :=
  _ ← fail_if (amount <=? 0) ZeroAmount;
  token ← ok_or (Token s) TokenNotSet;
  let recipients := get_recipients s in
  _ ← fail_if (bool_decide (recipients = [])) NoRecipients;
  let total_shares := get_total_shares s in
  _ ← fail_if (total_shares =? 0) NoRecipients;
  _ ← fail_if (balance l token (current_contract i) <? amount) InsufficientBalance;
  pay_loop l token (current_contract i) amount total_shares recipients.

Definition get_admin (s : DataKey) : V Address := unwrap (Admin s).
Definition get_token (s : DataKey) : V Address := unwrap (Token s).
Definition get_default_admin (s : DataKey) : V Address := unwrap (DefaultAdmin s).
Definition get_default_token (s : DataKey) : V Address := unwrap (DefaultToken s).

Definition transfer_admin (i : env) (s : DataKey) (current_admin new_admin : Address) : V DataKey :=
  _ ← require_admin i s current_admin; mret (set_keys s (Some new_admin) (Token s)).

Definition update_token (i : env) (s : DataKey) (admin new_token : Address) : V DataKey :=
  _ ← require_admin i s admin; mret (set_keys s (Admin s) (Some new_token)).

Definition reset_parameters_internal (s : DataKey) : V DataKey :=
  default_admin ← unwrap (DefaultAdmin s);
  default_token ← unwrap (DefaultToken s);
  mret (set_recipients (set_keys s (Some default_admin) (Some default_token)) [] 0).

Definition reset_parameters (i : env) (s : DataKey) (admin : Address) : V DataKey :=
  _ ← require_admin i s admin; reset_parameters_internal s.

(** ** The cooldown gateway *)
Definition propose_action (i : env) (s : DataKey) (admin : Address) (ty : CooldownActionType) (data : bytes) : V (DataKey * Z) :=
  _ ← require_admin i s admin;
  let n := timestamp i in
  mret (set_action s n {| action_id := n; action_type := ty; proposed_by := admin; current_stage := 1;
                          proposed_at := timestamp i; action_data := data; executed := false; cancelled := false |}, n).

(** The guards that advance, execute and cancel share. *)
Definition open_action (s : DataKey) (n : Z) : V CooldownAction :=
  a ← ok_or (Actions s !! n) ActionNotFound;
  _ ← fail_if (executed a) ActionAlreadyExecuted;
  _ ← fail_if (cancelled a) ActionAlreadyCancelled;
  mret a.

Definition with_progress (a : CooldownAction) (stage : Z) (ex ca : bool) : CooldownAction :=
  {| action_id := action_id a; action_type := action_type a; proposed_by := proposed_by a; current_stage := stage;
     proposed_at := proposed_at a; action_data := action_data a; executed := ex; cancelled := ca |}.

Definition advance_action (i : env) (s : DataKey) (admin : Address) (n : Z) : V DataKey :=
  _ ← require_admin i s admin;
  a ← open_action s n;
  _ ← fail_if (3 <? current_stage a) InvalidStage;
  stage ← ok_or (Stages s !! current_stage a) InvalidStage;
  stage_expiry ← iadd U64 (proposed_at a) (cooldown_seconds stage);
  _ ← fail_if (timestamp i <? stage_expiry) CooldownNotExpired;
  next ← iadd U32 (current_stage a) 1;
  mret (set_action s n (with_progress a next (executed a) (cancelled a))).

Definition execute_action (i : env) (s : DataKey) (admin : Address) (n : Z) : V DataKey :=
  _ ← require_admin i s admin;
  a ← open_action s n;
  _ ← fail_if (current_stage a <? 4) CooldownNotExpired;
  s1 ← (match action_type a with
        | UpdateToken => new_token ← unwrap (parse (action_data a)); mret (set_keys s (Admin s) (Some new_token))
        | ResetParameters => reset_parameters_internal s
        | EmergencyStop => mret s
        end);
  mret (set_action s1 n (with_progress a (current_stage a) true (cancelled a))).

Definition cancel_action (i : env) (s : DataKey) (admin : Address) (n : Z) : V DataKey :=
  _ ← require_admin i s admin;
  a ← open_action s n;
  mret (set_action s n (with_progress a (current_stage a) (executed a) true)).

Definition get_action (s : DataKey) (n : Z) : option CooldownAction := Actions s !! n.

Definition get_cooldown_remaining (i : env) (s : DataKey) (n : Z) : V (option Z) :=
  match Actions s !! n with
  | None => mret None
  | Some a =>
      if executed a || cancelled a then mret (Some 0)
      else match Stages s !! current_stage a with
           | None => mret None
           | Some stage =>
               stage_expiry ← iadd U64 (proposed_at a) (cooldown_seconds stage);
               if stage_expiry <=? timestamp i then mret (Some 0)
               else rest ← isub U64 stage_expiry (timestamp i); mret (Some rest)
           end
  end.

Definition configure_cooldown_stage (i : env) (s : DataKey) (admin : Address) (n seconds : Z) (desc : bytes) : V DataKey :=
  _ ← require_admin i s admin;
  _ ← fail_if ((n <? 1) || (3 <? n)) InvalidStage;
  mret (set_stage s n {| stage_number := n; cooldown_seconds := seconds; description := desc |}).

Definition get_cooldown_stage (s : DataKey) (n : Z) : option CooldownStage := Stages s !! n.
End splitter.

(** ** Reward splitter contract: the properties *)

Section claims.
Context {H : Host} {T : Tokens H} {TL : TokenLaws H T}.
Context (parse : bytes -> option Address).

Inductive splitter_call :=
  | RInitialize (admin token : Address)
  | RAdd (admin recipient : Address) (sh : Z)
  | RRemove (admin recipient : Address)
  | RUpdate (admin recipient : Address) (sh : Z)
  | RTransferAdmin (admin new_admin : Address)
  | RUpdateToken (admin new_token : Address)
  | RReset (admin : Address)
  | RPropose (admin : Address) (ty : CooldownActionType) (data : bytes)
  | RAdvance (admin : Address) (n : Z)
  | RExecute (admin : Address) (n : Z)
  | RCancel (admin : Address) (n : Z)
  | RConfigure (admin : Address) (n seconds : Z) (desc : bytes).

Definition run_splitter (i : env) (s : DataKey) (x : splitter_call) : V DataKey :=
  match x with
  | RInitialize admin token => initialize s admin token
  | RAdd admin r sh => add_recipient i s admin r sh
  | RRemove admin r => remove_recipient i s admin r
  | RUpdate admin r sh => update_recipient_share i s admin r sh
  | RTransferAdmin admin a => transfer_admin i s admin a
  | RUpdateToken admin t => update_token i s admin t
  | RReset admin => reset_parameters i s admin
  | RPropose admin ty data => r ← propose_action i s admin ty data; mret r.1
  | RAdvance admin n => advance_action i s admin n
  | RExecute admin n => execute_action parse i s admin n
  | RCancel admin n => cancel_action i s admin n
  | RConfigure admin n seconds desc => configure_cooldown_stage i s admin n seconds desc
  end.

(** Calls at growing ledger times, each under a condition [P]. *)
Inductive splitter_history (P : DataKey -> splitter_call -> Prop) : Z -> DataKey -> Prop :=
  | splitter_start t : splitter_history P t empty_storage
  | splitter_next t s i x s' :
      splitter_history P t s -> t <= timestamp i -> P s x -> run_splitter i s x = Ok s' -> splitter_history P (timestamp i) s'.

(** Shares are values of [u32], and nobody is added twice. *)
Definition distinct_adds (s : DataKey) (x : splitter_call) : Prop :=
  match x with
  | RAdd _ r sh => 0 <= sh /\ r ∉ address <$> get_recipients s
  | RUpdate _ _ sh => 0 <= sh
  | _ => True
  end.

(** The cooldowns are left as they were initialised. *)
Definition default_stages (s : DataKey) (x : splitter_call) : Prop :=
  match x with RConfigure _ _ _ _ => False | _ => True end.

(** ** Shares *)
Definition shares (rs : list Recipient) : Z := zsum (share <$> rs).

Record shares_ok (s : DataKey) : Prop := {
  sk_nodup : NoDup (address <$> get_recipients s);
  sk_range : Forall (fun r => 0 < share r <= 10000) (get_recipients s);
  sk_total : get_total_shares s = shares (get_recipients s);
  sk_cap : shares (get_recipients s) <= 10000
}.

Lemma shares_ok_intro (s : DataKey) (rs : list Recipient) :
  Recipients s = Some rs -> TotalShares s = Some (shares rs) -> NoDup (address <$> rs) ->
  Forall (fun r => 0 < share r <= 10000) rs -> shares rs <= 10000 -> shares_ok s.
Proof. intros E1 E2 H1 H2 H3. split; unfold get_recipients, get_total_shares; rewrite ?E1, ?E2; done. Qed.

Lemma shares_nonneg (rs : list Recipient) : Forall (fun r => 0 < share r <= 10000) rs -> 0 <= shares rs.
Proof. induction 1 as [|r rs Hr _ IH]; [done|]. change (0 <= share r + shares rs). lia. Qed.

Lemma shares_cons (r : Recipient) (rs : list Recipient) : shares (r :: rs) = share r + shares rs.
Proof. done. Qed.

Lemma require_admin_step (i : env) (s : DataKey) (admin : Address) (u : unit) :
  require_admin i s admin = Ok u -> auth i admin = true /\ Admin s = Some admin.
Proof.
  intros Hr. apply bind_Ok in Hr as ([] & Ha%require_auth_Ok & Hr). apply bind_Ok in Hr as (a & Hs%unwrap_Ok & Hr).
  apply fail_if_Ok, bool_decide_eq_false, dec_stable in Hr as ->. done.
Qed.

Lemma same_shares (s s' : DataKey) :
  Recipients s' = Recipients s -> TotalShares s' = TotalShares s -> shares_ok s -> shares_ok s'.
Proof. intros E1 E2 [H1 H2 H3 H4]. unfold get_recipients, get_total_shares in *. split; unfold get_recipients, get_total_shares; by rewrite E1, ?E2. Qed.

Lemma add_shares (i : env) (s s' : DataKey) (admin r : Address) (sh : Z) :
  shares_ok s -> 0 <= sh -> r ∉ address <$> get_recipients s -> add_recipient i s admin r sh = Ok s' -> shares_ok s'.
Proof.
  intros [H1 H2 H3 H4] Hsh Hn Hr. unfold add_recipient in Hr. apply bind_Ok in Hr as (u & _ & Hr).
  apply bind_Ok in Hr as ([] & [Hs1%Z.eqb_neq Hs2%Z.ltb_ge]%fail_if_Ok%orb_false_iff & Hr).
  apply bind_Ok in Hr as (sum & [-> _]%iop_Ok & Hr). apply bind_Ok in Hr as ([] & Hc%fail_if_Ok%Z.ltb_ge & Hr).
  apply bind_Ok in Hr as (rs & [_ ->]%vpush_Ok & Hr). apply bind_Ok in Hr as (tot & [-> _]%iop_Ok & [= <-]).
  assert (shares (get_recipients s ++ [{| address := r; share := sh |}]) = shares (get_recipients s) + sh) as E.
  { unfold shares. rewrite fmap_app, zsum_app. cbn. lia. }
  apply (shares_ok_intro _ (get_recipients s ++ [{| address := r; share := sh |}])); [done|cbn; f_equal; lia| | |lia].
  - rewrite fmap_app. apply NoDup_app. split; [done|]. split; [|cbn; apply NoDup_singleton].
    intros a Ha Hb%list_elem_of_singleton. cbn in Hb. subst a. done.
  - apply Forall_app. split; [done|]. constructor; [cbn; lia|done].
Qed.

Lemma remove_loop_Ok (a : Address) (rs : list Recipient) (total total' : Z) (found found' : bool) (kept kept' : list Recipient) :
  Forall (fun r => 0 < share r <= 10000) rs ->
  remove_loop a rs total found kept = Ok (total', found', kept') ->
  kept' = kept ++ filter (fun r => address r <> a) rs /\ total' = total - shares rs + shares (filter (fun r => address r <> a) rs).
Proof.
  intros Hf. revert total found kept. induction Hf as [|r rs Hr Hf IH]; intros total found kept Hl.
  - injection Hl as <- <- <-. rewrite app_nil_r. split; [done|cbn; lia].
  - cbn [remove_loop] in Hl. rewrite filter_cons, shares_cons. case_bool_decide as Ha.
    + apply bind_Ok in Hl as (t & [-> _]%iop_Ok & Hl). apply IH in Hl as [-> ->]. rewrite decide_False by tauto. split; [done|lia].
    + apply bind_Ok in Hl as (k & [_ ->]%vpush_Ok & Hl). apply IH in Hl as [-> ->]. rewrite decide_True by done. rewrite shares_cons.
      split; [by rewrite <- app_assoc|lia].
Qed.

Lemma filter_shares (a : Address) (rs : list Recipient) :
  Forall (fun r => 0 < share r <= 10000) rs -> shares (filter (fun r => address r <> a) rs) <= shares rs.
Proof. induction 1 as [|r rs Hr _ IH]; [done|]. rewrite filter_cons, shares_cons. destruct (decide _); rewrite ?shares_cons; lia. Qed.

Lemma remove_shares (i : env) (s s' : DataKey) (admin r : Address) :
  shares_ok s -> remove_recipient i s admin r = Ok s' -> shares_ok s'.
Proof.
  intros Hok Hr. pose proof Hok as [H1 H2 H3 H4]. unfold remove_recipient in Hr. apply bind_Ok in Hr as (u & _ & Hr).
  apply bind_Ok in Hr as ([[total found] kept] & Hl & Hr). apply remove_loop_Ok in Hl as [-> ->]; [|done]. cbn [app] in Hr.
  destruct found; injection Hr as <-; [|done]. set (rs := filter _ _) in *.
  pose proof (filter_shares r _ H2) as Hle. fold rs in Hle.
  apply (shares_ok_intro _ rs); [done|cbn; f_equal; lia| | |lia].
  - eapply sublist_NoDup; [exact H1|]. apply fmap_sublist, sublist_filter.
  - apply Forall_forall. intros x [_ Hx]%list_elem_of_filter. by apply (proj1 (Forall_forall _ _) H2).
Qed.

Lemma with_share_cons (a : Address) (n : Z) (r : Recipient) (rs : list Recipient) :
  with_share a n (r :: rs) = (if bool_decide (address r = a) then {| address := a; share := n |} else r) :: with_share a n rs.
Proof. done. Qed.

Lemma old_share_cases (a : Address) (n : Z) (rs : list Recipient) :
  match old_share a rs with
  | None => (a ∉ (address <$> rs)) /\ with_share a n rs = rs
  | Some o => NoDup (address <$> rs) -> shares (with_share a n rs) = shares rs - o + n /\ (a ∈ (address <$> rs))
  end.
Proof.
  induction rs as [|r rs IH]; cbn [old_share]; [split; [by apply not_elem_of_nil|done]|].
  rewrite with_share_cons. cbn [fmap list_fmap]. case_bool_decide as Ha.
  - intros [Hn Hnd]%NoDup_cons. rewrite !shares_cons. cbn [share]. split; [|subst a; left].
    destruct (old_share a rs) as [o|]; [|destruct IH as [_ ->]; lia].
    destruct (IH Hnd) as [_ Hin]. subst a. done.
  - destruct (old_share a rs) as [o|].
    + intros [_ Hnd]%NoDup_cons. destruct (IH Hnd) as [E Hin]. split; [|by right]. rewrite !shares_cons, E. lia.
    + destruct IH as [Hn E]. split; [by apply not_elem_of_cons|]. by rewrite E.
Qed.

Lemma with_share_addresses (a : Address) (n : Z) (rs : list Recipient) : address <$> with_share a n rs = address <$> rs.
Proof. induction rs as [|r rs IH]; [done|]. rewrite with_share_cons. cbn [fmap list_fmap]. rewrite IH. case_bool_decide as Ha; [by rewrite <- Ha|done]. Qed.

Lemma update_shares (i : env) (s s' : DataKey) (admin r : Address) (n : Z) :
  shares_ok s -> 0 <= n -> update_recipient_share i s admin r n = Ok s' -> shares_ok s'.
Proof.
  intros Hok Hn Hr. pose proof Hok as [H1 H2 H3 H4]. unfold update_recipient_share in Hr. apply bind_Ok in Hr as (u & _ & Hr).
  apply bind_Ok in Hr as ([] & [Hs1%Z.eqb_neq Hs2%Z.ltb_ge]%fail_if_Ok%orb_false_iff & Hr).
  pose proof (old_share_cases r n (get_recipients s)) as Hc. destruct (old_share r (get_recipients s)) as [o|]; [|by injection Hr as <-].
  destruct (Hc H1) as [E _]. apply bind_Ok in Hr as (t & [-> _]%iop_Ok & Hr). apply bind_Ok in Hr as (t & [-> _]%iop_Ok & Hr).
  apply bind_Ok in Hr as ([] & Hcap%fail_if_Ok%Z.ltb_ge & [= <-]).
  apply (shares_ok_intro _ (with_share r n (get_recipients s))); [done|cbn; f_equal; lia| | |lia].
  - by rewrite with_share_addresses.
  - unfold with_share. apply Forall_fmap. eapply Forall_impl; [exact H2|]. intros x Hx. cbn. case_bool_decide; [cbn; lia|done].
Qed.

Lemma empty_shares (s : DataKey) : Recipients s = Some [] -> TotalShares s = Some 0 -> shares_ok s.
Proof. intros E1 E2. apply (shares_ok_intro _ []); [done|done|by apply NoDup_nil_2|done|done]. Qed.

Lemma reset_shares (s s' : DataKey) : reset_parameters_internal s = Ok s' -> shares_ok s'.
Proof.
  intros Hr. apply bind_Ok in Hr as (a & _ & Hr). apply bind_Ok in Hr as (t & _ & [= <-]). by apply empty_shares.
Qed.

Lemma splitter_shares_step (i : env) (s s' : DataKey) (x : splitter_call) :
  shares_ok s -> distinct_adds s x -> run_splitter i s x = Ok s' -> shares_ok s'.
Proof.
  intros Hok HP Hr. destruct x as [admin token|admin r sh|admin r|admin r sh|admin a|admin t|admin|admin ty d|admin n|admin n|admin n|admin n sec d]; cbn [run_splitter distinct_adds] in *.
  - apply bind_Ok in Hr as ([] & _ & [= <-]). by apply empty_shares.
  - by apply (add_shares i s s' admin r sh Hok (proj1 HP) (proj2 HP)).
  - by apply (remove_shares i s s' admin r).
  - by apply (update_shares i s s' admin r sh).
  - apply bind_Ok in Hr as (u & _ & [= <-]). by apply (same_shares s).
  - apply bind_Ok in Hr as (u & _ & [= <-]). by apply (same_shares s).
  - apply bind_Ok in Hr as (u & _ & Hr). by apply (reset_shares s).
  - apply bind_Ok in Hr as ([s1 n] & Hr & [= <-]). apply bind_Ok in Hr as (u & _ & [= <- _]). by apply (same_shares s).
  - apply bind_Ok in Hr as (u & _ & Hr). apply bind_Ok in Hr as (a & _ & Hr). apply bind_Ok in Hr as ([] & _ & Hr).
    apply bind_Ok in Hr as (st & _ & Hr). apply bind_Ok in Hr as (e & _ & Hr). apply bind_Ok in Hr as ([] & _ & Hr).
    apply bind_Ok in Hr as (m & _ & [= <-]). by apply (same_shares s).
  - apply bind_Ok in Hr as (u & _ & Hr). apply bind_Ok in Hr as (a & _ & Hr). apply bind_Ok in Hr as ([] & _ & Hr).
    apply bind_Ok in Hr as (s1 & Hs1 & [= <-]). assert (shares_ok s1) as Hok1; [|by apply (same_shares s1)].
    destruct (action_type a); [|by apply (reset_shares s)|by injection Hs1 as <-].
    apply bind_Ok in Hs1 as (t & _ & [= <-]). by apply (same_shares s).
  - apply bind_Ok in Hr as (u & _ & Hr). apply bind_Ok in Hr as (a & _ & [= <-]). by apply (same_shares s).
  - apply bind_Ok in Hr as (u & _ & Hr). apply bind_Ok in Hr as ([] & _ & [= <-]). by apply (same_shares s).
Qed.

Lemma splitter_shares (t : Z) (s : DataKey) : splitter_history distinct_adds t s -> shares_ok s.
Proof.
  induction 1 as [t|t s i x s' _ IH _ HP Hr]; [|by apply (splitter_shares_step i s s' x)].
  split; cbn; unfold Datatypes.id; try done. by apply NoDup_nil_2.
Qed.

(** ** Distributions *)
Definition portion (amount total : Z) (r : Recipient) : Z := amount * share r / total.

(** What an address gets: its portions, each time it is listed. *)
Definition gains (amount total : Z) (rs : list Recipient) (a : Address) : Z :=
  zsum (portion amount total <$> filter (fun r => address r = a) rs).

Definition paid (amount total : Z) (rs : list Recipient) : Z := zsum (portion amount total <$> rs).

Lemma gains_cons (amount total : Z) (r : Recipient) (rs : list Recipient) (a : Address) :
  gains amount total (r :: rs) a = (if decide (address r = a) then portion amount total r else 0) + gains amount total rs a.
Proof. unfold gains. rewrite filter_cons. by destruct (decide _). Qed.

Lemma pay_loop_Ok (l l' : Ledger) (token self : Address) (amount total : Z) (rs : list Recipient) :
  0 < amount -> 0 < total -> Forall (fun r => 0 < share r <= 10000 /\ address r <> self) rs ->
  pay_loop l token self amount total rs = Ok l' ->
  forall t a, balance l' t a = balance l t a +
    if decide (t = token) then if decide (a = self) then - paid amount total rs else gains amount total rs a else 0.
Proof.
  intros Ha Ht Hf. revert l. induction Hf as [|r rs [Hs Hne] Hf IH]; intros l Hl t a.
  - injection Hl as <-. destruct (decide _); [|lia]. destruct (decide _); cbn; lia.
  - cbn [pay_loop] in Hl. apply bind_Ok in Hl as (p & [-> _]%iop_Ok & Hl). apply bind_Ok in Hl as (q & Hq & Hl).
    unfold idiv in Hq. rewrite (proj2 (Z.eqb_neq total 0)) in Hq by lia. apply iop_Ok in Hq as [-> _]. rewrite Z.quot_div_nonneg in Hl by nia.
    fold (portion amount total r) in Hl. apply bind_Ok in Hl as (l1 & Hl1 & Hl). rewrite (IH l1 Hl t a), gains_cons.
    change (paid amount total (r :: rs)) with (portion amount total r + paid amount total rs).
    assert (0 <= portion amount total r) as Hp by (apply Z.div_pos; nia).
    assert (balance l1 t a = balance l t a - at_account token self t a (portion amount total r) + at_account token (address r) t a (portion amount total r)) as ->.
    { destruct (Z.ltb_spec 0 (portion amount total r)).
      - apply unwrap_Ok, transfer_spec in Hl1 as [_ Hb]. apply Hb.
      - injection Hl1 as <-. unfold at_account. assert (portion amount total r = 0) as -> by lia. repeat case_decide; lia. }
    unfold at_account. destruct (decide (t = token)) as [->|]; [|repeat case_decide; naive_solver lia].
    destruct (decide (a = self)) as [->|Hd].
    + rewrite (decide_True (P := token = token /\ self = self)), (decide_False (P := token = token /\ self = address r)) by naive_solver. lia.
    + rewrite (decide_False (P := token = token /\ a = self)) by tauto.
      destruct (decide (address r = a)) as [<-|]; [rewrite decide_True by done|rewrite decide_False by naive_solver]; lia.
Qed.

Lemma distribute_Ok (i : env) (s : DataKey) (l l' : Ledger) (amount : Z) :
  distribute i s l amount = Ok l' ->
  exists token, Token s = Some token /\ 0 < amount <= balance l token (current_contract i) /\ get_recipients s <> [] /\
    get_total_shares s <> 0 /\ pay_loop l token (current_contract i) amount (get_total_shares s) (get_recipients s) = Ok l'.
Proof.
  intros Hr. unfold distribute in Hr. apply bind_Ok in Hr as ([] & Ha%fail_if_Ok%Z.leb_gt & Hr). apply bind_Ok in Hr as (token & Ht%ok_or_Ok & Hr).
  apply bind_Ok in Hr as ([] & Hn%fail_if_Ok%bool_decide_eq_false & Hr). apply bind_Ok in Hr as ([] & Hz%fail_if_Ok%Z.eqb_neq & Hr).
  apply bind_Ok in Hr as ([] & Hb%fail_if_Ok%Z.ltb_ge & Hr). by exists token.
Qed.

(** Rounding loses less than one unit per recipient. *)
Lemma paid_bounds (amount total : Z) (rs : list Recipient) :
  0 < total -> paid amount total rs * total <= amount * shares rs <= paid amount total rs * total + (total - 1) * len rs.
Proof.
  intros Ht. induction rs as [|r rs IH]; [cbn; unfold len; cbn; lia|].
  change (paid amount total (r :: rs)) with (portion amount total r + paid amount total rs). rewrite shares_cons.
  assert (len (r :: rs) = len rs + 1) as -> by (unfold len; cbn [length]; lia). unfold portion.
  pose proof (Z.mul_div_le (amount * share r) total Ht). pose proof (Z.mul_succ_div_gt (amount * share r) total Ht). lia.
Qed.

Lemma gains_absent (amount total : Z) (rs : list Recipient) (a : Address) :
  a ∉ (address <$> rs) -> gains amount total rs a = 0.
Proof.
  induction rs as [|x rs IH]; [done|]. cbn [fmap list_fmap]. intros [Hx Hn]%not_elem_of_cons.
  rewrite gains_cons, decide_False by congruence. by rewrite IH.
Qed.

Lemma gains_once (amount total : Z) (rs : list Recipient) (r : Recipient) :
  NoDup (address <$> rs) -> r ∈ rs -> gains amount total rs (address r) = portion amount total r.
Proof.
  induction rs as [|x rs IH]; [by intros _ ?%elem_of_nil|]. cbn [fmap list_fmap]. intros [Hn Hnd]%NoDup_cons. rewrite gains_cons.
  intros [->|Hr]%elem_of_cons.
  - rewrite decide_True, gains_absent by done. lia.
  - rewrite decide_False; [rewrite IH by done; lia|]. intros E. apply Hn. rewrite E. by apply list_elem_of_fmap_2.
Qed.

(** C10: What a distribution pays. Over any history in which nobody is added twice, the total
    is the sum of the shares, at most 10000, and a distribution that returns pays every
    recipient its share of the amount, rounded down, and nobody else; the contract pays
    at most the amount and keeps less than one unit per recipient of it. *)
Theorem distribution_exact (now : Z) (s : DataKey) (i : env) (l l' : Ledger) (amount : Z) :
  splitter_history distinct_adds now s -> Forall (fun r => address r <> current_contract i) (get_recipients s) ->
  distribute i s l amount = Ok l' ->
  let total := zsum (share <$> get_recipients s) in
  get_total_shares s = total /\ total <= 10000 /\
  exists token out, Token s = Some token /\
    (forall r, r ∈ get_recipients s -> balance l' token (address r) = balance l token (address r) + amount * share r / total) /\
    balance l' token (current_contract i) = balance l token (current_contract i) - out /\
    amount - len (get_recipients s) < out <= amount /\
    (forall t a, t <> token \/ a <> current_contract i /\ a ∉ (address <$> get_recipients s) -> balance l' t a = balance l t a).
Proof.
  intros [H1 H2 H3 H4]%splitter_shares Hself (token & Ht & [Ha _] & Hne & Hz & Hp)%distribute_Ok total.
  fold (shares (get_recipients s)) in total. rewrite H3 in Hz, Hp. fold total in Hz, Hp. pose proof (shares_nonneg _ H2) as Hnn. fold total in Hnn.
  split; [done|]. split; [done|]. exists token, (paid amount total (get_recipients s)). split; [done|].
  pose proof (pay_loop_Ok l l' token (current_contract i) amount total (get_recipients s) Ha ltac:(lia)) as Hb.
  assert (Forall (fun r => 0 < share r <= 10000 /\ address r <> current_contract i) (get_recipients s)) as Hf by (apply Forall_and; done).
  specialize (Hb Hf Hp). split_and!.
  - intros r Hr. rewrite Hb, decide_True, decide_False, gains_once by (done || by apply (proj1 (Forall_forall _ _) Hself)). done.
  - rewrite Hb, !decide_True by done. lia.
  - pose proof (paid_bounds amount total (get_recipients s) ltac:(lia)) as Hpb. change (shares (get_recipients s)) with total in Hpb.
    assert (0 < len (get_recipients s)) by (unfold len; destruct (get_recipients s); [done|cbn [length]; lia]). nia.
  - pose proof (paid_bounds amount total (get_recipients s) ltac:(lia)) as Hpb. change (shares (get_recipients s)) with total in Hpb. nia.
  - intros t a Hcase. rewrite Hb. destruct (decide (t = token)) as [->|]; [|lia]. destruct Hcase as [|[Hs Hn]]; [done|].
    rewrite decide_False, gains_absent by done. lia.
Qed.

(** A recipient listed twice breaks the books. With the shares a and b of one address
    listed twice and the total a + b, setting its share to n > b is accepted as long as
    b + n stays within 10000, and sets the total to b + n while both entries hold n. A
    distribution of any multiple of the new total then pays the address more than the
    amount to be distributed, taking the rest from the contract's other funds, and the
    recipient can no longer be removed: the subtraction of its shares traps. *)
Theorem repeated_recipient_overpaid (s : DataKey) (i : env) (admin who : Address) (a b n : Z) :
  require_admin i s admin = Ok tt -> get_recipients s = [ {| address := who; share := a |}; {| address := who; share := b |} ] ->
  get_total_shares s = a + b -> 0 < a -> 0 < b < n -> b + n <= 10000 -> who <> current_contract i ->
  exists s', update_recipient_share i s admin who n = Ok s' /\ get_total_shares s' = b + n /\
    zsum (share <$> get_recipients s') = 2 * n /\ b + n < 2 * n /\
    (forall l l' k token, Token s = Some token -> distribute i s' l (k * (b + n)) = Ok l' ->
       balance l' token who = balance l token who + 2 * (k * n) /\ k * (b + n) < 2 * (k * n)) /\
    remove_recipient i s' admin who = Panic.
Proof.
  intros Hadm Hrs Htot Ha Hb Hn Hself. unfold update_recipient_share. rewrite Hadm, bind_ret.
  rewrite (proj2 (Z.eqb_neq n 0)), (proj2 (Z.ltb_ge 10000 n)) by lia. cbn [orb fail_if]. rewrite bind_ret, Hrs, Htot. cbn [old_share address share].
  rewrite bool_decide_eq_true_2 by done. unfold isub, iadd. rewrite (iop_in U32 (a + b - a)) by (cbn [imin imax]; lia). rewrite bind_ret.
  rewrite (iop_in U32 (a + b - a + n)) by (cbn [imin imax]; lia). rewrite bind_ret, (proj2 (Z.ltb_ge 10000 _)) by lia. cbn [fail_if]. rewrite bind_ret.
  set (rs := with_share who n _).
  assert (rs = [ {| address := who; share := n |}; {| address := who; share := n |} ]) as Ers by (unfold rs; cbn; by rewrite bool_decide_eq_true_2).
  set (s' := set_recipients s rs (a + b - a + n)). exists s'. split; [done|].
  assert (get_total_shares s' = b + n) as Et by (unfold get_total_shares; cbn; unfold Datatypes.id; lia).
  assert (get_recipients s' = rs) as Er by done.
  split; [done|]. split; [rewrite Er, Ers; cbn; lia|]. split; [lia|]. split.
  - intros l l' k token Htk (tok & Htk' & [Hk _] & _ & _ & Hp)%distribute_Ok. assert (tok = token) as -> by (cbn in Htk'; congruence).
    rewrite Et, Er, Ers in Hp. apply (pay_loop_Ok l l' token (current_contract i)) with (t := token) (a := who) in Hp; [|done|lia|].
    2: { repeat constructor; cbn; lia || done. }
    rewrite Hp, decide_True, decide_False by done. rewrite !gains_cons. cbn [address]. rewrite !decide_True by done.
    unfold portion. cbn [share]. replace (k * (b + n) * n) with (k * n * (b + n)) by ring. rewrite Z.div_mul by lia. cbn. split; [lia|nia].
  - unfold remove_recipient. assert (require_admin i s' admin = Ok tt) as -> by exact Hadm. rewrite bind_ret, Er, Ers, Et. cbn [remove_loop address share].
    rewrite bool_decide_eq_true_2 by done. unfold isub. rewrite (iop_in U32 (b + n - n)) by (cbn [imin imax]; lia). rewrite bind_ret.
    unfold iop, fits. rewrite (proj2 (Z.leb_gt (imin U32) _)) by (cbn [imin]; lia). done.
Qed.

(** ** The gateway *)
Definition default_cooldown (n : Z) : Z := if n =? 1 then STAGE_1_COOLDOWN else if n =? 2 then STAGE_2_COOLDOWN else STAGE_3_COOLDOWN.

Record gate_ok (now : Z) (s : DataKey) : Prop := {
  gk_stages : forall n st, Stages s !! n = Some st -> cooldown_seconds st = default_cooldown n;
  gk_actions : forall n a, Actions s !! n = Some a ->
    (current_stage a = 4 -> proposed_at a + STAGE_3_COOLDOWN <= now) /\ current_stage a <= 4 /\ (executed a = true -> current_stage a = 4)
}.

Lemma gate_later (now now' : Z) (s : DataKey) : now <= now' -> gate_ok now s -> gate_ok now' s.
Proof.
  intros Hle [H1 H2]. split; [done|]. intros n a Ha. destruct (H2 n a Ha) as (E1 & E2 & E3). split_and!; try done. intros E. specialize (E1 E). lia.
Qed.

Lemma gate_same (now : Z) (s s' : DataKey) : Stages s' = Stages s -> Actions s' = Actions s -> gate_ok now s -> gate_ok now s'.
Proof. intros E1 E2 [H1 H2]. split; [by rewrite E1|by rewrite E2]. Qed.

Lemma gate_set (now : Z) (s : DataKey) (n : Z) (a : CooldownAction) :
  gate_ok now s -> (current_stage a = 4 -> proposed_at a + STAGE_3_COOLDOWN <= now) -> current_stage a <= 4 ->
  (executed a = true -> current_stage a = 4) -> gate_ok now (set_action s n a).
Proof. intros [H1 H2] A1 A2 A3. split; [done|]. intros m b. cbn. intros [[<- <-]|[_ Hb]]%lookup_insert_Some; [done|by apply (H2 m)]. Qed.

Lemma open_action_Ok (s : DataKey) (n : Z) (a : CooldownAction) :
  open_action s n = Ok a -> Actions s !! n = Some a /\ executed a = false /\ cancelled a = false.
Proof.
  intros Hr. apply bind_Ok in Hr as (b & Hb%ok_or_Ok & Hr). apply bind_Ok in Hr as ([] & He%fail_if_Ok & Hr).
  apply bind_Ok in Hr as ([] & Hc%fail_if_Ok & [= <-]). done.
Qed.

Lemma gate_step (now : Z) (i : env) (s s' : DataKey) (x : splitter_call) :
  gate_ok now s -> now <= timestamp i -> default_stages s x -> run_splitter i s x = Ok s' -> gate_ok (timestamp i) s'.
Proof.
  intros Hok Hnow HP Hr. apply (gate_later now (timestamp i)) in Hok; [|done].
  destruct x as [admin token|admin r sh|admin r|admin r sh|admin a|admin t|admin|admin ty d|admin n|admin n|admin n|admin n sec d]; cbn [run_splitter default_stages] in *; try done.
  - apply bind_Ok in Hr as ([] & _ & [= <-]). destruct Hok as [H1 H2]. split; [|done]. intros n st. cbn.
    intros [[<- <-]|[_ [[<- <-]|[_ [[<- <-]|[_ Hs]]%lookup_insert_Some]]%lookup_insert_Some]]%lookup_insert_Some; [done..|by apply H1].
  - apply bind_Ok in Hr as (u & _ & Hr). do 4 (apply bind_Ok in Hr as (? & _ & Hr)). apply bind_Ok in Hr as (? & _ & [= <-]). by apply (gate_same _ s).
  - apply bind_Ok in Hr as (u & _ & Hr). apply bind_Ok in Hr as ([[tot fd] kept] & _ & Hr). destruct fd; injection Hr as <-; [by apply (gate_same _ s)|done].
  - apply bind_Ok in Hr as (u & _ & Hr). apply bind_Ok in Hr as (? & _ & Hr). cbn zeta in Hr; destruct (old_share r (get_recipients s)); [|by injection Hr as <-].
    do 2 (apply bind_Ok in Hr as (? & _ & Hr)). apply bind_Ok in Hr as (? & _ & [= <-]). by apply (gate_same _ s).
  - apply bind_Ok in Hr as (u & _ & [= <-]). by apply (gate_same _ s).
  - apply bind_Ok in Hr as (u & _ & [= <-]). by apply (gate_same _ s).
  - apply bind_Ok in Hr as (u & _ & Hr). do 2 (apply bind_Ok in Hr as (? & _ & Hr)). injection Hr as <-. by apply (gate_same _ s).
  - apply bind_Ok in Hr as ([s1 n] & Hr & [= <-]). apply bind_Ok in Hr as (u & _ & [= <- _]). by apply gate_set.
  - apply bind_Ok in Hr as (u & _ & Hr). apply bind_Ok in Hr as (a & (Ha & He & _)%open_action_Ok & Hr).
    apply bind_Ok in Hr as ([] & H3%fail_if_Ok%Z.ltb_ge & Hr). apply bind_Ok in Hr as (st & Hst%ok_or_Ok & Hr).
    apply bind_Ok in Hr as (e & [-> _]%iop_Ok & Hr). apply bind_Ok in Hr as ([] & Hc%fail_if_Ok%Z.ltb_ge & Hr).
    apply bind_Ok in Hr as (m & [-> _]%iop_Ok & [= <-]). apply gate_set; cbn; [done| |lia|by rewrite He].
    intros E. assert (current_stage a = 3) as E3 by lia. rewrite (gk_stages _ _ Hok _ _ Hst), E3 in Hc. exact Hc.
  - apply bind_Ok in Hr as (u & _ & Hr). apply bind_Ok in Hr as (a & (Ha & He & _)%open_action_Ok & Hr).
    apply bind_Ok in Hr as ([] & H4%fail_if_Ok%Z.ltb_ge & Hr). apply bind_Ok in Hr as (s1 & Hs1 & [= <-]).
    destruct (gk_actions _ _ Hok n a Ha) as (E1 & E2 & _). apply gate_set; cbn; [|done|done|lia].
    destruct (action_type a); [|do 2 (apply bind_Ok in Hs1 as (? & _ & Hs1)); injection Hs1 as <-; by apply (gate_same _ s)|by injection Hs1 as <-].
    apply bind_Ok in Hs1 as (t & _ & [= <-]). by apply (gate_same _ s).
  - apply bind_Ok in Hr as (u & _ & Hr). apply bind_Ok in Hr as (a & (Ha & He & _)%open_action_Ok & [= <-]).
    destruct (gk_actions _ _ Hok n a Ha) as (E1 & E2 & E3). by apply gate_set.
Qed.

Lemma gate_history (now : Z) (s : DataKey) : splitter_history default_stages now s -> gate_ok now s.
Proof. induction 1 as [t|t s i x s' _ IH Ht HP Hr]; [done|]. by apply (gate_step t i s s' x). Qed.

(** The gateway makes an action wait a day, and nothing has to go through it. While the
    cooldowns are left as initialised, an action is only ever executed a full day after
    its proposal; the three cooldowns run at the same time, not one after the other. In
    the same states the admin changes the token, or resets the contract, in one call at
    any time, with the effect the executed action would have. *)
Theorem gateway_waits_a_day (now : Z) (s : DataKey) :
  splitter_history default_stages now s ->
  (forall n a, get_action s n = Some a -> executed a = true -> proposed_at a + 86400 <= now) /\
  (forall i admin n s' a, now <= timestamp i -> execute_action parse i s admin n = Ok s' -> get_action s n = Some a ->
     proposed_at a + 86400 <= timestamp i) /\
  (forall i admin token, auth i admin = true -> Admin s = Some admin ->
     update_token i s admin token = Ok (set_keys s (Some admin) (Some token)) /\
     reset_parameters i s admin = reset_parameters_internal s).
Proof.
  intros Hok%gate_history. split_and!.
  - intros n a Ha He. destruct (gk_actions _ _ Hok n a Ha) as (E1 & _ & E3). by apply E1, E3.
  - intros i admin n s' a Hnow Hr Ha. apply bind_Ok in Hr as (u & _ & Hr). apply bind_Ok in Hr as (b & (Hb & _ & _)%open_action_Ok & Hr).
    assert (b = a) as -> by (unfold get_action in Ha; congruence). apply bind_Ok in Hr as ([] & H4%fail_if_Ok%Z.ltb_ge & _).
    destruct (gk_actions _ _ Hok n a Hb) as (E1 & E2 & _). specialize (E1 ltac:(lia)). unfold STAGE_3_COOLDOWN in E1. lia.
  - intros i admin token Hau Hadm.
    assert (require_admin i s admin = Ok tt) as E.
    { unfold require_admin, require_auth. rewrite Hau, bind_ret, Hadm. cbn [unwrap]. rewrite bind_ret, bool_decide_eq_false_2 by tauto. done. }
    unfold update_token, reset_parameters. rewrite E, !bind_ret, Hadm. done.
Qed.
End claims.

Section witnesses.
#[local] Existing Instance test_host.

#[local] Instance splitter_tokens : Tokens test_host := map_tokens test_host.
#[local] Instance splitter_token_laws : TokenLaws test_host splitter_tokens := map_token_laws test_host.

Definition splitter_at (now : Z) : env := @Build_env test_host (fun a => Z.eqb a 2) 1 now.
Definition splitter_parse (_ : bytes) : option Address := Some 101.
Definition splitter_ledger : gmap (Address * Address) Z := {[ (100, 1) := 1000 ]}.

Fixpoint run_splitters (s : DataKey) (cs : list (Z * splitter_call)) : V DataKey :=
  match cs with
  | [] => mret s
  | (now, x) :: cs => s' ← run_splitter splitter_parse (splitter_at now) s x; run_splitters s' cs
  end.

(** Each condition, as a boolean, on the states a list of calls goes through. *)
Fixpoint checked_splitters (p : DataKey -> splitter_call -> bool) (t : Z) (s : DataKey) (cs : list (Z * splitter_call)) : bool :=
  match cs with
  | [] => true
  | (now, x) :: cs =>
      (t <=? now) && p s x &&
      match run_splitter splitter_parse (splitter_at now) s x with Ok s' => checked_splitters p now s' cs | _ => false end
  end.

Definition last_time (t : Z) (cs : list (Z * splitter_call)) : Z := default t (fst <$> last cs).

Definition distinct_add (s : DataKey) (x : splitter_call) : bool :=
  match x with
  | RAdd _ r sh => (0 <=? sh) && forallb (fun q => negb (Z.eqb (address q) r)) (get_recipients s)
  | RUpdate _ _ sh => 0 <=? sh
  | _ => true
  end.

Lemma distinct_add_ok (s : DataKey) (x : splitter_call) : distinct_add s x = true -> distinct_adds s x.
Proof.
  destruct x as [| a r sh| | a r sh| | | | | | | |]; try done; cbn; [|by intros ?%Z.leb_le].
  intros [Hs%Z.leb_le Hn]%andb_true_iff. split; [done|]. intros (q & -> & Hq%list_elem_of_In)%list_elem_of_fmap.
  pose proof (proj1 (forallb_forall _ _) Hn q Hq) as E%negb_true_iff%Z.eqb_neq. done.
Qed.

Definition default_stage (s : DataKey) (x : splitter_call) : bool := match x with RConfigure _ _ _ _ => false | _ => true end.

Lemma default_stage_ok (s : DataKey) (x : splitter_call) : default_stage s x = true -> default_stages s x.
Proof. by destruct x. Qed.

Lemma run_splitters_history (P : DataKey -> splitter_call -> Prop) (p : DataKey -> splitter_call -> bool) (t : Z) (s s' : DataKey)
    (cs : list (Z * splitter_call)) :
  (forall s x, p s x = true -> P s x) -> splitter_history splitter_parse P t s -> checked_splitters p t s cs = true ->
  run_splitters s cs = Ok s' -> splitter_history splitter_parse P (last_time t cs) s'.
Proof.
  intros Hp. revert t s. induction cs as [|[now x] cs IH]; intros t s Hs Hc Hr; [by injection Hr as <-|].
  cbn [checked_splitters run_splitters] in *. apply andb_true_iff in Hc as [[Ht%Z.leb_le Hx]%andb_true_iff Hc].
  apply bind_Ok in Hr as (s1 & Hs1 & Hr). rewrite Hs1 in Hc.
  assert (last_time t ((now, x) :: cs) = last_time now cs) as -> by (unfold last_time; destruct cs as [|c cs]; [done|]; change (last ((now, x) :: c :: cs)) with (last (c :: cs)); destruct (last (c :: cs)) eqn:El; [done|]; by apply last_None in El).
  apply (IH now s1); [|done|done]. apply (splitter_next splitter_parse P t s (splitter_at now) x s1); [done|done|by apply Hp|done].
Qed.

Definition splitter_calls : list (Z * splitter_call) :=
  [(10, RInitialize 2 100); (20, RAdd 2 5 3333); (30, RAdd 2 6 6667); (40, RUpdate 2 6 5000);
   (100, RPropose 2 UpdateToken [65]); (90000, RAdvance 2 100); (90000, RAdvance 2 100); (90000, RAdvance 2 100)].

Definition splitter_state : DataKey := match run_splitters empty_storage splitter_calls with Ok s => s | _ => empty_storage end.

Lemma splitter_state_run : run_splitters empty_storage splitter_calls = Ok splitter_state.
Proof. unfold splitter_state. destruct (is_ok_Ok (run_splitters empty_storage splitter_calls)) as [s ->]; [vm_compute; reflexivity|done]. Qed.

Lemma splitter_state_distinct : splitter_history splitter_parse distinct_adds 90000 splitter_state.
Proof.
  apply (run_splitters_history distinct_adds distinct_add 0 empty_storage splitter_state splitter_calls distinct_add_ok); [constructor|vm_compute; reflexivity|exact splitter_state_run].
Qed.

Lemma splitter_state_default : splitter_history splitter_parse default_stages 90000 splitter_state.
Proof.
  apply (run_splitters_history default_stages default_stage 0 empty_storage splitter_state splitter_calls default_stage_ok); [constructor|vm_compute; reflexivity|exact splitter_state_run].
Qed.

Lemma splitter_state_others : Forall (fun r => address r <> 1) (get_recipients splitter_state).
Proof.
  apply Forall_forall. intros x Hx%list_elem_of_In.
  assert (forallb (fun x => negb (Z.eqb (address x) 1)) (get_recipients splitter_state) = true) as E by (vm_compute; reflexivity).
  apply Z.eqb_neq, negb_true_iff. exact (proj1 (forallb_forall _ _) E x Hx).
Qed.

Lemma distribution_exact_witness :
  exists l, distribute (T := splitter_tokens) (splitter_at 90000) splitter_state splitter_ledger 100 = Ok l /\
    get_total_shares splitter_state = 8333 /\ zsum (share <$> get_recipients splitter_state) <= 10000.
Proof.
  destruct (is_ok_Ok (distribute (T := splitter_tokens) (splitter_at 90000) splitter_state splitter_ledger 100)) as [l E]; [vm_compute; reflexivity|].
  exists l. split; [exact E|]. split; [vm_compute; reflexivity|].
  pose proof (distribution_exact (H := test_host) (T := splitter_tokens) splitter_parse 90000 splitter_state (splitter_at 90000) splitter_ledger l 100
    splitter_state_distinct splitter_state_others E) as (_ & Hc & _). exact Hc.
Defined.

Definition twice_calls : list (Z * splitter_call) := [(10, RInitialize 2 100); (20, RAdd 2 5 1000); (30, RAdd 2 5 2000)].
Definition twice_state : DataKey := match run_splitters empty_storage twice_calls with Ok s => s | _ => empty_storage end.

Definition is_pair (rs : list (@Recipient test_host)) (a x b y : Z) : bool :=
  match rs with [r; q] => (Z.eqb (address r) a && (share r =? x)) && (Z.eqb (address q) b && (share q =? y)) | _ => false end.

Lemma is_pair_eq (rs : list (@Recipient test_host)) (a x b y : Z) :
  is_pair rs a x b y = true -> rs = [ @Build_Recipient test_host a x; @Build_Recipient test_host b y ].
Proof.
  destruct rs as [|[ra rx] [|[qa qx] [|]]]; try done. cbn.
  intros [[->%Z.eqb_eq ->%Z.eqb_eq]%andb_true_iff [->%Z.eqb_eq ->%Z.eqb_eq]%andb_true_iff]%andb_true_iff. done.
Qed.

Lemma twice_recipients : get_recipients twice_state = [ @Build_Recipient test_host 5 1000; @Build_Recipient test_host 5 2000 ].
Proof. apply is_pair_eq. vm_compute. reflexivity. Qed.

Lemma repeated_recipient_overpaid_witness :
  get_total_shares twice_state = 3000 /\
  exists s', update_recipient_share (splitter_at 40) twice_state 2 5 3000 = Ok s' /\ remove_recipient (splitter_at 40) s' 2 5 = Panic.
Proof.
  split; [vm_compute; reflexivity|].
  assert (require_admin (splitter_at 40) twice_state 2 = Ok tt) as Ha by (vm_compute; reflexivity).
  destruct (repeated_recipient_overpaid (H := test_host) (T := splitter_tokens) twice_state (splitter_at 40) 2 5 1000 2000 3000 Ha
    twice_recipients ltac:(vm_compute; reflexivity) ltac:(lia) ltac:(lia) ltac:(lia) ltac:(discriminate)) as (s' & Hu & _ & _ & _ & _ & Hp).
  exists s'. split; [exact Hu|exact Hp].
Defined.

Lemma gateway_waits_a_day_witness :
  exists s', execute_action splitter_parse (splitter_at 90000) splitter_state 2 100 = Ok s' /\ proposed_at (default {|
    action_id := 0; action_type := EmergencyStop; proposed_by := 0; current_stage := 1; proposed_at := 0; action_data := [];
    executed := false; cancelled := false |} (get_action splitter_state 100)) + 86400 <= 90000.
Proof.
  destruct (is_ok_Ok (execute_action splitter_parse (splitter_at 90000) splitter_state 2 100)) as [s' E]; [vm_compute; reflexivity|].
  exists s'. split; [exact E|].
  pose proof (gateway_waits_a_day (H := test_host) splitter_parse 90000 splitter_state splitter_state_default) as (_ & Hx & _).
  assert (match get_action splitter_state 100 with Some _ => true | None => false end = true) as Hs by (vm_compute; reflexivity).
  destruct (get_action splitter_state 100) as [a|] eqn:Ea; [|discriminate Hs].
  exact (Hx (splitter_at 90000) 2 100 s' a ltac:(cbn; lia) E Ea).
Defined.
End witnesses.
