(* ===== verification/Governance.v ===== *)
(** * Governance of the root contract

    [src/src/governance.rs] and [src/src/nonce.rs], and the storage of [src/src/veto.rs]:
    weighted signers decide on the rotation of keys, validators and fees; a proposal of new
    code waits behind a delay and can be cancelled by votes. Admin, registered signers and
    revoked addresses are those of [Keys]; vetoes, emergency overrides and the entry points
    are in [GovernanceEntry].

    Left out: events, time-to-live (also of the ballots, which are temporary entries) and
    the lookup [veto::is_hash_vetoed], which the repository calls and does not define: it
    is the parameter [is_hash_vetoed]. *)

From stdpp Require Import base numbers list gmap.
From Stdlib Require Import ZArith Lia.
From S2P Require Import Prelude Host RootErrors BookData Keys.

Open Scope Z_scope.

Definition MIN_LEDGER_DELAY : Z := 5000.
Definition PROPOSAL_TTL_SECONDS : Z := 7 * 24 * 60 * 60.
Definition UPGRADE_DELAY_SECONDS : Z := 48 * 60 * 60.
Definition DEFAULT_EMERGENCY_OVERRIDE_THRESHOLD_BPS : Z := 6667.
Definition MIN_EMERGENCY_OVERRIDE_THRESHOLD_BPS : Z := 5001.
Definition MAX_EMERGENCY_OVERRIDE_THRESHOLD_BPS : Z := 10000.
Definition LOW_FEE_TIER_BPS : Z := 5.
Definition MEDIUM_FEE_TIER_BPS : Z := 30.
Definition HIGH_FEE_TIER_BPS : Z := 100.
Definition DEFAULT_FEE_TIER_BPS : Z := MEDIUM_FEE_TIER_BPS.
Definition LP_FEE_SHARE_BPS : Z := 8000.
Definition TREASURY_FEE_SHARE_BPS : Z := 2000.

(** [GovernanceConfig] has the one field [quorum_threshold]: it is kept as that number. *)
Definition default_quorum_threshold : Z := 2.

Record MultiSigConfig := { required_weight : Z; max_signer_weight : Z }.
Definition default_multisig : MultiSigConfig := {| required_weight := 1; max_signer_weight := 1 |}.

Record FeeTierConfig := { fee_tier_bps : Z; low_fee_tier_bps : Z; medium_fee_tier_bps : Z; high_fee_tier_bps : Z }.
Definition default_fee_tier : FeeTierConfig := {|
  fee_tier_bps := DEFAULT_FEE_TIER_BPS; low_fee_tier_bps := LOW_FEE_TIER_BPS;
  medium_fee_tier_bps := MEDIUM_FEE_TIER_BPS; high_fee_tier_bps := HIGH_FEE_TIER_BPS |}.

Record FeeSplitConfig := { lp_share_bps : Z; treasury_share_bps : Z }.
Definition default_fee_split : FeeSplitConfig :=
  {| lp_share_bps := LP_FEE_SHARE_BPS; treasury_share_bps := TREASURY_FEE_SHARE_BPS |}.

Inductive ProposalStatus := Pending | Executable | Cancelled.

#[export] Instance ProposalStatus_eq_dec : EqDecision ProposalStatus.
Proof. solve_decision. Defined.

(** lib.rs: [ProposalStatus] and [ProposalState] of the tracked proposals. *)
Inductive TrackedStatus := TpActive | TpApproved | TpExpired.

#[export] Instance TrackedStatus_eq_dec : EqDecision TrackedStatus.
Proof. solve_decision. Defined.

Record TrackedProposal := { tp_proposed_at : Z; tp_status : TrackedStatus }.

(** The symbols REVOKE, GOVUPG and EMGREV. *)
Definition REVOCATION_KEY : bytes := [82; 69; 86; 79; 75; 69].
Definition GOVERNANCE_UPGRADE_KEY : bytes := [71; 79; 86; 85; 80; 71].
Definition EMERGENCY_REVOCATION_TOPIC : bytes := [69; 77; 71; 82; 69; 86].

Record NonceState := { nonce : Z; salt_signature : bytes }.

Section governance.
Context {H : Host}.
Context (is_hash_vetoed : bytes -> bool).

Record GovernanceProposal := {
  proposal_id : Z;
  wasm_hash : bytes;
  proposer : Address;
  staged_at : Z;
  status : ProposalStatus;
  cancellation_votes : gset Address
}.

Record StagedUpgrade := { su_wasm_hash : bytes; su_proposer : Address; su_staged_at : Z; su_execute_at : Z }.

Record GovernanceUpgradeProposal := { gu_wasm_hash : bytes; gu_proposer : Address; gu_staged_at : Z; gu_signers : list Address }.

Record VotingBallot := {
  vb_target : Address;
  vb_replacement : Address;
  vb_proposer : Address;
  vb_proposed_at : Z;
  vb_ipfs_cid : bytes;
  vb_votes : gset Address
}.

Record ProposalVeto := { pv_proposal_id : Z; vetoed_by : Address; vetoed_at : Z; reason_hash : bytes }.

Record EmergencyOverrideConfig := { emergency_signers : list Address; threshold_bps : Z; ov_enabled : bool }.

Record EmergencyOverrideVote := { ev_proposal_id : Z; ev_signer : Address; voted_at : Z; ev_reason : bytes }.

Record EmergencyOverrideResult := {
  er_proposal_id : Z;
  total_signers : Z;
  votes_for : Z;
  er_threshold_bps : Z;
  succeeded : bool;
  executed_at : Z
}.

(** The settings decided by the weighted signers, one field per key. *)
Record rules := {
  signer_weights : gmap Address Z;
  multisig : option MultiSigConfig;
  quorum_threshold : option Z;
  fee_tier : option FeeTierConfig;
  fee_split : option FeeSplitConfig;
  treasury : option Address;
  validators : gset bytes;
  validator_sequence : option Z
}.

(** The keys of veto.rs. *)
Record emergency := {
  security_council : option Address;
  veto_record : option ProposalVeto;
  override_config : option EmergencyOverrideConfig;
  override_votes : gmap Z (gmap Address EmergencyOverrideVote)
}.

(** [deployed] is the code the contract runs. *)
Record gov := {
  keys : keyring;
  settings : rules;
  emergencies : emergency;
  proposal : option GovernanceProposal;
  proposal_counter : option Z;
  governance_upgrade : option GovernanceUpgradeProposal;
  pending_upgrade : option StagedUpgrade;
  proposal_states : gmap bytes TrackedProposal;
  ballots : gmap bytes VotingBallot;
  nonces : gmap Address NonceState;
  deployed : option bytes
}.

Definition empty_rules : rules := {|
  signer_weights := ∅; multisig := None; quorum_threshold := None; fee_tier := None; fee_split := None; treasury := None;
  validators := ∅; validator_sequence := None |}.
Definition empty_emergency : emergency := {|
  security_council := None; veto_record := None; override_config := None; override_votes := ∅ |}.
Definition start_gov (k : keyring) : gov := {|
  keys := k; settings := empty_rules; emergencies := empty_emergency; proposal := None; proposal_counter := None;
  governance_upgrade := None; pending_upgrade := None; proposal_states := ∅; ballots := ∅; nonces := ∅; deployed := None |}.

(** What a call sees: authorisations and time of [Keys], the ledger sequence, and which
    code hashes have been uploaded (deploying another one traps). *)
Record gov_env := { base : call_env; sequence : Z; uploaded : bytes -> bool }.

(** ** Writes *)
Definition set_rules (s : gov) (k : keyring) (r : rules) : gov := {|
  keys := k; settings := r; emergencies := emergencies s; proposal := proposal s; proposal_counter := proposal_counter s;
  governance_upgrade := governance_upgrade s; pending_upgrade := pending_upgrade s; proposal_states := proposal_states s;
  ballots := ballots s; nonces := nonces s; deployed := deployed s |}.

Definition set_emergency (s : gov) (e : emergency) : gov := {|
  keys := keys s; settings := settings s; emergencies := e; proposal := proposal s; proposal_counter := proposal_counter s;
  governance_upgrade := governance_upgrade s; pending_upgrade := pending_upgrade s; proposal_states := proposal_states s;
  ballots := ballots s; nonces := nonces s; deployed := deployed s |}.

Definition set_proposal (s : gov) (p : option GovernanceProposal) (n : option Z) : gov := {|
  keys := keys s; settings := settings s; emergencies := emergencies s; proposal := p; proposal_counter := n;
  governance_upgrade := governance_upgrade s; pending_upgrade := pending_upgrade s; proposal_states := proposal_states s;
  ballots := ballots s; nonces := nonces s; deployed := deployed s |}.

Definition set_upgrade (s : gov) (g : option GovernanceUpgradeProposal) (p : option StagedUpgrade) (states : gmap bytes TrackedProposal)
    (code : option bytes) : gov := {|
  keys := keys s; settings := settings s; emergencies := emergencies s; proposal := proposal s; proposal_counter := proposal_counter s;
  governance_upgrade := g; pending_upgrade := p; proposal_states := states; ballots := ballots s; nonces := nonces s; deployed := code |}.

Definition set_ballots (s : gov) (b : gmap bytes VotingBallot) : gov := {|
  keys := keys s; settings := settings s; emergencies := emergencies s; proposal := proposal s; proposal_counter := proposal_counter s;
  governance_upgrade := governance_upgrade s; pending_upgrade := pending_upgrade s; proposal_states := proposal_states s;
  ballots := b; nonces := nonces s; deployed := deployed s |}.

Definition set_nonces (s : gov) (n : gmap Address NonceState) : gov := {|
  keys := keys s; settings := settings s; emergencies := emergencies s; proposal := proposal s; proposal_counter := proposal_counter s;
  governance_upgrade := governance_upgrade s; pending_upgrade := pending_upgrade s; proposal_states := proposal_states s;
  ballots := ballots s; nonces := n; deployed := deployed s |}.

Definition with_keys (s : gov) (k : keyring) : gov := set_rules s k (settings s).

(** ** Weights and quorum *)
Definition get_multisig_config (s : gov) : MultiSigConfig := default default_multisig (multisig (settings s)).

Definition set_multisig_config (s : gov) (c : MultiSigConfig) : gov :=
  let r := settings s in
  set_rules s (keys s) {|
    signer_weights := signer_weights r; multisig := Some c; quorum_threshold := quorum_threshold r; fee_tier := fee_tier r;
    fee_split := fee_split r; treasury := treasury r; validators := validators r; validator_sequence := validator_sequence r |}.

Definition get_governance_config (s : gov) : Z := default default_quorum_threshold (quorum_threshold (settings s)).

Definition set_governance_config (s : gov) (n : Z) : gov :=
  let r := settings s in
  set_rules s (keys s) {|
    signer_weights := signer_weights r; multisig := multisig r; quorum_threshold := Some n; fee_tier := fee_tier r;
    fee_split := fee_split r; treasury := treasury r; validators := validators r; validator_sequence := validator_sequence r |}.

Definition get_signer_weight (s : gov) (signer : Address) : Z := default 0 (signer_weights (settings s) !! signer).

Definition set_weights (s : gov) (w : gmap Address Z) : gov :=
  let r := settings s in
  set_rules s (keys s) {|
    signer_weights := w; multisig := multisig r; quorum_threshold := quorum_threshold r; fee_tier := fee_tier r;
    fee_split := fee_split r; treasury := treasury r; validators := validators r; validator_sequence := validator_sequence r |}.

Definition set_signer_weight (s : gov) (signer : Address) (weight : Z) : gov :=
  let weights := signer_weights (settings s) in
  set_weights s (if weight =? 0 then delete signer weights else <[signer := weight]> weights).

(** What an authorised signer weighs. *)
Definition weight_of (s : gov) (d : ContractData) (signer : Address) : Z :=
  if bool_decide (signer = admin d) then Z.max (get_signer_weight s (admin d)) 1 else get_signer_weight s signer.

(** The loop of [verify_upgrade_quorum]. *)
Fixpoint quorum_loop (s : gov) (d : ContractData) (authorized : gset Address) (signers : list Address) (seen : gset Address)
    (valid_count collected : Z) : R (Z * Z) :=
  match signers with
  | [] => mret (valid_count, collected)
  | signer :: rest =>
      if bool_decide (signer ∈ seen) then quorum_loop s d authorized rest seen valid_count collected
      else
        let seen' := {[signer]} ∪ seen in
        if negb (bool_decide (signer = admin d) || bool_decide (signer ∈ authorized))
        then quorum_loop s d authorized rest seen' valid_count collected
        else
          valid_count ← iadd U32 valid_count 1;
          collected ← ok_or (checked_add U32 collected (weight_of s d signer)) Overflow;
          quorum_loop s d authorized rest seen' valid_count collected
  end.

Definition verify_upgrade_quorum (s : gov) (signers : list Address) : R unit :=
  d ← load_data (keys s);
  authorized ← _get_signers (keys s);
  r ← quorum_loop s d authorized signers ∅ 0 0;
  _ ← fail_if (r.1 <? get_governance_config s) ThresholdNotReached;
  fail_if (r.2 <? required_weight (get_multisig_config s)) ThresholdNotReached.

(** The loop of [calculate_collected_weight]. *)
Fixpoint weight_loop (s : gov) (d : ContractData) (authorized : gset Address) (signers : list Address) (seen : gset Address)
    (collected : Z) : R Z :=
  match signers with
  | [] => mret collected
  | signer :: rest =>
      if bool_decide (signer ∈ seen) then weight_loop s d authorized rest seen collected
      else
        let seen' := {[signer]} ∪ seen in
        if negb (bool_decide (signer = admin d) || bool_decide (signer ∈ authorized))
        then weight_loop s d authorized rest seen' collected
        else
          collected ← ok_or (checked_add U32 collected (weight_of s d signer)) Overflow;
          weight_loop s d authorized rest seen' collected
  end.

Definition calculate_collected_weight (s : gov) (signers : list Address) (d : ContractData) : R Z :=
  authorized ← _get_signers (keys s);
  weight_loop s d authorized signers ∅ 0.

(** ** Proposals *)
Definition _next_proposal_id (s : gov) : Z := default 1 (checked_add U64 (default 0 (proposal_counter s)) 1).

Definition _load_proposal (s : gov) : R GovernanceProposal := ok_or (proposal s) NoActiveProposal.

Definition is_open (p : GovernanceProposal) : bool := bool_decide (status p = Pending) || bool_decide (status p = Executable).

Definition submit_governance_proposal (i : gov_env) (s : gov) (who : Address) (hash : bytes) : R (gov * Z) :=
  _ ← fail_if (match proposal s with Some existing => is_open existing | None => false end) ProposalAlreadyActive;
  _ ← fail_if (is_hash_vetoed hash) ProposalAlreadyVetoed;
  _ ← require_auth (auth (base i)) who;
  let n := _next_proposal_id s in
  mret (set_proposal s (Some {| proposal_id := n; wasm_hash := hash; proposer := who; staged_at := sequence i;
                                status := Pending; cancellation_votes := ∅ |}) (Some n), n).

Definition cancellation_threshold (signer_count : Z) : Z := if signer_count <? 2 then 1 else signer_count / 2 + 1.

(** [map.len()] of a map from addresses to nothing. *)
Definition set_len (m : gset Address) : Z := Z.of_nat (size m).

Definition _cancellation_threshold (s : gov) : R Z :=
  signers ← _get_signers (keys s); mret (cancellation_threshold (set_len signers)).

Definition with_votes (p : GovernanceProposal) (st : ProposalStatus) (votes : gset Address) : GovernanceProposal := {|
  proposal_id := proposal_id p; wasm_hash := wasm_hash p; proposer := proposer p; staged_at := staged_at p;
  status := st; cancellation_votes := votes |}.

Definition store_proposal (s : gov) (p : GovernanceProposal) : gov := set_proposal s (Some p) (proposal_counter s).

Definition vote_cancel_proposal (i : gov_env) (s : gov) (voter : Address) (n sig_expires_at : Z) : R gov :=
  _ ← fail_if (sig_expires_at <? timestamp (base i)) SignatureExpired;
  _ ← require_auth (auth (base i)) voter;
  p ← _load_proposal s;
  _ ← fail_if (negb (proposal_id p =? n)) NoActiveProposal;
  _ ← fail_if (negb (bool_decide (status p = Pending))) ProposalAlreadyCancelledOrExecuted;
  _ ← fail_if (bool_decide (voter ∈ cancellation_votes p)) AlreadyVoted;
  let votes := {[voter]} ∪ cancellation_votes p in
  threshold ← _cancellation_threshold s;
  mret (store_proposal s (with_votes p (if threshold <=? set_len votes then Cancelled else status p) votes)).

Definition cancel_governance_proposal (i : gov_env) (s : gov) (canceller : Address) (n : Z) : R gov :=
  _ ← require_auth (auth (base i)) canceller;
  p ← _load_proposal s;
  _ ← fail_if (negb (proposal_id p =? n)) NoActiveProposal;
  _ ← fail_if (negb (bool_decide (status p = Pending))) ProposalAlreadyCancelledOrExecuted;
  mret (store_proposal s (with_votes p Cancelled (cancellation_votes p))).

Definition verify_staged_delay (staged current : Z) : bool := MIN_LEDGER_DELAY <=? saturating_sub U32 current staged.

Definition get_gov_proposal_tl_remaining (i : gov_env) (s : gov) (n : Z) : option Z :=
  p ← proposal s;
  if negb (proposal_id p =? n) then None
  else if negb (bool_decide (status p = Pending)) then None
  else Some (saturating_sub U32 MIN_LEDGER_DELAY (saturating_sub U32 (sequence i) (staged_at p))).

Definition is_proposal_executable (i : gov_env) (s : gov) (n : Z) : bool :=
  match proposal s with
  | Some p => (proposal_id p =? n) &&
      (bool_decide (status p = Executable) || (bool_decide (status p = Pending) && verify_staged_delay (staged_at p) (sequence i)))
  | None => false
  end.

Definition get_governance_proposal (s : gov) (n : Z) : R GovernanceProposal :=
  p ← _load_proposal s; _ ← fail_if (negb (proposal_id p =? n)) NoActiveProposal; mret p.

(** ** Decisions of the weighted signers *)
Definition rotate_admin_keys (s : gov) (signers new_signers : list Address) (new_threshold : Z) : R gov :=
  _ ← verify_upgrade_quorum s signers;
  let signer_set : gset Address := list_to_set new_signers in
  _ ← fail_if ((new_threshold =? 0) || (set_len signer_set <? new_threshold)) InvalidThreshold;
  let weights : gmap Address Z := foldl (fun w signer => <[signer := 1]> w) ∅ new_signers in
  d ← load_data (keys s);
  first ← ok_or (vget new_signers 0) InvalidThreshold;
  let s1 := with_keys s (set_signers (set_admin (keys s) d first) signer_set) in
  let s2 := set_governance_config (set_weights s1 weights) new_threshold in
  mret (set_multisig_config s2 {| required_weight := new_threshold;
                                  max_signer_weight := Z.max (max_signer_weight (get_multisig_config s2)) 1 |}).

Definition get_validator_set (s : gov) : gset bytes := validators (settings s).
Definition get_validator_sequence (s : gov) : Z := default 0 (validator_sequence (settings s)).

Definition rotate_validators (s : gov) (signers : list Address) (new_validators : list bytes) : R (gov * Z) :=
  _ ← verify_upgrade_quorum s signers;
  n ← ok_or (checked_add U64 (get_validator_sequence s) 1) Overflow;
  let r := settings s in
  mret (set_rules s (keys s) {|
    signer_weights := signer_weights r; multisig := multisig r; quorum_threshold := quorum_threshold r; fee_tier := fee_tier r;
    fee_split := fee_split r; treasury := treasury r; validators := list_to_set new_validators; validator_sequence := Some n |}, n).

Definition get_fee_tier_config (s : gov) : FeeTierConfig := default default_fee_tier (fee_tier (settings s)).
Definition get_fee_tier (s : gov) : Z := fee_tier_bps (get_fee_tier_config s).
Definition get_fee_split_config (s : gov) : FeeSplitConfig := default default_fee_split (fee_split (settings s)).
Definition get_treasury_vault (s : gov) : option Address := treasury (settings s).

Definition set_fees (s : gov) (t : option FeeTierConfig) (p : option FeeSplitConfig) (v : option Address) : gov :=
  let r := settings s in
  set_rules s (keys s) {|
    signer_weights := signer_weights r; multisig := multisig r; quorum_threshold := quorum_threshold r; fee_tier := t;
    fee_split := p; treasury := v; validators := validators r; validator_sequence := validator_sequence r |}.

Definition set_fee_tier (s : gov) (signers : list Address) (bps : Z) : R gov :=
  _ ← verify_upgrade_quorum s signers;
  let c := get_fee_tier_config s in
  _ ← fail_if (negb (bps =? low_fee_tier_bps c) && negb (bps =? medium_fee_tier_bps c) && negb (bps =? high_fee_tier_bps c)) InvalidThreshold;
  mret (set_fees s (Some {| fee_tier_bps := bps; low_fee_tier_bps := low_fee_tier_bps c;
                            medium_fee_tier_bps := medium_fee_tier_bps c; high_fee_tier_bps := high_fee_tier_bps c |})
          (fee_split (settings s)) (treasury (settings s))).

Definition set_fee_split_config (s : gov) (signers : list Address) (lp tr : Z) : R gov :=
  _ ← verify_upgrade_quorum s signers;
  _ ← fail_if (bool_decide (checked_add U32 lp tr <> Some 10000)) InvalidThreshold;
  mret (set_fees s (fee_tier (settings s)) (Some {| lp_share_bps := lp; treasury_share_bps := tr |}) (treasury (settings s))).

Definition split_collected_fees (s : gov) (amount : Z) : R (Z * Z) :=
  let c := get_fee_split_config s in
  lp ← ok_or (checked_mul U128 amount (lp_share_bps c)) Overflow;
  tr ← ok_or (checked_mul U128 amount (treasury_share_bps c)) Overflow;
  mret (lp / 10000, tr / 10000).

Definition set_treasury_vault (s : gov) (signers : list Address) (vault : Address) : R gov :=
  _ ← verify_upgrade_quorum s signers; mret (set_fees s (fee_tier (settings s)) (fee_split (settings s)) (Some vault)).

(** ** Ballots *)
Definition open_ballot (i : gov_env) (s : gov) (topic : bytes) (tgt repl who : Address) (cid : bytes) : R gov :=
  _ ← fail_if (bool_decide (is_Some (ballots s !! topic))) ProposalAlreadyActive;
  mret (set_ballots s (<[topic := {| vb_target := tgt; vb_replacement := repl; vb_proposer := who;
                                     vb_proposed_at := timestamp (base i); vb_ipfs_cid := cid; vb_votes := ∅ |}]> (ballots s))).

Definition cast_vote (s : gov) (topic : bytes) (voter : Address) : R (gov * VotingBallot) :=
  b ← ok_or (ballots s !! topic) NoActiveProposal;
  _ ← fail_if (bool_decide (voter ∈ vb_votes b)) AlreadyVoted;
  let b' := {| vb_target := vb_target b; vb_replacement := vb_replacement b; vb_proposer := vb_proposer b;
               vb_proposed_at := vb_proposed_at b; vb_ipfs_cid := vb_ipfs_cid b; vb_votes := {[voter]} ∪ vb_votes b |} in
  mret (set_ballots s (<[topic := b']> (ballots s)), b').

Definition get_ballot (s : gov) (topic : bytes) : option VotingBallot := ballots s !! topic.

Definition close_ballot (s : gov) (topic : bytes) : gov := set_ballots s (delete topic (ballots s)).

Definition is_proposal_expired (proposed_at current_time : Z) (threshold_met : bool) : bool :=
  negb threshold_met && (PROPOSAL_TTL_SECONDS <=? saturating_sub U64 current_time proposed_at).

(** [result.is_ok()]; a trap stays a trap. *)
Definition tested (r : R unit) : R bool := match r with Ok _ => mret true | Err _ => mret false | Panic => Panic end.

Definition cleanup_expired_proposal (i : gov_env) (s : gov) (topic : bytes) : R (gov * option Address) :=
  b ← ok_or (get_ballot s topic) NoActiveProposal;
  threshold_met ← tested (verify_upgrade_quorum s (elements (vb_votes b)));
  if negb (is_proposal_expired (vb_proposed_at b) (timestamp (base i)) threshold_met) then mret (s, None)
  else
    let s1 := close_ballot s topic in
    mret (set_upgrade s1 None (pending_upgrade s1) (proposal_states s1) (deployed s1), Some (vb_proposer b)).

(** ** src/src/nonce.rs *)
Definition load_state (s : gov) (who : Address) : NonceState :=
  default {| nonce := 0; salt_signature := replicate 32 0 |} (nonces s !! who).

Definition get_nonce (s : gov) (who : Address) : Z := nonce (load_state s who).

Definition derive_salt_signature (n : Z) (salt : bytes) : bytes := sha256 (to_be_bytes 8 n ++ salt).

Definition consume_nonce (s : gov) (who : Address) (incoming : Z) (salt signature : bytes) : R gov :=
  let st := load_state s who in
  _ ← fail_if (negb (incoming =? nonce st)) InvalidNonce;
  _ ← fail_if (bool_decide (signature <> derive_salt_signature incoming salt)) InvalidSaltSignature;
  next ← iadd U64 (nonce st) 1;
  mret (set_nonces s (<[who := {| nonce := next; salt_signature := signature |}]> (nonces s))).
End governance.
