(* ===== verification/GovernanceEntry.v ===== *)
(** * Vetoes, emergency overrides and the entry points of the root governance

    [src/src/veto.rs] and the entry points of src/src/lib.rs for proposals and upgrades:
    the council's vetoes, the votes of the emergency signers to deploy a proposal at once,
    and the staged upgrade of the admin. *)

From stdpp Require Import base numbers list gmap.
From Stdlib Require Import ZArith Lia.
From S2P Require Import Prelude Host RootErrors BookData Keys Governance.

Open Scope Z_scope.

Section entry.
Context {H : Host}.
Context (is_hash_vetoed : bytes -> bool).

(** ** src/src/veto.rs *)
Definition set_security_council (i : gov_env) (s : gov) (caller council : Address) : R gov :=
  d ← load_data (keys s);
  _ ← fail_if (negb (bool_decide (admin d = caller))) NotAdmin;
  _ ← require_auth (auth (base i)) caller;
  let e := emergencies s in
  mret (set_emergency s {| security_council := Some council; veto_record := veto_record e;
                           override_config := override_config e; override_votes := override_votes e |}).

Definition get_security_council (s : gov) : option Address := security_council (emergencies s).

Definition veto_proposal (i : gov_env) (s : gov) (caller : Address) (n : Z) (reason : bytes) : R gov :=
  council ← ok_or (get_security_council s) NotSecurityCouncil;
  _ ← fail_if (negb (bool_decide (caller = council))) NotSecurityCouncil;
  _ ← require_auth (auth (base i)) caller;
  _ ← load_data (keys s);
  let e := emergencies s in
  mret (set_emergency s {| security_council := security_council e;
                           veto_record := Some {| pv_proposal_id := n; vetoed_by := caller;
                                                  vetoed_at := timestamp (base i); reason_hash := reason |};
                           override_config := override_config e; override_votes := override_votes e |}).

Definition get_veto_record (s : gov) (n : Z) : option ProposalVeto :=
  r ← veto_record (emergencies s); if pv_proposal_id r =? n then Some r else None.

Definition is_proposal_vetoed (s : gov) (n : Z) : bool := bool_decide (is_Some (get_veto_record s n)).

Definition load_emergency_override_config (s : gov) : EmergencyOverrideConfig :=
  default {| emergency_signers := []; threshold_bps := DEFAULT_EMERGENCY_OVERRIDE_THRESHOLD_BPS; ov_enabled := true |}
    (override_config (emergencies s)).

Definition save_emergency_override_config (s : gov) (c : EmergencyOverrideConfig) : gov :=
  let e := emergencies s in
  set_emergency s {| security_council := security_council e; veto_record := veto_record e; override_config := Some c;
                     override_votes := override_votes e |}.

Definition set_override_votes (s : gov) (v : gmap Z (gmap Address EmergencyOverrideVote)) : gov :=
  let e := emergencies s in
  set_emergency s {| security_council := security_council e; veto_record := veto_record e; override_config := override_config e;
                     override_votes := v |}.

Definition set_emergency_override_config (i : gov_env) (s : gov) (caller : Address) (signers : list Address) (bps : Z) (enabled : bool)
    : R gov :=
  d ← load_data (keys s);
  _ ← fail_if (negb (bool_decide (admin d = caller))) NotAdmin;
  _ ← require_auth (auth (base i)) caller;
  _ ← fail_if (len signers =? 0) InvalidThreshold;
  _ ← fail_if ((bps <? MIN_EMERGENCY_OVERRIDE_THRESHOLD_BPS) || (MAX_EMERGENCY_OVERRIDE_THRESHOLD_BPS <? bps)) InvalidThreshold;
  mret (save_emergency_override_config s {| emergency_signers := signers; threshold_bps := bps; ov_enabled := enabled |}).

Definition get_emergency_override_votes (s : gov) (n : Z) : gmap Address EmergencyOverrideVote :=
  default ∅ (override_votes (emergencies s) !! n).

(** The proposal an override is about, with the checks both entry points make. *)
Definition open_proposal (s : gov) (n : Z) : R GovernanceProposal :=
  p ← ok_or (proposal s) ProposalNotFound;
  _ ← fail_if (negb (proposal_id p =? n)) ProposalNotFound;
  _ ← fail_if (negb (is_open p)) ProposalAlreadyCancelledOrExecuted;
  mret p.

(** The share of the votes, in basis points of the listed signers. *)
Definition weight_achieved_bps (votes total : Z) : R Z :=
  x ← ok_or (checked_mul U64 votes 10000) Overflow;
  q ← ok_or (checked_div U64 x total) DivisionByZero;
  mret (cast U32 q).

Definition count (v : gmap Address EmergencyOverrideVote) : Z := Z.of_nat (size v).

Definition vote_emergency_override (i : gov_env) (s : gov) (signer : Address) (n : Z) (reason : bytes) : R gov :=
  let c := load_emergency_override_config s in
  _ ← fail_if (negb (ov_enabled c)) EmergencyOverrideDisabled;
  _ ← fail_if (negb (bool_decide (signer ∈ emergency_signers c))) NotEmergencySigner;
  _ ← require_auth (auth (base i)) signer;
  _ ← open_proposal s n;
  let votes := get_emergency_override_votes s n in
  _ ← fail_if (bool_decide (is_Some (votes !! signer))) AlreadyVoted;
  let votes' := <[signer := {| ev_proposal_id := n; ev_signer := signer; voted_at := timestamp (base i); ev_reason := reason |}]> votes in
  _ ← weight_achieved_bps (count votes') (len (emergency_signers c));
  mret (set_override_votes s (<[n := votes']> (override_votes (emergencies s)))).

(** [env.deployer().update_current_contract_wasm(hash)] *)
Definition update_wasm (i : gov_env) (hash : bytes) : R (option bytes) := if uploaded i hash then mret (Some hash) else Panic.

Definition execute_emergency_override (i : gov_env) (s : gov) (executor : Address) (n : Z) : R (gov * EmergencyOverrideResult) :=
  let c := load_emergency_override_config s in
  _ ← fail_if (negb (ov_enabled c)) EmergencyOverrideDisabled;
  _ ← fail_if (negb (bool_decide (executor ∈ emergency_signers c))) NotEmergencySigner;
  _ ← require_auth (auth (base i)) executor;
  p ← open_proposal s n;
  let for_it := count (get_emergency_override_votes s n) in
  let total := len (emergency_signers c) in
  _ ← fail_if (total =? 0) EmergencyOverrideDisabled;
  achieved ← weight_achieved_bps for_it total;
  _ ← fail_if (achieved <? threshold_bps c) OverrideThresholdNotReached;
  code ← update_wasm i (wasm_hash p);
  let s1 := set_override_votes (set_proposal s None (proposal_counter s)) (delete n (override_votes (emergencies s))) in
  mret (set_upgrade s1 (governance_upgrade s1) None (proposal_states s1) code,
        {| er_proposal_id := n; total_signers := total; votes_for := for_it; er_threshold_bps := threshold_bps c;
           succeeded := true; executed_at := timestamp (base i) |}).

Definition is_emergency_override_ready (s : gov) (n : Z) : bool :=
  let c := load_emergency_override_config s in
  let total := len (emergency_signers c) in
  if negb (ov_enabled c) then false
  else if total =? 0 then false
  else threshold_bps c <=? cast U32 (default 0 (checked_div U64 (default 0 (checked_mul U64 (count (get_emergency_override_votes s n)) 10000)) total)).

(** ** src/src/lib.rs: proposals *)
(** [Self::_is_signer] of lib.rs reads the map of registered signers. *)
Definition is_registered (s : gov) (a : Address) : R bool := signers ← _get_signers (keys s); mret (bool_decide (a ∈ signers)).

Definition entry_submit_governance_proposal (i : gov_env) (s : gov) (who : Address) (hash : bytes) : R (gov * Z) :=
  _ ← assert_not_revoked (keys s) who; submit_governance_proposal is_hash_vetoed i s who hash.

Definition vote_cancel_governance_proposal (i : gov_env) (s : gov) (voter : Address) (n sig_expires_at : Z) : R gov :=
  _ ← assert_not_revoked (keys s) voter;
  d ← load_data (keys s);
  signer ← is_registered s voter;
  _ ← fail_if (negb signer && negb (bool_decide (admin d = voter))) Unauthorized;
  vote_cancel_proposal i s voter n sig_expires_at.

Definition entry_cancel_governance_proposal (i : gov_env) (s : gov) (canceller : Address) (n : Z) : R gov :=
  d ← load_data (keys s);
  _ ← fail_if (negb (bool_decide (admin d = canceller))) NotAdmin;
  cancel_governance_proposal i s canceller n.

(** ** src/src/lib.rs: staged upgrades *)
Definition _store_proposal_state (s : gov) (topic : bytes) (at_ : Z) : gov :=
  set_upgrade s (governance_upgrade s) (pending_upgrade s)
    (<[topic := {| tp_proposed_at := at_; tp_status := TpActive |}]> (proposal_states s)) (deployed s).

Definition _mark_proposal_expired (s : gov) (topic : bytes) : gov :=
  match proposal_states s !! topic with
  | Some st => set_upgrade s (governance_upgrade s) (pending_upgrade s)
                 (<[topic := {| tp_proposed_at := tp_proposed_at st; tp_status := TpExpired |}]> (proposal_states s)) (deployed s)
  | None => s
  end.

Definition _remove_proposal_state (s : gov) (topic : bytes) : gov :=
  set_upgrade s (governance_upgrade s) (pending_upgrade s) (delete topic (proposal_states s)) (deployed s).

Definition propose_upgrade (i : gov_env) (s : gov) (hash : bytes) (who : Address) (signers : list Address)
    (n : Z) (salt salt_signature : bytes) (sig_expires_at : Z) : R gov :=
  _ ← fail_if (sig_expires_at <? timestamp (base i)) SignatureExpired;
  _ ← assert_not_revoked (keys s) who;
  d ← load_data (keys s);
  _ ← fail_if (negb (bool_decide (admin d = who))) NotAdmin;
  _ ← require_auth (auth (base i)) who;
  s1 ← consume_nonce s who n salt salt_signature;
  collected ← calculate_collected_weight s1 signers d;
  _ ← fail_if (collected <? required_weight (get_multisig_config s1)) ThresholdNotReached;
  let now := timestamp (base i) in
  let s2 := set_upgrade s1 (Some {| gu_wasm_hash := hash; gu_proposer := who; gu_staged_at := now; gu_signers := signers |})
              (pending_upgrade s1) (proposal_states s1) (deployed s1) in
  let s3 := _store_proposal_state s2 GOVERNANCE_UPGRADE_KEY now in
  due ← iadd U64 now UPGRADE_DELAY_SECONDS;
  mret (set_upgrade s3 (governance_upgrade s3)
          (Some {| su_wasm_hash := hash; su_proposer := who; su_staged_at := now; su_execute_at := due |})
          (proposal_states s3) (deployed s3)).

Definition execute_upgrade (i : gov_env) (s : gov) (executor : Address) (n : Z) (salt signature : bytes) (sig_expires_at : Z) : R gov :=
  _ ← fail_if (sig_expires_at <? timestamp (base i)) SignatureExpired;
  d ← load_data (keys s);
  _ ← fail_if (negb (bool_decide (admin d = executor))) NotAdmin;
  _ ← require_auth (auth (base i)) executor;
  s1 ← consume_nonce s executor n salt signature;
  p ← ok_or (pending_upgrade s1) NoPendingUpgrade;
  _ ← fail_if (negb (verify_staged_delay (cast U32 (su_staged_at p)) (sequence i))) UpgradeTimelockNotSatisfied;
  code ← update_wasm i (su_wasm_hash p);
  let s2 := set_upgrade s1 (governance_upgrade s1) None (proposal_states s1) code in
  mret (_remove_proposal_state s2 GOVERNANCE_UPGRADE_KEY).

Definition get_pending_upgrade (s : gov) : option StagedUpgrade := pending_upgrade s.

Definition get_upgrade_timelock_remaining (i : gov_env) (s : gov) : option Z :=
  p ← pending_upgrade s;
  Some (saturating_sub U32 MIN_LEDGER_DELAY (saturating_sub U32 (sequence i) (cast U32 (su_staged_at p)))).

Definition cancel_upgrade (i : gov_env) (s : gov) (canceller : Address) : R gov :=
  d ← load_data (keys s);
  _ ← fail_if (negb (bool_decide (admin d = canceller))) NotAdmin;
  _ ← require_auth (auth (base i)) canceller;
  mret (set_upgrade s (governance_upgrade s) None (proposal_states s) (deployed s)).

(** The loop of [cleanup_expired_proposals] over the topics. *)
Fixpoint cleanup_loop (i : gov_env) (s : gov) (states : gmap bytes TrackedProposal) (topics : list bytes) (expired : Z) : R (gov * Z) :=
  match topics with
  | [] => mret (s, expired)
  | topic :: rest =>
      match states !! topic with
      | None => cleanup_loop i s states rest expired
      | Some st =>
          if bool_decide (tp_status st = TpActive) && (PROPOSAL_EXPIRY_SECONDS <=? saturating_sub U64 (timestamp (base i)) (tp_proposed_at st))
          then
            s1 ← (if bool_decide (topic = REVOCATION_KEY) then mret (close_ballot s REVOCATION_KEY)
                  else if bool_decide (topic = GOVERNANCE_UPGRADE_KEY) then mret (set_upgrade s None None (proposal_states s) (deployed s))
                  else if bool_decide (topic = EMERGENCY_REVOCATION_TOPIC) then
                    k ← purge_emergency_revocation_proposal (keys s); mret (with_keys s k)
                  else mret s);
            cleanup_loop i (_mark_proposal_expired s1 topic) states rest (saturating_add U32 expired 1)
          else cleanup_loop i s states rest expired
      end
  end.

Definition cleanup_expired_proposals (i : gov_env) (s : gov) : R (gov * Z) :=
  cleanup_loop i s (proposal_states s) ((map_to_list (proposal_states s)).*1) 0.

(** The purge of an expired revocation proposal also forgets its tracked state. *)
Definition purge_expired_revocation_prop (s : gov) : R gov :=
  k ← purge_emergency_revocation_proposal (keys s);
  mret (_remove_proposal_state (with_keys s k) EMERGENCY_REVOCATION_TOPIC).
End entry.
