(* ===== verification/GovernanceTheorems.v ===== *)
(** * Governance of the root contract: the properties

    The quorum decides exactly by the distinct authorised signers; a rotation leaves a
    quorum of the new signers; histories of calls with the trace of what was called: which
    votes an early deployment rests on, what a veto changes, when a staged upgrade
    executes, and how the collected fees are split. *)

From stdpp Require Import base numbers list gmap fin_sets.
From Stdlib Require Import ZArith Lia.
From S2P Require Import Prelude Host RootErrors BookData Keys Governance GovernanceEntry.

Open Scope Z_scope.

(** Pass over the first checks of a call that returned. *)
#[local] Tactic Notation "skip" int_or_var(n) hyp(Hr) := do n (apply bind_Ok in Hr as (? & _ & Hr)).

Section claims.
Context {H : Host}.
Context (is_hash_vetoed : bytes -> bool).

(** ** The quorum *)
Definition may_sign (d : ContractData) (au : gset Address) (a : Address) : Prop := a = admin d \/ a ∈ au.

#[local] Instance may_sign_dec (d : ContractData) (au : gset Address) (a : Address) : Decision (may_sign d au a).
Proof. unfold may_sign. apply _. Defined.

(** The distinct authorised signers of a list, but for those already seen. *)
Definition valid_set (d : ContractData) (au seen : gset Address) (signers : list Address) : gset Address :=
  filter (may_sign d au) (list_to_set signers ∖ seen).

Definition set_weight (f : Address -> Z) (m : gset Address) : Z := zsum (f <$> elements m).

Definition weights_ok (s : gov) : Prop := forall a w, signer_weights (settings s) !! a = Some w -> 0 <= w.

Lemma weight_nonneg (s : gov) (d : ContractData) (a : Address) : weights_ok s -> 0 <= weight_of s d a.
Proof.
  intros Hw. unfold weight_of. case_bool_decide; [lia|]. unfold get_signer_weight.
  destruct (signer_weights (settings s) !! a) as [w|] eqn:E; [by apply (Hw a)|done].
Qed.

Lemma set_weight_nonneg (s : gov) (d : ContractData) (m : gset Address) : weights_ok s -> 0 <= set_weight (weight_of s d) m.
Proof.
  intros Hw. unfold set_weight. induction (elements m) as [|a l IH]; [done|]. cbn. pose proof (weight_nonneg s d a Hw).
  unfold zsum in *. lia.
Qed.

Lemma set_weight_insert (f : Address -> Z) (a : Address) (m : gset Address) :
  a ∉ m -> set_weight f ({[a]} ∪ m) = f a + set_weight f m.
Proof.
  intros Hn. unfold set_weight. rewrite (elements_union_singleton m a Hn). done.
Qed.

Lemma valid_seen (d : ContractData) (au seen : gset Address) (a : Address) (signers : list Address) :
  a ∈ seen -> valid_set d au seen (a :: signers) = valid_set d au seen signers.
Proof. intros Ha. unfold valid_set. apply set_eq. intros x. rewrite !elem_of_filter. set_solver. Qed.

Lemma valid_other (d : ContractData) (au seen : gset Address) (a : Address) (signers : list Address) :
  ~ may_sign d au a -> valid_set d au seen (a :: signers) = valid_set d au ({[a]} ∪ seen) signers.
Proof. intros Ha. unfold valid_set. apply set_eq. intros x. rewrite !elem_of_filter. set_solver. Qed.

Lemma valid_next (d : ContractData) (au seen : gset Address) (a : Address) (signers : list Address) :
  a ∉ seen -> may_sign d au a ->
  valid_set d au seen (a :: signers) = {[a]} ∪ valid_set d au ({[a]} ∪ seen) signers /\
  a ∉ valid_set d au ({[a]} ∪ seen) signers.
Proof.
  intros Hs Ha. unfold valid_set. split; [|rewrite elem_of_filter; set_solver]. apply set_eq. intros x.
  rewrite elem_of_union, !elem_of_filter. destruct (decide (x = a)) as [->|Hx]; set_solver.
Qed.

Lemma set_len_insert (a : Address) (m : gset Address) : a ∉ m -> set_len ({[a]} ∪ m) = 1 + set_len m.
Proof. intros Hn. unfold set_len. rewrite size_union by set_solver. rewrite size_singleton. lia. Qed.

Lemma set_len_nonneg (m : gset Address) : 0 <= set_len m.
Proof. unfold set_len. lia. Qed.

Lemma may_sign_bool (d : ContractData) (au : gset Address) (a : Address) :
  negb (bool_decide (a = admin d) || bool_decide (a ∈ au)) = false <-> may_sign d au a.
Proof. unfold may_sign. rewrite negb_false_iff, orb_true_iff, !bool_decide_eq_true. done. Qed.

Lemma may_not_sign_bool (d : ContractData) (au : gset Address) (a : Address) :
  negb (bool_decide (a = admin d) || bool_decide (a ∈ au)) = true <-> ~ may_sign d au a.
Proof. rewrite <- may_sign_bool. by rewrite not_false_iff_true. Qed.

Lemma quorum_loop_exact (s : gov) (d : ContractData) (au : gset Address) (signers : list Address) (seen : gset Address) (n w : Z) :
  weights_ok s -> 0 <= n -> n + len signers <= imax U32 -> 0 <= w <= imax U32 ->
  let V := valid_set d au seen signers in
  quorum_loop s d au signers seen n w =
    (if w + set_weight (weight_of s d) V <=? imax U32 then Ok (n + set_len V, w + set_weight (weight_of s d) V) else Err Overflow).
Proof.
  intros Hw. revert seen n w. induction signers as [|a signers IH]; intros seen n w Hn Hlen Hwb.
  - cbn zeta. assert (valid_set d au seen [] = ∅) as -> by (unfold valid_set; apply set_eq; intros x; rewrite elem_of_filter; set_solver).
    unfold set_weight, set_len. rewrite elements_empty, size_empty. cbn [quorum_loop]. cbn. rewrite !Z.add_0_r. rewrite (proj2 (Z.leb_le _ _)) by (cbn in *; lia). done.
  - assert (len (a :: signers) = 1 + len signers) as El by (unfold len; cbn [length]; lia). pose proof (len_nonneg signers) as Hl0.
    cbn [quorum_loop]. cbn zeta. case_bool_decide as Hs; [rewrite valid_seen by done; apply IH; lia|].
    destruct (negb _) eqn:Hm.
    + apply may_not_sign_bool in Hm. rewrite valid_other by done. apply IH; lia.
    + apply may_sign_bool in Hm. destruct (valid_next d au seen a signers Hs Hm) as [-> Hnot].
      rewrite set_weight_insert, set_len_insert by done. unfold iadd. rewrite (iop_in U32 (n + 1)) by (cbn [imin]; lia). rewrite bind_ret.
      pose proof (set_weight_nonneg s d (valid_set d au ({[a]} ∪ seen) signers) Hw) as HW. pose proof (weight_nonneg s d a Hw) as Ha.
      unfold checked_add, chk. destruct (fits U32 (w + weight_of s d a)) eqn:Hf.
      * apply fits_spec in Hf. cbn [ok_or]. rewrite bind_ret, IH by lia. rewrite !Z.add_assoc. done.
      * assert (~ (imin U32 <= w + weight_of s d a <= imax U32)) as Hf' by (rewrite <- fits_spec; congruence).
        rewrite (proj2 (Z.leb_gt _ _)) by (cbn [imin] in Hf'; lia). done.
Qed.

(** The quorum decides exactly by the distinct authorised signers of the list. With
    their number n and the sum w of their weights, the call fails with [Overflow] when w
    leaves [u32], with [ThresholdNotReached] when n is below the number or w below the
    weight that is configured, and passes otherwise, whoever makes the call: nobody on the
    list is asked for an authorisation. *)
Theorem quorum_exact (s : gov) (d : ContractData) (au : gset Address) (signers : list Address) :
  weights_ok s -> len signers <= imax U32 -> load_data (keys s) = Ok d -> _get_signers (keys s) = Ok au ->
  let V : gset Address := filter (fun a => a = admin d \/ a ∈ au) (list_to_set signers) in
  let w := zsum (weight_of s d <$> elements V) in
  verify_upgrade_quorum s signers =
    (if imax U32 <? w then Err Overflow
     else if (set_len V <? get_governance_config s) || (w <? required_weight (get_multisig_config s)) then Err ThresholdNotReached
     else Ok tt).
Proof.
  intros Hw Hlen Hd Hau V w. unfold verify_upgrade_quorum. rewrite Hd, bind_ret, Hau, bind_ret.
  rewrite (quorum_loop_exact s d au signers ∅ 0 0 Hw) by (lia || cbn; lia). cbn zeta.
  assert (valid_set d au ∅ signers = V) as -> by (unfold V, valid_set; apply set_eq; intros x; rewrite !elem_of_filter; unfold may_sign; set_solver).
  change (set_weight (weight_of s d) V) with w. rewrite !Z.add_0_l, (Z.leb_antisym (imax U32) w). destruct (imax U32 <? w); [done|]. cbn [negb].
  rewrite bind_ret. cbn [fst snd]. destruct (set_len V <? get_governance_config s); [done|]. cbn [fail_if orb]. rewrite bind_ret.
  by destruct (w <? _).
Qed.

(** ** Rotation *)
Lemma foldl_ones (l : list Address) (w : gmap Address Z) (a : Address) :
  foldl (fun w signer => <[signer := 1]> w) w l !! a = if decide (a ∈ l) then Some 1 else w !! a.
Proof.
  revert w. induction l as [|x l IH]; intros w; [done|]. cbn [foldl]. rewrite IH.
  destruct (decide (a ∈ l)) as [Ha|Ha]; [rewrite decide_True by (by right); done|].
  destruct (decide (x = a)) as [->|Hx]; [rewrite lookup_insert_eq, decide_True by left; done|].
  rewrite lookup_insert_ne, decide_False by (done || set_solver). done.
Qed.

(** A state in which the listed addresses weigh one each and are the only signers. *)
Record equal_signers (s : gov) (new : list Address) (n : Z) : Prop := {
  es_data : exists d, load_data (keys s) = Ok d /\ admin d ∈ new;
  es_signers : _get_signers (keys s) = Ok (list_to_set new);
  es_weights : forall a, signer_weights (settings s) !! a = if decide (a ∈ new) then Some 1 else None;
  es_quorum : get_governance_config s = n;
  es_required : required_weight (get_multisig_config s) = n
}.

Lemma rotated_equal (s s' : gov) (signers new : list Address) (n : Z) :
  rotate_admin_keys s signers new n = Ok s' -> equal_signers s' new n /\ n <= set_len (list_to_set new).
Proof.
  intros Hr. apply bind_Ok in Hr as (u & _ & Hr). apply bind_Ok in Hr as ([] & [_ Hn%Z.ltb_ge]%fail_if_Ok%orb_false_iff & Hr).
  apply bind_Ok in Hr as (d & Hd & Hr). apply bind_Ok in Hr as (first & Hf%ok_or_Ok & [= <-]). split; [|done].
  split; cbn; unfold Datatypes.id; try done.
  - eexists. split; [done|]. cbn. unfold vget in Hf. cbn in Hf. by apply list_elem_of_lookup_2 in Hf.
  - intros a. by rewrite foldl_ones.
Qed.

Lemma equal_weights (f : Address -> Z) (m : gset Address) : (forall a, a ∈ m -> f a = 1) -> set_weight f m = set_len m.
Proof.
  intros Hf. unfold set_weight, set_len, size, set_size. cbn.
  assert (forall a, a ∈ elements m -> f a = 1) as Hf' by (intros a Ha%elem_of_elements; auto).
  induction (elements m) as [|x l IH]; [done|]. cbn [fmap list_fmap zsum foldr length]. fold (zsum (f <$> l)).
  rewrite (Hf' x) by left. rewrite IH by (intros a Ha; apply Hf'; by right). lia.
Qed.

Lemma set_len_list (l : list Address) : set_len (list_to_set l) <= len l.
Proof.
  induction l as [|a l IH]; [done|]. assert (len (a :: l) = 1 + len l) as -> by (unfold len; cbn [length]; lia). cbn [list_to_set].
  change (list_to_set (a :: l)) with ({[a]} ∪ list_to_set l : gset Address). destruct (decide (a ∈ (list_to_set l : gset Address))) as [Ha|Ha].
  - assert ({[a]} ∪ list_to_set l = (list_to_set l : gset Address)) as -> by set_solver. lia.
  - rewrite set_len_insert by done. lia.
Qed.

Lemma filter_len (P : Address -> Prop) `{!forall a, Decision (P a)} (m : gset Address) : set_len (filter P m) <= set_len m.
Proof. unfold set_len. apply inj_le, subseteq_size. intros a. rewrite elem_of_filter. tauto. Qed.

(** A rotation leaves the new signers in charge. After [rotate_admin_keys] to a list
    with a threshold, a list of approvers passes the quorum exactly when it names at least
    that many of the new signers, and the new signers together always do. *)
Theorem rotation_leaves_quorum (s s' : gov) (signers new : list Address) (n : Z) :
  rotate_admin_keys s signers new n = Ok s' -> len new <= imax U32 ->
  (forall approvers, len approvers <= imax U32 ->
     verify_upgrade_quorum s' approvers = Ok tt <-> n <= set_len (filter (fun a => a ∈ new) (list_to_set approvers))) /\
  verify_upgrade_quorum s' new = Ok tt.
Proof.
  intros [[(d & Hd & Hin) Hau Hwt Hq Hreq] Hn]%rotated_equal Hnew.
  assert (forall approvers, len approvers <= imax U32 ->
     verify_upgrade_quorum s' approvers = Ok tt <-> n <= set_len (filter (fun a => a ∈ new) (list_to_set approvers))) as Hall.
  { intros approvers Hlen. unfold verify_upgrade_quorum. rewrite Hd, bind_ret, Hau, bind_ret.
    assert (weights_ok s') as Hok by (intros a w; rewrite Hwt; destruct (decide _); [by intros [= <-]|done]).
    rewrite (quorum_loop_exact s' d (list_to_set new) approvers ∅ 0 0 Hok) by (lia || cbn; lia). cbn zeta.
    set (V := filter (fun a => a ∈ new) _).
    assert (valid_set d (list_to_set new) ∅ approvers = V) as ->.
    { unfold V, valid_set. apply set_eq. intros x. rewrite !elem_of_filter. unfold may_sign. set_solver. }
    rewrite (equal_weights (weight_of s' d) V).
    2: { intros a [Ha _]%elem_of_filter. unfold weight_of, get_signer_weight. rewrite !Hwt, (decide_True _ _ Ha), (decide_True _ _ Hin). by case_bool_decide. }
    assert (set_len V <= len approvers) as HV.
    { etrans; [|apply set_len_list]. apply filter_len. }
    rewrite !Z.add_0_l, (proj2 (Z.leb_le _ _)) by lia. rewrite bind_ret. cbn [fst snd]. rewrite Hq, Hreq.
    destruct (Z.ltb_spec (set_len V) n); cbn [fail_if]; [split; [done|lia]|]. done. }
  split; [exact Hall|]. apply Hall; [done|]. etrans; [exact Hn|]. unfold set_len. apply inj_le, subseteq_size. intros a.
  rewrite elem_of_filter, elem_of_list_to_set. tauto.
Qed.

(** ** Histories *)
Inductive gov_call :=
  | GKeys (k : keyring)
  | GSubmit (who : Address) (hash : bytes)
  | GVoteCancel (voter : Address) (n expires : Z)
  | GCancel (who : Address) (n : Z)
  | GCouncil (caller council : Address)
  | GVeto (caller : Address) (n : Z) (reason : bytes)
  | GOverrideConfig (caller : Address) (signers : list Address) (bps : Z) (enabled : bool)
  | GOverrideVote (signer : Address) (n : Z) (reason : bytes)
  | GOverride (executor : Address) (n : Z)
  | GPropose (hash : bytes) (who : Address) (signers : list Address) (n : Z) (salt signature : bytes) (expires : Z)
  | GExecute (who : Address) (n : Z) (salt signature : bytes) (expires : Z)
  | GCancelUpgrade (who : Address)
  | GCleanup
  | GPurge
  | GWeight (a : Address) (w : Z)
  | GMultisig (c : MultiSigConfig)
  | GQuorum (n : Z)
  | GRotateKeys (signers new : list Address) (n : Z)
  | GRotateValidators (signers : list Address) (new : list bytes)
  | GFeeTier (signers : list Address) (bps : Z)
  | GFeeSplit (signers : list Address) (lp tr : Z)
  | GVault (signers : list Address) (vault : Address)
  | GOpenBallot (topic : bytes) (tgt repl who : Address) (cid : bytes)
  | GCastVote (topic : bytes) (voter : Address)
  | GCloseBallot (topic : bytes)
  | GCleanBallot (topic : bytes).

(** [GKeys] stands for the entry points of [Keys], which leave the rest alone. *)
Definition run_gov (i : gov_env) (s : gov) (x : gov_call) : R gov :=
  match x with
  | GKeys k => mret (with_keys s k)
  | GSubmit who hash => r ← entry_submit_governance_proposal is_hash_vetoed i s who hash; mret r.1
  | GVoteCancel voter n e => vote_cancel_governance_proposal i s voter n e
  | GCancel who n => entry_cancel_governance_proposal i s who n
  | GCouncil caller c => set_security_council i s caller c
  | GVeto caller n reason => veto_proposal i s caller n reason
  | GOverrideConfig caller l bps en => set_emergency_override_config i s caller l bps en
  | GOverrideVote signer n reason => vote_emergency_override i s signer n reason
  | GOverride ex n => r ← execute_emergency_override i s ex n; mret r.1
  | GPropose hash who l n salt sg e => propose_upgrade i s hash who l n salt sg e
  | GExecute who n salt sg e => execute_upgrade i s who n salt sg e
  | GCancelUpgrade who => cancel_upgrade i s who
  | GCleanup => r ← cleanup_expired_proposals i s; mret r.1
  | GPurge => purge_expired_revocation_prop s
  | GWeight a w => mret (set_signer_weight s a w)
  | GMultisig c => mret (set_multisig_config s c)
  | GQuorum n => mret (set_governance_config s n)
  | GRotateKeys l new n => rotate_admin_keys s l new n
  | GRotateValidators l new => r ← rotate_validators s l new; mret r.1
  | GFeeTier l bps => set_fee_tier s l bps
  | GFeeSplit l lp tr => set_fee_split_config s l lp tr
  | GVault l v => set_treasury_vault s l v
  | GOpenBallot topic t r who cid => open_ballot i s topic t r who cid
  | GCastVote topic voter => r ← cast_vote s topic voter; mret r.1
  | GCloseBallot topic => mret (close_ballot s topic)
  | GCleanBallot topic => r ← cleanup_expired_proposal i s topic; mret r.1
  end.

(** Numbers passed as [u32] are not negative. *)
Definition unsigned_call (x : gov_call) : Prop :=
  match x with GFeeSplit _ lp tr => 0 <= lp /\ 0 <= tr | GWeight _ w => 0 <= w | _ => True end.

(** What was called so far, the latest call first. *)
Abbreviation trace := (list (gov_env * gov_call)).

Inductive gov_history : trace -> gov -> Prop :=
  | gov_start k : gov_history [] (start_gov k)
  | gov_next tr s i x s' :
      gov_history tr s -> unsigned_call x -> run_gov i s x = Ok s' -> gov_history ((i, x) :: tr) s'.

(** ** Fees *)
Record fees_ok (s : gov) : Prop := {
  fo_tier : forall c, fee_tier (settings s) = Some c ->
    low_fee_tier_bps c = 5 /\ medium_fee_tier_bps c = 30 /\ high_fee_tier_bps c = 100 /\
    (fee_tier_bps c = 5 \/ fee_tier_bps c = 30 \/ fee_tier_bps c = 100);
  fo_split : forall c, fee_split (settings s) = Some c ->
    0 <= lp_share_bps c /\ 0 <= treasury_share_bps c /\ lp_share_bps c + treasury_share_bps c = 10000
}.

Lemma fees_same (s s' : gov) :
  fee_tier (settings s') = fee_tier (settings s) -> fee_split (settings s') = fee_split (settings s) -> fees_ok s -> fees_ok s'.
Proof. intros E1 E2 [H1 H2]. split; [by rewrite E1|by rewrite E2]. Qed.

Lemma consume_nonce_spec (s s' : gov) (who : Address) (n : Z) (salt sg : bytes) :
  consume_nonce s who n salt sg = Ok s' -> exists m, s' = set_nonces s m.
Proof.
  intros Hr. apply bind_Ok in Hr as (u & _ & Hr). apply bind_Ok in Hr as (u' & _ & Hr). apply bind_Ok in Hr as (next & _ & [= <-]). by eexists.
Qed.

(** What a cleanup may change. *)
Lemma cleanup_loop_keeps (i : gov_env) (s s' : gov) (states : gmap bytes TrackedProposal) (topics : list bytes) (n n' : Z) :
  cleanup_loop i s states topics n = Ok (s', n') ->
  settings s' = settings s /\ emergencies s' = emergencies s /\ proposal s' = proposal s /\
  proposal_counter s' = proposal_counter s /\ deployed s' = deployed s /\
  (pending_upgrade s' = pending_upgrade s \/ pending_upgrade s' = None).
Proof.
  revert s n. induction topics as [|t topics IH]; intros s n Hr; cbn [cleanup_loop] in Hr; [injection Hr as <- <-; by split_and!; auto|].
  destruct (states !! t) as [st|]; [|by apply (IH s n)]. destruct (_ && _); [|by apply (IH s n)].
  apply bind_Ok in Hr as (s1 & Hs1 & Hr). apply IH in Hr as (E1 & E2 & E3 & E4 & E5 & E6).
  assert (settings s1 = settings s /\ emergencies s1 = emergencies s /\ proposal s1 = proposal s /\
    proposal_counter s1 = proposal_counter s /\ deployed s1 = deployed s /\
    (pending_upgrade s1 = pending_upgrade s \/ pending_upgrade s1 = None)) as (F1 & F2 & F3 & F4 & F5 & F6).
  { repeat case_bool_decide; [injection Hs1 as <-; by split_and!; auto..| |injection Hs1 as <-; by split_and!; auto].
    apply bind_Ok in Hs1 as (k & _ & [= <-]). by split_and!; auto. }
  unfold _mark_proposal_expired in *. destruct (proposal_states s1 !! t); cbn in *;
    (split_and!; try congruence); (destruct E6 as [->|E6]; [exact F6|by right]).
Qed.

Lemma fees_step (i : gov_env) (s s' : gov) (x : gov_call) :
  fees_ok s -> unsigned_call x -> run_gov i s x = Ok s' -> fees_ok s'.
Proof.
  intros Hok HP Hr. assert (fee_tier (settings s') = fee_tier (settings s) -> fee_split (settings s') = fee_split (settings s) -> fees_ok s') as K
    by (intros E1 E2; by apply (fees_same s)).
  destruct x; cbn [run_gov unsigned_call] in *; try (injection Hr as <-; by apply K).
  - apply bind_Ok in Hr as ([s1 m] & Hr & [= <-]). skip 1 Hr. skip 3 Hr. injection Hr as <- _. by apply K.
  - skip 1 Hr. skip 1 Hr. skip 1 Hr. skip 1 Hr.
    skip 7 Hr. injection Hr as <-. by apply K.
  - skip 1 Hr. skip 1 Hr. skip 4 Hr. injection Hr as <-. by apply K.
  - skip 3 Hr. injection Hr as <-. by apply K.
  - skip 4 Hr. injection Hr as <-. by apply K.
  - skip 5 Hr. injection Hr as <-. by apply K.
  - skip 6 Hr. injection Hr as <-. by apply K.
  - apply bind_Ok in Hr as ([s1 m] & Hr & [= <-]). skip 8 Hr. injection Hr as <- _. by apply K.
  - skip 5 Hr. apply bind_Ok in Hr as (s1 & [m ->]%consume_nonce_spec & Hr).
    skip 3 Hr. injection Hr as <-. by apply K.
  - skip 4 Hr. apply bind_Ok in Hr as (s1 & [m ->]%consume_nonce_spec & Hr).
    skip 3 Hr. injection Hr as <-. by apply K.
  - skip 3 Hr. injection Hr as <-. by apply K.
  - apply bind_Ok in Hr as ([s1 m] & (E & _)%cleanup_loop_keeps & [= <-]). apply K; by rewrite E.
  - apply bind_Ok in Hr as (k & _ & [= <-]). by apply K.
  - skip 1 Hr. skip 3 Hr. injection Hr as <-. by apply K.
  - apply bind_Ok in Hr as ([s1 m] & Hr & [= <-]). skip 2 Hr. injection Hr as <- _. by apply K.
  - skip 1 Hr. apply bind_Ok in Hr as ([] & Hb%fail_if_Ok & [= <-]). destruct Hok as [H1 H2]. split; cbn; [|exact H2].
    intros c [= <-]. cbn. unfold get_fee_tier_config in *. apply andb_false_iff in Hb.
    assert (low_fee_tier_bps (default default_fee_tier (fee_tier (settings s))) = 5 /\ medium_fee_tier_bps (default default_fee_tier (fee_tier (settings s))) = 30 /\
      high_fee_tier_bps (default default_fee_tier (fee_tier (settings s))) = 100) as (E1 & E2 & E3).
    { destruct (fee_tier (settings s)) as [c|]; [|done]. destruct (H1 c eq_refl) as (? & ? & ? & _). done. }
    rewrite E1, E2, E3 in *. split_and!; try done. rewrite andb_false_iff, !negb_false_iff, !Z.eqb_eq in Hb. tauto.
  - skip 1 Hr. apply bind_Ok in Hr as ([] & Hb%fail_if_Ok%bool_decide_eq_false%dec_stable & [= <-]).
    destruct Hok as [H1 H2]. split; cbn; [exact H1|]. intros c [= <-]. apply chk_Some in Hb as [E _]. cbn. lia.
  - apply bind_Ok in Hr as (? & _ & [= <-]). by apply K.
  - apply bind_Ok in Hr as (? & _ & [= <-]). by apply K.
  - apply bind_Ok in Hr as ([s1 m] & Hr & [= <-]). skip 2 Hr. injection Hr as <- _. by apply K.
  - apply bind_Ok in Hr as ([s1 m] & Hr & [= <-]). skip 2 Hr. destruct (negb _); injection Hr as <- _; by apply K.
Qed.

Lemma fees_history (tr : trace) (s : gov) : gov_history tr s -> fees_ok s.
Proof. induction 1 as [k|tr s i x s' _ IH HP Hr]; [split; cbn; discriminate|by apply (fees_step i s s' x)]. Qed.

(** How collected fees are split. Whatever was called before, the fee tier is one of
    5, 30 and 100 basis points, and an amount is divided into the two shares rounded down,
    which together miss the amount by at most one unit; an amount whose products leave
    [u128] is refused with [Overflow]. *)
Theorem fee_split_exact (tr : trace) (s : gov) (amount : Z) :
  gov_history tr s -> 0 <= amount <= imax U128 ->
  (get_fee_tier s = 5 \/ get_fee_tier s = 30 \/ get_fee_tier s = 100) /\
  exists lp, 0 <= lp <= 10000 /\ get_fee_split_config s = {| lp_share_bps := lp; treasury_share_bps := 10000 - lp |} /\
    split_collected_fees s amount =
      (if amount * Z.max lp (10000 - lp) <=? imax U128 then Ok (amount * lp / 10000, amount * (10000 - lp) / 10000) else Err Overflow) /\
    amount - 1 <= amount * lp / 10000 + amount * (10000 - lp) / 10000 <= amount.
Proof.
  intros [H1 H2]%fees_history Ha. split.
  { unfold get_fee_tier, get_fee_tier_config. destruct (fee_tier (settings s)) as [c|]; [by apply (H1 c)|by right; left]. }
  assert (exists lp, 0 <= lp <= 10000 /\ get_fee_split_config s = {| lp_share_bps := lp; treasury_share_bps := 10000 - lp |}) as (lp & Hlp & Ec).
  { unfold get_fee_split_config. destruct (fee_split (settings s)) as [[x y]|]; [|by exists 8000].
    destruct (H2 _ eq_refl) as (Hx & Hy & E). cbn in *. exists x. split; [lia|]. f_equal. lia. }
  exists lp. split; [done|]. split; [done|]. unfold split_collected_fees. rewrite Ec. cbn [lp_share_bps treasury_share_bps].
  pose proof (Z.mul_div_le (amount * lp) 10000). pose proof (Z.mul_succ_div_gt (amount * lp) 10000).
  pose proof (Z.mul_div_le (amount * (10000 - lp)) 10000). pose proof (Z.mul_succ_div_gt (amount * (10000 - lp)) 10000).
  split; [|lia]. unfold checked_mul, chk.
  assert (forall x, 0 <= x -> fits U128 (amount * x) = (amount * x <=? imax U128)) as Hfit.
  { intros x Hx. unfold fits. rewrite (proj2 (Z.leb_le (imin U128) _)) by (cbn [imin]; nia). done. }
  rewrite !Hfit by lia. destruct (Z.leb_spec (amount * Z.max lp (10000 - lp)) (imax U128)) as [Hm|Hm].
  - rewrite !(proj2 (Z.leb_le _ _)) by nia. done.
  - destruct (Z.leb_spec (amount * lp) (imax U128)); [|done]. cbn [ok_or]. rewrite bind_ret. rewrite (proj2 (Z.leb_gt _ _)) by nia. done.
Qed.

(** ** Vetoes *)
(** What a call of the proposal machinery sees and leaves, but for the veto record. *)
Definition same_but_veto (s t : gov) : Prop :=
  keys s = keys t /\ settings s = settings t /\ proposal s = proposal t /\ proposal_counter s = proposal_counter t /\
  pending_upgrade s = pending_upgrade t /\ deployed s = deployed t /\
  override_config (emergencies s) = override_config (emergencies t) /\ override_votes (emergencies s) = override_votes (emergencies t).

Lemma veto_same (i : gov_env) (s s' : gov) (caller : Address) (n : Z) (reason : bytes) :
  veto_proposal i s caller n reason = Ok s' ->
  same_but_veto s s' /\ veto_record (emergencies s') = Some {| pv_proposal_id := n; vetoed_by := caller; vetoed_at := timestamp (base i); reason_hash := reason |}.
Proof. intros Hr. skip 4 Hr. injection Hr as <-. done. Qed.

(** A veto changes nothing. It is recorded for its proposal, but the proposal stays as it is: it
    is as executable as before, blocks and is cancelled as before, and the
    emergency signers deploy it as before; and the next veto of another proposal erases
    the record. *)
Theorem veto_changes_nothing (i : gov_env) (s s' : gov) (council : Address) (n : Z) (reason : bytes) :
  veto_proposal i s council n reason = Ok s' ->
  is_proposal_vetoed s' n = true /\ proposal s' = proposal s /\
  (forall j m, is_proposal_executable j s' m = is_proposal_executable j s m) /\
  (forall j ex m t r, execute_emergency_override j s ex m = Ok (t, r) ->
     exists t', execute_emergency_override j s' ex m = Ok (t', r) /\ deployed t' = deployed t) /\
  (forall j m reason' t, veto_proposal j s' council m reason' = Ok t -> m <> n -> is_proposal_vetoed t n = false).
Proof.
  intros [(E1 & E2 & E3 & E4 & E5 & E6 & E7 & E8) Ev]%veto_same. split_and!.
  - unfold is_proposal_vetoed, get_veto_record. rewrite Ev. cbn. rewrite Z.eqb_refl. done.
  - done.
  - intros j m. unfold is_proposal_executable. by rewrite E3.
  - intros j ex m t r Hx. unfold execute_emergency_override, load_emergency_override_config, open_proposal, get_emergency_override_votes in *.
    rewrite <- E3, <- E7, <- E8, <- E4. cbn zeta in *. do 5 (apply bind_Ok in Hx as (? & -> & Hx); rewrite bind_ret).
    do 3 (apply bind_Ok in Hx as (? & -> & Hx); rewrite bind_ret). injection Hx as <- <-. eexists. split; [done|]. done.
  - intros j m reason' t [_ Et]%veto_same Hm. unfold is_proposal_vetoed, get_veto_record. rewrite Et. cbn.
    rewrite (proj2 (Z.eqb_neq m n) Hm). done.
Qed.

(** ** Staged upgrades *)
(** When a staged upgrade executes. The admin with a fresh nonce and an unexpired
    signature deploys a staged upgrade of uploaded code exactly when the ledger sequence
    has reached 5000 more than the timestamp at which it was staged, taken as a [u32]: the
    moment recorded as the earliest one is never looked at, and while ledger numbers stay
    below timestamps no upgrade can execute. *)
Theorem upgrade_delay_exact (i : gov_env) (s : gov) (d : ContractData) (p : StagedUpgrade) (salt : bytes) (expires : Z) :
  load_data (keys s) = Ok d -> auth (base i) (admin d) = true -> timestamp (base i) <= expires -> 0 <= get_nonce s (admin d) < imax U64 ->
  pending_upgrade s = Some p -> uploaded i (su_wasm_hash p) = true -> 0 <= sequence i <= imax U32 ->
  let n := get_nonce s (admin d) in
  let r := execute_upgrade i s (admin d) n salt (derive_salt_signature n salt) expires in
  (5000 + su_staged_at p mod 2 ^ 32 <= sequence i ->
     exists s', r = Ok s' /\ deployed s' = Some (su_wasm_hash p) /\ pending_upgrade s' = None /\ get_nonce s' (admin d) = n + 1) /\
  (sequence i < 5000 + su_staged_at p mod 2 ^ 32 -> r = Err UpgradeTimelockNotSatisfied).
Proof.
  clear is_hash_vetoed. intros Hd Hau Hexp Hn Hp Hup Hseq n r. unfold r, execute_upgrade. rewrite (proj2 (Z.ltb_ge expires _)) by lia. cbn [fail_if]. rewrite bind_ret, Hd, bind_ret.
  rewrite (bool_decide_eq_true_2 (admin d = admin d)) by done. cbn [negb fail_if]. rewrite bind_ret. unfold require_auth. rewrite Hau, bind_ret.
  unfold consume_nonce. fold (get_nonce s (admin d)). fold n. rewrite Z.eqb_refl. cbn [negb fail_if]. rewrite bind_ret, (bool_decide_eq_false_2 (derive_salt_signature n salt <> _)) by tauto.
  cbn [fail_if]. rewrite bind_ret. unfold iadd. change (nonce (load_state s (admin d))) with n. rewrite (iop_in U64 (n + 1)) by (cbn [imin]; lia). rewrite !bind_ret.
  set (s1 := set_nonces s _). assert (pending_upgrade s1 = Some p) as Hp1 by exact Hp. change (@mret (result ContractError) _ gov s1) with (@Ok ContractError gov s1).
  rewrite bind_ret, Hp1. cbn [ok_or]. rewrite bind_ret.
  assert (cast U32 (su_staged_at p) = su_staged_at p mod 2 ^ 32) as ->.
  { unfold cast. cbn [imin bits_of]. rewrite Z.sub_0_r, Z.add_0_r. done. }
  assert (0 <= su_staged_at p mod 2 ^ 32 < 2 ^ 32) as Hm by (apply Z.mod_pos_bound; lia).
  unfold verify_staged_delay, saturating_sub, clamp, MIN_LEDGER_DELAY. cbn [imin imax] in *.
  split; intros Hs; cbv zeta.
  - rewrite (proj2 (Z.leb_le 5000 _)) by lia. cbn [negb fail_if]. rewrite bind_ret. unfold update_wasm. rewrite Hup. eexists. split; [done|].
    split; [done|]. split; [done|]. unfold get_nonce, load_state. cbn. rewrite lookup_insert_eq. done.
  - rewrite (proj2 (Z.leb_gt 5000 _)) by lia. done.
Qed.

(** ** Early deployments *)
(** A call in the trace, authorised by an address. *)
Definition called (tr : trace) (a : Address) (x : gov_call) : Prop := exists i, (i, x) ∈ tr /\ auth (base i) a = true.

Lemma called_later (tr : trace) (a : Address) (x : gov_call) (c : gov_env * gov_call) : called tr a x -> called (c :: tr) a x.
Proof. intros (i & Hi & Ha). exists i. split; [by right|done]. Qed.

(** The submission of a proposal, and what was called since. *)
Record backed (tr : trace) (s : gov) (p : GovernanceProposal) (later : trace) : Prop := {
  bk_submit : exists j earlier, tr = later ++ (j, GSubmit (proposer p) (wasm_hash p)) :: earlier /\
    auth (base j) (proposer p) = true /\ staged_at p = sequence j;
  bk_votes : forall a, is_Some (get_emergency_override_votes s (proposal_id p) !! a) ->
    exists reason, called later a (GOverrideVote a (proposal_id p) reason);
  bk_cancels : forall a, a ∈ cancellation_votes p -> exists e, called later a (GVoteCancel a (proposal_id p) e)
}.

Record gov_ok (tr : trace) (s : gov) : Prop := {
  go_counter : 0 <= default 0 (proposal_counter s) <= len tr;
  go_votes : forall n m, override_votes (emergencies s) !! n = Some m -> n <= default 0 (proposal_counter s);
  go_config : forall c, override_config (emergencies s) = Some c ->
    emergency_signers c <> [] /\ MIN_EMERGENCY_OVERRIDE_THRESHOLD_BPS <= threshold_bps c <= MAX_EMERGENCY_OVERRIDE_THRESHOLD_BPS;
  go_proposal : forall p, proposal s = Some p -> proposal_id p = default 0 (proposal_counter s) /\ exists later, backed tr s p later
}.

Lemma len_cons {A : Type} (x : A) (l : list A) : len (x :: l) = len l + 1.
Proof. unfold len. cbn [length]. lia. Qed.

(** One more call, with a proposal that keeps its identity. *)
Lemma backed_later (tr : trace) (s s' : gov) (p p' : GovernanceProposal) (later : trace) (c : gov_env * gov_call) :
  backed tr s p later -> proposal_id p' = proposal_id p -> wasm_hash p' = wasm_hash p -> proposer p' = proposer p -> staged_at p' = staged_at p ->
  (forall a, is_Some (get_emergency_override_votes s' (proposal_id p) !! a) ->
     is_Some (get_emergency_override_votes s (proposal_id p) !! a) \/ exists reason, called (c :: later) a (GOverrideVote a (proposal_id p) reason)) ->
  (forall a, a ∈ cancellation_votes p' -> a ∈ cancellation_votes p \/ exists e, called (c :: later) a (GVoteCancel a (proposal_id p) e)) ->
  backed (c :: tr) s' p' (c :: later).
Proof.
  intros [(j & earlier & -> & Ha & Hst) Hv Hc] E1 E2 E3 E4 Hv' Hc'. split.
  - exists j, earlier. rewrite E2, E3, E4. done.
  - intros a Hx. rewrite E1 in Hx. rewrite E1. apply Hv' in Hx as [Hx|Hx]; [|done]. destruct (Hv a Hx) as [reason Hr]. exists reason. by apply called_later.
  - intros a Hx. rewrite E1. apply Hc' in Hx as [Hx|Hx]; [|done]. destruct (Hc a Hx) as [e He]. exists e. by apply called_later.
Qed.

Lemma gov_ok_same (tr : trace) (s s' : gov) (c : gov_env * gov_call) :
  gov_ok tr s -> proposal s' = proposal s -> proposal_counter s' = proposal_counter s ->
  override_votes (emergencies s') = override_votes (emergencies s) ->
  override_config (emergencies s') = override_config (emergencies s) -> gov_ok (c :: tr) s'.
Proof.
  intros [H1 H2 H3 H4] E1 E2 E3 E4. split; rewrite ?E1, ?E2, ?E3, ?E4, ?len_cons; try done; [lia|].
  intros p Hp. destruct (H4 p Hp) as (En & later & Hb). split; [done|]. exists (c :: later).
  apply (backed_later tr s s' p p later c Hb); try done; [|by left].
  intros a. unfold get_emergency_override_votes. rewrite E3. by left.
Qed.

(** The proposal is replaced by one with more cancellation votes or another status. *)
Lemma gov_ok_cancel (tr : trace) (s : gov) (p : GovernanceProposal) (st : ProposalStatus) (votes : gset Address) (c : gov_env * gov_call) :
  gov_ok tr s -> proposal s = Some p ->
  (forall later a, a ∈ votes -> a ∈ cancellation_votes p \/ exists e, called (c :: later) a (GVoteCancel a (proposal_id p) e)) ->
  gov_ok (c :: tr) (store_proposal s (with_votes p st votes)).
Proof.
  intros [H1 H2 H3 H4] Hp Hv. split; cbn; try done; [rewrite len_cons; lia|]. intros q [= <-]. destruct (H4 p Hp) as (En & later & Hb).
  split; [done|]. exists (c :: later). apply (backed_later tr s _ p _ later c Hb); try done; [by left|]. cbn. apply Hv.
Qed.

Lemma submit_ok (tr : trace) (i : gov_env) (s s' : gov) (who : Address) (hash : bytes) :
  gov_ok tr s -> len tr < imax U64 -> run_gov i s (GSubmit who hash) = Ok s' -> gov_ok ((i, GSubmit who hash) :: tr) s'.
Proof.
  intros [H1 H2 H3 H4] Hlen Hr. cbn [run_gov] in Hr. apply bind_Ok in Hr as ([s1 n] & Hr & [= <-]). apply bind_Ok in Hr as (u & _ & Hr).
  skip 2 Hr. apply bind_Ok in Hr as ([] & Ha%require_auth_Ok & [= <- _]).
  assert (_next_proposal_id s = default 0 (proposal_counter s) + 1) as En.
  { unfold _next_proposal_id, checked_add, chk. rewrite (proj2 (fits_spec U64 _)) by (cbn [imin] in *; lia). done. }
  split; cbn; unfold Datatypes.id; rewrite ?En, ?len_cons; try done; [lia| |].
  - intros m y Hx. specialize (H2 m y Hx). lia.
  - intros p [= <-]. split; [done|]. exists []. split; cbn; [by exists i, tr| |set_solver]. intros a [v Hv].
    unfold get_emergency_override_votes in Hv. cbn in Hv. destruct (override_votes (emergencies s) !! (default 0 (proposal_counter s) + 1)) as [y|] eqn:Em; [|done].
    specialize (H2 _ _ Em). lia.
Qed.

Lemma vote_cancel_ok (tr : trace) (i : gov_env) (s s' : gov) (voter : Address) (n e : Z) :
  gov_ok tr s -> run_gov i s (GVoteCancel voter n e) = Ok s' -> gov_ok ((i, GVoteCancel voter n e) :: tr) s'.
Proof.
  intros Hok Hr. cbn [run_gov] in Hr. skip 4 Hr. apply bind_Ok in Hr as ([] & _ & Hr).
  apply bind_Ok in Hr as ([] & Ha%require_auth_Ok & Hr). apply bind_Ok in Hr as (p & Hp%ok_or_Ok & Hr).
  apply bind_Ok in Hr as ([] & Hn%fail_if_Ok%negb_false_iff%Z.eqb_eq & Hr). skip 3 Hr. injection Hr as <-.
  apply gov_ok_cancel; [done|done|]. intros later a [->%elem_of_singleton|Hv]%elem_of_union; [|by left]. right. exists e, i. rewrite Hn.
  split; [left|done].
Qed.

Lemma cancel_ok (tr : trace) (i : gov_env) (s s' : gov) (who : Address) (n : Z) :
  gov_ok tr s -> run_gov i s (GCancel who n) = Ok s' -> gov_ok ((i, GCancel who n) :: tr) s'.
Proof.
  intros Hok Hr. cbn [run_gov] in Hr. skip 3 Hr. apply bind_Ok in Hr as (p & Hp%ok_or_Ok & Hr).
  skip 2 Hr. injection Hr as <-. apply gov_ok_cancel; [done|done|]. by left.
Qed.

Lemma open_proposal_Ok (s : gov) (n : Z) (p : GovernanceProposal) :
  open_proposal s n = Ok p -> proposal s = Some p /\ proposal_id p = n /\ is_open p = true.
Proof.
  intros Hr. apply bind_Ok in Hr as (q & Hq%ok_or_Ok & Hr). apply bind_Ok in Hr as ([] & Hn%fail_if_Ok%negb_false_iff%Z.eqb_eq & Hr).
  apply bind_Ok in Hr as ([] & Ho%fail_if_Ok%negb_false_iff & [= <-]). done.
Qed.

Lemma votes_set (s : gov) (v : gmap Z (gmap Address EmergencyOverrideVote)) (n m : Z) (x : gmap Address EmergencyOverrideVote) :
  get_emergency_override_votes (set_override_votes s (<[n := x]> v)) m = if decide (m = n) then x else default ∅ (v !! m).
Proof.
  unfold get_emergency_override_votes. cbn. destruct (decide (m = n)) as [->|Hm]; [by rewrite lookup_insert_eq|by rewrite lookup_insert_ne].
Qed.

Lemma override_vote_ok (tr : trace) (i : gov_env) (s s' : gov) (signer : Address) (n : Z) (reason : bytes) :
  gov_ok tr s -> run_gov i s (GOverrideVote signer n reason) = Ok s' -> gov_ok ((i, GOverrideVote signer n reason) :: tr) s'.
Proof.
  intros [H1 H2 H3 H4] Hr. cbn [run_gov] in Hr. skip 2 Hr. apply bind_Ok in Hr as ([] & Ha%require_auth_Ok & Hr).
  apply bind_Ok in Hr as (p & (Hp & Hn & _)%open_proposal_Ok & Hr). skip 2 Hr. injection Hr as <-.
  destruct (H4 p Hp) as (En & later & Hb). split.
  - cbn. rewrite len_cons. lia.
  - cbn. intros m y [[<- _]|[_ Hx]]%lookup_insert_Some; [lia|by apply (H2 m y)].
  - exact H3.
  - cbn. intros q Hq. assert (q = p) as -> by congruence. split; [done|]. exists ((i, GOverrideVote signer n reason) :: later).
    apply (backed_later tr s _ p p later _ Hb); try done; [|by left]. intros a. rewrite votes_set, Hn, decide_True by done.
    intros [v [[<- _]|[_ Hv]]%lookup_insert_Some]; [|left; by exists v]. right. exists reason, i. split; [left|done].
Qed.

Lemma override_config_ok (tr : trace) (i : gov_env) (s s' : gov) (caller : Address) (l : list Address) (bps : Z) (en : bool) (c : gov_env * gov_call) :
  gov_ok tr s -> run_gov i s (GOverrideConfig caller l bps en) = Ok s' -> gov_ok (c :: tr) s'.
Proof.
  intros Hok Hr. cbn [run_gov] in Hr. skip 3 Hr. apply bind_Ok in Hr as ([] & Hl%fail_if_Ok%Z.eqb_neq & Hr).
  apply bind_Ok in Hr as ([] & [Hlo%Z.ltb_ge Hhi%Z.ltb_ge]%fail_if_Ok%orb_false_iff & [= <-]).
  assert (gov_ok (c :: tr) (set_override_votes s (override_votes (emergencies s)))) as [G1 G2 _ G4] by by apply (gov_ok_same tr s).
  split; [exact G1|exact G2| |].
  - cbn. intros c0 [= <-]. cbn. split; [by intros ->|lia].
  - intros p Hp. destruct (G4 p Hp) as (En & later & [B1 B2 B3]). split; [done|]. by exists later.
Qed.

(** What an early deployment checked. *)
Lemma override_Ok (i : gov_env) (s s' : gov) (ex : Address) (n : Z) (r : EmergencyOverrideResult) :
  execute_emergency_override i s ex n = Ok (s', r) ->
  exists p c, proposal s = Some p /\ proposal_id p = n /\ is_open p = true /\ override_config (emergencies s) = Some c /\
    ex ∈ emergency_signers c /\ auth (base i) ex = true /\
    threshold_bps c * len (emergency_signers c) <= count (get_emergency_override_votes s n) * 10000 /\
    votes_for r = count (get_emergency_override_votes s n) /\ total_signers r = len (emergency_signers c) /\
    deployed s' = Some (wasm_hash p) /\ proposal s' = None /\ proposal_counter s' = proposal_counter s /\ pending_upgrade s' = None /\
    override_config (emergencies s') = override_config (emergencies s) /\
    override_votes (emergencies s') = delete n (override_votes (emergencies s)).
Proof.
  intros Hr. unfold execute_emergency_override in Hr. skip 1 Hr.
  apply bind_Ok in Hr as ([] & Hin%fail_if_Ok%negb_false_iff%bool_decide_eq_true & Hr). apply bind_Ok in Hr as ([] & Ha%require_auth_Ok & Hr).
  apply bind_Ok in Hr as (p & (Hp & Hn & Ho)%open_proposal_Ok & Hr). apply bind_Ok in Hr as ([] & Hz%fail_if_Ok%Z.eqb_neq & Hr).
  apply bind_Ok in Hr as (q & Hq & Hr). apply bind_Ok in Hr as ([] & Ht%fail_if_Ok%Z.ltb_ge & Hr). apply bind_Ok in Hr as (code & Hc & Hr).
  injection Hr as <- <-. unfold load_emergency_override_config in *.
  destruct (override_config (emergencies s)) as [c|] eqn:Ec; [|cbn in Hin; by apply not_elem_of_nil in Hin]. cbn [default option_rect] in *.
  exists p, c. cbn. unfold Datatypes.id in *. rewrite Ec. unfold update_wasm in Hc. destruct (uploaded i (wasm_hash p)); [|done]. injection Hc as <-.
  split_and!; try done. apply bind_Ok in Hq as (y & [-> _]%ok_or_Ok%chk_Some & Hq). apply bind_Ok in Hq as (z & Hy%ok_or_Ok & [= <-]).
  unfold checked_div in Hy. pose proof (len_nonneg (emergency_signers c)) as Hln. unfold Datatypes.id in *. rewrite (proj2 (Z.eqb_neq _ 0) Hz) in Hy.
  apply chk_Some in Hy as [-> Hy]. set (v := count _) in *. assert (0 <= v) as Hv by (unfold v, count; lia).
  rewrite Z.quot_div_nonneg in Ht by lia. set (q := v * 10000 / len (emergency_signers c)) in *.
  assert (cast U32 q <= q) as Hcast.
  { unfold cast. cbn [imin bits_of]. rewrite Z.sub_0_r, Z.add_0_r. apply Z.mod_le; [|done]. unfold q. apply Z.div_pos; lia. }
  pose proof (Z.mul_div_le (v * 10000) (len (emergency_signers c)) ltac:(lia)) as Hd. fold q in Hd. nia.
Qed.

Lemma override_ok (tr : trace) (i : gov_env) (s s' : gov) (ex : Address) (n : Z) (c : gov_env * gov_call) :
  gov_ok tr s -> run_gov i s (GOverride ex n) = Ok s' -> gov_ok (c :: tr) s'.
Proof.
  intros [H1 H2 H3 H4] Hr. cbn [run_gov] in Hr. apply bind_Ok in Hr as ([s1 r] & Hr & [= <-]).
  apply override_Ok in Hr as (p & cf & _ & _ & _ & Ec & _ & _ & _ & _ & _ & _ & Ep & En & _ & Ec' & Ev). split; rewrite ?Ep, ?En, ?Ec', ?Ev, ?len_cons; try done; [lia|].
  intros m x [_ Hx]%lookup_delete_Some. by apply (H2 m x).
Qed.

(** The calls that leave the proposal and the overrides alone. *)
Definition keeps_proposals (x : gov_call) : bool :=
  match x with
  | GSubmit _ _ | GVoteCancel _ _ _ | GCancel _ _ | GOverrideConfig _ _ _ _ | GOverrideVote _ _ _ | GOverride _ _ => false
  | _ => true
  end.

Lemma keeps_same (i : gov_env) (s s' : gov) (x : gov_call) :
  keeps_proposals x = true -> run_gov i s x = Ok s' ->
  proposal s' = proposal s /\ proposal_counter s' = proposal_counter s /\
  override_votes (emergencies s') = override_votes (emergencies s) /\ override_config (emergencies s') = override_config (emergencies s).
Proof.
  intros Hk Hr. destruct x; try done; cbn [run_gov] in Hr; try (injection Hr as <-; done).
  - skip 3 Hr. by injection Hr as <-.
  - skip 4 Hr. by injection Hr as <-.
  - skip 5 Hr. apply bind_Ok in Hr as (s1 & [m ->]%consume_nonce_spec & Hr).
    skip 3 Hr. by injection Hr as <-.
  - skip 4 Hr. apply bind_Ok in Hr as (s1 & [m ->]%consume_nonce_spec & Hr).
    skip 3 Hr. by injection Hr as <-.
  - skip 3 Hr. by injection Hr as <-.
  - apply bind_Ok in Hr as ([s1 m] & (_ & E2 & E3 & E4 & _)%cleanup_loop_keeps & [= <-]). by rewrite E2.
  - apply bind_Ok in Hr as (k & _ & [= <-]). done.
  - skip 4 Hr. by injection Hr as <-.
  - apply bind_Ok in Hr as ([s1 m] & Hr & [= <-]). skip 2 Hr. by injection Hr as <- _.
  - skip 2 Hr. by injection Hr as <-.
  - skip 2 Hr. by injection Hr as <-.
  - skip 1 Hr. by injection Hr as <-.
  - skip 1 Hr. by injection Hr as <-.
  - apply bind_Ok in Hr as ([s1 m] & Hr & [= <-]). skip 2 Hr. by injection Hr as <- _.
  - apply bind_Ok in Hr as ([s1 m] & Hr & [= <-]). skip 2 Hr. destruct (negb _); by injection Hr as <- _.
Qed.

Lemma gov_ok_step (tr : trace) (i : gov_env) (s s' : gov) (x : gov_call) :
  gov_ok tr s -> len tr < imax U64 -> run_gov i s x = Ok s' -> gov_ok ((i, x) :: tr) s'.
Proof.
  intros Hok Hlen Hr. destruct (keeps_proposals x) eqn:Hk.
  - destruct (keeps_same i s s' x Hk Hr) as (E1 & E2 & E3 & E4). by apply (gov_ok_same tr s).
  - destruct x; try done; [by apply (submit_ok tr i s)|by apply (vote_cancel_ok tr i s)|by apply (cancel_ok tr i s)
    |by apply (override_config_ok tr i s s' caller signers bps enabled)|by apply (override_vote_ok tr i s)|by apply (override_ok tr i s s' executor n)].
Qed.

Lemma gov_history_ok (tr : trace) (s : gov) : gov_history tr s -> len tr <= imax U64 -> gov_ok tr s.
Proof.
  induction 1 as [k|tr s i x s' Hs IH HP Hr]; intros Hlen; [split; cbn; unfold Datatypes.id; done|].
  rewrite len_cons in Hlen. apply (gov_ok_step tr i s); [apply IH; lia|lia|done].
Qed.

(** C30: An early deployment rests on votes. In any history of fewer than 2^64 calls, when
    the emergency signers deploy proposal n, the code deployed is that of a submission
    its proposer authorised; more than half as many distinct addresses as signers are now
    listed have voted, each in a call it authorised for this proposal after that
    submission; the executor is listed and authorises the call; and the proposal
    and any staged upgrade are gone. *)
Theorem override_justified (tr : trace) (s s' : gov) (i : gov_env) (ex : Address) (n : Z) (r : EmergencyOverrideResult) :
  gov_history tr s -> len tr <= imax U64 -> execute_emergency_override i s ex n = Ok (s', r) ->
  exists j who hash later earlier voters,
    tr = later ++ (j, GSubmit who hash) :: earlier /\ auth (base j) who = true /\ deployed s' = Some hash /\
    NoDup voters /\ len voters = votes_for r /\ total_signers r < 2 * votes_for r /\
    (forall a, a ∈ voters -> exists reason k, (k, GOverrideVote a n reason) ∈ later /\ auth (base k) a = true) /\
    auth (base i) ex = true /\ proposal s' = None /\ pending_upgrade s' = None.
Proof.
  intros Hs Hlen Hr. destruct (gov_history_ok tr s Hs Hlen) as [_ _ Hcfg Hprop].
  apply override_Ok in Hr as (p & c & Hp & Hn & _ & Ec & Hin & Hau & Hthr & Ev & Et & Ed & Ep & _ & Eu & _).
  destruct (Hcfg c Ec) as [Hne [Hlo _]]. unfold MIN_EMERGENCY_OVERRIDE_THRESHOLD_BPS in Hlo.
  destruct (Hprop p Hp) as (_ & later & [(j & earlier & Etr & Hj & _) Hv _]). rewrite Hn in Hv.
  exists j, (proposer p), (wasm_hash p), later, earlier, ((map_to_list (get_emergency_override_votes s n)).*1). split_and!; try done.
  - apply NoDup_fst_map_to_list.
  - rewrite Ev. unfold len, count. by rewrite length_fmap, length_map_to_list.
  - assert (0 < len (emergency_signers c)) by (unfold len; destruct (emergency_signers c); [done|cbn [length]; lia]). nia.
  - intros a ([b v] & -> & Hb%elem_of_map_to_list)%list_elem_of_fmap. destruct (Hv b) as (reason & k & Hk & Hak); [by exists v|]. by exists reason, k.
Qed.
End claims.

Section witnesses.
#[local] Existing Instance test_host.

Definition no_vetoes (h : bytes) : bool := false.
Definition gov_at (who now : Z) : gov_env :=
  {| base := {| auth := fun a : @Address test_host => Z.eqb a who; timestamp := now |}; sequence := now; uploaded := fun _ => true |}.

Definition gov_keys : @keyring test_host :=
  set_signers (set_data empty_keyring (@Build_ContractData test_host 1 0 10000)) (list_to_set (C := gset (@Address test_host)) [2; 3]).

Definition weighted : @gov test_host := set_signer_weight (start_gov gov_keys) 2 5.

Lemma weighted_ok : weights_ok weighted.
Proof. intros a w. cbn. intros [[_ <-]|[_ Hw]]%lookup_insert_Some; [done|by rewrite lookup_empty in Hw]. Qed.

Lemma quorum_exact_witness :
  verify_upgrade_quorum weighted [1; 2; 2; 9] = Ok tt /\ verify_upgrade_quorum weighted [2; 2; 9] = Err ThresholdNotReached.
Proof.
  pose proof (quorum_exact (H := test_host) weighted (@Build_ContractData test_host 1 0 10000) (list_to_set [2; 3]) [1; 2; 2; 9] weighted_ok
    ltac:(vm_compute; discriminate) eq_refl eq_refl) as E1.
  pose proof (quorum_exact (H := test_host) weighted (@Build_ContractData test_host 1 0 10000) (list_to_set [2; 3]) [2; 2; 9] weighted_ok
    ltac:(vm_compute; discriminate) eq_refl eq_refl) as E2.
  cbn zeta in E1, E2. split; [rewrite E1|rewrite E2]; vm_compute; reflexivity.
Defined.

Definition rotated : @gov test_host := match rotate_admin_keys weighted [1; 2] [4; 5; 6] 2 with Ok s => s | _ => weighted end.

Lemma rotation_leaves_quorum_witness :
  verify_upgrade_quorum rotated [4; 5; 6] = Ok tt /\ verify_upgrade_quorum rotated [6; 7; 6] <> Ok tt.
Proof.
  assert (rotate_admin_keys weighted [1; 2] [4; 5; 6] 2 = Ok rotated) as Hr.
  { unfold rotated. destruct (is_ok_Ok (rotate_admin_keys weighted [1; 2] [4; 5; 6] 2)) as [s ->]; [vm_compute; reflexivity|done]. }
  destruct (rotation_leaves_quorum (H := test_host) weighted rotated [1; 2] [4; 5; 6] 2 Hr ltac:(vm_compute; discriminate)) as [Hall Hnew].
  split; [exact Hnew|]. intros Hx. apply Hall in Hx; [|vm_compute; discriminate]. vm_compute in Hx. by apply Hx.
Defined.

Fixpoint run_govs (s : gov) (cs : list (gov_env * gov_call)) : R gov :=
  match cs with
  | [] => mret s
  | (i, x) :: cs => s' ← run_gov no_vetoes i s x; run_govs s' cs
  end.

Definition unsigned (x : @gov_call test_host) : bool := match x with GFeeSplit _ lp tr => (0 <=? lp) && (0 <=? tr) | GWeight _ w => 0 <=? w | _ => true end.

Lemma run_govs_history (tr : list (gov_env * gov_call)) (s s' : gov) (cs : list (gov_env * gov_call)) :
  gov_history no_vetoes tr s -> forallb (fun c => unsigned c.2) cs = true -> run_govs s cs = Ok s' -> gov_history no_vetoes (rev cs ++ tr) s'.
Proof.
  revert tr s. induction cs as [|[i x] cs IH]; intros tr s Hs Hc Hr; [by injection Hr as <-|].
  cbn [forallb run_govs] in *. apply andb_true_iff in Hc as [Hx Hc]. apply bind_Ok in Hr as (s1 & Hs1 & Hr).
  cbn [rev]. rewrite <- app_assoc. apply (IH ((i, x) :: tr) s1); [|done|done]. apply (gov_next no_vetoes tr s i x s1); [done| |done].
  destruct x; try done; cbn in *; [by apply Z.leb_le|]. apply andb_true_iff in Hx as [? ?]. split; by apply Z.leb_le.
Qed.

Definition salt_for (n : Z) : bytes := derive_salt_signature (H := test_host) n [7].

Definition gov_calls : list (gov_env * gov_call) :=
  [(gov_at 1 10, GOverrideConfig (H := test_host) 1 [2; 3; 4] 6000 true); (gov_at 1 11, GCouncil (H := test_host) 1 8); (gov_at 5 20, GSubmit (H := test_host) 5 [1; 2; 3]);
   (gov_at 1 25, GPropose (H := test_host) [9; 9] 1 [1] 0 [7] (salt_for 0) 1000); (gov_at 2 30, GOverrideVote (H := test_host) 2 1 [4]); (gov_at 3 31, GOverrideVote (H := test_host) 3 1 [5])].

Definition gov_state : @gov test_host := match run_govs (start_gov gov_keys) gov_calls with Ok s => s | _ => start_gov gov_keys end.

Lemma gov_state_history : gov_history no_vetoes (rev gov_calls ++ []) gov_state.
Proof.
  apply (run_govs_history [] (start_gov gov_keys) gov_state gov_calls); [constructor|vm_compute; reflexivity|]. unfold gov_state.
  destruct (is_ok_Ok (run_govs (start_gov gov_keys) gov_calls)) as [s ->]; [vm_compute; reflexivity|done].
Qed.

Lemma fee_split_exact_witness :
  split_collected_fees gov_state 12345 = Ok (9876, 2469) /\ get_fee_tier gov_state = 30.
Proof.
  destruct (fee_split_exact (H := test_host) no_vetoes (rev gov_calls ++ []) gov_state 12345 gov_state_history) as [_ (lp & Hlp & Ec & Es & _)]; [split; discriminate|].
  assert (lp = 8000) as ->.
  { assert (lp_share_bps (get_fee_split_config gov_state) = 8000) as E by (vm_compute; reflexivity). rewrite Ec in E. exact E. }
  split; [rewrite Es|]; vm_compute; reflexivity.
Defined.

Lemma veto_changes_nothing_witness :
  exists s', veto_proposal (gov_at 8 40) gov_state 8 1 [6] = Ok s' /\ is_proposal_vetoed s' 1 = true /\
    is_proposal_executable (gov_at 8 6000) s' 1 = true.
Proof.
  destruct (is_ok_Ok (veto_proposal (gov_at 8 40) gov_state 8 1 [6])) as [s' E]; [vm_compute; reflexivity|].
  destruct (veto_changes_nothing (H := test_host) (gov_at 8 40) gov_state s' 8 1 [6] E) as (Hv & _ & Hx & _).
  exists s'. split; [exact E|]. split; [exact Hv|]. rewrite Hx. vm_compute. reflexivity.
Defined.

Definition staged_25 : @StagedUpgrade test_host := default {| su_wasm_hash := []; su_proposer := 0; su_staged_at := 0; su_execute_at := 0 |} (pending_upgrade gov_state).

Lemma staged_25_pending : pending_upgrade gov_state = Some staged_25.
Proof.
  unfold staged_25. assert (bool_decide (is_Some (pending_upgrade gov_state)) = true) as [p ->]%bool_decide_eq_true by (vm_compute; reflexivity). done.
Qed.

Lemma gov_state_data : load_data (keys gov_state) = Ok (@Build_ContractData test_host 1 0 10000).
Proof.
  unfold load_data. assert (match data (keys gov_state) with Some d => Z.eqb (admin d) 1 && Z.eqb (value d) 0 && Z.eqb (max_fee_ceiling d) 10000 | None => false end = true) as E
    by (vm_compute; reflexivity).
  destruct (data (keys gov_state)) as [[a v m]|]; [|done]. cbn in E. apply andb_true_iff in E as [[->%Z.eqb_eq ->%Z.eqb_eq]%andb_true_iff ->%Z.eqb_eq]. done.
Qed.

Lemma upgrade_delay_exact_witness :
  su_execute_at staged_25 = 172825 /\
  exists s', execute_upgrade (gov_at 1 5025) gov_state 1 1 [7] (salt_for 1) 6000 = Ok s' /\ deployed s' = Some [9; 9].
Proof.
  split; [vm_compute; reflexivity|].
  destruct (upgrade_delay_exact (H := test_host) (gov_at 1 5025) gov_state (@Build_ContractData test_host 1 0 10000) staged_25 [7] 6000 gov_state_data
    eq_refl ltac:(vm_compute; discriminate) ltac:(vm_compute; split; [discriminate|reflexivity]) staged_25_pending ltac:(vm_compute; reflexivity)
    ltac:(vm_compute; split; discriminate)) as [Hx _].
  destruct (Hx ltac:(vm_compute; discriminate)) as (s' & Hs' & Hd & _). exists s'. split; [|rewrite Hd; vm_compute; reflexivity].
  replace (get_nonce gov_state (admin (@Build_ContractData test_host 1 0 10000))) with 1 in Hs' by (vm_compute; reflexivity). exact Hs'.
Defined.

Lemma override_justified_witness :
  exists s' r, execute_emergency_override (gov_at 3 40) gov_state 3 1 = Ok (s', r) /\ votes_for r = 2 /\ total_signers r < 2 * votes_for r.
Proof.
  destruct (is_ok_Ok (execute_emergency_override (gov_at 3 40) gov_state 3 1)) as [[s' r] E]; [vm_compute; reflexivity|].
  exists s', r. split; [exact E|]. split.
  - assert (match execute_emergency_override (gov_at 3 40) gov_state 3 1 with Ok (_, r) => Z.eqb (votes_for r) 2 | _ => false end = true) as Ev by (vm_compute; reflexivity).
    rewrite E in Ev. by apply Z.eqb_eq.
  - destruct (override_justified (H := test_host) no_vetoes (rev gov_calls ++ []) gov_state s' (gov_at 3 40) 3 1 r gov_state_history ltac:(vm_compute; discriminate) E)
      as (j & who & hash & later & earlier & voters & _ & _ & _ & _ & _ & Hm & _). exact Hm.
Defined.
End witnesses.
