(* ===== verification/StakingPool.v ===== *)
(** * Staking pool emission contract

    [src/contracts/staking-pool/src/lib.rs]: rewards are emitted per ledger at a rate that
    decays from one epoch to the next, up to a cap. The properties: the total emitted is a
    function of the last updated ledger alone, whenever the updates were made, and an
    update returns except where the end of an epoch leaves the ledger numbers.

    [emission_loop] is a [while] loop: every turn moves [temp_ledger] forward, so the
    number of ledgers left is enough fuel. *)

From stdpp Require Import base numbers list.
From Stdlib Require Import ZArith Lia.
From S2P Require Import Prelude Host.

Open Scope Z_scope.

Inductive ContractError := AlreadyInitialized | Unauthorized | InvalidParameters | EmissionCapReached.

Definition error_code (e : ContractError) : Z :=
  match e with AlreadyInitialized => 1 | Unauthorized => 2 | InvalidParameters => 3 | EmissionCapReached => 4 end.

Abbreviation V := (result ContractError).

Section pool.
Context {H : Host}.

(** The storage: one field per key. *)
Record DataKey := {
  Admin : option Address;
  StartLedger : option Z;
  InitialRate : option Z;
  EpochLength : option Z;
  DecayRateBps : option Z;
  MaxEmissionCap : option Z;
  TotalEmitted : option Z;
  LastUpdateLedger : option Z;
  CurrentRate : option Z
}.

Definition empty_storage : DataKey := {|
  Admin := None; StartLedger := None; InitialRate := None; EpochLength := None; DecayRateBps := None; MaxEmissionCap := None;
  TotalEmitted := None; LastUpdateLedger := None; CurrentRate := None |}.

Definition initialize (s : DataKey) (admin : Address) (start_ledger initial_rate epoch_length decay_rate_bps max_emission_cap : Z) : V DataKey :=
  _ ← fail_if (bool_decide (is_Some (Admin s))) AlreadyInitialized;
  _ ← fail_if ((10000 <? decay_rate_bps) || (epoch_length =? 0)) InvalidParameters;
  mret {| Admin := Some admin; StartLedger := Some start_ledger; InitialRate := Some initial_rate; EpochLength := Some epoch_length;
          DecayRateBps := Some decay_rate_bps; MaxEmissionCap := Some max_emission_cap; TotalEmitted := Some 0;
          LastUpdateLedger := Some start_ledger; CurrentRate := Some initial_rate |}.

Definition get_current_epoch (current_ledger : Z) (s : DataKey) : V Z :=
  let start_ledger := default 0 (StartLedger s) in
  if current_ledger <? start_ledger then mret 0
  else
    epoch_length ← unwrap (EpochLength s);
    elapsed ← isub U32 current_ledger start_ledger;
    idiv U32 elapsed epoch_length.

(** [for _ in 0..epoch] *)
Fixpoint rate_loop (epochs : nat) (rate decay_rate_bps : Z) : V Z :=
  match epochs with
  | O => mret rate
  | S epochs =>
      keep ← isub U32 10000 decay_rate_bps;
      rate ← idiv U128 (saturating_mul U128 rate keep) 10000;
      rate_loop epochs rate decay_rate_bps
  end.

Definition get_reward_rate (current_ledger : Z) (s : DataKey) : V Z :=
  epoch ← get_current_epoch current_ledger s;
  initial_rate ← unwrap (InitialRate s);
  decay_rate_bps ← unwrap (DecayRateBps s);
  rate_loop (Z.to_nat epoch) initial_rate decay_rate_bps.

(** The body of the [while] loop: the total and the ledger it ends at. *)
Definition emission_step (start_ledger epoch_length initial_rate decay_rate_bps cap current_ledger total_emitted temp_ledger : Z) : V (Z * Z) :=
  elapsed ← isub U32 temp_ledger start_ledger;
  current_epoch ← idiv U32 elapsed epoch_length;
  next_epoch ← iadd U32 current_epoch 1;
  epochs_end ← imul U32 next_epoch epoch_length;
  next_epoch_ledger ← iadd U32 start_ledger epochs_end;
  let end_ledger := if current_ledger <? next_epoch_ledger then current_ledger else next_epoch_ledger in
  ledgers_in_span ← isub U32 end_ledger temp_ledger;
  rate ← rate_loop (Z.to_nat current_epoch) initial_rate decay_rate_bps;
  let emission := saturating_mul U128 rate ledgers_in_span in
  emission_for_span ← (if cap <? saturating_add U128 total_emitted emission then isub U128 cap total_emitted else mret emission);
  mret (saturating_add U128 total_emitted emission_for_span, end_ledger).

Fixpoint emission_loop (fuel : nat) (start_ledger epoch_length initial_rate decay_rate_bps cap current_ledger total_emitted temp_ledger : Z) : V Z :=
  if (temp_ledger <? current_ledger) && (total_emitted <? cap) then
    match fuel with
    | O => Panic
    | S fuel =>
        r ← emission_step start_ledger epoch_length initial_rate decay_rate_bps cap current_ledger total_emitted temp_ledger;
        emission_loop fuel start_ledger epoch_length initial_rate decay_rate_bps cap current_ledger r.1 r.2
    end
  else mret total_emitted.

Definition update_emissions (current_ledger : Z) (s : DataKey) : V (DataKey * Z) :=
  let last_update_ledger := default current_ledger (LastUpdateLedger s) in
  if current_ledger <=? last_update_ledger then mret (s, default 0 (TotalEmitted s))
  else
    start_ledger ← unwrap (StartLedger s);
    if current_ledger <? start_ledger then mret (s, 0)
    else
      let effective_last := if last_update_ledger <? start_ledger then start_ledger else last_update_ledger in
      epoch_length ← unwrap (EpochLength s);
      initial_rate ← unwrap (InitialRate s);
      decay_rate_bps ← unwrap (DecayRateBps s);
      max_emission_cap ← unwrap (MaxEmissionCap s);
      total ← emission_loop (Z.to_nat (current_ledger - effective_last)) start_ledger epoch_length initial_rate decay_rate_bps
                max_emission_cap current_ledger (default 0 (TotalEmitted s)) effective_last;
      let s1 := {| Admin := Admin s; StartLedger := StartLedger s; InitialRate := InitialRate s; EpochLength := EpochLength s;
                   DecayRateBps := DecayRateBps s; MaxEmissionCap := MaxEmissionCap s; TotalEmitted := Some total;
                   LastUpdateLedger := Some current_ledger; CurrentRate := CurrentRate s |} in
      current_epoch ← get_current_epoch current_ledger s1;
      final_rate ← rate_loop (Z.to_nat current_epoch) initial_rate decay_rate_bps;
      mret ({| Admin := Admin s1; StartLedger := StartLedger s1; InitialRate := InitialRate s1; EpochLength := EpochLength s1;
               DecayRateBps := DecayRateBps s1; MaxEmissionCap := MaxEmissionCap s1; TotalEmitted := TotalEmitted s1;
               LastUpdateLedger := LastUpdateLedger s1; CurrentRate := Some final_rate |}, total).

Definition get_total_emitted (s : DataKey) : Z := default 0 (TotalEmitted s).
End pool.

(** ** The schedule *)
(** The rate of an epoch: each one keeps its share of the rate before, rounded down. *)
Fixpoint rate_at (initial decay : Z) (epoch : nat) : Z :=
  match epoch with
  | O => initial
  | S epoch => Z.min (imax U128) (rate_at initial decay epoch * (10000 - decay)) / 10000
  end.

(** What the ledgers [from, from + n) emit. *)
Fixpoint scheduled (start length initial decay from : Z) (n : nat) : Z :=
  match n with
  | O => 0
  | S n => rate_at initial decay (Z.to_nat ((from - start) / length)) + scheduled start length initial decay (from + 1) n
  end.

Definition schedule (start length initial decay from to : Z) : Z := scheduled start length initial decay from (Z.to_nat (to - from)).

Lemma rate_at_range (initial decay : Z) (n : nat) :
  0 <= initial <= imax U128 -> 0 <= decay <= 10000 -> 0 <= rate_at initial decay n <= imax U128.
Proof.
  intros Hi Hd. induction n as [|n IH]; [done|]. cbn [rate_at]. set (m := Z.min _ _).
  assert (0 <= m <= imax U128) as Hm by (unfold m; split; [apply Z.min_glb; [done|nia]|apply Z.le_min_l]).
  pose proof (Z.mul_div_le m 10000). pose proof (Z.div_pos m 10000). lia.
Qed.

Lemma rate_at_shift (initial decay : Z) (n : nat) :
  rate_at (Z.min (imax U128) (initial * (10000 - decay)) / 10000) decay n = rate_at initial decay (S n).
Proof. induction n as [|n IH]; [done|]. cbn [rate_at] in *. by rewrite IH. Qed.

Lemma rate_loop_at (n : nat) (initial decay : Z) :
  0 <= initial <= imax U128 -> 0 <= decay <= 10000 -> rate_loop n initial decay = Ok (rate_at initial decay n).
Proof.
  revert initial. induction n as [|n IH]; intros initial Hi Hd; [done|]. cbn [rate_loop]. unfold isub.
  rewrite (iop_in U32 (10000 - decay)) by (cbn; lia). rewrite bind_ret.
  assert (saturating_mul U128 initial (10000 - decay) = Z.min (imax U128) (initial * (10000 - decay))) as ->.
  { unfold saturating_mul, clamp. cbn [imin]. rewrite Z.max_r; [done|]. apply Z.min_glb; [done|nia]. }
  unfold idiv. cbn [Z.eqb]. rewrite Z.quot_div_nonneg by first [lia | apply Z.min_glb; [done|nia]].
  pose proof (rate_at_range initial decay 1 Hi Hd) as Hr. cbn [rate_at] in Hr.
  rewrite (iop_in U128 (Z.min _ _ / _)) by (cbn [imin]; exact Hr). rewrite bind_ret, IH by done. by rewrite rate_at_shift.
Qed.

Section schedule.
Context (start epoch_len initial decay : Z).
Context (Hlen : 0 < epoch_len).

Lemma scheduled_app (from : Z) (n m : nat) :
  scheduled start epoch_len initial decay from (n + m) =
  scheduled start epoch_len initial decay from n + scheduled start epoch_len initial decay (from + Z.of_nat n) m.
Proof.
  revert from. induction n as [|n IH]; intros from; [cbn; by rewrite Z.add_0_r|]. cbn [scheduled Nat.add]. rewrite IH.
  replace (from + 1 + Z.of_nat n) with (from + Z.of_nat (S n)) by lia. lia.
Qed.

(** A span inside one epoch. *)
Lemma scheduled_span (from k : Z) (n : nat) :
  start + k * epoch_len <= from -> from + Z.of_nat n <= start + (k + 1) * epoch_len ->
  scheduled start epoch_len initial decay from n = Z.of_nat n * rate_at initial decay (Z.to_nat k).
Proof.
  revert from. induction n as [|n IH]; intros from Hlo Hhi; [done|]. cbn [scheduled]. rewrite IH by lia.
  replace ((from - start) / epoch_len) with k by (apply (Z.div_unique _ _ k (from - start - k * epoch_len)); lia). lia.
Qed.

Lemma schedule_split (from mid to : Z) :
  from <= mid <= to ->
  schedule start epoch_len initial decay from to = schedule start epoch_len initial decay from mid + schedule start epoch_len initial decay mid to.
Proof.
  intros Hm. unfold schedule. replace (Z.to_nat (to - from)) with (Z.to_nat (mid - from) + Z.to_nat (to - mid))%nat by lia.
  rewrite scheduled_app. replace (from + Z.of_nat (Z.to_nat (mid - from))) with mid by lia. done.
Qed.

Lemma schedule_nonneg (from to : Z) : 0 <= initial <= imax U128 -> 0 <= decay <= 10000 -> 0 <= schedule start epoch_len initial decay from to.
Proof.
  intros Hi Hd. unfold schedule. generalize (Z.to_nat (to - from)). intros n. revert from. induction n as [|n IH]; intros from; [done|]. cbn [scheduled].
  pose proof (rate_at_range initial decay (Z.to_nat ((from - start) / epoch_len)) Hi Hd). specialize (IH (from + 1)). lia.
Qed.
End schedule.

Section claims.
Context {H : Host}.

(** The parameters a pool is initialised with, in their ranges. *)
Record pool_params := { p_start : Z; p_rate : Z; p_length : Z; p_decay : Z; p_cap : Z }.

Record params_ok (p : pool_params) : Prop := {
  po_start : 0 <= p_start p <= imax U32;
  po_length : 0 < p_length p <= imax U32;
  po_rate : 0 <= p_rate p <= imax U128;
  po_decay : 0 <= p_decay p <= 10000;
  po_cap : 0 <= p_cap p <= imax U128
}.

(** What a pool should have emitted before ledger [n]. *)
Definition due (p : pool_params) (n : Z) : Z :=
  Z.min (p_cap p) (schedule (p_start p) (p_length p) (p_rate p) (p_decay p) (p_start p) n).

(** The end of the epoch of a ledger. *)
Definition epoch_end (p : pool_params) (n : Z) : Z := p_start p + ((n - p_start p) / p_length p + 1) * p_length p.

Definition step_of (p : pool_params) : Z -> Z -> Z -> V (Z * Z) := emission_step (p_start p) (p_length p) (p_rate p) (p_decay p) (p_cap p).
Definition loop_of (fuel : nat) (p : pool_params) : Z -> Z -> Z -> V Z := emission_loop fuel (p_start p) (p_length p) (p_rate p) (p_decay p) (p_cap p).

Lemma iop_out (t : ity) (z : Z) : imax t < z -> @iop ContractError t z = Panic.
Proof. intros Hz. unfold iop, fits. rewrite (proj2 (Z.leb_gt z (imax t)) Hz), andb_false_r. done. Qed.

Lemma emission_step_exact (p : pool_params) (now temp : Z) :
  params_ok p -> p_start p <= temp < now -> now <= imax U32 -> due p temp < p_cap p ->
  let stop := Z.min now (epoch_end p temp) in
  step_of p now (due p temp) temp = (if epoch_end p temp <=? imax U32 then Ok (due p stop, stop) else Panic) /\
  temp < epoch_end p temp.
Proof.
  intros [H1 H2 H3 H4 H5] Ht Hnow Hdue stop. set (k := (temp - p_start p) / p_length p).
  assert (0 <= k) as Hk by (apply Z.div_pos; lia).
  assert (k * p_length p <= temp - p_start p < (k + 1) * p_length p) as [Hlo Hhi].
  { pose proof (Z.mul_div_le (temp - p_start p) (p_length p)). pose proof (Z.mul_succ_div_gt (temp - p_start p) (p_length p)). fold k in H, H0. lia. }
  assert (epoch_end p temp = p_start p + (k + 1) * p_length p) as Eend by done. split; [|lia].
  unfold step_of, emission_step, isub, iadd, imul. rewrite (iop_in U32 (temp - p_start p)) by (cbn [imin]; lia). rewrite bind_ret.
  unfold idiv. rewrite (proj2 (Z.eqb_neq (p_length p) 0)) by lia. rewrite Z.quot_div_nonneg by lia. fold k.
  assert (k <= temp - p_start p) as Hkt by nia.
  rewrite (iop_in U32 k) by (cbn [imin]; lia). rewrite bind_ret, (iop_in U32 (k + 1)) by (cbn [imin]; lia). rewrite bind_ret.
  destruct (Z.leb_spec (epoch_end p temp) (imax U32)) as [He|He].
  2: { destruct (Z.le_gt_cases ((k + 1) * p_length p) (imax U32)) as [Hc|Hc]; [|by rewrite (iop_out U32 ((k + 1) * p_length p)) by lia].
       rewrite (iop_in U32 ((k + 1) * p_length p)) by (cbn [imin]; nia). rewrite bind_ret. by rewrite (iop_out U32 (p_start p + _)) by lia. }
  rewrite (iop_in U32 ((k + 1) * p_length p)) by (cbn [imin]; nia). rewrite bind_ret, (iop_in U32 (p_start p + _)) by (cbn [imin]; nia). rewrite bind_ret.
  replace (if now <? _ then now else _) with stop by (unfold stop; rewrite Eend; destruct (Z.ltb_spec now (p_start p + (k + 1) * p_length p)); lia).
  assert (temp < stop <= now /\ stop <= epoch_end p temp) as Hs by (unfold stop; lia).
  rewrite (iop_in U32 (stop - temp)) by (cbn [imin]; lia). rewrite bind_ret, rate_loop_at by done. rewrite bind_ret.
  set (r := rate_at _ _ _). pose proof (rate_at_range (p_rate p) (p_decay p) (Z.to_nat k) H3 H4) as Hr. fold r in Hr.
  assert (schedule (p_start p) (p_length p) (p_rate p) (p_decay p) temp stop = (stop - temp) * r) as Espan.
  { unfold schedule. rewrite (scheduled_span _ _ _ _ temp k) by lia. unfold r. lia. }
  pose proof (schedule_split (p_start p) (p_length p) (p_rate p) (p_decay p) (p_start p) temp stop ltac:(lia)) as Esplit. rewrite Espan in Esplit.
  pose proof (schedule_nonneg (p_start p) (p_length p) (p_rate p) (p_decay p) (p_start p) temp H3 H4) as Hpos.
  unfold due in *. set (E := schedule _ _ _ _ _ temp) in *. rewrite Esplit. clear Esplit Espan. rewrite Z.min_r in * by lia.
  assert (0 <= (stop - temp) * r) as Hx by nia. rewrite (Z.mul_comm (stop - temp) r) in *. unfold saturating_mul, saturating_add, clamp.
  set (x := r * (stop - temp)) in *. cbn [imin] in *. set (M := imax U128) in *.
  destruct (Z.ltb_spec (p_cap p) (Z.max 0 (Z.min M (E + Z.max 0 (Z.min M x))))).
  - rewrite (iop_in U128 (p_cap p - E)) by (cbn [imin]; fold M; lia). rewrite bind_ret. f_equal. f_equal. lia.
  - change (mret ?y ≫= ?f) with (f y). cbn beta. unfold mret, result_ret. f_equal. f_equal. lia.
Qed.

Lemma due_bounds (p : pool_params) (n : Z) : params_ok p -> 0 <= due p n <= p_cap p.
Proof.
  intros [H1 H2 H3 H4 H5]. unfold due. pose proof (schedule_nonneg (p_start p) (p_length p) (p_rate p) (p_decay p) (p_start p) n H3 H4). lia.
Qed.

Lemma due_monotone (p : pool_params) (m n : Z) : params_ok p -> p_start p <= m <= n -> due p m <= due p n.
Proof.
  intros [H1 H2 H3 H4 H5] Hm. unfold due. rewrite (schedule_split (p_start p) (p_length p) (p_rate p) (p_decay p) (p_start p) m n) by lia.
  pose proof (schedule_nonneg (p_start p) (p_length p) (p_rate p) (p_decay p) m n H3 H4). lia.
Qed.

Lemma due_start (p : pool_params) : params_ok p -> due p (p_start p) = 0.
Proof. intros [H1 H2 H3 H4 H5]. unfold due, schedule. rewrite Z.sub_diag. change (Z.to_nat 0) with O. cbn [scheduled]. lia. Qed.

Lemma epoch_end_monotone (p : pool_params) (m n : Z) : params_ok p -> m <= n -> epoch_end p m <= epoch_end p n.
Proof.
  intros [H1 H2 H3 H4 H5] Hm. unfold epoch_end. pose proof (Z.div_le_mono (m - p_start p) (n - p_start p) (p_length p) ltac:(lia) ltac:(lia)). nia.
Qed.

Lemma emission_loop_exact (fuel : nat) (p : pool_params) (now temp : Z) :
  params_ok p -> p_start p <= temp <= now -> now <= imax U32 -> now - temp <= Z.of_nat fuel ->
  (forall t, loop_of fuel p now (due p temp) temp = Ok t -> t = due p now) /\
  (epoch_end p (now - 1) <= imax U32 -> loop_of fuel p now (due p temp) temp = Ok (due p now)).
Proof.
  intros Hp. revert temp. induction fuel as [|fuel IH]; intros temp Ht Hnow Hf.
  - assert (temp = now) as -> by lia. unfold loop_of. cbn [emission_loop]. rewrite Z.ltb_irrefl. cbn [andb]. split; [by intros t [= <-]|done].
  - unfold loop_of. cbn [emission_loop]. destruct (Z.ltb_spec temp now) as [Hlt|Hge]; cbn [andb].
    2: { assert (temp = now) as -> by lia. split; [by intros t [= <-]|done]. }
    destruct (Z.ltb_spec (due p temp) (p_cap p)) as [Hc|Hc].
    2: { pose proof (due_monotone p temp now Hp ltac:(lia)). pose proof (due_bounds p now Hp).
         assert (due p temp = due p now) as -> by lia. split; [by intros t [= <-]|done]. }
    destruct (emission_step_exact p now temp Hp ltac:(lia) Hnow Hc) as [Hstep Hend]. unfold step_of in Hstep. rewrite Hstep.
    pose proof (epoch_end_monotone p temp (now - 1) Hp ltac:(lia)) as Hmon.
    destruct (Z.leb_spec (epoch_end p temp) (imax U32)) as [He|He]; [|split; [done|lia]].
    rewrite bind_ret. cbn [fst snd]. apply IH; lia.
Qed.

(** ** Histories *)
(** The storage of a pool with these parameters, last updated at ledger [n]. *)
Record pool_at (p : pool_params) (n : Z) (s : DataKey) : Prop := {
  pa_admin : is_Some (Admin s);
  pa_start : StartLedger s = Some (p_start p);
  pa_rate : InitialRate s = Some (p_rate p);
  pa_length : EpochLength s = Some (p_length p);
  pa_decay : DecayRateBps s = Some (p_decay p);
  pa_cap : MaxEmissionCap s = Some (p_cap p);
  pa_last : LastUpdateLedger s = Some n;
  pa_total : TotalEmitted s = Some (due p n);
  pa_range : p_start p <= n
}.

Lemma current_epoch_exact (p : pool_params) (now : Z) (s : DataKey) :
  params_ok p -> StartLedger s = Some (p_start p) -> EpochLength s = Some (p_length p) -> p_start p <= now <= imax U32 ->
  get_current_epoch now s = Ok ((now - p_start p) / p_length p).
Proof.
  intros [H1 H2 H3 H4 H5] E1 E2 Hn. unfold get_current_epoch. rewrite E1, E2. cbn [default option_rect]. unfold Datatypes.id.
  rewrite (proj2 (Z.ltb_ge now (p_start p))) by lia. cbn [unwrap]. rewrite bind_ret. unfold isub. rewrite (iop_in U32 (now - p_start p)) by (cbn [imin]; lia).
  rewrite bind_ret. unfold idiv. rewrite (proj2 (Z.eqb_neq (p_length p) 0)) by lia. rewrite Z.quot_div_nonneg by lia. apply iop_in. cbn [imin].
  split; [apply Z.div_pos; lia|]. apply Z.div_le_upper_bound; nia.
Qed.

Lemma update_exact (p : pool_params) (n now : Z) (s : DataKey) :
  params_ok p -> pool_at p n s -> 0 <= now <= imax U32 ->
  (forall s' t, update_emissions now s = Ok (s', t) -> t = due p (Z.max n now) /\ pool_at p (Z.max n now) s') /\
  (now <= n \/ epoch_end p (now - 1) <= imax U32 -> exists s', update_emissions now s = Ok (s', due p (Z.max n now))).
Proof.
  intros Hp Hs Hnow. destruct Hs as [A1 A2 A3 A4 A5 A6 A7 A8 A9]. pose proof Hp as [H1 H2 H3 H4 H5]. unfold update_emissions. rewrite A7, A8.
  cbn [default option_rect]. unfold Datatypes.id. destruct (Z.leb_spec now n) as [Hle|Hgt].
  - rewrite Z.max_l by lia. split; [intros s' t [= <- <-]|intros _; by eexists]. done.
  - rewrite Z.max_r by lia. rewrite A2, A3, A4, A5, A6. cbn [unwrap]. rewrite bind_ret, (proj2 (Z.ltb_ge now (p_start p))), (proj2 (Z.ltb_ge n (p_start p))), !bind_ret by lia.
    destruct (emission_loop_exact (Z.to_nat (now - n)) p now n Hp ltac:(lia) ltac:(lia) ltac:(lia)) as [Hval Hret]. unfold loop_of in *.
    assert (forall t, get_current_epoch now {| Admin := Admin s; StartLedger := Some (p_start p); InitialRate := Some (p_rate p); EpochLength := Some (p_length p);
      DecayRateBps := Some (p_decay p); MaxEmissionCap := Some (p_cap p); TotalEmitted := Some t; LastUpdateLedger := Some now; CurrentRate := CurrentRate s |}
      = Ok ((now - p_start p) / p_length p)) as He
      by (intros t; apply (current_epoch_exact p); (done || lia)).
    split.
    + intros s' t Hr. apply bind_Ok in Hr as (total & ->%Hval & Hr). rewrite He, bind_ret, rate_loop_at, bind_ret in Hr by done.
      injection Hr as <- <-. split; [done|]. split; cbn; done || lia.
    + intros [|Hb]; [lia|]. rewrite (Hret Hb), bind_ret, He, bind_ret, rate_loop_at, bind_ret by done. by eexists.
Qed.

(** An initialised pool after updates at any ledgers; [last] is the highest of them. *)
Inductive pool_history (p : pool_params) : Z -> DataKey -> Prop :=
  | pool_start admin s : initialize empty_storage admin (p_start p) (p_rate p) (p_length p) (p_decay p) (p_cap p) = Ok s -> pool_history p (p_start p) s
  | pool_next n s now s' t :
      pool_history p n s -> 0 <= now <= imax U32 -> update_emissions now s = Ok (s', t) -> pool_history p (Z.max n now) s'.

Lemma pool_history_at (p : pool_params) (n : Z) (s : DataKey) : params_ok p -> pool_history p n s -> pool_at p n s.
Proof.
  intros Hp. induction 1 as [admin s Hi|n s now s' t _ IH Hnow Hu].
  - apply bind_Ok in Hi as ([] & _ & Hi). apply bind_Ok in Hi as ([] & _ & [= <-]). split; try done. cbn. by rewrite due_start.
  - by apply (proj1 (update_exact p n now s Hp IH Hnow) s' t).
Qed.

(** What the pool emits depends only on the ledger reached. However often and whenever it
    was updated before, an update at a ledger yields the sum of the epoch rates of all
    ledgers from the start to the latest one seen, cut at the cap; it returns as long as
    the epoch of the ledger before it ends within [u32], and the stored total is that sum at
    the last update. *)
Theorem emission_follows_schedule (p : pool_params) (last now : Z) (s : DataKey) :
  params_ok p -> pool_history p last s -> 0 <= now <= imax U32 ->
  let due n := Z.min (p_cap p) (schedule (p_start p) (p_length p) (p_rate p) (p_decay p) (p_start p) n) in
  get_total_emitted s = due last /\
  (forall s' t, update_emissions now s = Ok (s', t) -> t = due (Z.max last now) /\ get_total_emitted s' = due (Z.max last now)) /\
  (p_start p + ((now - 1 - p_start p) / p_length p + 1) * p_length p <= imax U32 -> exists s', update_emissions now s = Ok (s', due (Z.max last now))).
Proof.
  intros Hp Hs Hnow due'. apply (pool_history_at p last s Hp) in Hs. destruct (update_exact p last now s Hp Hs Hnow) as [Hval Hret]. split_and!.
  - unfold get_total_emitted. by rewrite (pa_total _ _ _ Hs).
  - intros s' t Hu. destruct (Hval s' t Hu) as [-> Hs']. split; [done|]. unfold get_total_emitted. by rewrite (pa_total _ _ _ Hs').
  - intros Hb. apply Hret. by right.
Qed.
End claims.

Section witnesses.
#[local] Existing Instance test_host.

Definition small_pool : pool_params := {| p_start := 100; p_rate := 1000; p_length := 10; p_decay := 5000; p_cap := 14000 |}.
Definition started : @DataKey test_host :=
  match initialize (empty_storage (H := test_host)) 1 100 1000 10 5000 14000 with Ok s => s | _ => empty_storage end.

Lemma small_pool_ok : params_ok small_pool.
Proof. split; vm_compute; split; discriminate || reflexivity. Qed.

Lemma started_history : pool_history small_pool 100 started.
Proof. exact (pool_start small_pool 1 started eq_refl). Qed.

Lemma emission_follows_schedule_witness :
  (exists s', update_emissions 115 started = Ok (s', 12500)) /\ exists s', update_emissions 125 started = Ok (s', 14000).
Proof.
  split.
  - destruct (proj2 (proj2 (emission_follows_schedule (H := test_host) small_pool 100 115 started small_pool_ok started_history ltac:(vm_compute; split; discriminate)))
      ltac:(vm_compute; discriminate)) as [s' E]. exists s'. exact E.
  - destruct (proj2 (proj2 (emission_follows_schedule (H := test_host) small_pool 100 125 started small_pool_ok started_history ltac:(vm_compute; split; discriminate)))
      ltac:(vm_compute; discriminate)) as [s' E]. exists s'. exact E.
Defined.
End witnesses.
