(* ===== verification/WeightGuard.v ===== *)
(** * Multi-signature weight guard contract

    [src/contracts/multisig-weight-guard/src/lib.rs]: signer keys with weights, a threshold,
    and rotations that are staged for 72 hours. The properties: the configuration in force
    can always reach its quorum, which decides exactly by the distinct known keys, and how
    slowly the configuration in force changes. *)

From stdpp Require Import base numbers list gmap.
From Stdlib Require Import ZArith Lia.
From S2P Require Import Prelude Host.

Open Scope Z_scope.

Definition WEIGHT_ROTATION_COOLDOWN_SECONDS : Z := 72 * 60 * 60.

Inductive ContractError :=
  | AlreadyInitialized | NotInitialized | NotAdmin | CooldownNotElapsed | RotationAlreadyPending | NoPendingConfiguration
  | ActivationNotReached | EmptyWeightSet | ZeroWeight | DuplicateSigner | InvalidThreshold | ThresholdNotMet | Overflow.

Definition error_code (e : ContractError) : Z :=
  match e with
  | AlreadyInitialized => 1 | NotInitialized => 2 | NotAdmin => 3 | CooldownNotElapsed => 4 | RotationAlreadyPending => 5
  | NoPendingConfiguration => 6 | ActivationNotReached => 7 | EmptyWeightSet => 8 | ZeroWeight => 9 | DuplicateSigner => 10
  | InvalidThreshold => 11 | ThresholdNotMet => 12 | Overflow => 13
  end.

Abbreviation V := (result ContractError).

Record SignerWeight := { public_key : bytes; weight : Z }.

Record WeightConfiguration := { weights : gmap bytes Z; threshold : Z; effective_at : Z }.

Section guard.
Context {H : Host}.

(** The storage: one field per key. *)
Record DataKey := {
  Admin : option Address;
  Active : option WeightConfiguration;
  Pending : option WeightConfiguration;
  LastRotation : option Z
}.

Definition empty_storage : DataKey := {| Admin := None; Active := None; Pending := None; LastRotation := None |}.

Record env := { auth : Address -> bool; timestamp : Z }.

Definition load_admin (s : DataKey) : V Address := ok_or (Admin s) NotInitialized.
Definition load_active (s : DataKey) : V WeightConfiguration := ok_or (Active s) NotInitialized.
Definition load_pending (s : DataKey) : option WeightConfiguration := Pending s.
Definition load_last_rotation (s : DataKey) : Z := default 0 (LastRotation s).

(** The loop of [build_configuration]. *)
Fixpoint build_loop (signers : list SignerWeight) (ws : gmap bytes Z) (total : Z) : V (gmap bytes Z * Z) :=
  match signers with
  | [] => mret (ws, total)
  | signer :: rest =>
      _ ← fail_if (weight signer =? 0) ZeroWeight;
      _ ← fail_if (bool_decide (is_Some (ws !! public_key signer))) DuplicateSigner;
      total ← ok_or (checked_add U32 total (weight signer)) Overflow;
      build_loop rest (<[public_key signer := weight signer]> ws) total
  end.

Definition build_configuration (signers : list SignerWeight) (n : Z) : V (gmap bytes Z) :=
  _ ← fail_if (len signers =? 0) EmptyWeightSet;
  r ← build_loop signers ∅ 0;
  _ ← fail_if ((n =? 0) || (r.2 <? n)) InvalidThreshold;
  mret r.1.

Definition initialize (i : env) (s : DataKey) (admin : Address) (signers : list SignerWeight) (n : Z) : V DataKey :=
  _ ← fail_if (bool_decide (is_Some (Admin s))) AlreadyInitialized;
  _ ← require_auth (auth i) admin;
  ws ← build_configuration signers n;
  mret {| Admin := Some admin; Active := Some {| weights := ws; threshold := n; effective_at := timestamp i |};
          Pending := Pending s; LastRotation := Some 0 |}.

Definition propose_weight_rotation (i : env) (s : DataKey) (caller : Address) (signers : list SignerWeight) (n : Z) : V (DataKey * Z) :=
  admin ← load_admin s;
  _ ← fail_if (bool_decide (caller <> admin)) NotAdmin;
  _ ← require_auth (auth i) caller;
  _ ← fail_if (bool_decide (is_Some (load_pending s))) RotationAlreadyPending;
  let now := timestamp i in
  let last := load_last_rotation s in
  _ ← fail_if (negb (last =? 0) && (saturating_sub U64 now last <? WEIGHT_ROTATION_COOLDOWN_SECONDS)) CooldownNotElapsed;
  ws ← build_configuration signers n;
  active ← load_active s;
  effective ← ok_or (checked_add U64 now WEIGHT_ROTATION_COOLDOWN_SECONDS) Overflow;
  mret ({| Admin := Admin s; Active := Active s; Pending := Some {| weights := ws; threshold := n; effective_at := effective |};
           LastRotation := LastRotation s |}, effective).

Definition apply_pending_weights (i : env) (s : DataKey) : V (DataKey * WeightConfiguration) :=
  pending ← ok_or (load_pending s) NoPendingConfiguration;
  let now := timestamp i in
  _ ← fail_if (now <? effective_at pending) ActivationNotReached;
  mret ({| Admin := Admin s; Active := Some pending; Pending := None; LastRotation := Some now |}, pending).

Definition effective_configuration (i : env) (s : DataKey) : V WeightConfiguration :=
  active ← load_active s;
  match load_pending s with
  | Some pending => if effective_at pending <=? timestamp i then mret pending else mret active
  | None => mret active
  end.

Definition pending_configuration (s : DataKey) : option WeightConfiguration := load_pending s.
Definition active_configuration (s : DataKey) : V WeightConfiguration := load_active s.

Definition rotation_cooldown_remaining (i : env) (s : DataKey) : Z :=
  let last := load_last_rotation s in
  if last =? 0 then 0 else saturating_sub U64 WEIGHT_ROTATION_COOLDOWN_SECONDS (saturating_sub U64 (timestamp i) last).

Definition effective_signer_weight (i : env) (s : DataKey) (key : bytes) : V Z :=
  c ← effective_configuration i s; mret (default 0 (weights c !! key)).

Definition effective_threshold (i : env) (s : DataKey) : V Z := c ← effective_configuration i s; mret (threshold c).

(** The loop of [verify_quorum]. *)
Fixpoint quorum_loop (ws : gmap bytes Z) (approvals : list bytes) (seen : gset bytes) (collected : Z) : V Z :=
  match approvals with
  | [] => mret collected
  | key :: rest =>
      if bool_decide (key ∈ seen) then quorum_loop ws rest seen collected
      else
        collected ← (match ws !! key with Some w => ok_or (checked_add U32 collected w) Overflow | None => mret collected end);
        quorum_loop ws rest ({[key]} ∪ seen) collected
  end.

Definition verify_quorum (i : env) (s : DataKey) (approvals : list bytes) : V Z :=
  c ← effective_configuration i s;
  collected ← quorum_loop (weights c) approvals ∅ 0;
  _ ← fail_if (collected <? threshold c) ThresholdNotMet;
  mret collected.
End guard.

(** ** Configurations *)
Definition total_weight (ws : gmap bytes Z) : Z := msum (fun _ w => w) ws.

(** The weight of the known keys of a list, each counted once. *)
Definition known_weight (ws : gmap bytes Z) (approvals : list bytes) : Z :=
  msum (fun key w => if decide (key ∈ approvals) then w else 0) ws.

Record config_ok (c : WeightConfiguration) : Prop := {
  co_weights : forall key w, weights c !! key = Some w -> 0 < w;
  co_total : total_weight (weights c) <= imax U32;
  co_threshold : 0 < threshold c <= total_weight (weights c)
}.

Lemma build_loop_Ok (signers : list SignerWeight) (ws ws' : gmap bytes Z) (total total' : Z) :
  Forall (fun x => 0 <= weight x) signers -> (forall key w, ws !! key = Some w -> 0 < w) -> total = total_weight ws -> total <= imax U32 ->
  build_loop signers ws total = Ok (ws', total') ->
  (forall key w, ws' !! key = Some w -> 0 < w) /\ total' = total_weight ws' /\ total' <= imax U32.
Proof.
  intros Hf. revert ws total. induction Hf as [|x signers Hx Hf IH]; intros ws total Hws Ht Hmax Hr; [by injection Hr as <- <-|].
  cbn [build_loop] in Hr. apply bind_Ok in Hr as ([] & Hz%fail_if_Ok%Z.eqb_neq & Hr).
  apply bind_Ok in Hr as ([] & Hd%fail_if_Ok%bool_decide_eq_false & Hr). apply bind_Ok in Hr as (t & [-> Ht']%ok_or_Ok%chk_Some & Hr).
  apply IH in Hr; [done| | |lia].
  - intros key w [[_ <-]|[_ Hw]]%lookup_insert_Some; [lia|by apply (Hws key)].
  - unfold total_weight in *. rewrite msum_insert_new; [lia|]. by apply eq_None_not_Some.
Qed.

Lemma build_configuration_ok (signers : list SignerWeight) (n at_ : Z) (ws : gmap bytes Z) :
  Forall (fun x => 0 <= weight x) signers -> 0 <= n -> build_configuration signers n = Ok ws ->
  config_ok {| weights := ws; threshold := n; effective_at := at_ |}.
Proof.
  intros Hf Hn Hr. apply bind_Ok in Hr as ([] & _ & Hr). apply bind_Ok in Hr as ([ws' total] & Hl & Hr).
  apply build_loop_Ok in Hl as (H1 & H2 & H3); [|done|by intros key w; rewrite lookup_empty|done|done]. cbn [fst snd] in Hr.
  apply bind_Ok in Hr as ([] & [Hz%Z.eqb_neq Ht%Z.ltb_ge]%fail_if_Ok%orb_false_iff & [= <-]). split; cbn [weights threshold]; [done|lia|lia].
Qed.

(** The loop counts every known key once, and cannot overflow. *)
Lemma guard_loop_exact (ws : gmap bytes Z) (approvals : list bytes) (seen : gset bytes) (c : Z) :
  (forall key w, ws !! key = Some w -> 0 < w) -> total_weight ws <= imax U32 ->
  c = msum (fun key w => if decide (key ∈ seen) then w else 0) ws ->
  quorum_loop ws approvals seen c = Ok (msum (fun key w => if decide (key ∈ seen \/ key ∈ approvals) then w else 0) ws).
Proof.
  intros Hw Hmax. revert seen c. induction approvals as [|key rest IH]; intros seen c Hc; cbn [quorum_loop].
  - rewrite Hc. f_equal. apply msum_ext. intros k w _. destruct (decide (k ∈ seen)), (decide (k ∈ seen \/ k ∈ [])); try done; [tauto|].
    exfalso. destruct o as [|Hx%elem_of_nil]; done.
  - case_bool_decide as Hs.
    + rewrite (IH seen c Hc). f_equal. apply msum_ext. intros k w _.
      destruct (decide (k ∈ seen \/ k ∈ rest)), (decide (k ∈ seen \/ k ∈ key :: rest)); try done; [set_solver|].
      exfalso. destruct o as [|[->|]%elem_of_cons]; tauto.
    + assert (msum (fun k w => if decide (k ∈ {[key]} ∪ seen) then w else 0) ws = c + default 0 (ws !! key)) as Esum.
      { rewrite Hc. destruct (ws !! key) as [w|] eqn:E.
        - set (f := fun (k : bytes) (w : Z) => if decide (k ∈ {[key]} ∪ seen) then w else 0). set (g := fun (k : bytes) (w : Z) => if decide (k ∈ seen) then w else 0).
          pose proof (msum_delete f ws key) as Ef. pose proof (msum_delete g ws key) as Eg. unfold term in Ef, Eg. rewrite E in Ef, Eg.
          assert (f key w = w) as Ff by (unfold f; rewrite decide_True; [done|set_solver]).
          assert (g key w = 0) as Fg by (unfold g; by rewrite decide_False).
          assert (msum f (delete key ws) = msum g (delete key ws)) as Efg.
          { apply msum_ext. intros k x [Hk _]%lookup_delete_Some. unfold f, g. destruct (decide (k ∈ {[key]} ∪ seen)), (decide (k ∈ seen)); try done; set_solver. }
          cbn [default option_rect]. unfold Datatypes.id. lia.
        - cbn [default option_rect]. rewrite Z.add_0_r. apply msum_ext. intros k x Hk. assert (k <> key) by congruence.
          destruct (decide (k ∈ {[key]} ∪ seen)), (decide (k ∈ seen)); try done; set_solver. }
      assert (msum (fun k w => if decide (k ∈ {[key]} ∪ seen) then w else 0) ws <= total_weight ws) as Hle.
      { transitivity (1 * msum (fun k w => if decide (k ∈ {[key]} ∪ seen) then w else 0) ws); [lia|]. unfold total_weight.
        apply msum_scale_le. intros k w Hk. specialize (Hw k w Hk). destruct (decide _); lia. }
      assert (0 <= c) as Hc0.
      { rewrite Hc. apply msum_nonneg. intros k w Hk. specialize (Hw k w Hk). destruct (decide _); lia. }
      assert (quorum_loop ws rest ({[key]} ∪ seen) (c + default 0 (ws !! key)) = Ok (msum (fun k w => if decide (k ∈ {[key]} ∪ seen \/ k ∈ rest) then w else 0) ws)) as Hrest
        by (apply IH; by rewrite Esum).
      assert (msum (fun k w => if decide (k ∈ {[key]} ∪ seen \/ k ∈ rest) then w else 0) ws = msum (fun k w => if decide (k ∈ seen \/ k ∈ key :: rest) then w else 0) ws) as Eend.
      { apply msum_ext. intros k w _. destruct (decide (k ∈ {[key]} ∪ seen \/ k ∈ rest)), (decide (k ∈ seen \/ k ∈ key :: rest)); try done; set_solver. }
      rewrite <- Eend. destruct (ws !! key) as [w|] eqn:E; cbn [default option_rect] in *; unfold Datatypes.id in *.
      * specialize (Hw key w E). unfold checked_add, chk. rewrite (proj2 (fits_spec U32 (c + w))) by (cbn [imin]; lia). cbn [ok_or]. by rewrite bind_ret.
      * change (mret ?y ≫= ?f) with (f y). by rewrite Z.add_0_r in Hrest.
Qed.

(** A configuration's own keys always reach its quorum. *)
Lemma known_all (ws : gmap bytes Z) : known_weight ws ((map_to_list ws).*1) = total_weight ws.
Proof.
  apply msum_ext. intros key w Hw. rewrite decide_True; [done|]. apply list_elem_of_fmap. exists (key, w). split; [done|]. by apply elem_of_map_to_list.
Qed.

Section claims.
Context {H : Host}.

Inductive guard_call :=
  | WInitialize (admin : Address) (signers : list SignerWeight) (n : Z)
  | WPropose (caller : Address) (signers : list SignerWeight) (n : Z)
  | WApply.

Definition run_guard (i : env) (s : DataKey) (x : guard_call) : V DataKey :=
  match x with
  | WInitialize admin signers n => initialize i s admin signers n
  | WPropose caller signers n => r ← propose_weight_rotation i s caller signers n; mret r.1
  | WApply => r ← apply_pending_weights i s; mret r.1
  end.

(** Weights and thresholds are passed as [u32]. *)
Definition unsigned_weights (x : guard_call) : Prop :=
  match x with WInitialize _ l n | WPropose _ l n => Forall (fun x => 0 <= weight x) l /\ 0 <= n | WApply => True end.

(** Calls from a state on, at growing ledger times. *)
Inductive guard_later (t0 : Z) (s0 : DataKey) : Z -> DataKey -> Prop :=
  | later_now : guard_later t0 s0 t0 s0
  | later_next t s i x s' :
      guard_later t0 s0 t s -> t <= timestamp i <= imax U64 -> unsigned_weights x -> run_guard i s x = Ok s' -> guard_later t0 s0 (timestamp i) s'.

Definition guard_history (t : Z) (s : DataKey) : Prop := exists t0, 0 < t0 /\ guard_later t0 empty_storage t s.

Record guard_ok (t : Z) (s : DataKey) : Prop := {
  gd_now : 0 < t;
  gd_active : forall c, Active s = Some c -> config_ok c /\ is_Some (Admin s);
  gd_pending : forall c, Pending s = Some c -> config_ok c /\ is_Some (Active s) /\ WEIGHT_ROTATION_COOLDOWN_SECONDS < effective_at c;
  gd_last : 0 <= load_last_rotation s <= t
}.

Lemma guard_step (i : env) (t : Z) (s s' : DataKey) (x : guard_call) :
  guard_ok t s -> t <= timestamp i -> unsigned_weights x -> run_guard i s x = Ok s' -> guard_ok (timestamp i) s'.
Proof.
  intros [H0 H1 H2 H3] Ht HP Hr. destruct x as [admin signers n|caller signers n|]; cbn [run_guard unsigned_weights] in *.
  - apply bind_Ok in Hr as ([] & Hn%fail_if_Ok%bool_decide_eq_false & Hr). apply bind_Ok in Hr as ([] & _ & Hr).
    apply bind_Ok in Hr as (ws & Hws & [= <-]). split; cbn.
    + lia.
    + intros c [= <-]. split; [|done]. by apply (build_configuration_ok signers n _ ws (proj1 HP) (proj2 HP)).
    + intros c Hc. destruct (H2 c Hc) as (_ & [a Ha] & _). destruct (H1 a Ha) as [_ Hadm]. by destruct Hn.
    + cbn. unfold load_last_rotation. cbn. unfold Datatypes.id. lia.
  - apply bind_Ok in Hr as ([s1 m] & Hr & [= <-]). apply bind_Ok in Hr as (a & _ & Hr). do 4 (apply bind_Ok in Hr as (? & _ & Hr)).
    apply bind_Ok in Hr as (ws & Hws & Hr). apply bind_Ok in Hr as (c & Hc%ok_or_Ok & Hr). apply bind_Ok in Hr as (e & [-> _]%ok_or_Ok%chk_Some & Hr).
    injection Hr as <- _. split; cbn; [lia|done| |unfold load_last_rotation in *; cbn; lia]. intros d [= <-].
    split; [by apply (build_configuration_ok signers n _ ws (proj1 HP) (proj2 HP))|]. split; [by exists c|]. cbn. lia.
  - apply bind_Ok in Hr as ([s1 m] & Hr & [= <-]). apply bind_Ok in Hr as (p & Hp%ok_or_Ok & Hr). apply bind_Ok in Hr as ([] & _ & [= <- _]).
    destruct (H2 p Hp) as (Hok & [a Ha] & _). destruct (H1 a Ha) as [_ Hadm]. split; cbn; [lia| |done|unfold load_last_rotation; cbn; unfold Datatypes.id; lia].
    intros c [= <-]. done.
Qed.

Lemma guard_later_ok (t0 t : Z) (s0 s : DataKey) : guard_ok t0 s0 -> guard_later t0 s0 t s -> guard_ok t s.
Proof. intros H0. induction 1 as [|t s i x s' _ IH [Ht _] HP Hr]; [done|by apply (guard_step i t s s' x)]. Qed.

Lemma guard_history_ok (t : Z) (s : DataKey) : guard_history t s -> guard_ok t s.
Proof. intros (t0 & H0 & Hl). apply (guard_later_ok t0 t empty_storage s); [|done]. split; cbn; try done. unfold load_last_rotation. cbn. unfold Datatypes.id. lia. Qed.

Lemma effective_ok (i : env) (t : Z) (s : DataKey) (c : WeightConfiguration) :
  guard_ok t s -> effective_configuration i s = Ok c -> config_ok c.
Proof.
  intros [H0 H1 H2 H3] Hr. apply bind_Ok in Hr as (a & Ha%ok_or_Ok & Hr). unfold load_pending in Hr.
  destruct (Pending s) as [p|] eqn:Ep; [destruct (effective_at p <=? timestamp i)|]; injection Hr as <-; [by apply (H2 p)|by apply (H1 a)..].
Qed.

(** The quorum of the configuration in force. Over any history, the quorum passes
    exactly when the weights of the known keys on the list, each counted once, reach the
    threshold, and returns their sum; the sum never overflows; and the keys of the
    configuration together always pass. *)
Theorem guard_quorum_exact (t : Z) (s : DataKey) (i : env) (c : WeightConfiguration) (approvals : list bytes) :
  guard_history t s -> effective_configuration i s = Ok c ->
  let w := msum (fun key w => if decide (key ∈ approvals) then w else 0) (weights c) in
  verify_quorum i s approvals = (if w <? threshold c then Err ThresholdNotMet else Ok w) /\
  0 < threshold c /\ is_ok (verify_quorum i s ((map_to_list (weights c)).*1)) = true.
Proof.
  intros Hs%guard_history_ok Hc w. pose proof (effective_ok i t s c Hs Hc) as [C1 C2 C3].
  assert (forall l, verify_quorum i s l = (if known_weight (weights c) l <? threshold c then Err ThresholdNotMet else Ok (known_weight (weights c) l))) as Hall.
  { intros l. unfold verify_quorum. rewrite Hc, bind_ret. rewrite (guard_loop_exact (weights c) l ∅ 0 C1 C2).
    - rewrite bind_ret, (msum_ext _ (fun key w0 => if decide (key ∈ l) then w0 else 0) (weights c)).
      2: { intros k x _. do 2 destruct (decide _); try done; set_solver. }
      fold (known_weight (weights c) l).
      by destruct (known_weight (weights c) l <? threshold c).
    - symmetry. apply msum_zero. intros k x _. rewrite decide_False; [done|set_solver]. }
  split; [apply Hall|]. split; [lia|]. rewrite Hall, known_all. rewrite (proj2 (Z.ltb_ge _ _)) by lia. done.
Qed.

(** ** How fast the configuration in force changes *)
(** From a state without a pending rotation: the next one takes effect no earlier than a
    cooldown after the start. *)
Definition quiet (t0 : Z) (a : WeightConfiguration) (s : DataKey) : Prop :=
  is_Some (Admin s) /\ Active s = Some a /\ forall p, Pending s = Some p -> t0 + WEIGHT_ROTATION_COOLDOWN_SECONDS <= effective_at p.

Lemma quiet_step (i : env) (t0 : Z) (a : WeightConfiguration) (s s' : DataKey) (x : guard_call) :
  quiet t0 a s -> t0 <= timestamp i < t0 + WEIGHT_ROTATION_COOLDOWN_SECONDS -> run_guard i s x = Ok s' -> quiet t0 a s'.
Proof.
  intros (Hadm & Ha & Hp) Ht Hr. destruct x as [admin signers n|caller signers n|]; cbn [run_guard] in Hr.
  - apply bind_Ok in Hr as ([] & Hn%fail_if_Ok%bool_decide_eq_false & _). done.
  - apply bind_Ok in Hr as ([s1 m] & Hr & [= <-]). do 6 (apply bind_Ok in Hr as (? & _ & Hr)). apply bind_Ok in Hr as (c & _ & Hr).
    apply bind_Ok in Hr as (e & [-> _]%ok_or_Ok%chk_Some & Hr). injection Hr as <- _. split_and!; [done|done|]. cbn. intros p [= <-]. cbn. lia.
  - apply bind_Ok in Hr as ([s1 m] & Hr & [= <-]). apply bind_Ok in Hr as (p & Hpe%ok_or_Ok & Hr). apply bind_Ok in Hr as ([] & He%fail_if_Ok%Z.ltb_ge & _).
    specialize (Hp p Hpe). lia.
Qed.

Lemma later_time (t0 t : Z) (s0 s : DataKey) : guard_later t0 s0 t s -> t0 <= t.
Proof. induction 1; lia. Qed.

Lemma quiet_later (t0 t : Z) (a : WeightConfiguration) (s0 s : DataKey) :
  quiet t0 a s0 -> guard_later t0 s0 t s -> t < t0 + WEIGHT_ROTATION_COOLDOWN_SECONDS -> quiet t0 a s.
Proof.
  intros H0. induction 1 as [|t s i x s' Hl IH [Ht _] HP Hr]; intros Hb; [done|]. pose proof (later_time _ _ _ _ Hl).
  apply (quiet_step i t0 a s s' x); [apply IH; lia|lia|done].
Qed.

Lemma quiet_effective (i : env) (t0 : Z) (a : WeightConfiguration) (s : DataKey) :
  quiet t0 a s -> timestamp i < t0 + WEIGHT_ROTATION_COOLDOWN_SECONDS -> effective_configuration i s = Ok a.
Proof.
  intros (_ & Ha & Hp) Ht. unfold effective_configuration, load_active, load_pending. rewrite Ha. cbn [ok_or]. rewrite bind_ret.
  destruct (Pending s) as [p|]; [|done]. rewrite (proj2 (Z.leb_gt _ _)) by (specialize (Hp p eq_refl); lia). done.
Qed.

(** With a rotation to [p] pending: not applied yet, or applied and the next rotation two cooldowns away. *)
Definition rotating (a p : WeightConfiguration) (s : DataKey) : Prop :=
  is_Some (Admin s) /\
  ((Active s = Some a /\ Pending s = Some p) \/
   (Active s = Some p /\ effective_at p <= load_last_rotation s /\
    forall q, Pending s = Some q -> effective_at p + 2 * WEIGHT_ROTATION_COOLDOWN_SECONDS <= effective_at q)).

Lemma rotating_step (i : env) (a p : WeightConfiguration) (s s' : DataKey) (x : guard_call) :
  rotating a p s -> 0 < effective_at p -> timestamp i < effective_at p + 2 * WEIGHT_ROTATION_COOLDOWN_SECONDS ->
  load_last_rotation s <= timestamp i <= imax U64 -> run_guard i s x = Ok s' -> rotating a p s'.
Proof.
  intros (Hadm & Hcase) Hpos Ht Hl Hr. destruct x as [admin signers n|caller signers n|]; cbn [run_guard] in Hr.
  - apply bind_Ok in Hr as ([] & Hn%fail_if_Ok%bool_decide_eq_false & _). done.
  - apply bind_Ok in Hr as ([s1 m] & Hr & [= <-]). do 3 (apply bind_Ok in Hr as (? & _ & Hr)).
    apply bind_Ok in Hr as ([] & Hnone%fail_if_Ok%bool_decide_eq_false & Hr). apply bind_Ok in Hr as ([] & Hcool%fail_if_Ok & Hr).
    apply bind_Ok in Hr as (ws & _ & Hr). apply bind_Ok in Hr as (c & _ & Hr). apply bind_Ok in Hr as (e & [-> _]%ok_or_Ok%chk_Some & Hr).
    injection Hr as <- _. destruct Hcase as [[_ Hp]|(Ha & Hlast & _)]; [unfold load_pending in Hnone; rewrite Hp in Hnone; by destruct Hnone|].
    split; [done|right]. split_and!; [done|done|]. cbn. intros q [= <-]. cbn. apply andb_false_iff in Hcool as [Hz|Hc].
    + apply negb_false_iff, Z.eqb_eq in Hz. lia.
    + apply Z.ltb_ge in Hc. unfold saturating_sub, clamp in Hc. cbn [imin] in Hc. unfold WEIGHT_ROTATION_COOLDOWN_SECONDS in *. lia.
  - apply bind_Ok in Hr as ([s1 m] & Hr & [= <-]). apply bind_Ok in Hr as (q & Hq%ok_or_Ok & Hr). apply bind_Ok in Hr as ([] & He%fail_if_Ok%Z.ltb_ge & [= <- _]).
    split; [done|]. right. destruct Hcase as [[_ Hp]|(_ & _ & Hnext)].
    + unfold load_pending in Hq. rewrite Hp in Hq. injection Hq as <-. split_and!; [done|cbn; exact He|done].
    + specialize (Hnext q Hq). lia.
Qed.

Lemma rotating_later (t0 t : Z) (a p : WeightConfiguration) (s0 s : DataKey) :
  guard_ok t0 s0 -> rotating a p s0 -> 0 < effective_at p -> guard_later t0 s0 t s ->
  t < effective_at p + 2 * WEIGHT_ROTATION_COOLDOWN_SECONDS -> rotating a p s.
Proof.
  intros Hok H0 Hpos. induction 1 as [|t s i x s' Hl IH [Ht Hmax] HP Hr]; intros Hb; [done|].
  pose proof (gd_last _ _ (guard_later_ok t0 t s0 s Hok Hl)). apply (rotating_step i a p s s' x); try done; [apply IH; lia|lia].
Qed.

(** Weights change slowly. From a reachable state on, whatever is called: without a pending
    rotation the configuration in force stays the same for the next 72 hours; with a
    rotation pending, the old configuration is in force until the announced moment, the
    announced one from then on, and the next change comes no sooner than 144 hours after
    it. *)
Theorem weights_change_slowly (t0 t : Z) (s0 s : DataKey) (a : WeightConfiguration) (i : env) :
  guard_history t0 s0 -> active_configuration s0 = Ok a -> guard_later t0 s0 t s -> t <= timestamp i ->
  match pending_configuration s0 with
  | None => timestamp i < t0 + 259200 -> effective_configuration i s = Ok a
  | Some p => timestamp i < effective_at p + 518400 ->
              effective_configuration i s = Ok (if timestamp i <? effective_at p then a else p)
  end.
Proof.
  intros Hs%guard_history_ok Ha%ok_or_Ok Hl Ht. pose proof (gd_active _ _ Hs a Ha) as [_ Hadm]. unfold pending_configuration, load_pending.
  destruct (Pending s0) as [p|] eqn:Ep; intros Hb.
  - destruct (gd_pending _ _ Hs p Ep) as (_ & _ & Heff). assert (0 < effective_at p) as Hpos by (unfold WEIGHT_ROTATION_COOLDOWN_SECONDS in *; lia).
    assert (rotating a p s0) as H0 by (split; [done|by left]).
    destruct (rotating_later t0 t a p s0 s Hs H0 Hpos Hl) as [_ Hcase]; [unfold WEIGHT_ROTATION_COOLDOWN_SECONDS; lia|].
    pose proof (gd_last _ _ (guard_later_ok t0 t s0 s Hs Hl)) as Hlast. unfold effective_configuration, load_active, load_pending.
    destruct Hcase as [[-> ->]|(-> & Hle & Hnext)]; cbn [ok_or]; rewrite bind_ret.
    + rewrite Z.leb_antisym. by destruct (timestamp i <? effective_at p).
    + rewrite (proj2 (Z.ltb_ge (timestamp i) _)) by lia. destruct (Pending s) as [q|]; [|done].
      rewrite (proj2 (Z.leb_gt _ _)) by (specialize (Hnext q eq_refl); unfold WEIGHT_ROTATION_COOLDOWN_SECONDS in *; lia). done.
  - apply (quiet_effective i t0 a); [|exact Hb]. apply (quiet_later t0 t a s0 s); [|done|unfold WEIGHT_ROTATION_COOLDOWN_SECONDS; lia].
    split_and!; [done|done|by rewrite Ep].
Qed.
End claims.

Section witnesses.
#[local] Existing Instance test_host.

Definition guard_at (now : Z) : env := @Build_env test_host (fun a => Z.eqb a 1) now.
Definition keys_ab (a b : Z) : list SignerWeight := [{| public_key := [1]; weight := a |}; {| public_key := [2]; weight := b |}].

Definition guard_first : @DataKey test_host := match initialize (guard_at 1000) empty_storage 1 (keys_ab 3 4) 5 with Ok s => s | _ => empty_storage end.
Definition guard_second : @DataKey test_host := match propose_weight_rotation (guard_at 2000) guard_first 1 (keys_ab 1 1) 2 with Ok (s, _) => s | _ => empty_storage end.

Lemma guard_first_history : guard_history 1000 guard_first.
Proof.
  exists 1000. split; [reflexivity|]. apply (later_next 1000 empty_storage 1000 empty_storage (guard_at 1000) (WInitialize (H := test_host) 1 (keys_ab 3 4) 5) guard_first);
    [constructor|split; vm_compute; discriminate|split; [repeat constructor; discriminate|discriminate]|].
  unfold guard_first. cbn [run_guard]. destruct (is_ok_Ok (initialize (guard_at 1000) empty_storage 1 (keys_ab 3 4) 5)) as [s ->]; [vm_compute; reflexivity|done].
Qed.

Lemma guard_second_history : guard_history 2000 guard_second.
Proof.
  destruct guard_first_history as (t0 & H0 & Hl). exists t0. split; [exact H0|].
  apply (later_next t0 empty_storage 1000 guard_first (guard_at 2000) (WPropose (H := test_host) 1 (keys_ab 1 1) 2) guard_second);
    [exact Hl|split; vm_compute; discriminate|split; [repeat constructor; discriminate|discriminate]|].
  unfold guard_second. cbn [run_guard]. destruct (is_ok_Ok (propose_weight_rotation (guard_at 2000) guard_first 1 (keys_ab 1 1) 2)) as [[s n] ->]; [vm_compute; reflexivity|done].
Qed.

Lemma guard_active : exists a, active_configuration guard_second = Ok a /\ effective_configuration (guard_at 2000) guard_second = Ok a /\ threshold a = 5.
Proof.
  destruct (is_ok_Ok (active_configuration guard_second)) as [a E]; [vm_compute; reflexivity|]. exists a. split; [exact E|]. split.
  - unfold effective_configuration. unfold active_configuration in E. rewrite E, bind_ret.
    assert (match load_pending guard_second with Some p => effective_at p <=? timestamp (guard_at 2000) | None => false end = false) as Hf by (vm_compute; reflexivity).
    destruct (load_pending guard_second); [by rewrite Hf|done].
  - assert (match active_configuration guard_second with Ok a => threshold a =? 5 | _ => false end = true) as Ht by (vm_compute; reflexivity).
    rewrite E in Ht. by apply Z.eqb_eq.
Qed.

Lemma guard_quorum_exact_witness :
  verify_quorum (guard_at 2000) guard_second [[1]; [1]; [9]] = Err ThresholdNotMet /\
  verify_quorum (guard_at 2000) guard_second [[2]; [1]; [2]] = Ok 7.
Proof.
  destruct guard_active as (a & _ & He & _).
  destruct (guard_quorum_exact (H := test_host) 2000 guard_second (guard_at 2000) a [[1]; [1]; [9]] guard_second_history He) as (E1 & _).
  destruct (guard_quorum_exact (H := test_host) 2000 guard_second (guard_at 2000) a [[2]; [1]; [2]] guard_second_history He) as (E2 & _).
  assert (weights a = <[[2] := 4]> (<[[1] := 3]> ∅) /\ threshold a = 5) as [Ew Et].
  { assert (match effective_configuration (guard_at 2000) guard_second with
            | Ok c => bool_decide (weights c = <[[2] := 4]> (<[[1] := 3]> ∅)) && (threshold c =? 5) | _ => false end = true) as Hb by (vm_compute; reflexivity).
    rewrite He in Hb. apply andb_true_iff in Hb as [Hw%bool_decide_eq_true Ht%Z.eqb_eq]. done. }
  cbn zeta in E1, E2. rewrite Ew, Et in E1, E2. split; [rewrite E1|rewrite E2]; vm_compute; reflexivity.
Defined.

Lemma weights_change_slowly_witness :
  exists a, active_configuration guard_second = Ok a /\ effective_configuration (guard_at 200000) guard_second = Ok a.
Proof.
  destruct guard_active as (a & Ha & _ & _). exists a. split; [exact Ha|].
  pose proof (weights_change_slowly (H := test_host) 2000 2000 guard_second guard_second a (guard_at 200000) guard_second_history Ha (later_now 2000 guard_second)
    ltac:(vm_compute; discriminate)) as Hx.
  assert (match pending_configuration guard_second with Some p => effective_at p =? 261200 | None => false end = true) as Hp by (vm_compute; reflexivity).
  destruct (pending_configuration guard_second) as [p|]; [|discriminate Hp]. apply Z.eqb_eq in Hp. rewrite Hp in Hx. exact (Hx ltac:(vm_compute; reflexivity)).
Defined.
End witnesses.
