(* ===== verification/Fees.v ===== *)
(** * Fees of the root contract

    [src/src/fees.rs] and [src/src/validation/dust.rs]: the pools of corridor fees, the
    shares of relayers and liquidity providers, the fee that follows the volume of a pool,
    and the pool of flash-loan fees. Admin and activity are those of [Keys].

    Floating point: an [f64] is a [spec_float] of precision 53, which the Standard Library
    defines with the rounding of IEEE 754; [libm::exp] is third-party code and the parameter
    [exp]. Left out: events, and [resolve_swap_fee_bps], which asks a configuration the
    repository does not define. *)

From stdpp Require Import base numbers list gmap.
From Stdlib Require Import ZArith Lia SpecFloat.
From S2P Require Import Prelude Host RootErrors BookData Keys.

Open Scope Z_scope.

Definition STANDARD_FIXED_POINT_SCALE : Z := 10000000.
Definition INTERIOR_FEE_PRECISION_SCALE : Z := 100000000000000.
Definition DYNAMIC_FEE_SCALE : Z := 10000000.
Definition MIN_DYNAMIC_FEE : Z := 5000.
Definition LP_FEE_GROWTH_SCALE : Z := INTERIOR_FEE_PRECISION_SCALE.
Definition FEE_TIER_5_BPS : Z := 5.
Definition FEE_TIER_30_BPS : Z := 30.
Definition FEE_TIER_100_BPS : Z := 100.
Definition PROTOCOL_FEE_FLOOR_BPS : Z := 1.
Definition MAX_PROTOCOL_FEE_BPS : Z := 100.
Definition LP_FEE_SHARE_BPS : Z := 8000.
Definition TREASURY_FEE_SHARE_BPS : Z := 2000.
Definition INTERIOR_SCALE : Z := 100000000000000.
Definition FIXED_POINT_SCALE : Z := 10000000.
Definition TREASURY_DIVERSIFICATION_THRESHOLD_BPS : Z := 4000.

(** ** src/src/validation/dust.rs *)
Definition MIN_TRANSFER_AMOUNT : Z := 10000.
Definition check_min_transfer (amount : Z) : R unit := fail_if (amount <? MIN_TRANSFER_AMOUNT) AmountTooLow.

(** Asset identifiers are [u32]. *)
Record CorridorFeePool := { cp_asset : Z; collected : Z; variable_pool : Z }.
Record FlashLoanFeePool := { fl_asset : Z; accumulated_fees : Z; total_lp_distributed : Z; total_treasury_distributed : Z }.
Record VolumeHistory := { previous_period_volume : Z; current_period_volume : Z; vh_last_updated : Z }.
Record DynamicFeeState := { min_fee_bps : Z; max_fee_bps : Z; current_fee_bps : Z; period_seconds : Z }.
Record CorridorWeightProfile := { cw_asset : Z; base_weight : Z; dynamic_weight : Z }.
Record DynamicFeeAccumulator := { base_fee : Z; peak_fee : Z; current_fee : Z; lambda : Z; da_last_updated : Z }.

Record TreasuryDiversificationPlan := {
  td_asset : Z;
  asset_value : Z;
  treasury_total : Z;
  concentration_ratio_bps : Z;
  td_threshold_bps : Z;
  excess_value : Z;
  swap_amount : Z;
  stablecoin_basket : list Z;
  stablecoin_allocations_bps : list Z;
  diversified : bool;
  td_timestamp : Z
}.

Definition new_corridor_pool (asset : Z) : CorridorFeePool := {| cp_asset := asset; collected := 0; variable_pool := 0 |}.
Definition new_flash_pool (asset : Z) : FlashLoanFeePool :=
  {| fl_asset := asset; accumulated_fees := 0; total_lp_distributed := 0; total_treasury_distributed := 0 |}.
Definition new_volume_history : VolumeHistory := {| previous_period_volume := 0; current_period_volume := 0; vh_last_updated := 0 |}.
Definition new_dynamic_fee : DynamicFeeState :=
  {| min_fee_bps := 5; max_fee_bps := FEE_TIER_100_BPS; current_fee_bps := 5; period_seconds := 3600 |}.
Definition new_weight_profile (asset : Z) : CorridorWeightProfile := {| cw_asset := asset; base_weight := 0; dynamic_weight := 0 |}.

Definition is_valid_fee_tier (bps : Z) : bool := (bps =? FEE_TIER_5_BPS) || (bps =? FEE_TIER_30_BPS) || (bps =? FEE_TIER_100_BPS).
Definition is_valid_protocol_fee_value (bps : Z) : bool := (bps =? PROTOCOL_FEE_FLOOR_BPS) || is_valid_fee_tier bps.

(** ** Treasury concentration *)
Definition calculate_asset_concentration_ratio (value total : Z) : R Z :=
  if total =? 0 then mret 0
  else
    x ← ok_or (checked_mul U128 value 10000) Overflow;
    ratio ← ok_or (checked_div U128 x total) DivisionByZero;
    if imax U32 <? ratio then mret (imax U32) else ok_or (chk U32 ratio) Overflow.

Definition basket_allocations (n : Z) : list Z :=
  if 0 <? n then (fun i => if Z.of_nat i <? 10000 mod n then 10000 / n + 1 else 10000 / n) <$> seq 0 (Z.to_nat n) else [].

Definition trigger_treasury_diversification (now asset value total : Z) (basket : list Z) : R TreasuryDiversificationPlan :=
  _ ← fail_if (bool_decide (basket = [])) InvalidInput;
  ratio ← calculate_asset_concentration_ratio value total;
  let over := TREASURY_DIVERSIFICATION_THRESHOLD_BPS <? ratio in
  excess ← (if over then x ← ok_or (checked_mul U128 total TREASURY_DIVERSIFICATION_THRESHOLD_BPS) Overflow;
                        mret (saturating_sub U64 value (cast U64 (x / 10000)))
            else mret 0);
  mret {| td_asset := asset; asset_value := value; treasury_total := total; concentration_ratio_bps := ratio;
          td_threshold_bps := TREASURY_DIVERSIFICATION_THRESHOLD_BPS; excess_value := excess; swap_amount := excess;
          stablecoin_basket := basket; stablecoin_allocations_bps := basket_allocations (len basket); diversified := over;
          td_timestamp := now |}.

(** ** Shares *)
Definition scale_product_to_interior (a b : Z) : R Z :=
  x ← ok_or (checked_mul U128 a b) Overflow; ok_or (checked_mul U128 x INTERIOR_SCALE) Overflow.

(** [u64::try_from(x)] *)
Definition to_u64 (x : Z) (e : ContractError) : R Z := ok_or (chk U64 x) e.

Definition normalize_to_fixed_point_footprint (interior : Z) : R Z :=
  q ← ok_or (checked_div U128 interior INTERIOR_SCALE) DivisionByZero; to_u64 q Overflow.

Definition multiply_and_scale_down (a b : Z) : R Z :=
  p ← scale_product_to_interior a b;
  q ← ok_or (checked_div U128 p FIXED_POINT_SCALE) DivisionByZero;
  normalize_to_fixed_point_footprint q.

Definition compute_corridor_usage_fee_share (total_fee relayer_usage total_usage : Z) : R Z :=
  if total_usage =? 0 then Err DivisionByZero
  else if (total_fee =? 0) || (relayer_usage =? 0) then mret 0
  else
    p ← scale_product_to_interior total_fee relayer_usage;
    normalize_to_fixed_point_footprint (p / total_usage).

Definition compute_multi_hop_corridor_fee_share (total_fee hop_usage relayer_usage total_hop_usage total_relayer_usage : Z) : R Z :=
  if (total_hop_usage =? 0) || (total_relayer_usage =? 0) then Err DivisionByZero
  else if (total_fee =? 0) || (hop_usage =? 0) || (relayer_usage =? 0) then mret 0
  else
    x ← ok_or (checked_mul U128 total_fee hop_usage) Overflow;
    y ← ok_or (checked_mul U128 x relayer_usage) Overflow;
    numerator ← ok_or (checked_mul U128 y INTERIOR_SCALE) Overflow;
    denominator ← ok_or (checked_mul U128 total_hop_usage total_relayer_usage) Overflow;
    normalize_to_fixed_point_footprint (numerator / denominator).

(** [iter().try_fold(0_i128, checked_add)] *)
Fixpoint total_of (e : ContractError) (l : list Z) (acc : Z) : R Z :=
  match l with [] => mret acc | x :: l => acc ← ok_or (checked_add I128 acc x) e; total_of e l acc end.

(** The loop of [settle_flash_loan_fee]; [shares] are those not allocated yet. *)
Fixpoint settle_loop (fee total_lp : Z) (shares : list Z) (allocated : Z) (allocations : list Z) : R (Z * list Z) :=
  match shares with
  | [] => mret (allocated, allocations)
  | share :: rest =>
      allocation ← (if bool_decide (rest = []) then ok_or (checked_sub U64 fee allocated) Overflow
                    else x ← ok_or (checked_mul I128 fee share) Overflow;
                         q ← ok_or (checked_div I128 x total_lp) DivisionByZero;
                         to_u64 q Overflow);
      allocated ← ok_or (checked_add U64 allocated allocation) Overflow;
      allocations ← vpush allocations allocation;
      settle_loop fee total_lp rest allocated allocations
  end.

(** The growth accumulator is one number; the new one is returned with the allocations. *)
Definition settle_flash_loan_fee (growth flash_fee : Z) (lp_shares : list Z) : R (Z * list Z) :=
  total_lp ← total_of Overflow lp_shares 0;
  _ ← fail_if ((total_lp <=? 0) || bool_decide (lp_shares = [])) DivisionByZero;
  x ← ok_or (checked_mul I128 flash_fee LP_FEE_GROWTH_SCALE) Overflow;
  fee_growth ← ok_or (checked_div I128 x total_lp) DivisionByZero;
  growth ← ok_or (checked_add I128 growth fee_growth) Overflow;
  r ← settle_loop flash_fee total_lp lp_shares 0 [];
  _ ← fail_if (negb (r.1 =? flash_fee)) Overflow;
  mret (growth, r.2).

(** The loop of [distribute_variable_fee_pool]. *)
Fixpoint distribute_loop (pool_profile interior total_weight : Z) (weights : list Z) (assigned : Z) (profiles : list Z) : R (list Z) :=
  match weights with
  | [] => mret profiles
  | weight :: rest =>
      profile ← (if bool_decide (rest = []) then ok_or (checked_sub I128 pool_profile assigned) MathOverflow
                 else x ← ok_or (checked_mul I128 interior weight) MathOverflow;
                      q ← ok_or (checked_div I128 x total_weight) DivisionByZero;
                      ok_or (checked_div I128 q INTERIOR_FEE_PRECISION_SCALE) DivisionByZero);
      assigned ← ok_or (checked_add I128 assigned profile) MathOverflow;
      p ← to_u64 profile MathOverflow;
      profiles ← vpush profiles p;
      distribute_loop pool_profile interior total_weight rest assigned profiles
  end.

Definition distribute_variable_fee_pool (pool : Z) (relayer_weights : list Z) : R (list Z) :=
  total_weight ← total_of MathOverflow relayer_weights 0;
  if (total_weight =? 0) || bool_decide (relayer_weights = []) then mret []
  else
    pool_profile ← ok_or (checked_mul I128 pool STANDARD_FIXED_POINT_SCALE) MathOverflow;
    interior ← ok_or (checked_mul I128 pool_profile INTERIOR_FEE_PRECISION_SCALE) MathOverflow;
    distribute_loop pool_profile interior total_weight relayer_weights 0 [].

Definition split_collected_fees (amount : Z) : R (Z * Z) :=
  x ← imul U128 amount LP_FEE_SHARE_BPS;
  lp_share ← to_u64 (x / 10000) Overflow;
  treasury_share ← ok_or (checked_sub U64 amount lp_share) MathOverflow;
  mret (lp_share, treasury_share).

Definition calculate_and_deduct_fee (amount bps : Z) : R (Z * Z) :=
  x ← ok_or (checked_mul U128 amount bps) Overflow;
  fee_amount ← ok_or (checked_div U128 x 10000) DivisionByZero;
  rest ← ok_or (checked_sub U128 amount fee_amount) MathOverflow;
  mret (rest, fee_amount).

(** ** Floating point *)
Abbreviation f64 := spec_float.

(** [z as f64], rounded to nearest, ties to even. *)
Definition f64_of (z : Z) : f64 := binary_normalize 53 1024 z 0 false.
Definition f64_mul : f64 -> f64 -> f64 := SFmul 53 1024.
Definition f64_div : f64 -> f64 -> f64 := SFdiv 53 1024.

(** [x as u64]: towards zero and saturating; NaN becomes zero. *)
Definition u64_of (x : f64) : Z :=
  match x with
  | S754_zero _ | S754_nan => 0
  | S754_infinity s => if s then 0 else imax U64
  | S754_finite s m e => if s then 0 else Z.min (imax U64) (Z.shiftl (Z.pos m) e)
  end.

(** The literals 1.5 and 0.7. *)
Definition ONE_AND_HALF : f64 := S754_finite false 6755399441055744 (-52).
Definition SEVEN_TENTHS : f64 := S754_finite false 6305039478318694 (-53).

(** What the volume of the current period means for the fee. *)
Definition tier_for (volume_delta : f64) (current : Z) : Z :=
  if SFltb ONE_AND_HALF volume_delta then
    (if current =? FEE_TIER_5_BPS then FEE_TIER_30_BPS else if current =? FEE_TIER_30_BPS then FEE_TIER_100_BPS else current)
  else if SFltb volume_delta SEVEN_TENTHS then
    (if current =? FEE_TIER_100_BPS then FEE_TIER_30_BPS else if current =? FEE_TIER_30_BPS then FEE_TIER_5_BPS else current)
  else current.

(** [x.clamp(lo, hi)] asserts that the bounds are ordered. *)
Definition clamp_u32 (x lo hi : Z) : R Z := if hi <? lo then Panic else mret (Z.max lo (Z.min hi x)).

Definition calculate_dynamic_fee (h : VolumeHistory) (d : DynamicFeeState) : R Z :=
  if previous_period_volume h =? 0 then mret (current_fee_bps d)
  else
    let volume_delta := f64_div (f64_of (current_period_volume h)) (f64_of (previous_period_volume h)) in
    clamp_u32 (tier_for volume_delta (current_fee_bps d)) (min_fee_bps d) (max_fee_bps d).

Section decay.
Context (exp : f64 -> f64).

Definition calculate_decayed_fee (base peak lam elapsed_seconds : Z) : R Z :=
  let base := Z.max base MIN_DYNAMIC_FEE in
  if (peak <=? base) || (lam =? 0) || (elapsed_seconds =? 0) then mret (Z.max peak base)
  else
    let decay := exp (SFopp (f64_mul (f64_div (f64_of lam) (f64_of DYNAMIC_FEE_SCALE)) (f64_of elapsed_seconds))) in
    spread ← isub U64 peak base;
    let variable_fee := u64_of (f64_mul (f64_of spread) decay) in
    mret (Z.max (saturating_add U64 base variable_fee) MIN_DYNAMIC_FEE).

Definition update_dynamic_fee_accumulator (a : DynamicFeeAccumulator) (now : Z) : R (DynamicFeeAccumulator * Z) :=
  let elapsed := saturating_sub U64 now (da_last_updated a) in
  fee ← calculate_decayed_fee (base_fee a) (peak_fee a) (lambda a) elapsed;
  mret ({| base_fee := base_fee a; peak_fee := peak_fee a; current_fee := fee; lambda := lambda a; da_last_updated := now |}, fee).

Definition record_pool_trade (a : DynamicFeeAccumulator) (now observed_peak_fee : Z) : R (DynamicFeeAccumulator * Z) :=
  r ← update_dynamic_fee_accumulator a now;
  let a1 := r.1 in
  let a2 := if peak_fee a1 <? observed_peak_fee
            then {| base_fee := base_fee a1; peak_fee := observed_peak_fee; current_fee := Z.max observed_peak_fee MIN_DYNAMIC_FEE;
                    lambda := lambda a1; da_last_updated := da_last_updated a1 |}
            else a1 in
  mret (a2, Z.max (current_fee a2) MIN_DYNAMIC_FEE).
End decay.

(** ** The storage *)
Section fees.
Context {H : Host}.

(** One field per kind of key. *)
Record fee_store := {
  fs_keys : keyring;
  corridor_pools : gmap Z CorridorFeePool;
  volume_histories : gmap Z VolumeHistory;
  dynamic_fees : gmap Z DynamicFeeState;
  flash_pools : gmap Z FlashLoanFeePool;
  corridor_weights : gmap Z CorridorWeightProfile;
  lp_reward_pool : option Address;
  treasury_address : option Address
}.

Definition set_fee_keys (s : fee_store) (k : keyring) : fee_store := {|
  fs_keys := k; corridor_pools := corridor_pools s; volume_histories := volume_histories s; dynamic_fees := dynamic_fees s;
  flash_pools := flash_pools s; corridor_weights := corridor_weights s; lp_reward_pool := lp_reward_pool s; treasury_address := treasury_address s |}.

Definition set_corridor_pool (s : fee_store) (asset : Z) (p : CorridorFeePool) : fee_store := {|
  fs_keys := fs_keys s; corridor_pools := <[asset := p]> (corridor_pools s); volume_histories := volume_histories s; dynamic_fees := dynamic_fees s;
  flash_pools := flash_pools s; corridor_weights := corridor_weights s; lp_reward_pool := lp_reward_pool s; treasury_address := treasury_address s |}.

Definition set_volume_and_fee (s : fee_store) (asset : Z) (h : option VolumeHistory) (d : DynamicFeeState) : fee_store := {|
  fs_keys := fs_keys s; corridor_pools := corridor_pools s;
  volume_histories := match h with Some h => <[asset := h]> (volume_histories s) | None => volume_histories s end;
  dynamic_fees := <[asset := d]> (dynamic_fees s); flash_pools := flash_pools s; corridor_weights := corridor_weights s;
  lp_reward_pool := lp_reward_pool s; treasury_address := treasury_address s |}.

Definition set_flash_pool (s : fee_store) (asset : Z) (p : FlashLoanFeePool) : fee_store := {|
  fs_keys := fs_keys s; corridor_pools := corridor_pools s; volume_histories := volume_histories s; dynamic_fees := dynamic_fees s;
  flash_pools := <[asset := p]> (flash_pools s); corridor_weights := corridor_weights s; lp_reward_pool := lp_reward_pool s;
  treasury_address := treasury_address s |}.

Definition set_weight_and_lp (s : fee_store) (w : gmap Z CorridorWeightProfile) (lp : option Address) : fee_store := {|
  fs_keys := fs_keys s; corridor_pools := corridor_pools s; volume_histories := volume_histories s; dynamic_fees := dynamic_fees s;
  flash_pools := flash_pools s; corridor_weights := w; lp_reward_pool := lp; treasury_address := treasury_address s |}.

(** The check the admin functions start with: authorisation first, then the admin. *)
Definition require_fee_admin (i : call_env) (s : fee_store) (caller : Address) : R unit :=
  _ ← require_auth (auth i) caller;
  d ← load_data (fs_keys s);
  fail_if (negb (bool_decide (admin d = caller))) NotAdmin.

Definition get_corridor_fee_pool (s : fee_store) (asset : Z) : CorridorFeePool := default (new_corridor_pool asset) (corridor_pools s !! asset).

Definition add_corridor_fees (i : call_env) (s : fee_store) (caller : Address) (asset amount variable_fee : Z) : R (fee_store * CorridorFeePool) :=
  _ ← require_auth (auth i) caller;
  _ ← check_min_transfer amount;
  d ← load_data (fs_keys s);
  _ ← fail_if (negb (bool_decide (admin d = caller))) NotAdmin;
  let p := get_corridor_fee_pool s asset in
  c ← ok_or (checked_add U64 (collected p) amount) MathOverflow;
  v ← ok_or (checked_add U64 (variable_pool p) variable_fee) MathOverflow;
  let p' := {| cp_asset := cp_asset p; collected := c; variable_pool := v |} in
  mret (set_corridor_pool s asset p', p').

(** The entry point also stamps the activity of the admin. *)
Definition entry_add_corridor_fees (i : call_env) (s : fee_store) (caller : Address) (asset amount variable_fee : Z) : R (fee_store * CorridorFeePool) :=
  r ← add_corridor_fees i s caller asset amount variable_fee;
  mret (set_fee_keys r.1 (update_admin_activity i (fs_keys r.1)), r.2).

Definition update_volume_and_adjust_fee (now : Z) (s : fee_store) (asset trade_volume : Z) : R (fee_store * Z) :=
  let h := default new_volume_history (volume_histories s !! asset) in
  let d := default new_dynamic_fee (dynamic_fees s !! asset) in
  due ← iadd U64 (vh_last_updated h) (period_seconds d);
  if due <=? now then
    let h' := {| previous_period_volume := current_period_volume h; current_period_volume := trade_volume; vh_last_updated := now |} in
    new_fee ← calculate_dynamic_fee h' d;
    let enforced := Z.max new_fee PROTOCOL_FEE_FLOOR_BPS in
    let d' := {| min_fee_bps := min_fee_bps d; max_fee_bps := max_fee_bps d; current_fee_bps := enforced; period_seconds := period_seconds d |} in
    mret (set_volume_and_fee s asset (Some h') d', enforced)
  else
    v ← ok_or (checked_add U64 (current_period_volume h) trade_volume) MathOverflow;
    let h' := {| previous_period_volume := previous_period_volume h; current_period_volume := v; vh_last_updated := vh_last_updated h |} in
    mret (set_volume_and_fee s asset (Some h') d, current_fee_bps d).

Definition get_current_dynamic_fee (s : fee_store) (asset : Z) : Z := current_fee_bps (default new_dynamic_fee (dynamic_fees s !! asset)).

Definition set_dynamic_fee_config (i : call_env) (s : fee_store) (caller : Address) (asset lo hi period : Z) : R fee_store :=
  _ ← require_fee_admin i s caller;
  let clamped_min := Z.max lo PROTOCOL_FEE_FLOOR_BPS in
  let clamped_max := Z.max hi clamped_min in
  _ ← fail_if ((MAX_PROTOCOL_FEE_BPS <? clamped_min) || (MAX_PROTOCOL_FEE_BPS <? clamped_max)) ProtocolFeeCapExceeded;
  _ ← fail_if (negb (is_valid_protocol_fee_value clamped_min) || negb (is_valid_protocol_fee_value clamped_max) || (clamped_max <=? clamped_min))
        InvalidVarianceConfig;
  _ ← fail_if (period <? 300) InvalidVarianceConfig;
  let d := default new_dynamic_fee (dynamic_fees s !! asset) in
  mret (set_volume_and_fee s asset None
    {| min_fee_bps := clamped_min; max_fee_bps := clamped_max;
       current_fee_bps := if current_fee_bps d <? PROTOCOL_FEE_FLOOR_BPS then PROTOCOL_FEE_FLOOR_BPS else current_fee_bps d;
       period_seconds := period |}).

Definition governance_adjust_fee_tier (i : call_env) (s : fee_store) (caller : Address) (asset new_fee_bps : Z) : R (fee_store * Z) :=
  _ ← require_fee_admin i s caller;
  let d := default new_dynamic_fee (dynamic_fees s !! asset) in
  _ ← fail_if (MAX_PROTOCOL_FEE_BPS <? new_fee_bps) ProtocolFeeCapExceeded;
  let enforced := Z.max new_fee_bps PROTOCOL_FEE_FLOOR_BPS in
  _ ← fail_if (negb (is_valid_protocol_fee_value enforced)) InvalidVarianceConfig;
  _ ← fail_if ((enforced <? min_fee_bps d) || (max_fee_bps d <? enforced)) InvalidVarianceConfig;
  mret (set_volume_and_fee s asset None {| min_fee_bps := min_fee_bps d; max_fee_bps := max_fee_bps d; current_fee_bps := enforced;
                                           period_seconds := period_seconds d |}, enforced).

Definition set_corridor_weight (i : call_env) (s : fee_store) (caller : Address) (asset base dynamic : Z) : R (fee_store * CorridorWeightProfile) :=
  _ ← require_fee_admin i s caller;
  let w := {| cw_asset := asset; base_weight := base; dynamic_weight := dynamic |} in
  mret (set_weight_and_lp s (<[asset := w]> (corridor_weights s)) (lp_reward_pool s), w).

Definition get_corridor_weight (s : fee_store) (asset : Z) : CorridorWeightProfile := default (new_weight_profile asset) (corridor_weights s !! asset).

(** ** Flash-loan fees *)
Definition get_flash_fee_pool (s : fee_store) (asset : Z) : FlashLoanFeePool := default (new_flash_pool asset) (flash_pools s !! asset).

Definition record_flash_fee (s : fee_store) (asset amount : Z) : R (fee_store * Z) :=
  if amount =? 0 then mret (s, 0)
  else
    let p := get_flash_fee_pool s asset in
    a ← ok_or (checked_add U64 (accumulated_fees p) amount) Overflow;
    mret (set_flash_pool s asset {| fl_asset := fl_asset p; accumulated_fees := a; total_lp_distributed := total_lp_distributed p;
                                    total_treasury_distributed := total_treasury_distributed p |}, a).

Definition set_lp_reward_pool (i : call_env) (s : fee_store) (caller pool : Address) : R fee_store :=
  _ ← require_fee_admin i s caller; mret (set_weight_and_lp s (corridor_weights s) (Some pool)).

Definition get_lp_reward_pool (s : fee_store) : R Address :=
  match lp_reward_pool s with Some a => mret a | None => ok_or (treasury_address s) NotInitialized end.

Definition distribute_flash_fees (i : call_env) (s : fee_store) (caller : Address) (asset : Z) : R (fee_store * (Z * Z)) :=
  _ ← require_auth (auth i) caller;
  let p := get_flash_fee_pool s asset in
  if accumulated_fees p =? 0 then mret (s, (0, 0))
  else
    let total := accumulated_fees p in
    let lp_share := total / 2 in
    treasury_share ← isub U64 total lp_share;
    _ ← ok_or (treasury_address s) NotInitialized;
    l ← ok_or (checked_add U64 (total_lp_distributed p) lp_share) Overflow;
    t ← ok_or (checked_add U64 (total_treasury_distributed p) treasury_share) Overflow;
    mret (set_flash_pool s asset {| fl_asset := fl_asset p; accumulated_fees := 0; total_lp_distributed := l;
                                    total_treasury_distributed := t |}, (lp_share, treasury_share)).
End fees.
