(* ===== verification/FeeTheorems.v ===== *)
(** * What the fees of the root contract guarantee

    The fee that follows the volume of a pool stays on the tiers under the cap of the
    protocol whatever the admin and the traders do; a flash-loan fee is handed out to the
    last unit; and a share computed at the interior precision is the plain quotient. *)

From stdpp Require Import base numbers list gmap.
From Stdlib Require Import ZArith Lia SpecFloat.
From S2P Require Import Prelude Host RootErrors BookData Keys Fees.

Open Scope Z_scope.

(** ** Shares *)
(** A checked operation whose exact result [z] is in range. *)
Ltac in_width t z := rewrite (proj2 (chk_Some t z z)) by (split; [done | lia]); cbn [ok_or]; rewrite ?bind_ret.

Lemma checked_mul_nonneg (a b : Z) : 0 <= a -> 0 <= b -> checked_mul U128 a b = if imax U128 <? a * b then None else Some (a * b).
Proof.
  intros Ha Hb. unfold checked_mul, chk, fits. change (imin U128) with 0. rewrite (proj2 (Z.leb_le 0 (a * b))) by nia. cbn [andb].
  rewrite (Z.leb_antisym (imax U128) (a * b)). by destruct (_ <? _).
Qed.

Lemma checked_div_pos (t : ity) (a b : Z) : 0 <= a -> 0 < b -> imin t <= 0 -> a <= imax t -> checked_div t a b = Some (a / b).
Proof.
  intros Ha Hb Hm Ht. unfold checked_div. rewrite (proj2 (Z.eqb_neq b 0)) by lia. rewrite Z.quot_div_nonneg by lia. apply chk_Some. split; [done |].
  pose proof (Z.div_pos a b Ha Hb). pose proof (Z.div_le_upper_bound a b a Hb ltac:(nia)). lia.
Qed.

Lemma scaled_quotient (x n : Z) : 0 < n -> x * INTERIOR_SCALE / n / INTERIOR_SCALE = x / n.
Proof. intros Hn. assert (0 < INTERIOR_SCALE) by done. rewrite Z.div_div, Z.mul_comm, (Z.mul_comm n) by lia. by rewrite Z.div_mul_cancel_l by lia. Qed.

Lemma normalize_exact (x n : Z) : 0 <= x -> x * INTERIOR_SCALE <= imax U128 -> 0 < n ->
  normalize_to_fixed_point_footprint (x * INTERIOR_SCALE / n) = ok_or (chk U64 (x / n)) Overflow.
Proof.
  intros Hx Hm Hn. assert (0 < INTERIOR_SCALE) by done. unfold normalize_to_fixed_point_footprint. assert (0 <= x * INTERIOR_SCALE) by nia.
  pose proof (Z.div_pos (x * INTERIOR_SCALE) n ltac:(lia) Hn). pose proof (Z.div_le_upper_bound (x * INTERIOR_SCALE) n (x * INTERIOR_SCALE) Hn ltac:(nia)).
  rewrite (checked_div_pos U128) by (try done; lia). cbn [ok_or]. rewrite bind_ret, scaled_quotient by done. done.
Qed.

(** ** Allocation loops *)
Lemma zsum_nonneg (l : list Z) : Forall (fun x => 0 <= x) l -> 0 <= zsum l.
Proof. induction 1; unfold zsum in *; cbn; lia. Qed.

Lemma zsum_member (l : list Z) (x : Z) : Forall (fun x => 0 <= x) l -> x ∈ l -> 0 <= x <= zsum l.
Proof.
  induction 1 as [| y l Hy Hl IH]; [by intros ?%elem_of_nil |]. pose proof (zsum_nonneg l Hl). intros [-> | Hx]%elem_of_cons; unfold zsum in *; cbn [foldr]; [lia |].
  specialize (IH Hx). lia.
Qed.

Lemma total_of_sum (e : ContractError) (l : list Z) : forall acc, Forall (fun x => 0 <= x) l -> 0 <= acc -> acc + zsum l <= imax I128 ->
  total_of e l acc = Ok (acc + zsum l).
Proof.
  induction l as [| x l IH]; intros acc Hl Ha Hs; cbn [total_of zsum foldr] in *; [f_equal; lia |].
  apply Forall_cons in Hl as [Hx Hl]. change (foldr Z.add 0 l) with (zsum l) in *. pose proof (zsum_nonneg l Hl).
  unfold checked_add. rewrite (proj2 (chk_Some I128 (acc + x) _)) by (split; [done | change (imin I128) with (- 2 ^ 127); lia]). cbn [ok_or]. rewrite bind_ret.
  rewrite (IH (acc + x) Hl) by lia. f_equal. lia.
Qed.

(** What is left for the last share: at least its own part, and less than one unit for each other share more. *)
Definition share_of (fee total share : Z) : Z := fee * share / total.

Lemma shares_bound (fee total : Z) (l : list Z) : 0 <= fee -> 0 < total -> Forall (fun x => 0 <= x) l ->
  fee * zsum l / total - len l <= zsum (share_of fee total <$> l) <= fee * zsum l / total.
Proof.
  intros Hf Ht Hl. assert (He : fee * zsum l - total * len l <= total * zsum (share_of fee total <$> l) <= fee * zsum l).
  { clear -Hf Ht Hl. induction Hl as [| x l Hx Hl IH]; [unfold zsum, len; cbn; lia |]. rewrite fmap_cons. unfold zsum in *. cbn [foldr].
    unfold len in *. rewrite length_cons, Nat2Z.inj_succ. unfold share_of at 1 3.
    pose proof (Z.mod_pos_bound (fee * x) total Ht). pose proof (Z.div_mod (fee * x) total ltac:(lia)). lia. }
  split; [| apply Z.div_le_lower_bound; lia].
  pose proof (Z.mul_div_le (fee * zsum l) total Ht). nia.
Qed.

Lemma vpush_in {E : Type} (l : list Z) (x : Z) : len l < imax U32 -> @vpush E Z l x = Ok (l ++ [x]).
Proof. intros Hl. apply vpush_Ok. split; [lia | done]. Qed.

Lemma settle_loop_exact (fee total last : Z) (init : list Z) : forall allocated acc,
  0 < total -> 0 <= fee <= imax U64 -> Forall (fun x => 0 <= x /\ fee * x <= imax I128) init ->
  0 <= allocated -> allocated + zsum (share_of fee total <$> init) <= fee -> len acc + len init < imax U32 ->
  Fees.settle_loop fee total (init ++ [last]) allocated acc =
    Ok (fee, acc ++ (share_of fee total <$> init) ++ [fee - (allocated + zsum (share_of fee total <$> init))]).
Proof.
  assert (Hm : imin U64 = 0 /\ imin I128 = - 2 ^ 127) by done. destruct Hm as [Hm Hm'].
  induction init as [| x init IH]; intros allocated acc Ht Hf Hi Ha Hs Hl; cbn [app Fees.settle_loop].
  - cbn in Hs. rewrite bool_decide_eq_true_2 by done. unfold checked_sub, checked_add.
    in_width U64 (fee - allocated).
    in_width U64 (allocated + (fee - allocated)).
    unfold len in Hl. cbn [length] in Hl. rewrite vpush_in by (unfold len; lia). rewrite bind_ret. cbn. do 2 f_equal; [lia |]. do 2 f_equal. lia.
  - apply Forall_cons in Hi as [[Hx Hx'] Hi]. rewrite fmap_cons in *. unfold zsum in Hs. cbn [foldr] in Hs. change (foldr Z.add 0 ?q) with (zsum q) in Hs.
    assert (0 <= share_of fee total x) by (apply Z.div_pos; nia).
    assert (0 <= zsum (share_of fee total <$> init)).
    { apply zsum_nonneg, Forall_fmap. eapply Forall_impl; [exact Hi |]. intros y [? ?]. cbn. apply Z.div_pos; nia. }
    rewrite bool_decide_eq_false_2 by (by destruct init). unfold checked_mul.
    in_width I128 (fee * x).
    rewrite (checked_div_pos I128) by (try done; nia). cbn [ok_or]. rewrite bind_ret. change (fee * x / total) with (share_of fee total x).
    unfold to_u64. in_width U64 (share_of fee total x).
    unfold checked_add. in_width U64 (allocated + share_of fee total x).
    unfold len in Hl. rewrite length_cons, Nat2Z.inj_succ in Hl. rewrite vpush_in by (unfold len; lia). rewrite bind_ret.
    rewrite IH; [| done | done | done | lia | lia | rewrite len_app; unfold len; cbn [length]; lia].
    rewrite <- app_assoc. cbn [app]. unfold zsum. cbn [foldr]. rewrite (Z.add_assoc _ (share_of _ _ x)). done.
Qed.

Lemma distribute_loop_exact (p total last : Z) (init : list Z) : forall assigned acc,
  0 < total -> 0 <= p <= imax U64 ->
  Forall (fun x => 0 <= x /\ p * INTERIOR_FEE_PRECISION_SCALE * x <= imax I128) init ->
  0 <= assigned -> assigned + zsum (share_of p total <$> init) <= p -> len acc + len init < imax U32 ->
  distribute_loop p (p * INTERIOR_FEE_PRECISION_SCALE) total (init ++ [last]) assigned acc =
    Ok (acc ++ (share_of p total <$> init) ++ [p - (assigned + zsum (share_of p total <$> init))]).
Proof.
  assert (Hm : imin U64 = 0 /\ imin I128 = - 2 ^ 127 /\ imax U64 <= imax I128 /\ 0 < INTERIOR_FEE_PRECISION_SCALE) by done. destruct Hm as (Hm & Hm' & Hm'' & Hi0).
  induction init as [| x init IH]; intros assigned acc Ht Hf Hi Ha Hs Hl; cbn [app distribute_loop].
  - cbn in Hs. rewrite bool_decide_eq_true_2 by done. unfold checked_sub, checked_add.
    in_width I128 (p - assigned).
    in_width I128 (assigned + (p - assigned)).
    unfold to_u64. in_width U64 (p - assigned).
    unfold len in Hl. cbn [length] in Hl. rewrite vpush_in by (unfold len; lia). rewrite bind_ret. cbn. do 4 f_equal. lia.
  - apply Forall_cons in Hi as [[Hx Hx'] Hi]. rewrite fmap_cons in *. unfold zsum in Hs. cbn [foldr] in Hs. change (foldr Z.add 0 ?q) with (zsum q) in Hs.
    assert (0 <= share_of p total x) by (apply Z.div_pos; nia).
    assert (0 <= zsum (share_of p total <$> init)).
    { apply zsum_nonneg, Forall_fmap. eapply Forall_impl; [exact Hi |]. intros y [? ?]. cbn. apply Z.div_pos; nia. }
    rewrite bool_decide_eq_false_2 by (by destruct init). unfold checked_mul. assert (0 <= p * INTERIOR_FEE_PRECISION_SCALE * x) by nia.
    in_width I128 (p * INTERIOR_FEE_PRECISION_SCALE * x).
    rewrite (checked_div_pos I128) by (try done; lia). cbn [ok_or]. rewrite bind_ret.
    pose proof (Z.div_pos (p * INTERIOR_FEE_PRECISION_SCALE * x) total ltac:(lia) Ht).
    pose proof (Z.div_le_upper_bound (p * INTERIOR_FEE_PRECISION_SCALE * x) total (p * INTERIOR_FEE_PRECISION_SCALE * x) Ht ltac:(nia)).
    rewrite (checked_div_pos I128) by (try done; lia). cbn [ok_or]. rewrite bind_ret.
    assert (He : p * INTERIOR_FEE_PRECISION_SCALE * x / total / INTERIOR_FEE_PRECISION_SCALE = share_of p total x).
    { replace (p * INTERIOR_FEE_PRECISION_SCALE * x) with (p * x * INTERIOR_SCALE) by (unfold INTERIOR_FEE_PRECISION_SCALE, INTERIOR_SCALE; lia).
      by apply scaled_quotient. }
    rewrite He. unfold checked_add. in_width I128 (assigned + share_of p total x).
    unfold to_u64. in_width U64 (share_of p total x).
    unfold len in Hl. rewrite length_cons, Nat2Z.inj_succ in Hl. rewrite vpush_in by (unfold len; lia). rewrite bind_ret.
    rewrite IH; [| done | done | done | lia | lia | rewrite len_app; unfold len; cbn [length]; lia].
    rewrite <- app_assoc. cbn [app]. unfold zsum. cbn [foldr]. rewrite (Z.add_assoc _ (share_of _ _ x)). done.
Qed.

(** ** The shares of a corridor *)

(** The share of a corridor fee: computed at an interior precision of 10^14 it is the
    plain quotient, rounded down; the scaling only decides which amounts are refused. *)
Theorem corridor_share_exact (t u n h m : Z) (Ht : 0 <= t) (Hu : 0 <= u) (Hh : 0 <= h) (Hn : 0 < n) (Hm : 0 < m) :
  compute_corridor_usage_fee_share t u n =
    (if imax U128 <? t * u * INTERIOR_SCALE then Err Overflow else ok_or (chk U64 (t * u / n)) Overflow) /\
  compute_multi_hop_corridor_fee_share t h u n m =
    (if t * h * u =? 0 then Ok 0
     else if (imax U128 <? t * h * u * INTERIOR_SCALE) || (imax U128 <? n * m) then Err Overflow
     else ok_or (chk U64 (t * h * u / (n * m))) Overflow) /\
  multiply_and_scale_down t u =
    (if imax U128 <? t * u * INTERIOR_SCALE then Err Overflow else ok_or (chk U64 (t * u / FIXED_POINT_SCALE)) Overflow).
Proof.
  assert (Hs : 0 < INTERIOR_SCALE /\ 0 < imax U128) by done. destruct Hs as [Hs Hx].
  assert (Hbig : forall x, imax U128 < x -> (imax U128 <? x * INTERIOR_SCALE) = true) by (intros x ?; apply Z.ltb_lt; nia).
  assert (Hp : scale_product_to_interior t u = if imax U128 <? t * u * INTERIOR_SCALE then Err Overflow else Ok (t * u * INTERIOR_SCALE)).
  { unfold scale_product_to_interior. rewrite checked_mul_nonneg by done. destruct (Z.ltb_spec (imax U128) (t * u)).
    - by rewrite Hbig.
    - cbn [ok_or]. rewrite bind_ret, checked_mul_nonneg by nia. by destruct (_ <? _). }
  split; [| split].
  - unfold compute_corridor_usage_fee_share. rewrite (proj2 (Z.eqb_neq n 0)) by lia. destruct (Z.eqb_spec t 0) as [-> | ?]; [done |].
    destruct (Z.eqb_spec u 0) as [-> | ?]; [by rewrite Z.mul_0_r |]. cbn [orb]. rewrite Hp. destruct (Z.ltb_spec (imax U128) (t * u * INTERIOR_SCALE)); [done |].
    rewrite bind_ret. apply normalize_exact; [lia || nia | done | lia || nia].
  - unfold compute_multi_hop_corridor_fee_share. rewrite (proj2 (Z.eqb_neq n 0)), (proj2 (Z.eqb_neq m 0)) by lia. cbn [orb].
    destruct (Z.eqb_spec t 0) as [-> | ?]; [done |]. destruct (Z.eqb_spec h 0) as [-> | ?]; [by rewrite Z.mul_0_r |].
    destruct (Z.eqb_spec u 0) as [-> | ?]; [by rewrite Z.mul_0_r |]. cbn [orb].
    assert (Hb : 0 < t * h) by nia. assert (Hc : 0 < t * h * u) by nia. rewrite (proj2 (Z.eqb_neq (t * h * u) 0)) by lia.
    rewrite (checked_mul_nonneg t h) by done. destruct (Z.ltb_spec (imax U128) (t * h)); [by rewrite Hbig by nia |].
    cbn [ok_or]. rewrite bind_ret, (checked_mul_nonneg (t * h) u) by lia.
    destruct (Z.ltb_spec (imax U128) (t * h * u)); [by rewrite Hbig |].
    cbn [ok_or]. rewrite bind_ret, (checked_mul_nonneg (t * h * u)) by lia. destruct (Z.ltb_spec (imax U128) (t * h * u * INTERIOR_SCALE)); [done |].
    cbn [ok_or]. rewrite bind_ret, checked_mul_nonneg by lia. destruct (Z.ltb_spec (imax U128) (n * m)); [done |].
    cbn [ok_or orb]. rewrite bind_ret. apply normalize_exact; [lia || nia | done | lia || nia].
  - unfold multiply_and_scale_down. rewrite Hp. destruct (Z.ltb_spec (imax U128) (t * u * INTERIOR_SCALE)); [done |].
    rewrite bind_ret, (checked_div_pos U128) by (try done; nia). cbn [ok_or]. rewrite bind_ret. apply normalize_exact; [nia | lia | done].
Qed.

Lemma corridor_share_exact_witness :
  compute_corridor_usage_fee_share 1000 3 7 = Ok 428 /\ compute_multi_hop_corridor_fee_share 1000 3 5 7 11 = Ok 194 /\
  compute_corridor_usage_fee_share (10 ^ 13) (10 ^ 13) 1 = Err Overflow.
Proof.
  destruct (corridor_share_exact 1000 5 7 3 11 ltac:(lia) ltac:(lia) ltac:(lia) ltac:(lia) ltac:(lia)) as (_ & H2 & _).
  destruct (corridor_share_exact 1000 3 7 3 11 ltac:(lia) ltac:(lia) ltac:(lia) ltac:(lia) ltac:(lia)) as (H1 & _).
  destruct (corridor_share_exact (10 ^ 13) (10 ^ 13) 1 1 1 ltac:(lia) ltac:(lia) ltac:(lia) ltac:(lia) ltac:(lia)) as (H3 & _).
  rewrite H1, H2, H3. vm_compute. auto.
Defined.

Lemma snoc_cases (l : list Z) : l <> [] -> exists init last, l = init ++ [last].
Proof. induction l as [| x l _] using rev_ind; [done | eauto]. Qed.

Lemma share_sum_le (fee : Z) (init : list Z) (last : Z) : 0 <= fee -> Forall (fun x => 0 <= x) (init ++ [last]) -> 0 < zsum (init ++ [last]) ->
  zsum (share_of fee (zsum (init ++ [last])) <$> init) + share_of fee (zsum (init ++ [last])) last <= fee.
Proof.
  intros Hf Hl Ht. pose proof (shares_bound fee _ _ Hf Ht Hl) as [_ Hb]. rewrite fmap_app, zsum_app in Hb. cbn in Hb.
  rewrite Z.div_mul in Hb by lia. lia.
Qed.

(** A flash-loan fee and a pool of variable fees are handed out whole: every recipient but
    the last gets its part rounded down, the last the rest, and the allocations sum to the
    amount; the growth per share rises by the quotient. *)
Theorem fees_fully_allocated (growth fee : Z) (shares : list Z) (last : Z) (Hs : Forall (fun x => 0 <= x) (shares ++ [last])) :
  let total := zsum (shares ++ [last]) in
  0 < total -> len shares < imax U32 -> 0 <= fee <= imax U64 -> fee * total <= imax I128 -> total <= imax I128 ->
  0 <= growth -> growth + fee * LP_FEE_GROWTH_SCALE / total <= imax I128 ->
  (exists rest,
     settle_flash_loan_fee growth fee (shares ++ [last]) =
       Ok (growth + fee * LP_FEE_GROWTH_SCALE / total, (share_of fee total <$> shares) ++ [rest]) /\
     zsum ((share_of fee total <$> shares) ++ [rest]) = fee /\ share_of fee total last <= rest) /\
  (forall pool, 0 <= pool -> let p := pool * STANDARD_FIXED_POINT_SCALE in
     p <= imax U64 -> p * INTERIOR_FEE_PRECISION_SCALE * total <= imax I128 ->
     exists rest, distribute_variable_fee_pool pool (shares ++ [last]) = Ok ((share_of p total <$> shares) ++ [rest]) /\
       zsum ((share_of p total <$> shares) ++ [rest]) = p /\ share_of p total last <= rest).
Proof.
  cbn zeta. set (total := zsum (shares ++ [last])). intros Ht Hl Hf Ho Hb Hg Hgo. assert (Hm : imin U64 = 0 /\ imin I128 = - 2 ^ 127) by done. destruct Hm as [Hm Hm'].
  assert (Hne : bool_decide (shares ++ [last] = []) = false) by (apply bool_decide_eq_false_2; by destruct shares).
  assert (Hsum : forall e, total_of e (shares ++ [last]) 0 = Ok total) by (intros e; by rewrite total_of_sum by (done || lia)).
  assert (Hpart : Forall (fun x => 0 <= x <= total) shares).
  { apply Forall_forall. intros x Hx. apply zsum_member; [done | apply elem_of_app; by left]. }
  split.
  - assert (0 <= fee * LP_FEE_GROWTH_SCALE <= imax I128) by (split; [| etransitivity; [apply Z.mul_le_mono_nonneg_r; [done | apply Hf] | done]]; unfold LP_FEE_GROWTH_SCALE, INTERIOR_FEE_PRECISION_SCALE; lia).
    pose proof (Z.div_pos (fee * LP_FEE_GROWTH_SCALE) total ltac:(lia) Ht).
    pose proof (share_sum_le fee shares last ltac:(lia) Hs Ht) as Hle. fold total in Hle.
    assert (0 <= share_of fee total last). { apply Forall_app in Hs as [_ Hs]. apply Forall_cons in Hs as [Hs _]. apply Z.div_pos; nia. }
    unfold settle_flash_loan_fee. rewrite Hsum, bind_ret, (proj2 (Z.leb_gt total 0)), Hne by done. cbn [orb]. rewrite fail_if_pass by done.
    unfold checked_mul, checked_add. in_width I128 (fee * LP_FEE_GROWTH_SCALE). rewrite (checked_div_pos I128) by (try done; lia). cbn [ok_or]. rewrite bind_ret.
    in_width I128 (growth + fee * LP_FEE_GROWTH_SCALE / total).
    rewrite settle_loop_exact; [| done | done | | lia | lia | unfold len in *; cbn [length]; lia].
    2: { eapply Forall_impl; [exact Hpart |]. intros x [? ?]. cbn beta. nia. }
    rewrite bind_ret. cbn [fst snd]. rewrite Z.eqb_refl. cbn [negb]. rewrite fail_if_pass by done. eexists. split; [done |].
    rewrite zsum_app. unfold zsum at 2. cbn [foldr]. lia.
  - intros pool Hp Hpu Hpi.
    set (p := pool * STANDARD_FIXED_POINT_SCALE) in *. assert (0 <= p) by (subst p; unfold STANDARD_FIXED_POINT_SCALE; lia).
    pose proof (share_sum_le p shares last ltac:(lia) Hs Ht) as Hle. fold total in Hle.
    assert (0 <= share_of p total last). { apply Forall_app in Hs as [_ Hs]. apply Forall_cons in Hs as [Hs _]. apply Z.div_pos; nia. }
    assert (0 <= p * INTERIOR_FEE_PRECISION_SCALE) by (unfold INTERIOR_FEE_PRECISION_SCALE; lia).
    assert (p * INTERIOR_FEE_PRECISION_SCALE <= imax I128) by nia.
    unfold distribute_variable_fee_pool. rewrite Hsum, bind_ret, (proj2 (Z.eqb_neq total 0)), Hne by lia. cbn [orb].
    assert (imax U64 <= imax I128) by done. unfold checked_mul. fold p. in_width I128 p. in_width I128 (p * INTERIOR_FEE_PRECISION_SCALE).
    rewrite distribute_loop_exact; [| done | lia | | lia | lia | unfold len in *; cbn [length]; lia].
    2: { eapply Forall_impl; [exact Hpart |]. intros x [? ?]. cbn beta. nia. }
    eexists. split; [done |]. rewrite zsum_app. unfold zsum at 2. cbn [foldr]. lia.
Qed.

Lemma fees_fully_allocated_witness :
  settle_flash_loan_fee 5 100 [1; 1; 1] = Ok (3333333333333338, [33; 33; 34]) /\
  distribute_variable_fee_pool 1 [1; 2; 4] = Ok [1428571; 2857142; 5714287].
Proof.
  destruct (fees_fully_allocated 5 100 [1; 1] 1 ltac:(repeat constructor; lia) ltac:(done) ltac:(done) ltac:(done) ltac:(done) ltac:(done) ltac:(done) ltac:(done))
    as [(r & He & Hr & _) _].
  destruct (fees_fully_allocated 5 100 [1; 2] 4 ltac:(repeat constructor; lia) ltac:(done) ltac:(done) ltac:(done) ltac:(done) ltac:(done) ltac:(done) ltac:(done))
    as [_ Hd]. destruct (Hd 1 ltac:(done) ltac:(done) ltac:(done)) as (r' & He' & Hr' & _).
  cbn [app] in He, He'. rewrite He, He'.
  rewrite zsum_app in Hr, Hr'. change (66 + (r + 0) = 100) in Hr. change (4285713 + (r' + 0) = 10000000) in Hr'.
  replace r with 34 by lia. replace r' with 5714287 by lia. split; reflexivity.
Defined.

(** ** The fee that follows the volume *)
Section dynamic.
Context {H : Host}.

(** Everything the contract can do to its fees. *)
Inductive fee_step (s : fee_store) : fee_store -> Prop :=
  | step_corridor i caller asset amount v s' p : entry_add_corridor_fees i s caller asset amount v = Ok (s', p) -> fee_step s s'
  | step_volume now asset volume s' f : update_volume_and_adjust_fee now s asset volume = Ok (s', f) -> fee_step s s'
  | step_config i caller asset lo hi period s' : set_dynamic_fee_config i s caller asset lo hi period = Ok s' -> fee_step s s'
  | step_tier i caller asset bps s' f : governance_adjust_fee_tier i s caller asset bps = Ok (s', f) -> fee_step s s'
  | step_weight i caller asset b d s' w : set_corridor_weight i s caller asset b d = Ok (s', w) -> fee_step s s'
  | step_flash asset amount s' f : record_flash_fee s asset amount = Ok (s', f) -> fee_step s s'
  | step_pool i caller pool s' : set_lp_reward_pool i s caller pool = Ok s' -> fee_step s s'
  | step_distribute i caller asset s' x : distribute_flash_fees i s caller asset = Ok (s', x) -> fee_step s s'.

Inductive fee_history : fee_store -> Prop :=
  | fee_start s : dynamic_fees s = ∅ -> fee_history s
  | fee_next s s' : fee_history s -> fee_step s s' -> fee_history s'.

Definition fee_of (s : fee_store) (asset : Z) : DynamicFeeState := default new_dynamic_fee (dynamic_fees s !! asset).

Definition on_tiers (d : DynamicFeeState) : Prop :=
  is_valid_protocol_fee_value (min_fee_bps d) = true /\ is_valid_protocol_fee_value (max_fee_bps d) = true /\
  is_valid_protocol_fee_value (current_fee_bps d) = true /\ min_fee_bps d < max_fee_bps d /\ 300 <= period_seconds d.

Lemma tier_values (x : Z) : is_valid_protocol_fee_value x = true <-> x = 1 \/ x = 5 \/ x = 30 \/ x = 100.
Proof. unfold is_valid_protocol_fee_value, is_valid_fee_tier, PROTOCOL_FEE_FLOOR_BPS, FEE_TIER_5_BPS, FEE_TIER_30_BPS, FEE_TIER_100_BPS. lia. Qed.

Lemma new_on_tiers : on_tiers new_dynamic_fee.
Proof. done. Qed.

Lemma tier_for_valid (v : f64) (x : Z) : is_valid_protocol_fee_value x = true -> is_valid_protocol_fee_value (tier_for v x) = true.
Proof. intros Hx%tier_values. apply tier_values. unfold tier_for, FEE_TIER_5_BPS, FEE_TIER_30_BPS, FEE_TIER_100_BPS. repeat destruct (_ : bool); lia. Qed.

(** The next fee exists, is a tier, and lies within the bounds when there was a period before. *)
Lemma dynamic_fee_next (h : VolumeHistory) (d : DynamicFeeState) : on_tiers d ->
  exists f, calculate_dynamic_fee h d = Ok f /\ is_valid_protocol_fee_value f = true /\
    (previous_period_volume h <> 0 -> min_fee_bps d <= f <= max_fee_bps d) /\ (previous_period_volume h = 0 -> f = current_fee_bps d).
Proof.
  intros (Hl & Hh & Hc & Hlt & _). unfold calculate_dynamic_fee. destruct (Z.eqb_spec (previous_period_volume h) 0) as [-> | Hn]; [by exists (current_fee_bps d) |].
  set (v := f64_div _ _). pose proof (tier_for_valid v _ Hc) as Ht. unfold clamp_u32. rewrite (proj2 (Z.ltb_ge _ _)) by lia.
  eexists. split; [done |]. split; [| split; [intros _; lia | done]]. apply tier_values in Hl, Hh, Ht. apply tier_values. lia.
Qed.

Lemma set_fee_lookup (s : fee_store) (asset : Z) (h : option VolumeHistory) (d : DynamicFeeState) (b : Z) :
  fee_of (set_volume_and_fee s asset h d) b = if decide (b = asset) then d else fee_of s b.
Proof. unfold fee_of, set_volume_and_fee. cbn [dynamic_fees]. case_decide as Hd; [by rewrite Hd, lookup_insert_eq | by rewrite lookup_insert_ne]. Qed.

Lemma fee_step_on_tiers (s s' : fee_store) : (forall a, on_tiers (fee_of s a)) -> fee_step s s' -> forall a, on_tiers (fee_of s' a).
Proof.
  intros IH Hstep a. inversion Hstep as [i caller asset amount v ? p Hr | now asset volume ? f Hr | i caller asset lo hi period ? Hr | i caller asset bps ? f Hr |
    i caller asset b d ? w Hr | asset amount ? f Hr | i caller pool ? Hr | i caller asset ? x Hr]; subst.
  - apply bind_Ok in Hr as ([s1 p1] & Hr & [= <- <-]). apply bind_Ok in Hr as (? & _ & Hr). apply bind_Ok in Hr as (? & _ & Hr). apply bind_Ok in Hr as (? & _ & Hr).
    apply bind_Ok in Hr as (? & _ & Hr). apply bind_Ok in Hr as (? & _ & Hr). apply bind_Ok in Hr as (? & _ & [= <- <-]). apply IH.
  - unfold update_volume_and_adjust_fee in Hr. fold (fee_of s asset) in Hr. apply bind_Ok in Hr as (due & _ & Hr). pose proof (IH asset) as Hd. destruct (due <=? now).
    + destruct (dynamic_fee_next {| previous_period_volume := current_period_volume (default new_volume_history (volume_histories s !! asset));
        current_period_volume := volume; vh_last_updated := now |} (fee_of s asset) Hd) as (g & Hg & Hv & _). rewrite Hg, bind_ret in Hr.
      injection Hr as <- <-. rewrite set_fee_lookup. case_decide; [| apply IH]. destruct Hd as (? & ? & ? & ? & ?). repeat split; try done. cbn.
      apply tier_values in Hv. apply tier_values. unfold PROTOCOL_FEE_FLOOR_BPS. lia.
    + apply bind_Ok in Hr as (? & _ & [= <- <-]). rewrite set_fee_lookup. case_decide; [done | apply IH].
  - apply bind_Ok in Hr as (? & _ & Hr). apply bind_Ok in Hr as (? & _ & Hr).
    apply bind_Ok in Hr as (? & [[Hl Hh]%orb_false_iff Hlt]%fail_if_Ok%orb_false_iff & Hr). apply negb_false_iff in Hl, Hh. apply Z.leb_gt in Hlt.
    apply bind_Ok in Hr as (? & Hp%fail_if_Ok%Z.ltb_ge & [= <-]). rewrite set_fee_lookup. case_decide; [| apply IH].
    destruct (IH asset) as (_ & _ & Hc & _). unfold fee_of in Hc. repeat split; cbn; try done. destruct (_ <? _); done.
  - apply bind_Ok in Hr as (? & _ & Hr). apply bind_Ok in Hr as (? & _ & Hr). apply bind_Ok in Hr as (? & Hv%fail_if_Ok%negb_false_iff & Hr).
    apply bind_Ok in Hr as (? & _ & [= <- <-]). rewrite set_fee_lookup. case_decide; [| apply IH]. destruct (IH asset) as (? & ? & _ & ? & ?). by repeat split.
  - apply bind_Ok in Hr as (? & _ & [= <- <-]). apply IH.
  - unfold record_flash_fee in Hr. destruct (amount =? 0); [by injection Hr as <- <- |]. apply bind_Ok in Hr as (? & _ & [= <- <-]). apply IH.
  - apply bind_Ok in Hr as (? & _ & [= <-]). apply IH.
  - apply bind_Ok in Hr as (? & _ & Hr). cbn zeta in Hr. destruct (_ =? 0); [by injection Hr as <- <- |]. apply bind_Ok in Hr as (? & _ & Hr). apply bind_Ok in Hr as (? & _ & Hr).
    apply bind_Ok in Hr as (? & _ & Hr). apply bind_Ok in Hr as (? & _ & [= <- <-]). apply IH.
Qed.

Lemma fee_history_on_tiers (s : fee_store) : fee_history s -> forall a, on_tiers (fee_of s a).
Proof.
  induction 1 as [s Hs | s s' Hr IH Hstep]; [intros a; unfold fee_of; by rewrite Hs, lookup_empty |]. by apply (fee_step_on_tiers s).
Qed.

(** C34: Whatever the admin, the traders and governance do, the fee of an asset is one of 1, 5,
    30 and 100 basis points and its bounds are two of these in order; a report of volume is
    refused only by an overflow, moves the fee only when the period is over, and then into
    the bounds if the period before traded at all. *)
Theorem protocol_fee_capped (s : fee_store) (Hs : fee_history s) (asset : Z) :
  let d := fee_of s asset in let h := default new_volume_history (volume_histories s !! asset) in
  get_current_dynamic_fee s asset ∈ [1; 5; 30; 100] /\ 1 <= min_fee_bps d < max_fee_bps d /\ max_fee_bps d <= MAX_PROTOCOL_FEE_BPS /\
  forall now volume, 0 <= vh_last_updated h + period_seconds d <= imax U64 -> 0 <= current_period_volume h + volume <= imax U64 ->
    exists s' f, update_volume_and_adjust_fee now s asset volume = Ok (s', f) /\ get_current_dynamic_fee s' asset = f /\
      (forall b, b <> asset -> get_current_dynamic_fee s' b = get_current_dynamic_fee s b) /\
      (now < vh_last_updated h + period_seconds d -> f = current_fee_bps d) /\
      (vh_last_updated h + period_seconds d <= now ->
         if current_period_volume h =? 0 then f = current_fee_bps d else min_fee_bps d <= f <= max_fee_bps d).
Proof.
  cbn zeta. pose proof (fee_history_on_tiers s Hs asset) as Hd. destruct Hd as (Hl & Hh & Hc & Hlt & Hp) eqn:E. clear E. pose proof Hl as Hl'. pose proof Hh as Hh'. pose proof Hc as Hc'.
  apply tier_values in Hl', Hh', Hc'. change (get_current_dynamic_fee s asset) with (current_fee_bps (fee_of s asset)).
  split; [destruct Hc' as [-> | [-> | [-> | ->]]]; set_solver |]. split; [lia |]. split; [unfold MAX_PROTOCOL_FEE_BPS; lia |].
  intros now volume Hdue Hvol. set (h := default new_volume_history (volume_histories s !! asset)) in *.
  assert (Hgen : forall h' d', get_current_dynamic_fee (set_volume_and_fee s asset h' d') asset = current_fee_bps d' /\
    forall b, b <> asset -> get_current_dynamic_fee (set_volume_and_fee s asset h' d') b = get_current_dynamic_fee s b).
  { intros h' d'. split; [| intros b Hb]; unfold get_current_dynamic_fee; fold (fee_of (set_volume_and_fee s asset h' d') asset);
      [| fold (fee_of (set_volume_and_fee s asset h' d') b)]; rewrite set_fee_lookup; by case_decide. }
  unfold update_volume_and_adjust_fee. fold h. fold (fee_of s asset). unfold iadd. rewrite iop_in by done. rewrite bind_ret.
  destruct (Z.leb_spec (vh_last_updated h + period_seconds (fee_of s asset)) now).
  - destruct (dynamic_fee_next {| previous_period_volume := current_period_volume h; current_period_volume := volume; vh_last_updated := now |} (fee_of s asset))
      as (f & -> & Hf%tier_values & Hin & Hz); [by repeat split |]. rewrite bind_ret. cbn [previous_period_volume] in Hin, Hz.
    eexists _, _. split; [done |]. replace (Z.max f PROTOCOL_FEE_FLOOR_BPS) with f by (unfold PROTOCOL_FEE_FLOOR_BPS; lia).
    split; [exact (proj1 (Hgen _ _)) |]. split; [exact (proj2 (Hgen _ _)) |]. split; [lia |]. intros _. destruct (Z.eqb_spec (current_period_volume h) 0); auto.
  - unfold checked_add. rewrite (proj2 (chk_Some U64 _ _) (conj eq_refl Hvol)). cbn [ok_or]. rewrite bind_ret.
    eexists _, _. split; [done |]. split; [exact (proj1 (Hgen _ _)) |]. split; [exact (proj2 (Hgen _ _)) |]. split; [done | lia].
Qed.
End dynamic.

Definition fee_keys : @keyring test_host := set_data (@empty_keyring test_host) (@Build_ContractData test_host 1 0 10000).
Definition fees_at_start : @fee_store test_host := @Build_fee_store test_host fee_keys ∅ ∅ ∅ ∅ ∅ None (Some 9).
Definition fee_call (a : Z) : @call_env test_host := (@Build_call_env test_host (Z.eqb a) 1000).

(** Trades of 100 in one period and of 300 in the next. *)
Definition traded : @fee_store test_host :=
  match update_volume_and_adjust_fee 4000 fees_at_start 1 100 with
  | Ok (s, _) => match update_volume_and_adjust_fee 8000 s 1 300 with Ok (s', _) => s' | _ => s end
  | _ => fees_at_start
  end.

Lemma traded_history : fee_history (H := test_host) traded.
Proof.
  destruct (is_ok_Ok (update_volume_and_adjust_fee (H := test_host) 4000 fees_at_start 1 100)) as [[s f] E1]; [vm_compute; reflexivity |].
  assert (O2 : is_ok (update_volume_and_adjust_fee (H := test_host) 8000
    match update_volume_and_adjust_fee 4000 fees_at_start 1 100 with Ok (s, _) => s | _ => fees_at_start end 1 300) = true) by (vm_compute; reflexivity).
  rewrite E1 in O2. apply is_ok_Ok in O2 as [[s' f'] E2]. unfold traded. rewrite E1, E2.
  eapply fee_next; [| exact (step_volume s 8000 1 300 s' f' E2)]. eapply fee_next; [exact (fee_start fees_at_start eq_refl) |]. exact (step_volume _ _ _ _ _ _ E1).
Qed.

Lemma protocol_fee_capped_witness :
  get_current_dynamic_fee (H := test_host) traded 1 = 30 /\
  exists s' f, update_volume_and_adjust_fee (H := test_host) 12000 traded 1 1 = Ok (s', f) /\ get_current_dynamic_fee s' 1 = f /\ 5 <= f <= 100.
Proof.
  split; [vm_compute; reflexivity |]. destruct (protocol_fee_capped traded traded_history 1) as (_ & _ & _ & Hn).
  destruct (Hn 12000 1 ltac:(vm_compute; split; discriminate) ltac:(vm_compute; split; discriminate)) as (s' & f & Hr & Hf & _ & _ & Hin).
  exists s', f. split; [exact Hr |]. split; [exact Hf |]. exact (Hin ltac:(vm_compute; discriminate)).
Defined.
