(* ===== verification/DynamicRouter.v ===== *)
(** * The dynamic router of the root contract

    [src/src/router/dynamic.rs]: a registry of constant-product pools, the search for the
    path of at most three hops with the largest output, and its execution behind a floor,
    a ceiling on the price impact and a product invariant. The lock is that of
    [src/src/security/reentrancy.rs], here the boolean [router_locked]; the admin is that of
    [Keys]. A [&Vec] is a list, an index a [u32]; a trap is [Panic], which [consider] does not
    swallow. Left out: the event. *)

From stdpp Require Import base numbers list gmap.
From Stdlib Require Import ZArith Lia.
From S2P Require Import Prelude Host RootErrors BookData Keys.

Open Scope Z_scope.

Definition MAX_ROUTE_DEPTH : Z := 3.
Definition MAX_CANDIDATE_POOLS : Z := 8.
Definition BPS_DENOMINATOR : Z := 10000.
Definition DEFAULT_MAX_PRICE_IMPACT_BPS : Z := 500.

Record RouterConfig := { cfg_max_price_impact_bps : Z; max_hops : Z; enabled : bool }.
Definition default_config : RouterConfig :=
  {| cfg_max_price_impact_bps := DEFAULT_MAX_PRICE_IMPACT_BPS; max_hops := MAX_ROUTE_DEPTH; enabled := true |}.

(** [for x in l { s = body(x, s)?; }] *)
Fixpoint for_each {A S : Type} (l : list A) (body : A -> S -> R S) (s : S) : R S :=
  match l with [] => mret s | x :: rest => s ← body x s; for_each rest body s end.

(** [0..n] *)
Definition upto (n : Z) : list Z := Z.of_nat <$> seq 0 (Z.to_nat n).

Section dynamic.
Context {H : Host}.

Record PoolEdge := { pool : Address; asset_in : Z; asset_out : Z; reserve_in : Z; reserve_out : Z; fee_bps : Z }.
Record HopQuote := {
  hop_pool : Address; hop_asset_in : Z; hop_asset_out : Z; hop_amount_in : Z; hop_amount_out : Z; fee_paid : Z; k_before : Z; k_after : Z }.
Record RouteQuote := {
  source : Z; destination : Z; hops : list HopQuote; amount_in : Z; amount_out : Z; price_impact_bps : Z;
  initial_k_product : Z; final_k_product : Z }.

(** One field per key of [DynamicRouterKey], with the keys of the admin and the lock. *)
Record amm_router := {
  router_keys : keyring;
  pools : gmap Address PoolEdge;
  registry : option (list Address);
  config : option RouterConfig;
  router_locked : bool
}.

Definition set_pools (s : amm_router) (p : gmap Address PoolEdge) : amm_router :=
  {| router_keys := router_keys s; pools := p; registry := registry s; config := config s; router_locked := router_locked s |}.
Definition set_registry (s : amm_router) (r : list Address) : amm_router :=
  {| router_keys := router_keys s; pools := pools s; registry := Some r; config := config s; router_locked := router_locked s |}.
Definition set_config (s : amm_router) (c : RouterConfig) : amm_router :=
  {| router_keys := router_keys s; pools := pools s; registry := registry s; config := Some c; router_locked := router_locked s |}.
Definition set_lock (s : amm_router) (b : bool) : amm_router :=
  {| router_keys := router_keys s; pools := pools s; registry := registry s; config := config s; router_locked := b |}.

(** ** Arithmetic and checks *)
Definition mul_div (a b divisor : Z) : R Z :=
  _ ← fail_if (divisor =? 0) DivisionByZero;
  p ← ok_or (checked_mul U128 a b) Overflow;
  mret (p / divisor).

Definition validate_edge (e : PoolEdge) : R unit :=
  _ ← fail_if (asset_in e =? asset_out e) InvalidInput;
  _ ← fail_if ((reserve_in e =? 0) || (reserve_out e =? 0)) InsufficientLiquidityDepth;
  fail_if (BPS_DENOMINATOR <? fee_bps e) InvalidInput.

Definition assert_admin (s : amm_router) (caller : Address) : R unit :=
  d ← load_data (router_keys s); fail_if (negb (bool_decide (admin d = caller))) NotAdmin.

(** ** Pricing *)
Definition quote_hop (e : PoolEdge) (amount : Z) : R HopQuote :=
  _ ← fail_if (amount =? 0) ZeroSwapAmount;
  _ ← validate_edge e;
  keep ← isub U32 BPS_DENOMINATOR (fee_bps e);
  after_fee ← mul_div amount keep BPS_DENOMINATOR;
  _ ← fail_if (after_fee =? 0) ZeroSwapAmount;
  fee ← isub U128 amount after_fee;
  new_reserve_in ← ok_or (checked_add U128 (reserve_in e) amount) Overflow;
  numerator ← ok_or (checked_mul U128 (reserve_out e) after_fee) Overflow;
  denominator ← ok_or (checked_add U128 (reserve_in e) after_fee) Overflow;
  out ← idiv U128 numerator denominator;
  _ ← fail_if ((out =? 0) || (reserve_out e <=? out)) InsufficientLiquidityDepth;
  before ← imul U128 (reserve_in e) (reserve_out e);
  new_reserve_out ← isub U128 (reserve_out e) out;
  after ← imul U128 new_reserve_in new_reserve_out;
  _ ← fail_if (after <? before) InvariantViolation;
  mret {| hop_pool := pool e; hop_asset_in := asset_in e; hop_asset_out := asset_out e; hop_amount_in := amount;
          hop_amount_out := cast U64 out; fee_paid := cast U64 fee; k_before := before; k_after := after |}.

(** The variables of the loop of [quote_path]. *)
Record path_state := { ps_hops : list HopQuote; running : Z; initial_k : Z; final_k : Z; ideal_output : Z }.

Definition path_step (edges : list PoolEdge) (index : Z) (p : path_state) : R path_state :=
  e ← ok_or (vget edges index) PoolNotFound;
  hop ← quote_hop e (running p);
  ideal ← idiv U128 (saturating_mul U128 (ideal_output p) (reserve_out e)) (reserve_in e);
  hs ← vpush (ps_hops p) hop;
  mret {| ps_hops := hs; running := hop_amount_out hop; initial_k := saturating_mul U128 (initial_k p) (k_before hop);
          final_k := saturating_mul U128 (final_k p) (k_after hop); ideal_output := ideal |}.

Definition quote_path (edges : list PoolEdge) (path : list Z) (amount src dst : Z) : R RouteQuote :=
  p ← for_each path (path_step edges) {| ps_hops := []; running := amount; initial_k := 1; final_k := 1; ideal_output := amount |};
  impact ← (if (0 <? ideal_output p) && (running p <? ideal_output p)
            then d ← isub U128 (ideal_output p) (running p);
                 q ← idiv U128 (saturating_mul U128 d BPS_DENOMINATOR) (ideal_output p);
                 mret (cast U32 q)
            else mret 0);
  mret {| source := src; destination := dst; hops := ps_hops p; amount_in := amount; amount_out := running p;
          price_impact_bps := impact; initial_k_product := initial_k p; final_k_product := final_k p |}.

(** An error is skipped; a trap is not. *)
Definition consider (edges : list PoolEdge) (amount src dst : Z) (path : list Z) (best : option RouteQuote) : R (option RouteQuote) :=
  match quote_path edges path amount src dst with
  | Ok quote =>
      mret (match best with
            | Some current => if amount_out current <? amount_out quote then Some quote else best
            | None => Some quote
            end)
  | Err _ => mret best
  | Panic => Panic
  end.

(** ** The search *)
(** The body of the loop over the third hop. *)
Definition depth3 (edges : list PoolEdge) (amount src dst i j : Z) (second : PoolEdge) (k : Z) (best : option RouteQuote) : R (option RouteQuote) :=
  if (k =? i) || (k =? j) then mret best
  else
    third ← ok_or (vget edges k) PoolNotFound;
    if negb (asset_in third =? asset_out second) || negb (asset_out third =? dst) || (asset_out third =? src) then mret best
    else consider edges amount src dst [i; j; k] best.

Definition depth2 (edges : list PoolEdge) (amount src dst max i : Z) (first : PoolEdge) (j : Z) (best : option RouteQuote) : R (option RouteQuote) :=
  if j =? i then mret best
  else
    second ← ok_or (vget edges j) PoolNotFound;
    if negb (asset_in second =? asset_out first) || (asset_out second =? src) then mret best
    else
      best ← (if asset_out second =? dst then consider edges amount src dst [i; j] best else mret best);
      if max <? 3 then mret best
      else for_each (upto (len edges)) (depth3 edges amount src dst i j second) best.

Definition depth1 (edges : list PoolEdge) (amount src dst max i : Z) (best : option RouteQuote) : R (option RouteQuote) :=
  first ← ok_or (vget edges i) PoolNotFound;
  if negb (asset_in first =? src) then mret best
  else
    best ← (if asset_out first =? dst then consider edges amount src dst [i] best else mret best);
    if max <? 2 then mret best
    else for_each (upto (len edges)) (depth2 edges amount src dst max i first) best.

Definition find_best_route (edges : list PoolEdge) (src dst amount max : Z) : R RouteQuote :=
  _ ← fail_if (amount =? 0) ZeroSwapAmount;
  _ ← fail_if (src =? dst) InvalidInput;
  _ ← fail_if ((max =? 0) || (MAX_ROUTE_DEPTH <? max)) InvalidInput;
  _ ← fail_if (MAX_CANDIDATE_POOLS <? len edges) InvalidInput;
  _ ← fail_if (len edges =? 0) PoolNotFound;
  best ← for_each (upto (len edges)) (depth1 edges amount src dst max) None;
  ok_or best PoolNotFound.

(** ** The registry *)
Definition get_registry (s : amm_router) : list Address := default [] (registry s).

Definition register_pool (i : call_env) (s : amm_router) (caller : Address) (e : PoolEdge) : R amm_router :=
  _ ← require_auth (auth i) caller;
  _ ← assert_admin s caller;
  _ ← validate_edge e;
  s ← (match pools s !! pool e with
       | Some _ => mret s
       | None =>
           _ ← fail_if (MAX_CANDIDATE_POOLS <=? len (get_registry s)) InvalidInput;
           r ← vpush (get_registry s) (pool e);
           mret (set_registry s r)
       end);
  mret (set_pools s (<[pool e := e]> (pools s))).

Definition remove_pool (i : call_env) (s : amm_router) (caller p : Address) : R amm_router :=
  _ ← require_auth (auth i) caller;
  _ ← assert_admin s caller;
  _ ← ok_or (pools s !! p) PoolNotFound;
  mret (set_registry (set_pools s (delete p (pools s))) (filter (fun a => a <> p) (get_registry s))).

Definition get_pool (s : amm_router) (p : Address) : option PoolEdge := pools s !! p.

Definition registered_pool_edges (s : amm_router) : list PoolEdge := omap (fun p => pools s !! p) (get_registry s).

Definition get_router_config (s : amm_router) : RouterConfig := default default_config (config s).

Definition set_router_config (i : call_env) (s : amm_router) (caller : Address) (c : RouterConfig) : R amm_router :=
  _ ← require_auth (auth i) caller;
  _ ← assert_admin s caller;
  _ ← fail_if ((max_hops c =? 0) || (MAX_ROUTE_DEPTH <? max_hops c)) InvalidInput;
  _ ← fail_if (BPS_DENOMINATOR <? cfg_max_price_impact_bps c) InvalidInput;
  mret (set_config s c).

Definition quote_route (s : amm_router) (src dst amount max : Z) : R RouteQuote :=
  find_best_route (registered_pool_edges s) src dst amount max.

(** ** Execution *)
(** The body of the loop that writes the reserves. *)
Definition commit_hop (h : HopQuote) (ps : gmap Address PoolEdge) : R (gmap Address PoolEdge) :=
  e ← ok_or (ps !! hop_pool h) PoolNotFound;
  ri ← ok_or (checked_add U64 (reserve_in e) (hop_amount_in h)) Overflow;
  ro ← ok_or (checked_sub U64 (reserve_out e) (hop_amount_out h)) Overflow;
  mret (<[hop_pool h := {| pool := pool e; asset_in := asset_in e; asset_out := asset_out e; reserve_in := ri; reserve_out := ro;
                           fee_bps := fee_bps e |}]> ps).

Definition execute_swap (i : call_env) (s : amm_router) (trader : Address) (src dst amount min_out max_impact : Z) : R (amm_router * RouteQuote) :=
  _ ← require_auth (auth i) trader;
  _ ← fail_if (router_locked s) ReentrancyDetected;
  let s := set_lock s true in
  let c := get_router_config s in
  _ ← fail_if (negb (enabled c)) ContractPaused;
  quote ← find_best_route (registered_pool_edges s) src dst amount (max_hops c);
  _ ← fail_if (amount_out quote <? min_out) SlippageExceeded;
  let tolerance := if max_impact <? cfg_max_price_impact_bps c then max_impact else cfg_max_price_impact_bps c in
  _ ← fail_if (tolerance <? price_impact_bps quote) SlippageExceeded;
  _ ← fail_if (final_k_product quote <? initial_k_product quote) InvariantViolation;
  ps ← for_each (hops quote) commit_hop (pools s);
  mret (set_lock (set_pools s ps) false, quote).
End dynamic.
