(* ===== verification/RouterTheorems.v ===== *)
(** * What the dynamic router guarantees

    The search of the dynamic router returns the best of all trade paths, the paths being
    described without its loops; a swap pays at least the floor, within both ceilings on the
    price impact, moves the reserves of the pools on its path alone, and lowers the product of
    none.

    The registry of pools is sound in every history of the router, and a swap settles what its
    quote says on the pools of its path and on no other. *)

From stdpp Require Import base numbers list gmap.
From Stdlib Require Import ZArith Lia.
From S2P Require Import Prelude Host RootErrors BookData Keys DynamicRouter.

Open Scope Z_scope.

(** ** Loops over concatenated lists *)
Section loops.
Context {A B S : Type}.

Lemma for_each_app (l k : list A) (body : A -> S -> R S) (s : S) : for_each (l ++ k) body s = (s ← for_each l body s; for_each k body s).
Proof. revert s. induction l as [| x l IH]; intros s; cbn; [done |]. destruct (body x s); cbn; [apply IH | done..]. Qed.

Lemma for_each_concat (f : B -> list A) (l : list B) (body : A -> S -> R S) (s : S) :
  for_each (concat (f <$> l)) body s = for_each l (fun x => for_each (f x) body) s.
Proof. revert s. induction l as [| x l IH]; intros s; cbn; [done |]. rewrite for_each_app. destruct (for_each (f x) body s); cbn; [apply IH | done..]. Qed.

Lemma for_each_ext (l : list A) (f g : A -> S -> R S) (s : S) : (forall x t, x ∈ l -> f x t = g x t) -> for_each l f s = for_each l g s.
Proof.
  revert s. induction l as [| x l IH]; intros s Hfg; cbn; [done |]. rewrite (Hfg x s) by apply elem_of_cons, or_introl, eq_refl.
  destruct (g x s); cbn; [apply IH; intros y t Hy; apply Hfg, elem_of_cons; by right | done..].
Qed.
End loops.

Lemma elem_of_upto (n x : Z) : x ∈ upto n <-> 0 <= x < n.
Proof.
  unfold upto. rewrite list_elem_of_fmap. split.
  - intros (y & -> & Hy%elem_of_seq). lia.
  - intros Hx. exists (Z.to_nat x). rewrite elem_of_seq. lia.
Qed.

Lemma elem_of_concat_fmap {A B : Type} (f : A -> list B) (l : list A) (x : B) : x ∈ concat (f <$> l) <-> exists y, y ∈ l /\ x ∈ f y.
Proof.
  induction l as [| y l IH]; cbn.
  - split; [by intros ?%elem_of_nil | by intros (y & Hy%elem_of_nil & _)].
  - rewrite elem_of_app. setoid_rewrite elem_of_cons. rewrite IH. naive_solver.
Qed.

Section search.
Context {H : Host}.
Implicit Types edges : list PoolEdge.

(** ** The paths, without the loops *)
(** The path leads from asset [a] to [dst] along existing edges. *)
Fixpoint leads (edges : list PoolEdge) (a dst : Z) (path : list Z) : Prop :=
  match path with
  | [] => a = dst
  | i :: rest => exists e, vget edges i = Some e /\ asset_in e = a /\ leads edges (asset_out e) dst rest
  end.

(** At most [max] hops over distinct pools, none after the first coming back to the source. *)
Definition trade_path (edges : list PoolEdge) (src dst max : Z) (path : list Z) : Prop :=
  1 <= len path <= max /\ NoDup path /\ leads edges src dst path /\
  forall i e, i ∈ tail path -> vget edges i = Some e -> asset_out e <> src.

(** ** The candidates in the order of the loops *)
Definition one_if (b : bool) (path : list Z) : list (list Z) := if b then [path] else [].

Definition cands3 edges (src dst i j : Z) (second : PoolEdge) (k : Z) : list (list Z) :=
  if (k =? i) || (k =? j) then []
  else match vget edges k with
       | Some third => if negb (asset_in third =? asset_out second) || negb (asset_out third =? dst) || (asset_out third =? src) then [] else [[i; j; k]]
       | None => []
       end.

Definition cands2 edges (src dst max i : Z) (first : PoolEdge) (j : Z) : list (list Z) :=
  if j =? i then []
  else match vget edges j with
       | Some second =>
           if negb (asset_in second =? asset_out first) || (asset_out second =? src) then []
           else one_if (asset_out second =? dst) [i; j] ++ (if max <? 3 then [] else concat (cands3 edges src dst i j second <$> upto (len edges)))
       | None => []
       end.

Definition cands1 edges (src dst max i : Z) : list (list Z) :=
  match vget edges i with
  | Some first =>
      if negb (asset_in first =? src) then []
      else one_if (asset_out first =? dst) [i] ++ (if max <? 2 then [] else concat (cands2 edges src dst max i first <$> upto (len edges)))
  | None => []
  end.

Definition candidates edges (src dst max : Z) : list (list Z) := concat (cands1 edges src dst max <$> upto (len edges)).

Lemma vget_upto edges (i : Z) : i ∈ upto (len edges) <-> exists e, vget edges i = Some e.
Proof.
  rewrite elem_of_upto. split.
  - intros [Hi Hn]. destruct (lookup_lt_is_Some_2 edges (Z.to_nat i)) as [e He]; [unfold len in Hn; lia |]. exists e. by apply vget_Some.
  - intros (e & [Hi He]%vget_Some). apply lookup_lt_Some in He. unfold len. lia.
Qed.

Lemma one_if_consider edges (amount src dst : Z) (b : bool) (path : list Z) (best : option RouteQuote) :
  for_each (one_if b path) (consider edges amount src dst) best = if b then consider edges amount src dst path best else mret best.
Proof. destruct b; cbn; [by destruct (consider _ _ _ _ _ _) | done]. Qed.

(** The nested loops consider the candidates one after the other. *)
Lemma loops_flat edges (amount src dst max : Z) (best : option RouteQuote) :
  for_each (upto (len edges)) (depth1 edges amount src dst max) best = for_each (candidates edges src dst max) (consider edges amount src dst) best.
Proof.
  unfold candidates. rewrite for_each_concat. apply for_each_ext. intros i b [first Hi]%vget_upto. unfold depth1, cands1. rewrite Hi. cbn [ok_or]. rewrite bind_ret.
  destruct (negb (asset_in first =? src)); [done |]. rewrite for_each_app, one_if_consider.
  match goal with |- ?m ≫= _ = _ => destruct m as [b1 | |]; [| done..] end. rewrite !bind_ret. destruct (max <? 2); [done |].
  rewrite for_each_concat. apply for_each_ext. intros j b2 [second Hj]%vget_upto. unfold depth2, cands2. rewrite Hj. cbn [ok_or]. destruct (j =? i); [done |]. rewrite bind_ret.
  destruct (_ || _); [done |]. rewrite for_each_app, one_if_consider.
  match goal with |- ?m ≫= _ = _ => destruct m as [b3 | |]; [| done..] end. rewrite !bind_ret. destruct (max <? 3); [done |].
  rewrite for_each_concat. apply for_each_ext. intros k b4 [third Hk]%vget_upto. unfold depth3, cands3. rewrite Hk. cbn [ok_or]. destruct ((k =? i) || (k =? j)); [done |]. rewrite bind_ret.
  destruct (_ || _); [done |]. cbn. by destruct (consider _ _ _ _ _ _).
Qed.

Lemma one_if_In (b : bool) (p path : list Z) : path ∈ one_if b p <-> b = true /\ path = p.
Proof. destruct b; cbn; [rewrite list_elem_of_singleton | rewrite elem_of_nil]; naive_solver. Qed.

Lemma cands3_In edges (src dst i j : Z) (second : PoolEdge) (path : list Z) :
  (exists k, k ∈ upto (len edges) /\ path ∈ cands3 edges src dst i j second k) <->
  exists k third, path = [i; j; k] /\ vget edges k = Some third /\ k <> i /\ k <> j /\ asset_in third = asset_out second /\ asset_out third = dst /\ asset_out third <> src.
Proof.
  unfold cands3. split.
  - intros (k & [third Hk]%vget_upto & Hp). rewrite Hk in Hp. destruct (Z.eqb_spec k i), (Z.eqb_spec k j); cbn in Hp; try by apply elem_of_nil in Hp.
    destruct (Z.eqb_spec (asset_in third) (asset_out second)), (Z.eqb_spec (asset_out third) dst), (Z.eqb_spec (asset_out third) src); cbn in Hp; try by apply elem_of_nil in Hp.
    apply list_elem_of_singleton in Hp as ->. by exists k, third.
  - intros (k & third & -> & Hk & Hi & Hj & E1 & E2 & E3). exists k. split; [apply vget_upto; by exists third |].
    rewrite (proj2 (Z.eqb_neq k i)), (proj2 (Z.eqb_neq k j)), Hk, (proj2 (Z.eqb_eq _ _) E1), (proj2 (Z.eqb_eq _ _) E2), (proj2 (Z.eqb_neq _ _) E3) by done. by apply list_elem_of_singleton.
Qed.

Lemma cands2_In edges (src dst max i : Z) (first : PoolEdge) (path : list Z) :
  (exists j, j ∈ upto (len edges) /\ path ∈ cands2 edges src dst max i first j) <->
  exists j second, vget edges j = Some second /\ j <> i /\ asset_in second = asset_out first /\ asset_out second <> src /\
    (path = [i; j] /\ asset_out second = dst \/ 3 <= max /\ exists k, k ∈ upto (len edges) /\ path ∈ cands3 edges src dst i j second k).
Proof.
  unfold cands2. split.
  - intros (j & [second Hj]%vget_upto & Hp). rewrite Hj in Hp. destruct (Z.eqb_spec j i); [by apply elem_of_nil in Hp |].
    destruct (Z.eqb_spec (asset_in second) (asset_out first)), (Z.eqb_spec (asset_out second) src); cbn [negb orb] in Hp; try by apply elem_of_nil in Hp.
    exists j, second. split; [done |]. split; [done |]. split; [done |]. split; [done |]. apply elem_of_app in Hp as [[Hb%Z.eqb_eq ->]%one_if_In | Hp]; [by left |].
    destruct (Z.ltb_spec max 3); [by apply elem_of_nil in Hp |]. right. split; [done |]. by apply elem_of_concat_fmap.
  - intros (j & second & Hj & Hi & E1 & E2 & Hp). exists j. split; [apply vget_upto; by exists second |].
    rewrite (proj2 (Z.eqb_neq j i)), Hj, (proj2 (Z.eqb_eq _ _) E1), (proj2 (Z.eqb_neq _ _) E2) by done. apply elem_of_app.
    destruct Hp as [[-> Hd] | [Hm Hp]]; [left; apply one_if_In; by rewrite Hd, Z.eqb_refl |]. right. rewrite (proj2 (Z.ltb_ge _ _)) by done. by apply elem_of_concat_fmap.
Qed.

Lemma candidates_In edges (src dst max : Z) (path : list Z) :
  path ∈ candidates edges src dst max <->
  exists i first, vget edges i = Some first /\ asset_in first = src /\
    (path = [i] /\ asset_out first = dst \/ 2 <= max /\ exists j, j ∈ upto (len edges) /\ path ∈ cands2 edges src dst max i first j).
Proof.
  unfold candidates. rewrite elem_of_concat_fmap. unfold cands1. split.
  - intros (i & [first Hi]%vget_upto & Hp). rewrite Hi in Hp. destruct (Z.eqb_spec (asset_in first) src); cbn [negb] in Hp; [| by apply elem_of_nil in Hp].
    exists i, first. split; [done |]. split; [done |]. apply elem_of_app in Hp as [[Hb%Z.eqb_eq ->]%one_if_In | Hp]; [by left |].
    destruct (Z.ltb_spec max 2); [by apply elem_of_nil in Hp |]. right. split; [done |]. by apply elem_of_concat_fmap.
  - intros (i & first & Hi & E1 & Hp). exists i. split; [apply vget_upto; by exists first |]. rewrite Hi, (proj2 (Z.eqb_eq _ _) E1). apply elem_of_app.
    destruct Hp as [[-> Hd] | [Hm Hp]]; [left; apply one_if_In; by rewrite Hd, Z.eqb_refl |]. right. rewrite (proj2 (Z.ltb_ge _ _)) by done. by apply elem_of_concat_fmap.
Qed.

(** The loops consider exactly the trade paths. *)
Lemma candidates_exact edges (src dst max : Z) (path : list Z) : src <> dst -> 1 <= max <= 3 ->
  path ∈ candidates edges src dst max <-> trade_path edges src dst max path.
Proof.
  intros Hsd Hm. rewrite candidates_In. setoid_rewrite cands2_In. setoid_rewrite cands3_In. unfold trade_path. split.
  - intros (i & first & Hi & E1 & [[-> Hd] | (Hm2 & j & second & Hj & Hij & E2 & E3 & [[-> Hd] | (Hm3 & k & third & -> & Hk & Hki & Hkj & E4 & E5 & E6)])]); cbn [tail leads];
      (split; [unfold len; cbn [length]; lia |]); (split; [repeat (apply NoDup_cons; split; [rewrite ?elem_of_cons, elem_of_nil; naive_solver |]); apply NoDup_nil_2 |]).
    + split; [by exists first | by intros ? ? ?%elem_of_nil].
    + split; [exists first; split; [done |]; split; [done |]; by exists second |]. intros ? e ->%list_elem_of_singleton He. congruence.
    + split; [exists first; split; [done |]; split; [done |]; exists second; split; [done |]; split; [done |]; by exists third |].
      intros ? e [-> | ->%list_elem_of_singleton]%elem_of_cons He; congruence.
  - intros (Hl & Hnd & Hle & Hns). destruct path as [| i path]; [unfold len in Hl; cbn [length] in Hl; lia |]. destruct Hle as (first & Hi & E1 & Hle). exists i, first. split; [done |]. split; [done |].
    destruct path as [| j path]; [by left |]. right. destruct Hle as (second & Hj & E2 & Hle). unfold len in Hl. cbn [length] in Hl. split; [lia |]. exists j, second.
    apply NoDup_cons in Hnd as [Hni Hnd]. rewrite elem_of_cons in Hni. split; [done |]. split; [naive_solver |]. split; [done |].
    split; [apply (Hns j); [apply elem_of_cons; by left | done] |]. destruct path as [| k path]; [by left |]. right.
    destruct Hle as (third & Hk & E3 & Hle). destruct path as [| ? ?]; [| cbn [length] in Hl; lia]. cbn [length] in Hl. split; [lia |]. exists k, third.
    apply NoDup_cons in Hnd as [Hnj _]. rewrite !elem_of_cons in *. naive_solver.
Qed.

(** ** The price of a hop *)
(** Reserves and amounts below 2^63: the products of a hop stay within 128 bits. *)
Definition HALF : Z := 2 ^ 63.
Definition small (e : PoolEdge) : Prop := 0 <= reserve_in e < HALF /\ 0 <= reserve_out e < HALF /\ 0 <= fee_bps e.

Definition after_fee (e : PoolEdge) (x : Z) : Z := x * (BPS_DENOMINATOR - fee_bps e) / BPS_DENOMINATOR.
Definition pays (e : PoolEdge) (x : Z) : Z := reserve_out e * after_fee e x / (reserve_in e + after_fee e x).

Lemma in128 (z : Z) : 0 <= z <= imax U128 -> chk U128 z = Some z.
Proof. intros Hz. apply chk_Some. split; [done | cbn [imin]; lia]. Qed.

Lemma after_fee_bound (e : PoolEdge) (x : Z) : 0 <= fee_bps e <= BPS_DENOMINATOR -> 0 <= x -> 0 <= after_fee e x <= x.
Proof. unfold after_fee, BPS_DENOMINATOR. intros Hf Hx. split; [apply Z.div_pos; nia | apply Z.div_le_upper_bound; nia]. Qed.

(** A hop never traps, and what it returns is the product rule on the input after the fee. *)
Lemma quote_hop_exact (e : PoolEdge) (x : Z) : small e -> 0 <= x < HALF ->
  quote_hop e x <> Panic /\ quote_hop e x <> Err InvariantViolation /\
  forall h, quote_hop e x = Ok h ->
    0 < reserve_in e /\ 0 < reserve_out e /\ hop_pool h = pool e /\ hop_amount_in h = x /\ hop_amount_out h = pays e x /\ 0 < pays e x < reserve_out e /\
    k_before h = reserve_in e * reserve_out e /\ k_after h = (reserve_in e + x) * (reserve_out e - pays e x) /\ k_before h <= k_after h.
Proof.
  intros (Hri & Hro & Hf) Hx. assert (Hw : HALF * 2 <= imax U64 + 1 /\ HALF * HALF * 2 <= imax U128 /\ HALF * 10000 <= imax U128 /\ imin U128 = 0 /\ imin U64 = 0 /\ imin U32 = 0 /\ 10000 <= imax U32) by done.
  destruct Hw as (Hw1 & Hw2 & Hw3 & Hz1 & Hz2 & Hz3 & Hw4). unfold quote_hop, validate_edge.
  destruct (Z.eqb_spec x 0); [done |]. cbn [fail_if]. rewrite bind_ret. destruct (asset_in e =? asset_out e); [done |]. cbn [fail_if]. rewrite bind_ret.
  destruct (Z.eqb_spec (reserve_in e) 0); [done |]. destruct (Z.eqb_spec (reserve_out e) 0); [done |]. cbn [orb fail_if]. rewrite bind_ret.
  destruct (Z.ltb_spec BPS_DENOMINATOR (fee_bps e)); [done |]. cbn [fail_if]. rewrite bind_ret.
  pose proof (after_fee_bound e x ltac:(lia) ltac:(lia)) as Ha. unfold isub, imul, idiv, mul_div, checked_mul, checked_add.
  rewrite (iop_in U32 (BPS_DENOMINATOR - fee_bps e)) by (unfold BPS_DENOMINATOR in *; lia). rewrite bind_ret. cbn [Z.eqb fail_if BPS_DENOMINATOR].
  rewrite bind_ret, (in128 (x * _)) by (unfold BPS_DENOMINATOR in *; nia). cbn [ok_or]. rewrite bind_ret. change (mret ?y ≫= ?f) with (f y). cbn beta.
  fold BPS_DENOMINATOR. fold (after_fee e x). set (a := after_fee e x) in *. destruct (Z.eqb_spec a 0); [done |]. cbn [fail_if]. rewrite bind_ret.
  rewrite (iop_in U128 (x - a)) by lia. rewrite bind_ret, (in128 (reserve_in e + x)) by lia. cbn [ok_or]. rewrite bind_ret, (in128 (reserve_out e * a)) by nia. cbn [ok_or].
  rewrite bind_ret, (in128 (reserve_in e + a)) by lia. cbn [ok_or]. rewrite bind_ret.
  assert (Hp : 0 <= pays e x <= reserve_out e) by (unfold pays; fold a; split; [apply Z.div_pos; nia | apply Z.div_le_upper_bound; nia]).
  rewrite (proj2 (Z.eqb_neq (reserve_in e + a) 0)) by lia. rewrite Z.quot_div_nonneg by nia. change (reserve_out e * a / (reserve_in e + a)) with (pays e x).
  rewrite (iop_in U128 (pays e x)) by nia. rewrite bind_ret. destruct (Z.eqb_spec (pays e x) 0); [done |]. destruct (Z.leb_spec (reserve_out e) (pays e x)); [done |].
  cbn [orb fail_if]. rewrite bind_ret, (iop_in U128 (reserve_in e * reserve_out e)) by nia. rewrite bind_ret, (iop_in U128 (reserve_out e - pays e x)) by nia.
  rewrite bind_ret, (iop_in U128 ((reserve_in e + x) * (reserve_out e - pays e x))) by nia. rewrite bind_ret.
  assert (Hk : reserve_in e * reserve_out e <= (reserve_in e + x) * (reserve_out e - pays e x)).
  { pose proof (Z.mul_div_le (reserve_out e * a) (reserve_in e + a) ltac:(lia)) as Hd. change (reserve_out e * a / (reserve_in e + a)) with (pays e x) in Hd. nia. }
  rewrite (proj2 (Z.ltb_ge _ _) Hk). cbn [fail_if]. rewrite bind_ret. split; [done |]. split; [done |]. intros h [= <-]. cbn.
  rewrite (cast_in U64) by (cbn [imin]; lia). repeat split; try done; lia.
Qed.

(** ** The price of a path *)
Definition hop_at edges (i : Z) (h : HopQuote) : Prop := exists e, vget edges i = Some e /\ quote_hop e (hop_amount_in h) = Ok h.

(** The output of each hop is the input of the next. *)
Fixpoint chained (x : Z) (hs : list HopQuote) (y : Z) : Prop :=
  match hs with [] => x = y | h :: rest => hop_amount_in h = x /\ chained (hop_amount_out h) rest y end.

Lemma saturating_mul_mono (a b c d : Z) : 0 <= a <= c -> 0 <= b <= d -> 0 <= saturating_mul U128 a b <= saturating_mul U128 c d.
Proof. intros Hab Hcd. unfold saturating_mul, clamp. change (imin U128) with 0. assert (0 <= a * b <= c * d) by nia. assert (0 <= imax U128) by done. lia. Qed.

Lemma saturating_mul_max (a b : Z) : 0 <= a -> 0 <= b -> saturating_mul U128 a b = Z.min (imax U128) (a * b).
Proof. intros Ha Hb. unfold saturating_mul, clamp. change (imin U128) with 0. assert (0 <= a * b) by nia. assert (0 <= imax U128) by done. lia. Qed.

Lemma vget_Forall (P : PoolEdge -> Prop) edges (i : Z) (e : PoolEdge) : Forall P edges -> vget edges i = Some e -> P e.
Proof. intros Hf [_ Hi]%vget_Some. by eapply Forall_lookup_1. Qed.

Definition path_ok (p : path_state) : Prop := 0 <= running p < HALF /\ 0 <= ideal_output p <= imax U128 /\ 0 <= initial_k p <= final_k p.

Lemma path_step_exact edges (i : Z) (p : path_state) : Forall small edges -> path_ok p -> len (ps_hops p) < imax U32 ->
  path_step edges i p <> Panic /\
  forall p', path_step edges i p = Ok p' ->
    exists h, ps_hops p' = ps_hops p ++ [h] /\ hop_at edges i h /\ hop_amount_in h = running p /\ hop_amount_out h = running p' /\ path_ok p'.
Proof.
  intros Hs (Hr & Hi & Hk) Hl. unfold path_step. destruct (vget edges i) as [e |] eqn:He; [| done]. cbn [ok_or]. rewrite !bind_ret. pose proof (vget_Forall _ _ _ _ Hs He) as Hsm.
  destruct (quote_hop_exact e (running p) Hsm Hr) as (Hnp & _ & Hh). destruct (quote_hop e (running p)) as [h | |] eqn:Hq; [| done..]. rewrite !bind_ret.
  destruct (Hh h eq_refl) as (Hri & Hro & _ & Hin & Hout & Hb & Hkb & Hka & Hkk). destruct Hsm as (Hri' & Hro' & _).
  unfold idiv. rewrite (proj2 (Z.eqb_neq (reserve_in e) 0)) by lia. pose proof (saturating_mul_max (ideal_output p) (reserve_out e) ltac:(lia) ltac:(lia)) as Hsat.
  set (m := saturating_mul U128 (ideal_output p) (reserve_out e)) in *. assert (Hm : 0 <= m <= imax U128) by (assert (0 <= ideal_output p * reserve_out e) by nia; assert (0 <= imax U128) by done; lia).
  rewrite Z.quot_div_nonneg by lia. assert (Hid : 0 <= m / reserve_in e <= imax U128).
  { split; [apply Z.div_pos; lia |]. etransitivity; [apply (Z.div_le_upper_bound m (reserve_in e) m); nia | lia]. }
  rewrite !iop_in by (cbn [imin]; lia). rewrite !bind_ret. unfold vpush. rewrite (proj2 (Z.ltb_lt (len (ps_hops p)) (imax U32))) by done. rewrite !bind_ret.
  split; [done |]. intros p' [= <-]. exists h. cbn [ps_hops running]. split; [done |]. split; [exists e; by rewrite Hin |]. split; [done |]. split; [done |].
  split; cbn [running ideal_output initial_k final_k]; [lia |]. split; [done |]. apply saturating_mul_mono; nia.
Qed.

Lemma path_loop edges (path : list Z) : Forall small edges -> forall p, path_ok p -> len (ps_hops p) + len path < imax U32 ->
  for_each path (path_step edges) p <> Panic /\
  forall p', for_each path (path_step edges) p = Ok p' ->
    exists hs, ps_hops p' = ps_hops p ++ hs /\ Forall2 (hop_at edges) path hs /\ chained (running p) hs (running p') /\ path_ok p'.
Proof.
  intros Hs. induction path as [| i path IH]; intros p Hp Hl; cbn [for_each].
  { split; [done |]. intros p' [= <-]. exists []. rewrite app_nil_r. repeat split; [constructor | apply Hp..]. }
  unfold len in Hl. cbn [length] in Hl. rewrite Nat2Z.inj_succ in Hl.
  destruct (path_step_exact edges i p Hs Hp) as [Hnp Hstep]; [unfold len; lia |]. destruct (path_step edges i p) as [p1 | |]; [| done..]. rewrite !bind_ret.
  destruct (Hstep p1 eq_refl) as (h & E1 & Hat & Hin & Hout & Hp1). destruct (IH p1 Hp1) as [IH1 IH2]; [rewrite E1, len_app; unfold len; cbn [length]; lia |].
  split; [done |]. intros p' Hp'. destruct (IH2 p' Hp') as (hs & E2 & E3 & E4 & E5). exists (h :: hs).
  split; [by rewrite E2, E1, <- app_assoc |]. split; [by constructor |]. split; [split; [done | by rewrite Hout] | done].
Qed.

(** A path never traps, and its quote is the chain of its hops. *)
Lemma quote_path_exact edges (path : list Z) (x src dst : Z) : Forall small edges -> 0 <= x < HALF -> len path <= 3 ->
  quote_path edges path x src dst <> Panic /\
  forall q, quote_path edges path x src dst = Ok q ->
    amount_in q = x /\ Forall2 (hop_at edges) path (hops q) /\ chained x (hops q) (amount_out q) /\ initial_k_product q <= final_k_product q /\ 0 <= price_impact_bps q <= 10000.
Proof.
  intros Hs Hx Hl. assert (Hc : 3 < imax U32 /\ HALF <= imax U128 /\ 10000 <= imax U32 /\ 10000 <= imax U128) by done. destruct Hc as (Hc1 & Hc2 & Hc3 & Hc4).
  destruct (path_loop edges path Hs {| ps_hops := []; running := x; initial_k := 1; final_k := 1; ideal_output := x |}) as [Hnp Hp];
    [split; cbn [running ideal_output initial_k final_k]; lia | unfold len in *; cbn [ps_hops length]; lia |]. unfold quote_path. destruct (for_each path _ _) as [p | |]; [| done..]. rewrite !bind_ret.
  destruct (Hp p eq_refl) as (hs & E1 & E2 & E3 & E4 & E5 & E6). cbn [app ps_hops running] in *.
  destruct (Z.ltb_spec 0 (ideal_output p)), (Z.ltb_spec (running p) (ideal_output p)); cbn [andb];
    try (change (mret ?y ≫= ?f) with (f y); cbn beta; split; [done |]; intros q [= <-]; cbn; rewrite E1; repeat split; try done; lia).
  unfold isub, idiv. rewrite !(iop_in U128 (ideal_output p - running p)) by (cbn [imin]; lia). rewrite !bind_ret, (proj2 (Z.eqb_neq (ideal_output p) 0)) by lia.
  rewrite saturating_mul_max by (unfold BPS_DENOMINATOR; lia). set (n := Z.min _ _). assert (Hn : 0 <= n <= 10000 * ideal_output p /\ n <= imax U128) by (unfold n, BPS_DENOMINATOR; lia).
  rewrite Z.quot_div_nonneg by lia. pose proof (Z.div_pos n (ideal_output p) ltac:(lia) ltac:(lia)). pose proof (Z.div_le_upper_bound n (ideal_output p) 10000 ltac:(lia) ltac:(lia)).
  rewrite !(iop_in U128 (n / ideal_output p)) by (cbn [imin]; lia). rewrite !bind_ret. change (mret ?y ≫= ?f) with (f y). cbn beta. split; [done |]. intros q [= <-]. cbn.
  rewrite E1, (cast_in U32) by (cbn [imin]; lia). repeat split; try done; lia.
Qed.

(** ** The search *)
(** [r] is one of the quotes seen or [best], and no worse than any of them. *)
Definition best_of (best r : option RouteQuote) (seen : RouteQuote -> Prop) : Prop :=
  (forall q, best = Some q \/ seen q -> exists q', r = Some q' /\ amount_out q <= amount_out q') /\ (forall q, r = Some q -> best = Some q \/ seen q).

Lemma consider_one edges (x src dst : Z) (p : list Z) (best : option RouteQuote) : quote_path edges p x src dst <> Panic ->
  exists r, consider edges x src dst p best = Ok r /\ best_of best r (fun q => quote_path edges p x src dst = Ok q).
Proof.
  intros Hnp. unfold consider, best_of. destruct (quote_path edges p x src dst) as [q | e |]; [| | done].
  - destruct best as [c |].
    + destruct (Z.ltb_spec (amount_out c) (amount_out q)).
      * exists (Some q). split; [done |]. split; [intros q0 [[= <-] | [= <-]]; exists q; (split; [done | lia]) | intros q0 [= <-]; by right].
      * exists (Some c). split; [done |]. split; [intros q0 [[= <-] | [= <-]]; exists c; (split; [done | lia]) | by left].
    + exists (Some q). split; [done |]. split; [intros q0 [[=] | [= <-]]; exists q; (split; [done | lia]) | intros q0 [= <-]; by right].
  - exists best. split; [done |]. split; [intros q0 [-> | [=]]; exists q0; (split; [done | lia]) | by left].
Qed.

Lemma consider_all edges (x src dst : Z) (l : list (list Z)) : (forall p, p ∈ l -> quote_path edges p x src dst <> Panic) -> forall best,
  exists r, for_each l (consider edges x src dst) best = Ok r /\ best_of best r (fun q => exists p, p ∈ l /\ quote_path edges p x src dst = Ok q).
Proof.
  induction l as [| p l IH]; intros Hnp best; cbn [for_each].
  { exists best. split; [done |]. split; [intros q [-> | (p & Hp%elem_of_nil & _)]; [exists q; (split; [done | lia]) | done] | by left]. }
  destruct (consider_one edges x src dst p best) as (b & -> & H1 & H2); [apply Hnp, elem_of_cons; by left |]. rewrite bind_ret.
  destruct (IH (fun p' Hp' => Hnp p' (proj2 (elem_of_cons _ _ _) (or_intror Hp'))) b) as (r & Hr & H3 & H4). exists r. split; [exact Hr |]. split.
  - assert (Hb : forall q, best = Some q \/ quote_path edges p x src dst = Ok q -> exists q', r = Some q' /\ amount_out q <= amount_out q').
    { intros q Hq. destruct (H1 q Hq) as (q1 & Hq1 & Hle). destruct (H3 q1 (or_introl Hq1)) as (q2 & -> & Hle'). exists q2. split; [done | lia]. }
    intros q [Hq | (p' & [-> | Hp']%elem_of_cons & Hq)]; [apply Hb; by left | apply Hb; by right |]. apply H3. right. by exists p'.
  - intros q Hq. destruct (H4 q Hq) as [Hbq | (p' & Hp' & Hq')]; [| right; exists p'; split; [apply elem_of_cons; by right | done]].
    destruct (H2 q Hbq) as [? | ?]; [by left | right; exists p; split; [apply elem_of_cons; by left | done]].
Qed.

Lemma trade_path_length edges (src dst max : Z) (path : list Z) : max <= 3 -> trade_path edges src dst max path -> len path <= 3.
Proof. intros Hm [Hl _]. lia. Qed.

(** The search, for accepted parameters and reserves below 2^63. *)
Lemma search_exact edges (src dst x max : Z) : Forall small edges -> 0 < x < HALF -> src <> dst -> 1 <= max <= 3 -> 0 < len edges <= MAX_CANDIDATE_POOLS ->
  exists r, find_best_route edges src dst x max = ok_or r PoolNotFound /\
    best_of None r (fun q => exists p, trade_path edges src dst max p /\ quote_path edges p x src dst = Ok q).
Proof.
  intros Hs Hx Hsd Hm Hl. unfold find_best_route. rewrite fail_if_pass by (apply Z.eqb_neq; lia). rewrite fail_if_pass by (by apply Z.eqb_neq).
  rewrite fail_if_pass by (apply orb_false_iff; split; [apply Z.eqb_neq; lia | apply Z.ltb_ge; unfold MAX_ROUTE_DEPTH; lia]).
  rewrite fail_if_pass by (apply Z.ltb_ge; lia). rewrite fail_if_pass by (apply Z.eqb_neq; lia). rewrite loops_flat.
  destruct (consider_all edges x src dst (candidates edges src dst max)) with (best := @None RouteQuote) as (r & -> & H1 & H2).
  { intros p Hp%candidates_exact; [| done..]. apply quote_path_exact; [done | lia | by eapply trade_path_length; [| exact Hp]; lia]. }
  rewrite bind_ret. exists r. split; [done |]. split.
  - intros q [[=] | (p & Hp & Hq)]. apply H1. right. exists p. split; [by apply candidates_exact | done].
  - intros q Hq. destruct (H2 q Hq) as [[=] | (p & Hp & Hq')]. right. exists p. split; [by apply candidates_exact | done].
Qed.

(** C3: The search is exact. Over at most eight pools with reserves below 2^63 it never traps;
    it returns a quote of a trade path (at most [max] distinct pools linking source to
    destination, none coming back to the source) that no other trade path beats; and it
    reports PoolNotFound only when no trade path can be priced. *)
Theorem best_route_exact edges (src dst x max : Z) (Hs : Forall small edges) (Hx : 0 < x < HALF) (Hsd : src <> dst) (Hm : 1 <= max <= 3)
    (Hl : 0 < len edges <= MAX_CANDIDATE_POOLS) :
  let priced path q := trade_path edges src dst max path /\ quote_path edges path x src dst = Ok q in
  match find_best_route edges src dst x max with
  | Ok q => (exists path, priced path q) /\ (forall path q', priced path q' -> amount_out q' <= amount_out q)
  | Err e => e = PoolNotFound /\ (forall path q', ~ priced path q')
  | Panic => False
  end.
Proof.
  cbn zeta. destruct (search_exact edges src dst x max Hs Hx Hsd Hm Hl) as (r & -> & H1 & H2). destruct r as [q |]; cbn.
  - split; [destruct (H2 q eq_refl) as [[=] | ?]; done |]. intros path q' Hp. destruct (H1 q') as (q2 & [= <-] & Hle); [right; by exists path | done].
  - split; [done |]. intros path q' Hp. destruct (H1 q') as (q2 & [=] & _). right. by exists path.
Qed.
End search.

(** A shallow direct pool and a deep way round. *)
Definition mk_edge (p a b ri ro : Z) : @PoolEdge test_host := @Build_PoolEdge test_host p a b ri ro 30.
Definition three_pools : list (@PoolEdge test_host) := [mk_edge 10 1 3 5000 5000; mk_edge 11 1 2 1000000 2000000; mk_edge 12 2 3 2000000 1000000].

Lemma best_route_exact_witness :
  (exists q, find_best_route (H := test_host) three_pools 1 3 1000 3 = Ok q /\ amount_out q = 992 /\ len (hops q) = 2) /\
  (forall path q, trade_path (H := test_host) three_pools 1 3 3 path -> quote_path (H := test_host) three_pools path 1000 1 3 = Ok q -> amount_out q <= 992).
Proof.
  assert (Hs : Forall (small (H := test_host)) three_pools) by (repeat constructor; vm_compute; (discriminate || reflexivity)).
  pose proof (best_route_exact three_pools 1 3 1000 3 Hs ltac:(vm_compute; split; reflexivity) ltac:(discriminate) ltac:(lia) ltac:(vm_compute; split; [reflexivity | discriminate])) as Hb.
  assert (Ho : (q ← find_best_route (H := test_host) three_pools 1 3 1000 3; mret (amount_out q, len (hops q))) = Ok (992, 2)) by (vm_compute; reflexivity).
  destruct (is_ok_Ok (find_best_route (H := test_host) three_pools 1 3 1000 3)) as [q Hq]; [vm_compute; reflexivity |]. rewrite Hq in Ho, Hb. injection Ho as Ho Hl.
  destruct Hb as [_ Hb]. split; [exists q; split; [exact Hq | split; [exact Ho | exact Hl]] |].
  intros path q' Hp Hq'. rewrite <- Ho. exact (Hb path q' (conj Hp Hq')).
Defined.

(** ** Swaps of the dynamic router *)

Section swap.
Context {H : Host}.
Implicit Types s : amm_router.

(** ** What the registry holds *)
(** The widths of the fields. *)
Definition typed (e : PoolEdge) : Prop := 0 <= reserve_in e <= imax U64 /\ 0 <= reserve_out e <= imax U64 /\ 0 <= fee_bps e <= imax U32.
Definition listed (e : PoolEdge) : Prop :=
  typed e /\ asset_in e <> asset_out e /\ 0 < reserve_in e /\ 0 < reserve_out e /\ fee_bps e <= BPS_DENOMINATOR.

Record router_ok (s : amm_router) : Prop := {
  ok_distinct : NoDup (get_registry s);
  ok_few : len (get_registry s) <= MAX_CANDIDATE_POOLS;
  ok_stored : forall p, p ∈ get_registry s <-> is_Some (pools s !! p);
  ok_edge : forall p e, pools s !! p = Some e -> pool e = p /\ listed e;
  ok_config : 1 <= max_hops (get_router_config s) <= MAX_ROUTE_DEPTH;
  ok_free : router_locked s = false
}.

(** ** What a success says *)
Lemma validate_listed (e : PoolEdge) (u : unit) : typed e -> validate_edge e = Ok u -> listed e.
Proof.
  intros Ht Hr. pose proof Ht as (Hi & Ho & Hf). apply bind_Ok in Hr as (u1 & H1%fail_if_Ok%Z.eqb_neq & Hr). apply bind_Ok in Hr as (u2 & H2%fail_if_Ok & Hr).
  apply orb_false_iff in H2 as [H2%Z.eqb_neq H3%Z.eqb_neq]. apply fail_if_Ok, Z.ltb_ge in Hr. repeat split; try done; lia.
Qed.

Lemma quote_hop_Ok (e : PoolEdge) (x : Z) (h : HopQuote) : quote_hop e x = Ok h -> typed e ->
  hop_pool h = pool e /\ hop_amount_in h = x /\ 0 < hop_amount_out h < reserve_out e /\ k_before h = reserve_in e * reserve_out e /\
  k_after h = (reserve_in e + x) * (reserve_out e - hop_amount_out h) /\ k_before h <= k_after h.
Proof.
  intros Hr (Hi & Ho & Hf). unfold quote_hop in Hr. do 4 apply bind_Ok in Hr as (? & _ & Hr). rename x0 into q0, x1 into q1, x2 into q2, x3 into a.
  apply bind_Ok in Hr as (u1 & _ & Hr). apply bind_Ok in Hr as (fee & _ & Hr). apply bind_Ok in Hr as (nri & [-> _]%ok_or_Ok%chk_Some & Hr).
  apply bind_Ok in Hr as (num & _ & Hr). apply bind_Ok in Hr as (den & _ & Hr). apply bind_Ok in Hr as (out & Hout & Hr).
  apply bind_Ok in Hr as (u2 & Hb%fail_if_Ok & Hr). apply orb_false_iff in Hb as [Hz%Z.eqb_neq Hlt%Z.leb_gt].
  apply bind_Ok in Hr as (kb & [-> _]%iop_Ok & Hr). apply bind_Ok in Hr as (nro & [-> _]%iop_Ok & Hr). apply bind_Ok in Hr as (ka & [-> _]%iop_Ok & Hr).
  apply bind_Ok in Hr as (u3 & Hk%fail_if_Ok%Z.ltb_ge & [= <-]). cbn.
  assert (Hpos : 0 <= out). { unfold idiv in Hout. destruct (den =? 0); [done |]. apply iop_Ok in Hout as [-> Hout]. cbn [imin] in Hout. lia. }
  rewrite (cast_in U64) by (cbn [imin]; lia). repeat split; try done; lia.
Qed.

Lemma path_loop_Ok edges (path : list Z) : forall p p', for_each path (path_step edges) p = Ok p' ->
  exists hs, ps_hops p' = ps_hops p ++ hs /\ Forall2 (fun i h => exists e, vget edges i = Some e /\ quote_hop e (hop_amount_in h) = Ok h) path hs /\
    (Forall typed edges -> chained (running p) hs (running p')).
Proof.
  induction path as [| i path IH]; intros p p' Hr; cbn [for_each] in Hr; [injection Hr as <-; exists []; by rewrite app_nil_r |].
  apply bind_Ok in Hr as (p1 & Hs & Hr). destruct (IH p1 p' Hr) as (hs & E1 & E2 & E3). apply bind_Ok in Hs as (e & He%ok_or_Ok & Hs). apply bind_Ok in Hs as (h & Hh & Hs).
  apply bind_Ok in Hs as (ideal & _ & Hs). apply bind_Ok in Hs as (l & [_ ->]%vpush_Ok & [= <-]). cbn [ps_hops running] in *.
  assert (Hin : hop_amount_in h = running p). { unfold quote_hop in Hh. repeat (apply bind_Ok in Hh as (? & _ & Hh)). by injection Hh as <-. }
  exists (h :: hs). split; [by rewrite E1, <- app_assoc |]. split; [constructor; [exists e; by rewrite Hin | done] |]. intros Ht. split; [done | auto].
Qed.

Lemma quote_path_Ok edges (path : list Z) (x src dst : Z) (q : RouteQuote) : quote_path edges path x src dst = Ok q ->
  amount_in q = x /\ Forall2 (hop_at edges) path (hops q) /\ (Forall typed edges -> chained x (hops q) (amount_out q)).
Proof.
  intros Hr. apply bind_Ok in Hr as (p & Hp & Hr). apply bind_Ok in Hr as (i & _ & [= <-]). cbn. apply path_loop_Ok in Hp as (hs & E1 & E2 & E3). cbn in E1, E3. by rewrite E1.
Qed.

Lemma consider_Ok edges (x src dst : Z) (l : list (list Z)) : forall best q, for_each l (consider edges x src dst) best = Ok (Some q) ->
  best = Some q \/ exists p, p ∈ l /\ quote_path edges p x src dst = Ok q.
Proof.
  induction l as [| p l IH]; intros best q Hr; cbn [for_each] in Hr; [injection Hr as ->; by left |]. apply bind_Ok in Hr as (b & Hb & Hr).
  destruct (IH b q Hr) as [-> | (p' & Hp' & Hq)]; [| right; exists p'; split; [apply elem_of_cons; by right | done]].
  unfold consider in Hb. destruct (quote_path edges p x src dst) as [q1 | |] eqn:Hq; [| injection Hb as ->; by left | done].
  assert (Hc : best = Some q \/ q1 = q). { destruct best as [c |]; [| injection Hb as ->; by right]. destruct (_ <? _); injection Hb as Hb; [right; congruence | left; congruence]. }
  destruct Hc as [? | ->]; [by left | right; exists p; split; [apply elem_of_cons; by left | done]].
Qed.

Lemma find_best_Ok edges (src dst x max : Z) (q : RouteQuote) : find_best_route edges src dst x max = Ok q -> 0 <= max ->
  x <> 0 /\ exists p, trade_path edges src dst max p /\ quote_path edges p x src dst = Ok q.
Proof.
  intros Hr Hm. apply bind_Ok in Hr as (u1 & Hx%fail_if_Ok%Z.eqb_neq & Hr). apply bind_Ok in Hr as (u2 & Hsd%fail_if_Ok%Z.eqb_neq & Hr).
  apply bind_Ok in Hr as (u3 & Hmx%fail_if_Ok & Hr). apply orb_false_iff in Hmx as [Hm0%Z.eqb_neq Hm3%Z.ltb_ge]. apply bind_Ok in Hr as (u4 & _ & Hr).
  apply bind_Ok in Hr as (u5 & _ & Hr). apply bind_Ok in Hr as (b & Hb & Hr%ok_or_Ok). subst b. rewrite loops_flat in Hb. split; [done |].
  destruct (consider_Ok _ _ _ _ _ _ _ Hb) as [[=] | (p & Hp & Hq)]. exists p. split; [| done]. apply candidates_exact in Hp; [done | done |]. unfold MAX_ROUTE_DEPTH in Hm3. lia.
Qed.

(** ** The edges of the registry *)
Lemma edge_listed s : router_ok s -> forall e, e ∈ registered_pool_edges s -> pools s !! pool e = Some e /\ listed e.
Proof.
  intros Hok e (p & Hp & He)%list_elem_of_omap. destruct (ok_edge s Hok p e He) as [Hpe Hl]. by rewrite Hpe.
Qed.

Lemma edges_distinct s : router_ok s -> NoDup (pool <$> registered_pool_edges s).
Proof.
  intros Hok. pose proof (ok_distinct s Hok) as Hd. unfold registered_pool_edges. induction (get_registry s) as [| p l IH]; [constructor |].
  apply NoDup_cons in Hd as [Hn Hd]. cbn. destruct (pools s !! p) as [e |] eqn:He; [| by apply IH]. rewrite fmap_cons. apply NoDup_cons. split; [| by apply IH].
  destruct (ok_edge s Hok p e He) as [-> _]. intros (e' & Hpe & (p' & Hp' & He')%list_elem_of_omap)%list_elem_of_fmap. destruct (ok_edge s Hok p' e' He') as [E _]. congruence.
Qed.

Lemma edges_typed s : router_ok s -> Forall typed (registered_pool_edges s).
Proof. intros Hok. apply Forall_forall. intros e He. destruct (edge_listed s Hok e He) as [_ [Ht _]]. exact Ht. Qed.

Lemma hop_at_edge s (i : Z) (h : HopQuote) : router_ok s -> hop_at (registered_pool_edges s) i h ->
  exists e, vget (registered_pool_edges s) i = Some e /\ pools s !! hop_pool h = Some e /\ hop_pool h = pool e /\ listed e /\ quote_hop e (hop_amount_in h) = Ok h.
Proof.
  intros Hok (e & Hi & Hq). exists e. split; [done |]. pose proof Hi as [_ Hlk]%vget_Some. apply list_elem_of_lookup_2 in Hlk. destruct (edge_listed s Hok e Hlk) as [Hp Hl].
  destruct (quote_hop_Ok e _ h Hq (proj1 Hl)) as [-> _]. auto.
Qed.

Lemma hops_distinct s (path : list Z) (hs : list HopQuote) : router_ok s -> Forall2 (hop_at (registered_pool_edges s)) path hs -> NoDup path -> NoDup (hop_pool <$> hs).
Proof.
  intros Hok. induction 1 as [| i h path hs Hat Hall IH]; intros Hnd; [constructor |]. apply NoDup_cons in Hnd as [Hn Hnd]. rewrite fmap_cons. apply NoDup_cons. split; [| by apply IH].
  intros (h' & Hp & Hin)%list_elem_of_fmap. apply list_elem_of_lookup in Hin as [k Hk]. destruct (Forall2_lookup_r _ _ _ _ _ Hall Hk) as (j & Hj & Hat').
  destruct (hop_at_edge s i h Hok Hat) as (e & He & _ & Epool & _). destruct (hop_at_edge s j h' Hok Hat') as (e' & He' & _ & Epool' & _).
  apply Hn. assert (i = j) as ->; [| by apply list_elem_of_lookup_2 in Hj]. apply vget_Some in He as [Hi0 He], He' as [Hj0 He'].
  enough (Z.to_nat i = Z.to_nat j) by lia. apply (NoDup_lookup (pool <$> registered_pool_edges s) _ _ (pool e) (edges_distinct s Hok)).
  - by rewrite list_lookup_fmap, He.
  - rewrite list_lookup_fmap, He'. cbn. congruence.
Qed.

(** ** The reserves after a swap *)
Definition moved (e : PoolEdge) (h : HopQuote) : PoolEdge :=
  {| pool := pool e; asset_in := asset_in e; asset_out := asset_out e; reserve_in := reserve_in e + hop_amount_in h;
     reserve_out := reserve_out e - hop_amount_out h; fee_bps := fee_bps e |}.

Lemma commit_all (hs : list HopQuote) : forall ps ps', for_each hs commit_hop ps = Ok ps' -> NoDup (hop_pool <$> hs) ->
  (forall p, p ∉ hop_pool <$> hs -> ps' !! p = ps !! p) /\
  (forall h, h ∈ hs -> exists e, ps !! hop_pool h = Some e /\ ps' !! hop_pool h = Some (moved e h) /\ reserve_in e + hop_amount_in h <= imax U64).
Proof.
  induction hs as [| h hs IH]; intros ps ps' Hr Hnd; cbn [for_each] in Hr; [injection Hr as <-; split; [done | by intros ? ?%elem_of_nil] |].
  rewrite fmap_cons in *. apply NoDup_cons in Hnd as [Hn Hnd]. apply bind_Ok in Hr as (ps1 & Hc & Hr). destruct (IH ps1 ps' Hr Hnd) as [Hout Hin].
  apply bind_Ok in Hc as (e & He%ok_or_Ok & Hc). apply bind_Ok in Hc as (ri & [-> [_ Hri]]%ok_or_Ok%chk_Some & Hc). apply bind_Ok in Hc as (ro & [-> _]%ok_or_Ok%chk_Some & [= <-]).
  fold (moved e h) in Hout, Hin. split.
  - intros p Hp. rewrite elem_of_cons in Hp. rewrite Hout by tauto. apply lookup_insert_ne. naive_solver.
  - intros h' [-> | Hh']%elem_of_cons; [exists e; split; [done |]; split; [by rewrite (Hout _ Hn), lookup_insert_eq | done] |].
    destruct (Hin h' Hh') as (e' & He' & Hps' & Hb). exists e'. split; [| done]. rewrite lookup_insert_ne in He'; [done |]. intros E. apply Hn. rewrite E. by apply list_elem_of_fmap_2.
Qed.

Lemma execute_swap_Ok (i : call_env) s s' (trader : Address) (src dst x min_out max_impact : Z) (q : RouteQuote) :
  router_ok s -> execute_swap i s trader src dst x min_out max_impact = Ok (s', q) ->
  auth i trader = true /\ x <> 0 /\ min_out <= amount_out q /\ price_impact_bps q <= max_impact /\ price_impact_bps q <= cfg_max_price_impact_bps (get_router_config s) /\
  initial_k_product q <= final_k_product q /\
  (exists path, trade_path (registered_pool_edges s) src dst (max_hops (get_router_config s)) path /\ Forall2 (hop_at (registered_pool_edges s)) path (hops q)) /\
  chained x (hops q) (amount_out q) /\ exists ps, for_each (hops q) commit_hop (pools s) = Ok ps /\ s' = set_lock (set_pools (set_lock s true) ps) false.
Proof.
  intros Hok Hr. apply bind_Ok in Hr as ([] & Ha%require_auth_Ok & Hr). apply bind_Ok in Hr as (u1 & _ & Hr). cbn zeta in Hr.
  change (get_router_config (set_lock s true)) with (get_router_config s) in Hr. change (registered_pool_edges (set_lock s true)) with (registered_pool_edges s) in Hr.
  pose proof (ok_config s Hok) as Hcfg. apply bind_Ok in Hr as (u2 & _ & Hr). apply bind_Ok in Hr as (quote & Hq & Hr). apply find_best_Ok in Hq as (Hx & path & Hp & Hq); [| lia].
  apply bind_Ok in Hr as (u3 & Hmin%fail_if_Ok%Z.ltb_ge & Hr). apply bind_Ok in Hr as (u4 & Himp%fail_if_Ok%Z.ltb_ge & Hr). apply bind_Ok in Hr as (u5 & Hk%fail_if_Ok%Z.ltb_ge & Hr).
  apply bind_Ok in Hr as (ps & Hps & [= <- <-]). apply quote_path_Ok in Hq as (_ & Hat & Hch). split; [done |]. split; [done |]. split; [done |].
  split; [destruct (Z.ltb_spec max_impact (cfg_max_price_impact_bps (get_router_config s))); lia |].
  split; [destruct (Z.ltb_spec max_impact (cfg_max_price_impact_bps (get_router_config s))); lia |]. split; [done |]. split; [by exists path |].
  split; [apply Hch, edges_typed, Hok |]. by exists ps.
Qed.

(** ** Histories *)
Inductive router_step s : amm_router -> Prop :=
  | step_register i caller e s' : typed e -> register_pool i s caller e = Ok s' -> router_step s s'
  | step_remove i caller p s' : remove_pool i s caller p = Ok s' -> router_step s s'
  | step_config i caller c s' : 0 <= max_hops c -> set_router_config i s caller c = Ok s' -> router_step s s'
  | step_swap i trader src dst x min_out max_impact s' q : 0 <= x <= imax U64 -> execute_swap i s trader src dst x min_out max_impact = Ok (s', q) -> router_step s s'.

Inductive router_history : amm_router -> Prop :=
  | router_start k : router_history {| router_keys := k; pools := ∅; registry := None; config := None; router_locked := false |}
  | router_next s s' : router_history s -> router_step s s' -> router_history s'.

Lemma register_pool_ok (i : call_env) s s' (caller : Address) (e : PoolEdge) : typed e -> router_ok s -> register_pool i s caller e = Ok s' -> router_ok s'.
Proof.
  intros Ht Hok Hr. apply bind_Ok in Hr as (u1 & _ & Hr). apply bind_Ok in Hr as (u2 & _ & Hr). apply bind_Ok in Hr as (u3 & Hl%validate_listed & Hr); [| done].
  assert (Hedge : forall p e', <[pool e := e]> (pools s) !! p = Some e' -> pool e' = p /\ listed e').
  { intros p e'. destruct (decide (p = pool e)) as [-> | Hn]; [rewrite lookup_insert_eq; by intros [= <-] | rewrite lookup_insert_ne by done; apply ok_edge, Hok]. }
  destruct (pools s !! pool e) as [old |] eqn:Hold.
  - injection Hr as <-. split; [apply Hok | apply Hok | | exact Hedge | apply Hok | apply Hok].
    intros p. cbn. rewrite (ok_stored s Hok p). destruct (decide (p = pool e)) as [-> | Hn]; [rewrite lookup_insert_eq, Hold; naive_solver | by rewrite lookup_insert_ne].
  - apply bind_Ok in Hr as (s1 & Hs1 & [= <-]). apply bind_Ok in Hs1 as (u & Hlen%fail_if_Ok%Z.leb_gt & Hs1). apply bind_Ok in Hs1 as (r & [_ ->]%vpush_Ok & [= <-]).
    assert (Hnin : pool e ∉ get_registry s) by (rewrite (ok_stored s Hok), Hold; by intros [? ?]).
    split; [| | | exact Hedge | apply Hok | apply Hok].
    + change (get_registry _) with (get_registry s ++ [pool e]). apply NoDup_app. split; [apply Hok |]. split; [intros p Hp ->%list_elem_of_singleton; done | apply NoDup_singleton].
    + change (get_registry _) with (get_registry s ++ [pool e]). rewrite len_app. change (len [pool e]) with 1. lia.
    + intros p. change (get_registry (set_pools _ _)) with (get_registry s ++ [pool e]). cbn [pools set_pools set_registry]. rewrite elem_of_app, list_elem_of_singleton, (ok_stored s Hok p).
      destruct (decide (p = pool e)) as [-> | Hn]; [rewrite lookup_insert_eq; naive_solver | rewrite lookup_insert_ne by done; naive_solver].
Qed.

Lemma remove_pool_ok (i : call_env) s s' (caller p : Address) : router_ok s -> remove_pool i s caller p = Ok s' -> router_ok s'.
Proof.
  intros Hok Hr. apply bind_Ok in Hr as (u1 & _ & Hr). apply bind_Ok in Hr as (u2 & _ & Hr). apply bind_Ok in Hr as (e & He%ok_or_Ok & [= <-]).
  split; [| | | | apply Hok | apply Hok].
  - apply NoDup_filter, (ok_distinct s Hok).
  - etransitivity; [| apply (ok_few s Hok)]. unfold len. apply Nat2Z.inj_le, length_filter.
  - intros q. change (get_registry (set_registry _ _)) with (filter (fun a => a <> p) (get_registry s)). cbn [pools set_pools set_registry]. rewrite list_elem_of_filter, (ok_stored s Hok q).
    destruct (decide (q = p)) as [-> | Hn]; [rewrite lookup_delete_eq; split; [tauto | by intros [? ?]] | rewrite lookup_delete_ne by done; tauto].
  - intros q e' Hq. cbn in Hq. apply lookup_delete_Some in Hq as [_ Hq]. by apply (ok_edge s Hok).
Qed.

Lemma config_ok (i : call_env) s s' (caller : Address) (c : RouterConfig) : 0 <= max_hops c -> router_ok s -> set_router_config i s caller c = Ok s' -> router_ok s'.
Proof.
  intros Hc Hok Hr. apply bind_Ok in Hr as (u1 & _ & Hr). apply bind_Ok in Hr as (u2 & _ & Hr). apply bind_Ok in Hr as (u3 & Hm%fail_if_Ok & Hr).
  apply orb_false_iff in Hm as [Hm0%Z.eqb_neq Hm3%Z.ltb_ge]. apply bind_Ok in Hr as (u4 & _ & [= <-]).
  split; [apply Hok | apply Hok | apply Hok | apply Hok | cbn; lia | apply Hok].
Qed.

Lemma execute_swap_ok (i : call_env) s s' (trader : Address) (src dst x min_out max_impact : Z) (q : RouteQuote) : 0 <= x <= imax U64 ->
  router_ok s -> execute_swap i s trader src dst x min_out max_impact = Ok (s', q) -> router_ok s'.
Proof.
  intros Hx Hok Hr. pose proof Hok as Hok'. apply execute_swap_Ok in Hr as (_ & _ & _ & _ & _ & _ & (path & (_ & Hnd & _) & Hat) & Hch & ps & Hps & ->); [| done].
  destruct (commit_all _ _ _ Hps (hops_distinct s path _ Hok Hat Hnd)) as [Hout Hin].
  assert (Hpos : forall h, h ∈ hops q -> 0 <= hop_amount_in h).
  { clear -Hat Hok Hx Hch H. revert x Hx Hch. induction Hat as [| k h path hs Hk Hall IH]; intros x Hx Hch; [by intros ? ?%elem_of_nil |]. destruct Hch as [Hin Hch].
    destruct (hop_at_edge s k h Hok Hk) as (e & _ & _ & _ & Hl & Hq). destruct (quote_hop_Ok e _ h Hq (proj1 Hl)) as (_ & _ & Ho & _). destruct Hl as [(_ & Hro & _) _].
    intros h' [-> | Hh']%elem_of_cons; [lia |]. eapply IH; [| exact Hch | exact Hh']. lia. }
  assert (Hcase : forall p, (exists h e, h ∈ hops q /\ hop_pool h = p /\ pools s !! p = Some e /\ ps !! p = Some (moved e h) /\ listed (moved e h) /\ pool e = p) \/ ps !! p = pools s !! p).
  { intros p. destruct (decide (p ∈ hop_pool <$> hops q)) as [(h & -> & Hh)%list_elem_of_fmap | Hn]; [left | right; by apply Hout].
    destruct (Hin h Hh) as (e & He & Hps' & Hb). destruct (ok_edge s Hok _ e He) as [Hpe Hl]. exists h, e. repeat (split; [done |]). split; [| done].
    apply list_elem_of_lookup in Hh as Hh'. destruct Hh' as [k Hk]. destruct (Forall2_lookup_r _ _ _ _ _ Hat Hk) as (j & _ & Hat').
    destruct (hop_at_edge s j h Hok Hat') as (e' & _ & He' & _ & _ & Hq). assert (e' = e) as -> by congruence. destruct (quote_hop_Ok e _ h Hq (proj1 Hl)) as (_ & _ & Ho & _).
    specialize (Hpos h Hh). destruct Hl as ((Hi & Hro & Hf) & Hne & Hi0 & Ho0 & Hb0).
    unfold moved. repeat split; cbn [asset_in asset_out reserve_in reserve_out fee_bps]; (done || lia). }
  split; [apply Hok | apply Hok | | | apply Hok | done].
  - intros p. change (get_registry (set_lock _ _)) with (get_registry s). rewrite (ok_stored s Hok p). cbn [pools set_lock set_pools]. destruct (Hcase p) as [(h & e & _ & _ & -> & -> & _) | ->]; naive_solver.
  - intros p e' Hp. cbn in Hp. destruct (Hcase p) as [(h & e & _ & _ & He & Hps' & Hl & Hpe) | E]; [rewrite Hps' in Hp; by injection Hp as <- |]. rewrite E in Hp. by apply (ok_edge s Hok).
Qed.

Lemma history_ok s : router_history s -> router_ok s.
Proof.
  induction 1 as [k | s s' _ IH [i caller e s1 Ht Hr | i caller p s1 Hr | i caller c s1 Hc Hr | i trader src dst x mo mi s1 q Hx Hr]].
  - split; cbn; [constructor | done | | by intros ? ? ?%lookup_empty_Some | done | done]. intros p. rewrite lookup_empty. split; [by intros ?%elem_of_nil | by intros [? ?]].
  - by eapply register_pool_ok.
  - by eapply remove_pool_ok.
  - by eapply config_ok.
  - by eapply execute_swap_ok.
Qed.

(** C4: In every history of the router, a swap that goes through pays the trader's floor within
    both ceilings on the price impact, each hop passing its output to the next; on every pool
    of its path it adds the input to one reserve and takes the output, less than all, from the
    other, so that the product of the reserves does not fall; it touches no other pool, and the
    registry stays at most eight distinct pools with both reserves positive. *)
Theorem swap_settles_quote s s' (i : call_env) (trader : Address) (src dst x min_out max_impact : Z) (q : RouteQuote)
    (Hs : router_history s) (Hx : 0 <= x <= imax U64) (Hr : execute_swap i s trader src dst x min_out max_impact = Ok (s', q)) :
  auth i trader = true /\ min_out <= amount_out q /\ price_impact_bps q <= max_impact /\ price_impact_bps q <= cfg_max_price_impact_bps (get_router_config s) /\
  (1 <= len (hops q) <= max_hops (get_router_config s) /\ chained x (hops q) (amount_out q)) /\
  NoDup (hop_pool <$> hops q) /\
  (forall h, h ∈ hops q -> exists e, pools s !! hop_pool h = Some e /\ pools s' !! hop_pool h = Some (moved e h) /\
     0 < hop_amount_out h < reserve_out e /\ reserve_in e * reserve_out e <= reserve_in (moved e h) * reserve_out (moved e h)) /\
  (forall p, p ∉ hop_pool <$> hops q -> pools s' !! p = pools s !! p) /\
  router_ok s'.
Proof.
  pose proof (history_ok s Hs) as Hok. pose proof (execute_swap_ok _ _ _ _ _ _ _ _ _ _ Hx Hok Hr) as Hok'.
  apply execute_swap_Ok in Hr as (Ha & _ & Hmin & Hi1 & Hi2 & _ & (path & (Hl & Hnd & _) & Hat) & Hch & ps & Hps & ->); [| done].
  pose proof (hops_distinct s path _ Hok Hat Hnd) as Hd. destruct (commit_all _ _ _ Hps Hd) as [Hout Hin].
  split; [done |]. split; [done |]. split; [done |]. split; [done |]. split; [split; [| done]; unfold len in *; by rewrite <- (Forall2_length _ _ _ Hat) |].
  split; [done |]. split; [| by split]. intros h Hh. destruct (Hin h Hh) as (e & He & Hps' & Hb). exists e. split; [done |]. split; [done |].
  apply list_elem_of_lookup in Hh as [k Hk]. destruct (Forall2_lookup_r _ _ _ _ _ Hat Hk) as (j & _ & Hat').
  destruct (hop_at_edge s j h Hok Hat') as (e' & _ & He' & _ & Hlst & Hq). assert (e' = e) as -> by congruence.
  destruct (quote_hop_Ok e _ h Hq (proj1 Hlst)) as (_ & _ & Ho & Hkb & Hka & Hkk). split; [done |]. cbn. lia.
Qed.
End swap.

(** ** A concrete history *)
Definition router_admin : @keyring test_host := set_data (@empty_keyring test_host) (@Build_ContractData test_host 1 0 10000).
Definition router_call (a : Z) : @call_env test_host := @Build_call_env test_host (Z.eqb a) 1000.
Definition no_pools : @amm_router test_host := @Build_amm_router test_host router_admin ∅ None None false.
Definition with_edge (s : @amm_router test_host) (e : @PoolEdge test_host) : @amm_router test_host :=
  match register_pool (router_call 1) s 1 e with Ok s' => s' | _ => s end.
Definition with_pools : @amm_router test_host := with_edge (with_edge (with_edge no_pools (mk_edge 10 1 3 5000 5000)) (mk_edge 11 1 2 1000000 2000000)) (mk_edge 12 2 3 2000000 1000000).

Lemma with_edge_history (s : @amm_router test_host) (e : @PoolEdge test_host) : typed (H := test_host) e -> router_history s -> router_history (with_edge s e).
Proof. intros Ht Hs. unfold with_edge. destruct (register_pool _ s 1 e) as [s' | |] eqn:Hr; [| exact Hs..]. exact (router_next s s' Hs (step_register s _ _ e s' Ht Hr)). Qed.

Lemma with_pools_history : router_history (H := test_host) with_pools.
Proof. unfold with_pools. do 3 (apply with_edge_history; [vm_compute; repeat split; discriminate |]). exact (router_start router_admin). Qed.

Lemma swap_settles_quote_witness :
  exists s' q, execute_swap (H := test_host) (router_call 7) with_pools 7 1 3 1000 900 400 = Ok (s', q) /\ 900 <= amount_out q /\ len (hops q) = 2 /\
    ((10 : @Address test_host) ∉ (hop_pool <$> hops q)) /\ (pools s' !! (10 : @Address test_host) = pools with_pools !! (10 : @Address test_host)).
Proof.
  destruct (is_ok_Ok (execute_swap (H := test_host) (router_call 7) with_pools 7 1 3 1000 900 400)) as [[s' q] Hr]; [vm_compute; reflexivity |].
  assert (Hq : (r ← execute_swap (H := test_host) (router_call 7) with_pools 7 1 3 1000 900 400; mret (len (hops r.2), existsb (fun h => Z.eqb 10 (hop_pool (H := test_host) h)) (hops r.2))) = Ok (2, false)) by (vm_compute; reflexivity).
  rewrite Hr in Hq. injection Hq as Hl Hn.
  destruct (swap_settles_quote with_pools s' (router_call 7) 7 1 3 1000 900 400 q with_pools_history ltac:(vm_compute; split; discriminate) Hr) as (_ & Hm & _ & _ & _ & _ & _ & Hout & _).
  assert (Hnin : (10 : @Address test_host) ∉ hop_pool <$> hops q).
  { intros (h & Eh & Hin%list_elem_of_In)%list_elem_of_fmap. cbn [snd] in Hn.
    assert (Ht : existsb (fun h => Z.eqb 10 (hop_pool (H := test_host) h)) (hops q) = true) by (apply existsb_exists; exists h; split; [exact Hin | apply Z.eqb_eq; exact Eh]). exact (eq_true_false_abs _ Ht Hn). }
  exists s', q. split; [exact Hr |]. split; [exact Hm |]. split; [exact Hl |]. split; [exact Hnin |]. exact (Hout _ Hnin).
Defined.
