(* ===== verification/Bridge.v ===== *)
(** * The bridge of the root contract

    [src/src/bridge/]: wrapped assets (mint.rs) under a supply cap and a rolling limit
    (rate_limit.rs), validators whose signatures admit messages from other chains
    (relayer.rs, attestation.rs) and are slashed for contradicting themselves (slashing.rs),
    the escrow of a native token (escrow.rs) and the queue of withdrawals (timelock.rs);
    with the entry points of src/src/lib.rs. The guard of cap_guard.rs is in [BridgeCap].

    [ed25519_verify] of the host, which traps on a wrong signature, is the parameter
    [verify]. A symbol, a key, a hash and a signature are byte strings. The records of the
    source named [BridgeAssetConfig.controller] and so on keep their names, prefixed where
    two records share one. Left out: events and time-to-live. *)

From stdpp Require Import base numbers list gmap.
From Stdlib Require Import ZArith Lia.
From S2P Require Import Prelude Host Token RootErrors BookData Keys.

Open Scope Z_scope.

Definition WINDOW_SECONDS : Z := 24 * 60 * 60.
Definition LARGE_TRANSFER_THRESHOLD : Z := 1000000000.
Definition TIMELOCK_SECONDS : Z := 6 * 60 * 60.

(** [b"stellarflow:bridge:unlock:v1"] *)
Definition bridge_domain : bytes :=
  [115; 116; 101; 108; 108; 97; 114; 102; 108; 111; 119; 58; 98; 114; 105; 100; 103; 101; 58; 117; 110; 108; 111; 99; 107; 58; 118; 49].

Record MintWindowEntry := { me_timestamp : Z; me_amount : Z }.

Section bridge.
Context {H : Host} {T : Tokens H} (verify : bytes -> bytes -> bytes -> bool).

Record bridge_env := { bauth : Address -> bool; now : Z; ledger_sequence : Z; this : Address }.

(** [RateLimitAsset]: [Wrapped(code)] or [Native(token)]. *)
Abbreviation RateLimitAsset := (bytes + Address)%type.
Definition Wrapped (code : bytes) : RateLimitAsset := inl code.
Definition Native (token : Address) : RateLimitAsset := inr token.

Record BridgeAssetConfig := { asset_code : bytes; controller : Address; max_supply : Z; total_supply : Z }.
Record MintRateLimit := { rl_asset : RateLimitAsset; max_rolling_amount : Z; window_seconds : Z }.
Record BridgeEscrowConfig := { native_token : Address; processor : bytes }.
Record RemittanceEscrow := {
  re_id : Z; re_sender : Address; re_recipient : Address; primary_token : Address; primary_amount : Z;
  fee_token : option Address; fee_amount : Z; expires_at : Z; released : bool; refunded : bool }.
Record TokenLock := {
  tl_id : Z; depositor : Address; tl_token : Address; tl_amount : Z; target_chain_id : Z; recipient_address : Address; locked_at_ledger : Z }.
Record UnlockProof := { proof_hash : bytes; source_chain_id : Z; nonce : Z; recipient : Address; amount : Z }.
Record AttestationPayload := { ap_proof_hash : bytes; ap_recipient : Address; ap_amount : Z }.
Record DoubleSignProof := {
  validator : bytes; ds_source_chain_id : Z; ds_nonce : Z; payload_1 : AttestationPayload; signature_1 : bytes;
  payload_2 : AttestationPayload; signature_2 : bytes }.

#[export] Instance AttestationPayload_eq_dec : EqDecision AttestationPayload.
Proof. solve_decision. Defined.

(** ** The storage, by module *)
Record wrapped_store := {
  configs : gmap bytes BridgeAssetConfig;
  balances : gmap (bytes * Address) Z;
  limits : gmap RateLimitAsset MintRateLimit;
  mints : gmap RateLimitAsset (list MintWindowEntry)
}.
Record validator_store := {
  threshold : option Z;
  validators : gset bytes;
  spent_nonces : gset (Z * Z);
  collateral : gmap bytes Z;
  banned : gset bytes;
  total_slashed : option Z
}.
Record escrow_store := {
  escrow_config : option BridgeEscrowConfig;
  next_lock : option Z;
  locks : gmap Z TokenLock;
  vault : gmap Address Z;
  remittances : gmap Z RemittanceEscrow;
  processor_nonce : option bytes;
  remittance_nonce : option Z
}.
Record bridge := { bkeys : keyring; block : bool; wrapped : wrapped_store; vals : validator_store; escrow : escrow_store }.

Definition set_block (s : bridge) (b : bool) : bridge := {| bkeys := bkeys s; block := b; wrapped := wrapped s; vals := vals s; escrow := escrow s |}.
Definition set_wrapped (s : bridge) (w : wrapped_store) : bridge := {| bkeys := bkeys s; block := block s; wrapped := w; vals := vals s; escrow := escrow s |}.
Definition set_vals (s : bridge) (v : validator_store) : bridge := {| bkeys := bkeys s; block := block s; wrapped := wrapped s; vals := v; escrow := escrow s |}.
Definition set_escrow (s : bridge) (e : escrow_store) : bridge := {| bkeys := bkeys s; block := block s; wrapped := wrapped s; vals := vals s; escrow := e |}.

Definition set_configs (w : wrapped_store) (m : gmap bytes BridgeAssetConfig) : wrapped_store :=
  {| configs := m; balances := balances w; limits := limits w; mints := mints w |}.
Definition set_balances (w : wrapped_store) (m : gmap (bytes * Address) Z) : wrapped_store :=
  {| configs := configs w; balances := m; limits := limits w; mints := mints w |}.
Definition set_limits (w : wrapped_store) (m : gmap RateLimitAsset MintRateLimit) : wrapped_store :=
  {| configs := configs w; balances := balances w; limits := m; mints := mints w |}.
Definition set_mints (w : wrapped_store) (m : gmap RateLimitAsset (list MintWindowEntry)) : wrapped_store :=
  {| configs := configs w; balances := balances w; limits := limits w; mints := m |}.

(** [require_protocol_admin] of mint.rs, rate_limit.rs, relayer.rs and escrow.rs *)
Definition require_protocol_admin (i : bridge_env) (s : bridge) (caller : Address) : R unit :=
  d ← load_data (bkeys s);
  _ ← fail_if (negb (bool_decide (admin d = caller))) NotAdmin;
  require_auth (bauth i) caller.

(** An entry point that holds a [ReentrancyGuard] while it runs [body]. *)
Definition guarded {A} (s : bridge) (body : bridge -> R (bridge * A)) : R (bridge * A) :=
  _ ← fail_if (block s) ReentrancyDetected;
  r ← body (set_block s true);
  mret (set_block r.1 false, r.2).

(** ** rate_limit.rs *)
Definition get_limit (s : bridge) (a : RateLimitAsset) : option MintRateLimit := limits (wrapped s) !! a.

Definition set_limit (i : bridge_env) (s : bridge) (caller : Address) (a : RateLimitAsset) (max_rolling : Z) : R (bridge * MintRateLimit) :=
  _ ← require_protocol_admin i s caller;
  _ ← fail_if (max_rolling <=? 0) InvalidBridgeRateLimit;
  let l := {| rl_asset := a; max_rolling_amount := max_rolling; window_seconds := WINDOW_SECONDS |} in
  mret (set_wrapped s (set_limits (wrapped s) (<[a := l]> (limits (wrapped s)))), l).

(** The loop over the entries: those still in the window, and their sum. *)
Fixpoint prune_window (cutoff : Z) (entries : list MintWindowEntry) (pruned : list MintWindowEntry) (total : Z) : R (list MintWindowEntry * Z) :=
  match entries with
  | [] => mret (pruned, total)
  | e :: rest =>
      if cutoff <? me_timestamp e then
        total ← ok_or (checked_add I128 total (me_amount e)) MathOverflow;
        pruned ← vpush pruned e;
        prune_window cutoff rest pruned total
      else prune_window cutoff rest pruned total
  end.

Definition enforce_and_record (i : bridge_env) (s : bridge) (a : RateLimitAsset) (amt fallback_cap : Z) : R bridge :=
  _ ← fail_if (amt <=? 0) BridgeInvalidAmount;
  let cap := match get_limit s a with Some l => max_rolling_amount l | None => fallback_cap end in
  _ ← fail_if (cap <=? 0) InvalidBridgeRateLimit;
  let cutoff := saturating_sub U64 (now i) WINDOW_SECONDS in
  r ← prune_window cutoff (default [] (mints (wrapped s) !! a)) [] 0;
  next_total ← ok_or (checked_add I128 r.2 amt) MathOverflow;
  _ ← fail_if (cap <? next_total) BridgeRateLimitExceeded;
  entries ← vpush r.1 {| me_timestamp := now i; me_amount := amt |};
  mret (set_wrapped s (set_mints (wrapped s) (<[a := entries]> (mints (wrapped s))))).

(** ** mint.rs *)
Definition load_config (s : bridge) (code : bytes) : R BridgeAssetConfig := ok_or (configs (wrapped s) !! code) BridgeAssetNotRegistered.

Definition save_config (s : bridge) (c : BridgeAssetConfig) : bridge :=
  set_wrapped s (set_configs (wrapped s) (<[asset_code c := c]> (configs (wrapped s)))).

Definition get_balance (s : bridge) (code : bytes) (holder : Address) : Z := default 0 (balances (wrapped s) !! (code, holder)).

Definition assert_balance_invariant (s : bridge) (code : bytes) : R unit :=
  c ← load_config s code;
  if (total_supply c <? 0) || (max_supply c <? total_supply c) then Panic else mret tt.

Definition register_wrapped_asset (i : bridge_env) (s : bridge) (caller : Address) (code : bytes) (ctrl : Address) (max : Z) : R (bridge * BridgeAssetConfig) :=
  _ ← require_protocol_admin i s caller;
  _ ← fail_if (max <=? 0) BridgeInvalidMaxSupply;
  _ ← fail_if (bool_decide (is_Some (configs (wrapped s) !! code))) BridgeAssetAlreadyRegistered;
  let c := {| asset_code := code; controller := ctrl; max_supply := max; total_supply := 0 |} in
  mret (save_config s c, c).

Definition set_bridge_controller (i : bridge_env) (s : bridge) (caller : Address) (code : bytes) (new_controller : Address) : R (bridge * BridgeAssetConfig) :=
  _ ← require_protocol_admin i s caller;
  c ← load_config s code;
  let c' := {| asset_code := asset_code c; controller := new_controller; max_supply := max_supply c; total_supply := total_supply c |} in
  mret (save_config s c', c').

(** [config.total_supply = n] *)
Definition with_total (c : BridgeAssetConfig) (n : Z) : BridgeAssetConfig :=
  {| asset_code := asset_code c; controller := controller c; max_supply := max_supply c; total_supply := n |}.

(** [mint_impl] after its guard. *)
Definition mint_body (i : bridge_env) (ctrl : Address) (code : bytes) (to : Address) (amt : Z) (require_controller_auth : bool) (s : bridge) : R (bridge * Z) :=
  _ ← fail_if (amt <=? 0) BridgeInvalidAmount;
  c ← load_config s code;
  _ ← fail_if (negb (bool_decide (controller c = ctrl))) BridgeNotController;
  _ ← (if require_controller_auth then require_auth (bauth i) ctrl else mret tt);
  _ ← assert_balance_invariant s code;
  new_total ← ok_or (checked_add I128 (total_supply c) amt) MathOverflow;
  _ ← fail_if (max_supply c <? new_total) BridgeSupplyCapExceeded;
  s ← enforce_and_record i s (Wrapped code) amt (max_supply c);
  new_balance ← ok_or (checked_add I128 (get_balance s code to) amt) MathOverflow;
  let s := set_wrapped s (set_balances (wrapped s) (<[(code, to) := new_balance]> (balances (wrapped s)))) in
  let s := save_config s (with_total c new_total) in
  _ ← assert_balance_invariant s code;
  mret (s, new_total).

Definition mint_impl (i : bridge_env) (s : bridge) (ctrl : Address) (code : bytes) (to : Address) (amt : Z) (require_controller_auth acquire_guard : bool) : R (bridge * Z) :=
  if acquire_guard then guarded s (mint_body i ctrl code to amt require_controller_auth) else mint_body i ctrl code to amt require_controller_auth s.

Definition mint (i : bridge_env) (s : bridge) (ctrl : Address) (code : bytes) (to : Address) (amt : Z) : R (bridge * Z) :=
  mint_impl i s ctrl code to amt true false.

Definition mint_for_bridge (i : bridge_env) (s : bridge) (ctrl : Address) (code : bytes) (to : Address) (amt : Z) : R (bridge * Z) :=
  mint_impl i s ctrl code to amt false true.

Definition burn (i : bridge_env) (s : bridge) (ctrl : Address) (code : bytes) (from : Address) (amt : Z) : R (bridge * Z) :=
  _ ← fail_if (amt <=? 0) BridgeInvalidAmount;
  c ← load_config s code;
  _ ← fail_if (negb (bool_decide (controller c = ctrl))) BridgeNotController;
  _ ← require_auth (bauth i) ctrl;
  _ ← assert_balance_invariant s code;
  let b := get_balance s code from in
  _ ← fail_if (b <? amt) BridgeInsufficientBalance;
  new_balance ← isub I128 b amt;
  let s := set_wrapped s (set_balances (wrapped s)
             (if new_balance =? 0 then delete (code, from) (balances (wrapped s)) else <[(code, from) := new_balance]> (balances (wrapped s)))) in
  new_total ← ok_or (checked_sub I128 (total_supply c) amt) MathOverflow;
  let s := save_config s (with_total c new_total) in
  _ ← assert_balance_invariant s code;
  mret (s, new_total).

(** lib.rs: both entry points hold the guard. *)
Definition mint_wrapped (i : bridge_env) (s : bridge) (ctrl : Address) (code : bytes) (to : Address) (amt : Z) : R (bridge * Z) :=
  guarded s (fun s => mint i s ctrl code to amt).
Definition burn_wrapped (i : bridge_env) (s : bridge) (ctrl : Address) (code : bytes) (from : Address) (amt : Z) : R (bridge * Z) :=
  guarded s (fun s => burn i s ctrl code from amt).

Definition balance_of (s : bridge) (code : bytes) (holder : Address) : Z := get_balance s code holder.
Definition get_config (s : bridge) (code : bytes) : option BridgeAssetConfig := configs (wrapped s) !! code.

(** ** relayer.rs *)
Definition configure_threshold (i : bridge_env) (s : bridge) (caller : Address) (t : Z) : R bridge :=
  _ ← require_protocol_admin i s caller;
  _ ← fail_if (t =? 0) InvalidProof;
  let v := vals s in
  mret (set_vals s {| threshold := Some t; validators := validators v; spent_nonces := spent_nonces v; collateral := collateral v;
                      banned := banned v; total_slashed := total_slashed v |}).

Definition is_validator (s : bridge) (k : bytes) : bool := bool_decide (k ∈ validators (vals s)).
Definition is_validator_banned (s : bridge) (k : bytes) : bool := bool_decide (k ∈ banned (vals s)).

Definition set_validators (s : bridge) (m : gset bytes) : bridge :=
  let v := vals s in
  set_vals s {| threshold := threshold v; validators := m; spent_nonces := spent_nonces v; collateral := collateral v; banned := banned v;
                total_slashed := total_slashed v |}.

Definition remove_validator_direct (s : bridge) (k : bytes) : bridge := set_validators s (validators (vals s) ∖ {[k]}).

Definition add_validator (i : bridge_env) (s : bridge) (caller : Address) (k : bytes) : R bridge :=
  _ ← require_protocol_admin i s caller;
  _ ← fail_if (is_validator_banned s k) Unauthorized;
  _ ← fail_if (is_validator s k) AlreadyRegistered;
  mret (set_validators s ({[k]} ∪ validators (vals s))).

Definition remove_validator (i : bridge_env) (s : bridge) (caller : Address) (k : bytes) : R bridge :=
  _ ← require_protocol_admin i s caller;
  _ ← fail_if (negb (is_validator s k)) NotRegistered;
  mret (remove_validator_direct s k).

Definition bridge_message_digest (chain n : Z) (ph : bytes) (to : Address) (amt : Z) : bytes :=
  sha256 (bridge_domain ++ to_be_bytes 4 chain ++ to_be_bytes 8 n ++ ph ++ sha256 (to_xdr to) ++ to_be_bytes 16 amt).

(** The loop over the signatures: it stops at the threshold, and a wrong signature traps. *)
Fixpoint count_signatures (s : bridge) (digest : bytes) (t : Z) (signatures : list (bytes * bytes)) (seen : gset bytes) (valid_count : Z) : R Z :=
  match signatures with
  | [] => mret valid_count
  | (k, sg) :: rest =>
      if negb (is_validator s k) then count_signatures s digest t rest seen valid_count
      else if bool_decide (k ∈ seen) then count_signatures s digest t rest seen valid_count
      else if negb (verify k digest sg) then Panic
      else
        n ← iadd U32 valid_count 1;
        if t <=? n then mret n else count_signatures s digest t rest ({[k]} ∪ seen) n
  end.

Definition verify_cross_chain_payload (s : bridge) (chain n : Z) (ph : bytes) (to : Address) (amt : Z) (signatures : list (bytes * bytes)) : R bridge :=
  _ ← fail_if (amt <=? 0) BridgeInvalidAmount;
  let t := default 0 (threshold (vals s)) in
  _ ← fail_if (t =? 0) InvalidProof;
  _ ← fail_if (len signatures <? t) InvalidProof;
  _ ← fail_if (bool_decide ((chain, n) ∈ spent_nonces (vals s))) InvalidProof;
  valid_count ← count_signatures s (bridge_message_digest chain n ph to amt) t signatures ∅ 0;
  _ ← fail_if (valid_count <? t) InvalidProof;
  let v := vals s in
  mret (set_vals s {| threshold := threshold v; validators := validators v; spent_nonces := {[(chain, n)]} ∪ spent_nonces v;
                      collateral := collateral v; banned := banned v; total_slashed := total_slashed v |}).

(** ** attestation.rs *)
Definition validate_lock_and_mint (i : bridge_env) (s : bridge) (code : bytes) (chain n : Z) (ph : bytes) (to : Address) (amt : Z)
    (signatures : list (bytes * bytes)) : R (bridge * Z) :=
  _ ← fail_if (amt <=? 0) BridgeInvalidAmount;
  c ← ok_or (get_config s code) BridgeAssetNotRegistered;
  s ← verify_cross_chain_payload s chain n ph to amt signatures;
  mint_for_bridge i s (controller c) code to amt.

Definition lock_message_digest (chain n : Z) (ph : bytes) (to : Address) (amt : Z) : bytes := bridge_message_digest chain n ph to amt.

(** ** slashing.rs *)
Definition set_collateral (s : bridge) (m : gmap bytes Z) : bridge :=
  let v := vals s in
  set_vals s {| threshold := threshold v; validators := validators v; spent_nonces := spent_nonces v; collateral := m; banned := banned v;
                total_slashed := total_slashed v |}.

Definition get_validator_collateral (s : bridge) (k : bytes) : Z := default 0 (collateral (vals s) !! k).
Definition get_total_slashed_collateral (s : bridge) : Z := default 0 (total_slashed (vals s)).

Definition stake_validator_collateral (s : bridge) (k : bytes) (amt : Z) : R bridge :=
  _ ← fail_if (amt <=? 0) InvalidStakeAmount;
  _ ← fail_if (is_validator_banned s k) Unauthorized;
  _ ← fail_if (negb (is_validator s k)) NotRegistered;
  n ← ok_or (checked_add I128 (get_validator_collateral s k) amt) Overflow;
  mret (set_collateral s (<[k := n]> (collateral (vals s)))).

Definition payload_digest (p : DoubleSignProof) (a : AttestationPayload) : bytes :=
  bridge_message_digest (ds_source_chain_id p) (ds_nonce p) (ap_proof_hash a) (ap_recipient a) (ap_amount a).

Definition process_double_sign_proof (s : bridge) (p : DoubleSignProof) : R (bridge * Z) :=
  let k := validator p in
  _ ← fail_if (is_validator_banned s k) Unauthorized;
  _ ← fail_if (negb (is_validator s k)) NotRegistered;
  _ ← fail_if (bool_decide (payload_1 p = payload_2 p)) InvalidArgument;
  let digest_1 := payload_digest p (payload_1 p) in
  let digest_2 := payload_digest p (payload_2 p) in
  _ ← fail_if (bool_decide (digest_1 = digest_2)) InvalidArgument;
  _ ← (if verify k digest_1 (signature_1 p) then mret tt else Panic);
  _ ← (if verify k digest_2 (signature_2 p) then mret tt else Panic);
  let staked := get_validator_collateral s k in
  let s := set_collateral s (<[k := 0]> (collateral (vals s))) in
  new_total ← ok_or (checked_add I128 (get_total_slashed_collateral s) staked) Overflow;
  let s := remove_validator_direct s k in
  let v := vals s in
  mret (set_vals s {| threshold := threshold v; validators := validators v; spent_nonces := spent_nonces v; collateral := collateral v;
                      banned := {[k]} ∪ banned v; total_slashed := Some new_total |}, staked).
End bridge.
