(* ===== verification/BridgeEscrow.v ===== *)
(** * The bridge of the root contract: escrow and queue

    [src/src/bridge/escrow.rs]: a native token locked for other chains and unlocked by
    validator signatures, and remittances that a processor releases; every operation on the
    vault first asserts that the contract's balance of the token is what it recorded.
    [src/src/bridge/timelock.rs]: a queue of withdrawals and a rotating set of keys. The
    state is that of [Bridge], with the ledger of the tokens beside it. *)

From stdpp Require Import base numbers list gmap.
From Stdlib Require Import ZArith Lia.
From S2P Require Import Prelude Host Token RootErrors BookData Keys Bridge.

Open Scope Z_scope.

Section escrow.
Context {H : Host} {T : Tokens H} (verify : bytes -> bytes -> bytes -> bool).

(** [token.transfer(...)] traps when the token refuses. *)
Definition pay (l : Ledger) (tok from to : Address) (amt : Z) : R Ledger := unwrap (transfer l tok from to amt).

Definition set_escrow_config (s : bridge) (c : BridgeEscrowConfig) : bridge :=
  let e := escrow s in
  set_escrow s {| escrow_config := Some c; next_lock := next_lock e; locks := locks e; vault := vault e; remittances := remittances e;
                  processor_nonce := processor_nonce e; remittance_nonce := remittance_nonce e |}.
Definition set_vault (s : bridge) (m : gmap Address Z) : bridge :=
  let e := escrow s in
  set_escrow s {| escrow_config := escrow_config e; next_lock := next_lock e; locks := locks e; vault := m; remittances := remittances e;
                  processor_nonce := processor_nonce e; remittance_nonce := remittance_nonce e |}.
Definition set_lock (s : bridge) (id : Z) (n : Z) (x : TokenLock) : bridge :=
  let e := escrow s in
  set_escrow s {| escrow_config := escrow_config e; next_lock := Some n; locks := <[id := x]> (locks e); vault := vault e; remittances := remittances e;
                  processor_nonce := processor_nonce e; remittance_nonce := remittance_nonce e |}.
Definition set_remittance (s : bridge) (x : RemittanceEscrow) (n : option Z) : bridge :=
  let e := escrow s in
  set_escrow s {| escrow_config := escrow_config e; next_lock := next_lock e; locks := locks e; vault := vault e;
                  remittances := <[re_id x := x]> (remittances e); processor_nonce := processor_nonce e; remittance_nonce := n |}.

Definition load_escrow_config (s : bridge) : R BridgeEscrowConfig := ok_or (escrow_config (escrow s)) BridgeEscrowNotConfigured.

Definition zero_key : bytes := replicate 32 0.

Definition tracked_balance (s : bridge) (token : Address) : Z := default 0 (vault (escrow s) !! token).

(** [assert_eq!] of the balance the token reports and the one recorded. *)
Definition assert_vault_invariant (i : bridge_env) (l : Ledger) (s : bridge) (c : BridgeEscrowConfig) : R unit :=
  if balance l (native_token c) (this i) =? tracked_balance s (native_token c) then mret tt else Panic.

Definition checked_add_balance (current delta : Z) : R Z := ok_or (checked_add I128 current delta) MathOverflow.
Definition checked_sub_balance (current delta : Z) : R Z :=
  _ ← fail_if (current <? delta) BridgeInsufficientBalance; ok_or (checked_sub I128 current delta) MathOverflow.

Definition configure (i : bridge_env) (s : bridge) (caller native : Address) : R (bridge * BridgeEscrowConfig) :=
  _ ← require_protocol_admin i s caller;
  let c := {| native_token := native; processor := default zero_key (processor_nonce (escrow s)) |} in
  mret (set_escrow_config s c, c).

Definition lock_tokens (i : bridge_env) (l : Ledger) (s : bridge) (who : Address) (amt chain : Z) (to : Address) : R (bridge * Ledger * TokenLock) :=
  _ ← fail_if (amt <=? 0) BridgeInvalidAmount;
  _ ← require_auth (bauth i) who;
  c ← load_escrow_config s;
  _ ← assert_vault_invariant i l s c;
  l ← pay l (native_token c) who (this i) amt;
  new_balance ← checked_add_balance (tracked_balance s (native_token c)) amt;
  let s := set_vault s (<[native_token c := new_balance]> (vault (escrow s))) in
  let id := default 0 (next_lock (escrow s)) in
  next ← iadd U64 id 1;
  let x := {| tl_id := id; depositor := who; tl_token := native_token c; tl_amount := amt; target_chain_id := chain; recipient_address := to;
              locked_at_ledger := ledger_sequence i |} in
  let s := set_lock s id next x in
  _ ← assert_vault_invariant i l s c;
  mret (s, l, x).

Definition unlock_tokens (i : bridge_env) (l : Ledger) (s : bridge) (p : UnlockProof) (signatures : list (bytes * bytes)) : R (bridge * Ledger * Z) :=
  _ ← fail_if (amount p <=? 0) BridgeInvalidAmount;
  s ← verify_cross_chain_payload verify s (source_chain_id p) (nonce p) (proof_hash p) (recipient p) (amount p) signatures;
  c ← load_escrow_config s;
  _ ← assert_vault_invariant i l s c;
  let current := tracked_balance s (native_token c) in
  s ← enforce_and_record i s (Native (native_token c)) (amount p) current;
  new_balance ← checked_sub_balance current (amount p);
  let s := set_vault s (if new_balance =? 0 then delete (native_token c) (vault (escrow s)) else <[native_token c := new_balance]> (vault (escrow s))) in
  l ← pay l (native_token c) (this i) (recipient p) (amount p);
  _ ← assert_vault_invariant i l s c;
  mret (s, l, new_balance).

(** lib.rs: both hold the guard; the ledger is part of what they return. *)
Definition entry_lock_tokens (i : bridge_env) (l : Ledger) (s : bridge) (who : Address) (amt chain : Z) (to : Address) : R (bridge * (Ledger * TokenLock)) :=
  guarded s (fun s => r ← lock_tokens i l s who amt chain to; mret (r.1.1, (r.1.2, r.2))).
Definition entry_unlock_tokens (i : bridge_env) (l : Ledger) (s : bridge) (p : UnlockProof) (signatures : list (bytes * bytes)) : R (bridge * (Ledger * Z)) :=
  guarded s (fun s => r ← unlock_tokens i l s p signatures; mret (r.1.1, (r.1.2, r.2))).

Definition get_lock (s : bridge) (id : Z) : option TokenLock := locks (escrow s) !! id.
Definition vault_balance (s : bridge) : Z := match escrow_config (escrow s) with Some c => tracked_balance s (native_token c) | None => 0 end.
Definition get_escrow_config (s : bridge) : option BridgeEscrowConfig := escrow_config (escrow s).

Definition register_processor (i : bridge_env) (s : bridge) (caller : Address) (k : bytes) : R bridge :=
  _ ← require_protocol_admin i s caller;
  c ← load_escrow_config s;
  mret (set_escrow_config s {| native_token := native_token c; processor := k |}).

(** ** Remittances *)
Definition create_remittance (i : bridge_env) (l : Ledger) (s : bridge) (from to token : Address) (amt : Z) (fee : option Address) (fee_amt expiry : Z) :
    R (bridge * Ledger * RemittanceEscrow) :=
  _ ← fail_if ((amt <=? 0) || (fee_amt <? 0) || (expiry <=? now i)) BridgeInvalidAmount;
  _ ← require_auth (bauth i) from;
  _ ← fail_if (bool_decide (fee = None) && negb (fee_amt =? 0)) BridgeInvalidAmount;
  l ← pay l token from (this i) amt;
  l ← (match fee with Some f => pay l f from (this i) fee_amt | None => mret l end);
  let id := default 0 (remittance_nonce (escrow s)) in
  next ← iadd U64 id 1;
  let x := {| re_id := id; re_sender := from; re_recipient := to; primary_token := token; primary_amount := amt; fee_token := fee; fee_amount := fee_amt;
              expires_at := expiry; released := false; refunded := false |} in
  mret (set_remittance s x (Some next), l, x).

Definition remittance_payload (x : RemittanceEscrow) : bytes :=
  to_be_bytes 8 (re_id x) ++ to_xdr (re_sender x) ++ to_xdr (re_recipient x) ++ to_xdr (primary_token x) ++ to_be_bytes 16 (primary_amount x) ++
  to_be_bytes 16 (fee_amount x) ++ to_be_bytes 8 (expires_at x).

(** [escrow.released = true], [escrow.refunded = true] *)
Definition with_flags (x : RemittanceEscrow) (rel ref : bool) : RemittanceEscrow :=
  {| re_id := re_id x; re_sender := re_sender x; re_recipient := re_recipient x; primary_token := primary_token x; primary_amount := primary_amount x;
     fee_token := fee_token x; fee_amount := fee_amount x; expires_at := expires_at x; released := rel; refunded := ref |}.

(** The two transfers of a release or a refund. *)
Definition pay_out (i : bridge_env) (l : Ledger) (x : RemittanceEscrow) (to : Address) : R Ledger :=
  l ← pay l (primary_token x) (this i) to (primary_amount x);
  match fee_token x with Some f => pay l f (this i) to (fee_amount x) | None => mret l end.

Definition release_remittance (i : bridge_env) (l : Ledger) (s : bridge) (id : Z) (signature : bytes) : R (bridge * Ledger) :=
  x ← ok_or (remittances (escrow s) !! id) NotRegistered;
  _ ← fail_if (released x || refunded x || (expires_at x <? now i)) InvalidProof;
  c ← load_escrow_config s;
  _ ← fail_if (bool_decide (processor c = zero_key)) InvalidProof;
  _ ← (if verify (processor c) (remittance_payload x) signature then mret tt else Panic);
  l ← pay_out i l x (re_recipient x);
  mret (set_remittance s (with_flags x true (refunded x)) (remittance_nonce (escrow s)), l).

Definition cancel_remittance (i : bridge_env) (l : Ledger) (s : bridge) (id : Z) (from : Address) : R (bridge * Ledger) :=
  x ← ok_or (remittances (escrow s) !! id) NotRegistered;
  _ ← require_auth (bauth i) from;
  _ ← fail_if (negb (bool_decide (re_sender x = from)) || released x || refunded x || (now i <=? expires_at x)) InvalidProof;
  l ← pay_out i l x from;
  mret (set_remittance s (with_flags x (released x) true) (remittance_nonce (escrow s)), l).

Definition reclaim_expired (i : bridge_env) (l : Ledger) (s : bridge) (id : Z) (from : Address) : R (bridge * Ledger) := cancel_remittance i l s id from.
Definition get_remittance (s : bridge) (id : Z) : option RemittanceEscrow := remittances (escrow s) !! id.

(** ** timelock.rs *)
Record TimelockedWithdrawal := { receiver : Address; tw_amount : Z; queued_at : Z; execute_after : Z; cancelled : bool }.
Record ValidatorSet := { vs_sequence : Z; vs_keys : list bytes }.
Record timelock := { withdrawals : gmap Address TimelockedWithdrawal; governance : option Address; validator_set : option ValidatorSet }.

Definition set_withdrawals (t : timelock) (m : gmap Address TimelockedWithdrawal) : timelock :=
  {| withdrawals := m; governance := governance t; validator_set := validator_set t |}.

Definition queue_withdrawal (i : bridge_env) (t : timelock) (to : Address) (amt : Z) : R (timelock * TimelockedWithdrawal) :=
  after ← (if LARGE_TRANSFER_THRESHOLD <? amt then iadd U64 (now i) TIMELOCK_SECONDS else mret (now i));
  let w := {| receiver := to; tw_amount := amt; queued_at := now i; execute_after := after; cancelled := false |} in
  mret (set_withdrawals t (<[to := w]> (withdrawals t)), w).

Definition cancel_withdrawal (t : timelock) (to : Address) : R timelock :=
  w ← ok_or (withdrawals t !! to) NoPendingUpgrade;
  mret (set_withdrawals t (<[to := {| receiver := receiver w; tw_amount := tw_amount w; queued_at := queued_at w; execute_after := execute_after w;
                                      cancelled := true |}]> (withdrawals t))).

Definition execute_withdrawal (i : bridge_env) (t : timelock) (to : Address) : R (timelock * TimelockedWithdrawal) :=
  w ← ok_or (withdrawals t !! to) NoPendingUpgrade;
  _ ← fail_if (cancelled w) NoPendingUpgrade;
  _ ← fail_if (now i <? execute_after w) UpgradeTimelockNotSatisfied;
  mret (set_withdrawals t (delete to (withdrawals t)), w).

Definition initialize_governance (t : timelock) (g : Address) : R timelock :=
  _ ← fail_if (bool_decide (is_Some (governance t))) NoPendingUpgrade;
  mret {| withdrawals := withdrawals t; governance := Some g; validator_set := validator_set t |}.

Definition get_governance (t : timelock) : R Address := ok_or (governance t) NoPendingUpgrade.

Definition initialize_validator_set (t : timelock) (keys : list bytes) : R (timelock * ValidatorSet) :=
  _ ← fail_if (bool_decide (is_Some (validator_set t))) NoPendingUpgrade;
  let v := {| vs_sequence := 0; vs_keys := keys |} in
  mret ({| withdrawals := withdrawals t; governance := governance t; validator_set := Some v |}, v).

Definition rotate_validators (i : bridge_env) (t : timelock) (caller : Address) (keys : list bytes) : R (timelock * ValidatorSet) :=
  g ← get_governance t;
  _ ← fail_if (negb (bool_decide (caller = g))) NoPendingUpgrade;
  _ ← require_auth (bauth i) caller;
  v ← ok_or (validator_set t) NoPendingUpgrade;
  n ← iadd U64 (vs_sequence v) 1;
  let v' := {| vs_sequence := n; vs_keys := keys |} in
  mret ({| withdrawals := withdrawals t; governance := governance t; validator_set := Some v' |}, v').
End escrow.
