(* ===== verification/BridgeCap.v ===== *)
(** * The supply cap of wrapped assets

    [src/src/bridge/cap_guard.rs]: the supply of a wrapped asset, mirrored, against the
    collateral locked for it. The admin is that of [Keys]. Events are left out; they read
    nothing that decides. *)

From stdpp Require Import base numbers list gmap.
From Stdlib Require Import ZArith Lia.
From S2P Require Import Prelude Host RootErrors BookData Keys.

Open Scope Z_scope.

Definition BPS_DENOMINATOR : Z := 10000.
Definition DEFAULT_CAPACITY_BPS : Z := 10000.
Definition MIN_ALLOWED_CAPACITY_BPS : Z := 0.
Definition MAX_ALLOWED_CAPACITY_BPS : Z := BPS_DENOMINATOR.

(** [(MIN..=MAX).contains(&capacity_bps)] *)
Definition capacity_in_range (c : Z) : bool := (MIN_ALLOWED_CAPACITY_BPS <=? c) && (c <=? MAX_ALLOWED_CAPACITY_BPS).

(** ** Arithmetic *)
Definition allowed_supply (locked capacity_bps : Z) : R Z :=
  _ ← fail_if (locked <? 0) BridgeCapInvalidCollateral;
  _ ← fail_if (negb (capacity_in_range capacity_bps)) BridgeCapInvalidConfig;
  if (locked =? 0) || (capacity_bps =? 0) then mret 0
  else
    whole ← idiv I128 locked BPS_DENOMINATOR;
    remainder ← irem I128 locked BPS_DENOMINATOR;
    a ← imul I128 whole capacity_bps;
    b ← imul I128 remainder capacity_bps;
    c ← idiv I128 b BPS_DENOMINATOR;
    iadd I128 a c.

Definition utilisation_bps_of (supply allowed : Z) : R Z :=
  if (allowed <=? 0) || (supply <=? 0) then mret 0
  else
    whole ← idiv I128 supply allowed;
    limit ← idiv I128 (imax I64) BPS_DENOMINATOR;
    if limit <? whole then mret (imax I64)
    else
      bps ← imul I128 whole BPS_DENOMINATOR;
      remainder ← irem I128 supply allowed;
      bps ← (if 0 <? remainder then
               q ← idiv I128 allowed (imax I64);
               shrink ← iadd I128 q 1;
               r ← idiv I128 remainder shrink;
               r ← imul I128 r BPS_DENOMINATOR;
               d ← idiv I128 allowed shrink;
               x ← idiv I128 r d;
               iadd I128 bps x
             else mret bps);
      mret (if imax I64 <? bps then imax I64 else cast I64 bps).


Section cap.
Context {H : Host}.

Record BridgeCapConfig := { cc_asset_code : bytes; verifier : Address; capacity_bps : Z }.
Record BridgeCapStatus := {
  cs_asset_code : bytes; cs_wrapped_supply : Z; cs_locked_collateral : Z; cs_allowed_supply : Z; headroom : Z; cs_capacity_bps : Z;
  at_cap : bool; utilisation_bps : Z }.

(** One map per kind of [BridgeCapKey]. *)
Record cap_store := { cap_keys : keyring; cap_configs : gmap bytes BridgeCapConfig; supplies : gmap bytes Z; collaterals : gmap bytes Z }.


(** ** Views *)
Definition get_cap_config (s : cap_store) (a : bytes) : option BridgeCapConfig := cap_configs s !! a.
Definition require_cap_config (s : cap_store) (a : bytes) : R BridgeCapConfig := ok_or (get_cap_config s a) BridgeEscrowNotConfigured.
Definition wrapped_supply (s : cap_store) (a : bytes) : Z := default 0 (supplies s !! a).
Definition locked_collateral (s : cap_store) (a : bytes) : Z := default 0 (collaterals s !! a).
Definition mint_ceiling (s : cap_store) (a : bytes) : R Z := c ← require_cap_config s a; allowed_supply (locked_collateral s a) (capacity_bps c).
Definition mint_headroom (s : cap_store) (a : bytes) : R Z := ceiling ← mint_ceiling s a; d ← isub I128 ceiling (wrapped_supply s a); mret (Z.max d 0).

Definition bridge_cap_status (s : cap_store) (a : bytes) : R BridgeCapStatus :=
  c ← require_cap_config s a;
  let supply := wrapped_supply s a in
  let locked := locked_collateral s a in
  allowed ← allowed_supply locked (capacity_bps c);
  d ← isub I128 allowed supply;
  u ← utilisation_bps_of supply allowed;
  mret {| cs_asset_code := a; cs_wrapped_supply := supply; cs_locked_collateral := locked; cs_allowed_supply := allowed; headroom := Z.max d 0;
          cs_capacity_bps := capacity_bps c; at_cap := allowed <=? supply; utilisation_bps := u |}.








End cap.





(** ** Histories *)
Section backing.
Context {H : Host}.
Implicit Types s : cap_store.










End backing.




