(* ===== verification/BridgeTheorems.v ===== *)
(** * What the bridge guarantees

    Over every history of the operations of [Bridge] and [BridgeEscrow]: the supply of a
    wrapped asset is the sum of what its holders have and stays under its cap; the amounts
    of one asset that pass in a day stay under its limit; a message of another chain is
    accepted once, on the signatures of enough validators; a validator is slashed only for
    two signed messages. And one thing it does not guarantee: a donated token stops the
    escrow. *)

From stdpp Require Import base numbers list gmap.
From Stdlib Require Import ZArith Lia.
From S2P Require Import Prelude Host Token RootErrors BookData Keys Bridge BridgeEscrow.

Open Scope Z_scope.

(** Split a run that returned [Ok], lets expanded. *)
Ltac inv_op H := cbv zeta in H; inv_ok H.

Section bridge_steps.
Context {H : Host} {T : Tokens H} (verify : bytes -> bytes -> bytes -> bool).
Implicit Types (s : bridge) (i : bridge_env) (a : bytes + Address).

(** What passed: the asset and the amount of a recorded mint or unlock. *)
Abbreviation passed := (option ((bytes + Address) * Z)).

(** One call that succeeded, and what it let pass. The entry points of lib.rs, and the
    functions of the modules that no entry point reaches; [step_keys] stands for the
    operations on the keyring, which [Keys] models. *)
Inductive bridge_step i s : bridge -> passed -> Prop :=
  | step_mint c code to x s' n : mint_wrapped i s c code to x = Ok (s', n) -> bridge_step i s s' (Some (Wrapped code, x))
  | step_attest code ch n ph to x sg s' r : validate_lock_and_mint verify i s code ch n ph to x sg = Ok (s', r) -> bridge_step i s s' (Some (Wrapped code, x))
  | step_unlock l p sg c s' r : entry_unlock_tokens verify i l s p sg = Ok (s', r) -> escrow_config (escrow s) = Some c -> bridge_step i s s' (Some (Native (native_token c), amount p))
  | step_burn c code from x s' n : burn_wrapped i s c code from x = Ok (s', n) -> bridge_step i s s' None
  | step_register who code c m s' r : register_wrapped_asset i s who code c m = Ok (s', r) -> bridge_step i s s' None
  | step_controller who code c s' r : set_bridge_controller i s who code c = Ok (s', r) -> bridge_step i s s' None
  | step_limit who a m s' r : set_limit i s who a m = Ok (s', r) -> bridge_step i s s' None
  | step_threshold who t s' : configure_threshold i s who t = Ok s' -> bridge_step i s s' None
  | step_add who k s' : add_validator i s who k = Ok s' -> bridge_step i s s' None
  | step_remove who k s' : remove_validator i s who k = Ok s' -> bridge_step i s s' None
  | step_stake k x s' : stake_validator_collateral s k x = Ok s' -> bridge_step i s s' None
  | step_slash p s' r : process_double_sign_proof verify s p = Ok (s', r) -> bridge_step i s s' None
  | step_configure who tok s' r : configure i s who tok = Ok (s', r) -> bridge_step i s s' None
  | step_processor who k s' : register_processor i s who k = Ok s' -> bridge_step i s s' None
  | step_lock l who x ch to s' r : entry_lock_tokens i l s who x ch to = Ok (s', r) -> bridge_step i s s' None
  | step_create l from to tok x fee fx e s' l' r : create_remittance i l s from to tok x fee fx e = Ok (s', l', r) -> bridge_step i s s' None
  | step_release l id sg s' l' : release_remittance verify i l s id sg = Ok (s', l') -> bridge_step i s s' None
  | step_reclaim l id from s' l' : reclaim_expired i l s id from = Ok (s', l') -> bridge_step i s s' None
  | step_keys k : bridge_step i s {| bkeys := k; block := block s; wrapped := wrapped s; vals := vals s; escrow := escrow s |} None.

Definition log_of (i : bridge_env) (ev : passed) (log : bytes + Address -> list MintWindowEntry) : bytes + Address -> list MintWindowEntry :=
  match ev with
  | Some (b, x) => fun a => if decide (a = b) then log a ++ [{| me_timestamp := now i; me_amount := x |}] else log a
  | None => log
  end.

(** Histories from a contract without assets, the clock never going back; with everything
    that passed, in order. *)
Inductive bridge_history : Z -> (bytes + Address -> list MintWindowEntry) -> bridge -> Prop :=
  | history_start t k v e : 0 < t ->
      bridge_history t (fun _ => []) {| bkeys := k; block := false; wrapped := {| configs := ∅; balances := ∅; limits := ∅; mints := ∅ |}; vals := v; escrow := e |}
  | history_next t log s i s' ev : bridge_history t log s -> t <= now i -> bridge_step i s s' ev -> bridge_history (now i) (log_of i ev log) s'.

(** ** The rolling window *)
Definition fresh_since (cutoff : Z) (l : list MintWindowEntry) : list MintWindowEntry := List.filter (fun e => cutoff <? me_timestamp e) l.
Definition amounts (l : list MintWindowEntry) : Z := zsum (me_amount <$> l).
Definition cutoff_of (i : bridge_env) : Z := saturating_sub U64 (now i) WINDOW_SECONDS.
Definition entries_of (w : wrapped_store) a : list MintWindowEntry := default [] (mints w !! a).
Definition cap_in_force (w : wrapped_store) a (fallback : Z) : Z := match limits w !! a with Some l => max_rolling_amount l | None => fallback end.
Definition with_entries (w : wrapped_store) a (l : list MintWindowEntry) : wrapped_store := set_mints w (<[a := l]> (mints w)).

(** The stored entries of [a] when [x] of it passes. *)
Definition next_entries i (w : wrapped_store) a (x : Z) : list MintWindowEntry :=
  fresh_since (cutoff_of i) (entries_of w a) ++ [{| me_timestamp := now i; me_amount := x |}].

Lemma amounts_cons (e : MintWindowEntry) (l : list MintWindowEntry) : amounts (e :: l) = me_amount e + amounts l.
Proof. done. Qed.

Lemma prune_window_Ok (cutoff : Z) (l p : list MintWindowEntry) (n : Z) (r : list MintWindowEntry * Z) :
  prune_window cutoff l p n = Ok r -> r = (p ++ fresh_since cutoff l, n + amounts (fresh_since cutoff l)).
Proof.
  revert p n. induction l as [|e l IH]; intros p n; cbn [prune_window fresh_since List.filter].
  - intros [= <-]. by rewrite app_nil_r, Z.add_0_r.
  - destruct (cutoff <? me_timestamp e); [| by apply IH]. intros Hr. apply bind_Ok in Hr as (m & [-> _]%ok_or_Ok%chk_Some & Hr).
    apply bind_Ok in Hr as (p' & [_ ->]%vpush_Ok & Hr). apply IH in Hr as ->. rewrite <- app_assoc. cbn [app]. rewrite amounts_cons, Z.add_assoc. done.
Qed.

Lemma enforce_Ok i s a (x fb : Z) s' : enforce_and_record i s a x fb = Ok s' ->
  0 < x /\ amounts (fresh_since (cutoff_of i) (entries_of (wrapped s) a)) + x <= cap_in_force (wrapped s) a fb /\
  s' = set_wrapped s (with_entries (wrapped s) a (next_entries i (wrapped s) a x)).
Proof.
  intros Hr. apply bind_Ok in Hr as (u1 & Hx%fail_if_Ok%Z.leb_gt & Hr). apply bind_Ok in Hr as (u2 & _ & Hr).
  apply bind_Ok in Hr as (r & Hp%prune_window_Ok & Hr). subst r. cbn [app fst snd] in Hr. apply bind_Ok in Hr as (m & [-> _]%ok_or_Ok%chk_Some & Hr).
  apply bind_Ok in Hr as (u3 & Hc%fail_if_Ok%Z.ltb_ge & Hr). apply bind_Ok in Hr as (es & [_ ->]%vpush_Ok & [= <-]).
  split; [done |]. split; [exact Hc | done].
Qed.

(** ** What a step did to the wrapped assets *)
Definition mint_into i (w : wrapped_store) (c : BridgeAssetConfig) (code : bytes) (to : Address) (x : Z) : wrapped_store :=
  {| configs := <[asset_code c := with_total c (total_supply c + x)]> (configs w);
     balances := <[(code, to) := default 0 (balances w !! (code, to)) + x]> (balances w);
     limits := limits w; mints := mints (with_entries w (Wrapped code) (next_entries i w (Wrapped code) x)) |}.

Definition burn_from (w : wrapped_store) (c : BridgeAssetConfig) (code : bytes) (from : Address) (x : Z) : wrapped_store :=
  let n := default 0 (balances w !! (code, from)) - x in
  {| configs := <[asset_code c := with_total c (total_supply c - x)]> (configs w);
     balances := if n =? 0 then delete (code, from) (balances w) else <[(code, from) := n]> (balances w);
     limits := limits w; mints := mints w |}.

Inductive wrapped_effect i (vb : Address -> Z) (w : wrapped_store) : wrapped_store -> passed -> Prop :=
  | eff_keep : wrapped_effect i vb w w None
  | eff_limit m : wrapped_effect i vb w (set_limits w m) None
  | eff_register code ctrl m : 0 < m -> configs w !! code = None ->
      wrapped_effect i vb w (set_configs w (<[code := {| asset_code := code; controller := ctrl; max_supply := m; total_supply := 0 |}]> (configs w))) None
  | eff_controller code ctrl c : configs w !! code = Some c ->
      wrapped_effect i vb w (set_configs w (<[asset_code c := {| asset_code := asset_code c; controller := ctrl; max_supply := max_supply c; total_supply := total_supply c |}]> (configs w))) None
  | eff_burn code from x c : 0 < x <= default 0 (balances w !! (code, from)) -> configs w !! code = Some c -> wrapped_effect i vb w (burn_from w c code from x) None
  | eff_mint code to x c : 0 < x -> configs w !! code = Some c -> 0 <= total_supply c -> total_supply c + x <= max_supply c ->
      amounts (fresh_since (cutoff_of i) (entries_of w (Wrapped code))) + x <= cap_in_force w (Wrapped code) (max_supply c) ->
      wrapped_effect i vb w (mint_into i w c code to x) (Some (Wrapped code, x))
  | eff_unlock tok x : 0 < x -> amounts (fresh_since (cutoff_of i) (entries_of w (Native tok))) + x <= cap_in_force w (Native tok) (vb tok) ->
      wrapped_effect i vb w (with_entries w (Native tok) (next_entries i w (Native tok) x)) (Some (Native tok, x)).

Lemma mint_body_Ok i s (vb : Address -> Z) (ctrl : Address) (code : bytes) (to : Address) (x : Z) (auth : bool) s' (n : Z) :
  mint_body i ctrl code to x auth s = Ok (s', n) -> wrapped_effect i vb (wrapped s) (wrapped s') (Some (Wrapped code, x)).
Proof.
  intros Hr. apply bind_Ok in Hr as (u1 & _ & Hr). apply bind_Ok in Hr as (c & Hc%ok_or_Ok & Hr). apply bind_Ok in Hr as (u2 & _ & Hr).
  apply bind_Ok in Hr as (u3 & _ & Hr). apply bind_Ok in Hr as (u4 & Hinv & Hr). apply bind_Ok in Hr as (m & [-> _]%ok_or_Ok%chk_Some & Hr).
  apply bind_Ok in Hr as (u5 & Hmax%fail_if_Ok%Z.ltb_ge & Hr). apply bind_Ok in Hr as (s1 & (Hx & Hcap & ->)%enforce_Ok & Hr).
  apply bind_Ok in Hr as (nb & [-> _]%ok_or_Ok%chk_Some & Hr). apply bind_Ok in Hr as (u6 & _ & [= <- <-]). apply (eff_mint i vb (wrapped s) code to x c); try done.
  unfold assert_balance_invariant, load_config in Hinv. rewrite Hc in Hinv. cbn [ok_or] in Hinv. rewrite bind_ret in Hinv. destruct (Z.ltb_spec (total_supply c) 0); [done | lia].
Qed.

Lemma burn_Ok i s (vb : Address -> Z) (ctrl : Address) (code : bytes) (from : Address) (x : Z) s' (n : Z) :
  burn i s ctrl code from x = Ok (s', n) -> wrapped_effect i vb (wrapped s) (wrapped s') None.
Proof.
  intros Hr. apply bind_Ok in Hr as (u1 & Hx%fail_if_Ok%Z.leb_gt & Hr). apply bind_Ok in Hr as (c & Hc%ok_or_Ok & Hr). apply bind_Ok in Hr as (u2 & _ & Hr).
  apply bind_Ok in Hr as (u3 & _ & Hr). apply bind_Ok in Hr as (u4 & _ & Hr). apply bind_Ok in Hr as (u5 & Hb%fail_if_Ok%Z.ltb_ge & Hr).
  apply bind_Ok in Hr as (nb & [-> _]%iop_Ok & Hr). apply bind_Ok in Hr as (m & [-> _]%ok_or_Ok%chk_Some & Hr). apply bind_Ok in Hr as (u6 & Hinv & [= <- <-]).
  by apply (eff_burn i vb (wrapped s) code from x c).
Qed.

Lemma guarded_Ok {A} s (body : bridge -> R (bridge * A)) s' (x : A) : guarded s body = Ok (s', x) ->
  block s = false /\ exists s1, body (set_block s true) = Ok (s1, x) /\ s' = set_block s1 false.
Proof. intros Hr. apply bind_Ok in Hr as (u1 & Hb%fail_if_Ok & Hr). apply bind_Ok in Hr as ([s1 y] & Hr & [= <- <-]). split; [done |]. by exists s1. Qed.

Lemma verify_wrapped s (ch n : Z) (ph : bytes) (to : Address) (x : Z) (sg : list (bytes * bytes)) s' :
  verify_cross_chain_payload verify s ch n ph to x sg = Ok s' -> wrapped s' = wrapped s /\ escrow s' = escrow s /\ block s' = block s.
Proof. intros Hr. unfold verify_cross_chain_payload in Hr. inv_op Hr. by repeat split. Qed.

Lemma unlock_Ok i (l : Ledger) s (p : UnlockProof) (sg : list (bytes * bytes)) (c : BridgeEscrowConfig) r :
  unlock_tokens verify i l s p sg = Ok r -> escrow_config (escrow s) = Some c ->
  wrapped_effect i (tracked_balance s) (wrapped s) (wrapped r.1.1) (Some (Native (native_token c), amount p)).
Proof.
  intros Hr Hc. apply bind_Ok in Hr as (u1 & _ & Hr). apply bind_Ok in Hr as (s1 & (Hw & He & _)%verify_wrapped & Hr). unfold load_escrow_config, tracked_balance in Hr.
  rewrite He, Hc in Hr. cbn [ok_or] in Hr. rewrite bind_ret in Hr. apply bind_Ok in Hr as (u2 & _ & Hr). apply bind_Ok in Hr as (s2 & (Hx & Hcap & ->)%enforce_Ok & Hr).
  apply bind_Ok in Hr as (nb & _ & Hr). apply bind_Ok in Hr as (l' & _ & Hr). apply bind_Ok in Hr as (u3 & _ & [= <-]). rewrite Hw in Hcap. cbn. rewrite Hw.
  by apply (eff_unlock i _ (wrapped s)).
Qed.

Lemma step_effect i s s' (ev : passed) : bridge_step i s s' ev -> wrapped_effect i (tracked_balance s) (wrapped s) (wrapped s') ev.
Proof.
  intros Hstep. assert (Hkeep : wrapped s' = wrapped s -> ev = None -> wrapped_effect i (tracked_balance s) (wrapped s) (wrapped s') ev) by (intros -> ->; constructor).
  inversion Hstep as [c code to x ? n Hr | code ch n ph to x sg ? r Hr | l p sg c ? r Hr Hcfg | c code from x ? n Hr | who code c m ? r Hr | who code c ? r Hr | who a m ? r Hr
    | who t ? Hr | who k ? Hr | who k ? Hr | k x ? Hr | p ? r Hr | who tok ? r Hr | who k ? Hr | l who x ch to ? r Hr | l from to tok x fee fx e ? l' r Hr
    | l id sg ? l' Hr | l id from ? l' Hr | k]; subst.
  - apply guarded_Ok in Hr as (_ & s1 & Hr & ->). by apply (mint_body_Ok i (set_block s true) (tracked_balance s)) in Hr.
  - apply bind_Ok in Hr as (u1 & _ & Hr). apply bind_Ok in Hr as (c & _ & Hr). apply bind_Ok in Hr as (s1 & (Hw & _)%verify_wrapped & Hr). rewrite <- Hw.
    apply guarded_Ok in Hr as (_ & s2 & Hr & ->). by apply (mint_body_Ok i (set_block s1 true) (tracked_balance s)) in Hr.
  - apply guarded_Ok in Hr as (_ & s1 & Hr & ->). apply bind_Ok in Hr as (r1 & Hr & Hq). inv_ok Hq. by apply (unlock_Ok i l (set_block s true) p sg c).
  - apply guarded_Ok in Hr as (_ & s1 & Hr & ->). by apply (burn_Ok i (set_block s true) (tracked_balance s)) in Hr.
  - apply bind_Ok in Hr as (u1 & _ & Hr). apply bind_Ok in Hr as (u2 & Hm%fail_if_Ok%Z.leb_gt & Hr). apply bind_Ok in Hr as (u3 & Hn%fail_if_Ok%bool_decide_eq_false & [= <- _]).
    apply (eff_register i _ (wrapped s)); [done | by apply eq_None_not_Some].
  - apply bind_Ok in Hr as (u1 & _ & Hr). apply bind_Ok in Hr as (c0 & Hc%ok_or_Ok & [= <- _]). exact (eff_controller i _ (wrapped s) code c c0 Hc).
  - apply bind_Ok in Hr as (u1 & _ & Hr). apply bind_Ok in Hr as (u2 & _ & [= <- _]). apply (eff_limit i _ (wrapped s)).
  - unfold configure_threshold in Hr. inv_op Hr. by apply Hkeep.
  - unfold add_validator in Hr. inv_op Hr. by apply Hkeep.
  - unfold remove_validator in Hr. inv_op Hr. by apply Hkeep.
  - unfold stake_validator_collateral in Hr. inv_op Hr. by apply Hkeep.
  - unfold process_double_sign_proof in Hr. inv_op Hr. by apply Hkeep.
  - unfold configure in Hr. inv_op Hr. by apply Hkeep.
  - unfold register_processor in Hr. inv_op Hr. by apply Hkeep.
  - apply guarded_Ok in Hr as (_ & s1 & Hr & ->). unfold lock_tokens in Hr. inv_op Hr. by apply Hkeep.
  - unfold create_remittance in Hr. inv_op Hr. by apply Hkeep.
  - unfold release_remittance in Hr. inv_op Hr. by apply Hkeep.
  - unfold reclaim_expired, cancel_remittance in Hr. inv_op Hr. by apply Hkeep.
  - by apply Hkeep.
Qed.

(** ** The books *)
Definition of_code (code : bytes) (k : bytes * Address) (x : Z) : Z := if decide (k.1 = code) then x else 0.

Record books_ok (w : wrapped_store) : Prop := {
  bo_pos : forall k y, balances w !! k = Some y -> 0 <= y;
  bo_code : forall code c, configs w !! code = Some c -> asset_code c = code /\ 0 <= total_supply c <= max_supply c;
  bo_sum : forall code, msum (of_code code) (balances w) = match configs w !! code with Some c => total_supply c | None => 0 end
}.

Lemma books_write (w w' : wrapped_store) (code : bytes) (who : Address) (c c' : BridgeAssetConfig) (y : Z) :
  books_ok w -> configs w !! code = Some c -> configs w' = <[code := c']> (configs w) -> asset_code c' = code -> max_supply c' = max_supply c ->
  0 <= y -> total_supply c' = total_supply c - default 0 (balances w !! (code, who)) + y -> total_supply c' <= max_supply c ->
  (forall f, f (code, who) 0 = 0 -> msum f (balances w') = msum f (balances w) - term f (balances w) (code, who) + f (code, who) y) ->
  (forall k z, balances w' !! k = Some z -> z = y \/ balances w !! k = Some z) -> books_ok w'.
Proof.
  intros Hok Hc Hcs Hcode Hmax Hy Htot Hle Hsum Hbal. destruct (bo_code w Hok code c Hc) as [_ Hb].
  assert (Hterm : forall d, term (of_code d) (balances w) (code, who) = if decide (code = d) then default 0 (balances w !! (code, who)) else 0).
  { intros d. unfold term, of_code. cbn. destruct (balances w !! (code, who)); cbn; by case_decide. }
  constructor.
  - intros k z [-> | Hk]%Hbal; [done | by apply (bo_pos w Hok k)].
  - intros d x. rewrite Hcs. destruct (decide (d = code)) as [-> | Hn]; [rewrite lookup_insert_eq; intros [= <-] | rewrite lookup_insert_ne by done; apply (bo_code w Hok)].
    split; [done |]. split; [| lia]. pose proof (msum_term_le (of_code code) (balances w) (code, who)) as Hge. rewrite Hterm, decide_True in Hge by done.
    rewrite (bo_sum w Hok), Hc in Hge. enough (default 0 (balances w !! (code, who)) <= total_supply c) by lia. apply Hge.
    intros k z Hz%(bo_pos w Hok). unfold of_code. by case_decide.
  - intros d. rewrite Hsum, Hterm by (unfold of_code; by case_decide). rewrite (bo_sum w Hok), Hcs. unfold of_code at 1. cbn [fst].
    destruct (decide (code = d)) as [<- | Hn]; [rewrite lookup_insert_eq, Hc; lia | rewrite lookup_insert_ne by done; lia].
Qed.

Lemma effect_books i vb (w w' : wrapped_store) (ev : passed) : wrapped_effect i vb w w' ev -> books_ok w -> books_ok w'.
Proof.
  intros Heff Hok. destruct Heff as [| m | code ctrl m Hm Hn | code ctrl c Hc | code from x c Hx Hc | code to x c Hx Hc H0 Hle _ | tok x _ _].
  - done.
  - destruct Hok. by constructor.
  - destruct Hok as [H1 H2 H3]. constructor; [exact H1 | |].
    + intros d c. cbn. destruct (decide (d = code)) as [-> | Hd]; [rewrite lookup_insert_eq; intros [= <-]; cbn; split; [done | lia] | rewrite lookup_insert_ne by done; apply H2].
    + intros d. cbn. rewrite H3. destruct (decide (d = code)) as [-> | Hd]; [by rewrite lookup_insert_eq, Hn | by rewrite lookup_insert_ne].
  - destruct Hok as [H1 H2 H3]. destruct (H2 code c Hc) as [Hcode Hb]. rewrite Hcode. constructor; [exact H1 | |].
    + intros d c0. cbn. destruct (decide (d = code)) as [-> | Hd]; [rewrite lookup_insert_eq; by intros [= <-] | rewrite lookup_insert_ne by done; apply H2].
    + intros d. cbn. rewrite H3. destruct (decide (d = code)) as [-> | Hd]; [by rewrite lookup_insert_eq, Hc | by rewrite lookup_insert_ne].
  - destruct (bo_code w Hok code c Hc) as [Hcode Hb]. set (n := default 0 (balances w !! (code, from)) - x).
    apply (books_write w (burn_from w c code from x) code from c (with_total c (total_supply c - x)) n); try done; cbn [with_total total_supply burn_from balances configs]; fold n.
    + by rewrite Hcode.
    + lia.
    + lia.
    + lia.
    + intros f Hf. destruct (Z.eqb_spec n 0) as [-> | _]; [rewrite msum_delete; lia | apply msum_insert].
    + intros k z. destruct (n =? 0).
      * intros [_ Hk]%lookup_delete_Some. by right.
      * intros [[_ <-] | [_ Hk]]%lookup_insert_Some; [by left | by right].
  - destruct (bo_code w Hok code c Hc) as [Hcode Hb]. set (n := default 0 (balances w !! (code, to)) + x).
    assert (Hn : 0 <= default 0 (balances w !! (code, to))) by (destruct (balances w !! (code, to)) as [z |] eqn:E; [by apply (bo_pos w Hok) in E | done]).
    apply (books_write w (mint_into i w c code to x) code to c (with_total c (total_supply c + x)) n); try done; cbn [with_total total_supply mint_into balances configs]; fold n.
    + by rewrite Hcode.
    + lia.
    + lia.
    + intros f _. apply msum_insert.
    + intros k z [[_ <-] | [_ Hk]]%lookup_insert_Some; [by left | by right].
  - destruct Hok. by constructor.
Qed.

Lemma history_books t log s : bridge_history t log s -> books_ok (wrapped s).
Proof.
  induction 1 as [t k v e Ht | t log s i s' ev _ IH _ Hstep]; [| by apply (effect_books _ _ _ _ _ (step_effect _ _ _ _ Hstep))].
  constructor; cbn; [intros k' y Hk; by rewrite lookup_empty in Hk | intros code c Hk; by rewrite lookup_empty in Hk | intros code; by rewrite msum_empty, lookup_empty].
Qed.

(** C24: In every history of the bridge, the recorded supply of a wrapped asset is exactly what
    its holders have together and stays between zero and its maximum, so that no holder
    has more than the supply. *)
Theorem wrapped_supply_exact t log s (code : bytes) (c : BridgeAssetConfig) (Hs : bridge_history t log s) (Hc : get_config s code = Some c) :
  total_supply c = msum (fun k x => if decide (k.1 = code) then x else 0) (balances (wrapped s)) /\
  0 <= total_supply c <= max_supply c /\ forall who, 0 <= balance_of s code who <= total_supply c.
Proof.
  pose proof (history_books t log s Hs) as Hok. pose proof (bo_sum _ Hok code) as Hsum. unfold get_config in Hc. rewrite Hc in Hsum. split; [done |].
  split; [apply (bo_code _ Hok code c Hc) |]. intros who. unfold balance_of, get_balance. rewrite <- Hsum.
  pose proof (msum_term_le (of_code code) (balances (wrapped s)) (code, who)) as Hle. unfold term in Hle.
  assert (Hf : forall k x, balances (wrapped s) !! k = Some x -> 0 <= of_code code k x) by (intros k x Hx%(bo_pos _ Hok); unfold of_code; by case_decide).
  specialize (Hle Hf). destruct (balances (wrapped s) !! (code, who)) as [x |] eqn:E; cbn [default].
  - unfold of_code at 1 in Hle. rewrite decide_True in Hle by done. split; [by apply (bo_pos _ Hok) in E | exact Hle].
  - split; [done | by apply msum_nonneg].
Qed.

(** ** The log *)
Lemma fresh_fresh (c1 c2 : Z) (l : list MintWindowEntry) : c1 <= c2 -> fresh_since c2 (fresh_since c1 l) = fresh_since c2 l.
Proof.
  intros Hc. induction l as [| e l IH]; [done |]. unfold fresh_since in *. cbn [List.filter]. destruct (Z.ltb_spec c1 (me_timestamp e)); cbn [List.filter].
  - by rewrite IH.
  - rewrite IH. by destruct (Z.ltb_spec c2 (me_timestamp e)); [lia |].
Qed.

Lemma fresh_snoc (c : Z) (l : list MintWindowEntry) (e : MintWindowEntry) : c < me_timestamp e -> fresh_since c (l ++ [e]) = fresh_since c l ++ [e].
Proof. intros He. unfold fresh_since. rewrite List.filter_app. cbn [List.filter]. by rewrite (proj2 (Z.ltb_lt c (me_timestamp e))). Qed.

Definition window_start (t : Z) : Z := saturating_sub U64 t WINDOW_SECONDS.

Lemma window_start_mono (t t' : Z) : t <= t' -> window_start t <= window_start t'.
Proof. unfold window_start, saturating_sub, clamp. lia. Qed.

Lemma window_start_before (t : Z) : 0 < t -> window_start t < t.
Proof. intros Ht. unfold window_start, saturating_sub, clamp, WINDOW_SECONDS. change (imin U64) with 0. lia. Qed.

(** What is stored of an asset is what passed since a moment the window has left behind. *)
Definition log_ok (t : Z) (log : bytes + Address -> list MintWindowEntry) (w : wrapped_store) : Prop :=
  forall a, exists cut, cut <= window_start t /\ entries_of w a = fresh_since cut (log a).

Lemma log_pass i t log (w : wrapped_store) a (x : Z) : log_ok t log w -> t <= now i -> 0 < now i ->
  log_ok (now i) (log_of i (Some (a, x)) log) (with_entries w a (next_entries i w a x)).
Proof.
  intros Hok Ht Hn b. unfold entries_of. cbn [log_of with_entries set_mints mints]. pose proof (window_start_mono t (now i) Ht) as Hm. destruct (decide (b = a)) as [-> | Hb].
  - exists (window_start (now i)). split; [done |]. rewrite lookup_insert_eq. cbn [default]. rewrite fresh_snoc by by apply window_start_before.
    unfold next_entries. destruct (Hok a) as (cut & Hcut & ->). by rewrite fresh_fresh by (unfold cutoff_of, window_start in *; lia).
  - rewrite lookup_insert_ne by done. destruct (Hok b) as (cut & Hcut & He). exists cut. split; [lia | exact He].
Qed.

Lemma log_keep i t log (w w' : wrapped_store) : log_ok t log w -> t <= now i -> mints w' = mints w -> log_ok (now i) log w'.
Proof.
  intros Hok Ht Hm a. destruct (Hok a) as (cut & Hcut & He). exists cut. unfold entries_of in *. rewrite Hm. split; [| done].
  pose proof (window_start_mono t (now i) Ht). lia.
Qed.

Lemma history_log t log s : bridge_history t log s -> 0 < t /\ log_ok t log (wrapped s).
Proof.
  induction 1 as [t k v e Ht | t log s i s' ev _ [Hpos IH] Ht Hstep].
  - split; [done |]. intros a. exists 0. split; [unfold window_start, saturating_sub, clamp; change (imin U64) with 0; lia |].
    unfold entries_of. cbn. by rewrite lookup_empty.
  - split; [lia |]. apply step_effect in Hstep. assert (Hn : 0 < now i) by lia.
    inversion Hstep as [Hw | m Hw | code ctrl m Hm Hnone Hw | code ctrl c Hc Hw | code from x c Hx Hc Hw | code to x c Hx Hc H0 Hle Hcap Hw | tok x Hx Hcap Hw]; subst ev; cbn [log_of].
    6: { pose proof (log_pass i t log (wrapped s) (Wrapped code) x IH Ht Hn) as Hl. exact Hl. }
    6: { by apply (log_pass i t log (wrapped s)). }
    all: by apply (log_keep i t log (wrapped s)); [done | done |].
Qed.

(** The limit in force for an asset: the configured one, or else what the caller passes:
    the maximum supply of a wrapped asset, the recorded balance of the vault. *)
Definition limit_of s a : Z :=
  match get_limit s a with
  | Some l => max_rolling_amount l
  | None => match a with inl code => default 0 (max_supply <$> get_config s code) | inr tok => tracked_balance s tok end
  end.

(** C22: Whatever the history, when a mint or an unlock of an asset passes, the amounts of that
    asset which passed in the day before, and this one, are together within the limit in
    force: pruning the stored entries forgets nothing that still counts. *)
Theorem rate_limit_holds t log s i s' a (x : Z) (Hs : bridge_history t log s) (Ht : t <= now i) (Hstep : bridge_step i s s' (Some (a, x))) :
  0 < x /\ zsum (me_amount <$> List.filter (fun e => saturating_sub U64 (now i) WINDOW_SECONDS <? me_timestamp e) (log a)) + x <= limit_of s a.
Proof.
  destruct (history_log t log s Hs) as [_ Hl]. destruct (Hl a) as (cut & Hcut & He). pose proof (window_start_mono t (now i) Ht) as Hm.
  assert (Hf : fresh_since (cutoff_of i) (entries_of (wrapped s) a) = fresh_since (cutoff_of i) (log a)) by (rewrite He; apply fresh_fresh; unfold cutoff_of, window_start in *; lia).
  apply step_effect in Hstep. inversion Hstep as [| | | | | code to y c Hx Hc H0 Hle Hcap Hw Hev | tok y Hx Hcap Hw Hev]; subst; rewrite Hf in Hcap; (split; [done |]).
  - unfold limit_of, get_limit, get_config, cap_in_force in *. cbn [Wrapped]. rewrite Hc. exact Hcap.
  - exact Hcap.
Qed.

(** ** Messages *)
(** A call that accepts the message [ch, n, ph, to, x] on the signatures [sg]. *)
Inductive accepts i s s' (ch n : Z) (ph : bytes) (to : Address) (x : Z) (sg : list (bytes * bytes)) : Prop :=
  | accept_mint code r : validate_lock_and_mint verify i s code ch n ph to x sg = Ok (s', r) -> accepts i s s' ch n ph to x sg
  | accept_unlock l p r : entry_unlock_tokens verify i l s p sg = Ok (s', r) -> source_chain_id p = ch -> nonce p = n -> proof_hash p = ph -> recipient p = to -> amount p = x ->
      accepts i s s' ch n ph to x sg.

(** [s2] is reached from [s1] by calls at any times. *)
Inductive bridge_run s1 : bridge -> Prop :=
  | run_refl : bridge_run s1 s1
  | run_step i s s' ev : bridge_run s1 s -> bridge_step i s s' ev -> bridge_run s1 s'.

Lemma count_signatures_Ok s (d : bytes) (t : Z) (sg : list (bytes * bytes)) (seen : gset bytes) (n m : Z) :
  count_signatures verify s d t sg seen n = Ok m -> exists ks, NoDup ks /\ m = n + len ks /\
    forall k, (k ∈ ks) -> (k ∉ seen) /\ (k ∈ validators (vals s)) /\ exists g, ((k, g) ∈ sg) /\ verify k d g = true.
Proof.
  revert seen n. induction sg as [| [k g] sg IH]; intros seen n; cbn [count_signatures].
  { intros [= <-]. exists []. split; [constructor | split; [unfold len; cbn; lia | by intros k ?%not_elem_of_nil]]. }
  assert (Hskip : count_signatures verify s d t sg seen n = Ok m -> exists ks, NoDup ks /\ m = n + len ks /\
    forall k', (k' ∈ ks) -> (k' ∉ seen) /\ (k' ∈ validators (vals s)) /\ exists g', ((k', g') ∈ (k, g) :: sg) /\ verify k' d g' = true).
  { intros (ks & H1 & H2 & H3)%IH. exists ks. split; [done |]. split; [done |]. intros k' (Ha & Hb & g' & Hc & Hd)%H3. split; [done |]. split; [done |]. exists g'. split; [by right | done]. }
  destruct (is_validator s k) eqn:Hv; cbn [negb]; [| exact Hskip]. destruct (bool_decide (k ∈ seen)) eqn:Hs; [exact Hskip |].
  destruct (verify k d g) eqn:Hg; cbn [negb]; [| done]. apply bool_decide_eq_false in Hs. apply bool_decide_eq_true in Hv. intros Hr. apply bind_Ok in Hr as (n' & [-> _]%iop_Ok & Hr).
  destruct (t <=? n + 1).
  - injection Hr as <-. exists [k]. split; [apply NoDup_singleton | split; [unfold len; cbn; lia |]]. intros k' ->%list_elem_of_singleton.
    split; [done |]. split; [done |]. exists g. split; [by left | done].
  - apply IH in Hr as (ks & H1 & H2 & H3). exists (k :: ks). assert (Hk : k ∉ ks) by (intros (Ha & _)%H3; apply Ha; by apply elem_of_union_l, elem_of_singleton).
    split; [by apply NoDup_cons |]. split; [unfold len in *; cbn [length]; lia |]. intros k' [-> | Hk']%elem_of_cons.
    + split; [done |]. split; [done |]. exists g. split; [by left | done].
    + apply H3 in Hk' as (Ha & Hb & g' & Hc & Hd). split; [intros ?; apply Ha; by apply elem_of_union_r |]. split; [done |]. exists g'. split; [by right | done].
Qed.

Definition spent s : gset (Z * Z) := spent_nonces (vals s).

Lemma verify_Ok s (ch n : Z) (ph : bytes) (to : Address) (x : Z) (sg : list (bytes * bytes)) s' :
  verify_cross_chain_payload verify s ch n ph to x sg = Ok s' ->
  ((ch, n) ∉ spent s) /\ spent s' = {[(ch, n)]} ∪ spent s /\
  exists t ks, threshold (vals s) = Some t /\ t <> 0 /\ NoDup ks /\ t <= len ks /\
    forall k, (k ∈ ks) -> (k ∈ validators (vals s)) /\ exists g, ((k, g) ∈ sg) /\ verify k (bridge_message_digest ch n ph to x) g = true.
Proof.
  intros Hr. apply bind_Ok in Hr as (u1 & _ & Hr). apply bind_Ok in Hr as (u2 & Ht%fail_if_Ok%Z.eqb_neq & Hr). apply bind_Ok in Hr as (u3 & _ & Hr).
  apply bind_Ok in Hr as (u4 & Hn%fail_if_Ok%bool_decide_eq_false & Hr). apply bind_Ok in Hr as (m & (ks & Hd & -> & Hks)%count_signatures_Ok & Hr).
  apply bind_Ok in Hr as (u5 & Hm%fail_if_Ok%Z.ltb_ge & [= <-]). split; [done |]. split; [done |].
  destruct (threshold (vals s)) as [t |]; [| done]. exists t, ks. cbn in *. split; [done |]. split; [done |]. split; [done |]. split; [lia |].
  intros k (_ & Hk)%Hks. exact Hk.
Qed.

Lemma enforce_spent i s a (x fb : Z) s' : enforce_and_record i s a x fb = Ok s' -> vals s' = vals s.
Proof. by intros (_ & _ & ->)%enforce_Ok. Qed.

Lemma mint_spent i s (ctrl : Address) (code : bytes) (to : Address) (x : Z) (auth : bool) s' (n : Z) : mint_body i ctrl code to x auth s = Ok (s', n) -> vals s' = vals s.
Proof.
  intros Hr. apply bind_Ok in Hr as (u1 & _ & Hr). apply bind_Ok in Hr as (c & _ & Hr). apply bind_Ok in Hr as (u2 & _ & Hr).
  apply bind_Ok in Hr as (u3 & _ & Hr). apply bind_Ok in Hr as (u4 & _ & Hr). apply bind_Ok in Hr as (m & _ & Hr).
  apply bind_Ok in Hr as (u5 & _ & Hr). apply bind_Ok in Hr as (s1 & He%enforce_spent & Hr). apply bind_Ok in Hr as (nb & _ & Hr). apply bind_Ok in Hr as (u6 & _ & [= <- _]). exact He.
Qed.

(** What an acceptance needed, and that it spends the nonce. *)
Lemma accepts_spends i s s' (ch n : Z) (ph : bytes) (to : Address) (x : Z) (sg : list (bytes * bytes)) : accepts i s s' ch n ph to x sg ->
  exists s0 s1, vals s0 = vals s /\ verify_cross_chain_payload verify s0 ch n ph to x sg = Ok s1 /\ spent s' = spent s1.
Proof.
  intros [code r Hr | l p r Hr <- <- <- <- <-].
  - apply bind_Ok in Hr as (u1 & _ & Hr). apply bind_Ok in Hr as (c & _ & Hr). apply bind_Ok in Hr as (s1 & Hv & Hr). apply guarded_Ok in Hr as (_ & s2 & Hm%mint_spent & ->).
    exists s, s1. split; [done |]. split; [done |]. unfold spent. cbn. by rewrite Hm.
  - apply guarded_Ok in Hr as (_ & s3 & Hr & ->). apply bind_Ok in Hr as (r1 & Hr & Hq). inv_ok Hq. apply bind_Ok in Hr as (u1 & _ & Hr). apply bind_Ok in Hr as (s1 & Hv & Hr).
    apply bind_Ok in Hr as (c & _ & Hr). apply bind_Ok in Hr as (u2 & _ & Hr). apply bind_Ok in Hr as (s2 & He%enforce_spent & Hr). apply bind_Ok in Hr as (nb & _ & Hr).
    apply bind_Ok in Hr as (l' & _ & Hr). apply bind_Ok in Hr as (u3 & _ & [= <-]). exists (set_block s true), s1. split; [done |]. split; [done |]. unfold spent. cbn. by rewrite He.
Qed.

(** Nonces stay spent and keys stay banned; a banned key that is no validator stays out. *)
Definition vals_grow (v v' : validator_store) : Prop :=
  spent_nonces v ⊆ spent_nonces v' /\ banned v ⊆ banned v' /\ forall k, k ∈ banned v -> k ∉ validators v -> k ∉ validators v'.

Lemma vals_grow_refl v : vals_grow v v.
Proof. by repeat split. Qed.

Lemma vals_grow_trans v1 v2 v3 : vals_grow v1 v2 -> vals_grow v2 v3 -> vals_grow v1 v3.
Proof. intros (A1 & A2 & A3) (B1 & B2 & B3). split; [by transitivity (spent_nonces v2) |]. split; [by transitivity (banned v2) |]. intros k Hk Hn. apply B3; [by apply A2 | by apply A3]. Qed.

Lemma verify_grows s (ch n : Z) (ph : bytes) (to : Address) (x : Z) (sg : list (bytes * bytes)) s' :
  verify_cross_chain_payload verify s ch n ph to x sg = Ok s' -> vals_grow (vals s) (vals s').
Proof.
  intros Hr. unfold verify_cross_chain_payload in Hr. inv_op Hr. split; [apply union_subseteq_r | by split].
Qed.

Lemma step_vals i s s' (ev : passed) : bridge_step i s s' ev -> vals_grow (vals s) (vals s').
Proof.
  intros Hstep. assert (Hkeep : vals s' = vals s -> vals_grow (vals s) (vals s')) by (intros ->; apply vals_grow_refl).
  inversion Hstep as [c code to x ? n Hr | code ch n ph to x sg ? r Hr | l p sg c ? r Hr Hcfg | c code from x ? n Hr | who code c m ? r Hr | who code c ? r Hr | who a m ? r Hr
    | who t ? Hr | who k ? Hr | who k ? Hr | k x ? Hr | p ? r Hr | who tok ? r Hr | who k ? Hr | l who x ch to ? r Hr | l from to tok x fee fx e ? l' r Hr
    | l id sg ? l' Hr | l id from ? l' Hr | k]; subst.
  - apply Hkeep. apply guarded_Ok in Hr as (_ & s1 & Hr%mint_spent & ->). exact Hr.
  - apply bind_Ok in Hr as (u1 & _ & Hr). apply bind_Ok in Hr as (c & _ & Hr). apply bind_Ok in Hr as (s1 & Hv%verify_grows & Hr).
    apply guarded_Ok in Hr as (_ & s2 & Hm%mint_spent & ->). cbn. by rewrite Hm.
  - apply guarded_Ok in Hr as (_ & s3 & Hr & ->). apply bind_Ok in Hr as (r1 & Hr & Hq). inv_ok Hq. apply bind_Ok in Hr as (u1 & _ & Hr). apply bind_Ok in Hr as (s1 & Hv%verify_grows & Hr).
    apply bind_Ok in Hr as (c' & _ & Hr). apply bind_Ok in Hr as (u2 & _ & Hr). apply bind_Ok in Hr as (s2 & He%enforce_spent & Hr). apply bind_Ok in Hr as (nb & _ & Hr).
    apply bind_Ok in Hr as (l' & _ & Hr). apply bind_Ok in Hr as (u3 & _ & [= <-]). cbn. by rewrite He.
  - apply Hkeep. apply guarded_Ok in Hr as (_ & s1 & Hr & ->). unfold burn in Hr. inv_op Hr. done.
  - unfold register_wrapped_asset in Hr. inv_op Hr. by apply Hkeep.
  - unfold set_bridge_controller in Hr. inv_op Hr. by apply Hkeep.
  - unfold set_limit in Hr. inv_op Hr. by apply Hkeep.
  - unfold configure_threshold in Hr. inv_op Hr. by repeat split.
  - apply bind_Ok in Hr as (u1 & _ & Hr). apply bind_Ok in Hr as (u2 & Hb%fail_if_Ok%bool_decide_eq_false & Hr). apply bind_Ok in Hr as (u3 & _ & [= <-]).
    split; [done |]. split; [done |]. cbn. intros k' Hk' Hn [->%elem_of_singleton | Hin]%elem_of_union; [by apply Hb | by apply Hn].
  - apply bind_Ok in Hr as (u1 & _ & Hr). apply bind_Ok in Hr as (u2 & _ & [= <-]). split; [done |]. split; [done |]. cbn. by intros k' _ Hn [Hin _]%elem_of_difference.
  - unfold stake_validator_collateral in Hr. inv_op Hr. by repeat split.
  - unfold process_double_sign_proof in Hr. inv_op Hr. split; [done |]. split; [apply union_subseteq_r |]. cbn. by intros k' _ Hn [Hin _]%elem_of_difference.
  - unfold configure in Hr. inv_op Hr. by apply Hkeep.
  - unfold register_processor in Hr. inv_op Hr. by apply Hkeep.
  - apply guarded_Ok in Hr as (_ & s1 & Hr & ->). unfold lock_tokens in Hr. inv_op Hr. by apply Hkeep.
  - unfold create_remittance in Hr. inv_op Hr. by apply Hkeep.
  - unfold release_remittance in Hr. inv_op Hr. by apply Hkeep.
  - unfold reclaim_expired, cancel_remittance in Hr. inv_op Hr. by apply Hkeep.
  - by apply Hkeep.
Qed.

Lemma run_vals s s' : bridge_run s s' -> vals_grow (vals s) (vals s').
Proof. induction 1 as [| i s1 s2 ev _ IH Hstep%step_vals]; [apply vals_grow_refl | by apply (vals_grow_trans _ (vals s1))]. Qed.

(** C23: A message is accepted only on valid signatures of its digest by as many different
    registered validators as the threshold asks; and whatever happens after, no message
    with its chain and nonce is accepted again, by a mint or by an unlock. *)
Theorem message_accepted_once i s s' (ch n : Z) (ph : bytes) (to : Address) (x : Z) (sg : list (bytes * bytes)) (Ha : accepts i s s' ch n ph to x sg) :
  (exists t ks, threshold (vals s) = Some t /\ t <> 0 /\ NoDup ks /\ t <= len ks /\
    forall k, (k ∈ ks) -> (k ∈ validators (vals s)) /\ exists g, ((k, g) ∈ sg) /\ verify k (bridge_message_digest ch n ph to x) g = true) /\
  forall i2 s2 s3 ph2 to2 x2 sg2, bridge_run s' s2 -> ~ accepts i2 s2 s3 ch n ph2 to2 x2 sg2.
Proof.
  apply accepts_spends in Ha as (s0 & s1 & Hv & (_ & Hsp & Hsig)%verify_Ok & Hs'). rewrite Hv in Hsig. split; [done |].
  intros i2 s2 s3 ph2 to2 x2 sg2 (Hrun & _)%run_vals (s4 & s5 & Hv2 & (Hn & _)%verify_Ok & _)%accepts_spends. apply Hn. unfold spent. rewrite Hv2. apply Hrun.
  change (spent_nonces (vals s')) with (spent s'). rewrite Hs', Hsp. by apply elem_of_union_l, elem_of_singleton.
Qed.

(** A mint reads the books, the limits and the guard only. *)
Lemma mint_frame i s v (ctrl : Address) (code : bytes) (to : Address) (x : Z) s' (n : Z) :
  mint_for_bridge i s ctrl code to x = Ok (s', n) -> mint_for_bridge i (set_vals s v) ctrl code to x = Ok (set_vals s' v, n).
Proof.
  intros Hr. apply bind_Ok in Hr as (u0 & Hg & Hr). apply bind_Ok in Hr as ([s2 n2] & Hr & [= <- <-]).
  apply bind_Ok in Hr as (u1 & H1 & Hr). apply bind_Ok in Hr as (c & H2 & Hr). apply bind_Ok in Hr as (u2 & H3 & Hr). apply bind_Ok in Hr as (u3 & H4 & Hr).
  apply bind_Ok in Hr as (u4 & H5 & Hr). apply bind_Ok in Hr as (m & H6 & Hr). apply bind_Ok in Hr as (u5 & H7 & Hr). apply bind_Ok in Hr as (s1 & He & Hr).
  apply bind_Ok in Hr as (nb & H8 & Hr). apply bind_Ok in Hr as (u6 & H9 & [= <- <-]).
  assert (He' : enforce_and_record i (set_block (set_vals s v) true) (Wrapped code) x (max_supply c) = Ok (set_vals s1 v)).
  { apply bind_Ok in He as (w1 & G1 & He). apply bind_Ok in He as (w2 & G2 & He). apply bind_Ok in He as (w3 & G3 & He). apply bind_Ok in He as (w4 & G4 & He).
    apply bind_Ok in He as (w5 & G5 & He). apply bind_Ok in He as (w6 & G6 & [= <-]).
    apply bind_Ok; exists w1; split; [exact G1 |]. apply bind_Ok; exists w2; split; [exact G2 |]. apply bind_Ok; exists w3; split; [exact G3 |].
    apply bind_Ok; exists w4; split; [exact G4 |]. apply bind_Ok; exists w5; split; [exact G5 |]. apply bind_Ok; exists w6; split; [exact G6 | done]. }
  apply bind_Ok; exists u0; split; [exact Hg |]. apply bind_Ok.
  exists (set_vals (save_config (set_wrapped s1 (set_balances (wrapped s1) (<[(code, to) := nb]> (balances (wrapped s1))))) (with_total c m)) v, m). split; [| reflexivity].
  apply bind_Ok; exists u1; split; [exact H1 |]. apply bind_Ok; exists c; split; [exact H2 |]. apply bind_Ok; exists u2; split; [exact H3 |].
  apply bind_Ok; exists u3; split; [exact H4 |]. apply bind_Ok; exists u4; split; [exact H5 |]. apply bind_Ok; exists m; split; [exact H6 |].
  apply bind_Ok; exists u5; split; [exact H7 |]. apply bind_Ok; exists (set_vals s1 v); split; [exact He' |]. apply bind_Ok; exists nb; split; [exact H8 |].
  apply bind_Ok; exists u6; split; [exact H9 | reflexivity].
Qed.

(** The digest does not name the asset: signatures that mint [x] of one asset mint [x] of
    any other one that has room for it, at the choice of whoever submits them. *)
Lemma message_mints_any_asset i s s' s2 (a b : bytes) (ch n : Z) (ph : bytes) (to : Address) (x r r2 : Z) (sg : list (bytes * bytes)) (c : BridgeAssetConfig)
    (Ha : validate_lock_and_mint verify i s a ch n ph to x sg = Ok (s', r)) (Hc : get_config s b = Some c)
    (Hb : mint_for_bridge i s (controller c) b to x = Ok (s2, r2)) :
  exists s3, validate_lock_and_mint verify i s b ch n ph to x sg = Ok (s3, r2).
Proof.
  apply bind_Ok in Ha as (u1 & Hx & Ha). apply bind_Ok in Ha as (ca & _ & Ha). apply bind_Ok in Ha as (s1 & Hv & _).
  pose proof Hv as Hset. apply bind_Ok in Hset as (w1 & _ & Hset). apply bind_Ok in Hset as (w2 & _ & Hset). apply bind_Ok in Hset as (w3 & _ & Hset).
  apply bind_Ok in Hset as (w4 & _ & Hset). apply bind_Ok in Hset as (w5 & _ & Hset). apply bind_Ok in Hset as (w6 & _ & [= Hs1]).
  eexists. unfold validate_lock_and_mint. rewrite Hx, bind_ret, Hc. cbn [ok_or]. rewrite bind_ret, Hv, bind_ret, <- Hs1. by apply mint_frame.
Qed.

(** ** Slashing *)
(** C25: A validator is slashed only for its valid signatures of two messages with different
    digests on one chain and nonce; it loses its whole stake, which is added to the slashed
    total so that nothing is created or lost, and whatever happens after it is no
    validator again and cannot be slashed again. *)
Theorem slashed_for_good s s' (p : DoubleSignProof) (x : Z) (Hr : process_double_sign_proof verify s p = Ok (s', x)) :
  (validator p ∈ validators (vals s)) /\ payload_digest p (payload_1 p) <> payload_digest p (payload_2 p) /\
  verify (validator p) (payload_digest p (payload_1 p)) (signature_1 p) = true /\
  verify (validator p) (payload_digest p (payload_2 p)) (signature_2 p) = true /\
  x = get_validator_collateral s (validator p) /\ get_validator_collateral s' (validator p) = 0 /\
  msum (fun _ y => y) (collateral (vals s')) + get_total_slashed_collateral s' = msum (fun _ y => y) (collateral (vals s)) + get_total_slashed_collateral s /\
  forall s2, bridge_run s' s2 -> is_validator s2 (validator p) = false /\ is_validator_banned s2 (validator p) = true.
Proof.
  apply bind_Ok in Hr as (u1 & _ & Hr). apply bind_Ok in Hr as (u2 & Hv%fail_if_Ok%negb_false_iff%bool_decide_eq_true & Hr). apply bind_Ok in Hr as (u3 & _ & Hr).
  apply bind_Ok in Hr as (u4 & Hd%fail_if_Ok%bool_decide_eq_false & Hr). apply bind_Ok in Hr as (u5 & H1 & Hr). apply bind_Ok in Hr as (u6 & H2 & Hr).
  apply bind_Ok in Hr as (m & [-> _]%ok_or_Ok%chk_Some & [= <- <-]). split; [done |]. split; [done |]. split; [by destruct (verify _ _ (signature_1 p)) |].
  split; [by destruct (verify _ _ (signature_2 p)) |]. split; [done |]. split; [unfold get_validator_collateral; cbn; by rewrite lookup_insert_eq |]. split.
  - cbn. rewrite msum_insert. unfold term, get_validator_collateral, get_total_slashed_collateral. cbn. destruct (collateral (vals s) !! validator p); cbn; lia.
  - intros s2 (_ & Hb & Hn)%run_vals. cbn in Hb, Hn. assert (Hin : validator p ∈ ({[validator p]} ∪ banned (vals s) : gset bytes)) by (by apply elem_of_union_l, elem_of_singleton). split.
    + apply bool_decide_eq_false, Hn; [done |]. by intros [_ []%not_elem_of_singleton]%elem_of_difference.
    + by apply bool_decide_eq_true, Hb.
Qed.

(** ** The escrow *)
Context `{!TokenLaws H T}.

(** C26: The escrow works only while the contract's balance of the native token is exactly what
    it recorded; so one transfer of any amount to the contract, which anybody can make,
    makes every lock and every unlock trap until the balance is put right. *)
Theorem donation_blocks_escrow (l l' : Ledger) s (c : BridgeEscrowConfig) (self donor : Address) (x : Z)
    (Hc : escrow_config (escrow s) = Some c) (Hbal : balance l (native_token c) self = tracked_balance s (native_token c))
    (Hx : 0 < x) (Hne : donor <> self) (Htr : transfer l (native_token c) donor self x = Some l') :
  (forall i who y ch to r, this i = self -> entry_lock_tokens i l' s who y ch to <> Ok r) /\
  (forall i p sg r, this i = self -> entry_unlock_tokens verify i l' s p sg <> Ok r).
Proof.
  apply transfer_spec in Htr as (_ & Hl). specialize (Hl (native_token c) self). unfold at_account in Hl.
  rewrite decide_False, decide_True in Hl by naive_solver.
  assert (Hbad : forall i s1, this i = self -> escrow s1 = escrow s -> assert_vault_invariant i l' s1 c = Panic).
  { intros i s1 <- Hs1. unfold assert_vault_invariant. unfold tracked_balance in *. rewrite Hs1. rewrite (proj2 (Z.eqb_neq _ _)); [done | lia]. }
  split.
  - intros i who y ch to [s1 r] Hi Hr. apply guarded_Ok in Hr as (_ & s2 & Hr & ->). apply bind_Ok in Hr as (r1 & Hr & _).
    apply bind_Ok in Hr as (u1 & _ & Hr). apply bind_Ok in Hr as (u2 & _ & Hr). apply bind_Ok in Hr as (c' & Hc'%ok_or_Ok & Hr). cbn in Hc'. rewrite Hc in Hc'. injection Hc' as <-.
    apply bind_Ok in Hr as (u3 & Hr & _). by rewrite Hbad in Hr.
  - intros i p sg [s1 r] Hi Hr. apply guarded_Ok in Hr as (_ & s2 & Hr & ->). apply bind_Ok in Hr as (r1 & Hr & _).
    apply bind_Ok in Hr as (u1 & _ & Hr). apply bind_Ok in Hr as (s3 & (_ & He & _)%verify_wrapped & Hr). apply bind_Ok in Hr as (c' & Hc'%ok_or_Ok & Hr).
    rewrite He in Hc'. cbn in Hc'. rewrite Hc in Hc'. injection Hc' as <-. apply bind_Ok in Hr as (u3 & Hr & _). by rewrite Hbad in Hr.
Qed.
End bridge_steps.

(** ** A concrete bridge: 400 of an asset minted by its controller, a validator that signed
    twice, and a token in the escrow. *)
#[local] Existing Instance test_host.
#[local] Instance test_tokens : Tokens test_host := map_tokens test_host.

Definition toy_verify (k d g : bytes) : bool := bool_decide (g = k ++ d).
Definition bridge_at (t : Z) : bridge_env := {| bauth := fun _ => true; now := t; ledger_sequence := 1; this := 99 |}.
Definition bridge_keys : keyring := set_data empty_keyring {| admin := 1; value := 0; max_fee_ceiling := 10000 |}.
Definition test_validators : validator_store :=
  {| threshold := Some 2; validators := {[ [1]; [2] ]}; spent_nonces := ∅; collateral := <[ [1] := 50 ]> ∅; banned := ∅; total_slashed := None |}.
Definition test_escrow : escrow_store :=
  {| escrow_config := Some {| native_token := 20; processor := [] |}; next_lock := None; locks := ∅; vault := ∅; remittances := ∅; processor_nonce := None; remittance_nonce := None |}.
Definition bare : bridge :=
  {| bkeys := bridge_keys; block := false; wrapped := {| configs := ∅; balances := ∅; limits := ∅; mints := ∅ |}; vals := test_validators; escrow := test_escrow |}.
Definition after {A} (s : bridge) (r : R (bridge * A)) : bridge := match r with Ok (s', _) => s' | _ => s end.
Definition with_asset : bridge := after bare (register_wrapped_asset (bridge_at 100) bare 1 [87] 5 1000).
Definition issued_400 : bridge := after with_asset (mint_wrapped (bridge_at 200) with_asset 5 [87] 7 400).

Lemma after_step {A} i s ev (r : R (bridge * A)) : is_ok r = true -> (forall s' x, r = Ok (s', x) -> bridge_step toy_verify i s s' ev) -> bridge_step toy_verify i s (after s r) ev.
Proof. intros Hok Hs. destruct r as [[s' x] | |]; [by apply (Hs s' x) | done | done]. Qed.

Lemma asset_step : bridge_step toy_verify (bridge_at 100) bare with_asset None.
Proof. apply after_step; [vm_compute; reflexivity | intros s' x; apply step_register]. Qed.

Lemma issue_step : bridge_step toy_verify (bridge_at 200) with_asset issued_400 (Some (Wrapped [87], 400)).
Proof. apply after_step; [vm_compute; reflexivity | intros s' x; apply step_mint]. Qed.

Definition asset_log : bytes + Address -> list MintWindowEntry := log_of (bridge_at 100) None (fun _ => []).

Lemma asset_history : bridge_history toy_verify 100 asset_log with_asset.
Proof. exact (history_next _ 50 (fun _ => []) bare (bridge_at 100) _ None (history_start _ 50 bridge_keys test_validators test_escrow eq_refl) ltac:(vm_compute; discriminate) asset_step). Qed.

Lemma issued_history : bridge_history toy_verify 200 (log_of (bridge_at 200) (Some (Wrapped [87], 400)) asset_log) issued_400.
Proof. exact (history_next _ 100 _ with_asset (bridge_at 200) _ _ asset_history ltac:(vm_compute; discriminate) issue_step). Qed.

Lemma wrapped_supply_exact_witness : balance_of issued_400 [87] 7 = 400 /\ exists c, get_config issued_400 [87] = Some c /\ 0 <= total_supply c <= max_supply c.
Proof.
  split; [vm_compute; reflexivity |]. destruct (get_config issued_400 [87]) as [c |] eqn:Hc.
  - exists c. split; [reflexivity |]. exact (proj1 (proj2 (wrapped_supply_exact toy_verify 200 _ issued_400 [87] c issued_history Hc))).
  - exfalso. assert (E : bool_decide (is_Some (get_config issued_400 [87])) = true) by (vm_compute; reflexivity). rewrite Hc in E. discriminate E.
Defined.

(** 400 passed; 600 more pass, and are within the maximum of 1000. *)
Definition issued_1000 : bridge := after issued_400 (mint_wrapped (bridge_at 300) issued_400 5 [87] 8 600).

Lemma rate_limit_holds_witness : 400 + 600 <= limit_of issued_400 (Wrapped [87]).
Proof.
  assert (Hstep : bridge_step toy_verify (bridge_at 300) issued_400 issued_1000 (Some (Wrapped [87], 600))) by (apply after_step; [vm_compute; reflexivity | intros s' x; apply step_mint]).
  exact (proj2 (rate_limit_holds toy_verify 200 _ issued_400 (bridge_at 300) issued_1000 (Wrapped [87]) 600 issued_history ltac:(vm_compute; discriminate) Hstep)).
Defined.

(** Both validators sign that 9 receives 70. *)
Definition two_signatures (ph : bytes) : list (bytes * bytes) :=
  [([1], [1] ++ bridge_message_digest 3 1 ph 9 70); ([2], [2] ++ bridge_message_digest 3 1 ph 9 70)].
Definition attested : bridge := after issued_400 (validate_lock_and_mint toy_verify (bridge_at 400) issued_400 [87] 3 1 [4] 9 70 (two_signatures [4])).

Lemma message_accepted_once_witness : balance_of attested [87] 9 = 70 /\
  forall s3 ph to x sg, ~ accepts toy_verify (bridge_at 500) attested s3 3 1 ph to x sg.
Proof.
  split; [vm_compute; reflexivity |]. intros s3 ph to x sg.
  assert (Ha : accepts toy_verify (bridge_at 400) issued_400 attested 3 1 [4] 9 70 (two_signatures [4])).
  { unfold attested. destruct (validate_lock_and_mint toy_verify (bridge_at 400) issued_400 [87] 3 1 [4] 9 70 (two_signatures [4])) as [[s' r] | |] eqn:E.
    - exact (accept_mint _ _ _ _ _ _ _ _ _ _ [87] r E).
    - exfalso. assert (Hok : is_ok (validate_lock_and_mint toy_verify (bridge_at 400) issued_400 [87] 3 1 [4] 9 70 (two_signatures [4])) = true) by (vm_compute; reflexivity). rewrite E in Hok. discriminate Hok.
    - exfalso. assert (Hok : is_ok (validate_lock_and_mint toy_verify (bridge_at 400) issued_400 [87] 3 1 [4] 9 70 (two_signatures [4])) = true) by (vm_compute; reflexivity). rewrite E in Hok. discriminate Hok. }
  exact (proj2 (message_accepted_once toy_verify (bridge_at 400) issued_400 attested 3 1 [4] 9 70 (two_signatures [4]) Ha) (bridge_at 500) attested s3 ph to x sg (run_refl _ attested)).
Defined.

(** Validator [1] signs two amounts under one nonce. *)
Definition contradiction : DoubleSignProof := {|
  validator := [1]; ds_source_chain_id := 3; ds_nonce := 2;
  payload_1 := {| ap_proof_hash := [4]; ap_recipient := 9; ap_amount := 70 |}; signature_1 := [1] ++ bridge_message_digest 3 2 [4] 9 70;
  payload_2 := {| ap_proof_hash := [4]; ap_recipient := 9; ap_amount := 71 |}; signature_2 := [1] ++ bridge_message_digest 3 2 [4] 9 71 |}.

Lemma slashed_for_good_witness : exists s' x, process_double_sign_proof toy_verify bare contradiction = Ok (s', x) /\ is_validator s' [1] = false.
Proof.
  destruct (process_double_sign_proof toy_verify bare contradiction) as [[s' x] | |] eqn:E.
  - exists s', x. split; [reflexivity |]. destruct (slashed_for_good toy_verify bare s' contradiction x E) as (_ & _ & _ & _ & _ & _ & _ & Hs). exact (proj1 (Hs s' (run_refl _ s'))).
  - exfalso. assert (Hok : is_ok (process_double_sign_proof toy_verify bare contradiction) = true) by (vm_compute; reflexivity). rewrite E in Hok. discriminate Hok.
  - exfalso. assert (Hok : is_ok (process_double_sign_proof toy_verify bare contradiction) = true) by (vm_compute; reflexivity). rewrite E in Hok. discriminate Hok.
Defined.

(** 33 sends one unit of the native token to the contract. *)
Definition rich : Ledger := map_credit test_host ∅ 20 33 500.

Lemma donation_blocks_escrow_witness : is_ok (entry_lock_tokens (bridge_at 200) rich bare 33 100 3 9) = true /\
  exists l', transfer rich 20 33 99 1 = Some l' /\ forall r, entry_lock_tokens (bridge_at 200) l' bare 33 100 3 9 <> Ok r.
Proof.
  split; [vm_compute; reflexivity |]. destruct (transfer rich 20 33 99 1) as [l' |] eqn:E.
  - exists l'. split; [reflexivity |]. intros r. assert (Hl : TokenLaws test_host test_tokens) by exact (map_token_laws test_host).
    exact (proj1 (donation_blocks_escrow toy_verify (TokenLaws0 := Hl) rich l' bare {| native_token := 20; processor := [] |} 99 33 1 eq_refl ltac:(vm_compute; reflexivity) ltac:(lia) ltac:(discriminate) E)
      (bridge_at 200) 33 100 3 9 r eq_refl).
  - exfalso. assert (Hok : bool_decide (is_Some (transfer rich 20 33 99 1)) = true) by (vm_compute; reflexivity). rewrite E in Hok. discriminate Hok.
Defined.
