(* ===== verification/OracleMath.v ===== *)
(** * The arithmetic of the price oracle

    [src/contracts/price-oracle/src/]: the error enumeration and the percentages of lib.rs,
    the fixed-point helpers of math.rs, the medians of median.rs with the compaction that
    precedes them, the penalties of slashing.rs and the deviation filter of validation.rs.
    The stack buffers of median.rs are lists; a buffer sorts in place by insertion from the
    right, which [insert_back] does on the reversed prefix. The errors of the module
    [median] are [MedianError]. *)

From stdpp Require Import base numbers list sorting.
From Stdlib Require Import ZArith Lia.
From S2P Require Import Prelude.

Open Scope Z_scope.

Inductive ContractError :=
| AssetNotFound | Unauthorized | InvalidAssetSymbol | InvalidStakeAmount | UnbondingAlreadyQueued | UnbondingRequestNotFound
| UnbondingDelayActive | UnbondingAlreadyReleased | LedgerSequenceOverflow | SlippageToleranceExceeded | InvalidSlippageTolerance
| MinimumQuorumNotMet | CircuitBreakerActive | CircuitBreakerAlreadyActive | NotCoordinator | CircuitBreakerNotActive | InvalidPrice
| PriceMathOverflow | InvalidWeight | TooManyAssets | LiquidityBelowThreshold | InvalidLiquidity | ContractDestroyed | NotInitialized
| StaleRateData | ReentrancyDetected | LedgerGapTooSmall | PriceOutOfBounds | AlreadyInitialized | EmergencyHalted | AdminNotSet
| PendingAdminNotFound | NotPendingAdmin | PendingAdminTimestampMissing | AdminTimelockNotExpired | FeeTokenNotSet | InvalidQueryFee
| NoRewards | InsufficientVaultBalance | InvalidNormalizedPrice | NotAuthorized | ProviderNotAuthorized | CouncilRequired
| ContractFrozen | FlashCrashDetected | InvalidPriceFloor | NoPreviousConfig | InvalidPriceBounds | InvalidMaxDeviation
| MultiSigValidationFailed | InvalidActionType | ActionNotFound | ActionAlreadyExecuted | ActionCancelled | QuorumNotReached
| InvalidDelegate | InvalidLiquidityThreshold | InvalidSlashAmount | SlashTokenNotSet | InsufficientStake | InvalidAdminWeight
| InvalidWeightThreshold | DeviationConsensusZero | InvalidDenominator | PriceImpactGuardTriggered.

#[export] Instance ContractError_eq_dec : EqDecision ContractError.
Proof. solve_decision. Defined.

(** [ContractError] of median.rs *)
Inductive MedianError := EmptyInput | ArithmeticOverflow | InputTooLarge.

Definition checked_pow (t : ity) (b n : Z) : option Z := chk t (b ^ n).

(** ** lib.rs: percentages *)
Definition calculate_percentage_change_bps (old_price new_price : Z) : option Z :=
  if old_price =? 0 then None
  else
    delta ← checked_sub I128 new_price old_price;
    scaled ← checked_mul I128 delta 10000;
    checked_div I128 scaled old_price.

(** [i128::abs] traps on the least value. *)
Definition calculate_percentage_difference_bps (old_price new_price : Z) : result ContractError (option Z) :=
  match calculate_percentage_change_bps old_price new_price with
  | Some x => a ← iop I128 (Z.abs x); mret (Some a)
  | None => mret None
  end.

Definition calculate_price_volatility (old_price new_price : Z) : result ContractError (option Z) :=
  match checked_sub I128 new_price old_price with Some x => a ← iop I128 (Z.abs x); mret (Some a) | None => mret None end.

Definition is_valid (price : Z) : bool := 0 <? price.

(** ** math.rs *)
Abbreviation OR := (result ContractError).

Definition require_nonzero_denominator (n : Z) : OR unit := fail_if (n =? 0) InvalidDenominator.

(** The shared body of the two deviations. *)
Definition abs_diff_bps (a base : Z) : OR Z :=
  _ ← fail_if (base =? 0) DeviationConsensusZero;
  diff ← (if base <=? a then isub I128 a base else isub I128 base a);
  bps ← match checked_mul I128 diff 10000 with
        | Some v => ok_or (checked_div I128 v base) PriceMathOverflow
        | None => mret (imax I128)
        end;
  mret (cast U32 (Z.min bps (imax U32))).

Definition calculate_deviation_bps (submitted consensus : Z) : OR Z := abs_diff_bps submitted consensus.
Definition calculate_rate_deviation_bps (expected_rate actual_rate : Z) : OR Z := abs_diff_bps actual_rate expected_rate.

Definition is_extreme (value : Z) : bool := (value =? imin I128) || (value =? imax I128).

Definition normalize_to_seven (value input_decimals : Z) : OR Z :=
  _ ← fail_if (is_extreme value) PriceMathOverflow;
  if input_decimals <? 7 then
    multiplier ← ok_or (checked_pow I128 10 (7 - input_decimals)) PriceMathOverflow;
    ok_or (checked_mul I128 value multiplier) PriceMathOverflow
  else if 7 <? input_decimals then
    divisor ← ok_or (checked_pow I128 10 (input_decimals - 7)) PriceMathOverflow;
    _ ← fail_if (divisor =? 0) PriceMathOverflow;
    ok_or (checked_div I128 value divisor) PriceMathOverflow
  else mret value.

Definition INTERIOR_SCALE : Z := 1000000000000000.

Definition normalize_to_nine (value native_decimals : Z) : OR Z :=
  _ ← fail_if (is_extreme value) PriceMathOverflow;
  scaled ← ok_or (checked_mul I128 value INTERIOR_SCALE) PriceMathOverflow;
  n ← (if native_decimals <? 9 then
         multiplier ← ok_or (checked_pow I128 10 (9 - native_decimals)) PriceMathOverflow;
         ok_or (checked_mul I128 scaled multiplier) PriceMathOverflow
       else if 9 <? native_decimals then
         divisor ← ok_or (checked_pow I128 10 (native_decimals - 9)) PriceMathOverflow;
         _ ← require_nonzero_denominator divisor;
         ok_or (checked_div I128 scaled divisor) PriceMathOverflow
       else mret scaled);
  _ ← require_nonzero_denominator INTERIOR_SCALE;
  ok_or (checked_div I128 n INTERIOR_SCALE) PriceMathOverflow.

Definition calculate_inverse_price (price decimals : Z) : option Z :=
  if price =? 0 then None
  else if is_extreme price then None
  else
    scale ← checked_pow I128 10 decimals;
    numerator ← checked_mul I128 scale scale;
    checked_div I128 numerator price.

Definition validate_slippage_tolerance (slippage_bps : Z) : OR unit := fail_if (10000 <? slippage_bps) InvalidSlippageTolerance.

Definition enforce_slippage_tolerance (expected_rate actual_rate max_slippage_bps : Z) : OR unit :=
  _ ← validate_slippage_tolerance max_slippage_bps;
  d ← calculate_rate_deviation_bps expected_rate actual_rate;
  fail_if (max_slippage_bps <? d) SlippageToleranceExceeded.

Definition calculate_min_acceptable_rate (expected_rate slippage_bps : Z) : OR Z :=
  _ ← validate_slippage_tolerance slippage_bps;
  m ← ok_or (checked_sub I128 10000 slippage_bps) PriceMathOverflow;
  x ← ok_or (checked_mul I128 expected_rate m) PriceMathOverflow;
  ok_or (checked_div I128 x 10000) PriceMathOverflow.

Definition calculate_max_acceptable_rate (expected_rate slippage_bps : Z) : OR Z :=
  _ ← validate_slippage_tolerance slippage_bps;
  m ← ok_or (checked_add I128 10000 slippage_bps) PriceMathOverflow;
  x ← ok_or (checked_mul I128 expected_rate m) PriceMathOverflow;
  ok_or (checked_div I128 x 10000) PriceMathOverflow.

(** ** median.rs *)
Definition MAX_VALIDATORS : Z := 15.

(** The inner loop: [key] moves left past the larger elements; [r] is the sorted prefix,
    last element first. *)
Fixpoint insert_back {A} (f : A -> Z) (r : list A) (key : A) : list A :=
  match r with
  | x :: r' => if f key <? f x then x :: insert_back f r' key else key :: x :: r'
  | [] => [key]
  end.

Definition sort_stack {A} (f : A -> Z) (buf : list A) : list A := rev (foldl (insert_back f) [] buf).
Definition sort_stack_i128 (buf : list Z) : list Z := sort_stack (fun x => x) buf.
Definition sort_stack_pairs (buf : list (Z * Z)) : list (Z * Z) := sort_stack fst buf.

(** [buf[i]] of the zero-initialised buffer *)
Definition buf_at (buf : list Z) (i : Z) : Z := default 0 (vget buf i).

Definition calculate_median (prices : list Z) : result MedianError Z :=
  let n := len prices in
  _ ← fail_if (n =? 0) EmptyInput;
  _ ← fail_if (MAX_VALIDATORS <? n) InputTooLarge;
  let buf := sort_stack_i128 prices in
  let mid := n / 2 in
  if n mod 2 =? 1 then mret (buf_at buf mid)
  else
    sum ← ok_or (checked_add I128 (buf_at buf (mid - 1)) (buf_at buf mid)) ArithmeticOverflow;
    ok_or (checked_div I128 sum 2) ArithmeticOverflow.

Fixpoint value_at_stack (buf : list (Z * Z)) (target cum last : Z) : result MedianError Z :=
  match buf with
  | [] => mret last
  | (v, c) :: rest =>
      cum ← iadd U64 cum c;
      if target <? cum then mret v else value_at_stack rest target cum v
  end.

(** The copy loop's total. *)
Fixpoint total_count (pairs : list (Z * Z)) (total : Z) : result MedianError Z :=
  match pairs with
  | [] => mret total
  | (_, c) :: rest => total ← ok_or (checked_add U64 total c) ArithmeticOverflow; total_count rest total
  end.

Definition calculate_median_compacted (pairs : list (Z * Z)) : result MedianError Z :=
  _ ← fail_if (len pairs =? 0) EmptyInput;
  _ ← fail_if (MAX_VALIDATORS <? len pairs) InputTooLarge;
  total ← total_count pairs 0;
  _ ← fail_if (total =? 0) EmptyInput;
  let buf := sort_stack_pairs pairs in
  if total mod 2 =? 1 then value_at_stack buf (total / 2) 0 0
  else
    lo ← value_at_stack buf (total / 2 - 1) 0 0;
    hi ← value_at_stack buf (total / 2) 0 0;
    sum ← ok_or (checked_add I128 lo hi) ArithmeticOverflow;
    ok_or (checked_div I128 sum 2) ArithmeticOverflow.

(** lib.rs, [calculate_median_from_buffer]: the linear compaction of the prices. *)
Fixpoint compact_one {E} (compacted : list (Z * Z)) (price : Z) : result E (list (Z * Z)) :=
  match compacted with
  | [] => mret [(price, 1)]
  | (value, count) :: rest =>
      if value =? price then n ← iadd U32 count 1; mret ((value, n) :: rest)
      else rest' ← compact_one rest price; mret ((value, count) :: rest')
  end.

Fixpoint compact {E} (prices : list Z) (compacted : list (Z * Z)) : result E (list (Z * Z)) :=
  match prices with
  | [] => mret compacted
  | p :: rest => c ← compact_one compacted p; compact rest c
  end.

(** ** validation.rs: the 15 % filter *)
Definition DEVIATION_THRESHOLD_BPS : Z := 1500.

Definition within_threshold (price baseline : Z) : OR bool :=
  if baseline <=? 0 then mret true
  else
    d ← isub I128 price baseline;
    let delta := cast I128 (Z.abs d) in
    mret (match checked_mul I128 delta 10000 with
          | Some n => match checked_div I128 n baseline with Some b => b <=? DEVIATION_THRESHOLD_BPS | None => false end
          | None => false
          end).

(** ** slashing.rs: penalties *)
Inductive SlashingTier := NoPenalty | Low | Medium | High | Critical.

Definition from_deviation_bps (d : Z) : SlashingTier :=
  if d <=? 100 then NoPenalty else if d <=? 250 then Low else if d <=? 500 then Medium else if d <=? 1000 then High else Critical.

Definition burn_rate_bps (t : SlashingTier) : Z :=
  match t with NoPenalty => 0 | Low => 50 | Medium => 150 | High => 400 | Critical => 1000 end.

Definition calculate_price_deviation_bps (submitted_price finalized_median_price : Z) : OR (option Z) :=
  if finalized_median_price <=? 0 then mret None
  else
    deviation ← (if finalized_median_price <=? submitted_price then isub I128 submitted_price finalized_median_price else isub I128 finalized_median_price submitted_price);
    match checked_mul U128 (cast U128 deviation) 10000 with
    | Some numerator => q ← idiv U128 numerator finalized_median_price; mret (Some q)
    | None => mret None
    end.

Definition calculate_slashing_bps (deviation_bps : Z) : Z := burn_rate_bps (from_deviation_bps deviation_bps).

Inductive DeviationTier := Minor | Moderate | Significant | Manipulation.
Definition deviation_multiplier (t : DeviationTier) : Z := match t with Minor => 1 | Moderate => 2 | Significant => 4 | Manipulation => 8 end.

Definition apply_slash_cap (raw_penalty bond_capacity : Z) : Z :=
  if bond_capacity <=? 0 then 0 else Z.min raw_penalty (Z.quot (saturating_mul I128 bond_capacity 25) 100).

(** ** Sorting *)
Section sorting.
Context {A : Type} (f : A -> Z).
Implicit Types l r : list A.

Lemma insert_back_perm r (key : A) : insert_back f r key ≡ₚ key :: r.
Proof. induction r as [| x r IH]; cbn; [done |]. destruct (f key <? f x); [rewrite IH; constructor | done]. Qed.

Lemma insert_back_sorted r (key : A) : StronglySorted (fun x y => f y <= f x) r -> StronglySorted (fun x y => f y <= f x) (insert_back f r key).
Proof.
  induction r as [| x r IH]; cbn; intros Hs; [repeat constructor |]. apply StronglySorted_inv in Hs as [Hs Hx].
  destruct (Z.ltb_spec (f key) (f x)) as [Hlt | Hge]; constructor; try by auto.
  - rewrite insert_back_perm. constructor; [lia | done].
  - by constructor.
  - constructor; [done |]. eapply Forall_impl; [exact Hx | cbn; intros; lia].
Qed.

Lemma foldl_insert (l r : list A) : StronglySorted (fun x y => f y <= f x) r ->
  StronglySorted (fun x y => f y <= f x) (foldl (insert_back f) r l) /\ foldl (insert_back f) r l ≡ₚ r ++ l.
Proof.
  revert r. induction l as [| x l IH]; intros r Hr; cbn; [by rewrite app_nil_r |].
  destruct (IH (insert_back f r x) (insert_back_sorted r x Hr)) as [H1 H2]. split; [done |]. rewrite H2, insert_back_perm. cbn. by rewrite Permutation_middle.
Qed.

Lemma rev_sorted (R : A -> A -> Prop) r : StronglySorted (fun x y => R y x) r -> StronglySorted R (rev r).
Proof.
  induction r as [| x r IH]; cbn; [constructor |]. intros [Hs Hx]%StronglySorted_inv. apply StronglySorted_app.
  split; [| split; [by apply IH | repeat constructor]]. intros y z Hy ->%list_elem_of_singleton.
  rewrite Forall_forall in Hx. apply Hx. rewrite list_elem_of_In, <- in_rev, <- list_elem_of_In in Hy. exact Hy.
Qed.

Lemma sort_stack_spec l : StronglySorted (fun x y => f x <= f y) (sort_stack f l) /\ sort_stack f l ≡ₚ l.
Proof.
  destruct (foldl_insert l [] (SSorted_nil _)) as [H1 H2]. unfold sort_stack. split; [by apply rev_sorted |]. rewrite <- Permutation_rev. exact H2.
Qed.
End sorting.

Lemma sort_stack_length {A} (f : A -> Z) (l : list A) : length (sort_stack f l) = length l.
Proof. by rewrite (proj2 (sort_stack_spec f l)). Qed.

(** ** Compacted lists *)
Definition expand (ps : list (Z * Z)) : list Z := flat_map (fun p => replicate (Z.to_nat p.2) p.1) ps.
Definition counted (p : Z * Z) : Prop := 1 <= p.2.

Lemma len_expand_cons (p : Z * Z) (ps : list (Z * Z)) : counted p -> len (expand (p :: ps)) = p.2 + len (expand ps).
Proof. intros Hp. unfold counted in Hp. change (len (replicate (Z.to_nat p.2) p.1 ++ expand ps) = p.2 + len (expand ps)). rewrite len_app. unfold len at 1. rewrite length_replicate. lia. Qed.

Lemma len_perm {A} (l k : list A) : l ≡ₚ k -> len l = len k.
Proof. unfold len. by intros ->. Qed.

Lemma len_succ {A} (x : A) (l : list A) : len (x :: l) = 1 + len l.
Proof. unfold len. cbn [length]. lia. Qed.

Lemma compact_one_Ok {E} (acc : list (Z * Z)) (p : Z) : Forall counted acc -> len (expand acc) < imax U32 ->
  exists c, @compact_one E acc p = Ok c /\ expand c ≡ₚ p :: expand acc /\ Forall counted c.
Proof.
  induction acc as [| [v n] acc IH]; intros Hc Hl; cbn [compact_one].
  { exists [(p, 1)]. split; [done |]. split; [done |]. repeat constructor. unfold counted. cbn. lia. }
  apply Forall_cons in Hc as [Hn Hc]. rewrite len_expand_cons in Hl by done. cbn [snd] in Hl. unfold counted in Hn. cbn [snd] in Hn. pose proof (len_nonneg (expand acc)). destruct (Z.eqb_spec v p) as [-> | Hv].
  - unfold iadd. rewrite iop_in by (unfold imin; lia). rewrite bind_ret. exists ((p, n + 1) :: acc). split; [done |]. split.
    + cbn. replace (Z.to_nat (n + 1)) with (S (Z.to_nat n)) by lia. done.
    + constructor; [unfold counted; cbn; lia | done].
  - destruct (IH Hc ltac:(lia)) as (c & -> & Hp & Hcc). rewrite bind_ret. exists ((v, n) :: c). split; [done |]. split; [| by constructor].
    cbn. rewrite Hp. by rewrite Permutation_middle.
Qed.

Lemma compact_Ok {E} (l : list Z) (acc : list (Z * Z)) : Forall counted acc -> len (expand acc) + len l <= imax U32 ->
  exists c, @compact E l acc = Ok c /\ expand c ≡ₚ expand acc ++ l /\ Forall counted c.
Proof.
  revert acc. induction l as [| p l IH]; intros acc Hc Hl; cbn [compact].
  { exists acc. by rewrite app_nil_r. }
  rewrite len_succ in Hl. pose proof (len_nonneg l).
  destruct (@compact_one_Ok E acc p Hc ltac:(lia)) as (c & -> & Hp & Hcc). rewrite bind_ret. destruct (IH c Hcc) as (c' & Hr & Hp' & Hc').
  { rewrite (len_perm _ _ Hp), len_succ. lia. }
  exists c'. split; [exact Hr |]. split; [| done]. rewrite Hp', Hp. cbn. by rewrite Permutation_middle.
Qed.

Lemma expand_length (ps : list (Z * Z)) : Forall counted ps -> len ps <= len (expand ps).
Proof.
  induction 1 as [| p ps Hp _ IH]; [done |]. rewrite len_expand_cons by done. unfold counted in Hp. unfold len in *. cbn [length]. lia.
Qed.

Lemma total_count_Ok (ps : list (Z * Z)) (n : Z) : Forall counted ps -> 0 <= n -> n + len (expand ps) <= imax U64 -> total_count ps n = Ok (n + len (expand ps)).
Proof.
  revert n. induction ps as [| [v c] ps IH]; intros n Hc Hn Hl; cbn [total_count]; [by rewrite Z.add_0_r |].
  apply Forall_cons in Hc as [Hp Hc]. rewrite len_expand_cons in * by done. unfold counted in Hp. cbn [snd] in Hp, Hl. pose proof (len_nonneg (expand ps)).
  unfold checked_add. rewrite (proj2 (chk_Some U64 (n + c) (n + c))) by (split; [done | unfold imin; lia]). cbn [ok_or]. rewrite bind_ret, IH by (try done; lia). cbn. f_equal. lia.
Qed.

Lemma value_at_stack_Ok (ps : list (Z * Z)) (t cum last : Z) : Forall counted ps -> 0 <= cum <= t -> t < cum + len (expand ps) -> cum + len (expand ps) <= imax U64 ->
  value_at_stack ps t cum last = Ok (buf_at (expand ps) (t - cum)).
Proof.
  revert cum last. induction ps as [| [v c] ps IH]; intros cum last Hc Hcum Ht Hl; [change (len (expand [])) with 0 in *; lia |].
  apply Forall_cons in Hc as [Hp Hc]. rewrite len_expand_cons in * by done. unfold counted in Hp. cbn [snd] in Hp, Ht, Hl. pose proof (len_nonneg (expand ps)).
  cbn [value_at_stack]. unfold iadd. rewrite iop_in by (unfold imin; lia). rewrite bind_ret. unfold buf_at, vget. rewrite (proj2 (Z.ltb_ge (t - cum) 0)) by lia.
  destruct (Z.ltb_spec t (cum + c)) as [Hlt | Hge]; cbn [expand flat_map fst snd].
  - rewrite lookup_app_l by (rewrite length_replicate; lia). by rewrite lookup_replicate_2 by lia.
  - rewrite IH by (try done; lia). rewrite lookup_app_r by (rewrite length_replicate; lia). rewrite length_replicate. unfold buf_at, vget, expand.
    rewrite (proj2 (Z.ltb_ge (t - (cum + c)) 0)) by lia. do 3 f_equal. lia.
Qed.

Lemma expand_sorted (ps : list (Z * Z)) : StronglySorted (fun x y => x.1 <= y.1) ps -> StronglySorted Z.le (expand ps).
Proof.
  induction ps as [| [v c] ps IH]; [constructor |]. intros [Hs Hx]%StronglySorted_inv. cbn [expand flat_map fst snd]. apply StronglySorted_app.
  split; [| split; [| by apply IH]].
  - intros x y [-> _]%elem_of_replicate Hy. apply list_elem_of_In, in_flat_map in Hy as ([w d] & Hw & Hy). apply list_elem_of_In, elem_of_replicate in Hy as [-> _].
    rewrite Forall_forall in Hx. apply (Hx (w, d)). by apply list_elem_of_In.
  - generalize (Z.to_nat c). intros n. induction n as [| n IHn]; cbn; constructor; [done |]. apply Forall_forall. intros y [-> _]%elem_of_replicate. lia.
Qed.

(** The value at an index of the sorted prices. *)
Lemma sorted_unique (l : list Z) (ps : list (Z * Z)) : expand ps ≡ₚ l -> expand (sort_stack_pairs ps) = sort_stack_i128 l.
Proof.
  intros Hp. destruct (sort_stack_spec fst ps) as [Hs1 Hp1]. destruct (sort_stack_spec (fun x : Z => x) l) as [Hs2 Hp2].
  apply (StronglySorted_unique Z.le); [by apply expand_sorted | exact Hs2 |]. unfold sort_stack_i128. rewrite Hp2, <- Hp. unfold expand. unfold sort_stack_pairs. by rewrite Hp1.
Qed.

(** C17: Folding equal prices into counted buckets and walking the cumulative counts gives, for
    every buffer of at most fifteen prices, exactly what sorting all prices gives: the same
    median or the same error. *)
Theorem compacted_median_exact (l : list Z) (Hl : len l <= MAX_VALIDATORS) :
  (ps ← compact l []; calculate_median_compacted ps) = calculate_median l.
Proof.
  unfold MAX_VALIDATORS in Hl. assert (Hm : 15 <= imax U32 /\ 15 <= imax U64) by done. destruct (@compact_Ok MedianError l [] ltac:(constructor) ltac:(change (len (expand [])) with 0; lia)) as (ps & -> & Hp & Hc).
  rewrite bind_ret. cbn [expand flat_map app] in Hp. fold (expand ps) in Hp. pose proof (len_perm _ _ Hp) as Hlen. pose proof (expand_length ps Hc) as Hle.
  pose proof (len_nonneg l). pose proof (len_nonneg ps). unfold calculate_median_compacted, calculate_median, MAX_VALIDATORS.
  destruct (Z.eqb_spec (len l) 0) as [Hn0 | Hn0].
  { destruct (Z.eqb_spec (len ps) 0); [done | lia]. }
  destruct (Z.eqb_spec (len ps) 0) as [Hz | Hz].
  { exfalso. destruct ps as [| p ps]; [change (len (expand [])) with 0 in Hlen; lia | rewrite len_succ in Hz; pose proof (len_nonneg ps); lia]. }
  rewrite (proj2 (Z.ltb_ge 15 (len ps))), (proj2 (Z.ltb_ge 15 (len l))) by lia. cbn [fail_if]. rewrite !bind_ret, total_count_Ok by (try done; lia). rewrite bind_ret, Z.add_0_l, Hlen.
  rewrite (proj2 (Z.eqb_neq (len l) 0)) by done. cbn [fail_if]. rewrite !bind_ret.
  assert (Hsc : Forall counted (sort_stack_pairs ps)) by (unfold sort_stack_pairs; by rewrite (proj2 (sort_stack_spec fst ps))).
  assert (Hse : expand (sort_stack_pairs ps) = sort_stack_i128 l) by by apply sorted_unique.
  assert (Hsl : len (expand (sort_stack_pairs ps)) = len l) by (rewrite Hse; unfold len, sort_stack_i128; by rewrite sort_stack_length).
  pose proof (Z.div_mod (len l) 2 ltac:(lia)). pose proof (Z.mod_pos_bound (len l) 2 ltac:(lia)). pose proof (Z.div_pos (len l) 2 ltac:(lia) ltac:(lia)).
  assert (Hat : forall t, 0 <= t < len l -> value_at_stack (sort_stack_pairs ps) t 0 0 = Ok (buf_at (sort_stack_i128 l) t)).
  { intros t Ht. rewrite value_at_stack_Ok by (try done; lia). by rewrite Hse, Z.sub_0_r. }
  destruct (Z.eqb_spec (len l mod 2) 1); [apply Hat; lia |]. rewrite !Hat by lia. by rewrite !bind_ret.
Qed.

(** ** Robustness of the median *)
Section robust.
Variables (lo hi : Z).
Definition honest_price (x : Z) : Prop := lo <= x <= hi.
#[local] Instance honest_price_dec x : Decision (honest_price x).
Proof. unfold honest_price. apply _. Defined.

Lemma filter_none (l : list Z) : (forall x, x ∈ l -> ~ honest_price x) -> filter honest_price l = [].
Proof.
  induction l as [| x l IH]; intros Hl; [done |]. rewrite filter_cons_False by (apply Hl; by left). apply IH. intros y Hy. apply Hl. by right.
Qed.

(** An element outside the range leaves the honest ones on one side of it. *)
Lemma sorted_side (b : list Z) (k : nat) (x : Z) : StronglySorted Z.le b -> b !! k = Some x ->
  (x < lo -> (length (filter honest_price b) + k + 1 <= length b)%nat) /\ (hi < x -> (length (filter honest_price b) <= k)%nat).
Proof.
  intros Hs Hk. pose proof (lookup_lt_Some _ _ _ Hk) as Hlt. pose proof (take_drop_middle b k x Hk) as Hb. split; intros Hx.
  - rewrite <- (take_drop (S k) b) at 1. rewrite filter_app, length_app. rewrite (filter_none (take (S k) b)).
    + pose proof (length_filter honest_price (drop (S k) b)) as Hf. rewrite length_drop in Hf. cbn [length]. lia.
    + intros y Hy Hg. unfold honest_price in Hg. apply list_elem_of_lookup in Hy as (j & Hj). apply lookup_take_Some in Hj as [Hj Hjk].
      rewrite <- Hb in Hs. apply StronglySorted_app in Hs as (Hs & _ & _). destruct (decide (j = k)) as [-> | Hn]; [rewrite Hk in Hj; injection Hj as ->; lia |].
      assert (y <= x); [| lia]. apply Hs; [| by left]. apply (list_elem_of_lookup_2 _ j). apply lookup_take_Some. split; [done | lia].
  - rewrite <- (take_drop k b) at 1. rewrite filter_app, length_app. rewrite (filter_none (drop k b)).
    + pose proof (length_filter honest_price (take k b)) as Hf. rewrite length_take in Hf. cbn [length]. lia.
    + intros y Hy Hg. unfold honest_price in Hg. rewrite (drop_S b x k Hk) in Hy. apply elem_of_cons in Hy as [-> | Hy]; [lia |].
      rewrite <- Hb in Hs. apply StronglySorted_app in Hs as (_ & _ & Hs). apply StronglySorted_inv in Hs as [_ Hs]. rewrite Forall_forall in Hs. specialize (Hs y Hy). lia.
Qed.

Lemma majority_at (l : list Z) (k : nat) : 2 * len (filter honest_price l) > len l -> (k < length l)%nat -> len l - 2 <= 2 * Z.of_nat k <= len l ->
  honest_price (buf_at (sort_stack_i128 l) (Z.of_nat k)).
Proof.
  intros Hm Hk Hr. destruct (sort_stack_spec (fun x : Z => x) l) as [Hs Hp]. fold (sort_stack_i128 l) in Hs, Hp. unfold buf_at. rewrite vget_nat.
  pose proof (sort_stack_length (fun x : Z => x) l) as Hlen. fold (sort_stack_i128 l) in Hlen.
  destruct (lookup_lt_is_Some_2 (sort_stack_i128 l) k ltac:(lia)) as (x & Hx). rewrite Hx. cbn [default]. destruct (sorted_side _ _ _ Hs Hx) as [H1 H2].
  assert (Hf : length (filter honest_price (sort_stack_i128 l)) = length (filter honest_price l)) by by rewrite Hp.
  rewrite Hf, ?Hlen in H1, H2. unfold len in *. unfold honest_price. destruct (Z.lt_ge_cases x lo) as [Hlo | Hlo]; [specialize (H1 Hlo); lia |].
  destruct (Z.lt_ge_cases hi x) as [Hhi | Hhi]; [specialize (H2 Hhi); lia | unfold id; lia].
Qed.

(** C18: When more than half of the submitted prices lie in a range, so does the median: the
    others cannot move it out, however they choose theirs. *)
Theorem median_robust (l : list Z) (m : Z) (Hm : calculate_median l = Ok m) (Hmaj : 2 * len (filter honest_price l) > len l) : honest_price m.
Proof.
  unfold calculate_median in Hm. apply bind_Ok in Hm as (u1 & Hn0%fail_if_Ok%Z.eqb_neq & Hm). apply bind_Ok in Hm as (u2 & _ & Hm).
  pose proof (Z.div_mod (len l) 2 ltac:(lia)) as Hd. pose proof (Z.mod_pos_bound (len l) 2 ltac:(lia)) as Hb. pose proof (len_nonneg l) as Hp. pose proof (Z.div_pos (len l) 2 Hp ltac:(lia)) as Hq.
  assert (Hat : forall k, 0 <= k < len l -> len l - 2 <= 2 * k <= len l -> honest_price (buf_at (sort_stack_i128 l) k)).
  { intros k Hk Hr. rewrite <- (Z2Nat.id k) by lia. apply majority_at; [done | unfold len in Hk; lia | rewrite Z2Nat.id; lia]. }
  destruct (Z.eqb_spec (len l mod 2) 1) as [Ho | Ho]; [injection Hm as <-; apply Hat; lia |].
  apply bind_Ok in Hm as (s & [-> _]%ok_or_Ok%chk_Some & Hm). apply ok_or_Ok in Hm. unfold checked_div in Hm. cbn [Z.eqb] in Hm. apply chk_Some in Hm as [-> _].
  pose proof (Hat (len l / 2 - 1) ltac:(lia) ltac:(lia)) as [H1 H2]. pose proof (Hat (len l / 2) ltac:(lia) ltac:(lia)) as [H3 H4].
  set (a := buf_at _ (len l / 2 - 1)) in *. set (b := buf_at _ (len l / 2)) in *. unfold honest_price.
  rewrite <- (Z.quot_mul lo 2), <- (Z.quot_mul hi 2) by lia. split; apply Z.quot_le_mono; lia.
Qed.
End robust.

Lemma compacted_median_exact_witness : (ps ← compact [7; 9; 7; 8] []; calculate_median_compacted ps) = Ok 7 /\ calculate_median [7; 9; 7; 8] = Ok 7.
Proof. rewrite (compacted_median_exact [7; 9; 7; 8] ltac:(vm_compute; discriminate)). split; reflexivity. Defined.

Lemma median_robust_witness : honest_price 100 102 101 /\ calculate_median [101; 5; 102; 100; 9999] = Ok 101.
Proof. split; [| reflexivity]. apply (median_robust 100 102 [101; 5; 102; 100; 9999] 101); [reflexivity | vm_compute; reflexivity]. Defined.
