(* ===== verification/Oracle.v ===== *)
(** * The price oracle

    [src/contracts/price-oracle/src/]: the storage of the contract, the feeds (set_price,
    update_price, submit_community_price and what they call in lib.rs, twap.rs,
    validation.rs and callbacks.rs) and the reads of prices. Administration, fees and stakes
    are in [OracleAdmin]; arithmetic in [OracleMath].

    A symbol is a byte string. Called contracts are parameters: [on_price_update] and
    [reimburse] say whether a subscriber and the gas tank return, [token] transfers are
    those of [Token]. A [panic_with_error!] is rolled back with its error and is an [Err].
    Extending the life of an absent entry traps, as on the host. Left out: events,
    time-to-live, the timestamp of the last admin action, which nothing reads, and the
    removal of the legacy slots, which nothing writes. *)

From stdpp Require Import base numbers list gmap strings.
From Stdlib Require Import ZArith Lia.
From S2P Require Import Prelude Host Token OracleMath.

Open Scope Z_scope.

Definition MAX_MEDIAN_ENTRIES : Z := 11.
Definition MAX_PERCENT_CHANGE_BPS : Z := 1000.
Definition MIN_SAFE_MAX_DEVIATION_BPS : Z := 100.
Definition MAX_RATE_AGE_SECONDS : Z := 300.
Definition PRICE_WINDOW_LEDGERS : Z := 5.
Definition PRICE_IMPACT_THRESHOLD_BPS : Z := 500.
Definition MIN_LEDGER_GAP : Z := 3.
Definition QUORUM_SOURCES : Z := 3.

Record AssetMeta := { base_decimals : Z; quote_decimals : Z }.
Record AssetInfo := { ai_name : bytes; ai_base_decimals : Z; ai_quote_decimals : Z }.
Record PriceBounds := { min_price : Z; max_price : Z }.
Record RecentEvent := { event_type : string; ev_asset : bytes; ev_price : Z; ev_timestamp : Z }.
Record PriceWindowEntry := { w_ledger : Z; w_price : Z }.

Section oracle.
Context {H : Host} {T : Tokens H}.

Record PriceData := {
  price : Z; timestamp : Z; ledger_sequence : Z; provider : Address; decimals : Z; confidence_score : Z; ttl : Z }.
Record PriceBufferEntry := { be_price : Z; be_provider : Address; be_timestamp : Z }.
Record PriceBuffer := { entries : list PriceBufferEntry; b_ledger : Z; b_decimals : Z; b_ttl : Z }.
Record PriceUpdatePayload := { pu_asset : bytes; pu_price : Z; pu_timestamp : Z; pu_provider : Address; pu_decimals : Z; pu_confidence : Z }.
Record UnbondingRequest := { ub_validator : Address; ub_amount : Z; requested_ledger : Z; release_ledger : Z; ub_released : bool }.

Variable on_price_update : Address -> PriceUpdatePayload -> bool.
Variable reimburse : Address -> Address -> bool.

Record oracle_env := { oauth : Address -> bool; onow : Z; oledger : Z; oself : Address; invoker : Address }.

(** ** Storage *)
Record role_store := {
  admins : option (list Address); revoked : gset Address; providers : gset Address; weights : gmap Address Z; relayers : list Address;
  delegates : gmap Address Address; delegate_of : gmap Address Address; council : option Address;
  pending_admin : option Address; pending_since : option Z; coordinator_role : gset Address; coordinators : list Address }.
Record flag_store := {
  destroyed : bool; initialized : bool; frozen : bool; halted : bool; paused : bool; bypass : option Z; is_locked : bool;
  breaker : bool; tripped_at : option Z; tripped_by : option Address; asset_breakers : gset bytes; baseline : option Z }.
Record config_store := {
  metas : gmap bytes AssetMeta; infos : gmap bytes AssetInfo; floors : gmap bytes Z; prev_floors : gmap bytes Z;
  bounds : gmap bytes PriceBounds; prev_bounds : gmap bytes PriceBounds; max_deviation : option Z; prev_max_deviation : option Z;
  thresholds : gmap bytes Z; subscribers : list Address; gas_tank : option Address; fee_token : option Address; query_fee : option Z;
  slash_token : option Address; insurance_reserve : option Address }.
Record feed_store := {
  tracked : list bytes; tracked_flags : gset bytes; verified : gmap bytes PriceData; community : gmap bytes PriceData;
  twaps : gmap bytes (Z * Z); windows : gmap bytes (list PriceWindowEntry); guards : gmap bytes bool;
  buffers : gmap (bytes * Z) PriceBuffer; last_seen : gmap Address Z; reported : gmap (Address * bytes) Z; validated : gmap bytes Z;
  recent : list RecentEvent; health_assets : option Z; health_ledger : option Z; health_paused : option bool; health_relayers : option Z }.
Record money_store := {
  fee_vaults : gmap Address Z; rewards : gmap Address Z; stakes : gmap Address Z; missed : gmap Address Z; streaks : gmap Address Z;
  unbonding : gmap Address UnbondingRequest }.
Record oracle := { roles : role_store; flags : flag_store; config : config_store; feed : feed_store; money : money_store }.

Definition set_roles (s : oracle) (r : role_store) : oracle := {| roles := r; flags := flags s; config := config s; feed := feed s; money := money s |}.
Definition set_flags (s : oracle) (f : flag_store) : oracle := {| roles := roles s; flags := f; config := config s; feed := feed s; money := money s |}.
Definition set_config (s : oracle) (c : config_store) : oracle := {| roles := roles s; flags := flags s; config := c; feed := feed s; money := money s |}.
Definition set_feed (s : oracle) (f : feed_store) : oracle := {| roles := roles s; flags := flags s; config := config s; feed := f; money := money s |}.
Definition set_money (s : oracle) (m : money_store) : oracle := {| roles := roles s; flags := flags s; config := config s; feed := feed s; money := m |}.

Definition with_lock (f : flag_store) (b : bool) : flag_store :=
  {| destroyed := destroyed f; initialized := initialized f; frozen := frozen f; halted := halted f; paused := paused f; bypass := bypass f; is_locked := b;
     breaker := breaker f; tripped_at := tripped_at f; tripped_by := tripped_by f; asset_breakers := asset_breakers f; baseline := baseline f |}.
Definition set_locked (s : oracle) (b : bool) : oracle := set_flags s (with_lock (flags s) b).

(** One writer per slot of the feeds that a price update writes. *)
Definition with_tracked (f : feed_store) (l : list bytes) (fl : gset bytes) (n q : option Z) : feed_store :=
  {| tracked := l; tracked_flags := fl; verified := verified f; community := community f; twaps := twaps f; windows := windows f; guards := guards f;
     buffers := buffers f; last_seen := last_seen f; reported := reported f; validated := validated f; recent := recent f;
     health_assets := n; health_ledger := q; health_paused := health_paused f; health_relayers := health_relayers f |}.
Definition with_prices (f : feed_store) (v c : gmap bytes PriceData) : feed_store :=
  {| tracked := tracked f; tracked_flags := tracked_flags f; verified := v; community := c; twaps := twaps f; windows := windows f; guards := guards f;
     buffers := buffers f; last_seen := last_seen f; reported := reported f; validated := validated f; recent := recent f;
     health_assets := health_assets f; health_ledger := health_ledger f; health_paused := health_paused f; health_relayers := health_relayers f |}.
Definition with_samples (f : feed_store) (tw : gmap bytes (Z * Z)) (w : gmap bytes (list PriceWindowEntry)) (g : gmap bytes bool) : feed_store :=
  {| tracked := tracked f; tracked_flags := tracked_flags f; verified := verified f; community := community f; twaps := tw; windows := w; guards := g;
     buffers := buffers f; last_seen := last_seen f; reported := reported f; validated := validated f; recent := recent f;
     health_assets := health_assets f; health_ledger := health_ledger f; health_paused := health_paused f; health_relayers := health_relayers f |}.
Definition with_buffers (f : feed_store) (b : gmap (bytes * Z) PriceBuffer) : feed_store :=
  {| tracked := tracked f; tracked_flags := tracked_flags f; verified := verified f; community := community f; twaps := twaps f; windows := windows f; guards := guards f;
     buffers := b; last_seen := last_seen f; reported := reported f; validated := validated f; recent := recent f;
     health_assets := health_assets f; health_ledger := health_ledger f; health_paused := health_paused f; health_relayers := health_relayers f |}.
Definition with_reports (f : feed_store) (ls : gmap Address Z) (r : gmap (Address * bytes) Z) (v : gmap bytes Z) : feed_store :=
  {| tracked := tracked f; tracked_flags := tracked_flags f; verified := verified f; community := community f; twaps := twaps f; windows := windows f; guards := guards f;
     buffers := buffers f; last_seen := ls; reported := r; validated := v; recent := recent f;
     health_assets := health_assets f; health_ledger := health_ledger f; health_paused := health_paused f; health_relayers := health_relayers f |}.
Definition with_recent (f : feed_store) (l : list RecentEvent) : feed_store :=
  {| tracked := tracked f; tracked_flags := tracked_flags f; verified := verified f; community := community f; twaps := twaps f; windows := windows f; guards := guards f;
     buffers := buffers f; last_seen := last_seen f; reported := reported f; validated := validated f; recent := l;
     health_assets := health_assets f; health_ledger := health_ledger f; health_paused := health_paused f; health_relayers := health_relayers f |}.

(** ** auth.rs *)
Definition _is_revoked (s : oracle) (a : Address) : bool := bool_decide (a ∈ revoked (roles s)).

(** The first sixteen admins are compared. *)
Definition _is_authorized (s : oracle) (a : Address) : bool :=
  if _is_revoked s a then false else bool_decide (a ∈ take 16 (default [] (admins (roles s)))).

Definition _is_provider (s : oracle) (a : Address) : bool :=
  if _is_revoked s a then false
  else if bool_decide (a ∈ providers (roles s)) then true
  else match delegate_of (roles s) !! a with Some adm => _is_authorized s adm | None => false end.

Definition _get_provider_weight (s : oracle) (a : Address) : Z := default 0 (weights (roles s) !! a).
Definition _is_bypass_active (i : oracle_env) (s : oracle) : bool := match bypass (flags s) with Some e => onow i <? e | None => false end.

Definition _require_not_destroyed (s : oracle) : OR unit := fail_if (destroyed (flags s)) ContractDestroyed.
Definition _require_initialized (s : oracle) : OR unit := fail_if (negb (initialized (flags s))) NotInitialized.

(** ** Freshness *)
Definition is_stale (current_time stored_timestamp ttl : Z) : bool := saturating_add U64 stored_timestamp ttl <=? current_time.
Definition enforce_rate_map_max_age (current_time stored_timestamp : Z) : OR unit :=
  fail_if (saturating_add U64 stored_timestamp MAX_RATE_AGE_SECONDS <? current_time) StaleRateData.

(** ** Locks: lib.rs and reentrancy.rs share the slot. *)
Definition acquire_lock (s : oracle) : OR oracle := _ ← fail_if (is_locked (flags s)) ReentrancyDetected; mret (set_locked s true).
Definition release_lock (s : oracle) : oracle := set_locked s false.

(** ** Tracking and the recent events *)
Definition _track_asset (i : oracle_env) (s : oracle) (a : bytes) : OR oracle :=
  let f := feed s in
  if bool_decide (a ∈ tracked f) then mret s
  else l ← vpush (tracked f) a; mret (set_feed s (with_tracked f l ({[a]} ∪ tracked_flags f) (Some (len l)) (Some (oledger i)))).

Definition log_event (i : oracle_env) (s : oracle) (k : string) (a : bytes) (p : Z) : oracle :=
  let evs := {| event_type := k; ev_asset := a; ev_price := p; ev_timestamp := onow i |} :: recent (feed s) in
  set_feed s (with_recent (feed s) (if 5 <? len evs then removelast evs else evs)).

(** ** Buffers *)
Definition get_price_buffer (i : oracle_env) (s : oracle) (a : bytes) : PriceBuffer :=
  default {| entries := []; b_ledger := oledger i; b_decimals := 0; b_ttl := 0 |} (buffers (feed s) !! (a, oledger i)).
Definition set_price_buffer (s : oracle) (a : bytes) (b : PriceBuffer) : oracle := set_feed s (with_buffers (feed s) (<[(a, b_ledger b) := b]> (buffers (feed s)))).
Definition clear_stale_buffer (i : oracle_env) (b : PriceBuffer) : PriceBuffer :=
  if b_ledger b =? oledger i then b else {| entries := []; b_ledger := oledger i; b_decimals := b_decimals b; b_ttl := b_ttl b |}.
Definition has_provider_submitted (b : PriceBuffer) (p : Address) : bool := existsb (fun e => bool_decide (be_provider e = p)) (entries b).

Definition require_ledger_sequence_advanced (i : oracle_env) (previous : option PriceData) : OR Z :=
  _ ← (match previous with Some p => fail_if (oledger i <=? ledger_sequence p) LedgerGapTooSmall | None => mret tt end); mret (oledger i).

(** The indices and weights, by falling weight: a pair moves left past lighter ones. *)
Definition weighted_entries (s : oracle) (es : list PriceBufferEntry) : list (Z * Z) :=
  imap (fun k e => (Z.of_nat k, _get_provider_weight s (be_provider e))) es.
Definition truncate_buffer_by_weight (s : oracle) (b : PriceBuffer) : PriceBuffer :=
  if len (entries b) <=? MAX_MEDIAN_ENTRIES then b
  else
    let kept := take 11 (sort_stack (fun p => - p.2) (weighted_entries s (entries b))) in
    {| entries := omap (fun p => vget (entries b) p.1) kept; b_ledger := b_ledger b; b_decimals := b_decimals b; b_ttl := b_ttl b |}.

Definition calculate_median_from_buffer (b : PriceBuffer) : OR (option Z) :=
  if len (entries b) =? 0 then mret None
  else
    c ← compact (be_price <$> entries b) [];
    match calculate_median_compacted c with Ok m => mret (Some m) | Err _ => mret None | Panic => Panic end.

(** ** Floors and gaps *)
Definition read_price_floor (s : oracle) (a : bytes) : option Z := floors (config s) !! a.
Definition enforce_price_floor (s : oracle) (a : bytes) (p : Z) : OR unit :=
  match read_price_floor s a with Some fl => fail_if (p <? fl) PriceOutOfBounds | None => mret tt end.
Definition enforce_ledger_gap (i : oracle_env) (s : oracle) (p : Address) : OR unit :=
  let seen := default 0 (last_seen (feed s) !! p) in
  if seen =? 0 then mret tt else fail_if (saturating_sub U32 (oledger i) seen <? MIN_LEDGER_GAP) LedgerGapTooSmall.
Definition get_max_deviation_percentage (s : oracle) : Z := Z.max (default MAX_PERCENT_CHANGE_BPS (max_deviation (config s))) MIN_SAFE_MAX_DEVIATION_BPS.
Definition normalize_price (p : Z) : Z := p.

(** ** The moving average of [update_twap] *)
Definition update_twap (i : oracle_env) (s : oracle) (a : bytes) (p : Z) : OR oracle :=
  new_ema ← (match twaps (feed s) !! a with
             | Some (prev_ema, prev_ledger) =>
                 term1 ← ok_or (checked_mul I128 p 15) PriceMathOverflow;
                 term2 ← ok_or (checked_mul I128 prev_ema 85) PriceMathOverflow;
                 sum ← ok_or (checked_add I128 term1 term2) PriceMathOverflow;
                 new_ema ← ok_or (checked_div I128 sum 100) PriceMathOverflow;
                 if oledger i =? prev_ledger then
                   delta ← (if prev_ema <? new_ema then isub I128 new_ema prev_ema else isub I128 prev_ema new_ema);
                   twice ← ok_or (checked_mul I128 prev_ema 2) PriceMathOverflow;
                   let max_delta := default 0 (checked_div I128 twice 100) in
                   _ ← fail_if (max_delta <? delta) PriceOutOfBounds;
                   mret new_ema
                 else mret new_ema
             | None => mret p
             end);
  mret (set_feed s (with_samples (feed s) (<[a := (new_ema, oledger i)]> (twaps (feed s))) (windows (feed s)) (guards (feed s)))).

(** ** twap.rs *)
Definition read_window (s : oracle) (a : bytes) : list PriceWindowEntry := default [] (windows (feed s) !! a).

Fixpoint sum_prices (l : list PriceWindowEntry) (sum : Z) : option Z :=
  match l with [] => Some sum | e :: rest => s ← checked_add I128 sum (w_price e); sum_prices rest s end.

Definition moving_average (w : list PriceWindowEntry) : option Z :=
  if len w =? 0 then None else s ← sum_prices w 0; checked_div I128 s (len w).

Fixpoint trailing_sum (l : list PriceWindowEntry) (ref sum count : Z) : option (Z * Z) :=
  match l with
  | [] => Some (sum, count)
  | e :: rest =>
      if w_ledger e <? ref then s ← checked_add I128 sum (w_price e); c ← checked_add U32 count 1; trailing_sum rest ref s c
      else trailing_sum rest ref sum count
  end.

Definition trailing_average (w : list PriceWindowEntry) (ref : Z) : option Z :=
  r ← trailing_sum w ref 0 0; if r.2 =? 0 then None else checked_div I128 r.1 r.2.

Definition write_sample (s : oracle) (a : bytes) (p q : Z) : oracle :=
  let es := List.filter (fun e => negb (w_ledger e =? q)) (read_window s a) ++ [{| w_ledger := q; w_price := p |}] in
  let trimmed := drop (length es - 5) es in
  set_feed s (with_samples (feed s) (twaps (feed s)) (<[a := trimmed]> (windows (feed s))) (guards (feed s))).

Definition is_tripped (s : oracle) (a : bytes) : bool := default false (guards (feed s) !! a).
Definition set_tripped (s : oracle) (a : bytes) (b : bool) : oracle :=
  set_feed s (with_samples (feed s) (twaps (feed s)) (windows (feed s)) (<[a := b]> (guards (feed s)))).

Definition record_and_evaluate (i : oracle_env) (s : oracle) (a : bytes) (p : Z) : OR (oracle * Z) :=
  match trailing_average (read_window s a) (oledger i) with
  | Some avg =>
      if 0 <? avg then
        d ← calculate_percentage_difference_bps avg p;
        let deviation := default 0 d in
        let tripped := PRICE_IMPACT_THRESHOLD_BPS <? deviation in
        let s' := write_sample s a p (oledger i) in
        mret (if Bool.eqb tripped (is_tripped s' a) then s' else set_tripped s' a tripped, deviation)
      else mret (write_sample s a p (oledger i), 0)
  | None => mret (write_sample s a p (oledger i), 0)
  end.

Definition enforce_price_impact_guard (s : oracle) (a : bytes) : OR unit := fail_if (is_tripped s a) PriceImpactGuardTriggered.

(** ** callbacks.rs *)
Fixpoint invoke_all (subs : list Address) (p : PriceUpdatePayload) : OR unit :=
  match subs with [] => mret tt | a :: rest => if on_price_update a p then invoke_all rest p else Panic end.

Definition notify_subscribers (s : oracle) (p : PriceUpdatePayload) : OR oracle :=
  s ← acquire_lock s; _ ← invoke_all (subscribers (config s)) p; mret (release_lock s).

Definition subscribe (s : oracle) (a : Address) : OR oracle :=
  let c := config s in
  _ ← fail_if (bool_decide (a ∈ subscribers c)) AlreadyInitialized;
  l ← vpush (subscribers c) a;
  mret (set_config s {| metas := metas c; infos := infos c; floors := floors c; prev_floors := prev_floors c; bounds := bounds c; prev_bounds := prev_bounds c;
    max_deviation := max_deviation c; prev_max_deviation := prev_max_deviation c; thresholds := thresholds c; subscribers := l; gas_tank := gas_tank c;
    fee_token := fee_token c; query_fee := query_fee c; slash_token := slash_token c; insurance_reserve := insurance_reserve c |}).

(** The first occurrence is replaced by the last subscriber. *)
Fixpoint swap_out (l : list Address) (a : Address) : option (list Address) :=
  match l with
  | [] => None
  | x :: rest => if bool_decide (x = a) then Some (match rest with [] => [] | _ => List.last rest x :: removelast rest end)
                 else r ← swap_out rest a; Some (x :: r)
  end.

Definition unsubscribe (s : oracle) (a : Address) : OR oracle :=
  let c := config s in
  l ← ok_or (swap_out (subscribers c) a) AssetNotFound;
  mret (set_config s {| metas := metas c; infos := infos c; floors := floors c; prev_floors := prev_floors c; bounds := bounds c; prev_bounds := prev_bounds c;
    max_deviation := max_deviation c; prev_max_deviation := prev_max_deviation c; thresholds := thresholds c; subscribers := l; gas_tank := gas_tank c;
    fee_token := fee_token c; query_fee := query_fee c; slash_token := slash_token c; insurance_reserve := insurance_reserve c |}).

(** ** validation.rs *)
Definition get_liquidity_threshold (s : oracle) (a : bytes) : option Z := thresholds (config s) !! a.

Definition validate_consensus_quorum (b : PriceBuffer) : OR unit :=
  fail_if (Z.of_nat (size (list_to_set (be_provider <$> entries b) : gset Address)) <? QUORUM_SOURCES) MinimumQuorumNotMet.

Definition set_provider_liquidity (s : oracle) (p : Address) (a : bytes) (x : Z) : oracle :=
  set_feed s (with_reports (feed s) (last_seen (feed s)) (<[(p, a) := x]> (reported (feed s))) (validated (feed s))).

Definition validate_liquidity (i : oracle_env) (s : oracle) (a : bytes) (p : Address) (x : Z) : OR oracle :=
  _ ← fail_if (x <=? 0) InvalidLiquidity;
  match get_liquidity_threshold s a with
  | None => mret s
  | Some t =>
      _ ← fail_if (x <? t) LiquidityBelowThreshold;
      let s := set_provider_liquidity s p a x in
      mret (set_feed s (with_reports (feed s) (last_seen (feed s)) (reported (feed s)) (<[a := onow i]> (validated (feed s)))))
  end.

(** [filter_feeds_by_deviation] *)
Fixpoint filter_feeds (baseline : Z) (feeds : list PriceBufferEntry) : OR (list PriceBufferEntry) :=
  match feeds with
  | [] => mret []
  | e :: rest => w ← within_threshold (be_price e) baseline; r ← filter_feeds baseline rest; mret (if (w : bool) then e :: r else r)
  end.
Definition filter_feeds_by_deviation (twap_ema : option Z) (feeds : list PriceBufferEntry) : OR (list PriceBufferEntry) :=
  match twap_ema with Some b => filter_feeds b feeds | None => mret feeds end.

Definition set_verified (s : oracle) (a : bytes) (p : PriceData) : oracle :=
  set_feed s (with_prices (feed s) (<[a := p]> (verified (feed s))) (community (feed s))).

(** ** Writing prices *)
(** The closure of [set_price]. *)
Definition set_price_body (i : oracle_env) (s : oracle) (a : bytes) (val new_ttl : Z) : OR oracle :=
  _ ← fail_if (negb (is_valid val)) InvalidPrice;
  let normalized := normalize_price val in
  _ ← fail_if (normalized <=? 0) InvalidNormalizedPrice;
  _ ← enforce_price_floor s a normalized;
  let existing := verified (feed s) !! a in
  _ ← (match existing with Some _ => mret tt | None => Panic end);
  s ← _track_asset i s a;
  let now := onow i in
  unchanged ← (match existing with
               | Some current =>
                   q ← require_ledger_sequence_advanced i (Some current);
                   if price current =? val then
                     let current' := {| price := price current; timestamp := now; ledger_sequence := q; provider := provider current; decimals := decimals current;
                                        confidence_score := confidence_score current; ttl := ttl current |} in
                     s ← update_twap i (set_verified s a current') a val;
                     r ← record_and_evaluate i s a val;
                     mret (Some (log_event i r.1 "price_updated"%string a val))
                   else mret None
               | None => mret None
               end);
  match unchanged with
  | Some s => mret s
  | None =>
      let s := set_verified s a {| price := normalized; timestamp := now; ledger_sequence := oledger i; provider := oself i; decimals := 9; confidence_score := 100; ttl := new_ttl |} in
      s ← update_twap i s a normalized;
      r ← record_and_evaluate i s a normalized;
      let s := log_event i r.1 (match existing with Some _ => "price_updated"%string | None => "asset_added"%string end) a normalized in
      let s := match existing with
               | Some old => log_event i s "price_variance"%string a (default 0 (calculate_percentage_change_bps (price old) normalized))
               | None => s
               end in
      notify_subscribers s {| pu_asset := a; pu_price := normalized; pu_timestamp := now; pu_provider := oself i; pu_decimals := 9; pu_confidence := 100 |}
  end.

Definition set_price (i : oracle_env) (s : oracle) (a : bytes) (val decimals ttl : Z) : OR oracle :=
  _ ← _require_not_destroyed s;
  _ ← fail_if (frozen (flags s)) ContractFrozen;
  s ← acquire_lock s;
  s ← set_price_body i s a val ttl;
  mret (release_lock s).

Definition submit_community_price (i : oracle_env) (s : oracle) (source : Address) (a : bytes) (p decimals ttl : Z) : OR oracle :=
  _ ← fail_if (frozen (flags s)) ContractFrozen;
  _ ← require_auth (oauth i) source;
  _ ← fail_if (negb (bool_decide (a ∈ tracked (feed s)))) InvalidAssetSymbol;
  _ ← fail_if (negb (is_valid p)) InvalidPrice;
  let normalized := normalize_price p in
  _ ← fail_if (normalized <=? 0) InvalidNormalizedPrice;
  _ ← require_ledger_sequence_advanced i (community (feed s) !! a);
  let pd := {| price := normalized; timestamp := onow i; ledger_sequence := oledger i; provider := source; decimals := 9; confidence_score := 0; ttl := ttl |} in
  let s := set_feed s (with_prices (feed s) (verified (feed s)) (<[a := pd]> (community (feed s)))) in
  mret (log_event i s "community_price"%string a normalized).

(** The results of the first two checks are dropped in the source. *)
Definition update_price (i : oracle_env) (s : oracle) (source : Address) (a : bytes) (p decimals confidence ttl liquidity : Z) : OR oracle :=
  _ ← fail_if (frozen (flags s)) ContractFrozen;
  _ ← require_auth (oauth i) source;
  _ ← fail_if (negb (bool_decide (a ∈ tracked_flags (feed s)))) AssetNotFound;
  _ ← fail_if (negb (is_valid p)) InvalidPrice;
  _ ← fail_if (negb (_is_provider s source)) NotAuthorized;
  _ ← enforce_ledger_gap i s source;
  let normalized := normalize_price p in
  _ ← fail_if (normalized <=? 0) InvalidNormalizedPrice;
  let buffer := clear_stale_buffer i (get_price_buffer i s a) in
  _ ← fail_if (has_provider_submitted buffer source) AlreadyInitialized;
  let existing := verified (feed s) !! a in
  _ ← require_ledger_sequence_advanced i existing;
  let old_price := match existing with Some pd => price pd | None => 0 end in
  let bypass_active := _is_bypass_active i s in
  _ ← (if (0 <? old_price) && negb bypass_active then
         d ← calculate_percentage_difference_bps old_price normalized;
         match d with Some x => fail_if (get_max_deviation_percentage s <? x) FlashCrashDetected | None => mret tt end
       else mret tt);
  _ ← (if old_price =? 0 then mret 0 else isub I128 normalized old_price);
  _ ← (if bypass_active then mret tt else enforce_price_floor s a normalized);
  _ ← (if bypass_active then mret tt
       else match bounds (config s) !! a with
            | Some b => fail_if ((normalized <? min_price b) || (max_price b <? normalized)) PriceOutOfBounds
            | None => mret tt
            end);
  let entry := {| be_price := normalized; be_provider := source; be_timestamp := onow i |} in
  accepted ← filter_feeds_by_deviation (fst <$> twaps (feed s) !! a) [entry];
  _ ← fail_if (len accepted =? 0) FlashCrashDetected;
  s ← (if bypass_active then mret s else validate_liquidity i s a source liquidity);
  es ← vpush (entries buffer) entry;
  let buffer := {| entries := es; b_ledger := b_ledger buffer; b_decimals := b_decimals buffer; b_ttl := b_ttl buffer |} in
  _ ← (if bypass_active then mret tt else validate_consensus_quorum buffer);
  let buffer := truncate_buffer_by_weight s {| entries := entries buffer; b_ledger := b_ledger buffer; b_decimals := 9; b_ttl := ttl |} in
  let s := set_price_buffer s a buffer in
  m ← calculate_median_from_buffer buffer;
  let median_price := default normalized m in
  _ ← fail_if (median_price <=? 0) InvalidNormalizedPrice;
  let s := set_feed s (with_reports (feed s) (<[source := oledger i]> (last_seen (feed s))) (reported (feed s)) (validated (feed s))) in
  let s := set_verified s a {| price := median_price; timestamp := onow i; ledger_sequence := oledger i; provider := source; decimals := 9;
                               confidence_score := confidence; ttl := ttl |} in
  s ← update_twap i s a median_price;
  r ← record_and_evaluate i s a median_price;
  let s := log_event i r.1 "price_updated"%string a median_price in
  s ← notify_subscribers s {| pu_asset := a; pu_price := median_price; pu_timestamp := onow i; pu_provider := source; pu_decimals := 9; pu_confidence := confidence |};
  match gas_tank (config s) with
  | Some tank => s ← acquire_lock s; if reimburse tank source then mret (release_lock s) else Panic
  | None => mret s
  end.

(** ** Reading prices *)
Definition require_breakers_closed (s : oracle) (a : bytes) : OR unit :=
  fail_if (breaker (flags s) || bool_decide (a ∈ asset_breakers (flags s))) CircuitBreakerActive.

(** The fee of a query goes from the invoker to the contract. *)
Definition process_query_fee (i : oracle_env) (l : Ledger) (s : oracle) (p : Address) : OR (oracle * Ledger) :=
  let fee := default 0 (query_fee (config s)) in
  if fee <=? 0 then mret (s, l)
  else
    tok ← ok_or (fee_token (config s)) FeeTokenNotSet;
    s ← acquire_lock s;
    l ← unwrap (transfer l tok (invoker i) (oself i) fee);
    let s := release_lock s in
    let m := money s in
    r ← ok_or (checked_add I128 (default 0 (rewards m !! p)) fee) PriceMathOverflow;
    v ← ok_or (checked_add I128 (default 0 (fee_vaults m !! tok)) fee) PriceMathOverflow;
    mret (set_money s {| fee_vaults := <[tok := v]> (fee_vaults m); rewards := <[p := r]> (rewards m); stakes := stakes m; missed := missed m; streaks := streaks m;
                         unbonding := unbonding m |}, l).

Definition get_price (i : oracle_env) (l : Ledger) (s : oracle) (a : bytes) (v : bool) : OR (oracle * Ledger * PriceData) :=
  _ ← fail_if (halted (flags s)) EmergencyHalted;
  _ ← require_breakers_closed s a;
  pd ← ok_or ((if v then verified (feed s) else community (feed s)) !! a) AssetNotFound;
  _ ← enforce_rate_map_max_age (onow i) (timestamp pd);
  _ ← fail_if (is_stale (onow i) (timestamp pd) (ttl pd)) AssetNotFound;
  r ← process_query_fee i l s (provider pd);
  mret (r, pd).

Definition get_price_with_status (i : oracle_env) (s : oracle) (a : bytes) : OR (PriceData * bool) :=
  _ ← fail_if (halted (flags s)) EmergencyHalted;
  _ ← require_breakers_closed s a;
  pd ← ok_or (verified (feed s) !! a) AssetNotFound;
  mret (pd, is_stale (onow i) (timestamp pd) (ttl pd)).

Definition get_price_safe (s : oracle) (a : bytes) : OR (option PriceData) :=
  _ ← fail_if (halted (flags s)) EmergencyHalted;
  _ ← require_breakers_closed s a;
  mret (verified (feed s) !! a).

Definition get_last_price (i : oracle_env) (l : Ledger) (s : oracle) (a : bytes) : OR (oracle * Ledger * Z) :=
  _ ← fail_if (halted (flags s)) EmergencyHalted;
  r ← get_price i l s a true;
  mret (r.1, price r.2).

Definition price_entry (i : oracle_env) (s : oracle) (a : bytes) : option (Z * Z * Z) :=
  pd ← verified (feed s) !! a;
  if is_stale (onow i) (timestamp pd) (ttl pd) then None else Some (price pd, timestamp pd, decimals pd).
Definition get_prices (i : oracle_env) (s : oracle) (assets : list bytes) : OR (list (option (Z * Z * Z))) :=
  _ ← fail_if (halted (flags s)) EmergencyHalted; mret (price_entry i s <$> assets).

Definition price_status (i : oracle_env) (s : oracle) (a : bytes) : option (Z * Z * bool) :=
  pd ← verified (feed s) !! a; Some (price pd, timestamp pd, is_stale (onow i) (timestamp pd) (ttl pd)).
Definition get_prices_with_status (i : oracle_env) (s : oracle) (assets : list bytes) : OR (list (option (Z * Z * bool))) :=
  _ ← fail_if (halted (flags s)) EmergencyHalted; mret (price_status i s <$> assets).

(** [calculate_index_price] charges the fee of every price it reads. *)
Fixpoint index_sum (i : oracle_env) (l : Ledger) (s : oracle) (components : list (bytes * Z)) (total weight : Z) : OR (oracle * Ledger * (Z * Z)) :=
  match components with
  | [] => mret (s, l, (total, weight))
  | (a, w) :: rest =>
      _ ← fail_if (negb (bool_decide (a ∈ tracked_flags (feed s)))) AssetNotFound;
      _ ← fail_if (w =? 0) InvalidWeight;
      r ← get_price i l s a true;
      x ← ok_or (checked_mul I128 (price r.2) w) InvalidPrice;
      total ← ok_or (checked_add I128 total x) InvalidPrice;
      index_sum i r.1.2 r.1.1 rest total (default weight (checked_add U32 weight w))
  end.

Definition get_index_price (i : oracle_env) (l : Ledger) (s : oracle) (components : list (bytes * Z)) : OR (oracle * Ledger * Z) :=
  _ ← fail_if (halted (flags s)) EmergencyHalted;
  _ ← fail_if (len components =? 0) AssetNotFound;
  r ← index_sum i l s components 0 0;
  _ ← fail_if (r.2.2 =? 0) InvalidWeight;
  x ← ok_or (checked_div I128 r.2.1 r.2.2) PriceMathOverflow;
  mret (r.1, x).

Definition get_twap (s : oracle) (a : bytes) : OR (option Z) := _ ← fail_if (halted (flags s)) EmergencyHalted; mret (fst <$> twaps (feed s) !! a).
Definition get_price_moving_average (s : oracle) (a : bytes) : OR (option Z) :=
  _ ← fail_if (halted (flags s)) EmergencyHalted; mret (moving_average (read_window s a)).
Definition check_price_impact_guard (s : oracle) (a : bytes) : OR unit := _ ← fail_if (halted (flags s)) EmergencyHalted; enforce_price_impact_guard s a.
Definition get_relayer_count (i : oracle_env) (s : oracle) (a : bytes) : Z := len (entries (get_price_buffer i s a)).
Definition get_price_buffer_data (i : oracle_env) (s : oracle) (a : bytes) : option PriceBuffer :=
  let b := get_price_buffer i s a in if len (entries b) =? 0 then None else Some b.
Definition get_last_n_events (s : oracle) (n : Z) : list RecentEvent := take (Z.to_nat (Z.min n (len (recent (feed s))))) (recent (feed s)).
End oracle.
