(* ===== verification/OracleAdmin.v ===== *)
(** * The price oracle: administration, fees and stakes

    [src/contracts/price-oracle/src/]: the entry points of lib.rs that configure the
    contract, its admins and delegates (auth.rs), its coordinators and circuit breakers
    (admin.rs, role_registry.rs), the query fees, and the stakes and unbonding of
    slashing.rs, over the storage of [Oracle]. The proposals of the multi-signature and
    [slash_for_low_liquidity], whose body the repository does not contain, are left out;
    so are the upgrade and the descriptions. *)

From stdpp Require Import base numbers list gmap strings.
From Stdlib Require Import ZArith Lia.
From S2P Require Import Prelude Host Token OracleMath Oracle.

Open Scope Z_scope.

Definition ADMIN_TIMELOCK : Z := 86400.
Definition MIN_LIQUIDITY_THRESHOLD : Z := 10000000.
Definition MAX_LIQUIDITY_THRESHOLD : Z := 10000000000000000.
Definition MIN_UNBONDING_DELAY_LEDGERS : Z := 10000.

Record AssetRegistrationConfig := {
  rc_asset : bytes; rc_name : bytes; rc_base_decimals : Z; rc_quote_decimals : Z; rc_min_price : Z; rc_max_price : Z; rc_price_floor : option Z }.
Record OracleHealth := { active_relayers : Z; oh_paused : bool; total_assets : Z; last_ledger : Z }.

Section admin.
Context {H : Host} {T : Tokens H}.
(** [validation::validate_asset_registration_configs], which the repository does not contain *)
Variable validate_asset_registration_configs : list AssetRegistrationConfig -> Z -> OR unit.

(** ** Writers *)
Definition with_admins (r : role_store) (a : option (list Address)) : role_store :=
  {| admins := a; revoked := revoked r; providers := providers r; weights := weights r; relayers := relayers r; delegates := delegates r; delegate_of := delegate_of r;
     council := council r; pending_admin := pending_admin r; pending_since := pending_since r; coordinator_role := coordinator_role r; coordinators := coordinators r |}.
Definition with_providers (r : role_store) (rv pr : gset Address) (rl : list Address) : role_store :=
  {| admins := admins r; revoked := rv; providers := pr; weights := weights r; relayers := rl; delegates := delegates r; delegate_of := delegate_of r;
     council := council r; pending_admin := pending_admin r; pending_since := pending_since r; coordinator_role := coordinator_role r; coordinators := coordinators r |}.
Definition with_delegates (r : role_store) (d o : gmap Address Address) : role_store :=
  {| admins := admins r; revoked := revoked r; providers := providers r; weights := weights r; relayers := relayers r; delegates := d; delegate_of := o;
     council := council r; pending_admin := pending_admin r; pending_since := pending_since r; coordinator_role := coordinator_role r; coordinators := coordinators r |}.
Definition with_council (r : role_store) (c : option Address) : role_store :=
  {| admins := admins r; revoked := revoked r; providers := providers r; weights := weights r; relayers := relayers r; delegates := delegates r; delegate_of := delegate_of r;
     council := c; pending_admin := pending_admin r; pending_since := pending_since r; coordinator_role := coordinator_role r; coordinators := coordinators r |}.
Definition with_pending (r : role_store) (p : option Address) (t : option Z) : role_store :=
  {| admins := admins r; revoked := revoked r; providers := providers r; weights := weights r; relayers := relayers r; delegates := delegates r; delegate_of := delegate_of r;
     council := council r; pending_admin := p; pending_since := t; coordinator_role := coordinator_role r; coordinators := coordinators r |}.
Definition with_coordinators (r : role_store) (c : gset Address) (l : list Address) : role_store :=
  {| admins := admins r; revoked := revoked r; providers := providers r; weights := weights r; relayers := relayers r; delegates := delegates r; delegate_of := delegate_of r;
     council := council r; pending_admin := pending_admin r; pending_since := pending_since r; coordinator_role := c; coordinators := l |}.

Definition with_life (f : flag_store) (d n : bool) : flag_store :=
  {| destroyed := d; initialized := n; frozen := frozen f; halted := halted f; paused := paused f; bypass := bypass f; is_locked := is_locked f;
     breaker := breaker f; tripped_at := tripped_at f; tripped_by := tripped_by f; asset_breakers := asset_breakers f; baseline := baseline f |}.
Definition with_stops (f : flag_store) (fr ha pa : bool) (b : option Z) : flag_store :=
  {| destroyed := destroyed f; initialized := initialized f; frozen := fr; halted := ha; paused := pa; bypass := bypass f; is_locked := is_locked f;
     breaker := breaker f; tripped_at := tripped_at f; tripped_by := tripped_by f; asset_breakers := asset_breakers f; baseline := b |}.
Definition with_bypass (f : flag_store) (b : option Z) : flag_store :=
  {| destroyed := destroyed f; initialized := initialized f; frozen := frozen f; halted := halted f; paused := paused f; bypass := b; is_locked := is_locked f;
     breaker := breaker f; tripped_at := tripped_at f; tripped_by := tripped_by f; asset_breakers := asset_breakers f; baseline := baseline f |}.
Definition with_breaker (f : flag_store) (b : bool) (t : option Z) (w : option Address) (m : gset bytes) : flag_store :=
  {| destroyed := destroyed f; initialized := initialized f; frozen := frozen f; halted := halted f; paused := paused f; bypass := bypass f; is_locked := is_locked f;
     breaker := b; tripped_at := t; tripped_by := w; asset_breakers := m; baseline := baseline f |}.

Definition with_infos (c : config_store) (m : gmap bytes AssetMeta) (n : gmap bytes AssetInfo) : config_store :=
  {| metas := m; infos := n; floors := floors c; prev_floors := prev_floors c; bounds := bounds c; prev_bounds := prev_bounds c; max_deviation := max_deviation c;
     prev_max_deviation := prev_max_deviation c; thresholds := thresholds c; subscribers := subscribers c; gas_tank := gas_tank c; fee_token := fee_token c;
     query_fee := query_fee c; slash_token := slash_token c; insurance_reserve := insurance_reserve c |}.
Definition with_floors (c : config_store) (m p : gmap bytes Z) : config_store :=
  {| metas := metas c; infos := infos c; floors := m; prev_floors := p; bounds := bounds c; prev_bounds := prev_bounds c; max_deviation := max_deviation c;
     prev_max_deviation := prev_max_deviation c; thresholds := thresholds c; subscribers := subscribers c; gas_tank := gas_tank c; fee_token := fee_token c;
     query_fee := query_fee c; slash_token := slash_token c; insurance_reserve := insurance_reserve c |}.
Definition with_bounds (c : config_store) (m p : gmap bytes PriceBounds) : config_store :=
  {| metas := metas c; infos := infos c; floors := floors c; prev_floors := prev_floors c; bounds := m; prev_bounds := p; max_deviation := max_deviation c;
     prev_max_deviation := prev_max_deviation c; thresholds := thresholds c; subscribers := subscribers c; gas_tank := gas_tank c; fee_token := fee_token c;
     query_fee := query_fee c; slash_token := slash_token c; insurance_reserve := insurance_reserve c |}.
Definition with_deviation (c : config_store) (d p : option Z) : config_store :=
  {| metas := metas c; infos := infos c; floors := floors c; prev_floors := prev_floors c; bounds := bounds c; prev_bounds := prev_bounds c; max_deviation := d;
     prev_max_deviation := p; thresholds := thresholds c; subscribers := subscribers c; gas_tank := gas_tank c; fee_token := fee_token c;
     query_fee := query_fee c; slash_token := slash_token c; insurance_reserve := insurance_reserve c |}.
Definition with_thresholds (c : config_store) (m : gmap bytes Z) : config_store :=
  {| metas := metas c; infos := infos c; floors := floors c; prev_floors := prev_floors c; bounds := bounds c; prev_bounds := prev_bounds c; max_deviation := max_deviation c;
     prev_max_deviation := prev_max_deviation c; thresholds := m; subscribers := subscribers c; gas_tank := gas_tank c; fee_token := fee_token c;
     query_fee := query_fee c; slash_token := slash_token c; insurance_reserve := insurance_reserve c |}.
Definition with_money_config (c : config_store) (g f : option Address) (q : option Z) (sl ir : option Address) : config_store :=
  {| metas := metas c; infos := infos c; floors := floors c; prev_floors := prev_floors c; bounds := bounds c; prev_bounds := prev_bounds c; max_deviation := max_deviation c;
     prev_max_deviation := prev_max_deviation c; thresholds := thresholds c; subscribers := subscribers c; gas_tank := g; fee_token := f;
     query_fee := q; slash_token := sl; insurance_reserve := ir |}.
Definition with_stakes (m : money_store) (st : gmap Address Z) : money_store :=
  {| fee_vaults := fee_vaults m; rewards := rewards m; stakes := st; missed := missed m; streaks := streaks m; unbonding := unbonding m |}.
Definition with_uptime (m : money_store) (ms sk : gmap Address Z) : money_store :=
  {| fee_vaults := fee_vaults m; rewards := rewards m; stakes := stakes m; missed := ms; streaks := sk; unbonding := unbonding m |}.
Definition with_unbonding (m : money_store) (u : gmap Address UnbondingRequest) : money_store :=
  {| fee_vaults := fee_vaults m; rewards := rewards m; stakes := stakes m; missed := missed m; streaks := streaks m; unbonding := u |}.

(** ** The checks an entry point of the admin starts with *)
Definition admin_only (i : oracle_env) (s : oracle) (a : Address) : OR unit :=
  _ ← require_auth (oauth i) a; fail_if (negb (_is_authorized s a)) NotAuthorized.
Definition live_admin (i : oracle_env) (s : oracle) (a : Address) : OR unit :=
  _ ← _require_not_destroyed s; _ ← fail_if (frozen (flags s)) ContractFrozen; admin_only i s a.
Definition config_admin (i : oracle_env) (s : oracle) (a : Address) : OR unit :=
  _ ← _require_not_destroyed s; _ ← _require_initialized s; _ ← fail_if (frozen (flags s)) ContractFrozen; admin_only i s a.

(** Two different admins. *)
Definition two_admins (i : oracle_env) (s : oracle) (a b : Address) : OR unit :=
  _ ← require_auth (oauth i) a; _ ← require_auth (oauth i) b;
  fail_if (negb (_is_authorized s a) || negb (_is_authorized s b)) NotAuthorized.

(** ** Initialisation and assets *)
Definition initialize (s : oracle) (admin : Address) (pairs : list bytes) : OR oracle :=
  _ ← fail_if (initialized (flags s) || bool_decide (is_Some (admins (roles s)))) AlreadyInitialized;
  let f := feed s in
  let s := set_roles s (with_admins (roles s) (Some [admin])) in
  let s := set_feed s (with_tracked f pairs (tracked_flags f) (health_assets f) (health_ledger f)) in
  mret (set_flags s (with_life (flags s) (destroyed (flags s)) true)).

Definition init_admin (s : oracle) (admin : Address) : OR oracle :=
  _ ← _require_not_destroyed s;
  _ ← fail_if (initialized (flags s)) AlreadyInitialized;
  let s := set_roles s (with_admins (roles s) (Some [admin])) in
  mret (set_flags s (with_life (flags s) (destroyed (flags s)) true)).

(** The zero price an added asset starts with. *)
Definition placeholder (i : oracle_env) : PriceData :=
  {| price := 0; timestamp := onow i; ledger_sequence := oledger i; provider := oself i; decimals := 0; confidence_score := 0; ttl := 0 |}.
Definition ensure_price (i : oracle_env) (s : oracle) (a : bytes) : oracle :=
  match verified (feed s) !! a with Some _ => s | None => set_verified s a (placeholder i) end.

Definition add_asset (i : oracle_env) (s : oracle) (admin : Address) (a : bytes) : OR oracle :=
  _ ← config_admin i s admin;
  s ← _track_asset i s a;
  mret (log_event i (ensure_price i s a) "asset_added"%string a 0).

Definition set_asset_decimals (i : oracle_env) (s : oracle) (admin : Address) (a : bytes) (b q : Z) : OR oracle :=
  _ ← live_admin i s admin;
  let c := config s in
  mret (set_config s (with_infos c (<[a := {| base_decimals := b; quote_decimals := q |}]> (metas c)) (infos c))).

Definition set_asset_info (i : oracle_env) (s : oracle) (admin : Address) (a name : bytes) (b q : Z) : OR oracle :=
  _ ← live_admin i s admin;
  let c := config s in
  mret (set_config s (with_infos c (metas c) (<[a := {| ai_name := name; ai_base_decimals := b; ai_quote_decimals := q |}]> (infos c)))).

Definition register_one (i : oracle_env) (s : oracle) (g : AssetRegistrationConfig) : OR oracle :=
  let a := rc_asset g in
  s ← _track_asset i s a;
  let s := ensure_price i s a in
  let c := config s in
  let c := with_infos c (<[a := {| base_decimals := rc_base_decimals g; quote_decimals := rc_quote_decimals g |}]> (metas c))
             (<[a := {| ai_name := rc_name g; ai_base_decimals := rc_base_decimals g; ai_quote_decimals := rc_quote_decimals g |}]> (infos c)) in
  let c := with_bounds c (<[a := {| min_price := rc_min_price g; max_price := rc_max_price g |}]> (bounds c)) (prev_bounds c) in
  let c := match rc_price_floor g with Some p => with_floors c (<[a := p]> (floors c)) (prev_floors c) | None => c end in
  mret (log_event i (set_config s c) "asset_added"%string a 0).

Fixpoint register_all (i : oracle_env) (s : oracle) (gs : list AssetRegistrationConfig) : OR oracle :=
  match gs with [] => mret s | g :: rest => s ← register_one i s g; register_all i s rest end.

Definition register_assets_with_config (i : oracle_env) (s : oracle) (admin : Address) (gs : list AssetRegistrationConfig) (bps : Z) : OR oracle :=
  _ ← config_admin i s admin;
  _ ← validate_asset_registration_configs gs bps;
  let c := config s in
  let s := set_config s (with_deviation c (Some bps) (match max_deviation c with Some e => Some e | None => prev_max_deviation c end)) in
  register_all i s gs.

Definition remove_asset (i : oracle_env) (s : oracle) (admin : Address) (a : bytes) : OR oracle :=
  _ ← live_admin i s admin;
  _ ← fail_if (negb (bool_decide (is_Some (verified (feed s) !! a)))) AssetNotFound;
  let f := feed s in
  let c := config s in
  let left := List.filter (fun b => negb (bool_decide (b = a))) (tracked f) in
  let f := with_prices f (delete a (verified f)) (delete a (community f)) in
  let f := with_tracked f left (tracked_flags f ∖ {[a]}) (Some (len left)) (Some (oledger i)) in
  let c := with_bounds (with_floors c (delete a (floors c)) (prev_floors c)) (delete a (bounds c)) (prev_bounds c) in
  mret (set_config (set_feed s f) c).

(** ** Admins *)
Definition _add_authorized (s : oracle) (a : Address) : OR oracle :=
  if _is_revoked s a then mret s
  else
    l ← ok_or (admins (roles s)) AdminNotSet;
    if bool_decide (a ∈ l) then mret s else l' ← vpush l a; mret (set_roles s (with_admins (roles s) (Some l'))).

Definition _remove_authorized (s : oracle) (a : Address) : oracle :=
  match admins (roles s) with
  | None => s
  | Some l =>
      let filtered := List.filter (fun b => negb (bool_decide (b = a))) l in
      if len filtered <? len l then set_roles s (with_admins (roles s) (Some filtered)) else s
  end.

Definition _remove_provider (s : oracle) (a : Address) : oracle :=
  let r := roles s in
  let rl := List.filter (fun b => negb (bool_decide (b = a))) (relayers r) in
  let s := set_roles s (with_providers r (revoked r) (providers r ∖ {[a]}) rl) in
  let f := feed s in
  set_feed s {| tracked := tracked f; tracked_flags := tracked_flags f; verified := verified f; community := community f; twaps := twaps f; windows := windows f;
    guards := guards f; buffers := buffers f; last_seen := last_seen f; reported := reported f; validated := validated f; recent := recent f;
    health_assets := health_assets f; health_ledger := health_ledger f; health_paused := health_paused f; health_relayers := Some (len rl) |}.

Definition _revoke_key (s : oracle) (a : Address) : oracle * bool :=
  if _is_revoked s a then (s, false)
  else
    let r := roles s in
    let s := set_roles s (with_providers r ({[a]} ∪ revoked r) (providers r) (relayers r)) in
    (_remove_provider (_remove_authorized s a) a, true).

Definition revoke_key (i : oracle_env) (s : oracle) (coordinator target : Address) : OR (oracle * bool) :=
  _ ← admin_only i s coordinator; mret (_revoke_key s target).

Definition transfer_admin (i : oracle_env) (s : oracle) (current new_admin : Address) : OR oracle :=
  _ ← _require_not_destroyed s; _ ← admin_only i s current;
  mret (set_roles s (with_pending (roles s) (Some new_admin) (Some (onow i)))).

Definition accept_admin (i : oracle_env) (s : oracle) (new_admin : Address) : OR oracle :=
  _ ← _require_not_destroyed s;
  _ ← require_auth (oauth i) new_admin;
  p ← ok_or (pending_admin (roles s)) PendingAdminNotFound;
  _ ← fail_if (negb (bool_decide (p = new_admin))) NotPendingAdmin;
  t ← ok_or (pending_since (roles s)) PendingAdminTimestampMissing;
  _ ← fail_if (onow i <? saturating_add U64 t ADMIN_TIMELOCK) AdminTimelockNotExpired;
  mret (set_roles s (with_pending (with_admins (roles s) (Some [new_admin])) None None)).

Definition renounce_ownership (i : oracle_env) (s : oracle) (admin : Address) : OR oracle :=
  _ ← _require_not_destroyed s; _ ← admin_only i s admin; mret (set_roles s (with_admins (roles s) None)).

Definition with_paused (s : oracle) (b : bool) : oracle :=
  let g := flags s in
  let f := feed s in
  set_feed (set_flags s (with_stops g (frozen g) (halted g) b (baseline g)))
    {| tracked := tracked f; tracked_flags := tracked_flags f; verified := verified f; community := community f; twaps := twaps f; windows := windows f;
       guards := guards f; buffers := buffers f; last_seen := last_seen f; reported := reported f; validated := validated f; recent := recent f;
       health_assets := health_assets f; health_ledger := health_ledger f; health_paused := Some b; health_relayers := health_relayers f |}.

Definition toggle_pause (i : oracle_env) (s : oracle) (a b : Address) : OR (oracle * bool) :=
  _ ← fail_if (frozen (flags s)) ContractFrozen;
  _ ← fail_if (bool_decide (a = b)) MultiSigValidationFailed;
  _ ← two_admins i s a b;
  l ← ok_or (admins (roles s)) AdminNotSet;
  _ ← fail_if (len l <? 2) MultiSigValidationFailed;
  let p := negb (paused (flags s)) in mret (with_paused s p, p).

Definition register_admin (i : oracle_env) (s : oracle) (a b new_admin : Address) : OR oracle :=
  _ ← fail_if (frozen (flags s)) ContractFrozen;
  _ ← fail_if (bool_decide (a = b)) MultiSigValidationFailed;
  _ ← two_admins i s a b;
  l ← ok_or (admins (roles s)) AdminNotSet;
  _ ← fail_if (3 <=? len l) MultiSigValidationFailed;
  _add_authorized s new_admin.

Definition remove_admin (i : oracle_env) (s : oracle) (a b gone : Address) : OR oracle :=
  _ ← fail_if (frozen (flags s)) ContractFrozen;
  _ ← fail_if (bool_decide (a = b)) MultiSigValidationFailed;
  _ ← two_admins i s a b;
  l ← ok_or (admins (roles s)) AdminNotSet;
  _ ← fail_if (len l <=? 1) MultiSigValidationFailed;
  _ ← fail_if (negb (bool_decide (gone ∈ l))) NotAuthorized;
  mret (_remove_authorized s gone).

(** What the destruction removes and sets. *)
Definition wipe (s : oracle) : oracle :=
  let s := set_roles s (with_pending (with_admins (roles s) None) None None) in
  let f := feed s in
  let s := set_feed s (with_recent (with_tracked f [] (tracked_flags f) (health_assets f) (health_ledger f)) []) in
  let g := flags s in
  set_flags s (with_life (with_stops g (frozen g) (halted g) false (baseline g)) true false).

Definition self_destruct (i : oracle_env) (s : oracle) (a b : Address) : OR oracle :=
  _ ← _require_not_destroyed s;
  _ ← fail_if (frozen (flags s)) ContractFrozen;
  _ ← require_auth (oauth i) a; _ ← require_auth (oauth i) b;
  _ ← fail_if (bool_decide (a = b)) MultiSigValidationFailed;
  _ ← fail_if (negb (_is_authorized s a) || negb (_is_authorized s b)) NotAuthorized;
  l ← ok_or (admins (roles s)) AdminNotSet;
  _ ← fail_if (len l <? 2) MultiSigValidationFailed;
  mret (wipe s).

Definition _set_delegate (s : oracle) (admin d : Address) : oracle :=
  let r := roles s in
  let o := match delegates r !! admin with Some old => delete old (delegate_of r) | None => delegate_of r end in
  set_roles s (with_delegates r (<[admin := d]> (delegates r)) (<[d := admin]> o)).

Definition assign_delegate (i : oracle_env) (s : oracle) (admin d : Address) : OR oracle :=
  _ ← fail_if (frozen (flags s)) ContractFrozen;
  _ ← admin_only i s admin;
  _ ← fail_if (bool_decide (admin = d)) InvalidDelegate;
  mret (_set_delegate s admin d).

Definition revoke_delegate (i : oracle_env) (s : oracle) (admin : Address) : OR oracle :=
  _ ← admin_only i s admin;
  let r := roles s in
  mret (match delegates r !! admin with Some d => set_roles s (with_delegates r (delete admin (delegates r)) (delete d (delegate_of r))) | None => s end).

(** ** Limits *)
Definition set_price_floor (i : oracle_env) (s : oracle) (admin : Address) (a : bytes) (p : Z) : OR oracle :=
  _ ← config_admin i s admin;
  _ ← fail_if (p <=? 0) InvalidPriceFloor;
  let c := config s in
  _ ← (match bounds c !! a with Some b => fail_if (max_price b <? p) InvalidPriceFloor | None => mret tt end);
  mret (set_config s (with_floors c (<[a := p]> (floors c)) (match floors c !! a with Some e => <[a := e]> (prev_floors c) | None => prev_floors c end))).

Definition rollback_price_floor (i : oracle_env) (s : oracle) (admin : Address) (a : bytes) : OR oracle :=
  _ ← config_admin i s admin;
  let c := config s in
  p ← ok_or (prev_floors c !! a) NoPreviousConfig;
  mret (set_config s (with_floors c (<[a := p]> (floors c)) (delete a (prev_floors c)))).

Definition set_price_bounds (i : oracle_env) (s : oracle) (admin : Address) (a : bytes) (lo hi : Z) : OR oracle :=
  _ ← config_admin i s admin;
  _ ← fail_if ((lo <=? 0) || (hi <=? 0) || (hi <? lo)) InvalidPriceBounds;
  _ ← (match read_price_floor s a with Some p => fail_if (hi <? p) InvalidPriceBounds | None => mret tt end);
  let c := config s in
  mret (set_config s (with_bounds c (<[a := {| min_price := lo; max_price := hi |}]> (bounds c))
                        (match bounds c !! a with Some e => <[a := e]> (prev_bounds c) | None => prev_bounds c end))).

Definition rollback_price_bounds (i : oracle_env) (s : oracle) (admin : Address) (a : bytes) : OR oracle :=
  _ ← config_admin i s admin;
  let c := config s in
  p ← ok_or (prev_bounds c !! a) NoPreviousConfig;
  mret (set_config s (with_bounds c (<[a := p]> (bounds c)) (delete a (prev_bounds c)))).

Definition set_max_deviation_percentage (i : oracle_env) (s : oracle) (admin : Address) (bps : Z) : OR oracle :=
  _ ← config_admin i s admin;
  _ ← fail_if ((bps <? MIN_SAFE_MAX_DEVIATION_BPS) || (10000 <? bps)) InvalidMaxDeviation;
  let c := config s in
  mret (set_config s (with_deviation c (Some bps) (match max_deviation c with Some e => Some e | None => prev_max_deviation c end))).

Definition rollback_max_deviation_pct (i : oracle_env) (s : oracle) (admin : Address) : OR oracle :=
  _ ← config_admin i s admin;
  let c := config s in
  p ← ok_or (prev_max_deviation c) NoPreviousConfig;
  _ ← fail_if (p <? MIN_SAFE_MAX_DEVIATION_BPS) InvalidMaxDeviation;
  mret (set_config s (with_deviation c (Some p) None)).

Definition set_liquidity_threshold (i : oracle_env) (s : oracle) (admin : Address) (a : bytes) (t : Z) : OR oracle :=
  _ ← config_admin i s admin;
  _ ← fail_if ((t <? MIN_LIQUIDITY_THRESHOLD) || (MAX_LIQUIDITY_THRESHOLD <? t)) InvalidLiquidityThreshold;
  mret (set_config s (with_thresholds (config s) (<[a := t]> (thresholds (config s))))).

Definition remove_liquidity_threshold (i : oracle_env) (s : oracle) (admin : Address) (a : bytes) : OR oracle :=
  _ ← config_admin i s admin; mret (set_config s (with_thresholds (config s) (delete a (thresholds (config s))))).

(** ** Freeze, halt, bypass *)
Definition set_council (i : oracle_env) (s : oracle) (admin c : Address) : OR oracle :=
  _ ← live_admin i s admin; mret (set_roles s (with_council (roles s) (Some c))).

Definition emergency_freeze (i : oracle_env) (s : oracle) (c : Address) : OR oracle :=
  _ ← require_auth (oauth i) c;
  _ ← fail_if (negb (bool_decide (council (roles s) = Some c))) CouncilRequired;
  let g := flags s in
  _ ← fail_if (frozen g) AlreadyInitialized;
  mret (set_flags s (with_stops g true (halted g) (paused g) (baseline g))).

(** [_perform_graceful_recovery] *)
Definition recover_relayer (q : Z) (s : oracle) (r : Address) : oracle :=
  let m := money s in
  let s := set_money s (with_uptime m (delete r (missed m)) (delete r (streaks m))) in
  set_feed s (with_reports (feed s) (<[r := q]> (last_seen (feed s))) (reported (feed s)) (validated (feed s))).
Definition recover_asset (s : oracle) (a : bytes) : oracle :=
  let f := feed s in set_feed s (with_samples f (delete a (twaps f)) (delete a (windows f)) (delete a (guards f))).
Definition _perform_graceful_recovery (i : oracle_env) (s : oracle) : oracle :=
  let g := flags s in
  let s := set_flags s (with_stops g (frozen g) (halted g) (paused g) (Some (oledger i))) in
  let s := set_feed s (with_recent (feed s) []) in
  let s := foldl (recover_relayer (oledger i)) s (relayers (roles s)) in
  foldl recover_asset s (tracked (feed s)).

Definition set_emergency_halt (i : oracle_env) (s : oracle) (a b : Address) (status : bool) : OR oracle :=
  _ ← _require_not_destroyed s;
  _ ← fail_if (bool_decide (a = b)) MultiSigValidationFailed;
  _ ← two_admins i s a b;
  let g := flags s in
  let s' := set_flags s (with_stops g (frozen g) status (paused g) (baseline g)) in
  mret (if halted g && negb status then _perform_graceful_recovery i s' else s').

Definition enable_bypass_safety_checks (i : oracle_env) (s : oracle) (admin : Address) : OR (oracle * Z) :=
  _ ← live_admin i s admin;
  e ← iadd U64 (onow i) 3600;
  mret (set_flags s (with_bypass (flags s) (Some e)), e).

Definition disable_bypass_safety_checks (i : oracle_env) (s : oracle) (admin : Address) : OR oracle :=
  _ ← _require_not_destroyed s; _ ← admin_only i s admin; mret (set_flags s (with_bypass (flags s) None)).

(** ** Circuit breakers: admin.rs *)
Definition register_circuit_breaker_coordinator (i : oracle_env) (s : oracle) (admin c : Address) : OR oracle :=
  _ ← admin_only i s admin;
  let r := roles s in
  if bool_decide (c ∈ coordinator_role r) then mret s
  else l ← vpush (coordinators r) c; mret (set_roles s (with_coordinators r ({[c]} ∪ coordinator_role r) l)).

Definition remove_circuit_breaker_coordinator (i : oracle_env) (s : oracle) (admin c : Address) : OR oracle :=
  _ ← admin_only i s admin;
  let r := roles s in
  mret (set_roles s (with_coordinators r (coordinator_role r ∖ {[c]}) (List.filter (fun b => negb (bool_decide (b = c))) (coordinators r)))).

Definition _require_coordinator (i : oracle_env) (s : oracle) (c : Address) : OR unit :=
  _ ← require_auth (oauth i) c; fail_if (negb (bool_decide (c ∈ coordinator_role (roles s)))) NotCoordinator.

Definition trip_circuit_breaker (i : oracle_env) (s : oracle) (c : Address) : OR oracle :=
  _ ← _require_coordinator i s c;
  let g := flags s in
  _ ← fail_if (breaker g) CircuitBreakerAlreadyActive;
  mret (set_flags s (with_breaker g true (Some (onow i)) (Some c) (asset_breakers g))).

Definition reset_circuit_breaker (i : oracle_env) (s : oracle) (c : Address) : OR oracle :=
  _ ← _require_coordinator i s c;
  let g := flags s in
  _ ← fail_if (negb (breaker g)) CircuitBreakerNotActive;
  mret (set_flags s (with_breaker g false (tripped_at g) (tripped_by g) (asset_breakers g))).

Definition trip_circuit_breaker_for_asset (i : oracle_env) (s : oracle) (c : Address) (a : bytes) : OR oracle :=
  _ ← _require_coordinator i s c;
  let g := flags s in mret (set_flags s (with_breaker g (breaker g) (tripped_at g) (tripped_by g) ({[a]} ∪ asset_breakers g))).

Definition reset_circuit_breaker_for_asset (i : oracle_env) (s : oracle) (c : Address) (a : bytes) : OR oracle :=
  _ ← _require_coordinator i s c;
  let g := flags s in mret (set_flags s (with_breaker g (breaker g) (tripped_at g) (tripped_by g) (asset_breakers g ∖ {[a]}))).

Definition get_circuit_breaker_info (s : oracle) : bool * Z * option Address * Z :=
  (breaker (flags s), default 0 (tripped_at (flags s)), tripped_by (flags s), len (coordinators (roles s))).

(** ** Money *)
Definition set_money_option (i : oracle_env) (s : oracle) (admin : Address) (f : config_store -> config_store) : OR oracle :=
  _ ← config_admin i s admin; mret (set_config s (f (config s))).
Definition set_fee_token (i : oracle_env) (s : oracle) (admin t : Address) : OR oracle :=
  set_money_option i s admin (fun c => with_money_config c (gas_tank c) (Some t) (query_fee c) (slash_token c) (insurance_reserve c)).
Definition set_slash_token (i : oracle_env) (s : oracle) (admin t : Address) : OR oracle :=
  set_money_option i s admin (fun c => with_money_config c (gas_tank c) (fee_token c) (query_fee c) (Some t) (insurance_reserve c)).
Definition set_insurance_reserve (i : oracle_env) (s : oracle) (admin t : Address) : OR oracle :=
  set_money_option i s admin (fun c => with_money_config c (gas_tank c) (fee_token c) (query_fee c) (slash_token c) (Some t)).
Definition set_gas_tank (i : oracle_env) (s : oracle) (admin t : Address) : OR oracle :=
  set_money_option i s admin (fun c => with_money_config c (Some t) (fee_token c) (query_fee c) (slash_token c) (insurance_reserve c)).
Definition set_query_fee (i : oracle_env) (s : oracle) (admin : Address) (fee : Z) : OR oracle :=
  _ ← config_admin i s admin;
  _ ← fail_if (fee <? 0) InvalidQueryFee;
  let c := config s in mret (set_config s (with_money_config c (gas_tank c) (fee_token c) (Some fee) (slash_token c) (insurance_reserve c))).

Definition get_fee_vault_balance (s : oracle) : Z := match fee_token (config s) with Some t => default 0 (fee_vaults (money s) !! t) | None => 0 end.

Definition claim_rewards (i : oracle_env) (l : Ledger) (s : oracle) (v : Address) : OR (oracle * Ledger * Z) :=
  _ ← require_auth (oauth i) v;
  let m := money s in
  let pending := default 0 (rewards m !! v) in
  _ ← fail_if (pending <=? 0) NoRewards;
  t ← ok_or (fee_token (config s)) FeeTokenNotSet;
  let vault := default 0 (fee_vaults m !! t) in
  _ ← fail_if (vault <? pending) InsufficientVaultBalance;
  n ← isub I128 vault pending;
  let s := set_money s {| fee_vaults := <[t := n]> (fee_vaults m); rewards := delete v (rewards m); stakes := stakes m; missed := missed m; streaks := streaks m;
                          unbonding := unbonding m |} in
  l ← unwrap (transfer l t (oself i) v pending);
  mret (s, l, pending).

Definition rescue_tokens (i : oracle_env) (l : Ledger) (s : oracle) (admin t to : Address) (x : Z) : OR (oracle * Ledger) :=
  _ ← live_admin i s admin;
  _ ← fail_if (x <=? 0) InvalidPrice;
  s ← acquire_lock s;
  l ← unwrap (transfer l t (oself i) to x);
  mret (release_lock s, l).

(** Not destroyed, initialised, not frozen, and the relayer signs. *)
Definition relayer_call (i : oracle_env) (s : oracle) (r : Address) : OR unit :=
  _ ← _require_not_destroyed s; _ ← _require_initialized s; _ ← fail_if (frozen (flags s)) ContractFrozen; require_auth (oauth i) r.

Definition get_provider_stake (s : oracle) (r : Address) : Z := default 0 (stakes (money s) !! r).

Definition stake_tokens (i : oracle_env) (l : Ledger) (s : oracle) (r : Address) (x : Z) : OR (oracle * Ledger) :=
  _ ← relayer_call i s r;
  _ ← fail_if (x <=? 0) InvalidSlashAmount;
  t ← ok_or (slash_token (config s)) SlashTokenNotSet;
  s ← acquire_lock s;
  l ← unwrap (transfer l t r (oself i) x);
  let s := release_lock s in
  let current := get_provider_stake s r in
  mret (set_money s (with_stakes (money s) (<[r := default current (checked_add I128 current x)]> (stakes (money s)))), l).

Definition unstake_tokens (i : oracle_env) (l : Ledger) (s : oracle) (r : Address) (x : Z) : OR (oracle * Ledger) :=
  _ ← relayer_call i s r;
  _ ← fail_if (x <=? 0) InvalidSlashAmount;
  t ← ok_or (slash_token (config s)) SlashTokenNotSet;
  let current := get_provider_stake s r in
  _ ← fail_if (current <? x) InsufficientStake;
  n ← isub I128 current x;
  let s := set_money s (with_stakes (money s) (<[r := n]> (stakes (money s)))) in
  s ← acquire_lock s;
  l ← unwrap (transfer l t (oself i) r x);
  mret (release_lock s, l).

(** ** slashing.rs *)
Definition execute_slash_internal (i : oracle_env) (s : oracle) (executor bad : Address) (x : Z) : OR oracle :=
  _ ← require_auth (oauth i) executor;
  _ ← fail_if (x <=? 0) InvalidSlashAmount;
  let current := get_provider_stake s bad in
  _ ← fail_if (current <? x) InsufficientStake;
  n ← isub I128 current x;
  mret (set_money s (with_stakes (money s) (<[bad := n]> (stakes (money s))))).

Definition execute_slash (i : oracle_env) (s : oracle) (executor bad : Address) (x : Z) : OR oracle :=
  _ ← config_admin i s executor; execute_slash_internal i s executor bad x.

Definition get_consecutive_missed_blocks (s : oracle) (r : Address) : Z := default 0 (missed (money s) !! r).
Definition get_slash_multiplier (s : oracle) (r : Address) : Z := Z.min (1 + get_consecutive_missed_blocks s r / 3) 8.

Definition report_missed_blocks (i : oracle_env) (s : oracle) (admin r : Address) (n : Z) : OR (oracle * Z) :=
  _ ← config_admin i s admin;
  let m := money s in
  let s := set_money s (with_uptime m (<[r := saturating_add U32 (get_consecutive_missed_blocks s r) n]> (missed m)) (streaks m)) in
  mret (s, get_slash_multiplier s r).

Definition report_successful_uptime (i : oracle_env) (s : oracle) (admin r : Address) : OR (oracle * bool) :=
  _ ← config_admin i s admin;
  let m := money s in mret (set_money s (with_uptime m (delete r (missed m)) (<[r := onow i]> (streaks m))), true).

Definition request_unbonding (i : oracle_env) (s : oracle) (v : Address) (x : Z) : OR (oracle * UnbondingRequest) :=
  _ ← fail_if (x <=? 0) InvalidStakeAmount;
  _ ← require_auth (oauth i) v;
  let m := money s in
  _ ← (match unbonding m !! v with Some u => fail_if (negb (ub_released u)) UnbondingAlreadyQueued | None => mret tt end);
  q ← ok_or (checked_add U32 (oledger i) MIN_UNBONDING_DELAY_LEDGERS) LedgerSequenceOverflow;
  let u := {| ub_validator := v; ub_amount := x; requested_ledger := oledger i; release_ledger := q; ub_released := false |} in
  mret (set_money s (with_unbonding m (<[v := u]> (unbonding m))), u).

Definition release_unbonded_stake (i : oracle_env) (s : oracle) (v : Address) : OR (oracle * Z) :=
  _ ← require_auth (oauth i) v;
  let m := money s in
  u ← ok_or (unbonding m !! v) UnbondingRequestNotFound;
  _ ← fail_if (ub_released u) UnbondingAlreadyReleased;
  _ ← fail_if (oledger i <? release_ledger u) UnbondingDelayActive;
  let u' := {| ub_validator := ub_validator u; ub_amount := ub_amount u; requested_ledger := requested_ledger u; release_ledger := release_ledger u; ub_released := true |} in
  mret (set_money s (with_unbonding m (<[v := u']> (unbonding m))), ub_amount u).

Definition is_provider_active (i : oracle_env) (s : oracle) (p : Address) (window : Z) : bool :=
  let seen := default 0 (last_seen (feed s) !! p) in
  if seen =? 0 then false else oledger i <=? saturating_add U32 seen window.

Definition get_oracle_health (i : oracle_env) (s : oracle) : OracleHealth := {|
  active_relayers := default (len (relayers (roles s))) (health_relayers (feed s));
  oh_paused := default (paused (flags s)) (health_paused (feed s));
  total_assets := default (len (tracked (feed s))) (health_assets (feed s));
  last_ledger := default (oledger i) (health_ledger (feed s)) |}.
End admin.
