(* ===== verification/OracleActions.v ===== *)
(** * The price oracle: proposals of the admins

    [src/contracts/price-oracle/src/lib.rs] and auth.rs: proposing, voting on, executing and
    cancelling an action, the weights of admins and the delegation of votes, over the storage
    of [Oracle] and the slots of this file. The lock contract of the voting token is asked
    through [get_voting_power] and [checkpoint_reclaim]; [hex_decode] is the hex crate;
    [AlreadyVoted] is an error the enumeration of lib.rs does not declare. The host function
    that replaces the code has no effect on storage. *)

From stdpp Require Import base numbers list gmap strings.
From Stdlib Require Import ZArith Lia.
From S2P Require Import Prelude Host Token OracleMath Oracle OracleAdmin.

Open Scope Z_scope.

Definition MIN_SAFE_QUORUM_THRESHOLD : Z := 2.

Inductive AdminAction :=
| Initialize | InitAdmin | AddAsset | TransferAdminInitiated | TransferAdminAccepted | RenounceOwnership | RescueTokens | Upgrade | RemoveAsset
| SetPriceFloor | SetPriceBounds | TogglePause | RegisterAdmin | RemoveAdmin | SelfDestruct | SetCouncil | ProposeAction | VoteForAction
| CancelAction | EnableBypassSafetyChecks | DisableBypassSafetyChecks | Slash | SetInsuranceReserve | SetSlashToken.

(** [str::parse::<i128>] *)
Definition digit (b : Z) : option Z := if (48 <=? b) && (b <=? 57) then Some (b - 48) else None.
Fixpoint parse_digits (neg : bool) (l : bytes) (x : Z) : option Z :=
  match l with
  | [] => Some x
  | b :: rest => d ← digit b; y ← checked_mul I128 x 10; z ← (if neg then checked_sub I128 y d else checked_add I128 y d); parse_digits neg rest z
  end.
Definition parse_i128 (l : bytes) : option Z :=
  match l with
  | [] | [43] | [45] => None
  | 43 :: rest => parse_digits false rest 0
  | 45 :: rest => parse_digits true rest 0
  | _ => parse_digits false l 0
  end.
Definition parse_slash_amount (data : bytes) : OR Z := ok_or (parse_i128 data) InvalidSlashAmount.

Section actions.
Context {H : Host} {T : Tokens H}.

Record ProposedAction := {
  action_id : Z; action_type : AdminAction; pa_target : option Address; pa_data : bytes; proposed_at : Z; pa_executed : bool; pa_cancelled : bool }.
Record action_store := {
  counter : Z; proposals : gmap Z ProposedAction; votes : gmap Z (list Address);
  for_votes : gmap Z (list Address); against_votes : gmap Z (list Address); for_weight : gmap Z Z; against_weight : gmap Z Z;
  vote_weight : gmap (Z * Address) Z; veflow_lock : option Address; veflow_supply : option Z; vote_delegate : gmap Address Address;
  admin_weight : gmap Address Z; weight_threshold : option Z; min_quorum : option Z; current_wasm : option bytes; previous_wasm : option bytes }.

Variable hex_decode : bytes -> option bytes.
Variable get_voting_power : Address -> Address -> Z -> option Z.
Variable checkpoint_reclaim : Address -> Address -> bool.
Variable AlreadyVoted : ContractError.

(** ** Writers *)
Definition with_proposal (g : action_store) (c k : Z) (p : ProposedAction) : action_store :=
  {| counter := c; proposals := <[k := p]> (proposals g); votes := votes g; for_votes := for_votes g; against_votes := against_votes g;
     for_weight := for_weight g; against_weight := against_weight g; vote_weight := vote_weight g; veflow_lock := veflow_lock g; veflow_supply := veflow_supply g;
     vote_delegate := vote_delegate g; admin_weight := admin_weight g; weight_threshold := weight_threshold g; min_quorum := min_quorum g;
     current_wasm := current_wasm g; previous_wasm := previous_wasm g |}.
Definition with_votes (g : action_store) (v : gmap Z (list Address)) : action_store :=
  {| counter := counter g; proposals := proposals g; votes := v; for_votes := for_votes g; against_votes := against_votes g;
     for_weight := for_weight g; against_weight := against_weight g; vote_weight := vote_weight g; veflow_lock := veflow_lock g; veflow_supply := veflow_supply g;
     vote_delegate := vote_delegate g; admin_weight := admin_weight g; weight_threshold := weight_threshold g; min_quorum := min_quorum g;
     current_wasm := current_wasm g; previous_wasm := previous_wasm g |}.
Definition with_record (g : action_store) (f a : gmap Z (list Address)) (fw aw : gmap Z Z) (w : gmap (Z * Address) Z) : action_store :=
  {| counter := counter g; proposals := proposals g; votes := votes g; for_votes := f; against_votes := a;
     for_weight := fw; against_weight := aw; vote_weight := w; veflow_lock := veflow_lock g; veflow_supply := veflow_supply g;
     vote_delegate := vote_delegate g; admin_weight := admin_weight g; weight_threshold := weight_threshold g; min_quorum := min_quorum g;
     current_wasm := current_wasm g; previous_wasm := previous_wasm g |}.
Definition with_veflow (g : action_store) (l : Address) (x : Z) : action_store :=
  {| counter := counter g; proposals := proposals g; votes := votes g; for_votes := for_votes g; against_votes := against_votes g;
     for_weight := for_weight g; against_weight := against_weight g; vote_weight := vote_weight g; veflow_lock := Some l; veflow_supply := Some x;
     vote_delegate := vote_delegate g; admin_weight := admin_weight g; weight_threshold := weight_threshold g; min_quorum := min_quorum g;
     current_wasm := current_wasm g; previous_wasm := previous_wasm g |}.
Definition with_rules (g : action_store) (d : gmap Address Address) (w : gmap Address Z) (t q : option Z) : action_store :=
  {| counter := counter g; proposals := proposals g; votes := votes g; for_votes := for_votes g; against_votes := against_votes g;
     for_weight := for_weight g; against_weight := against_weight g; vote_weight := vote_weight g; veflow_lock := veflow_lock g; veflow_supply := veflow_supply g;
     vote_delegate := d; admin_weight := w; weight_threshold := t; min_quorum := q;
     current_wasm := current_wasm g; previous_wasm := previous_wasm g |}.
Definition with_code (g : action_store) (c p : option bytes) : action_store :=
  {| counter := counter g; proposals := proposals g; votes := votes g; for_votes := for_votes g; against_votes := against_votes g;
     for_weight := for_weight g; against_weight := against_weight g; vote_weight := vote_weight g; veflow_lock := veflow_lock g; veflow_supply := veflow_supply g;
     vote_delegate := vote_delegate g; admin_weight := admin_weight g; weight_threshold := weight_threshold g; min_quorum := min_quorum g;
     current_wasm := c; previous_wasm := p |}.

(** ** Weights, quorum, delegation *)
Definition get_admin_weight (g : action_store) (a : Address) : Z := default 1 (admin_weight g !! a).
Definition set_admin_weight (i : oracle_env) (s : oracle) (g : action_store) (caller target : Address) (w : Z) : OR action_store :=
  _ ← config_admin i s caller;
  _ ← fail_if ((w =? 0) || (100 <? w)) InvalidAdminWeight;
  _ ← fail_if (negb (_is_authorized s target)) NotAuthorized;
  mret (with_rules g (vote_delegate g) (<[target := w]> (admin_weight g)) (weight_threshold g) (min_quorum g)).

Definition set_weight_threshold (i : oracle_env) (s : oracle) (g : action_store) (caller : Address) (t : Z) : OR action_store :=
  _ ← config_admin i s caller;
  _ ← fail_if (t =? 0) MultiSigValidationFailed;
  mret (with_rules g (vote_delegate g) (admin_weight g) (Some t) (min_quorum g)).

Definition set_min_quorum_threshold (i : oracle_env) (s : oracle) (g : action_store) (admin : Address) (t : Z) : OR action_store :=
  _ ← config_admin i s admin;
  _ ← fail_if (t <? MIN_SAFE_QUORUM_THRESHOLD) MultiSigValidationFailed;
  mret (with_rules g (vote_delegate g) (admin_weight g) (weight_threshold g) (Some t)).
Definition get_min_quorum_threshold (g : action_store) : Z := Z.max (default MIN_SAFE_QUORUM_THRESHOLD (min_quorum g)) MIN_SAFE_QUORUM_THRESHOLD.

Definition delegate_vote (i : oracle_env) (s : oracle) (g : action_store) (owner d : Address) : OR action_store :=
  _ ← fail_if (frozen (flags s)) ContractFrozen;
  _ ← require_auth (oauth i) owner;
  _ ← fail_if (bool_decide (owner = d)) InvalidDelegate;
  mret (with_rules g (<[owner := d]> (vote_delegate g)) (admin_weight g) (weight_threshold g) (min_quorum g)).
Definition clear_vote_delegate (i : oracle_env) (g : action_store) (owner : Address) : OR action_store :=
  _ ← require_auth (oauth i) owner;
  mret (with_rules g (delete owner (vote_delegate g)) (admin_weight g) (weight_threshold g) (min_quorum g)).

Definition delegates_to (g : action_store) (d a : Address) : bool := bool_decide (vote_delegate g !! a = Some d).
Definition _get_delegated_voters (s : oracle) (g : action_store) (d : Address) : OR (list Address) :=
  l ← ok_or (admins (roles s)) AdminNotSet; mret (List.filter (delegates_to g d) l).

(** ** Votes *)
Definition _get_action_votes (g : action_store) (k : Z) : list Address := default [] (votes g !! k).

(** The loop over the admins that made [voter] their delegate. *)
Definition add_represented (g : action_store) (voter : Address) (voters : list Address) (a : Address) : list Address :=
  if bool_decide (a = voter) then voters
  else if delegates_to g voter a && negb (bool_decide (a ∈ voters)) then voters ++ [a] else voters.

Definition _add_effective_action_votes (s : oracle) (g : action_store) (k : Z) (voter : Address) : OR (action_store * Z) :=
  l ← ok_or (admins (roles s)) AdminNotSet;
  let voters := _get_action_votes g k in
  let voters := if bool_decide (voter ∈ l) && negb (bool_decide (is_Some (vote_delegate g !! voter))) && negb (bool_decide (voter ∈ voters))
                then voters ++ [voter] else voters in
  let voters := foldl (add_represented g voter) voters l in
  mret (with_votes g (<[k := voters]> (votes g)), len voters).

Definition proposal_voting_weight (g : action_store) (voter : Address) (t : Z) : OR Z :=
  lock ← ok_or (veflow_lock g) NotAuthorized;
  w ← unwrap (get_voting_power lock voter t);
  _ ← fail_if (w <=? 0) NotAuthorized;
  mret w.

Definition record_vote (g : action_store) (voter : Address) (k : Z) (affirmative : bool) : OR (action_store * Z) :=
  p ← ok_or (proposals g !! k) ActionNotFound;
  _ ← fail_if (pa_executed p) ActionAlreadyExecuted;
  _ ← fail_if (pa_cancelled p) ActionCancelled;
  let voters := default [] ((if affirmative then for_votes g else against_votes g) !! k) in
  let opposite := default [] ((if affirmative then against_votes g else for_votes g) !! k) in
  _ ← fail_if (bool_decide (voter ∈ voters) || bool_decide (voter ∈ opposite)) AlreadyVoted;
  weight ← (if bool_decide (is_Some (veflow_lock g)) then proposal_voting_weight g voter (proposed_at p) else mret (get_admin_weight g voter));
  l ← vpush voters voter;
  total ← iadd I128 (default 0 ((if affirmative then for_weight g else against_weight g) !! k)) weight;
  let w := <[(k, voter) := weight]> (vote_weight g) in
  mret (if affirmative then with_record g (<[k := l]> (for_votes g)) (against_votes g) (<[k := total]> (for_weight g)) (against_weight g) w
        else with_record g (for_votes g) (<[k := l]> (against_votes g)) (for_weight g) (<[k := total]> (against_weight g)) w, len l).

Definition vote_for_action (i : oracle_env) (s : oracle) (g : action_store) (voter : Address) (k : Z) : OR (action_store * Z) :=
  _ ← _require_not_destroyed s;
  _ ← fail_if (frozen (flags s)) ContractFrozen;
  _ ← require_auth (oauth i) voter;
  match veflow_lock g with
  | Some lock => if checkpoint_reclaim lock voter then record_vote g voter k true else Panic
  | None =>
      let voter_is_admin := _is_authorized s voter in
      let delegated_away := bool_decide (is_Some (vote_delegate g !! voter)) in
      d ← _get_delegated_voters s g voter;
      _ ← fail_if ((negb voter_is_admin || delegated_away) && (len d =? 0)) NotAuthorized;
      p ← ok_or (proposals g !! k) ActionNotFound;
      _ ← fail_if (pa_executed p) ActionAlreadyExecuted;
      _ ← fail_if (pa_cancelled p) ActionCancelled;
      _add_effective_action_votes s g k voter
  end.

Definition vote_against_action (i : oracle_env) (s : oracle) (g : action_store) (voter : Address) (k : Z) : OR (action_store * Z) :=
  _ ← fail_if (frozen (flags s)) ContractFrozen;
  _ ← require_auth (oauth i) voter;
  if bool_decide (is_Some (veflow_lock g)) || _is_authorized s voter then record_vote g voter k false else Err NotAuthorized.

Definition get_action_vote_totals (g : action_store) (k : Z) : Z * Z := (default 0 (for_weight g !! k), default 0 (against_weight g !! k)).

Definition set_veflow_governance (i : oracle_env) (s : oracle) (g : action_store) (admin lock : Address) (supply : Z) : OR action_store :=
  _ ← require_auth (oauth i) admin;
  _ ← fail_if (negb (_is_authorized s admin)) NotAuthorized;
  _ ← fail_if (supply <=? 0) InvalidStakeAmount;
  mret (with_veflow g lock supply).

(** ** Proposing *)
Definition _get_next_action_id (g : action_store) : OR Z := iadd U64 (counter g) 1.
Definition action_of (code : Z) : option AdminAction :=
  if code =? 0 then Some TogglePause else if code =? 1 then Some RegisterAdmin else if code =? 2 then Some RemoveAdmin
  else if code =? 3 then Some SelfDestruct else if code =? 4 then Some Upgrade else if code =? 5 then Some Slash else None.

Definition propose_action (i : oracle_env) (s : oracle) (g : action_store) (admin : Address) (code : Z) (target : option Address) (data : bytes)
    : OR (action_store * Z) :=
  _ ← live_admin i s admin;
  ty ← ok_or (action_of code) InvalidActionType;
  k ← _get_next_action_id g;
  let g := with_proposal g k k {| action_id := k; action_type := ty; pa_target := target; pa_data := data; proposed_at := onow i; pa_executed := false; pa_cancelled := false |} in
  if bool_decide (is_Some (veflow_lock g)) then mret (g, k) else r ← _add_effective_action_votes s g k admin; mret (r.1, k).

Definition with_outcome (p : ProposedAction) (e c : bool) : ProposedAction :=
  {| action_id := action_id p; action_type := action_type p; pa_target := pa_target p; pa_data := pa_data p; proposed_at := proposed_at p; pa_executed := e; pa_cancelled := c |}.

Definition cancel_proposed_action (i : oracle_env) (s : oracle) (g : action_store) (canceller : Address) (k : Z) : OR action_store :=
  _ ← live_admin i s canceller;
  p ← ok_or (proposals g !! k) ActionNotFound;
  _ ← fail_if (pa_executed p) ActionAlreadyExecuted;
  _ ← fail_if (pa_cancelled p) ActionCancelled;
  mret (with_proposal g (counter g) k (with_outcome p (pa_executed p) true)).

(** ** Executing *)
Definition _get_required_threshold (s : oracle) (g : action_store) : OR Z :=
  match weight_threshold g with
  | Some t => mret t
  | None => l ← ok_or (admins (roles s)) AdminNotSet; mret (if len l <=? 3 then 2 else 3)
  end.
Definition _has_reached_threshold (g : action_store) (k threshold : Z) : bool :=
  default threshold (weight_threshold g) <=? foldl (fun x a => saturating_add U32 x (get_admin_weight g a)) 0 (_get_action_votes g k).

(** The branches of the match on the type of the action. *)
Definition perform (i : oracle_env) (s : oracle) (g : action_store) (executor : Address) (p : ProposedAction) : OR (oracle * action_store) :=
  match action_type p with
  | TogglePause => mret (with_paused s (negb (paused (flags s))), g)
  | RegisterAdmin => match pa_target p with Some a => s ← _add_authorized s a; mret (s, g) | None => Err InvalidActionType end
  | RemoveAdmin =>
      match pa_target p with
      | Some a => l ← ok_or (admins (roles s)) AdminNotSet; _ ← fail_if (len l <=? 1) MultiSigValidationFailed; mret (_remove_authorized s a, g)
      | None => Err InvalidActionType
      end
  | SelfDestruct => l ← ok_or (admins (roles s)) AdminNotSet; _ ← fail_if (len l <? 2) MultiSigValidationFailed; mret (wipe s, g)
  | Upgrade =>
      h ← ok_or (hex_decode (pa_data p)) InvalidActionType;
      _ ← fail_if (negb (len h =? 32)) InvalidActionType;
      mret (s, with_code g (Some h) (match current_wasm g with Some c => Some c | None => previous_wasm g end))
  | Slash =>
      match pa_target p with
      | Some a => x ← parse_slash_amount (pa_data p); s ← execute_slash_internal i s executor a x; mret (s, g)
      | None => Err InvalidActionType
      end
  | _ => Err InvalidActionType
  end.

Definition execute_proposed_action (i : oracle_env) (s : oracle) (g : action_store) (executor : Address) (k : Z) : OR (oracle * action_store) :=
  _ ← live_admin i s executor;
  p ← ok_or (proposals g !! k) ActionNotFound;
  _ ← fail_if (pa_executed p) ActionAlreadyExecuted;
  _ ← fail_if (pa_cancelled p) ActionCancelled;
  threshold ← _get_required_threshold s g;
  _ ← fail_if (negb (_has_reached_threshold g k threshold)) QuorumNotReached;
  _ ← fail_if (len (_get_action_votes g k) <? get_min_quorum_threshold g) QuorumNotReached;
  r ← perform i s g executor p;
  mret (r.1, with_proposal r.2 (counter r.2) k (with_outcome p true (pa_cancelled p))).
End actions.
