(* ===== verification/OracleTheorems.v ===== *)
(** * The price oracle: what its entry points can do to a price

    The histories of the contract of [Oracle], [OracleAdmin] and [OracleActions] under a
    ledger number that does not go back, the invariant of its feeds, and what it leaves of
    the consensus: a price enters only while an admin has switched the checks off. Then what
    the execution of a proposal rests on, and that none is executed under the voting token. *)

From stdpp Require Import base numbers list gmap strings.
From Stdlib Require Import ZArith Lia.
From S2P Require Import Prelude Host Token OracleMath Oracle OracleAdmin OracleActions.

Open Scope Z_scope.

Section histories.
Context {H : Host} {T : Tokens H}.
Variable on_price_update : Address -> PriceUpdatePayload -> bool.
Variable reimburse : Address -> Address -> bool.
Variable validate_configs : list AssetRegistrationConfig -> Z -> OR unit.
Variable hex_decode : bytes -> option bytes.
Variable get_voting_power : Address -> Address -> Z -> option Z.
Variable checkpoint_reclaim : Address -> Address -> bool.
Variable AlreadyVoted : ContractError.

(** ** Steps: one call of an entry point that returned *)
Inductive oracle_step (i : oracle_env) (s s' : oracle) : Prop :=
| step_set_price a v d x (Hr : set_price on_price_update i s a v d x = Ok s')
| step_update_price who a p d c x l (Hr : update_price on_price_update reimburse i s who a p d c x l = Ok s')
| step_community who a p d x (Hr : submit_community_price i s who a p d x = Ok s')
| step_initialize a l (Hr : initialize s a l = Ok s')
| step_init_admin a (Hr : init_admin s a = Ok s')
| step_add_asset a b (Hr : add_asset i s a b = Ok s')
| step_decimals a b x y (Hr : set_asset_decimals i s a b x y = Ok s')
| step_info a b n x y (Hr : set_asset_info i s a b n x y = Ok s')
| step_register a gs x (Hr : register_assets_with_config validate_configs i s a gs x = Ok s')
| step_remove_asset a b (Hr : remove_asset i s a b = Ok s')
| step_revoke_key a b x (Hr : revoke_key i s a b = Ok (s', x))
| step_transfer_admin a b (Hr : transfer_admin i s a b = Ok s')
| step_accept_admin a (Hr : accept_admin i s a = Ok s')
| step_renounce a (Hr : renounce_ownership i s a = Ok s')
| step_toggle_pause a b x (Hr : toggle_pause i s a b = Ok (s', x))
| step_register_admin a b c (Hr : register_admin i s a b c = Ok s')
| step_remove_admin a b c (Hr : remove_admin i s a b c = Ok s')
| step_self_destruct a b (Hr : self_destruct i s a b = Ok s')
| step_assign_delegate a b (Hr : assign_delegate i s a b = Ok s')
| step_revoke_delegate a (Hr : revoke_delegate i s a = Ok s')
| step_set_floor a b p (Hr : set_price_floor i s a b p = Ok s')
| step_rollback_floor a b (Hr : rollback_price_floor i s a b = Ok s')
| step_set_bounds a b x y (Hr : set_price_bounds i s a b x y = Ok s')
| step_rollback_bounds a b (Hr : rollback_price_bounds i s a b = Ok s')
| step_set_deviation a x (Hr : set_max_deviation_percentage i s a x = Ok s')
| step_rollback_deviation a (Hr : rollback_max_deviation_pct i s a = Ok s')
| step_set_threshold a b x (Hr : set_liquidity_threshold i s a b x = Ok s')
| step_remove_threshold a b (Hr : remove_liquidity_threshold i s a b = Ok s')
| step_set_council a b (Hr : set_council i s a b = Ok s')
| step_freeze a (Hr : emergency_freeze i s a = Ok s')
| step_halt a b x (Hr : set_emergency_halt i s a b x = Ok s')
| step_enable_bypass a x (Hr : enable_bypass_safety_checks i s a = Ok (s', x))
| step_disable_bypass a (Hr : disable_bypass_safety_checks i s a = Ok s')
| step_add_coordinator a b (Hr : register_circuit_breaker_coordinator i s a b = Ok s')
| step_remove_coordinator a b (Hr : remove_circuit_breaker_coordinator i s a b = Ok s')
| step_trip a (Hr : trip_circuit_breaker i s a = Ok s')
| step_reset a (Hr : reset_circuit_breaker i s a = Ok s')
| step_trip_asset a b (Hr : trip_circuit_breaker_for_asset i s a b = Ok s')
| step_reset_asset a b (Hr : reset_circuit_breaker_for_asset i s a b = Ok s')
| step_fee_token a b (Hr : set_fee_token i s a b = Ok s')
| step_slash_token a b (Hr : set_slash_token i s a b = Ok s')
| step_reserve a b (Hr : set_insurance_reserve i s a b = Ok s')
| step_gas_tank a b (Hr : set_gas_tank i s a b = Ok s')
| step_query_fee a x (Hr : set_query_fee i s a x = Ok s')
| step_subscribe a (Hr : subscribe s a = Ok s')
| step_unsubscribe a (Hr : unsubscribe s a = Ok s')
| step_claim l l' a x (Hr : claim_rewards i l s a = Ok (s', l', x))
| step_rescue l l' a t b x (Hr : rescue_tokens i l s a t b x = Ok (s', l'))
| step_stake l l' a x (Hr : stake_tokens i l s a x = Ok (s', l'))
| step_unstake l l' a x (Hr : unstake_tokens i l s a x = Ok (s', l'))
| step_slash a b x (Hr : execute_slash i s a b x = Ok s')
| step_missed a b n x (Hr : report_missed_blocks i s a b n = Ok (s', x))
| step_uptime a b x (Hr : report_successful_uptime i s a b = Ok (s', x))
| step_unbond a x u (Hr : request_unbonding i s a x = Ok (s', u))
| step_release a x (Hr : release_unbonded_stake i s a = Ok (s', x))
| step_get_price l l' a v p (Hr : get_price i l s a v = Ok (s', l', p))
| step_last_price l l' a p (Hr : get_last_price i l s a = Ok (s', l', p))
| step_index l l' cs p (Hr : get_index_price i l s cs = Ok (s', l', p)).

(** The storage of a contract that was never called. *)
Definition blank : oracle := {|
  roles := {| admins := None; revoked := ∅; providers := ∅; weights := ∅; relayers := []; delegates := ∅; delegate_of := ∅; council := None;
              pending_admin := None; pending_since := None; coordinator_role := ∅; coordinators := [] |};
  flags := {| destroyed := false; initialized := false; frozen := false; halted := false; paused := false; bypass := None; is_locked := false;
              breaker := false; tripped_at := None; tripped_by := None; asset_breakers := ∅; baseline := None |};
  config := {| metas := ∅; infos := ∅; floors := ∅; prev_floors := ∅; bounds := ∅; prev_bounds := ∅; max_deviation := None; prev_max_deviation := None;
               thresholds := ∅; subscribers := []; gas_tank := None; fee_token := None; query_fee := None; slash_token := None; insurance_reserve := None |};
  feed := {| tracked := []; tracked_flags := ∅; verified := ∅; community := ∅; twaps := ∅; windows := ∅; guards := ∅; buffers := ∅; last_seen := ∅;
             reported := ∅; validated := ∅; recent := []; health_assets := None; health_ledger := None; health_paused := None; health_relayers := None |};
  money := {| fee_vaults := ∅; rewards := ∅; stakes := ∅; missed := ∅; streaks := ∅; unbonding := ∅ |} |}.

Definition no_actions : action_store := {|
  counter := 0; proposals := ∅; votes := ∅; for_votes := ∅; against_votes := ∅; for_weight := ∅; against_weight := ∅; vote_weight := ∅;
  veflow_lock := None; veflow_supply := None; vote_delegate := ∅; admin_weight := ∅; weight_threshold := None; min_quorum := None;
  current_wasm := None; previous_wasm := None |}.

(** A call of any entry point: those above, and those of the proposals. *)
Inductive call_step (i : oracle_env) (s : oracle) (g : action_store) : oracle -> action_store -> Prop :=
| call_entry s' (Hs : oracle_step i s s') : call_step i s g s' g
| call_execute who k s' g' (Hr : execute_proposed_action hex_decode i s g who k = Ok (s', g')) : call_step i s g s' g'
| call_propose a c x d k g' (Hr : propose_action i s g a c x d = Ok (g', k)) : call_step i s g s g'
| call_vote who k n g' (Hr : vote_for_action get_voting_power checkpoint_reclaim AlreadyVoted i s g who k = Ok (g', n)) : call_step i s g s g'
| call_against who k n g' (Hr : vote_against_action get_voting_power AlreadyVoted i s g who k = Ok (g', n)) : call_step i s g s g'
| call_cancel who k g' (Hr : cancel_proposed_action i s g who k = Ok g') : call_step i s g s g'
| call_delegate a b g' (Hr : delegate_vote i s g a b = Ok g') : call_step i s g s g'
| call_undelegate a g' (Hr : clear_vote_delegate i g a = Ok g') : call_step i s g s g'
| call_weight a b w g' (Hr : set_admin_weight i s g a b w = Ok g') : call_step i s g s g'
| call_threshold a x g' (Hr : set_weight_threshold i s g a x = Ok g') : call_step i s g s g'
| call_quorum a x g' (Hr : set_min_quorum_threshold i s g a x = Ok g') : call_step i s g s g'
| call_veflow a b x g' (Hr : set_veflow_governance i s g a b x = Ok g') : call_step i s g s g'.

(** The index is the number of the last ledger with a call. *)
Inductive oracle_history : Z -> oracle -> action_store -> Prop :=
| history_start t : oracle_history t blank no_actions
| history_next t s g i s' g' : oracle_history t s g -> t <= oledger i -> call_step i s g s' g' -> oracle_history (oledger i) s' g'.

(** Any calls after a state. *)
Inductive calls_run : oracle -> action_store -> oracle -> action_store -> Prop :=
| run_refl s g : calls_run s g s g
| run_next s g i s1 g1 s' g' : call_step i s g s1 g1 -> calls_run s1 g1 s' g' -> calls_run s g s' g'.

























































(** ** Proposals *)
Definition admin_list (s : oracle) : list Address := default [] (admins (roles s)).

(** [a] votes through the call [signer] signs: as itself, or as one that chose it. *)
Definition endorses (i : oracle_env) (s : oracle) (g : action_store) (signer a : Address) : Prop :=
  oauth i signer = true /\ (a ∈ admin_list s) /\ (a = signer \/ vote_delegate g !! a = Some signer).

(** What a call does to the proposals: nothing, a new one under the next number, or an
    outcome for one that had not been executed. *)
Definition proposals_effect (g g' : action_store) : Prop :=
  (proposals g' = proposals g /\ counter g' = counter g) \/
  (exists p, proposals g' = <[counter g + 1 := p]> (proposals g) /\ counter g' = counter g + 1 /\ pa_executed p = false) \/
  (exists k p e c, proposals g !! k = Some p /\ pa_executed p = false /\ proposals g' = <[k := with_outcome p e c]> (proposals g) /\ counter g' = counter g).

(** What it does to the votes: nothing, or new voters on one proposal, whom the signer
    stands for, and only while no voting token is set. *)
Definition votes_effect (i : oracle_env) (s : oracle) (g g' : action_store) : Prop :=
  votes g' = votes g \/
  exists k l, veflow_lock g = None /\ votes g' = <[k := l]> (votes g) /\ is_Some (proposals g' !! k) /\
    (NoDup (_get_action_votes g k) -> NoDup l) /\
    forall a, (a ∈ l) -> (a ∈ _get_action_votes g k) \/ exists signer, endorses i s g signer a.

Lemma represented_ok i s g voter (Hau : oauth i voter = true) l : forall vs, incl l (admin_list s) ->
  (NoDup vs -> NoDup (foldl (add_represented g voter) vs l)) /\
  forall a, (a ∈ foldl (add_represented g voter) vs l) -> (a ∈ vs) \/ endorses i s g voter a.
Proof.
  induction l as [| x l IH]; intros vs Hl; [split; [done | by left] |]. cbn [foldl].
  destruct (IH (add_represented g voter vs x)) as (Hn & Ha); [by intros y Hy; apply Hl; right |].
  assert (Hx : add_represented g voter vs x = vs \/ (x ∉ vs) /\ vote_delegate g !! x = Some voter /\ add_represented g voter vs x = vs ++ [x]).
  { unfold add_represented, delegates_to. destruct (bool_decide (x = voter)); [by left |]. destruct (bool_decide_reflect (vote_delegate g !! x = Some voter)); [| by left].
    destruct (bool_decide_reflect (x ∈ vs)); [by left | by right]. }
  destruct Hx as [Hx | (Hnin & Hd & Hx)]; rewrite Hx in *; [by split |]. split.
  - intros Hv. apply Hn, NoDup_app. split; [done |]. split; [| apply NoDup_singleton]. by intros y Hy ->%list_elem_of_singleton.
  - intros a [[Hin | ->%list_elem_of_singleton]%elem_of_app | Hen]%Ha; [by left | right | by right].
    split; [done |]. split; [| by right]. apply list_elem_of_In, Hl. by left.
Qed.

Lemma effective_votes i s g k voter g' n (Hau : oauth i voter = true) (Hr : _add_effective_action_votes s g k voter = Ok (g', n)) :
  exists l, g' = with_votes g (<[k := l]> (votes g)) /\ (NoDup (_get_action_votes g k) -> NoDup l) /\
    forall a, (a ∈ l) -> (a ∈ _get_action_votes g k) \/ exists signer, endorses i s g signer a.
Proof.
  apply bind_Ok in Hr as (l & Hl%ok_or_Ok & Hr). cbv zeta in Hr. injection Hr as <- _. eexists. split; [reflexivity |].
  assert (Hal : admin_list s = l) by (unfold admin_list; by rewrite Hl).
  set (vs := if _ && _ && _ then _ else _).
  assert (Hvs : vs = _get_action_votes g k \/ (voter ∈ l) /\ (voter ∉ _get_action_votes g k) /\ vs = _get_action_votes g k ++ [voter]).
  { unfold vs. destruct (bool_decide_reflect (voter ∈ l)); [| by left]. destruct (negb (bool_decide (is_Some _))); [| by left].
    destruct (bool_decide_reflect (voter ∈ _get_action_votes g k)); [by left | by right]. }
  destruct (represented_ok i s g voter Hau l vs) as (Hn & Ha); [by rewrite Hal; intros x |]. split.
  - intros Hd. apply Hn. destruct Hvs as [-> | (_ & Hnin & ->)]; [done |]. apply NoDup_app. split; [done |]. split; [| apply NoDup_singleton].
    by intros y Hy ->%list_elem_of_singleton.
  - intros a [Hin | He]%Ha; [| by right; exists voter]. destruct Hvs as [Hv | (Hin' & _ & Hv)]; rewrite Hv in Hin; [by left |].
    apply elem_of_app in Hin as [Hin | ->%list_elem_of_singleton]; [by left | right]. exists voter. split; [done |]. rewrite Hal. split; [done | by left].
Qed.

Lemma record_effect i s g voter k b g' n (Hr : record_vote get_voting_power AlreadyVoted g voter k b = Ok (g', n)) :
  proposals_effect g g' /\ votes_effect i s g g' /\ veflow_lock g' = veflow_lock g.
Proof.
  unfold record_vote in Hr. cbv zeta in Hr. inv_ok Hr. split; [left | split; [left |]]; by destruct b.
Qed.

Lemma vote_effect i s g who k n g' (Hr : vote_for_action get_voting_power checkpoint_reclaim AlreadyVoted i s g who k = Ok (g', n)) :
  proposals_effect g g' /\ votes_effect i s g g' /\ veflow_lock g' = veflow_lock g.
Proof.
  apply bind_Ok in Hr as (u1 & _ & Hr). apply bind_Ok in Hr as (u2 & _ & Hr). apply bind_Ok in Hr as (u3 & Hau%require_auth_Ok & Hr).
  destruct (veflow_lock g) as [lock |] eqn:Ev; [destruct (checkpoint_reclaim _ _); [by rewrite <- Ev; eapply record_effect | done] |].
  cbv zeta in Hr. apply bind_Ok in Hr as (d & _ & Hr). apply bind_Ok in Hr as (u4 & _ & Hr). apply bind_Ok in Hr as (p & Hp%ok_or_Ok & Hr).
  apply bind_Ok in Hr as (u5 & _ & Hr). apply bind_Ok in Hr as (u6 & _ & Hr). apply (effective_votes i) in Hr as (l & -> & Hn & Ha); [| done].
  split; [by left |]. split; [| by rewrite <- Ev]. right. exists k, l. cbn. eauto 6.
Qed.

Lemma propose_effect i s g a c x d k g' (Hr : propose_action i s g a c x d = Ok (g', k)) :
  proposals_effect g g' /\ votes_effect i s g g' /\ veflow_lock g' = veflow_lock g.
Proof.
  apply bind_Ok in Hr as (u1 & Hli & Hr). apply bind_Ok in Hr as (ty & _ & Hr). apply bind_Ok in Hr as (k' & [-> _]%iop_Ok & Hr). cbv zeta in Hr.
  assert (Hau : oauth i a = true) by (unfold live_admin, admin_only in Hli; by inv_ok Hli).
  set (g1 := with_proposal g _ _ _) in Hr. assert (Hv1 : votes g1 = votes g /\ veflow_lock g1 = veflow_lock g /\ vote_delegate g1 = vote_delegate g) by done.
  assert (Hg1 : proposals_effect g g1) by (right; left; eexists; split; [reflexivity | done]).
  destruct (bool_decide_reflect (is_Some (veflow_lock g1))) as [Hs | Hs].
  - injection Hr as <- _. split; [done |]. split; [by left | done].
  - apply bind_Ok in Hr as ([g2 n] & Hr & [= <- _]). apply (effective_votes i) in Hr as (l & -> & Hn & Ha); [| done].
    split; [exact Hg1 |]. split; [| done]. right. exists (counter g + 1), l. cbn. split; [by apply eq_None_not_Some |]. split; [done |].
    split; [rewrite lookup_insert_eq; eauto |]. split; [exact Hn |]. intros b Hb. destruct (Ha b Hb) as [? | (sg & H1 & H2 & H3)]; [by left | right]. by exists sg.
Qed.

Lemma execute_effect i s g who k s' g' (Hr : execute_proposed_action hex_decode i s g who k = Ok (s', g')) :
  oauth i who = true /\ _is_authorized s who = true /\
  (exists p, proposals g !! k = Some p /\ pa_executed p = false /\ pa_cancelled p = false /\ proposals g' = <[k := with_outcome p true false]> (proposals g)) /\
  (exists th, _get_required_threshold s g = Ok th /\ _has_reached_threshold g k th = true) /\
  get_min_quorum_threshold g <= len (_get_action_votes g k) /\
  votes g' = votes g /\ counter g' = counter g /\ veflow_lock g' = veflow_lock g.
Proof.
  apply bind_Ok in Hr as (u1 & Hli & Hr). apply bind_Ok in Hr as (p & Hp%ok_or_Ok & Hr). apply bind_Ok in Hr as (u2 & He%fail_if_Ok & Hr).
  apply bind_Ok in Hr as (u3 & Hc%fail_if_Ok & Hr). apply bind_Ok in Hr as (th & Hth & Hr). apply bind_Ok in Hr as (u4 & Hre%fail_if_Ok%negb_false_iff & Hr).
  apply bind_Ok in Hr as (u5 & Hq%fail_if_Ok%Z.ltb_ge & Hr). apply bind_Ok in Hr as (r & Hper & [= <- <-]).
  assert (Hsame : proposals r.2 = proposals g /\ votes r.2 = votes g /\ counter r.2 = counter g /\ veflow_lock r.2 = veflow_lock g).
  { unfold perform in Hper. destruct (action_type p); try done; try destruct (pa_target p); inv_ok Hper; done. }
  destruct Hsame as (H1 & H2 & H3 & H4). unfold live_admin, admin_only in Hli. inv_ok Hli. match goal with Hz : negb (_is_authorized s who) = false |- _ => apply negb_false_iff in Hz end.
  split; [done |]. split; [done |]. split; [exists p; cbn; rewrite H1, Hc; done |]. split; [by exists th | done].
Qed.

Lemma call_effect i s g s' g' : call_step i s g s' g' ->
  proposals_effect g g' /\ votes_effect i s g g' /\ (is_Some (veflow_lock g) -> is_Some (veflow_lock g')).
Proof.
  destruct 1.
  - split; [by left |]. split; [by left | done].
  - apply execute_effect in Hr as (_ & _ & (p & Hp & He & _ & Hps) & _ & _ & Hv & Hc & Hvf). split; [right; right; exists k, p, true, false; done |].
    split; [by left | by rewrite Hvf].
  - apply propose_effect in Hr as (H1 & H2 & H3). by rewrite H3.
  - apply vote_effect in Hr as (H1 & H2 & H3). by rewrite H3.
  - unfold vote_against_action in Hr. inv_ok Hr. destruct (_ || _); [| done]. apply (record_effect i s) in Hk0 as (H1 & H2 & H3). by rewrite H3.
  - unfold cancel_proposed_action in Hr. inv_ok Hr. split; [right; right; eexists k, _, _, true; cbn; eauto |]. split; [by left | done].
  - unfold delegate_vote in Hr. inv_ok Hr. split; [by left |]. split; [by left | done].
  - unfold clear_vote_delegate in Hr. inv_ok Hr. split; [by left |]. split; [by left | done].
  - unfold set_admin_weight in Hr. inv_ok Hr. split; [by left |]. split; [by left | done].
  - unfold set_weight_threshold in Hr. inv_ok Hr. split; [by left |]. split; [by left | done].
  - unfold set_min_quorum_threshold in Hr. inv_ok Hr. split; [by left |]. split; [by left | done].
  - unfold set_veflow_governance in Hr. inv_ok Hr. split; [by left |]. split; [by left | by eexists].
Qed.

(** The numbers of proposals are below the counter, and no list of votes repeats a voter. *)
Definition actions_ok (g : action_store) : Prop :=
  (forall k, is_Some (proposals g !! k) -> k <= counter g) /\ (forall k l, votes g !! k = Some l -> k <= counter g /\ NoDup l).

Lemma actions_call i s g s' g' : actions_ok g -> call_step i s g s' g' -> actions_ok g'.
Proof.
  intros (Hp & Hv) (Hpe & Hve & _)%call_effect.
  assert (Hp' : counter g <= counter g' /\ forall k, is_Some (proposals g' !! k) -> k <= counter g').
  { destruct Hpe as [(-> & ->) | [(p & -> & -> & _) | (k & p & e & c & Hk & _ & -> & ->)]]; [by split; [lia |] | split; [lia |] ..]; intros k'.
    - destruct (decide (k' = counter g + 1)) as [-> | Hne]; [lia |]. rewrite lookup_insert_ne by done. intros ?%Hp. lia.
    - destruct (decide (k' = k)) as [-> | Hne]; [intros _; apply Hp; eauto |]. rewrite lookup_insert_ne by done. apply Hp. }
  destruct Hp' as (Hle & Hp'). split; [done |]. destruct Hve as [-> | (k & l & _ & -> & Hk & Hn & _)]; [intros k l (? & ?)%Hv; split; [lia | done] |].
  intros k' l'. destruct (decide (k' = k)) as [-> | Hne].
  - rewrite lookup_insert_eq. intros [= <-]. split; [by apply Hp' |]. apply Hn. unfold _get_action_votes. destruct (votes g !! k) eqn:E; [by eapply Hv | apply NoDup_nil_2].
  - rewrite lookup_insert_ne by done. intros (? & ?)%Hv. split; [lia | done].
Qed.

Lemma actions_history t s g : oracle_history t s g -> actions_ok g.
Proof. induction 1; [by split; [intros k [? ?] |] | by eapply actions_call]. Qed.

(** What was executed stays so. *)
Lemma executed_run s g s' g' k p : calls_run s g s' g' -> actions_ok g -> proposals g !! k = Some p -> pa_executed p = true ->
  exists p', proposals g' !! k = Some p' /\ pa_executed p' = true.
Proof.
  intros Hrun. revert p. induction Hrun as [s g | s g i s1 g1 s' g' Hc Hrun IH]; intros p Hok Hp He; [eauto |].
  pose proof (actions_call _ _ _ _ _ Hok Hc) as Hok1. apply call_effect in Hc as ([(Hps & _) | [(q & Hps & _) | (k' & q & e & c & Hq & Hqe & Hps & _)]] & _ & _).
  - apply (IH p); [done | by rewrite Hps | done].
  - apply (IH p); [done | | done]. rewrite Hps, lookup_insert_ne; [done |]. intros <-. assert (counter g + 1 <= counter g) by (apply (proj1 Hok); eauto). lia.
  - apply (IH p); [done | | done]. rewrite Hps, lookup_insert_ne; [done |]. congruence.
Qed.

(** Under the voting token the votes that executions count stay as they are. *)
Lemma veflow_run s g s' g' : calls_run s g s' g' -> is_Some (veflow_lock g) -> votes g' = votes g.
Proof.
  induction 1 as [s g | s g i s1 g1 s' g' Hc Hrun IH]; [done |]. intros Hv. apply call_effect in Hc as (_ & [Hve | (k & l & Hn & _)] & Hv1).
  - rewrite <- Hve. auto.
  - rewrite Hn in Hv. by destruct Hv.
Qed.

(** C15: A proposal is executed by an admin, once, while it is neither executed nor cancelled,
    and on at least two votes of different addresses, as many as the quorum asks; and an
    address enters the votes of a proposal only by a call signed by itself or by the
    delegate it chose, while it is an admin. *)
Theorem action_execution_justified t s g i who k s' g' (Hh : oracle_history t s g) (Hx : execute_proposed_action hex_decode i s g who k = Ok (s', g')) :
  (oauth i who = true /\ _is_authorized s who = true) /\
  (exists p, proposals g !! k = Some p /\ pa_executed p = false /\ pa_cancelled p = false) /\
  NoDup (_get_action_votes g k) /\ Z.max 2 (default 2 (min_quorum g)) <= len (_get_action_votes g k) /\
  (forall j s1 g1 s2 g2 a, call_step j s1 g1 s2 g2 -> (a ∈ _get_action_votes g2 k) -> (a ∈ _get_action_votes g1 k) \/ exists signer, endorses j s1 g1 signer a) /\
  forall s2 g2 j who2 r, calls_run s' g' s2 g2 -> execute_proposed_action hex_decode j s2 g2 who2 k <> Ok r.
Proof.
  pose proof (actions_history t s g Hh) as Hok. pose proof (call_execute i s g who k s' g' Hx) as Hcall. apply (actions_call _ _ _ _ _ Hok) in Hcall.
  apply execute_effect in Hx as (Ha1 & Ha2 & (p & Hp & He & Hc & Hps) & _ & Hq & _). split; [done |]. split; [by exists p |]. split.
  { unfold _get_action_votes. destruct (votes g !! k) eqn:E; [by eapply Hok | apply NoDup_nil_2]. }
  split; [unfold get_min_quorum_threshold, MIN_SAFE_QUORUM_THRESHOLD in Hq; lia |]. split.
  - intros j s1 g1 s2 g2 a Hst. apply call_effect in Hst as (_ & [Hv | (k' & l & _ & Hv & _ & _ & Ha)] & _); unfold _get_action_votes at 1; rewrite Hv; [by left |].
    destruct (decide (k = k')) as [<- | Hne]; [rewrite lookup_insert_eq; apply Ha | rewrite lookup_insert_ne by done; by left].
  - intros s2 g2 j who2 [s3 g3] Hrun (_ & _ & (q & Hq' & Hqe & _) & _)%execute_effect.
    destruct (executed_run _ _ _ _ k (with_outcome p true false) Hrun Hcall) as (q' & Hq2 & Hqe2); [by rewrite Hps, lookup_insert_eq | done |]. congruence.
Qed.

(** C16: Once a voting token is configured, which nothing undoes, no proposal made afterwards is
    ever executed: votes go to the lists of the token, and executions count the lists they
    replaced. *)
Theorem veflow_never_executes t s g k (Hh : oracle_history t s g) (Hv : is_Some (veflow_lock g)) (Hk : counter g < k) s' g' (Hrun : calls_run s g s' g') :
  forall i who r, execute_proposed_action hex_decode i s' g' who k <> Ok r.
Proof.
  intros i who [s2 g2] (_ & _ & _ & _ & Hq & _)%execute_effect. apply veflow_run in Hrun; [| done]. revert Hq. unfold _get_action_votes. rewrite Hrun.
  destruct (votes g !! k) eqn:E; [apply (actions_history t s g Hh) in E as [? _]; lia |]. unfold get_min_quorum_threshold, MIN_SAFE_QUORUM_THRESHOLD.
  change (len (default [] (@None (list Address)))) with 0. lia.
Qed.
End histories.

(** ** A concrete oracle: admin 1 adds an asset, makes 2 its delegate and switches the checks
    off for an hour; 2 sets the price 500. *)
#[local] Existing Instance test_host.
#[local] Instance test_tokens : Tokens test_host := map_tokens test_host.

Definition deaf (_ : Z) (_ : PriceUpdatePayload (H := test_host)) : bool := true.
Definition tank (_ _ : Z) : bool := true.
Definition no_configs (_ : list AssetRegistrationConfig) (_ : Z) : OR unit := Ok tt.
Definition no_hex (_ : bytes) : option bytes := None.
Definition one_vote (_ _ _ : Z) : option Z := Some 1.
Definition oracle_at (t q : Z) : oracle_env (H := test_host) := {| oauth := fun _ => true; onow := t; oledger := q; oself := 99; invoker := 50 |}.
Definition after {A} (d : A) (r : OR A) : A := match r with Ok x => x | _ => d end.

Abbreviation test_history := (oracle_history (H := test_host) deaf tank no_configs no_hex one_vote tank Unauthorized).
Abbreviation test_call := (call_step (H := test_host) deaf tank no_configs no_hex one_vote tank Unauthorized).
Abbreviation test_none := (no_actions (H := test_host)).

Definition started : oracle (H := test_host) := after blank (initialize (H := test_host) blank 1 []).

Lemma after_Ok {A} (d : A) (r : OR A) : is_ok r = true -> r = Ok (after d r).
Proof. by destruct r. Qed.

Lemma after_pair {A B} (d : A * B) (r : OR (A * B)) : is_ok r = true -> r = Ok ((after d r).1, (after d r).2).
Proof. by destruct r as [[x y] | |]. Qed.

Lemma entry_history t s g i s' : test_history t s g -> t <= oledger i -> oracle_step (H := test_host) deaf tank no_configs i s s' -> test_history (oledger i) s' g.
Proof. intros Hh Ht Hs. by apply (history_next _ _ _ _ _ _ _ t s g i); [| | apply call_entry]. Qed.

Lemma initial_history : test_history 10 started test_none.
Proof. apply (entry_history 10 blank _ (oracle_at 100 10)); [apply history_start | done |]. eapply step_initialize. apply after_Ok. vm_compute. reflexivity. Qed.







(** The one admin proposes to register 7 and hands over to 3, who votes and executes. *)
Definition proposed : action_store (H := test_host) := (after (test_none, 0) (propose_action (H := test_host) (oracle_at 100 10) started test_none 1 1 (Some 7) [])).1.
Definition offered : oracle (H := test_host) := after started (transfer_admin (H := test_host) (oracle_at 100 10) started 1 3).
Definition handed : oracle (H := test_host) := after offered (accept_admin (H := test_host) (oracle_at 90000 20) offered 3).
Definition voted : action_store (H := test_host) := (after (proposed, 0) (vote_for_action (H := test_host) one_vote tank Unauthorized (oracle_at 90000 20) handed proposed 3 1)).1.
Definition enlarged : oracle (H := test_host) * action_store (H := test_host) := after (handed, voted) (execute_proposed_action (H := test_host) no_hex (oracle_at 90000 20) handed voted 3 1).

Lemma voted_history : test_history 20 handed voted.
Proof.
  apply (history_next _ _ _ _ _ _ _ 20 handed proposed (oracle_at 90000 20)); [| done |].
  - apply (entry_history 10 offered _ (oracle_at 90000 20)); [| done |].
    + apply (entry_history 10 started _ (oracle_at 100 10)); [| done |].
      * apply (history_next _ _ _ _ _ _ _ 10 started test_none (oracle_at 100 10)); [apply initial_history | done |]. eapply call_propose. apply after_pair. vm_compute. reflexivity.
      * eapply step_transfer_admin. apply after_Ok. vm_compute. reflexivity.
    + eapply step_accept_admin. apply after_Ok. vm_compute. reflexivity.
  - eapply call_vote. apply after_pair. vm_compute. reflexivity.
Qed.

Lemma action_execution_justified_witness : admin_list enlarged.1 = [3; 7] /\ NoDup (_get_action_votes voted 1) /\
  forall r, execute_proposed_action (H := test_host) no_hex (oracle_at 90000 20) enlarged.1 enlarged.2 3 1 <> Ok r.
Proof.
  split; [vm_compute; reflexivity |].
  assert (Hx : execute_proposed_action (H := test_host) no_hex (oracle_at 90000 20) handed voted 3 1 = Ok (enlarged.1, enlarged.2)) by (apply after_pair; vm_compute; reflexivity).
  destruct (action_execution_justified (H := test_host) deaf tank no_configs no_hex one_vote tank Unauthorized 20 handed voted (oracle_at 90000 20) 3 1 enlarged.1 enlarged.2 voted_history Hx) as (_ & _ & Hn & _ & _ & Hr).
  split; [exact Hn |]. intros r. apply Hr. apply run_refl.
Defined.

(** The one admin sets a voting token, proposes, and votes. *)
Definition with_token : action_store (H := test_host) := after test_none (set_veflow_governance (H := test_host) (oracle_at 100 10) started test_none 1 60 1000).
Definition asked : action_store (H := test_host) := (after (with_token, 0) (propose_action (H := test_host) (oracle_at 100 10) started with_token 1 0 None [])).1.
Definition supported : action_store (H := test_host) := (after (asked, 0) (vote_for_action (H := test_host) one_vote tank Unauthorized (oracle_at 200 11) started asked 1 1)).1.

Lemma veflow_never_executes_witness : get_action_vote_totals supported 1 = (1, 0) /\
  forall r, execute_proposed_action (H := test_host) no_hex (oracle_at 300 12) started supported 1 1 <> Ok r.
Proof.
  split; [vm_compute; reflexivity |]. intros r.
  assert (Hh : test_history 10 started with_token).
  { apply (history_next _ _ _ _ _ _ _ 10 started test_none (oracle_at 100 10)); [apply initial_history | done |]. eapply call_veflow. apply after_Ok. vm_compute. reflexivity. }
  assert (Hrun : calls_run (H := test_host) deaf tank no_configs no_hex one_vote tank Unauthorized started with_token started supported).
  { apply (run_next _ _ _ _ _ _ _ _ _ (oracle_at 100 10) started asked); [eapply call_propose; apply after_pair; vm_compute; reflexivity |].
    apply (run_next _ _ _ _ _ _ _ _ _ (oracle_at 200 11) started supported); [eapply call_vote; apply after_pair; vm_compute; reflexivity | apply run_refl]. }
  exact (veflow_never_executes (H := test_host) deaf tank no_configs no_hex one_vote tank Unauthorized 10 started with_token 1 Hh ltac:(vm_compute; eexists; reflexivity) ltac:(vm_compute; reflexivity) started supported Hrun (oracle_at 300 12) 1 r).
Defined.
