(* ===== verification/Vault.v ===== *)
(** * The compounding vault of the root contract and its stops

    [src/src/vaults/autocompound.rs] and pause_guard.rs, with the entry points
    of lib.rs that hold the reentrancy lock around them. [VaultStorageKey] is the record
    [vault]; a share balance of zero is no entry. The borrower of a flash loan is a
    parameter: what its callback does to the ledger of the tokens, or that it traps; the host
    refuses a call back into a running contract, and the lock does too. Events are left out. *)

From stdpp Require Import base numbers list gmap.
From Stdlib Require Import ZArith Lia.
From S2P Require Import Prelude Host Token RootErrors.

Open Scope Z_scope.

Abbreviation R := (result ContractError).

Definition BPS_DENOMINATOR : Z := 10000.
Definition DEFAULT_PERFORMANCE_FEE_BPS : Z := 200.
Definition MAX_PERFORMANCE_FEE_BPS : Z := 2000.
Definition SHARE_VALUE_PRECISION : Z := 1000000000000000000.
Definition MAX_DRAWDOWN_BPS : Z := 1000.

Section vault.
Context {H : Host} {T : Tokens H}.

Record VaultConfig := { vc_admin : Address; vc_asset : Address; fee_bps : Z; fee_recipient : Address }.
Record HarvestResult := { gross_yield : Z; performance_fee : Z; compounded : Z; hr_total_assets : Z }.
Record vault := {
  v_config : option VaultConfig; v_shares : option Z; v_assets : option Z; v_holders : gmap Address Z;
  v_peak : option Z; v_drawdown : bool; v_paused : bool; v_emergency : bool; v_locked : bool }.
Record vault_env := { vauth : Address -> bool; vself : Address }.

Variable on_flash_loan : Address -> Address -> Z -> Z -> Ledger -> option Ledger.

(** ** Storage *)
Definition set_config (s : vault) (c : VaultConfig) : vault :=
  {| v_config := Some c; v_shares := v_shares s; v_assets := v_assets s; v_holders := v_holders s; v_peak := v_peak s; v_drawdown := v_drawdown s;
     v_paused := v_paused s; v_emergency := v_emergency s; v_locked := v_locked s |}.
Definition set_totals (s : vault) (sh a : Z) : vault :=
  {| v_config := v_config s; v_shares := Some sh; v_assets := Some a; v_holders := v_holders s; v_peak := v_peak s; v_drawdown := v_drawdown s;
     v_paused := v_paused s; v_emergency := v_emergency s; v_locked := v_locked s |}.
Definition set_holders (s : vault) (m : gmap Address Z) : vault :=
  {| v_config := v_config s; v_shares := v_shares s; v_assets := v_assets s; v_holders := m; v_peak := v_peak s; v_drawdown := v_drawdown s;
     v_paused := v_paused s; v_emergency := v_emergency s; v_locked := v_locked s |}.
Definition set_peak (s : vault) (p : Z) : vault :=
  {| v_config := v_config s; v_shares := v_shares s; v_assets := v_assets s; v_holders := v_holders s; v_peak := Some p; v_drawdown := v_drawdown s;
     v_paused := v_paused s; v_emergency := v_emergency s; v_locked := v_locked s |}.
Definition set_stops (s : vault) (d p e : bool) : vault :=
  {| v_config := v_config s; v_shares := v_shares s; v_assets := v_assets s; v_holders := v_holders s; v_peak := v_peak s; v_drawdown := d;
     v_paused := p; v_emergency := e; v_locked := v_locked s |}.
Definition set_locked (s : vault) (b : bool) : vault :=
  {| v_config := v_config s; v_shares := v_shares s; v_assets := v_assets s; v_holders := v_holders s; v_peak := v_peak s; v_drawdown := v_drawdown s;
     v_paused := v_paused s; v_emergency := v_emergency s; v_locked := b |}.

Definition load_config (s : vault) : R VaultConfig := ok_or (v_config s) VaultNotInitialized.
Definition total_shares (s : vault) : Z := default 0 (v_shares s).
Definition total_assets (s : vault) : Z := default 0 (v_assets s).
Definition share_balance_of (s : vault) (a : Address) : Z := default 0 (v_holders s !! a).
Definition set_share_balance (s : vault) (a : Address) (x : Z) : vault :=
  set_holders s (if x =? 0 then delete a (v_holders s) else <[a := x]> (v_holders s)).

Definition assert_balance_invariant (i : vault_env) (l : Ledger) (s : vault) (c : VaultConfig) : R unit :=
  if balance l (vc_asset c) (vself i) =? total_assets s then mret tt else Panic.

(** ** The value of a share and its peak *)
Definition calculate_share_value (assets shares : Z) : option Z :=
  if shares <=? 0 then None else x ← checked_mul I128 assets SHARE_VALUE_PRECISION; checked_div I128 x shares.
Definition get_peak_share_value (s : vault) : Z := default 0 (v_peak s).
Definition is_circuit_breaker_triggered (s : vault) : bool := v_drawdown s.
Definition update_peak_share_value (s : vault) (x : Z) : vault :=
  if x <=? 0 then s else if get_peak_share_value s <? x then set_peak s x else s.
Definition track_peak (s : vault) (assets shares : Z) : vault :=
  match calculate_share_value assets shares with Some x => update_peak_share_value s x | None => s end.

Definition trigger_circuit_breaker (s : vault) : vault := set_stops s true true true.

Definition check_and_trigger_circuit_breaker (s : vault) : R (vault * bool) :=
  if is_circuit_breaker_triggered s then mret (s, true)
  else
    let shares := total_shares s in
    let assets := total_assets s in
    let peak := get_peak_share_value s in
    if (0 <? shares) && (0 <? peak) then
      match calculate_share_value assets shares with
      | Some current =>
          if current <? peak then
            loss ← ok_or (checked_sub I128 peak current) MathOverflow;
            x ← ok_or (checked_mul I128 loss BPS_DENOMINATOR) MathOverflow;
            loss_bps ← ok_or (checked_div I128 x peak) DivisionByZero;
            if MAX_DRAWDOWN_BPS <? loss_bps then mret (trigger_circuit_breaker s, true) else mret (s, false)
          else mret (s, false)
      | None => mret (s, false)
      end
    else mret (s, false).

(** ** autocompound.rs *)
Definition initialize (i : vault_env) (s : vault) (admin asset recipient : Address) : R (vault * VaultConfig) :=
  _ ← fail_if (bool_decide (is_Some (v_config s))) VaultAlreadyInitialized;
  _ ← require_auth (vauth i) admin;
  let c := {| vc_admin := admin; vc_asset := asset; fee_bps := DEFAULT_PERFORMANCE_FEE_BPS; fee_recipient := recipient |} in
  mret (set_totals (set_config s c) 0 0, c).

Definition set_performance_fee (i : vault_env) (s : vault) (admin : Address) (x : Z) : R (vault * VaultConfig) :=
  c ← load_config s;
  _ ← fail_if (negb (bool_decide (vc_admin c = admin))) NotAdmin;
  _ ← require_auth (vauth i) admin;
  _ ← fail_if (MAX_PERFORMANCE_FEE_BPS <? x) VaultInvalidPerformanceFee;
  let c := {| vc_admin := vc_admin c; vc_asset := vc_asset c; fee_bps := x; fee_recipient := fee_recipient c |} in
  mret (set_config s c, c).

Definition deposit (i : vault_env) (l : Ledger) (s : vault) (depositor : Address) (amount : Z) : R (vault * Ledger * Z) :=
  _ ← fail_if (amount <=? 0) VaultZeroAmount;
  c ← load_config s;
  _ ← require_auth (vauth i) depositor;
  _ ← assert_balance_invariant i l s c;
  let assets := total_assets s in
  let shares := total_shares s in
  minted ← (if (shares =? 0) || (assets =? 0) then mret amount
            else x ← ok_or (checked_mul I128 amount shares) MathOverflow; ok_or (checked_div I128 x assets) DivisionByZero);
  _ ← fail_if (minted <=? 0) VaultZeroAmount;
  l ← unwrap (transfer l (vc_asset c) depositor (vself i) amount);
  new_assets ← ok_or (checked_add I128 assets amount) MathOverflow;
  new_shares ← ok_or (checked_add I128 shares minted) MathOverflow;
  let s := track_peak (set_totals s new_shares new_assets) new_assets new_shares in
  n ← ok_or (checked_add I128 (share_balance_of s depositor) minted) MathOverflow;
  let s := set_share_balance s depositor n in
  _ ← assert_balance_invariant i l s c;
  mret (s, l, minted).

Definition withdraw (i : vault_env) (l : Ledger) (s : vault) (owner : Address) (shares : Z) : R (vault * Ledger * Z) :=
  _ ← fail_if (shares <=? 0) VaultZeroAmount;
  c ← load_config s;
  _ ← require_auth (vauth i) owner;
  _ ← assert_balance_invariant i l s c;
  let held := share_balance_of s owner in
  _ ← fail_if (held <? shares) VaultInsufficientShares;
  let assets := total_assets s in
  let supply := total_shares s in
  _ ← fail_if (supply =? 0) VaultInsufficientShares;
  x ← ok_or (checked_mul I128 shares assets) MathOverflow;
  owed ← ok_or (checked_div I128 x supply) DivisionByZero;
  _ ← fail_if ((owed <=? 0) || (assets <? owed)) VaultInsufficientBalance;
  left ← isub I128 held shares;
  let s := set_share_balance s owner left in
  supply' ← isub I128 supply shares;
  assets' ← isub I128 assets owed;
  let s := set_totals s supply' assets' in
  l ← unwrap (transfer l (vc_asset c) (vself i) owner owed);
  _ ← assert_balance_invariant i l s c;
  mret (s, l, owed).

Definition require_vault_not_paused (s : vault) : R unit := fail_if (v_paused s) VaultPaused.

Definition harvest (i : vault_env) (l : Ledger) (s : vault) (keeper : Address) (y : Z) : R (vault * Ledger * HarvestResult) :=
  _ ← require_vault_not_paused s;
  _ ← fail_if (y <=? 0) VaultZeroAmount;
  c ← load_config s;
  _ ← require_auth (vauth i) keeper;
  r ← check_and_trigger_circuit_breaker s;
  _ ← fail_if r.2 VaultMaxDrawdownExceeded;
  let s := r.1 in
  _ ← assert_balance_invariant i l s c;
  l ← unwrap (transfer l (vc_asset c) keeper (vself i) y);
  x ← ok_or (checked_mul I128 y (fee_bps c)) MathOverflow;
  fee ← ok_or (checked_div I128 x BPS_DENOMINATOR) DivisionByZero;
  net ← ok_or (checked_sub I128 y fee) MathOverflow;
  l ← (if 0 <? fee then unwrap (transfer l (vc_asset c) (vself i) (fee_recipient c) fee) else mret l);
  new_assets ← ok_or (checked_add I128 (total_assets s) net) MathOverflow;
  let s := track_peak (set_totals s (total_shares s) new_assets) new_assets (total_shares s) in
  _ ← assert_balance_invariant i l s c;
  mret (s, l, {| gross_yield := y; performance_fee := fee; compounded := net; hr_total_assets := new_assets |}).

Definition flash_loan (i : vault_env) (l : Ledger) (s : vault) (borrower : Address) (amount : Z) : R (vault * Ledger * Z) :=
  _ ← fail_if (amount <=? 0) VaultZeroAmount;
  c ← load_config s;
  let initial := balance l (vc_asset c) (vself i) in
  x ← ok_or (checked_mul I128 amount (fee_bps c)) MathOverflow;
  fee ← ok_or (checked_div I128 x BPS_DENOMINATOR) DivisionByZero;
  required ← ok_or (checked_add I128 initial fee) MathOverflow;
  l ← unwrap (transfer l (vc_asset c) (vself i) borrower amount);
  l ← unwrap (on_flash_loan borrower (vc_asset c) amount fee l);
  if balance l (vc_asset c) (vself i) <? required then Panic else mret (s, l, fee).

(** ** The entry points of lib.rs, under the lock *)
Definition guarded {A} (s : vault) (body : vault -> R (vault * Ledger * A)) : R (vault * Ledger * A) :=
  _ ← fail_if (v_locked s) ReentrancyDetected;
  r ← body (set_locked s true);
  mret (set_locked r.1.1 false, r.1.2, r.2).
Definition vault_deposit (i : vault_env) (l : Ledger) (s : vault) (a : Address) (x : Z) : R (vault * Ledger * Z) := guarded s (fun s => deposit i l s a x).
Definition vault_withdraw (i : vault_env) (l : Ledger) (s : vault) (a : Address) (x : Z) : R (vault * Ledger * Z) := guarded s (fun s => withdraw i l s a x).
Definition vault_harvest (i : vault_env) (l : Ledger) (s : vault) (a : Address) (x : Z) : R (vault * Ledger * HarvestResult) := guarded s (fun s => harvest i l s a x).
Definition vault_flash_loan (i : vault_env) (l : Ledger) (s : vault) (a : Address) (x : Z) : R (vault * Ledger * Z) := guarded s (fun s => flash_loan i l s a x).
Definition vault_check_circuit_breaker (s : vault) : R (vault * bool) := check_and_trigger_circuit_breaker s.

(** ** pause_guard.rs; [admin] is the admin of the contract, if it has one. *)
Definition admin_signs (i : vault_env) (admin : option Address) (caller : Address) : R unit :=
  a ← ok_or admin NotInitialized;
  _ ← fail_if (negb (bool_decide (a = caller))) NotAdmin;
  require_auth (vauth i) caller.
Definition require_vault_operational (contract_paused : bool) (s : vault) : R unit :=
  _ ← fail_if contract_paused ContractPaused; require_vault_not_paused s.
Definition pause_vault (i : vault_env) (admin : option Address) (s : vault) (caller : Address) : R vault :=
  _ ← admin_signs i admin caller; mret (set_stops s (v_drawdown s) true (v_emergency s)).
Definition unpause_vault (i : vault_env) (admin : option Address) (s : vault) (caller : Address) : R vault :=
  _ ← admin_signs i admin caller; mret (set_stops s (v_drawdown s) false (v_emergency s)).

(** Nothing in the repository calls this with a [transfer_fn]. *)
Definition emergency_vault_withdraw (i : vault_env) (admin : option Address) (s : vault) (caller : Address) (transfer_fn : vault -> R vault) : R vault :=
  _ ← ok_or admin NotInitialized;
  _ ← require_auth (vauth i) caller;
  s ← transfer_fn (set_stops s (v_drawdown s) (v_paused s) true);
  mret (set_stops s (v_drawdown s) (v_paused s) false).

Definition allow_if_emergency_or_unpaused (contract_paused : bool) (s : vault) : R unit :=
  if v_emergency s then mret tt else require_vault_operational contract_paused s.

(** ** What the operations do *)
Lemma track_peak_frame s a x : v_config (track_peak s a x) = v_config s /\ v_shares (track_peak s a x) = v_shares s /\ v_assets (track_peak s a x) = v_assets s /\
  v_holders (track_peak s a x) = v_holders s /\ v_drawdown (track_peak s a x) = v_drawdown s /\ v_paused (track_peak s a x) = v_paused s /\ v_locked (track_peak s a x) = v_locked s.
Proof.
  unfold track_peak, update_peak_share_value. destruct (calculate_share_value a x) as [y |]; [| done]. destruct (y <=? 0); [done |]. by destruct (_ <? _).
Qed.

Lemma invariant_Ok i l s c u : assert_balance_invariant i l s c = Ok u -> balance l (vc_asset c) (vself i) = total_assets s.
Proof. unfold assert_balance_invariant. destruct (Z.eqb_spec (balance l (vc_asset c) (vself i)) (total_assets s)); [done | done]. Qed.

Definition share_price (amount shares assets : Z) : Z := if (shares =? 0) || (assets =? 0) then amount else Z.quot (amount * shares) assets.

Lemma deposit_effect i l s a x s' l' m (Hr : deposit i l s a x = Ok (s', l', m)) :
  exists c n, v_config s = Some c /\ 0 < x /\ 0 < m /\ m = share_price x (total_shares s) (total_assets s) /\
    balance l (vc_asset c) (vself i) = total_assets s /\ balance l' (vc_asset c) (vself i) = total_assets s' /\ n = share_balance_of s a + m /\
    s' = set_share_balance (track_peak (set_totals s (total_shares s + m) (total_assets s + x)) (total_assets s + x) (total_shares s + m)) a n.
Proof.
  apply bind_Ok in Hr as (u1 & Hx%fail_if_Ok%Z.leb_gt & Hr). apply bind_Ok in Hr as (c & Hc%ok_or_Ok & Hr). apply bind_Ok in Hr as (u2 & _ & Hr).
  apply bind_Ok in Hr as (u3 & Hb%invariant_Ok & Hr). cbv zeta in Hr. apply bind_Ok in Hr as (mi & Hm & Hr). apply bind_Ok in Hr as (u4 & Hp%fail_if_Ok%Z.leb_gt & Hr).
  apply bind_Ok in Hr as (l1 & _ & Hr). apply bind_Ok in Hr as (na & [-> _]%ok_or_Ok%chk_Some & Hr). apply bind_Ok in Hr as (ns & [-> _]%ok_or_Ok%chk_Some & Hr).
  apply bind_Ok in Hr as (n & [-> _]%ok_or_Ok%chk_Some & Hr). apply bind_Ok in Hr as (u5 & Hb'%invariant_Ok & Hr). injection Hr as <- <- <-.
  eexists c, _. split; [done |]. split; [done |]. split; [done |]. split.
  { unfold share_price. destruct (_ || _); [by injection Hm as <- |]. apply bind_Ok in Hm as (y & [-> _]%ok_or_Ok%chk_Some & Hm%ok_or_Ok).
    unfold checked_div in Hm. destruct (_ =? 0); [done |]. by apply chk_Some in Hm as [-> _]. }
  split; [done |]. split; [exact Hb' |]. split; [| reflexivity]. unfold share_balance_of. pose proof (track_peak_frame (set_totals s (total_shares s + mi) (total_assets s + x)) (total_assets s + x) (total_shares s + mi)) as (_ & _ & _ & -> & _). done.
Qed.

Lemma withdraw_effect i l s a x s' l' y (Hr : withdraw i l s a x = Ok (s', l', y)) :
  exists c, v_config s = Some c /\ 0 < x <= share_balance_of s a /\ total_shares s <> 0 /\ y = Z.quot (x * total_assets s) (total_shares s) /\ 0 < y <= total_assets s /\
    balance l (vc_asset c) (vself i) = total_assets s /\ balance l' (vc_asset c) (vself i) = total_assets s' /\
    s' = set_totals (set_share_balance s a (share_balance_of s a - x)) (total_shares s - x) (total_assets s - y).
Proof.
  apply bind_Ok in Hr as (u1 & Hx%fail_if_Ok%Z.leb_gt & Hr). apply bind_Ok in Hr as (c & Hc%ok_or_Ok & Hr). apply bind_Ok in Hr as (u2 & _ & Hr).
  apply bind_Ok in Hr as (u3 & Hb%invariant_Ok & Hr). cbv zeta in Hr. apply bind_Ok in Hr as (u4 & Hh%fail_if_Ok%Z.ltb_ge & Hr).
  apply bind_Ok in Hr as (u5 & Hs%fail_if_Ok%Z.eqb_neq & Hr). apply bind_Ok in Hr as (p & [-> _]%ok_or_Ok%chk_Some & Hr). apply bind_Ok in Hr as (o & Ho%ok_or_Ok & Hr).
  apply bind_Ok in Hr as (u6 & [Hy1%Z.leb_gt Hy2%Z.ltb_ge]%fail_if_Ok%orb_false_iff & Hr). apply bind_Ok in Hr as (n & [-> _]%iop_Ok & Hr).
  apply bind_Ok in Hr as (ns & [-> _]%iop_Ok & Hr). apply bind_Ok in Hr as (na & [-> _]%iop_Ok & Hr). apply bind_Ok in Hr as (l1 & _ & Hr).
  apply bind_Ok in Hr as (u7 & Hb'%invariant_Ok & Hr). injection Hr as <- <- <-. exists c. unfold checked_div in Ho. rewrite (proj2 (Z.eqb_neq _ _) Hs) in Ho.
  apply chk_Some in Ho as [-> _]. done.
Qed.

Lemma check_effect s s' b (Hr : check_and_trigger_circuit_breaker s = Ok (s', b)) : s' = (if b then trigger_circuit_breaker s else s) \/ s' = s /\ v_drawdown s = true.
Proof.
  unfold check_and_trigger_circuit_breaker in Hr. destruct (is_circuit_breaker_triggered s) eqn:E; [injection Hr as <- _; by right |]. left. cbv zeta in Hr.
  destruct (_ && _); [| by injection Hr as <- <-]. destruct (calculate_share_value _ _); [| by injection Hr as <- <-]. destruct (_ <? _); [| by injection Hr as <- <-].
  apply bind_Ok in Hr as (u & _ & Hr). apply bind_Ok in Hr as (u2 & _ & Hr). apply bind_Ok in Hr as (u3 & _ & Hr). destruct (_ <? _); by injection Hr as <- <-.
Qed.

Lemma harvest_effect i l s a y s' l' h (Hr : harvest i l s a y = Ok (s', l', h)) :
  exists c, v_config s = Some c /\ 0 < y /\ v_drawdown s = false /\ compounded h = y - Z.quot (y * fee_bps c) BPS_DENOMINATOR /\
    balance l (vc_asset c) (vself i) = total_assets s /\ balance l' (vc_asset c) (vself i) = total_assets s' /\
    s' = track_peak (set_totals s (total_shares s) (total_assets s + compounded h)) (total_assets s + compounded h) (total_shares s).
Proof.
  apply bind_Ok in Hr as (u1 & _ & Hr). apply bind_Ok in Hr as (u2 & Hy%fail_if_Ok%Z.leb_gt & Hr). apply bind_Ok in Hr as (c & Hc%ok_or_Ok & Hr). apply bind_Ok in Hr as (u3 & _ & Hr).
  apply bind_Ok in Hr as ([s1 b] & Hck & Hr). apply bind_Ok in Hr as (u4 & Hb%fail_if_Ok & Hr). cbn [fst snd] in Hb, Hr. subst b.
  assert (Hs1 : s1 = s /\ v_drawdown s = false).
  { destruct (v_drawdown s) eqn:E; [| apply check_effect in Hck as [-> | [_ ?]]; [done | congruence]].
    unfold check_and_trigger_circuit_breaker, is_circuit_breaker_triggered in Hck. rewrite E in Hck. discriminate Hck. }
  destruct Hs1 as [-> Hd]. cbv zeta in Hr. apply bind_Ok in Hr as (u5 & Hinv%invariant_Ok & Hr). apply bind_Ok in Hr as (l1 & _ & Hr). apply bind_Ok in Hr as (p & [-> _]%ok_or_Ok%chk_Some & Hr).
  apply bind_Ok in Hr as (fee & Hf%ok_or_Ok & Hr). apply bind_Ok in Hr as (net & [-> _]%ok_or_Ok%chk_Some & Hr). apply bind_Ok in Hr as (l2 & _ & Hr).
  apply bind_Ok in Hr as (na & [-> _]%ok_or_Ok%chk_Some & Hr). apply bind_Ok in Hr as (u6 & Hinv'%invariant_Ok & Hr). injection Hr as <- <- <-.
  unfold checked_div, BPS_DENOMINATOR in Hf. cbn [Z.eqb] in Hf. apply chk_Some in Hf as [-> _]. exists c. cbn [compounded]. done.
Qed.

Lemma guarded_effect {A} s (body : vault -> R (vault * Ledger * A)) s' l' x (Hr : guarded s body = Ok (s', l', x)) :
  v_locked s = false /\ exists s1, body (set_locked s true) = Ok (s1, l', x) /\ s' = set_locked s1 false.
Proof. apply bind_Ok in Hr as (u & Hu%fail_if_Ok & Hr). apply bind_Ok in Hr as ([[s1 l1] y] & Hb & Hr). injection Hr as <- <- <-. eauto. Qed.

(** ** Histories: calls that returned, between which tokens move in any way *)
Inductive vault_step (s : vault) : vault -> Prop :=
| step_init i a b c s' r (Hr : initialize i s a b c = Ok (s', r)) : vault_step s s'
| step_fee i a x s' r (Hx : 0 <= x) (Hr : set_performance_fee i s a x = Ok (s', r)) : vault_step s s'
| step_deposit i l l' a x s' r (Hr : vault_deposit i l s a x = Ok (s', l', r)) : vault_step s s'
| step_withdraw i l l' a x s' r (Hr : vault_withdraw i l s a x = Ok (s', l', r)) : vault_step s s'
| step_harvest i l l' a x s' r (Hr : vault_harvest i l s a x = Ok (s', l', r)) : vault_step s s'
| step_flash i l l' a x s' r (Hr : vault_flash_loan i l s a x = Ok (s', l', r)) : vault_step s s'
| step_check s' r (Hr : vault_check_circuit_breaker s = Ok (s', r)) : vault_step s s'
| step_pause i o a s' (Hr : pause_vault i o s a = Ok s') : vault_step s s'
| step_unpause i o a s' (Hr : unpause_vault i o s a = Ok s') : vault_step s s'.

Definition new_vault : vault :=
  {| v_config := None; v_shares := None; v_assets := None; v_holders := ∅; v_peak := None; v_drawdown := false; v_paused := false; v_emergency := false; v_locked := false |}.

Inductive vault_run (s : vault) : vault -> Prop :=
| run_refl : vault_run s s
| run_next s1 s' : vault_run s s1 -> vault_step s1 s' -> vault_run s s'.

(** The holders' shares add up to the supply, whoever holds shares has some, a vault with
    shares has assets, and the fee is within its ceiling. *)
Record vault_ok (s : vault) : Prop := {
  ok_sum : msum (fun _ x => x) (v_holders s) = total_shares s;
  ok_pos : forall a x, v_holders s !! a = Some x -> 0 < x;
  ok_assets : 0 <= total_assets s;
  ok_live : 0 < total_shares s -> 0 < total_assets s;
  ok_fee : forall c, v_config s = Some c -> 0 <= fee_bps c <= MAX_PERFORMANCE_FEE_BPS;
  ok_new : v_config s = None -> v_holders s = ∅ }.

(** The parts of the state the invariant reads. *)
Definition books (s : vault) : option VaultConfig * Z * Z * gmap Address Z := (v_config s, total_shares s, total_assets s, v_holders s).

Lemma vault_books_ok s s' : books s' = books s -> vault_ok s -> vault_ok s'.
Proof.
  unfold books. intros [= H1 H2 H3 H4] [h1 h2 h3 h4 h5 h6]. split; intros *.
  - by rewrite H4, H2.
  - rewrite H4. apply h2.
  - by rewrite H3.
  - rewrite H2, H3. apply h4.
  - rewrite H1. apply h5.
  - rewrite H1, H4. apply h6.
Qed.

Lemma books_locked s b : books (set_locked s b) = books s.
Proof. done. Qed.

Lemma books_peak s a x : books (track_peak s a x) = books s.
Proof. unfold books, total_shares, total_assets. destruct (track_peak_frame s a x) as (-> & -> & -> & -> & _). done. Qed.

Lemma share_sum s a x : (forall b y, v_holders s !! b = Some y -> 0 < y) -> 0 <= x ->
  msum (fun _ y => y) (v_holders (set_share_balance s a x)) = msum (fun _ y => y) (v_holders s) - share_balance_of s a + x /\
  forall b y, v_holders (set_share_balance s a x) !! b = Some y -> 0 < y.
Proof.
  intros Hp Hx. unfold set_share_balance, share_balance_of. cbn. assert (Ht : default 0 (v_holders s !! a) = term (fun _ y => y) (v_holders s) a) by (unfold term; by destruct (v_holders s !! a)).
  rewrite Ht. destruct (Z.eqb_spec x 0) as [-> | Hne].
  - rewrite msum_delete. split; [lia |]. intros b y [_ Hb]%lookup_delete_Some. by eapply Hp.
  - rewrite msum_insert. split; [lia |]. intros b y. destruct (decide (b = a)) as [-> | Hb]; [rewrite lookup_insert_eq; intros [= <-]; lia |].
    rewrite lookup_insert_ne by done. apply Hp.
Qed.

Lemma share_nonneg s a : vault_ok s -> 0 <= share_balance_of s a <= total_shares s.
Proof.
  intros [h1 h2 _ _ _ _]. assert (Hn : forall b y, v_holders s !! b = Some y -> 0 <= y) by (intros b y ?%h2; lia).
  pose proof (msum_term_le (fun _ y => y) (v_holders s) a Hn) as Hle. unfold share_balance_of, term in *. destruct (v_holders s !! a) as [y |] eqn:E; cbn.
  - apply h2 in E. lia.
  - pose proof (msum_nonneg (fun _ y => y) (v_holders s) Hn). lia.
Qed.

Lemma vault_deposit_ok i l s a x s' l' m : vault_ok s -> deposit i l s a x = Ok (s', l', m) -> vault_ok s'.
Proof.
  intros Hok (c & n & Hc & Hx & Hm & _ & _ & _ & -> & ->)%deposit_effect. pose proof (share_nonneg s a Hok) as Hn. destruct Hok as [h1 h2 h3 h4 h5 h6].
  set (s1 := track_peak _ _ _). pose proof (books_peak (set_totals s (total_shares s + m) (total_assets s + x)) (total_assets s + x) (total_shares s + m)) as Hb. fold s1 in Hb.
  unfold books in Hb. cbn in Hb. injection Hb as Hb1 Hb2 Hb3 Hb4. unfold total_shares at 2 in Hb2. unfold total_assets at 2 in Hb3. cbn in Hb2, Hb3.
  assert (Hsb : share_balance_of s1 a = share_balance_of s a) by (unfold share_balance_of; by rewrite Hb4).
  destruct (share_sum s1 a (share_balance_of s a + m)) as (Hsum & Hpos); [by rewrite Hb4 | lia |]. rewrite Hsb, Hb4, h1 in Hsum.
  split; cbn; unfold total_shares, total_assets in *; cbn in *; rewrite ?Hb2, ?Hb3; try lia.
  - exact Hpos.
  - intros c'. rewrite Hb1. apply h5.
  - rewrite Hb1, Hc. done.
Qed.

Lemma quot_pos a b : 0 <= a -> 0 < b -> Z.quot a b = a / b.
Proof. intros. by apply Z.quot_div_nonneg. Qed.

Lemma vault_withdraw_ok i l s a x s' l' y : vault_ok s -> withdraw i l s a x = Ok (s', l', y) -> vault_ok s'.
Proof.
  intros Hok (c & Hc & Hx & Hs & Hy & Hyb & _ & _ & ->)%withdraw_effect. pose proof (share_nonneg s a Hok) as Hn. destruct Hok as [h1 h2 h3 h4 h5 h6].
  destruct (share_sum s a (share_balance_of s a - x)) as (Hsum & Hpos); [done | lia |]. rewrite h1 in Hsum.
  assert (Hlive : x < total_shares s -> y < total_assets s).
  { intros Hlt. rewrite Hy, quot_pos by nia. apply Z.div_lt_upper_bound; [lia |]. assert (0 < total_assets s) by (apply h4; lia). nia. }
  split; cbn; unfold total_shares, total_assets in *; cbn in *; try lia; [exact Hpos | exact h5 | by rewrite Hc].
Qed.

Lemma compounded_range s y h c : vault_ok s -> v_config s = Some c -> 0 < y -> h = y - Z.quot (y * fee_bps c) BPS_DENOMINATOR -> 0 <= h <= y.
Proof.
  intros Hok Hc Hy ->. pose proof (ok_fee s Hok c Hc) as Hf. unfold MAX_PERFORMANCE_FEE_BPS in Hf. rewrite quot_pos by (unfold BPS_DENOMINATOR; nia). unfold BPS_DENOMINATOR.
  pose proof (Z.div_le_upper_bound (y * fee_bps c) 10000 y ltac:(lia) ltac:(nia)). pose proof (Z.div_pos (y * fee_bps c) 10000 ltac:(nia) ltac:(lia)). lia.
Qed.

Lemma vault_harvest_ok i l s a y s' l' h : vault_ok s -> harvest i l s a y = Ok (s', l', h) -> vault_ok s'.
Proof.
  intros Hok (c & Hc & Hy & _ & Hh & _ & _ & ->)%harvest_effect. pose proof (compounded_range s y _ c Hok Hc Hy Hh) as Hr.
  apply (vault_books_ok _ _ (books_peak _ _ _)). destruct Hok as [h1 h2 h3 h4 h5 h6]. split; cbn; unfold total_shares, total_assets in *; cbn in *; try done; lia.
Qed.

Lemma flash_effect i l s b x s' l' fee (Hr : flash_loan i l s b x = Ok (s', l', fee)) :
  s' = s /\ exists c, v_config s = Some c /\ balance l (vc_asset c) (vself i) + fee <= balance l' (vc_asset c) (vself i).
Proof.
  apply bind_Ok in Hr as (u1 & _ & Hr). apply bind_Ok in Hr as (c & Hc%ok_or_Ok & Hr). cbv zeta in Hr. apply bind_Ok in Hr as (y & _ & Hr). apply bind_Ok in Hr as (f & _ & Hr).
  apply bind_Ok in Hr as (q & [-> _]%ok_or_Ok%chk_Some & Hr). apply bind_Ok in Hr as (l1 & _ & Hr). apply bind_Ok in Hr as (l2 & _ & Hr).
  destruct (Z.ltb_spec (balance l2 (vc_asset c) (vself i)) (balance l (vc_asset c) (vself i) + f)); [done |]. injection Hr as <- <- <-. eauto.
Qed.

Lemma vault_step_ok s s' : vault_ok s -> vault_step s s' -> vault_ok s'.
Proof.
  intros Hok. destruct 1.
  - apply bind_Ok in Hr as (u & Hn%fail_if_Ok%bool_decide_eq_false & Hr). apply bind_Ok in Hr as (u2 & _ & Hr). injection Hr as <- _.
    apply eq_None_not_Some in Hn. pose proof (ok_new s Hok Hn) as Hh. split; cbn; unfold total_shares, total_assets; cbn; try lia.
    + by rewrite Hh, msum_empty.
    + intros a' x. by rewrite Hh.
    + intros c' [= <-]. done.
    + done.
  - apply bind_Ok in Hr as (c & Hc%ok_or_Ok & Hr). apply bind_Ok in Hr as (u & _ & Hr). apply bind_Ok in Hr as (u2 & _ & Hr).
    apply bind_Ok in Hr as (u3 & Hm%fail_if_Ok%Z.ltb_ge & Hr). injection Hr as <- _. destruct Hok as [h1 h2 h3 h4 h5 h6]. split; cbn; try done. intros c' [= <-]. cbn. lia.
  - apply guarded_effect in Hr as (_ & s1 & Hr & ->). apply (vault_deposit_ok _ _ (set_locked s true)) in Hr; [by apply (vault_books_ok s1) |]. by apply (vault_books_ok s).
  - apply guarded_effect in Hr as (_ & s1 & Hr & ->). apply (vault_withdraw_ok _ _ (set_locked s true)) in Hr; [by apply (vault_books_ok s1) |]. by apply (vault_books_ok s).
  - apply guarded_effect in Hr as (_ & s1 & Hr & ->). apply (vault_harvest_ok _ _ (set_locked s true)) in Hr; [by apply (vault_books_ok s1) |]. by apply (vault_books_ok s).
  - apply guarded_effect in Hr as (_ & s1 & Hr & ->). apply flash_effect in Hr as [-> _]. by apply (vault_books_ok s).
  - apply check_effect in Hr as [-> | [-> _]]; [| done]. by destruct r; [apply (vault_books_ok s) |].
  - apply bind_Ok in Hr as (u & _ & [= <-]). by apply (vault_books_ok s).
  - apply bind_Ok in Hr as (u & _ & [= <-]). by apply (vault_books_ok s).
Qed.

Lemma vault_run_ok s : vault_run new_vault s -> vault_ok s.
Proof.
  induction 1; [| by eapply vault_step_ok]. split; cbn; unfold total_shares, total_assets; cbn; try done; lia.
Qed.

(** ** The value of a share *)
Lemma share_price_le x s m : vault_ok s -> 0 < x -> 0 < total_shares s -> m = share_price x (total_shares s) (total_assets s) -> m * total_assets s <= x * total_shares s.
Proof.
  intros Hok Hx Hs ->. pose proof (ok_live s Hok Hs) as Ha. unfold share_price. rewrite !(proj2 (Z.eqb_neq _ _)) by lia. cbn [orb].
  rewrite quot_pos by nia. pose proof (Z.mul_div_le (x * total_shares s) (total_assets s) ltac:(lia)). lia.
Qed.

Lemma peak_totals s a x : total_shares (track_peak s a x) = total_shares s /\ total_assets (track_peak s a x) = total_assets s.
Proof. pose proof (books_peak s a x) as Hb. by injection Hb. Qed.

Lemma deposit_totals i l s a x s' l' m : deposit i l s a x = Ok (s', l', m) -> total_shares s' = total_shares s + m /\ total_assets s' = total_assets s + x.
Proof.
  intros (c & n & _ & _ & _ & _ & _ & _ & _ & ->)%deposit_effect. set (st := set_totals s _ _).
  destruct (peak_totals st (total_assets s + x) (total_shares s + m)) as (E1 & E2). unfold total_shares, total_assets in *. cbn in *. by rewrite E1, E2.
Qed.

(** What a step does to the totals: nothing (or a set-up, from no shares), a deposit, a withdrawal, a harvest. *)
Lemma step_totals s s' : vault_ok s -> vault_step s s' ->
  (total_shares s' = total_shares s /\ total_assets s' = total_assets s /\ get_peak_share_value s' = get_peak_share_value s) \/
  (total_shares s = 0 /\ total_shares s' = 0 /\ get_peak_share_value s' = get_peak_share_value s) \/
  (exists x m, 0 < x /\ 0 < m /\ m = share_price x (total_shares s) (total_assets s) /\ total_shares s' = total_shares s + m /\ total_assets s' = total_assets s + x /\
    get_peak_share_value s' = get_peak_share_value (track_peak s (total_assets s') (total_shares s'))) \/
  (exists x y, 0 < x <= total_shares s /\ y = Z.quot (x * total_assets s) (total_shares s) /\ total_shares s' = total_shares s - x /\ total_assets s' = total_assets s - y /\
    get_peak_share_value s' = get_peak_share_value s) \/
  (exists z, 0 <= z /\ total_shares s' = total_shares s /\ total_assets s' = total_assets s + z /\
    get_peak_share_value s' = get_peak_share_value (track_peak s (total_assets s') (total_shares s'))).
Proof.
  intros Hok. assert (Hpk : forall s1 s2 a x, v_peak s1 = v_peak s2 -> get_peak_share_value (track_peak s1 a x) = get_peak_share_value (track_peak s2 a x)).
  { intros s1 s2 a x Hp. unfold track_peak, update_peak_share_value, get_peak_share_value. destruct (calculate_share_value a x) as [y |]; [| by rewrite Hp].
    destruct (y <=? 0); [by rewrite Hp |]. rewrite Hp. destruct (_ <? y); [done | by rewrite Hp]. }
  destruct 1.
  - apply bind_Ok in Hr as (u & Hn%fail_if_Ok%bool_decide_eq_false & Hr). apply bind_Ok in Hr as (u2 & _ & Hr). injection Hr as <- _. right; left.
    apply eq_None_not_Some in Hn. pose proof (ok_sum s Hok) as Hs. rewrite (ok_new s Hok Hn), msum_empty in Hs. done.
  - apply bind_Ok in Hr as (c & _ & Hr). apply bind_Ok in Hr as (u & _ & Hr). apply bind_Ok in Hr as (u2 & _ & Hr). apply bind_Ok in Hr as (u3 & _ & Hr). injection Hr as <- _. by left.
  - apply guarded_effect in Hr as (_ & s1 & (c & n & _ & Hx & Hm & Hmp & _ & _ & _ & ->)%deposit_effect & ->). right; right; left. exists x, r.
    set (st := set_totals (set_locked s true) _ _) in *. destruct (peak_totals st (total_assets (set_locked s true) + x) (total_shares (set_locked s true) + r)) as (E1 & E2).
    unfold total_shares, total_assets in *. cbn in *. rewrite E1, E2. repeat (split; [done |]). by apply Hpk.
  - apply guarded_effect in Hr as (_ & s1 & (c & _ & Hx & _ & Hy & _ & _ & _ & ->)%withdraw_effect & ->). right; right; right; left. exists x, r.
    pose proof (share_nonneg s a Hok). unfold share_balance_of in *. cbn in *. repeat (split; [done || lia |]). done.
  - apply guarded_effect in Hr as (_ & s1 & (c & Hc & Hy & _ & Hh & _ & _ & ->)%harvest_effect & ->). right; right; right; right. exists (compounded r).
    pose proof (compounded_range s x _ c Hok Hc Hy Hh) as Hr2. split; [lia |].
    set (st := set_totals (set_locked s true) _ _) in *. destruct (peak_totals st (total_assets (set_locked s true) + compounded r) (total_shares (set_locked s true))) as (E1 & E2).
    unfold total_shares, total_assets in *. cbn in *. rewrite E1, E2. repeat (split; [done |]). by apply Hpk.
  - apply guarded_effect in Hr as (_ & s1 & [-> _]%flash_effect & ->). by left.
  - apply check_effect in Hr as [-> | [-> _]]; [| by left]. left. by destruct r.
  - apply bind_Ok in Hr as (u & _ & [= <-]). by left.
  - apply bind_Ok in Hr as (u & _ & [= <-]). by left.
Qed.

Lemma value_step s s' : vault_ok s -> vault_step s s' -> 0 < total_shares s -> total_assets s * total_shares s' <= total_assets s' * total_shares s.
Proof.
  intros Hok Hst Hs. pose proof (ok_live s Hok Hs) as Ha.
  destruct (step_totals s s' Hok Hst) as [(-> & -> & _) | [(? & _) | [(x & m & Hx & Hm & Hp & -> & -> & _) | [(x & y & Hx & Hy & -> & -> & _) | (z & Hz & -> & -> & _)]]]]; [lia | lia | ..].
  - pose proof (share_price_le x s m Hok Hx Hs Hp). nia.
  - rewrite quot_pos in Hy by nia. pose proof (Z.mul_div_le (x * total_assets s) (total_shares s) Hs). nia.
  - nia.
Qed.

(** C19: In every history the assets behind one share never fall while there are shares, whatever
    anybody deposits, withdraws, harvests or borrows; and whoever deposits into a vault with
    shares and withdraws what was minted gets back at most what it paid. *)
Theorem vault_share_value_rises s s' (Hrun : vault_run new_vault s) (Hst : vault_step s s') (Hs : 0 < total_shares s) :
  total_assets s * total_shares s' <= total_assets s' * total_shares s /\
  forall i l a x s1 l1 m j l2 s2 l3 y, deposit i l s a x = Ok (s1, l1, m) -> withdraw j l2 s1 a m = Ok (s2, l3, y) -> y <= x.
Proof.
  pose proof (vault_run_ok s Hrun) as Hok. split; [by apply value_step |]. intros i l a x s1 l1 m j l2 s2 l3 y Hd Hw.
  destruct (deposit_totals _ _ _ _ _ _ _ _ Hd) as (E1 & E2). apply deposit_effect in Hd as (c & n & _ & Hx & Hm & Hp & _).
  apply withdraw_effect in Hw as (_ & _ & _ & _ & Hy & _). pose proof (share_price_le x s m Hok Hx Hs Hp) as Hle.
  rewrite E1, E2 in Hy. pose proof (ok_assets s Hok). subst y. rewrite quot_pos by nia. apply Z.div_le_upper_bound; nia.
Qed.














(** ** Flash loans *)
(** C21: A flash loan that pays a fee leaves the fee in the contract without counting it, and
    every other operation insists that the contract holds exactly what was counted: from
    then on no deposit, no withdrawal and no harvest passes. *)
Theorem flash_loan_freezes_vault i l s b x s' l' fee (Hr : vault_flash_loan i l s b x = Ok (s', l', fee)) (Hfee : 0 < fee) c (Hc : v_config s = Some c)
    (Hbal : total_assets s <= balance l (vc_asset c) (vself i)) :
  forall j l2 a y r, vself j = vself i -> balance l' (vc_asset c) (vself i) <= balance l2 (vc_asset c) (vself i) ->
    vault_deposit j l2 s' a y <> Ok r /\ vault_withdraw j l2 s' a y <> Ok r /\ forall h, vault_harvest j l2 s' a y <> Ok h.
Proof.
  apply guarded_effect in Hr as (_ & s1 & (-> & c' & Hc' & Hl)%flash_effect & ->). cbn in Hc'. rewrite Hc in Hc'. injection Hc' as <-.
  intros j l2 a y [[s2 l3] r] Hj Hl2. split; [| split].
  - intros (_ & s3 & (c2 & n & Hc2 & _ & _ & _ & Hb & _)%deposit_effect & _)%guarded_effect. cbn in Hc2. rewrite Hc in Hc2. injection Hc2 as <-. rewrite Hj in Hb. unfold total_assets in *. cbn in Hb. lia.
  - intros (_ & s3 & (c2 & Hc2 & _ & _ & _ & _ & Hb & _)%withdraw_effect & _)%guarded_effect. cbn in Hc2. rewrite Hc in Hc2. injection Hc2 as <-. rewrite Hj in Hb. unfold total_assets in *. cbn in Hb. lia.
  - intros [[s4 l4] h] (_ & s3 & (c2 & Hc2 & _ & _ & _ & Hb & _)%harvest_effect & _)%guarded_effect. cbn in Hc2. rewrite Hc in Hc2. injection Hc2 as <-. rewrite Hj in Hb. unfold total_assets in *. cbn in Hb. lia.
Qed.
End vault.

(** ** Concrete runs: 33 deposits and withdraws, 34 harvests, 40 borrows *)
#[local] Existing Instance test_host.
#[local] Instance test_tokens : Tokens test_host := map_tokens test_host.

(** The borrower pays back what it got and the fee; [99] is the contract, [20] the asset. *)
Definition repays (b a : Address (Host := test_host)) (x fee : Z) (l : Ledger) : option Ledger := transfer l a b 99 (x + fee).
Definition vault_at : vault_env (H := test_host) := {| vauth := fun _ => true; vself := 99 |}.
Definition purse : Ledger := map_credit test_host (map_credit test_host (map_credit test_host ∅ 20 33 5000) 20 34 5000) 20 40 500.

Abbreviation test_vault := (vault (H := test_host)).
Definition left_with {A} (w : test_vault * Ledger) (r : R (test_vault * Ledger * A)) : test_vault * Ledger := match r with Ok (w', _) => w' | _ => w end.
Definition test_config : VaultConfig (H := test_host) := Build_VaultConfig (H := test_host) 1 20 DEFAULT_PERFORMANCE_FEE_BPS 5.
Definition opened : test_vault * Ledger :=
  (match initialize (H := test_host) vault_at new_vault 1 20 5 with Ok (s, _) => s | _ => new_vault end, purse).
Definition funded : test_vault * Ledger := left_with opened (vault_deposit (H := test_host) vault_at opened.2 opened.1 33 1000).
Definition grown : test_vault * Ledger := left_with funded (vault_harvest (H := test_host) vault_at funded.2 funded.1 34 1000).

Lemma left_Ok {A} w (r : R (test_vault * Ledger * A)) : is_ok r = true -> exists x, r = Ok ((left_with w r).1, (left_with w r).2, x).
Proof. destruct r as [[[s l] x] | |]; [eauto | done | done]. Qed.

Lemma opened_run : vault_run (T := test_tokens) repays new_vault opened.1.
Proof.
  apply (run_next _ _ new_vault); [apply run_refl |].
  eapply (step_init (H := test_host) (T := test_tokens) repays new_vault vault_at (1 : Address (Host := test_host)) (20 : Address (Host := test_host)) (5 : Address (Host := test_host))). reflexivity.
Qed.

Lemma funded_step : vault_step (T := test_tokens) repays opened.1 funded.1.
Proof.
  destruct (left_Ok opened (vault_deposit (H := test_host) vault_at opened.2 opened.1 33 1000) ltac:(vm_compute; reflexivity)) as [x Hx]. exact (step_deposit _ _ _ _ _ _ _ _ _ Hx).
Qed.

(** The harvest of 1000 adds 980 to the assets behind the 1000 shares. *)
Lemma vault_share_value_rises_witness :
  (total_assets funded.1 =? 1000) && (total_assets grown.1 =? 1980) && (total_shares grown.1 =? 1000) = true /\ total_assets funded.1 * total_shares grown.1 <= total_assets grown.1 * total_shares funded.1.
Proof.
  split; [vm_compute; reflexivity |].
  assert (Hg : vault_step (T := test_tokens) repays funded.1 grown.1).
  { destruct (left_Ok funded (vault_harvest (H := test_host) vault_at funded.2 funded.1 34 1000) ltac:(vm_compute; reflexivity)) as [x Hx]. exact (step_harvest _ _ _ _ _ _ _ _ _ Hx). }
  exact (proj1 (vault_share_value_rises (T := test_tokens) repays funded.1 grown.1 (run_next _ _ _ _ opened_run funded_step) Hg ltac:(vm_compute; reflexivity))).
Defined.



(** A loan of 500 at 2% leaves 10 that nobody counted; the same deposit passed before. *)
Definition lent : test_vault * Ledger := left_with funded (vault_flash_loan (H := test_host) repays vault_at funded.2 funded.1 40 500).

Definition fee_of (r : R (test_vault * Ledger * Z)) : Z := match r with Ok (_, f) => f | _ => 0 end.

Lemma flash_loan_freezes_vault_witness : is_ok (vault_deposit (H := test_host) vault_at funded.2 funded.1 33 1000) = true /\
  forall r, vault_deposit (H := test_host) vault_at lent.2 lent.1 33 1000 <> Ok r.
Proof.
  split; [vm_compute; reflexivity |].
  assert (Hr : exists x, vault_flash_loan (H := test_host) repays vault_at funded.2 funded.1 40 500 = Ok (lent.1, lent.2, x)) by (unfold lent; apply left_Ok; vm_compute; reflexivity).
  assert (Hf : 0 < fee_of (vault_flash_loan (H := test_host) repays vault_at funded.2 funded.1 40 500)) by (vm_compute; reflexivity).
  set (c := default test_config (v_config funded.1)).
  assert (H1 : is_ok (load_config funded.1) = true) by (vm_compute; reflexivity).
  assert (H2 : total_assets funded.1 <= balance funded.2 (vc_asset c) (vself vault_at)) by (vm_compute; discriminate).
  destruct Hr as [x Hx]. rewrite Hx in Hf. revert Hx Hf H1 H2. unfold c. clear c. generalize lent funded. intros [s1 l1] [s l] Hx Hf H1 H2 r.
  destruct (v_config s) as [c |] eqn:Hc; [| unfold load_config in H1; cbn in H1; rewrite Hc in H1; discriminate H1]. cbn [fst] in H2. rewrite Hc in H2.
  exact (proj1 (flash_loan_freezes_vault (T := test_tokens) repays vault_at l s 40 500 s1 l1 x Hx Hf c Hc H2 vault_at l1 33 1000 r eq_refl (Z.le_refl _))).
Defined.
